(* ===== verification/_CoqProject ===== *)
-Q . S2P
Prelude.v
E820.v
Hlist.v
Machine.v
StringOps.v
Bytes.v
Areas.v
Malloc.v
MallocSpec.v
MallocInv.v
MallocProof.v
MallocCorrect.v
MallocHeap.v
Pmm.v
Kbd.v
Timer.v
Clock.v
Pci.v
FwCfg.v
Romfile.v
Loader.v
LoaderCorrect.v
LoaderSpec.v
Output.v
OutputCorrect.v
BootPath.v
BootOrder.v
PciInit.v
PciCorrect.v
Block.v
Disk.v
DiskCorrect.v
ScsiCmd.v
Cdrom.v
ScsiCorrect.v
CdromCorrect.v
CdromBoot.v
StdVga.v
VgaFb.v
VgaBios.v
VgaText.v
VgaScreen.v
VgaPixel.v
VgaState.v
Sercon.v
SerconTerm.v
SerconLine.v
SerconScreen.v
SerconKeys.v
Boot.v
BootCorrect.v
Lzma.v
LzmaCorrect.v
LzmaRange.v
LzmaPackets.v
Sha1.v
Sha1Correct.v
Tcg.v
TcgLog.v
TcgDigest.v
TcgCorrect.v
TcgReplay.v
TcgInt.v
KExpr.v
KExprCorrect.v
KExprDups.v
KSym.v
KSymInv.v
KSymCorrect.v
KConf.v
KConfText.v
KConfCorrect.v
