(* ===== verification/Prelude.v ===== *)
(** * SeaBIOS 1.13.0: a verification library

    The repository packages a virtual machine setup; its C program is the BIOS
    it ships, SeaBIOS 1.13.0, under src/bios/seabios-1.13.0 (paths below are
    relative to that directory).  This library models parts of the BIOS and of
    the configuration tool that builds it as Rocq functions, and proves what
    makes them correct.

    ** How the parts interact

    At power-on the code reads the hardware description QEMU gives through the
    fw_cfg device (paravirt.c) into a chain of files (romfile.c), records the
    memory in the e820 map (e820map.c), and carves the low, high and ROM areas
    into zones managed by the allocator (malloc.c).  The table loader
    (romfile_loader.c) runs QEMU's script of allocations, pointer patches and
    checksums with these.  PCI devices get bus numbers and addresses
    (pciinit.c).  Drivers register drives (block.c) and bootable devices
    (boot.c), ordered by the boot order file.  Then the boot sequence starts
    the first entry, and the interrupt handlers serve the operating system:
    disks (disk.c), keyboard (kbd.c), mouse, clock (clock.c), the memory map.

    ** The files

    Foundations:
    - [Prelude]: machine integers ([u8] .. [u64], [s8] .. [s32]), bit fields,
      tactics, the hint databases [width] and [seabios].
    - [Machine]: memory as a map from addresses to bytes (src/farptr.h), the
      registers of a handler (src/bregs.h), the BIOS data area (src/std/bda.h),
      and the state monad [M W] of code with effects, where [W] is what lies
      behind the ports.  A run that returns [None] ran out of fuel or met an
      environment that gives no answer.
    - [Hlist] (src/list.h) over a store of words, with the class the allocator
      uses; [StringOps] (src/string.c); [Bytes]: byte strings as numbers;
      [Areas]: what copies and fills leave of other areas.

    Memory:
    - [E820] (src/e820map.c): the array [e820_list] as a list; the meaning of a
      map is a function from addresses to types.
    - [Malloc] (src/malloc.c) with [MallocSpec], [MallocInv], [MallocProof]:
      the zones as pointers, their representation [zrep] as lists of ranges,
      the invariant [malloc_inv], and the refinement between the two; the
      theorems are in [MallocCorrect].  [MallocHeap] gives the class [Heap]
      that clients of the allocator are verified against.
    - [Pmm] (src/pmm.c), on top of both.

    Firmware configuration:
    - [FwCfg] (src/fw/paravirt.c, fw_cfg access), [Romfile] (src/romfile.c),
      [Loader] (src/fw/romfile_loader.c); theorems in [FwCfg], [LoaderCorrect]
      (safety for every script) and [LoaderSpec] (what the commands do).
    - [Output] (src/output.c) and [OutputCorrect]: the formatter and its sinks.

    Devices:
    - [Timer] (src/hw/timer.c, src/hw/rtc.c), [Clock] (src/clock.c),
      [Kbd] (src/kbd.c).
    - [Pci] (src/hw/pci.c), [PciInit] (src/fw/pciinit.c), [PciCorrect].
    - [Block] (src/block.c), [Disk] (src/disk.c), [DiskCorrect].
    - [ScsiCmd] (src/hw/blockcmd.c) and [ScsiCorrect]: the commands to SCSI and
      ATAPI drives, above the drivers that carry them.
    - [StdVga] (vgasrc/stdvga.c, stdvgaio.c), [VgaFb] (vgasrc/vgafb.c) and
      [VgaBios] (vgasrc/vgabios.c, swcursor.c): the video services of INT 10h.
      [VgaText] has the lemmas on rows and windows of the text page, [VgaScreen]
      the terminal the text services implement, [VgaPixel] the pixels,
      [VgaState] the saving and restoring of the video state (AH=1Ch).
    - [Sercon] (src/sercon.c, src/cp437.c): the console on a serial port, which
      answers INT 10h instead of a card and types what it receives.
      [SerconTerm] is the terminal at the other end, [SerconLine] the class of
      ports the proofs use, [SerconScreen] the refinement between the screen
      of a card and that terminal, [SerconKeys] the way of the keys.

    Booting:
    - [BootPath], [BootOrder], [Boot] (all src/boot.c) and [BootCorrect].
    - [Cdrom] (src/cdrom.c): emulated drives on images ([CdromCorrect]) and
      booting from a CD ([CdromBoot]).
    - [Tcg] (src/tcgbios.c but for its menu): measurements, the event log, the
      commands to the TPM and its part of INT 1Ah.  [TcgLog] relates the log
      area to the list of its entries, [TcgDigest] the bytes of the digests to
      the banks of the TPM, [TcgCorrect] follows one measurement, [TcgReplay]
      and [TcgInt] have the theorems.

    Algorithms:
    - [Sha1] (src/sha1.c) and [Sha1Correct]: the hash of the TPM event log
      against the definition of the standard.
    - [Lzma] (src/fw/lzmadecode.c, [ulzma] of src/fw/coreboot.c): the decoder as
      programs over the range decoder and its three arrays; [LzmaCorrect] (safe
      on any input), [LzmaRange] (range coding is inverted) and [LzmaPackets] (a
      reference encoder is inverted).

    Build configuration:
    - [KExpr] (scripts/kconfig/expr.c); [KExprCorrect] relates the rewritings
      to the three-valued logic, [KExprDups] treats the removal of redundant
      operands.
    - [KSym] (scripts/kconfig/symbol.c): the values of symbols, computed on
      demand, and what the user may set.  [KSymInv]: every operation ends and
      keeps the types; [KSymCorrect]: without choices and circles the values
      are the solution of the configuration's equations.
    - [KConf] (scripts/kconfig/confdata.c): the texts of configuration files and
      of the C header, and reading them; [KConfText] has the lemmas on lines and
      quoting, [KConfCorrect] the round trip.

    ** What the theorems show

    Memory: the map after [e820_add] is the old one overwritten on the given
    range, and never leaves its array; the pointer lists behave as sequences;
    the allocator hands out disjoint aligned blocks inside its zones, fails
    only when it must, and freeing undoes an allocation.  Loader: any script
    leaves memory outside the blocks allocated for it untouched.  Input: the
    key buffer is a bounded queue.  Time: waits end, not early.  PCI: regions
    are placed without overlap and aligned.  Disks: a translated geometry
    addresses only sectors that exist, requests out of range are refused, an
    emulated drive shows the bytes of its image, and a CD boots as its catalog
    says.  Video: text output is that of a terminal, windows scroll, a pixel is
    set without its neighbours, a saved state of the card is restored; through
    the serial console the terminal at the other end shows what the screen of a
    card would, and the keys typed there arrive in the key buffer.  Boot: the list of devices is sorted by priority, stably, and the entries
    are tried in that order.  TPM: the log replays to the
    registers of the device, digests never overrun the entry, a closed interface
    stays closed.  Configuration: the rewritings of expressions end and keep the
    value, on the expressions for which they do; the values of symbols solve
    their equations in whatever order they are asked for, and what the user sets
    takes effect; a saved configuration is restored.  Algorithms:
    SHA-1 is the standard's; the decompressor never leaves its buffers and gives
    back every text a reference encoder compresses.

    ** Fuel

    Recursion that follows memory or waits for a device takes fuel, and [None]
    is its exhaustion; the theorems state that enough fuel gives a result
    (a string function needs the distance to the terminator; a wait the number
    of polls until the device is ready; [foreachbdf] one step per function of
    the bus).  Where the bound depends on the argument only it is computed:
    [LzmaDecode] takes as much fuel as there are bytes of output;
    [expr_eq] uses the height of its first operand, [expr_transform] four times
    the height, [expr_eliminate_dups] the number of nodes and [dups_fuel] for
    the pairs of operands; the calculation of a symbol ([calc_fuel]) three calls
    for each symbol; the theorems show that they suffice.

    ** Environment

    Devices, other drivers and option ROM code are parameters: ports and CPU
    instructions are functions on the state [W], collected in classes
    ([Vars], [Clocks], ...).  Hypotheses on them are their documented
    behaviour (fw_cfg returns the bytes of the selected item, a PCI register
    keeps its writable bits) and every theorem that has one comes with a
    witness at a concrete device.

    ** Not modelled

    Drivers of disk, USB, network and TPM hardware (src/hw), which are
    sequences of port and ring accesses on devices only their data sheets
    describe; the cooperative threads and mode switches of src/stacks.c, which
    are assembly (the model runs one thread at a time and calls other modes
    directly); the picture decoders and the splash screen; the mode tables and
    the set-up of particular VGA cards, their planes behind one window, and VBE
    (the rest of vgasrc); the front ends of the configuration tool, and its generated lexer
    and parser; table builders for platforms other than QEMU (coreboot, Xen,
    CSM).  Preemption by interrupts is modelled where the code depends on it
    (the wait services of clock.c), as changes to the shared flag; interrupts that
    use the serial console's variables while it waits for its port are not. *)
From Stdlib Require Export ZArith Lia.
From stdpp Require Export base numbers list gmap.

(** The development uses constant moduli almost everywhere, so [lia] is set up
    to expand [/] and [mod] into their Euclidean equations. *)
#[global] Ltac Zify.zify_post_hook ::= Z.to_euclidean_division_equations.

Open Scope Z_scope.

(** ** Machine integers: src/types.h [u8 .. s64] *)

Definition u8 (x : Z) : Z := x mod 2 ^ 8.
Definition u16 (x : Z) : Z := x mod 2 ^ 16.
Definition u32 (x : Z) : Z := x mod 2 ^ 32.
Definition u64 (x : Z) : Z := x mod 2 ^ 64.

Definition s8 (x : Z) : Z := let y := u8 x in if y <? 2 ^ 7 then y else y - 2 ^ 8.
Definition s16 (x : Z) : Z := let y := u16 x in if y <? 2 ^ 15 then y else y - 2 ^ 16.
Definition s32 (x : Z) : Z := let y := u32 x in if y <? 2 ^ 31 then y else y - 2 ^ 32.

(** C truth value of an integer, and the integer of a C comparison. *)
Definition truthy (x : Z) : bool := negb (x =? 0).
Definition b2z (b : bool) : Z := if b then 1 else 0.

Create HintDb seabios.
Create HintDb width.
Create Rewrite HintDb width.

(** Case analysis on the boolean comparisons the models are written with. *)
Ltac zbool :=
  repeat match goal with
  | H : context [?a =? ?b] |- _ => destruct (Z.eqb_spec a b)
  | |- context [?a =? ?b] => destruct (Z.eqb_spec a b)
  | H : context [?a <? ?b] |- _ => destruct (Z.ltb_spec a b)
  | |- context [?a <? ?b] => destruct (Z.ltb_spec a b)
  | H : context [?a <=? ?b] |- _ => destruct (Z.leb_spec a b)
  | |- context [?a <=? ?b] => destruct (Z.leb_spec a b)
  end; simpl in *; try lia; try congruence.

(** Split the conjunctions of the context. *)
Ltac dands := repeat match goal with H : _ /\ _ |- _ => destruct H end.

(** Conjunctions of equations and linear facts. *)
Ltac ands := split_and?; simpl in *; eauto; try done; try lia.

Section Widths.
Implicit Types x y : Z.

Lemma u8_range x : 0 <= u8 x < 2 ^ 8.
Proof. unfold u8. lia. Qed.
Lemma u16_range x : 0 <= u16 x < 2 ^ 16.
Proof. unfold u16. lia. Qed.
Lemma u32_range x : 0 <= u32 x < 2 ^ 32.
Proof. unfold u32. lia. Qed.
Lemma u64_range x : 0 <= u64 x < 2 ^ 64.
Proof. unfold u64. lia. Qed.

Lemma u8_small x : 0 <= x < 2 ^ 8 -> u8 x = x.
Proof. unfold u8. lia. Qed.
Lemma u16_small x : 0 <= x < 2 ^ 16 -> u16 x = x.
Proof. unfold u16. lia. Qed.
Lemma u32_small x : 0 <= x < 2 ^ 32 -> u32 x = x.
Proof. unfold u32. lia. Qed.
Lemma u64_small x : 0 <= x < 2 ^ 64 -> u64 x = x.
Proof. unfold u64. lia. Qed.

Lemma u8_idem x : u8 (u8 x) = u8 x.
Proof. apply u8_small, u8_range. Qed.
Lemma u16_idem x : u16 (u16 x) = u16 x.
Proof. apply u16_small, u16_range. Qed.
Lemma u32_idem x : u32 (u32 x) = u32 x.
Proof. apply u32_small, u32_range. Qed.
Lemma u64_idem x : u64 (u64 x) = u64 x.
Proof. apply u64_small, u64_range. Qed.
End Widths.

#[export] Hint Resolve u8_range u16_range u32_range u64_range : width.
#[export] Hint Rewrite u8_idem u16_idem u32_idem u64_idem : width.

(** ** Bit tricks: types.h [ALIGN], [ALIGN_DOWN] at a given width *)

Definition ALIGN_DOWN_w (w x a : Z) : Z := Z.land x (Z.lnot (a - 1) mod 2 ^ w).
Definition ALIGN_w (w x a : Z) : Z :=
  let mask := (a - 1) mod 2 ^ w in
  Z.land ((x + mask) mod 2 ^ w) (Z.lnot mask mod 2 ^ w).

Definition ALIGN_DOWN : Z -> Z -> Z := ALIGN_DOWN_w 32.
Definition ALIGN : Z -> Z -> Z := ALIGN_w 32.

(** The alignments the code passes are powers of two. *)
Definition pow2_align (w a : Z) : Prop := exists k, 0 <= k < w /\ a = 2 ^ k.

Lemma pow2_align_intro w k : 0 <= k < w -> pow2_align w (2 ^ k).
Proof. intros; exists k; auto. Qed.

Lemma pow2_align_pos w a : pow2_align w a -> 0 < a.
Proof. intros (k & Hk & ->). apply Z.pow_pos_nonneg; lia. Qed.

Lemma pow2_align_le w a : pow2_align w a -> a <= 2 ^ (w - 1).
Proof. intros (k & Hk & ->). apply Z.pow_le_mono_r; lia. Qed.

Lemma pow2_align_divide w a : pow2_align w a -> (a | 2 ^ w).
Proof.
  intros (k & Hk & ->). exists (2 ^ (w - k)).
  rewrite <- Z.pow_add_r by lia. f_equal; lia.
Qed.

#[export] Hint Resolve pow2_align_pos pow2_align_intro : seabios.

Lemma land_lnot_mask w x k :
  0 <= k <= w -> 0 <= x < 2 ^ w ->
  Z.land x (Z.lnot (2 ^ k - 1) mod 2 ^ w) = x - x mod 2 ^ k.
Proof.
  intros Hk Hx.
  rewrite <- (Z.land_ones (Z.lnot _)) by lia.
  replace (2 ^ k - 1) with (Z.ones k) by (rewrite Z.ones_equiv; lia).
  rewrite (Z.land_comm (Z.lnot _)), Z.land_assoc, Z.land_ones, Z.mod_small by lia.
  rewrite <- Z.ldiff_land, Z.ldiff_ones_r, Z.shiftl_mul_pow2, Z.shiftr_div_pow2 by lia.
  pose proof (Z.div_mod x (2 ^ k) ltac:(lia)). lia.
Qed.

Lemma ALIGN_DOWN_w_spec w x a :
  pow2_align w a -> 0 <= x < 2 ^ w -> ALIGN_DOWN_w w x a = x - x mod a.
Proof. intros (k & Hk & ->) Hx. apply land_lnot_mask; lia. Qed.

Lemma ALIGN_w_spec w x a :
  pow2_align w a -> 0 <= x -> x + a - 1 < 2 ^ w ->
  ALIGN_w w x a = (x + a - 1) - (x + a - 1) mod a.
Proof.
  intros (k & Hk & ->) Hx Hov. unfold ALIGN_w.
  assert (0 < 2 ^ k) by (apply Z.pow_pos_nonneg; lia).
  assert (2 ^ k < 2 ^ w) by (apply Z.pow_lt_mono_r; lia).
  rewrite (Z.mod_small (2 ^ k - 1)) by lia.
  replace (x + (2 ^ k - 1)) with (x + 2 ^ k - 1) by lia.
  rewrite (Z.mod_small (x + 2 ^ k - 1)) by lia.
  apply land_lnot_mask; lia.
Qed.

(** What the callers use: the result is aligned and the nearest one. *)
Lemma ALIGN_DOWN_w_bounds w x a :
  pow2_align w a -> 0 <= x < 2 ^ w ->
  (a | ALIGN_DOWN_w w x a) /\ x - a < ALIGN_DOWN_w w x a <= x /\ 0 <= ALIGN_DOWN_w w x a.
Proof.
  intros Ha Hx. rewrite ALIGN_DOWN_w_spec by assumption.
  pose proof (pow2_align_pos _ _ Ha).
  pose proof (Z.mod_pos_bound x a ltac:(lia)).
  pose proof (Z.mod_le x a ltac:(lia) ltac:(lia)).
  split; [|lia]. exists (x / a). pose proof (Z.div_mod x a ltac:(lia)). lia.
Qed.

Lemma ALIGN_w_bounds w x a :
  pow2_align w a -> 0 <= x -> x + a - 1 < 2 ^ w ->
  (a | ALIGN_w w x a) /\ x <= ALIGN_w w x a < x + a.
Proof.
  intros Ha Hx Hov. rewrite ALIGN_w_spec by assumption.
  pose proof (pow2_align_pos _ _ Ha).
  pose proof (Z.mod_pos_bound (x + a - 1) a ltac:(lia)).
  split; [|lia]. exists ((x + a - 1) / a).
  pose proof (Z.div_mod (x + a - 1) a ltac:(lia)). lia.
Qed.

Lemma ALIGN_DOWN_w_aligned w x a :
  pow2_align w a -> 0 <= x < 2 ^ w -> (a | x) -> ALIGN_DOWN_w w x a = x.
Proof.
  intros Ha Hx Hd. rewrite ALIGN_DOWN_w_spec by assumption.
  rewrite (proj2 (Z.mod_divide x a ltac:(pose proof (pow2_align_pos _ _ Ha); lia))) by assumption.
  lia.
Qed.

Lemma ALIGN_w_aligned w x a :
  pow2_align w a -> 0 <= x -> x + a - 1 < 2 ^ w -> (a | x) -> ALIGN_w w x a = x.
Proof.
  intros Ha Hx Hov [q Hq].
  destruct (ALIGN_w_bounds w x a Ha Hx Hov) as [[r Hr] Hb].
  pose proof (pow2_align_pos _ _ Ha). assert (r = q) by nia. nia.
Qed.

(** ** Bits *)

Lemma testbit_mod_pow2 x w i :
  0 <= i -> 0 <= w -> Z.testbit (x mod 2 ^ w) i = (i <? w) && Z.testbit x i.
Proof.
  intros Hi Hw. destruct (Z.ltb_spec i w); simpl.
  - apply Z.mod_pow2_bits_low; lia.
  - apply Z.mod_pow2_bits_high; lia.
Qed.

Lemma testbit_small x w i : 0 <= x < 2 ^ w -> w <= i -> Z.testbit x i = false.
Proof.
  intros Hx Hi. destruct (Z.eq_dec x 0) as [->|]; [apply Z.bits_0|].
  assert (0 <= w) by (destruct (Z.lt_ge_cases w 0); [rewrite Z.pow_neg_r in Hx; lia|lia]).
  apply Z.bits_above_log2; [lia|].
  assert (Z.log2 x < w) by (apply Z.log2_lt_pow2; lia). lia.
Qed.

Lemma land_pow2_range w x y : 0 <= w -> 0 <= x -> 0 <= y < 2 ^ w -> 0 <= Z.land x y < 2 ^ w.
Proof.
  intros Hw Hx Hy. split; [apply Z.land_nonneg; lia|].
  rewrite <- (Z.mod_small y (2 ^ w)) by lia.
  rewrite <- Z.land_ones, Z.land_assoc, Z.land_ones by lia. apply Z.mod_pos_bound. lia.
Qed.

Lemma lor_pow2_range w x y :
  0 <= w -> 0 <= x < 2 ^ w -> 0 <= y < 2 ^ w -> 0 <= Z.lor x y < 2 ^ w.
Proof.
  intros Hw Hx Hy. split; [apply Z.lor_nonneg; lia|].
  rewrite <- (Z.mod_small x (2 ^ w)), <- (Z.mod_small y (2 ^ w)) by lia.
  rewrite <- !Z.land_ones by lia. rewrite <- Z.land_lor_distr_l, Z.land_ones by lia.
  apply Z.mod_pos_bound. lia.
Qed.

(** A C test of one bit. *)
Lemma truthy_land_bit x k : 0 <= k -> truthy (Z.land x (2 ^ k)) = Z.testbit x k.
Proof.
  intros Hk. unfold truthy. destruct (Z.testbit x k) eqn:Hb.
  - destruct (Z.eqb_spec (Z.land x (2 ^ k)) 0) as [H|]; [|done].
    assert (Ht : Z.testbit (Z.land x (2 ^ k)) k = true)
      by (rewrite Z.land_spec, Hb, Z.pow2_bits_true by done; done).
    by rewrite H, Z.bits_0 in Ht.
  - replace (Z.land x (2 ^ k)) with 0; [done|]. symmetry. apply Z.bits_inj'. intros n Hn.
    rewrite Z.land_spec, Z.bits_0, Z.pow2_bits_eqb by done.
    destruct (Z.eqb_spec k n) as [<-|]; [by rewrite Hb|by rewrite andb_false_r].
Qed.

Lemma truthy_lor x y : truthy (Z.lor x y) = truthy x || truthy y.
Proof.
  unfold truthy. destruct (Z.eqb_spec (Z.lor x y) 0) as [H|H].
  - apply Z.lor_eq_0_iff in H as [-> ->]. done.
  - destruct (Z.eqb_spec x 0), (Z.eqb_spec y 0); subst; done.
Qed.

Lemma truthy_land_lor x a b : truthy (Z.land x (Z.lor a b)) = truthy (Z.land x a) || truthy (Z.land x b).
Proof. by rewrite Z.land_lor_distr_r, truthy_lor. Qed.

(** Joining the high bits of one word with the low bits of another. *)
Lemma lor_add_low x y k : 0 <= k -> Z.lor (x - x mod 2 ^ k) (y mod 2 ^ k) = x - x mod 2 ^ k + y mod 2 ^ k.
Proof.
  intros Hk. assert (HP : 0 < 2 ^ k) by (apply Z.pow_pos_nonneg; lia).
  assert (Hx : x - x mod 2 ^ k = Z.shiftl (x / 2 ^ k) k).
  { rewrite Z.shiftl_mul_pow2 by done. pose proof (Z.div_mod x (2 ^ k) ltac:(lia)). lia. }
  assert (Hand : Z.land (Z.shiftl (x / 2 ^ k) k) (y mod 2 ^ k) = 0).
  { apply Z.bits_inj'. intros n Hn. rewrite Z.land_spec, Z.shiftl_spec, testbit_mod_pow2, Z.bits_0 by done.
    destruct (Z.ltb_spec n k); [by rewrite Z.testbit_neg_r by lia|apply andb_false_r]. }
  rewrite Hx. rewrite Z.add_nocarry_lxor by done. by rewrite Z.lxor_lor.
Qed.
