(* ===== verification/E820.v ===== *)
(** * The e820 memory map (src/e820map.c, src/e820map.h)

    The map is the C array [e820_list] of [BUILD_MAX_E820] entries with its
    live length [e820_count]; [remove_e820], [insert_e820] and [e820_add] are
    the functions of the same names.  The abstract view is the function from an
    address to the type of the region that covers it ([map_at]). *)
From stdpp Require Import sorting.
From S2P Require Import Prelude.

Definition BUILD_MAX_E820 : nat := 32.

Definition E820_RAM := 1.
Definition E820_RESERVED := 2.
Definition E820_ACPI := 3.
Definition E820_NVS := 4.
Definition E820_UNUSABLE := 5.
Definition E820_HOLE : Z := u32 (-1).

Record e820entry := E820Entry { e_start : Z; e_size : Z; e_type : Z }.

#[export] Instance e820entry_eq_dec : EqDecision e820entry.
Proof. solve_decision. Defined.

Definition e820_zero := E820Entry 0 0 0.

Record e820map := E820Map { e820_list : list e820entry; e820_count : nat }.

(** The map as the BIOS image initialises it: no live entry. *)
Definition e820_empty : e820map := E820Map (replicate BUILD_MAX_E820 e820_zero) 0.

(** ** Operations *)

(** [memmove (&a[dst], &a[src], sizeof(a[0]) * n)] on an array. *)
Definition array_move {A} (dst src n : nat) (a : list A) : list A :=
  take dst a ++ take n (drop src a) ++ drop (dst + n) a.

Definition e820_get (m : e820map) (i : nat) : e820entry :=
  default e820_zero (e820_list m !! i).

Definition e820_set (m : e820map) (i : nat) (e : e820entry) : e820map :=
  E820Map (<[i := e]> (e820_list m)) (e820_count m).

Definition e_end (e : e820entry) : Z := u64 (e_start e + e_size e).

Definition remove_e820 (i : nat) (m : e820map) : e820map :=
  let count := (e820_count m - 1)%nat in
  E820Map (array_move i (i + 1) (count - i) (e820_list m)) count.

Definition insert_e820 (i : nat) (start size type : Z) (m : e820map) : e820map :=
  if (BUILD_MAX_E820 <=? e820_count m)%nat then m
  else
    let moved := array_move (i + 1) i (e820_count m - i) (e820_list m) in
    e820_set (E820Map moved (e820_count m + 1)) i (E820Entry start size type).

(** The first loop of [e820_add]: the position of the new item, the item as
    widened by a merge with its predecessor, the map after a split. *)
Fixpoint e820_find (fuel i : nat) (start size type end_ : Z) (m : e820map)
    : nat * Z * Z * e820map :=
  match fuel with
  | O => (i, start, size, m)
  | S fuel' =>
    if (i <? e820_count m)%nat then
      let e := e820_get m i in
      if e_end e <? start then e820_find fuel' (i + 1) start size type end_ m
      else if e_start e <? start then
        if type =? e_type e then
          (i, e_start e, u64 (size + u64 (start - e_start e)), m)
        else
          let ee := e_end e in
          let m1 := e820_set m i
            (E820Entry (e_start e) (u64 (start - e_start e)) (e_type e)) in
          let m2 := if end_ <? ee
                    then insert_e820 (i + 1) end_ (u64 (ee - end_)) (e_type e) m1
                    else m1 in
          ((i + 1)%nat, start, size, m2)
      else (i, start, size, m)
    else (i, start, size, m)
  end.

(** The second loop: remove or trim what the new item overlaps. *)
Fixpoint e820_overlap (fuel i : nat) (size type end_ : Z) (m : e820map)
    : Z * e820map :=
  match fuel with
  | O => (size, m)
  | S fuel' =>
    if (i <? e820_count m)%nat then
      let e := e820_get m i in
      if end_ <? e_start e then (size, m)
      else
        let ee := e_end e in
        if ee <=? end_ then e820_overlap fuel' i size type end_ (remove_e820 i m)
        else
          let e' := E820Entry end_ (u64 (ee - end_)) (e_type e) in
          let m1 := e820_set m i e' in
          if type =? e_type e
          then (u64 (size + e_size e'), remove_e820 i m1)
          else (size, m1)
    else (size, m)
  end.

Definition e820_add (start size type : Z) (m : e820map) : e820map :=
  if size =? 0 then m
  else
    let end_ := u64 (start + size) in
    let '(i, start1, size1, m1) :=
      e820_find (e820_count m) 0 start size type end_ m in
    let '(size2, m2) :=
      e820_overlap (e820_count m1) i size1 type end_ m1 in
    if type =? E820_HOLE then m2 else insert_e820 i start1 size2 type m2.

Definition e820_remove (start size : Z) (m : e820map) : e820map :=
  e820_add start size E820_HOLE m.

(** [e820_type_name] of the debug dump. *)
Definition e820_type_name (type : Z) : list Z :=
  if type =? E820_RAM then [82; 65; 77]                               (* RAM *)
  else if type =? E820_RESERVED then [82; 69; 83; 69; 82; 86; 69; 68] (* RESERVED *)
  else if type =? E820_ACPI then [65; 67; 80; 73]                     (* ACPI *)
  else if type =? E820_NVS then [78; 86; 83]                          (* NVS *)
  else if type =? E820_UNUSABLE then [85; 78; 85; 83; 65; 66; 76; 69] (* UNUSABLE *)
  else [85; 78; 75; 78; 79; 87; 78].                                  (* UNKNOWN *)

(** ** The live entries *)

Definition live (m : e820map) : list e820entry := take (e820_count m) (e820_list m).

(** The representation invariant of the array. *)
Definition e820_rep (m : e820map) : Prop :=
  length (e820_list m) = BUILD_MAX_E820 /\ (e820_count m <= BUILD_MAX_E820)%nat.

(** Entries in order: disjoint, and adjacent ones of different types. *)
Definition e820_before (e1 e2 : e820entry) : Prop :=
  e_start e1 + e_size e1 <= e_start e2 /\
  (e_start e1 + e_size e1 = e_start e2 -> e_type e1 <> e_type e2).

Definition e820_ok (e : e820entry) : Prop :=
  0 <= e_start e /\ 0 < e_size e /\ e_start e + e_size e < 2 ^ 64 /\
  e_type e <> E820_HOLE.

Definition e820_wf (l : list e820entry) : Prop :=
  Forall e820_ok l /\ StronglySorted e820_before l.

(** What address [a] is, according to a list of entries. *)
Definition covers (a : Z) (e : e820entry) : bool :=
  (e_start e <=? a) && (a <? e_start e + e_size e).

Fixpoint map_at (l : list e820entry) (a : Z) : option Z :=
  match l with
  | [] => None
  | e :: l' => if covers a e then Some (e_type e) else map_at l' a
  end.

(** ** The array operations on the live entries *)

Lemma live_split m :
  e820_rep m -> exists tl, e820_list m = live m ++ tl /\
    length (live m) = e820_count m /\
    (length tl + e820_count m = BUILD_MAX_E820)%nat.
Proof.
  intros [Hl Hc]. exists (drop (e820_count m) (e820_list m)). unfold live.
  rewrite take_drop, length_take, length_drop. split_and!; [done|lia..].
Qed.

Lemma live_of_app l tl n : length l = n -> live (E820Map (l ++ tl) n) = l.
Proof. intros <-. apply take_app_length. Qed.

Lemma array_move_down {A} (P R tl : list A) x :
  array_move (length P) (length P + 1) (length R) (P ++ x :: R ++ tl) =
  P ++ R ++ drop (length R) (x :: R ++ tl).
Proof.
  unfold array_move. rewrite take_app_length, drop_app_add, drop_app_add. simpl.
  by rewrite drop_0, take_app_length.
Qed.

Lemma array_move_up {A} (P R tl : list A) x :
  array_move (length P + 1) (length P) (length R) (P ++ R ++ x :: tl) =
  P ++ take 1 (R ++ x :: tl) ++ R ++ tl.
Proof.
  unfold array_move.
  rewrite take_app_add, drop_app_length, take_app_length, (app_assoc P R), <- Nat.add_assoc.
  replace (length P + (1 + length R))%nat with (length (P ++ R) + 1)%nat
    by (rewrite length_app; lia).
  by rewrite drop_app_add, <- app_assoc.
Qed.

Section ArrayOps.
Context (m : e820map) (P R : list e820entry) (e e' : e820entry).
Hypothesis Hrep : e820_rep m.

Lemma live_get : live m = P ++ e :: R -> e820_get m (length P) = e.
Proof.
  intros HL. destruct (live_split m Hrep) as (tl & Htl & _).
  unfold e820_get. rewrite Htl, HL, <- app_assoc. simpl.
  by rewrite list_lookup_middle.
Qed.

Lemma live_set :
  live m = P ++ e :: R ->
  e820_rep (e820_set m (length P) e') /\
  live (e820_set m (length P) e') = P ++ e' :: R /\
  e820_count (e820_set m (length P) e') = e820_count m.
Proof.
  intros HL. destruct (live_split m Hrep) as (tl & Htl & Hlen & Hcap).
  unfold e820_set. rewrite Htl, HL, <- app_assoc. simpl.
  rewrite insert_app_r_alt, Nat.sub_diag by lia. simpl.
  rewrite HL, length_app in Hlen. simpl in Hlen. split_and!; [split|..]; simpl.
  - rewrite length_app, length_cons, length_app. lia.
  - lia.
  - rewrite app_comm_cons, app_assoc. apply live_of_app.
    rewrite length_app, length_cons. lia.
  - done.
Qed.

Lemma live_remove :
  live m = P ++ e :: R ->
  e820_rep (remove_e820 (length P) m) /\
  live (remove_e820 (length P) m) = P ++ R /\
  e820_count (remove_e820 (length P) m) = (e820_count m - 1)%nat.
Proof.
  intros HL. destruct (live_split m Hrep) as (tl & Htl & Hlen & Hcap).
  rewrite HL, length_app, length_cons in Hlen.
  unfold remove_e820. rewrite Htl, HL, <- app_assoc. simpl.
  replace (e820_count m - 1 - length P)%nat with (length R) by lia.
  rewrite array_move_down. split_and!; [split|..]; simpl.
  - rewrite !length_app, length_drop, length_cons, length_app. lia.
  - lia.
  - rewrite app_assoc. apply live_of_app. rewrite length_app. lia.
  - done.
Qed.

Lemma live_insert :
  live m = P ++ R -> (e820_count m < BUILD_MAX_E820)%nat ->
  let m' := insert_e820 (length P) (e_start e) (e_size e) (e_type e) m in
  e820_rep m' /\ live m' = P ++ e :: R /\ e820_count m' = (e820_count m + 1)%nat.
Proof.
  intros HL Hc. destruct (live_split m Hrep) as (tl & Htl & Hlen & Hcap).
  rewrite HL, length_app in Hlen. cbn zeta. unfold insert_e820.
  rewrite (proj2 (Nat.leb_gt _ _)) by lia.
  destruct tl as [|x tl]; [simpl in *; lia|].
  rewrite Htl, HL, <- app_assoc.
  replace (e820_count m - length P)%nat with (length R) by lia.
  rewrite array_move_up. unfold e820_set. simpl e820_list. simpl e820_count.
  rewrite insert_app_r_alt, Nat.sub_diag by lia.
  replace (E820Entry (e_start e) (e_size e) (e_type e)) with e by by destruct e.
  assert (Hone : length (take 1 (R ++ x :: tl)) = 1%nat)
    by (rewrite length_take, length_app, length_cons; lia).
  destruct (take 1 (R ++ x :: tl)) as [|y [|]]; [done| |done].
  simpl in *. split_and!; [split|..]; simpl.
  - rewrite length_app, length_cons, length_app. lia.
  - lia.
  - rewrite app_comm_cons, app_assoc. apply live_of_app.
    rewrite length_app, length_cons. lia.
  - done.
Qed.
End ArrayOps.

(** ** The two loops as functions on the live entries *)

Definition lend (e : e820entry) : Z := e_start e + e_size e.

Fixpoint lfind (start size type end_ : Z) (l : list e820entry)
    : list e820entry * Z * Z * list e820entry :=
  match l with
  | [] => ([], start, size, [])
  | e :: r =>
    if lend e <? start then
      let '(A, s, z, R) := lfind start size type end_ r in (e :: A, s, z, R)
    else if e_start e <? start then
      if type =? e_type e then ([], e_start e, size + (start - e_start e), l)
      else ([E820Entry (e_start e) (start - e_start e) (e_type e)], start, size,
            if end_ <? lend e
            then E820Entry end_ (lend e - end_) (e_type e) :: r else r)
    else ([], start, size, l)
  end.

Fixpoint loverlap (size type end_ : Z) (l : list e820entry) : Z * list e820entry :=
  match l with
  | [] => (size, [])
  | e :: r =>
    if end_ <? e_start e then (size, l)
    else if lend e <=? end_ then loverlap size type end_ r
    else if type =? e_type e then (size + (lend e - end_), r)
    else (size, E820Entry end_ (lend e - end_) (e_type e) :: r)
  end.

Lemma e_end_ok e : e820_ok e -> e_end e = lend e.
Proof. unfold e820_ok, e_end, lend. intros. apply u64_small. lia. Qed.

Lemma live_length m : e820_rep m -> length (live m) = e820_count m.
Proof. intros H. destruct (live_split m H) as (? & ? & ? & ?). done. Qed.

Ltac app_length :=
  repeat (rewrite ?length_app, ?length_cons, ?length_nil in *; cbn [length] in *).

(** Looking at the position just past the end of the map. *)
Lemma count_at_end m P l :
  e820_rep m -> live m = P ++ l ->
  (length P <? e820_count m)%nat = match l with [] => false | _ => true end.
Proof.
  intros Hrep HL. apply live_length in Hrep. rewrite HL in Hrep. app_length.
  destruct l; [apply Nat.ltb_ge|apply Nat.ltb_lt]; simpl in *; lia.
Qed.

Lemma e820_overlap_spec fuel : forall m P l size type end_,
  e820_rep m -> live m = P ++ l -> Forall e820_ok l ->
  (length l <= fuel)%nat ->
  0 <= size -> 0 <= end_ < 2 ^ 64 ->
  (forall e, e ∈ l -> size + (lend e - end_) < 2 ^ 64) ->
  let '(z, m') := e820_overlap fuel (length P) size type end_ m in
  let '(z', R) := loverlap size type end_ l in
  z = z' /\ e820_rep m' /\ live m' = P ++ R /\ (length R <= length l)%nat.
Proof.
  induction fuel as [|fuel IH]; intros m P l size type end_ Hrep HL Hok Hf Hsz Hend Hov.
  - destruct l; [|simpl in *; lia]. simpl. auto.
  - simpl. rewrite (count_at_end m P l) by done.
    destruct l as [|e r]; [simpl; auto|].
    rewrite (live_get m P r e) by done.
    inversion Hok as [|? ? He Hr]; subst. rewrite (e_end_ok e) by done.
    pose proof He as (He1 & He2 & He3 & He4). simpl.
    assert (Hlt : lend e < 2 ^ 64) by (unfold lend; lia).
    pose proof (Hov e ltac:(left)) as Hove.
    destruct (Z.ltb_spec end_ (e_start e)); [auto|].
    destruct (Z.leb_spec (lend e) end_).
    + destruct (live_remove m P r e Hrep HL) as (Hrep' & HL' & _).
      specialize (IH (remove_e820 (length P) m) P r size type end_ Hrep' HL' Hr
        ltac:(simpl in *; lia) Hsz Hend ltac:(intros; apply Hov; right; done)).
      destruct (e820_overlap fuel _ _ _ _ _), (loverlap size type end_ r).
      intuition lia.
    + rewrite (u64_small (lend e - end_)) by lia. simpl.
      set (e' := E820Entry end_ (lend e - end_) (e_type e)).
      destruct (live_set m P r e e' Hrep HL) as (Hrep' & HL' & _).
      destruct (type =? e_type e); [|simpl; auto].
      destruct (live_remove _ P r e' Hrep' HL') as (Hrep'' & HL'' & _).
      rewrite u64_small by lia. ands.
Qed.

Lemma e820_find_spec l : forall m P fuel start size type end_,
  e820_rep m -> (e820_count m < BUILD_MAX_E820)%nat ->
  live m = P ++ l -> Forall e820_ok l -> (length l <= fuel)%nat ->
  0 <= start -> 0 <= size -> end_ = start + size -> end_ < 2 ^ 64 ->
  let '(i, s, z, m') := e820_find fuel (length P) start size type end_ m in
  let '(A, s', z', R) := lfind start size type end_ l in
  i = length (P ++ A) /\ s = s' /\ z = z' /\ e820_rep m' /\
  live m' = (P ++ A) ++ R /\ (length A + length R <= length l + 1)%nat.
Proof.
  induction l as [|e r IH]; intros m P fuel start size type end_
    Hrep Hcap HL Hok Hf Hs Hz He Hend.
  - assert (Hb := count_at_end m P [] Hrep HL). destruct fuel; simpl; rewrite ?Hb;
      rewrite ?app_nil_r in *; ands.
  - destruct fuel as [|fuel]; [simpl in Hf; lia|].
    simpl. rewrite (count_at_end m P (e :: r)) by done.
    rewrite (live_get m P r e) by done.
    inversion Hok as [|? ? Heok Hr]; subst. rewrite (e_end_ok e) by done.
    destruct (Heok) as (He1 & He2 & He3 & He4).
    assert (Hlt : lend e < 2 ^ 64 /\ lend e = e_start e + e_size e) by (unfold lend; lia).
    destruct (Z.ltb_spec (lend e) start).
    { specialize (IH m (P ++ [e]) fuel start size type (start + size) Hrep Hcap).
      rewrite <- app_assoc in IH.
      specialize (IH HL Hr ltac:(simpl in *; lia) Hs Hz ltac:(lia) Hend).
      rewrite length_app in IH. simpl in IH.
      destruct (e820_find fuel _ _ _ _ _ _) as [[[i s] z] m'].
      destruct (lfind start size type _ r) as [[[A s'] z'] R]. simpl.
      rewrite <- (app_assoc P [e] A) in IH. simpl in IH. intuition lia. }
    destruct (Z.ltb_spec (e_start e) start); [|rewrite app_nil_r; ands].
    rewrite (u64_small (start - e_start e)) by lia.
    destruct (type =? e_type e).
    { rewrite app_nil_r. rewrite u64_small by lia. ands. }
    set (e1 := E820Entry (e_start e) (start - e_start e) (e_type e)).
    destruct (live_set m P r e e1 Hrep HL) as (Hrep1 & HL1 & Hc1).
    assert (HL1' : live (e820_set m (length P) e1) = (P ++ [e1]) ++ r)
      by (rewrite <- app_assoc; exact HL1).
    replace (length P + 1)%nat with (length (P ++ [e1])) by (app_length; lia).
    destruct (Z.ltb_spec (start + size) (lend e)).
    + rewrite (u64_small (lend e - _)) by lia.
      destruct (live_insert _ (P ++ [e1]) r
        (E820Entry (start + size) (lend e - (start + size)) (e_type e)) Hrep1 HL1'
        ltac:(lia)) as (Hrep2 & HL2 & Hc2).
      simpl in *. ands.
    + ands.
Qed.

(** ** What the list functions compute *)

Lemma map_at_app l1 l2 a :
  map_at (l1 ++ l2) a = match map_at l1 a with Some t => Some t | None => map_at l2 a end.
Proof. induction l1 as [|e l1 IH]; simpl; [done|]. by destruct (covers a e). Qed.

Lemma covers_spec a e : covers a e = true <-> e_start e <= a < lend e.
Proof. unfold covers, lend. rewrite andb_true_iff, Z.leb_le, Z.ltb_lt. done. Qed.

Lemma covers_false a e : covers a e = false <-> a < e_start e \/ lend e <= a.
Proof. unfold covers, lend. rewrite andb_false_iff, Z.leb_gt, Z.ltb_ge. done. Qed.

Lemma map_at_below b l a : Forall (fun e => b <= e_start e) l -> a < b -> map_at l a = None.
Proof.
  induction 1 as [|e l He Hl IH]; intros Ha; simpl; [done|].
  rewrite (proj2 (covers_false a e)) by lia. auto.
Qed.

Lemma map_at_above b l a : Forall (fun e => lend e <= b) l -> b <= a -> map_at l a = None.
Proof.
  induction 1 as [|e l He Hl IH]; intros Ha; simpl; [done|].
  rewrite (proj2 (covers_false a e)) by lia. auto.
Qed.

Lemma wf_cons e l :
  e820_wf (e :: l) <-> e820_ok e /\ Forall (e820_before e) l /\ e820_wf l.
Proof.
  unfold e820_wf. split.
  - intros [Hf Hs]. inversion Hf; inversion Hs; subst. auto.
  - intros (? & ? & ? & ?). split; constructor; auto.
Qed.

Lemma wf_app l1 l2 :
  e820_wf l1 -> e820_wf l2 ->
  (forall x y, x ∈ l1 -> y ∈ l2 -> e820_before x y) -> e820_wf (l1 ++ l2).
Proof.
  induction l1 as [|e l1 IH]; intros H1 H2 Hb; [done|].
  apply wf_cons in H1 as (He & Hf & H1). simpl. apply wf_cons. split_and!; [done| |].
  - apply Forall_app. split; [done|]. apply Forall_forall. intros y Hy. apply Hb; [left|done].
  - apply IH; auto. intros x y Hx Hy. apply Hb; [by right|done].
Qed.

Lemma before_starts e l :
  Forall (e820_before e) l -> Forall (fun x => lend e <= e_start x) l.
Proof. intros H. eapply Forall_impl; [exact H|]. unfold e820_before, lend. tauto. Qed.

Lemma loverlap_props type end_ R : forall z z2 R2,
  e820_wf R -> loverlap z type end_ R = (z2, R2) -> end_ < 2 ^ 64 -> 0 <= end_ ->
  let b := end_ + (z2 - z) in
  z <= z2 /\ b < 2 ^ 64 /\ e820_wf R2 /\
  Forall (fun e => b <= e_start e /\ (b = e_start e -> type <> e_type e)) R2 /\
  (forall a, b <= a -> map_at R2 a = map_at R a) /\
  (forall a, end_ <= a < b -> map_at R a = Some type) /\
  (length R2 <= length R)%nat.
Proof.
  induction R as [|e r IH]; intros z z2 R2 Hwf Heq Hlt Hpos; simpl in Heq.
  { simplify_eq. split_and!; auto; try done; try lia. }
  pose proof (proj1 (wf_cons e r) Hwf) as (Hok & Hbef & Hwfr).
  pose proof (before_starts _ _ Hbef) as Hst.
  destruct Hok as (He1 & He2 & He3 & He4).
  assert (Hle : lend e = e_start e + e_size e) by done.
  destruct (Z.ltb_spec end_ (e_start e)).
  { simplify_eq. split_and!; auto; try lia. constructor; [lia|].
    eapply Forall_impl; [exact Hst|]. simpl. lia. }
  destruct (Z.leb_spec (lend e) end_).
  { destruct (IH _ _ _ Hwfr Heq Hlt Hpos) as (?&?&?&?&Hm1&Hm2&?).
    split_and!; auto; simpl; try lia; intros a Ha;
      rewrite (proj2 (covers_false a e)) by lia; auto. }
  destruct (Z.eqb_spec type (e_type e)); simplify_eq.
  - split_and!; auto; try lia.
    + eapply Forall_impl; [exact Hbef|]. unfold e820_before. simpl.
      intros x [Hx1 Hx2]. split; [lia|]. intros. apply Hx2. lia.
    + intros a Ha. simpl. rewrite (proj2 (covers_false a e)) by lia. done.
    + intros a Ha. simpl. rewrite (proj2 (covers_spec a e)) by lia. done.
    + simpl; lia.
  - split_and!; auto; try lia.
    + apply wf_cons. unfold e820_ok; simpl. split_and!; auto; try lia.
      eapply Forall_impl; [exact Hbef|]. unfold e820_before. simpl.
      intros x [Hx1 Hx2]. split; [lia|]. intros. apply Hx2. lia.
    + constructor; simpl; [lia|]. eapply Forall_impl; [exact Hst|]. simpl. lia.
    + intros a Ha. simpl. unfold covers; simpl.
      f_equal. destruct (Z.leb_spec end_ a), (Z.leb_spec (e_start e) a); try lia. simpl.
      replace (end_ + (lend e - end_)) with (e_start e + e_size e) by lia. done.
Qed.

Lemma wf_nil : e820_wf [].
Proof. split; constructor. Qed.
#[local] Hint Resolve wf_nil : core.

Lemma starts_cons b e r :
  b <= e_start e -> 0 < e_size e -> Forall (e820_before e) r ->
  Forall (fun x => b <= e_start x) (e :: r).
Proof.
  intros Hb He Hbef. constructor; [done|].
  eapply Forall_impl; [exact (before_starts _ _ Hbef)|]. unfold lend. simpl. lia.
Qed.

(** What the first loop establishes about the prefix [A] it keeps, the widened
    item [s, z] and the suffix [R] it leaves to the second loop. *)
Record lfind_post (start size type : Z) (l A : list e820entry) (s z : Z)
    (R : list e820entry) : Prop := LfindPost {
  lf_bounds : 0 <= s <= start /\ s + z = start + size;
  lf_wf : e820_wf A /\ e820_wf R;
  lf_src : s = start \/ exists e, e ∈ l /\ s = e_start e /\ type = e_type e;
  lf_prefix : forall x, x ∈ A ->
    exists y, y ∈ l /\ e_start x = e_start y /\ e_type x = e_type y;
  lf_A : Forall (fun e => lend e <= s /\ (lend e = s -> e_type e <> type)) A;
  lf_R : Forall (fun e => s <= e_start e) R;
  lf_out : forall a, a < s \/ start + size <= a -> map_at (A ++ R) a = map_at l a;
  lf_in : forall a, s <= a < start -> map_at l a = Some type }.

Section FindCases.
Context (start size type : Z) (e : e820entry) (r : list e820entry).
Hypothesis Hstart : 0 <= start.
Hypothesis Hsize : 0 < size.
Hypothesis Hend : start + size < 2 ^ 64.
Hypothesis Hwf : e820_wf (e :: r).

Let Hok : e820_ok e := proj1 (proj1 (wf_cons e r) Hwf).
Let Hbef : Forall (e820_before e) r := proj1 (proj2 (proj1 (wf_cons e r) Hwf)).
Let Hwfr : e820_wf r := proj2 (proj2 (proj1 (wf_cons e r) Hwf)).

Ltac entry := destruct Hok as (? & ? & ? & ?); unfold lend in *; simpl in *.

Lemma lfind_skip A s z R :
  lend e < start -> lfind_post start size type r A s z R ->
  lfind_post start size type (e :: r) (e :: A) s z R.
Proof.
  intros Hlt [Hb [HwA HwR] Hsrc HA HfA HfR Hout Hin]. entry.
  pose proof Hbef as Hbef'. rewrite Forall_forall in Hbef'.
  assert (Hes : e_start e + e_size e <= s /\ (e_start e + e_size e = s -> e_type e <> type)).
  { destruct Hsrc as [->|(e' & He' & -> & ->)]; [lia|]. destruct (Hbef' e' He'). auto. }
  constructor; auto.
  - split; [|done]. apply wf_cons. split_and!; auto. apply Forall_forall. intros x Hx.
    destruct (HA x Hx) as (y & Hy & Hxs & Hxt). destruct (Hbef' y Hy) as [Hy1 Hy2].
    unfold e820_before. rewrite Hxs, Hxt. auto.
  - destruct Hsrc as [|(e' & He' & ?)]; [auto|right]. exists e'. split; [by right|done].
  - intros x [->|Hx]%elem_of_cons; [exists e; split; [left|done]|].
    destruct (HA x Hx) as (y & Hy & ?). exists y. split; [by right|done].
  - intros a Ha. simpl. destruct (covers a e); [done|]. auto.
  - intros a Ha. simpl. rewrite (proj2 (covers_false a e)) by (unfold lend; lia). auto.
Qed.

Lemma lfind_stop :
  start <= lend e -> start <= e_start e ->
  lfind_post start size type (e :: r) [] start size (e :: r).
Proof.
  intros Hle Hlt. entry. constructor; auto; try lia.
  - intros x Hx. inversion Hx.
  - apply starts_cons; auto; lia.
Qed.

Lemma lfind_merge :
  start <= lend e -> e_start e < start -> type = e_type e ->
  lfind_post start size type (e :: r) [] (e_start e) (size + (start - e_start e)) (e :: r).
Proof.
  intros Hle Hlt Ht. entry. constructor; auto; try lia.
  - right. exists e. split; [left|done].
  - intros x Hx. inversion Hx.
  - apply starts_cons; auto; lia.
  - intros a Ha. simpl. rewrite (proj2 (covers_spec a e)) by (unfold lend; lia). by subst.
Qed.

(** The entry that straddles [start], cut in two around the new item. *)
Let e1 := E820Entry (e_start e) (start - e_start e) (e_type e).
Let R1 := if start + size <? lend e
          then E820Entry (start + size) (lend e - (start + size)) (e_type e) :: r else r.

Lemma split_map_at a :
  start <= lend e -> e_start e < start -> a < start \/ start + size <= a ->
  map_at (e1 :: R1) a = map_at (e :: r) a.
Proof.
  intros Hle Hlt Ha. entry. unfold e1, R1. simpl. unfold covers at 1; simpl.
  replace (e_start e + (start - e_start e)) with start by lia.
  assert (Hnr : a < e_start e + e_size e -> map_at r a = None)
    by (intros; apply (map_at_below (lend e)); [by apply before_starts|unfold lend; lia]).
  unfold lend. destruct (Z.ltb_spec a start) as [Hlt'|Hge].
  - destruct (Z.ltb_spec (start + size) (e_start e + e_size e)); simpl;
      unfold covers; simpl; rewrite Hnr by lia; zbool.
  - rewrite andb_false_r.
    destruct (Z.ltb_spec (start + size) (e_start e + e_size e)); simpl;
      unfold covers; simpl; [|zbool].
    replace (start + size + (e_start e + e_size e - (start + size)))
      with (e_start e + e_size e) by lia. zbool.
Qed.

Lemma lfind_split :
  start <= lend e -> e_start e < start -> type <> e_type e ->
  lfind_post start size type (e :: r) [e1] start size R1.
Proof.
  intros Hle Hlt Ht. pose proof (before_starts _ _ Hbef) as Hst. entry.
  constructor; auto; try lia; unfold e1, R1, lend in *.
  - split.
    + apply wf_cons. unfold e820_ok; simpl. split_and!; auto; lia.
    + destruct (Z.ltb_spec (start + size) (e_start e + e_size e)); [|done].
      apply wf_cons. unfold e820_ok; simpl. split_and!; auto; try lia.
      eapply Forall_impl; [exact Hbef|]. unfold e820_before. simpl.
      intros x [Hx1 Hx2]. split; [lia|]. intros. apply Hx2. lia.
  - intros x Hx. apply list_elem_of_singleton in Hx as ->. exists e. split; [left|done].
  - constructor; [|done]. unfold lend; simpl. split; [lia|]. auto.
  - destruct (Z.ltb_spec (start + size) (e_start e + e_size e));
      [constructor; simpl; [lia|]|];
      (eapply Forall_impl; [exact Hst|]); simpl; lia.
  - intros a Ha. apply split_map_at; auto.
Qed.
End FindCases.

Lemma lfind_props start size type l : forall A s z R,
  e820_wf l -> lfind start size type (start + size) l = (A, s, z, R) ->
  0 <= start -> 0 < size -> start + size < 2 ^ 64 ->
  lfind_post start size type l A s z R.
Proof.
  induction l as [|e r IH]; intros A s z R Hwf Heq Hs Hz Hend; simpl in Heq.
  { simplify_eq. constructor; auto; try lia. intros x Hx. inversion Hx. }
  destruct (Z.ltb_spec (lend e) start).
  { destruct (lfind start size type (start + size) r) as [[[A' s'] z'] R'] eqn:Hr. simplify_eq.
    apply lfind_skip; auto. apply IH; auto. by apply wf_cons in Hwf as (_ & _ & ?). }
  destruct (Z.ltb_spec (e_start e) start); [|simplify_eq; by apply lfind_stop].
  destruct (Z.eqb_spec type (e_type e)); simplify_eq; [by apply lfind_merge|].
  by apply lfind_split.
Qed.

(** ** [e820_add] *)

Definition ladd (start size type : Z) (l : list e820entry) : list e820entry :=
  let '(A, s, z, R) := lfind start size type (start + size) l in
  let '(z2, R2) := loverlap z type (start + size) R in
  A ++ (if type =? E820_HOLE then R2 else E820Entry s z2 type :: R2).

Lemma e820_add_live start size type m :
  e820_rep m -> e820_wf (live m) -> (e820_count m + 2 <= BUILD_MAX_E820)%nat ->
  0 <= start -> 0 < size -> start + size < 2 ^ 64 ->
  e820_rep (e820_add start size type m) /\
  live (e820_add start size type m) = ladd start size type (live m).
Proof.
  intros Hrep Hwf Hcap Hs Hz Hend. unfold e820_add, ladd.
  rewrite (proj2 (Z.eqb_neq size 0)), (u64_small (start + size)) by lia.
  pose proof (e820_find_spec (live m) m [] (e820_count m) start size type (start + size)
    Hrep ltac:(lia) eq_refl (proj1 Hwf) ltac:(rewrite live_length by done; lia)
    Hs ltac:(lia) eq_refl Hend) as Hfind. cbn [length app] in Hfind.
  destruct (e820_find _ _ _ _ _ _ m) as [[[i s] z] m1].
  destruct (lfind start size type (start + size) (live m)) as [[[A s'] z'] R] eqn:HF.
  destruct Hfind as (-> & -> & -> & Hrep1 & HL1 & Hlen).
  destruct (lfind_props _ _ _ _ _ _ _ _ Hwf HF Hs Hz Hend) as [Hb [HwA HwR] _ _ _ HfR _ _].
  rewrite live_length in Hlen by done.
  pose proof (live_length _ Hrep1) as Hc1. rewrite HL1, length_app in Hc1.
  pose proof (e820_overlap_spec (e820_count m1) m1 A R z' type (start + size) Hrep1 HL1
    (proj1 HwR) ltac:(lia) ltac:(lia) ltac:(lia)) as Hov.
  destruct (e820_overlap _ _ _ _ _ m1) as [z2 m2].
  destruct (loverlap z' type (start + size) R) as [z2' R2] eqn:HO.
  destruct Hov as (-> & Hrep2 & HL2 & Hlen2).
  { intros e He. destruct HwR as [Hok _]. rewrite Forall_forall in Hok.
    destruct (Hok e He) as (?&?&?&?). unfold lend. lia. }
  destruct (type =? E820_HOLE); [done|].
  pose proof (live_length _ Hrep2) as Hc2. rewrite HL2, length_app in Hc2.
  destruct (live_insert m2 A R2 (E820Entry s' z2' type) Hrep2 HL2 ltac:(lia))
    as (Hrep3 & HL3 & _). done.
Qed.

Lemma map_at_not_hole l a : e820_wf l -> map_at l a <> Some E820_HOLE.
Proof.
  intros [Hok _]. induction Hok as [|e l (_ & _ & _ & He) Hl IH]; simpl; [done|].
  destruct (covers a e); [congruence|done].
Qed.

Section Ladd.
Context (start size type : Z) (l A : list e820entry) (s z z2 : Z) (R R2 : list e820entry).
Hypothesis Hend : start + size < 2 ^ 64.
Hypothesis Hsize : 0 < size.
Hypothesis Hwf : e820_wf l.
Hypothesis HF : lfind_post start size type l A s z R.
Hypothesis HO : loverlap z type (start + size) R = (z2, R2).

Let Hov := loverlap_props _ _ _ _ _ _ (proj2 (lf_wf _ _ _ _ _ _ _ _ HF)) HO Hend
  ltac:(destruct (lf_bounds _ _ _ _ _ _ _ _ HF); lia).

Lemma ladd_wf :
  e820_wf (A ++ (if type =? E820_HOLE then R2 else E820Entry s z2 type :: R2)).
Proof.
  pose proof HF as [[Hsb Hsz] [HwA HwR] _ _ HA _ _ _].
  pose proof Hov as (Hz2 & Hb & HwR2 & HR2 & _).
  rewrite Forall_forall in HA, HR2.
  assert (HwAR2 : forall x y, x ∈ A -> y ∈ R2 -> e820_before x y).
  { intros x y Hx Hy. destruct (HA x Hx), (HR2 y Hy). unfold e820_before, lend in *. lia. }
  destruct (Z.eqb_spec type E820_HOLE) as [Hh|Hnh]; [by apply wf_app|].
  apply wf_app; auto.
  - apply wf_cons. unfold e820_ok; simpl. split_and!; auto; try lia.
    apply Forall_forall. intros y Hy. destruct (HR2 y Hy) as [Hy1 Hy2].
    unfold e820_before; simpl. split; [lia|]. intros. apply Hy2. lia.
  - intros x y Hx [->|Hy]%elem_of_cons; [|auto].
    destruct (HA x Hx). unfold e820_before, lend in *; simpl. auto.
Qed.

Lemma ladd_map_at a :
  map_at (A ++ (if type =? E820_HOLE then R2 else E820Entry s z2 type :: R2)) a =
  if (start <=? a) && (a <? start + size)
  then (if type =? E820_HOLE then None else Some type) else map_at l a.
Proof.
  pose proof HF as [[Hsb Hsz] [HwA HwR] _ _ HA HR Hout Hin].
  pose proof Hov as (Hz2 & Hb & HwR2 & HR2 & Hm & Hmid & _).
  replace (start + size + (z2 - z)) with (s + z2) in * by lia.
  assert (HAn : s <= a -> map_at A a = None).
  { intros. apply (map_at_above s); [|done]. eapply Forall_impl; [exact HA|]. simpl. tauto. }
  assert (HR2n : a < s + z2 -> map_at R2 a = None).
  { apply map_at_below. eapply Forall_impl; [exact HR2|]. simpl. tauto. }
  assert (HRn : a < s -> map_at R a = None) by (by apply map_at_below).
  assert (Hnew : map_at (E820Entry s z2 type :: R2) a =
    if (s <=? a) && (a <? s + z2) then Some type else map_at R2 a) by done.
  assert (Hl : a < s \/ start + size <= a ->
    map_at l a = match map_at A a with Some t => Some t | None => map_at R a end)
    by (intros; rewrite <- map_at_app; symmetry; auto).
  pose proof (map_at_not_hole l a Hwf) as Hnl.
  pose proof (map_at_not_hole R a HwR) as HnR.
  rewrite map_at_app.
  destruct (Z.eqb_spec type E820_HOLE) as [Hh|Hnh]; [|rewrite Hnew];
    destruct (Z.leb_spec start a), (Z.ltb_spec a (start + size)); simpl;
    destruct (Z.lt_ge_cases a s); try lia;
    destruct (Z.lt_ge_cases a (s + z2)); try lia;
    rewrite ?(proj2 (Z.leb_le s a)), ?(proj2 (Z.leb_gt s a)),
      ?(proj2 (Z.ltb_lt a (s + z2))), ?(proj2 (Z.ltb_ge a (s + z2))) by lia; simpl;
    rewrite ?Hl, ?HAn, ?HRn, ?HR2n, ?Hm by lia; auto;
    rewrite ?Hin, ?Hmid in * by lia; congruence.
Qed.
End Ladd.

Lemma ladd_spec start size type l :
  e820_wf l -> 0 <= start -> 0 < size -> start + size < 2 ^ 64 ->
  e820_wf (ladd start size type l) /\
  forall a, map_at (ladd start size type l) a =
    if (start <=? a) && (a <? start + size)
    then (if type =? E820_HOLE then None else Some type) else map_at l a.
Proof.
  intros Hwf Hs Hz Hend. unfold ladd.
  destruct (lfind start size type (start + size) l) as [[[A s] z] R] eqn:HF.
  apply lfind_props in HF; auto.
  destruct (loverlap z type (start + size) R) as [z2 R2] eqn:HO.
  split; [eapply ladd_wf|intros; eapply ladd_map_at]; eauto.
Qed.

(** A well-formed list is determined by the map it denotes. *)
Lemma map_at_head e r :
  e820_wf (e :: r) -> map_at (e :: r) (e_start e) = Some (e_type e) /\
  (forall a t, map_at (e :: r) a = Some t -> e_start e <= a).
Proof.
  intros (Hok & Hbef & Hr)%wf_cons. destruct Hok as (? & ? & ? & ?). split.
  - simpl. rewrite (proj2 (covers_spec _ e)) by (unfold lend; lia). done.
  - intros a t Ha. destruct (Z.lt_ge_cases a (e_start e)); [|done].
    assert (Hn : map_at (e :: r) a = None); [|congruence].
    apply (map_at_below (e_start e)); [apply starts_cons; auto; lia|done].
Qed.

Lemma map_at_tail e r a :
  e820_wf (e :: r) -> map_at r a = if lend e <=? a then map_at (e :: r) a else None.
Proof.
  intros (Hok & Hbef & Hr)%wf_cons. destruct (Z.leb_spec (lend e) a); simpl.
  - rewrite (proj2 (covers_false a e)) by lia. done.
  - by apply (map_at_below (lend e)); [apply before_starts|].
Qed.

Lemma lend_le e1 r1 e2 r2 :
  e820_wf (e1 :: r1) -> e820_wf (e2 :: r2) ->
  (forall a, map_at (e1 :: r1) a = map_at (e2 :: r2) a) ->
  e_start e1 = e_start e2 -> e_type e1 = e_type e2 -> lend e2 <= lend e1.
Proof.
  intros H1 H2 Hm Hs Ht. destruct (Z.le_gt_cases (lend e2) (lend e1)) as [|Hlt]; [done|].
  pose proof H1 as (Hok1 & Hb1 & Hr1)%wf_cons. pose proof H2 as (Hok2 & _ & _)%wf_cons.
  destruct Hok1 as (? & ? & ? & ?).
  assert (Ha : map_at r1 (lend e1) = Some (e_type e1)).
  { rewrite (map_at_tail e1) by done.
    rewrite (proj2 (Z.leb_le _ _)), Hm by lia. simpl.
    rewrite (proj2 (covers_spec _ e2)) by (unfold lend in *; lia). congruence. }
  destruct r1 as [|f r1]; [done|]. exfalso.
  apply map_at_head in Hr1 as [Hf Hge]. pose proof (Hge _ _ Ha).
  inversion Hb1 as [|? ? [Hf1 Hf2] _]; subst.
  assert (Heq : lend e1 = e_start f) by (unfold lend in *; lia).
  rewrite Heq, Hf in Ha. unfold lend in Heq. apply Hf2; [lia|congruence].
Qed.

Lemma wf_canonical l1 : forall l2,
  e820_wf l1 -> e820_wf l2 -> (forall a, map_at l1 a = map_at l2 a) -> l1 = l2.
Proof.
  induction l1 as [|e1 r1 IH]; intros [|e2 r2] H1 H2 Hm; [done|..].
  1: { pose proof (proj1 (map_at_head _ _ H2)) as Hh. rewrite <- Hm in Hh. done. }
  1: { pose proof (proj1 (map_at_head _ _ H1)) as Hh. rewrite Hm in Hh. done. }
  destruct (map_at_head _ _ H1) as [Hh1 Hg1], (map_at_head _ _ H2) as [Hh2 Hg2].
  assert (Hs : e_start e1 = e_start e2).
  { pose proof Hh1 as G1. pose proof Hh2 as G2. rewrite Hm in G1. rewrite <- Hm in G2.
    pose proof (Hg2 _ _ G1). pose proof (Hg1 _ _ G2). lia. }
  assert (Ht : e_type e1 = e_type e2).
  { rewrite Hm, Hs, Hh2 in Hh1. congruence. }
  pose proof (lend_le _ _ _ _ H1 H2 Hm Hs Ht).
  pose proof (lend_le _ _ _ _ H2 H1 (fun a => eq_sym (Hm a)) (eq_sym Hs) (eq_sym Ht)).
  assert (He : lend e1 = lend e2) by lia.
  f_equal.
  - destruct e1, e2; unfold lend in He; simpl in *; subst. f_equal. lia.
  - pose proof H1 as (_ & _ & Hr1)%wf_cons. pose proof H2 as (_ & _ & Hr2)%wf_cons.
    apply IH; auto. intros a. rewrite (map_at_tail e1 r1), (map_at_tail e2 r2), He, Hm by assumption. done.
Qed.

Lemma loverlap_length type end_ R : forall z,
  (length (snd (loverlap z type end_ R)) <= length R)%nat.
Proof.
  induction R as [|e r IH]; intros z; simpl; [lia|].
  destruct (end_ <? e_start e); [simpl; lia|].
  destruct (lend e <=? end_); [specialize (IH z); lia|].
  destruct (type =? e_type e); simpl; lia.
Qed.

Lemma lfind_length start size type end_ l :
  let '(A, _, _, R) := lfind start size type end_ l in
  (length A + length R <= length l + 1)%nat.
Proof.
  induction l as [|e r IH]; simpl; [lia|].
  destruct (lend e <? start).
  { destruct (lfind start size type end_ r) as [[[A s] z] R]. simpl. lia. }
  destruct (e_start e <? start); [|simpl; lia].
  destruct (type =? e_type e); [simpl; lia|].
  destruct (end_ <? lend e); simpl; lia.
Qed.

Lemma ladd_length start size type l :
  (length (ladd start size type l) <= length l + 2)%nat.
Proof.
  unfold ladd. pose proof (lfind_length start size type (start + size) l) as H.
  destruct (lfind start size type (start + size) l) as [[[A s] z] R].
  pose proof (loverlap_length type (start + size) R z) as H'.
  destruct (loverlap z type (start + size) R) as [z2 R2]. simpl in H'.
  rewrite length_app. destruct (type =? E820_HOLE); simpl; lia.
Qed.

(** Memory safety of the array: no call, whatever its arguments and however
    full the map, writes past [BUILD_MAX_E820] entries. *)
Lemma length_array_move {A} dst src n (a : list A) :
  (dst + n <= length a)%nat -> (src + n <= length a)%nat ->
  length (array_move dst src n a) = length a.
Proof.
  intros. unfold array_move. rewrite !length_app, !length_take, !length_drop. lia.
Qed.

Lemma rep_set i e m : e820_rep m -> e820_rep (e820_set m i e).
Proof. intros [? ?]. split; simpl; [by rewrite length_insert|done]. Qed.

Lemma rep_remove i m :
  e820_rep m -> (i < e820_count m)%nat -> e820_rep (remove_e820 i m).
Proof.
  intros [Hl ?] ?. split; simpl; [|lia]. rewrite length_array_move; lia.
Qed.

Lemma rep_insert i s z t m :
  e820_rep m -> (i <= e820_count m)%nat ->
  e820_rep (insert_e820 i s z t m) /\ (e820_count m <= e820_count (insert_e820 i s z t m))%nat.
Proof.
  intros [Hl ?] ?. unfold insert_e820.
  destruct (Nat.leb_spec BUILD_MAX_E820 (e820_count m)); [done|].
  split; [|simpl; lia]. apply rep_set. split; simpl; [|lia]. rewrite length_array_move; lia.
Qed.

Lemma rep_find fuel : forall i s z t e m,
  e820_rep m -> (i <= e820_count m)%nat ->
  let '(i', _, _, m') := e820_find fuel i s z t e m in
  e820_rep m' /\ (i' <= e820_count m')%nat.
Proof.
  induction fuel as [|fuel IH]; intros i s z t e m Hrep Hi; simpl; [auto|].
  destruct (Nat.ltb_spec i (e820_count m)); [|auto].
  destruct (e_end _ <? s); [apply IH; auto; lia|].
  destruct (e_start _ <? s); [|auto].
  destruct (t =? e_type _); [auto|].
  destruct (e <? e_end _).
  - match goal with |- context [insert_e820 ?i ?s ?z ?t ?m'] =>
      destruct (rep_insert i s z t m') as [? Hc] end;
      [by apply rep_set|simpl; lia|]. simpl e820_count in Hc. split; [done|lia].
  - split; [by apply rep_set|simpl; lia].
Qed.

Lemma rep_overlap fuel : forall i z t e m,
  e820_rep m -> (i <= e820_count m)%nat ->
  let '(_, m') := e820_overlap fuel i z t e m in
  e820_rep m' /\ (i <= e820_count m')%nat.
Proof.
  induction fuel as [|fuel IH]; intros i z t e m Hrep Hi; simpl; [auto|].
  destruct (Nat.ltb_spec i (e820_count m)); [|auto].
  destruct (e <? e_start _); [auto|].
  destruct (e_end _ <=? e); [apply IH; [by apply rep_remove|simpl; lia]|].
  destruct (t =? e_type _).
  - split; [apply rep_remove; [by apply rep_set|done]|simpl; lia].
  - split; [by apply rep_set|simpl; lia].
Qed.

(** ** Theorems *)

(** C23: on a map with room for the two entries a split can need, [e820_add]
    assigns [type] (or a hole) to exactly the addresses of the new range, leaves
    every other address as it was, and keeps the list sorted, disjoint and
    coalesced. *)
Theorem e820_add_correct start size type m :
  e820_rep m -> e820_wf (live m) -> (e820_count m + 2 <= BUILD_MAX_E820)%nat ->
  0 <= start -> 0 < size -> start + size < 2 ^ 64 ->
  let m' := e820_add start size type m in
  e820_rep m' /\ e820_wf (live m') /\
  forall a, map_at (live m') a =
    if (start <=? a) && (a <? start + size)
    then (if type =? E820_HOLE then None else Some type) else map_at (live m) a.
Proof.
  intros Hrep Hwf Hcap Hs Hz Hend m'.
  destruct (e820_add_live start size type m) as [Hrep' HL]; auto.
  destruct (ladd_spec start size type (live m)) as [Hwf' Hm]; auto.
  subst m'. rewrite HL. auto.
Qed.

Definition e820_demo : e820map :=
  e820_add 0xf0000 0x10000 E820_RESERVED
    (e820_add 0x100000 0x7ff00000 E820_RAM (e820_add 0 0xa0000 E820_RAM e820_empty)).

Lemma e820_demo_ok :
  e820_rep e820_demo /\ e820_wf (live e820_demo) /\ e820_count e820_demo = 3%nat.
Proof.
  assert (HL : live e820_demo = [E820Entry 0 0xa0000 1; E820Entry 0xf0000 0x10000 2;
    E820Entry 0x100000 0x7ff00000 1]) by reflexivity.
  split_and!; [split; [reflexivity|vm_compute; lia]| |reflexivity].
  rewrite HL. repeat (apply wf_cons; split_and!;
    [by vm_compute; split_and!|by repeat constructor|]). apply wf_nil.
Defined.

Lemma e820_add_correct_witness :
  let m' := e820_add 0x7ffe0000 0x20000 E820_RESERVED e820_demo in
  e820_rep m' /\ e820_wf (live m') /\
  forall a, map_at (live m') a =
    if (0x7ffe0000 <=? a) && (a <? 0x7ffe0000 + 0x20000)
    then (if E820_RESERVED =? E820_HOLE then None else Some E820_RESERVED)
    else map_at (live e820_demo) a.
Proof.
  destruct e820_demo_ok as (Hr & Hw & Hc).
  apply (e820_add_correct 0x7ffe0000 0x20000 E820_RESERVED e820_demo Hr Hw);
    [rewrite Hc; vm_compute; lia|lia..].
Defined.

(** C22: whatever the arguments (wrap-around included) and however full the map,
    [e820_add] keeps the array and its count in bounds. *)
Theorem e820_add_in_bounds start size type m :
  e820_rep m -> e820_rep (e820_add start size type m).
Proof.
  intros Hrep. unfold e820_add. destruct (size =? 0); [done|].
  pose proof (rep_find (e820_count m) 0 start size type (u64 (start + size)) m Hrep
    ltac:(lia)) as Hf.
  destruct (e820_find _ _ _ _ _ _ m) as [[[i s] z] m1]. destruct Hf as [Hrep1 Hi].
  pose proof (rep_overlap (e820_count m1) i z type (u64 (start + size)) m1 Hrep1 Hi) as Ho.
  destruct (e820_overlap _ _ _ _ _ m1) as [z2 m2]. destruct Ho as [Hrep2 Hi2].
  destruct (type =? E820_HOLE); [done|]. by apply rep_insert.
Qed.

Lemma e820_add_in_bounds_witness :
  e820_rep (e820_add (2 ^ 64 - 1) 0x1000 E820_ACPI e820_demo).
Proof. exact (e820_add_in_bounds _ _ _ _ (proj1 e820_demo_ok)). Defined.

(** Reservations of disjoint ranges commute: the final list of entries does
    not depend on the order in which the boot code registers them. *)
Theorem e820_add_disjoint_comm s1 z1 t1 s2 z2 t2 m :
  e820_rep m -> e820_wf (live m) -> (e820_count m + 4 <= BUILD_MAX_E820)%nat ->
  0 <= s1 -> 0 < z1 -> s1 + z1 < 2 ^ 64 -> 0 <= s2 -> 0 < z2 -> s2 + z2 < 2 ^ 64 ->
  s1 + z1 <= s2 \/ s2 + z2 <= s1 ->
  live (e820_add s1 z1 t1 (e820_add s2 z2 t2 m)) =
  live (e820_add s2 z2 t2 (e820_add s1 z1 t1 m)).
Proof.
  intros Hrep Hwf Hcap ? ? ? ? ? ? Hdisj.
  destruct (e820_add_live s1 z1 t1 m) as [Hr1 HL1]; auto; [lia|].
  destruct (e820_add_live s2 z2 t2 m) as [Hr2 HL2]; auto; [lia|].
  pose proof (ladd_length s1 z1 t1 (live m)) as Hc1.
  pose proof (ladd_length s2 z2 t2 (live m)) as Hc2.
  rewrite <- HL1, !live_length in Hc1 by done. rewrite <- HL2, !live_length in Hc2 by done.
  destruct (ladd_spec s1 z1 t1 (live m)) as [Hw1 Hm1]; auto.
  destruct (ladd_spec s2 z2 t2 (live m)) as [Hw2 Hm2]; auto.
  rewrite <- HL1 in Hw1, Hm1. rewrite <- HL2 in Hw2, Hm2.
  destruct (e820_add_live s1 z1 t1 (e820_add s2 z2 t2 m)) as [_ ->]; auto; [lia|].
  destruct (e820_add_live s2 z2 t2 (e820_add s1 z1 t1 m)) as [_ ->]; auto; [lia|].
  destruct (ladd_spec s1 z1 t1 (live (e820_add s2 z2 t2 m))) as [Hw21 Hm21]; auto.
  destruct (ladd_spec s2 z2 t2 (live (e820_add s1 z1 t1 m))) as [Hw12 Hm12]; auto.
  apply wf_canonical; auto. intros a. rewrite Hm21, Hm12, Hm1, Hm2.
  zbool.
Qed.

Lemma e820_add_disjoint_comm_witness :
  live (e820_add 0x1000 0x1000 E820_ACPI (e820_add 0x5000 0x1000 E820_NVS e820_demo)) =
  live (e820_add 0x5000 0x1000 E820_NVS (e820_add 0x1000 0x1000 E820_ACPI e820_demo)).
Proof.
  destruct e820_demo_ok as (Hr & Hw & Hc).
  apply (e820_add_disjoint_comm 0x1000 0x1000 E820_ACPI 0x5000 0x1000 E820_NVS e820_demo Hr Hw);
    [rewrite Hc; vm_compute; lia|lia..].
Defined.
