(* ===== verification/Hlist.v ===== *)
(** * Doubly linked lists with a single head pointer (src/list.h)

    The operations act on a store of 32-bit words: a [struct hlist_node] at
    address [n] keeps [next] at [n] and [pprev] at [n + 4]; a [struct
    hlist_head] at [h] keeps [first] at [h]; [&n->next] is the address [n].  The
    specification of a family of lists is a map from heads to the lists of their
    nodes; the class [Hlist] is what the allocator is proved against. *)
From S2P Require Import Prelude.

(** ** The operations of list.h on the words of memory *)

Abbreviation words := (gmap Z Z).

Definition load (m : words) (a : Z) : Z := default 0 (m !! a).
Definition store (a v : Z) (m : words) : words := <[a := v]> m.

Definition next_of (n : Z) : Z := n.
Definition pprev_of (n : Z) : Z := n + 4.

Definition hlist_empty (h : Z) (m : words) : bool := load m h =? 0.

Definition hlist_del (n : Z) (m : words) : words :=
  let next := load m (next_of n) in
  let pprev := load m (pprev_of n) in
  let m := store pprev next m in
  if next =? 0 then m else store (pprev_of next) pprev m.

Definition hlist_add (n pprev : Z) (m : words) : words :=
  let next := load m pprev in
  let m := store (pprev_of n) pprev m in
  let m := store (next_of n) next m in
  let m := if next =? 0 then m else store (pprev_of next) (next_of n) m in
  store pprev n m.

Definition hlist_add_head (n h : Z) (m : words) : words := hlist_add n h m.

Definition hlist_add_before (n next : Z) (m : words) : words :=
  hlist_add n (load m (pprev_of next)) m.

Definition hlist_add_after (n prev : Z) (m : words) : words :=
  hlist_add n (next_of prev) m.

Definition hlist_replace (old new : Z) (m : words) : words :=
  let m := store (next_of new) (load m (next_of old)) m in
  let m := if load m (next_of new) =? 0 then m
           else store (pprev_of (load m (next_of new))) (next_of new) m in
  let m := store (pprev_of new) (load m (pprev_of old)) m in
  store (load m (pprev_of new)) new m.

(** [hlist_for_each_entry]: the nodes met from the pointer [p] on; [None] when
    the fuel runs out. *)
Fixpoint hlist_walk (fuel : nat) (p : Z) (m : words) : option (list Z) :=
  if p =? 0 then Some []
  else match fuel with
       | O => None
       | S fuel' => fmap (cons p) (hlist_walk fuel' (load m (next_of p)) m)
       end.

Definition hlist_for_each_entry (h : Z) (m : words) : option (list Z) :=
  hlist_walk (size m) (load m h) m.

(** ** Representation *)

Fixpoint lseg (m : words) (pp : Z) (l : list Z) : Prop :=
  match l with
  | [] => load m pp = 0
  | n :: r => load m pp = n /\ n <> 0 /\ load m (pprev_of n) = pp /\ lseg m n r
  end.


(** The link words of the list, in the order a traversal meets them. *)
Fixpoint footprint (pp : Z) (l : list Z) : list Z :=
  match l with
  | [] => [pp]
  | n :: r => pp :: pprev_of n :: footprint n r
  end.

Definition hrep (m : words) (h : Z) (l : list Z) : Prop :=
  lseg m h l /\ NoDup (footprint h l).

(** A family of lists, one per head, with separate footprints. *)
Record hlists (m : words) (L : gmap Z (list Z)) : Prop := Hlists {
  hl_each : forall h l, L !! h = Some l -> hrep m h l;
  hl_disj : forall h1 h2 l1 l2 a, h1 <> h2 ->
    L !! h1 = Some l1 -> L !! h2 = Some l2 ->
    a ∈ footprint h1 l1 -> a ∈ footprint h2 l2 -> False }.

(** A struct whose link words no list of the family uses. *)
Definition fresh_node (n : Z) (L : gmap Z (list Z)) : Prop :=
  n <> 0 /\
  forall h l, L !! h = Some l -> (next_of n ∉ footprint h l) /\ (pprev_of n ∉ footprint h l).

(** The location a [pprev] pointer of the list [h] denotes after the nodes [A]. *)
Fixpoint pprev_at (h : Z) (A : list Z) : Z :=
  match A with [] => h | n :: r => pprev_at n r end.

(** ** Lemmas: cutting a list at a node *)

Lemma load_store_eq a v m : load (store a v m) a = v.
Proof. unfold load, store. by rewrite lookup_insert_eq. Qed.

Lemma load_store_ne a b v m : a <> b -> load (store a v m) b = load m b.
Proof. intros. unfold load, store. by rewrite lookup_insert_ne. Qed.

(** The part of a list before a cut, and the words it reads. *)
Fixpoint lpath (m : words) (pp : Z) (A : list Z) : Prop :=
  match A with
  | [] => True
  | n :: r => load m pp = n /\ n <> 0 /\ load m (pprev_of n) = pp /\ lpath m n r
  end.

Fixpoint reads (pp : Z) (A : list Z) : list Z :=
  match A with [] => [] | n :: r => pp :: pprev_of n :: reads n r end.

Lemma lseg_app m A : forall pp B,
  lseg m pp (A ++ B) <-> lpath m pp A /\ lseg m (pprev_at pp A) B.
Proof.
  induction A as [|n r IH]; intros pp B; simpl; [tauto|]. rewrite IH. tauto.
Qed.

Lemma footprint_app A : forall pp B,
  footprint pp (A ++ B) = reads pp A ++ footprint (pprev_at pp A) B.
Proof. induction A as [|n r IH]; intros pp B; simpl; [done|]. by rewrite IH. Qed.

Lemma lseg_frame m m' l : forall pp,
  (forall a, a ∈ footprint pp l -> load m' a = load m a) -> lseg m pp l -> lseg m' pp l.
Proof.
  induction l as [|n r IH]; intros pp Hfr; simpl in *.
  - rewrite Hfr by (by left). done.
  - intros (H1 & H2 & H3 & H4). rewrite !Hfr by (rewrite ?elem_of_cons; tauto).
    split_and!; auto. apply IH; auto. intros a Ha. apply Hfr. rewrite !elem_of_cons. auto.
Qed.

Lemma lpath_frame m m' A : forall pp,
  (forall a, a ∈ reads pp A -> load m' a = load m a) -> lpath m pp A -> lpath m' pp A.
Proof.
  induction A as [|n r IH]; intros pp Hfr; simpl in *; [done|].
  intros (H1 & H2 & H3 & H4). rewrite !Hfr by (rewrite ?elem_of_cons; tauto).
  split_and!; auto. apply IH; auto. intros a Ha. apply Hfr. rewrite !elem_of_cons. auto.
Qed.

Lemma footprint_head pp l : pp ∈ footprint pp l.
Proof. destruct l; left. Qed.

Lemma elem_of_footprint a l : forall pp,
  a ∈ footprint pp l <-> a = pp \/ exists n, n ∈ l /\ (a = next_of n \/ a = pprev_of n).
Proof.
  induction l as [|n r IH]; intros pp; simpl.
  - rewrite list_elem_of_singleton. split; [auto|]. intros [->|(n & Hn & _)]; [done|].
    inversion Hn.
  - rewrite !elem_of_cons, IH. unfold next_of. split.
    + intros [->|[->|[->|(x & Hx & Ha)]]]; auto; right; [exists n| |exists x].
      * split; [left|auto].
      * exists n. split; [left|auto].
      * split; [by right|auto].
    + intros [->|(x & [->|Hx]%elem_of_cons & [->| ->])]; eauto 8.
Qed.

(** Words known to be pairwise different. *)
Lemma NoDup_app_ne (X Y : list Z) a b : NoDup (X ++ Y) -> a ∈ X -> b ∈ Y -> a <> b.
Proof. intros (_ & H & _)%NoDup_app Ha Hb ->. exact (H _ Ha Hb). Qed.

Lemma NoDup_cons_ne (Y : list Z) a b : NoDup (a :: Y) -> b ∈ Y -> a <> b.
Proof. intros [H _]%NoDup_cons Hb ->. done. Qed.

(** The words a list operation may write. *)
Definition same_outside (ws : list Z) (m m' : words) : Prop :=
  forall a, a ∉ ws -> load m' a = load m a.

Lemma elem_ne (l : list Z) a b : a ∈ l -> b ∉ l -> b <> a.
Proof. by intros ? ? ->. Qed.

(** Break a [NoDup] of known words into the non-memberships it stands for. *)
Ltac nodup H :=
  repeat (let H' := fresh "Hn" in apply NoDup_cons in H as [H' H]);
  rewrite ?not_elem_of_cons in *; dands.

(** Loads through stores to words known to be different. *)
Ltac loads := repeat first
  [ rewrite load_store_eq | rewrite load_store_ne by (auto using not_eq_sym) ].

Ltac nodup_goal :=
  repeat (apply NoDup_cons; split); rewrite ?not_elem_of_cons; split_and?; auto using not_elem_of_nil.

Section Del.
Context (m : words) (h : Z) (A : list Z) (n : Z) (B : list Z).
Hypothesis Hrep : hrep m h (A ++ n :: B).
Local Abbreviation q := (pprev_at h A).

Lemma hlist_del_eq :
  hlist_del n m = match B with
                  | [] => store q 0 m
                  | b :: _ => store (pprev_of b) q (store q b m)
                  end.
Proof.
  destruct Hrep as [HL _]. apply lseg_app in HL as [_ (_ & _ & H3 & H4)].
  unfold hlist_del, next_of. rewrite H3. destruct B as [|b B']; simpl in H4.
  - by rewrite H4.
  - destruct H4 as (-> & Hb & _). by rewrite (proj2 (Z.eqb_neq b 0)).
Qed.

Lemma hlist_del_out :
  same_outside (q :: match B with [] => [] | b :: _ => [pprev_of b] end) m (hlist_del n m).
Proof.
  intros a Ha. rewrite hlist_del_eq. apply not_elem_of_cons in Ha as [Ha1 Ha2].
  destruct B as [|b B']; [by rewrite load_store_ne|].
  apply not_elem_of_cons in Ha2 as [Ha2 _]. by rewrite !load_store_ne.
Qed.

Lemma hlist_del_spec : hrep (hlist_del n m) h (A ++ B).
Proof.
  pose proof hlist_del_out as Hout. pose proof hlist_del_eq as Heq.
  destruct Hrep as [HL Hnd]. apply lseg_app in HL as [HA (H1 & H2 & H3 & H4)].
  rewrite footprint_app in Hnd. simpl in Hnd.
  apply NoDup_app in Hnd as (Hnd1 & Hd & Hnd2).
  split; [apply lseg_app; split|rewrite footprint_app; apply NoDup_app; split_and!; auto].
  - eapply lpath_frame; [|exact HA]. intros a Ha. apply Hout. specialize (Hd a Ha).
    destruct B; simpl in Hd; rewrite !not_elem_of_cons in Hd; dands; nodup_goal.
  - rewrite Heq. destruct B as [|b B']; simpl in *; [by rewrite load_store_eq|].
    destruct H4 as (H4 & Hb & Hb4 & HB'). nodup Hnd2.
    rewrite load_store_ne, !load_store_eq by auto. split_and!; auto.
    eapply lseg_frame; [|exact HB']. intros a Ha. rewrite !load_store_ne; auto; congruence.
  - intros a Ha. specialize (Hd a Ha). destruct B as [|b B']; simpl in *;
      rewrite !not_elem_of_cons in Hd; dands; nodup_goal.
  - destruct B as [|b B']; simpl in *; nodup Hnd2; nodup_goal.
Qed.
End Del.

Section Add.
Context (m : words) (h : Z) (A : list Z) (n : Z) (B : list Z).
Hypothesis Hrep : hrep m h (A ++ B).
Hypothesis Hn0 : n <> 0.
Hypothesis Hn : n ∉ footprint h (A ++ B).
Hypothesis Hn4 : pprev_of n ∉ footprint h (A ++ B).
Local Abbreviation q := (pprev_at h A).

Lemma add_words_ne : n <> q /\ pprev_of n <> q /\ pprev_of n <> n.
Proof.
  rewrite footprint_app, !not_elem_of_app in Hn, Hn4. destruct Hn as [_ Hq], Hn4 as [_ Hq4].
  pose proof (footprint_head q B) as Hh.
  split_and!; [exact (elem_ne _ _ _ Hh Hq)|exact (elem_ne _ _ _ Hh Hq4)|unfold pprev_of; lia].
Qed.

Lemma hlist_add_eq :
  hlist_add n q m =
  store q n (match B with [] => id | b :: _ => store (pprev_of b) n end
    (store n (load m q) (store (pprev_of n) q m))).
Proof.
  destruct Hrep as [HL _]. apply lseg_app in HL as [_ HB].
  unfold hlist_add, next_of. destruct B as [|b B']; simpl in HB.
  - rewrite HB. done.
  - destruct HB as (-> & Hb & _). by rewrite (proj2 (Z.eqb_neq b 0)).
Qed.

Lemma hlist_add_out :
  same_outside (q :: n :: pprev_of n :: match B with [] => [] | b :: _ => [pprev_of b] end)
    m (hlist_add n q m).
Proof.
  intros a Ha. rewrite hlist_add_eq. rewrite !not_elem_of_cons in Ha. dands.
  destruct B as [|b B']; simpl; rewrite ?not_elem_of_cons in *; dands;
    rewrite !load_store_ne; auto.
Qed.

Lemma hlist_add_spec : hrep (hlist_add n q m) h (A ++ n :: B).
Proof.
  pose proof hlist_add_out as Hout. pose proof hlist_add_eq as Heq.
  destruct add_words_ne as (Hnq & Hn4q & Hn4n).
  destruct Hrep as [HL Hnd]. apply lseg_app in HL as [HA HB].
  rewrite footprint_app in Hnd, Hn, Hn4. rewrite !not_elem_of_app in Hn, Hn4.
  destruct Hn as [HnA HnB], Hn4 as [HnA4 HnB4].
  apply NoDup_app in Hnd as (Hnd1 & Hd & Hnd2).
  split; [apply lseg_app; split|rewrite footprint_app; apply NoDup_app; split_and!; auto].
  - eapply lpath_frame; [|exact HA]. intros a Ha. apply Hout. specialize (Hd a Ha).
    pose proof (elem_ne _ _ _ Ha HnA). pose proof (elem_ne _ _ _ Ha HnA4).
    destruct B; simpl in *; rewrite !not_elem_of_cons in *; dands; nodup_goal.
  - simpl. rewrite Heq. destruct B as [|b B']; simpl in *.
    + rewrite list_elem_of_singleton in *. loads. auto.
    + destruct HB as (HB & Hb & Hb4 & HB'). nodup Hnd2.
      rewrite ?not_elem_of_cons in *; dands.
      loads.
      split_and!; auto. eapply lseg_frame; [|exact HB']. intros a Ha. rewrite <- Heq. apply Hout.
      rewrite !not_elem_of_cons. split_and!; try (by intros ->). apply not_elem_of_nil.
  - intros a Ha. specialize (Hd a Ha). simpl.
    pose proof (elem_ne _ _ _ Ha HnA). pose proof (elem_ne _ _ _ Ha HnA4).
    destruct B; simpl in *; rewrite !not_elem_of_cons in *; dands; nodup_goal.
  - destruct B as [|b B']; simpl in *; nodup Hnd2; rewrite ?not_elem_of_cons in *;
      dands; nodup_goal.
Qed.
End Add.

Section Replace.
Context (m : words) (h : Z) (A : list Z) (o n : Z) (B : list Z).
Hypothesis Hrep : hrep m h (A ++ o :: B).
Hypothesis Hn0 : n <> 0.
Hypothesis Hn : n ∉ footprint h (A ++ o :: B).
Hypothesis Hn4 : pprev_of n ∉ footprint h (A ++ o :: B).
Local Abbreviation q := (pprev_at h A).

Lemma replace_words_ne : n <> q /\ pprev_of n <> q /\ pprev_of n <> n /\
  (n <> o /\ pprev_of n <> o) /\ n <> pprev_of o /\ pprev_of n <> pprev_of o.
Proof.
  rewrite footprint_app, !not_elem_of_app in Hn, Hn4. destruct Hn as [_ Hq], Hn4 as [_ Hq4].
  simpl in Hq, Hq4. rewrite !not_elem_of_cons in Hq, Hq4. destruct Hq as (?&?&Hq).
  destruct Hq4 as (?&?&Hq4). pose proof (footprint_head o B) as Hh.
  split_and!; auto; [unfold pprev_of; lia| |];
    [exact (elem_ne _ _ _ Hh Hq)|exact (elem_ne _ _ _ Hh Hq4)].
Qed.

Lemma hlist_replace_eq :
  hlist_replace o n m =
  store q n (store (pprev_of n) q
    (match B with [] => id | b :: _ => store (pprev_of b) n end (store n (load m o) m))).
Proof.
  destruct replace_words_ne as (Hw1&Hw2&Hw3&[Hw4 Hw5]&Hw6&Hw7).
  destruct Hrep as [HL Hnd]. apply lseg_app in HL as [_ (H1 & H2 & H3 & H4)].
  unfold hlist_replace, next_of. rewrite load_store_eq.
  rewrite footprint_app in Hnd. apply NoDup_app in Hnd as (_ & _ & Hnd).
  destruct B as [|b B']; simpl in *.
  - nodup Hnd. loads. rewrite H4. simpl. loads. by rewrite H3.
  - destruct H4 as (-> & Hb & _). nodup Hnd. loads. rewrite (proj2 (Z.eqb_neq b 0)) by done.
    loads. by rewrite H3.
Qed.

Lemma hlist_replace_out :
  same_outside (q :: n :: pprev_of n :: match B with [] => [] | b :: _ => [pprev_of b] end)
    m (hlist_replace o n m).
Proof.
  intros a Ha. rewrite hlist_replace_eq. rewrite !not_elem_of_cons in Ha. dands.
  destruct B as [|b B']; simpl; rewrite ?not_elem_of_cons in *; dands;
    rewrite !load_store_ne; auto.
Qed.

Lemma hlist_replace_spec : hrep (hlist_replace o n m) h (A ++ n :: B).
Proof.
  pose proof hlist_replace_out as Hout. pose proof hlist_replace_eq as Heq.
  destruct replace_words_ne as (Hw1&Hw2&Hw3&[Hw4 Hw5]&Hw6&Hw7).
  destruct Hrep as [HL Hnd]. apply lseg_app in HL as [HA (H1 & H2 & H3 & H4)].
  rewrite footprint_app in Hnd, Hn, Hn4. rewrite !not_elem_of_app in Hn, Hn4.
  destruct Hn as [HnA HnB], Hn4 as [HnA4 HnB4].
  apply NoDup_app in Hnd as (Hnd1 & Hd & Hnd2).
  split; [apply lseg_app; split|rewrite footprint_app; apply NoDup_app; split_and!; auto].
  - eapply lpath_frame; [|exact HA]. intros a Ha. apply Hout. specialize (Hd a Ha).
    pose proof (elem_ne _ _ _ Ha HnA). pose proof (elem_ne _ _ _ Ha HnA4).
    destruct B; simpl in *; rewrite !not_elem_of_cons in *; dands; nodup_goal.
  - simpl. rewrite Heq. destruct B as [|b B']; simpl in *.
    + loads. auto.
    + destruct H4 as (HB & Hb & Hb4 & HB'). nodup Hnd2.
      rewrite ?not_elem_of_cons in *; dands.
      loads.
      split_and!; auto. eapply lseg_frame; [|exact HB']. intros a Ha. rewrite <- Heq. apply Hout.
      rewrite !not_elem_of_cons. split_and!; try (by intros ->). apply not_elem_of_nil.
  - intros a Ha. specialize (Hd a Ha). simpl.
    pose proof (elem_ne _ _ _ Ha HnA). pose proof (elem_ne _ _ _ Ha HnA4).
    destruct B; simpl in *; rewrite !not_elem_of_cons in *; dands; nodup_goal.
  - destruct B as [|b B']; simpl in *; nodup Hnd2; rewrite ?not_elem_of_cons in *;
      dands; nodup_goal.
Qed.
End Replace.

(** ** Traversal *)

Lemma hlist_walk_lseg m l : forall fuel pp,
  lseg m pp l -> (length l <= fuel)%nat -> hlist_walk fuel (load m pp) m = Some l.
Proof.
  induction l as [|n r IH]; intros fuel pp; simpl.
  - intros -> _. by destruct fuel.
  - intros (-> & Hn & _ & Hr) Hf. destruct fuel as [|fuel]; [lia|]. simpl.
    rewrite (proj2 (Z.eqb_neq n 0)) by done. unfold next_of. rewrite IH by (auto; lia). done.
Qed.

(** The [pprev] words of the nodes are stored, so a list is no longer than the
    store: the traversal ends. *)
Lemma lseg_length m l : forall pp,
  lseg m pp l -> pp <> 0 -> NoDup (footprint pp l) -> (length l <= size m)%nat.
Proof.
  intros pp HL Hpp Hnd.
  assert (Hsub : forall pp l, lseg m pp l -> pp <> 0 ->
    forall a, a ∈ pprev_of <$> l -> a ∈ dom m).
  { clear. intros pp l. revert pp. induction l as [|n r IH]; intros pp; simpl.
    - intros _ _ a Ha. by apply not_elem_of_nil in Ha.
    - intros (H1 & H2 & H3 & H4) Hpp a [->|Ha]%elem_of_cons; [|by eapply IH].
      apply elem_of_dom. unfold load in H3. destruct (m !! pprev_of n); [done|].
      simpl in H3. congruence. }
  assert (Hnd' : NoDup (pprev_of <$> l)).
  { clear HL Hpp Hsub. revert pp Hnd. induction l as [|n r IH]; intros pp Hnd; simpl in *.
    - constructor.
    - apply NoDup_cons in Hnd as [_ Hnd]. apply NoDup_cons in Hnd as [Hn Hnd].
      apply NoDup_cons. split; [|by eapply IH].
      intros (x & Hx & Hin)%list_elem_of_fmap. apply Hn. rewrite Hx.
      apply elem_of_footprint. eauto. }
  rewrite <- (length_fmap pprev_of), <- (size_list_to_set (C := gset Z) _ Hnd').
  rewrite <- size_dom. apply subseteq_size. intros a Ha%elem_of_list_to_set. eauto.
Qed.

Lemma hlist_for_each_entry_spec m h l :
  hrep m h l -> h <> 0 -> hlist_for_each_entry h m = Some l.
Proof.
  intros [HL Hnd] Hh. apply hlist_walk_lseg; [done|]. by eapply lseg_length.
Qed.

(** ** A family of lists *)

Section Family.
Context (m m' : words) (L : gmap Z (list Z)) (h : Z) (l l' : list Z) (ws extra : list Z).
Hypothesis HL : hlists m L.
Hypothesis Hh : L !! h = Some l.
Hypothesis Hrep' : hrep m' h l'.
Hypothesis Hout : same_outside ws m m'.
Hypothesis Hws : forall a, a ∈ ws -> a ∈ footprint h l \/ a ∈ extra.
Hypothesis Hfp : forall a, a ∈ footprint h l' -> a ∈ footprint h l \/ a ∈ extra.
Hypothesis Hextra : forall h' k a,
  h' <> h -> L !! h' = Some k -> a ∈ extra -> a ∉ footprint h' k.

Lemma hlists_update : hlists m' (<[h := l']> L).
Proof.
  assert (Hsep : forall h' k a, h' <> h -> L !! h' = Some k ->
    a ∈ footprint h l \/ a ∈ extra -> a ∉ footprint h' k).
  { intros h' k a Hne Hk [Ha|Ha]; [|eauto]. intros Ha'.
    exact (hl_disj _ _ HL h' h k l a Hne Hk Hh Ha' Ha). }
  split.
  - intros h' k Hk. destruct (decide (h' = h)) as [->|Hne].
    + rewrite lookup_insert_eq in Hk. by simplify_eq.
    + rewrite lookup_insert_ne in Hk by done.
      destruct (hl_each _ _ HL _ _ Hk) as [HLk Hnd]. split; [|done].
      eapply lseg_frame; [|exact HLk]. intros a Ha. apply Hout. intros Hw.
      exact (Hsep _ _ _ Hne Hk (Hws _ Hw) Ha).
  - intros h1 h2 l1 l2 a Hne H1 H2 Ha1 Ha2.
    destruct (decide (h1 = h)) as [->|Hn1]; [|destruct (decide (h2 = h)) as [->|Hn2]].
    + rewrite lookup_insert_eq in H1. rewrite lookup_insert_ne in H2 by done. simplify_eq.
      exact (Hsep _ _ _ (not_eq_sym Hne) H2 (Hfp _ Ha1) Ha2).
    + rewrite lookup_insert_eq in H2. rewrite lookup_insert_ne in H1 by done. simplify_eq.
      exact (Hsep _ _ _ Hne H1 (Hfp _ Ha2) Ha1).
    + rewrite !lookup_insert_ne in H1, H2 by done. exact (hl_disj _ _ HL _ _ _ _ _ Hne H1 H2 Ha1 Ha2).
Qed.
End Family.

Lemma pprev_at_in h A B : pprev_at h A ∈ footprint h (A ++ B).
Proof. rewrite footprint_app. apply elem_of_app. right. apply footprint_head. Qed.

Lemma fresh_extra n L h' k a :
  fresh_node n L -> L !! h' = Some k -> a ∈ [n; pprev_of n] -> a ∉ footprint h' k.
Proof.
  intros [_ Hf] Hk Ha. destruct (Hf _ _ Hk) as [Hf1 Hf2].
  apply elem_of_cons in Ha as [->|Ha]; [done|].
  apply elem_of_cons in Ha as [->|Ha]; [done|]. by apply not_elem_of_nil in Ha.
Qed.

Ltac fp_mem := repeat (rewrite elem_of_footprint || rewrite elem_of_app || rewrite elem_of_cons);
  naive_solver.

Lemma footprint_mid h A n B a :
  a ∈ footprint h (A ++ n :: B) <-> a ∈ footprint h (A ++ B) \/ a ∈ [n; pprev_of n].
Proof.
  rewrite !elem_of_footprint. setoid_rewrite elem_of_app. setoid_rewrite elem_of_cons.
  unfold next_of. split.
  - intros [?|(x & [Hx|[->|Hx]] & Ha)]; [auto|left; right; eauto| |left; right; eauto].
    right. rewrite !elem_of_cons. tauto.
  - intros [[?|(x & [Hx|Hx] & Ha)]|Ha]; [auto|eauto 6|eauto 6|].
    rewrite !elem_of_cons, elem_of_nil in Ha. right. exists n. tauto.
Qed.

Section FamilyOps.
Context (m : words) (L : gmap Z (list Z)) (h : Z) (A B : list Z) (n o : Z).
Hypothesis HL : hlists m L.

Lemma next_pprev_in b B' C : B = b :: B' -> pprev_of b ∈ footprint h (C ++ B).
Proof.
  intros ->. rewrite elem_of_footprint. right. exists b. rewrite elem_of_app, elem_of_cons. auto.
Qed.

Lemma hlists_del :
  L !! h = Some (A ++ n :: B) -> hlists (hlist_del n m) (<[h := A ++ B]> L).
Proof.
  intros Hh. pose proof (hl_each _ _ HL _ _ Hh) as Hr.
  eapply (hlists_update m _ L h _ _ _ []); [done|done|by apply hlist_del_spec|
    by apply hlist_del_out| | |by intros ??? ? ? ?%not_elem_of_nil].
  - intros a Ha. left. apply elem_of_cons in Ha as [->|Ha]; [apply pprev_at_in|].
    apply footprint_mid. left. destruct B as [|b B'] eqn:E; [by apply not_elem_of_nil in Ha|].
    apply elem_of_cons in Ha as [->|Ha]; [|by apply not_elem_of_nil in Ha].
    rewrite <- E. by eapply next_pprev_in.
  - intros a Ha. left. apply footprint_mid. auto.
Qed.

Lemma hlists_add :
  L !! h = Some (A ++ B) -> fresh_node n L ->
  hlists (hlist_add n (pprev_at h A) m) (<[h := A ++ n :: B]> L).
Proof.
  intros Hh Hf. pose proof (hl_each _ _ HL _ _ Hh) as Hr.
  pose proof Hf as [Hn0 Hn]. destruct (Hn _ _ Hh) as [Hn1 Hn4].
  eapply (hlists_update m _ L h _ _ _ [n; pprev_of n]); [done|done|by apply hlist_add_spec|
    by apply hlist_add_out| | |intros; by eapply fresh_extra].
  - intros a. rewrite !elem_of_cons. intros [->|[->|[->|Ha]]]; auto; [left; apply pprev_at_in|].
    left. destruct B as [|b B'] eqn:E; [by apply not_elem_of_nil in Ha|].
    apply elem_of_cons in Ha as [->|Ha]; [|by apply not_elem_of_nil in Ha].
    rewrite <- E. by eapply next_pprev_in.
  - intros a Ha. by apply footprint_mid.
Qed.

Lemma hlists_replace :
  L !! h = Some (A ++ o :: B) -> fresh_node n L ->
  hlists (hlist_replace o n m) (<[h := A ++ n :: B]> L).
Proof.
  intros Hh Hf. pose proof (hl_each _ _ HL _ _ Hh) as Hr.
  pose proof Hf as [Hn0 Hn]. destruct (Hn _ _ Hh) as [Hn1 Hn4].
  eapply (hlists_update m _ L h _ _ _ [n; pprev_of n]); [done|done|by apply hlist_replace_spec|
    by apply hlist_replace_out| | |intros; by eapply fresh_extra].
  - intros a. rewrite !elem_of_cons. intros [->|[->|[->|Ha]]]; auto; [left; apply pprev_at_in|].
    left. apply footprint_mid. left.
    destruct B as [|b B'] eqn:E; [by apply not_elem_of_nil in Ha|].
    apply elem_of_cons in Ha as [->|Ha]; [|by apply not_elem_of_nil in Ha].
    rewrite <- E. by eapply next_pprev_in.
  - intros a [Ha|Ha]%footprint_mid; [|auto]. left. apply footprint_mid. auto.
Qed.
End FamilyOps.

Lemma hlists_add_before m L h A x B n :
  hlists m L -> L !! h = Some (A ++ x :: B) -> fresh_node n L ->
  hlists (hlist_add_before n x m) (<[h := A ++ n :: x :: B]> L).
Proof.
  intros HL Hh Hf. pose proof (hl_each _ _ HL _ _ Hh) as [HLs _].
  apply lseg_app in HLs as [_ (_ & _ & Hx & _)].
  unfold hlist_add_before. rewrite Hx. by apply hlists_add.
Qed.

(** ** Sequences of operations *)

Inductive hop :=
| AddHead (n h : Z)
| AddBefore (n next : Z)
| AddAfter (n prev : Z)
| Del (n : Z)
| Replace (old new : Z).

Definition exec_hop (o : hop) : words -> words :=
  match o with
  | AddHead n h => hlist_add_head n h
  | AddBefore n next => hlist_add_before n next
  | AddAfter n prev => hlist_add_after n prev
  | Del n => hlist_del n
  | Replace old new => hlist_replace old new
  end.

(** The abstract machine: what each operation means for the family of lists. *)
Inductive hop_step (L : gmap Z (list Z)) : hop -> gmap Z (list Z) -> Prop :=
| step_add_head n h B :
    L !! h = Some B -> fresh_node n L ->
    hop_step L (AddHead n h) (<[h := n :: B]> L)
| step_add_before n h A x B :
    L !! h = Some (A ++ x :: B) -> fresh_node n L ->
    hop_step L (AddBefore n x) (<[h := A ++ n :: x :: B]> L)
| step_add_after n h A x B :
    L !! h = Some (A ++ x :: B) -> fresh_node n L ->
    hop_step L (AddAfter n x) (<[h := A ++ x :: n :: B]> L)
| step_del h A x B :
    L !! h = Some (A ++ x :: B) ->
    hop_step L (Del x) (<[h := A ++ B]> L)
| step_replace h A o n B :
    L !! h = Some (A ++ o :: B) -> fresh_node n L ->
    hop_step L (Replace o n) (<[h := A ++ n :: B]> L).

Inductive hop_steps : gmap Z (list Z) -> list hop -> gmap Z (list Z) -> Prop :=
| steps_nil L : hop_steps L [] L
| steps_cons L o L1 ops L2 :
    hop_step L o L1 -> hop_steps L1 ops L2 -> hop_steps L (o :: ops) L2.

Definition exec_hops (ops : list hop) (m : words) : words :=
  foldl (fun m o => exec_hop o m) m ops.

Lemma pprev_at_snoc h A x : pprev_at h (A ++ [x]) = x.
Proof. revert h. induction A as [|a A IH]; intros h; simpl; [done|apply IH]. Qed.

Lemma exec_hop_spec m L o L' : hlists m L -> hop_step L o L' -> hlists (exec_hop o m) L'.
Proof.
  intros HL []; simpl.
  - by apply (hlists_add m L h [] B).
  - by apply hlists_add_before.
  - unfold hlist_add_after, next_of.
    pose proof (hlists_add m L h (A ++ [x]) B n HL) as Ha.
    rewrite pprev_at_snoc, <- !app_assoc in Ha. by apply Ha.
  - by apply hlists_del.
  - by apply hlists_replace.
Qed.

Lemma hop_step_dom L o L' h : hop_step L o L' -> is_Some (L !! h) -> is_Some (L' !! h).
Proof.
  intros [] [l Hl];
    match goal with |- context [<[?k := _]> L] => destruct (decide (h = k)) as [->|] end;
    rewrite ?lookup_insert_eq, ?lookup_insert_ne by done; eauto.
Qed.

(** C12: simulation of the pointer code by lists: any sequence of list.h
    operations that is legal on the abstract family leads the words of memory to
    a representation of the abstract result, and every [hlist_for_each_entry]
    afterwards terminates and visits exactly the abstract list, in order. *)
Theorem hlist_simulation ops m L L' :
  hlists m L -> hop_steps L ops L' ->
  hlists (exec_hops ops m) L' /\
  forall h l, h <> 0 -> L' !! h = Some l ->
    hlist_for_each_entry h (exec_hops ops m) = Some l.
Proof.
  intros HL Hs. assert (HL' : hlists (exec_hops ops m) L').
  { revert m HL. induction Hs as [|L o L1 ops L2 Ho Hs IH]; intros m HL; simpl; [done|].
    apply IH. by eapply exec_hop_spec. }
  split; [done|]. intros h l Hh Hl.
  apply hlist_for_each_entry_spec; [by apply (hl_each _ _ HL')|done].
Qed.

(** The empty store represents any family of empty lists. *)
Lemma hlists_empty (hs : gset Z) : hlists ∅ (gset_to_gmap [] hs).
Proof.
  split.
  - intros h l (Hh & <-)%lookup_gset_to_gmap_Some. split; [done|]. simpl.
    apply NoDup_singleton.
  - intros h1 h2 l1 l2 a Hne (_ & <-)%lookup_gset_to_gmap_Some
      (_ & <-)%lookup_gset_to_gmap_Some. simpl. rewrite !list_elem_of_singleton. congruence.
Qed.

Lemma fresh_node_list n L h l :
  n <> 0 -> L = {[ h := l ]} -> bool_decide ((n ∉ footprint h l) /\ (pprev_of n ∉ footprint h l)) = true ->
  fresh_node n L.
Proof.
  intros Hn -> Hd. split; [done|]. intros h' l' Hl.
  apply lookup_singleton_Some in Hl as [<- <-]. by apply bool_decide_eq_true in Hd.
Qed.

Lemma hlist_simulation_witness :
  hlist_for_each_entry 8 (exec_hops [AddHead 100 8; AddBefore 200 100; AddAfter 300 100;
    Del 200; Replace 100 400] ∅) = Some [400; 300].
Proof.
  eapply (proj2 (hlist_simulation [AddHead 100 8; AddBefore 200 100; AddAfter 300 100;
    Del 200; Replace 100 400] ∅ {[8 := []]} {[8 := [400; 300]]} _ _)); [lia|].
  reflexivity.
  Unshelve.
  - rewrite <- gset_to_gmap_singleton. apply hlists_empty.
  - eapply steps_cons; [apply (step_add_head _ _ 8 []); [reflexivity|by eapply fresh_node_list]|].
    rewrite insert_singleton_eq.
    eapply steps_cons; [apply (step_add_before _ _ 8 [] _ []); [reflexivity|by eapply fresh_node_list]|].
    rewrite insert_singleton_eq.
    eapply steps_cons; [apply (step_add_after _ _ 8 [200] _ []); [reflexivity|by eapply fresh_node_list]|].
    rewrite insert_singleton_eq.
    eapply steps_cons; [apply (step_del _ 8 [] _ [100; 300]); reflexivity|].
    rewrite insert_singleton_eq.
    eapply steps_cons; [apply (step_replace _ 8 [] 100 400 [300]); [reflexivity|by eapply fresh_node_list]|].
    rewrite insert_singleton_eq. apply steps_nil.
Defined.

(** ** The interface the allocator uses *)

Class Hlist (S : Type) := {
  h_init : S;
  h_nodes : S -> Z -> list Z;                 (* hlist_for_each_entry *)
  h_next : S -> Z -> Z;                       (* node->next *)
  h_add : Z -> Z -> S -> S;                   (* hlist_add (node, pprev) *)
  h_add_before : Z -> Z -> S -> S;            (* hlist_add_before (node, next) *)
  h_del : Z -> S -> S;                        (* hlist_del *)
  h_replace : Z -> Z -> S -> S;               (* hlist_replace (old, new) *)
  h_rep : S -> gmap Z (list Z) -> Prop;
  h_init_spec hs : h_rep h_init (gset_to_gmap [] hs);
  h_nodes_spec s L h l :
    h_rep s L -> h <> 0 -> L !! h = Some l -> h_nodes s h = l;
  h_next_spec s L h A n B :
    h_rep s L -> L !! h = Some (A ++ n :: B) -> h_next s n = default 0 (head B);
  h_elem_spec s L h l :
    h_rep s L -> L !! h = Some l -> NoDup l /\ 0 ∉ l;
  h_distinct s L h1 h2 l1 l2 n :
    h_rep s L -> L !! h1 = Some l1 -> L !! h2 = Some l2 -> n ∈ l1 -> n ∈ l2 -> h1 = h2;
  h_add_spec s L h A B n :
    h_rep s L -> L !! h = Some (A ++ B) -> fresh_node n L ->
    h_rep (h_add n (pprev_at h A) s) (<[h := A ++ n :: B]> L);
  h_add_before_spec s L h A x B n :
    h_rep s L -> L !! h = Some (A ++ x :: B) -> fresh_node n L ->
    h_rep (h_add_before n x s) (<[h := A ++ n :: x :: B]> L);
  h_del_spec s L h A n B :
    h_rep s L -> L !! h = Some (A ++ n :: B) -> h_rep (h_del n s) (<[h := A ++ B]> L);
  h_replace_spec s L h A o n B :
    h_rep s L -> L !! h = Some (A ++ o :: B) -> fresh_node n L ->
    h_rep (h_replace o n s) (<[h := A ++ n :: B]> L) }.

Definition words_nodes (m : words) (h : Z) : list Z := default [] (hlist_for_each_entry h m).

Lemma words_nodes_spec m L h l :
  hlists m L -> h <> 0 -> L !! h = Some l -> words_nodes m h = l.
Proof.
  intros HL Hh Hl. unfold words_nodes.
  by rewrite (hlist_for_each_entry_spec m h l (hl_each _ _ HL _ _ Hl) Hh).
Qed.

Lemma words_next_spec m L h A n B :
  hlists m L -> L !! h = Some (A ++ n :: B) -> load m (next_of n) = default 0 (head B).
Proof.
  intros HL Hh. destruct (hl_each _ _ HL _ _ Hh) as [Hs _].
  apply lseg_app in Hs as [_ (_ & _ & _ & HB)]. destruct B; simpl in *; tauto.
Qed.

Lemma lseg_nonzero m l : forall pp, lseg m pp l -> 0 ∉ l.
Proof.
  induction l as [|n r IH]; intros pp; simpl; [intros _; apply not_elem_of_nil|].
  intros (_ & Hn & _ & Hr). apply not_elem_of_cons. split; [done|by eapply IH].
Qed.

Lemma footprint_nodup l : forall pp, NoDup (footprint pp l) -> NoDup l.
Proof.
  induction l as [|n r IH]; intros pp Hnd; simpl in *; [constructor|].
  apply NoDup_cons in Hnd as [_ Hnd]. apply NoDup_cons in Hnd as [_ Hnd].
  apply NoDup_cons. split; [|by eapply IH]. intros Hin.
  destruct r as [|b r]; [by apply not_elem_of_nil in Hin|].
  simpl in Hnd. apply NoDup_cons in Hnd as [Hn Hnd]. apply elem_of_cons in Hin as [->|Hin].
  - apply Hn. right. apply footprint_head.
  - apply Hn. right. apply elem_of_footprint. eauto.
Qed.

Lemma words_elem_spec m L h l : hlists m L -> L !! h = Some l -> NoDup l /\ 0 ∉ l.
Proof.
  intros HL Hh. destruct (hl_each _ _ HL _ _ Hh) as [Hs Hnd].
  split; [by eapply footprint_nodup|by eapply lseg_nonzero].
Qed.

Lemma words_distinct m L h1 h2 l1 l2 n :
  hlists m L -> L !! h1 = Some l1 -> L !! h2 = Some l2 -> n ∈ l1 -> n ∈ l2 -> h1 = h2.
Proof.
  intros HL H1 H2 Hn1 Hn2. destruct (decide (h1 = h2)) as [|Hne]; [done|exfalso].
  apply (hl_disj _ _ HL _ _ _ _ n Hne H1 H2); apply elem_of_footprint; eauto.
Qed.

#[export] Instance hlist_words : Hlist words := {|
  h_init := ∅;
  h_nodes := words_nodes;
  h_next m n := load m (next_of n);
  h_add := hlist_add;
  h_add_before := hlist_add_before;
  h_del := hlist_del;
  h_replace := hlist_replace;
  h_rep := hlists;
  h_init_spec := hlists_empty;
  h_nodes_spec := words_nodes_spec;
  h_next_spec := words_next_spec;
  h_elem_spec := words_elem_spec;
  h_distinct := words_distinct;
  h_add_spec m L h A B n HL := hlists_add m L h A B n HL;
  h_add_before_spec := hlists_add_before;
  h_del_spec m L h A n B HL := hlists_del m L h A B n HL;
  h_replace_spec m L h A o n B HL := hlists_replace m L h A B n o HL |}.
