(* ===== verification/Machine.v ===== *)
(** * The machine the BIOS runs on

    Byte-addressed memory with the far accessors of src/farptr.h, the CPU
    registers a handler receives (src/bregs.h), the layout of the BIOS data area
    (src/std/bda.h) and a state monad for the handlers.  The devices behind the
    I/O ports, other threads and software interrupts are an environment
    parameter (the class [Env]). *)
From S2P Require Import Prelude.

(** ** Memory *)

Abbreviation memory := (gmap Z Z).

Definition read8 (m : memory) (a : Z) : Z := default 0 (m !! a).
Definition read16 (m : memory) (a : Z) : Z := read8 m a + 2 ^ 8 * read8 m (a + 1).
Definition read32 (m : memory) (a : Z) : Z := read16 m a + 2 ^ 16 * read16 m (a + 2).

Definition write8 (a v : Z) (m : memory) : memory := <[a := u8 v]> m.
Definition write16 (a v : Z) (m : memory) : memory := write8 (a + 1) (v / 2 ^ 8) (write8 a v m).
Definition write32 (a v : Z) (m : memory) : memory := write16 (a + 2) (v / 2 ^ 16) (write16 a v m).

(** Every cell of a memory is a byte. *)
Definition bytes_ok (m : memory) : Prop := forall a, 0 <= read8 m a < 2 ^ 8.

Definition FLATPTR_TO_SEG (p : Z) : Z := Z.shiftr (u32 p) 4.
Definition FLATPTR_TO_OFFSET (p : Z) : Z := Z.land (u32 p) 0xf.
Definition MAKE_FLATPTR (seg off : Z) : Z := u32 (Z.shiftl seg 4 + off).

(** struct segoff_s of types.h, [SEGOFF], [FLATPTR_TO_SEGOFF], [SEGOFF_TO_FLATPTR] *)
Record segoff_s := Segoff { so_offset : Z; so_seg : Z }.
Definition SEGOFF (s o : Z) : segoff_s := Segoff (u16 o) (u16 s).
Definition segoff (so : segoff_s) : Z := so_offset so + 2 ^ 16 * so_seg so.
Definition segoff_of (v : Z) : segoff_s := Segoff (u16 v) (u16 (v / 2 ^ 16)).
Definition FLATPTR_TO_SEGOFF (p : Z) : segoff_s :=
  SEGOFF (FLATPTR_TO_SEG p) (FLATPTR_TO_OFFSET p).
Definition SEGOFF_TO_FLATPTR (so : segoff_s) : Z := MAKE_FLATPTR (so_seg so) (so_offset so).

Section MemoryLemmas.
Implicit Types (m : memory) (a b v : Z).

Lemma read8_write8 a b v m :
  read8 (write8 a v m) b = if decide (a = b) then u8 v else read8 m b.
Proof. unfold read8, write8. rewrite lookup_insert. by case_decide. Qed.

Lemma read8_write8_eq a v m : read8 (write8 a v m) a = u8 v.
Proof. rewrite read8_write8. by rewrite decide_True. Qed.

Lemma read8_write8_ne a b v m : a <> b -> read8 (write8 a v m) b = read8 m b.
Proof. intros. rewrite read8_write8. by rewrite decide_False. Qed.

Lemma read8_write16 a b v m :
  read8 (write16 a v m) b =
  if decide (b = a) then u8 v else if decide (b = a + 1) then u8 (v / 2 ^ 8) else read8 m b.
Proof.
  unfold write16. rewrite !read8_write8.
  repeat case_decide; subst; try lia; congruence.
Qed.

Lemma read16_write16_eq a v m : read16 (write16 a v m) a = u16 v.
Proof.
  unfold read16. rewrite !read8_write16, !decide_True, decide_False, decide_True by lia.
  unfold u8, u16. lia.
Qed.

Lemma read16_write16_ne a b v m :
  b + 1 < a \/ a + 1 < b -> read16 (write16 a v m) b = read16 m b.
Proof.
  intros. unfold read16. rewrite !read8_write16. by rewrite !decide_False by lia.
Qed.

Lemma read8_write16_ne a b v m : b < a \/ a + 1 < b -> read8 (write16 a v m) b = read8 m b.
Proof. intros. rewrite !read8_write16. by rewrite !decide_False by lia. Qed.

Lemma read16_write8_ne a b v m : a < b \/ b + 1 < a -> read16 (write8 a v m) b = read16 m b.
Proof. intros. unfold read16. by rewrite !read8_write8_ne by lia. Qed.

Lemma read32_write32_eq a v m : read32 (write32 a v m) a = u32 v.
Proof.
  unfold read32, write32.
  rewrite read16_write16_ne, !read16_write16_eq by lia. unfold u16, u32. lia.
Qed.

Lemma read8_write32_ne a b v m : b < a \/ a + 3 < b -> read8 (write32 a v m) b = read8 m b.
Proof. intros. unfold write32. by rewrite !read8_write16_ne by lia. Qed.

Lemma read16_write32_ne a b v m : b + 1 < a \/ a + 3 < b -> read16 (write32 a v m) b = read16 m b.
Proof. intros. unfold write32. by rewrite !read16_write16_ne by lia. Qed.

Lemma read32_write8_ne a b v m : a < b \/ b + 3 < a -> read32 (write8 a v m) b = read32 m b.
Proof. intros. unfold read32. by rewrite !read16_write8_ne by lia. Qed.

Lemma read32_write16_ne a b v m : a + 1 < b \/ b + 3 < a -> read32 (write16 a v m) b = read32 m b.
Proof. intros. unfold read32. by rewrite !read16_write16_ne by lia. Qed.

Lemma read32_write32_ne a b v m : a + 3 < b \/ b + 3 < a -> read32 (write32 a v m) b = read32 m b.
Proof. intros. unfold write32. by rewrite !read32_write16_ne by lia. Qed.

Lemma bytes_ok_empty : bytes_ok ∅.
Proof. intros a. unfold read8. rewrite lookup_empty. simpl. lia. Qed.

Lemma bytes_ok_write8 a v m : bytes_ok m -> bytes_ok (write8 a v m).
Proof. intros H b. rewrite read8_write8. case_decide; [apply u8_range|apply H]. Qed.

Lemma bytes_ok_write16 a v m : bytes_ok m -> bytes_ok (write16 a v m).
Proof. intros. by repeat apply bytes_ok_write8. Qed.

Lemma bytes_ok_write32 a v m : bytes_ok m -> bytes_ok (write32 a v m).
Proof. intros. by repeat apply bytes_ok_write16. Qed.

Lemma read16_range a m : bytes_ok m -> 0 <= read16 m a < 2 ^ 16.
Proof. intros H. pose proof (H a). pose proof (H (a + 1)). unfold read16. lia. Qed.

Lemma read32_range a m : bytes_ok m -> 0 <= read32 m a < 2 ^ 32.
Proof.
  intros H. pose proof (read16_range a m H). pose proof (read16_range (a + 2) m H).
  unfold read32. lia.
Qed.
End MemoryLemmas.

Create HintDb mem.
#[export] Hint Resolve bytes_ok_empty bytes_ok_write8 bytes_ok_write16 bytes_ok_write32 : mem.

(** Read a field back through writes to fields at known addresses. *)
Ltac mem_simpl :=
  repeat first
    [ rewrite read8_write8_eq | rewrite read16_write16_eq | rewrite read32_write32_eq
    | rewrite read8_write8_ne by lia | rewrite read16_write8_ne by lia
    | rewrite read32_write8_ne by lia | rewrite read8_write16_ne by lia
    | rewrite read16_write16_ne by lia | rewrite read32_write16_ne by lia
    | rewrite read8_write32_ne by lia | rewrite read16_write32_ne by lia
    | rewrite read32_write32_ne by lia ].

(** ** The BIOS data area: std/bda.h *)

Definition SEG_IVT := 0x0000.
Definition SEG_BDA := 0x0040.
Definition SEG_BIOS := 0xf000.

(** [GET_FARVAR (SEG_BDA, ...)]: the flat address of an offset in the BDA. *)
Definition bda (off : Z) : Z := 0x400 + off.

Module BDA.
Definition ebda_seg := bda 0x0e.
Definition equipment_list_flags := bda 0x10.
Definition mem_size_kb := bda 0x13.
Definition ps2_ctrl_flag := bda 0x16.
Definition kbd_flag0 := bda 0x17.
Definition alt_keypad := bda 0x19.
Definition kbd_buf_head := bda 0x1a.
Definition kbd_buf_tail := bda 0x1c.
Definition kbd_buf := 0x1e.                      (* offset in the segment *)
Definition kbd_buf_size := 32.
Definition floppy_motor_counter := bda 0x40.
Definition floppy_last_status := bda 0x41.
Definition timer_counter := bda 0x6c.
Definition timer_rollover := bda 0x70.
Definition break_flag := bda 0x71.
Definition soft_reset_flag := bda 0x72.
Definition disk_last_status := bda 0x74.
Definition hdcount := bda 0x75.
Definition kbd_buf_start_offset := bda 0x80.
Definition kbd_buf_end_offset := bda 0x82.
Definition disk_interrupt_flag := bda 0x8e.
Definition floppy_harddisk_info := bda 0x8f.
Definition kbd_flag1 := bda 0x96.
Definition kbd_led := bda 0x97.
Definition user_wait_complete_flag := bda 0x98.
Definition user_wait_timeout := bda 0x9c.
Definition rtc_wait_flag := bda 0xa0.
End BDA.

(** The offsets are concrete: unfold them before arithmetic. *)
Ltac bda_unfold :=
  unfold BDA.ebda_seg, BDA.equipment_list_flags, BDA.mem_size_kb, BDA.ps2_ctrl_flag,
    BDA.kbd_flag0, BDA.alt_keypad, BDA.kbd_buf_head, BDA.kbd_buf_tail, BDA.kbd_buf,
    BDA.kbd_buf_size, BDA.floppy_motor_counter, BDA.timer_counter, BDA.timer_rollover,
    BDA.break_flag, BDA.soft_reset_flag, BDA.disk_last_status, BDA.hdcount,
    BDA.floppy_last_status, BDA.disk_interrupt_flag, BDA.floppy_harddisk_info,
    BDA.kbd_buf_start_offset, BDA.kbd_buf_end_offset, BDA.kbd_flag1, BDA.kbd_led,
    BDA.user_wait_complete_flag, BDA.user_wait_timeout, BDA.rtc_wait_flag, bda in *.

(** biosvar.h [set_equipment_flags] *)
Definition set_equipment_flags (clear set : Z) (m : memory) : memory :=
  let eqf := read16 m BDA.equipment_list_flags in
  write16 BDA.equipment_list_flags (Z.lor (Z.land eqf (u16 (Z.lnot clear))) set) m.

(** ** CPU registers: struct bregs *)

Record bregs := Bregs {
  r_ds : Z; r_es : Z; r_edi : Z; r_esi : Z; r_ebp : Z; r_ebx : Z; r_edx : Z; r_ecx : Z;
  r_eax : Z; r_code : segoff_s; r_flags : Z }.

Definition bregs_zero : bregs := Bregs 0 0 0 0 0 0 0 0 0 (Segoff 0 0) 0.

Definition F_CF := 1.
Definition F_ZF := 64.
Definition F_IF := 512.

(** The views the union [UREG] gives of a 32-bit register. *)
Definition low16 (x : Z) : Z := x mod 2 ^ 16.
Definition low8 (x : Z) : Z := x mod 2 ^ 8.
Definition high8 (x : Z) : Z := (x / 2 ^ 8) mod 2 ^ 8.
Definition with_low16 (x v : Z) : Z := x - x mod 2 ^ 16 + u16 v.
Definition with_low8 (x v : Z) : Z := x - x mod 2 ^ 8 + u8 v.
Definition with_high8 (x v : Z) : Z := x - 2 ^ 8 * high8 x + 2 ^ 8 * u8 v.

Lemma low16_with x v : low16 (with_low16 x v) = u16 v.
Proof. unfold low16, with_low16, u16. lia. Qed.
Lemma low8_with_low8 x v : low8 (with_low8 x v) = u8 v.
Proof. unfold low8, with_low8, u8. lia. Qed.
Lemma high8_with_low8 x v : high8 (with_low8 x v) = high8 x.
Proof. unfold high8, with_low8, u8. lia. Qed.
Lemma high8_with_high8 x v : high8 (with_high8 x v) = u8 v.
Proof. unfold with_high8, high8, u8. lia. Qed.
Lemma low8_with_high8 x v : low8 (with_high8 x v) = low8 x.
Proof. unfold with_high8, high8, low8, u8. lia. Qed.

Definition r_ax r := low16 (r_eax r).
Definition r_al r := low8 (r_eax r).
Definition r_ah r := high8 (r_eax r).
Definition r_bx r := low16 (r_ebx r).
Definition r_bl r := low8 (r_ebx r).
Definition r_bh r := high8 (r_ebx r).
Definition r_cx r := low16 (r_ecx r).
Definition r_cl r := low8 (r_ecx r).
Definition r_ch r := high8 (r_ecx r).
Definition r_dx r := low16 (r_edx r).
Definition r_dl r := low8 (r_edx r).
Definition r_dh r := high8 (r_edx r).
Definition r_si r := low16 (r_esi r).
Definition r_di r := low16 (r_edi r).

Definition set_es (v : Z) (r : bregs) : bregs :=
  Bregs (r_ds r) v (r_edi r) (r_esi r) (r_ebp r) (r_ebx r) (r_edx r) (r_ecx r) (r_eax r) (r_code r) (r_flags r).
Definition set_edi (v : Z) (r : bregs) : bregs :=
  Bregs (r_ds r) (r_es r) v (r_esi r) (r_ebp r) (r_ebx r) (r_edx r) (r_ecx r) (r_eax r) (r_code r) (r_flags r).
Definition set_esi (v : Z) (r : bregs) : bregs :=
  Bregs (r_ds r) (r_es r) (r_edi r) v (r_ebp r) (r_ebx r) (r_edx r) (r_ecx r) (r_eax r) (r_code r) (r_flags r).
Definition set_ebx (v : Z) (r : bregs) : bregs :=
  Bregs (r_ds r) (r_es r) (r_edi r) (r_esi r) (r_ebp r) v (r_edx r) (r_ecx r) (r_eax r) (r_code r) (r_flags r).
Definition set_edx (v : Z) (r : bregs) : bregs :=
  Bregs (r_ds r) (r_es r) (r_edi r) (r_esi r) (r_ebp r) (r_ebx r) v (r_ecx r) (r_eax r) (r_code r) (r_flags r).
Definition set_ecx (v : Z) (r : bregs) : bregs :=
  Bregs (r_ds r) (r_es r) (r_edi r) (r_esi r) (r_ebp r) (r_ebx r) (r_edx r) v (r_eax r) (r_code r) (r_flags r).
Definition set_eax (v : Z) (r : bregs) : bregs :=
  Bregs (r_ds r) (r_es r) (r_edi r) (r_esi r) (r_ebp r) (r_ebx r) (r_edx r) (r_ecx r) v (r_code r) (r_flags r).
Definition set_flags (v : Z) (r : bregs) : bregs :=
  Bregs (r_ds r) (r_es r) (r_edi r) (r_esi r) (r_ebp r) (r_ebx r) (r_edx r) (r_ecx r) (r_eax r) (r_code r) v.
Definition set_ax (v : Z) (r : bregs) : bregs := set_eax (with_low16 (r_eax r) v) r.
Definition set_al (v : Z) (r : bregs) : bregs := set_eax (with_low8 (r_eax r) v) r.
Definition set_ah (v : Z) (r : bregs) : bregs := set_eax (with_high8 (r_eax r) v) r.
Definition set_bx (v : Z) (r : bregs) : bregs := set_ebx (with_low16 (r_ebx r) v) r.
Definition set_bl (v : Z) (r : bregs) : bregs := set_ebx (with_low8 (r_ebx r) v) r.
Definition set_bh (v : Z) (r : bregs) : bregs := set_ebx (with_high8 (r_ebx r) v) r.
Definition set_cx (v : Z) (r : bregs) : bregs := set_ecx (with_low16 (r_ecx r) v) r.
Definition set_cl (v : Z) (r : bregs) : bregs := set_ecx (with_low8 (r_ecx r) v) r.
Definition set_ch (v : Z) (r : bregs) : bregs := set_ecx (with_high8 (r_ecx r) v) r.
Definition set_dx (v : Z) (r : bregs) : bregs := set_edx (with_low16 (r_edx r) v) r.
Definition set_dl (v : Z) (r : bregs) : bregs := set_edx (with_low8 (r_edx r) v) r.
Definition set_dh (v : Z) (r : bregs) : bregs := set_edx (with_high8 (r_edx r) v) r.
Definition set_di (v : Z) (r : bregs) : bregs := set_edi (with_low16 (r_edi r) v) r.
Definition set_si (v : Z) (r : bregs) : bregs := set_esi (with_low16 (r_esi r) v) r.

(** bregs.h helpers; the [line] and message arguments of the reporting variants
    of output.c only reach the debug console. *)
Definition set_cf (r : bregs) (cond : bool) : bregs :=
  if cond then set_flags (Z.lor (r_flags r) F_CF) r
  else set_flags (Z.land (r_flags r) (u16 (Z.lnot F_CF))) r.

Definition RET_EUNSUPPORTED := 0x86.

Definition set_success (r : bregs) : bregs := set_cf r false.
Definition set_code_success (r : bregs) : bregs := set_cf (set_ah 0 r) false.
Definition set_invalid_silent (r : bregs) : bregs := set_cf r true.
Definition set_code_invalid_silent (r : bregs) (code : Z) : bregs := set_cf (set_ah code r) true.
Definition set_invalid (r : bregs) : bregs := set_invalid_silent r.
Definition set_unimplemented (r : bregs) : bregs := set_invalid_silent r.
(** The line number travels in the upper bits of [linecode] and is cut off. *)
Definition set_code_invalid (r : bregs) (linecode : Z) : bregs :=
  set_code_invalid_silent r (u8 linecode).
Definition set_code_unimplemented (r : bregs) (linecode : Z) : bregs :=
  set_code_invalid_silent r (u8 linecode).

Definition cf_set (r : bregs) : bool := Z.testbit (r_flags r) 0.
Definition zf_set (r : bregs) : bool := Z.testbit (r_flags r) 6.

Lemma cf_set_cf r c : cf_set (set_cf r c) = c.
Proof.
  unfold cf_set, set_cf. destruct c; cbn [set_flags r_flags].
  - rewrite Z.lor_spec. apply orb_true_r.
  - rewrite Z.land_spec. apply andb_false_r.
Qed.

(** ** Environment and monad *)

Record machine (W : Type) := Machine { mc_mem : memory; mc_world : W }.
Arguments Machine {W}. Arguments mc_mem {W}. Arguments mc_world {W}.

(** What the code meets outside itself: the devices behind the I/O ports; what
    other threads and interrupt handlers do while the code yields; the handlers
    behind the software interrupts it raises. *)
Class Env (W : Type) := {
  dev_inb : Z -> W -> Z * W;
  dev_outb : Z -> Z -> W -> W;                    (* value, port *)
  env_yield : machine W -> machine W;
  env_yield_toirq : machine W -> machine W;
  env_int : Z -> bregs -> machine W -> bregs * machine W }.

(** Handlers may wait for events, so a run needs fuel; [None] is a run whose
    fuel was not enough. *)
Definition ST (S A : Type) : Type := S -> option (A * S).
Abbreviation M W A := (ST (machine W) A).

Definition ret {S A} (x : A) : ST S A := fun s => Some (x, s).
Definition bind {S A B} (c : ST S A) (k : A -> ST S B) : ST S B :=
  fun s => match c s with Some (x, s') => k x s' | None => None end.

Section Monad.
Context {W : Type}.

Definition get8 (a : Z) : M W Z := fun s => Some (read8 (mc_mem s) a, s).
Definition get16 (a : Z) : M W Z := fun s => Some (read16 (mc_mem s) a, s).
Definition get32 (a : Z) : M W Z := fun s => Some (read32 (mc_mem s) a, s).
Definition upd_mem (f : memory -> memory) : M W unit :=
  fun s => Some (tt, Machine (f (mc_mem s)) (mc_world s)).
Definition put8 (a v : Z) : M W unit := upd_mem (write8 a v).
Definition put16 (a v : Z) : M W unit := upd_mem (write16 a v).
Definition put32 (a v : Z) : M W unit := upd_mem (write32 a v).
Definition get64 (a : Z) : M W Z :=
  fun s => Some (read32 (mc_mem s) a + 2 ^ 32 * read32 (mc_mem s) (a + 4), s).
Definition put64 (a v : Z) : M W unit :=
  upd_mem (fun m => write32 (a + 4) (v / 2 ^ 32) (write32 a v m)).

Context `{Env W}.

Definition inb (port : Z) : M W Z :=
  fun s => let '(v, w) := dev_inb port (mc_world s) in Some (u8 v, Machine (mc_mem s) w).
Definition outb (value port : Z) : M W unit :=
  fun s => Some (tt, Machine (mc_mem s) (dev_outb (u8 value) port (mc_world s))).
Definition yield : M W unit := fun s => Some (tt, env_yield s).
Definition yield_toirq : M W unit := fun s => Some (tt, env_yield_toirq s).
Definition call16_int (nr : Z) (r : bregs) : M W bregs := fun s => Some (env_int nr r s).
End Monad.

Declare Scope seabios_scope.
Delimit Scope seabios_scope with seabios.
Notation "x <- c ;; k" := (bind c (fun x => k))
  (at level 100, c at next level, right associativity) : seabios_scope.
Notation "'do' c ;; k" := (bind c (fun _ => k))
  (at level 100, c at next level, right associativity) : seabios_scope.

Section Bind.
Context {S A B : Type}.
Implicit Types (c : ST S A) (k : A -> ST S B).

Lemma bind_some c k s x s' : c s = Some (x, s') -> bind c k s = k x s'.
Proof. intros Hc. unfold bind. by rewrite Hc. Qed.

Lemma bind_inv c k s r : bind c k s = Some r -> exists x s', c s = Some (x, s') /\ k x s' = Some r.
Proof. unfold bind. destruct (c s) as [[x s']|]; [eauto|done]. Qed.
End Bind.
