(* ===== verification/StringOps.v ===== *)
(** * String and memory operations (src/string.c)

    Each function acts on the byte memory of [Machine], one access after the
    other as the source's loop (or its [rep movs] / [rep stos]) makes them, so
    overlapping operands behave as they do in the machine.  [char] is signed, as
    on the target.  Pointers are addresses without wrap-around: no operand runs
    past the end of the address space. *)
From S2P Require Import Prelude Machine.

(** ** Operations *)

(** [checksum], and [checksum_far] on the flat address of its segment. *)
Fixpoint checksum_loop (n : nat) (buf sum : Z) (m : memory) : Z :=
  match n with
  | O => sum
  | S n' => checksum_loop n' (buf + 1) (u8 (sum + read8 m buf)) m
  end.
Definition checksum_far (buf_seg buf_far len : Z) (m : memory) : Z :=
  checksum_loop (Z.to_nat len) (Z.shiftl buf_seg 4 + buf_far) 0 m.
Definition checksum (buf len : Z) (m : memory) : Z := checksum_far 0 buf len m.

(** [strlen]: [None] when no NUL is met within the fuel. *)
Fixpoint strlen_loop (fuel : nat) (s p : Z) (m : memory) : option Z :=
  if read8 m p =? 0 then Some (p - s)
  else match fuel with O => None | S f => strlen_loop f s (p + 1) m end.
Definition strlen (fuel : nat) (s : Z) (m : memory) : option Z := strlen_loop fuel s s m.

Fixpoint memcmp_loop (n : nat) (s1 s2 : Z) (m : memory) : Z :=
  match n with
  | O => 0
  | S n' =>
    if negb (read8 m s1 =? read8 m s2) then (if read8 m s1 <? read8 m s2 then -1 else 1)
    else memcmp_loop n' (s1 + 1) (s2 + 1) m
  end.
Definition memcmp (s1 s2 n : Z) (m : memory) : Z := memcmp_loop (Z.to_nat n) s1 s2 m.

Fixpoint memcmp_far_loop (n : nat) (s1 s2 : Z) (m : memory) : Z :=
  match n with
  | O => 0
  | S n' =>
    let d := read8 m s1 - read8 m s2 in
    if truthy d then (if d <? 0 then -1 else 1) else memcmp_far_loop n' (s1 + 1) (s2 + 1) m
  end.
Definition memcmp_far (s1seg s1 s2seg s2 n : Z) (m : memory) : Z :=
  memcmp_far_loop (Z.to_nat n) (Z.shiftl s1seg 4 + s1) (Z.shiftl s2seg 4 + s2) m.

Fixpoint strcmp (fuel : nat) (s1 s2 : Z) (m : memory) : option Z :=
  let c1 := s8 (read8 m s1) in
  let c2 := s8 (read8 m s2) in
  if negb (c1 =? c2) then Some (if c1 <? c2 then -1 else 1)
  else if c1 =? 0 then Some 0
  else match fuel with O => None | S f => strcmp f (s1 + 1) (s2 + 1) m end.

Fixpoint memset_loop (n : nat) (s c : Z) (m : memory) : memory :=
  match n with O => m | S n' => memset_loop n' s c (write8 (s + Z.of_nat n') c m) end.
Definition memset (s c n : Z) (m : memory) : memory := memset_loop (Z.to_nat n) s c m.

(** [rep stosb] and [rep stosw] through %es:%di, which wraps at 64KiB. *)
Fixpoint stosb (n : nat) (seg off c : Z) (m : memory) : memory :=
  match n with
  | O => m
  | S n' => stosb n' seg (u16 (off + 1)) c (write8 (Z.shiftl seg 4 + off) c m)
  end.
Definition memset_far (d_seg d_far c len : Z) (m : memory) : memory :=
  stosb (Z.to_nat (u16 len)) d_seg (u16 d_far) c m.

Fixpoint stosw (n : nat) (seg off c : Z) (m : memory) : memory :=
  match n with
  | O => m
  | S n' => stosw n' seg (u16 (off + 2)) c (write16 (Z.shiftl seg 4 + off) c m)
  end.
Definition memset16_far (d_seg d_far c len : Z) (m : memory) : memory :=
  stosw (Z.to_nat (u16 (len / 2))) d_seg (u16 d_far) c m.

(** [rep movsb] and [rep movsl] (direction flag clear). *)
Fixpoint movsb (n : nat) (d s : Z) (m : memory) : memory :=
  match n with O => m | S n' => movsb n' (d + 1) (s + 1) (write8 d (read8 m s) m) end.
Fixpoint movsl (n : nat) (d s : Z) (m : memory) : memory :=
  match n with O => m | S n' => movsl n' (d + 4) (s + 4) (write32 d (read32 m s) m) end.

(** [memcpy_far]: [rep movsb] from %ds:%si to %es:%di; both offsets wrap. *)
Fixpoint movsb_far (n : nat) (d_seg d s_seg s : Z) (m : memory) : memory :=
  match n with
  | O => m
  | S n' =>
    movsb_far n' d_seg (u16 (d + 1)) s_seg (u16 (s + 1))
      (write8 (Z.shiftl d_seg 4 + d) (read8 m (Z.shiftl s_seg 4 + s)) m)
  end.
Definition memcpy_far (d_seg d_far s_seg s_far len : Z) (m : memory) : memory :=
  movsb_far (Z.to_nat (u16 len)) d_seg (u16 d_far) s_seg (u16 s_far) m.

Definition memcpy (d1 s1 len : Z) (m : memory) : memory :=
  if truthy (Z.land (Z.lor (Z.lor d1 s1) len) 3) then movsb (Z.to_nat len) d1 s1 m
  else movsl (Z.to_nat (len / 4)) d1 s1 m.

(** [iomemcpy]: blocks of at most 2048 bytes by [rep movsl], the rest by memcpy. *)
Fixpoint iomemcpy_loop (fuel : nat) (d s len : Z) (m : memory) : option (Z * Z * Z * memory) :=
  if 3 <? len then
    match fuel with
    | O => None
    | S f =>
      let copylen := (if 2048 <? len then 2048 else len) / 4 in
      iomemcpy_loop f (d + 4 * copylen) (s + 4 * copylen) (len - copylen * 4)
        (movsl (Z.to_nat copylen) d s m)
    end
  else Some (d, s, len, m).
Definition iomemcpy (fuel : nat) (d s len : Z) (m : memory) : option memory :=
  match iomemcpy_loop fuel d s len m with
  | None => None
  | Some (d', s', len', m') => Some (if truthy len' then memcpy d' s' len' m' else m')
  end.

(** The backward loop of [memmove]. *)
Fixpoint movsb_down (n : nat) (d s : Z) (m : memory) : memory :=
  match n with O => m | S n' => movsb_down n' (d - 1) (s - 1) (write8 d (read8 m s) m) end.
Definition memmove (d s len : Z) (m : memory) : memory :=
  if d <=? s then memcpy d s len m
  else movsb_down (Z.to_nat len) (d + (len - 1)) (s + (len - 1)) m.

(** [strtcpy]: [len] counts down before the copy, so it must be positive. *)
Fixpoint strtcpy_loop (n : nat) (d src : Z) (m : memory) : memory :=
  match n with
  | O => write8 d 0 m
  | S n' =>
    if read8 m src =? 0 then write8 d 0 m
    else strtcpy_loop n' (d + 1) (src + 1) (write8 d (read8 m src) m)
  end.
Definition strtcpy (dest src len : Z) (m : memory) : memory :=
  strtcpy_loop (Z.to_nat (u32 (len - 1))) dest src m.

Fixpoint strchr (fuel : nat) (s c : Z) (m : memory) : option Z :=
  if read8 m s =? 0 then Some 0
  else if s8 (read8 m s) =? c then Some s
  else match fuel with O => None | S f => strchr f (s + 1) c m end.

(** [nullTrailingSpace]: first loop, from the end of the string down. *)
Fixpoint null_trailing (n : nat) (buf : Z) (m : memory) : memory :=
  match n with
  | O => m
  | S n' =>
    let end_ := buf + Z.of_nat n' in
    if s8 (read8 m end_) <=? 32 then null_trailing n' buf (write8 end_ 0 m) else m
  end.
Fixpoint skip_leading (fuel : nat) (buf : Z) (m : memory) : option Z :=
  if negb (read8 m buf =? 0) && (s8 (read8 m buf) <=? 32)
  then match fuel with O => None | S f => skip_leading f (buf + 1) m end
  else Some buf.
Definition nullTrailingSpace (fuel : nat) (buf : Z) (m : memory) : option (Z * memory) :=
  match strlen fuel buf m with
  | None => None
  | Some len =>
    let m' := null_trailing (Z.to_nat len) buf m in
    match skip_leading fuel buf m' with None => None | Some p => Some (p, m') end
  end.

(** ** Byte ranges *)

Definition in_range (a b n : Z) : bool := (b <=? a) && (a <? b + n).

(** The effect of a copy that behaves as if the source were read first. *)
Definition copied (d s n : Z) (m m' : memory) : Prop :=
  forall a, read8 m' a = if in_range a d n then read8 m (s + (a - d)) else read8 m a.

Lemma in_range_true a b n : in_range a b n = true <-> b <= a < b + n.
Proof. unfold in_range. rewrite andb_true_iff, Z.leb_le, Z.ltb_lt. done. Qed.

Lemma in_range_false a b n : in_range a b n = false <-> a < b \/ b + n <= a.
Proof. unfold in_range. rewrite andb_false_iff, Z.leb_gt, Z.ltb_ge. done. Qed.

Ltac range_case a b n :=
  destruct (in_range a b n) eqn:?;
  repeat match goal with
  | H : in_range _ _ _ = true |- _ => apply in_range_true in H
  | H : in_range _ _ _ = false |- _ => apply in_range_false in H
  end.

Lemma copied_0 d s n m : n <= 0 -> copied d s n m m.
Proof. intros Hn a. range_case a d n; [lia|done]. Qed.

(** Forward copying of one block, then of the rest, is a copy when the source
    does not lie below the destination, or the two are apart. *)
Lemma copied_forward d s k n m m1 m2 :
  0 <= k <= n -> d <= s \/ s + n <= d -> copied d s k m m1 -> copied (d + k) (s + k) (n - k) m1 m2 ->
  copied d s n m m2.
Proof.
  intros Hk Hds H1 H2 a. rewrite H2. range_case a (d + k) (n - k); range_case a d n; try lia.
  - rewrite H1. range_case (s + k + (a - (d + k))) d k; [lia|]. f_equal. lia.
  - rewrite H1. range_case a d k; [done|lia].
  - rewrite H1. range_case a d k; [lia|done].
Qed.

(** Backward copying: the last byte first, when the source does not lie above. *)
Lemma copied_backward d s n m m1 m2 :
  0 <= n -> s <= d -> copied (d + n) (s + n) 1 m m1 -> copied d s n m1 m2 ->
  copied d s (n + 1) m m2.
Proof.
  intros Hn Hsd H1 H2 a. rewrite H2. range_case a d n; range_case a d (n + 1); try lia.
  - rewrite H1. range_case (s + (a - d)) (d + n) 1; [lia|done].
  - rewrite H1. range_case a (d + n) 1; [|lia]. f_equal. lia.
  - rewrite H1. range_case a (d + n) 1; [lia|done].
Qed.

Lemma copied_write8 d s m : bytes_ok m -> copied d s 1 m (write8 d (read8 m s) m).
Proof.
  intros Hm a. rewrite read8_write8. range_case a d 1; case_decide; try lia.
  subst. rewrite u8_small by apply Hm. f_equal. lia.
Qed.

Lemma copied_write32 d s m :
  bytes_ok m -> copied d s 4 m (write32 d (read32 m s) m).
Proof.
  intros Hm a. unfold write32. rewrite !read8_write16.
  pose proof (Hm s). pose proof (Hm (s + 1)). pose proof (Hm (s + 1 + 1)).
  pose proof (Hm (s + 2)). pose proof (Hm (s + 2 + 1)).
  range_case a d 4; repeat case_decide; try lia; subst; unfold read32, read16, u8.
  - replace (s + (d + 2 - d)) with (s + 2) by lia. lia.
  - replace (s + (d + 2 + 1 - d)) with (s + 2 + 1) by lia. lia.
  - replace (s + (d - d)) with s by lia. lia.
  - replace (s + (d + 1 - d)) with (s + 1) by lia. lia.
Qed.

Lemma bytes_ok_movsb n : forall d s m, bytes_ok m -> bytes_ok (movsb n d s m).
Proof. induction n; simpl; auto with mem. Qed.

Lemma movsb_spec n : forall d s m,
  bytes_ok m -> d <= s \/ s + Z.of_nat n <= d -> copied d s (Z.of_nat n) m (movsb n d s m).
Proof.
  induction n as [|n IH]; intros d s m Hm Hds; simpl movsb; [by apply copied_0|].
  eapply (copied_forward d s 1); [lia|lia|by apply copied_write8|].
  replace (Z.of_nat (S n) - 1) with (Z.of_nat n) by lia. apply IH; [|lia]. auto with mem.
Qed.

Lemma movsl_spec n : forall d s m,
  bytes_ok m -> d <= s \/ s + 4 * Z.of_nat n <= d -> copied d s (4 * Z.of_nat n) m (movsl n d s m).
Proof.
  induction n as [|n IH]; intros d s m Hm Hds; simpl movsl; [by apply copied_0|].
  eapply (copied_forward d s 4); [lia|lia|by apply copied_write32|].
  replace (4 * Z.of_nat (S n) - 4) with (4 * Z.of_nat n) by lia. apply IH; [auto with mem|lia].
Qed.

Lemma movsb_down_spec n : forall d s m,
  bytes_ok m -> s <= d ->
  copied d s (Z.of_nat n) m (movsb_down n (d + (Z.of_nat n - 1)) (s + (Z.of_nat n - 1)) m).
Proof.
  induction n as [|n IH]; intros d s m Hm Hds; simpl movsb_down; [by apply copied_0|].
  replace (Z.of_nat (S n)) with (Z.of_nat n + 1) by lia.
  replace (d + (Z.of_nat n + 1 - 1)) with (d + Z.of_nat n) by lia.
  replace (s + (Z.of_nat n + 1 - 1)) with (s + Z.of_nat n) by lia.
  eapply copied_backward; [lia|done|by apply copied_write8|].
  replace (d + Z.of_nat n - 1) with (d + (Z.of_nat n - 1)) by lia.
  replace (s + Z.of_nat n - 1) with (s + (Z.of_nat n - 1)) by lia.
  apply IH; auto with mem.
Qed.

(** The word copy moves all the bytes: the test found every operand aligned. *)
Lemma land_lor_3 d s len :
  truthy (Z.land (Z.lor (Z.lor d s) len) 3) = false -> len mod 4 = 0.
Proof.
  unfold truthy. rewrite negb_false_iff, Z.eqb_eq. intros H.
  change 3 with (Z.ones 2) in H. change 4 with (2 ^ 2).
  rewrite <- Z.land_ones by lia. apply Z.bits_inj'. intros i Hi.
  apply (f_equal (fun z => Z.testbit z i)) in H.
  rewrite !Z.land_spec, !Z.lor_spec, Z.bits_0 in *.
  destruct (Z.testbit len i), (Z.testbit (Z.ones 2) i); rewrite ?orb_true_r in *; done.
Qed.

Lemma memcpy_spec d s len m :
  bytes_ok m -> 0 <= len -> d <= s \/ s + len <= d -> copied d s len m (memcpy d s len m).
Proof.
  intros Hm Hlen Hds. unfold memcpy.
  destruct (truthy _) eqn:Ht.
  - rewrite <- (Z2Nat.id len) at 1 by done. apply movsb_spec; [done|lia].
  - apply land_lor_3 in Ht. replace len with (4 * Z.of_nat (Z.to_nat (len / 4))) at 1 by lia.
    apply movsl_spec; [done|lia].
Qed.

(** However the operands overlap, only the destination is written. *)
Lemma movsb_frame n : forall d s m b, b < d \/ d + Z.of_nat n <= b -> read8 (movsb n d s m) b = read8 m b.
Proof.
  induction n as [|n IH]; intros d s m b Hb; simpl; [done|]. rewrite IH by lia. apply read8_write8_ne. lia.
Qed.
Lemma movsl_frame n : forall d s m b, b < d \/ d + 4 * Z.of_nat n <= b -> read8 (movsl n d s m) b = read8 m b.
Proof.
  induction n as [|n IH]; intros d s m b Hb; cbn [movsl]; [done|]. rewrite IH by lia. apply read8_write32_ne. lia.
Qed.
Lemma memcpy_frame d s len m b : 0 <= len -> b < d \/ d + len <= b -> read8 (memcpy d s len m) b = read8 m b.
Proof. intros Hl Hb. unfold memcpy. case_match; [apply movsb_frame|apply movsl_frame]; lia. Qed.

(** [memmove] copies as if through a temporary buffer, however the operands
    overlap and whichever copy loop (bytes, words, backwards) it picks, and
    touches nothing else. *)
Theorem memmove_correct d s len m :
  bytes_ok m -> 0 <= len ->
  forall a, read8 (memmove d s len m) a =
    if in_range a d len then read8 m (s + (a - d)) else read8 m a.
Proof.
  intros Hm Hlen. unfold memmove. destruct (Z.leb_spec d s).
  - apply memcpy_spec; auto.
  - pose proof (movsb_down_spec (Z.to_nat len) d s m Hm ltac:(lia)) as H'.
    rewrite Z2Nat.id in H' by done. exact H'.
Qed.

Definition mem_demo : memory := write32 0x100 0x64636261 (write32 0x104 0x68676665 ∅).

Lemma memmove_correct_witness :
  bytes_ok mem_demo /\ read8 (memmove 0x102 0x100 6 mem_demo) 0x105 = 0x64 /\
  read8 (memmove 0x102 0x100 6 mem_demo) 0x105 =
    if in_range 0x105 0x102 6 then read8 mem_demo (0x100 + (0x105 - 0x102))
    else read8 mem_demo 0x105.
Proof.
  assert (Hm : bytes_ok mem_demo) by (unfold mem_demo; auto with mem).
  split; [done|split; [reflexivity|]].
  apply (memmove_correct 0x102 0x100 6 mem_demo Hm). lia.
Defined.

(** ** Checksums *)

Fixpoint sum_bytes (n : nat) (buf : Z) (m : memory) : Z :=
  match n with O => 0 | S n' => read8 m buf + sum_bytes n' (buf + 1) m end.

Lemma checksum_loop_sum n m : forall buf sum,
  checksum_loop (S n) buf sum m = u8 (sum + sum_bytes (S n) buf m).
Proof.
  induction n as [|n IH]; intros buf sum; [simpl; f_equal; lia|].
  change (checksum_loop (S (S n)) buf sum m)
    with (checksum_loop (S n) (buf + 1) (u8 (sum + read8 m buf)) m).
  rewrite IH. change (sum_bytes (S (S n)) buf m) with (read8 m buf + sum_bytes (S n) (buf + 1) m).
  unfold u8. lia.
Qed.

Lemma checksum_sum buf len m : 0 <= len -> checksum buf len m = u8 (sum_bytes (Z.to_nat len) buf m).
Proof.
  intros Hlen. unfold checksum, checksum_far. rewrite Z.shiftl_0_l, Z.add_0_l.
  destruct (Z.to_nat len); [done|]. by rewrite checksum_loop_sum.
Qed.

Lemma sum_bytes_write8 n a v m : forall buf,
  sum_bytes n buf (write8 a v m) =
  sum_bytes n buf m + if in_range a buf (Z.of_nat n) then u8 v - read8 m a else 0.
Proof.
  induction n as [|n IH]; intros buf; simpl sum_bytes.
  - range_case a buf (Z.of_nat 0); lia.
  - rewrite IH, read8_write8.
    range_case a (buf + 1) (Z.of_nat n); range_case a buf (Z.of_nat (S n));
      case_decide; subst; lia.
Qed.

Lemma checksum_write_fix buf len x m :
  0 <= len -> buf <= x < buf + len ->
  checksum buf len (write8 x (read8 m x - checksum buf len m) m) = 0.
Proof.
  intros Hlen Hx. rewrite !checksum_sum, sum_bytes_write8 by done.
  range_case x buf (Z.of_nat (Z.to_nat len)); [|lia]. unfold u8. lia.
Qed.

(** The BIOS's way of fixing a table -- subtracting the table's checksum
    from any one of its bytes -- makes the bytes of the table sum to zero. *)
Theorem checksum_fix buf len x m :
  0 <= len -> buf <= x < buf + len ->
  checksum buf len (write8 x (read8 m x - checksum buf len m) m) = 0.
Proof. apply checksum_write_fix. Qed.

Lemma checksum_fix_witness :
  checksum 0x100 8 (write8 0x103 (read8 mem_demo 0x103 - checksum 0x100 8 mem_demo) mem_demo) = 0.
Proof. apply (checksum_fix 0x100 8 0x103 mem_demo); lia. Defined.

(** ** Comparison *)

Lemma memcmp_loop_far n m : forall s1 s2, memcmp_far_loop n s1 s2 m = memcmp_loop n s1 s2 m.
Proof.
  induction n as [|n IH]; intros s1 s2; simpl; [done|]. rewrite IH. unfold truthy.
  destruct (Z.eqb_spec (read8 m s1) (read8 m s2)) as [->|]; simpl.
  - by rewrite Z.sub_diag.
  - rewrite (proj2 (Z.eqb_neq (read8 m s1 - read8 m s2) 0)) by lia. simpl.
    destruct (Z.ltb_spec (read8 m s1 - read8 m s2) 0), (Z.ltb_spec (read8 m s1) (read8 m s2));
      lia || done.
Qed.

Lemma memcmp_loop_zero n m : forall s1 s2,
  memcmp_loop n s1 s2 m = 0 <->
  forall i, 0 <= i < Z.of_nat n -> read8 m (s1 + i) = read8 m (s2 + i).
Proof.
  induction n as [|n IH]; intros s1 s2; simpl memcmp_loop; [split; [lia|done]|].
  destruct (Z.eqb_spec (read8 m s1) (read8 m s2)) as [He|Hne]; simpl.
  - rewrite IH. split; intros H i Hi.
    + destruct (Z.eq_dec i 0) as [->|]; [by rewrite !Z.add_0_r|].
      specialize (H (i - 1) ltac:(lia)).
      replace (s1 + 1 + (i - 1)) with (s1 + i) in H by lia.
      by replace (s2 + 1 + (i - 1)) with (s2 + i) in H by lia.
    + rewrite <- !Z.add_assoc. apply H. lia.
  - split; [destruct (_ <? _); lia|]. intros H. specialize (H 0 ltac:(lia)).
    rewrite !Z.add_0_r in H. congruence.
Qed.

(** [memcmp] and its far variant agree, return 0 exactly when the areas hold
    the same bytes, and change sign with the order of the arguments. *)
Theorem memcmp_correct s1 s2 n m :
  0 <= n ->
  (memcmp s1 s2 n m = 0 <-> forall i, 0 <= i < n -> read8 m (s1 + i) = read8 m (s2 + i)) /\
  memcmp_far 0 s1 0 s2 n m = memcmp s1 s2 n m /\
  memcmp s2 s1 n m = - memcmp s1 s2 n m.
Proof.
  intros Hn. unfold memcmp, memcmp_far. split_and!.
  - rewrite memcmp_loop_zero, Z2Nat.id by done. done.
  - rewrite Z.shiftl_0_l, !Z.add_0_l. apply memcmp_loop_far.
  - generalize (Z.to_nat n) as k. intros k. revert s1 s2.
    induction k as [|k IH]; intros s1 s2; simpl; [done|].
    rewrite (Z.eqb_sym (read8 m s2)).
    destruct (Z.eqb_spec (read8 m s1) (read8 m s2)); simpl; [apply IH|].
    destruct (Z.ltb_spec (read8 m s1) (read8 m s2)), (Z.ltb_spec (read8 m s2) (read8 m s1)); lia.
Qed.

Lemma memcmp_correct_witness :
  (memcmp 0x100 0x104 4 mem_demo = 0 <->
    forall i, 0 <= i < 4 -> read8 mem_demo (0x100 + i) = read8 mem_demo (0x104 + i)) /\
  memcmp_far 0 0x100 0 0x104 4 mem_demo = memcmp 0x100 0x104 4 mem_demo /\
  memcmp 0x104 0x100 4 mem_demo = - memcmp 0x100 0x104 4 mem_demo.
Proof. apply (memcmp_correct 0x100 0x104 4 mem_demo). lia. Defined.

(** ** Bounded string copy *)

Lemma strtcpy_loop_spec n : forall d src m,
  bytes_ok m -> d + Z.of_nat n < src \/ src + Z.of_nat n < d ->
  exists k, 0 <= k <= Z.of_nat n /\
    (k = Z.of_nat n \/ read8 m (src + k) = 0) /\
    (forall i, 0 <= i < k -> read8 m (src + i) <> 0) /\
    (forall i, 0 <= i < k -> read8 (strtcpy_loop n d src m) (d + i) = read8 m (src + i)) /\
    read8 (strtcpy_loop n d src m) (d + k) = 0 /\
    (forall a, a < d \/ d + k < a -> read8 (strtcpy_loop n d src m) a = read8 m a).
Proof.
  induction n as [|n IH]; intros d src m Hm Hsep; simpl strtcpy_loop.
  { exists 0. rewrite !Z.add_0_r. split_and!; try lia.
    - by rewrite read8_write8_eq.
    - intros a Ha. rewrite read8_write8_ne by lia. done. }
  destruct (Z.eqb_spec (read8 m src) 0) as [Hz|Hz].
  { exists 0. rewrite !Z.add_0_r. split_and!; try lia.
    - by rewrite read8_write8_eq.
    - intros a Ha. rewrite read8_write8_ne by lia. done. }
  destruct (IH (d + 1) (src + 1) (write8 d (read8 m src) m)) as (k & Hk & Hend & Hnz & Hcp & H0 & Hfr);
    [auto with mem|lia|].
  exists (k + 1).
  assert (Hsrc : forall i, 0 <= i <= Z.of_nat n ->
    read8 (write8 d (read8 m src) m) (src + 1 + i) = read8 m (src + (i + 1))).
  { intros i Hi. rewrite read8_write8_ne by lia. f_equal. lia. }
  split_and!; try lia.
  - destruct Hend as [->|Hend]; [lia|right]. by rewrite <- Hsrc by lia.
  - intros i Hi. destruct (Z.eq_dec i 0) as [->|]; [by rewrite Z.add_0_r|].
    specialize (Hnz (i - 1) ltac:(lia)). rewrite Hsrc in Hnz by lia.
    by replace (i - 1 + 1) with i in Hnz by lia.
  - intros i Hi. destruct (Z.eq_dec i 0) as [->|].
    + rewrite !Z.add_0_r, Hfr, read8_write8_eq by lia. apply u8_small, Hm.
    + specialize (Hcp (i - 1) ltac:(lia)). rewrite Hsrc in Hcp by lia.
      replace (d + 1 + (i - 1)) with (d + i) in Hcp by lia.
      by replace (i - 1 + 1) with i in Hcp by lia.
  - replace (d + (k + 1)) with (d + 1 + k) by lia. done.
  - intros a Ha. rewrite Hfr by lia. apply read8_write8_ne. lia.
Qed.

(** [strtcpy] writes a NUL-terminated prefix of the source: the whole string
    when it fits in [len] bytes, its first [len - 1] characters otherwise; it
    never writes outside [dest, dest + len). *)
Theorem strtcpy_correct dest src len m :
  bytes_ok m -> 0 < len < 2 ^ 32 -> dest + len <= src \/ src + len <= dest ->
  exists k, 0 <= k < len /\
    (k = len - 1 \/ read8 m (src + k) = 0) /\
    (forall i, 0 <= i < k -> read8 m (src + i) <> 0 /\
       read8 (strtcpy dest src len m) (dest + i) = read8 m (src + i)) /\
    read8 (strtcpy dest src len m) (dest + k) = 0 /\
    (forall a, a < dest \/ dest + len <= a -> read8 (strtcpy dest src len m) a = read8 m a).
Proof.
  intros Hm Hlen Hsep. unfold strtcpy. rewrite u32_small by lia.
  destruct (strtcpy_loop_spec (Z.to_nat (len - 1)) dest src m Hm ltac:(lia))
    as (k & Hk & Hend & Hnz & Hcp & H0 & Hfr).
  exists k. split_and!; try lia; auto.
  intros a Ha. apply Hfr. lia.
Qed.

Lemma strtcpy_correct_witness :
  exists k, 0 <= k < 4 /\
    (k = 4 - 1 \/ read8 mem_demo (0x100 + k) = 0) /\
    (forall i, 0 <= i < k -> read8 mem_demo (0x100 + i) <> 0 /\
       read8 (strtcpy 0x200 0x100 4 mem_demo) (0x200 + i) = read8 mem_demo (0x100 + i)) /\
    read8 (strtcpy 0x200 0x100 4 mem_demo) (0x200 + k) = 0 /\
    (forall a, a < 0x200 \/ 0x200 + 4 <= a ->
       read8 (strtcpy 0x200 0x100 4 mem_demo) a = read8 mem_demo a).
Proof. apply (strtcpy_correct 0x200 0x100 4 mem_demo); [unfold mem_demo; auto with mem|lia..]. Defined.
