(* ===== verification/Bytes.v ===== *)
(** * Byte strings and their numbers

    Areas of the memory of [Machine] as lists of bytes, the little-endian number
    a list of bytes stands for, and the byte swaps of src/byteorder.h. *)
From S2P Require Import Prelude Machine.

(** ** Areas *)

Fixpoint read_bytes (n : nat) (a : Z) (m : memory) : list Z :=
  match n with O => [] | S n' => read8 m a :: read_bytes n' (a + 1) m end.
Fixpoint write_bytes (a : Z) (l : list Z) (m : memory) : memory :=
  match l with [] => m | x :: l' => write_bytes (a + 1) l' (write8 a x m) end.

Definition is_byte (x : Z) : Prop := 0 <= x < 2 ^ 8.

Lemma length_read_bytes n : forall a m, length (read_bytes n a m) = n.
Proof. induction n; simpl; auto. Qed.

Lemma read_bytes_ok n : forall a m, bytes_ok m -> Forall is_byte (read_bytes n a m).
Proof. induction n as [|n IH]; intros a m Hm; simpl; constructor; [apply Hm|by apply IH]. Qed.

Lemma bytes_ok_write_bytes l : forall a m, bytes_ok m -> bytes_ok (write_bytes a l m).
Proof. induction l; simpl; auto with mem. Qed.
#[export] Hint Resolve bytes_ok_write_bytes : mem.

Lemma read8_write_bytes_out l : forall a m b, b < a \/ a + Z.of_nat (length l) <= b ->
  read8 (write_bytes a l m) b = read8 m b.
Proof.
  induction l as [|x l IH]; intros a m b Hb; simpl in *; [done|].
  rewrite IH by lia. apply read8_write8_ne. lia.
Qed.

Lemma read8_write_bytes_in l : forall a m i, (i < length l)%nat ->
  read8 (write_bytes a l m) (a + Z.of_nat i) = u8 (nth i l 0).
Proof.
  induction l as [|x l IH]; intros a m i Hi; simpl in *; [lia|]. destruct i as [|i].
  - rewrite read8_write_bytes_out, Z.add_0_r by lia. apply read8_write8_eq.
  - replace (a + Z.of_nat (S i)) with (a + 1 + Z.of_nat i) by lia. apply IH. lia.
Qed.

Lemma read_bytes_ext n : forall a m m', (forall b, a <= b < a + Z.of_nat n -> read8 m' b = read8 m b) ->
  read_bytes n a m' = read_bytes n a m.
Proof.
  induction n as [|n IH]; intros a m m' H; simpl; [done|]. rewrite H by lia. f_equal. apply IH.
  intros b Hb. apply H. lia.
Qed.

Lemma read_bytes_app n k : forall a m, read_bytes (n + k) a m = read_bytes n a m ++ read_bytes k (a + Z.of_nat n) m.
Proof.
  induction n as [|n IH]; intros a m; simpl; [by rewrite Z.add_0_r|]. rewrite IH. do 3 f_equal. lia.
Qed.

Lemma nth_read_bytes n : forall a m i, (i < n)%nat -> nth i (read_bytes n a m) 0 = read8 m (a + Z.of_nat i).
Proof.
  induction n as [|n IH]; intros a m i Hi; [lia|]. destruct i as [|i]; simpl.
  - by rewrite Z.add_0_r.
  - rewrite IH by lia. f_equal. lia.
Qed.

Lemma read_write_bytes l : forall a m, Forall is_byte l -> read_bytes (length l) a (write_bytes a l m) = l.
Proof.
  induction l as [|x l IH]; intros a m Hl; simpl; [done|]. inversion_clear Hl. rewrite IH by done.
  rewrite read8_write_bytes_out, read8_write8_eq, u8_small by (done || lia). done.
Qed.

(** ** Little-endian numbers *)

Fixpoint le_value (l : list Z) : Z := match l with [] => 0 | x :: l' => x + 2 ^ 8 * le_value l' end.
Fixpoint le_list (n : nat) (v : Z) : list Z :=
  match n with O => [] | S n' => u8 v :: le_list n' (v / 2 ^ 8) end.

(** A number in memory. *)
Definition read_le (n : nat) (a : Z) (m : memory) : Z := le_value (read_bytes n a m).
Definition write_le (n : nat) (a v : Z) (m : memory) : memory := write_bytes a (le_list n v) m.

Lemma length_le_list n : forall v, length (le_list n v) = n.
Proof. induction n; simpl; auto. Qed.
Lemma le_list_bytes n : forall v, Forall is_byte (le_list n v).
Proof. induction n; intros v; constructor; [apply u8_range|auto]. Qed.

Lemma pow_bytes n : 2 ^ (8 * Z.of_nat (S n)) = 2 ^ 8 * 2 ^ (8 * Z.of_nat n).
Proof. rewrite <- Z.pow_add_r by lia. f_equal. lia. Qed.

Lemma le_value_range l : Forall is_byte l -> 0 <= le_value l < 2 ^ (8 * Z.of_nat (length l)).
Proof.
  induction 1 as [|x l Hx _ IH]; [done|]. cbn [le_value length]. rewrite pow_bytes. unfold is_byte in Hx. lia.
Qed.

Lemma le_value_list n : forall v, le_value (le_list n v) = v mod 2 ^ (8 * Z.of_nat n).
Proof.
  induction n as [|n IH]; intros v; [simpl; by rewrite Z.mod_1_r|]. cbn [le_list le_value].
  rewrite IH, pow_bytes. unfold u8. rewrite Z.rem_mul_r by lia. lia.
Qed.

Lemma read_write_le n a v m : read_le n a (write_le n a v m) = v mod 2 ^ (8 * Z.of_nat n).
Proof.
  unfold read_le, write_le. rewrite <- (length_le_list n v) at 1. rewrite read_write_bytes by apply le_list_bytes.
  apply le_value_list.
Qed.

Lemma read8_write_le_out n a v m b : b < a \/ a + Z.of_nat n <= b -> read8 (write_le n a v m) b = read8 m b.
Proof. intros Hb. apply read8_write_bytes_out. by rewrite length_le_list. Qed.

Lemma read_le_range n a m : bytes_ok m -> 0 <= read_le n a m < 2 ^ (8 * Z.of_nat n).
Proof.
  intros Hm. pose proof (le_value_range _ (read_bytes_ok n a m Hm)) as H. by rewrite length_read_bytes in H.
Qed.

(** ** Byte order: byteorder.h *)

Definition swab16 (val : Z) : Z := u16 (Z.lor (Z.shiftl val 8) (Z.shiftr val 8)).
Definition swab32 (val : Z) : Z :=
  u32 (Z.lor (Z.lor (Z.lor (Z.shiftl val 24) (Z.shiftl (Z.land val 0xff00) 8))
               (Z.shiftr (Z.land val 0xff0000) 8)) (Z.shiftr val 24)).
Definition swab64 (val : Z) : Z :=
  Z.lor (Z.shiftl (swab32 (u32 val)) 32) (swab32 (u32 (Z.shiftr val 32))).

Lemma lor_add_shifted x y k : 0 <= k -> 0 <= y < 2 ^ k -> Z.lor (x * 2 ^ k) y = x * 2 ^ k + y.
Proof.
  intros Hk Hy. pose proof (lor_add_low (x * 2 ^ k) y k Hk) as H.
  rewrite Z_mod_mult, Z.sub_0_r, (Z.mod_small y) in H by done. exact H.
Qed.

Lemma land_byte v k : 0 <= k -> Z.land v (255 * 2 ^ k) = (v / 2 ^ k) mod 2 ^ 8 * 2 ^ k.
Proof.
  intros Hk. change 255 with (Z.ones 8). rewrite <- !Z.shiftl_mul_pow2, <- Z.shiftr_div_pow2, <- Z.land_ones by done.
  apply Z.bits_inj'. intros i Hi. rewrite Z.land_spec, !Z.shiftl_spec, Z.land_spec by done.
  destruct (Z.ltb_spec i k).
  - rewrite !(Z.testbit_neg_r _ (i - k)) by lia. by rewrite andb_false_r.
  - rewrite Z.shiftr_spec by lia. by replace (i - k + k) with i by lia.
Qed.

Lemma swab32_bytes v : 0 <= v < 2 ^ 32 ->
  swab32 v = v mod 2 ^ 8 * 2 ^ 24 + (v / 2 ^ 8) mod 2 ^ 8 * 2 ^ 16 + (v / 2 ^ 16) mod 2 ^ 8 * 2 ^ 8 + v / 2 ^ 24.
Proof.
  intros Hv. unfold swab32.
  change 0xff00 with (255 * 2 ^ 8). change 0xff0000 with (255 * 2 ^ 16). rewrite !land_byte by lia.
  rewrite !Z.shiftl_mul_pow2, !Z.shiftr_div_pow2 by lia.
  rewrite lor_add_shifted by lia.
  replace (v * 2 ^ 24 + (v / 2 ^ 8) mod 2 ^ 8 * 2 ^ 8 * 2 ^ 8) with ((v * 2 ^ 8 + (v / 2 ^ 8) mod 2 ^ 8) * 2 ^ 16) by lia.
  rewrite lor_add_shifted by lia.
  replace ((v * 2 ^ 8 + (v / 2 ^ 8) mod 2 ^ 8) * 2 ^ 16 + (v / 2 ^ 16) mod 2 ^ 8 * 2 ^ 16 / 2 ^ 8)
    with (((v * 2 ^ 8 + (v / 2 ^ 8) mod 2 ^ 8) * 2 ^ 8 + (v / 2 ^ 16) mod 2 ^ 8) * 2 ^ 8) by lia.
  rewrite lor_add_shifted by lia. unfold u32. lia.
Qed.

Lemma swab32_range v : 0 <= swab32 v < 2 ^ 32.
Proof. apply u32_range. Qed.
Lemma swab32_of_bytes a b c d : is_byte a -> is_byte b -> is_byte c -> is_byte d ->
  swab32 (a + b * 2 ^ 8 + c * 2 ^ 16 + d * 2 ^ 24) = d + c * 2 ^ 8 + b * 2 ^ 16 + a * 2 ^ 24.
Proof.
  unfold is_byte. intros Ha Hb Hc Hd. rewrite swab32_bytes by lia.
  assert ((a + b * 2 ^ 8 + c * 2 ^ 16 + d * 2 ^ 24) mod 2 ^ 8 = a) as -> by lia.
  assert ((a + b * 2 ^ 8 + c * 2 ^ 16 + d * 2 ^ 24) / 2 ^ 8 = b + c * 2 ^ 8 + d * 2 ^ 16) as -> by lia.
  assert ((a + b * 2 ^ 8 + c * 2 ^ 16 + d * 2 ^ 24) / 2 ^ 16 = c + d * 2 ^ 8) as -> by lia.
  assert ((a + b * 2 ^ 8 + c * 2 ^ 16 + d * 2 ^ 24) / 2 ^ 24 = d) as -> by lia. lia.
Qed.
Lemma word_bytes v : 0 <= v < 2 ^ 32 -> exists a b c d, is_byte a /\ is_byte b /\ is_byte c /\ is_byte d /\
  v = a + b * 2 ^ 8 + c * 2 ^ 16 + d * 2 ^ 24.
Proof.
  intros Hv. exists (v mod 2 ^ 8), ((v / 2 ^ 8) mod 2 ^ 8), ((v / 2 ^ 16) mod 2 ^ 8), (v / 2 ^ 24).
  unfold is_byte. split_and!; lia.
Qed.
Lemma swab32_swab32 v : 0 <= v < 2 ^ 32 -> swab32 (swab32 v) = v.
Proof.
  intros Hv. destruct (word_bytes v Hv) as (a & b & c & d & Ha & Hb & Hc & Hd & ->).
  by rewrite !swab32_of_bytes.
Qed.

Lemma swab64_halves v : 0 <= v < 2 ^ 64 ->
  swab64 v = swab32 (v mod 2 ^ 32) * 2 ^ 32 + swab32 (v / 2 ^ 32).
Proof.
  intros Hv. unfold swab64. rewrite Z.shiftl_mul_pow2, Z.shiftr_div_pow2 by lia.
  rewrite lor_add_shifted by (lia || apply swab32_range). unfold u32.
  by rewrite (Z.mod_small (v / 2 ^ 32)) by lia.
Qed.
Lemma swab64_range v : 0 <= v < 2 ^ 64 -> 0 <= swab64 v < 2 ^ 64.
Proof.
  intros Hv. rewrite swab64_halves by done. pose proof (swab32_range (v mod 2 ^ 32)). pose proof (swab32_range (v / 2 ^ 32)). lia.
Qed.
Lemma swab64_swab64 v : 0 <= v < 2 ^ 64 -> swab64 (swab64 v) = v.
Proof.
  intros Hv. rewrite (swab64_halves (swab64 v)) by by apply swab64_range. rewrite !swab64_halves by done.
  pose proof (swab32_range (v mod 2 ^ 32)). pose proof (swab32_range (v / 2 ^ 32)).
  assert (((swab32 (v mod 2 ^ 32) * 2 ^ 32 + swab32 (v / 2 ^ 32)) mod 2 ^ 32) = swab32 (v / 2 ^ 32)) as -> by lia.
  assert (((swab32 (v mod 2 ^ 32) * 2 ^ 32 + swab32 (v / 2 ^ 32)) / 2 ^ 32) = swab32 (v mod 2 ^ 32)) as -> by lia.
  rewrite !swab32_swab32 by lia. lia.
Qed.
