(* ===== verification/Areas.v ===== *)
(** * Areas of memory

    What reads as a list of bytes after the copies, fills and writes of
    StringOps and Machine, and what they leave alone. *)
From S2P Require Import Prelude Machine StringOps Bytes.

(** [m'] agrees with [m] outside the [n] bytes at [a]. *)
Definition outside (a n : Z) (m m' : memory) : Prop :=
  forall x, x < a \/ a + n <= x -> read8 m' x = read8 m x.

Lemma outside_refl a n m : outside a n m m.
Proof. by intros x _. Qed.
Lemma outside_trans a n m1 m2 m3 : outside a n m1 m2 -> outside a n m2 m3 -> outside a n m1 m3.
Proof. intros H1 H2 x Hx. by rewrite H2, H1. Qed.
Lemma outside_mono a n b k m m' : outside a n m m' -> b <= a -> a + n <= b + k -> outside b k m m'.
Proof. intros H H1 H2 x Hx. apply H. lia. Qed.
Lemma outside_write32 a v m : outside a 4 m (write32 a v m).
Proof. intros x Hx. apply read8_write32_ne. lia. Qed.
Lemma outside_read32 a n m m' x : outside a n m m' -> x + 4 <= a \/ a + n <= x -> read32 m' x = read32 m x.
Proof. intros H Hx. unfold read32, read16. by rewrite !H by lia. Qed.
Lemma outside_read_bytes a n m m' k x : outside a n m m' -> x + Z.of_nat k <= a \/ a + n <= x ->
  read_bytes k x m' = read_bytes k x m.
Proof. intros H Hx. apply read_bytes_ext. intros b Hb. apply H. lia. Qed.
Lemma copied_bytes d s n m m' : copied d s (Z.of_nat n) m m' -> read_bytes n d m' = read_bytes n s m.
Proof.
  intros H. apply (nth_ext _ _ 0 0); [by rewrite !length_read_bytes|]. intros i Hi. rewrite length_read_bytes in Hi.
  rewrite !nth_read_bytes by done. rewrite H.
  destruct (in_range _ _ _) eqn:Hr; [f_equal; lia|]. apply in_range_false in Hr. lia.
Qed.
Lemma copied_outside d s n m m' : copied d s n m m' -> outside d n m m'.
Proof. intros H x Hx. rewrite H. by apply in_range_false in Hx as ->. Qed.
Lemma copied_ok d s n m m' : copied d s n m m' -> bytes_ok m -> bytes_ok m'.
Proof. intros H Hm a. rewrite H. case_match; apply Hm. Qed.
Lemma read_bytes_drop n k : forall a m, (k <= n)%nat ->
  drop k (read_bytes n a m) = read_bytes (n - k) (a + Z.of_nat k) m.
Proof.
  intros a m Hk. replace n with (k + (n - k))%nat at 1 by lia. rewrite read_bytes_app.
  rewrite drop_app_length' by (by rewrite length_read_bytes). done.
Qed.
Lemma read_bytes_take n k : forall a m, (k <= n)%nat -> take k (read_bytes n a m) = read_bytes k a m.
Proof.
  intros a m Hk. replace n with (k + (n - k))%nat by lia. rewrite read_bytes_app.
  by rewrite take_app_length' by (by rewrite length_read_bytes).
Qed.
Lemma read_bytes_le32 a m : bytes_ok m -> read_bytes 4 a m = le_list 4 (read32 m a).
Proof.
  intros Hm. unfold read32, read16. cbn [read_bytes le_list].
  replace (a + 2 + 1) with (a + 1 + 1 + 1) by lia. replace (a + 2) with (a + 1 + 1) by lia.
  pose proof (Hm a). pose proof (Hm (a + 1)). pose proof (Hm (a + 1 + 1)). pose proof (Hm (a + 1 + 1 + 1)).
  generalize dependent (read8 m a). generalize dependent (read8 m (a + 1)).
  generalize dependent (read8 m (a + 1 + 1)). generalize dependent (read8 m (a + 1 + 1 + 1)).
  intros d Hd c Hc b Hb x Hx. unfold u8. clear - Hd Hc Hb Hx. repeat (apply (f_equal2 cons); [lia|]); reflexivity.
Qed.
Lemma memset_spec s c n m : 0 <= n ->
  forall b, read8 (memset s c n m) b = if in_range b s n then u8 c else read8 m b.
Proof.
  intros Hn b. unfold memset. rewrite <- (Z2Nat.id n) at 2 by done. generalize (Z.to_nat n). clear n Hn.
  intros n. revert m. induction n as [|n IH]; intros m; cbn [memset_loop].
  - destruct (in_range b s _) eqn:H; [apply in_range_true in H; lia|done].
  - rewrite IH, read8_write8. destruct (in_range b s (Z.of_nat n)) eqn:H.
    + apply in_range_true in H. by rewrite (proj2 (in_range_true b s (Z.of_nat (S n)))) by lia.
    + apply in_range_false in H. destruct (decide (s + Z.of_nat n = b)).
      * by rewrite (proj2 (in_range_true b s (Z.of_nat (S n)))) by lia.
      * by rewrite (proj2 (in_range_false b s (Z.of_nat (S n)))) by lia.
Qed.
Lemma memset_bytes s n m : read_bytes n s (memset s 0 (Z.of_nat n) m) = replicate n 0.
Proof.
  apply (nth_ext _ _ 0 0); [by rewrite length_read_bytes, length_replicate|]. intros i Hi.
  rewrite length_read_bytes in Hi. rewrite nth_read_bytes, memset_spec by lia.
  rewrite (proj2 (in_range_true _ _ _)) by lia. by rewrite nth_lookup, lookup_replicate_2 by done.
Qed.
Lemma memset_outside s c n m : 0 <= n -> outside s n m (memset s c n m).
Proof. intros Hn x Hx. rewrite memset_spec by done. by rewrite (proj2 (in_range_false _ _ _)) by lia. Qed.
Lemma bytes_ok_memset s c n m : 0 <= n -> bytes_ok m -> bytes_ok (memset s c n m).
Proof. intros Hn Hm a. rewrite memset_spec by done. case_match; [apply u8_range|apply Hm]. Qed.
Lemma outside_write8 a v m : outside a 1 m (write8 a v m).
Proof. intros x Hx. apply read8_write8_ne. lia. Qed.
#[export] Hint Resolve outside_refl : mem.
