(* ===== verification/Malloc.v ===== *)
(** * The zone allocator (src/malloc.c, src/malloc.h)

    A zone is a list of [struct allocinfo_s], highest addresses first; each one
    owns the range [range_start, range_end) of which the first [alloc_size] bytes
    are allocated.  The bookkeeping struct of an allocation ([struct
    allocdetail_s]) is itself allocated from a temporary zone.  The lists are
    those of the class [Hlist]; the range fields and handles are kept by the
    address of their struct. *)
From S2P Require Import Prelude E820 Hlist Machine StringOps.

Definition MALLOC_DEFAULT_HANDLE := 0xFFFFFFFF.
Definition MALLOC_MIN_ALIGN := 16.
Definition BUILD_MAX_HIGHTABLE := 256 * 1024.
Definition BUILD_STACK_ADDR := 0x7000.
Definition BUILD_EBDA_MINIMUM := 0x90000.
Definition BUILD_LOWRAM_END := 0xa0000.
Definition BUILD_ROM_START := 0xc0000.
Definition BUILD_BIOS_ADDR := 0xf0000.
Definition BUILD_BIOS_SIZE := 0x10000.
Definition OPTION_ROM_ALIGN := 2048.
Definition OPROM_HEADER_RESERVE := 16.
Definition OPTION_ROM_SIGNATURE := 0xaa55.
Definition PAGE_SIZE := 4096.

(** ** Data *)

Inductive zone := ZoneLow | ZoneHigh | ZoneFSeg | ZoneTmpLow | ZoneTmpHigh.

#[export] Instance zone_eq_dec : EqDecision zone.
Proof. solve_decision. Defined.

(** The array [Zones], in the order the searches visit it. *)
Definition Zones : list zone := [ZoneTmpLow; ZoneLow; ZoneFSeg; ZoneTmpHigh; ZoneHigh].

Record allocinfo_s := Allocinfo { range_start : Z; range_end : Z; alloc_size : Z }.

#[export] Instance allocinfo_eq_dec : EqDecision allocinfo_s.
Proof. solve_decision. Defined.

(** [struct allocdetail_s]: two [struct allocinfo_s] (an 8-byte list node and
    three u32 each) and the handle. *)
Definition detailinfo (detail : Z) : Z := detail.
Definition datainfo (detail : Z) : Z := detail + 20.
Definition detail_of_datainfo (info : Z) : Z := info - 20.
Definition sizeof_allocdetail_s := 44.

(** What the build fixes: the configuration, the linker's symbols, the addresses
    of the zone heads and of the [tempdetail] locals. *)
Class Layout := {
  CONFIG_MALLOC_UPPERMEMORY : bool;
  zone_head : zone -> Z;
  tempdetail : Z;
  sym_final_readonly_start : Z;
  sym_zonelow_base : Z;
  sym_varlow_start : Z;
  sym_varlow_end : Z;
  sym_final_varlow_start : Z;
  sym_zonefseg_start : Z;
  sym_zonefseg_end : Z;
  zone_head_inj z1 z2 : zone_head z1 = zone_head z2 -> z1 = z2;
  zone_head_nonzero z : zone_head z <> 0;
  (** the structs do not overlap one another *)
  zone_head_temp z : zone_head z < tempdetail \/ tempdetail + sizeof_allocdetail_s <= zone_head z;
  tempdetail_pos : 0 < tempdetail }.

Section Malloc.
Context {S : Type} `{Hlist S} `{Layout}.

Record mstate := MState {
  ms_hl : S;                          (* the links of the zone lists *)
  ms_info : gmap Z allocinfo_s;       (* ranges, by address of the allocinfo_s *)
  ms_handle : gmap Z Z;               (* handles, by address of the allocdetail_s *)
  ms_mem : memory;                    (* the bytes of low memory *)
  ms_e820 : e820map;
  ms_RomEnd : Z;
  ms_RomBase : Z;                     (* address of an allocinfo_s *)
  ms_LegacyRamSize : Z }.

Definition with_hl (f : S -> S) (st : mstate) : mstate :=
  MState (f (ms_hl st)) (ms_info st) (ms_handle st) (ms_mem st) (ms_e820 st)
    (ms_RomEnd st) (ms_RomBase st) (ms_LegacyRamSize st).
Definition with_info (a : Z) (i : allocinfo_s) (st : mstate) : mstate :=
  MState (ms_hl st) (<[a := i]> (ms_info st)) (ms_handle st) (ms_mem st) (ms_e820 st)
    (ms_RomEnd st) (ms_RomBase st) (ms_LegacyRamSize st).
Definition with_handle (detail h : Z) (st : mstate) : mstate :=
  MState (ms_hl st) (ms_info st) (<[detail := h]> (ms_handle st)) (ms_mem st) (ms_e820 st)
    (ms_RomEnd st) (ms_RomBase st) (ms_LegacyRamSize st).
Definition with_mem (f : memory -> memory) (st : mstate) : mstate :=
  MState (ms_hl st) (ms_info st) (ms_handle st) (f (ms_mem st)) (ms_e820 st)
    (ms_RomEnd st) (ms_RomBase st) (ms_LegacyRamSize st).
Definition with_e820 (f : e820map -> e820map) (st : mstate) : mstate :=
  MState (ms_hl st) (ms_info st) (ms_handle st) (ms_mem st) (f (ms_e820 st))
    (ms_RomEnd st) (ms_RomBase st) (ms_LegacyRamSize st).
Definition with_rom (rend rbase : Z) (st : mstate) : mstate :=
  MState (ms_hl st) (ms_info st) (ms_handle st) (ms_mem st) (ms_e820 st)
    rend rbase (ms_LegacyRamSize st).
Definition with_ramsize (rs : Z) (st : mstate) : mstate :=
  MState (ms_hl st) (ms_info st) (ms_handle st) (ms_mem st) (ms_e820 st)
    (ms_RomEnd st) (ms_RomBase st) rs.

Definition info_at (st : mstate) (a : Z) : allocinfo_s :=
  default (Allocinfo 0 0 0) (ms_info st !! a).
Definition zone_nodes (st : mstate) (z : zone) : list Z := h_nodes (ms_hl st) (zone_head z).

Definition set_range_end (i : allocinfo_s) (e : Z) : allocinfo_s :=
  Allocinfo (range_start i) e (alloc_size i).

(** ** Low-level memory reservations *)

(** The test of the loop of [alloc_new]: the new end of the range if the
    allocation fits in the unused tail of [info]. *)
Definition alloc_fits (i : allocinfo_s) (size align : Z) : option Z :=
  let alloc_end := u32 (range_start i + alloc_size i) in
  let new_range_end := ALIGN_DOWN (u32 (range_end i - size)) align in
  if (alloc_end <=? new_range_end) && (new_range_end <=? range_end i)
  then Some new_range_end else None.

Fixpoint alloc_new_loop (nodes : list Z) (size align fill : Z) (st : mstate) : Z * mstate :=
  match nodes with
  | [] => (0, st)
  | info :: nodes' =>
    let i := info_at st info in
    match alloc_fits i size align with
    | Some new_range_end =>
      let st := with_info fill (Allocinfo new_range_end (range_end i) size) st in
      let st := with_info info (set_range_end i new_range_end) st in
      (new_range_end, with_hl (h_add_before fill info) st)
    | None => alloc_new_loop nodes' size align fill st
    end
  end.

Definition alloc_new (z : zone) (size align fill : Z) (st : mstate) : Z * mstate :=
  alloc_new_loop (zone_nodes st z) size align fill st.

(** The [memcpy] of the whole struct: the range fields and the handle;
    the copied links are overwritten by [hlist_replace]. *)
Definition copy_detail (temp detail : Z) (st : mstate) : mstate :=
  let st := with_info (detailinfo detail) (info_at st (detailinfo temp)) st in
  let st := with_info (datainfo detail) (info_at st (datainfo temp)) st in
  with_handle detail (default 0 (ms_handle st !! temp)) st.

Definition alloc_new_detail (temp : Z) (st : mstate) : Z * mstate :=
  let '(d1, st) := alloc_new ZoneTmpHigh sizeof_allocdetail_s MALLOC_MIN_ALIGN (detailinfo temp) st in
  let '(detail_addr, st) :=
    if d1 =? 0
    then alloc_new ZoneTmpLow sizeof_allocdetail_s MALLOC_MIN_ALIGN (detailinfo temp) st
    else (d1, st) in
  if detail_addr =? 0 then (0, st)
  else
    let detail := detail_addr in
    let st := copy_detail temp detail st in
    let st := with_hl (h_replace (detailinfo temp) (detailinfo detail)) st in
    let st := with_hl (h_replace (datainfo temp) (datainfo detail)) st in
    (detail, st).

(** [hlist_for_each_entry_pprev] with its break: the nodes passed over. *)
Fixpoint add_position (nodes : list Z) (start : Z) (st : mstate) : list Z :=
  match nodes with
  | [] => []
  | info :: nodes' =>
    if range_start (info_at st info) <? start then []
    else info :: add_position nodes' start st
  end.

Definition alloc_add (z : zone) (start end_ : Z) (st : mstate) : mstate :=
  let pprev := pprev_at (zone_head z) (add_position (zone_nodes st z) start st) in
  let st := with_handle tempdetail MALLOC_DEFAULT_HANDLE st in
  let st := with_info (datainfo tempdetail) (Allocinfo start end_ 0) st in
  let st := with_hl (h_add (datainfo tempdetail) pprev) st in
  let '(detail, st) := alloc_new_detail tempdetail st in
  if detail =? 0 then with_hl (h_del (datainfo tempdetail)) st else st.

Definition alloc_free (info : Z) (st : mstate) : mstate :=
  let next := h_next (ms_hl st) info in
  let st :=
    if negb (next =? 0) && (range_end (info_at st next) =? range_start (info_at st info))
    then with_info next (set_range_end (info_at st next) (range_end (info_at st info))) st
    else st in
  with_hl (h_del info) st.

(** [alloc_find]: the address of the first allocinfo_s that starts at [data], 0
    for NULL. *)
Fixpoint find_node (nodes : list Z) (P : Z -> bool) : Z :=
  match nodes with
  | [] => 0
  | info :: nodes' => if P info then info else find_node nodes' P
  end.

Fixpoint search_zones (zs : list zone) (P : Z -> bool) (st : mstate) : Z :=
  match zs with
  | [] => 0
  | z :: zs' =>
    let r := find_node (zone_nodes st z) P in
    if r =? 0 then search_zones zs' P st else r
  end.

Definition alloc_find (data : Z) (st : mstate) : Z :=
  search_zones Zones (fun info => range_start (info_at st info) =? data) st.

Definition alloc_find_lowest (z : zone) (st : mstate) : Z :=
  default 0 (last (zone_nodes st z)).

(** ** EBDA movement *)

Definition relocate_ebda (newebda oldebda ebda_size : Z) (st : mstate) : Z * mstate :=
  let lowram := u32 (read16 (ms_mem st) BDA.mem_size_kb * 1024) in
  if negb (oldebda =? lowram) then (-1, st)
  else
    let st := with_mem (memmove newebda oldebda (ebda_size * 1024)) st in
    let st := with_mem (write16 BDA.mem_size_kb (newebda / 1024)) st in
    let st := with_mem (write16 BDA.ebda_seg (FLATPTR_TO_SEG newebda)) st in
    (0, st).

(** [preempted] is the result of [wait_preempt ()]: whether an option ROM was
    running (src/stacks.c). *)
Definition zonelow_expand (preempted : bool) (size align fill : Z) (st : mstate) : Z * mstate :=
  let '(data, st) := if preempted then alloc_new ZoneLow size align fill st else (0, st) in
  if negb (data =? 0) then (data, st)
  else
    let info := alloc_find_lowest ZoneLow st in
    if info =? 0 then (0, st)
    else
      let oldpos := range_end (info_at st info) in
      let newpos := ALIGN_DOWN (u32 (oldpos - size)) align in
      let bottom := u32 (range_start (info_at st info) + alloc_size (info_at st info)) in
      if (bottom <=? newpos) && (newpos <=? oldpos)
      then alloc_new ZoneLow size align fill st
      else
        let ebda_seg := read16 (ms_mem st) BDA.ebda_seg in
        let ebda_pos := MAKE_FLATPTR ebda_seg 0 in
        let ebda_size := read8 (ms_mem st) ebda_pos in
        let ebda_end := u32 (ebda_pos + ebda_size * 1024) in
        let newpos := if negb (ebda_end =? bottom)
                      then ALIGN_DOWN (u32 (ebda_end - size)) align else newpos in
        let newbottom := ALIGN_DOWN newpos 1024 in
        let newebda := ALIGN_DOWN (u32 (newbottom - ebda_size * 1024)) 1024 in
        if newebda <? BUILD_EBDA_MINIMUM then (0, st)
        else
          let '(r, st) := relocate_ebda newebda ebda_pos ebda_size st in
          if truthy r then (0, st)
          else
            let st :=
              if ebda_end =? bottom
              then with_info info (Allocinfo newbottom (range_end (info_at st info))
                                     (alloc_size (info_at st info))) st
              else alloc_add ZoneLow newbottom ebda_end st in
            alloc_new ZoneLow size align fill st.

(** ** Tracked memory allocations *)

Definition malloc_palloc (preempted : bool) (z : zone) (size align : Z) (st : mstate)
    : Z * mstate :=
  if size =? 0 then (0, st)
  else
    let st := with_handle tempdetail MALLOC_DEFAULT_HANDLE st in
    let '(data, st) := alloc_new z size align (datainfo tempdetail) st in
    let '(data, st) :=
      if negb CONFIG_MALLOC_UPPERMEMORY && (data =? 0) && bool_decide (z = ZoneLow)
      then zonelow_expand preempted size align (datainfo tempdetail) st
      else (data, st) in
    if data =? 0 then (0, st)
    else
      let '(detail, st) := alloc_new_detail tempdetail st in
      if detail =? 0 then (0, alloc_free (datainfo tempdetail) st)
      else (data, st).

(** [_malloc]: [memremap] is the identity. *)
Definition _malloc := malloc_palloc.

Definition malloc_low p size := _malloc p ZoneLow size MALLOC_MIN_ALIGN.
Definition malloc_high p size := _malloc p ZoneHigh size MALLOC_MIN_ALIGN.
Definition malloc_fseg p size := _malloc p ZoneFSeg size MALLOC_MIN_ALIGN.
Definition malloc_tmplow p size := _malloc p ZoneTmpLow size MALLOC_MIN_ALIGN.
Definition malloc_tmphigh p size := _malloc p ZoneTmpHigh size MALLOC_MIN_ALIGN.
Definition malloc_tmp p size (st : mstate) : Z * mstate :=
  let '(r, st) := malloc_tmphigh p size st in
  if negb (r =? 0) then (r, st) else malloc_tmplow p size st.
Definition memalign_low p align size := _malloc p ZoneLow size align.
Definition memalign_high p align size := _malloc p ZoneHigh size align.
Definition memalign_tmplow p align size := _malloc p ZoneTmpLow size align.
Definition memalign_tmphigh p align size := _malloc p ZoneTmpHigh size align.
Definition memalign_tmp p align size (st : mstate) : Z * mstate :=
  let '(r, st) := memalign_tmphigh p align size st in
  if negb (r =? 0) then (r, st) else memalign_tmplow p align size st.

Definition malloc_pfree (data : Z) (st : mstate) : Z * mstate :=
  let info := alloc_find data st in
  if (info =? 0) || (data =? info) || (alloc_size (info_at st info) =? 0) then (-1, st)
  else
    let detail := detail_of_datainfo info in
    let st := alloc_free info st in
    (0, alloc_free (detailinfo detail) st).

(** [free]: a failure is only reported on the debug console. *)
Definition free (data : Z) (st : mstate) : mstate :=
  if data =? 0 then st else snd (malloc_pfree data st).

Definition malloc_getspace (z : zone) (st : mstate) : Z :=
  let maxspace := foldl (fun maxspace info =>
      let i := info_at st info in
      let space := u32 (range_end i - range_start i - alloc_size i) in
      if maxspace <? space then space else maxspace) 0 (zone_nodes st z) in
  if bool_decide (z <> ZoneTmpHigh) && bool_decide (z <> ZoneTmpLow) then maxspace
  else
    let reserve := ALIGN sizeof_allocdetail_s MALLOC_MIN_ALIGN in
    if maxspace <=? reserve then 0 else maxspace - reserve.

Definition malloc_sethandle (data handle : Z) (st : mstate) : mstate :=
  let info := alloc_find data st in
  if (info =? 0) || (data =? info) || (alloc_size (info_at st info) =? 0) then st
  else with_handle (detail_of_datainfo info) handle st.

Definition malloc_findhandle (handle : Z) (st : mstate) : Z :=
  let d := search_zones Zones (fun info =>
      (range_start (info_at st info) =? info) &&
      (default 0 (ms_handle st !! info) =? handle)) st in
  if d =? 0 then 0 else range_start (info_at st (datainfo d)).

(** ** 0xc0000-0xf0000 management *)

Definition rom_get_max (st : mstate) : Z :=
  if CONFIG_MALLOC_UPPERMEMORY
  then ALIGN_DOWN (u32 (range_end (info_at st (ms_RomBase st)) - OPROM_HEADER_RESERVE))
         OPTION_ROM_ALIGN
  else sym_final_readonly_start.

Definition rom_get_last (st : mstate) : Z := ms_RomEnd st.

Definition rom_reserve (size : Z) (st : mstate) : Z * mstate :=
  let newend := ALIGN (u32 (ms_RomEnd st + size)) OPTION_ROM_ALIGN in
  if rom_get_max st <? newend then (0, st)
  else
    let st :=
      if CONFIG_MALLOC_UPPERMEMORY then
        let newend := if newend <? sym_zonelow_base then sym_zonelow_base else newend in
        let i := info_at st (ms_RomBase st) in
        with_info (ms_RomBase st)
          (Allocinfo (u32 (newend + OPROM_HEADER_RESERVE)) (range_end i) (alloc_size i)) st
      else st in
    (ms_RomEnd st, st).

Definition rom_confirm (size : Z) (st : mstate) : Z * mstate :=
  let '(new, st) := rom_reserve size st in
  if new =? 0 then (-1, st)
  else (0, with_rom (ALIGN (u32 (ms_RomEnd st + size)) OPTION_ROM_ALIGN) (ms_RomBase st) st).

(** ** Setup *)

(** The loop of [malloc_preinit]: index [i] runs down to 0. *)
Fixpoint preinit_loop (n : nat) (highram : Z) (st : mstate) : Z * mstate :=
  match n with
  | O => (highram, st)
  | Datatypes.S i =>
    let en := e820_get (ms_e820 st) i in
    let end_ := u64 (e_start en + e_size en) in
    if end_ <? 1024 * 1024 then (highram, st)
    else if negb (e_type en =? E820_RAM) || (0xffffffff <? end_)
    then preinit_loop i highram st
    else
      let s := u32 (e_start en) in
      let e := u32 end_ in
      let newe := ALIGN_DOWN (u32 (e - BUILD_MAX_HIGHTABLE)) MALLOC_MIN_ALIGN in
      let '(highram, e) :=
        if (highram =? 0) && (newe <=? e) && (s <=? newe) then (newe, newe) else (highram, e) in
      preinit_loop i highram (alloc_add ZoneTmpHigh s e st)
  end.

Definition malloc_preinit (st : mstate) : mstate :=
  let st := with_e820 (e820_remove BUILD_LOWRAM_END (BUILD_BIOS_ADDR - BUILD_LOWRAM_END)) st in
  let st := with_e820 (e820_add BUILD_BIOS_ADDR BUILD_BIOS_SIZE E820_RESERVED) st in
  let '(highram, st) := preinit_loop (e820_count (ms_e820 st)) 0 st in
  let st := alloc_add ZoneTmpLow BUILD_STACK_ADDR BUILD_EBDA_MINIMUM st in
  if negb (highram =? 0) then
    let st := alloc_add ZoneHigh highram (u32 (highram + BUILD_MAX_HIGHTABLE)) st in
    with_e820 (e820_add highram BUILD_MAX_HIGHTABLE E820_RESERVED) st
  else st.

Definition malloc_csm_preinit (low_pmm low_pmm_size hi_pmm hi_pmm_size : Z) (st : mstate)
    : mstate :=
  let st :=
    if BUILD_MAX_HIGHTABLE <? hi_pmm_size then
      let hi_pmm_end := u32 (hi_pmm + hi_pmm_size) in
      let st := alloc_add ZoneTmpHigh hi_pmm (u32 (hi_pmm_end - BUILD_MAX_HIGHTABLE)) st in
      alloc_add ZoneHigh (u32 (hi_pmm_end - BUILD_MAX_HIGHTABLE)) hi_pmm_end st
    else alloc_add ZoneTmpHigh hi_pmm (u32 (hi_pmm + hi_pmm_size)) st in
  alloc_add ZoneTmpLow low_pmm (u32 (low_pmm + low_pmm_size)) st.

Fixpoint calcRamSize_loop (n : nat) (m : e820map) : Z :=
  match n with
  | O => 0
  | Datatypes.S i =>
    let en := e820_get m i in
    let end_ := u64 (e_start en + e_size en) in
    if (end_ <=? 0xffffffff) && ((e_type en =? E820_ACPI) || (e_type en =? E820_RAM))
    then u32 end_ else calcRamSize_loop i m
  end.

Definition calcRamSize (st : mstate) : mstate :=
  let rs := calcRamSize_loop (e820_count (ms_e820 st)) (ms_e820 st) in
  with_ramsize (if 1024 * 1024 <=? rs then rs else 1024 * 1024) st.

(** [malloc_init] after the relocation fix-up of [head.first->pprev], which
    keeps the lists' meaning when the code moves. *)
Definition malloc_init (st : mstate) : mstate :=
  let st := with_mem (memmove sym_final_varlow_start sym_varlow_start
                        (u32 (sym_varlow_end - sym_varlow_start))) st in
  let st :=
    if CONFIG_MALLOC_UPPERMEMORY then
      let st := alloc_add ZoneLow (u32 (sym_zonelow_base + OPROM_HEADER_RESERVE))
                  sym_final_varlow_start st in
      with_rom (ms_RomEnd st) (alloc_find_lowest ZoneLow st) st
    else alloc_add ZoneLow (ALIGN_DOWN sym_final_varlow_start 1024) sym_final_varlow_start st in
  let st := with_mem (memset sym_zonefseg_start 0
                        (u32 (sym_zonefseg_end - sym_zonefseg_start))) st in
  let st := alloc_add ZoneFSeg sym_zonefseg_start sym_zonefseg_end st in
  calcRamSize st.

Definition malloc_prepboot (st : mstate) : mstate :=
  let base := rom_get_max st in
  let st := with_mem (memset (ms_RomEnd st) 0 (u32 (base - ms_RomEnd st))) st in
  let st :=
    if CONFIG_MALLOC_UPPERMEMORY then
      let st := with_mem (write16 base OPTION_ROM_SIGNATURE) st in
      let size := s32 (u32 (BUILD_BIOS_ADDR - base) / 512) in
      with_mem (write8 (base + 2) (if 255 <? size then 255 else size)) st
    else st in
  let endlow := u32 (read16 (ms_mem st) BDA.mem_size_kb * 1024) in
  let st := with_e820 (e820_add endlow (u32 (BUILD_LOWRAM_END - endlow)) E820_RESERVED) st in
  let info := info_at st (alloc_find_lowest ZoneFSeg st) in
  let st := with_mem (memset (range_start info) 0 (u32 (range_end info - range_start info))) st in
  let hi := alloc_find_lowest ZoneHigh st in
  let st :=
    if hi =? 0 then st
    else
      let i := info_at st hi in
      let giveback := ALIGN_DOWN (u32 (range_end i - range_start i)) PAGE_SIZE in
      with_e820 (e820_add (range_start i) giveback E820_RAM) st in
  calcRamSize st.

End Malloc.
