(* ===== verification/MallocSpec.v ===== *)
(** * The zone allocator: lists of ranges, invariant and refinement

    The abstract state of the allocator is one list of (struct address, range)
    per zone.  [zrep] relates it to the pointers and fields of [Malloc]; the
    functions [zl_new] and [zl_free] are what [alloc_new] and [alloc_free] do to
    a zone; [zinv] is the invariant that separates all ranges. *)
From stdpp Require Import sorting.
From S2P Require Import Prelude E820 Hlist Machine StringOps Malloc.

Abbreviation entry := (Z * allocinfo_s)%type.
Abbreviation zstate := (zone -> list entry).

(** ** Zone lists *)

Fixpoint zl_new (size align fill : Z) (l : list entry) : option (Z * list entry) :=
  match l with
  | [] => None
  | (n, i) :: r =>
    match alloc_fits i size align with
    | Some v => Some (v, (fill, Allocinfo v (range_end i) size) :: (n, set_range_end i v) :: r)
    | None => match zl_new size align fill r with
              | Some (v, r') => Some (v, (n, i) :: r')
              | None => None
              end
    end
  end.

Fixpoint zl_free (n : Z) (l : list entry) : list entry :=
  match l with
  | [] => []
  | (m, i) :: r =>
    if decide (m = n) then
      match r with
      | [] => []
      | (k, j) :: r' =>
        if range_end j =? range_start i then (k, set_range_end j (range_end i)) :: r' else r
      end
    else (m, i) :: zl_free n r
  end.

Definition zl_rename (o n : Z) (l : list entry) : list entry :=
  map (fun e => if decide (fst e = o) then (n, snd e) else e) l.

Definition zupd (az : zstate) (z : zone) (l : list entry) : zstate :=
  fun z' => if decide (z' = z) then l else az z'.

(** ** Invariants *)

Definition entry_ok (i : allocinfo_s) : Prop :=
  0 < range_start i /\ 0 <= alloc_size i /\
  range_start i + alloc_size i <= range_end i /\ range_end i < 2 ^ 32.

Definition entry_above (a b : entry) : Prop := range_end (snd b) <= range_start (snd a).

Section Invariants.
Context `{Layout}.

(** The ranges are valid, descending within a zone, disjoint between zones, and
    away from the zone heads and the stack struct. *)
Record zinv (az : zstate) : Prop := Zinv {
  zi_ok z n i : (n, i) ∈ az z -> entry_ok i;
  zi_sorted z : StronglySorted entry_above (az z);
  zi_cross z1 z2 e1 e2 : z1 <> z2 -> e1 ∈ az z1 -> e2 ∈ az z2 ->
    (entry_above e1 e2 \/ entry_above e2 e1) /\ range_start (snd e1) <> range_start (snd e2);
  zi_heads z z' n i : (n, i) ∈ az z ->
    zone_head z' < range_start i \/ range_end i <= zone_head z';
  zi_temp z n i : (n, i) ∈ az z ->
    tempdetail + sizeof_allocdetail_s <= range_start i \/ range_end i <= tempdetail }.

(** [n] is one of the two list nodes of a live bookkeeping struct. *)
Definition owned (az : zstate) (n : Z) : Prop :=
  exists z D d, (D, d) ∈ az z /\ range_start d = D /\ alloc_size d = sizeof_allocdetail_s /\
    (n = detailinfo D \/ n = datainfo D).

(** Every struct in a list is such a node, except those of [X]. *)
Definition zown (az : zstate) (X : list Z) : Prop :=
  forall z n i, (n, i) ∈ az z -> n ∈ X \/ owned az n.

(** A struct whose list node touches no head and no node in use. *)
Definition fresh_in (n : Z) (az : zstate) : Prop :=
  0 < n /\ (forall z, zone_head z <> n /\ zone_head z <> n + 4) /\
  forall z m i, (m, i) ∈ az z -> n <> m /\ n <> m + 4 /\ n + 4 <> m.

End Invariants.

(** ** [alloc_fits]: no wrap-around *)

Lemma alloc_fits_spec i size align v :
  entry_ok i -> 0 <= size -> pow2_align 32 align -> size + align <= 2 ^ 32 ->
  alloc_fits i size align = Some v ->
  v = ALIGN_DOWN (range_end i - size) align /\ (align | v) /\
  range_start i + alloc_size i <= v /\ v + size <= range_end i /\ range_end i < v + size + align.
Proof.
  intros (Hs & Hz & Hse & He) Hsize Ha Hov. unfold alloc_fits.
  pose proof (pow2_align_pos _ _ Ha).
  rewrite (u32_small (range_start i + _)) by lia.
  destruct (Z.le_gt_cases size (range_end i)) as [Hle|Hgt].
  - rewrite u32_small by lia.
    destruct (ALIGN_DOWN_w_bounds 32 (range_end i - size) align Ha ltac:(lia)) as (? & ? & ?).
    fold ALIGN_DOWN in *. destruct (_ && _) eqn:E; [|done]. intros [= <-].
    apply andb_true_iff in E as [E1%Z.leb_le E2%Z.leb_le]. split_and!; auto; lia.
  - replace (u32 (range_end i - size)) with (2 ^ 32 + range_end i - size) by (unfold u32; lia).
    destruct (ALIGN_DOWN_w_bounds 32 (2 ^ 32 + range_end i - size) align Ha ltac:(lia))
      as (? & ? & ?). fold ALIGN_DOWN in *.
    assert ((ALIGN_DOWN (2 ^ 32 + range_end i - size) align <=? range_end i) = false) as ->
      by (apply Z.leb_gt; lia).
    by rewrite andb_false_r.
Qed.

Lemma alloc_fits_complete i size align v :
  entry_ok i -> 0 <= size -> pow2_align 32 align ->
  (align | v) -> range_start i + alloc_size i <= v -> v + size <= range_end i ->
  alloc_fits i size align <> None.
Proof.
  intros (Hs & Hz & Hse & He) Hsize Ha Hd Hv1 Hv2. unfold alloc_fits.
  rewrite !u32_small by lia.
  destruct (ALIGN_DOWN_w_bounds 32 (range_end i - size) align Ha ltac:(lia)) as ([q Hq] & ? & ?).
  fold ALIGN_DOWN in *. destruct Hd as [p Hp]. pose proof (pow2_align_pos _ _ Ha).
  assert (v <= ALIGN_DOWN (range_end i - size) align).
  { rewrite Hp, Hq in *. apply Z.mul_le_mono_nonneg_r; [lia|]. nia. }
  rewrite !(proj2 (Z.leb_le _ _)) by lia. done.
Qed.

(** ** [zl_new] and [zl_free] *)

Section ZoneLists.
Context (size align fill : Z).
Hypothesis Hsize : 0 <= size.
Hypothesis Halign : pow2_align 32 align.
Hypothesis Hov : size + align <= 2 ^ 32.

Lemma zl_new_spec l : forall v l',
  Forall (fun e => entry_ok (snd e)) l -> zl_new size align fill l = Some (v, l') ->
  exists A n i B, l = A ++ (n, i) :: B /\
    l' = A ++ (fill, Allocinfo v (range_end i) size) :: (n, set_range_end i v) :: B /\
    (align | v) /\ range_start i + alloc_size i <= v /\ v + size <= range_end i /\
    Forall (fun e => alloc_fits (snd e) size align = None) A.
Proof.
  induction l as [|[n i] r IH]; intros v l' Hok Heq; simpl in Heq; [done|].
  apply Forall_cons in Hok as [Hi Hr]. destruct (alloc_fits i size align) as [w|] eqn:Hf.
  - simplify_eq. destruct (alloc_fits_spec i size align v) as (_ & ? & ? & ? & _); auto.
    exists [], n, i, r. split_and!; auto.
  - destruct (zl_new size align fill r) as [[w r']|] eqn:Hn; [|done]. simplify_eq.
    destruct (IH _ _ Hr eq_refl) as (A & m & j & B & -> & -> & ? & ? & ? & HA).
    exists ((n, i) :: A), m, j, B. split_and!; auto.
Qed.

Lemma zl_new_none l :
  Forall (fun e => entry_ok (snd e)) l -> zl_new size align fill l = None ->
  forall n i v, (n, i) ∈ l -> (align | v) -> range_start i + alloc_size i <= v ->
    v + size <= range_end i -> False.
Proof.
  induction l as [|[n i] r IH]; intros Hok Heq m j v Hin; simpl in Heq;
    [by apply not_elem_of_nil in Hin|].
  apply Forall_cons in Hok as [Hi Hr]. destruct (alloc_fits i size align) eqn:Hf; [done|].
  destruct (zl_new size align fill r) as [[w r']|] eqn:Hn; [done|].
  apply elem_of_cons in Hin as [[= -> ->]|Hin]; [|by eapply IH].
  intros. by eapply (alloc_fits_complete i size align v).
Qed.
End ZoneLists.

Lemma zl_free_skip n A l : n ∉ A.*1 -> zl_free n (A ++ l) = A ++ zl_free n l.
Proof.
  induction A as [|[m i] A IH]; intros Hn; simpl in *; [done|].
  apply not_elem_of_cons in Hn as [Hn HA]. rewrite decide_False by auto. by rewrite IH.
Qed.

Lemma zl_free_here n i k j B :
  zl_free n ((n, i) :: (k, j) :: B) =
  if range_end j =? range_start i then (k, set_range_end j (range_end i)) :: B else (k, j) :: B.
Proof. simpl. by rewrite decide_True. Qed.

(** Freeing what [zl_new] carved out of an entry restores the entry. *)
Lemma zl_free_new A n i v size fill B :
  fill ∉ A.*1 ->
  zl_free fill (A ++ (fill, Allocinfo v (range_end i) size) :: (n, set_range_end i v) :: B) =
  A ++ (n, i) :: B.
Proof.
  intros Hf. rewrite zl_free_skip, zl_free_here by done. simpl.
  rewrite Z.eqb_refl. by destruct i.
Qed.

(** ** Representation *)

Section Rep.
Context {S : Type} `{Hlist S} `{Layout}.
Implicit Types (st : mstate (S := S)) (az : zstate).

Definition zrep st az : Prop :=
  exists L, h_rep (ms_hl st) L /\
    (forall z, L !! zone_head z = Some (az z).*1) /\
    (forall h l, L !! h = Some l -> exists z, h = zone_head z) /\
    (forall z n i, (n, i) ∈ az z -> ms_info st !! n = Some i).

(** The parts of the state the zone lists do not concern. *)
Definition same_rest st st' : Prop :=
  ms_mem st' = ms_mem st /\ ms_e820 st' = ms_e820 st /\ ms_RomEnd st' = ms_RomEnd st /\
  ms_RomBase st' = ms_RomBase st /\ ms_LegacyRamSize st' = ms_LegacyRamSize st.

Lemma same_rest_trans st1 st2 st3 :
  same_rest st1 st2 -> same_rest st2 st3 -> same_rest st1 st3.
Proof. unfold same_rest. intuition congruence. Qed.

Lemma zrep_nodes st az z : zrep st az -> zone_nodes st z = (az z).*1.
Proof.
  intros (L & HL & Hz & _). unfold zone_nodes.
  eapply h_nodes_spec; eauto. apply zone_head_nonzero.
Qed.

Lemma zrep_info st az z n i : zrep st az -> (n, i) ∈ az z -> info_at st n = i.
Proof. intros (L & _ & _ & _ & Hi) Hin. unfold info_at. by rewrite (Hi _ _ _ Hin). Qed.

Lemma zrep_nodup st az z : zrep st az -> NoDup (az z).*1.
Proof. intros (L & HL & Hz & _). by eapply (h_elem_spec (ms_hl st) L). Qed.

Lemma zrep_nonzero st az z n i : zrep st az -> (n, i) ∈ az z -> n <> 0.
Proof.
  intros (L & HL & Hz & _) Hin ->. apply (h_elem_spec _ _ _ _ HL (Hz z)).
  by apply (list_elem_of_fmap_2 fst _ _ Hin).
Qed.

Lemma zrep_distinct st az z1 z2 n i1 i2 :
  zrep st az -> (n, i1) ∈ az z1 -> (n, i2) ∈ az z2 -> z1 = z2 /\ i1 = i2.
Proof.
  intros Hrep H1 H2. split.
  - destruct Hrep as (L & HL & Hz & _). apply zone_head_inj.
    eapply (h_distinct _ L _ _ _ _ n HL (Hz z1) (Hz z2)).
    + by apply (list_elem_of_fmap_2 fst _ _ H1).
    + by apply (list_elem_of_fmap_2 fst _ _ H2).
  - rewrite <- (zrep_info _ _ _ _ _ Hrep H1), <- (zrep_info _ _ _ _ _ Hrep H2). done.
Qed.

Lemma zupd_eq az z l : zupd az z l z = l.
Proof. unfold zupd. by rewrite decide_True. Qed.

Lemma zupd_ne az z z' l : z' <> z -> zupd az z l z' = az z'.
Proof. intros. unfold zupd. by rewrite decide_False. Qed.

Lemma fresh_in_node n az L :
  (forall z, L !! zone_head z = Some (az z).*1) ->
  (forall h l, L !! h = Some l -> exists z, h = zone_head z) ->
  fresh_in n az -> fresh_node n L.
Proof.
  intros Hz Hh (Hn & Hhd & Hm). split; [lia|]. intros h l Hl.
  destruct (Hh _ _ Hl) as [z ->]. rewrite Hz in Hl. simplify_eq.
  rewrite !elem_of_footprint. destruct (Hhd z) as [Hh1 Hh2].
  split; intros [?|(m & Hin & Hw)]; try (unfold next_of, pprev_of in *; congruence);
    apply list_elem_of_fmap in Hin as ([m' i] & -> & Hin); simpl in Hw;
    destruct (Hm _ _ _ Hin) as (? & ? & ?); unfold next_of, pprev_of in Hw; lia.
Qed.

(** Transfer [zrep] along one list operation on the zone [z]. *)
Lemma zrep_step st az z l hl' info' st' :
  zrep st az ->
  (forall L, h_rep (ms_hl st) L -> (forall z, L !! zone_head z = Some (az z).*1) ->
     (forall h l, L !! h = Some l -> exists z, h = zone_head z) ->
     h_rep hl' (<[zone_head z := l.*1]> L)) ->
  ms_hl st' = hl' -> ms_info st' = info' ->
  (forall z' n i, (n, i) ∈ zupd az z l z' -> info' !! n = Some i) ->
  zrep st' (zupd az z l).
Proof.
  intros (L & HL & Hz & Hh & Hi) Hop <- <- Hi'. exists (<[zone_head z := l.*1]> L).
  split; [by apply Hop|]. split; [|split; [|done]].
  - intros z'. unfold zupd. case_decide as Hd.
    + subst. by rewrite lookup_insert_eq.
    + rewrite lookup_insert_ne; [done|]. intros He%zone_head_inj. congruence.
  - intros h k. destruct (decide (h = zone_head z)) as [->|]; [by exists z|].
    rewrite lookup_insert_ne by done. apply Hh.
Qed.

Lemma zrep_info_out st az a i :
  zrep st az -> (forall z j, (a, j) ∉ az z) -> zrep (with_info a i st) az.
Proof.
  intros (L & HL & Hz & Hh & Hi) Ha. exists L. split_and!; auto.
  intros z n j Hin. simpl. destruct (decide (a = n)) as [->|]; [by apply Ha in Hin|].
  rewrite lookup_insert_ne by done. by eapply Hi.
Qed.

Lemma zrep_handle st az d h : zrep st az -> zrep (with_handle d h st) az.
Proof. done. Qed.

Lemma fresh_not_in n az z i : fresh_in n az -> (n, i) ∉ az z.
Proof. intros (_ & _ & Hm) Hin. by destruct (Hm _ _ _ Hin). Qed.

Lemma elem_mid {A} (x y : A) l1 l2 : x ∈ l1 ++ y :: l2 <-> x = y \/ x ∈ l1 ++ l2.
Proof. rewrite !elem_of_app, elem_of_cons. tauto. Qed.

Lemma zrep_ext st az az' : (forall z, az' z = az z) -> zrep st az -> zrep st az'.
Proof.
  intros He (L & HL & Hz & Hh & Hi). exists L. split_and!; auto.
  - intros z. by rewrite He.
  - intros z n i. rewrite He. apply Hi.
Qed.

Lemma zrep_lookup st az z n i : zrep st az -> (n, i) ∈ az z -> ms_info st !! n = Some i.
Proof. intros (L & _ & _ & _ & Hi). apply Hi. Qed.

(** A node occurs once in its zone. *)
Lemma zrep_mid st az z A n i B m j :
  zrep st az -> az z = A ++ (n, i) :: B -> (m, j) ∈ A ++ B -> m <> n.
Proof.
  intros Hrep HA Hm ->. pose proof (zrep_nodup st az z Hrep) as Hnd.
  rewrite HA, fmap_app in Hnd. simpl in Hnd. apply NoDup_app in Hnd as (_ & Hx & Hnd).
  apply NoDup_cons in Hnd as [Hn _]. apply elem_of_app in Hm as [Hm|Hm];
    apply (list_elem_of_fmap_2 fst) in Hm; [apply (Hx n); [done|left]|done].
Qed.

(** *** [alloc_new] *)

Lemma zrep_alloc_new st az z size align fill :
  zrep st az -> fresh_in fill az ->
  match zl_new size align fill (az z) with
  | None => alloc_new z size align fill st = (0, st)
  | Some (v, l') =>
    exists st', alloc_new z size align fill st = (v, st') /\
      zrep st' (zupd az z l') /\ same_rest st st' /\ ms_handle st' = ms_handle st
  end.
Proof.
  intros Hrep Hf. unfold alloc_new. rewrite (zrep_nodes st az) by done.
  assert (Hgen : forall r A, az z = A ++ r ->
    match zl_new size align fill r with
    | None => alloc_new_loop r.*1 size align fill st = (0, st)
    | Some (v, l') =>
      exists st', alloc_new_loop r.*1 size align fill st = (v, st') /\
        zrep st' (zupd az z (A ++ l')) /\ same_rest st st' /\ ms_handle st' = ms_handle st
    end).
  { intros r. induction r as [|[n i] r IH]; intros A HA; simpl; [done|].
    assert (Hin : (n, i) ∈ az z) by (rewrite HA, elem_mid; auto).
    rewrite (zrep_info st az z n i) by done.
    destruct (alloc_fits i size align) as [v|].
    - eexists. split; [done|]. split; [|done].
      eapply zrep_step; [exact Hrep| |reflexivity|reflexivity|].
      + intros L HL Hz Hh. rewrite fmap_app. simpl.
        apply h_add_before_spec; [done| |by eapply fresh_in_node].
        rewrite Hz, HA, fmap_app. done.
      + intros z' m j Hm. simpl. unfold zupd in Hm. case_decide as Hd.
        * subst z'. rewrite !elem_mid in Hm. destruct Hm as [[= -> ->]|[[= -> ->]|Hm]].
          -- rewrite lookup_insert_ne, lookup_insert_eq; [done|].
             intros <-. by apply (fresh_not_in n az z i).
          -- by rewrite lookup_insert_eq.
          -- assert (Hmz : (m, j) ∈ az z) by (rewrite HA, elem_mid; auto).
             rewrite !lookup_insert_ne; [by eapply zrep_lookup| |].
             ++ intros <-. by apply (fresh_not_in fill az z j).
             ++ intros <-. by apply (zrep_mid st az z A n i r n j).
        * rewrite !lookup_insert_ne.
          -- by eapply zrep_lookup.
          -- intros <-. by apply (fresh_not_in fill az z' j).
          -- intros <-. by destruct (zrep_distinct st az z' z n j i Hrep Hm Hin).
    - specialize (IH (A ++ [(n, i)])). rewrite <- app_assoc in IH. specialize (IH HA).
      destruct (zl_new size align fill r) as [[v r']|]; [|done].
      destruct IH as (st' & He & Hr & Hs). exists st'. split; [done|].
      by rewrite <- app_assoc in Hr. }
  by apply (Hgen (az z) []).
Qed.

(** *** [hlist_replace] and [alloc_free] *)

Lemma zrep_rename st az z o n i :
  zrep st az -> (o, i) ∈ az z -> fresh_in n az -> ms_info st !! n = Some i ->
  zrep (with_hl (h_replace o n) st) (fun z' => zl_rename o n (az z')).
Proof.
  intros Hrep Hin Hf Hn. pose proof Hin as (A & B & HA)%list_elem_of_split.
  assert (Hid : forall l, (forall m j, (m, j) ∈ l -> m <> o) -> zl_rename o n l = l).
  { intros l Hl. unfold zl_rename. rewrite <- (map_id l) at 2. apply map_ext_in.
    intros [m j] Hm. rewrite decide_False; [done|]. apply (Hl m j). by apply list_elem_of_In. }
  assert (Hz : zl_rename o n (az z) = A ++ (n, i) :: B).
  { rewrite HA. unfold zl_rename at 1. rewrite map_app. simpl. rewrite decide_True by done.
    fold (zl_rename o n A) (zl_rename o n B). rewrite !Hid; [done| |];
      intros m j Hm; apply (zrep_mid st az z A o i B m j Hrep HA); rewrite elem_of_app; auto. }
  apply (zrep_ext _ (zupd az z (A ++ (n, i) :: B))).
  { intros z'. unfold zupd. case_decide; [by subst|]. apply Hid. intros m j Hm ->.
    by destruct (zrep_distinct st az z' z o j i Hrep Hm Hin). }
  eapply zrep_step; [exact Hrep| |reflexivity|reflexivity|].
  - intros L HL Hz' Hh. rewrite fmap_app. simpl. apply (h_replace_spec _ _ _ _ o); [done| |].
    + by rewrite Hz', HA, fmap_app.
    + by eapply fresh_in_node.
  - intros z' m j Hm. unfold zupd in Hm. simpl. case_decide; [|by eapply zrep_lookup].
    apply elem_mid in Hm as [[= -> ->]|Hm]; [done|]. subst.
    eapply zrep_lookup; [done|]. rewrite HA, elem_mid. eauto.
Qed.

(** The successor of a node, as [alloc_free] looks it up. *)
Lemma zrep_next st az z A n i B :
  zrep st az -> az z = A ++ (n, i) :: B ->
  h_next (ms_hl st) n = default 0 (head B.*1).
Proof.
  intros (L & HL & Hz & _) HA. eapply (h_next_spec _ _ (zone_head z) A.*1); [done|].
  by rewrite Hz, HA, fmap_app.
Qed.

Lemma zrep_del st az z A n i B B' info' :
  zrep st az -> az z = A ++ (n, i) :: B -> B'.*1 = B.*1 ->
  (forall z' m j, (m, j) ∈ zupd az z (A ++ B') z' -> info' !! m = Some j) ->
  forall st', ms_hl st' = h_del n (ms_hl st) -> ms_info st' = info' ->
  zrep st' (zupd az z (A ++ B')).
Proof.
  intros Hrep HA HB Hi st' Hhl Hinfo.
  eapply (zrep_step st az z _ _ info'); [done| |done|done|done].
  intros L HL Hz Hh. rewrite fmap_app, HB. apply h_del_spec; [done|].
  by rewrite Hz, HA, fmap_app.
Qed.

Lemma zrep_alloc_free st az z n i :
  zrep st az -> (n, i) ∈ az z ->
  zrep (alloc_free n st) (zupd az z (zl_free n (az z))).
Proof.
  intros Hrep Hin. pose proof Hin as (A & B & HA)%list_elem_of_split.
  assert (HnA : n ∉ A.*1).
  { intros (e & -> & He)%list_elem_of_fmap. destruct e as [m j].
    by apply (zrep_mid st az z A m i B m j Hrep HA); [rewrite elem_of_app; auto|]. }
  unfold alloc_free. rewrite (zrep_next st az z A n i B Hrep HA), (zrep_info _ _ _ _ _ Hrep Hin).
  rewrite HA at 1. rewrite zl_free_skip by done.
  assert (Hsame : forall B', B = B' -> forall z' m j, (m, j) ∈ zupd az z (A ++ B') z' ->
    ms_info st !! m = Some j).
  { intros ? <- z' m j Hm. unfold zupd in Hm. case_decide; [subst|by eapply zrep_lookup].
    eapply zrep_lookup; [done|]. rewrite HA, elem_mid. eauto. }
  destruct B as [|[k j] B]; simpl; rewrite decide_True by done.
  { by eapply zrep_del; eauto. }
  assert (Hk : (k, j) ∈ az z) by (rewrite HA, elem_mid; right; rewrite elem_mid; auto).
  rewrite (zrep_info _ _ _ _ _ Hrep Hk), (proj2 (Z.eqb_neq k 0)) by by eapply zrep_nonzero.
  simpl. destruct (_ =? _); [|by eapply zrep_del; eauto].
  eapply (zrep_del st az z A n i ((k, j) :: B)); [done|done|done| |done|done].
  intros z' m l Hm. simpl. unfold zupd in Hm. case_decide as Hd.
  - subst z'. rewrite elem_mid in Hm. destruct Hm as [[= -> ->]|Hm]; [by rewrite lookup_insert_eq|].
    assert (HA' : az z = (A ++ [(n, i)]) ++ (k, j) :: B) by (by rewrite <- app_assoc).
    rewrite lookup_insert_ne.
    + eapply zrep_lookup; [done|]. rewrite HA', elem_mid, <- app_assoc. simpl. rewrite elem_mid. eauto.
    + intros ->. apply (zrep_mid st az z _ m j B m l Hrep HA'); [|done].
      rewrite <- app_assoc. simpl. rewrite elem_mid. auto.
  - rewrite lookup_insert_ne; [by eapply zrep_lookup|]. intros ->.
    by destruct (zrep_distinct st az z' z m l j Hrep Hm Hk).
Qed.

Lemma alloc_free_rest st n : same_rest st (alloc_free n st) /\
  ms_handle (alloc_free n st) = ms_handle st.
Proof. unfold alloc_free. by case_match. Qed.
End Rep.
