(* ===== verification/MallocInv.v ===== *)
(** * The zone allocator: abstract operations and the invariant they keep

    [az_new], [az_detail], [az_commit], [az_palloc] and [az_add] are the
    abstract counterparts of [alloc_new], [alloc_new_detail], [malloc_palloc]
    and [alloc_add]; the lemmas show that each of them keeps [zinv] (the ranges
    are disjoint) and [zown] (every list node lies in a live bookkeeping
    struct).  The theorems on the code are in [MallocProof]. *)
From stdpp Require Import sorting.
From S2P Require Import Prelude E820 Hlist Machine StringOps Malloc MallocSpec.

Section Inv.
Context `{Layout}.
Implicit Types (az : zstate).

Definition az_new (z : zone) (size align fill : Z) (az : zstate) : option (Z * zstate) :=
  match zl_new size align fill (az z) with
  | Some (v, l) => Some (v, zupd az z l)
  | None => None
  end.

Definition az_detail (az : zstate) : option (Z * zstate) :=
  match az_new ZoneTmpHigh sizeof_allocdetail_s MALLOC_MIN_ALIGN tempdetail az with
  | Some r => Some r
  | None => az_new ZoneTmpLow sizeof_allocdetail_s MALLOC_MIN_ALIGN tempdetail az
  end.

Definition az_rename (o n : Z) (az : zstate) : zstate := fun z => zl_rename o n (az z).

Definition az_commit (D : Z) (az : zstate) : zstate :=
  az_rename (datainfo tempdetail) (datainfo D) (az_rename (detailinfo tempdetail) (detailinfo D) az).

Definition az_palloc (z : zone) (size align : Z) (az : zstate) : option (Z * Z * zstate) :=
  if size =? 0 then None
  else
    match az_new z size align (datainfo tempdetail) az with
    | None => None
    | Some (v, az1) =>
      match az_detail az1 with
      | None => None
      | Some (D, az2) => Some (v, D, az_commit D az2)
      end
    end.

(** [alloc_add]: the range enters its zone in descending order. *)
Fixpoint zl_insert (s e : Z) (l : list entry) : list entry :=
  match l with
  | [] => [(datainfo tempdetail, Allocinfo s e 0)]
  | (n, i) :: r =>
    if range_start i <? s then (datainfo tempdetail, Allocinfo s e 0) :: l
    else (n, i) :: zl_insert s e r
  end.

Definition az_add (z : zone) (s e : Z) (az : zstate) : zstate :=
  match az_detail (zupd az z (zl_insert s e (az z))) with
  | Some (D, az2) => az_commit D az2
  | None => az
  end.

Definition az_free (n : Z) (z : zone) (az : zstate) : zstate := zupd az z (zl_free n (az z)).

Definition temps : list Z := [detailinfo tempdetail; datainfo tempdetail].

(** ** Lists of ranges *)

Lemma sorted_app_mid {A} (R : A -> A -> Prop) l1 x l2 :
  StronglySorted R (l1 ++ x :: l2) <->
  StronglySorted R (l1 ++ l2) /\ Forall (fun a => R a x) l1 /\ Forall (R x) l2.
Proof.
  induction l1 as [|a l1 IH]; simpl.
  - split; [intros Hs; by apply StronglySorted_inv in Hs as [? ?]|].
    intros (? & _ & ?). by constructor.
  - split.
    + intros [Hs Ha]%StronglySorted_inv. rewrite IH in Hs. destruct Hs as (? & ? & ?).
      rewrite Forall_app, Forall_cons in Ha. destruct Ha as (? & ? & ?).
      split_and!; auto. constructor; [done|]. by apply Forall_app.
    + intros ([Hs Ha]%StronglySorted_inv & [? ?]%Forall_cons & ?).
      constructor; [apply IH; auto|]. rewrite Forall_app in *. rewrite Forall_cons. tauto.
Qed.

Lemma sorted_disjoint (l : list entry) e1 e2 :
  StronglySorted entry_above l -> e1 ∈ l -> e2 ∈ l -> e1 <> e2 ->
  entry_above e1 e2 \/ entry_above e2 e1.
Proof.
  intros Hs (A & B & ->)%list_elem_of_split H2 Hne.
  apply sorted_app_mid in Hs as (_ & HA & HB). rewrite Forall_forall in HA, HB.
  rewrite elem_mid, elem_of_app in H2. destruct H2 as [->|[H2|H2]]; [done|right|left]; auto.
Qed.

Lemma zinv_disjoint az z1 z2 e1 e2 :
  zinv az -> e1 ∈ az z1 -> e2 ∈ az z2 -> e1 <> e2 -> entry_above e1 e2 \/ entry_above e2 e1.
Proof.
  intros Hi H1 H2 Hne. destruct (decide (z1 = z2)) as [<-|Hz].
  - by eapply sorted_disjoint; [apply (zi_sorted az Hi z1)| | |].
  - by apply (zi_cross az Hi z1 z2 e1 e2).
Qed.

Lemma zinv_forall az z : zinv az -> Forall (fun e => entry_ok (snd e)) (az z).
Proof. intros Hi. apply Forall_forall. intros [n i]. apply (zi_ok az Hi). Qed.

Lemma elem_zupd az z l z' e :
  e ∈ zupd az z l z' <-> (z' = z /\ e ∈ l) \/ (z' <> z /\ e ∈ az z').
Proof. unfold zupd. case_decide; subst; naive_solver. Qed.

(** ** [az_new] *)

(** What [az_new] does: one entry of the zone is cut in two. *)
Record carved (az : zstate) (z : zone) (size align fill v : Z) (az' : zstate)
    (A : list entry) (n : Z) (i : allocinfo_s) (B : list entry) : Prop := Carved {
  cv_pre : az z = A ++ (n, i) :: B;
  cv_post : az' = zupd az z (A ++ (fill, Allocinfo v (range_end i) size)
                                :: (n, set_range_end i v) :: B);
  cv_align : (align | v);
  cv_low : range_start i + alloc_size i <= v;
  cv_high : v + size <= range_end i }.

Lemma az_new_carved az z size align fill v az' :
  zinv az -> 0 <= size -> pow2_align 32 align -> size + align <= 2 ^ 32 ->
  az_new z size align fill az = Some (v, az') ->
  exists A n i B, carved az z size align fill v az' A n i B.
Proof.
  intros Hi Hs Ha Hov Heq. unfold az_new in Heq.
  destruct (zl_new _ _ _ _) as [[w l]|] eqn:Hn; [|done]. simplify_eq.
  destruct (zl_new_spec size align fill Hs Ha Hov (az z) v l) as (A & n & i & B & ? & -> & ? & ? & ? & _);
    [by apply zinv_forall|done|].
  exists A, n, i, B. by split.
Qed.

(** Each entry after [az_new]: the new one, the cut one, or an old one. *)
Lemma carved_elem az z size align fill v az' A n i B z' e :
  carved az z size align fill v az' A n i B ->
  e ∈ az' z' ->
  (z' = z /\ e = (fill, Allocinfo v (range_end i) size)) \/
  (z' = z /\ e = (n, set_range_end i v)) \/ e ∈ az z'.
Proof.
  intros [HA -> _ _ _] He. rewrite elem_zupd, !elem_mid in He.
  destruct He as [[-> [->|[->|He]]]|[_ He]]; auto. right. right. rewrite HA, elem_mid. auto.
Qed.

Lemma carved_host az z size align fill v az' A n i B :
  carved az z size align fill v az' A n i B -> (n, i) ∈ az z.
Proof. intros [HA _ _ _ _]. rewrite HA, elem_mid. auto. Qed.

Lemma carved_new az z size align fill v az' A n i B :
  carved az z size align fill v az' A n i B -> (fill, Allocinfo v (range_end i) size) ∈ az' z.
Proof. intros [_ -> _ _ _]. rewrite elem_zupd, elem_mid. auto. Qed.

(** Every entry before survives, with its start and size; its end is another one
    only where the new range was cut from it. *)
Lemma carved_range az z size align fill v az' A n i B z' m j :
  carved az z size align fill v az' A n i B -> (m, j) ∈ az z' ->
  exists k, (m, k) ∈ az' z' /\ range_start k = range_start j /\ alloc_size k = alloc_size j /\
    (range_end k = range_end j \/
     (z' = z /\ range_end k = v /\ v + size <= range_end j /\ (fill, Allocinfo v (range_end j) size) ∈ az' z')).
Proof.
  intros [HA -> _ _ Hhigh] Hin. destruct (decide (z' = z)) as [->|Hz].
  - rewrite HA, elem_mid in Hin. destruct Hin as [[= -> ->]|Hin].
    + exists (set_range_end i v). rewrite !elem_zupd, !elem_mid. split_and!; auto 7.
      right. split_and!; auto.
    + exists j. rewrite elem_zupd, !elem_mid. auto 8.
  - exists j. rewrite elem_zupd. auto.
Qed.
Lemma carved_keeps az z size align fill v az' A n i B z' m j :
  carved az z size align fill v az' A n i B -> (m, j) ∈ az z' ->
  exists k, (m, k) ∈ az' z' /\ range_start k = range_start j /\ alloc_size k = alloc_size j.
Proof. intros Hc Hin. destruct (carved_range _ _ _ _ _ _ _ _ _ _ _ _ _ _ Hc Hin) as (k & ? & ? & ? & _). eauto. Qed.

(** Every range after [az_new] lies within a range before it, with the same
    start unless it is the new one. *)
Lemma carved_sub az z size align fill v az' A n i B z' e :
  zinv az -> carved az z size align fill v az' A n i B -> 0 < size -> e ∈ az' z' ->
  exists e0, e0 ∈ az z' /\ range_start (snd e0) <= range_start (snd e) /\
    range_end (snd e) <= range_end (snd e0) /\ entry_ok (snd e) /\
    (range_start (snd e) = range_start (snd e0) \/
     range_start (snd e0) <= range_start (snd e) < range_end (snd e0)).
Proof.
  intros Hi Hc Hs He. pose proof (carved_host _ _ _ _ _ _ _ _ _ _ _ Hc) as Hin.
  destruct (zi_ok az Hi _ _ _ Hin) as (? & ? & ? & ?).
  pose proof (cv_low _ _ _ _ _ _ _ _ _ _ _ Hc). pose proof (cv_high _ _ _ _ _ _ _ _ _ _ _ Hc).
  destruct (carved_elem _ _ _ _ _ _ _ _ _ _ _ _ _ Hc He) as [[-> ->]|[[-> ->]|Hold]].
  - exists (n, i). unfold entry_ok. simpl. split_and!; auto; lia.
  - exists (n, i). unfold entry_ok. simpl. split_and!; auto; lia.
  - exists e. destruct e as [m j]. pose proof (zi_ok az Hi _ _ _ Hold). split_and!; auto; lia.
Qed.

Lemma zinv_carved az z size align fill v az' A n i B :
  zinv az -> carved az z size align fill v az' A n i B -> 0 < size -> zinv az'.
Proof.
  intros Hi Hc Hs. pose proof (fun z' e => carved_sub _ _ _ _ _ _ _ _ _ _ _ z' e Hi Hc Hs) as Hsub.
  split.
  - intros z' m j Hm. by destruct (Hsub _ _ Hm) as (e0 & _ & _ & _ & ? & _).
  - intros z'. destruct Hc as [HA -> _ Hlow Hhigh]. unfold zupd. case_decide; [|apply Hi].
    subst z'. pose proof (zi_sorted az Hi z) as Hso. rewrite HA in Hso.
    apply sorted_app_mid in Hso as (HAB & HAi & HiB).
    assert (Hok : entry_ok i) by (apply (zi_ok az Hi z n); rewrite HA, elem_mid; auto).
    destruct Hok as (? & ? & ? & ?).
    rewrite !sorted_app_mid, !Forall_cons. rewrite !Forall_forall in *.
    unfold entry_above in *. simpl in *. split_and!; auto; try lia.
    + intros x Hx. specialize (HAi x Hx). lia.
    + intros x Hx. specialize (HiB x Hx). lia.
  - intros z1 z2 e1 e2 Hz H1 H2.
    destruct (Hsub _ _ H1) as (a1 & Ha1 & ? & ? & Hok1 & Hst1).
    destruct (Hsub _ _ H2) as (a2 & Ha2 & ? & ? & Hok2 & Hst2).
    destruct (zi_cross az Hi z1 z2 a1 a2 Hz Ha1 Ha2) as [Hd Hst]. unfold entry_above in *.
    destruct Hok1 as (? & ? & ? & ?), Hok2 as (? & ? & ? & ?). lia.
  - intros z' z'' m j Hm. destruct (Hsub _ _ Hm) as ([m0 i0] & Ha & ? & ? & _).
    pose proof (zi_heads az Hi _ z'' _ _ Ha). simpl in *. lia.
  - intros z' m j Hm. destruct (Hsub _ _ Hm) as ([m0 i0] & Ha & ? & ? & _).
    pose proof (zi_temp az Hi _ _ _ Ha). simpl in *. lia.
Qed.

Lemma owned_carved az z size align fill v az' A n i B m :
  carved az z size align fill v az' A n i B -> owned az m -> owned az' m.
Proof.
  intros Hc (z' & D & d & Hin & Hst & Hsz & Hm).
  destruct (carved_keeps _ _ _ _ _ _ _ _ _ _ _ _ _ _ Hc Hin) as (k & Hk & ? & ?).
  exists z', D, k. split_and!; congruence || auto.
Qed.

Lemma zown_carved az X z size align fill v az' A n i B :
  carved az z size align fill v az' A n i B -> zown az X -> zown az' (fill :: X).
Proof.
  intros Hc Ho z' m j Hm.
  assert (Hold : m = fill \/ exists k, (m, k) ∈ az z').
  { destruct (carved_elem _ _ _ _ _ _ _ _ _ _ _ _ _ Hc Hm) as [[-> [= -> ->]]|[[-> [= -> ->]]|?]];
      eauto. right. eexists. by eapply carved_host. }
  destruct Hold as [->|[k Hk]]; [left; left|].
  destruct (Ho _ _ _ Hk) as [?|?]; [left; by right|right; by eapply owned_carved].
Qed.

(** ** The bookkeeping struct is fresh *)

(** A new detail [D] lies apart from all list nodes. *)
Lemma detail_range_fresh az z D d n :
  zinv az -> zown az temps ->
  (detailinfo tempdetail, d) ∈ az z -> range_start d = D -> alloc_size d = sizeof_allocdetail_s ->
  D <= n -> n + 8 <= D + sizeof_allocdetail_s ->
  fresh_in n az /\ D <> detailinfo tempdetail /\ D <> datainfo tempdetail.
Proof.
  unfold sizeof_allocdetail_s, temps, detailinfo, datainfo.
  intros Hi Ho Hin Hst Hsz Hn1 Hn2. destruct (zi_ok az Hi _ _ _ Hin) as (? & ? & ? & ?).
  pose proof (zi_temp az Hi _ _ _ Hin) as Ht. unfold sizeof_allocdetail_s in Ht.
  pose proof tempdetail_pos. split; [|lia]. split; [lia|]. split.
  - intros z'. pose proof (zi_heads az Hi _ z' _ _ Hin). lia.
  - intros z' m j Hm. destruct (Ho _ _ _ Hm) as [Hx|(z2 & D' & d' & Hd' & Hst' & Hsz' & Hm')].
    + rewrite !elem_of_cons in Hx. destruct Hx as [->|[->|Hx]]; [lia|lia|by apply not_elem_of_nil in Hx].
    + unfold detailinfo, datainfo, sizeof_allocdetail_s in *.
      destruct (zi_ok az Hi _ _ _ Hd') as (? & ? & ? & ?).
      pose proof (zi_temp az Hi _ _ _ Hd') as Ht'. unfold sizeof_allocdetail_s in Ht'.
      destruct (zinv_disjoint az _ _ _ _ Hi Hin Hd') as [Hab|Hab]; unfold entry_above in *;
        simpl in *; [intros [= <- <-]; lia| |]; lia.
Qed.

(** ** Renaming list nodes *)

Lemma zl_rename_elem o n l m i :
  (m, i) ∈ zl_rename o n l <-> (m = n /\ (o, i) ∈ l) \/ (m <> o /\ (m, i) ∈ l).
Proof.
  induction l as [|[k j] l IH]; simpl; [rewrite !elem_of_nil; tauto|].
  rewrite !elem_of_cons, IH. case_decide; simpl in *; naive_solver.
Qed.

Lemma zl_rename_snd o n l : (zl_rename o n l).*2 = l.*2.
Proof. induction l as [|[k j] l IH]; simpl; [done|]. f_equal; [by case_decide|done]. Qed.

Lemma sorted_snd l1 l2 : l1.*2 = l2.*2 -> StronglySorted entry_above l1 -> StronglySorted entry_above l2.
Proof.
  intros Heq. assert (Hf : Forall2 (fun a b : entry => snd a = snd b) l1 l2).
  { revert l2 Heq. induction l1; intros [|? ?] Heq; simplify_eq/=; constructor; auto. }
  clear Heq. induction Hf as [|a b l1 l2 Hab Hf IH]; intros Hs; [done|].
  apply StronglySorted_inv in Hs as [Hs Ha]. constructor; [by apply IH|].
  clear -Hf Ha Hab. induction Hf as [|c d l1 l2 Hcd Hf IH]; [done|].
  apply Forall_cons in Ha as [? ?]. constructor; [|by apply IH].
  unfold entry_above in *. congruence.
Qed.

Lemma zinv_rename o n az : zinv az -> zinv (az_rename o n az).
Proof.
  intros Hi. assert (Hold : forall z m i, (m, i) ∈ az_rename o n az z -> exists k, (k, i) ∈ az z).
  { intros z m i Hm. apply zl_rename_elem in Hm as [[_ ?]|[_ ?]]; eauto. }
  split.
  - intros z m i [k Hk]%Hold. by apply (zi_ok az Hi z k).
  - intros z. eapply sorted_snd; [symmetry; apply zl_rename_snd|apply (zi_sorted az Hi z)].
  - intros z1 z2 [m1 i1] [m2 i2] Hz [k1 Hk1]%Hold [k2 Hk2]%Hold.
    apply (zi_cross az Hi z1 z2 _ _ Hz Hk1 Hk2).
  - intros z z' m i [k Hk]%Hold. by apply (zi_heads az Hi z z' k).
  - intros z m i [k Hk]%Hold. by apply (zi_temp az Hi z k).
Qed.

Lemma elem_commit D az z m j :
  D <> datainfo tempdetail ->
  (m, j) ∈ az_commit D az z <->
  (m = datainfo D /\ (datainfo tempdetail, j) ∈ az z) \/
  (m = detailinfo D /\ (detailinfo tempdetail, j) ∈ az z) \/
  (m ∉ temps /\ (m, j) ∈ az z).
Proof.
  intros HD. unfold az_commit, az_rename, temps. rewrite !zl_rename_elem, !not_elem_of_cons.
  pose proof (not_elem_of_nil m). unfold detailinfo, datainfo in *.
  assert (tempdetail + 20 <> tempdetail) by lia. intuition (subst; auto; congruence).
Qed.

Lemma zown_commit az z D d :
  zinv az -> zown az temps ->
  (detailinfo tempdetail, d) ∈ az z -> range_start d = D -> alloc_size d = sizeof_allocdetail_s ->
  zown (az_commit D az) [].
Proof.
  intros Hi Ho Hin Hst Hsz.
  destruct (detail_range_fresh az z D d D Hi Ho Hin Hst Hsz) as (_ & _ & HD);
    [lia|unfold sizeof_allocdetail_s; lia|].
  assert (Hown : forall m, m = detailinfo D \/ m = datainfo D -> owned (az_commit D az) m).
  { intros m Hm. exists z, D, d. rewrite elem_commit by done. split_and!; auto. }
  intros z' m j Hm. right. rewrite elem_commit in Hm by done.
  destruct Hm as [[-> Hm]|[[-> Hm]|[Ht Hm]]]; [by apply Hown; right|by apply Hown; left|].
  destruct (Ho _ _ _ Hm) as [?|(z2 & D' & d' & Hin' & Hst' & Hsz' & Hm')]; [done|].
  exists z2, D', d'. rewrite elem_commit by done. split_and!; auto. right. right.
  split; [|done]. destruct (zi_ok az Hi _ _ _ Hin') as (? & ? & ? & ?).
  pose proof (zi_temp az Hi _ _ _ Hin') as Ht'. unfold sizeof_allocdetail_s in *.
  unfold temps, detailinfo, datainfo. rewrite !not_elem_of_cons.
  split_and!; [lia|lia|apply not_elem_of_nil].
Qed.

Lemma fresh_in_rename n o D az :
  fresh_in n az -> n <> D -> n <> D + 4 -> n + 4 <> D -> fresh_in n (az_rename o D az).
Proof.
  intros (? & ? & Hm) ? ? ?. split_and!; auto. intros z m i Hin.
  apply zl_rename_elem in Hin as [[-> ?]|[? ?]]; [done|by eapply Hm].
Qed.

Lemma az_detail_carved az D az' :
  zinv az -> az_detail az = Some (D, az') ->
  exists z A n i B, (z = ZoneTmpHigh \/ z = ZoneTmpLow) /\
    carved az z sizeof_allocdetail_s MALLOC_MIN_ALIGN tempdetail D az' A n i B.
Proof.
  intros Hi Heq. unfold az_detail in Heq.
  assert (Hal : pow2_align 32 MALLOC_MIN_ALIGN) by (exists 4; unfold MALLOC_MIN_ALIGN; lia).
  destruct (az_new ZoneTmpHigh _ _ _ az) as [[D' az1]|] eqn:E1; [simplify_eq; exists ZoneTmpHigh|exists ZoneTmpLow].
  - apply az_new_carved in E1 as (A & n & i & B & Hc); eauto; unfold sizeof_allocdetail_s, MALLOC_MIN_ALIGN; try lia.
    exists A, n, i, B. auto.
  - apply az_new_carved in Heq as (A & n & i & B & Hc); eauto; unfold sizeof_allocdetail_s, MALLOC_MIN_ALIGN; try lia.
    exists A, n, i, B. auto.
Qed.

(** ** [az_free] *)

(** What [az_free] does to the entry [(n, i)]: it disappears, and if the next
    entry ends where it starts then that one grows over its range. *)
Record freed (az : zstate) (z : zone) (n : Z) (i : allocinfo_s) (A B : list entry) : Prop := Freed {
  fr_pre : az z = A ++ (n, i) :: B;
  fr_once : forall z' m j, (m, j) ∈ az z' -> m = n -> z' = z;
  fr_fresh : forall m j, (m, j) ∈ A ++ B -> m <> n }.

Lemma freed_eq az z n i A B :
  freed az z n i A B -> az_free n z az = zupd az z (A ++ zl_free n ((n, i) :: B)).
Proof.
  intros [HA _ Hf]. unfold az_free. rewrite HA, zl_free_skip; [done|].
  intros (e & -> & He)%list_elem_of_fmap. destruct e as [m j].
  apply (Hf m j); [rewrite elem_of_app; auto|done].
Qed.

Lemma freed_elem az z n i A B z' m k :
  freed az z n i A B -> (m, k) ∈ az_free n z az z' ->
  m <> n /\ exists j, (m, j) ∈ az z' /\ range_start k = range_start j /\
    alloc_size k = alloc_size j /\
    (range_end k = range_end j \/
     (z' = z /\ range_end j = range_start i /\ range_end k = range_end i)).
Proof.
  intros Hf He. rewrite (freed_eq _ _ _ _ _ _ Hf) in He. destruct Hf as [HA Ho Hf].
  apply elem_zupd in He as [[-> He]|[Hz He]].
  - assert (Hk : (m, k) ∈ A ++ B \/ exists j B', B = (m, j) :: B' /\
      range_end j = range_start i /\ k = set_range_end j (range_end i)).
    { destruct B as [|[b j] B]; [simpl in He; rewrite decide_True in He by done; auto|].
      rewrite zl_free_here in He. destruct (Z.eqb_spec (range_end j) (range_start i)); [|auto].
      rewrite elem_mid in He. destruct He as [[= -> ->]|He]; [eauto 7|].
      left. rewrite elem_mid. auto. }
    destruct Hk as [Hk|(j & B' & -> & Hj & ->)].
    + split; [by eapply Hf|]. exists k. rewrite HA, elem_mid. auto.
    + split; [apply (Hf m j); rewrite elem_mid; auto|].
      exists j. rewrite HA, elem_mid, elem_mid. simpl. auto 8.
  - split; [|eauto 7]. intros ->. by rewrite (Ho z' n k He eq_refl) in Hz.
Qed.

(** Conversely every other entry survives, with its start and size. *)
Lemma freed_keeps az z n i A B z' m j :
  freed az z n i A B -> (m, j) ∈ az z' -> m <> n ->
  exists k, (m, k) ∈ az_free n z az z' /\ range_start k = range_start j /\
    alloc_size k = alloc_size j.
Proof.
  intros Hf Hin Hne. rewrite (freed_eq _ _ _ _ _ _ Hf). destruct Hf as [HA Ho Hf].
  destruct (decide (z' = z)) as [->|Hz]; [|exists j; rewrite elem_zupd; auto].
  rewrite HA, elem_mid in Hin. destruct Hin as [[= -> ->]|Hin]; [done|].
  destruct B as [|[b l] B].
  { exists j. rewrite elem_zupd. simpl. rewrite decide_True by done. auto. }
  rewrite zl_free_here. destruct (_ =? _); [|exists j; rewrite elem_zupd; auto].
  rewrite elem_mid in Hin. destruct Hin as [[= -> ->]|Hin].
  - exists (set_range_end l (range_end i)). rewrite elem_zupd, elem_mid. auto.
  - exists j. rewrite elem_zupd, elem_mid. auto.
Qed.

Lemma sorted_free az z n i A B :
  zinv az -> freed az z n i A B -> StronglySorted entry_above (az_free n z az z).
Proof.
  intros Hi Hf. rewrite (freed_eq _ _ _ _ _ _ Hf), zupd_eq. destruct Hf as [HA _ _].
  pose proof (zi_sorted az Hi z) as Hs. rewrite HA in Hs.
  apply sorted_app_mid in Hs as (HAB & HAi & HiB).
  assert (Hok : forall x, x ∈ B -> entry_ok (snd x)).
  { intros [m j] Hm. apply (zi_ok az Hi z m). rewrite HA, elem_mid, elem_of_app. auto. }
  destruct B as [|[k j] B]; [simpl; by rewrite decide_True by done|].
  rewrite zl_free_here. destruct (Z.eqb_spec (range_end j) (range_start i)) as [He|]; [|done].
  apply sorted_app_mid in HAB as (HAB & HAj & HjB). apply Forall_cons in HiB as [_ HiB].
  rewrite sorted_app_mid. split_and!; [done| |done].
  rewrite !Forall_forall in *. unfold entry_above in *. simpl in *.
  intros x Hx. apply (HAi x Hx).
Qed.

Lemma freed_host az z n i A B : freed az z n i A B -> (n, i) ∈ az z.
Proof. intros [HA _ _]. rewrite HA, elem_mid. auto. Qed.

Lemma zinv_freed az z n i A B : zinv az -> freed az z n i A B -> zinv (az_free n z az).
Proof.
  intros Hi Hf. pose proof (freed_host _ _ _ _ _ _ Hf) as Hn.
  pose proof (zi_ok az Hi _ _ _ Hn) as Hoki. unfold entry_ok in Hoki.
  assert (Hel : forall z' m k, (m, k) ∈ az_free n z az z' -> exists j, (m, j) ∈ az z' /\
      range_start k = range_start j /\ entry_ok j /\ alloc_size k = alloc_size j /\
      (range_end k = range_end j \/
       (z' = z /\ range_end j = range_start i /\ range_end k = range_end i))).
  { intros z' m k Hk. destruct (freed_elem _ _ _ _ _ _ _ _ _ Hf Hk) as (_ & j & Hj & ? & ? & ?).
    exists j. split_and!; auto. by apply (zi_ok az Hi z' m). }
  assert (Hcross : forall z1 z2 e1 e2, z1 <> z2 -> e1 ∈ az_free n z az z1 -> e2 ∈ az_free n z az z2 ->
    (entry_above e1 e2 \/ entry_above e2 e1) /\ range_start (snd e1) <> range_start (snd e2)).
  { intros z1 z2 [m1 k1] [m2 k2] Hz H1 H2.
    destruct (Hel _ _ _ H1) as (j1 & Hj1 & Hs1 & (? & ? & ? & ?) & ? & Hr1).
    destruct (Hel _ _ _ H2) as (j2 & Hj2 & Hs2 & (? & ? & ? & ?) & ? & Hr2).
    destruct (zi_cross az Hi z1 z2 _ _ Hz Hj1 Hj2) as [Hd Hst]. unfold entry_above in *. simpl in *.
    split; [|lia]. destruct Hr1 as [Hr1|(-> & Hr1 & Hr1')]; destruct Hr2 as [Hr2|(-> & Hr2 & Hr2')].
    - lia.
    - destruct (zi_cross az Hi z1 z _ _ Hz Hj1 Hn). unfold entry_above in *. simpl in *. lia.
    - destruct (zi_cross az Hi z z2 _ _ Hz Hn Hj2). unfold entry_above in *. simpl in *. lia.
    - done. }
  split.
  - intros z' m k Hk. destruct (Hel _ _ _ Hk) as (j & _ & ? & (? & ? & ? & ?) & ? & ?).
    unfold entry_ok. lia.
  - intros z'. destruct (decide (z' = z)) as [->|Hz]; [by eapply sorted_free|].
    unfold az_free. rewrite zupd_ne by done. apply (zi_sorted az Hi).
  - done.
  - intros z' z2 m k Hk. destruct (Hel _ _ _ Hk) as (j & Hj & Hs & _ & _ & Hr).
    pose proof (zi_heads az Hi _ z2 _ _ Hj). pose proof (zi_heads az Hi _ z2 _ _ Hn). lia.
  - intros z' m k Hk. destruct (Hel _ _ _ Hk) as (j & Hj & Hs & _ & _ & Hr).
    pose proof (zi_temp az Hi _ _ _ Hj). pose proof (zi_temp az Hi _ _ _ Hn).
    unfold sizeof_allocdetail_s in *. lia.
Qed.

Lemma zown_freed az X z n i A B :
  zown az X -> freed az z n i A B ->
  (range_start i = n -> alloc_size i = sizeof_allocdetail_s ->
     forall z' j, (datainfo n, j) ∈ az z' -> datainfo n ∈ X) ->
  zown (az_free n z az) X.
Proof.
  intros Ho Hf Hx z' m k Hk. destruct (freed_elem _ _ _ _ _ _ _ _ _ Hf Hk) as (Hne & j & Hj & _).
  destruct (Ho _ _ _ Hj) as [?|(z2 & D & d & Hd & Hst & Hsz & Hm)]; [by left|].
  destruct (decide (D = n)) as [->|HD].
  - assert (z2 = z) as -> by by eapply (fr_once _ _ _ _ _ _ Hf).
    assert (d = i) as ->.
    { rewrite (fr_pre _ _ _ _ _ _ Hf), elem_mid in Hd. destruct Hd as [Hd|Hd]; [congruence|].
      by destruct (fr_fresh _ _ _ _ _ _ Hf _ _ Hd). }
    destruct Hm as [-> | ->]; [done|]. left. by eapply Hx.
  - right. destruct (freed_keeps _ _ _ _ _ _ _ _ _ Hf Hd HD) as (k' & Hk' & ? & ?).
    exists z2, D, k'. split_and!; congruence || auto.
Qed.

(** *** Freeing in the order of [malloc_pfree] undoes the two carvings *)

(** Freeing the node carved last restores the zones. *)
Lemma carved_freed az z size align fill v az' A n i B :
  carved az z size align fill v az' A n i B -> fill ∉ (az z).*1 ->
  forall z', az_free fill z az' z' = az z'.
Proof.
  intros [HA -> _ _ _] Hf z'. unfold az_free. rewrite zupd_eq.
  unfold zupd. case_decide; [subst z'|done]. rewrite zl_free_new; [done|].
  intros Hin. apply Hf. rewrite HA, fmap_app, elem_of_app. auto.
Qed.

Lemma zl_free_rename o n l :
  n ∉ l.*1 -> NoDup l.*1 -> zl_free n (zl_rename o n l) = zl_free o l.
Proof.
  assert (Hid : forall l, o ∉ l.*1 -> zl_rename o n l = l).
  { clear. induction l as [|[m i] l IH]; simpl; [done|]. intros [? ?]%not_elem_of_cons.
    rewrite decide_False by done. by rewrite IH. }
  induction l as [|[m i] l IH]; simpl; [done|].
  intros [? ?]%not_elem_of_cons [? ?]%NoDup_cons. destruct (decide (m = o)) as [->|].
  - rewrite decide_True by done. by rewrite Hid.
  - rewrite decide_False by congruence. by rewrite IH.
Qed.

Lemma zl_free_rename_other m o n l :
  m <> o -> m <> n -> zl_free m (zl_rename o n l) = zl_rename o n (zl_free m l).
Proof.
  intros Ho Hn. induction l as [|[k i] l IH]; [done|].
  simpl. destruct (decide (k = m)) as [->|Hk].
  - rewrite (decide_False (P := m = o)) by done. rewrite decide_True by done.
    destruct l as [|[b j] l]; [done|]. simpl.
    destruct (decide (b = o)) as [->|]; simpl; case_match; simpl;
      [by rewrite decide_True|by rewrite decide_True|by rewrite decide_False|by rewrite decide_False].
  - destruct (decide (k = o)) as [->|]; simpl.
    + rewrite decide_False by congruence. rewrite IH. by rewrite decide_True.
    + rewrite decide_False by done. rewrite IH. by rewrite decide_False.
Qed.

(** Evaluate nested [zl_free]s on a list given by its parts. *)
Ltac zl_undo :=
  unfold set_range_end in *; rewrite <- ?app_assoc; simpl in *; rewrite ?elem_of_app, ?elem_of_cons in *;
  repeat first [ rewrite zl_free_skip by (first [tauto | intuition congruence])
               | progress (unfold set_range_end; simpl)
               | rewrite decide_True by done
               | rewrite decide_False by (first [tauto | intuition congruence])
               | rewrite Z.eqb_refl
               | rewrite <- app_assoc ]; try done.

(** The two carvings may be cut from the same entry, one from the other, or
    from different entries: freeing in either order merges the ranges back. *)
Lemma zl_free_swap A n i B f v s A' n' i' B' g w s' :
  A ++ (f, Allocinfo v (range_end i) s) :: (n, set_range_end i v) :: B = A' ++ (n', i') :: B' ->
  NoDup (g :: A.*1 ++ f :: n :: B.*1) ->
  zl_free g (zl_free f (A' ++ (g, Allocinfo w (range_end i') s') :: (n', set_range_end i' w) :: B'))
  = A ++ (n, i) :: B.
Proof.
  intros Heq Hnd. destruct i as [si ei zi], i' as [si' ei' zi']. unfold set_range_end in *. simpl in *.
  apply NoDup_cons in Hnd as [Hg Hnd].
  rewrite elem_of_app, !elem_of_cons in Hg.
  apply NoDup_app in Hnd as (_ & HA & Hnd). apply NoDup_cons in Hnd as [Hf _].
  assert (HfA : f ∉ A.*1) by (intros Hx; apply (HA f Hx); left).
  apply app_eq_inv in Heq as [(K & -> & Heq)|(K & -> & Heq)].
  - destruct K as [|x K]; simplify_eq/=.
    + rewrite app_nil_r in *. zl_undo.
    + rewrite fmap_app in *. zl_undo.
  - destruct K as [|x [|y K]]; simplify_eq/=.
    + rewrite ?app_nil_r in *. zl_undo.
    + zl_undo.
    + rewrite fmap_app in *. zl_undo.
Qed.

(** ** [az_add] *)

(** The range [s, e) is apart from all others, the heads and the stack struct. *)
Record apart az (s e : Z) : Prop := Apart {
  ap_ok : 0 < s /\ s <= e /\ e < 2 ^ 32;
  ap_ranges z n i : (n, i) ∈ az z ->
    (e <= range_start i \/ range_end i <= s) /\ range_start i <> s;
  ap_heads z : zone_head z < s \/ e <= zone_head z;
  ap_temp : tempdetail + sizeof_allocdetail_s <= s \/ e <= tempdetail }.

Lemma zl_insert_split s e l :
  exists A B, l = A ++ B /\ zl_insert s e l = A ++ (datainfo tempdetail, Allocinfo s e 0) :: B /\
    Forall (fun x => s <= range_start (snd x)) A /\
    match B with [] => True | x :: _ => range_start (snd x) < s end.
Proof.
  induction l as [|[n i] l (A & B & -> & Heq & HA & HB)]; simpl.
  - by exists [], [].
  - destruct (Z.ltb_spec (range_start i) s).
    + by exists [], ((n, i) :: A ++ B).
    + exists ((n, i) :: A), B. rewrite Heq. split_and!; auto.
Qed.

Lemma zinv_insert az z s e :
  zinv az -> apart az s e -> zinv (zupd az z (zl_insert s e (az z))).
Proof.
  intros Hi [Hok Hr Hh Ht].
  destruct (zl_insert_split s e (az z)) as (A & B & HAB & Hins & HA & HB).
  assert (Hel : forall z' x, x ∈ zupd az z (zl_insert s e (az z)) z' ->
    (z' = z /\ x = (datainfo tempdetail, Allocinfo s e 0)) \/ x ∈ az z').
  { intros z' x. rewrite elem_zupd, Hins, elem_mid, <- HAB. naive_solver. }
  split.
  - intros z' n i [[-> [= -> ->]]|Hx]%Hel; [unfold entry_ok; simpl; lia|by apply (zi_ok az Hi z' n)].
  - intros z'. unfold zupd. case_decide; [subst z'|apply (zi_sorted az Hi)].
    pose proof (zi_sorted az Hi z) as Hs. rewrite HAB in Hs. rewrite Hins, sorted_app_mid.
    split_and!; [done| |]; rewrite !Forall_forall in *; unfold entry_above; simpl.
    + intros [n i] Hx. assert (Hin : (n, i) ∈ az z) by (rewrite HAB, elem_of_app; auto).
      specialize (HA _ Hx). pose proof (Hr _ _ _ Hin). pose proof (zi_ok az Hi _ _ _ Hin) as (? & ? & ? & ?).
      simpl in *. lia.
    + intros [n i] Hx. assert (Hin : (n, i) ∈ az z) by (rewrite HAB, elem_of_app; auto).
      pose proof (Hr _ _ _ Hin). pose proof (zi_ok az Hi _ _ _ Hin) as (? & ? & ? & ?).
      destruct B as [|[m j] B]; [by apply not_elem_of_nil in Hx|]. simpl in *.
      apply elem_of_cons in Hx as [[= -> ->]|Hx]; [lia|].
      apply sorted_app_mid in Hs as (_ & _ & HjB). rewrite Forall_forall in HjB.
      specialize (HjB _ Hx). unfold entry_above in HjB. simpl in HjB. lia.
  - intros z1 z2 [n1 i1] [n2 i2] Hz H1 H2. unfold entry_above. simpl.
    destruct (Hel _ _ H1) as [[-> [= -> ->]]|Hx1]; destruct (Hel _ _ H2) as [[-> [= -> ->]]|Hx2];
      [done| | |by apply (zi_cross az Hi z1 z2 _ _ Hz Hx1 Hx2)].
    + specialize (Hr _ _ _ Hx2). simpl. lia.
    + specialize (Hr _ _ _ Hx1). simpl. lia.
  - intros z' z'' n i [[-> [= -> ->]]|Hx]%Hel; [apply Hh|by apply (zi_heads az Hi z' z'' n)].
  - intros z' n i [[-> [= -> ->]]|Hx]%Hel; [apply Ht|by apply (zi_temp az Hi z' n)].
Qed.

Lemma zown_insert az z s e :
  zown az [] -> zown (zupd az z (zl_insert s e (az z))) [datainfo tempdetail].
Proof.
  intros Ho. destruct (zl_insert_split s e (az z)) as (A & B & HAB & Hins & _).
  intros z' n i Hin. rewrite elem_zupd, Hins, elem_mid, <- HAB in Hin.
  assert (Hold : n = datainfo tempdetail \/ (n, i) ∈ az z') by naive_solver.
  destruct Hold as [->|Hold]; [left; left|right].
  destruct (Ho _ _ _ Hold) as [Hx|(z2 & D & d & Hd & ?)]; [by apply not_elem_of_nil in Hx|].
  exists z2, D, d. split; [|done]. rewrite elem_zupd, Hins, elem_mid, <- HAB.
  destruct (decide (z2 = z)) as [->|]; auto.
Qed.
End Inv.
