(* ===== verification/MallocProof.v ===== *)
(** * The zone allocator: refinement

    The operations of [Malloc] refine those of [MallocInv].  The theorems on the
    code are in [MallocCorrect]. *)
From S2P Require Import Prelude E820 Hlist Machine StringOps Malloc MallocSpec MallocInv.

Section Refine.
Context {S : Type} `{Hlist S} `{Layout}.
Implicit Types (st : mstate (S := S)) (az : zstate).

(** The stack struct is apart from all list nodes. *)
Lemma temp_fresh az X n :
  zinv az -> zown az X -> tempdetail <= n -> n + 8 <= tempdetail + sizeof_allocdetail_s ->
  (forall x, x ∈ X -> n <> x /\ n <> x + 4 /\ n + 4 <> x) -> fresh_in n az.
Proof.
  unfold sizeof_allocdetail_s. intros Hi Ho Hn1 Hn2 HX. pose proof tempdetail_pos.
  split; [lia|]. split.
  - intros z. pose proof (zone_head_temp z). unfold sizeof_allocdetail_s in *. lia.
  - intros z m i Hin. destruct (Ho _ _ _ Hin) as [Hm|(z' & D & d & Hd & Hst & Hsz & Hm)]; [by apply HX|].
    destruct (zi_ok az Hi _ _ _ Hd) as (? & ? & ? & ?). pose proof (zi_temp az Hi _ _ _ Hd).
    unfold sizeof_allocdetail_s, detailinfo, datainfo in *. lia.
Qed.

(** [alloc_new] refines [az_new]. *)
Lemma alloc_new_refines st az z size align fill :
  zrep st az -> zinv az -> fresh_in fill az ->
  0 <= size -> pow2_align 32 align -> size + align <= 2 ^ 32 ->
  match az_new z size align fill az with
  | None => alloc_new z size align fill st = (0, st)
  | Some (v, az') => v <> 0 /\
    exists st', alloc_new z size align fill st = (v, st') /\
      zrep st' az' /\ same_rest st st' /\ ms_handle st' = ms_handle st
  end.
Proof.
  intros Hrep Hi Hf Hs Ha Hov. pose proof (zrep_alloc_new st az z size align fill Hrep Hf) as Hr.
  destruct (az_new z size align fill az) as [[v az']|] eqn:Hn.
  - pose proof Hn as Hn'. apply az_new_carved in Hn' as (A & n & i & B & Hc); [|done..].
    unfold az_new in Hn. destruct (zl_new _ _ _ _) as [[w l]|]; simplify_eq. split; [|done].
    destruct (zi_ok az Hi _ _ _ (carved_host _ _ _ _ _ _ _ _ _ _ _ Hc)) as (? & ? & ? & ?).
    pose proof (cv_low _ _ _ _ _ _ _ _ _ _ _ Hc). lia.
  - unfold az_new in Hn. by destruct (zl_new _ _ _ _) as [[w l]|].
Qed.

Lemma zrep_copy_detail st az temp D :
  zrep st az -> fresh_in D az -> fresh_in (datainfo D) az ->
  zrep (copy_detail temp D st) az.
Proof.
  intros Hrep H1 H2. unfold copy_detail. apply zrep_handle.
  apply zrep_info_out; [|intros z j; by apply fresh_not_in].
  apply zrep_info_out; [done|intros z j; by apply fresh_not_in].
Qed.

(** After the detail [D] is carved: copy the stack struct there and swap the
    list nodes. *)
Lemma commit_refines st az z1 z2 D d i :
  zrep st az -> zinv az -> zown az temps ->
  (detailinfo tempdetail, d) ∈ az z1 -> (datainfo tempdetail, i) ∈ az z2 ->
  range_start d = D -> alloc_size d = sizeof_allocdetail_s ->
  let st' := with_hl (h_replace (datainfo tempdetail) (datainfo D))
      (with_hl (h_replace (detailinfo tempdetail) (detailinfo D)) (copy_detail tempdetail D st)) in
  zrep st' (az_commit D az) /\ same_rest st st'.
Proof.
  intros Hrep Hi Ho Hd Hdata Hst Hsz st'. split; [|done].
  destruct (detail_range_fresh az z1 D d D Hi Ho Hd Hst Hsz) as (Hf1 & Hn1 & Hn2);
    [lia|unfold sizeof_allocdetail_s; lia|].
  destruct (detail_range_fresh az z1 D d (datainfo D) Hi Ho Hd Hst Hsz) as (Hf2 & _);
    [unfold datainfo; lia|unfold sizeof_allocdetail_s, datainfo; lia|].
  pose proof (zrep_info _ _ _ _ _ Hrep Hd) as Hid. pose proof (zrep_info _ _ _ _ _ Hrep Hdata) as Hii.
  unfold az_commit in *. unfold detailinfo, datainfo in *.
  eapply (zrep_rename _ _ z2 _ _ i).
  - apply (zrep_rename _ _ z1 _ _ d); [by apply zrep_copy_detail|done|done|].
    simpl. unfold detailinfo, datainfo. rewrite lookup_insert_ne, lookup_insert_eq by lia. by rewrite Hid.
  - apply zl_rename_elem. right. split; [lia|done].
  - apply fresh_in_rename; [done|lia..].
  - simpl. unfold detailinfo, datainfo. rewrite lookup_insert_eq. unfold info_at. simpl.
    rewrite lookup_insert_ne by congruence. f_equal. exact Hii.
Qed.

(** [alloc_new_detail] refines [az_detail] and [az_commit]. *)
Lemma detail_refines st az z i :
  zrep st az -> zinv az -> zown az [datainfo tempdetail] -> (datainfo tempdetail, i) ∈ az z ->
  match az_detail az with
  | None => alloc_new_detail tempdetail st = (0, st)
  | Some (D, az2) => D <> 0 /\
    exists st', alloc_new_detail tempdetail st = (D, st') /\
      zrep st' (az_commit D az2) /\ same_rest st st' /\
      zinv (az_commit D az2) /\ zown (az_commit D az2) []
  end.
Proof.
  intros Hrep Hi Ho Hdata.
  assert (Hf : fresh_in tempdetail az).
  { apply (temp_fresh az _ _ Hi Ho); [lia|unfold sizeof_allocdetail_s; lia|].
    intros x ->%list_elem_of_singleton. unfold datainfo. lia. }
  assert (Hal : pow2_align 32 MALLOC_MIN_ALIGN) by (exists 4; unfold MALLOC_MIN_ALIGN; lia).
  assert (Hnew : forall z', _) by exact (fun z' => alloc_new_refines st az z' sizeof_allocdetail_s
    MALLOC_MIN_ALIGN tempdetail Hrep Hi Hf ltac:(done) Hal ltac:(done)).
  assert (Hcode : match az_detail az with
    | None => alloc_new_detail tempdetail st = (0, st)
    | Some (D, az2) => D <> 0 /\ exists st1, zrep st1 az2 /\ same_rest st st1 /\
        alloc_new_detail tempdetail st = (D, with_hl (h_replace (datainfo tempdetail) (datainfo D))
          (with_hl (h_replace (detailinfo tempdetail) (detailinfo D)) (copy_detail tempdetail D st1)))
    end).
  { unfold az_detail, alloc_new_detail, detailinfo.
    pose proof (Hnew ZoneTmpHigh) as H1. pose proof (Hnew ZoneTmpLow) as H2.
    destruct (az_new ZoneTmpHigh _ _ _ az) as [[D az2]|].
    - destruct H1 as (HD & st1 & -> & ? & ? & ?). split; [done|]. exists st1.
      rewrite !(proj2 (Z.eqb_neq _ _) HD). done.
    - rewrite H1. simpl. destruct (az_new ZoneTmpLow _ _ _ az) as [[D az2]|].
      + destruct H2 as (HD & st1 & -> & ? & ? & ?). split; [done|]. exists st1.
        rewrite !(proj2 (Z.eqb_neq _ _) HD). done.
      + by rewrite H2. }
  destruct (az_detail az) as [[D az2]|] eqn:Hd; [|done].
  destruct Hcode as (HD & st1 & Hr1 & Hs1 & ->). split; [done|]. eexists. split; [done|].
  apply az_detail_carved in Hd as (z' & A & n & j & B & _ & Hc); [|done].
  pose proof (carved_new _ _ _ _ _ _ _ _ _ _ _ Hc) as Hin.
  assert (Hi2 : zinv az2) by (by eapply zinv_carved).
  assert (Ho2 : zown az2 temps) by (by eapply zown_carved in Ho).
  destruct (carved_keeps _ _ _ _ _ _ _ _ _ _ _ _ _ _ Hc Hdata) as (i2 & Hdata2 & _).
  destruct (commit_refines st1 az2 z' z D _ i2 Hr1 Hi2 Ho2 Hin Hdata2) as [? ?]; [done..|].
  split_and!; [done|by eapply same_rest_trans|by apply zinv_rename, zinv_rename|].
  by eapply zown_commit.
Qed.

Lemma elem_of_zone_split az z e : e ∈ az z -> exists A B, az z = A ++ e :: B.
Proof. apply list_elem_of_split. Qed.

Lemma alloc_free_refines st az z n i A B :
  zrep st az -> az z = A ++ (n, i) :: B ->
  freed az z n i A B /\ zrep (alloc_free n st) (az_free n z az) /\ same_rest st (alloc_free n st).
Proof.
  intros Hrep HA. assert (Hin : (n, i) ∈ az z) by (rewrite HA, elem_mid; auto).
  split; [split|split].
  - done.
  - intros z' m j Hm ->. by destruct (zrep_distinct _ _ _ _ _ _ _ Hrep Hm Hin).
  - intros m j. by eapply zrep_mid.
  - by eapply zrep_alloc_free.
  - apply alloc_free_rest.
Qed.

Lemma data_temp_fresh az : zinv az -> zown az [] -> fresh_in (datainfo tempdetail) az.
Proof.
  intros Hi Ho. unfold datainfo.
  apply (temp_fresh az _ _ Hi Ho); [lia|unfold sizeof_allocdetail_s; lia|].
  intros x Hx. by apply not_elem_of_nil in Hx.
Qed.

(** [malloc_palloc] refines [az_palloc]. *)
Lemma palloc_refines p z size align st az :
  zrep st az -> zinv az -> zown az [] ->
  0 <= size -> pow2_align 32 align -> size + align <= 2 ^ 32 ->
  z <> ZoneLow \/ CONFIG_MALLOC_UPPERMEMORY = true ->
  match az_palloc z size align az with
  | None => exists st', malloc_palloc p z size align st = (0, st') /\ zrep st' az /\ same_rest st st'
  | Some (v, D, az') => v <> 0 /\
    exists st', malloc_palloc p z size align st = (v, st') /\ zrep st' az' /\ same_rest st st' /\
      zinv az' /\ zown az' []
  end.
Proof.
  intros Hrep Hi Ho Hs Ha Hov Hz. unfold az_palloc, malloc_palloc.
  destruct (Z.eqb_spec size 0) as [|Hs0]; [by exists st|].
  set (st0 := with_handle _ _ st). assert (Hrep0 : zrep st0 az) by done.
  assert (Hrest0 : same_rest st st0) by done.
  pose proof (data_temp_fresh az Hi Ho) as Hf.
  pose proof (alloc_new_refines st0 az z size align _ Hrep0 Hi Hf Hs Ha Hov) as Hnew.
  assert (Hexp : forall d, negb CONFIG_MALLOC_UPPERMEMORY && (d =? 0) && bool_decide (z = ZoneLow) = false).
  { intros d. destruct Hz as [Hz | ->]; [|done]. rewrite bool_decide_eq_false_2 by done.
    apply andb_false_r. }
  destruct (az_new z size align _ az) as [[v az1]|] eqn:Hn.
  2: { rewrite Hnew, Hexp. simpl. by exists st0. }
  destruct Hnew as (Hv & st1 & -> & Hrep1 & Hrest1 & _). rewrite Hexp, (proj2 (Z.eqb_neq v 0) Hv).
  apply az_new_carved in Hn as (A & n & i & B & Hc); [|done..].
  pose proof (carved_new _ _ _ _ _ _ _ _ _ _ _ Hc) as Hin.
  assert (Hi1 : zinv az1) by (eapply zinv_carved; [done..|lia]).
  assert (Ho1 : zown az1 [datainfo tempdetail]) by (by eapply zown_carved in Ho).
  pose proof (detail_refines st1 az1 _ _ Hrep1 Hi1 Ho1 Hin) as Hd.
  destruct (az_detail az1) as [[D az2]|].
  - destruct Hd as (HD & st2 & -> & Hrep2 & Hrest2 & Hi2 & Ho2). split; [done|].
    rewrite (proj2 (Z.eqb_neq D 0) HD). exists st2. split_and!; auto.
    by eapply same_rest_trans, same_rest_trans.
  - rewrite Hd. simpl. eexists. split; [done|].
    destruct (elem_of_zone_split az1 z _ Hin) as (A' & B' & HA').
    destruct (alloc_free_refines st1 az1 z _ _ A' B' Hrep1 HA') as (_ & Hr & Hrest).
    split; [|by eapply same_rest_trans, same_rest_trans].
    eapply zrep_ext; [|exact Hr]. intros z'. symmetry. eapply carved_freed; [exact Hc|].
    intros (e & He & Hx)%list_elem_of_fmap. destruct e as [m j]. simpl in He. subst m.
    by apply (fresh_not_in _ _ z j Hf).
Qed.

(** ** [alloc_find] *)

Lemma find_node_zone st az z P A n i B :
  zrep st az -> az z = A ++ (n, i) :: B -> P n = true ->
  (forall m j, (m, j) ∈ A -> P m = false) -> find_node (zone_nodes st z) P = n.
Proof.
  intros Hrep HA Hn Hne. rewrite (zrep_nodes _ _ _ Hrep), HA. clear HA.
  induction A as [|[m j] A IH]; simpl; [by rewrite Hn|].
  rewrite (Hne m j) by left. apply IH. intros k l Hk. apply (Hne k l). by right.
Qed.

Lemma find_node_none nodes P : (forall m, m ∈ nodes -> P m = false) -> find_node nodes P = 0.
Proof.
  induction nodes as [|m nodes IH]; intros Hne; simpl; [done|].
  rewrite Hne by left. apply IH. intros k Hk. apply Hne. by right.
Qed.

Lemma find_node_some nodes P : find_node nodes P <> 0 ->
  find_node nodes P ∈ nodes /\ P (find_node nodes P) = true.
Proof.
  induction nodes as [|m nodes IH]; simpl; [done|]. destruct (P m) eqn:HP; [by split; [left|]|].
  intros Hx. destruct (IH Hx). split; [by right|done].
Qed.

Lemma search_zones_at st zs z P n :
  z ∈ zs -> find_node (zone_nodes st z) P = n -> n <> 0 ->
  (forall z', z' <> z -> find_node (zone_nodes st z') P = 0) -> search_zones zs P st = n.
Proof.
  intros Hin Hn Hnz Hne. induction zs as [|z' zs IH]; [by apply not_elem_of_nil in Hin|].
  simpl. destruct (decide (z' = z)) as [->|Hz].
  - rewrite Hn. by rewrite (proj2 (Z.eqb_neq n 0) Hnz).
  - rewrite (Hne z' Hz). simpl. apply IH. apply elem_of_cons in Hin as [->|?]; done.
Qed.

Lemma search_zones_some st zs P : search_zones zs P st <> 0 ->
  exists z, search_zones zs P st ∈ zone_nodes st z /\ P (search_zones zs P st) = true.
Proof.
  induction zs as [|z zs IH]; simpl; [done|].
  destruct (Z.eqb_spec (find_node (zone_nodes st z) P) 0) as [|Hn]; [done|].
  intros _. exists z. by apply find_node_some.
Qed.

Lemma elem_Zones z : z ∈ Zones.
Proof. unfold Zones. destruct z; repeat (first [left | right]). Qed.

(** The first entry that starts at an allocated range is that range. *)
Lemma alloc_find_allocated st az z n i :
  zrep st az -> zinv az -> (n, i) ∈ az z -> alloc_size i <> 0 ->
  alloc_find (range_start i) st = n.
Proof.
  intros Hrep Hi Hin Hsz. destruct (zi_ok az Hi _ _ _ Hin) as (? & ? & ? & ?).
  apply (search_zones_at _ _ z); [apply elem_Zones| |by eapply zrep_nonzero|].
  - pose proof Hin as (A & B & HA)%list_elem_of_split.
    eapply find_node_zone; [done|done| |].
    + rewrite (zrep_info _ _ _ _ _ Hrep Hin). apply Z.eqb_refl.
    + intros m j Hm. assert (Hmz : (m, j) ∈ az z) by (rewrite HA, elem_mid, elem_of_app; auto).
      rewrite (zrep_info _ _ _ _ _ Hrep Hmz). apply Z.eqb_neq.
      pose proof (zi_sorted az Hi z) as Hs. rewrite HA in Hs.
      apply sorted_app_mid in Hs as (_ & Hab & _). rewrite Forall_forall in Hab.
      specialize (Hab _ Hm). unfold entry_above in Hab. simpl in *. lia.
  - intros z' Hz. apply find_node_none. intros m Hm. rewrite (zrep_nodes _ _ _ Hrep) in Hm.
    apply list_elem_of_fmap in Hm as ([m' j] & -> & Hm). simpl.
    rewrite (zrep_info _ _ _ _ _ Hrep Hm). apply Z.eqb_neq.
    by apply (zi_cross az Hi z' z _ _ Hz Hm Hin).
Qed.

(** What [alloc_find] finds starts at [data]. *)
Lemma alloc_find_some st az data :
  zrep st az -> alloc_find data st <> 0 ->
  exists z i, (alloc_find data st, i) ∈ az z /\ info_at st (alloc_find data st) = i /\
    range_start i = data.
Proof.
  intros Hrep Hn. apply search_zones_some in Hn as (z & Hin & HP).
  fold (alloc_find data st) in Hin, HP. rewrite (zrep_nodes _ _ _ Hrep) in Hin.
  apply list_elem_of_fmap in Hin as ([m i] & Hm & Hin). simpl in Hm.
  exists z, i. rewrite Hm. rewrite Hm in HP. rewrite (zrep_info _ _ _ _ _ Hrep Hin) in *.
  apply Z.eqb_eq in HP. auto.
Qed.

(** ** Allocated ranges *)

Definition allocated az (z : zone) (s len : Z) : Prop :=
  exists n i, (n, i) ∈ az z /\ range_start i = s /\ alloc_size i = len /\ len <> 0.

Lemma allocated_carved az z size align fill v az' A n i B z' s len :
  carved az z size align fill v az' A n i B -> size <> 0 ->
  allocated az' z' s len <-> allocated az z' s len \/ (z' = z /\ s = v /\ len = size).
Proof.
  intros Hc Hs. split.
  - intros (m & j & Hin & <- & <- & Hne).
    destruct (carved_elem _ _ _ _ _ _ _ _ _ _ _ _ _ Hc Hin) as [[-> [= -> ->]]|[[-> [= -> ->]]|?]].
    + by right.
    + left. exists n, i. split; [by eapply carved_host|done].
    + left. by exists m, j.
  - intros [(m & j & Hin & <- & <- & Hne)|(-> & -> & ->)].
    + destruct (carved_keeps _ _ _ _ _ _ _ _ _ _ _ _ _ _ Hc Hin) as (k & Hk & ? & ?).
      exists m, k. split_and!; done || congruence.
    + eexists _, _. split; [by eapply carved_new|done].
Qed.

Lemma allocated_rename o n az z s len : allocated (az_rename o n az) z s len <-> allocated az z s len.
Proof.
  split; intros (m & i & Hin & ?).
  - apply zl_rename_elem in Hin as [[_ ?]|[_ ?]]; [by exists o, i|by exists m, i].
  - destruct (decide (m = o)) as [->|]; [exists n, i|exists m, i]; split; try done;
      apply zl_rename_elem; auto.
Qed.

Lemma allocated_freed az z n i A B z' s len :
  zinv az -> freed az z n i A B -> alloc_size i <> 0 ->
  allocated (az_free n z az) z' s len <->
  allocated az z' s len /\ ~ (z' = z /\ s = range_start i).
Proof.
  intros Hi Hf Hsz. split.
  - intros (m & k & Hin & <- & <- & Hne).
    destruct (freed_elem _ _ _ _ _ _ _ _ _ Hf Hin) as (Hm & j & Hj & Hst & Hal & _).
    split; [exists m, j; split_and!; congruence|]. intros [-> Hst'].
    pose proof (zi_ok az Hi _ _ _ Hj) as (? & ? & ? & ?).
    pose proof (freed_host _ _ _ _ _ _ Hf) as Hn. pose proof (zi_ok az Hi _ _ _ Hn) as (? & ? & ? & ?).
    destruct (zinv_disjoint az _ _ _ _ Hi Hj Hn) as [Hab|Hab];
      [congruence|unfold entry_above in Hab; simpl in *; lia..].
  - intros [(m & j & Hin & <- & <- & Hne) Hnot].
    destruct (decide (m = n)) as [->|Hm].
    + destruct Hnot. assert (z' = z) as -> by by eapply (fr_once _ _ _ _ _ _ Hf).
      split; [done|]. rewrite (fr_pre _ _ _ _ _ _ Hf), elem_mid in Hin.
      destruct Hin as [?|Hin]; [congruence|]. by destruct (fr_fresh _ _ _ _ _ _ Hf _ _ Hin).
    + destruct (freed_keeps _ _ _ _ _ _ _ _ _ Hf Hin Hm) as (k & Hk & ? & ?).
      exists m, k. split_and!; done || congruence.
Qed.

(** ** [malloc_pfree] *)

Lemma once_from_rep st az z n i j z' :
  zrep st az -> (n, i) ∈ az z -> (n, j) ∈ az z' -> z' = z /\ j = i.
Proof. intros Hrep H1 H2. by eapply zrep_distinct. Qed.

(** A node whose range does not start at itself is the [datainfo] of a live
    bookkeeping struct. *)
Lemma user_detail st az z n i :
  zrep st az -> zown az [] -> (n, i) ∈ az z -> range_start i <> n ->
  exists zd D d, n = datainfo D /\ (D, d) ∈ az zd /\ range_start d = D /\
    alloc_size d = sizeof_allocdetail_s.
Proof.
  intros Hrep Ho Hin Hne.
  destruct (Ho _ _ _ Hin) as [Hx|(zd & D & d & Hd & Hst & Hsz & [-> | ->])];
    [by apply not_elem_of_nil in Hx| |by exists zd, D, d].
  destruct (once_from_rep _ _ _ _ _ _ _ Hrep Hin Hd) as [_ ->]. done.
Qed.

Lemma pfree_refines st az z n i zd D d :
  zrep st az -> zinv az -> zown az [] ->
  (n, i) ∈ az z -> alloc_size i <> 0 -> range_start i <> n ->
  n = datainfo D -> (D, d) ∈ az zd -> range_start d = D -> alloc_size d = sizeof_allocdetail_s ->
  exists st' A B A' B' d',
    malloc_pfree (range_start i) st = (0, st') /\ same_rest st st' /\
    freed az z n i A B /\ freed (az_free n z az) zd D d' A' B' /\
    range_start d' = D /\ alloc_size d' = sizeof_allocdetail_s /\
    zrep st' (az_free D zd (az_free n z az)) /\ zinv (az_free D zd (az_free n z az)) /\
    zown (az_free D zd (az_free n z az)) [].
Proof.
  intros Hrep Hi Ho Hin Hsz Hne Hn Hd Hdst Hdsz.
  destruct (elem_of_zone_split az z _ Hin) as (A & B & HA).
  destruct (alloc_free_refines st az z n i A B Hrep HA) as (Hf1 & Hrep1 & Hrest1).
  assert (Hi1 : zinv (az_free n z az)) by by eapply zinv_freed.
  assert (Ho1 : zown (az_free n z az) []) by (eapply zown_freed; [done|done|congruence]).
  destruct (freed_keeps _ _ _ _ _ _ _ _ _ Hf1 Hd) as (d' & Hd' & Hst' & Hsz');
    [rewrite Hn; unfold datainfo; lia|].
  destruct (elem_of_zone_split _ zd _ Hd') as (A' & B' & HA').
  destruct (alloc_free_refines _ _ zd D d' A' B' Hrep1 HA') as (Hf2 & Hrep2 & Hrest2).
  exists (alloc_free D (alloc_free n st)), A, B, A', B', d'. split_and!; auto; try congruence.
  - unfold malloc_pfree. rewrite (alloc_find_allocated st az z n i) by done.
    rewrite (zrep_info _ _ _ _ _ Hrep Hin).
    rewrite (proj2 (Z.eqb_neq n 0) (zrep_nonzero _ _ _ _ _ Hrep Hin)).
    rewrite (proj2 (Z.eqb_neq _ n)), (proj2 (Z.eqb_neq (alloc_size i) 0)) by done. simpl.
    unfold detailinfo, detail_of_datainfo. by replace (n - 20) with D by (rewrite Hn; unfold datainfo; lia).
  - by eapply same_rest_trans.
  - by eapply zinv_freed.
  - eapply zown_freed; [done|done|]. intros _ _ z' j Hj. rewrite <- Hn in Hj.
    by destruct (freed_elem _ _ _ _ _ _ _ _ _ Hf1 Hj).
Qed.

(** ** [malloc_pfree] undoes [malloc_palloc] *)

Lemma zl_free_sublist n l : sublist (zl_free n l).*1 l.*1.
Proof.
  induction l as [|[m i] l IH]; simpl; [done|]. case_decide.
  - destruct l as [|[k j] l]; simpl; [by apply sublist_nil_l|].
    case_match; simpl; by apply sublist_cons.
  - simpl. by apply sublist_skip.
Qed.

Lemma nodup_free n l : NoDup l.*1 -> NoDup (zl_free n l).*1.
Proof. intros Hnd. eapply sublist_NoDup; [done|apply zl_free_sublist]. Qed.

Lemma nodup_rename o n l : n ∉ l.*1 -> NoDup l.*1 -> NoDup (zl_rename o n l).*1.
Proof.
  intros Hn. induction l as [|[m i] l IH]; simpl in *; [done|].
  apply not_elem_of_cons in Hn as [Hnm Hn]. intros [Hm Hnd]%NoDup_cons.
  apply NoDup_cons. split; [|by apply IH]. intros ([k j] & Hk & Hin)%list_elem_of_fmap.
  simpl in Hk. apply zl_rename_elem in Hin as [[-> Hin]|[Hne Hin]];
    apply (list_elem_of_fmap_2 fst) in Hin; simpl in Hin; case_decide; simpl in Hk; subst; done.
Qed.

Lemma nodup_carved az z size align fill v az' A n i B :
  carved az z size align fill v az' A n i B -> (forall z', NoDup (az z').*1) ->
  fill ∉ (az z).*1 -> forall z', NoDup (az' z').*1.
Proof.
  intros [HA -> _ _ _] Hnd Hf z'. unfold zupd. case_decide; [|done].
  specialize (Hnd z). rewrite HA, fmap_app in *. simpl in *.
  rewrite <- Permutation_middle. apply NoDup_cons. done.
Qed.

Lemma az_free_rename o n z az :
  (forall z', n ∉ (az z').*1) -> NoDup (az z).*1 -> (forall z', z' <> z -> o ∉ (az z').*1) ->
  forall z', az_free n z (az_rename o n az) z' = az_free o z az z'.
Proof.
  intros Hn Hnd Ho z'. unfold az_free, az_rename, zupd. case_decide; [by apply zl_free_rename|].
  assert (Hid : forall l, o ∉ l.*1 -> zl_rename o n l = l).
  { clear. induction l as [|[m i] l IH]; simpl; [done|]. intros [? ?]%not_elem_of_cons.
    rewrite decide_False by done. by rewrite IH. }
  apply Hid. by apply Ho.
Qed.

Lemma az_free_rename_other m o n z az :
  m <> o -> m <> n -> forall z', az_free m z (az_rename o n az) z' = az_rename o n (az_free m z az) z'.
Proof.
  intros Ho Hn z'. unfold az_free, az_rename, zupd. case_decide; [by apply zl_free_rename_other|done].
Qed.

Lemma az_free_ext n z az az' :
  (forall z', az z' = az' z') -> forall z', az_free n z az z' = az_free n z az' z'.
Proof. intros He z'. unfold az_free, zupd. by rewrite !He. Qed.

Lemma carved_twice az z size align f v az1 A n i B zd size' align' g w az2 A' n' i' B' :
  carved az z size align f v az1 A n i B -> carved az1 zd size' align' g w az2 A' n' i' B' ->
  (forall z', NoDup (az1 z').*1) -> (forall z', g ∉ (az1 z').*1) ->
  forall z', az_free g zd (az_free f z az2) z' = az z'.
Proof.
  intros [HA -> _ _ _] [HA' -> _ _ _] Hnd Hg z'.
  specialize (Hnd z). specialize (Hg z) as Hgz. specialize (Hg zd) as Hgd.
  rewrite zupd_eq, fmap_app in Hnd, Hgz. unfold az_free. destruct (decide (z = zd)) as [->|Hz].
  - rewrite !zupd_eq in *. unfold zupd. case_decide; [subst|done]. rewrite HA.
    eapply zl_free_swap; [done|]. by apply NoDup_cons.
  - rewrite zupd_ne in HA', Hgd by congruence. rewrite HA', fmap_app, elem_of_app in Hgd.
    unfold zupd. repeat (case_decide; try congruence); subst.
    + rewrite HA'. apply zl_free_new. tauto.
    + rewrite zl_free_new, HA; [done|].
      apply NoDup_app in Hnd as (_ & Hnd & _). intros Hf. apply (Hnd f Hf). left.
Qed.

Lemma not_in_fst (n : Z) (l : list entry) : (forall j, (n, j) ∉ l) -> n ∉ l.*1.
Proof. intros Hn ([m j] & -> & Hin)%list_elem_of_fmap. by apply (Hn j). Qed.

(** The two carvings behind a successful [az_palloc]. *)
Record palloced az (z : zone) (size align v D : Z) (az' : zstate) : Prop := Palloced {
  pa_size : 0 < size;
  pa_steps : exists az1 A n i B az2 zd A' n' i' B',
    carved az z size align (datainfo tempdetail) v az1 A n i B /\
    carved az1 zd sizeof_allocdetail_s MALLOC_MIN_ALIGN tempdetail D az2 A' n' i' B' /\
    (zd = ZoneTmpHigh \/ zd = ZoneTmpLow) /\ az' = az_commit D az2 /\
    zinv az1 /\ zinv az2 /\ zown az1 [datainfo tempdetail] /\ zown az2 temps }.

Lemma az_palloc_inv z size align az v D az' :
  zinv az -> zown az [] -> 0 <= size -> pow2_align 32 align -> size + align <= 2 ^ 32 ->
  az_palloc z size align az = Some (v, D, az') -> palloced az z size align v D az'.
Proof.
  intros Hi Ho Hs Ha Hov. unfold az_palloc. destruct (Z.eqb_spec size 0) as [|Hs0]; [done|].
  destruct (az_new z size align _ az) as [[w az1]|] eqn:Hn; [|done].
  destruct (az_detail az1) as [[E az2]|] eqn:Hd; [|done]. intros [= -> -> <-].
  split; [lia|]. apply az_new_carved in Hn as (A & n & i & B & Hc); [|done..].
  assert (Hi1 : zinv az1) by (eapply zinv_carved; [done..|lia]).
  assert (Ho1 : zown az1 [datainfo tempdetail]) by (by eapply zown_carved in Ho).
  apply az_detail_carved in Hd as (zd & A' & n' & i' & B' & Hzd & Hc2); [|done].
  exists az1, A, n, i, B, az2, zd, A', n', i', B'. split_and!; auto.
  - by eapply zinv_carved.
  - by eapply zown_carved in Ho1.
Qed.

Lemma detail_temp_fresh az : zinv az -> zown az [datainfo tempdetail] -> fresh_in tempdetail az.
Proof.
  intros Hi Ho. apply (temp_fresh az _ _ Hi Ho); [lia|unfold sizeof_allocdetail_s; lia|].
  intros x ->%list_elem_of_singleton. unfold datainfo. lia.
Qed.

(** The nodes of the state after the two carvings. *)
Lemma palloced_undo az z size align v D az1 A n i B az2 zd A' n' i' B' :
  (forall z', NoDup (az z').*1) -> zown az [] -> zinv az -> zinv az1 -> zinv az2 ->
  zown az1 [datainfo tempdetail] -> zown az2 temps ->
  carved az z size align (datainfo tempdetail) v az1 A n i B ->
  carved az1 zd sizeof_allocdetail_s MALLOC_MIN_ALIGN tempdetail D az2 A' n' i' B' ->
  forall z', az_free D zd (az_free (datainfo D) z (az_commit D az2)) z' = az z'.
Proof.
  intros Hnd Ho Hi Hi1 Hi2 Ho1 Ho2 Hc1 Hc2 z'.
  pose proof (data_temp_fresh az Hi Ho) as Hft. pose proof (detail_temp_fresh az1 Hi1 Ho1) as Hfd.
  assert (Hnd1 : forall z, NoDup (az1 z).*1).
  { eapply nodup_carved; [done|done|]. apply not_in_fst. intros j. by apply fresh_not_in. }
  assert (HT1 : forall z, tempdetail ∉ (az1 z).*1).
  { intros y. apply not_in_fst. intros j. by apply fresh_not_in. }
  assert (Hnd2 : forall z, NoDup (az2 z).*1) by (by eapply nodup_carved).
  pose proof (carved_new _ _ _ _ _ _ _ _ _ _ _ Hc2) as Hin.
  destruct (detail_range_fresh az2 zd D _ D Hi2 Ho2 Hin) as (HfD & HD1 & HD2);
    [done|done|lia|unfold sizeof_allocdetail_s; lia|].
  destruct (detail_range_fresh az2 zd D _ (datainfo D) Hi2 Ho2 Hin) as (HfE & _);
    [done|done|unfold datainfo; lia|unfold sizeof_allocdetail_s, datainfo; lia|].
  assert (HD : forall y, D ∉ (az2 y).*1).
  { intros y. apply not_in_fst. intros j. by apply fresh_not_in. }
  unfold detailinfo, datainfo in *.
  assert (Ht2 : forall y, y <> z -> tempdetail + 20 ∉ (az2 y).*1).
  { intros y Hy. apply not_in_fst. intros j Hj.
    destruct (carved_elem _ _ _ _ _ _ _ _ _ _ _ _ _ Hc2 Hj) as [[-> [= ? ?]]|[[-> [= <- ->]]|Hj1]];
      [lia|apply carved_host in Hc2 as Hj1|];
      (destruct (carved_elem _ _ _ _ _ _ _ _ _ _ _ _ _ Hc1 Hj1) as [[? _]|[[? _]|Hj2]]; [done..|];
       by apply (fresh_not_in _ _ _ _ Hft) in Hj2). }
  assert (Hd2 : forall y, y <> zd -> tempdetail ∉ (az2 y).*1).
  { intros y Hy. apply not_in_fst. intros j Hj.
    destruct (carved_elem _ _ _ _ _ _ _ _ _ _ _ _ _ Hc2 Hj) as [[? _]|[[? _]|Hj1]]; [done..|].
    by apply (fresh_not_in _ _ _ _ Hfd) in Hj1. }
  transitivity (az_free D zd (az_rename tempdetail D (az_free (tempdetail + 20) z az2)) z').
  - apply az_free_ext. clear z'. intros z'. unfold az_commit, detailinfo, datainfo.
    rewrite az_free_rename; [apply az_free_rename_other; lia| | |].
    + intros y. apply not_in_fst. intros j [[? _]|[_ Hj]]%zl_rename_elem; [lia|].
      by apply (fresh_not_in _ _ _ _ HfE) in Hj.
    + by apply nodup_rename.
    + intros y Hy. apply not_in_fst. intros j [[? _]|[_ Hj]]%zl_rename_elem; [lia|].
      apply (Ht2 y Hy). by apply (list_elem_of_fmap_2 fst _ _ Hj).
  - rewrite az_free_rename; [by eapply (carved_twice az z)| | |].
    + intros y Hy. apply (HD y). unfold az_free, zupd in Hy. case_decide; [|done]. subst.
      eapply elem_of_submseteq; [exact Hy|]. apply sublist_submseteq, zl_free_sublist.
    + unfold az_free, zupd. case_decide; [apply nodup_free|]; apply Hnd2.
    + intros y Hy Hin'. apply (Hd2 y Hy). unfold az_free, zupd in Hin'. case_decide; [|done]. subst.
      eapply elem_of_submseteq; [exact Hin'|]. apply sublist_submseteq, zl_free_sublist.
Qed.

(** ** [alloc_add] *)

Definition malloc_inv st az : Prop := zrep st az /\ zinv az /\ zown az [].

Lemma add_position_spec st az s l1 l2 :
  (forall n i, (n, i) ∈ l1 ++ l2 -> info_at st n = i) ->
  Forall (fun x => s <= range_start (snd x)) l1 ->
  match l2 with [] => True | x :: _ => range_start (snd x) < s end ->
  add_position (l1 ++ l2).*1 s st = l1.*1.
Proof.
  intros Hinfo Hl1 Hl2. induction Hl1 as [|[n i] l1 Hn Hl1 IH]; simpl in *.
  - destruct l2 as [|[n i] l2]; simpl in *; [done|].
    rewrite (Hinfo n i) by left. by rewrite (proj2 (Z.ltb_lt _ _)).
  - rewrite (Hinfo n i) by left. rewrite (proj2 (Z.ltb_ge _ _)) by done.
    f_equal. apply IH. intros m j Hm. apply Hinfo. by right.
Qed.

Lemma zrep_insert st az z s e d h :
  zrep st az -> fresh_in (datainfo tempdetail) az ->
  zrep (with_hl (h_add (datainfo tempdetail) (pprev_at (zone_head z) (add_position (zone_nodes st z) s st)))
         (with_info (datainfo tempdetail) (Allocinfo s e 0) (with_handle d h st)))
    (zupd az z (zl_insert s e (az z))).
Proof.
  intros Hrep Hf. destruct (zl_insert_split s e (az z)) as (A & B & HAB & Hins & HA & HB).
  rewrite (zrep_nodes _ _ _ Hrep), HAB, (add_position_spec st az s A B); [|intros n i Hx|done|done].
  2: { rewrite <- HAB in Hx. by eapply zrep_info. }
  rewrite HAB in Hins. rewrite Hins. eapply zrep_step; [exact Hrep| |done|done|].
  - intros L HL Hz Hh. rewrite fmap_app. simpl.
    apply h_add_spec; [done| |by eapply fresh_in_node]. by rewrite Hz, HAB, fmap_app.
  - intros z' n i Hin. simpl. rewrite elem_zupd, elem_mid, <- HAB in Hin.
    destruct (decide ((n, i) = (datainfo tempdetail, Allocinfo s e 0))) as [[= -> ->]|Hne];
      [by rewrite lookup_insert_eq|].
    assert (Hold : (n, i) ∈ az z') by naive_solver.
    rewrite lookup_insert_ne; [by eapply zrep_lookup|]. intros <-.
    by apply (fresh_not_in _ _ z' i) in Hf.
Qed.

Lemma alloc_add_refines st az z s e :
  malloc_inv st az -> apart az s e ->
  malloc_inv (alloc_add z s e st) (az_add z s e az) /\ same_rest st (alloc_add z s e st).
Proof.
  intros (Hrep & Hi & Ho) Hap. unfold alloc_add, az_add.
  pose proof (data_temp_fresh az Hi Ho) as Hf.
  pose proof (zrep_insert st az z s e tempdetail MALLOC_DEFAULT_HANDLE Hrep Hf) as Hrep1.
  set (st1 := with_hl _ (with_info _ _ _)) in *.
  assert (Hrest1 : same_rest st st1) by done. clearbody st1.
  pose proof (zinv_insert az z s e Hi Hap) as Hi1. pose proof (zown_insert az z s e Ho) as Ho1.
  assert (Hin : (datainfo tempdetail, Allocinfo s e 0) ∈ zupd az z (zl_insert s e (az z)) z).
  { rewrite zupd_eq. destruct (zl_insert_split s e (az z)) as (A & B & _ & -> & _).
    rewrite elem_mid. auto. }
  pose proof (detail_refines st1 _ z _ Hrep1 Hi1 Ho1 Hin) as Hd.
  destruct (az_detail _) as [[D az2]|].
  - destruct Hd as (HD & st2 & -> & Hrep2 & Hrest2 & Hi2 & Ho2).
    rewrite (proj2 (Z.eqb_neq D 0) HD). split; [done|by eapply same_rest_trans].
  - rewrite Hd. simpl. split; [|done]. split; [|done].
    destruct (zl_insert_split s e (az z)) as (A & B & HAB & Hins & _).
    apply (zrep_ext _ (zupd (zupd az z (zl_insert s e (az z))) z (A ++ B))).
    { intros z'. unfold zupd. repeat case_decide; subst; congruence. }
    eapply zrep_del; [exact Hrep1|by rewrite zupd_eq|done| |done|done].
    intros z' m j Hm. simpl. eapply zrep_lookup; [exact Hrep1|]. 
    destruct (decide (z' = z)) as [->|]; [rewrite zupd_eq in *|rewrite zupd_ne in Hm by done; done].
    rewrite Hins, elem_mid. auto.
Qed.
End Refine.
