(* ===== verification/MallocCorrect.v ===== *)
(** * The zone allocator: the theorems

    [malloc_inv st az] says that the pointers and fields of [st] represent the
    zone lists [az], that their ranges are disjoint, and that every list node lies
    in the bookkeeping struct of a live allocation. *)
From S2P Require Import Prelude E820 Hlist Machine StringOps Malloc MallocSpec MallocInv MallocProof.

Section Theorems.
Context {S : Type} `{Hlist S} `{Layout}.
Implicit Types (st : mstate (S := S)) (az : zstate).

(** Room for [size] bytes at [v] in the unallocated tail of a range. *)
Definition room az (z : zone) (size align v : Z) : Prop :=
  exists n i, (n, i) ∈ az z /\ (align | v) /\
    range_start i + alloc_size i <= v /\ v + size <= range_end i.

Lemma room_apart az z size align v z' s len :
  zinv az -> room az z size align v -> 0 < size -> allocated az z' s len ->
  v + size <= s \/ s + len <= v.
Proof.
  intros Hi (n & i & Hn & _ & Hlo & Hhi) Hs (m & j & Hm & <- & <- & Hne).
  pose proof (zi_ok az Hi _ _ _ Hn) as (? & ? & ? & ?). pose proof (zi_ok az Hi _ _ _ Hm) as (? & ? & ? & ?).
  destruct (decide ((m, j) = (n, i))) as [[= -> ->]|Hd]; [lia|].
  destruct (zinv_disjoint az _ _ _ _ Hi Hm Hn Hd) as [Hab|Hab]; unfold entry_above in Hab; simpl in *; lia.
Qed.

Lemma palloced_allocated az z size align v D az' :
  palloced az z size align v D az' ->
  exists zd, (zd = ZoneTmpHigh \/ zd = ZoneTmpLow) /\ forall z' s len,
    allocated az' z' s len <-> allocated az z' s len \/ (z' = z /\ s = v /\ len = size) \/
      (z' = zd /\ s = D /\ len = sizeof_allocdetail_s).
Proof.
  intros [Hs (az1 & A & n & i & B & az2 & zd & A' & n' & i' & B' & Hc1 & Hc2 & Hzd & -> & _)].
  exists zd. split; [done|]. intros z' s len. unfold az_commit. rewrite !allocated_rename.
  rewrite (allocated_carved _ _ _ _ _ _ _ _ _ _ _ _ _ _ Hc2) by done.
  rewrite (allocated_carved _ _ _ _ _ _ _ _ _ _ _ _ _ _ Hc1) by lia. tauto.
Qed.

(** The outcomes of [malloc_palloc]. *)
Lemma palloc_cases p z size align st az :
  malloc_inv st az -> 0 <= size -> pow2_align 32 align -> size + align <= 2 ^ 32 ->
  z <> ZoneLow \/ CONFIG_MALLOC_UPPERMEMORY = true ->
  exists r st', malloc_palloc p z size align st = (r, st') /\ same_rest st st' /\
    ((r = 0 /\ malloc_inv st' az) \/
     (r <> 0 /\ exists D az', palloced az z size align r D az' /\ malloc_inv st' az')).
Proof.
  intros (Hrep & Hi & Ho) Hs Ha Hov Hz.
  pose proof (palloc_refines p z size align st az Hrep Hi Ho Hs Ha Hov Hz) as Hr.
  destruct (az_palloc z size align az) as [[[v D] az']|] eqn:Hp.
  - destruct Hr as (Hv & st' & -> & Hrep' & Hrest & Hi' & Ho'). exists v, st'.
    split_and!; [done|done|right]. split; [done|]. exists D, az'.
    split; [by apply az_palloc_inv in Hp|done].
  - destruct Hr as (st' & -> & Hrep' & Hrest). exists 0, st'. split_and!; [done|done|by left].
Qed.

Lemma palloced_room az z size align v D az' :
  palloced az z size align v D az' -> room az z size align v.
Proof.
  intros [_ (az1 & A & n & i & B & _ & _ & _ & _ & _ & _ & Hc & _)].
  exists n, i. split; [by eapply carved_host|]. by destruct Hc.
Qed.

(** C6: [malloc_palloc], for a size and a power-of-two alignment that together do
    not pass 2^32, in a zone that does not grow on demand (any but ZoneLow, and
    ZoneLow too with CONFIG_MALLOC_UPPERMEMORY, the usual configuration), keeps the
    allocator's invariant, and either fails and leaves every zone as it was, or
    returns a block of the requested size that is aligned, lies in a range of the
    zone, touches no allocated range, and is now allocated together with its
    bookkeeping struct, all else staying allocated. *)
Theorem malloc_palloc_correct p z size align st az :
  malloc_inv st az -> 0 <= size -> pow2_align 32 align -> size + align <= 2 ^ 32 ->
  z <> ZoneLow \/ CONFIG_MALLOC_UPPERMEMORY = true ->
  let '(r, st') := malloc_palloc p z size align st in
  same_rest st st' /\
  ((r = 0 /\ malloc_inv st' az) \/
   (r <> 0 /\ 0 < size /\ room az z size align r /\
    (forall z' s len, allocated az z' s len -> r + size <= s \/ s + len <= r) /\
    exists az' D zd, malloc_inv st' az' /\ (zd = ZoneTmpHigh \/ zd = ZoneTmpLow) /\
      forall z' s len, allocated az' z' s len <->
        allocated az z' s len \/ (z' = z /\ s = r /\ len = size) \/
        (z' = zd /\ s = D /\ len = sizeof_allocdetail_s))).
Proof.
  intros Hinv Hs Ha Hov Hz.
  destruct (palloc_cases p z size align st az Hinv Hs Ha Hov Hz) as (r & st' & -> & Hrest & Hc).
  split; [done|]. destruct Hc as [?|(Hr & D & az' & Hp & Hinv')]; [by left|right].
  pose proof (palloced_room _ _ _ _ _ _ _ Hp) as Hroom. pose proof (pa_size _ _ _ _ _ _ _ Hp) as Hsz.
  split_and!; [done..| |].
  - intros z' s len. eapply room_apart; [by destruct Hinv as (_ & ? & _)|done|done].
  - destruct (palloced_allocated _ _ _ _ _ _ _ Hp) as (zd & Hzd & Hal). by exists az', D, zd.
Qed.

(** [malloc_palloc] fails only for a request of no bytes, for lack of aligned
    room in its zone, or for lack of room for the bookkeeping struct. *)
Theorem malloc_palloc_complete p z size align st az :
  malloc_inv st az -> 0 < size -> pow2_align 32 align -> size + align <= 2 ^ 32 ->
  z <> ZoneLow \/ CONFIG_MALLOC_UPPERMEMORY = true ->
  (exists v, room az z size align v) ->
  (exists v zd, zd <> z /\ (zd = ZoneTmpHigh \/ zd = ZoneTmpLow) /\
     room az zd sizeof_allocdetail_s MALLOC_MIN_ALIGN v) ->
  fst (malloc_palloc p z size align st) <> 0.
Proof.
  intros (Hrep & Hi & Ho) Hs Ha Hov Hz (v & n & i & Hin & Hva & Hv1 & Hv2)
    (w & zd & Hzd & Htmp & n' & i' & Hin' & Hwa & Hw1 & Hw2).
  pose proof (palloc_refines p z size align st az Hrep Hi Ho ltac:(lia) Ha Hov Hz) as Hr.
  assert (Hal : pow2_align 32 MALLOC_MIN_ALIGN) by (exists 4; unfold MALLOC_MIN_ALIGN; lia).
  unfold az_palloc in Hr. rewrite (proj2 (Z.eqb_neq size 0)) in Hr by lia. unfold az_new in Hr.
  destruct (zl_new size align _ (az z)) as [[u l]|] eqn:Hn.
  2: { destruct (zl_new_none size align _ ltac:(lia) Ha (az z) (zinv_forall az z Hi) Hn n i v); auto. }
  assert (Hd : az_detail (zupd az z l) <> None).
  { unfold az_detail, az_new. assert (Hne : zupd az z l zd = az zd) by by apply zupd_ne.
    assert (H44 : 0 <= sizeof_allocdetail_s) by done.
    pose proof (fun Hx => zl_new_none sizeof_allocdetail_s MALLOC_MIN_ALIGN tempdetail H44 Hal
      (az zd) (zinv_forall az zd Hi) Hx n' i' w Hin' Hwa Hw1 Hw2) as Hx.
    destruct Htmp as [-> | ->]; rewrite Hne in *; repeat case_match; try done; by apply Hx. }
  destruct (az_detail _) as [[D az2]|]; [|done]. destruct Hr as (Hv & st' & -> & _). done.
Qed.

(** [malloc_pfree] of an allocated block succeeds, keeps the invariant and
    frees exactly the block and its bookkeeping struct; it fails, and then
    changes nothing, only when no block other than a bookkeeping struct starts
    at the address. *)
Theorem malloc_pfree_correct st az data :
  malloc_inv st az ->
  let '(r, st') := malloc_pfree data st in
  (r = 0 /\ same_rest st st' /\ exists az' z len zd D,
     malloc_inv st' az' /\ allocated az z data len /\ allocated az zd D sizeof_allocdetail_s /\
     forall z' s l, allocated az' z' s l <->
       allocated az z' s l /\ ~ (z' = z /\ s = data) /\ ~ (z' = zd /\ s = D)) \/
  (r = -1 /\ st' = st /\
     forall z n i, (n, i) ∈ az z -> range_start i = data -> alloc_size i = 0 \/ n = data).
Proof.
  intros (Hrep & Hi & Ho). destruct (Z.eq_dec (alloc_find data st) 0) as [H0f|Hn0].
  - unfold malloc_pfree. rewrite H0f. simpl. right. split_and!; [done|done|].
    intros z n i Hin <-. destruct (Z.eq_dec (alloc_size i) 0) as [|Hsz]; [by left|].
    rewrite (alloc_find_allocated st az z n i) in H0f by done.
    by apply (zrep_nonzero _ _ _ _ _ Hrep Hin) in H0f.
  - destruct (alloc_find_some st az data Hrep Hn0) as (z & i & Hin & Hinfo & Hst).
    set (n := alloc_find data st) in *.
    destruct (Z.eq_dec (alloc_size i) 0) as [Hsz|Hsz]; [|destruct (Z.eq_dec data n) as [Hd|Hd]].
    + unfold malloc_pfree. fold n. rewrite Hinfo, Hsz, Z.eqb_refl, !orb_true_r. right.
      split_and!; [done|done|]. intros z' m j Hm Hj. left.
      destruct (Z.eq_dec (alloc_size j) 0) as [|Hszj]; [done|]. exfalso.
      assert (n = m) as Hnm by (unfold n; rewrite <- Hj; by apply (alloc_find_allocated st az z')).
      rewrite Hnm in Hin. destruct (once_from_rep _ _ _ _ _ _ _ Hrep Hin Hm) as [_ ->]. done.
    + unfold malloc_pfree. fold n. rewrite <- Hd, Z.eqb_refl, orb_true_r. right.
      split_and!; [done|done|]. intros z' m j Hm Hj.
      destruct (Z.eq_dec (alloc_size j) 0) as [|Hszj]; [by left|right].
      rewrite Hd. unfold n. rewrite <- Hj. symmetry. by apply (alloc_find_allocated st az z').
    + destruct (user_detail st az z n i Hrep Ho Hin ltac:(congruence)) as (zd & D & d & Hn & HD & Hds & Hdz).
      destruct (pfree_refines st az z n i zd D d) as
        (st' & A & B & A' & B' & d' & Heq & Hrest & Hf1 & Hf2 & Hd1 & Hd2 & Hrep' & Hi' & Ho');
        try done; [congruence|].
      rewrite Hst in Heq. rewrite Heq. left. split_and!; [done|done|].
      exists (az_free D zd (az_free n z az)), z, (alloc_size i), zd, D.
      split_and!; [done|by exists n, i|by exists D, d|]. intros z' s l.
      rewrite (allocated_freed _ _ _ _ _ _ _ _ _ (zinv_freed _ _ _ _ _ _ Hi Hf1) Hf2)
        by (rewrite Hd2; done).
      rewrite (allocated_freed _ _ _ _ _ _ _ _ _ Hi Hf1) by done. rewrite Hst, Hd1. tauto.
Qed.

(** C24: freeing the block [malloc_palloc] has just returned, for a size and an
    alignment that together do not pass 2^32 and a zone that does not grow on demand
    (any but ZoneLow, and ZoneLow too with CONFIG_MALLOC_UPPERMEMORY), succeeds and
    restores every zone exactly: all ranges are merged back, wherever the
    bookkeeping struct was carved from. *)
Theorem malloc_palloc_pfree p z size align st az :
  malloc_inv st az -> 0 <= size -> pow2_align 32 align -> size + align <= 2 ^ 32 ->
  z <> ZoneLow \/ CONFIG_MALLOC_UPPERMEMORY = true ->
  fst (malloc_palloc p z size align st) <> 0 ->
  exists st', malloc_pfree (fst (malloc_palloc p z size align st))
                (snd (malloc_palloc p z size align st)) = (0, st') /\
    malloc_inv st' az /\ same_rest st st'.
Proof.
  intros (Hrep & Hi & Ho) Hs Ha Hov Hz.
  pose proof (palloc_refines p z size align st az Hrep Hi Ho Hs Ha Hov Hz) as Hr.
  destruct (az_palloc z size align az) as [[[v D] az']|] eqn:Hp;
    [|by destruct Hr as (st' & -> & _)].
  destruct Hr as (Hv & st1 & -> & Hrep1 & Hrest1 & Hi1 & Ho1). simpl. intros _.
  apply az_palloc_inv in Hp as [Hsz (az1 & A & n & i & B & az2 & zd & A' & n' & i' & B' & Hc1 & Hc2 & Hzd
    & Haz' & Hia & Hib & Hoa & Hob)]; [|done..].
  pose proof (carved_new _ _ _ _ _ _ _ _ _ _ _ Hc2) as Hd.
  destruct (detail_range_fresh az2 zd D _ D Hib Hob Hd) as (_ & Hn1 & Hn2);
    [done|done|lia|unfold sizeof_allocdetail_s; lia|].
  destruct (carved_keeps _ _ _ _ _ _ _ _ _ _ _ _ _ _ Hc2 (carved_new _ _ _ _ _ _ _ _ _ _ _ Hc1))
    as (k & Hk & Hks & Hkz). simpl in Hks, Hkz.
  assert (Hne : range_start k <> datainfo D).
  { pose proof (zi_ok az2 Hib _ _ _ Hd) as (? & ? & Hde & ?). pose proof (zi_ok az2 Hib _ _ _ Hk) as (? & ? & ? & ?).
    destruct (zinv_disjoint az2 _ _ _ _ Hib Hk Hd) as [Hab|Hab];
      [unfold datainfo; intros [= ?]; lia|unfold entry_above in Hab|unfold entry_above in Hab];
      unfold datainfo, sizeof_allocdetail_s in *; simpl in *; lia. }
  destruct (pfree_refines st1 az' z (datainfo D) k zd D (Allocinfo D (range_end i') sizeof_allocdetail_s))
    as (st' & _ & _ & _ & _ & _ & Heq & Hrest & _ & _ & _ & _ & Hrep' & _); auto; try lia.
  { rewrite Haz'. apply elem_commit; auto. }
  { rewrite Haz'. apply elem_commit; auto. }
  exists st'. rewrite <- Hks. split_and!; [done| |by eapply same_rest_trans].
  split; [|done]. eapply zrep_ext; [|exact Hrep']. intros z'. symmetry. rewrite Haz'.
  apply (palloced_undo az z size align v D az1 A n i B az2 zd A' n' i' B'); try done.
  intros y. by eapply zrep_nodup.
Qed.

(** Room for a bookkeeping struct, in the temporary zones as they are or in the
    new range when that is to be one of theirs. *)
Definition struct_room az (z : zone) (start end_ v : Z) (zd : zone) : Prop :=
  (zd = ZoneTmpHigh \/ zd = ZoneTmpLow) /\
  (room az zd sizeof_allocdetail_s MALLOC_MIN_ALIGN v \/
   (zd = z /\ (MALLOC_MIN_ALIGN | v) /\ start <= v /\ v + sizeof_allocdetail_s <= end_)).

Lemma room_insert az z start end_ zd size align v : room (zupd az z (zl_insert start end_ (az z))) zd size align v <->
  room az zd size align v \/ (zd = z /\ (align | v) /\ start <= v /\ v + size <= end_).
Proof.
  destruct (zl_insert_split start end_ (az z)) as (A & B & HAB & Hins & _). unfold room.
  setoid_rewrite elem_zupd. rewrite Hins. setoid_rewrite elem_mid. rewrite <- HAB. split.
  - intros (n & i & [[-> [[= -> ->]|Hin]]|[Hne Hin]] & Hd & Hlo & Hhi); simpl in *; [right; split_and!; done || lia|left; eauto 6..].
  - intros [(n & i & Hin & Hr)|(-> & Hd & Hlo & Hhi)].
    + exists n, i. split; [|done]. destruct (decide (zd = z)) as [->|]; auto.
    + eexists _, _. split; [left; split; [done|by left]|]. simpl. split_and!; [done|lia|done].
Qed.
Lemma no_struct_room az z start end_ v zd : zinv (zupd az z (zl_insert start end_ (az z))) ->
  az_detail (zupd az z (zl_insert start end_ (az z))) = None -> ~ struct_room az z start end_ v zd.
Proof.
  intros Hi Hd [Hzd Hroom]. rewrite <- room_insert in Hroom. destruct Hroom as (n & i & Hin & Hdiv & Hlo & Hhi).
  unfold az_detail, az_new in Hd. set (azi := zupd _ _ _) in *.
  assert (Hal : pow2_align 32 MALLOC_MIN_ALIGN) by (exists 4; unfold MALLOC_MIN_ALIGN; lia).
  destruct (zl_new _ _ _ (azi ZoneTmpHigh)) as [[]|] eqn:E1; [done|].
  destruct (zl_new _ _ _ (azi ZoneTmpLow)) as [[]|] eqn:E2; [done|].
  assert (H44 : 0 <= sizeof_allocdetail_s) by done.
  destruct Hzd as [-> | ->]; [eapply (zl_new_none _ _ _ H44 Hal _ (zinv_forall azi ZoneTmpHigh Hi) E1)|
    eapply (zl_new_none _ _ _ H44 Hal _ (zinv_forall azi ZoneTmpLow Hi) E2)]; eauto.
Qed.

(** C25: [alloc_add], for a range apart from all ranges of the zones, keeps the
    invariant: only when there is no room for a bookkeeping struct, neither in the
    temporary zones nor in the range itself if it is to be one of theirs, it leaves
    every zone as it was; otherwise the range from start up to end joins the zone with no
    byte allocated, its upper end holding the struct if that was taken from it,
    and the struct is the only new allocation. *)
Theorem alloc_add_correct z start end_ st az :
  malloc_inv st az -> apart az start end_ ->
  same_rest st (alloc_add z start end_ st) /\
  ((malloc_inv (alloc_add z start end_ st) az /\ forall v zd, ~ struct_room az z start end_ v zd) \/
   exists az' D zd k, malloc_inv (alloc_add z start end_ st) az' /\ struct_room az z start end_ D zd /\
     (datainfo D, k) ∈ az' z /\ range_start k = start /\ alloc_size k = 0 /\
     (range_end k = end_ \/
      (zd = z /\ range_end k = D /\ D + sizeof_allocdetail_s <= end_ /\
       (detailinfo D, Allocinfo D end_ sizeof_allocdetail_s) ∈ az' z)) /\
     forall z' s len, allocated az' z' s len <->
       allocated az z' s len \/ (z' = zd /\ s = D /\ len = sizeof_allocdetail_s)).
Proof.
  intros Hinv Hap. destruct (alloc_add_refines st az z start end_ Hinv Hap) as [Hr Hrest].
  split; [done|]. destruct Hinv as (Hrep & Hi & Ho). unfold az_add in *.
  pose proof (zinv_insert az z start end_ Hi Hap) as Hi1.
  destruct (az_detail _) as [[D az2]|] eqn:Hd; [right|left; split; [done|intros; by apply no_struct_room]].
  pose proof (zown_insert az z start end_ Ho) as Ho1.
  destruct (zl_insert_split start end_ (az z)) as (A & B & HAB & Hins & _).
  apply az_detail_carved in Hd as (zd & A' & n' & i' & B' & Hzd & Hc); [|done].
  assert (Hin : (datainfo tempdetail, Allocinfo start end_ 0) ∈ zupd az z (zl_insert start end_ (az z)) z)
    by (rewrite zupd_eq, Hins, elem_mid; auto).
  destruct (carved_range _ _ _ _ _ _ _ _ _ _ _ _ _ _ Hc Hin) as (k & Hk & Hks & Hkz & Hke). simpl in Hks, Hkz, Hke.
  pose proof (carved_new _ _ _ _ _ _ _ _ _ _ _ Hc) as HD.
  destruct (detail_range_fresh az2 zd D _ D (zinv_carved _ _ _ _ _ _ _ _ _ _ _ Hi1 Hc ltac:(done))
    (zown_carved _ _ _ _ _ _ _ _ _ _ _ _ Hc Ho1) HD) as (_ & _ & Hn2);
    [done|done|lia|unfold sizeof_allocdetail_s; lia|].
  exists (az_commit D az2), D, zd, k. split_and!; [done| |apply elem_commit; auto|done|done| |].
  { split; [done|]. apply room_insert. exists n', i'.
    split_and!; [by eapply carved_host|apply (cv_align _ _ _ _ _ _ _ _ _ _ _ Hc)|apply (cv_low _ _ _ _ _ _ _ _ _ _ _ Hc)|apply (cv_high _ _ _ _ _ _ _ _ _ _ _ Hc)]. }
  { destruct Hke as [?|(<- & ? & ? & Hnew)]; [by left|right]. split_and!; [done..|]. apply elem_commit; auto. }
  intros z' s len. unfold az_commit. rewrite !allocated_rename.
  rewrite (allocated_carved _ _ _ _ _ _ _ _ _ _ _ _ _ _ Hc) by done.
  assert (Hold : allocated (zupd az z (zl_insert start end_ (az z))) z' s len <-> allocated az z' s len);
    [|tauto].
  split; intros (m & j & Hm & <- & <- & Hne); exists m, j; split; try done.
  - rewrite elem_zupd, Hins, elem_mid, <- HAB in Hm. naive_solver.
  - rewrite elem_zupd, Hins, elem_mid, <- HAB. destruct (decide (z' = z)) as [->|]; auto.
Qed.
End Theorems.

(** ** A concrete machine *)

Module Demo.

Definition heads (z : zone) : Z :=
  match z with
  | ZoneTmpLow => 0xf6000 | ZoneLow => 0xf6008 | ZoneFSeg => 0xf6010
  | ZoneTmpHigh => 0xf6018 | ZoneHigh => 0xf6020
  end.

Lemma heads_inj z1 z2 : heads z1 = heads z2 -> z1 = z2.
Proof. by destruct z1, z2. Qed.

Lemma heads_nonzero z : heads z <> 0.
Proof. by destruct z. Qed.

Lemma heads_temp z : heads z < 0x6f00 \/ 0x6f00 + sizeof_allocdetail_s <= heads z.
Proof. right. by destruct z. Qed.

#[export] Instance layout : Layout := {|
  CONFIG_MALLOC_UPPERMEMORY := true;
  zone_head := heads;
  tempdetail := 0x6f00;
  sym_final_readonly_start := 0xe0000;
  sym_zonelow_base := 0xe0000;
  sym_varlow_start := 0xf7000;
  sym_varlow_end := 0xf7100;
  sym_final_varlow_start := 0xeff00;
  sym_zonefseg_start := 0xf6100;
  sym_zonefseg_end := 0xf6800;
  zone_head_inj := heads_inj;
  zone_head_nonzero := heads_nonzero;
  zone_head_temp := heads_temp;
  tempdetail_pos := ltac:(done) |}.

Definition st0 : mstate (S := words) := MState h_init ∅ ∅ ∅ e820_empty 0 0 0.
Definition st1 : mstate := alloc_add ZoneTmpHigh 0x100000 0x110000 st0.
Definition st2 : mstate := alloc_add ZoneHigh 0x110000 0x150000 st1.

Definition az0 : zstate := fun _ => [].
Definition az1 : zstate := az_add ZoneTmpHigh 0x100000 0x110000 az0.
Definition az2 : zstate := az_add ZoneHigh 0x110000 0x150000 az1.

Lemma inv0 : malloc_inv st0 az0.
Proof.
  split_and!.
  - exists (gset_to_gmap [] (list_to_set (heads <$> Zones))). split_and!.
    + apply h_init_spec.
    + intros z. apply lookup_gset_to_gmap_Some. split; [|done]. by destruct z.
    + intros h l [Hh _]%lookup_gset_to_gmap_Some.
      apply elem_of_list_to_set, list_elem_of_fmap in Hh as (z & -> & _). by exists z.
    + intros z n i Hin. by apply not_elem_of_nil in Hin.
  - split; try (intros; by match goal with Hin : _ ∈ _ |- _ => apply not_elem_of_nil in Hin end).
    intros z. constructor.
  - intros z n i Hin. by apply not_elem_of_nil in Hin.
Qed.

(** [apart] on a concrete list of ranges. *)
Ltac apart_tac :=
  split; [lia | intros z n i Hin; destruct z; vm_compute in Hin;
                repeat (apply elem_of_cons in Hin as [[= -> ->]|Hin]; [simpl; lia|]);
                by apply not_elem_of_nil in Hin
         | intros []; ((left; by vm_compute) || (right; by vm_compute))
         | (left; by vm_compute) || (right; by vm_compute)].

Lemma apart1 : apart az0 0x100000 0x110000.
Proof. apart_tac. Qed.

Lemma inv1 : malloc_inv st1 az1.
Proof. apply alloc_add_refines; [exact inv0|exact apart1]. Qed.

Lemma apart2 : apart az1 0x110000 0x150000.
Proof. apart_tac. Qed.

Lemma inv2 : malloc_inv st2 az2.
Proof. apply alloc_add_refines; [exact inv1|exact apart2]. Qed.

Lemma pow2_16 : pow2_align 32 16.
Proof. exists 4. lia. Qed.

End Demo.

#[local] Existing Instance Demo.layout.

Lemma malloc_palloc_correct_witness :
  fst (malloc_palloc false ZoneHigh 100 16 Demo.st2) = 0x14ff90 /\
  room Demo.az2 ZoneHigh 100 16 0x14ff90 /\
  exists az', malloc_inv (snd (malloc_palloc false ZoneHigh 100 16 Demo.st2)) az' /\
    allocated az' ZoneHigh 0x14ff90 100.
Proof.
  assert (Hr : fst (malloc_palloc false ZoneHigh 100 16 Demo.st2) = 0x14ff90) by (vm_compute; reflexivity).
  split; [exact Hr|].
  pose proof (malloc_palloc_correct false ZoneHigh 100 16 Demo.st2 Demo.az2 Demo.inv2 ltac:(lia)
    Demo.pow2_16 ltac:(lia) ltac:(by right)) as Hc.
  destruct (malloc_palloc false ZoneHigh 100 16 Demo.st2) as [r st']. simpl in *. subst r.
  destruct Hc as [_ [[Hr _]|(_ & _ & Hroom & _ & az' & D & zd & Hinv & _ & Hal)]]; [done|].
  split; [exact Hroom|]. exists az'. split; [exact Hinv|]. apply Hal. auto.
Defined.

Lemma malloc_palloc_complete_witness :
  fst (malloc_palloc false ZoneHigh 100 16 Demo.st2) <> 0.
Proof.
  apply (malloc_palloc_complete false ZoneHigh 100 16 Demo.st2 Demo.az2 Demo.inv2 ltac:(lia)
    Demo.pow2_16 ltac:(lia) ltac:(by right)).
  - exists 0x110000. eexists _, _. split; [vm_compute; left; reflexivity|].
    split_and!; [by exists 0x11000|simpl; lia|simpl; lia].
  - exists 0x100000, ZoneTmpHigh. split_and!; [done|by left|]. eexists _, _.
    split; [vm_compute; right; right; left; reflexivity|].
    split_and!; [by exists 0x10000|simpl; lia|vm_compute; discriminate].
Defined.

Lemma malloc_pfree_correct_witness :
  malloc_pfree 0x14ff90 Demo.st2 = (-1, Demo.st2) /\
  malloc_inv Demo.st2 Demo.az2.
Proof.
  assert (Hr : fst (malloc_pfree 0x14ff90 Demo.st2) = -1) by (vm_compute; reflexivity).
  pose proof (malloc_pfree_correct Demo.st2 Demo.az2 0x14ff90 Demo.inv2) as Hc.
  destruct (malloc_pfree 0x14ff90 Demo.st2) as [r st']. simpl in Hr. subst r.
  destruct Hc as [[Hr _]|(_ & -> & _)]; [done|]. split; [reflexivity|exact Demo.inv2].
Defined.

Lemma malloc_palloc_pfree_witness :
  exists st', malloc_pfree (fst (malloc_palloc false ZoneTmpHigh 100 16 Demo.st2))
                (snd (malloc_palloc false ZoneTmpHigh 100 16 Demo.st2)) = (0, st') /\
    malloc_inv st' Demo.az2 /\ same_rest Demo.st2 st'.
Proof.
  apply (malloc_palloc_pfree false ZoneTmpHigh 100 16 Demo.st2 Demo.az2 Demo.inv2 ltac:(lia)
    Demo.pow2_16 ltac:(lia) ltac:(by left)).
  vm_compute. discriminate.
Defined.

Lemma alloc_add_correct_witness :
  same_rest Demo.st1 (alloc_add ZoneHigh 0x110000 0x150000 Demo.st1) /\
  exists az', malloc_inv (alloc_add ZoneHigh 0x110000 0x150000 Demo.st1) az'.
Proof.
  destruct (alloc_add_correct ZoneHigh 0x110000 0x150000 Demo.st1 Demo.az1 Demo.inv1 Demo.apart2)
    as [Hr [[Hi _]|(az' & D & zd & k & Hi & _)]]; split; eauto.
Defined.
