(* ===== verification/MallocHeap.v ===== *)
(** * What the allocator promises to its clients

    The class [Heap] is the allocator as a client sees it: blocks it holds, and
    a territory -- the bytes that were free when the client began -- in which
    all blocks it is given lie.  The instance discharges the promises with the
    lemmas about the zone lists. *)
From S2P Require Import Prelude E820 Hlist Machine StringOps Malloc MallocSpec MallocInv MallocProof MallocCorrect.

Section Heap.
Context {S : Type} `{Hlist S} `{Layout}.

Class Heap (T : Type) := {
  heap_inv : mstate (S := S) -> T -> Prop;
  holds : T -> zone -> Z -> Z -> Prop;             (* zone, address, size *)
  territory : T -> Z -> Prop;
  holds_range t z s len st : heap_inv st t -> holds t z s len -> 0 < len /\ 0 < s /\ s + len < 2 ^ 32;
  holds_territory t z s len b : holds t z s len -> s <= b < s + len -> territory t b;
  heap_inv_mem st t f : heap_inv st t -> heap_inv (with_mem f st) t;
  heap_malloc p z size align st t :
    heap_inv st t -> 0 <= size -> pow2_align 32 align -> size + align <= 2 ^ 32 -> z <> ZoneLow ->
    exists r st', malloc_palloc p z size align st = (r, st') /\ same_rest st st' /\
      ((r = 0 /\ heap_inv st' t) \/
       (r <> 0 /\ exists t', heap_inv st' t' /\ territory t' = territory t /\ holds t' z r size /\ (align | r) /\
          (forall z' s len, holds t z' s len -> holds t' z' s len /\ (r + size <= s \/ s + len <= r))));
  heap_free z s len st t :
    heap_inv st t -> holds t z s len ->
    exists st' t', malloc_pfree s st = (0, st') /\ same_rest st st' /\ heap_inv st' t' /\
      territory t' = territory t /\
      (forall z' s' len', holds t z' s' len' -> s' <> s -> holds t' z' s' len') }.

(** ** Free bytes *)

Implicit Types (az : zstate).

(** In the unallocated tail of a range. *)
Definition unalloc az (b : Z) : Prop :=
  exists z n i, (n, i) ∈ az z /\ range_start i + alloc_size i <= b < range_end i.

Lemma unalloc_carved az z size align fill v az' A n i B b :
  carved az z size align fill v az' A n i B -> 0 <= size -> unalloc az' b -> unalloc az b.
Proof.
  intros Hc Hs (z' & m & j & Hj & Hb). pose proof (carved_host _ _ _ _ _ _ _ _ _ _ _ Hc) as Hh.
  destruct (carved_elem _ _ _ _ _ _ _ _ _ _ _ _ _ Hc Hj) as [[-> [= -> ->]]|[[-> [= -> ->]]|Hold]].
  - exists z, n, i. simpl in Hb. destruct Hc. split; [done|lia].
  - exists z, n, i. simpl in Hb. destruct Hc. split; [done|]. simpl in *. lia.
  - by exists z', m, j.
Qed.

Lemma unalloc_new az z size align fill v az' A n i B b :
  carved az z size align fill v az' A n i B -> v <= b < v + size -> unalloc az b.
Proof. intros Hc Hb. exists z, n, i. split; [by eapply carved_host|]. destruct Hc. lia. Qed.

Lemma unalloc_rename o n az b : unalloc (az_rename o n az) b -> unalloc az b.
Proof.
  intros (z & m & i & Hi & Hb). apply zl_rename_elem in Hi as [[_ Hi]|[_ Hi]]; eexists z, _, i; eauto.
Qed.

Lemma unalloc_freed az z n i A B b :
  freed az z n i A B -> unalloc (az_free n z az) b ->
  unalloc az b \/ range_start i <= b < range_start i + alloc_size i.
Proof.
  intros Hf (z' & m & k & Hk & Hb). pose proof (freed_host _ _ _ _ _ _ Hf) as Hh.
  destruct (freed_elem _ _ _ _ _ _ _ _ _ Hf Hk) as (_ & j & Hj & Hs & Hz & He).
  destruct He as [He|(-> & He1 & He2)]; [left; exists z', m, j; split; [done|lia]|].
  destruct (Z.lt_ge_cases b (range_start i)); [left; exists z, m, j; split; [done|lia]|].
  destruct (Z.lt_ge_cases b (range_start i + alloc_size i)); [by right|].
  left. exists z, n, i. split; [done|lia].
Qed.

(** ** Blocks of the client *)

(** The zones, and the bytes that were free at the start. *)
Record heap_state := HeapState { hz : zstate; ht : Z -> Prop }.

Definition within (U : Z -> Prop) (s len : Z) : Prop := forall b, s <= b < s + len -> U b.

(** A block with its bookkeeping struct at [D]. *)
Definition block_at (h : heap_state) (z : zone) (s len D : Z) : Prop :=
  exists i zd d, (datainfo D, i) ∈ hz h z /\ range_start i = s /\ alloc_size i = len /\ len <> 0 /\
    range_start i <> datainfo D /\
    (D, d) ∈ hz h zd /\ range_start d = D /\ alloc_size d = sizeof_allocdetail_s /\
    within (ht h) s len /\ within (ht h) D sizeof_allocdetail_s.

Definition h_holds (h : heap_state) (z : zone) (s len : Z) : Prop := exists D, block_at h z s len D.
Definition h_inv (st : mstate (S := S)) (h : heap_state) : Prop :=
  malloc_inv st (hz h) /\ forall b, unalloc (hz h) b -> ht h b.
(** A node before an allocation is one after it, with its start and size. *)
Lemma palloced_keeps az z size align v D az' y m j :
  zinv az -> zown az [] -> palloced az z size align v D az' -> (m, j) ∈ az y ->
  exists k, (m, k) ∈ az' y /\ range_start k = range_start j /\ alloc_size k = alloc_size j.
Proof.
  intros Hi Ho [Hs (az1 & A & n & i & B & az2 & zd & A' & n' & i' & B' & Hc1 & Hc2 & Hzd & -> & Hi1 & Hi2 & Ho1 & Ho2)] Hj.
  destruct (carved_keeps _ _ _ _ _ _ _ _ _ _ _ _ _ _ Hc1 Hj) as (k1 & Hk1 & E1 & E2).
  destruct (carved_keeps _ _ _ _ _ _ _ _ _ _ _ _ _ _ Hc2 Hk1) as (k2 & Hk2 & E3 & E4).
  destruct (detail_range_fresh az2 zd D _ D Hi2 Ho2 (carved_new _ _ _ _ _ _ _ _ _ _ _ Hc2)) as (_ & _ & HD2);
    [done|done|lia|unfold sizeof_allocdetail_s; lia|].
  exists k2. split; [|split; congruence]. apply elem_commit; [done|]. right. right. split; [|done].
  pose proof (data_temp_fresh az Hi Ho) as Hft. pose proof (detail_temp_fresh az1 Hi1 Ho1) as Hfd.
  unfold temps. rewrite !not_elem_of_cons. split_and!; [| |apply not_elem_of_nil].
  - intros ->. by apply (fresh_not_in _ _ _ _ Hfd) in Hk1.
  - intros ->. by apply (fresh_not_in _ _ _ _ Hft) in Hj.
Qed.

(** The block and its bookkeeping struct after an allocation. *)
Lemma palloced_new az z size align v D az' :
  zinv az -> zown az [] -> palloced az z size align v D az' ->
  exists i zd d, (datainfo D, i) ∈ az' z /\ range_start i = v /\ alloc_size i = size /\ v <> datainfo D /\
    (D, d) ∈ az' zd /\ range_start d = D /\ alloc_size d = sizeof_allocdetail_s.
Proof.
  intros Hi Ho [Hs (az1 & A & n & i & B & az2 & zd & A' & n' & i' & B' & Hc1 & Hc2 & Hzd & -> & Hi1 & Hi2 & Ho1 & Ho2)].
  pose proof (carved_new _ _ _ _ _ _ _ _ _ _ _ Hc2) as Hd.
  destruct (detail_range_fresh az2 zd D _ D Hi2 Ho2 Hd) as (_ & HD1 & HD2);
    [done|done|lia|unfold sizeof_allocdetail_s; lia|].
  destruct (carved_keeps _ _ _ _ _ _ _ _ _ _ _ _ _ _ Hc2 (carved_new _ _ _ _ _ _ _ _ _ _ _ Hc1)) as (k & Hk & Hks & Hkz).
  simpl in Hks, Hkz. exists k, zd, (Allocinfo D (range_end i') sizeof_allocdetail_s).
  split_and!; [apply elem_commit; auto|done|done| |apply elem_commit; auto|done|done].
  pose proof (zi_ok az2 Hi2 _ _ _ Hd) as (? & ? & Hde & ?). pose proof (zi_ok az2 Hi2 _ _ _ Hk) as (? & ? & ? & ?).
  destruct (zinv_disjoint az2 _ _ _ _ Hi2 Hk Hd) as [Hab|Hab];
    [unfold datainfo; intros [= ?]; lia|unfold entry_above in Hab|unfold entry_above in Hab];
    unfold datainfo, sizeof_allocdetail_s in *; simpl in *; lia.
Qed.

(** Free bytes only become fewer, by the block and the struct. *)
Lemma palloced_unalloc az z size align v D az' b :
  palloced az z size align v D az' ->
  (unalloc az' b -> unalloc az b) /\ (v <= b < v + size -> unalloc az b) /\
  (D <= b < D + sizeof_allocdetail_s -> unalloc az b).
Proof.
  intros [Hs (az1 & A & n & i & B & az2 & zd & A' & n' & i' & B' & Hc1 & Hc2 & Hzd & -> & _)].
  assert (H1 : unalloc az1 b -> unalloc az b) by (eapply unalloc_carved; [done|lia]).
  split_and!.
  - intros Hu%unalloc_rename%unalloc_rename. apply H1. eapply unalloc_carved; [exact Hc2|done|done].
  - by eapply unalloc_new.
  - intros Hb. apply H1. by eapply unalloc_new.
Qed.

Lemma block_addr_inj h z s len D z' len' D' st :
  h_inv st h -> block_at h z s len D -> block_at h z' s len' D' -> z' = z /\ len' = len /\ D' = D.
Proof.
  intros [(Hrep & Hi & Ho) _] (i & zd & d & Hin & Hs & Hl & Hne & Hnd & _) (i' & zd' & d' & Hin' & Hs' & Hl' & Hne' & Hnd' & _).
  assert (datainfo D = datainfo D') as HD.
  { rewrite <- (alloc_find_allocated st (hz h) z _ i Hrep Hi Hin), <- (alloc_find_allocated st (hz h) z' _ i' Hrep Hi Hin');
      congruence. }
  rewrite <- HD in Hin'. destruct (once_from_rep _ _ _ _ _ _ _ Hrep Hin Hin') as [-> ->].
  split_and!; [done|congruence|unfold datainfo in HD; lia].
Qed.
Lemma block_range h z s len D st : h_inv st h -> block_at h z s len D -> 0 < len /\ 0 < s /\ s + len < 2 ^ 32.
Proof.
  intros [(_ & Hi & _) _] (i & zd & d & Hin & <- & <- & Hne & _). destruct (zi_ok (hz h) Hi _ _ _ Hin) as (? & ? & ? & ?). lia.
Qed.

Lemma h_malloc p z size align st h :
  h_inv st h -> 0 <= size -> pow2_align 32 align -> size + align <= 2 ^ 32 -> z <> ZoneLow ->
  exists r st', malloc_palloc p z size align st = (r, st') /\ same_rest st st' /\
    ((r = 0 /\ h_inv st' h) \/
     (r <> 0 /\ exists h', h_inv st' h' /\ ht h' = ht h /\ h_holds h' z r size /\ (align | r) /\
        (forall z' s len, h_holds h z' s len -> h_holds h' z' s len /\ (r + size <= s \/ s + len <= r)))).
Proof.
  intros [Hinv Hun] Hs Ha Hov Hz.
  destruct (palloc_cases p z size align st (hz h) Hinv Hs Ha Hov ltac:(by left)) as (r & st' & Heq & Hrest & Hc).
  exists r, st'. split_and!; [done|done|]. destruct Hc as [[-> Hinv']|(Hr & D & az' & Hp & Hinv')]; [left; split; [done|by split]|right].
  split; [done|]. destruct Hinv as (Hrep & Hi & Ho). exists (HeapState az' (ht h)).
  pose proof (fun b => palloced_unalloc _ _ _ _ _ _ _ b Hp) as Hu.
  pose proof (palloced_room _ _ _ _ _ _ _ Hp) as Hroom.
  split_and!.
  - split; [done|]. intros b Hb. by apply Hun, (proj1 (Hu b)).
  - done.
  - destruct (palloced_new _ _ _ _ _ _ _ Hi Ho Hp) as (i & zd & d & Hin & Hst & Hsz & Hne & Hd & Hds & Hdz).
    pose proof (pa_size _ _ _ _ _ _ _ Hp). exists D, i, zd, d.
    split_and!; try done; [lia|congruence|..]; intros b Hb; apply Hun; destruct (Hu b) as (_ & ? & ?); auto.
  - by destruct Hroom as (n & i & _ & ? & _).
  - intros z' s len (D0 & i & zd & d & Hin & Hst & Hsz & Hne & Hnd & Hd & Hds & Hdz & Hw1 & Hw2). split.
    + destruct (palloced_keeps _ _ _ _ _ _ _ _ _ _ Hi Ho Hp Hin) as (k & Hk & ? & ?).
      destruct (palloced_keeps _ _ _ _ _ _ _ _ _ _ Hi Ho Hp Hd) as (kd & Hkd & ? & ?).
      exists D0, k, zd, kd. split_and!; try done; congruence.
    + eapply room_apart; [exact Hi|exact Hroom|by destruct Hp|]. exists (datainfo D0), i. split_and!; done || congruence.
Qed.

(** A block stays when another one is freed. *)
Lemma block_keeps az U z n i A B z' s len D :
  freed az z n i A B -> block_at (HeapState az U) z' s len D -> datainfo D <> n -> D <> n ->
  block_at (HeapState (az_free n z az) U) z' s len D.
Proof.
  intros Hf (j & zd & d & Hin & Hst & Hsz & Hne & Hnd & Hd & Hds & Hdz & Hw1 & Hw2) H1 H2. simpl in *.
  destruct (freed_keeps _ _ _ _ _ _ _ _ _ Hf Hin H1) as (k & Hk & ? & ?).
  destruct (freed_keeps _ _ _ _ _ _ _ _ _ Hf Hd H2) as (kd & Hkd & ? & ?).
  exists k, zd, kd. split_and!; try done; simpl; congruence.
Qed.

Lemma h_free z s len st h :
  h_inv st h -> h_holds h z s len ->
  exists st' h', malloc_pfree s st = (0, st') /\ same_rest st st' /\ h_inv st' h' /\ ht h' = ht h /\
    (forall z' s' len', h_holds h z' s' len' -> s' <> s -> h_holds h' z' s' len').
Proof.
  intros Hh [D Hbl]. pose proof Hh as [(Hrep & Hi & Ho) Hun].
  pose proof Hbl as (i & zd & d & Hin & Hst & Hsz & Hne & Hnd & Hd & Hds & Hdz & Hw1 & Hw2).
  destruct (pfree_refines st (hz h) z (datainfo D) i zd D d) as
    (st' & A & B & A' & B' & d' & Heq & Hrest & Hf1 & Hf2 & Hd1 & Hd2 & Hrep' & Hi' & Ho'); try done; [congruence|].
  exists st', (HeapState (az_free D zd (az_free (datainfo D) z (hz h))) (ht h)).
  split_and!; [by rewrite <- Hst|done| |done|].
  - split; [done|]. intros b Hb. apply (unalloc_freed _ _ _ _ _ _ _ Hf2) in Hb as [Hb|Hb].
    + apply (unalloc_freed _ _ _ _ _ _ _ Hf1) in Hb as [Hb|Hb]; [by apply Hun|]. apply Hw1. lia.
    + apply Hw2. rewrite Hd1, Hd2 in Hb. done.
  - intros z' s' len' [D' Hbl'] Hs'. exists D'.
    assert (datainfo D' <> datainfo D /\ D' <> D) as [HD1 HD2].
    { split; intros HD; assert (D' = D) as -> by (unfold datainfo in HD; lia);
        destruct Hbl' as (i' & _ & _ & Hin' & Hst' & _); destruct (once_from_rep _ _ _ _ _ _ _ Hrep Hin Hin') as [_ ->]; congruence. }
    pose proof Hbl' as (i' & zd' & d2 & Hin' & Hst' & Hsz' & Hne' & Hnd' & Hdd & Hdds & _).
    eapply block_keeps; [exact Hf2|eapply block_keeps; [exact Hf1|by destruct h|done|]| |done].
    + intros ->. destruct (once_from_rep _ _ _ _ _ _ _ Hrep Hin Hdd) as [_ ->]. congruence.
    + intros Hx. rewrite Hx in Hin'. destruct (once_from_rep _ _ _ _ _ _ _ Hrep Hd Hin') as [_ ->]. congruence.
Qed.

Lemma h_inv_mem st h f : h_inv st h -> h_inv (with_mem f st) h.
Proof. done. Qed.

#[export] Instance malloc_heap : Heap heap_state.
Proof.
  refine {| heap_inv := h_inv; holds := h_holds; territory := ht |}.
  - intros h z s len st Hi [D Hb]. by eapply block_range.
  - intros h z s len b [D (i & zd & d & _ & _ & _ & _ & _ & _ & _ & _ & Hw & _)]. apply Hw.
  - apply h_inv_mem.
  - apply h_malloc.
  - apply h_free.
Defined.
End Heap.
Arguments Heap S {_ _} T.
