(* ===== verification/Pmm.v ===== *)
(** * Post memory manager: src/pmm.c

    The PMM calls of an option ROM, on top of the zone allocator and the e820
    map.  [args] are the 16-bit words of the caller's stack. *)
From S2P Require Import Prelude E820 Hlist Machine StringOps Malloc MallocSpec MallocInv.
From S2P Require Import MallocProof MallocCorrect.

Definition PMM_SIGNATURE := 0x4d4d5024.
Definition PMM_FUNCTION_NOT_SUPPORTED := 0xffffffff.

Definition arg32 (args : Z -> Z) (i : Z) : Z := args i + 2 ^ 16 * args (i + 1).

(** x86.h [__ffs]: the [bsf] instruction, on a non-zero word. *)
Definition __ffs (x : Z) : Z := Z.log2 (Z.land x (- x)).

Section Pmm.
Context {S : Type} `{Hlist S} `{Layout}.
Context (CONFIG_PMM : bool).

Abbreviation state := (mstate (S := S)).

Definition handle_pmm00 (preempted : bool) (args : Z -> Z) (st : state) : Z * state :=
  let length := arg32 args 1 in
  let handle := arg32 args 3 in
  let flags := args 5 in
  let permanent := truthy (Z.land flags 8) in
  let lowzone := if permanent then ZoneLow else ZoneTmpLow in
  let highzone := if permanent then ZoneHigh else ZoneTmpHigh in
  if length =? 0 then
    match Z.land flags 3 with
    | 1 => (malloc_getspace lowzone st, st)
    | 2 => (malloc_getspace highzone st, st)
    | 3 =>
      let spacelow := malloc_getspace lowzone st in
      let spacehigh := malloc_getspace highzone st in
      (if spacehigh <? spacelow then spacelow else spacehigh, st)
    | _ => (0, st)
    end
  else
    let size := u32 (length * 16) in
    if s32 size <=? 0 then (0, st)
    else
      let align :=
        if truthy (Z.land flags 4) then
          let align := u32 (Z.shiftl 1 (__ffs size)) in
          if align <? MALLOC_MIN_ALIGN then MALLOC_MIN_ALIGN else align
        else MALLOC_MIN_ALIGN in
      match Z.land flags 3 with
      | 1 | 2 | 3 =>
        let '(data, st) :=
          match Z.land flags 3 with
          | 1 => malloc_palloc preempted lowzone size align st
          | 2 =>
            let '(data, st) := malloc_palloc preempted highzone size align st in
            if (data =? 0) && permanent then
              let '(data, st) := malloc_palloc preempted ZoneTmpHigh size align st in
              if truthy data then (data, with_e820 (e820_add data size E820_RESERVED) st)
              else (data, st)
            else (data, st)
          | _ =>
            let '(data, st) := malloc_palloc preempted lowzone size align st in
            if data =? 0 then malloc_palloc preempted highzone size align st else (data, st)
          end in
        if truthy data && negb (handle =? MALLOC_DEFAULT_HANDLE)
        then (data, malloc_sethandle data handle st)
        else (data, st)
      | _ => (0, st)
      end.

Definition handle_pmm01 (args : Z -> Z) (st : state) : Z * state :=
  let handle := arg32 args 1 in
  if handle =? MALLOC_DEFAULT_HANDLE then (0, st) else (malloc_findhandle handle st, st).

Definition handle_pmm02 (args : Z -> Z) (st : state) : Z * state :=
  let buffer := arg32 args 1 in
  let '(ret, st) := malloc_pfree buffer st in
  if truthy ret then (1, st) else (0, st).

Definition handle_pmmXX (args : Z -> Z) (st : state) : Z * state :=
  (PMM_FUNCTION_NOT_SUPPORTED, st).

Definition handle_pmm (preempted : bool) (args : Z -> Z) (st : state) : Z * state :=
  if negb CONFIG_PMM then (PMM_FUNCTION_NOT_SUPPORTED, st)
  else
    match args 0 with
    | 0x00 => handle_pmm00 preempted args st
    | 0x01 => handle_pmm01 args st
    | 0x02 => handle_pmm02 args st
    | _ => handle_pmmXX args st
    end.
End Pmm.

(** ** The published header *)

(** [struct pmmheader] of std/pmm.h: offsets of its fields. *)
Definition pmm_checksum_off := 6.
Definition pmm_entry_off := 7.
Definition sizeof_pmmheader := 16.

Definition pmm_init (CONFIG_PMM : bool) (PMMHEADER entry_pmm : Z) (m : memory) : memory :=
  if negb CONFIG_PMM then m
  else
    let m := write32 (PMMHEADER + pmm_entry_off) entry_pmm m in
    let old := read8 m (PMMHEADER + pmm_checksum_off) in
    write8 (PMMHEADER + pmm_checksum_off) (old - checksum PMMHEADER sizeof_pmmheader m) m.

Definition pmm_prepboot (CONFIG_PMM : bool) (PMMHEADER : Z) (m : memory) : memory :=
  if negb CONFIG_PMM then m
  else write32 (PMMHEADER + pmm_entry_off) 0 (write32 PMMHEADER 0 m).

(** ** [__ffs] *)

Lemma land_odd a b : Z.land (2 * a + 1) (2 * b + 1) = 2 * Z.land a b + 1.
Proof.
  apply Z.bits_inj'. intros n Hn. rewrite Z.land_spec.
  destruct (Z.eq_dec n 0) as [->|]; [by rewrite !Z.testbit_odd_0|].
  replace n with (Z.succ (n - 1)) by lia. rewrite !Z.testbit_odd_succ by lia. by rewrite Z.land_spec.
Qed.

Lemma odd_split x : 0 < x -> exists k q, 0 <= k /\ x = 2 ^ k * (2 * q + 1).
Proof.
  intros Hx. assert (H0 : 0 <= x) by lia. revert Hx. pattern x. apply Z_lt_induction; [|done].
  clear x H0.
  intros x IH Hx. destruct (Z.eq_dec (x mod 2) 1) as [Ho|He].
  - exists 0, (x / 2). rewrite Z.pow_0_r. lia.
  - destruct (IH (x / 2)) as (k & q & Hk & Hq); [lia|lia|].
    exists (k + 1), q. split; [lia|]. rewrite Z.pow_add_r, Z.pow_1_r by lia. lia.
Qed.

Lemma lowbit_spec k q : 0 <= k -> let x := 2 ^ k * (2 * q + 1) in Z.land x (- x) = 2 ^ k.
Proof.
  intros Hk x. replace x with (Z.shiftl (2 * q + 1) k) by (rewrite Z.shiftl_mul_pow2 by done; lia).
  replace (- Z.shiftl (2 * q + 1) k) with (Z.shiftl (2 * Z.lnot q + 1) k)
    by (rewrite !Z.shiftl_mul_pow2 by done; unfold Z.lnot; nia).
  rewrite <- Z.shiftl_land, land_odd, Z.land_lnot_diag. by rewrite Z.shiftl_1_l.
Qed.

(** The lowest set bit divides the word. *)
Lemma ffs_spec x : 0 < x ->
  0 <= __ffs x /\ (2 ^ __ffs x | x) /\ 2 ^ __ffs x <= x.
Proof.
  intros Hx. destruct (odd_split x Hx) as (k & q & Hk & Hq).
  assert (Hf : __ffs x = k).
  { unfold __ffs. rewrite Hq, lowbit_spec by done. by apply Z.log2_pow2. }
  rewrite Hf. assert (0 < 2 ^ k) by (apply Z.pow_pos_nonneg; lia).
  assert (0 < 2 * q + 1) by (apply (Z.mul_pos_cancel_l (2 ^ k)); lia).
  split_and!; [done|exists (2 * q + 1); lia|]. rewrite Hq.
  rewrite <- (Z.mul_1_r (2 ^ k)) at 1. apply Z.mul_le_mono_nonneg_l; lia.
Qed.

Section PmmTheorems.
Context {S : Type} `{Hlist S} `{Layout}.
Implicit Types (st : mstate (S := S)) (az : zstate).

(** The alignment [handle_pmm00] chooses. *)
Definition pmm_align (flags size : Z) : Z :=
  if truthy (Z.land flags 4) then
    let align := u32 (Z.shiftl 1 (__ffs size)) in
    if align <? MALLOC_MIN_ALIGN then MALLOC_MIN_ALIGN else align
  else MALLOC_MIN_ALIGN.

Lemma pmm_align_spec flags size : 0 < size < 2 ^ 31 ->
  pow2_align 32 (pmm_align flags size) /\ size + pmm_align flags size <= 2 ^ 32 /\
  (MALLOC_MIN_ALIGN | pmm_align flags size) /\
  (truthy (Z.land flags 4) = true -> (2 ^ __ffs size | pmm_align flags size)).
Proof.
  intros Hs. destruct (ffs_spec size) as (Hf0 & [d Hd] & Hle); [lia|].
  assert (Hf : __ffs size < 31).
  { destruct (Z.lt_ge_cases (__ffs size) 31); [done|].
    assert (2 ^ 31 <= 2 ^ __ffs size) by (apply Z.pow_le_mono_r; lia). lia. }
  unfold pmm_align, MALLOC_MIN_ALIGN.
  assert (H16 : pow2_align 32 16) by (exists 4; lia).
  assert (Hdiv : forall a b, 0 <= a <= b -> (2 ^ a | 2 ^ b)).
  { intros a b Hab. exists (2 ^ (b - a)). rewrite <- Z.pow_add_r by lia. f_equal. lia. }
  destruct (truthy _); [|split_and!; [done|lia|done|done]].
  rewrite Z.shiftl_1_l, u32_small by lia. destruct (Z.ltb_spec (2 ^ __ffs size) 16) as [Hlt|Hge].
  - split_and!; [done|lia|done|]. intros _. apply (Hdiv _ 4). split; [lia|].
    destruct (Z.le_gt_cases (__ffs size) 4); [done|].
    assert (2 ^ 5 <= 2 ^ __ffs size) by (apply Z.pow_le_mono_r; lia). lia.
  - split_and!; [exists (__ffs size); lia|lia| |done]. apply (Hdiv 4). split; [lia|].
    destruct (Z.le_gt_cases 4 (__ffs size)); [done|].
    assert (2 ^ __ffs size <= 2 ^ 3) by (apply Z.pow_le_mono_r; lia). lia.
Qed.

Lemma sethandle_inv data h st az :
  malloc_inv st az -> malloc_inv (malloc_sethandle data h st) az /\
  ms_e820 (malloc_sethandle data h st) = ms_e820 st.
Proof. intros Hinv. unfold malloc_sethandle. by case_match. Qed.

(** What one attempt to allocate leaves. *)
Definition got az (z : zone) (size align r : Z) st' : Prop :=
  r <> 0 /\ (align | r) /\ room az z size align r /\
  exists az', malloc_inv st' az' /\ allocated az' z r size.

Lemma palloc_try p z size align st az :
  malloc_inv st az -> 0 < size -> pow2_align 32 align -> size + align <= 2 ^ 32 ->
  CONFIG_MALLOC_UPPERMEMORY = true ->
  exists r st', malloc_palloc p z size align st = (r, st') /\ ms_e820 st' = ms_e820 st /\
    ((r = 0 /\ malloc_inv st' az) \/ got az z size align r st').
Proof.
  intros Hinv Hs Ha Hov Hup.
  destruct (palloc_cases p z size align st az Hinv ltac:(lia) Ha Hov ltac:(by right))
    as (r & st' & -> & Hrest & Hc). exists r, st'. split_and!; [done|by apply Hrest|].
  destruct Hc as [?|(Hr & D & az' & Hp & Hinv')]; [by left|right].
  pose proof (palloced_room _ _ _ _ _ _ _ Hp) as Hroom.
  split_and!; [done|by destruct Hroom as (? & ? & ? & ? & ?)|done|]. exists az'. split; [done|].
  destruct (palloced_allocated _ _ _ _ _ _ _ Hp) as (zd & _ & Hal). apply Hal. auto.
Qed.

Lemma got_sethandle az z size align r st h (b : bool) :
  got az z size align r st ->
  exists st', (if b then (r, malloc_sethandle r h st) else (r, st)) = (r, st') /\
    ms_e820 st' = ms_e820 st /\ got az z size align r st'.
Proof.
  intros (Hr & Hd & Hroom & az' & Hinv & Hal).
  destruct b; [|by exists st; split_and!; try done; split_and!; eauto].
  exists (malloc_sethandle r h st). destruct (sethandle_inv r h st az' Hinv).
  split_and!; try done. split_and!; eauto.
Qed.

(** What the theorem below promises of a block [r] got from zone [z]. *)
Definition pmm_got az (e0 : e820map) flags size align r st' : Prop :=
  exists z, got az z size align r st' /\
    (if truthy (Z.land flags 8)
     then (z = ZoneLow /\ Z.testbit flags 0 = true \/ z = ZoneHigh /\ Z.testbit flags 1 = true) /\
          ms_e820 st' = e0 \/
          z = ZoneTmpHigh /\ Z.land flags 3 = 2 /\ ms_e820 st' = e820_add r size E820_RESERVED e0
     else (z = ZoneTmpLow /\ Z.testbit flags 0 = true \/ z = ZoneTmpHigh /\ Z.testbit flags 1 = true) /\
          ms_e820 st' = e0).

Lemma flags_low2 flags :
  (Z.land flags 3 = 0 \/ Z.land flags 3 = 1 \/ Z.land flags 3 = 2 \/ Z.land flags 3 = 3) /\
  Z.testbit flags 0 = Z.testbit (Z.land flags 3) 0 /\ Z.testbit flags 1 = Z.testbit (Z.land flags 3) 1.
Proof.
  split; [|by rewrite !Z.land_spec, !andb_true_r].
  pose proof (Z.land_ones flags 2 ltac:(lia)) as Hl. change (Z.ones 2) with 3 in Hl. rewrite Hl. lia.
Qed.

(** The second switch of [handle_pmm00]: the four kinds of request. *)
Lemma pmm_switch p flags size align st az :
  malloc_inv st az -> 0 < size -> pow2_align 32 align -> size + align <= 2 ^ 32 ->
  CONFIG_MALLOC_UPPERMEMORY = true ->
  let permanent := truthy (Z.land flags 8) in
  let lowzone := if permanent then ZoneLow else ZoneTmpLow in
  let highzone := if permanent then ZoneHigh else ZoneTmpHigh in
  Z.land flags 3 <> 0 ->
  exists r st1,
    match Z.land flags 3 with
    | 1 => malloc_palloc p lowzone size align st
    | 2 =>
      let '(data, st) := malloc_palloc p highzone size align st in
      if (data =? 0) && permanent then
        let '(data, st) := malloc_palloc p ZoneTmpHigh size align st in
        if truthy data then (data, with_e820 (e820_add data size E820_RESERVED) st)
        else (data, st)
      else (data, st)
    | _ =>
      let '(data, st) := malloc_palloc p lowzone size align st in
      if data =? 0 then malloc_palloc p highzone size align st else (data, st)
    end = (r, st1) /\
    ((r = 0 /\ malloc_inv st1 az /\ ms_e820 st1 = ms_e820 st) \/
     pmm_got az (ms_e820 st) flags size align r st1).
Proof.
  intros Hinv Hs Ha Hov Hup permanent lowzone highzone Hf.
  assert (Htry : forall z st, malloc_inv st az -> _)
    by exact (fun z st Hi => palloc_try p z size align st az Hi Hs Ha Hov Hup).
  destruct (flags_low2 flags) as ([?|[Hk|[Hk|Hk]]] & Hb0 & Hb1); [done|..];
    rewrite Hk in *; simpl in Hb0, Hb1.
  - destruct (Htry lowzone st Hinv) as (r & st1 & -> & He & Hc). exists r, st1. split; [done|].
    destruct Hc as [[? ?]|Hg]; [by left|right]. exists lowzone. split; [done|].
    unfold lowzone, permanent. destruct (truthy _); tauto.
  - destruct (Htry highzone st Hinv) as (r & st1 & -> & He & [[-> Hi1]|Hg]).
    + unfold permanent. destruct (truthy (Z.land flags 8)) eqn:Hp; simpl; [|by exists 0, st1; split; [|left]].
      destruct (Htry ZoneTmpHigh st1 Hi1) as (r2 & st2 & -> & He2 & [[-> Hi2]|Hg2]).
      * exists 0, st2. split; [done|left]. by rewrite He2, He.
      * pose proof Hg2 as (Hr & _). unfold truthy. rewrite (proj2 (Z.eqb_neq r2 0) Hr). simpl.
        eexists _, _. split; [done|right]. exists ZoneTmpHigh. rewrite Hp, Hk.
        split; [|right; simpl; by rewrite He2, He].
        destruct Hg2 as (? & ? & ? & az' & Hi' & ?). split_and!; try done. exists az'. done.
    + pose proof Hg as (Hr & _). rewrite (proj2 (Z.eqb_neq r 0) Hr). simpl.
      exists r, st1. split; [done|right]. exists highzone. split; [done|].
      unfold highzone, permanent. destruct (truthy _); tauto.
  - destruct (Htry lowzone st Hinv) as (r & st1 & -> & He & [[-> Hi1]|Hg]).
    + simpl. destruct (Htry highzone st1 Hi1) as (r2 & st2 & -> & He2 & Hc).
      exists r2, st2. split; [done|]. rewrite He in He2.
      destruct Hc as [[? ?]|Hg2]; [by left|right]. exists highzone. split; [done|].
      unfold highzone, permanent. destruct (truthy _); tauto.
    + pose proof Hg as (Hr & _). rewrite (proj2 (Z.eqb_neq r 0) Hr).
      exists r, st1. split; [done|right]. exists lowzone. split; [done|].
      unfold lowzone, permanent. destruct (truthy _); tauto.
Qed.

(** C26: a PMM allocation (function 0 with a length, with
    CONFIG_MALLOC_UPPERMEMORY) either returns 0 and leaves every zone and the e820
    map as they were, or returns a block of length * 16 bytes, computed modulo 2^32
    as the code does (a length from 10000000h on wraps to a smaller block), less
    than 2 GiB, in the requested kind of memory, aligned to a paragraph and, if
    asked, to the lowest set bit of that size; a permanent block that had to be
    taken from temporary high memory is reserved in the e820 map. *)
Theorem pmm_alloc_correct p args st az :
  malloc_inv st az -> CONFIG_MALLOC_UPPERMEMORY = true -> arg32 args 1 <> 0 ->
  let '(r, st') := handle_pmm00 p args st in
  let size := u32 (arg32 args 1 * 16) in
  (r = 0 /\ malloc_inv st' az /\ ms_e820 st' = ms_e820 st) \/
  (0 < size < 2 ^ 31 /\ (MALLOC_MIN_ALIGN | r) /\
   (truthy (Z.land (args 5) 4) = true -> (2 ^ __ffs size | r)) /\
   pmm_got az (ms_e820 st) (args 5) size (pmm_align (args 5) size) r st').
Proof.
  intros Hinv Hup Hlen. unfold handle_pmm00. rewrite (proj2 (Z.eqb_neq _ 0) Hlen).
  set (flags := args 5). set (size := u32 (arg32 args 1 * 16)).
  fold (pmm_align flags size). set (align := pmm_align flags size).
  assert (Hsize : 0 <= size < 2 ^ 32) by apply u32_range. clearbody size.
  destruct (Z.leb_spec (s32 size) 0) as [Hle|Hgt]; [by left|].
  assert (Hs : 0 < size < 2 ^ 31).
  { unfold s32 in Hgt. rewrite u32_small in Hgt by done. destruct (Z.ltb_spec size (2 ^ 31)); lia. }
  destruct (pmm_align_spec flags size Hs) as (Ha & Hov & Hd16 & Hdf). fold align in Ha, Hov, Hd16, Hdf.
  destruct (Z.eq_dec (Z.land flags 3) 0) as [Hz|Hnz]; [rewrite Hz; by left|].
  destruct (pmm_switch p flags size align st az Hinv ltac:(lia) Ha Hov Hup Hnz) as (r & st1 & Heq & Hc).
  destruct (flags_low2 flags) as ([?|Hk] & _); [done|]. 
  assert (Hres : forall T (x : T) y, match Z.land flags 3 with 1 | 2 | 3 => x | _ => y end = x)
    by (intros; destruct Hk as [-> | [-> | ->]]; done).
  rewrite Hres. cbv zeta in Heq. rewrite Heq. clear Heq Hres.
  destruct Hc as [(-> & Hi & He)|(z & Hg & He)]; [simpl; left; done|].
  destruct (got_sethandle az z size align r st1 (arg32 args 3)
    (truthy r && negb (arg32 args 3 =? MALLOC_DEFAULT_HANDLE)) Hg) as (st2 & -> & He2 & Hg2).
  right. destruct Hg2 as (Hr & Hdiv & Hrest). split_and!; [lia|lia|by etransitivity| |].
  - intros Hf. etransitivity; [apply Hdf, Hf|done].
  - exists z. split; [done|]. by rewrite He2.
Qed.
End PmmTheorems.

Section PmmFind.
Context {S : Type} `{Hlist S} `{Layout}.
Implicit Types (st : mstate (S := S)) (az : zstate).

(** A block whose handle was set is found again by PMM function 1 under that
    handle, as long as no other live bookkeeping struct holds the same handle. *)
Theorem pmm_find_handle args st az z n i h :
  malloc_inv st az -> (n, i) ∈ az z -> alloc_size i <> 0 -> range_start i <> n ->
  (forall z' m j, (m, j) ∈ az z' -> range_start j = m -> datainfo m <> n ->
     default 0 (ms_handle st !! m) <> h) ->
  arg32 args 1 = h -> h <> MALLOC_DEFAULT_HANDLE ->
  fst (handle_pmm01 args (malloc_sethandle (range_start i) h st)) = range_start i.
Proof.
  intros (Hrep & Hi & Ho) Hin Hsz Hne Huniq Harg Hdef.
  destruct (user_detail st az z n i Hrep Ho Hin Hne) as (zd & D & d & Hn & HD & Hds & Hdz).
  unfold handle_pmm01. rewrite Harg, (proj2 (Z.eqb_neq h _) Hdef). simpl.
  unfold malloc_sethandle. rewrite (alloc_find_allocated st az z n i) by done.
  rewrite (zrep_info _ _ _ _ _ Hrep Hin), (proj2 (Z.eqb_neq n 0) (zrep_nonzero _ _ _ _ _ Hrep Hin)).
  rewrite (proj2 (Z.eqb_neq _ n)), (proj2 (Z.eqb_neq (alloc_size i) 0)) by done. simpl.
  unfold detail_of_datainfo. replace (n - 20) with D by (rewrite Hn; unfold datainfo; lia).
  set (st' := with_handle D h st). assert (Hrep' : zrep st' az) by done.
  set (P := fun info => (range_start (info_at st' info) =? info) &&
      (default 0 (ms_handle st' !! info) =? h)).
  assert (HP : forall z' m j, (m, j) ∈ az z' -> P m = true -> m = D).
  { intros z' m j Hm. unfold P. rewrite (zrep_info _ _ _ _ _ Hrep' Hm).
    intros [Hst%Z.eqb_eq Hh%Z.eqb_eq]%andb_true_iff. destruct (Z.eq_dec m D) as [|HmD]; [done|].
    simpl in Hh. rewrite lookup_insert_ne in Hh by congruence.
    exfalso. apply (Huniq z' m j Hm Hst); [rewrite Hn; unfold datainfo; lia|done]. }
  assert (HPD : P D = true).
  { unfold P. rewrite (zrep_info _ _ _ _ _ Hrep' HD), Hds, Z.eqb_refl. simpl.
    rewrite lookup_insert_eq. apply Z.eqb_refl. }
  pose proof HD as (A & B & HA)%list_elem_of_split.
  unfold malloc_findhandle. fold P. rewrite (search_zones_at st' Zones zd P D).
  - rewrite (proj2 (Z.eqb_neq D 0) (zrep_nonzero _ _ _ _ _ Hrep HD)), <- Hn.
    by rewrite (zrep_info _ _ _ _ _ Hrep' Hin).
  - apply elem_Zones.
  - eapply find_node_zone; [done|done|done|]. intros m j Hm.
    destruct (P m) eqn:HPm; [|done]. exfalso.
    assert (Hmz : (m, j) ∈ az zd) by (rewrite HA, elem_mid, elem_of_app; auto).
    rewrite (HP zd m j Hmz HPm) in Hm.
    apply (zrep_mid st az zd A D d B D j Hrep HA); [rewrite elem_of_app; auto|done].
  - by apply (zrep_nonzero _ _ _ _ _ Hrep HD).
  - intros z' Hz. apply find_node_none. intros m Hm. rewrite (zrep_nodes _ _ _ Hrep') in Hm.
    apply list_elem_of_fmap in Hm as ([m' j] & -> & Hm). simpl.
    destruct (P m') eqn:HPm; [|done]. rewrite (HP z' m' j Hm HPm) in Hm.
    by destruct (zrep_distinct _ _ _ _ _ _ _ Hrep Hm HD).
Qed.
End PmmFind.

#[local] Existing Instance Demo.layout.

(** A permanent high allocation of 0x20 paragraphs with handle 0x1234. *)
Definition pmm_demo_args (i : Z) : Z :=
  match i with 1 => 0x20 | 3 => 0x1234 | 5 => 14 | _ => 0 end.

Lemma pmm_alloc_correct_witness :
  exists r, fst (handle_pmm00 false pmm_demo_args Demo.st2) = r /\ r = 0x14fe00 /\
    (2 ^ 9 | r) /\ pmm_got Demo.az2 (ms_e820 Demo.st2) 14 0x200 (pmm_align 14 0x200) r
       (snd (handle_pmm00 false pmm_demo_args Demo.st2)).
Proof.
  assert (Hr : fst (handle_pmm00 false pmm_demo_args Demo.st2) = 0x14fe00) by (vm_compute; reflexivity).
  pose proof (pmm_alloc_correct false pmm_demo_args Demo.st2 Demo.az2 Demo.inv2 eq_refl ltac:(done)) as Hc.
  destruct (handle_pmm00 false pmm_demo_args Demo.st2) as [r st']. simpl in Hr. subst r.
  destruct Hc as [[Hr _]|(_ & _ & Hal & Hg)]; [done|]. exists 0x14fe00.
  split_and!; [done|done|exact (Hal eq_refl)|exact Hg].
Defined.

(** The state after one allocation. *)
Definition st3 := snd (malloc_palloc false ZoneHigh 100 16 Demo.st2).
Definition az3 : zstate :=
  match az_palloc ZoneHigh 100 16 Demo.az2 with Some (_, _, az) => az | None => Demo.az0 end.

Lemma inv3 : malloc_inv st3 az3.
Proof.
  destruct Demo.inv2 as (Hrep & Hi & Ho).
  pose proof (palloc_refines false ZoneHigh 100 16 Demo.st2 Demo.az2 Hrep Hi Ho ltac:(lia)
    Demo.pow2_16 ltac:(lia) ltac:(by right)) as Hr. unfold st3, az3.
  destruct (az_palloc ZoneHigh 100 16 Demo.az2) as [[[v D] az']|] eqn:E; [|by vm_compute in E].
  destruct Hr as (_ & st' & -> & Hrep' & _ & Hi' & Ho'). done.
Qed.

Definition pmm_find_args (i : Z) : Z := match i with 1 => 0x1234 | _ => 0 end.

Lemma pmm_find_handle_witness :
  fst (handle_pmm01 pmm_find_args (malloc_sethandle 0x14ff90 0x1234 st3)) = 0x14ff90.
Proof.
  apply (pmm_find_handle pmm_find_args st3 az3 ZoneHigh (datainfo 0x10ff70)
    (Allocinfo 0x14ff90 0x150000 100) 0x1234 inv3).
  - vm_compute. by left.
  - done.
  - done.
  - intros z m j Hm _ _. destruct z; vm_compute in Hm;
      repeat (apply elem_of_cons in Hm as [[= -> ->]|Hm]; [vm_compute; discriminate|]);
      destruct (not_elem_of_nil _ Hm).
  - done.
  - done.
Defined.
