(* ===== verification/Kbd.v ===== *)
(** * Keyboard services: src/kbd.c

    The key buffer of the BIOS data area, the INT 16h handlers, and the
    translation of scan codes ([__process_key]).  Talking to the keyboard device
    ([kbd_command], which picks the USB or the PS/2 driver) is a parameter. *)
From S2P Require Import Prelude Machine.
Local Open Scope seabios_scope.

Definition KF0_RSHIFT := 0x1.
Definition KF0_LSHIFT := 0x2.
Definition KF0_CTRLACTIVE := 0x4.
Definition KF0_ALTACTIVE := 0x8.
Definition KF0_SCROLLACTIVE := 0x10.
Definition KF0_NUMACTIVE := 0x20.
Definition KF0_CAPSACTIVE := 0x40.
Definition KF0_LCTRL := 0x100.
Definition KF0_LALT := 0x200.
Definition KF0_SCROLL := 0x1000.
Definition KF0_NUM := 0x2000.
Definition KF0_CAPS := 0x4000.
Definition KF1_LAST_E1 := 0x1.
Definition KF1_LAST_E0 := 0x2.
Definition KF1_RCTRL := 0x4.
Definition KF1_RALT := 0x8.
Definition KF1_101KBD := 0x10.
Definition ATKBD_CMD_SETLEDS := 0x10ed.
Definition ATKBD_CMD_GETID := 0x02f2.

(** ** The key buffer *)

Definition kbd_init (m : memory) : memory :=
  let x := BDA.kbd_buf in
  let m := write8 BDA.kbd_flag1 KF1_101KBD m in
  let m := write16 BDA.kbd_buf_head x m in
  let m := write16 BDA.kbd_buf_tail x m in
  let m := write16 BDA.kbd_buf_start_offset x m in
  write16 BDA.kbd_buf_end_offset (x + BDA.kbd_buf_size) m.

Definition enqueue_key (keycode : Z) (m : memory) : Z * memory :=
  let buffer_start := read16 m BDA.kbd_buf_start_offset in
  let buffer_end := read16 m BDA.kbd_buf_end_offset in
  let buffer_head := read16 m BDA.kbd_buf_head in
  let buffer_tail := read16 m BDA.kbd_buf_tail in
  let temp_tail := buffer_tail in
  let buffer_tail := u16 (buffer_tail + 2) in
  let buffer_tail := if buffer_end <=? buffer_tail then buffer_start else buffer_tail in
  if buffer_tail =? buffer_head then (0, m)
  else
    let m := write16 (bda temp_tail) keycode m in
    (1, write16 BDA.kbd_buf_tail buffer_tail m).

(** The key code [dequeue_key] reports for a buffered one. *)
Definition translate_key (keycode : Z) (extended : bool) : Z :=
  let ascii := Z.land keycode 0xff in
  let keycode :=
    if negb extended then
      if (ascii =? 0xe0) && truthy (Z.land keycode 0xff00) then Z.land keycode 0xff00
      else if (keycode =? 0xe00d) || (keycode =? 0xe00a) then Z.lor 0x1c00 ascii
      else if keycode =? 0xe02f then 0x352f
      else keycode
    else keycode in
  if (ascii =? 0xf0) && truthy (Z.land keycode 0xff00) then Z.land keycode 0xff00 else keycode.

(** The advance of [buffer_head] past the key that was read. *)
Definition dequeue_advance (buffer_head : Z) (m : memory) : memory :=
  let buffer_start := read16 m BDA.kbd_buf_start_offset in
  let buffer_end := read16 m BDA.kbd_buf_end_offset in
  let buffer_head := u16 (buffer_head + 2) in
  let buffer_head := if buffer_end <=? buffer_head then buffer_start else buffer_head in
  write16 BDA.kbd_buf_head buffer_head m.

Section Kbd.
Context {W : Type} `{Env W}.
Context (kbd_command : Z -> list Z -> M W (Z * list Z)).
Context (CONFIG_KEYBOARD CONFIG_KBD_CALL_INT15_4F : bool).

Definition lift {A} (f : memory -> A * memory) : M W A :=
  fun s => let '(x, m) := f (mc_mem s) in Some (x, Machine m (mc_world s)).

(** The [for (;;)] of [dequeue_key]: wait until a key is there; [None] when the
    buffer is empty and the caller does not want to wait. *)
Fixpoint dequeue_wait (fuel : nat) (incr : bool) : M W (option Z) :=
  buffer_head <- get16 BDA.kbd_buf_head ;;
  buffer_tail <- get16 BDA.kbd_buf_tail ;;
  if negb (buffer_head =? buffer_tail) then ret (Some buffer_head)
  else if negb incr then ret None
  else
    match fuel with
    | O => fun _ => None
    | S fuel' => do yield_toirq ;; dequeue_wait fuel' incr
    end.

Definition dequeue_key (fuel : nat) (regs : bregs) (incr extended : bool) : M W bregs :=
  do yield ;;
  head <- dequeue_wait fuel incr ;;
  match head with
  | None => ret (set_flags (Z.lor (r_flags regs) F_ZF) regs)
  | Some buffer_head =>
    keycode <- get16 (bda buffer_head) ;;
    let regs := set_ax (translate_key keycode extended) regs in
    if negb incr then ret (set_flags (Z.land (r_flags regs) (u16 (Z.lnot F_ZF))) regs)
    else do upd_mem (dequeue_advance buffer_head) ;; ret regs
  end.

(** ** INT 16h *)

Definition handle_1600 (fuel : nat) (regs : bregs) := dequeue_key fuel regs true false.
Definition handle_1601 (fuel : nat) (regs : bregs) := dequeue_key fuel regs false false.
Definition handle_1602 (regs : bregs) : M W bregs :=
  do yield ;; f0 <- get16 BDA.kbd_flag0 ;; ret (set_al f0 regs).
Definition handle_1605 (regs : bregs) : M W bregs :=
  r <- lift (enqueue_key (r_cx regs)) ;; ret (set_al (b2z (r =? 0)) regs).
Definition handle_1609 (regs : bregs) : M W bregs := ret (set_al 0x30 regs).
Definition handle_160a (regs : bregs) : M W bregs :=
  res <- kbd_command ATKBD_CMD_GETID [0; 0] ;;
  let '(r, param) := res in
  if truthy r then ret (set_bx 0 regs)
  else ret (set_bx (Z.lor (Z.shiftl (nth 1 param 0) 8) (nth 0 param 0)) regs).
Definition handle_1610 (fuel : nat) (regs : bregs) := dequeue_key fuel regs true true.
Definition handle_1611 (fuel : nat) (regs : bregs) := dequeue_key fuel regs false true.
Definition handle_1612 (regs : bregs) : M W bregs :=
  do yield ;;
  f0 <- get16 BDA.kbd_flag0 ;;
  f1 <- get8 BDA.kbd_flag1 ;;
  let mask := Z.lor KF1_RCTRL KF1_RALT in
  ret (set_ax (Z.lor (Z.land f0 (Z.lnot (Z.shiftl mask 8))) (Z.shiftl (Z.land f1 mask) 8)) regs).
Definition handle_166f (regs : bregs) : M W bregs :=
  ret (if r_al regs =? 0x08 then set_ah 2 regs else regs).
Definition handle_1692 (regs : bregs) : M W bregs := ret (set_ah 0x80 regs).
Definition handle_16a2 (regs : bregs) : M W bregs := ret regs.
(** [warn_unimplemented] only logs. *)
Definition handle_16XX (regs : bregs) : M W bregs := ret regs.

Definition set_leds : M W unit :=
  f0 <- get16 BDA.kbd_flag0 ;;
  let shift_flags := Z.land (Z.shiftr f0 4) 0x07 in
  kbd_led <- get8 BDA.kbd_led ;;
  let led_flags := Z.land kbd_led 0x07 in
  if shift_flags =? led_flags then ret tt
  else
    res <- kbd_command ATKBD_CMD_SETLEDS [shift_flags] ;;
    if truthy (fst res) then ret tt
    else put8 BDA.kbd_led (Z.lor (Z.land kbd_led (Z.lnot 0x07)) shift_flags).

Definition handle_16 (fuel : nat) (regs : bregs) : M W bregs :=
  if negb CONFIG_KEYBOARD then ret regs
  else
    do set_leds ;;
    match r_ah regs with
    | 0x00 => handle_1600 fuel regs
    | 0x01 => handle_1601 fuel regs
    | 0x02 => handle_1602 regs
    | 0x05 => handle_1605 regs
    | 0x09 => handle_1609 regs
    | 0x0a => handle_160a regs
    | 0x10 => handle_1610 fuel regs
    | 0x11 => handle_1611 fuel regs
    | 0x12 => handle_1612 regs
    | 0x92 => handle_1692 regs
    | 0xa2 => handle_16a2 regs
    | 0x6f => handle_166f regs
    | _ => handle_16XX regs
    end.
End Kbd.

(** ** Scan codes *)

Record scaninfo := Scaninfo { normal : Z; shift : Z; control : Z; alt : Z }.

Definition scan_to_keycode : list scaninfo :=
  [
   Scaninfo 0 0 0 0; Scaninfo 0x011b 0x011b 0x011b 0x01f0; Scaninfo 0x0231 0x0221 0 0x7800;
   Scaninfo 0x0332 0x0340 0x0300 0x7900; Scaninfo 0x0433 0x0423 0 0x7a00; Scaninfo 0x0534 0x0524 0 0x7b00;
   Scaninfo 0x0635 0x0625 0 0x7c00; Scaninfo 0x0736 0x075e 0x071e 0x7d00; Scaninfo 0x0837 0x0826 0 0x7e00;
   Scaninfo 0x0938 0x092a 0 0x7f00; Scaninfo 0x0a39 0x0a28 0 0x8000; Scaninfo 0x0b30 0x0b29 0 0x8100;
   Scaninfo 0x0c2d 0x0c5f 0x0c1f 0x8200; Scaninfo 0x0d3d 0x0d2b 0 0x8300; Scaninfo 0x0e08 0x0e08 0x0e7f 0x0ef0;
   Scaninfo 0x0f09 0x0f00 0x9400 0xa5f0; Scaninfo 0x1071 0x1051 0x1011 0x1000; Scaninfo 0x1177 0x1157 0x1117 0x1100;
   Scaninfo 0x1265 0x1245 0x1205 0x1200; Scaninfo 0x1372 0x1352 0x1312 0x1300; Scaninfo 0x1474 0x1454 0x1414 0x1400;
   Scaninfo 0x1579 0x1559 0x1519 0x1500; Scaninfo 0x1675 0x1655 0x1615 0x1600; Scaninfo 0x1769 0x1749 0x1709 0x1700;
   Scaninfo 0x186f 0x184f 0x180f 0x1800; Scaninfo 0x1970 0x1950 0x1910 0x1900; Scaninfo 0x1a5b 0x1a7b 0x1a1b 0x1af0;
   Scaninfo 0x1b5d 0x1b7d 0x1b1d 0x1bf0; Scaninfo 0x1c0d 0x1c0d 0x1c0a 0x1cf0; Scaninfo 0 0 0 0;
   Scaninfo 0x1e61 0x1e41 0x1e01 0x1e00; Scaninfo 0x1f73 0x1f53 0x1f13 0x1f00; Scaninfo 0x2064 0x2044 0x2004 0x2000;
   Scaninfo 0x2166 0x2146 0x2106 0x2100; Scaninfo 0x2267 0x2247 0x2207 0x2200; Scaninfo 0x2368 0x2348 0x2308 0x2300;
   Scaninfo 0x246a 0x244a 0x240a 0x2400; Scaninfo 0x256b 0x254b 0x250b 0x2500; Scaninfo 0x266c 0x264c 0x260c 0x2600;
   Scaninfo 0x273b 0x273a 0 0x27f0; Scaninfo 0x2827 0x2822 0 0x28f0; Scaninfo 0x2960 0x297e 0 0x29f0;
   Scaninfo 0 0 0 0; Scaninfo 0x2b5c 0x2b7c 0x2b1c 0x2bf0; Scaninfo 0x2c7a 0x2c5a 0x2c1a 0x2c00;
   Scaninfo 0x2d78 0x2d58 0x2d18 0x2d00; Scaninfo 0x2e63 0x2e43 0x2e03 0x2e00; Scaninfo 0x2f76 0x2f56 0x2f16 0x2f00;
   Scaninfo 0x3062 0x3042 0x3002 0x3000; Scaninfo 0x316e 0x314e 0x310e 0x3100; Scaninfo 0x326d 0x324d 0x320d 0x3200;
   Scaninfo 0x332c 0x333c 0 0x33f0; Scaninfo 0x342e 0x343e 0 0x34f0; Scaninfo 0x352f 0x353f 0 0x35f0;
   Scaninfo 0 0 0 0; Scaninfo 0x372a 0x372a 0x9600 0x37f0; Scaninfo 0 0 0 0;
   Scaninfo 0x3920 0x3920 0x3920 0x3920; Scaninfo 0 0 0 0; Scaninfo 0x3b00 0x5400 0x5e00 0x6800;
   Scaninfo 0x3c00 0x5500 0x5f00 0x6900; Scaninfo 0x3d00 0x5600 0x6000 0x6a00; Scaninfo 0x3e00 0x5700 0x6100 0x6b00;
   Scaninfo 0x3f00 0x5800 0x6200 0x6c00; Scaninfo 0x4000 0x5900 0x6300 0x6d00; Scaninfo 0x4100 0x5a00 0x6400 0x6e00;
   Scaninfo 0x4200 0x5b00 0x6500 0x6f00; Scaninfo 0x4300 0x5c00 0x6600 0x7000; Scaninfo 0x4400 0x5d00 0x6700 0x7100;
   Scaninfo 0 0 0 0; Scaninfo 0 0 0 0; Scaninfo 0x4700 0x4737 0x7700 0;
   Scaninfo 0x4800 0x4838 0x8d00 0; Scaninfo 0x4900 0x4939 0x8400 0; Scaninfo 0x4a2d 0x4a2d 0x8e00 0x4af0;
   Scaninfo 0x4b00 0x4b34 0x7300 0; Scaninfo 0x4c00 0x4c35 0x8f00 0; Scaninfo 0x4d00 0x4d36 0x7400 0;
   Scaninfo 0x4e2b 0x4e2b 0x9000 0x4ef0; Scaninfo 0x4f00 0x4f31 0x7500 0; Scaninfo 0x5000 0x5032 0x9100 0;
   Scaninfo 0x5100 0x5133 0x7600 0; Scaninfo 0x5200 0x5230 0x9200 0; Scaninfo 0x5300 0x532e 0x9300 0;
   Scaninfo 0 0 0 0; Scaninfo 0 0 0 0; Scaninfo 0x565c 0x567c 0 0;
   Scaninfo 0x8500 0x8700 0x8900 0x8b00; Scaninfo 0x8600 0x8800 0x8a00 0x8c00].

Definition key_ext_enter : scaninfo := Scaninfo 0xe00d 0xe00d 0xe00a 0xa600.
Definition key_ext_slash : scaninfo := Scaninfo 0xe02f 0xe02f 0x9500 0xa400.

Fixpoint ascii_to_keycode_loop (l : list scaninfo) (ascii : Z) : Z :=
  match l with
  | [] => 0
  | i :: l' =>
    if Z.land (normal i) 0xff =? ascii then normal i
    else if Z.land (shift i) 0xff =? ascii then shift i
    else if Z.land (control i) 0xff =? ascii then control i
    else ascii_to_keycode_loop l' ascii
  end.

Definition ascii_to_keycode (ascii : Z) : Z := ascii_to_keycode_loop scan_to_keycode ascii.

Definition kbd_set_flag (key_release : bool) (set_bit0 set_bit1 toggle_bit : Z) (m : memory)
    : memory :=
  let flags0 := read16 m BDA.kbd_flag0 in
  let flags1 := read8 m BDA.kbd_flag1 in
  let '(flags0, flags1) :=
    if key_release then (Z.land flags0 (Z.lnot set_bit0), Z.land flags1 (Z.lnot set_bit1))
    else (Z.lor (Z.lxor flags0 toggle_bit) set_bit0, Z.lor flags1 set_bit1) in
  write8 BDA.kbd_flag1 flags1 (write16 BDA.kbd_flag0 flags0 m).

(** The key code of a generic key: the part of [__process_key] from the choice of
    [info] on. *)
Definition generic_keycode (flags0 flags1 scancode : Z) : Z :=
  let last_e0 := truthy (Z.land flags1 KF1_LAST_E0) in
  let info :=
    if last_e0 && ((scancode =? 0x1c) || (scancode =? 0x35))
    then (if scancode =? 0x1c then key_ext_enter else key_ext_slash)
    else nth (Z.to_nat scancode) scan_to_keycode (Scaninfo 0 0 0 0) in
  let keypad := (0x47 <=? scancode) && (scancode <=? 0x53) in
  let keycode :=
    if truthy (Z.land flags0 KF0_ALTACTIVE) then alt info
    else if truthy (Z.land flags0 KF0_CTRLACTIVE) then control info
    else
      let useshift := truthy (Z.land flags0 (Z.lor KF0_RSHIFT KF0_LSHIFT)) in
      let ascii := Z.land (normal info) 0xff in
      let useshift :=
        if (truthy (Z.land flags0 KF0_NUMACTIVE) && keypad)
           || (truthy (Z.land flags0 KF0_CAPSACTIVE) && (97 <=? ascii) && (ascii <=? 122))
        then negb useshift else useshift in
      if useshift then shift info else normal info in
  if last_e0 && keypad then
    if truthy (Z.land flags0 KF0_ALTACTIVE) then u16 (Z.shiftl (scancode + 0x50) 8)
    else Z.lor (Z.land keycode 0xff00) 0xe0
  else keycode.

(** [reset ()] restarts the machine: the handler does not return from it. *)
Inductive outcome := Done | Reset.

Section ProcessKey.
Context {W : Type} `{Env W}.
Context (CONFIG_KEYBOARD CONFIG_KBD_CALL_INT15_4F : bool).

(** A software interrupt whose registers are not looked at afterwards. *)
Definition call_int (nr : Z) (br : bregs) : M W unit := do call16_int nr br ;; ret tt.

Definition kbd_ctrl_break (key_release : bool) : M W unit :=
  if negb key_release then ret tt
  else
    buffer_start <- get16 BDA.kbd_buf_start_offset ;;
    do put16 BDA.kbd_buf_head buffer_start ;;
    do put16 BDA.kbd_buf_tail (buffer_start + 2) ;;
    do put16 (bda buffer_start) 0x0000 ;;
    do put8 BDA.break_flag 0x80 ;;
    call_int 0x1b (set_flags F_IF bregs_zero).

Definition kbd_sysreq (key_release : bool) : M W unit :=
  call_int 0x15 (set_flags F_IF (set_al (b2z key_release) (set_ah 0x85 bregs_zero))).

Definition kbd_prtscr (key_release : bool) : M W unit :=
  if key_release then ret tt else call_int 0x05 (set_flags F_IF bregs_zero).

Definition finish (c : M W unit) : M W outcome := do c ;; ret Done.

(** The part of [__process_key] after the special keys. *)
Definition generic_key (scancode flags1 : Z) (key_release : bool) : M W outcome :=
  if key_release then ret Done
  else if (scancode =? 0) || (Z.of_nat (length scan_to_keycode) <=? scancode) then ret Done
  else
    flags0 <- get16 BDA.kbd_flag0 ;;
    let keycode := generic_keycode flags0 flags1 scancode in
    if truthy keycode then finish (do lift (enqueue_key keycode) ;; ret tt) else ret Done.

(** The switch over the special keys. *)
Definition special_key (scancode flags1 : Z) (key_release : bool) : M W outcome :=
  let e0 := truthy (Z.land flags1 KF1_LAST_E0) in
  let set_flag b0 b1 t := finish (upd_mem (kbd_set_flag key_release b0 b1 t)) in
  match scancode with
  | 0x3a => set_flag KF0_CAPS 0 KF0_CAPSACTIVE
  | 0x2a => if e0 then ret Done else set_flag KF0_LSHIFT 0 0
  | 0x36 => if e0 then ret Done else set_flag KF0_RSHIFT 0 0
  | 0x1d => if e0 then set_flag KF0_CTRLACTIVE KF1_RCTRL 0
            else set_flag (Z.lor KF0_CTRLACTIVE KF0_LCTRL) 0 0
  | 0x38 => if e0 then set_flag KF0_ALTACTIVE KF1_RALT 0
            else set_flag (Z.lor KF0_ALTACTIVE KF0_LALT) 0 0
  | 0x45 => if truthy (Z.land flags1 KF1_LAST_E1) then ret Done
            else set_flag KF0_NUM 0 KF0_NUMACTIVE
  | 0x46 => if e0 then finish (kbd_ctrl_break key_release)
            else set_flag KF0_SCROLL 0 KF0_SCROLLACTIVE
  | 0x37 => if e0 then finish (kbd_prtscr key_release) else generic_key scancode flags1 key_release
  | 0x54 => finish (kbd_sysreq key_release)
  | 0x53 =>
    f0 <- get16 BDA.kbd_flag0 ;;
    let both := Z.lor KF0_CTRLACTIVE KF0_ALTACTIVE in
    if (Z.land f0 both =? both) && negb key_release
    then do put16 BDA.soft_reset_flag 0x1234 ;; ret Reset
    else generic_key scancode flags1 key_release
  | _ => generic_key scancode flags1 key_release
  end.

Definition __process_key (scancode : Z) : M W outcome :=
  flags1 <- get8 BDA.kbd_flag1 ;;
  if (scancode =? 0xe0) || (scancode =? 0xe1) then
    let eflag := if scancode =? 0xe0 then KF1_LAST_E0 else KF1_LAST_E1 in
    finish (put8 BDA.kbd_flag1 (Z.lor flags1 eflag))
  else
    let key_release := truthy (Z.land scancode 0x80) in
    let scancode := Z.land scancode (u8 (Z.lnot 0x80)) in
    if truthy (Z.land flags1 (Z.lor KF1_LAST_E0 KF1_LAST_E1)) then
      if truthy (Z.land flags1 KF1_LAST_E1) && (scancode =? 0x1d) then ret Done
      else
        do put8 BDA.kbd_flag1 (Z.land flags1 (Z.lnot (Z.lor KF1_LAST_E0 KF1_LAST_E1))) ;;
        special_key scancode flags1 key_release
    else special_key scancode flags1 key_release.

Definition process_key (key : Z) : M W outcome :=
  if negb CONFIG_KEYBOARD then ret Done
  else if CONFIG_KBD_CALL_INT15_4F then
    br <- call16_int 0x15 (set_flags (Z.lor F_IF F_CF)
            (set_eax (Z.lor (Z.shiftl 0x4f 8) key) bregs_zero)) ;;
    if negb (cf_set br) then ret Done else __process_key (r_al br)
  else __process_key key.
End ProcessKey.

(** ** The buffer is a queue *)

(** Index arithmetic on a ring of [n] slots, for indices below [2 * n]. *)
Definition wrap (n x : Z) : Z := if x <? n then x else x - n.

(** The buffer of the BIOS data area holds the key codes [q], oldest first; it has
    [n] slots, one of which stays free. *)
Record kbd_queue (m : memory) (s n a : Z) (q : list Z) : Prop := KbdQueue {
  kq_start : read16 m BDA.kbd_buf_start_offset = s;
  kq_end : read16 m BDA.kbd_buf_end_offset = s + 2 * n;
  kq_head : read16 m BDA.kbd_buf_head = s + 2 * a;
  kq_tail : read16 m BDA.kbd_buf_tail = s + 2 * wrap n (a + Z.of_nat (length q));
  kq_bounds : 0 <= s /\ s + 2 * n < 2 ^ 16 /\ 0 <= a < n;
  kq_free : Z.of_nat (length q) < n;
  (** the slots do not overlap the fields *)
  kq_apart : bda s + 2 * n <= BDA.kbd_buf_head \/
             BDA.kbd_buf_tail + 2 <= bda s /\ bda s + 2 * n <= BDA.kbd_buf_start_offset \/
             BDA.kbd_buf_end_offset + 2 <= bda s;
  kq_slots i k : q !! i = Some k -> read16 m (bda (s + 2 * wrap n (a + Z.of_nat i))) = k }.

Definition kbd_rep (m : memory) (n : Z) (q : list Z) : Prop := exists s a, kbd_queue m s n a q.

Ltac wrap_lia := unfold wrap in *; repeat case_match; zbool.

Lemma kbd_init_rep m : kbd_rep (kbd_init m) 16 [].
Proof.
  exists BDA.kbd_buf, 0. unfold kbd_init. split; bda_unfold; mem_simpl; simpl; try (unfold u16, wrap; simpl; lia).
  done.
Qed.

Lemma enqueue_key_full m n q k :
  kbd_rep m n q -> Z.of_nat (length q) + 1 = n -> enqueue_key k m = (0, m).
Proof.
  intros (s & a & [Hs He Hh Ht (Hb1 & Hb2 & Hb3) Hf _ _]) Hlen.
  unfold enqueue_key. rewrite Hs, He, Hh, Ht.
  rewrite u16_small by wrap_lia.
  destruct (Z.leb_spec (s + 2 * n) (s + 2 * wrap n (a + Z.of_nat (length q)) + 2)) as [Hle|Hle].
  - rewrite (proj2 (Z.eqb_eq _ _)); [done|]. wrap_lia.
  - rewrite (proj2 (Z.eqb_eq _ _)); [done|]. wrap_lia.
Qed.

(** The next slot, as the code computes it. *)
Lemma next_slot s n x : 0 <= s -> s + 2 * n < 2 ^ 16 -> 0 <= x < n ->
  (if s + 2 * n <=? u16 (s + 2 * x + 2) then s else u16 (s + 2 * x + 2)) = s + 2 * wrap n (x + 1).
Proof. intros. rewrite u16_small by lia. wrap_lia. Qed.

Lemma enqueue_key_room m n q k :
  kbd_rep m n q -> Z.of_nat (length q) + 1 < n ->
  exists m', enqueue_key k m = (1, m') /\ kbd_rep m' n (q ++ [u16 k]).
Proof.
  intros (s & a & [Hs He Hh Ht (Hb1 & Hb2 & Hb3) Hf Hap Hsl]) Hlen.
  unfold enqueue_key. rewrite Hs, He, Hh, Ht.
  set (t := wrap n (a + Z.of_nat (length q))) in *.
  assert (Htr : 0 <= t < n) by (unfold t; wrap_lia).
  rewrite next_slot by done.
  assert (Hnext : wrap n (t + 1) = wrap n (a + Z.of_nat (length (q ++ [u16 k])))).
  { rewrite length_app. simpl. unfold t. wrap_lia. }
  rewrite (proj2 (Z.eqb_neq _ _)) by (rewrite Hnext, length_app; simpl; wrap_lia).
  eexists. split; [done|]. exists s, a. rewrite Hnext. bda_unfold. split; bda_unfold.
  - mem_simpl. done.
  - mem_simpl. done.
  - mem_simpl. done.
  - mem_simpl. rewrite u16_small; [done|]. rewrite <- Hnext. wrap_lia.
  - done.
  - rewrite length_app. simpl. lia.
  - done.
  - intros i k' Hi. apply lookup_app_Some in Hi as [Hi|[Hge Hi]].
    + pose proof (lookup_lt_Some _ _ _ Hi) as Hlt.
      rewrite !read16_write16_ne; [by apply Hsl| |].
      * unfold t. wrap_lia.
      * wrap_lia.
    + apply list_lookup_singleton_Some in Hi as [Hi <-].
      replace (Z.of_nat i) with (Z.of_nat (length q)) by lia. fold t.
      rewrite read16_write16_ne, read16_write16_eq; [done|]. lia.
Qed.

(** C27: the key buffer is a bounded queue: [enqueue_key] appends the key code as
    long as a slot besides the free one is left, and otherwise returns 0 and
    changes nothing. *)
Theorem enqueue_key_correct m n q k :
  kbd_rep m n q ->
  if Z.of_nat (length q) + 1 <? n
  then exists m', enqueue_key k m = (1, m') /\ kbd_rep m' n (q ++ [u16 k])
  else enqueue_key k m = (0, m).
Proof.
  intros Hq. destruct (Z.ltb_spec (Z.of_nat (length q) + 1) n); [by apply enqueue_key_room|].
  destruct Hq as (s & a & Hq). pose proof (kq_free _ _ _ _ _ Hq).
  apply (enqueue_key_full m n q); [by exists s, a|lia].
Qed.

Lemma dequeue_advance_rep m s n a q k :
  kbd_queue m s n a (k :: q) -> kbd_rep (dequeue_advance (s + 2 * a) m) n q.
Proof.
  intros [Hs He Hh Ht (Hb1 & Hb2 & Hb3) Hf Hap Hsl]. simpl in Hf, Ht.
  unfold dequeue_advance. rewrite Hs, He, next_slot by done.
  exists s, (wrap n (a + 1)).
  assert (Hw : forall i, 0 <= i -> i + 1 <= n -> wrap n (wrap n (a + 1) + i) = wrap n (a + (i + 1)))
    by (intros; wrap_lia).
  bda_unfold. split; bda_unfold.
  - mem_simpl. done.
  - mem_simpl. done.
  - mem_simpl. apply u16_small. wrap_lia.
  - mem_simpl. rewrite Hw by lia. rewrite Ht. do 3 f_equal. lia.
  - wrap_lia.
  - lia.
  - done.
  - intros i k' Hi. pose proof (lookup_lt_Some _ _ _ Hi) as Hlt.
    rewrite Hw by lia. rewrite <- (Hsl (Datatypes.S i) k' Hi).
    replace (Z.of_nat (Datatypes.S i)) with (Z.of_nat i + 1) by lia.
    rewrite read16_write16_ne; [done|]. wrap_lia.
Qed.

(** ** Waiting for a key *)

Section Dequeue.
Context {W : Type} `{Env W}.

(** The machine after [i] rounds of waiting. *)
Fixpoint waited (i : nat) (s : machine W) : machine W :=
  match i with
  | O => s
  | Datatypes.S i' => waited i' (env_yield_toirq s)
  end.

Definition queue_of (s : machine W) (n : Z) (q : list Z) : Prop := kbd_rep (mc_mem s) n q.

Lemma dequeue_wait_spec n k q incr i : forall s fuel,
  (i <= fuel)%nat -> (forall j, (j < i)%nat -> queue_of (waited j s) n []) ->
  queue_of (waited i s) n (k :: q) -> (incr = true \/ i = 0%nat) ->
  exists head, dequeue_wait fuel incr s = Some (Some head, waited i s) /\
    exists b a, head = b + 2 * a /\ kbd_queue (mc_mem (waited i s)) b n a (k :: q).
Proof.
  induction i as [|i IH]; intros s fuel Hfuel Hempty Hq Hincr.
  - destruct Hq as (b & a & Hq). pose proof Hq as [_ _ Hh Ht _ Hf _ _]. simpl in *.
    assert (Hne : read16 (mc_mem s) BDA.kbd_buf_head <> read16 (mc_mem s) BDA.kbd_buf_tail).
    { rewrite Hh, Ht. pose proof (kq_bounds _ _ _ _ _ Hq). wrap_lia. }
    exists (b + 2 * a). split; [|by exists b, a].
    destruct fuel; simpl; unfold bind, get16; rewrite (proj2 (Z.eqb_neq _ _) Hne); simpl; by rewrite Hh.
  - destruct Hincr as [-> |]; [|done]. destruct fuel as [|fuel]; [lia|].
    destruct (Hempty 0%nat ltac:(lia)) as (b & a & Hq0). pose proof Hq0 as [_ _ Hh Ht _ Hf _ _]. simpl in *.
    assert (Heq : read16 (mc_mem s) BDA.kbd_buf_head = read16 (mc_mem s) BDA.kbd_buf_tail).
    { rewrite Hh, Ht. pose proof (kq_bounds _ _ _ _ _ Hq0). wrap_lia. }
    destruct (IH (env_yield_toirq s) fuel) as (head & Hw & Hr); [lia| |done|by left|].
    { intros j Hj. apply (Hempty (Datatypes.S j)). lia. }
    exists head. split; [|done]. unfold bind, get16.
    rewrite (proj2 (Z.eqb_eq _ _) Heq). simpl. exact Hw.
Qed.

(** INT 16h functions 00h and 10h, given enough fuel, return the oldest key in
    the buffer as soon as the interrupt handlers have put one there, however long
    that takes, and remove that key only. *)
Theorem dequeue_key_correct fuel regs extended n k q i s :
  (i <= fuel)%nat ->
  (forall j, (j < i)%nat -> queue_of (waited j (env_yield s)) n []) ->
  queue_of (waited i (env_yield s)) n (k :: q) ->
  exists m', kbd_rep m' n q /\
    dequeue_key fuel regs true extended s =
    Some (set_ax (translate_key k extended) regs, Machine m' (mc_world (waited i (env_yield s)))).
Proof.
  intros Hfuel Hempty Hq.
  destruct (dequeue_wait_spec n k q true i (env_yield s) fuel Hfuel Hempty Hq ltac:(by left))
    as (head & Hw & b & a & -> & Hqa).
  exists (dequeue_advance (b + 2 * a) (mc_mem (waited i (env_yield s)))).
  split; [by eapply dequeue_advance_rep|].
  unfold dequeue_key, bind, yield, upd_mem. rewrite Hw. unfold get16. simpl.
  pose proof (kq_slots _ _ _ _ _ Hqa 0%nat k eq_refl) as Hk. simpl in Hk.
  rewrite Z.add_0_r in Hk. replace (wrap n a) with a in Hk
    by (pose proof (kq_bounds _ _ _ _ _ Hqa); wrap_lia). by rewrite Hk.
Qed.

(** INT 16h functions 01h and 11h never wait: they report the oldest key
    with ZF clear and leave it in the buffer, or set ZF on an empty buffer; the
    memory does not change. *)
Theorem peek_key_correct fuel regs extended n q s :
  queue_of (env_yield s) n q ->
  dequeue_key fuel regs false extended s =
  Some (match q with
        | [] => set_flags (Z.lor (r_flags regs) F_ZF) regs
        | k :: _ => let regs := set_ax (translate_key k extended) regs in
                    set_flags (Z.land (r_flags regs) (u16 (Z.lnot F_ZF))) regs
        end, env_yield s).
Proof.
  intros Hq. destruct q as [|k q].
  - destruct Hq as (b & a & Hq). pose proof Hq as [_ _ Hh Ht _ Hf _ _].
    assert (Heq : read16 (mc_mem (env_yield s)) BDA.kbd_buf_head = read16 (mc_mem (env_yield s)) BDA.kbd_buf_tail).
    { rewrite Hh, Ht. pose proof (kq_bounds _ _ _ _ _ Hq). simpl. wrap_lia. }
    unfold dequeue_key, bind, yield. destruct fuel; simpl; unfold bind, get16;
      rewrite (proj2 (Z.eqb_eq _ _) Heq); done.
  - destruct (dequeue_wait_spec n k q false 0 (env_yield s) fuel) as (head & Hw & b & a & -> & Hqa);
      [lia|lia|done|by right|].
    unfold dequeue_key, bind, yield. rewrite Hw. unfold get16. simpl.
    pose proof (kq_slots _ _ _ _ _ Hqa 0%nat k eq_refl) as Hk. simpl in Hk, Hqa.
    rewrite Z.add_0_r in Hk. replace (wrap n a) with a in Hk
      by (pose proof (kq_bounds _ _ _ _ _ Hqa); wrap_lia). rewrite Hk. by destruct (env_yield s).
Qed.
End Dequeue.

(** ** Scan code sequences *)

Section Sequences.
Context {W : Type} `{Env W}.
Implicit Types (s : machine W) (m : memory).

(** The keyboard interrupt hands over one scan code at a time. *)
Fixpoint process_keys (codes : list Z) : M W outcome :=
  match codes with
  | [] => ret Done
  | c :: codes' => o <- __process_key c ;; match o with Done => process_keys codes' | Reset => ret Reset end
  end.

Lemma e0_bit f : truthy (Z.land f KF1_LAST_E0) = Z.testbit f 1.
Proof. apply (truthy_land_bit f 1). lia. Qed.

Lemma e1_bit f : truthy (Z.land f KF1_LAST_E1) = Z.testbit f 0.
Proof. apply (truthy_land_bit f 0). lia. Qed.

Lemma prefix_bits f :
  truthy (Z.land f (Z.lor KF1_LAST_E0 KF1_LAST_E1)) = Z.testbit f 1 || Z.testbit f 0.
Proof. by rewrite truthy_land_lor, e0_bit, e1_bit. Qed.

(** [__process_key] on a code that is not a prefix. *)
Lemma process_key_code c s f :
  c <> 0xe0 -> c <> 0xe1 -> read8 (mc_mem s) BDA.kbd_flag1 = f ->
  __process_key c s =
  (if Z.testbit f 1 || Z.testbit f 0 then
     if Z.testbit f 0 && (Z.land c 0x7f =? 0x1d) then ret Done
     else do put8 BDA.kbd_flag1 (Z.land f (Z.lnot 3)) ;;
          special_key (Z.land c 0x7f) f (truthy (Z.land c 0x80))
   else special_key (Z.land c 0x7f) f (truthy (Z.land c 0x80))) s.
Proof.
  intros H0 H1 Hf. unfold __process_key, bind at 1, get8. rewrite Hf.
  rewrite !(proj2 (Z.eqb_neq c _)) by done. simpl. rewrite prefix_bits, e1_bit.
  change (u8 (Z.lnot 128)) with 0x7f. done.
Qed.

Lemma u8_lor f b : 0 <= f < 2 ^ 8 -> 0 <= b < 2 ^ 8 -> u8 (Z.lor f b) = Z.lor f b.
Proof. intros. apply u8_small, lor_pow2_range; lia. Qed.

Lemma u8_land_lnot f b : 0 <= f < 2 ^ 8 -> u8 (Z.land f (Z.lnot b)) = Z.land f (Z.lnot b).
Proof.
  intros Hf. apply u8_small. rewrite <- Z.ldiff_land. split; [apply Z.ldiff_nonneg; lia|].
  rewrite <- (Z.mod_small f (2 ^ 8)) by lia. rewrite <- Z.land_ones, Z.ldiff_land by lia.
  rewrite <- Z.land_assoc, (Z.land_comm _ (Z.lnot b)), Z.land_assoc, Z.land_ones by lia. lia.
Qed.

Lemma process_keys_app l1 l2 s s' :
  process_keys l1 s = Some (Done, s') -> process_keys (l1 ++ l2) s = process_keys l2 s'.
Proof.
  revert s. induction l1 as [|c l1 IH]; intros s; simpl; [by intros [= ->]|].
  unfold bind. destruct (__process_key c s) as [[[] s1]|]; [apply IH|done|done].
Qed.

(** Each half of the sequence, the press and the release, sets and clears the E1
    mark. *)
Lemma pause_half s x y :
  bytes_ok (mc_mem s) -> Z.land x 0x7f = 0x1d -> Z.land y 0x7f = 0x45 ->
  x <> 0xe0 -> x <> 0xe1 -> y <> 0xe0 -> y <> 0xe1 ->
  let f := read8 (mc_mem s) BDA.kbd_flag1 in
  process_keys [0xe1; x; y] s =
  Some (Done, Machine (write8 BDA.kbd_flag1 (Z.land f (Z.lnot 3)) (write8 BDA.kbd_flag1 (Z.lor f 1) (mc_mem s)))
                (mc_world s)).
Proof.
  intros Hb Hx Hy Hx0 Hx1 Hy0 Hy1 f. pose proof (Hb BDA.kbd_flag1) as Hf. fold f in Hf.
  set (s1 := Machine (write8 BDA.kbd_flag1 (Z.lor f 1) (mc_mem s)) (mc_world s)).
  assert (Hf1 : read8 (mc_mem s1) BDA.kbd_flag1 = Z.lor f 1)
    by (simpl; rewrite read8_write8_eq; apply u8_lor; lia).
  assert (Hbit : Z.testbit (Z.lor f 1) 0 = true) by (rewrite Z.lor_spec; apply orb_true_r).
  assert (Hclr : Z.land (Z.lor f 1) (Z.lnot 3) = Z.land f (Z.lnot 3)).
  { rewrite Z.land_lor_distr_l. change (Z.land 1 (Z.lnot 3)) with 0. apply Z.lor_0_r. }
  change (process_keys [0xe1; x; y] s) with (process_keys [x; y] s1). simpl process_keys.
  unfold bind at 1. rewrite (process_key_code x s1 (Z.lor f 1) Hx0 Hx1 Hf1), Hbit, Hx.
  rewrite orb_true_r. simpl. unfold bind at 1.
  rewrite (process_key_code y s1 (Z.lor f 1) Hy0 Hy1 Hf1), Hbit, Hy, orb_true_r. simpl.
  unfold bind, put8, upd_mem. rewrite e1_bit, Hbit, Hclr. done.
Qed.

(** the six codes a Pause key sends are dropped: nothing reaches the buffer,
    no flag but the E0/E1 prefix marks changes, and those are clear afterwards. *)
Theorem pause_key_ignored s :
  bytes_ok (mc_mem s) ->
  exists m', process_keys [0xe1; 0x1d; 0x45; 0xe1; 0x9d; 0xc5] s = Some (Done, Machine m' (mc_world s)) /\
    read8 m' BDA.kbd_flag1 = Z.land (read8 (mc_mem s) BDA.kbd_flag1) (Z.lnot 3) /\
    forall a, a <> BDA.kbd_flag1 -> read8 m' a = read8 (mc_mem s) a.
Proof.
  intros Hb. pose proof (Hb BDA.kbd_flag1) as Hf.
  set (f := read8 (mc_mem s) BDA.kbd_flag1) in *.
  pose proof (pause_half s 0x1d 0x45 Hb eq_refl eq_refl ltac:(done) ltac:(done) ltac:(done) ltac:(done)) as H1.
  cbv zeta in H1. fold f in H1.
  change [0xe1; 0x1d; 0x45; 0xe1; 0x9d; 0xc5] with ([0xe1; 0x1d; 0x45] ++ [0xe1; 0x9d; 0xc5]).
  rewrite (process_keys_app _ _ _ _ H1), pause_half; [|simpl; auto with mem|done..].
  simpl mc_mem. simpl mc_world. eexists. split; [done|]. split.
  - rewrite !read8_write8_eq. pose proof (u8_land_lnot f 3 ltac:(lia)) as Hg.
    rewrite Hg, u8_land_lnot by (rewrite <- Hg; apply u8_range).
    rewrite <- Z.land_assoc, Z.land_diag. done.
  - intros a Ha. by rewrite !read8_write8_ne by done.
Qed.

(** The three lock keys: scan code, the bit that marks the key as held down, and
    the bit of the locked state. *)
Definition lock_keys : list (Z * Z * Z) :=
  [(0x3a, 14, 6); (0x45, 13, 5); (0x46, 12, 4)].

Lemma kbd_set_flag_keeps kr b0 b1 t m a :
  a < BDA.kbd_flag0 \/ BDA.kbd_flag0 + 1 < a -> a <> BDA.kbd_flag1 ->
  read8 (kbd_set_flag kr b0 b1 t m) a = read8 m a.
Proof.
  intros H0 H1. unfold kbd_set_flag. destruct kr; bda_unfold; by rewrite read8_write8_ne, read8_write16_ne by lia.
Qed.

(** Press and release of a lock key on the flag word. *)
Lemma lock_word f h t :
  0 <= f < 2 ^ 16 -> 0 <= h < 16 -> 0 <= t < 16 -> h <> t -> Z.testbit f h = false ->
  u16 (Z.land (u16 (Z.lor (Z.lxor f (2 ^ t)) (2 ^ h))) (Z.lnot (2 ^ h))) = Z.lxor f (2 ^ t).
Proof.
  intros Hf Hh Ht Hne Hb. apply Z.bits_inj'. intros n Hn. unfold u16.
  rewrite testbit_mod_pow2, Z.land_spec, testbit_mod_pow2, Z.lor_spec, Z.lxor_spec by lia.
  rewrite Z.lnot_spec, !Z.pow2_bits_eqb by lia.
  destruct (Z.ltb_spec n 16) as [Hlt|Hge]; simpl.
  - destruct (Z.eqb_spec h n) as [<-|]; [|by rewrite orb_false_r, andb_true_r].
    rewrite Hb. rewrite (proj2 (Z.eqb_neq t h)) by done. done.
  - rewrite (testbit_small f 16 n), (proj2 (Z.eqb_neq t n)) by lia. done.
Qed.

(** The flag word and the prefix byte after [kbd_set_flag] without a prefix bit. *)
Lemma set_flag_press b0 t m :
  let m' := kbd_set_flag false b0 0 t m in
  bytes_ok m -> read16 m' BDA.kbd_flag0 = u16 (Z.lor (Z.lxor (read16 m BDA.kbd_flag0) t) b0) /\
    read8 m' BDA.kbd_flag1 = read8 m BDA.kbd_flag1.
Proof.
  intros m' Hb. pose proof (Hb BDA.kbd_flag1). unfold m', kbd_set_flag. bda_unfold. mem_simpl.
  rewrite Z.lor_0_r. rewrite u8_small by lia. done.
Qed.

Lemma set_flag_release b0 t m :
  let m' := kbd_set_flag true b0 0 t m in
  bytes_ok m -> read16 m' BDA.kbd_flag0 = u16 (Z.land (read16 m BDA.kbd_flag0) (Z.lnot b0)) /\
    read8 m' BDA.kbd_flag1 = read8 m BDA.kbd_flag1.
Proof.
  intros m' Hb. pose proof (Hb BDA.kbd_flag1). unfold m', kbd_set_flag. bda_unfold. mem_simpl.
  change (Z.lnot 0) with (-1). rewrite Z.land_m1_r. rewrite u8_small by lia. done.
Qed.

Lemma bytes_ok_set_flag kr b0 b1 t m : bytes_ok m -> bytes_ok (kbd_set_flag kr b0 b1 t m).
Proof. intros. unfold kbd_set_flag. destruct kr; auto with mem. Qed.

(** One code of a lock key. *)
Lemma lock_step c h t (kr : bool) s f1 :
  (c, h, t) ∈ lock_keys -> read8 (mc_mem s) BDA.kbd_flag1 = f1 ->
  Z.testbit f1 1 = false -> Z.testbit f1 0 = false ->
  __process_key (if kr then Z.lor c 0x80 else c) s =
  Some (Done, Machine (kbd_set_flag kr (2 ^ h) 0 (2 ^ t) (mc_mem s)) (mc_world s)).
Proof.
  intros Hin Hf Hb1 Hb0. unfold lock_keys in Hin. rewrite !elem_of_cons in Hin.
  destruct Hin as [[= -> -> ->]|[[= -> -> ->]|[[= -> -> ->]|Hin]]]; [..|by apply not_elem_of_nil in Hin];
    (destruct kr; rewrite (process_key_code _ s f1); [|by vm_compute|by vm_compute|exact Hf|..];
     rewrite ?Hb1, ?Hb0; simpl;
     rewrite ?e0_bit, ?e1_bit, ?Hb1, ?Hb0; done).
Qed.

Lemma lock_bits c h t : (c, h, t) ∈ lock_keys -> 0 <= h < 16 /\ 0 <= t < 16 /\ h <> t.
Proof.
  unfold lock_keys. rewrite !elem_of_cons.
  intros [[= -> -> ->]|[[= -> -> ->]|[[= -> -> ->]|Hin]]]; [lia..|by apply not_elem_of_nil in Hin].
Qed.

(** Pressing and releasing Caps Lock, Num Lock or Scroll Lock (not held
    before, no prefix pending) toggles the lock's state bit and changes no other
    bit of the flags and no other byte of memory. *)
Theorem lock_key_toggles c h t s :
  (c, h, t) ∈ lock_keys -> bytes_ok (mc_mem s) ->
  Z.land (read8 (mc_mem s) BDA.kbd_flag1) 3 = 0 ->
  Z.testbit (read16 (mc_mem s) BDA.kbd_flag0) h = false ->
  exists m', process_keys [c; Z.lor c 0x80] s = Some (Done, Machine m' (mc_world s)) /\
    read16 m' BDA.kbd_flag0 = Z.lxor (read16 (mc_mem s) BDA.kbd_flag0) (2 ^ t) /\
    forall a, a <> BDA.kbd_flag0 -> a <> BDA.kbd_flag0 + 1 -> read8 m' a = read8 (mc_mem s) a.
Proof.
  intros Hin Hb Hpre Hh. destruct (lock_bits c h t Hin) as (Hhr & Htr & Hne).
  pose proof (prefix_bits (read8 (mc_mem s) BDA.kbd_flag1)) as Hp.
  change (Z.lor KF1_LAST_E0 KF1_LAST_E1) with 3 in Hp. rewrite Hpre in Hp.
  symmetry in Hp. apply orb_false_iff in Hp as [Hb1 Hb0].
  destruct (set_flag_press (2 ^ h) (2 ^ t) (mc_mem s) Hb) as [Hm1 Hm1f].
  set (m1 := kbd_set_flag false (2 ^ h) 0 (2 ^ t) (mc_mem s)) in *.
  assert (Hbm1 : bytes_ok m1) by by apply bytes_ok_set_flag.
  destruct (set_flag_release (2 ^ h) (2 ^ t) m1 Hbm1) as [Hm2 Hm2f].
  exists (kbd_set_flag true (2 ^ h) 0 (2 ^ t) m1). split_and!.
  - unfold process_keys, bind at 1. rewrite (lock_step c h t false s _ Hin eq_refl Hb1 Hb0).
    fold m1. unfold bind. by rewrite (lock_step c h t true (Machine m1 (mc_world s)) _ Hin Hm1f Hb1 Hb0).
  - rewrite Hm2, Hm1. apply lock_word; [by apply read16_range|lia..|done].
  - intros a Ha Ha'. destruct (Z.eq_dec a BDA.kbd_flag1) as [->|Hf1]; [by rewrite Hm2f|].
    unfold m1. rewrite !kbd_set_flag_keeps by lia. done.
Qed.

(** The rows of letters in the translation table. *)
Definition letter_row (sc : nat) : bool :=
  let i := nth sc scan_to_keycode (Scaninfo 0 0 0 0) in
  let ascii := Z.land (normal i) 0xff in
  (97 <=? ascii) && (ascii <=? 122).

Definition letter_row_ok (sc : nat) : bool :=
  let i := nth sc scan_to_keycode (Scaninfo 0 0 0 0) in
  let ascii := Z.land (normal i) 0xff in
  implb (letter_row sc)
    ((normal i =? 256 * Z.of_nat sc + ascii) && (shift i =? 256 * Z.of_nat sc + (ascii - 32)) &&
     negb (Z.of_nat sc =? 0x1c) && negb (Z.of_nat sc =? 0x35) && (Z.of_nat sc <? 0x47) &&
     bool_decide (Z.of_nat sc ∉ [0; 0x3a; 0x2a; 0x36; 0x1d; 0x38; 0x45; 0x46; 0x37; 0x54; 0x53])).

Lemma letter_rows sc : letter_row_ok sc = true.
Proof.
  destruct (decide (sc < 89)%nat) as [Hlt|Hge].
  - assert (Hall : forallb letter_row_ok (seq 0 89) = true) by (vm_compute; reflexivity).
    rewrite forallb_forall in Hall. apply Hall, in_seq. lia.
  - unfold letter_row_ok, letter_row. rewrite nth_overflow; [done|]. change (length _) with 89%nat. lia.
Qed.

Lemma letter_not_special sc f1 kr :
  letter_row sc = true -> special_key (Z.of_nat sc) f1 kr = generic_key (W := W) (Z.of_nat sc) f1 kr.
Proof.
  intros Hl. destruct (decide (sc < 89)%nat) as [Hlt|Hge].
  2: { unfold letter_row in Hl. rewrite nth_overflow in Hl; [done|]. change (length _) with 89%nat. lia. }
  pose proof (letter_rows sc) as Hok. unfold letter_row_ok in Hok. rewrite Hl in Hok. cbn [implb] in Hok.
  apply andb_true_iff in Hok as [_ Hns%bool_decide_eq_true].
  rewrite !not_elem_of_cons in Hns. destruct Hns as (_ & ? & ? & ? & ? & ? & ? & ? & ? & ? & ? & _).
  unfold special_key. destruct (Z.of_nat sc) as [|p|p]; [done| |done].
  do 7 (destruct p as [p|p|]; try done).
Qed.

(** The key code of a letter. *)
Lemma letter_generic sc f0 f1 :
  letter_row sc = true ->
  let letter := Z.land (normal (nth sc scan_to_keycode (Scaninfo 0 0 0 0))) 0xff in
  let shifted := Z.testbit f0 0 || Z.testbit f0 1 in
  Z.testbit f0 2 = false -> Z.testbit f0 3 = false ->
  0 < Z.of_nat sc < 0x47 /\ 97 <= letter <= 122 /\
  generic_keycode f0 f1 (Z.of_nat sc) =
    256 * Z.of_nat sc + (if xorb shifted (Z.testbit f0 6) then letter - 32 else letter).
Proof.
  intros Hl letter shifted Hctrl Halt. pose proof (letter_rows sc) as Hok.
  unfold letter_row_ok in Hok. rewrite Hl in Hok. cbn [implb] in Hok. fold letter in Hok.
  set (i := nth sc scan_to_keycode (Scaninfo 0 0 0 0)) in *.
  unfold letter_row in Hl. fold i letter in Hl.
  rewrite !andb_true_iff, !negb_true_iff, !Z.eqb_eq, !Z.eqb_neq, Z.ltb_lt in Hok.
  destruct Hok as [[[[[Hnorm Hshift] H1c] H35] Hlt] Hns%bool_decide_eq_true].
  apply not_elem_of_cons in Hns as [Hnz _].
  assert (Hlet : 97 <= letter <= 122) by (apply andb_true_iff in Hl as [?%Z.leb_le ?%Z.leb_le]; lia).
  split; [lia|]. split; [done|]. unfold generic_keycode. rewrite Nat2Z.id. fold i.
  rewrite (proj2 (Z.eqb_neq _ 0x1c)), (proj2 (Z.eqb_neq _ 0x35)), (proj2 (Z.leb_gt 0x47 _)) by lia.
  rewrite !andb_false_r. cbv beta zeta. cbn [orb andb]. fold letter.
  change KF0_ALTACTIVE with (2 ^ 3). change KF0_CTRLACTIVE with (2 ^ 2).
  change KF0_RSHIFT with (2 ^ 0). change KF0_LSHIFT with (2 ^ 1).
  change KF0_CAPSACTIVE with (2 ^ 6).
  rewrite (truthy_land_bit f0 3), (truthy_land_bit f0 2), Halt, Hctrl by lia.
  rewrite truthy_land_lor, (truthy_land_bit f0 0), (truthy_land_bit f0 1), (truthy_land_bit f0 6) by lia.
  fold shifted. rewrite ?andb_false_r. cbn [orb andb]. rewrite <- andb_assoc, Hl, andb_true_r.
  destruct shifted, (Z.testbit f0 6); cbn [negb xorb]; congruence.
Qed.

(** Pressing a letter key with neither Alt nor Ctrl active puts its scan code
    and its ASCII letter into the key buffer, upper case exactly when one of a
    shift key and Caps Lock is active. *)
Theorem letter_key_typed sc s :
  letter_row sc = true ->
  let f0 := read16 (mc_mem s) BDA.kbd_flag0 in
  let letter := Z.land (normal (nth sc scan_to_keycode (Scaninfo 0 0 0 0))) 0xff in
  let shifted := Z.testbit f0 0 || Z.testbit f0 1 in
  Z.testbit f0 2 = false -> Z.testbit f0 3 = false ->
  Z.land (read8 (mc_mem s) BDA.kbd_flag1) 3 = 0 ->
  __process_key (Z.of_nat sc) s =
  Some (Done, Machine (snd (enqueue_key
    (256 * Z.of_nat sc + (if xorb shifted (Z.testbit f0 6) then letter - 32 else letter)) (mc_mem s)))
    (mc_world s)).
Proof.
  intros Hl f0 letter shifted Hctrl Halt Hpre.
  destruct (letter_generic sc f0 (read8 (mc_mem s) BDA.kbd_flag1) Hl Hctrl Halt) as (Hsr & Hlet & Hkc).
  fold letter shifted in Hlet, Hkc.
  pose proof (prefix_bits (read8 (mc_mem s) BDA.kbd_flag1)) as Hp.
  change (Z.lor KF1_LAST_E0 KF1_LAST_E1) with 3 in Hp. rewrite Hpre in Hp.
  symmetry in Hp. apply orb_false_iff in Hp as [Hb1 Hb0].
  assert (Hsc : Z.land (Z.of_nat sc) 0x7f = Z.of_nat sc).
  { change 0x7f with (Z.ones 7). rewrite Z.land_ones by lia. apply Z.mod_small. lia. }
  assert (Hmk : truthy (Z.land (Z.of_nat sc) 0x80) = false).
  { change 0x80 with (2 ^ 7). rewrite truthy_land_bit by lia. apply (testbit_small _ 7); lia. }
  rewrite (process_key_code (Z.of_nat sc) s _ ltac:(lia) ltac:(lia) eq_refl), Hb1, Hb0, Hsc, Hmk.
  cbn [orb]. rewrite letter_not_special by done.
  unfold generic_key. rewrite (proj2 (Z.eqb_neq _ 0)) by lia.
  change (Z.of_nat (length scan_to_keycode)) with 89. rewrite (proj2 (Z.leb_gt 89 _)) by lia.
  cbn [orb]. unfold bind at 1, get16. cbv beta iota. fold f0. rewrite Hkc.
  set (kc := 256 * Z.of_nat sc + _).
  assert (truthy kc = true) as ->.
  { unfold truthy, kc. apply negb_true_iff, Z.eqb_neq. destruct (xorb _ _); lia. }
  unfold finish, bind, lift. by destruct (enqueue_key kc (mc_mem s)).
Qed.
End Sequences.

(** ** A concrete machine: the timer interrupt types an "a" *)

Module KbdDemo.

#[export] Instance env : Env unit := {|
  dev_inb _ w := (0, w);
  dev_outb _ _ w := w;
  env_yield s := s;
  env_yield_toirq s := Machine (snd (enqueue_key 0x1e61 (mc_mem s))) (mc_world s);
  env_int _ r s := (r, s) |}.

Definition m0 : memory := kbd_init ∅.
Definition s0 : machine unit := Machine m0 tt.

Lemma bytes0 : bytes_ok m0.
Proof. unfold m0, kbd_init. auto 10 with mem. Qed.

End KbdDemo.

#[local] Existing Instance KbdDemo.env.

Lemma enqueue_key_correct_witness :
  exists m', enqueue_key 0x1e61 KbdDemo.m0 = (1, m') /\ kbd_rep m' 16 [0x1e61].
Proof. apply (enqueue_key_correct KbdDemo.m0 16 [] 0x1e61). apply kbd_init_rep. Defined.

Lemma dequeue_key_correct_witness :
  exists m', kbd_rep m' 16 [] /\
    dequeue_key 5 bregs_zero true false KbdDemo.s0 = Some (set_ax 0x1e61 bregs_zero, Machine m' tt).
Proof.
  destruct (dequeue_key_correct 5 bregs_zero false 16 0x1e61 [] 1 KbdDemo.s0) as (m' & Hr & Hd); [lia| | |].
  - intros j Hj. assert (j = 0%nat) as -> by lia. apply kbd_init_rep.
  - unfold queue_of. simpl. destruct (enqueue_key_room KbdDemo.m0 16 [] 0x1e61) as (m' & -> & Hr);
      [apply kbd_init_rep|done|]. exact Hr.
  - exists m'. split; [exact Hr|]. rewrite Hd. destruct (mc_world _).
    replace (translate_key 0x1e61 false) with 0x1e61 by (vm_compute; reflexivity). reflexivity.
Defined.

Lemma peek_key_correct_witness :
  dequeue_key 0 bregs_zero false false KbdDemo.s0 = Some (set_flags 64 bregs_zero, KbdDemo.s0).
Proof.
  rewrite (peek_key_correct 0 bregs_zero false 16 [] KbdDemo.s0); [reflexivity|apply kbd_init_rep].
Defined.

Lemma pause_key_ignored_witness :
  exists m', process_keys [0xe1; 0x1d; 0x45; 0xe1; 0x9d; 0xc5] KbdDemo.s0 = Some (Done, Machine m' tt).
Proof.
  destruct (pause_key_ignored KbdDemo.s0 KbdDemo.bytes0) as (m' & Hr & _). exists m'. exact Hr.
Defined.

Lemma lock_key_toggles_witness :
  exists m', process_keys [0x3a; 0xba] KbdDemo.s0 = Some (Done, Machine m' tt) /\
    read16 m' BDA.kbd_flag0 = 0x40.
Proof.
  destruct (lock_key_toggles 0x3a 14 6 KbdDemo.s0) as (m' & Hr & Hf & _).
  - left.
  - exact KbdDemo.bytes0.
  - vm_compute. reflexivity.
  - vm_compute. reflexivity.
  - exists m'. split; [exact Hr|]. rewrite Hf. vm_compute. reflexivity.
Defined.

Lemma letter_key_typed_witness :
  __process_key 0x1e KbdDemo.s0 = Some (Done, Machine (snd (enqueue_key 0x1e61 KbdDemo.m0)) tt).
Proof.
  change 0x1e with (Z.of_nat 30). rewrite (letter_key_typed 30 KbdDemo.s0); vm_compute; reflexivity.
Defined.
