(* ===== verification/Timer.v ===== *)
(** * Internal timers and the real time clock: src/hw/timer.c, src/hw/rtc.c

    The timer value is a 32-bit count; a timer source of fewer bits is extended
    by [timer_adjust_bits].  The variables of the C files live in memory, at
    addresses the class [Vars] fixes.  Loops that wait for a device take fuel. *)
From S2P Require Import Prelude Machine.
Local Open Scope seabios_scope.

Definition PORT_PIT_COUNTER0 := 0x40.
Definition PORT_PIT_COUNTER2 := 0x42.
Definition PORT_PIT_MODE := 0x43.
Definition PORT_PS2_CTRLB := 0x61.
Definition PMTIMER_HZ := 3579545.
Definition PMTIMER_TO_PIT := 3.
Definition PIT_TICK_INTERVAL := 65536.
Definition CALIBRATE_COUNT := 0x800.
Definition CPUID_TSC := 16.
(** PM_SEL_TIMER2|PM_ACCESS_WORD|PM_MODE0, PM_SEL_READBACK|PM_READ_VALUE|PM_READ_COUNTER0,
    PM_SEL_TIMER0|PM_ACCESS_WORD|PM_MODE2 *)
Definition PM_CALIBRATE := 0xb0.
Definition PM_READBACK := 0xd2.
Definition PM_TICK := 0x34.
Definition PPCB_T2GATE := 1.
Definition PPCB_SPKR := 2.
Definition PPCB_T2OUT := 0x20.

Definition PORT_CMOS_INDEX := 0x70.
Definition PORT_CMOS_DATA := 0x71.
Definition NMI_DISABLE_BIT := 0x80.
Definition CMOS_RTC_SECONDS := 0x00.
Definition CMOS_RTC_SECONDS_ALARM := 0x01.
Definition CMOS_RTC_MINUTES := 0x02.
Definition CMOS_RTC_MINUTES_ALARM := 0x03.
Definition CMOS_RTC_HOURS := 0x04.
Definition CMOS_RTC_HOURS_ALARM := 0x05.
Definition CMOS_RTC_DAY_MONTH := 0x07.
Definition CMOS_RTC_MONTH := 0x08.
Definition CMOS_RTC_YEAR := 0x09.
Definition CMOS_STATUS_A := 0x0a.
Definition CMOS_STATUS_B := 0x0b.
Definition CMOS_STATUS_C := 0x0c.
Definition CMOS_STATUS_D := 0x0d.
Definition CMOS_CENTURY := 0x32.
Definition RTC_A_UIP := 0x80.
Definition RTC_B_SET := 0x80.
Definition RTC_B_PIE := 0x40.
Definition RTC_B_AIE := 0x20.
Definition RTC_B_24HR := 0x02.
Definition RTC_B_DSE := 0x01.

(** types.h [DIV_ROUND_UP], on u32 and on u64 operands. *)
Definition DIV_ROUND_UP (n d : Z) : Z := u32 (n + d - 1) / d.
Definition DIV_ROUND_UP64 (n d : Z) : Z := u64 (n + d - 1) / d.

(** Build options and the addresses of the variables. *)
Class Vars := {
  CONFIG_TSC_TIMER : bool;
  CONFIG_PMTIMER : bool;
  CONFIG_HARDWARE_IRQ : bool;
  CONFIG_RTC_TIMER : bool;
  TimerKHz : Z;
  TimerPort : Z;
  ShiftTSC : Z;
  TimerLast : Z;
  RTCusers : Z;
  Century : Z;
  last_timer_check : Z;
  (** none of them lies in the BIOS data area, and RTCusers is its own word *)
  vars_above z : z = TimerKHz \/ z = TimerPort \/ z = ShiftTSC \/ z = TimerLast \/
    z = RTCusers \/ z = Century \/ z = last_timer_check -> 0x500 <= z }.

(** CPU instructions the timer code reads clocks with. *)
Class Cpu (W : Type) := {
  cpu_rdtscll : W -> Z * W;
  cpu_cpuid : Z -> W -> (Z * Z * Z * Z);       (* eax, ebx, ecx, edx *)
  dev_inl : Z -> W -> Z * W }.

Section Timer.
Context {W : Type} `{Env W} `{Cpu W} `{Vars}.

Definition rdtscll : M W Z :=
  fun s => let '(v, w) := cpu_rdtscll (mc_world s) in Some (u64 v, Machine (mc_mem s) w).
Definition inl (port : Z) : M W Z :=
  fun s => let '(v, w) := dev_inl port (mc_world s) in Some (u32 v, Machine (mc_mem s) w).
Definition cpuid (leaf : Z) : M W (Z * Z * Z * Z) := fun s => Some (cpu_cpuid leaf (mc_world s), s).

(** ** Setup *)

Fixpoint calibrate_wait (fuel : nat) : M W unit :=
  v <- inb PORT_PS2_CTRLB ;;
  if Z.land v PPCB_T2OUT =? 0
  then match fuel with O => fun _ => None | S f => calibrate_wait f end
  else ret tt.

(** The [while (t >= (1<<24))] loop: the shift and the reduced rate. *)
Fixpoint shift_loop (fuel : nat) (shift t : Z) : option (Z * Z) :=
  if 2 ^ 24 <=? t then
    match fuel with
    | O => None
    | S f => shift_loop f (u8 (shift + 1)) (u64 (t + 1) / 2)
    end
  else Some (shift, t).

Definition tsctimer_setup (fuel : nat) : M W unit :=
  orig <- inb PORT_PS2_CTRLB ;;
  do outb (Z.lor (Z.land orig (Z.lnot PPCB_SPKR)) PPCB_T2GATE) PORT_PS2_CTRLB ;;
  do outb PM_CALIBRATE PORT_PIT_MODE ;;
  do outb (Z.land CALIBRATE_COUNT 0xff) PORT_PIT_COUNTER2 ;;
  do outb (Z.shiftr CALIBRATE_COUNT 8) PORT_PIT_COUNTER2 ;;
  start <- rdtscll ;;
  do calibrate_wait fuel ;;
  end_ <- rdtscll ;;
  do outb orig PORT_PS2_CTRLB ;;
  let diff := u64 (end_ - start) in
  let t := DIV_ROUND_UP64 (u64 (diff * PMTIMER_HZ)) CALIBRATE_COUNT in
  shift0 <- get8 ShiftTSC ;;
  match shift_loop 64 shift0 t with
  | None => fun _ => None
  | Some (shift, t) =>
    do put8 ShiftTSC shift ;;
    do put32 TimerKHz (DIV_ROUND_UP (u32 t) (1000 * PMTIMER_TO_PIT)) ;;
    put16 TimerPort 0
  end.

Definition timer_setup (fuel : nat) : M W unit :=
  port <- get16 TimerPort ;;
  if negb CONFIG_TSC_TIMER || (CONFIG_PMTIMER && negb (port =? PORT_PIT_COUNTER0)) then ret tt
  else
    r0 <- cpuid 0 ;;
    let '(eax, _, _, _) := r0 in
    cpuid_features <-
      (if 0 <? eax then r1 <- cpuid 1 ;; let '(_, _, _, edx) := r1 in ret edx else ret 0) ;;
    if truthy (Z.land cpuid_features CPUID_TSC) then tsctimer_setup fuel else ret tt.

Definition pmtimer_setup (ioport : Z) : M W unit :=
  if negb CONFIG_PMTIMER then ret tt
  else
    do put16 TimerPort ioport ;;
    put32 TimerKHz (DIV_ROUND_UP PMTIMER_HZ 1000).

(** ** Reading *)

(** [timer_adjust_bits] on the stored value. *)
Definition adjust_bits (last value validbits : Z) : Z :=
  let value := Z.lor (Z.land last (u32 (Z.lnot validbits))) (Z.land value validbits) in
  if value <? last then u32 (value + (validbits + 1)) else value.

Definition timer_adjust_bits (value validbits : Z) : M W Z :=
  last <- get32 TimerLast ;;
  let value := adjust_bits last value validbits in
  do put32 TimerLast value ;; ret value.

Definition timer_read : M W Z :=
  port <- get16 TimerPort ;;
  if CONFIG_TSC_TIMER && (port =? 0) then
    v <- rdtscll ;; shift <- get8 ShiftTSC ;; ret (u32 (Z.shiftr v shift))
  else if CONFIG_PMTIMER && negb (port =? PORT_PIT_COUNTER0) then
    v <- inl port ;; timer_adjust_bits v 0xffffff
  else
    do outb PM_READBACK PORT_PIT_MODE ;;
    lo <- inb PORT_PIT_COUNTER0 ;;
    hi <- inb PORT_PIT_COUNTER0 ;;
    timer_adjust_bits (Z.lor lo (Z.shiftl hi 8)) 0xffff.

Definition timer_calc (msecs : Z) : M W Z :=
  cur <- timer_read ;; khz <- get32 TimerKHz ;; ret (u32 (cur + khz * msecs)).

Definition timer_calc_usec (usecs : Z) : M W Z :=
  cur <- timer_read ;; khz <- get32 TimerKHz ;;
  if 500000 <? usecs then ret (u32 (cur + DIV_ROUND_UP usecs 1000 * khz))
  else ret (u32 (cur + DIV_ROUND_UP (u32 (usecs * khz)) 1000)).

Definition timer_calc_nsec (nsecs : Z) : M W Z :=
  cur <- timer_read ;; khz <- get32 TimerKHz ;;
  if 500000 <? nsecs then ret (u32 (cur + DIV_ROUND_UP nsecs 1000000 * khz))
  else ret (u32 (cur + DIV_ROUND_UP (u32 (nsecs * khz)) 1000000)).

(** The comparison of [timer_check]. *)
Definition time_after (now end_ : Z) : bool := 0 <? s32 (now - end_).

Definition timer_check (end_ : Z) : M W bool :=
  now <- timer_read ;; ret (time_after now end_).

Fixpoint timer_delay (fuel : nat) (end_ : Z) : M W unit :=
  c <- timer_check end_ ;;
  if c then ret tt
  else match fuel with O => fun _ => None | S f => timer_delay f end_ end.

Fixpoint timer_sleep (fuel : nat) (end_ : Z) : M W unit :=
  c <- timer_check end_ ;;
  if c then ret tt
  else match fuel with O => fun _ => None | S f => do yield ;; timer_sleep f end_ end.

Definition ndelay (fuel : nat) (count : Z) : M W unit := e <- timer_calc_nsec count ;; timer_delay fuel e.
Definition udelay (fuel : nat) (count : Z) : M W unit := e <- timer_calc_usec count ;; timer_delay fuel e.
Definition mdelay (fuel : nat) (count : Z) : M W unit := e <- timer_calc count ;; timer_delay fuel e.
Definition nsleep (fuel : nat) (count : Z) : M W unit := e <- timer_calc_nsec count ;; timer_sleep fuel e.
Definition usleep (fuel : nat) (count : Z) : M W unit := e <- timer_calc_usec count ;; timer_sleep fuel e.
Definition msleep (fuel : nat) (count : Z) : M W unit := e <- timer_calc count ;; timer_sleep fuel e.

(** ** The periodic tick *)

Definition ticks_to_ms (ticks : Z) : Z :=
  let t := u32 (PIT_TICK_INTERVAL * 1000 * PMTIMER_TO_PIT * ticks) in
  DIV_ROUND_UP t PMTIMER_HZ.

Definition ticks_from_ms (ms : Z) : Z :=
  let t := u32 (DIV_ROUND_UP64 (u64 (ms * PMTIMER_HZ)) PIT_TICK_INTERVAL) in
  DIV_ROUND_UP t (1000 * PMTIMER_TO_PIT).

Definition pit_setup : M W unit :=
  if negb CONFIG_HARDWARE_IRQ then ret tt
  else
    do outb PM_TICK PORT_PIT_MODE ;;
    do outb 0x0 PORT_PIT_COUNTER0 ;;
    outb 0x0 PORT_PIT_COUNTER0.

(** ** The CMOS clock: hw/rtc.c *)

Definition rtc_read (index : Z) : M W Z :=
  do outb (Z.lor index NMI_DISABLE_BIT) PORT_CMOS_INDEX ;; inb PORT_CMOS_DATA.

Definition rtc_write (index val : Z) : M W unit :=
  do outb (Z.lor index NMI_DISABLE_BIT) PORT_CMOS_INDEX ;; outb val PORT_CMOS_DATA.

Definition rtc_mask (index off on : Z) : M W unit :=
  do outb (Z.lor index NMI_DISABLE_BIT) PORT_CMOS_INDEX ;;
  val <- inb PORT_CMOS_DATA ;;
  outb (Z.lor (Z.land val (Z.lnot off)) on) PORT_CMOS_DATA.

(** The loop of [rtc_updating], which ends when the update does or the time is
    over. *)
Fixpoint rtc_updating_loop (fuel : nat) (end_ : Z) : M W Z :=
  a <- rtc_read CMOS_STATUS_A ;;
  if Z.land a RTC_A_UIP =? 0 then ret 0
  else
    c <- timer_check end_ ;;
    if c then ret (-1)
    else match fuel with O => fun _ => None | S f => do yield ;; rtc_updating_loop f end_ end.

Definition rtc_updating (fuel : nat) : M W Z :=
  a <- rtc_read CMOS_STATUS_A ;;
  if Z.land a RTC_A_UIP =? 0 then ret 0
  else end_ <- timer_calc 15 ;; rtc_updating_loop fuel end_.

Definition rtc_setup : M W unit :=
  if negb CONFIG_RTC_TIMER then ret tt
  else
    do rtc_write CMOS_STATUS_A 0x26 ;;
    do rtc_mask CMOS_STATUS_B (u8 (Z.lnot RTC_B_DSE)) RTC_B_24HR ;;
    do rtc_read CMOS_STATUS_C ;;
    do rtc_read CMOS_STATUS_D ;; ret tt.

Definition rtc_use : M W unit :=
  if negb CONFIG_RTC_TIMER then ret tt
  else
    count <- get32 RTCusers ;;
    do put32 RTCusers (count + 1) ;;
    if truthy count then ret tt else rtc_mask CMOS_STATUS_B 0 RTC_B_PIE.

Definition rtc_release : M W unit :=
  if negb CONFIG_RTC_TIMER then ret tt
  else
    count <- get32 RTCusers ;;
    do put32 RTCusers (count - 1) ;;
    if negb (count =? 1) then ret tt else rtc_mask CMOS_STATUS_B RTC_B_PIE 0.
End Timer.

(** ** Extending a short counter *)

(** [timer_adjust_bits]: if the counter behind the reading has advanced by less
    than its period since the last reading, the result is its full count. *)
Lemma adjust_bits_count k N N' v :
  0 <= k < 32 -> N <= N' < N + 2 ^ k -> v mod 2 ^ k = N' mod 2 ^ k ->
  adjust_bits (u32 N) v (2 ^ k - 1) = u32 N'.
Proof.
  intros Hk HN Hv. assert (HP : 0 < 2 ^ k) by (apply Z.pow_pos_nonneg; lia).
  assert (HQ : exists Q, 2 ^ 32 = Q * 2 ^ k /\ 0 < Q).
  { exists (2 ^ (32 - k)). rewrite <- Z.pow_add_r by lia. split; [f_equal; lia|apply Z.pow_pos_nonneg; lia]. }
  pose proof (u32_range N) as HL.
  assert (Hval : Z.lor (Z.land (u32 N) (u32 (Z.lnot (2 ^ k - 1)))) (Z.land v (2 ^ k - 1)) =
    u32 N - u32 N mod 2 ^ k + N' mod 2 ^ k).
  { unfold u32 at 2. rewrite land_lnot_mask by lia.
    replace (2 ^ k - 1) with (Z.ones k) by (rewrite Z.ones_equiv; lia).
    by rewrite Z.land_ones, lor_add_low, Hv by lia. }
  unfold adjust_bits. rewrite Hval. clear Hval.
  assert (HN32 : exists c, N = c * 2 ^ 32 + u32 N) by (exists (N / 2 ^ 32); unfold u32; lia).
  assert (HR : forall x r c, 0 <= r < 2 ^ 32 -> x = c * 2 ^ 32 + r -> u32 x = r) by (unfold u32; lia).
  set (L := u32 N) in *. clearbody L. destruct HQ as (Q & HQ & HQ0). destruct HN32 as (c & Hc).
  set (P := 2 ^ k) in *. clearbody P. rewrite HQ in *. clear HQ.
  pose proof (Z.div_mod L P ltac:(lia)) as HLd. pose proof (Z.mod_pos_bound L P HP) as HLm.
  set (a := L / P) in *. set (b := L mod P) in *. clearbody a b.
  assert (Ha : 0 <= a) by nia. assert (HaQ : a < Q) by nia.
  assert (HaP : a * P + P <= Q * P) by nia.
  assert (Hmod : forall r q, 0 <= r < P -> N' = q * P + r -> N' mod P = r).
  { intros r q Hr Hq. rewrite Hq, Z.add_comm, Z.mod_add by lia. apply Z.mod_small. lia. }
  destruct (Z.lt_ge_cases (b + (N' - N)) P) as [Hlt|Hge].
  - rewrite (Hmod (b + (N' - N)) (c * Q + a)) by nia.
    rewrite (proj2 (Z.ltb_ge _ _)) by lia. symmetry. apply (HR _ _ c); lia.
  - rewrite (Hmod (b + (N' - N) - P) (c * Q + a + 1)) by nia.
    rewrite (proj2 (Z.ltb_lt _ _)) by lia.
    replace (L - b + (b + (N' - N) - P) + (P - 1 + 1)) with (L + (N' - N)) by lia.
    destruct (Z.lt_ge_cases (L + (N' - N)) (Q * P)).
    + rewrite (HR N' (L + (N' - N)) c) by lia. apply (HR _ _ 0); lia.
    + rewrite (HR N' (L + (N' - N) - Q * P) (c + 1)) by lia. apply (HR _ _ 1); lia.
Qed.

(** [timer_check] compares the full counts while they are within half the range. *)
Lemma time_after_count N E : - 2 ^ 31 < N - E < 2 ^ 31 -> time_after (u32 N) (u32 E) = (E <? N).
Proof.
  intros Hd. unfold time_after, s32.
  replace (u32 (u32 N - u32 E)) with (u32 (N - E)) by (unfold u32; lia).
  unfold u32. zbool.
Qed.

(** ** Waiting on the ACPI PM timer *)

Section PmTimer.
Context {W : Type} `{Env W} `{Cpu W} `{Vars}.

(** The device: reading the port advances the world by [adv]; the register shows
    the low 24 bits of an unbounded count, which moves by less than one period
    between two reads. *)
Context (clock : W -> Z) (adv : W -> W) (port : Z).
Hypothesis inl_clock : forall w, dev_inl port w = (clock (adv w) mod 2 ^ 24, adv w).
Hypothesis clock_moves : forall w, clock w <= clock (adv w) < clock w + 2 ^ 24.

(** The BIOS variables agree with the device. *)
Definition pmtimer_sync (s : machine W) : Prop :=
  CONFIG_PMTIMER = true /\ read16 (mc_mem s) TimerPort = port /\ port <> 0 /\
  port <> PORT_PIT_COUNTER0 /\ (TimerPort + 1 < TimerLast \/ TimerLast + 3 < TimerPort).

Definition in_step (s : machine W) : Prop :=
  pmtimer_sync s /\ read32 (mc_mem s) TimerLast = u32 (clock (mc_world s)).

Lemma timer_read_count s : in_step s ->
  exists s', timer_read s = Some (u32 (clock (adv (mc_world s))), s') /\
    mc_world s' = adv (mc_world s) /\ in_step s'.
Proof.
  intros [Hs Hl]. destruct s as [m w]. simpl in *.
  eexists. split; [|split].
  - destruct Hs as (Hc & Hp & Hp0 & Hp1 & _). simpl in Hp.
    unfold timer_read, bind at 1, get16. simpl. rewrite Hp, Hc.
    rewrite (proj2 (Z.eqb_neq port 0)), (proj2 (Z.eqb_neq port _)), andb_false_r by done. simpl.
    unfold bind, inl. simpl. rewrite inl_clock. unfold timer_adjust_bits, bind, get32, put32, upd_mem, ret. simpl.
    rewrite Hl. change 16777215 with (2 ^ 24 - 1).
    rewrite (adjust_bits_count 24 (clock w) (clock (adv w))); [done|lia|apply clock_moves|].
    unfold u32. lia.
  - done.
  - split; [|simpl; rewrite read32_write32_eq; apply u32_idem].
    unfold pmtimer_sync in *. simpl in *. destruct Hs as (? & ? & ? & ? & ?).
      split_and!; try done. by rewrite read16_write32_ne by lia.
Qed.

Fixpoint reads (n : nat) (w : W) : W := match n with O => w | S n' => reads n' (adv w) end.

(** [timer_delay], polling the PM timer, returns as soon as the clock has
    passed the end time and not before, although only 24 bits of the clock can be
    read and the 32-bit values wrap around. *)
Theorem timer_delay_correct fuel n E s :
  in_step s ->
  (forall i, (1 <= i <= n)%nat -> E - 2 ^ 31 < clock (reads i (mc_world s)) <= E) ->
  E < clock (reads (S n) (mc_world s)) < E + 2 ^ 31 -> (n <= fuel)%nat ->
  exists s', timer_delay fuel (u32 E) s = Some (tt, s') /\ mc_world s' = reads (S n) (mc_world s) /\
    in_step s'.
Proof.
  revert fuel s. induction n as [|n IH]; intros fuel s Hs Hbefore Hafter Hfuel.
  - destruct (timer_read_count s Hs) as (s' & Hr & Hw & Hs').
    exists s'. split; [|done].
    assert (Hc : timer_check (u32 E) s = Some (true, s')).
    { unfold timer_check, bind. rewrite Hr. unfold ret. simpl in Hafter.
      rewrite time_after_count by lia. by rewrite (proj2 (Z.ltb_lt _ _)) by lia. }
    destruct fuel; simpl; unfold bind; rewrite Hc; done.
  - destruct fuel as [|fuel]; [lia|]. destruct (timer_read_count s Hs) as (s' & Hr & Hw & Hs').
    destruct (IH fuel s') as (s2 & Hd & Hw2 & Hs2); [done| | |lia|].
    + intros i Hi. rewrite Hw. apply (Hbefore (S i)). lia.
    + rewrite Hw. exact Hafter.
    + exists s2. rewrite Hw in Hw2. split; [|done]. simpl. unfold bind.
      assert (Hc : timer_check (u32 E) s = Some (false, s')).
      { unfold timer_check, bind. rewrite Hr. unfold ret. specialize (Hbefore 1%nat ltac:(lia)). simpl in Hbefore.
        rewrite time_after_count by lia. by rewrite (proj2 (Z.ltb_ge _ _)) by lia. }
      by rewrite Hc.
Qed.
End PmTimer.

(** ** Milliseconds and ticks *)

(** Up to 78634234 ms (21:50:34) [ticks_from_ms] is the least number of timer
    interrupts that lasts at least the given time. *)
Theorem ticks_from_ms_least ms :
  0 <= ms <= 78634234 ->
  let interval := PIT_TICK_INTERVAL * (1000 * PMTIMER_TO_PIT) in
  ms * PMTIMER_HZ <= ticks_from_ms ms * interval /\
  forall t, ms * PMTIMER_HZ <= t * interval -> ticks_from_ms ms <= t.
Proof.
  intros Hms interval.
  assert (Ht : ticks_from_ms ms = ((ms * 3579545 + 65535) / 65536 + 2999) / 3000).
  { unfold ticks_from_ms, DIV_ROUND_UP, DIV_ROUND_UP64, PMTIMER_HZ, PIT_TICK_INTERVAL, PMTIMER_TO_PIT.
    rewrite (u64_small (ms * 3579545)), (u64_small (ms * 3579545 + 65536 - 1)) by lia.
    rewrite (u32_small ((ms * 3579545 + 65536 - 1) / 65536)) by lia.
    rewrite u32_small by lia. do 2 f_equal; lia. }
  rewrite Ht. change (interval) with 196608000. change PMTIMER_HZ with 3579545. clear Ht interval.
  set (x := ms * 3579545). split; [lia|]. intros t Hle.
  assert (Hq : (x + 65535) / 65536 <= t * 3000) by (apply Z.lt_succ_r, Z.div_lt_upper_bound; lia).
  apply Z.lt_succ_r, Z.div_lt_upper_bound; lia.
Qed.

Lemma ticks_from_ms_least_witness :
  43200000 * PMTIMER_HZ <= ticks_from_ms 43200000 * (PIT_TICK_INTERVAL * (1000 * PMTIMER_TO_PIT)).
Proof. apply (ticks_from_ms_least 43200000). lia. Defined.

(** Later in the day the 32-bit intermediate overflows: for the last second of
    the day [ticks_from_ms] gives 141369 ticks, which is less than two and a half
    hours. *)
Theorem ticks_from_ms_overflow :
  ticks_from_ms 86399000 = 141369 /\
  ticks_from_ms 86399000 * (PIT_TICK_INTERVAL * (1000 * PMTIMER_TO_PIT)) < 9000000 * PMTIMER_HZ.
Proof. split; [reflexivity|reflexivity]. Qed.

(** ** A concrete PM timer: every read takes a thousand counts *)

Module TimerDemo.

#[export] Instance vars : Vars.
Proof.
  refine {| CONFIG_TSC_TIMER := true; CONFIG_PMTIMER := true; CONFIG_HARDWARE_IRQ := true;
    CONFIG_RTC_TIMER := true; TimerKHz := 0xf6900; TimerPort := 0xf6904; ShiftTSC := 0xf6906;
    TimerLast := 0xe9000; RTCusers := 0xe9004; Century := 0xe9008; last_timer_check := 0xe900c |}.
  lia.
Defined.

#[export] Instance env : Env Z := {|
  dev_inb _ w := (0, w); dev_outb _ _ w := w; env_yield s := s; env_yield_toirq s := s;
  env_int _ r s := (r, s) |}.

#[export] Instance cpu : Cpu Z := {|
  cpu_rdtscll w := (w, w); cpu_cpuid _ _ := (0, 0, 0, 0);
  dev_inl _ w := ((w + 1000) mod 2 ^ 24, w + 1000) |}.

Definition m0 : memory := write32 0xe9000 0xfffff000 (write16 0xf6904 0x608 ∅).

End TimerDemo.

#[local] Existing Instance TimerDemo.vars.
#[local] Existing Instance TimerDemo.env.
#[local] Existing Instance TimerDemo.cpu.

(** A delay across the wrap-around of the 32-bit count. *)
Lemma timer_delay_correct_witness :
  exists s', timer_delay 10 (u32 0x100000fa0) (Machine TimerDemo.m0 0xfffff000) = Some (tt, s') /\
    mc_world s' = 0x100001328.
Proof.
  assert (Hin : forall w : Z, dev_inl 0x608 w = ((w + 1000) mod 2 ^ 24, w + 1000)) by (intros; reflexivity).
  destruct (timer_delay_correct (fun w : Z => w) (fun w => w + 1000) 0x608 Hin ltac:(intros; lia) 10 8 0x100000fa0 (Machine TimerDemo.m0 0xfffff000))
    as (s' & Hd & Hw & _).
  - split; [split_and!; vm_compute; try reflexivity; [discriminate|discriminate|right; reflexivity]|reflexivity].
  - intros i Hi. do 9 (destruct i as [|i]; [simpl; lia|]). lia.
  - simpl. lia.
  - lia.
  - exists s'. split; [exact Hd|]. rewrite Hw. reflexivity.
Defined.
