(* ===== verification/Clock.v ===== *)
(** * System clock: src/clock.c

    The tick counter, INT 1Ah and the RTC based wait services.  What
    [clock_update] polls in other drivers, the preemption hook, the TPM handler
    and the interrupt setup are parameters. *)
From S2P Require Import Prelude Machine Timer.
Local Open Scope seabios_scope.

Definition TICKS_PER_DAY := 1573040.
Definition RWS_WAIT_PENDING := 1.
Definition RET_ECLOCKINUSE := 0x83.
Definition PORT_PIC1_CMD := 0x20.
Definition PORT_PIC2_CMD := 0xa0.
(** DIV_ROUND_CLOSEST (1000000, 1024) *)
Definition USEC_PER_RTC := (1000000 + 1024 / 2) / 1024.

Definition bcd2bin (val : Z) : Z := Z.land val 0xf + Z.shiftr val 4 * 10.

Section Clock.
Context {W : Type} `{Env W} `{Cpu W} `{Vars}.
Context (CONFIG_QEMU CONFIG_TCGBIOS : bool).
(** floppy_tick, usb_check_event, ps2_check_event and sercon_check_event *)
Context (check_events check_preempt : M W unit).
Context (tpm_interrupt_handler : bregs -> M W bregs).
Context (enable_hwirq : Z -> M W unit).

Definition get_bda_segoff (a : Z) : M W segoff_s := v <- get32 a ;; ret (segoff_of v).

Definition pic_eoi1 : M W unit :=
  if negb CONFIG_HARDWARE_IRQ then ret tt else outb 0x20 PORT_PIC1_CMD.
Definition pic_eoi2 : M W unit :=
  if negb CONFIG_HARDWARE_IRQ then ret tt else do outb 0x20 PORT_PIC2_CMD ;; pic_eoi1.

(** ** Init *)

Definition clock_setup (fuel : nat) : M W unit :=
  do pit_setup ;;
  do rtc_setup ;;
  do rtc_updating fuel ;;
  s <- rtc_read CMOS_RTC_SECONDS ;;
  m <- rtc_read CMOS_RTC_MINUTES ;;
  h <- rtc_read CMOS_RTC_HOURS ;;
  let seconds := bcd2bin s in
  let minutes := bcd2bin m in
  let hours := bcd2bin h in
  let ticks := ticks_from_ms (((hours * 60 + minutes) * 60 + seconds) * 1000) in
  do put32 BDA.timer_counter (ticks mod TICKS_PER_DAY) ;;
  do (if CONFIG_QEMU then c <- rtc_read CMOS_CENTURY ;; put8 Century c
      else year <- rtc_read CMOS_RTC_YEAR ;;
           if 0x80 <? year then put8 Century 0x19 else put8 Century 0x20) ;;
  do enable_hwirq 0 ;;
  if CONFIG_RTC_TIMER then enable_hwirq 8 else ret tt.

(** ** INT 1Ah *)

Definition handle_1a00 (regs : bregs) : M W bregs :=
  do yield ;;
  ticks <- get32 BDA.timer_counter ;;
  roll <- get8 BDA.timer_rollover ;;
  let regs := set_al roll (set_dx ticks (set_cx (Z.shiftr ticks 16) regs)) in
  do put8 BDA.timer_rollover 0 ;;
  ret (set_success regs).

Definition handle_1a01 (regs : bregs) : M W bregs :=
  let ticks := Z.lor (Z.shiftl (r_cx regs) 16) (r_dx regs) in
  do put32 BDA.timer_counter ticks ;;
  do put8 BDA.timer_rollover 0 ;;
  ret (set_success (set_ah 0 regs)).

Definition handle_1a02 (fuel : nat) (regs : bregs) : M W bregs :=
  u <- rtc_updating fuel ;;
  if truthy u then ret (set_invalid regs)
  else
    s <- rtc_read CMOS_RTC_SECONDS ;;
    m <- rtc_read CMOS_RTC_MINUTES ;;
    h <- rtc_read CMOS_RTC_HOURS ;;
    b <- rtc_read CMOS_STATUS_B ;;
    let regs := set_dl (Z.land b RTC_B_DSE) (set_ch h (set_cl m (set_dh s regs))) in
    let regs := set_ah 0 regs in
    ret (set_success (set_al (r_ch regs) regs)).

Definition handle_1a03 (fuel : nat) (regs : bregs) : M W bregs :=
  u <- rtc_updating fuel ;;
  do (if truthy u then rtc_setup else ret tt) ;;
  do rtc_write CMOS_RTC_SECONDS (r_dh regs) ;;
  do rtc_write CMOS_RTC_MINUTES (r_cl regs) ;;
  do rtc_write CMOS_RTC_HOURS (r_ch regs) ;;
  b <- rtc_read CMOS_STATUS_B ;;
  let val8 := Z.lor (Z.lor (Z.land b (Z.lor RTC_B_PIE RTC_B_AIE)) RTC_B_24HR)
                (Z.land (r_dl regs) RTC_B_DSE) in
  do rtc_write CMOS_STATUS_B val8 ;;
  ret (set_success (set_al val8 (set_ah 0 regs))).

Definition handle_1a04 (fuel : nat) (regs : bregs) : M W bregs :=
  let regs := set_ah 0 regs in
  u <- rtc_updating fuel ;;
  if truthy u then ret (set_invalid regs)
  else
    y <- rtc_read CMOS_RTC_YEAR ;;
    mo <- rtc_read CMOS_RTC_MONTH ;;
    d <- rtc_read CMOS_RTC_DAY_MONTH ;;
    c <- get8 Century ;;
    let regs := set_ch c (set_dl d (set_dh mo (set_cl y regs))) in
    ret (set_success (set_al (r_ch regs) regs)).

Definition handle_1a05 (fuel : nat) (regs : bregs) : M W bregs :=
  u <- rtc_updating fuel ;;
  if truthy u then do rtc_setup ;; ret (set_invalid regs)
  else
    do rtc_write CMOS_RTC_YEAR (r_cl regs) ;;
    do rtc_write CMOS_RTC_MONTH (r_dh regs) ;;
    do rtc_write CMOS_RTC_DAY_MONTH (r_dl regs) ;;
    do put8 Century (r_ch regs) ;;
    b <- rtc_read CMOS_STATUS_B ;;
    let val8 := Z.land b (Z.lnot RTC_B_SET) in
    do rtc_write CMOS_STATUS_B val8 ;;
    ret (set_success (set_al val8 (set_ah 0 regs))).

Definition handle_1a06 (fuel : nat) (regs : bregs) : M W bregs :=
  val8 <- rtc_read CMOS_STATUS_B ;;
  let regs := set_ax 0 regs in
  if truthy (Z.land val8 RTC_B_AIE) then ret (set_invalid regs)
  else
    u <- rtc_updating fuel ;;
    do (if truthy u then rtc_setup else ret tt) ;;
    do rtc_write CMOS_RTC_SECONDS_ALARM (r_dh regs) ;;
    do rtc_write CMOS_RTC_MINUTES_ALARM (r_cl regs) ;;
    do rtc_write CMOS_RTC_HOURS_ALARM (r_ch regs) ;;
    do rtc_write CMOS_STATUS_B (Z.lor (Z.land val8 (Z.lnot RTC_B_SET)) RTC_B_AIE) ;;
    ret (set_success regs).

Definition handle_1a07 (regs : bregs) : M W bregs :=
  val8 <- rtc_read CMOS_STATUS_B ;;
  do rtc_write CMOS_STATUS_B (Z.land val8 (Z.lnot (Z.lor RTC_B_SET RTC_B_AIE))) ;;
  ret (set_success (set_al val8 (set_ah 0 regs))).

Definition handle_1abb (regs : bregs) : M W bregs :=
  if negb CONFIG_TCGBIOS then ret regs else tpm_interrupt_handler regs.

Definition handle_1aXX (regs : bregs) : M W bregs := ret (set_unimplemented regs).

Definition handle_1a (fuel : nat) (regs : bregs) : M W bregs :=
  match r_ah regs with
  | 0x00 => handle_1a00 regs
  | 0x01 => handle_1a01 regs
  | 0x02 => handle_1a02 fuel regs
  | 0x03 => handle_1a03 fuel regs
  | 0x04 => handle_1a04 fuel regs
  | 0x05 => handle_1a05 fuel regs
  | 0x06 => handle_1a06 fuel regs
  | 0x07 => handle_1a07 regs
  | 0xbb => handle_1abb regs
  | _ => handle_1aXX regs
  end.

(** ** The tick *)

(** The memory part of [clock_update]. *)
Definition clock_tick (m : memory) : memory :=
  let counter := u32 (read32 m BDA.timer_counter + 1) in
  let '(counter, m) :=
    if TICKS_PER_DAY <=? counter
    then (0, write8 BDA.timer_rollover (read8 m BDA.timer_rollover + 1) m)
    else (counter, m) in
  write32 BDA.timer_counter counter m.

Definition clock_update : M W unit := do upd_mem clock_tick ;; check_events.

Definition handle_08 : M W unit :=
  do clock_update ;;
  do call16_int 0x1c (set_flags F_IF bregs_zero) ;;
  pic_eoi1.

Definition clock_poll_irq : M W unit :=
  if CONFIG_HARDWARE_IRQ then ret tt
  else
    last <- get32 last_timer_check ;;
    c <- timer_check last ;;
    if negb c then ret tt
    else
      e <- timer_calc (ticks_to_ms 1) ;;
      do put32 last_timer_check e ;;
      clock_update.

(** ** IRQ based timer *)

Definition irqtimer_calc_ticks (count : Z) (m : memory) : Z :=
  u32 (read32 m BDA.timer_counter + count + 1) mod TICKS_PER_DAY.

Definition irqtimer_calc (msecs : Z) (m : memory) : Z :=
  if msecs =? 0 then read32 m BDA.timer_counter
  else irqtimer_calc_ticks (ticks_from_ms msecs) m.

Definition irqtimer_check (end_ : Z) (m : memory) : bool :=
  u32 (read32 m BDA.timer_counter + TICKS_PER_DAY - end_) mod TICKS_PER_DAY <? TICKS_PER_DAY / 2.

(** ** Periodic timer *)

Definition set_usertimer (usecs seg offset : Z) : M W Z :=
  f <- get8 BDA.rtc_wait_flag ;;
  if truthy (Z.land f RWS_WAIT_PENDING) then ret (-1)
  else
    do put8 BDA.rtc_wait_flag RWS_WAIT_PENDING ;;
    do put32 BDA.user_wait_complete_flag (segoff (SEGOFF seg offset)) ;;
    do put32 BDA.user_wait_timeout usecs ;;
    do rtc_use ;; ret 0.

Definition clear_usertimer : M W unit :=
  f <- get8 BDA.rtc_wait_flag ;;
  if negb (truthy (Z.land f RWS_WAIT_PENDING)) then ret tt
  else do put8 BDA.rtc_wait_flag 0 ;; rtc_release.

(** The wait loop of [handle_1586] on the stack byte at [flag]. *)
Fixpoint wait_flag (fuel : nat) (flag : Z) : M W unit :=
  v <- get8 flag ;;
  if truthy v then ret tt
  else match fuel with O => fun _ => None | S f => do yield_toirq ;; wait_flag f flag end.

(** [ss] and [off]: where the local [statusflag] is on the stack. *)
Definition handle_1586 (fuel : nat) (ss off : Z) (regs : bregs) : M W bregs :=
  if negb CONFIG_RTC_TIMER then ret (set_code_unimplemented regs RET_EUNSUPPORTED)
  else
    do put8 (MAKE_FLATPTR ss off) 0 ;;
    let count := Z.lor (Z.shiftl (r_cx regs) 16) (r_dx regs) in
    r <- set_usertimer count ss off ;;
    if truthy r then ret (set_code_invalid regs RET_ECLOCKINUSE)
    else do wait_flag fuel (MAKE_FLATPTR ss off) ;; ret (set_success regs).

Definition handle_158300 (regs : bregs) : M W bregs :=
  r <- set_usertimer (Z.lor (Z.shiftl (r_cx regs) 16) (r_dx regs)) (r_es regs) (r_bx regs) ;;
  if truthy r then ret (set_code_invalid regs RET_EUNSUPPORTED) else ret (set_success regs).

Definition handle_158301 (regs : bregs) : M W bregs := do clear_usertimer ;; ret (set_success regs).

Definition handle_1583XX (regs : bregs) : M W bregs :=
  let regs := set_code_unimplemented regs RET_EUNSUPPORTED in
  ret (set_al (r_al regs - 1) regs).

Definition handle_1583 (regs : bregs) : M W bregs :=
  if negb CONFIG_RTC_TIMER then handle_1583XX regs
  else
    match r_al regs with
    | 0x00 => handle_158300 regs
    | 0x01 => handle_158301 regs
    | _ => handle_1583XX regs
    end.

(** The periodic interrupt of [handle_70], from [check_preempt] on. *)
Definition rtc_periodic : M W unit :=
  do check_preempt ;;
  f <- get8 BDA.rtc_wait_flag ;;
  if negb (truthy f) then ret tt
  else
    time <- get32 BDA.user_wait_timeout ;;
    if time <? USEC_PER_RTC then
      so <- get_bda_segoff BDA.user_wait_complete_flag ;;
      let ptr := MAKE_FLATPTR (so_seg so) (so_offset so) in
      oldval <- get8 ptr ;;
      do put8 ptr (Z.lor oldval 0x80) ;;
      clear_usertimer
    else put32 BDA.user_wait_timeout (time - USEC_PER_RTC).

Definition handle_70 : M W unit :=
  if negb CONFIG_RTC_TIMER then ret tt
  else
    registerB <- rtc_read CMOS_STATUS_B ;;
    registerC <- rtc_read CMOS_STATUS_C ;;
    do (if Z.land registerB (Z.lor RTC_B_PIE RTC_B_AIE) =? 0 then ret tt
        else
          do (if truthy (Z.land registerC RTC_B_AIE)
              then do call16_int 0x4a (set_flags F_IF bregs_zero) ;; ret tt else ret tt) ;;
          if negb (truthy (Z.land registerC RTC_B_PIE)) then ret tt else rtc_periodic) ;;
    pic_eoi2.
End Clock.

(** ** The tick counter counts modulo a day *)

Lemma clock_tick_mod m :
  read32 m BDA.timer_counter < TICKS_PER_DAY -> bytes_ok m ->
  let c := read32 m BDA.timer_counter in
  read32 (clock_tick m) BDA.timer_counter = (c + 1) mod TICKS_PER_DAY /\
  read8 (clock_tick m) BDA.timer_rollover = u8 (read8 m BDA.timer_rollover + (c + 1) / TICKS_PER_DAY) /\
  bytes_ok (clock_tick m) /\
  forall a, a < BDA.timer_counter \/ BDA.timer_rollover < a -> read8 (clock_tick m) a = read8 m a.
Proof.
  intros Hc Hb c. pose proof (read32_range BDA.timer_counter m Hb) as Hr. fold c in Hr, Hc.
  pose proof (Hb BDA.timer_rollover) as Hro. unfold clock_tick. fold c. unfold TICKS_PER_DAY in *.
  rewrite u32_small by lia. destruct (Z.leb_spec 1573040 (c + 1)).
  - bda_unfold. mem_simpl. replace (c + 1) with 1573040 by lia. split_and!; auto with mem.
    intros a Ha. by rewrite read8_write32_ne, read8_write8_ne by lia.
  - bda_unfold. mem_simpl. rewrite Z.div_small, Z.add_0_r, u8_small, u32_small by lia.
    rewrite Z.mod_small by lia. split_and!; auto with mem.
    intros a Ha. by rewrite read8_write32_ne by lia.
Qed.

Lemma clock_ticks_iter n m :
  read32 m BDA.timer_counter < TICKS_PER_DAY -> bytes_ok m ->
  let c := read32 m BDA.timer_counter in
  let m' := Nat.iter n clock_tick m in
  read32 m' BDA.timer_counter = (c + Z.of_nat n) mod TICKS_PER_DAY /\
  read8 m' BDA.timer_rollover = u8 (read8 m BDA.timer_rollover + (c + Z.of_nat n) / TICKS_PER_DAY) /\
  bytes_ok m' /\
  forall a, a < BDA.timer_counter \/ BDA.timer_rollover < a -> read8 m' a = read8 m a.
Proof.
  intros Hc Hb c. pose proof (read32_range BDA.timer_counter m Hb) as Hr. fold c in Hr, Hc.
  pose proof (Hb BDA.timer_rollover) as Hro. unfold TICKS_PER_DAY in *.
  induction n as [|n (IHc & IHr & IHb & IHa)].
  - change (Nat.iter 0 clock_tick m) with m. fold c. rewrite Z.add_0_r, Z.mod_small, Z.div_small, Z.add_0_r, u8_small by lia. auto.
  - change (Nat.iter (S n) clock_tick m) with (clock_tick (Nat.iter n clock_tick m)).
    set (m1 := Nat.iter n clock_tick m) in *.
    destruct (clock_tick_mod m1) as (Hm & Hro1 & Hb1 & Ha1); [unfold TICKS_PER_DAY; lia|done|].
    unfold TICKS_PER_DAY in *. rewrite Hm, Hro1, IHc, IHr. split_and!; [lia| |done|].
    + unfold u8. lia.
    + intros a Ha. by rewrite Ha1, IHa.
Qed.

(** After [n] timer interrupts the counter has advanced by [n] modulo a day,
    the rollover byte by the number of midnights passed, and no other memory has
    changed. *)
Theorem clock_ticks_count n m :
  read32 m BDA.timer_counter < TICKS_PER_DAY -> bytes_ok m ->
  let c := read32 m BDA.timer_counter in
  let m' := Nat.iter n clock_tick m in
  read32 m' BDA.timer_counter = (c + Z.of_nat n) mod TICKS_PER_DAY /\
  read8 m' BDA.timer_rollover = u8 (read8 m BDA.timer_rollover + (c + Z.of_nat n) / TICKS_PER_DAY) /\
  forall a, a < BDA.timer_counter \/ BDA.timer_rollover < a -> read8 m' a = read8 m a.
Proof. intros Hc Hb c m'. by destruct (clock_ticks_iter n m Hc Hb) as (? & ? & _ & ?). Qed.

(** A tick deadline at most half a day ahead expires exactly when more than
    [count] interrupts have passed, across midnight too. *)
Theorem irqtimer_expires count n m :
  read32 m BDA.timer_counter < TICKS_PER_DAY -> bytes_ok m ->
  0 <= count < TICKS_PER_DAY / 2 -> Z.of_nat n <= count + TICKS_PER_DAY / 2 ->
  irqtimer_check (irqtimer_calc_ticks count m) (Nat.iter n clock_tick m) = (count <? Z.of_nat n).
Proof.
  intros Hc Hb Hcount Hn. destruct (clock_ticks_iter n m Hc Hb) as (Hm & _).
  unfold irqtimer_check, irqtimer_calc_ticks. rewrite Hm.
  pose proof (read32_range BDA.timer_counter m Hb). set (c := read32 m BDA.timer_counter) in *.
  unfold TICKS_PER_DAY in *. rewrite (u32_small (c + count + 1)) by lia.
  rewrite u32_small by lia.
  replace (1573040 / 2) with 786520 in * by reflexivity.
  zbool.
Qed.

(** ** Waiting for the RTC *)

Section UserWait.
Context {W : Type} `{Env W} `{Cpu W} `{Vars}.
Context (check_preempt : M W unit).
(** Letting other threads run leaves the memory the wait uses alone. *)
Hypothesis preempt_mem : forall s, exists w, check_preempt s = Some (tt, Machine (mc_mem s) w).

Abbreviation periodic := (rtc_periodic check_preempt).

Fixpoint repeatM (n : nat) (c : M W unit) : M W unit :=
  match n with O => ret tt | S n' => do c ;; repeatM n' c end.

(** A wait of [t] microseconds for the flag byte at [ptr] is in progress. *)
Record waiting (m : memory) (t ptr : Z) : Prop := Waiting {
  wt_flag : read8 m BDA.rtc_wait_flag = RWS_WAIT_PENDING;
  wt_time : read32 m BDA.user_wait_timeout = t;
  wt_ptr : SEGOFF_TO_FLATPTR (segoff_of (read32 m BDA.user_wait_complete_flag)) = ptr;
  wt_range : 0 <= t < 2 ^ 32;
  wt_apart : ptr < BDA.user_wait_complete_flag \/ BDA.rtc_wait_flag < ptr;
  wt_users : ptr < RTCusers \/ RTCusers + 3 < ptr }.

(** One interrupt before the time is over. *)
Lemma periodic_step s t ptr :
  waiting (mc_mem s) t ptr -> USEC_PER_RTC <= t ->
  exists s', periodic s = Some (tt, s') /\ waiting (mc_mem s') (t - USEC_PER_RTC) ptr /\
    read8 (mc_mem s') ptr = read8 (mc_mem s) ptr.
Proof.
  intros [Hf Ht Hp Hr Ha Hu] Hle. unfold rtc_periodic, bind at 1.
  destruct (preempt_mem s) as (w & ->). unfold bind, get8, get32. simpl. rewrite Hf. simpl. rewrite Ht. simpl.
  rewrite (proj2 (Z.ltb_ge _ _) Hle). unfold put32, upd_mem. simpl. eexists. split; [done|].
  change USEC_PER_RTC with 977 in *. simpl. bda_unfold. split; [|by rewrite read8_write32_ne by lia].
  split; bda_unfold; mem_simpl; try done; [apply u32_small|]; lia.
Qed.

(** The interrupt that ends the wait. *)
Lemma periodic_last s t ptr :
  waiting (mc_mem s) t ptr -> t < USEC_PER_RTC ->
  exists s', periodic s = Some (tt, s') /\ read8 (mc_mem s') BDA.rtc_wait_flag = 0 /\
    read8 (mc_mem s') ptr = u8 (Z.lor (read8 (mc_mem s) ptr) 0x80).
Proof.
  intros [Hf Ht Hp Hr Ha Hu] Hlt. unfold rtc_periodic, bind at 1.
  destruct (preempt_mem s) as (w & ->). unfold bind, get8, get32. simpl. rewrite Hf. simpl. rewrite Ht. simpl.
  rewrite (proj2 (Z.ltb_lt _ _) Hlt). unfold get_bda_segoff, bind, get32, ret. simpl.
  unfold SEGOFF_TO_FLATPTR in Hp. simpl in Hp. rewrite Hp.
  unfold put8, upd_mem. simpl. unfold clear_usertimer, bind, get8. simpl.
  assert (HR : 0x500 <= RTCusers) by (apply vars_above; tauto).
  assert (Hf' : read8 (write8 ptr (Z.lor (read8 (mc_mem s) ptr) 128) (mc_mem s)) BDA.rtc_wait_flag = 1)
    by (bda_unfold; by rewrite read8_write8_ne by lia).
  rewrite Hf'. simpl. unfold put8, upd_mem, bind, rtc_release. simpl.
  destruct CONFIG_RTC_TIMER; simpl; [|eexists; split; [done|]; bda_unfold; simpl; split; by mem_simpl].
  unfold bind, get32, put32, upd_mem. simpl. bda_unfold.
  case_match; simpl.
  - eexists. split; [done|]. simpl. split; by mem_simpl.
  - unfold rtc_mask, bind, outb, inb. simpl. destruct (dev_inb _ _) as [v w'].
    eexists. split; [done|]. simpl. split; by mem_simpl.
Qed.

(** A wait of [t] microseconds set up with [set_usertimer] ends with exactly
    the interrupt number [t / 977 + 1] (977 us apart): until then the caller's flag
    byte is untouched and the wait stays pending, then bit 7 of the byte is set
    and the wait is over. *)
Theorem user_wait_bounded s t ptr i :
  waiting (mc_mem s) t ptr -> Z.of_nat i <= t / USEC_PER_RTC ->
  (exists s', repeatM i periodic s = Some (tt, s') /\
     waiting (mc_mem s') (t - Z.of_nat i * USEC_PER_RTC) ptr /\
     read8 (mc_mem s') ptr = read8 (mc_mem s) ptr) /\
  (Z.of_nat i = t / USEC_PER_RTC ->
   exists s', repeatM (S i) periodic s = Some (tt, s') /\
     read8 (mc_mem s') BDA.rtc_wait_flag = 0 /\
     read8 (mc_mem s') ptr = u8 (Z.lor (read8 (mc_mem s) ptr) 0x80)).
Proof.
  revert s t. induction i as [|i IH]; intros s t Hw Hi.
  - split; [exists s; split_and!; [done| |done]; by rewrite Z.mul_0_l, Z.sub_0_r|].
    intros Heq. destruct (periodic_last s t ptr Hw) as (s' & Hp & Hf & Hr).
    + unfold USEC_PER_RTC in *. pose proof (wt_range _ _ _ Hw). lia.
    + exists s'. simpl. unfold bind. by rewrite Hp.
  - assert (Hle : USEC_PER_RTC <= t).
    { pose proof (wt_range _ _ _ Hw). change USEC_PER_RTC with 977 in *. lia. }
    destruct (periodic_step s t ptr Hw Hle) as (s1 & Hp & Hw1 & Hr1).
    assert (Hdiv : (t - USEC_PER_RTC) / USEC_PER_RTC = t / USEC_PER_RTC - 1)
      by (change USEC_PER_RTC with 977; lia).
    destruct (IH s1 (t - USEC_PER_RTC) Hw1 ltac:(lia)) as [(s2 & H2 & Hw2 & Hr2) Hlast].
    split.
    + exists s2. simpl. unfold bind. rewrite Hp. split_and!; [done| |congruence].
      by replace (t - Z.of_nat (S i) * USEC_PER_RTC) with (t - USEC_PER_RTC - Z.of_nat i * USEC_PER_RTC) by lia.
    + intros Heq. destruct Hlast as (s3 & H3 & Hf3 & Hr3); [lia|]. exists s3.
      change (repeatM (S (S i)) periodic s) with (bind periodic (fun _ => repeatM (S i) periodic) s).
      unfold bind at 1. rewrite Hp, H3, Hr3, Hr1. done.
Qed.
End UserWait.

(** ** Concrete clocks *)

Definition clock_demo : memory := write32 BDA.timer_counter (TICKS_PER_DAY - 2) ∅.

Lemma clock_demo_ok : bytes_ok clock_demo.
Proof. unfold clock_demo. auto with mem. Qed.

Lemma clock_ticks_count_witness :
  read32 (Nat.iter 5 clock_tick clock_demo) BDA.timer_counter = 3 /\
  read8 (Nat.iter 5 clock_tick clock_demo) BDA.timer_rollover = 1.
Proof.
  destruct (clock_ticks_count 5 clock_demo) as (Hc & Hr & _);
    [vm_compute; reflexivity|exact clock_demo_ok|]. split; [rewrite Hc|rewrite Hr]; vm_compute; reflexivity.
Defined.

Lemma irqtimer_expires_witness :
  irqtimer_check (irqtimer_calc_ticks 3 clock_demo) (Nat.iter 4 clock_tick clock_demo) = true.
Proof. apply (irqtimer_expires 3 4 clock_demo); [vm_compute; reflexivity|exact clock_demo_ok|by split; vm_compute|by vm_compute]. Defined.

#[local] Existing Instance TimerDemo.vars.
#[local] Existing Instance TimerDemo.env.

Definition wait_demo : machine Z :=
  Machine (write8 BDA.rtc_wait_flag 1 (write32 BDA.user_wait_timeout 2500
    (write32 BDA.user_wait_complete_flag 0x70000100 ∅))) 0.

Lemma user_wait_bounded_witness :
  exists s', repeatM 3 (rtc_periodic (ret tt)) wait_demo = Some (tt, s') /\
    read8 (mc_mem s') 0x70100 = 0x80.
Proof.
  assert (Hp : forall s : machine Z, exists w, ret tt s = Some (tt, Machine (mc_mem s) w))
    by (intros [m w]; exists w; reflexivity).
  destruct (user_wait_bounded (ret tt) Hp wait_demo 2500 0x70100 2) as [_ Hl].
  - split; vm_compute; try reflexivity; [by split|by right|by left].
  - vm_compute. discriminate.
  - destruct Hl as (s' & Hr & _ & Hf); [vm_compute; reflexivity|]. exists s'.
    split; [exact Hr|]. rewrite Hf. vm_compute. reflexivity.
Defined.
