(* ===== verification/Pci.v ===== *)
(** * PCI configuration space: src/hw/pci.c, src/hw/pci.h

    Configuration accesses go through the address port 0xcf8 and the data port
    0xcfc.  The 16- and 32-bit ports are a parameter like the 8-bit ones. *)
From S2P Require Import Prelude Machine.
Local Open Scope seabios_scope.

Definition PORT_PCI_CMD := 0x0cf8.
Definition PORT_PCI_DATA := 0x0cfc.
Definition PORT_PCI_REBOOT := 0x0cf9.
Definition PCI_VENDOR_ID := 0x00.
Definition PCI_DEVICE_ID := 0x02.
Definition PCI_COMMAND := 0x04.
Definition PCI_STATUS := 0x06.
Definition PCI_CLASS_DEVICE := 0x0a.
Definition PCI_HEADER_TYPE := 0x0e.
Definition PCI_BASE_ADDRESS_0 := 0x10.
Definition PCI_PRIMARY_BUS := 0x18.
Definition PCI_SECONDARY_BUS := 0x19.
Definition PCI_SUBORDINATE_BUS := 0x1a.
Definition PCI_IO_BASE := 0x1c.
Definition PCI_IO_LIMIT := 0x1d.
Definition PCI_MEMORY_BASE := 0x20.
Definition PCI_MEMORY_LIMIT := 0x22.
Definition PCI_PREF_MEMORY_BASE := 0x24.
Definition PCI_PREF_MEMORY_LIMIT := 0x26.
Definition PCI_PREF_BASE_UPPER32 := 0x28.
Definition PCI_PREF_LIMIT_UPPER32 := 0x2c.
Definition PCI_IO_BASE_UPPER16 := 0x30.
Definition PCI_IO_LIMIT_UPPER16 := 0x32.
Definition PCI_ROM_ADDRESS := 0x30.
Definition PCI_ROM_ADDRESS1 := 0x38.
Definition PCI_CAPABILITY_LIST := 0x34.
Definition PCI_CAP_LIST_ID := 0.
Definition PCI_CAP_LIST_NEXT := 1.
Definition PCI_STATUS_CAP_LIST := 0x10.

Definition pci_bdf_to_bus (bdf : Z) : Z := u8 (Z.shiftr (u16 bdf) 8).
Definition pci_bdf_to_devfn (bdf : Z) : Z := Z.land (u16 bdf) 0xff.
Definition pci_bdf_to_busdev (bdf : Z) : Z := u16 (Z.land (u16 bdf) (Z.lnot 0x07)).
Definition pci_bdf_to_dev (bdf : Z) : Z := Z.land (Z.shiftr (u16 bdf) 3) 0x1f.
Definition pci_bdf_to_fn (bdf : Z) : Z := Z.land (u16 bdf) 0x07.
Definition pci_to_bdf (bus dev fn : Z) : Z :=
  u16 (Z.lor (Z.lor (Z.shiftl bus 8) (Z.shiftl dev 3)) fn).
Definition pci_bus_devfn_to_bdf (bus devfn : Z) : Z := u16 (Z.lor (Z.shiftl bus 8) devfn).

(** The wider ports. *)
Class Ports (W : Type) := {
  port_inw : Z -> W -> Z * W;
  port_inl : Z -> W -> Z * W;
  port_outw : Z -> Z -> W -> W;
  port_outl : Z -> Z -> W -> W }.

Section Pci.
Context {W : Type} `{Env W} `{Ports W}.

Definition inw (port : Z) : M W Z :=
  fun s => let '(v, w) := port_inw port (mc_world s) in Some (u16 v, Machine (mc_mem s) w).
Definition inl (port : Z) : M W Z :=
  fun s => let '(v, w) := port_inl port (mc_world s) in Some (u32 v, Machine (mc_mem s) w).
Definition outw (value port : Z) : M W unit :=
  fun s => Some (tt, Machine (mc_mem s) (port_outw (u16 value) port (mc_world s))).
Definition outl (value port : Z) : M W unit :=
  fun s => Some (tt, Machine (mc_mem s) (port_outl (u32 value) port (mc_world s))).

(** The value for the address port. *)
Definition pci_cmd (bdf addr : Z) : Z :=
  Z.lor (Z.lor 0x80000000 (Z.shiftl (u16 bdf) 8)) (Z.land addr 0xfc).

Definition pci_config_writel (bdf addr val : Z) : M W unit :=
  do outl (pci_cmd bdf addr) PORT_PCI_CMD ;; outl val PORT_PCI_DATA.
Definition pci_config_writew (bdf addr val : Z) : M W unit :=
  do outl (pci_cmd bdf addr) PORT_PCI_CMD ;; outw val (PORT_PCI_DATA + Z.land addr 2).
Definition pci_config_writeb (bdf addr val : Z) : M W unit :=
  do outl (pci_cmd bdf addr) PORT_PCI_CMD ;; outb val (PORT_PCI_DATA + Z.land addr 3).
Definition pci_config_readl (bdf addr : Z) : M W Z :=
  do outl (pci_cmd bdf addr) PORT_PCI_CMD ;; inl PORT_PCI_DATA.
Definition pci_config_readw (bdf addr : Z) : M W Z :=
  do outl (pci_cmd bdf addr) PORT_PCI_CMD ;; inw (PORT_PCI_DATA + Z.land addr 2).
Definition pci_config_readb (bdf addr : Z) : M W Z :=
  do outl (pci_cmd bdf addr) PORT_PCI_CMD ;; inb (PORT_PCI_DATA + Z.land addr 3).

Definition pci_config_maskw (bdf addr off on : Z) : M W unit :=
  val <- pci_config_readw bdf addr ;;
  pci_config_writew bdf addr (Z.lor (Z.land val (Z.lnot off)) on).

(** The loop over the capability list: at most 256 entries. *)
Fixpoint find_capability_loop (n : nat) (bdf cap_id cap : Z) : M W Z :=
  match n with
  | O => ret 0
  | S n' =>
    if cap =? 0 then ret 0
    else
      id <- pci_config_readb bdf (cap + PCI_CAP_LIST_ID) ;;
      if id =? cap_id then ret cap
      else
        next <- pci_config_readb bdf (cap + PCI_CAP_LIST_NEXT) ;;
        find_capability_loop n' bdf cap_id next
  end.

Definition pci_find_capability (bdf cap_id cap : Z) : M W Z :=
  status <- pci_config_readw bdf PCI_STATUS ;;
  if Z.land status PCI_STATUS_CAP_LIST =? 0 then ret 0
  else
    cap <- (if cap =? 0 then pci_config_readb bdf PCI_CAPABILITY_LIST
            else pci_config_readb bdf (cap + PCI_CAP_LIST_NEXT)) ;;
    find_capability_loop 256 bdf cap_id cap.

(** The search loop of [pci_next]; a bus has 256 functions. *)
Fixpoint pci_next_loop (fuel : nat) (bdf bus : Z) : M W Z :=
  if negb (pci_bdf_to_bus bdf =? bus) then ret (-1)
  else
    v <- pci_config_readw bdf PCI_VENDOR_ID ;;
    if negb (v =? 0x0000) && negb (v =? 0xffff) then ret bdf
    else
      let bdf := if pci_bdf_to_fn bdf =? 0 then bdf + 8 else bdf + 1 in
      match fuel with O => fun _ => None | S f => pci_next_loop f bdf bus end.

Definition pci_next (bdf bus : Z) : M W Z :=
  hdr <- (if pci_bdf_to_fn bdf =? 0 then pci_config_readb bdf PCI_HEADER_TYPE else ret 0x80) ;;
  let bdf := if Z.land hdr 0x80 =? 0 then bdf + 8 else bdf + 1 in
  pci_next_loop 256 bdf bus.

(** [foreachbdf]: the body runs on each device as it is found; [x] stands for
    the local variables it updates. *)
Fixpoint foreachbdf_from {A} (fuel : nat) (bdf bus : Z) (body : Z -> A -> M W A) (x : A) : M W A :=
  if bdf <? 0 then ret x
  else
    x <- body bdf x ;;
    next <- pci_next bdf bus ;;
    match fuel with O => fun _ => None | S f => foreachbdf_from f next bus body x end.

Definition foreachbdf {A} (bus : Z) (body : Z -> A -> M W A) (x : A) : M W A :=
  first <- pci_next (pci_bus_devfn_to_bdf bus 0 - 1) bus ;;
  foreachbdf_from 256 first bus body x.

Definition pci_probe_host : M W Z :=
  do outl 0x80000000 PORT_PCI_CMD ;;
  v <- inl PORT_PCI_CMD ;;
  ret (if negb (v =? 0x80000000) then -1 else 0).

Definition pci_reboot (udelay : Z -> M W unit) : M W unit :=
  v <- inb PORT_PCI_REBOOT ;;
  let v := u8 (Z.land v (Z.lnot 6)) in
  do outb (Z.lor v 2) PORT_PCI_REBOOT ;;
  do udelay 50 ;;
  do outb (Z.lor v 6) PORT_PCI_REBOOT ;;
  udelay 50.
End Pci.

(** ** The search of a bus

    The functions of a bus are those that answer with a vendor id, where
    functions other than 0 count only when function 0 is there and says that
    the device has several. *)

(** The functions of [bus] from [x] on. *)
Definition bus_rest (bus x : Z) : list Z := seqZ x (256 * bus + 256 - x).

Section PciFacts.
Context {W : Type} `{Env W} `{Ports W}.
Context (vendor header : Z -> Z).      (* by bdf *)

Definition vendor_ok (v : Z) : bool := negb (v =? 0x0000) && negb (v =? 0xffff).
Definition visible (x : Z) : bool :=
  vendor_ok (vendor x) &&
  ((x mod 8 =? 0) ||
   (vendor_ok (vendor (x - x mod 8)) && negb (Z.land (header (x - x mod 8)) 0x80 =? 0))).

(** The visible functions of a bus from [x] on, in order. *)
Definition visible_from (bus x : Z) : list Z := List.filter visible (bus_rest bus x).

(** A state where the two registers read as [vendor] and [header] say, and
    where this remains so after reading them. *)
Context (Good : machine W -> Prop).
Definition probes_ok : Prop := forall bdf s, 0 <= bdf < 2 ^ 16 -> Good s ->
  (exists s', pci_config_readw bdf PCI_VENDOR_ID s = Some (vendor bdf, s') /\ Good s') /\
  (exists s', pci_config_readb bdf PCI_HEADER_TYPE s = Some (header bdf, s') /\ Good s').

(** Where the search looks for a function: at the first one of a device, or at
    any one of a device with several. *)
Definition probe_point (x : Z) : Prop :=
  x mod 8 = 0 \/
  (vendor_ok (vendor (x - x mod 8)) = true /\ Z.land (header (x - x mod 8)) 0x80 <> 0).

Lemma bus_of_range bus x : 0 <= bus < 256 -> 0 <= x < 2 ^ 16 + 8 ->
  (pci_bdf_to_bus x =? bus) = true <-> 256 * bus <= x < 256 * bus + 256 \/ (bus = 0 /\ 2 ^ 16 <= x).
Proof.
  intros Hb Hx. unfold pci_bdf_to_bus. pose proof (u16_range x).
  rewrite Z.shiftr_div_pow2 by lia. rewrite u8_small by lia. rewrite Z.eqb_eq. unfold u16. lia.
Qed.

Lemma fn_mod x : pci_bdf_to_fn x = x mod 8.
Proof. unfold pci_bdf_to_fn. change 7 with (Z.ones 3). rewrite Z.land_ones by lia. unfold u16. lia. Qed.

Lemma visible_from_cons bus x : x < 256 * bus + 256 ->
  visible_from bus x = if visible x then x :: visible_from bus (x + 1) else visible_from bus (x + 1).
Proof.
  intros Hx. unfold visible_from, bus_rest. rewrite seqZ_cons by lia. simpl.
  replace (Z.succ x) with (x + 1) by lia.
  by replace (Z.pred (256 * bus + 256 - x)) with (256 * bus + 256 - (x + 1)) by lia.
Qed.

Lemma visible_from_end bus x : 256 * bus + 256 <= x -> visible_from bus x = [].
Proof. intros Hx. unfold visible_from, bus_rest. by rewrite seqZ_nil by lia. Qed.

Lemma visible_from_skip bus n : forall x,
  (forall y, x <= y < x + Z.of_nat n -> visible y = false) ->
  visible_from bus (x + Z.of_nat n) = visible_from bus x.
Proof.
  induction n as [|n IH]; intros x Hx; [by rewrite Z.add_0_r|].
  destruct (Z.lt_ge_cases x (256 * bus + 256)).
  - rewrite (visible_from_cons bus x) by lia. rewrite Hx by lia.
    replace (x + Z.of_nat (S n)) with (x + 1 + Z.of_nat n) by lia.
    apply IH. intros y Hy. apply Hx. lia.
  - by rewrite !visible_from_end by lia.
Qed.

(** The next point of the search skips only functions that are not visible. *)
Lemma skip_device bus x : x mod 8 = 0 ->
  vendor_ok (vendor x) = false \/ Z.land (header x) 0x80 = 0 ->
  visible_from bus (x + 8) = visible_from bus (x + 1).
Proof.
  intros Hx Hno. replace (x + 8) with (x + 1 + Z.of_nat 7) by lia.
  apply visible_from_skip. intros y Hy. unfold visible.
  replace (y - y mod 8) with x by lia.
  replace (y mod 8 =? 0) with false by (symmetry; apply Z.eqb_neq; lia).
  destruct Hno as [-> | ->]; simpl; by rewrite ?andb_false_r.
Qed.

Lemma probe_point_next x : probe_point x ->
  probe_point (if pci_bdf_to_fn x =? 0 then x + 8 else x + 1).
Proof.
  rewrite fn_mod. intros [Hx|[Hv Hm]]; destruct (Z.eqb_spec (x mod 8) 0); [left; lia|lia|left; lia|].
  destruct (Z.eq_dec (x mod 8) 7); [left; lia|].
  right. by replace (x + 1 - (x + 1) mod 8) with (x - x mod 8) by lia.
Qed.

Context (Hprobe : probes_ok).

Lemma pci_next_loop_spec bus fuel : forall x s,
  0 <= bus < 256 -> 256 * bus <= x < 256 * bus + 264 -> probe_point x ->
  256 * bus + 256 - x <= Z.of_nat fuel -> Good s ->
  exists s', pci_next_loop fuel x bus s = Some (default (-1) (head (visible_from bus x)), s') /\ Good s'.
Proof.
  induction fuel as [|fuel IH]; intros x s Hb Hx Hp Hf Hs; simpl.
  - rewrite (proj1 (not_true_iff_false (pci_bdf_to_bus x =? bus)))
      by (rewrite bus_of_range by lia; lia).
    rewrite visible_from_end by lia. exists s. done.
  - destruct (Z.lt_ge_cases x (256 * bus + 256)); cycle 1.
    { rewrite (proj1 (not_true_iff_false (pci_bdf_to_bus x =? bus)))
        by (rewrite bus_of_range by lia; lia).
      rewrite visible_from_end by lia. exists s. done. }
    rewrite (proj2 (bus_of_range bus x Hb ltac:(lia))) by lia. simpl.
    destruct (proj1 (Hprobe x s ltac:(lia) Hs)) as (s1 & Hv & Hs1).
    rewrite (bind_some _ _ _ _ _ Hv). fold (vendor_ok (vendor x)).
    assert (Hvis : visible x = vendor_ok (vendor x)).
    { unfold visible. destruct Hp as [-> | [-> Hm]]; simpl; [by rewrite andb_true_r|].
      rewrite (proj2 (Z.eqb_neq _ _) Hm). simpl. by rewrite orb_true_r, andb_true_r. }
    rewrite visible_from_cons, Hvis by lia.
    destruct (vendor_ok (vendor x)) eqn:Hok; [exists s1; done|].
    pose proof (probe_point_next x Hp) as Hn. rewrite fn_mod in *.
    destruct (Z.eqb_spec (x mod 8) 0).
    + rewrite <- (skip_device bus x) by auto. apply IH; try done; lia.
    + apply IH; try done; lia.
Qed.

Lemma visible_from_split bus x n : forall y, Z.of_nat n = 256 * bus + 256 - y ->
  head (visible_from bus y) = Some x ->
  y <= x < 256 * bus + 256 /\ visible x = true /\
  visible_from bus y = x :: visible_from bus (x + 1) .
Proof.
  induction n as [|n IH]; intros y Hn; [by rewrite visible_from_end by lia|].
  rewrite visible_from_cons by lia. destruct (visible y) eqn:Hy; simpl.
  - intros [= ->]. split_and!; [lia|lia|done|done].
  - intros Hx. destruct (IH (y + 1) ltac:(lia) Hx) as (? & ? & ?). split_and!; [lia|lia|done|done].
Qed.

(** The first step of [pci_next]. *)
Lemma pci_next_step bus bdf s :
  0 <= bus < 256 -> bdf = 256 * bus - 1 \/ (256 * bus <= bdf < 256 * bus + 256 /\ visible bdf = true) ->
  Good s ->
  exists hdr s', (if pci_bdf_to_fn bdf =? 0 then pci_config_readb bdf PCI_HEADER_TYPE else ret 0x80) s
                 = Some (hdr, s') /\ Good s' /\
    let x := if Z.land hdr 0x80 =? 0 then bdf + 8 else bdf + 1 in
    probe_point x /\ 256 * bus <= x < 256 * bus + 264 /\
    visible_from bus x = visible_from bus (bdf + 1).
Proof.
  intros Hb Hbdf Hs. rewrite fn_mod. destruct (Z.eqb_spec (bdf mod 8) 0) as [Hf|Hf].
  - assert (Hr : 256 * bus <= bdf < 256 * bus + 256) by lia.
    destruct (proj2 (Hprobe bdf s ltac:(lia) Hs)) as (s1 & Hr1 & Hs1).
    exists (header bdf), s1. split_and!; [done|done|].
    destruct (Z.eqb_spec (Z.land (header bdf) 0x80) 0) as [Hm|Hm].
    + split_and!; [left; lia|lia|lia|]. apply skip_device; auto.
    + split_and!; [|lia|lia|done]. right. replace (bdf + 1 - (bdf + 1) mod 8) with bdf by lia.
      split; [|done]. destruct Hbdf as [?|[_ Hv]]; [lia|].
      unfold visible in Hv. by apply andb_true_iff in Hv as [? _].
  - exists 0x80, s. split_and!; [done|done|]. simpl. split_and!; [|lia|lia|done].
    destruct (Z.eq_dec (bdf mod 8) 7); [left; lia|]. right.
    destruct Hbdf as [?|[_ Hv]]; [lia|]. unfold visible in Hv.
    apply andb_true_iff in Hv as [_ Hv]. rewrite (proj2 (Z.eqb_neq _ _) Hf) in Hv.
    simpl in Hv. apply andb_true_iff in Hv as [? Hm].
    replace (bdf + 1 - (bdf + 1) mod 8) with (bdf - bdf mod 8) by lia.
    split; [done|]. by apply negb_true_iff, Z.eqb_neq in Hm.
Qed.

(** [pci_next] ends and returns the next visible function of the bus, or -1. *)
Lemma pci_next_spec bus bdf s :
  0 <= bus < 256 -> bdf = 256 * bus - 1 \/ (256 * bus <= bdf < 256 * bus + 256 /\ visible bdf = true) ->
  Good s ->
  exists s', pci_next bdf bus s = Some (default (-1) (head (visible_from bus (bdf + 1))), s') /\ Good s'.
Proof.
  intros Hb Hbdf Hs. destruct (pci_next_step bus bdf s Hb Hbdf Hs) as (hdr & s1 & Hr & Hs1 & Hp & Hx & <-).
  unfold pci_next. rewrite (bind_some _ _ _ _ _ Hr). apply pci_next_loop_spec; try done. lia.
Qed.

Lemma foreachbdf_from_spec {A} bus (body : Z -> A -> M W A) (f : A -> Z -> A) fuel :
  0 <= bus < 256 ->
  (forall x a s, visible x = true -> Good s -> exists s', body x a s = Some (f a x, s') /\ Good s') ->
  forall y a s, 256 * bus <= y -> (length (visible_from bus y) <= fuel)%nat -> Good s ->
  exists s', foreachbdf_from fuel (default (-1) (head (visible_from bus y))) bus body a s
             = Some (foldl f a (visible_from bus y), s') /\ Good s'.
Proof.
  intros Hb Hbody. induction fuel as [|fuel IH]; intros y a s Hy Hf Hs;
    (destruct (visible_from bus y) as [|x l] eqn:Hv; [exists s; done|]); simpl in Hf; [lia|].
  destruct (visible_from_split bus x (Z.to_nat (256 * bus + 256 - y)) y) as (Hx & Hvx & Hl).
  { destruct (Z.lt_ge_cases y (256 * bus + 256)); [lia|]. by rewrite visible_from_end in Hv by lia. }
  { by rewrite Hv. }
  rewrite Hv in Hl. injection Hl as ->. simpl.
  replace (x <? 0) with false by lia.
  destruct (Hbody x a s Hvx Hs) as (s1 & Hb1 & Hs1). rewrite (bind_some _ _ _ _ _ Hb1).
  destruct (pci_next_spec bus x s1) as (s2 & Hn & Hs2); [lia|by right; split; [lia|]|done|].
  rewrite (bind_some _ _ _ _ _ Hn). apply IH; [lia|lia|done].
Qed.

Lemma visible_from_length bus : (length (visible_from bus (256 * bus)) <= 256)%nat.
Proof.
  unfold visible_from, bus_rest. etransitivity; [apply filter_length_le|].
  rewrite length_seqZ. lia.
Qed.

(** [foreachbdf] enumerates a bus.  With a body that leaves the probed
    registers alone, the loop ends and runs the body exactly once on each
    visible function, in increasing order: every function 0 that answers, and
    the other functions of multi-function devices. *)
Theorem foreachbdf_correct {A} bus (body : Z -> A -> M W A) (f : A -> Z -> A) a s :
  0 <= bus < 256 ->
  (forall x a s, visible x = true -> Good s -> exists s', body x a s = Some (f a x, s') /\ Good s') ->
  Good s ->
  exists s', foreachbdf bus body a s = Some (foldl f a (visible_from bus (256 * bus)), s') /\ Good s'.
Proof.
  intros Hb Hbody Hs. unfold foreachbdf.
  assert (Hst : pci_bus_devfn_to_bdf bus 0 = 256 * bus).
  { unfold pci_bus_devfn_to_bdf. rewrite Z.lor_0_r, Z.shiftl_mul_pow2 by lia. rewrite u16_small; lia. }
  destruct (pci_next_spec bus (pci_bus_devfn_to_bdf bus 0 - 1) s) as (s1 & Hn & Hs1); [done|lia|done|].
  rewrite (bind_some _ _ _ _ _ Hn), Hst. replace (256 * bus - 1 + 1) with (256 * bus) by lia.
  apply foreachbdf_from_spec; try done. apply visible_from_length.
Qed.
End PciFacts.

(** A bus with a single-function device 0, a device 1 with functions 0 and 3 and
    a single-function device 2 that answers for its function 1 too.  The world
    is what was last written to the address port. *)
Module Demo.
Definition vendor (bdf : Z) : Z :=
  if bool_decide (bdf ∈ [0; 8; 11; 16; 17]) then 0x8086 else 0xffff.
Definition header (bdf : Z) : Z := if bdf =? 8 then 0x80 else 0.
Definition bdf_of (cmd : Z) : Z := Z.land (Z.shiftr cmd 8) 0xffff.

#[export] Instance env : Env Z := {
  dev_inb port cmd := (header (bdf_of cmd), cmd);
  dev_outb value port cmd := cmd;
  env_yield s := s;
  env_yield_toirq s := s;
  env_int nr r s := (r, s) }.
#[export] Instance ports : Ports Z := {
  port_inw port cmd := (vendor (bdf_of cmd), cmd);
  port_inl port cmd := (0, cmd);
  port_outw value port cmd := cmd;
  port_outl value port cmd := if port =? PORT_PCI_CMD then value else cmd }.

Lemma bdf_of_cmd bdf addr : 0 <= bdf < 2 ^ 16 -> bdf_of (u32 (pci_cmd bdf addr)) = bdf.
Proof.
  intros Hb. unfold bdf_of, pci_cmd. rewrite (u16_small bdf) by done.
  apply Z.bits_inj'. intros i Hi. rewrite Z.land_spec, Z.shiftr_spec by done. unfold u32.
  rewrite testbit_mod_pow2, !Z.lor_spec, Z.shiftl_spec by lia.
  change 0xffff with (Z.ones 16). change 0x80000000 with (2 ^ 31).
  rewrite Z.testbit_ones_nonneg, Z.pow2_bits_eqb by lia.
  assert (Ha : Z.testbit (Z.land addr 0xfc) (i + 8) = false).
  { rewrite Z.land_spec, (testbit_small 0xfc 8) by lia. apply andb_false_r. }
  rewrite Ha.
  replace (i + 8 - 8) with i by lia. destruct (Z.ltb_spec i 16).
  - replace (i + 8 <? 32) with true by lia. replace (31 =? i + 8) with false by lia. simpl.
    by rewrite orb_false_r, andb_true_r.
  - rewrite andb_false_r. symmetry. apply (testbit_small bdf 16); lia.
Qed.

Lemma probes : probes_ok vendor header (fun _ => True).
Proof.
  intros bdf s Hb _. split; eexists; (split; [|done]).
  - unfold pci_config_readw, bind, outl, inw. simpl. rewrite bdf_of_cmd by done.
    unfold vendor. by case_bool_decide.
  - unfold pci_config_readb, bind, outl, inb. simpl. rewrite bdf_of_cmd by done.
    unfold header. by destruct (bdf =? 8).
Qed.
End Demo.

#[local] Existing Instance Demo.env.
#[local] Existing Instance Demo.ports.

Lemma foreachbdf_correct_witness :
  exists s, foreachbdf 0 (fun x l => ret (l ++ [x])) [] (Machine ∅ 0) = Some ([0; 8; 11; 16], s).
Proof.
  destruct (foreachbdf_correct Demo.vendor Demo.header (fun _ => True) Demo.probes 0
              (fun x l => ret (l ++ [x])) (fun l x => l ++ [x]) [] (Machine ∅ 0)) as (s & Hs & _).
  - lia.
  - intros x a s _ _. exists s. done.
  - done.
  - exists s. rewrite Hs. vm_compute. reflexivity.
Defined.
