(* ===== verification/FwCfg.v ===== *)
(** * QEMU firmware configuration: the fw_cfg access of src/fw/paravirt.c

    The items QEMU offers are read and written through a data port, or by DMA
    when the device has it.  The device is a parameter; [device_ok] states what
    QEMU documents of it. *)
From S2P Require Import Prelude Machine Pci Bytes.
Local Open Scope seabios_scope.

Definition PORT_QEMU_CFG_CTL := 0x0510.
Definition PORT_QEMU_CFG_DATA := 0x0511.
Definition QEMU_CFG_DMA_CTL_ERROR := 0x01.
Definition QEMU_CFG_DMA_CTL_READ := 0x02.
Definition QEMU_CFG_DMA_CTL_SKIP := 0x04.
Definition QEMU_CFG_DMA_CTL_SELECT := 0x08.
Definition QEMU_CFG_DMA_CTL_WRITE := 0x10.

(** The write to PORT_QEMU_CFG_DMA_ADDR_LOW that starts a transfer: the device
    reads the access struct from memory, and may write to memory. *)
Class DmaPort (W : Type) := { port_dma : Z -> machine W -> machine W }.

(** struct QemuCfgDmaAccess *)
Definition dma_control (a : Z) : Z := a.
Definition dma_length (a : Z) : Z := a + 4.
Definition dma_address (a : Z) : Z := a + 8.
Definition sizeof_QemuCfgDmaAccess := 16.

Section FwCfg.
Context {W : Type} `{Env W} `{Ports W} `{DmaPort W}.
Context (qemu_cfg_dma_enabled : bool).         (* cfg_dma_enabled *)
Context (access : Z).                          (* the address of the local struct *)
Context (fuel : nat).                          (* polls of a transfer *)

Definition qemu_cfg_select (f : Z) : M W unit := outw f PORT_QEMU_CFG_CTL.

Fixpoint dma_wait (n : nat) : M W unit :=
  c <- get32 (dma_control access) ;;
  if Z.land (swab32 c) (u32 (Z.lnot QEMU_CFG_DMA_CTL_ERROR)) =? 0 then ret tt
  else
    match n with
    | O => fun _ => None
    | S n' => do yield ;; dma_wait n'
    end.

Definition qemu_cfg_dma_transfer (address length control : Z) : M W unit :=
  do put64 (dma_address access) (swab64 (u32 address)) ;;
  do put32 (dma_length access) (swab32 (u32 length)) ;;
  do put32 (dma_control access) (swab32 control) ;;
  do (fun s => Some (tt, port_dma (swab32 (u32 access)) s)) ;;
  dma_wait fuel.

Fixpoint insb (port : Z) (data : Z) (count : nat) : M W unit :=
  match count with
  | O => ret tt
  | S n => v <- inb port ;; do put8 data v ;; insb port (data + 1) n
  end.

Definition qemu_cfg_read (buf len : Z) : M W unit :=
  if len =? 0 then ret tt
  else if qemu_cfg_dma_enabled then qemu_cfg_dma_transfer buf len QEMU_CFG_DMA_CTL_READ
  else insb PORT_QEMU_CFG_DATA buf (Z.to_nat (u32 len)).

Definition qemu_cfg_write (buf len : Z) : M W unit :=
  if len =? 0 then ret tt
  else if qemu_cfg_dma_enabled then qemu_cfg_dma_transfer buf len QEMU_CFG_DMA_CTL_WRITE
  else ret tt.

Fixpoint skip_bytes (n : nat) : M W unit :=
  match n with O => ret tt | S n' => _ <- inb PORT_QEMU_CFG_DATA ;; skip_bytes n' end.
Definition qemu_cfg_skip (len : Z) : M W unit :=
  if len =? 0 then ret tt
  else if qemu_cfg_dma_enabled then qemu_cfg_dma_transfer 0 len QEMU_CFG_DMA_CTL_SKIP
  else skip_bytes (Z.to_nat (u32 len)).

(** The control word that also selects the item [e]. *)
Definition select_control (e ctl : Z) : Z :=
  u32 (Z.lor (Z.lor (Z.shiftl e 16) QEMU_CFG_DMA_CTL_SELECT) ctl).

Definition qemu_cfg_read_entry (buf e len : Z) : M W unit :=
  if qemu_cfg_dma_enabled
  then qemu_cfg_dma_transfer buf len (select_control e QEMU_CFG_DMA_CTL_READ)
  else do qemu_cfg_select e ;; qemu_cfg_read buf len.

Definition qemu_cfg_write_entry (buf e len : Z) : M W unit :=
  if qemu_cfg_dma_enabled
  then qemu_cfg_dma_transfer buf len (select_control e QEMU_CFG_DMA_CTL_WRITE)
  else ret tt.

(** [qemu_cfg_read_file] on a file of the given size, item and offset. *)
Definition qemu_cfg_read_file (size select skip dst maxlen : Z) : M W Z :=
  if maxlen <? size then ret (-1)
  else
    do (if skip =? 0 then qemu_cfg_read_entry dst select size
        else do qemu_cfg_select select ;; do qemu_cfg_skip skip ;; qemu_cfg_read dst size) ;;
    ret (s32 size).

Definition qemu_cfg_write_file_simple (src key offset len : Z) : M W Z :=
  do (if offset =? 0 then qemu_cfg_write_entry src key len
      else do qemu_cfg_select key ;; do qemu_cfg_skip offset ;; qemu_cfg_write src len) ;;
  ret (s32 len).

(** ** What the device does *)

(** [cursor] is the selected item and the offset in it; [item] the items'
    bytes.  The data port reads a byte and advances.  A transfer reads the
    access struct at the given address; it is over, without an error, when the
    write to the port is: the control word is 0, a read has stored the bytes of
    the item, and the offset has advanced; no other byte of memory is touched,
    and the items change in write transfers only. *)
Record device_ok (cursor : W -> Z * Z) (item : W -> Z -> Z -> Z) : Prop := {
  dv_byte : forall w i o, is_byte (item w i o);
  dv_select : forall f w, let w' := port_outw (u16 f) PORT_QEMU_CFG_CTL w in
    cursor w' = (u16 f, 0) /\ item w' = item w;
  dv_data : forall w, let '(v, w') := dev_inb PORT_QEMU_CFG_DATA w in
    v = item w (fst (cursor w)) (snd (cursor w)) /\ cursor w' = (fst (cursor w), snd (cursor w) + 1) /\
    item w' = item w;
  dv_dma : forall x s,
    let a := swab32 x in
    let m := mc_mem s in
    let control := swab32 (read32 m (dma_control a)) in
    let len := swab32 (read32 m (dma_length a)) in
    let addr := swab64 (read32 m (dma_address a) + 2 ^ 32 * read32 m (dma_address a + 4)) in
    let cur := if Z.testbit control 3 then (control / 2 ^ 16, 0) else cursor (mc_world s) in
    let s' := port_dma x s in
    cursor (mc_world s') = (fst cur, snd cur + len) /\
    (Z.testbit control 4 = false -> item (mc_world s') = item (mc_world s)) /\
    forall b, read8 (mc_mem s') b =
      if bool_decide (a <= b < a + 4) then 0
      else if Z.testbit control 1 && bool_decide (addr <= b < addr + len)
      then item (mc_world s) (fst cur) (snd cur + (b - addr))
      else read8 m b }.

Section Correct.
Context (cursor : W -> Z * Z) (item : W -> Z -> Z -> Z) (Hdev : device_ok cursor item).
Context (Haccess : 0 <= access /\ access + sizeof_QemuCfgDmaAccess <= 2 ^ 32).

Definition in_access (b : Z) : Prop := access <= b < access + sizeof_QemuCfgDmaAccess.

(** The memory outside the access struct after a transfer of [len] bytes from
    the position [cur] to [dst]; the items are the same. *)
Definition transferred (cur : Z * Z) (rd : bool) (dst len : Z) (s s' : machine W) : Prop :=
  cursor (mc_world s') = (fst cur, snd cur + len) /\ item (mc_world s') = item (mc_world s) /\
  forall b, ~ in_access b -> read8 (mc_mem s') b =
    if rd && bool_decide (dst <= b < dst + len) then item (mc_world s) (fst cur) (snd cur + (b - dst))
    else read8 (mc_mem s) b.

Lemma read32_zero m a : (forall b, a <= b < a + 4 -> read8 m b = 0) -> read32 m a = 0.
Proof. intros Hm. unfold read32, read16. rewrite !Hm by lia. done. Qed.

Lemma dma_wait_done n s : (forall b, access <= b < access + 4 -> read8 (mc_mem s) b = 0) -> dma_wait n s = Some (tt, s).
Proof.
  intros Hb. apply read32_zero in Hb. destruct n; cbn [dma_wait]; unfold bind, get32, dma_control; by rewrite Hb.
Qed.

Lemma join64 v : 0 <= v < 2 ^ 64 -> u32 v + 2 ^ 32 * u32 (v / 2 ^ 32) = v.
Proof. unfold u32. lia. Qed.

(** A transfer of any kind. *)
Lemma dma_transfer_any address len control s :
  0 <= address < 2 ^ 32 -> 0 <= len < 2 ^ 32 -> 0 <= control < 2 ^ 32 ->
  let cur := if Z.testbit control 3 then (control / 2 ^ 16, 0) else cursor (mc_world s) in
  exists s', qemu_cfg_dma_transfer address len control s = Some (tt, s') /\
    cursor (mc_world s') = (fst cur, snd cur + len) /\
    (Z.testbit control 4 = false -> item (mc_world s') = item (mc_world s)) /\
    forall b, ~ in_access b -> read8 (mc_mem s') b =
      if Z.testbit control 1 && bool_decide (address <= b < address + len)
      then item (mc_world s) (fst cur) (snd cur + (b - address)) else read8 (mc_mem s) b.
Proof.
  intros Ha Hl Hc cur. subst cur. unfold sizeof_QemuCfgDmaAccess in *.
  set (m := write32 access (swab32 control) (write32 (access + 4) (swab32 len)
    (write32 (access + 8 + 4) (swab64 address / 2 ^ 32) (write32 (access + 8) (swab64 address) (mc_mem s))))).
  pose proof (dv_dma _ _ Hdev (swab32 access) (Machine m (mc_world s))) as Hd.
  rewrite swab32_swab32 in Hd by lia. unfold dma_control, dma_length, dma_address in Hd.
  cbv beta zeta in Hd. cbn [mc_mem mc_world] in Hd.
  pose proof (swab64_range address ltac:(lia)) as Hs64.
  assert (read32 m access = swab32 control) as Hmc.
  { unfold m. rewrite read32_write32_eq. apply u32_small, swab32_range. }
  assert (read32 m (access + 4) = swab32 len) as Hml.
  { unfold m. mem_simpl. apply u32_small, swab32_range. }
  assert (read32 m (access + 8) + 2 ^ 32 * read32 m (access + 8 + 4) = swab64 address) as Hma.
  { unfold m. mem_simpl. by apply join64. }
  rewrite Hmc, Hml, Hma, !swab32_swab32, swab64_swab64 in Hd by lia.
  destruct Hd as (Hcur & Hitem & Hmem).
  set (s' := port_dma (swab32 access) (Machine m (mc_world s))) in *.
  exists s'. split.
  - unfold qemu_cfg_dma_transfer, bind, put64, put32, upd_mem, dma_address, dma_length, dma_control.
    cbn [mc_mem mc_world]. rewrite !u32_small by lia. fold m. fold s'.
    apply dma_wait_done. intros b Hb. rewrite Hmem. by rewrite bool_decide_true by lia.
  - split_and!; [exact Hcur|exact Hitem|]. intros b Hb. unfold in_access, sizeof_QemuCfgDmaAccess in Hb.
    rewrite Hmem, bool_decide_false by lia. destruct (Z.testbit control 1 && _); [done|]. unfold m. by rewrite !read8_write32_ne by lia.
Qed.

Lemma dma_transfer_spec address len control s :
  0 <= address < 2 ^ 32 -> 0 <= len < 2 ^ 32 -> 0 <= control < 2 ^ 32 -> Z.testbit control 4 = false ->
  exists s', qemu_cfg_dma_transfer address len control s = Some (tt, s') /\
    transferred (if Z.testbit control 3 then (control / 2 ^ 16, 0) else cursor (mc_world s))
      (Z.testbit control 1) address len s s'.
Proof.
  intros Ha Hl Hc Hw. destruct (dma_transfer_any address len control s Ha Hl Hc) as (s' & Hrun & Hcur & Hitem & Hmem).
  exists s'. split; [done|]. split; [done|]. split; [by apply Hitem|done].
Qed.

(** Reading byte by byte through the data port. *)
Lemma insb_spec n : forall data s,
  exists s', insb PORT_QEMU_CFG_DATA data n s = Some (tt, s') /\
    cursor (mc_world s') = (fst (cursor (mc_world s)), snd (cursor (mc_world s)) + Z.of_nat n) /\
    item (mc_world s') = item (mc_world s) /\
    forall b, read8 (mc_mem s') b =
      if bool_decide (data <= b < data + Z.of_nat n)
      then item (mc_world s) (fst (cursor (mc_world s))) (snd (cursor (mc_world s)) + (b - data))
      else read8 (mc_mem s) b.
Proof.
  induction n as [|n IH]; intros data s; cbn [insb].
  { exists s. split_and!; [done|by destruct (cursor _); rewrite Z.add_0_r|done|]. intros b. by rewrite bool_decide_false by lia. }
  unfold bind, inb, put8, upd_mem.
  pose proof (dv_data _ _ Hdev (mc_world s)) as Hd. destruct (dev_inb PORT_QEMU_CFG_DATA (mc_world s)) as [v w'].
  destruct Hd as (-> & Hc & Hi). cbn [mc_mem mc_world].
  destruct (IH (data + 1) (Machine (write8 data (u8 (item (mc_world s) (cursor (mc_world s)).1 (cursor (mc_world s)).2))
    (mc_mem s)) w')) as (s' & -> & Hc' & Hi' & Hm').
  exists s'. cbn [mc_mem mc_world] in *. rewrite Hc in Hc', Hm'. simpl in Hc', Hm'.
  split_and!; [done|rewrite Hc'; f_equal; lia|by rewrite Hi'|]. intros b. rewrite Hm', Hi, read8_write8, u8_idem.
  rewrite u8_small by apply (dv_byte _ _ Hdev).
  repeat case_bool_decide; try case_decide; try lia; try done; subst; f_equal; lia.
Qed.

Lemma skip_bytes_spec n : forall s, exists s', skip_bytes n s = Some (tt, s') /\ mc_mem s' = mc_mem s /\
  cursor (mc_world s') = (fst (cursor (mc_world s)), snd (cursor (mc_world s)) + Z.of_nat n) /\
  item (mc_world s') = item (mc_world s).
Proof.
  induction n as [|n IH]; intros s; cbn [skip_bytes].
  { exists s. split_and!; [done|done|by destruct (cursor _); rewrite Z.add_0_r|done]. }
  unfold bind, inb. pose proof (dv_data _ _ Hdev (mc_world s)) as Hd.
  destruct (dev_inb PORT_QEMU_CFG_DATA (mc_world s)) as [v w']. destruct Hd as (_ & Hc & Hi).
  destruct (IH (Machine (mc_mem s) w')) as (s' & -> & Hm & Hc' & Hi'). exists s'. simpl in *.
  rewrite Hc in Hc'. simpl in Hc'. split_and!; [done|done|rewrite Hc'; f_equal; lia|by rewrite Hi'].
Qed.

Lemma select_control_bits e ctl : 0 <= e < 2 ^ 16 -> ctl = QEMU_CFG_DMA_CTL_READ \/ ctl = QEMU_CFG_DMA_CTL_WRITE ->
  0 <= select_control e ctl < 2 ^ 32 /\ Z.testbit (select_control e ctl) 3 = true /\
  select_control e ctl / 2 ^ 16 = e /\ Z.testbit (select_control e ctl) 1 = (ctl =? QEMU_CFG_DMA_CTL_READ) /\
  Z.testbit (select_control e ctl) 4 = (ctl =? QEMU_CFG_DMA_CTL_WRITE).
Proof.
  intros He Hctl. assert (Z.lor (Z.lor (Z.shiftl e 16) QEMU_CFG_DMA_CTL_SELECT) ctl = e * 2 ^ 16 + (8 + ctl)) as Heq.
  { rewrite <- Z.lor_assoc, Z.shiftl_mul_pow2 by done.
    destruct Hctl as [-> | ->]; apply (lor_add_shifted e); done. }
  unfold select_control. rewrite Heq, u32_small by (destruct Hctl as [-> | ->]; unfold QEMU_CFG_DMA_CTL_READ, QEMU_CFG_DMA_CTL_WRITE; lia).
  assert (Hlow : forall i, 0 <= i < 16 -> Z.testbit (e * 2 ^ 16 + (8 + ctl)) i = Z.testbit (8 + ctl) i).
  { intros i Hi. rewrite <- (Z.mod_pow2_bits_low (e * 2 ^ 16 + (8 + ctl)) 16 i) by lia.
    rewrite Z.add_comm, Z_mod_plus_full, Z.mod_small; [done|].
    destruct Hctl as [-> | ->]; done. }
  rewrite !Hlow by lia. destruct Hctl as [-> | ->]; unfold QEMU_CFG_DMA_CTL_READ, QEMU_CFG_DMA_CTL_WRITE; split_and!; lia || done.
Qed.
Lemma transferred_of_select cur rd dst len s s1 s' :
  cur = cursor (mc_world s1) -> item (mc_world s1) = item (mc_world s) ->
  (forall b, ~ in_access b -> read8 (mc_mem s1) b = read8 (mc_mem s) b) ->
  transferred (cursor (mc_world s1)) rd dst len s1 s' -> transferred cur rd dst len s s'.
Proof.
  intros -> Hi Hm (Hc' & Hi' & Hm'). unfold transferred. rewrite Hi in Hi', Hm'. split_and!; [done|done|].
  intros b Hb. rewrite Hm' by done. destruct (rd && _); [done|by apply Hm].
Qed.

Lemma read_spec dst len s : 0 <= dst < 2 ^ 32 -> 0 <= len < 2 ^ 32 ->
  exists s', qemu_cfg_read dst len s = Some (tt, s') /\ transferred (cursor (mc_world s)) true dst len s s'.
Proof.
  intros Hd Hl. unfold qemu_cfg_read. destruct (Z.eqb_spec len 0) as [->|Hne].
  { exists s. split; [done|]. unfold transferred. split_and!; [by destruct (cursor _); rewrite Z.add_0_r|done|].
    intros b _. by rewrite bool_decide_false by lia. }
  destruct qemu_cfg_dma_enabled.
  - by apply dma_transfer_spec.
  - destruct (insb_spec (Z.to_nat (u32 len)) dst s) as (s' & -> & Hc & Hi & Hm). exists s'. split; [done|].
    rewrite u32_small, Z2Nat.id in Hc, Hm by lia. split_and!; [done|done|]. intros b _. apply Hm.
Qed.

Lemma read_entry_spec dst e len s : 0 <= e < 2 ^ 16 -> 0 <= dst < 2 ^ 32 -> 0 <= len < 2 ^ 32 ->
  exists s', qemu_cfg_read_entry dst e len s = Some (tt, s') /\ transferred (e, 0) true dst len s s'.
Proof.
  intros He Hd Hl. unfold qemu_cfg_read_entry. destruct qemu_cfg_dma_enabled eqn:Hdma.
  - destruct (select_control_bits e QEMU_CFG_DMA_CTL_READ He ltac:(by left)) as (Hr & Hb3 & He' & Hb1 & Hb4).
    destruct (dma_transfer_spec dst len (select_control e QEMU_CFG_DMA_CTL_READ) s) as (s' & Hrun & Ht); try done.
    rewrite Hb3, Hb1, He' in Ht. by exists s'.
  - unfold bind, qemu_cfg_select, outw. destruct (dv_select _ _ Hdev e (mc_world s)) as [Hc Hi].
    destruct (read_spec dst len (Machine (mc_mem s) (port_outw (u16 e) PORT_QEMU_CFG_CTL (mc_world s))) Hd Hl)
      as (s' & Hrun & Ht).
    exists s'. split; [done|]. eapply transferred_of_select; [| | |exact Ht]; [|exact Hi|done].
    simpl. by rewrite Hc, u16_small.
Qed.

Lemma skip_spec len s : 0 < len < 2 ^ 32 ->
  exists s', qemu_cfg_skip len s = Some (tt, s') /\ transferred (cursor (mc_world s)) false 0 len s s'.
Proof.
  intros Hl. unfold qemu_cfg_skip. rewrite (proj2 (Z.eqb_neq len 0)) by lia. destruct qemu_cfg_dma_enabled.
  - apply (dma_transfer_spec 0 len QEMU_CFG_DMA_CTL_SKIP); done || lia.
  - destruct (skip_bytes_spec (Z.to_nat (u32 len)) s) as (s' & -> & Hm & Hc & Hi). exists s'. split; [done|].
    rewrite u32_small, Z2Nat.id in Hc by lia. split_and!; [done|done|]. intros b _. simpl. by rewrite Hm.
Qed.

(** Writing to the device changes no memory but the access struct. *)
Lemma write_simple_spec src key offset len s :
  qemu_cfg_dma_enabled = true -> 0 <= src < 2 ^ 32 -> 0 <= key < 2 ^ 16 -> 0 <= offset < 2 ^ 32 -> 0 <= len < 2 ^ 31 ->
  exists s', qemu_cfg_write_file_simple src key offset len s = Some (len, s') /\
    forall b, ~ in_access b -> read8 (mc_mem s') b = read8 (mc_mem s) b.
Proof.
  intros Hdma Hsrc Hkey Hoff Hlen. unfold qemu_cfg_write_file_simple.
  assert (s32 len = len) as ->. { unfold s32. rewrite u32_small by lia. zbool. }
  destruct (Z.eqb_spec offset 0) as [->|Hne].
  - unfold qemu_cfg_write_entry. rewrite Hdma.
    destruct (select_control_bits key QEMU_CFG_DMA_CTL_WRITE Hkey ltac:(by right)) as (Hr & Hb3 & He' & Hb1 & Hb4).
    destruct (dma_transfer_any src len (select_control key QEMU_CFG_DMA_CTL_WRITE) s) as (s' & Hrun & _ & _ & Hm); try lia.
    exists s'. unfold bind. rewrite Hrun. split; [done|]. intros b Hb. rewrite Hm by done. by rewrite Hb1.
  - destruct (skip_spec offset (Machine (mc_mem s) (port_outw (u16 key) PORT_QEMU_CFG_CTL (mc_world s)))) as
      (s1 & Hrun1 & _ & _ & Hm1); [lia|].
    unfold bind, qemu_cfg_select, outw. rewrite Hrun1. unfold qemu_cfg_write. rewrite Hdma.
    destruct (Z.eqb_spec len 0); [exists s1; split; [done|]; intros b Hb; by rewrite Hm1|].
    destruct (dma_transfer_any src len QEMU_CFG_DMA_CTL_WRITE s1) as (s2 & Hrun2 & _ & _ & Hm2); try lia; [done|].
    rewrite Hrun2. exists s2. split; [done|]. intros b Hb. rewrite Hm2 by done. simpl. by rewrite Hm1.
Qed.

Lemma qemu_cfg_read_file_run size select skip dst maxlen s :
  0 <= select < 2 ^ 16 -> 0 <= skip < 2 ^ 31 -> 0 <= size < 2 ^ 31 -> 0 <= dst < 2 ^ 32 -> size <= maxlen ->
  exists s', qemu_cfg_read_file size select skip dst maxlen s = Some (size, s') /\
    item (mc_world s') = item (mc_world s) /\
    forall b, ~ in_access b -> read8 (mc_mem s') b =
      if bool_decide (dst <= b < dst + size) then item (mc_world s) select (skip + (b - dst))
      else read8 (mc_mem s) b.
Proof.
  intros Hsel Hskip Hsize Hdst Hmax. unfold qemu_cfg_read_file. destruct (Z.ltb_spec maxlen size); [lia|].
  assert (s32 size = size) as ->. { unfold s32. rewrite u32_small by lia. zbool. }
  destruct (Z.eqb_spec skip 0) as [->|Hne].
  - destruct (read_entry_spec dst select size s) as (s' & Hrun & Hc & Hi & Hm); try done; [lia|].
    exists s'. unfold bind at 1. rewrite Hrun. split_and!; [done|done|]. intros b Hb. by rewrite Hm.
  - destruct (dv_select _ _ Hdev select (mc_world s)) as [Hc0 Hi0].
    destruct (skip_spec skip (Machine (mc_mem s) (port_outw (u16 select) PORT_QEMU_CFG_CTL (mc_world s)))) as
      (s1 & Hrun1 & Hc1 & Hi1 & Hm1); [lia|].
    cbn [mc_mem mc_world] in *. rewrite Hc0, u16_small in Hc1 by done. cbn [fst snd] in Hc1.
    destruct (read_spec dst size s1) as (s2 & Hrun2 & Hc2 & Hi2 & Hm2); [done|lia|].
    exists s2. unfold bind, qemu_cfg_select, outw. rewrite Hrun1, Hrun2. rewrite Hc1, Hi1, Hi0 in Hm2. cbn [fst snd] in Hm2.
    split_and!; [done|congruence|]. intros b Hb. rewrite Hm2 by done. cbn [andb].
    case_bool_decide; [done|]. rewrite Hm1 by done. done.
Qed.

(** C33: reading a firmware file stores exactly the file.  With or without DMA,
    when the file fits in the buffer [qemu_cfg_read_file] returns its size and
    the buffer holds the item's bytes from the file's offset on; when it does
    not fit the result is -1.  Besides the buffer only the local access struct
    is written. *)
Theorem qemu_cfg_read_file_correct size select skip dst maxlen s :
  0 <= select < 2 ^ 16 -> 0 <= skip < 2 ^ 31 -> 0 <= size < 2 ^ 31 -> 0 <= dst < 2 ^ 32 ->
  (maxlen < size /\ qemu_cfg_read_file size select skip dst maxlen s = Some (-1, s)) \/
  (size <= maxlen /\ exists s', qemu_cfg_read_file size select skip dst maxlen s = Some (size, s') /\
     item (mc_world s') = item (mc_world s) /\
     forall b, ~ in_access b -> read8 (mc_mem s') b =
       if bool_decide (dst <= b < dst + size) then item (mc_world s) select (skip + (b - dst))
       else read8 (mc_mem s) b).
Proof.
  intros Hsel Hskip Hsize Hdst. destruct (Z.lt_ge_cases maxlen size) as [Hlt|Hge]; [left|right].
  - split; [done|]. unfold qemu_cfg_read_file. by rewrite (proj2 (Z.ltb_lt maxlen size)).
  - split; [done|]. by apply qemu_cfg_read_file_run.
Qed.
End Correct.
End FwCfg.

(** ** A device *)

Module DemoDevice.
(** The selected item and the offset; the bytes follow a pattern. *)
Definition W : Type := Z * Z.
Definition item (_ : W) (i o : Z) : Z := u8 (3 * i + o).

#[export] Instance env : Env W := {|
  dev_inb port w :=
    if port =? PORT_QEMU_CFG_DATA then (item w (fst w) (snd w), (fst w, snd w + 1)) else (0, w);
  dev_outb _ _ w := w;
  env_yield s := s;
  env_yield_toirq s := s;
  env_int _ r s := (r, s) |}.

#[export] Instance ports : Ports W := {|
  port_inw _ w := (0, w);
  port_inl _ w := (0, w);
  port_outw v port w := if port =? PORT_QEMU_CFG_CTL then (v, 0) else w;
  port_outl _ _ w := w |}.

#[export] Instance dma : DmaPort W := {|
  port_dma x s :=
    let a := swab32 x in
    let m := mc_mem s in
    let control := swab32 (read32 m (dma_control a)) in
    let len := swab32 (read32 m (dma_length a)) in
    let addr := swab64 (read32 m (dma_address a) + 2 ^ 32 * read32 m (dma_address a + 4)) in
    let cur := if Z.testbit control 3 then (control / 2 ^ 16, 0) else mc_world s in
    let bytes := map (fun o => item (mc_world s) (fst cur) (snd cur + o)) (seqZ 0 len) in
    Machine (write32 (dma_control a) 0 (if Z.testbit control 1 then write_bytes addr bytes m else m))
      (fst cur, snd cur + len) |}.

Lemma read8_write32_zero a m b : read8 (write32 a 0 m) b = if bool_decide (a <= b < a + 4) then 0 else read8 m b.
Proof.
  case_bool_decide as Hb; [|by apply read8_write32_ne; lia]. unfold write32. rewrite !read8_write16.
  repeat case_decide; try reflexivity; lia.
Qed.

Lemma read8_write_bytes_fun f len addr m b : (forall o, is_byte (f o)) -> 0 <= len ->
  read8 (write_bytes addr (map f (seqZ 0 len)) m) b =
  if bool_decide (addr <= b < addr + len) then f (b - addr) else read8 m b.
Proof.
  intros Hf Hlen. assert (length (map f (seqZ 0 len)) = Z.to_nat len) as Hl by by rewrite length_map, length_seqZ.
  case_bool_decide as Hb.
  - replace b with (addr + Z.of_nat (Z.to_nat (b - addr))) at 1 by lia. rewrite read8_write_bytes_in by lia.
    assert (seqZ 0 len !! Z.to_nat (b - addr) = Some (b - addr)) as Hs by (apply lookup_seqZ; lia).
    assert (nth (Z.to_nat (b - addr)) (map f (seqZ 0 len)) 0 = f (b - addr)) as ->.
    { rewrite nth_lookup, list_lookup_fmap, Hs. done. }
    apply u8_small, Hf.
  - apply read8_write_bytes_out. lia.
Qed.

Lemma ok : device_ok (W := W) (fun w => w) item.
Proof.
  split.
  - intros w i o. apply u8_range.
  - done.
  - intros w. simpl. done.
  - intros x s. cbv zeta. split; [done|]. split; [done|]. intros b.
    unfold port_dma, dma. cbn [mc_mem]. rewrite read8_write32_zero. unfold dma_control.
    destruct (bool_decide (swab32 x <= b < swab32 x + 4)); [done|]. destruct (Z.testbit _ 1); [|done].
    rewrite (read8_write_bytes_fun (fun o => item _ _ (_ + o))); [done|intros o; apply u8_range|apply swab32_range].
Qed.
End DemoDevice.
#[local] Existing Instances DemoDevice.env DemoDevice.ports DemoDevice.dma.

Lemma qemu_cfg_read_file_correct_witness :
  let s := Machine (W := DemoDevice.W) ∅ (0, 0) in
  (100 < 20 /\ qemu_cfg_read_file true 0x6000 0 20 0x19 4 0x8000 100 s = Some (-1, s)) \/
  (20 <= 100 /\ exists s', qemu_cfg_read_file true 0x6000 0 20 0x19 4 0x8000 100 s = Some (20, s') /\
     DemoDevice.item (mc_world s') = DemoDevice.item (mc_world s) /\
     forall b, ~ in_access 0x6000 b -> read8 (mc_mem s') b =
       if bool_decide (0x8000 <= b < 0x8000 + 20) then DemoDevice.item (mc_world s) 0x19 (4 + (b - 0x8000))
       else read8 (mc_mem s) b).
Proof.
  apply (qemu_cfg_read_file_correct true 0x6000 0 (fun w => w) DemoDevice.item DemoDevice.ok); try lia.
  done.
Defined.
