(* ===== verification/Romfile.v ===== *)
(** * Configuration files: src/romfile.c, and those QEMU offers (fw/paravirt.c)

    The files are a chain, newest first.  A pointer to a file is the part of the
    chain that starts with it, so NULL is the empty chain.  A name is the bytes
    before its terminator. *)
From S2P Require Import Prelude E820 Hlist Machine StringOps Bytes Malloc Pci FwCfg.
Local Open Scope seabios_scope.

(** ** Data *)

(** The function behind [copy], with the rest of its container. *)
Inductive copy_fn :=
| ConstFile (data : Z)                          (* const_read_file *)
| QemuFile (select skip : Z).                   (* qemu_cfg_read_file *)

Record romfile_s := Romfile { name : list Z; size : Z; copy : copy_fn }.
Abbreviation chain := (list romfile_s).

Definition sizeof_romfile_s := 140.
Definition sizeof_const_romfile_s := 144.
Definition sizeof_qemu_romfile_s := 148.

(** [memcmp] of two names up to [n] bytes is 0; the bytes after a name are 0. *)
Definition same_bytes (n : nat) (l1 l2 : list Z) : bool :=
  forallb (fun i => nth i l1 0 =? nth i l2 0) (seq 0 n).

(** The C string at an address, of at most [n] bytes. *)
Fixpoint cstr (n : nat) (a : Z) (m : memory) : list Z :=
  match n with
  | O => []
  | S n' => if read8 m a =? 0 then [] else read8 m a :: cstr n' (a + 1) m
  end.

Section Romfile.
Context {S : Type} `{Hlist S} `{Layout}.
Context {W : Type} `{Env W} `{Ports W} `{DmaPort W}.

Record rstate := RState {
  rs_ms : mstate (S := S);       (* the allocator and the memory *)
  rs_dev : W;
  RomfileRoot : chain;
  romfile_pointer_list : list Z  (* addresses of struct romfile_wr_pointer_entry *) }.

Abbreviation R A := (ST rstate A).

Definition rs_mem (s : rstate) : memory := ms_mem (rs_ms s).
Definition get_mem : R memory := fun s => Some (rs_mem s, s).
Definition upd_ms (f : mstate (S := S) -> mstate (S := S)) : R unit :=
  fun s => Some (tt, RState (f (rs_ms s)) (rs_dev s) (RomfileRoot s) (romfile_pointer_list s)).
Definition change_mem (f : memory -> memory) : R unit := upd_ms (with_mem f).
Definition alloc (f : mstate (S := S) -> Z * mstate (S := S)) : R Z :=
  fun s => let '(r, ms) := f (rs_ms s) in Some (r, RState ms (rs_dev s) (RomfileRoot s) (romfile_pointer_list s)).
(** An access to the device. *)
Definition with_device {A} (c : M W A) : R A :=
  fun s =>
    match c (Machine (rs_mem s) (rs_dev s)) with
    | Some (x, s') =>
      Some (x, RState (with_mem (fun _ => mc_mem s') (rs_ms s)) (mc_world s') (RomfileRoot s) (romfile_pointer_list s))
    | None => None
    end.
Definition get_root : R chain := fun s => Some (RomfileRoot s, s).

Context (preempted : bool).            (* see [malloc_palloc] *)
Context (qemu_cfg_dma_enabled : bool) (access : Z) (fuel : nat).       (* see [FwCfg] *)

(** ** The chain *)

Definition romfile_add (file : romfile_s) : R unit :=
  fun s => Some (tt, RState (rs_ms s) (rs_dev s) (file :: RomfileRoot s) (romfile_pointer_list s)).

Fixpoint findprefix_loop (prefix : list Z) (prefixlen : nat) (cur : chain) : chain :=
  match cur with
  | [] => []
  | file :: next => if same_bytes prefixlen prefix (name file) then cur else findprefix_loop prefix prefixlen next
  end.
Definition __romfile_findprefix (prefix : list Z) (prefixlen : nat) (prev root : chain) : chain :=
  findprefix_loop prefix prefixlen (match prev with [] => root | _ :: next => next end).

Definition romfile_findprefix (prefix : list Z) (prev root : chain) : chain :=
  __romfile_findprefix prefix (length prefix) prev root.
Definition romfile_find (nm : list Z) (root : chain) : option romfile_s :=
  head (__romfile_findprefix nm (length nm + 1) [] root).

(** ** Copying *)

Definition const_read_file (fsize data dst maxlen : Z) : R Z :=
  if maxlen <? fsize then ret (-1)
  else do change_mem (memcpy dst data (if fsize <? maxlen then fsize else maxlen)) ;; ret (s32 fsize).

(** [file->copy (file, dst, maxlen)] *)
Definition file_copy (file : romfile_s) (dst maxlen : Z) : R Z :=
  match copy file with
  | ConstFile data => const_read_file (size file) data dst maxlen
  | QemuFile select skip => with_device (qemu_cfg_read_file qemu_cfg_dma_enabled access fuel (size file) select skip dst maxlen)
  end.

(** The result and [*psize]; 0 is NULL. *)
Definition romfile_loadfile (nm : list Z) : R (Z * Z) :=
  root <- get_root ;;
  match romfile_find nm root with
  | None => ret (0, 0)
  | Some file =>
    let filesize := s32 (size file) in
    if filesize =? 0 then ret (0, 0)
    else
      data <- alloc (malloc_tmphigh preempted (u32 (filesize + 1))) ;;
      if data =? 0 then ret (0, 0)
      else
        r <- file_copy file data (u32 filesize) ;;
        if r <? 0 then do upd_ms (free data) ;; ret (0, 0)
        else do change_mem (write8 (data + filesize) 0) ;; ret (data, filesize)
  end.

(** [stack] is the address of the local variable. *)
Definition romfile_loadint (stack : Z) (nm : list Z) (defval : Z) : R Z :=
  root <- get_root ;;
  match romfile_find nm root with
  | None => ret defval
  | Some file =>
    let filesize := s32 (size file) in
    if (filesize =? 0) || (8 <? u32 filesize) || truthy (Z.land filesize (filesize - 1)) then ret defval
    else
      do change_mem (write_le 8 stack 0) ;;
      r <- file_copy file stack 8 ;;
      if r <? 0 then ret defval
      else m <- get_mem ;; ret (read_le 8 stack m)
  end.

(** ** Adding files *)

(** The struct itself is kept in the chain, not in memory. *)
Definition const_romfile_add (nm : list Z) (data fsize : Z) : R unit :=
  cfile <- alloc (malloc_tmp preempted sizeof_const_romfile_s) ;;
  if cfile =? 0 then ret tt
  else romfile_add (Romfile (take 127 nm) (u32 fsize) (ConstFile data)).

Definition const_romfile_add_int (nm : list Z) (value : Z) : R unit :=
  data <- alloc (malloc_tmp preempted 4) ;;
  if data =? 0 then ret tt
  else do change_mem (write32 data value) ;; const_romfile_add nm data 4.

Definition qemu_romfile_add (nm : list Z) (select skip fsize : Z) : R unit :=
  qfile <- alloc (malloc_tmp preempted sizeof_qemu_romfile_s) ;;
  if qfile =? 0 then ret tt
  else romfile_add (Romfile (take 127 nm) (u32 fsize) (QemuFile (s32 select) (s32 skip))).

Definition qemu_get_romfile_key (file : romfile_s) : Z :=
  match copy file with QemuFile select _ => u16 select | _ => 0 end.

Definition qemu_cfg_write_file (src : Z) (file : romfile_s) (offset len : Z) : R Z :=
  if size file <? u32 (offset + len) then ret (-1)
  else
    match copy file with
    | QemuFile _ _ =>
      if negb qemu_cfg_dma_enabled then ret (-1)
      else with_device (qemu_cfg_write_file_simple qemu_cfg_dma_enabled access fuel src (qemu_get_romfile_key file) offset len)
    | _ => ret (-1)
    end.
End Romfile.
