(* ===== verification/Loader.v ===== *)
(** * The table loader: src/fw/romfile_loader.c

    QEMU's script of commands that load files into memory, patch pointers and
    checksums in them and report addresses back.  The script is data from
    outside: every command checks it. *)
From S2P Require Import Prelude E820 Hlist Machine StringOps Bytes Malloc Pci FwCfg Romfile.
Local Open Scope seabios_scope.

Definition ROMFILE_LOADER_FILESZ := 56.

(** struct romfile_loader_entry_s: the offsets of the fields. *)
Definition sizeof_entry := 128.
Definition entry_command (entry : Z) : Z := entry.
Definition alloc_file (entry : Z) : Z := entry + 4.
Definition alloc_align (entry : Z) : Z := entry + 60.
Definition alloc_zone (entry : Z) : Z := entry + 64.
Definition dest_file (entry : Z) : Z := entry + 4.
Definition src_file (entry : Z) : Z := entry + 60.
Definition pointer_offset (entry : Z) : Z := entry + 116.
Definition pointer_size (entry : Z) : Z := entry + 120.
Definition cksum_file (entry : Z) : Z := entry + 4.
Definition cksum_offset (entry : Z) : Z := entry + 60.
Definition cksum_start (entry : Z) : Z := entry + 64.
Definition cksum_length (entry : Z) : Z := entry + 68.
Definition wr_dst_offset (entry : Z) : Z := entry + 116.
Definition wr_src_offset (entry : Z) : Z := entry + 120.
Definition wr_size (entry : Z) : Z := entry + 124.

Definition ROMFILE_LOADER_COMMAND_ALLOCATE := 0x1.
Definition ROMFILE_LOADER_COMMAND_ADD_POINTER := 0x2.
Definition ROMFILE_LOADER_COMMAND_ADD_CHECKSUM := 0x3.
Definition ROMFILE_LOADER_COMMAND_WRITE_POINTER := 0x4.
Definition ROMFILE_LOADER_ALLOC_ZONE_HIGH := 0x1.
Definition ROMFILE_LOADER_ALLOC_ZONE_FSEG := 0x2.

(** struct romfile_loader_file, and struct romfile_loader_files: the files in
    use and the length of the array. *)
Record romfile_loader_file := LoaderFile { file : romfile_s; data : Z }.
Record romfile_loader_files := LoaderFiles { files : list romfile_loader_file; capacity : nat }.
Definition nfiles (fs : romfile_loader_files) : nat := length (files fs).

(** struct romfile_wr_pointer_entry *)
Definition store_pointer (store : Z) : Z := store.
Definition store_offset (store : Z) : Z := store + 8.
Definition store_key (store : Z) : Z := store + 12.
Definition store_ptr_size (store : Z) : Z := store + 14.
Definition sizeof_wr_pointer_entry := 24.

Definition romfile_loader_find (nm : Z) (fs : romfile_loader_files) (m : memory) : option romfile_loader_file :=
  if truthy (read8 m (nm + (ROMFILE_LOADER_FILESZ - 1))) then None
  else
    let s := cstr (Z.to_nat ROMFILE_LOADER_FILESZ) nm m in
    head (List.filter (fun f => bool_decide (name (file f) = s)) (files fs)).

(** The fields of an entry. *)
Definition le32 (a : Z) (m : memory) : Z := u32 (read32 m a).
Definition byte (a : Z) (m : memory) : Z := u8 (read8 m a).

(** 1, 2, 4 or 8. *)
Definition bad_size (sz : Z) : bool := (sz <? 1) || (8 <? sz) || truthy (Z.land sz (sz - 1)).

Section Loader.
Context {S : Type} `{Hlist S} `{Layout}.
Context {W : Type} `{Env W} `{Ports W} `{DmaPort W}.
Context (preempted : bool) (qemu_cfg_dma_enabled : bool) (access : Z) (fuel : nat).
Context (pointer_local : Z).           (* the address of the variable [pointer] *)

Abbreviation R A := (ST (rstate (S := S) (W := W)) A).
Abbreviation file_copy := (file_copy qemu_cfg_dma_enabled access fuel).

(** The slot after the last file is used before it is known that it is needed:
    [None] is a write past the array. *)
Definition romfile_loader_allocate (entry : Z) (fs : romfile_loader_files) : R romfile_loader_files :=
  m <- get_mem ;;
  let align := le32 (alloc_align entry) m in
  if truthy (Z.land align (u32 (align - 1))) then ret fs
  else
    match
      (let z := byte (alloc_zone entry) m in
       if z =? ROMFILE_LOADER_ALLOC_ZONE_HIGH then Some ZoneHigh
       else if z =? ROMFILE_LOADER_ALLOC_ZONE_FSEG then Some ZoneFSeg else None)
    with
    | None => ret fs
    | Some zone =>
      let align := if align <? MALLOC_MIN_ALIGN then MALLOC_MIN_ALIGN else align in
      if truthy (read8 m (alloc_file entry + (ROMFILE_LOADER_FILESZ - 1))) then ret fs
      else
        root <- get_root ;;
        if (capacity fs <=? nfiles fs)%nat then fun _ => None
        else
          match romfile_find (cstr (Z.to_nat ROMFILE_LOADER_FILESZ) (alloc_file entry) m) root with
          | None => ret fs
          | Some f =>
            if size f =? 0 then ret fs
            else
              data <- alloc (_malloc preempted zone (size f) align) ;;
              if data =? 0 then ret fs
              else
                r <- file_copy f data (size f) ;;
                if negb (u32 r =? size f) then do upd_ms (free data) ;; ret fs
                else ret (LoaderFiles (files fs ++ [LoaderFile f data]) (capacity fs))
          end
    end.

Definition romfile_loader_add_pointer (entry : Z) (fs : romfile_loader_files) : R unit :=
  m <- get_mem ;;
  let offset := le32 (pointer_offset entry) m in
  let sz := byte (pointer_size entry) m in
  match romfile_loader_find (dest_file entry) fs m, romfile_loader_find (src_file entry) fs m with
  | Some dest, Some src =>
    if (data dest =? 0) || (data src =? 0) || (u32 (offset + sz) <? offset) ||
       (size (file dest) <? u32 (offset + sz)) || bad_size sz
    then ret tt
    else
      let pointer := read_le (Z.to_nat sz) (data dest + offset) m in
      let pointer := u64 (pointer + data src) in
      change_mem (write_le (Z.to_nat sz) (data dest + offset) pointer)
  | _, _ => ret tt
  end.

Definition romfile_loader_add_checksum (entry : Z) (fs : romfile_loader_files) : R unit :=
  m <- get_mem ;;
  let offset := le32 (cksum_offset entry) m in
  let start := le32 (cksum_start entry) m in
  let len := le32 (cksum_length entry) m in
  match romfile_loader_find (cksum_file entry) fs m with
  | Some f =>
    if (data f =? 0) || (size (file f) <=? offset) || (u32 (start + len) <? start) ||
       (size (file f) <? u32 (start + len))
    then ret tt
    else
      let a := data f + offset in
      change_mem (write8 a (read8 m a - checksum (data f + start) len m))
  | None => ret tt
  end.

(** [limit] is the number of bytes up to the end of the script, whose
    terminator ends every string in it. *)
Definition romfile_loader_write_pointer (limit : nat) (entry : Z) (fs : romfile_loader_files) : R unit :=
  m <- get_mem ;;
  root <- get_root ;;
  let dst_offset := le32 (wr_dst_offset entry) m in
  let src_offset := le32 (wr_src_offset entry) m in
  let sz := byte (wr_size entry) m in
  match romfile_find (cstr limit (dest_file entry) m) root, romfile_loader_find (src_file entry) fs m with
  | Some dest, Some src =>
    if (data src =? 0) || (u32 (dst_offset + sz) <? dst_offset) || (size dest <? u32 (dst_offset + sz)) ||
       (size (file src) <=? src_offset) || bad_size sz
    then ret tt
    else
      let pointer := u32 (data src + src_offset) in
      if negb (sz =? 8) && (0 <? Z.shiftr pointer (sz * 8)) then ret tt
      else
        do change_mem (write_le 8 pointer_local pointer) ;;
        r <- qemu_cfg_write_file qemu_cfg_dma_enabled access fuel pointer_local dest dst_offset sz ;;
        if negb (r =? sz) then ret tt
        else
          store <- alloc (malloc_high preempted sizeof_wr_pointer_entry) ;;
          if store =? 0 then ret tt
          else
            do change_mem (write_le 8 (store_pointer store) pointer) ;;
            do change_mem (write16 (store_key store) (qemu_get_romfile_key dest)) ;;
            do change_mem (write32 (store_offset store) dst_offset) ;;
            do change_mem (write8 (store_ptr_size store) sz) ;;
            fun s => Some (tt, RState (rs_ms s) (rs_dev s) (RomfileRoot s) (store :: romfile_pointer_list s))
  | _, _ => ret tt
  end.

Definition run_entry (limit : nat) (entry : Z) (fs : romfile_loader_files) : R romfile_loader_files :=
  m <- get_mem ;;
  let command := le32 (entry_command entry) m in
  if command =? ROMFILE_LOADER_COMMAND_ALLOCATE then romfile_loader_allocate entry fs
  else if command =? ROMFILE_LOADER_COMMAND_ADD_POINTER then do romfile_loader_add_pointer entry fs ;; ret fs
  else if command =? ROMFILE_LOADER_COMMAND_ADD_CHECKSUM then do romfile_loader_add_checksum entry fs ;; ret fs
  else if command =? ROMFILE_LOADER_COMMAND_WRITE_POINTER
  then do romfile_loader_write_pointer limit entry fs ;; ret fs
  else ret fs.

(** The loop over [n] entries. *)
Fixpoint run_script (n : nat) (entry : Z) (fs : romfile_loader_files) : R romfile_loader_files :=
  match n with
  | O => ret fs
  | Datatypes.S n' =>
    fs <- run_entry (Z.to_nat (sizeof_entry * Z.of_nat n)) entry fs ;;
    run_script n' (entry + sizeof_entry) fs
  end.

Definition romfile_loader_execute (nm : list Z) : R Z :=
  loaded <- romfile_loadfile preempted qemu_cfg_dma_enabled access fuel nm ;;
  let '(data, sz) := loaded in
  if data =? 0 then ret (-1)
  else if negb (u32 sz mod sizeof_entry =? 0) then do upd_ms (free data) ;; ret (-1)
  else
    let n := u32 sz / sizeof_entry in
    fl <- alloc (malloc_tmp preempted (u32 (4 + n * 8))) ;;
    if fl =? 0 then do upd_ms (free data) ;; ret (-1)
    else
      do (if 0 <? sz then run_script (Z.to_nat n) data (LoaderFiles [] (Z.to_nat n)) else ret (LoaderFiles [] 0)) ;;
      do upd_ms (free fl) ;;
      do upd_ms (free data) ;;
      ret 0.

(** [romfile_fw_cfg_resume]: the stored pointers are written again. *)
Fixpoint resume_loop (l : list Z) : R unit :=
  match l with
  | [] => ret tt
  | store :: l' =>
    m <- get_mem ;;
    do with_device (qemu_cfg_write_file_simple qemu_cfg_dma_enabled access fuel (store_pointer store)
      (u16 (read16 m (store_key store))) (le32 (store_offset store) m) (byte (store_ptr_size store) m)) ;;
    resume_loop l'
  end.
Definition romfile_fw_cfg_resume (CONFIG_QEMU : bool) : R unit :=
  fun s => if negb CONFIG_QEMU then Some (tt, s) else resume_loop (romfile_pointer_list s) s.
End Loader.
