(* ===== verification/LoaderCorrect.v ===== *)
(** * The table loader is safe, and its commands do what they say ([Loader])

    The commands come from outside, so the theorems assume nothing of them.  The
    allocator is used through the class [Heap]. *)
From S2P Require Import Prelude E820 Hlist Machine StringOps Bytes Malloc MallocSpec MallocHeap Pci FwCfg Romfile Loader.
Local Open Scope seabios_scope.

(** A power of two, as the code tests it. *)
Lemma pow2_test x : 0 < x < 2 ^ 32 -> Z.land x (u32 (x - 1)) = 0 -> pow2_align 32 x.
Proof.
  intros Hx Hl. rewrite u32_small in Hl by lia. set (k := Z.log2 x).
  assert (Hk : 0 <= k) by apply Z.log2_nonneg. destruct (Z.log2_spec x ltac:(lia)) as [Hlo Hhi]. fold k in Hlo, Hhi.
  assert (k < 32) by (apply Z.log2_lt_pow2; lia). exists k. split; [lia|].
  destruct (Z.eq_dec x (2 ^ k)) as [|Hne]; [done|]. exfalso.
  apply (f_equal (fun z => Z.testbit z k)) in Hl. rewrite Z.land_spec, Z.bits_0 in Hl.
  rewrite Z.pow_succ_r in Hhi by done.
  assert (Hb : forall y, 2 ^ k <= y < 2 * 2 ^ k -> Z.testbit y k = true).
  { intros y Hy. rewrite Z.testbit_true by done. replace (y / 2 ^ k) with 1; [done|].
    apply Z.div_unique with (y - 2 ^ k); lia. }
  rewrite !Hb in Hl by lia. done.
Qed.

Lemma u32_add_no_wrap x y : 0 <= x < 2 ^ 32 -> 0 <= y < 2 ^ 32 -> (u32 (x + y) <? x) = false -> u32 (x + y) = x + y.
Proof. intros Hx Hy Hw%Z.ltb_ge. unfold u32 in *. lia. Qed.
Lemma bad_size_false sz : 0 <= sz -> bad_size sz = false -> sz = 1 \/ sz = 2 \/ sz = 4 \/ sz = 8.
Proof.
  intros Hs Hb. unfold bad_size in Hb. apply orb_false_iff in Hb as [[Hlo%Z.ltb_ge Hhi%Z.ltb_ge]%orb_false_iff Hl].
  assert (sz = 1 \/ sz = 2 \/ sz = 3 \/ sz = 4 \/ sz = 5 \/ sz = 6 \/ sz = 7 \/ sz = 8) as Hc by lia.
  naive_solver.
Qed.

(** The next call only reads the state. *)
Ltac read_state := erewrite bind_some by reflexivity; cbv beta.

Section Correct.
Context {S : Type} `{Hlist S} `{Layout} {T : Type} `{!Heap S T}.
Context {W : Type} `{Env W} `{Ports W} `{DmaPort W}.
Context (preempted : bool) (dma : bool) (access : Z) (fuel : nat) (pointer_local : Z).
Context (cursor : W -> Z * Z) (item : W -> Z -> Z -> Z) (Hdev : device_ok cursor item).
Context (Haccess : 0 <= access /\ access + sizeof_QemuCfgDmaAccess <= 2 ^ 32).
Context (Hlocal : 0 <= pointer_local < 2 ^ 32).

Abbreviation rst := (rstate (S := S) (W := W)).

(** What is known of the files: their sizes are those of files QEMU offers. *)
Definition file_ok (f : romfile_s) : Prop :=
  0 <= size f < 2 ^ 31 /\
  match copy f with QemuFile select skip => 0 <= select < 2 ^ 16 /\ 0 <= skip < 2 ^ 31 | ConstFile _ => True end.

(** The effect of a call on the parts the allocator does not own: memory changes
    only where [wr] says. *)
Record step (wr : Z -> Prop) (s : rst) (t : T) (s' : rst) (t' : T) : Prop := {
  st_heap : heap_inv (rs_ms s') t';
  st_territory : territory t' = territory t;
  st_holds : forall z a len, holds t z a len -> holds t' z a len;
  st_root : RomfileRoot s' = RomfileRoot s;
  st_frame : forall b, ~ wr b -> read8 (rs_mem s') b = read8 (rs_mem s) b }.

Lemma st_refl wr s t : heap_inv (rs_ms s) t -> step wr s t s t.
Proof. by split. Qed.

Lemma st_trans wr s t s1 t1 s2 t2 : step wr s t s1 t1 -> step wr s1 t1 s2 t2 -> step wr s t s2 t2.
Proof.
  intros [A1 A2 A3 A4 A5] [B1 B2 B3 B4 B5]. split; try congruence; auto. intros b Hb. by rewrite B5, A5.
Qed.

Lemma step_weaken (wr wr' : Z -> Prop) s t s' t' : (forall b, wr b -> wr' b) -> step wr s t s' t' -> step wr' s t s' t'.
Proof. intros Hw [A1 A2 A3 A4 A5]. split; auto. Qed.

(** A change of memory. *)
Lemma step_mem wr f (s : rst) t : heap_inv (rs_ms s) t ->
  (forall b, ~ wr b -> read8 (f (rs_mem s)) b = read8 (rs_mem s) b) ->
  exists s', change_mem f s = Some (tt, s') /\ step wr s t s' t /\ rs_mem s' = f (rs_mem s) /\
    romfile_pointer_list s' = romfile_pointer_list s.
Proof using Type.
  clear Hlocal Haccess.
  intros Hh Hf. eexists. split; [done|]. split; [|done]. split; try done. by apply heap_inv_mem.
Qed.

(** ** Allocation *)

Lemma alloc_step wr z size align (s : rst) t :
  heap_inv (rs_ms s) t -> 0 <= size -> pow2_align 32 align -> size + align <= 2 ^ 32 -> z <> ZoneLow ->
  exists r s', alloc (malloc_palloc preempted z size align) s = Some (r, s') /\
    ((r = 0 /\ step wr s t s' t) \/
     (r <> 0 /\ exists t', step wr s t s' t' /\ holds t' z r size /\ (align | r) /\
        forall z' a len, holds t z' a len -> r + size <= a \/ a + len <= r)) /\ rs_mem s' = rs_mem s.
Proof using Type.
  clear Hlocal Haccess.
  intros Hh Hs Ha Hov Hz. destruct (heap_malloc preempted z size align _ t Hh Hs Ha Hov Hz) as (r & ms & Heq & Hrest & Hc).
  exists r. eexists. split; [unfold alloc; rewrite Heq; done|]. destruct Hrest as (Hm & _). split; [|done].
  destruct Hc as [[-> Hh']|(Hr & t' & Hh' & Ht & Hho & Hal & Hold)]; [left|right].
  - split; [done|]. split; try done. intros b _. unfold rs_mem. simpl. by rewrite Hm.
  - split; [done|]. exists t'. split_and!; try done; [|intros; by eapply Hold].
    split; try done; [intros; by apply Hold|]. intros b _. unfold rs_mem. simpl. by rewrite Hm.
Qed.

(** Freeing a block, all others being kept. *)
Lemma free_step z a len (s : rst) t :
  heap_inv (rs_ms s) t -> holds t z a len ->
  exists s' t', upd_ms (free a) s = Some (tt, s') /\ heap_inv (rs_ms s') t' /\ territory t' = territory t /\
    (forall z' a' len', holds t z' a' len' -> a' <> a -> holds t' z' a' len') /\
    RomfileRoot s' = RomfileRoot s /\ rs_mem s' = rs_mem s.
Proof.
  intros Hh Hho. destruct (holds_range t z a len _ Hh Hho) as (Hl & Ha & _).
  destruct (heap_free z a len _ t Hh Hho) as (ms & t' & Heq & Hrest & Hh' & Ht & Hk).
  eexists _, t'. split; [done|]. unfold upd_ms, free. rewrite (proj2 (Z.eqb_neq a 0)) by lia. rewrite Heq. simpl.
  split_and!; try done. unfold rs_mem. simpl. by destruct Hrest.
Qed.
(** ** Files *)

(** A call to the device, whose only writes are those of the access struct and
    of an area. *)
Lemma device_step {A} (c : M W A) (s : rst) t (wr : Z -> Prop) x m :
  heap_inv (rs_ms s) t -> c (Machine (rs_mem s) (rs_dev s)) = Some (x, m) ->
  (forall b, ~ wr b -> read8 (mc_mem m) b = read8 (rs_mem s) b) ->
  exists s', with_device c s = Some (x, s') /\ step wr s t s' t /\ rs_mem s' = mc_mem m.
Proof.
  intros Hh Hc Hm. eexists. split; [unfold with_device; rewrite Hc; done|]. split; [|done].
  split; try done. by apply heap_inv_mem.
Qed.

Definition area (a len b : Z) : Prop := a <= b < a + len \/ in_access access b.

Lemma file_copy_step f dst maxlen (s : rst) t :
  heap_inv (rs_ms s) t -> file_ok f -> 0 <= dst < 2 ^ 32 -> size f <= maxlen ->
  exists s', file_copy dma access fuel f dst maxlen s = Some (size f, s') /\ step (area dst (size f)) s t s' t.
Proof.
  intros Hh [Hsz Hk] Hd Hmax. unfold file_copy. destruct (copy f) as [data|select skip].
  - unfold const_read_file. destruct (Z.ltb_spec maxlen (size f)); [lia|].
    assert (s32 (size f) = size f) as ->. { unfold s32. rewrite u32_small by lia. zbool. }
    destruct (step_mem (area dst (size f)) (memcpy dst data (if size f <? maxlen then size f else maxlen)) s t Hh)
      as (s' & Hs' & Hst & _ & _).
    { intros b Hb. apply memcpy_frame; unfold area in Hb; destruct (Z.ltb_spec (size f) maxlen); lia. }
    exists s'. unfold bind. by rewrite Hs'.
  - destruct Hk as [Hsel Hskip].
    destruct (qemu_cfg_read_file_run dma access fuel cursor item Hdev Haccess (size f) select skip dst maxlen
      (Machine (rs_mem s) (rs_dev s)) Hsel Hskip Hsz Hd Hmax) as (m & Hrun & _ & Hm).
    destruct (device_step _ s t (area dst (size f)) (size f) m Hh Hrun) as (s' & Hs' & Hst & _); [|by exists s'].
    intros b Hb. unfold area in Hb. rewrite Hm by tauto. by rewrite bool_decide_false by tauto.
Qed.

(** An area inside a held block lies inside the territory. *)
Lemma area_in_block z a len t b : holds t z a len -> a <= b < a + len -> territory t b.
Proof. intros Hh Hb. by eapply holds_territory. Qed.

(** Where the loader may write: the memory that was free when it began, and its
    local variables. *)
Definition writable (U : Z -> Prop) (b : Z) : Prop :=
  U b \/ in_access access b \/ pointer_local <= b < pointer_local + 8.
(** ** The commands *)

Definition files_held (t : T) (fs : romfile_loader_files) : Prop :=
  Forall (fun f => exists z, holds t z (data f) (size (file f))) (files fs).
Definition root_ok (s : rst) : Prop := Forall file_ok (RomfileRoot s).

Lemma files_held_step wr s t s' t' fs : step wr s t s' t' -> files_held t fs -> files_held t' fs.
Proof. intros Hst Hf. eapply Forall_impl; [exact Hf|]. intros f [z Hz]. exists z. by apply Hst. Qed.

Lemma find_held nm fs m f t : romfile_loader_find nm fs m = Some f -> files_held t fs ->
  exists z, holds t z (data f) (size (file f)).
Proof.
  unfold romfile_loader_find. case_match; [done|]. intros Hf Hh. apply head_Some_elem_of in Hf.
  apply list_elem_of_In, List.filter_In in Hf as [Hf _]. apply list_elem_of_In in Hf.
  by eapply Forall_forall in Hh.
Qed.

Lemma find_in_root nm root f : romfile_find nm root = Some f -> f ∈ root.
Proof.
  unfold romfile_find, __romfile_findprefix. generalize (length nm + 1)%nat. intros n.
  induction root as [|g root IH]; [done|]. cbn [findprefix_loop].
  case_match; [intros [= ->]; by left|]. intros Hf. right. by apply IH.
Qed.

(** A change inside a held block. *)
Lemma block_step f (s : rst) t z a len :
  heap_inv (rs_ms s) t -> holds t z a len ->
  (forall b, ~ (a <= b < a + len) -> read8 (f (rs_mem s)) b = read8 (rs_mem s) b) ->
  exists s', change_mem f s = Some (tt, s') /\ step (writable (territory t)) s t s' t.
Proof using Type.
  clear Hlocal Haccess.
  intros Hh Hho Hf. destruct (step_mem (writable (territory t)) f s t Hh) as (s' & Hs' & Hst & _); [|by exists s'].
  intros b Hb. apply Hf. intros Hin. apply Hb. left. by eapply area_in_block.
Qed.

Lemma bind_assoc_step {A B} (c : ST rst A) (k : A -> ST rst B) s x s' : c s = Some (x, s') -> bind c k s = k x s'.
Proof. apply bind_some. Qed.



Lemma add_pointer_step entry fs (s : rst) t :
  heap_inv (rs_ms s) t -> files_held t fs ->
  exists s', romfile_loader_add_pointer entry fs s = Some (tt, s') /\ step (writable (territory t)) s t s' t.
Proof.
  intros Hh Hf. unfold romfile_loader_add_pointer. read_state.
  destruct (romfile_loader_find (dest_file entry) fs (rs_mem s)) as [d|] eqn:Hd; [|by eexists; split; [|apply st_refl]].
  destruct (romfile_loader_find (src_file entry) fs (rs_mem s)) as [sr|] eqn:Hsr; [|by eexists; split; [|apply st_refl]].
  destruct (_ || bad_size _) eqn:Hc; [by eexists; split; [|apply st_refl]|].
  rewrite !orb_false_iff in Hc. destruct Hc as [[[[_ _] Hw] Hsz] Hbad].
  pose proof (u8_range (read8 (rs_mem s) (pointer_size entry))) as Hsz8.
  apply u32_add_no_wrap in Hw; [|apply u32_range|unfold byte; lia]. rewrite Hw in Hsz. apply Z.ltb_ge in Hsz.
  destruct (find_held _ _ _ _ _ Hd Hf) as [z Hz]. pose proof (u32_range (read32 (rs_mem s) (pointer_offset entry))) as Ho.
  eapply block_step; [done|exact Hz|]. intros b Hb. apply read8_write_le_out. unfold byte, le32 in *. lia.
Qed.

Lemma add_checksum_step entry fs (s : rst) t :
  heap_inv (rs_ms s) t -> files_held t fs ->
  exists s', romfile_loader_add_checksum entry fs s = Some (tt, s') /\ step (writable (territory t)) s t s' t.
Proof.
  intros Hh Hf. unfold romfile_loader_add_checksum. read_state.
  destruct (romfile_loader_find (cksum_file entry) fs (rs_mem s)) as [d|] eqn:Hd; [|by eexists; split; [|apply st_refl]].
  destruct (_ || _) eqn:Hc; [by eexists; split; [|apply st_refl]|].
  rewrite !orb_false_iff in Hc. destruct Hc as [[[_ Ho%Z.leb_gt] _] _].
  destruct (find_held _ _ _ _ _ Hd Hf) as [z Hz]. pose proof (u32_range (read32 (rs_mem s) (cksum_offset entry))) as Hr.
  eapply block_step; [done|exact Hz|]. intros b Hb. apply read8_write8_ne. unfold le32 in *. lia.
Qed.
(** What a command leaves: the state stepped, and the files in use are held. *)
Definition command_ok (s : rst) (t : T) (fs : romfile_loader_files) (o : option (romfile_loader_files * rst)) : Prop :=
  exists fs' s' t', o = Some (fs', s') /\ step (writable (territory t)) s t s' t' /\ files_held t' fs' /\
    capacity fs' = capacity fs /\ (nfiles fs' <= nfiles fs + 1)%nat.

Lemma command_same s t fs s' : step (writable (territory t)) s t s' t -> files_held t fs ->
  command_ok s t fs (Some (fs, s')).
Proof. intros Hst Hf. exists fs, s', t. split_and!; try done. lia. Qed.

Lemma align_ok align : truthy (Z.land (u32 align) (u32 (u32 align - 1))) = false ->
  let a := if u32 align <? MALLOC_MIN_ALIGN then MALLOC_MIN_ALIGN else u32 align in pow2_align 32 a /\ a <= 2 ^ 31.
Proof.
  intros Hl a. unfold truthy in Hl. rewrite negb_false_iff, Z.eqb_eq in Hl. pose proof (u32_range align).
  assert (pow2_align 32 a) as Ha.
  { unfold a. destruct (Z.ltb_spec (u32 align) MALLOC_MIN_ALIGN); [by apply (pow2_align_intro 32 4)|].
    apply pow2_test; [unfold MALLOC_MIN_ALIGN in *; lia|done]. }
  split; [done|]. by apply (pow2_align_le 32).
Qed.

Lemma allocate_step entry fs (s : rst) t :
  heap_inv (rs_ms s) t -> files_held t fs -> root_ok s -> (nfiles fs < capacity fs)%nat ->
  command_ok s t fs (romfile_loader_allocate preempted dma access fuel entry fs s).
Proof.
  intros Hh Hf Hroot Hcap. assert (Hsame : command_ok s t fs (Some (fs, s))) by (by apply command_same; [apply st_refl|]).
  unfold romfile_loader_allocate. read_state.
  destruct (truthy _) eqn:Hal; [exact Hsame|]. destruct (align_ok _ Hal) as [Hpow Hle].
  destruct (let z := byte _ _ in if z =? _ then Some ZoneHigh else _) as [zone|] eqn:Hz; [|exact Hsame].
  assert (zone <> ZoneLow) as Hlow by (cbv zeta in Hz; repeat case_match; congruence).
  clear Hal. destruct (truthy _); [exact Hsame|]. read_state.
  destruct (Nat.leb_spec (capacity fs) (nfiles fs)); [lia|].
  destruct (romfile_find _ _) as [f|] eqn:Hfind; [|exact Hsame]. apply find_in_root in Hfind.
  assert (file_ok f) as Hfok by (by eapply Forall_forall in Hroot). pose proof (proj1 Hfok) as Hsz.
  destruct (Z.eqb_spec (size f) 0); [exact Hsame|].
  destruct (alloc_step (writable (territory t)) zone (size f) _ s t Hh ltac:(lia) Hpow ltac:(lia) Hlow)
    as (r & s1 & Heq & Hc & _).
  unfold _malloc. rewrite (bind_some _ _ _ _ _ Heq). destruct Hc as [[-> Hst]|(Hr & t1 & Hst & Hho & _ & _)].
  { simpl. by apply command_same. }
  rewrite (proj2 (Z.eqb_neq r 0)) by done.
  destruct (holds_range _ _ _ _ _ (st_heap _ _ _ _ _ Hst) Hho) as (_ & Hr0 & Hr1).
  destruct (file_copy_step f r (size f) s1 t1 (st_heap _ _ _ _ _ Hst) Hfok ltac:(lia) ltac:(lia)) as (s2 & Hcp & Hst2).
  rewrite (bind_some _ _ _ _ _ Hcp), u32_small, Z.eqb_refl by lia. simpl.
  eexists _, s2, t1. split; [done|]. split_and!.
  - eapply st_trans; [exact Hst|]. eapply step_weaken; [|exact Hst2]. intros b [Hb|Hb]; [left|right; by left].
    rewrite <- (st_territory _ _ _ _ _ Hst). by eapply area_in_block.
  - unfold files_held. simpl. apply Forall_app. split; [exact (files_held_step _ _ _ _ _ _ Hst Hf)|]. constructor; [|done]. by exists zone.
  - done.
  - unfold nfiles. simpl. rewrite length_app. simpl. lia.
Qed.

Lemma write_file_step f src offset len (s : rst) t :
  heap_inv (rs_ms s) t -> file_ok f -> 0 <= src < 2 ^ 32 -> 0 <= offset < 2 ^ 32 -> 0 <= len < 2 ^ 31 ->
  exists r s', qemu_cfg_write_file dma access fuel src f offset len s = Some (r, s') /\
    step (writable (territory t)) s t s' t.
Proof.
  intros Hh [_ Hk] Hsrc Ho Hl.
  assert (Hsame : exists r s', Some (-1, s) = Some (r, s') /\ step (writable (territory t)) s t s' t).
  { exists (-1), s. split; [done|by apply st_refl]. }
  unfold qemu_cfg_write_file. destruct (_ <? _); [exact Hsame|].
  destruct (copy f) as [|select skip] eqn:Hcp; [exact Hsame|]. destruct dma eqn:Hd; simpl; [|exact Hsame].
  unfold qemu_get_romfile_key. rewrite Hcp.
  destruct (write_simple_spec true access fuel cursor item Hdev Haccess src (u16 select) offset len
    (Machine (rs_mem s) (rs_dev s)) eq_refl Hsrc (u16_range _) Ho Hl) as (m & Hrun & Hm).
  destruct (device_step _ s t (writable (territory t)) len m Hh Hrun) as (s' & Hs' & Hst & _); [|by exists len, s'].
  intros b Hb. apply Hm. intros Ha. apply Hb. right. by left.
Qed.

Lemma write_pointer_step limit entry fs (s : rst) t :
  heap_inv (rs_ms s) t -> files_held t fs -> root_ok s ->
  exists s' t', romfile_loader_write_pointer preempted dma access fuel pointer_local limit entry fs s = Some (tt, s') /\
    step (writable (territory t)) s t s' t'.
Proof.
  intros Hh Hf Hroot. assert (Hsame : exists s' t', Some (tt, s) = Some (tt, s') /\ step (writable (territory t)) s t s' t').
  { exists s, t. by split; [|apply st_refl]. }
  unfold romfile_loader_write_pointer. read_state. read_state.
  destruct (romfile_find _ _) as [d|] eqn:Hd; [|exact Hsame].
  destruct (romfile_loader_find _ _ _) as [sr|] eqn:Hsr; [|exact Hsame].
  destruct (_ || bad_size _) eqn:Hc; [exact Hsame|]. rewrite !orb_false_iff in Hc. destruct Hc as [_ Hbad].
  destruct (negb _ && _); [exact Hsame|].
  pose proof (u8_range (read8 (rs_mem s) (wr_size entry))) as Hsz8.
  pose proof (u32_range (read32 (rs_mem s) (wr_dst_offset entry))) as Hoff.
  assert (file_ok d) as Hdok by (apply find_in_root in Hd; by eapply Forall_forall in Hroot).
  unfold bind at 1.
  match goal with |- context [change_mem ?f s] => destruct (step_mem (writable (territory t)) f s t Hh) as (s1 & Hs1 & Hst1 & _ & _) end.
  { intros b Hb. apply read8_write_le_out. unfold writable in Hb. lia. }
  rewrite Hs1.
  destruct (write_file_step d pointer_local (le32 (wr_dst_offset entry) (rs_mem s)) (byte (wr_size entry) (rs_mem s)) s1 t)
    as (r & s2 & Hs2 & Hst2); [apply Hst1|done|done|done|unfold byte; lia|].
  unfold bind at 1. rewrite Hs2. pose proof (st_trans _ _ _ _ _ _ _ Hst1 Hst2) as Hst12.
  destruct (negb (r =? _)); [by exists s2, t|].
  destruct (alloc_step (writable (territory t)) ZoneHigh sizeof_wr_pointer_entry MALLOC_MIN_ALIGN s2 t
    (st_heap _ _ _ _ _ Hst12) ltac:(done) ltac:(by apply (pow2_align_intro 32 4)) ltac:(done) ltac:(done))
    as (st & s3 & Heq & Hcs & _).
  unfold bind at 1. unfold malloc_high, _malloc. rewrite Heq. destruct Hcs as [[-> Hst3]|(Hr & t3 & Hst3 & Hho & _ & _)].
  { exists s3, t. split; [done|]. by eapply st_trans. }
  rewrite (proj2 (Z.eqb_neq st 0)) by done. pose proof (st_trans _ _ _ _ _ _ _ Hst12 Hst3) as Hst123.
  assert (Hblock : forall f (s4 : rst), step (writable (territory t)) s t s4 t3 ->
    (forall m b, ~ (st <= b < st + sizeof_wr_pointer_entry) -> read8 (f m) b = read8 m b) ->
    exists s5, change_mem f s4 = Some (tt, s5) /\ step (writable (territory t)) s t s5 t3).
  { intros f s4 Hst4 Hf4. destruct (block_step f s4 t3 _ _ _ (st_heap _ _ _ _ _ Hst4) Hho) as (s5 & Hs5 & Hst5); [auto|].
    exists s5. split; [done|]. eapply st_trans; [exact Hst4|]. by rewrite (st_territory _ _ _ _ _ Hst4) in Hst5. }
  unfold sizeof_wr_pointer_entry in Hblock.
  do 4 (let Heq' := fresh in let Hn := fresh in
    match goal with |- context [change_mem ?f] => destruct (Hblock f _ Hst123) as (? & Heq' & Hn) end;
    [intros m b Hb; unfold store_pointer, store_offset, store_key, store_ptr_size;
     (apply read8_write_le_out || apply read8_write16_ne || apply read8_write32_ne || apply read8_write8_ne); lia|];
    rewrite (bind_some _ _ _ _ _ Heq'); clear Heq' Hst123; rename Hn into Hst123).
  eexists _, t3. split; [done|]. destruct Hst123. by split.
Qed.
Lemma run_entry_step limit entry fs (s : rst) t :
  heap_inv (rs_ms s) t -> files_held t fs -> root_ok s -> (nfiles fs < capacity fs)%nat ->
  command_ok s t fs (run_entry preempted dma access fuel pointer_local limit entry fs s).
Proof.
  intros Hh Hf Hroot Hcap. unfold run_entry. read_state.
  destruct (_ =? _); [by apply allocate_step|].
  destruct (_ =? _); [|destruct (_ =? _); [|destruct (_ =? _)]].
  - destruct (add_pointer_step entry fs s t Hh Hf) as (s' & Hs' & Hst).
    rewrite (bind_some _ _ _ _ _ Hs'). by apply command_same.
  - destruct (add_checksum_step entry fs s t Hh Hf) as (s' & Hs' & Hst).
    rewrite (bind_some _ _ _ _ _ Hs'). by apply command_same.
  - destruct (write_pointer_step limit entry fs s t Hh Hf Hroot) as (s' & t' & Hs' & Hst).
    rewrite (bind_some _ _ _ _ _ Hs'). exists fs, s', t'. split_and!; [done|done|by eapply files_held_step|done|lia].
  - apply command_same; [by apply st_refl|done].
Qed.

Lemma run_script_step n : forall entry fs (s : rst) t,
  heap_inv (rs_ms s) t -> files_held t fs -> root_ok s -> (nfiles fs + n <= capacity fs)%nat ->
  exists fs' s' t', run_script preempted dma access fuel pointer_local n entry fs s = Some (fs', s') /\
    step (writable (territory t)) s t s' t' /\ files_held t' fs'.
Proof.
  induction n as [|n IH]; intros entry fs s t Hh Hf Hroot Hcap; cbn [run_script].
  { exists fs, s, t. split_and!; [done|by apply st_refl|done]. }
  destruct (run_entry_step (Z.to_nat (sizeof_entry * Z.of_nat (Datatypes.S n))) entry fs s t Hh Hf Hroot ltac:(lia))
    as (fs1 & s1 & t1 & Hrun & Hst & Hf1 & Hc1 & Hn1).
  rewrite (bind_some _ _ _ _ _ Hrun).
  destruct (IH (entry + sizeof_entry) fs1 s1 t1) as (fs2 & s2 & t2 & Hrun2 & Hst2 & Hf2);
    [apply Hst|done|unfold root_ok; by rewrite (st_root _ _ _ _ _ Hst)|lia|].
  rewrite (st_territory _ _ _ _ _ Hst) in Hst2.
  exists fs2, s2, t2. split_and!; [done|by eapply st_trans|done].
Qed.

(** ** The whole call *)

Lemma alloc_tmp_step wr size (s : rst) t :
  heap_inv (rs_ms s) t -> 0 <= size -> size + 16 <= 2 ^ 32 ->
  exists r s', alloc (malloc_tmp preempted size) s = Some (r, s') /\
    ((r = 0 /\ step wr s t s' t) \/
     (r <> 0 /\ exists t' z, step wr s t s' t' /\ holds t' z r size /\
        forall z' a len, holds t z' a len -> a <> r)).
Proof using Type.
  clear Hlocal Haccess.
  intros Hh Hs Hov. assert (Hpow : pow2_align 32 MALLOC_MIN_ALIGN) by by apply (pow2_align_intro 32 4).
  assert (Hnew : forall (s1 : rst) t' z r, heap_inv (rs_ms s1) t' -> holds t' z r size ->
    (forall z' a len, holds t z' a len -> r + size <= a \/ a + len <= r) -> forall z' a len, holds t z' a len -> a <> r).
  { intros s1 t' z r Hh' Hho Hd z' a len Ha ->. destruct (Hd z' r len Ha).
    - destruct (holds_range _ _ _ _ _ Hh' Hho). lia.
    - destruct (holds_range _ _ _ _ _ Hh Ha). lia. }
  destruct (alloc_step wr ZoneTmpHigh size MALLOC_MIN_ALIGN s t Hh Hs Hpow Hov ltac:(done)) as (r & s1 & Heq & Hc & _).
  unfold alloc, malloc_tmp, malloc_tmphigh, malloc_tmplow, _malloc in *.
  destruct (malloc_palloc preempted ZoneTmpHigh size MALLOC_MIN_ALIGN (rs_ms s)) as [r1 ms1]. injection Heq as -> <-.
  destruct Hc as [[-> Hst]|(Hr & t' & Hst & Hho & _ & Hd)].
  - destruct (alloc_step wr ZoneTmpLow size MALLOC_MIN_ALIGN _ t (st_heap _ _ _ _ _ Hst) Hs Hpow Hov ltac:(done))
      as (r2 & s2 & Heq2 & Hc2 & _).
    unfold alloc in Heq2. simpl in *. destruct (malloc_palloc preempted ZoneTmpLow size MALLOC_MIN_ALIGN ms1) as [r3 ms3].
    injection Heq2 as -> <-. eexists _, _. split; [done|].
    destruct Hc2 as [[-> Hst2]|(Hr & t' & Hst2 & Hho & _ & Hd)]; [left|right].
    + split; [done|]. exact (st_trans _ _ _ _ _ _ _ Hst Hst2).
    + split; [done|]. exists t', ZoneTmpLow. split_and!; [exact (st_trans _ _ _ _ _ _ _ Hst Hst2)|done|].
      eapply Hnew; [apply Hst2|done|done].
  - rewrite (proj2 (Z.eqb_neq r 0)) by done. simpl. eexists _, _. split; [done|]. right. split; [done|].
    exists t', ZoneTmpHigh. split_and!; [done|done|]. eapply Hnew; [apply Hst|done|done].
Qed.
Lemma loadfile_step nm (s : rst) t :
  heap_inv (rs_ms s) t -> root_ok s ->
  exists data sz s', romfile_loadfile preempted dma access fuel nm s = Some ((data, sz), s') /\
    ((data = 0 /\ step (writable (territory t)) s t s' t) \/
     (data <> 0 /\ 0 < sz < 2 ^ 31 /\ exists t', step (writable (territory t)) s t s' t' /\
        holds t' ZoneTmpHigh data (sz + 1) /\ forall z a len, holds t z a len -> a <> data)).
Proof.
  intros Hh Hroot. unfold romfile_loadfile. read_state.
  assert (Hnone : forall s', step (writable (territory t)) s t s' t ->
    exists data sz s'', Some ((0, 0), s') = Some ((data, sz), s'') /\
    ((data = 0 /\ step (writable (territory t)) s t s'' t) \/
     (data <> 0 /\ 0 < sz < 2 ^ 31 /\ exists t', step (writable (territory t)) s t s'' t' /\
        holds t' ZoneTmpHigh data (sz + 1) /\ forall z a len, holds t z a len -> a <> data))).
  { intros s' Hst. exists 0, 0, s'. split; [done|by left]. }
  destruct (romfile_find nm (RomfileRoot s)) as [f|] eqn:Hf; [|by apply Hnone, st_refl].
  apply find_in_root in Hf. assert (file_ok f) as Hfok by (by eapply Forall_forall in Hroot). pose proof (proj1 Hfok) as Hsz.
  assert (s32 (size f) = size f) as ->. { unfold s32. rewrite u32_small by lia. zbool. }
  destruct (Z.eqb_spec (size f) 0); [by apply Hnone, st_refl|].
  destruct (alloc_step (writable (territory t)) ZoneTmpHigh (size f + 1) MALLOC_MIN_ALIGN s t Hh ltac:(lia)
    ltac:(by apply (pow2_align_intro 32 4)) ltac:(unfold MALLOC_MIN_ALIGN; lia) ltac:(done)) as (r & s1 & Heq & Hc & _).
  unfold malloc_tmphigh, _malloc. rewrite (u32_small (size f + 1)), (u32_small (size f)) by lia.
  rewrite (bind_some _ _ _ _ _ Heq). destruct Hc as [[-> Hst]|(Hr & t1 & Hst & Hho & _ & Hd)]; [by apply Hnone|].
  rewrite (proj2 (Z.eqb_neq r 0)) by done.
  destruct (holds_range _ _ _ _ _ (st_heap _ _ _ _ _ Hst) Hho) as (_ & Hr0 & Hr1).
  destruct (file_copy_step f r (size f) s1 t1 (st_heap _ _ _ _ _ Hst) Hfok ltac:(lia) ltac:(lia)) as (s2 & Hcp & Hst2).
  rewrite (bind_some _ _ _ _ _ Hcp). destruct (Z.ltb_spec (size f) 0); [lia|].
  destruct (block_step (write8 (r + size f) 0) s2 t1 _ _ _ (st_heap _ _ _ _ _ Hst2) Hho) as (s3 & Hs3 & Hst3).
  { intros b Hb. apply read8_write8_ne. lia. }
  rewrite (bind_some _ _ _ _ _ Hs3). exists r, (size f), s3. split; [done|]. right. split_and!; [done|lia|lia|].
  exists t1. split_and!; [|done|].
  - eapply st_trans; [exact Hst|]. rewrite (st_territory _ _ _ _ _ Hst) in Hst3. eapply st_trans; [|exact Hst3].
    eapply step_weaken; [|exact Hst2]. intros b [Hb|Hb]; [left|right; by left].
    rewrite <- (st_territory _ _ _ _ _ Hst). eapply area_in_block; [exact Hho|lia].
  - intros z a len Ha ->. destruct (Hd z r len Ha); destruct (holds_range _ _ _ _ _ Hh Ha); lia.
Qed.

(** The state after a block that is not of the client's is freed. *)
Definition settled (s : rst) (t : T) (s' : rst) (t' : T) : Prop :=
  heap_inv (rs_ms s') t' /\ territory t' = territory t /\ (forall z a len, holds t z a len -> holds t' z a len) /\
  forall b, ~ writable (territory t) b -> read8 (rs_mem s') b = read8 (rs_mem s) b.

Definition outcome (s : rst) (t : T) (o : option (Z * rst)) : Prop :=
  exists r s' t', o = Some (r, s') /\ (r = 0 \/ r = -1) /\ settled s t s' t'.

Lemma settled_free (k : unit -> ST rst Z) z a len s t s1 t1 :
  step (writable (territory t)) s t s1 t1 \/ settled s t s1 t1 -> holds t1 z a len ->
  (forall z' a' len', holds t z' a' len' -> a' <> a) ->
  (forall s2 t2, settled s t s2 t2 -> (forall z' a' len', holds t1 z' a' len' -> a' <> a -> holds t2 z' a' len') ->
    outcome s t (k tt s2)) ->
  outcome s t (bind (upd_ms (free a)) k s1).
Proof.
  intros Hst Hho Hne HP. assert (settled s t s1 t1) as (Hh1 & Ht1 & Hk1 & Hf1) by (destruct Hst as [[]|]; [by split_and!|done]).
  destruct (free_step z a len s1 t1 Hh1 Hho) as (s2 & t2 & Hs2 & Hh2 & Ht2 & Hk2 & _ & Hm2).
  rewrite (bind_some _ _ _ _ _ Hs2). apply (HP s2 t2); [|done]. split_and!; [done|congruence| |].
  - intros z' a' len' Ha. apply Hk2; [by apply Hk1|by eapply Hne].
  - intros b Hb. rewrite Hm2. by apply Hf1.
Qed.

(** C9: the table loader is safe for every script.  Whatever commands the file
    holds, [romfile_loader_execute] ends, uses no slot past its array of files,
    keeps the allocator's state well formed and every block its callers hold,
    and writes only to memory that was free when it was called and to its own
    two local variables. *)
Theorem romfile_loader_execute_safe nm (s : rst) t :
  heap_inv (rs_ms s) t -> root_ok s ->
  exists r s' t', romfile_loader_execute preempted dma access fuel pointer_local nm s = Some (r, s') /\
    (r = 0 \/ r = -1) /\ heap_inv (rs_ms s') t' /\ territory t' = territory t /\
    (forall z a len, holds t z a len -> holds t' z a len) /\
    forall b, ~ writable (territory t) b -> read8 (rs_mem s') b = read8 (rs_mem s) b.
Proof.
  intros Hh Hroot. enough (outcome s t (romfile_loader_execute preempted dma access fuel pointer_local nm s)) as
    (r & s' & t' & Heq & Hr & Hset) by (exists r, s', t'; by split_and!; try apply Hset).
  unfold romfile_loader_execute.
  destruct (loadfile_step nm s t Hh Hroot) as (data & sz & s1 & Heq & Hc).
  rewrite (bind_some _ _ _ _ _ Heq). destruct Hc as [[-> Hst]|(Hd & Hsz & t1 & Hst & Hho & Hne)].
  { exists (-1), s1, t. destruct Hst. by split_and!; auto. }
  rewrite (proj2 (Z.eqb_neq data 0)) by done. rewrite (u32_small sz) by lia.
  assert (Hfail : forall s2, step (writable (territory t)) s t s2 t1 ->
    outcome s t (bind (upd_ms (free data)) (fun _ => ret (-1)) s2)).
  { intros s2 Hst2. eapply settled_free; [by left|exact Hho|done|]. intros s3 t3 Hset _. exists (-1), s3, t3. by split_and!; auto. }
  destruct (negb (sz mod sizeof_entry =? 0)); [by apply Hfail|].
  destruct (alloc_tmp_step (writable (territory t)) (u32 (4 + sz / sizeof_entry * 8)) s1 t1 (st_heap _ _ _ _ _ Hst))
    as (fl & s2 & Heq2 & Hc2); [apply u32_range|unfold u32, sizeof_entry; lia|].
  rewrite (bind_some _ _ _ _ _ Heq2). destruct Hc2 as [[-> Hst2]|(Hfl & t2 & zf & Hst2 & Hhof & Hnf)].
  { apply Hfail. by eapply st_trans. }
  rewrite (proj2 (Z.eqb_neq fl 0)) by done. pose proof (st_trans _ _ _ _ _ _ _ Hst Hst2) as Hst12.
  destruct (Z.ltb_spec 0 sz); [|lia].
  destruct (run_script_step (Z.to_nat (sz / sizeof_entry)) data (LoaderFiles [] (Z.to_nat (sz / sizeof_entry))) s2 t2)
    as (fs & s3 & t3 & Hrun & Hst3 & _).
  { apply Hst12. } { by constructor. } { unfold root_ok. by rewrite (st_root _ _ _ _ _ Hst12). } { simpl. lia. }
  rewrite (st_territory _ _ _ _ _ Hst12) in Hst3. pose proof (st_trans _ _ _ _ _ _ _ Hst12 Hst3) as Hst13.
  rewrite (bind_some _ _ _ _ _ Hrun).
  eapply settled_free; [by left|by apply Hst3| |].
  { intros z a len Ha. eapply Hnf. by apply Hst. }
  intros s4 t4 Hset Hk4. eapply settled_free; [by right| |done|].
  { apply Hk4; [by apply Hst3, Hst2|]. intros ->. by eapply Hnf. }
  intros s5 t5 Hset5 _. exists 0, s5, t5. by split_and!; auto.
Qed.
End Correct.
