(* ===== verification/LoaderSpec.v ===== *)
(** * What the loader's commands and the file chain do ([Romfile], [Loader])

    Functional theorems: a pointer command adds the source's address to the
    field and changes nothing else, a checksum command makes the bytes of its
    range sum to zero, the search returns the newest file of a name, and an
    integer file reads back as the integer. *)
From S2P Require Import Prelude E820 Hlist Machine StringOps Bytes Malloc MallocSpec MallocHeap MallocCorrect Pci FwCfg Romfile Loader LoaderCorrect.
Local Open Scope seabios_scope.

(** ** Names *)

(** A name has no terminator in it. *)
Definition name_ok (l : list Z) : Prop := Forall (fun x => x <> 0) l.

Lemma same_bytes_forall n l1 l2 : same_bytes n l1 l2 = true <-> forall i, (i < n)%nat -> nth i l1 0 = nth i l2 0.
Proof.
  unfold same_bytes. rewrite forallb_forall. setoid_rewrite in_seq. split.
  - intros Hall i Hi. apply Z.eqb_eq, Hall. lia.
  - intros Hall i Hi. apply Z.eqb_eq, Hall. lia.
Qed.

Lemma nth_nonzero l i : name_ok l -> (i < length l)%nat -> nth i l 0 <> 0.
Proof. intros Hl Hi. eapply List.Forall_forall in Hl; [exact Hl|by apply nth_In]. Qed.

(** Comparing one byte past the end is comparing the names. *)
Lemma same_bytes_name l1 l2 : name_ok l1 -> name_ok l2 -> same_bytes (length l1 + 1) l1 l2 = bool_decide (l2 = l1).
Proof.
  intros H1 H2. apply eq_true_iff_eq. rewrite same_bytes_forall, bool_decide_eq_true. split; [|by intros ->].
  intros Hall. assert (length l2 = length l1) as Hlen.
  { destruct (Nat.lt_total (length l1) (length l2)) as [Hlt|[Heq|Hlt]]; [|done|].
    - pose proof (Hall (length l1) ltac:(lia)) as Hn. rewrite (nth_overflow l1) in Hn by lia.
      by destruct (nth_nonzero l2 (length l1) H2 Hlt).
    - pose proof (Hall (length l2) ltac:(lia)) as Hn. rewrite (nth_overflow l2) in Hn by lia.
      by destruct (nth_nonzero l1 (length l2) H1 Hlt). }
  apply (List.nth_ext _ _ 0 0); [done|]. intros i Hi. symmetry. apply Hall. lia.
Qed.

(** The first file, from the newest, that has the name. *)
Lemma find_newest nm root : name_ok nm -> Forall (fun f => name_ok (name f)) root ->
  romfile_find nm root = List.find (fun f => bool_decide (name f = nm)) root.
Proof.
  intros Hnm. unfold romfile_find, __romfile_findprefix. induction 1 as [|f root Hf _ IH]; simpl; [done|].
  rewrite same_bytes_name by done. by case_bool_decide.
Qed.

(** The search returns the newest file of that name, whatever the chain. *)
Theorem romfile_find_newest nm root :
  name_ok nm -> Forall (fun f => name_ok (name f)) root ->
  match romfile_find nm root with
  | Some f => exists newer older, root = newer ++ f :: older /\ name f = nm /\ Forall (fun g => name g <> nm) newer
  | None => Forall (fun g => name g <> nm) root
  end.
Proof.
  intros Hnm Hr. rewrite find_newest by done. clear Hr. induction root as [|g root IH]; simpl; [by constructor|].
  case_bool_decide as Hg; [by exists [], root|].
  destruct (List.find _ root); [|by constructor]. destruct IH as (newer & older & -> & Hn & Hall).
  exists (g :: newer), older. split_and!; [done|done|by constructor].
Qed.

Lemma romfile_find_newest_witness :
  let old := Romfile [97; 98] 5 (ConstFile 0x1000) in
  let new := Romfile [97; 98] 9 (ConstFile 0x2000) in
  let other := Romfile [97] 1 (ConstFile 0x3000) in
  romfile_find [97; 98] [other; new; old] = Some new /\
  exists newer older, [other; new; old] = newer ++ new :: older /\ name new = [97; 98] /\
    Forall (fun g => name g <> [97; 98]) newer.
Proof.
  intros old new other. split; [reflexivity|].
  apply (romfile_find_newest [97; 98] [other; new; old]); repeat constructor; done.
Defined.

(** ** Commands *)

Section Effect.
Context {S : Type} `{Hlist S} {W : Type}.

Abbreviation rst := (rstate (S := S) (W := W)).

(** The memory of a state, replaced. *)
Definition rst_with_mem (m : memory) (s : rst) : rst :=
  RState (with_mem (fun _ => m) (rs_ms s)) (rs_dev s) (RomfileRoot s) (romfile_pointer_list s).

(** The field of a pointer command, when its files are in use and it lies in
    its file. *)
Definition pointer_field (entry : Z) (fs : romfile_loader_files) (m : memory) : option (Z * nat * Z) :=
  let offset := le32 (pointer_offset entry) m in
  let sz := byte (pointer_size entry) m in
  dest ← romfile_loader_find (dest_file entry) fs m; src ← romfile_loader_find (src_file entry) fs m;
  if bool_decide (data dest <> 0 /\ data src <> 0 /\ sz ∈ [1; 2; 4; 8] /\ offset + sz <= size (file dest))
  then Some (data dest + offset, Z.to_nat sz, data src) else None.

Definition sizes_ok (fs : romfile_loader_files) : Prop := Forall (fun f => 0 <= size (file f) < 2 ^ 32) (files fs).

Lemma find_sizes nm fs m f : romfile_loader_find nm fs m = Some f -> sizes_ok fs -> 0 <= size (file f) < 2 ^ 32.
Proof.
  unfold romfile_loader_find. case_match; [done|]. intros Hf Hh. apply head_Some_elem_of in Hf.
  apply list_elem_of_In, List.filter_In in Hf as [Hf _]. apply list_elem_of_In in Hf.
  by eapply Forall_forall in Hh.
Qed.

(** The code's test of a range, without wrap-around. *)
Lemma range_test x y n : 0 <= x < 2 ^ 32 -> 0 <= y < 2 ^ 32 -> 0 <= n < 2 ^ 32 ->
  (u32 (x + y) <? x) || (n <? u32 (x + y)) = negb (bool_decide (x + y <= n)).
Proof. intros Hx Hy Hn. unfold u32. case_bool_decide; zbool; simpl; lia. Qed.

Lemma bad_size_spec sz : 0 <= sz < 2 ^ 8 -> bad_size sz = negb (bool_decide (sz ∈ [1; 2; 4; 8])).
Proof.
  intros Hsz. destruct (bad_size sz) eqn:Hb.
  - symmetry. apply negb_true_iff, bool_decide_eq_false. rewrite !elem_of_cons, elem_of_nil.
    intros [->|[->|[->|[->|[]]]]]; by vm_compute in Hb.
  - symmetry. apply negb_false_iff, bool_decide_eq_true. rewrite !elem_of_cons. apply bad_size_false in Hb; lia.
Qed.

(** The code's tests of a pointer command. *)
Lemma pointer_guard d0 s0 x sz n : 0 <= x < 2 ^ 32 -> 0 <= sz < 2 ^ 8 -> 0 <= n < 2 ^ 32 ->
  (d0 =? 0) || (s0 =? 0) || (u32 (x + sz) <? x) || (n <? u32 (x + sz)) || bad_size sz =
  negb (bool_decide (d0 <> 0 /\ s0 <> 0 /\ sz ∈ [1; 2; 4; 8] /\ x + sz <= n)).
Proof.
  intros Hx Hs Hn. rewrite bad_size_spec, <- (orb_assoc _ (_ <? x)), range_test by lia.
  zbool; simpl; repeat case_bool_decide; simpl; tauto.
Qed.

Lemma unchanged (s : rst) : exists m', Some (tt, s) = Some (tt, rst_with_mem m' s) /\ m' = rs_mem s.
Proof. exists (rs_mem s). split; [|done]. by destruct s as [[] ? ? ?]. Qed.

(** A pointer command either finds its field, and then the little-endian
    number in it grows by the address of the source file, modulo the width of
    the field, and no other byte changes; or it changes nothing. *)
Theorem romfile_loader_add_pointer_effect entry fs (s : rst) :
  sizes_ok fs ->
  exists m', romfile_loader_add_pointer entry fs s = Some (tt, rst_with_mem m' s) /\
    match pointer_field entry fs (rs_mem s) with
    | Some (a, n, base) =>
      read_le n a m' = (read_le n a (rs_mem s) + base) mod 2 ^ (8 * Z.of_nat n) /\
      forall b, ~ (a <= b < a + Z.of_nat n) -> read8 m' b = read8 (rs_mem s) b
    | None => m' = rs_mem s
    end.
Proof.
  intros Hsz. unfold pointer_field, romfile_loader_add_pointer. read_state.
  destruct (romfile_loader_find (dest_file entry) fs (rs_mem s)) as [d|] eqn:Hd; [|by apply unchanged].
  destruct (romfile_loader_find (src_file entry) fs (rs_mem s)) as [sr|] eqn:Hsr; [|by apply unchanged].
  cbn [mbind option_bind]. pose proof (find_sizes _ _ _ _ Hd Hsz) as Hds.
  pose proof (u8_range (read8 (rs_mem s) (pointer_size entry))) as Hsz8.
  pose proof (u32_range (read32 (rs_mem s) (pointer_offset entry))) as Ho.
  rewrite pointer_guard by (done || unfold byte; lia).
  case_bool_decide; simpl; [|by apply unchanged].
  eexists. split; [done|]. split.
  - rewrite read_write_le. destruct_and!. unfold u64. apply Z.mod_mod_divide.
    rewrite Z2Nat.id by (unfold byte; lia). exists (2 ^ (64 - 8 * byte (pointer_size entry) (rs_mem s))).
    rewrite <- Z.pow_add_r; [f_equal|..]; set_unfold; lia.
  - intros b Hb. apply read8_write_le_out. lia.
Qed.

(** A checksum command either finds its byte and its range in the file, and
    then no other byte changes and, when the byte is in the range, the range
    sums to zero; or it changes nothing. *)
Theorem romfile_loader_add_checksum_effect entry fs (s : rst) :
  sizes_ok fs ->
  let m := rs_mem s in
  let offset := le32 (cksum_offset entry) m in
  let start := le32 (cksum_start entry) m in
  let len := le32 (cksum_length entry) m in
  exists m', romfile_loader_add_checksum entry fs s = Some (tt, rst_with_mem m' s) /\
    match romfile_loader_find (cksum_file entry) fs m with
    | Some f =>
      if bool_decide (data f <> 0 /\ offset < size (file f) /\ start + len <= size (file f)) then
        (start <= offset < start + len -> checksum (data f + start) len m' = 0) /\
        forall b, b <> data f + offset -> read8 m' b = read8 m b
      else m' = m
    | None => m' = m
    end.
Proof.
  intros Hsz m offset start len. unfold romfile_loader_add_checksum. read_state.
  fold m offset start len. destruct (romfile_loader_find (cksum_file entry) fs m) as [f|] eqn:Hf; [|by apply unchanged].
  pose proof (find_sizes _ _ _ _ Hf Hsz) as Hfs.
  assert (0 <= start < 2 ^ 32) as Hst by apply u32_range. assert (0 <= len < 2 ^ 32) as Hl by apply u32_range.
  rewrite <- (orb_assoc _ (_ <? start)), range_test by lia. zbool; simpl;
    repeat case_bool_decide; simpl; try tauto; try lia; try by apply unchanged.
  eexists. split; [done|]. split; [intros Hin; apply checksum_write_fix; lia|]. intros b Hb. by apply read8_write8_ne.
Qed.
End Effect.

(** ** Integer files *)

(** A 32-bit number copied over the low half of a cleared 64-bit variable. *)
Lemma read_le_copied d a m m' : copied d a 4 m m' -> (forall b, d + 4 <= b < d + 8 -> read8 m b = 0) ->
  read_le 8 d m' = read32 m a.
Proof.
  intros Hc Hz.
  assert (Hlo : forall b k, b = d + k -> 0 <= k < 4 -> read8 m' b = read8 m (a + k)).
  { intros b k -> Hk. rewrite Hc. unfold in_range. rewrite (proj2 (andb_true_iff _ _)) by (split; zbool). f_equal. lia. }
  assert (Hhi : forall b, d + 4 <= b < d + 8 -> read8 m' b = 0).
  { intros b Hb. rewrite Hc. unfold in_range. rewrite (proj2 (andb_false_iff _ _)) by (right; zbool). by apply Hz. }
  unfold read_le. cbn [read_bytes le_value].
  rewrite (Hlo d 0), (Hlo (d + 1) 1), (Hlo (d + 1 + 1) 2), (Hlo (d + 1 + 1 + 1) 3), !Hhi by lia.
  unfold read32, read16. rewrite Z.add_0_r. replace (a + 2 + 1) with (a + 3) by lia. lia.
Qed.

Section IntFile.
Context {S : Type} `{Hlist S} `{Layout} {T : Type} `{!Heap S T}.
Context {W : Type} `{Env W} `{Ports W} `{DmaPort W}.
Context (preempted : bool) (dma : bool) (access : Z) (fuel : nat).

(** Reading an integer file, wherever it is found first. *)
Lemma loadint_const nm a defval stack root (s : rstate (S := S) (W := W)) :
  RomfileRoot s = Romfile nm 4 (ConstFile a) :: root -> bytes_ok (rs_mem s) ->
  a + 4 <= stack \/ stack + 8 <= a ->
  exists s', romfile_loadint dma access fuel stack nm defval s = Some (read32 (rs_mem s) a, s').
Proof.
  intros Hroot Hm Hst. unfold romfile_loadint. read_state. rewrite Hroot.
  replace (romfile_find nm _) with (Some (Romfile nm 4 (ConstFile a))).
  2:{ unfold romfile_find, __romfile_findprefix. simpl. by rewrite (proj2 (same_bytes_forall _ nm nm)). }
  cbn [size]. change (s32 4) with 4. replace (_ || _) with false by (vm_compute; reflexivity).
  unfold file_copy, const_read_file. cbn [copy size]. read_state. erewrite bind_some by reflexivity.
  change (s32 4) with 4. eexists. cbn [Z.ltb Z.compare Pos.compare Pos.compare_cont]. read_state. unfold ret. do 2 f_equal. etransitivity; [apply (read_le_copied stack a (write_le 8 stack 0 (rs_mem s)))|].
  - apply memcpy_spec; [apply bytes_ok_write_bytes, Hm|lia|lia].
  - intros b Hb. unfold write_le. replace b with (stack + Z.of_nat (Z.to_nat (b - stack))) by lia.
    rewrite read8_write_bytes_in by (simpl; lia).
    assert (Z.to_nat (b - stack) = 4 \/ Z.to_nat (b - stack) = 5 \/ Z.to_nat (b - stack) = 6 \/ Z.to_nat (b - stack) = 7)%nat
      as [-> | [-> | [-> | ->]]] by lia; done.
  - unfold read32, read16. by rewrite !read8_write_le_out by lia.
Qed.

(** An integer file reads back as the integer.  Unless the memory for it
    ran out, [romfile_loadint] of the name just added returns the value, with
    no effect on it of older files of the same name or of the default. *)
Theorem const_romfile_add_int_loadint nm value defval stack (s : rstate (S := S) (W := W)) t :
  heap_inv (rs_ms s) t -> bytes_ok (rs_mem s) -> (length nm <= 127)%nat ->
  (forall b, stack <= b < stack + 8 -> ~ territory t b) ->
  exists s', const_romfile_add_int preempted nm value s = Some (tt, s') /\
    (RomfileRoot s' = RomfileRoot s \/
     exists s'', romfile_loadint dma access fuel stack nm defval s' = Some (u32 value, s'')).
Proof.
  intros Hh Hm Hlen Hst. unfold const_romfile_add_int.
  destruct (alloc_tmp_step preempted (fun _ => False) 4 s t Hh) as (a & s1 & Ha & Hc); [lia|lia|].
  rewrite (bind_some _ _ _ _ _ Ha).
  destruct Hc as [[-> Hst1]|(Hnz & t1 & z & Hst1 & Hho & _)].
  { exists s1. split; [done|]. left. apply Hst1. }
  rewrite (proj2 (Z.eqb_neq a 0)) by done.
  destruct (step_mem (fun b => a <= b < a + 4) (write32 a value) s1 t1) as (s2 & Hs2 & Hst2 & Hm2 & _).
  { apply Hst1. } { intros b Hb. apply read8_write32_ne. lia. }
  rewrite (bind_some _ _ _ _ _ Hs2). unfold const_romfile_add.
  destruct (alloc_tmp_step preempted (fun _ => False) sizeof_const_romfile_s s2 t1) as (c & s3 & Hal & Hc).
  { apply Hst2. } { done. } { done. }
  rewrite (bind_some _ _ _ _ _ Hal).
  assert (Hroot : RomfileRoot s3 = RomfileRoot s).
  { destruct Hc as [[_ []]|(_ & ? & ? & [] & _)]; destruct Hst1, Hst2; congruence. }
  assert (Hm3 : forall b, read8 (rs_mem s3) b = read8 (write32 a value (rs_mem s1)) b).
  { intros b. rewrite <- Hm2. destruct Hc as [[_ []]|(_ & ? & ? & [] & _)]; auto. }
  case_match; [exists s3; auto|].
  assert (Hbytes : bytes_ok (write32 a value (rs_mem s1))).
  { apply bytes_ok_write32. intros b. rewrite (st_frame _ _ _ _ _ Hst1) by tauto. apply Hm. }
  assert (Hv : read32 (rs_mem s3) a = u32 value).
  { rewrite <- (read32_write32_eq a value (rs_mem s1)). unfold read32, read16. by rewrite !Hm3. }
  eexists. split; [done|]. right. rewrite <- Hv, take_ge by done.
  eapply (loadint_const nm a defval stack (RomfileRoot s3) (RState (rs_ms s3) (rs_dev s3) (_ :: RomfileRoot s3) (romfile_pointer_list s3)));
    [done|intros b; rewrite Hm3; apply Hbytes|].
  assert (Ht : forall b, a <= b < a + 4 -> territory t b).
  { intros b Hb. rewrite <- (st_territory _ _ _ _ _ Hst1). by eapply holds_territory. }
  destruct (Z.le_gt_cases (a + 4) stack); [by left|]. destruct (Z.le_gt_cases (stack + 8) a); [by right|].
  exfalso. apply (Hst (Z.max a stack)); [lia|]. apply Ht. lia.
Qed.
End IntFile.

(** ** A state for the witnesses *)

Module Demo.
#[local] Existing Instances MallocCorrect.Demo.layout DemoDevice.env DemoDevice.ports DemoDevice.dma.

(** A script of two commands: allocate the file "t", then make its first
    sixteen bytes sum to zero through its ninth. *)
Definition script : list (Z * Z) :=
  [(0x9000, 1); (0x9004, 116); (0x9000 + 60, 16); (0x9000 + 64, 1);
   (0x9080, 3); (0x9084, 116); (0x9080 + 60, 8); (0x9080 + 64, 0); (0x9080 + 68, 16);
   (0xa000, 0x53); (0xa003, 0xc0); (0xa010, 0x77)].
Definition mem : memory := foldr (fun p => write8 (fst p) (snd p)) ∅ script.
Definition root : chain := [Romfile [115] 256 (ConstFile 0x9000); Romfile [116] 64 (ConstFile 0xa000)].
Definition state : rstate (S := words) (W := DemoDevice.W) :=
  RState (with_mem (fun _ => mem) MallocCorrect.Demo.st2) (0, 0) root [].

Definition heap : heap_state := HeapState MallocCorrect.Demo.az2 (unalloc MallocCorrect.Demo.az2).
Lemma heap_ok : heap_inv (Heap := malloc_heap) (rs_ms state) heap.
Proof. split; [exact MallocCorrect.Demo.inv2|done]. Qed.

Lemma demo_mem_ok : bytes_ok (rs_mem state).
Proof. do 12 apply bytes_ok_write8. apply bytes_ok_empty. Qed.

Lemma root_ok_state : root_ok state.
Proof. repeat constructor; simpl; lia. Qed.

(** Two files in use, with a pointer command and a checksum command. *)
Definition fs : romfile_loader_files :=
  LoaderFiles [LoaderFile (Romfile [97] 64 (ConstFile 0)) 0x20000; LoaderFile (Romfile [98] 32 (ConstFile 0)) 0x30000] 4.
Definition mem2 : memory := foldr (fun p => write8 (fst p) (snd p)) ∅
  [(0x9004, 97); (0x9000 + 60, 98); (0x9000 + 116, 6); (0x9000 + 120, 2);
   (0x9084, 98); (0x9080 + 60, 8); (0x9080 + 64, 4); (0x9080 + 68, 16);
   (0x20006, 0x12); (0x20007, 0xff); (0x30005, 0x33)].
Definition state2 : rstate (S := words) (W := DemoDevice.W) :=
  RState (with_mem (fun _ => mem2) MallocCorrect.Demo.st2) (0, 0) [] [].
Lemma sizes : sizes_ok fs.
Proof. repeat constructor; simpl; lia. Qed.
End Demo.
#[local] Existing Instances MallocCorrect.Demo.layout DemoDevice.env DemoDevice.ports DemoDevice.dma.

Lemma romfile_loader_add_pointer_effect_witness :
  pointer_field 0x9000 Demo.fs Demo.mem2 = Some (0x20006, 2%nat, 0x30000) /\
  exists m', romfile_loader_add_pointer 0x9000 Demo.fs Demo.state2 = Some (tt, rst_with_mem m' Demo.state2) /\
    read_le 2 0x20006 m' = (0xff12 + 0x30000) mod 2 ^ 16 /\
    forall b, ~ (0x20006 <= b < 0x20006 + 2) -> read8 m' b = read8 Demo.mem2 b.
Proof.
  assert (Hf : pointer_field 0x9000 Demo.fs Demo.mem2 = Some (0x20006, 2%nat, 0x30000)) by (vm_compute; reflexivity).
  split; [exact Hf|]. destruct (romfile_loader_add_pointer_effect 0x9000 Demo.fs Demo.state2 Demo.sizes) as (m' & Heq & Hm).
  exists m'. split; [exact Heq|]. change (rs_mem Demo.state2) with Demo.mem2 in Hm. rewrite Hf in Hm. exact Hm.
Defined.

Lemma romfile_loader_add_checksum_effect_witness :
  checksum 0x30004 16 Demo.mem2 = 0x33 /\
  exists m', romfile_loader_add_checksum 0x9080 Demo.fs Demo.state2 = Some (tt, rst_with_mem m' Demo.state2) /\
    (4 <= 8 < 4 + 16 -> checksum 0x30004 16 m' = 0) /\ forall b, b <> 0x30008 -> read8 m' b = read8 Demo.mem2 b.
Proof.
  split; [vm_compute; reflexivity|].
  destruct (romfile_loader_add_checksum_effect 0x9080 Demo.fs Demo.state2 Demo.sizes) as (m' & Heq & Hm).
  exists m'. split; [exact Heq|].
  replace (romfile_loader_find (cksum_file 0x9080) Demo.fs (rs_mem Demo.state2))
    with (Some (LoaderFile (Romfile [98] 32 (ConstFile 0)) 0x30000)) in Hm by (vm_compute; reflexivity).
  change (rs_mem Demo.state2) with Demo.mem2 in Hm.
  replace (le32 (cksum_offset 0x9080) Demo.mem2) with 8 in Hm by (vm_compute; reflexivity).
  replace (le32 (cksum_start 0x9080) Demo.mem2) with 4 in Hm by (vm_compute; reflexivity).
  replace (le32 (cksum_length 0x9080) Demo.mem2) with 16 in Hm by (vm_compute; reflexivity).
  rewrite bool_decide_true in Hm by (simpl; lia). exact Hm.
Defined.

Lemma romfile_loader_execute_safe_witness :
  exists r s' t', romfile_loader_execute true false 0x6000 0 0x6100 [115] Demo.state = Some (r, s') /\
    (r = 0 \/ r = -1) /\ heap_inv (Heap := malloc_heap) (rs_ms s') t' /\ territory t' = territory Demo.heap /\
    (forall z a len, holds (Heap := malloc_heap) Demo.heap z a len -> holds t' z a len) /\
    forall b, ~ writable 0x6000 0x6100 (territory (Heap := malloc_heap) Demo.heap) b -> read8 (rs_mem s') b = read8 (rs_mem Demo.state) b.
Proof.
  apply (romfile_loader_execute_safe true false 0x6000 0 0x6100 (fun w => w) DemoDevice.item DemoDevice.ok);
    [done|done|exact Demo.heap_ok|exact Demo.root_ok_state].
Defined.

(** The script runs: the second command finds the file the first allocated. *)
Example execute_runs :
  match romfile_loader_execute true false 0x6000 0 0x6100 [115] Demo.state with
  | Some (r, s') => (r, checksum 0x14ffc0 16 (rs_mem s'), read8 (rs_mem s') 0x14ffc3)
  | None => (-1, 0, 0)
  end = (0, 0, 0xc0).
Proof. vm_compute; reflexivity. Qed.

Lemma const_romfile_add_int_loadint_witness :
  exists s', const_romfile_add_int false [98; 111] 0x12345678 Demo.state = Some (tt, s') /\
    (RomfileRoot s' = RomfileRoot Demo.state \/
     exists s'', romfile_loadint false 0x6000 0 0x6100 [98; 111] 7 s' = Some (u32 0x12345678, s'')).
Proof.
  apply (const_romfile_add_int_loadint (T := heap_state) false false 0x6000 0 [98; 111] 0x12345678 7 0x6100 Demo.state Demo.heap).
  - exact Demo.heap_ok.
  - exact Demo.demo_mem_ok.
  - simpl. lia.
  - intros b Hb (z & n & i & Hin & Hr). destruct z; vm_compute in Hin;
      repeat (apply elem_of_cons in Hin as [[= -> ->]|Hin]; [simpl in Hr; lia|]); by apply not_elem_of_nil in Hin.
Defined.
