(* ===== verification/Output.v ===== *)
(** * Formatted output: src/output.c

    The formatter sends characters one by one to a sink; here it gives the list
    of them.  The sinks are the bounded string of [snprintf] and the screen.
    The 32-bit flat build is modelled (MODESEGMENT is 0): the only one in which
    these functions do more than debug output.  Characters are bytes, and a
    string literal is its list of codes. *)
From Stdlib Require Import Ascii String.
From S2P Require Import Prelude Hlist Machine StringOps Bytes Malloc Pci.
Local Open Scope seabios_scope.

Definition chr (c : ascii) : Z := Z.of_N (N_of_ascii c).
(** A string literal. *)
Definition str (s : string) : list Z := map chr (list_ascii_of_string s).

(** ** Numbers *)

(** The buffer has [n] cells left below [d]; [None] is a write below it. *)
Fixpoint putuint_loop (n : nat) (val : Z) (d : list Z) : option (list Z) :=
  match n with
  | O => None
  | S n' =>
    let d := (val mod 10 + chr "0") :: d in
    let val := val / 10 in
    if val =? 0 then Some d else putuint_loop n' val d
  end.
Definition putuint (val : Z) : option (list Z) := putuint_loop 11 (u32 val) [].

Definition putsinglehex (val : Z) : Z := if val <=? 9 then chr "0" + val else chr "a" + val - 10.

(** The cases of the switch fall through. *)
Definition puthex (val width : Z) : list Z :=
  let digit k := putsinglehex (Z.land (Z.shiftr (u32 val) k) 0xf) in
  drop (if (1 <=? width) && (width <=? 7) then Z.to_nat (8 - width) else 0)
    (map digit [28; 24; 20; 16; 12; 8; 4; 0]).

(** The loop ends before [n] runs out: [tmp] has 32 bits. *)
Fixpoint hex_count (n : nat) (tmp count : Z) : Z :=
  match n with
  | O => count
  | S n' => let tmp := Z.shiftr tmp 4 in if tmp =? 0 then count else hex_count n' tmp (count + 1)
  end.
Definition putprettyhex (val width padchar : Z) : list Z :=
  let count := hex_count 8 (u32 val) 1 in
  repeat padchar (Z.to_nat (width - count)) ++ puthex val count.

(** A PCI address as %02x:%02x.%x. *)
Definition put_pci_device (bdf : Z) : list Z :=
  puthex (pci_bdf_to_bus bdf) 2 ++ [chr ":"] ++ puthex (pci_bdf_to_dev bdf) 2 ++ [chr "."] ++ puthex (pci_bdf_to_fn bdf) 1.

(** ** The formatter *)

(** An argument: a number or pointer, a string ([None] is NULL), a PCI device at
    an address. *)
Inductive arg :=
| Word (val : Z)
| Text (s : option (list Z))
| Device (addr bdf : Z).

Definition isdigit (c : Z) : bool := u8 (c - chr "0") <? 10.

(** The character at a point of the format: 0 at its end. *)
Definition peek (s : list Z) : Z := hd 0 s.

Fixpoint field (n : list Z) (field_width padchar : Z) : Z * Z * list Z :=
  match n with
  | c :: n' =>
    if isdigit c then
      if (field_width =? 0) && (c =? chr "0") then field n' field_width (chr "0")
      else field n' (field_width * 10 + c - chr "0") padchar
    else (field_width, padchar, n)
  | [] => (field_width, padchar, n)
  end.

(** [va_arg (args, s32)] *)
Definition va_word (args : list arg) : option (Z * list arg) :=
  match args with
  | Word v :: args' => Some (s32 v, args')
  | Device a _ :: args' => Some (s32 a, args')
  | _ => None
  end.
Definition va_text (args : list arg) : option (option (list Z) * list arg) :=
  match args with Text s :: args' => Some (s, args') | _ => None end.

Definition put_signed (val : Z) : option (list Z) :=
  if val <? 0 then cons (chr "-") <$> putuint (- val) else putuint val.

(** The switch of [bvprintf], at the conversion character [c]; [n] is the format
    after it, [s] the format after the percent sign.  The result is the output,
    the rest of the format and the rest of the arguments; [None] is a missing
    argument or one of the wrong type. *)
Definition conversion (c : Z) (n s : list Z) (field_width padchar : Z) (is64 : bool) (args : list arg) :
  option (list Z * list Z * list arg) :=
  let drop64 args := if is64 then snd <$> va_word args else Some args in
  if c =? chr "%" then Some ([chr "%"], n, args)
  else if c =? chr "d" then
    '(val, args) ← va_word args; args ← drop64 args; out ← put_signed val; Some (out, n, args)
  else if c =? chr "u" then
    '(val, args) ← va_word args; args ← drop64 args; out ← putuint val; Some (out, n, args)
  else if c =? chr "p" then
    if peek n =? chr "P" then
      match args with Device _ bdf :: args => Some (put_pci_device bdf, tail n, args) | _ => None end
    else '(val, args) ← va_word args; Some (chr "0" :: chr "x" :: puthex val 8, n, args)
  else if c =? chr "x" then
    '(val, args) ← va_word args;
    if is64 then
      '(upper, args) ← va_word args;
      if truthy upper then Some (putprettyhex upper (field_width - 8) padchar ++ puthex val 8, n, args)
      else Some (putprettyhex val field_width padchar, n, args)
    else Some (putprettyhex val field_width padchar, n, args)
  else if c =? chr "c" then '(val, args) ← va_word args; Some ([u8 val], n, args)
  else if c =? chr "." then
    if negb (peek n =? chr "s") then Some ([], n, args)
    else '(sarg, args) ← va_text args; Some (default (str "(NULL)") sarg, tail n, args)
  else if c =? chr "s" then '(sarg, args) ← va_text args; out ← sarg; Some (out, n, args)
  else Some ([chr "%"], s, args).

(** From the character after a percent sign. *)
Definition directive (s : list Z) (args : list arg) : option (list Z * list Z * list arg) :=
  let '(field_width, padchar, n) := field s 0 (chr " ") in
  let c := peek n in
  let '(c, n) := if c =? chr "l" then (peek (tail n), tail n) else (c, n) in
  let '(c, n, is64) := if c =? chr "l" then (peek (tail n), tail n, true) else (c, n, false) in
  conversion c (tail n) s field_width padchar is64 args.

(** [skip] characters belong to the directive just done. *)
Fixpoint bvprintf_from (fmt : list Z) (skip : nat) (args : list arg) : option (list Z) :=
  match fmt with
  | [] => Some []
  | c :: fmt' =>
    match skip with
    | S skip' => bvprintf_from fmt' skip' args
    | O =>
      if c =? chr "%" then
        '(out, rest, args) ← directive fmt' args;
        out' ← bvprintf_from fmt' (length fmt' - length rest) args;
        Some (out ++ out')
      else cons c <$> bvprintf_from fmt' 0 args
    end
  end.
Definition bvprintf (fmt : list Z) (args : list arg) : option (list Z) := bvprintf_from fmt 0 args.

(** ** snprintf *)

(** struct snprintfinfo and the memory it points into. *)
Definition putc_str (sinfo : Z * Z * memory) (c : Z) : Z * Z * memory :=
  let '(s, end_, m) := sinfo in
  if end_ <=? s then sinfo else (s + 1, end_, write8 s c m).

Definition snprintf (a size : Z) (fmt : list Z) (args : list arg) (m : memory) : option (Z * memory) :=
  if size =? 0 then Some (0, m)
  else
    out ← bvprintf fmt args;
    let '(s, sinfo_end, m) := fold_left putc_str out (a, a + size, m) in
    let end_ := if sinfo_end <=? s then sinfo_end - 1 else s in
    Some (end_ - a, write8 end_ 0 m).

Section Znprintf.
Context {S : Type} `{Hlist S} `{Layout}.

Definition znprintf (preempted : bool) (size : Z) (fmt : list Z) (args : list arg) (st : mstate (S := S)) :
  option (Z * mstate (S := S)) :=
  if size =? 0 then Some (0, st)
  else
    let '(a, st) := malloc_tmp preempted size st in
    if a =? 0 then Some (0, st)
    else '(_, m) ← snprintf a size fmt args (ms_mem st); Some (a, with_mem (fun _ => m) st).
End Znprintf.

(** ** The screen *)

Section Screen.
Context {W : Type} `{Env W}.
Context (entry_10 : Z).              (* FUNC16(entry_10).segoff *)

Definition screenc (c : Z) : M W unit :=
  ivt <- get32 (4 * 0x10) ;;
  if ivt =? entry_10 then ret tt
  else do call16_int 0x10 (set_bl 0x07 (set_al c (set_ah 0x0e (set_flags F_IF bregs_zero)))) ;; ret tt.

(** [debug_putc]: the debug port of QEMU. *)
Definition screen_putc (ScreenAndDebug : bool) (debug_putc : Z -> M W unit) (c : Z) : M W unit :=
  do (if ScreenAndDebug then debug_putc c else ret tt) ;;
  do (if c =? 10 then screenc 13 else ret tt) ;;
  screenc c.
End Screen.

(** [hexdump] of [len] bytes at [d]: the words on the debug console, eight to a
    line; [None] when the fuel ran out. *)
Fixpoint hexdump_loop (fuel : nat) (d len count : Z) (m : memory) : option (list Z) :=
  if len <=? 0 then Some [10]
  else
    match fuel with
    | O => None
    | S f =>
      app ((if count mod 8 =? 0 then 10 :: puthex (count * 4) 8 ++ [chr ":"] else [chr " "]) ++ puthex (read32 m d) 8) <$>
      hexdump_loop f (d + 4) (len - 4) (count + 1) m
    end.
Definition hexdump (d len : Z) (m : memory) : option (list Z) := hexdump_loop (Z.to_nat len) d len 0 m.

Example bvprintf_path : bvprintf (str "%s@%x,%02x %5d|%-u") [Text (Some (str "/disk")); Word 0x1f; Word 7; Word (-12); Word 3] =
  Some (str "/disk@1f,07 -12|%-u").
Proof. vm_compute. reflexivity. Qed.
