(* ===== verification/OutputCorrect.v ===== *)
(** * The formatter prints what it is given ([Output])

    Numbers read back as themselves, and [snprintf] never leaves its buffer. *)
From Stdlib Require Import Ascii String.
From S2P Require Import Prelude Hlist Machine StringOps Bytes Malloc Pci Output.

(** ** Reading numbers back *)

Definition dec_value (l : list Z) : Z := fold_left (fun v c => 10 * v + (c - 48)) l 0.
Definition hex_digit (c : Z) : Z := if c <=? 57 then c - 48 else c - 87.
Definition hex_value (l : list Z) : Z := fold_left (fun v c => 16 * v + hex_digit c) l 0.
Definition signed_value (l : list Z) : Z :=
  match l with c :: l' => if c =? chr "-" then - dec_value l' else dec_value l | [] => 0 end.

Definition digit (c : Z) : Prop := 48 <= c <= 57.

Lemma dec_fold l : forall v, fold_left (fun v c => 10 * v + (c - 48)) l v = v * 10 ^ Z.of_nat (length l) + dec_value l.
Proof.
  unfold dec_value. induction l as [|c l IH]; intros v; cbn [fold_left length]; [lia|].
  rewrite IH, (IH (10 * 0 + (c - 48))). replace (Z.of_nat (S (length l))) with (1 + Z.of_nat (length l)) by lia.
  rewrite Z.pow_add_r by lia. lia.
Qed.

Lemma dec_cons c l : dec_value (c :: l) = (c - 48) * 10 ^ Z.of_nat (length l) + dec_value l.
Proof. unfold dec_value at 1. cbn [fold_left]. rewrite dec_fold. lia. Qed.

(** The digits of a number, put before [d]. *)
Lemma putuint_loop_spec n : forall val d, (0 < n)%nat -> 0 <= val < 10 ^ Z.of_nat n ->
  exists p, putuint_loop n val d = Some (p ++ d) /\ dec_value (p ++ d) = val * 10 ^ Z.of_nat (length d) + dec_value d /\
    Forall digit p /\ p <> [] /\ (hd 0 p = 48 -> p = [48]).
Proof.
  induction n as [|n IH]; intros val d Hn Hv; [lia|]. cbn [putuint_loop]. change (chr "0") with 48.
  assert (Hmod : 0 <= val mod 10 < 10) by lia.
  destruct (Z.eqb_spec (val / 10) 0) as [Hz|Hz].
  - exists [val mod 10 + 48]. split_and!; [done| | |done|].
    + cbn [app]. rewrite dec_cons. replace (val mod 10) with val by lia. lia.
    + repeat constructor; unfold digit; lia.
    + cbn [hd]. intros ->. done.
  - replace (Z.of_nat (S n)) with (1 + Z.of_nat n) in Hv by lia. rewrite Z.pow_add_r in Hv by lia.
    destruct n as [|n]; [simpl in Hv; lia|].
    destruct (IH (val / 10) ((val mod 10 + 48) :: d)) as (p & Heq & Hval & Hdig & Hne & Hhd); [lia|lia|].
    exists (p ++ [val mod 10 + 48]). rewrite <- app_assoc. cbn [app]. split_and!; [done| | | |].
    + rewrite Hval, dec_cons. cbn [length]. replace (Z.of_nat (S (length d))) with (1 + Z.of_nat (length d)) by lia.
      rewrite Z.pow_add_r by lia. pose proof (Z.div_mod val 10). lia.
    + apply Forall_app. split; [done|]. repeat constructor; unfold digit; lia.
    + by destruct p.
    + destruct p as [|c p]; [done|]. cbn [hd app]. intros ->. specialize (Hhd eq_refl). injection Hhd as ->.
      exfalso. cbn [app] in Hval. rewrite !dec_cons in Hval. cbn [length] in Hval.
      assert (0 < 10 ^ Z.of_nat (S (length d))) by lia. nia.
Qed.

Lemma putuint_spec val : 0 <= val < 2 ^ 32 ->
  exists p, putuint val = Some p /\ dec_value p = val /\ Forall digit p /\ p <> [] /\ (hd 0 p = 48 -> p = [48]).
Proof.
  intros Hv. unfold putuint. rewrite u32_small by done.
  destruct (putuint_loop_spec 11 val []) as (p & Heq & Hval & Hrest); [lia|lia|].
  rewrite app_nil_r in *. exists p. split_and!; try apply Hrest; [done|]. rewrite Hval. cbn. lia.
Qed.

(** ** Hexadecimal *)

Lemma hex_count_spec n : forall tmp count, 0 <= tmp < 16 ^ Z.of_nat (S n) ->
  exists k, hex_count n tmp count = count + k /\ 0 <= k <= Z.of_nat n /\ tmp < 16 ^ (k + 1) /\ (0 < k -> 16 ^ k <= tmp).
Proof.
  induction n as [|n IH]; intros tmp count Ht; [exists 0; simpl in *; lia|]. cbn [hex_count].
  rewrite Z.shiftr_div_pow2 by lia. change (2 ^ 4) with 16.
  replace (Z.of_nat (S (S n))) with (1 + Z.of_nat (S n)) in Ht by lia. rewrite Z.pow_add_r in Ht by lia.
  destruct (Z.eqb_spec (tmp / 16) 0) as [Hz|Hz]; [exists 0; lia|].
  destruct (IH (tmp / 16) (count + 1)) as (k & -> & Hk & Hlt & Hle); [lia|]. exists (k + 1).
  split_and!; try lia.
  - rewrite (Z.add_comm (k + 1)), Z.pow_add_r by lia. lia.
  - intros _. rewrite Z.add_comm, Z.pow_add_r by lia. destruct (Z.eq_dec k 0) as [->|]; [simpl; lia|].
    specialize (Hle ltac:(lia)). lia.
Qed.

Lemma hex_digit_single x : 0 <= x < 16 -> hex_digit (putsinglehex x) = x.
Proof.
  intros Hx. unfold hex_digit, putsinglehex. change (chr "0") with 48. change (chr "a") with 97.
  destruct (Z.leb_spec x 9); zbool; lia.
Qed.

Lemma hex_nibble v k : 0 <= k -> 0 <= v < 2 ^ 32 ->
  hex_digit (putsinglehex (Z.land (Z.shiftr (u32 v) k) 15)) = v / 2 ^ k mod 16.
Proof.
  intros Hk Hv. change 15 with (Z.ones 4). rewrite Z.land_ones, Z.shiftr_div_pow2, u32_small by done.
  apply hex_digit_single. lia.
Qed.

(** The last [width] digits. *)
Lemma puthex_value v width : 0 <= v < 2 ^ 32 -> 1 <= width <= 8 ->
  hex_value (puthex v width) = v mod 16 ^ width /\ Z.of_nat (length (puthex v width)) = width.
Proof.
  intros Hv Hw.
  assert (width = 1 \/ width = 2 \/ width = 3 \/ width = 4 \/ width = 5 \/ width = 6 \/ width = 7 \/ width = 8) as Hc by lia.
  unfold puthex, hex_value.
  repeat destruct Hc as [->|Hc]; try subst width;
    (split; [|reflexivity]);
    match goal with |- context [drop ?n _] => let k := eval vm_compute in n in change n with k end;
    cbn [map drop fold_left]; rewrite !hex_nibble by lia; lia.
Qed.

(** A number padded with zeros to a width. *)
Lemma hex_fold_zeros n l : hex_value (repeat 48 n ++ l) = hex_value l.
Proof. unfold hex_value. rewrite fold_left_app. f_equal. induction n as [|n IH]; [done|]. simpl. exact IH. Qed.

Lemma putprettyhex_spec v width : 0 <= v < 2 ^ 32 ->
  exists k, 1 <= k <= 8 /\ v < 16 ^ k /\ (1 < k -> 16 ^ (k - 1) <= v) /\
    hex_value (putprettyhex v width (chr "0")) = v /\
    Z.of_nat (length (putprettyhex v width (chr "0"))) = Z.max width k.
Proof.
  intros Hv. unfold putprettyhex. rewrite u32_small by done.
  destruct (hex_count_spec 8 v 1) as (k & -> & Hk & Hlt & Hle); [lia|].
  assert (k < 8). { destruct (Z.eq_dec k 8) as [->|]; [specialize (Hle ltac:(lia)); lia|lia]. }
  destruct (puthex_value v (1 + k) Hv) as [Hval Hlen]; [lia|].
  exists (1 + k). split_and!; [lia|lia|by rewrite Z.add_comm| | |].
  - intros Hk1. replace (1 + k - 1) with k by lia. apply Hle. lia.
  - change (chr "0") with 48. rewrite hex_fold_zeros, Hval. apply Z.mod_small. rewrite Z.add_comm. lia.
  - rewrite length_app, repeat_length, Nat2Z.inj_add, Hlen. lia.
Qed.

Lemma u32_s32 v : u32 (s32 v) = u32 v.
Proof. unfold s32. case_match; unfold u32; lia. Qed.
Lemma putuint_s32 v : putuint (s32 v) = putuint v.
Proof. unfold putuint. by rewrite u32_s32. Qed.
Lemma putprettyhex_s32 v width pad : putprettyhex (s32 v) width pad = putprettyhex v width pad.
Proof. unfold putprettyhex, puthex. by rewrite u32_s32. Qed.

Lemma s32_split v : 0 <= v < 2 ^ 32 -> s32 v = if v <? 2 ^ 31 then v else v - 2 ^ 32.
Proof. intros Hv. unfold s32. rewrite u32_small by done. done. Qed.

Lemma put_signed_spec v : 0 <= v < 2 ^ 32 -> exists l, put_signed (s32 v) = Some l /\ signed_value l = s32 v.
Proof.
  intros Hv. unfold put_signed. rewrite s32_split by done. destruct (Z.ltb_spec v (2 ^ 31)) as [Hn|Hn].
  - rewrite (proj2 (Z.ltb_ge v 0)) by lia.
    destruct (putuint_spec v Hv) as (p & -> & Hval & Hdig & Hne & _). exists p. split; [done|].
    destruct Hdig as [|c p Hc Hp]; [done|]. unfold signed_value. change (chr "-") with 45. unfold digit in Hc.
    by destruct (Z.eqb_spec c 45); [lia|].
  - rewrite (proj2 (Z.ltb_lt _ _)) by lia.
    destruct (putuint_spec (- (v - 2 ^ 32))) as (p & -> & Hval & _); [lia|].
    exists (chr "-" :: p). split; [done|]. unfold signed_value. rewrite Z.eqb_refl. lia.
Qed.

(** A format that is one directive. *)
Lemma one_directive fmt args out l : directive fmt args = Some (out, [], []) -> l = out ++ [] ->
  bvprintf (chr "%" :: fmt) args = Some l.
Proof.
  intros Hd ->. unfold bvprintf. cbn [bvprintf_from]. rewrite Z.eqb_refl, Hd. cbn [mbind option_bind length].
  rewrite Nat.sub_0_r. enough (forall skip, skip = length fmt -> bvprintf_from fmt skip [] = Some []) as -> by done.
  clear. induction fmt as [|c fmt IH]; intros skip ->; [done|]. by apply IH.
Qed.

(** A format with one digit of width. *)
Lemma pad_hex v w : 1 <= w <= 9 ->
  bvprintf (str "%0" ++ [48 + w] ++ str "x") [Word v] = Some (putprettyhex (s32 v) w (chr "0") ++ []).
Proof.
  intros Hw. assert (w = 1 \/ w = 2 \/ w = 3 \/ w = 4 \/ w = 5 \/ w = 6 \/ w = 7 \/ w = 8 \/ w = 9) as Hc by lia.
  repeat destruct Hc as [->|Hc]; try subst w; reflexivity.
Qed.

(** What is printed reads back.  [%u], [%d] and [%0Nx] print a word as
    digits that have its value; a decimal number has no leading zero, and a
    hexadecimal one is padded to the width, or as long as it must be. *)
Theorem bvprintf_numbers v w :
  0 <= v < 2 ^ 32 -> 1 <= w <= 9 ->
  (exists l, bvprintf (str "%u") [Word v] = Some l /\ Forall digit l /\ dec_value l = v /\ (hd 0 l = 48 -> l = [48])) /\
  (exists l, bvprintf (str "%d") [Word v] = Some l /\ signed_value l = s32 v) /\
  (exists l, bvprintf (str "%0" ++ [48 + w] ++ str "x") [Word v] = Some l /\ hex_value l = v /\
     w <= Z.of_nat (length l) /\ (w < Z.of_nat (length l) -> 16 ^ (Z.of_nat (length l) - 1) <= v)).
Proof.
  intros Hv Hw. destruct (putuint_spec v Hv) as (p & Hp & Hval & Hdig & _ & Hhd). split_and!.
  - exists p. split; [|done]. eapply one_directive; [|by rewrite app_nil_r].
    change (directive _ _) with (out ← putuint (s32 v); Some (out, @nil Z, @nil arg)). by rewrite putuint_s32, Hp.
  - destruct (put_signed_spec v Hv) as (l & Heq & Hl). exists l. split; [|done].
    eapply one_directive; [|by rewrite app_nil_r].
    change (directive _ _) with (out ← put_signed (s32 v); Some (out, @nil Z, @nil arg)). by rewrite Heq.
  - destruct (putprettyhex_spec v w Hv) as (k & Hk & Hlt & Hle & Hx & Hlen).
    exists (putprettyhex v w (chr "0")). split_and!; [|done|lia|].
    + rewrite pad_hex by done. by rewrite app_nil_r, putprettyhex_s32.
    + rewrite Hlen. intros. replace (Z.max w k - 1) with (k - 1) by lia. apply Hle. lia.
Qed.

Lemma bvprintf_numbers_witness :
  (exists l, bvprintf (str "%u") [Word 4294967286] = Some l /\ Forall digit l /\ dec_value l = 4294967286 /\ (hd 0 l = 48 -> l = [48])) /\
  (exists l, bvprintf (str "%d") [Word 4294967286] = Some l /\ signed_value l = s32 4294967286) /\
  (exists l, bvprintf (str "%0" ++ [48 + 4] ++ str "x") [Word 4294967286] = Some l /\ hex_value l = 4294967286 /\
     4 <= Z.of_nat (length l) /\ (4 < Z.of_nat (length l) -> 16 ^ (Z.of_nat (length l) - 1) <= 4294967286)).
Proof. apply (bvprintf_numbers 4294967286 4); lia. Defined.

(** ** snprintf *)

(** The sink after some characters: [done] of them are in the buffer. *)
Lemma putc_str_spec out : forall a end_ m, a <= end_ ->
  exists m', fold_left putc_str out (a, end_, m) = (Z.min (a + Z.of_nat (length out)) end_, end_, m') /\
    (forall i, (i < length out)%nat -> a + Z.of_nat i < end_ -> read8 m' (a + Z.of_nat i) = u8 (nth i out 0)) /\
    forall b, b < a \/ end_ <= b -> read8 m' b = read8 m b.
Proof.
  induction out as [|c out IH]; intros a end_ m Ha; cbn [fold_left length].
  - exists m. split_and!; [f_equal; f_equal; lia|intros i Hi; lia|done].
  - unfold putc_str at 2. destruct (Z.leb_spec end_ a) as [He|He].
    + destruct (IH a end_ m Ha) as (m' & -> & Hin & Hout). exists m'. split_and!; [f_equal; f_equal; lia|intros; lia|done].
    + destruct (IH (a + 1) end_ (write8 a c m)) as (m' & -> & Hin & Hout); [lia|]. exists m'.
      split_and!; [f_equal; f_equal; lia| |].
      * intros [|i] Hi Hlt; cbn [nth].
        -- rewrite Z.add_0_r, Hout by lia. apply read8_write8_eq.
        -- replace (a + Z.of_nat (S i)) with (a + 1 + Z.of_nat i) by lia. apply Hin; lia.
      * intros b Hb. rewrite Hout by lia. apply read8_write8_ne. lia.
Qed.

(** C36: [snprintf] stores as much of the output as fits with its terminator,
    returns the number of characters it stored, and writes nothing outside of
    its buffer. *)
Theorem snprintf_correct a size fmt args m out :
  0 < size -> bvprintf fmt args = Some out ->
  let len := Z.min (Z.of_nat (length out)) (size - 1) in
  exists m', snprintf a size fmt args m = Some (len, m') /\
    read_bytes (Z.to_nat len) a m' = map u8 (take (Z.to_nat len) out) /\
    read8 m' (a + len) = 0 /\
    forall b, b < a \/ a + size <= b -> read8 m' b = read8 m b.
Proof.
  intros Hs Hout len. unfold snprintf. rewrite (proj2 (Z.eqb_neq size 0)), Hout by lia. cbn [mbind option_bind].
  destruct (putc_str_spec out a (a + size) m) as (m' & -> & Hin & Hfr); [lia|].
  assert ((if a + size <=? Z.min (a + Z.of_nat (length out)) (a + size) then a + size - 1
    else Z.min (a + Z.of_nat (length out)) (a + size)) = a + len) as -> by (unfold len; zbool; lia).
  eexists. split; [repeat f_equal; lia|]. split_and!.
  - apply (List.nth_ext _ _ 0 (u8 0)); [rewrite length_read_bytes, length_map, length_take; lia|].
    rewrite length_read_bytes. intros i Hi. rewrite nth_read_bytes, map_nth by done.
    rewrite read8_write8_ne by lia. rewrite Hin by lia. f_equal. symmetry. rewrite <- (take_drop (Z.to_nat len) out) at 2.
    rewrite app_nth1; [done|rewrite length_take; lia].
  - apply read8_write8_eq.
  - intros b Hb. rewrite read8_write8_ne by lia. apply Hfr. lia.
Qed.

Lemma snprintf_correct_witness :
  exists m', snprintf 0x7000 6 (str "/%s@%x") [Text (Some (str "disk")); Word 0x1f] ∅ = Some (5, m') /\
    read_bytes 5 0x7000 m' = map u8 (str "/disk") /\ read8 m' 0x7005 = 0 /\
    forall b, b < 0x7000 \/ 0x7000 + 6 <= b -> read8 m' b = read8 ∅ b.
Proof.
  apply (snprintf_correct 0x7000 6 (str "/%s@%x") [Text (Some (str "disk")); Word 0x1f] ∅ (str "/disk@1f"));
    [lia|vm_compute; reflexivity].
Defined.
