(* ===== verification/BootPath.v ===== *)
(** * Device paths: src/boot.c

    The path of a device is built as a glob pattern and looked up in the list of
    paths QEMU gives.  A path is the string in its buffer; [max] is the size of
    the buffer. *)
From Stdlib Require Import Ascii String.
From S2P Require Import Prelude Machine Bytes Pci Output OutputCorrect.

(** ** Matching *)

(** A string holds no NUL: its end is the end of the list. *)
Definition at_end (s : list Z) : bool := match s with [] => true | c :: _ => c =? chr "/" end.

(** A pointer into [str] is the part of it that starts there. *)
Fixpoint glob_prefix (glob : list Z) : list Z -> option (list Z) :=
  fix loop (str : list Z) : option (list Z) :=
    match glob with
    | [] => if at_end str then Some str else None
    | g :: glob' =>
      if g =? chr "*" then
        match str with
        | c :: str' => if (c =? chr "/") || (c =? peek glob') then glob_prefix glob' str else loop str'
        | [] => glob_prefix glob' str
        end
      else
        match str with
        | c :: str' => if g =? c then glob_prefix glob' str' else None
        | [] => None
        end
    end.

(** ** Building *)

(** struct pci_device: the fields a path is made of. *)
Inductive pci_device := PciDevice (bdf rootbus : Z) (parent : option pci_device).

Definition FW_PCI_DOMAIN : list Z := str "/pci@i0cf8".

(** [p += snprintf(p, buf+max-p, fmt, ...)] *)
Definition print_at (max : nat) (p : list Z) (fmt : string) (args : list arg) : option (list Z) :=
  out ← bvprintf (str fmt) args; Some (p ++ take (max - length p - 1) out).

Fixpoint build_pci_path (max : nat) (devname : list Z) (pci : pci_device) : option (list Z) :=
  match pci with
  | PciDevice bdf rootbus parent =>
    p ←
      match parent with
      | Some parent => build_pci_path max (str "pci-bridge") parent
      | None =>
        p ← print_at max [] "%s" [Text (Some FW_PCI_DOMAIN)];
        if truthy rootbus then print_at max p ",%x" [Word rootbus] else Some p
      end;
    let dev := pci_bdf_to_dev bdf in
    let fn := pci_bdf_to_fn bdf in
    p ← print_at max p "/%s@%x" [Text (Some devname); Word dev];
    if truthy fn then print_at max p ",%x" [Word fn] else Some p
  end.

Definition build_scsi_path (max : nat) (pci : pci_device) (target lun : Z) : option (list Z) :=
  p ← build_pci_path max (str "*") pci; print_at max p "/*@0/*@%x,%x" [Word target; Word lun].

Definition build_ata_path (max : nat) (pci : pci_device) (chanid slave : Z) : option (list Z) :=
  p ← build_pci_path max (str "*") pci; print_at max p "/drive@%x/disk@%x" [Word chanid; Word slave].

(** struct usbhub_s and struct usbdevice_s; [portmap] is the driver's. *)
Inductive usbhub_s := Usbhub (portmap : option (Z -> Z)) (usbdev : option usbdevice_s)
with usbdevice_s := Usbdevice (hub : usbhub_s) (port : Z).

Definition usb_portmap (usbdev : usbdevice_s) : Z :=
  match usbdev with
  | Usbdevice (Usbhub (Some portmap) _) port => portmap port
  | Usbdevice (Usbhub None _) port => port + 1
  end.

(** [p] is the string before [buf]. *)
Fixpoint build_usb_path (max : nat) (p : list Z) (hub : usbhub_s) : option (list Z) :=
  match hub with
  | Usbhub _ None => Some p
  | Usbhub _ (Some (Usbdevice hub' port)) =>
    p ← build_usb_path max p hub';
    print_at max p "/hub@%x" [Word (usb_portmap (Usbdevice hub' port))]
  end.

(** ** Searching *)

(** The number of the first path that matches, from 1; -1 for none. *)
Fixpoint find_from (i : Z) (glob : list Z) (Bootorder : list (list Z)) : Z :=
  match Bootorder with
  | [] => -1
  | path :: rest => if glob_prefix glob path is Some _ then i + 1 else find_from (i + 1) glob rest
  end.
Definition find_prio (glob : list Z) (Bootorder : list (list Z)) : Z := find_from 0 glob Bootorder.

Definition MAXPATH : nat := 256.     (* sizeof desc *)

Section Prio.
Context (CONFIG_BOOTORDER : bool) (Bootorder : list (list Z)).

Definition prio_of (desc : option (list Z)) : option Z := (fun d => find_prio d Bootorder) <$> desc.

(** CONFIG_CSM is off: the csm_ variants are another boot interface. *)
Definition bootprio_find_pci_device (pci : pci_device) : option Z :=
  if negb CONFIG_BOOTORDER then Some (-1) else prio_of (build_pci_path MAXPATH (str "*") pci).

Definition bootprio_find_scsi_device (pci : option pci_device) (target lun : Z) : option Z :=
  if negb CONFIG_BOOTORDER then Some (-1)
  else match pci with None => Some (-1) | Some pci => prio_of (build_scsi_path MAXPATH pci target lun) end.

Definition bootprio_find_ata_device (pci : option pci_device) (chanid slave : Z) : option Z :=
  if negb CONFIG_BOOTORDER then Some (-1)
  else match pci with None => Some (-1) | Some pci => prio_of (build_ata_path MAXPATH pci chanid slave) end.

Definition bootprio_find_fdc_device (pci : option pci_device) (port fdid : Z) : option Z :=
  if negb CONFIG_BOOTORDER then Some (-1)
  else
    match pci with
    | None => Some (-1)
    | Some pci =>
      prio_of (p ← build_pci_path MAXPATH (str "isa") pci;
               print_at MAXPATH p "/fdc@%04x/floppy@%x" [Word port; Word fdid])
    end.

Definition bootprio_find_pci_rom (pci : pci_device) (inst : Z) : option Z :=
  if negb CONFIG_BOOTORDER then Some (-1)
  else
    prio_of (p ← build_pci_path MAXPATH (str "*") pci;
             if truthy inst then print_at MAXPATH p ":rom%x" [Word inst] else Some p).

Definition bootprio_find_named_rom (name : list Z) (inst : Z) : option Z :=
  if negb CONFIG_BOOTORDER then Some (-1)
  else
    prio_of (p ← print_at MAXPATH [] "/rom@%s" [Text (Some name)];
             if truthy inst then print_at MAXPATH p ":rom%x" [Word inst] else Some p).

(** [pci] is [usbdev->hub->cntl->pci]. *)
Definition bootprio_find_usb (pci : pci_device) (usbdev : usbdevice_s) (lun : Z) : option Z :=
  if negb CONFIG_BOOTORDER then Some (-1)
  else
    let 'Usbdevice hub _ := usbdev in
    p ← build_pci_path MAXPATH (str "usb") pci;
    p ← build_usb_path MAXPATH p hub;
    ret ← prio_of (print_at MAXPATH p "/storage@%x/*@0/*@0,%x" [Word (usb_portmap usbdev); Word lun]);
    if 0 <=? ret then Some ret
    else prio_of (print_at MAXPATH p "/usb-*@%x" [Word (usb_portmap usbdev)]).
End Prio.

(** ** What a pattern matches *)

(** A star stands for characters up to a slash, the end, or the character that
    follows it in the pattern. *)
Inductive matches : list Z -> list Z -> list Z -> Prop :=
| matches_end s : at_end s = true -> matches [] s s
| matches_char g glob s rest : g <> chr "*" -> matches glob s rest -> matches (g :: glob) (g :: s) rest
| matches_star w glob s rest :
    Forall (fun c => c <> chr "/" /\ c <> peek glob) w -> at_end s = true \/ peek s = peek glob ->
    matches glob s rest -> matches (chr "*" :: glob) (w ++ s) rest.

Lemma glob_prefix_sound glob : forall s rest, glob_prefix glob s = Some rest -> matches glob s rest.
Proof.
  induction glob as [|g glob IH]; intros s rest.
  - destruct s; simpl; [intros [= <-]; by constructor|]. case_match eqn:He; [intros [= <-]; by constructor|done].
  - induction s as [|c s IHs]; cbn [glob_prefix].
    + destruct (Z.eqb_spec g (chr "*")) as [->|]; [|done]. intros Hm. apply (matches_star []); [constructor|by left|by apply IH].
    + destruct (Z.eqb_spec g (chr "*")) as [->|Hg].
      * destruct ((c =? chr "/") || (c =? peek glob)) eqn:Hc.
        -- intros Hm. apply (matches_star []); [constructor| |by apply IH].
           cbn. apply orb_true_iff in Hc as [Hc|Hc%Z.eqb_eq]; auto.
        -- intros Hm. apply IHs in Hm. apply orb_false_iff in Hc as [H1%Z.eqb_neq H2%Z.eqb_neq].
           inversion Hm; subst; [done|]. apply (matches_star (c :: w)); [by constructor|done|done].
      * destruct (Z.eqb_spec g c) as [->|]; [|done]. intros Hm. constructor; [done|by apply IH].
Qed.

Lemma glob_prefix_complete glob s rest : matches glob s rest -> glob_prefix glob s = Some rest.
Proof.
  induction 1 as [s He|g glob s rest Hg _ IH|w glob s rest Hw Hs _ IH].
  - destruct s; simpl in *; [done|]. by rewrite He.
  - cbn [glob_prefix]. rewrite (proj2 (Z.eqb_neq _ _) Hg). by rewrite Z.eqb_refl.
  - induction Hw as [|c w [H1 H2] _ IHw].
    + cbn [app glob_prefix]. rewrite Z.eqb_refl. destruct s as [|c s]; [done|].
      replace ((c =? chr "/") || (c =? peek glob)) with true; [done|]. symmetry. apply orb_true_iff.
      destruct Hs as [Hs|Hs]; [by left|right; by apply Z.eqb_eq].
    + cbn [app glob_prefix] in *. rewrite Z.eqb_refl in *.
      by rewrite (proj2 (Z.eqb_neq _ _) H1), (proj2 (Z.eqb_neq _ _) H2).
Qed.

(** [glob_prefix] decides the relation: it returns the rest of the string
    that the pattern does not cover, and NULL when the pattern does not match. *)
Theorem glob_prefix_correct glob s rest : glob_prefix glob s = Some rest <-> matches glob s rest.
Proof. split; [apply glob_prefix_sound|apply glob_prefix_complete]. Qed.

Lemma glob_prefix_literal l : forall glob s, ~ In (chr "*") l -> glob_prefix (l ++ glob) (l ++ s) = glob_prefix glob s.
Proof.
  induction l as [|c l IH]; intros glob s Hl; [done|]. cbn [app glob_prefix].
  rewrite (proj2 (Z.eqb_neq c (chr "*"))), Z.eqb_refl by (intros ->; apply Hl; by left). apply IH. intros Hi. apply Hl. by right.
Qed.

Definition no_match (glob path : list Z) : Prop := forall rest, ~ matches glob path rest.

Lemma glob_prefix_none glob path : glob_prefix glob path = None -> no_match glob path.
Proof. intros Hn rest Hm. apply glob_prefix_complete in Hm. congruence. Qed.

Lemma find_from_spec glob l : forall i,
  (find_from i glob l = -1 /\ Forall (no_match glob) l) \/
  exists before path after rest, l = before ++ path :: after /\ matches glob path rest /\
    Forall (no_match glob) before /\ find_from i glob l = i + Z.of_nat (length before) + 1.
Proof.
  induction l as [|path l IH]; intros i; cbn [find_from]; [by left|].
  destruct (glob_prefix glob path) as [rest|] eqn:Hg.
  - right. apply glob_prefix_sound in Hg. exists [], path, l, rest. split_and!; [done|done|done|]. simpl. lia.
  - apply glob_prefix_none in Hg. destruct (IH (i + 1)) as [[-> Hall]|(b & p & a & r & -> & Hm & Hall & ->)].
    + left. by split; [|constructor].
    + right. exists (path :: b), p, a, r. split_and!; [done|done|by constructor|]. cbn [length]. lia.
Qed.

(** The number returned is that of the first path the pattern matches, from
    1; it is -1 when the pattern matches none. *)
Theorem find_prio_first glob Bootorder :
  (find_prio glob Bootorder = -1 /\ Forall (no_match glob) Bootorder) \/
  exists before path after rest, Bootorder = before ++ path :: after /\ matches glob path rest /\
    Forall (no_match glob) before /\ find_prio glob Bootorder = Z.of_nat (length before) + 1.
Proof. apply find_from_spec. Qed.

(** ** Paths of ATA drives *)

(** A number as [%x] prints it. *)
Definition hex (v : Z) : list Z := putprettyhex v 0 (chr " ").

Definition hex_char (c : Z) : Prop := 48 <= c <= 57 \/ 97 <= c <= 102.

Lemma putsinglehex_char x : 0 <= x < 16 -> hex_char (putsinglehex x).
Proof. intros Hx. unfold hex_char, putsinglehex. change (chr "0") with 48. change (chr "a") with 97. zbool; lia. Qed.

Lemma puthex_chars v w : Forall hex_char (puthex v w).
Proof.
  unfold puthex. apply Forall_drop, Forall_map, Forall_true. intros k. apply putsinglehex_char.
  change 0xf with (Z.ones 4). rewrite Z.land_ones by done. lia.
Qed.

Lemma hex_spec v : 0 <= v < 2 ^ 32 -> Forall hex_char (hex v) /\ hex_value (hex v) = v /\ (0 < length (hex v) <= 8)%nat.
Proof.
  intros Hv. destruct (putprettyhex_spec v 0 Hv) as (k & Hk & _ & _ & Hval & Hlen).
  assert (hex v = putprettyhex v 0 (chr "0")) as ->.
  { unfold hex, putprettyhex. rewrite u32_small by done. destruct (hex_count_spec 8 v 1) as (j & -> & Hj & _); [lia|].
    by replace (Z.to_nat (0 - (1 + j))) with O by lia. }
  split_and!; [|done|lia..]. unfold putprettyhex. rewrite u32_small by done.
  destruct (hex_count_spec 8 v 1) as (j & -> & Hj & _); [lia|]. replace (Z.to_nat (0 - (1 + j))) with O by lia.
  apply puthex_chars.
Qed.

Lemma hex_inj v v' : 0 <= v < 2 ^ 32 -> 0 <= v' < 2 ^ 32 -> hex v = hex v' -> v = v'.
Proof. intros Hv Hv' He. destruct (hex_spec v Hv) as (_ & <- & _), (hex_spec v' Hv') as (_ & <- & _). by rewrite He. Qed.

(** A number in the pattern meets the same number in the path. *)
Lemma matches_hex h : forall h' glob s rest, Forall hex_char h -> Forall hex_char h' ->
  ~ hex_char (peek glob) -> peek glob <> chr "*" -> ~ hex_char (peek s) ->
  matches (h ++ glob) (h' ++ s) rest -> h = h' /\ matches glob s rest.
Proof.
  unfold hex_char. induction h as [|c h IH]; intros h' glob s rest Hh Hh' Hg Hst Hs Hm.
  - destruct h' as [|c' h']; [done|]. exfalso. inversion Hh' as [|? ? Hc']; subst.
    cbn [app] in Hm. inversion Hm as [? He| |]; subst; [|apply Hg; exact Hc'|by apply Hst].
    cbn in He. apply Z.eqb_eq in He. change (chr "/") with 47 in He. lia.
  - inversion_clear Hh as [|? ? Hc Hh2]. assert (c <> chr "*") as Hne by (change (chr "*") with 42; lia).
    destruct h' as [|c' h']; cbn [app] in Hm; inversion Hm; subst; try done.
    inversion_clear Hh' as [|? ? _ Hh2']. by destruct (IH h' glob s rest) as [-> ?].
Qed.

Lemma matches_literal l : forall glob s rest, ~ In (chr "*") l -> matches (l ++ glob) (l ++ s) rest <-> matches glob s rest.
Proof. intros. by rewrite <- !glob_prefix_correct, glob_prefix_literal. Qed.

(** The path of a drive as QEMU writes it; [name] is the controller's. *)
Definition fn_suffix (fn : Z) : list Z := if truthy fn then chr "," :: hex fn else [].
Definition ofw_ata (name : list Z) (dev fn chanid slave : Z) : list Z :=
  str "/pci@i0cf8/" ++ name ++ chr "@" :: hex dev ++ fn_suffix fn ++ str "/drive@" ++ hex chanid ++ str "/disk@" ++ hex slave.

Lemma hex_s32 v : putprettyhex (s32 v) 0 (chr " ") = hex v.
Proof. apply putprettyhex_s32. Qed.

Lemma length_str_hex v : 0 <= v < 2 ^ 32 -> (length (hex v) <= 8)%nat.
Proof. intros Hv. by apply hex_spec. Qed.

Lemma print_at_fits max p fmt args out : bvprintf (str fmt) args = Some out ->
  (length p + length out < max)%nat -> print_at max p fmt args = Some (p ++ out).
Proof. intros Ho Hl. unfold print_at. rewrite Ho. cbn [mbind option_bind]. by rewrite take_ge by lia. Qed.

Ltac path_length := repeat (rewrite ?length_app; simpl); lia.

(** The pattern the code builds. *)
Lemma build_ata_path_root bdf chanid slave :
  0 <= pci_bdf_to_dev bdf < 2 ^ 32 -> 0 <= pci_bdf_to_fn bdf < 2 ^ 32 ->
  0 <= chanid < 2 ^ 32 -> 0 <= slave < 2 ^ 32 ->
  build_ata_path 256 (PciDevice bdf 0 None) chanid slave =
  Some (ofw_ata (str "*") (pci_bdf_to_dev bdf) (pci_bdf_to_fn bdf) chanid slave).
Proof.
  intros Hd Hf Hc Hs. pose proof (length_str_hex _ Hd). pose proof (length_str_hex _ Hf).
  pose proof (length_str_hex _ Hc). pose proof (length_str_hex _ Hs).
  unfold build_ata_path. cbn [build_pci_path].
  set (dev := pci_bdf_to_dev bdf) in *. set (fn := pci_bdf_to_fn bdf) in *.
  assert (Hx : forall v, bvprintf (str ",%x") [Word v] = Some (chr "," :: hex v)).
  { intros v. rewrite <- hex_s32, <- (app_nil_r (putprettyhex _ _ _)). reflexivity. }
  assert (Hp : forall v, bvprintf (str "/%s@%x") [Text (Some (str "*")); Word v] = Some (str "/*@" ++ hex v)).
  { intros v. rewrite <- hex_s32, <- (app_nil_r (putprettyhex _ _ _)). reflexivity. }
  assert (Hdr : forall c s, bvprintf (str "/drive@%x/disk@%x") [Word c; Word s] = Some (str "/drive@" ++ hex c ++ str "/disk@" ++ hex s)).
  { intros c s. rewrite <- !hex_s32, <- (app_nil_r (putprettyhex (s32 s) _ _)). reflexivity. }
  rewrite (print_at_fits 256 [] "%s" _ (str "/pci@i0cf8")) by (reflexivity || (simpl; lia)).
  cbn [mbind option_bind app]. change (truthy 0) with false. cbv iota. cbn [mbind option_bind].
  rewrite (print_at_fits _ _ _ _ _ (Hp dev)) by path_length. cbn [mbind option_bind].
  unfold ofw_ata, fn_suffix. destruct (truthy fn).
  - rewrite (print_at_fits _ _ _ _ _ (Hx fn)) by path_length. cbn [mbind option_bind].
    rewrite (print_at_fits _ _ _ _ _ (Hdr chanid slave)) by path_length.
    rewrite <- !app_assoc. reflexivity.
  - cbn [mbind option_bind].
    rewrite (print_at_fits _ _ _ _ _ (Hdr chanid slave)) by path_length.
    rewrite <- !app_assoc. reflexivity.
Qed.

(** The pattern matches. *)
Definition covers (glob s : list Z) : Prop := exists rest, glob_prefix glob s = Some rest.

Lemma covers_literal l glob s : ~ In (chr "*") l -> covers (l ++ glob) (l ++ s) <-> covers glob s.
Proof. intros Hl. unfold covers. by rewrite glob_prefix_literal. Qed.

Lemma covers_char c glob s : c <> chr "*" -> covers (c :: glob) (c :: s) <-> covers glob s.
Proof. intros Hc. apply (covers_literal [c]). intros [|[]]; congruence. Qed.

Lemma covers_star stop name glob s : stop <> chr "*" -> Forall (fun c => c <> chr "/" /\ c <> stop) name ->
  covers (chr "*" :: stop :: glob) (name ++ stop :: s) <-> covers glob s.
Proof.
  intros Hs Hn. rewrite <- (covers_char stop glob s) by done. unfold covers.
  replace (glob_prefix (chr "*" :: stop :: glob) (name ++ stop :: s)) with (glob_prefix (stop :: glob) (stop :: s)); [done|].
  induction Hn as [|c name [H1 H2] _ IH].
  - cbn [app glob_prefix peek hd]. rewrite !Z.eqb_refl, orb_true_r. done.
  - rewrite IH. cbn [app glob_prefix peek hd]. rewrite (Z.eqb_refl (chr "*")), (proj2 (Z.eqb_neq _ _) H1), (proj2 (Z.eqb_neq _ _) H2).
    done.
Qed.

(** After a number comes something that cannot be part of it. *)
Definition stops (s : list Z) : Prop := ~ hex_char (peek s) /\ peek s <> chr "*".

Lemma covers_hex a b glob s : 0 <= a < 2 ^ 32 -> 0 <= b < 2 ^ 32 -> stops glob -> stops s ->
  covers (hex a ++ glob) (hex b ++ s) <-> a = b /\ covers glob s.
Proof.
  intros Ha Hb [Hg1 Hg2] [Hs1 _]. destruct (hex_spec a Ha) as (Hca & _), (hex_spec b Hb) as (Hcb & _). split.
  - intros [rest Hm%glob_prefix_correct]. apply matches_hex in Hm as [He Hm]; [|done..].
    split; [by apply hex_inj|]. exists rest. by apply glob_prefix_correct.
  - intros [<- Hc]. apply covers_literal; [|done]. intros Hi. eapply List.Forall_forall in Hi; [|exact Hca].
    unfold hex_char in Hi. change (chr "*") with 42 in Hi. lia.
Qed.

Lemma stops_slash s : stops (chr "/" :: s).
Proof. split; [unfold hex_char; cbn|done]. change (chr "/") with 47. lia. Qed.
Lemma stops_comma s : stops (chr "," :: s).
Proof. split; [unfold hex_char; cbn|done]. change (chr ",") with 44. lia. Qed.
Lemma stops_nil : stops [].
Proof. split; [unfold hex_char; cbn; lia|done]. Qed.

Lemma stops_suffix fn s : stops s -> stops (fn_suffix fn ++ s).
Proof. intros Hs. unfold fn_suffix. destruct (truthy fn); [apply stops_comma|done]. Qed.

Lemma covers_suffix a b glob s : 0 <= a < 2 ^ 32 -> 0 <= b < 2 ^ 32 ->
  covers (fn_suffix a ++ chr "/" :: glob) (fn_suffix b ++ chr "/" :: s) <-> a = b /\ covers glob s.
Proof.
  intros Ha Hb. rewrite <- (covers_char (chr "/") glob s) by done. unfold fn_suffix, truthy.
  destruct (Z.eqb_spec a 0) as [->|Hza], (Z.eqb_spec b 0) as [->|Hzb]; cbn [negb app].
  - split; [done|by intros [_ ?]].
  - split; [by intros []|intros [<- _]; done].
  - split; [by intros []|intros [-> _]; done].
  - rewrite covers_char by done. apply covers_hex; auto using stops_slash.
Qed.

(** An ATA drive is found under its own path and no other.  The pattern the
    code builds for a drive matches the path of a drive, whatever the name of its
    controller, exactly when device, function, channel and drive are the same. *)
Theorem ata_path_identifies bdf chanid slave name dev fn chanid' slave' :
  0 <= bdf < 2 ^ 16 -> 0 <= chanid < 2 ^ 32 -> 0 <= slave < 2 ^ 32 ->
  0 <= dev < 2 ^ 32 -> 0 <= fn < 2 ^ 32 -> 0 <= chanid' < 2 ^ 32 -> 0 <= slave' < 2 ^ 32 ->
  Forall (fun c => c <> chr "/" /\ c <> chr "@") name ->
  exists glob, build_ata_path 256 (PciDevice bdf 0 None) chanid slave = Some glob /\
    (covers glob (ofw_ata name dev fn chanid' slave') <->
     pci_bdf_to_dev bdf = dev /\ pci_bdf_to_fn bdf = fn /\ chanid = chanid' /\ slave = slave').
Proof.
  intros Hb Hc Hs Hd Hf Hc' Hs' Hn.
  assert (Hd0 : 0 <= pci_bdf_to_dev bdf < 2 ^ 32) by (unfold pci_bdf_to_dev; change 0x1f with (Z.ones 5); rewrite Z.land_ones; lia).
  assert (Hf0 : 0 <= pci_bdf_to_fn bdf < 2 ^ 32) by (unfold pci_bdf_to_fn; change 0x07 with (Z.ones 3); rewrite Z.land_ones; lia).
  eexists. split; [by apply build_ata_path_root|]. unfold ofw_ata.
  rewrite covers_literal by (vm_compute; intuition discriminate).
  change (str "*" ++ ?x) with (chr "*" :: x). rewrite covers_star by done.
  rewrite covers_hex by (done || apply stops_suffix, stops_slash).
  change (str "/drive@" ++ ?x) with (chr "/" :: str "drive@" ++ x). rewrite covers_suffix by done.
  rewrite covers_literal by (vm_compute; intuition discriminate).
  change (str "/disk@" ++ ?x) with (chr "/" :: str "disk@" ++ x).
  rewrite covers_hex by (done || apply stops_slash).
  rewrite covers_char by done. rewrite covers_literal by (vm_compute; intuition discriminate).
  rewrite <- (app_nil_r (hex slave)), <- (app_nil_r (hex slave')), covers_hex by (done || apply stops_nil).
  assert (covers [] []) by by eexists. tauto.
Qed.

Example bootprio_ata :
  bootprio_find_ata_device true [str "/pci@i0cf8/ethernet@3/ethernet-phy@0"; str "/pci@i0cf8/ide@1,1/drive@0/disk@1"]
    (Some (PciDevice 9 0 None)) 0 1 = Some 2.
Proof. vm_compute. reflexivity. Qed.

Lemma ata_path_identifies_witness :
  exists glob, build_ata_path 256 (PciDevice 9 0 None) 0 1 = Some glob /\
    (covers glob (ofw_ata (str "ide") 1 1 0 1) <->
     pci_bdf_to_dev 9 = 1 /\ pci_bdf_to_fn 9 = 1 /\ 0 = 0 /\ 1 = 1).
Proof.
  apply (ata_path_identifies 9 0 1 (str "ide") 1 1 0 1); try lia.
  repeat constructor; vm_compute; discriminate.
Defined.

Lemma take_min_len {A} (n : nat) (l : list A) : take (n `min` length l) l = take n l.
Proof.
  destruct (Nat.le_gt_cases n (length l)); [by rewrite Nat.min_l by done|]. rewrite Nat.min_r by lia. by rewrite !take_ge by lia.
Qed.

(** [print_at] is [snprintf] into the rest of the buffer: the string in it grows
    by what [print_at] adds. *)
Lemma print_at_snprintf max p fmt args buf m p' :
  print_at max p fmt args = Some p' -> (length p < max)%nat -> Forall is_byte p' -> read_bytes (length p) buf m = p ->
  exists n m', snprintf (buf + Z.of_nat (length p)) (Z.of_nat (max - length p)) (str fmt) args m = Some (n, m') /\
    Z.of_nat (length p') = Z.of_nat (length p) + n /\ read_bytes (length p') buf m' = p' /\
    read8 m' (buf + Z.of_nat (length p')) = 0.
Proof.
  unfold print_at. destruct (bvprintf (str fmt) args) as [out|] eqn:Ho; [|done]. cbn [mbind option_bind]. intros [= <-] Hl Hb Hr.
  destruct (snprintf_correct (buf + Z.of_nat (length p)) (Z.of_nat (max - length p)) _ args m out ltac:(lia) Ho)
    as (m' & Heq & Hin & Hz & Hfr).
  set (len := Z.min _ _) in *.
  assert (length (take (max - length p - 1) out) = Z.to_nat len) as Hlen by (rewrite length_take; lia).
  assert (take (Z.to_nat len) out = take (max - length p - 1) out) as Ht by (rewrite <- Hlen, length_take; apply take_min_len).
  exists len, m'. rewrite length_app, Hlen. split_and!; [done|lia| |rewrite <- Hz; f_equal; lia].
  apply Forall_app in Hb as [_ Hb]. rewrite read_bytes_app, Hin, Ht. f_equal.
  - rewrite <- Hr at 2. apply read_bytes_ext. intros b Hb'. apply Hfr. lia.
  - clear - Hb. induction Hb as [|c l Hc _ IH]; [done|]. cbn [map]. by rewrite u8_small, IH.
Qed.
