(* ===== verification/BootOrder.v ===== *)
(** * The boot order and disk geometry files: src/boot.c

    QEMU gives both as text files, one device to a line.  The code cuts a file
    into strings in place: it ends lines with NULs and keeps pointers to them. *)
From Stdlib Require Import Ascii String.
From S2P Require Import Prelude E820 Hlist Machine StringOps Bytes Malloc MallocCorrect Pci FwCfg Romfile Output OutputCorrect BootPath.
Local Open Scope seabios_scope.

Definition NEWLINE := 10.

(** struct BootDeviceLCHS; the name is an address. *)
Record BootDeviceLCHS := Lchs { lname : Z; lcyls : Z; lheads : Z; lsecs : Z }.

(** [parse_u32]: the pointer after the number and the number.  NULL is 0. *)
Fixpoint parse_digits (fuel : nat) (cur m : Z) (mem : memory) : option (Z * Z) :=
  let c := s8 (read8 mem cur) in
  if (chr "0" <=? c) && (c <=? chr "9") then
    match fuel with
    | O => None
    | Datatypes.S f => parse_digits f (cur + 1) (u32 (10 * m + (c - chr "0"))) mem
    end
  else Some (cur, m).
Definition parse_u32 (fuel : nat) (cur : Z) (mem : memory) : option (Z * Z) :=
  if cur =? 0 then Some (cur, 0)
  else
    '(cur, m) ← parse_digits fuel cur 0 mem;
    Some (if read8 mem cur =? 0 then cur else cur + 1, m).

(** The first loop: the number of lines. *)
Fixpoint count_lines (fuel : nat) (f count : Z) (m : memory) : option Z :=
  if read8 m f =? 0 then Some count
  else
    match fuel with
    | O => None
    | Datatypes.S fl => count_lines fl (f + 1) (if read8 m f =? NEWLINE then count + 1 else count) m
    end.

Section BootOrder.
Context {S : Type} `{Hlist S} `{Layout}.
Context {W : Type} `{Env W} `{Ports W} `{DmaPort W}.
Context (preempted : bool) (qemu_cfg_dma_enabled : bool) (access : Z) (fuel : nat).
Context (limit : nat).         (* no string is longer *)

Abbreviation R A := (ST (rstate (S := S) (W := W)) A).

Definition lift {A} (o : option A) : R A := fun s => x ← o; Some (x, s).

(** [f = strchr (f, c); if (f) *(f++) = 0]: the pointer after the character, or
    NULL. *)
Definition cut (f c : Z) : R Z :=
  m <- get_mem ;;
  nl <- lift (strchr limit f c m) ;;
  if nl =? 0 then ret 0 else do change_mem (write8 nl 0) ;; ret (nl + 1).

(** The second loop of [loadBootOrder]; [n] slots of the array are left. *)
Fixpoint order_loop (n : nat) (f : Z) : R (list Z) :=
  match n with
  | O => fun _ => None
  | Datatypes.S n' =>
    f' <- cut f NEWLINE ;;
    m <- get_mem ;;
    trimmed <- lift (nullTrailingSpace limit f m) ;;
    let '(line, m') := trimmed in
    do change_mem (fun _ => m') ;;
    if f' =? 0 then ret [line]
    else rest <- order_loop n' f' ;; ret (line :: rest)
  end.

Definition loadBootOrder (CONFIG_BOOTORDER : bool) : R (list Z) :=
  if negb CONFIG_BOOTORDER then ret []
  else
    loaded <- romfile_loadfile preempted qemu_cfg_dma_enabled access fuel (str "bootorder") ;;
    let f := fst loaded in
    if f =? 0 then ret []
    else
      m <- get_mem ;;
      BootorderCount <- lift (count_lines limit f 1 m) ;;
      array <- alloc (malloc_tmphigh preempted (u32 (BootorderCount * 4))) ;;
      if array =? 0 then do upd_ms (free f) ;; ret []
      else order_loop (Z.to_nat BootorderCount) f.

Definition parse_line (f : Z) : R BootDeviceLCHS :=
  chs_values <- cut f (chr " ") ;;
  m <- get_mem ;;
  cyls <- lift (parse_u32 limit chs_values m) ;;
  heads <- lift (parse_u32 limit (fst cyls) m) ;;
  secs <- lift (parse_u32 limit (fst heads) m) ;;
  ret (Lchs f (snd cyls) (snd heads) (snd secs)).

Fixpoint geometry_loop (n : nat) (f : Z) : R (list BootDeviceLCHS) :=
  match n with
  | O => fun _ => None
  | Datatypes.S n' =>
    f' <- cut f NEWLINE ;;
    d <- parse_line f ;;
    if f' =? 0 then ret [d]
    else rest <- geometry_loop n' f' ;; ret (d :: rest)
  end.

Definition sizeof_BootDeviceLCHS := 16.
Definition loadBiosGeometry (CONFIG_HOST_BIOS_GEOMETRY : bool) : R (list BootDeviceLCHS) :=
  if negb CONFIG_HOST_BIOS_GEOMETRY then ret []
  else
    loaded <- romfile_loadfile preempted qemu_cfg_dma_enabled access fuel (str "bios-geometry") ;;
    let f := fst loaded in
    if f =? 0 then ret []
    else
      m <- get_mem ;;
      BiosGeometryCount <- lift (count_lines limit f 1 m) ;;
      array <- alloc (malloc_tmphigh preempted (u32 (BiosGeometryCount * sizeof_BootDeviceLCHS))) ;;
      if array =? 0 then do upd_ms (free f) ;; ret []
      else geometry_loop (Z.to_nat BiosGeometryCount) f.

(** The strings the pointers lead to. *)
Definition strings (l : list Z) (m : memory) : list (list Z) := (fun p => cstr limit p m) <$> l.

Definition boot_lchs_find (glob : list Z) (BiosGeometry : list BootDeviceLCHS) (m : memory) : option BootDeviceLCHS :=
  List.find (fun d => if glob_prefix glob (cstr limit (lname d) m) is Some _ then true else false) BiosGeometry.

(** The result and what is stored in the caller's struct chs_s: cylinder, head,
    sector. *)
Definition lchs_of (CONFIG_HOST_BIOS_GEOMETRY : bool) (desc : option (list Z)) (BiosGeometry : list BootDeviceLCHS)
  (m : memory) : option (option (Z * Z * Z)) :=
  if negb CONFIG_HOST_BIOS_GEOMETRY then Some None
  else
    glob ← desc;
    Some ((fun b => (u16 (lcyls b), u16 (lheads b), u16 (lsecs b))) <$> boot_lchs_find glob BiosGeometry m).
Definition boot_lchs_find_pci_device cfg (pci : pci_device) :=
  lchs_of cfg (build_pci_path MAXPATH (str "*") pci).
Definition boot_lchs_find_scsi_device cfg (pci : option pci_device) (target lun : Z) :=
  match pci with
  | None => fun _ _ => Some None
  | Some pci => lchs_of cfg (build_scsi_path MAXPATH pci target lun)
  end.
Definition boot_lchs_find_ata_device cfg (pci : option pci_device) (chanid slave : Z) :=
  match pci with
  | None => fun _ _ => Some None
  | Some pci => lchs_of cfg (build_ata_path MAXPATH pci chanid slave)
  end.
End BootOrder.

(** ** Strings in memory *)

(** The string [l] is at [a]. *)
Fixpoint str_at (a : Z) (l : list Z) (m : memory) : Prop :=
  match l with
  | [] => read8 m a = 0
  | c :: l' => read8 m a = c /\ c <> 0 /\ str_at (a + 1) l' m
  end.

Lemma str_at_ext l : forall a m m', str_at a l m ->
  (forall b, a <= b <= a + Z.of_nat (length l) -> read8 m' b = read8 m b) -> str_at a l m'.
Proof.
  induction l as [|c l IH]; intros a m m' Hs Hm; cbn [str_at length] in *; [rewrite Hm by lia; done|].
  destruct Hs as (Hc & Hnz & Hs). split_and!; [by rewrite Hm by lia|done|]. eapply IH; [exact Hs|].
  intros b Hb. apply Hm. lia.
Qed.

Lemma str_at_app l1 : forall a l2 m, str_at a (l1 ++ l2) m <->
  (forall i, (i < length l1)%nat -> read8 m (a + Z.of_nat i) = nth i l1 0 /\ nth i l1 0 <> 0) /\
  str_at (a + Z.of_nat (length l1)) l2 m.
Proof.
  induction l1 as [|c l1 IH]; intros a l2 m; cbn [app str_at length].
  - rewrite Z.add_0_r. split; [intros Hs; split; [intros i Hi; lia|done]|by intros [_ ?]].
  - rewrite IH. replace (a + 1 + Z.of_nat (length l1)) with (a + Z.of_nat (Datatypes.S (length l1))) by lia. split.
    + intros (Hc & Hnz & Hall & Hs). split; [|done]. intros [|i] Hi; cbn [nth]; [by rewrite Z.add_0_r|].
      replace (a + Z.of_nat (Datatypes.S i)) with (a + 1 + Z.of_nat i) by lia. apply Hall. lia.
    + intros [Hall Hs]. destruct (Hall O ltac:(lia)) as [Hc Hnz]. rewrite Z.add_0_r in Hc. split_and!; [done|done| |done].
      intros i Hi. replace (a + 1 + Z.of_nat i) with (a + Z.of_nat (Datatypes.S i)) by lia. apply (Hall (Datatypes.S i)). lia.
Qed.

Lemma cstr_str_at limit : forall l a m, str_at a l m -> (length l <= limit)%nat -> cstr limit a m = l.
Proof.
  induction limit as [|n IH]; intros [|c l] a m Hs Hl; cbn [cstr str_at length] in *; try done; try lia.
  - by rewrite Hs.
  - destruct Hs as (Hc & Hnz & Hs). rewrite Hc, (proj2 (Z.eqb_neq c 0)) by done. f_equal. apply IH; [done|lia].
Qed.

(** The outcome of [strchr] on a string. *)
Lemma strchr_str_at fuel : forall l a c m, str_at a l m -> (length l <= fuel)%nat ->
  strchr fuel a c m = Some 0 /\ Forall (fun x => s8 x <> c) l \/
  exists l1 x l2, l = l1 ++ x :: l2 /\ s8 x = c /\ Forall (fun x => s8 x <> c) l1 /\
    strchr fuel a c m = Some (a + Z.of_nat (length l1)).
Proof.
  induction fuel as [|n IH]; intros [|x l] a c m Hs Hl; cbn [strchr str_at length] in *; try lia.
  - left. by rewrite Hs.
  - left. by rewrite Hs.
  - destruct Hs as (Hx & Hnz & Hs). rewrite Hx, (proj2 (Z.eqb_neq x 0)) by done.
    destruct (Z.eqb_spec (s8 x) c) as [Hc|Hc].
    + right. exists [], x, l. split_and!; [done|done|done|]. simpl. f_equal. lia.
    + destruct (IH l (a + 1) c m Hs ltac:(lia)) as [[-> Hall]|(l1 & y & l2 & -> & Hy & Hall & ->)].
      * left. by split; [|constructor].
      * right. exists (x :: l1), y, l2. split_and!; [done|done|by constructor|]. cbn [length]. f_equal. lia.
Qed.

(** ** Trimming *)

Definition blank (c : Z) : bool := s8 c <=? 32.
Fixpoint skip_blanks (l : list Z) : list Z :=
  match l with c :: l' => if blank c then skip_blanks l' else l | [] => [] end.
Definition strip_end (l : list Z) : list Z := rev (skip_blanks (rev l)).
(** A line without the blanks around it. *)
Definition trim (l : list Z) : list Z := skip_blanks (strip_end l).

Lemma strip_end_snoc l c : strip_end (l ++ [c]) = if blank c then strip_end l else l ++ [c].
Proof. unfold strip_end. rewrite rev_app_distr. simpl. destruct (blank c); [done|]. simpl. by rewrite rev_involutive. Qed.

Lemma strlen_str_at fuel : forall l s a m, str_at a l m -> (length l <= fuel)%nat ->
  strlen_loop fuel s a m = Some (a + Z.of_nat (length l) - s).
Proof.
  induction fuel as [|n IH]; intros [|x l] s a m Hs Hl; cbn [strlen_loop str_at length] in *; try lia.
  - rewrite Hs. simpl. f_equal. lia.
  - rewrite Hs. simpl. f_equal. lia.
  - destruct Hs as (Hx & Hnz & Hs). rewrite Hx, (proj2 (Z.eqb_neq x 0)) by done. rewrite (IH l) by (done || lia). f_equal. lia.
Qed.

Lemma null_trailing_spec l : forall a m, str_at a l m ->
  str_at a (strip_end l) (null_trailing (length l) a m) /\
  forall b, b < a \/ a + Z.of_nat (length l) <= b -> read8 (null_trailing (length l) a m) b = read8 m b.
Proof.
  induction l as [|c l IH] using rev_ind; intros a m Hs; [by split|].
  rewrite length_app. replace (length l + length [c])%nat with (Datatypes.S (length l)) by (simpl; lia). cbn [null_trailing].
  pose proof Hs as [Hl Hc]%str_at_app. cbn [str_at] in Hc. destruct Hc as (Hc & Hnz & Hz).
  rewrite Hc, strip_end_snoc. unfold blank at 1. destruct (Z.leb_spec (s8 c) 32); [|by split].
  destruct (IH a (write8 (a + Z.of_nat (length l)) 0 m)) as [Hs' Hfr].
  { rewrite <- (app_nil_r l) at 1. apply str_at_app. split; [|apply read8_write8_eq]. intros i Hi.
    rewrite read8_write8_ne by lia. by apply Hl. }
  split; [done|]. intros b Hb. rewrite Hfr by lia. apply read8_write8_ne. lia.
Qed.

Lemma skip_leading_spec fuel : forall l a m, str_at a l m -> (length l <= fuel)%nat ->
  exists k, skip_leading fuel a m = Some (a + k) /\ 0 <= k /\ k + Z.of_nat (length (skip_blanks l)) = Z.of_nat (length l) /\
    str_at (a + k) (skip_blanks l) m.
Proof.
  induction fuel as [|n IH]; intros [|c l] a m Hs Hl; cbn [skip_leading str_at length skip_blanks] in *; try lia.
  - exists 0. rewrite Hs, Z.add_0_r. simpl. by split_and!.
  - exists 0. rewrite Hs, Z.add_0_r. simpl. by split_and!.
  - pose proof Hs as (Hc & Hnz & Hs'). rewrite Hc, (proj2 (Z.eqb_neq c 0)) by done. unfold blank.
    destruct (Z.leb_spec (s8 c) 32); cbn [negb andb].
    + destruct (IH l (a + 1) m Hs' ltac:(lia)) as (k & -> & Hk & Hlen & Hat). exists (k + 1).
      split_and!; [f_equal; lia|lia|lia|]. by replace (a + (k + 1)) with (a + 1 + k) by lia.
    + exists 0. rewrite Z.add_0_r. split_and!; [done|lia|cbn [length]; lia|]. cbn [str_at]. tauto.
Qed.

Lemma strip_end_length l : (length (strip_end l) <= length l)%nat.
Proof.
  induction l as [|c l IH] using rev_ind; [done|]. rewrite strip_end_snoc, length_app. destruct (blank c); [lia|].
  by rewrite length_app.
Qed.

Lemma nullTrailingSpace_spec fuel l a m : str_at a l m -> (length l <= fuel)%nat ->
  exists k m', nullTrailingSpace fuel a m = Some (a + k, m') /\ 0 <= k /\
    k + Z.of_nat (length (trim l)) <= Z.of_nat (length l) /\ str_at (a + k) (trim l) m' /\
    forall b, b < a \/ a + Z.of_nat (length l) <= b -> read8 m' b = read8 m b.
Proof.
  intros Hs Hl. unfold nullTrailingSpace, strlen. rewrite (strlen_str_at fuel l a a m Hs Hl).
  replace (Z.to_nat (a + Z.of_nat (length l) - a)) with (length l) by lia. cbv zeta.
  destruct (null_trailing_spec l a m Hs) as [Hs' Hfr]. pose proof (strip_end_length l).
  destruct (skip_leading_spec fuel (strip_end l) a _ Hs' ltac:(lia)) as (k & -> & Hk & Hlen & Hat).
  exists k. eexists. split; [done|]. split_and!; [done| |done|done]. unfold trim. lia.
Qed.

(** ** Lines *)

Fixpoint lines (l : list Z) : list (list Z) :=
  match l with
  | [] => [[]]
  | c :: l' =>
    if c =? NEWLINE then [] :: lines l'
    else match lines l' with x :: r => (c :: x) :: r | [] => [[c]] end
  end.

Lemma lines_last l : Forall (fun x => x <> NEWLINE) l -> lines l = [l].
Proof. induction 1 as [|c l Hc _ IH]; simpl; [done|]. by rewrite (proj2 (Z.eqb_neq _ _) Hc), IH. Qed.
Lemma lines_cut l1 l2 : Forall (fun x => x <> NEWLINE) l1 -> lines (l1 ++ NEWLINE :: l2) = l1 :: lines l2.
Proof. induction 1 as [|c l1 Hc _ IH]; simpl; [done|]. by rewrite (proj2 (Z.eqb_neq _ _) Hc), IH. Qed.

Lemma lines_nonempty l : lines l <> [].
Proof. destruct l as [|c l]; simpl; [done|]. by repeat case_match. Qed.

Lemma length_lines c l : length (lines (c :: l)) = ((if (c =? NEWLINE)%Z then 1 else 0) + length (lines l))%nat.
Proof.
  cbn [lines]. pose proof (lines_nonempty l). destruct (c =? NEWLINE); [done|]. by destruct (lines l).
Qed.

Lemma count_lines_spec fuel : forall l f count m, str_at f l m -> (length l <= fuel)%nat ->
  count_lines fuel f count m = Some (count + Z.of_nat (length (lines l)) - 1).
Proof.
  induction fuel as [|n IH]; intros [|c l] f count m Hs Hl; cbn [count_lines str_at length] in *; try lia.
  - rewrite Hs. simpl. f_equal. lia.
  - rewrite Hs. simpl. f_equal. lia.
  - destruct Hs as (Hc & Hnz & Hs). rewrite Hc, (proj2 (Z.eqb_neq c 0)) by done. rewrite (IH l) by (done || lia).
    rewrite length_lines. destruct (c =? NEWLINE); f_equal; lia.
Qed.

Lemma s8_newline x : is_byte x -> s8 x = NEWLINE <-> x = NEWLINE.
Proof. unfold is_byte, s8, NEWLINE. intros Hx. rewrite u8_small by done. zbool. Qed.

Section Lines.
Context {S : Type} `{Hlist S} `{Layout}.
Context {W : Type} `{Env W} `{Ports W} `{DmaPort W}.
Context (preempted : bool) (dma : bool) (access : Z) (fuel limit : nat).

Abbreviation rst := (rstate (S := S) (W := W)).

(** Only memory changes, and only inside an area. *)
Definition rewritten (a len : Z) (s s' : rst) : Prop :=
  (exists m, s' = RState (with_mem (fun _ => m) (rs_ms s)) (rs_dev s) (RomfileRoot s) (romfile_pointer_list s)) /\
  forall b, b < a \/ a + len <= b -> read8 (rs_mem s') b = read8 (rs_mem s) b.

Lemma rewritten_trans a len a1 len1 a2 len2 s s1 s2 :
  rewritten a1 len1 s s1 -> rewritten a2 len2 s1 s2 -> a <= a1 -> a1 + len1 <= a + len -> a <= a2 -> a2 + len2 <= a + len ->
  rewritten a len s s2.
Proof.
  intros [[m ->] F1] [[m' ->] F2] ? ? ? ?. split; [by exists m'|]. intros b Hb. rewrite F2, F1 by lia. done.
Qed.

Lemma change_mem_rewritten f a len (s : rst) :
  (forall b, b < a \/ a + len <= b -> read8 (f (rs_mem s)) b = read8 (rs_mem s) b) ->
  exists s', change_mem f s = Some (tt, s') /\ rewritten a len s s' /\ rs_mem s' = f (rs_mem s).
Proof. intros Hf. eexists. split; [done|]. split; [|done]. split; [by eexists|done]. Qed.

Lemma bind_lift {A B} (o : option A) (k : A -> ST rst B) x (s : rst) : o = Some x -> bind (lift o) k s = k x s.
Proof. by intros ->. Qed.

(** Cutting a string at its first newline. *)
Lemma cut_spec f l (s : rst) : str_at f l (rs_mem s) -> Forall is_byte l -> (length l <= limit)%nat -> 0 < f ->
  (cut limit f NEWLINE s = Some (0, s) /\ lines l = [l]) \/
  exists l1 l2 s1, lines l = l1 :: lines l2 /\ Z.of_nat (length l) = Z.of_nat (length l1) + 1 + Z.of_nat (length l2) /\
    Forall is_byte l2 /\ cut limit f NEWLINE s = Some (f + Z.of_nat (length l1) + 1, s1) /\
    rewritten f (Z.of_nat (length l)) s s1 /\ str_at f l1 (rs_mem s1) /\
    str_at (f + Z.of_nat (length l1) + 1) l2 (rs_mem s1).
Proof.
  intros Hs Hb Hl Hf. unfold cut. erewrite bind_some by reflexivity. cbv beta.
  destruct (strchr_str_at limit l f NEWLINE _ Hs Hl) as [[Hc Hall]|(l1 & x & l2 & -> & Hx & Hall & Hc)].
  - left. rewrite (bind_lift _ _ _ _ Hc). simpl. split; [done|]. apply lines_last.
    apply Forall_forall. intros x Hx. eapply Forall_forall in Hall, Hb; [|exact Hx..]. by rewrite <- s8_newline.
  - right. apply Forall_app in Hb as [Hb1 Hb2]. inversion_clear Hb2 as [|? ? Hbx Hb2'].
    apply (proj1 (s8_newline _ Hbx)) in Hx. subst x.
    apply str_at_app in Hs as [Hs1 Hs2]. cbn [str_at] in Hs2. destruct Hs2 as (_ & _ & Hs2).
    destruct (change_mem_rewritten (write8 (f + Z.of_nat (length l1)) 0) f (Z.of_nat (length (l1 ++ NEWLINE :: l2))) s) as (s1 & Hs1' & Hrw & Hm1).
    { intros b Hb. apply read8_write8_ne. rewrite length_app in Hb. simpl in Hb. lia. }
    exists l1, l2, s1. rewrite length_app. cbn [length]. split_and!; try done; [|lia| |by rewrite length_app in Hrw| |].
    + apply lines_cut. apply Forall_forall. intros y Hy. eapply Forall_forall in Hall, Hb1; [|exact Hy..]. by rewrite <- s8_newline.
    + rewrite (bind_lift _ _ _ _ Hc), (proj2 (Z.eqb_neq _ _)) by lia. by rewrite (bind_some _ _ _ _ _ Hs1').
    + rewrite <- (app_nil_r l1) at 1. rewrite Hm1. apply str_at_app. split.
      * intros i Hi. rewrite read8_write8_ne by lia. by apply Hs1.
      * apply read8_write8_eq.
    + rewrite Hm1. eapply str_at_ext; [exact Hs2|]. intros b Hb. apply read8_write8_ne. lia.
Qed.
Lemma order_loop_spec n : forall f l (s : rst),
  str_at f l (rs_mem s) -> Forall is_byte l -> (length l <= limit)%nat -> 0 < f -> n = length (lines l) ->
  exists ptrs s', order_loop limit n f s = Some (ptrs, s') /\ rewritten f (Z.of_nat (length l)) s s' /\
    Forall2 (fun p line => str_at p (trim line) (rs_mem s') /\ (length (trim line) <= length l)%nat) ptrs (lines l).
Proof.
  induction n as [|n IH]; intros f l s Hs Hb Hl Hf Hn.
  { pose proof (lines_nonempty l). by destruct (lines l). }
  cbn [order_loop].
  destruct (cut_spec f l s Hs Hb Hl Hf) as [[Hc Hli]|(l1 & l2 & s1 & Hli & Hlen & Hb2 & Hc & Hrw1 & Hs1 & Hs2)];
    rewrite (bind_some _ _ _ _ _ Hc); erewrite bind_some by reflexivity; cbv beta.
  - destruct (nullTrailingSpace_spec limit l f _ Hs Hl) as (k & m' & Heq & Hk & Hkl & Hat & Hfr).
    rewrite (bind_lift _ _ _ _ Heq).
    destruct (change_mem_rewritten (fun _ => m') f (Z.of_nat (length l)) s Hfr) as (s' & Hs' & Hrw & Hm').
    rewrite (bind_some _ _ _ _ _ Hs'). exists [f + k], s'. split_and!; [done|done|]. rewrite Hli.
    constructor; [|done]. rewrite Hm'. split; [done|lia].
  - destruct (nullTrailingSpace_spec limit l1 f _ Hs1 ltac:(lia)) as (k & m' & Heq & Hk & Hkl & Hat & Hfr).
    rewrite (bind_lift _ _ _ _ Heq).
    destruct (change_mem_rewritten (fun _ => m') f (Z.of_nat (length l1)) s1 Hfr) as (s2 & Hs2' & Hrw2 & Hm2).
    rewrite (bind_some _ _ _ _ _ Hs2'), (proj2 (Z.eqb_neq _ _)) by lia.
    destruct (IH (f + Z.of_nat (length l1) + 1) l2 s2) as (ptrs & s' & Hrun & Hrw3 & Hall).
    { eapply str_at_ext; [exact Hs2|]. intros b Hb'. rewrite Hm2. apply Hfr. lia. }
    { done. } { lia. } { lia. } { rewrite Hli in Hn. by injection Hn. }
    rewrite (bind_some _ _ _ _ _ Hrun). exists (f + k :: ptrs), s'. split_and!; [done| |].
    + assert (rewritten f (Z.of_nat (length l)) s1 s') by (eapply rewritten_trans; [exact Hrw2|exact Hrw3|lia..]).
      eapply rewritten_trans; [exact Hrw1|done|lia..].
    + rewrite Hli. constructor.
      * split; [|lia]. eapply str_at_ext; [exact Hat|]. intros b Hb'. rewrite <- Hm2. apply Hrw3. lia.
      * eapply Forall2_impl; [exact Hall|]. simpl. intros p line [? ?]. split; [done|lia].
Qed.
End Lines.

(** The boot order is the file's lines.  When the file was loaded and there
    is memory for the array, [loadBootOrder] ends, never writes past the array it
    allocated, changes only the bytes of the file, and its pointers lead to the
    lines of the file without the blanks around them, in order. *)
Theorem loadBootOrder_correct {S} `{Hlist S} `{Layout} {W} `{Env W} `{Ports W} `{DmaPort W}
    preempted dma access fuel limit (s s1 s2 : rstate (S := S) (W := W)) f sz content array :
  romfile_loadfile preempted dma access fuel (str "bootorder") s = Some ((f, sz), s1) ->
  0 < f -> str_at f content (rs_mem s1) -> Forall is_byte content -> (length content <= limit)%nat ->
  alloc (malloc_tmphigh preempted (u32 (Z.of_nat (length (lines content)) * 4))) s1 = Some (array, s2) ->
  array <> 0 -> rs_mem s2 = rs_mem s1 ->
  exists Bootorder s', loadBootOrder preempted dma access fuel limit true s = Some (Bootorder, s') /\
    strings limit Bootorder (rs_mem s') = trim <$> lines content /\
    forall b, b < f \/ f + Z.of_nat (length content) <= b -> read8 (rs_mem s') b = read8 (rs_mem s1) b.
Proof.
  intros Hload Hf Hs Hb Hl Halloc Ha Hm2. unfold loadBootOrder. cbn [negb]. rewrite (bind_some _ _ _ _ _ Hload). cbn [fst].
  rewrite (proj2 (Z.eqb_neq f 0)) by lia. erewrite bind_some by reflexivity. cbv beta.
  rewrite (bind_lift _ _ _ _ (count_lines_spec limit content f 1 _ Hs Hl)).
  replace (1 + Z.of_nat (length (lines content)) - 1) with (Z.of_nat (length (lines content))) by lia.
  rewrite (bind_some _ _ _ _ _ Halloc), (proj2 (Z.eqb_neq array 0)), Nat2Z.id by done.
  destruct (order_loop_spec limit (length (lines content)) f content s2) as (ptrs & s' & Hrun & Hrw & Hall); [by rewrite Hm2|done..|].
  exists ptrs, s'. split_and!; [done| |intros b Hb'; rewrite <- Hm2; by apply Hrw].
  unfold strings. clear - Hall Hl. induction Hall as [|p line ptrs ls [Hp Hlen] _ IH]; [done|]. csimpl.
  rewrite IH. f_equal. eapply cstr_str_at; [exact Hp|lia].
Qed.

(** ** Numbers in the geometry file *)

Lemma parse_digits_spec fuel : forall p rest cur m mem,
  str_at cur (p ++ rest) mem -> Forall digit p -> ~ digit (s8 (hd 0 rest)) -> (length p <= fuel)%nat ->
  parse_digits fuel cur (u32 m) mem =
  Some (cur + Z.of_nat (length p), u32 (m * 10 ^ Z.of_nat (length p) + dec_value p)).
Proof.
  assert (Hstop : forall fuel rest cur m mem, str_at cur rest mem -> ~ digit (s8 (hd 0 rest)) ->
    parse_digits fuel cur m mem = Some (cur, m)).
  { intros fl rest cur m mem Hs Hr. destruct fl; cbn [parse_digits]; change (chr "0") with 48; change (chr "9") with 57;
      (replace (read8 mem cur) with (hd 0 rest) by (destruct rest; simpl in *; [done|by symmetry; apply Hs]));
      unfold digit in Hr; zbool. }
  induction fuel as [|n IH]; intros [|c p] rest cur m mem Hs Hp Hr Hl; cbn [length app] in *; try lia.
  - rewrite (Hstop _ rest) by done. cbn. do 3 f_equal; lia.
  - rewrite (Hstop _ rest) by done. cbn. do 3 f_equal; lia.
  - cbn [str_at] in Hs. destruct Hs as (Hc & Hnz & Hs). inversion_clear Hp as [|? ? Hd Hp']. unfold digit in Hd.
    cbn [parse_digits]. rewrite Hc. change (chr "0") with 48. change (chr "9") with 57.
    assert (s8 c = c) as -> by (unfold s8; rewrite u8_small by lia; zbool).
    destruct (Z.leb_spec 48 c); [|lia]. destruct (Z.leb_spec c 57); [|lia]. cbn [andb].
    replace (u32 (10 * u32 m + (c - 48))) with (u32 (10 * m + (c - 48))) by (unfold u32; lia).
    rewrite (IH p rest) by (done || lia). rewrite dec_cons. f_equal. f_equal; [lia|].
    rewrite Nat2Z.inj_succ, Z.pow_succ_r by lia. f_equal. ring.
Qed.

(** A number of the geometry file is read as it was printed.  When a 32-bit
    number stands before a separator or at the end of the line, [parse_u32] gives
    the number and the place after the separator. *)
Theorem parse_u32_putuint fuel v p rest cur mem :
  0 <= v < 2 ^ 32 -> putuint v = Some p -> str_at cur (p ++ rest) mem -> 0 < cur ->
  ~ digit (s8 (hd 0 rest)) -> (length p <= fuel)%nat ->
  parse_u32 fuel cur mem = Some (cur + Z.of_nat (length p) + (if decide (rest = []) then 0 else 1), v).
Proof.
  intros Hv Hp Hs Hc Hr Hl. destruct (putuint_spec v Hv) as (q & Hq & Hval & Hdig & _). rewrite Hp in Hq. injection Hq as <-.
  unfold parse_u32. rewrite (proj2 (Z.eqb_neq cur 0)) by lia.
  pose proof (parse_digits_spec fuel p rest cur 0 mem Hs Hdig Hr Hl) as Hd. change (u32 0) with 0 in Hd.
  rewrite Hd. cbn [mbind option_bind]. rewrite Z.mul_0_l, Z.add_0_l, Hval, u32_small by done.
  apply str_at_app in Hs as [_ Hs]. destruct rest as [|c rest]; cbn [str_at] in Hs.
  - rewrite Hs. destruct (decide _); [|done]. do 2 f_equal. simpl. lia.
  - destruct Hs as (-> & Hnz & _). rewrite (proj2 (Z.eqb_neq c 0)) by done. by destruct (decide _).
Qed.

Module Demo.
#[local] Existing Instances MallocCorrect.Demo.layout DemoDevice.env DemoDevice.ports DemoDevice.dma.

Definition content : list Z := str "/pci@i0cf8/ide@1,1/drive@0/disk@0" ++ [13; 10] ++ str "  HALT ".
Definition state : rstate (S := words) (W := DemoDevice.W) :=
  RState (with_mem (write_bytes 0x9000 content) MallocCorrect.Demo.st2) (0, 0)
    [Romfile (str "bootorder") (Z.of_nat (length content)) (ConstFile 0x9000)] [].

(** The states after loading the file and after allocating the array. *)
Definition loaded := romfile_loadfile false false 0x6000 0 (str "bootorder") state.
Definition state1 := default state (snd <$> loaded).
Definition allocated := alloc (malloc_tmphigh false (u32 (Z.of_nat (length (lines content)) * 4))) state1.
Definition state2 := default state (snd <$> allocated).

Lemma loaded_eq : loaded = Some ((0x10ff70, 42), state1).
Proof.
  assert (fst <$> loaded = Some (0x10ff70, 42)) as Hf by (vm_compute; reflexivity).
  unfold state1. destruct loaded as [[x s']|]; [|done]. injection Hf as ->. done.
Qed.
Lemma allocated_eq : allocated = Some (0x10ff30, state2).
Proof.
  assert (fst <$> allocated = Some 0x10ff30) as Hf by (vm_compute; reflexivity).
  unfold state2. destruct allocated as [[x s']|]; [|done]. injection Hf as ->. done.
Qed.
End Demo.
#[local] Existing Instances MallocCorrect.Demo.layout DemoDevice.env DemoDevice.ports DemoDevice.dma.

Lemma loadBootOrder_correct_witness :
  exists Bootorder s', loadBootOrder false false 0x6000 0 100 true Demo.state = Some (Bootorder, s') /\
    strings 100 Bootorder (rs_mem s') = trim <$> lines Demo.content /\
    forall b, b < 0x10ff70 \/ 0x10ff70 + Z.of_nat (length Demo.content) <= b ->
      read8 (rs_mem s') b = read8 (rs_mem Demo.state1) b.
Proof.
  apply (loadBootOrder_correct false false 0x6000 0 100 Demo.state Demo.state1 Demo.state2 0x10ff70 42 Demo.content 0x10ff30).
  - exact Demo.loaded_eq.
  - lia.
  - vm_compute. repeat split; discriminate.
  - repeat constructor; discriminate.
  - vm_compute. lia.
  - exact Demo.allocated_eq.
  - done.
  - vm_compute. reflexivity.
Defined.

(** The trimmed lines, searched. *)
Example boot_order_searched :
  (bootprio_find_ata_device true (trim <$> lines Demo.content) (Some (PciDevice 9 0 None)) 0 0,
   find_prio (str "HALT") (trim <$> lines Demo.content)) = (Some 1, 2).
Proof. vm_compute. reflexivity. Qed.

Lemma parse_u32_putuint_witness :
  parse_u32 10 0x7000 (write_bytes 0x7000 (str "16383,16") ∅) = Some (0x7000 + Z.of_nat (length (str "16383")) + 1, 16383).
Proof.
  apply (parse_u32_putuint 10 16383 (str "16383") (str ",16")); try lia.
  - vm_compute. reflexivity.
  - vm_compute. repeat split; discriminate.
  - vm_compute. intros []. by destruct H.
  - vm_compute. lia.
Defined.
