(* ===== verification/PciInit.v ===== *)
(** * PCI resource assignment: src/fw/pciinit.c

    Bus numbering, the sizing of base address registers and bridge windows, and
    the assignment of addresses.  Of the lists of regions (kept with list.h, see
    [Hlist]) the model keeps the entries in order; entries are allocated and
    freed through the parameters [malloc_tmp] and [free].  The rom file lookups
    and [panic] are parameters too. *)
From S2P Require Import Prelude Machine Pci.
Local Open Scope seabios_scope.

Definition PCI_DEVICE_MEM_MIN := 0x1000.
Definition PCI_BRIDGE_MEM_MIN := 0x200000.
Definition PCI_BRIDGE_IO_MIN := 0x1000.
Definition PCI_ROM_SLOT := 6.
Definition PCI_NUM_REGIONS := 7.
Definition PCI_BRIDGE_NUM_REGIONS := 2.
Definition PCI_CLASS_BRIDGE_PCI := 0x0604.
Definition PCI_CLASS_SERIAL_USB := 0x0c03.
Definition PCI_HEADER_TYPE_MULTI_FUNCTION := 0x80.
Definition PCI_HEADER_TYPE_BRIDGE := 1.
Definition PCI_BASE_ADDRESS_SPACE_IO := 1.
Definition PCI_BASE_ADDRESS_MEM_TYPE_MASK := 0x06.
Definition PCI_BASE_ADDRESS_MEM_TYPE_64 := 0x04.
Definition PCI_BASE_ADDRESS_MEM_PREFETCH := 0x08.
(** unsigned long masks: 32 bits wide in the BIOS *)
Definition PCI_BASE_ADDRESS_IO_MASK := 0xfffffffc.
Definition PCI_BASE_ADDRESS_MEM_MASK := 0xfffffff0.
Definition PCI_ROM_ADDRESS_MASK := 0xfffff800.
Definition PCI_PREF_RANGE_TYPE_MASK := 0x0f.
Definition PCI_PREF_RANGE_TYPE_64 := 0x01.
Definition PCI_CAP_ID_VNDR := 0x09.
Definition PCI_CAP_ID_SHPC := 0x0c.
Definition PCI_CAP_ID_EXP := 0x10.
Definition PCI_CAP_FLAGS := 2.
Definition PCI_EXP_FLAGS := 2.
Definition PCI_EXP_FLAGS_TYPE := 0xf0.
Definition PCI_EXP_FLAGS_SLOT := 0x100.
Definition PCI_EXP_TYPE_ROOT_PORT := 4.
Definition PCI_EXP_TYPE_DOWNSTREAM := 6.
Definition PCI_VENDOR_ID_REDHAT := 0x1b36.
Definition PCI_DEVICE_ID_REDHAT_BRIDGE := 0x0001.
Definition PCI_DEVICE_ID_REDHAT_ROOT_PORT := 0x000C.
Definition PCI_CAP_REDHAT_TYPE_OFFSET := 3.
Definition REDHAT_CAP_RESOURCE_RESERVE := 1.
Definition RES_RESERVE_BUS_RES := 4.
Definition RES_RESERVE_IO := 8.
Definition RES_RESERVE_MEM := 16.
Definition RES_RESERVE_PREF_MEM_32 := 20.
Definition RES_RESERVE_PREF_MEM_64 := 24.
Definition RES_RESERVE_CAP_SIZE := 32.

(** ALIGN and ALIGN_DOWN on u64 operands. *)
Definition ALIGN64 : Z -> Z -> Z := ALIGN_w 64.
Definition ALIGN_DOWN64 : Z -> Z -> Z := ALIGN_DOWN_w 64.

(** ** Data *)

Inductive pci_region_type := PCI_REGION_TYPE_IO | PCI_REGION_TYPE_MEM | PCI_REGION_TYPE_PREFMEM.

#[export] Instance region_type_eq_dec : EqDecision pci_region_type.
Proof. solve_decision. Defined.

Definition region_types : list pci_region_type :=
  [PCI_REGION_TYPE_IO; PCI_REGION_TYPE_MEM; PCI_REGION_TYPE_PREFMEM].

(** The fields of struct pci_device this file reads. *)
Record pci_device := PciDevice { bdf : Z; class : Z; header_type : Z; secondary_bus : Z }.

Record pci_region_entry := Entry {
  pe_ptr : Z;                       (* where the struct was allocated *)
  dev : pci_device;
  bar : Z;                          (* -1 for a bridge window *)
  size : Z;
  align : Z;
  is64 : bool;
  type : pci_region_type }.

Record pci_region := Region { base : Z; entries : list pci_region_entry }.

Record pci_bus := PciBus { r : pci_region_type -> pci_region; bus_dev : option pci_device }.

Definition region_zero : pci_region := Region 0 [].
Definition bus_zero : pci_bus := PciBus (fun _ => region_zero) None.

Definition set_region (t : pci_region_type) (rg : pci_region) (b : pci_bus) : pci_bus :=
  PciBus (fun t' => if decide (t' = t) then rg else r b t') (bus_dev b).
Definition set_entries (l : list pci_region_entry) (rg : pci_region) : pci_region :=
  Region (base rg) l.
Definition set_base (a : Z) (rg : pci_region) : pci_region := Region a (entries rg).

(** The array [busses]. *)
Definition bus_at (busses : list pci_bus) (i : Z) : pci_bus := nth (Z.to_nat i) busses bus_zero.
Definition upd_bus (i : Z) (f : pci_bus -> pci_bus) (busses : list pci_bus) : list pci_bus :=
  <[Z.to_nat i := f (bus_at busses i)]> busses.

(** A [struct pci_region *]: a local variable or a region of the array. *)
Inductive region_ref := Local | InBus (i : Z) (t : pci_region_type).

#[export] Instance region_ref_eq_dec : EqDecision region_ref.
Proof. solve_decision. Defined.

Definition get_region (ref : region_ref) (st : pci_region * list pci_bus) : pci_region :=
  match ref with Local => fst st | InBus i t => r (bus_at (snd st) i) t end.

Definition upd_region (ref : region_ref) (f : pci_region -> pci_region)
    (st : pci_region * list pci_bus) : pci_region * list pci_bus :=
  match ref with
  | Local => (f (fst st), snd st)
  | InBus i t => (fst st, upd_bus i (fun b => set_region t (f (r b t)) b) (snd st))
  end.

(** The global limits [pcimem_start] .. [pci_io_low_end]. *)
Record pci_limits := Limits {
  pcimem_start : Z; pcimem_end : Z; pcimem64_start : Z; pcimem64_end : Z; pci_io_low_end : Z }.

(** ** Regions *)

Definition pci_region_align (rg : pci_region) : Z :=
  match entries rg with e :: _ => align e | [] => 1 end.

Definition pci_region_sum (rg : pci_region) : Z :=
  foldl (fun sum e => u64 (sum + size e)) 0 (entries rg).

(** The position loop and the [hlist_add] of [pci_region_create_entry]. *)
Fixpoint insert_entry (e : pci_region_entry) (l : list pci_region_entry) : list pci_region_entry :=
  match l with
  | [] => [e]
  | pos :: l' =>
    if (align pos <? align e) || ((align pos =? align e) && (size pos <? size e))
    then e :: l else pos :: insert_entry e l'
  end.

(** [pci_region_migrate_64bit_entries]: what stays, and what moves, in order. *)
Definition migrates (e : pci_region_entry) : bool :=
  is64 e && negb (class (dev e) =? PCI_CLASS_SERIAL_USB).

Definition pci_region_migrate_64bit_entries (from to : pci_region) : pci_region * pci_region :=
  (set_entries (List.filter (fun e => negb (migrates e)) (entries from)) from,
   set_entries (List.filter migrates (entries from) ++ entries to) to).

(** ** Root regions *)

Definition pci_bios_init_root_regions_io (lim : pci_limits) (bus : pci_bus) : Z * pci_bus :=
  let r_io := r bus PCI_REGION_TYPE_IO in
  let sum := pci_region_sum r_io in
  if sum <? 0x4000 then (0, set_region PCI_REGION_TYPE_IO (set_base 0xc000 r_io) bus)
  else if sum <? u64 (pci_io_low_end lim - 0x1000)
  then (0, set_region PCI_REGION_TYPE_IO (set_base 0x1000 r_io) bus)
  else (-1, bus).

Definition pci_bios_init_root_regions_mem (lim : pci_limits) (bus : pci_bus) : Z * pci_bus :=
  let '(t_start, t_end) :=
    if pci_region_align (r bus PCI_REGION_TYPE_MEM) <? pci_region_align (r bus PCI_REGION_TYPE_PREFMEM)
    then (PCI_REGION_TYPE_PREFMEM, PCI_REGION_TYPE_MEM)
    else (PCI_REGION_TYPE_MEM, PCI_REGION_TYPE_PREFMEM) in
  let r_end := r bus t_end in
  let r_end := set_base (ALIGN_DOWN64 (u64 (pcimem_end lim - pci_region_sum r_end)) (pci_region_align r_end)) r_end in
  let r_start := r bus t_start in
  let r_start := set_base (ALIGN_DOWN64 (u64 (base r_end - pci_region_sum r_start)) (pci_region_align r_start)) r_start in
  let bus := set_region t_start r_start (set_region t_end r_end bus) in
  if (base r_start <? pcimem_start lim) || (pcimem_end lim <? base r_start) then (-1, bus) else (0, bus).

(** What the hint [tmp_res_bus] of a bridge makes of [res_bus]. *)
Definition reserved_bus_hint (tmp_res_bus secbus pci_bus : Z) : Z :=
  if tmp_res_bus =? 0xffffffff then pci_bus
  else
    let res_bus := Z.land tmp_res_bus 0xff in
    let res_bus := if (u8 (res_bus + secbus) <? secbus) || (u8 (res_bus + secbus) <? res_bus)
                   then 0 else res_bus in
    if pci_bus <? secbus + res_bus then u8 (secbus + res_bus) else res_bus.

(** The size and alignment of the window a bridge asks of its parent, from the
    reservation [size0] of its hint. *)
Definition bridge_window (t : pci_region_type) (rg : pci_region) (size0 : Z)
    (hotplug_support pcie : bool) : Z * Z :=
  let align := if decide (t = PCI_REGION_TYPE_IO) then PCI_BRIDGE_IO_MIN else PCI_BRIDGE_MEM_MIN in
  let align := if align <? pci_region_align rg then pci_region_align rg else align in
  let sum := pci_region_sum rg in
  let resource_optional := pcie && bool_decide (t = PCI_REGION_TYPE_IO) in
  let sum := if (sum =? 0) && hotplug_support && negb resource_optional then align else sum in
  let size :=
    if sum <? size0
    then (if decide (t = PCI_REGION_TYPE_IO) then size0 else ALIGN64 size0 align)
    else ALIGN64 sum align in
  (size, align).

Section PciInit.
Context {W : Type} `{Env W} `{Ports W}.
Context (malloc_tmp : M W Z) (free : Z -> M W unit).
Context (romfile_loadint : Z -> M W Z).      (* the named file, 0 if there is none *)
Context (etc_extra_pci_roots etc_reserved_memory_end : Z).
Context (CONFIG_QEMU : bool) (RamSize RamSizeOver4G : Z).

(** ** Bus initialization *)

(** The do-while of [pci_find_resource_reserve_capability]. *)
Fixpoint reserve_cap_loop (fuel : nat) (bdf cap : Z) : M W Z :=
  cap <- pci_find_capability bdf PCI_CAP_ID_VNDR cap ;;
  if cap =? 0 then ret 0
  else
    t <- pci_config_readb bdf (cap + PCI_CAP_REDHAT_TYPE_OFFSET) ;;
    if t =? REDHAT_CAP_RESOURCE_RESERVE then ret cap
    else match fuel with O => fun _ => None | S f => reserve_cap_loop f bdf cap end.

Definition pci_find_resource_reserve_capability (fuel : nat) (bdf : Z) : M W Z :=
  vendor <- pci_config_readw bdf PCI_VENDOR_ID ;;
  if negb (vendor =? PCI_VENDOR_ID_REDHAT) then ret 0
  else
    device_id <- pci_config_readw bdf PCI_DEVICE_ID ;;
    if negb (device_id =? PCI_DEVICE_ID_REDHAT_ROOT_PORT) &&
       negb (device_id =? PCI_DEVICE_ID_REDHAT_BRIDGE) then ret 0
    else
      cap <- reserve_cap_loop fuel bdf 0 ;;
      if cap =? 0 then ret cap
      else
        cap_len <- pci_config_readb bdf (cap + PCI_CAP_FLAGS) ;;
        if cap_len <? RES_RESERVE_CAP_SIZE then ret 0 else ret cap.

(** The new subordinate bus of a bridge whose subtree ended at [pci_bus]. *)
Definition reserved_bus (fuel : nat) (bdf secbus pci_bus : Z) : M W Z :=
  cap <- pci_find_resource_reserve_capability fuel bdf ;;
  if cap =? 0 then ret pci_bus
  else
    tmp_res_bus <- pci_config_readl bdf (cap + RES_RESERVE_BUS_RES) ;;
    ret (reserved_bus_hint tmp_res_bus secbus pci_bus).

(** The call nests once per bus number: [depth] bounds the recursion. *)
Fixpoint pci_bios_init_bus_rec (depth fuel : nat) (bus pci_bus : Z) : M W Z :=
  do foreachbdf bus (fun bdf _ =>
    class <- pci_config_readw bdf PCI_CLASS_DEVICE ;;
    if class =? PCI_CLASS_BRIDGE_PCI then
      do pci_config_writeb bdf PCI_SECONDARY_BUS 255 ;;
      pci_config_writeb bdf PCI_SUBORDINATE_BUS 0
    else ret tt) tt ;;
  foreachbdf bus (fun bdf pci_bus =>
    class <- pci_config_readw bdf PCI_CLASS_DEVICE ;;
    if negb (class =? PCI_CLASS_BRIDGE_PCI) then ret pci_bus
    else
      pribus <- pci_config_readb bdf PCI_PRIMARY_BUS ;;
      do (if negb (pribus =? bus) then pci_config_writeb bdf PCI_PRIMARY_BUS bus else ret tt) ;;
      secbus <- pci_config_readb bdf PCI_SECONDARY_BUS ;;
      let pci_bus := u8 (pci_bus + 1) in
      do (if negb (pci_bus =? secbus) then pci_config_writeb bdf PCI_SECONDARY_BUS pci_bus else ret tt) ;;
      let secbus := pci_bus in
      subbus <- pci_config_readb bdf PCI_SUBORDINATE_BUS ;;
      do pci_config_writeb bdf PCI_SUBORDINATE_BUS 255 ;;
      pci_bus <- (match depth with
                  | O => fun _ => None
                  | S d => pci_bios_init_bus_rec d fuel secbus pci_bus
                  end) ;;
      newsub <- (if negb (subbus =? pci_bus) then reserved_bus fuel bdf secbus pci_bus else ret subbus) ;;
      let pci_bus := if negb (subbus =? pci_bus) then newsub else pci_bus in
      do pci_config_writeb bdf PCI_SUBORDINATE_BUS newsub ;;
      ret pci_bus) pci_bus.

(** The [while (pci_bus < 0xff)] loop over the extra root busses. *)
Fixpoint init_extra_roots (n depth fuel : nat) (pci_bus : Z) : M W unit :=
  if pci_bus <? 0xff then
    let pci_bus := pci_bus + 1 in
    pci_bus <- pci_bios_init_bus_rec depth fuel pci_bus pci_bus ;;
    match n with O => fun _ => None | S n' => init_extra_roots n' depth fuel pci_bus end
  else ret tt.

Definition pci_bios_init_bus (n depth fuel : nat) : M W unit :=
  extraroots <- romfile_loadint etc_extra_pci_roots ;;
  pci_bus <- pci_bios_init_bus_rec depth fuel 0 0 ;;
  if truthy (u8 extraroots) then init_extra_roots n depth fuel pci_bus else ret tt.

(** ** Bus sizing *)

Definition pci_bar (pci : pci_device) (region_num : Z) : Z :=
  if negb (region_num =? PCI_ROM_SLOT) then u32 (PCI_BASE_ADDRESS_0 + region_num * 4)
  else
    let type := Z.land (header_type pci) (Z.lnot PCI_HEADER_TYPE_MULTI_FUNCTION) in
    if type =? PCI_HEADER_TYPE_BRIDGE then PCI_ROM_ADDRESS1 else PCI_ROM_ADDRESS.

Definition pci_set_io_region_addr (pci : pci_device) (bar addr : Z) (is64 : bool) : M W unit :=
  let ofs := pci_bar pci bar in
  do pci_config_writel (bdf pci) ofs addr ;;
  if is64 then pci_config_writel (bdf pci) (ofs + 4) (Z.shiftr addr 32) else ret tt.

(** The size a BAR reads back: [val] after writing all ones, under [mask]. *)
Definition bar_size (val mask : Z) (is64 : bool) : Z :=
  let s := u64 (u64 (Z.lnot (Z.land val mask)) + 1) in
  if is64 then s else Z.land s 0xffffffff.

Definition pci_bios_get_bar (pci : pci_device) (bar : Z) : M W (pci_region_type * Z * bool) :=
  let ofs := pci_bar pci bar in
  let b := bdf pci in
  old <- pci_config_readl b ofs ;;
  let rom := bar =? PCI_ROM_SLOT in
  let io := negb rom && truthy (Z.land old PCI_BASE_ADDRESS_SPACE_IO) in
  let mask := if rom then PCI_ROM_ADDRESS_MASK
              else if io then PCI_BASE_ADDRESS_IO_MASK else PCI_BASE_ADDRESS_MEM_MASK in
  let type := if rom then PCI_REGION_TYPE_MEM
              else if io then PCI_REGION_TYPE_IO
              else if truthy (Z.land old PCI_BASE_ADDRESS_MEM_PREFETCH) then PCI_REGION_TYPE_PREFMEM
              else PCI_REGION_TYPE_MEM in
  let is64 := negb rom && negb io &&
              (Z.land old PCI_BASE_ADDRESS_MEM_TYPE_MASK =? PCI_BASE_ADDRESS_MEM_TYPE_64) in
  do pci_config_writel b ofs (if rom then mask else 0xffffffff) ;;
  val <- pci_config_readl b ofs ;;
  do pci_config_writel b ofs old ;;
  if is64 then
    hold <- pci_config_readl b (ofs + 4) ;;
    do pci_config_writel b (ofs + 4) 0xffffffff ;;
    high <- pci_config_readl b (ofs + 4) ;;
    do pci_config_writel b (ofs + 4) hold ;;
    ret (type, bar_size (Z.lor val (Z.shiftl high 32)) (Z.lor mask (Z.shiftl 0xffffffff 32)) true, true)
  else ret (type, bar_size val mask false, false).

Definition pci_bios_bridge_region_is64 (rg : pci_region) (pci : pci_device) (type : pci_region_type)
    : M W bool :=
  if negb (bool_decide (type = PCI_REGION_TYPE_PREFMEM)) then ret false
  else
    pmem <- pci_config_readl (bdf pci) PCI_PREF_MEMORY_BASE ;;
    pmem <- (if pmem =? 0 then
               do pci_config_writel (bdf pci) PCI_PREF_MEMORY_BASE 0xfff0fff0 ;;
               p <- pci_config_readl (bdf pci) PCI_PREF_MEMORY_BASE ;;
               do pci_config_writel (bdf pci) PCI_PREF_MEMORY_BASE 0x0 ;; ret p
             else ret pmem) ;;
    if negb (Z.land pmem PCI_PREF_RANGE_TYPE_MASK =? PCI_PREF_RANGE_TYPE_64) then ret false
    else ret (forallb is64 (entries rg)).

(** The new entry in its list; [None] when there is no memory for it. *)
Definition pci_region_create_entry (bus : pci_bus) (dev : pci_device) (bar size align : Z)
    (type : pci_region_type) (is64 : bool) : M W (option pci_bus) :=
  entry <- malloc_tmp ;;
  if entry =? 0 then ret None
  else
    let e := Entry entry dev bar size align is64 type in
    let rg := r bus type in
    ret (Some (set_region type (set_entries (insert_entry e (entries rg)) rg) bus)).

Definition pci_bus_hotplug_support (bus_dev : pci_device) (pcie_cap : Z) : M W bool :=
  if truthy pcie_cap then
    pcie_flags <- pci_config_readw (bdf bus_dev) (pcie_cap + PCI_EXP_FLAGS) ;;
    let port_type := Z.shiftr (Z.land pcie_flags PCI_EXP_FLAGS_TYPE) 4 in
    let downstream_port := (port_type =? PCI_EXP_TYPE_DOWNSTREAM) || (port_type =? PCI_EXP_TYPE_ROOT_PORT) in
    ret (downstream_port && truthy (Z.land pcie_flags PCI_EXP_FLAGS_SLOT))
  else
    shpc_cap <- pci_find_capability (bdf bus_dev) PCI_CAP_ID_SHPC 0 ;;
    ret (truthy shpc_cap).

Definition pci_bridge_has_region (pci : pci_device) (t : pci_region_type) : M W bool :=
  let probe base :=
    do pci_config_writeb (bdf pci) base 0xFF ;;
    v <- pci_config_readb (bdf pci) base ;; ret (negb (v =? 0)) in
  match t with
  | PCI_REGION_TYPE_IO => probe PCI_IO_BASE
  | PCI_REGION_TYPE_PREFMEM => probe PCI_PREF_MEMORY_BASE
  | PCI_REGION_TYPE_MEM => ret true
  end.

(** Resources of a device or bridge go to the bus it is on; those of all root
    busses to [busses[0]]. *)
Definition resource_bus (busses : list pci_bus) (bdf : Z) : Z :=
  let b := pci_bdf_to_bus bdf in
  match bus_dev (bus_at busses b) with Some _ => b | None => 0 end.

(** The loop over the BARs of one device. *)
Fixpoint check_bars (n : nat) (i : Z) (pci : pci_device) (bus : Z) (busses : list pci_bus)
    : M W (option (list pci_bus)) :=
  match n with
  | O => ret (Some busses)
  | S n' =>
    if negb (i <? PCI_NUM_REGIONS) then ret (Some busses)
    else if (class pci =? PCI_CLASS_BRIDGE_PCI) && (PCI_BRIDGE_NUM_REGIONS <=? i) && (i <? PCI_ROM_SLOT)
    then check_bars n' (i + 1) pci bus busses
    else
      res <- pci_bios_get_bar pci i ;;
      let '(type, size, is64) := res in
      if size =? 0 then check_bars n' (i + 1) pci bus busses
      else
        let size := if negb (bool_decide (type = PCI_REGION_TYPE_IO)) && (size <? PCI_DEVICE_MEM_MIN)
                    then PCI_DEVICE_MEM_MIN else size in
        b <- pci_region_create_entry (bus_at busses bus) pci i size size type is64 ;;
        match b with
        | None => ret None
        | Some b =>
          check_bars n' (if is64 then i + 2 else i + 1) pci bus (upd_bus bus (fun _ => b) busses)
        end
  end.

(** The first loop of [pci_bios_check_devices], over all devices. *)
Fixpoint check_devices (devs : list pci_device) (busses : list pci_bus) : M W (option (list pci_bus)) :=
  match devs with
  | [] => ret (Some busses)
  | pci :: devs' =>
    let busses :=
      if class pci =? PCI_CLASS_BRIDGE_PCI
      then upd_bus (secondary_bus pci) (fun b => PciBus (r b) (Some pci)) busses else busses in
    res <- check_bars 8 0 pci (resource_bus busses (bdf pci)) busses ;;
    match res with None => ret None | Some busses => check_devices devs' busses end
  end.

(** The size the RedHat capability at [qemu_cap] asks for. *)
Definition reserve_hint (bdf qemu_cap : Z) (t : pci_region_type) : M W Z :=
  let read64 ofs :=
    lo <- pci_config_readl bdf (qemu_cap + ofs) ;;
    hi <- pci_config_readl bdf (qemu_cap + ofs + 4) ;; ret (Z.lor lo (Z.shiftl hi 32)) in
  if qemu_cap =? 0 then ret 0
  else
    match t with
    | PCI_REGION_TYPE_IO =>
      v <- read64 RES_RESERVE_IO ;; ret (if v =? 2 ^ 64 - 1 then 0 else v)
    | PCI_REGION_TYPE_MEM =>
      v <- pci_config_readl bdf (qemu_cap + RES_RESERVE_MEM) ;; ret (if v =? 2 ^ 32 - 1 then 0 else v)
    | PCI_REGION_TYPE_PREFMEM =>
      v <- pci_config_readl bdf (qemu_cap + RES_RESERVE_PREF_MEM_32) ;;
      v64 <- read64 RES_RESERVE_PREF_MEM_64 ;;
      ret (if negb (v =? 2 ^ 32 - 1) && (v64 =? 2 ^ 64 - 1) then v
           else if (v =? 2 ^ 32 - 1) && negb (v64 =? 2 ^ 64 - 1) then v64 else 0)
    end.

(** The window of one type that bridge [s] needs. *)
Fixpoint propagate_types (fuel : nat) (ts : list pci_region_type) (s parent : Z) (pci : pci_device)
    (pcie_cap qemu_cap : Z) (hotplug_support : bool) (busses : list pci_bus) : M W (option (list pci_bus)) :=
  match ts with
  | [] => ret (Some busses)
  | t :: ts' =>
    has <- pci_bridge_has_region pci t ;;
    if negb has then propagate_types fuel ts' s parent pci pcie_cap qemu_cap hotplug_support busses
    else
      size0 <- reserve_hint (bdf pci) qemu_cap t ;;
      let rg := r (bus_at busses s) t in
      let '(size, align) := bridge_window t rg size0 hotplug_support (truthy pcie_cap) in
      is64 <- pci_bios_bridge_region_is64 rg pci t ;;
      b <- pci_region_create_entry (bus_at busses parent) pci (-1) size align t is64 ;;
      match b with
      | None => ret None
      | Some b =>
        propagate_types fuel ts' s parent pci pcie_cap qemu_cap hotplug_support
          (upd_bus parent (fun _ => b) busses)
      end
  end.

(** The second loop, from the last bus down to bus 1. *)
Fixpoint propagate (fuel : nat) (secondary : nat) (busses : list pci_bus) : M W (option (list pci_bus)) :=
  match secondary with
  | O => ret (Some busses)
  | S n =>
    let s := Z.of_nat secondary in
    match bus_dev (bus_at busses s) with
    | None => propagate fuel n busses
    | Some pci =>
      let parent := resource_bus busses (bdf pci) in
      pcie_cap <- pci_find_capability (bdf pci) PCI_CAP_ID_EXP 0 ;;
      qemu_cap <- pci_find_resource_reserve_capability fuel (bdf pci) ;;
      hotplug_support <- pci_bus_hotplug_support pci pcie_cap ;;
      res <- propagate_types fuel region_types s parent pci pcie_cap qemu_cap hotplug_support busses ;;
      match res with None => ret None | Some busses => propagate fuel n busses end
    end
  end.

Definition pci_bios_check_devices (fuel : nat) (PCIDevices : list pci_device) (MaxPCIBus : nat)
    (busses : list pci_bus) : M W (option (list pci_bus)) :=
  res <- check_devices PCIDevices busses ;;
  match res with None => ret None | Some busses => propagate fuel MaxPCIBus busses end.

(** ** BAR assignment *)

Definition pci_region_map_one_entry (e : pci_region_entry) (addr : Z) : M W unit :=
  if 0 <=? bar e then pci_set_io_region_addr (dev e) (bar e) addr (is64 e)
  else
    let b := bdf (dev e) in
    let limit := u64 (addr + size e - 1) in
    match type e with
    | PCI_REGION_TYPE_IO =>
      do pci_config_writeb b PCI_IO_BASE (Z.shiftr addr 8) ;;
      do pci_config_writew b PCI_IO_BASE_UPPER16 0 ;;
      do pci_config_writeb b PCI_IO_LIMIT (Z.shiftr limit 8) ;;
      pci_config_writew b PCI_IO_LIMIT_UPPER16 0
    | PCI_REGION_TYPE_MEM =>
      do pci_config_writew b PCI_MEMORY_BASE (Z.shiftr addr 16) ;;
      pci_config_writew b PCI_MEMORY_LIMIT (Z.shiftr limit 16)
    | PCI_REGION_TYPE_PREFMEM =>
      do pci_config_writew b PCI_PREF_MEMORY_BASE (Z.shiftr addr 16) ;;
      do pci_config_writew b PCI_PREF_MEMORY_LIMIT (Z.shiftr limit 16) ;;
      do pci_config_writel b PCI_PREF_BASE_UPPER32 (Z.shiftr addr 32) ;;
      pci_config_writel b PCI_PREF_LIMIT_UPPER32 (Z.shiftr limit 32)
    end.

(** The loop of [pci_region_map_entries]; [l] is what is left of the list. *)
Fixpoint map_entries (ref : region_ref) (l : list pci_region_entry) (st : pci_region * list pci_bus)
    : M W (pci_region * list pci_bus) :=
  match l with
  | [] => ret st
  | e :: l' =>
    let addr := base (get_region ref st) in
    let st := upd_region ref (set_base (u64 (addr + size e))) st in
    let st := if bar e =? -1
              then upd_region (InBus (secondary_bus (dev e)) (type e)) (set_base addr) st else st in
    do pci_region_map_one_entry e addr ;;
    let st := upd_region ref (set_entries l') st in
    do free (pe_ptr e) ;;
    map_entries ref l' st
  end.

Definition pci_region_map_entries (ref : region_ref) (st : pci_region * list pci_bus)
    : M W (pci_region * list pci_bus) :=
  map_entries ref (entries (get_region ref st)) st.

(** On a region outside the array. *)
Definition map_local (rg : pci_region) (busses : list pci_bus) : M W (list pci_bus) :=
  st <- pci_region_map_entries Local (rg, busses) ;; ret (snd st).

Definition map_bus_region (i : Z) (t : pci_region_type) (busses : list pci_bus) : M W (list pci_bus) :=
  st <- pci_region_map_entries (InBus i t) (region_zero, busses) ;; ret (snd st).

Fixpoint map_types (ts : list pci_region_type) (i : Z) (busses : list pci_bus) : M W (list pci_bus) :=
  match ts with
  | [] => ret busses
  | t :: ts' => busses <- map_bus_region i t busses ;; map_types ts' i busses
  end.

Fixpoint map_busses (n : nat) (i : Z) (busses : list pci_bus) : M W (list pci_bus) :=
  match n with
  | O => ret busses
  | S n' => busses <- map_types region_types i busses ;; map_busses n' (i + 1) busses
  end.

(** The bases of the two regions above 4G and the new limits. *)
Definition place_64bit (reserved_end : Z) (r64_mem r64_pref : pci_region) (lim : pci_limits)
    : pci_region * pci_region * pci_limits :=
  let G := 2 ^ 30 in
  let b := reserved_end in
  let b := if b <? u64 (0x100000000 + RamSizeOver4G) then u64 (0x100000000 + RamSizeOver4G) else b in
  let base_mem := ALIGN64 (ALIGN64 b (pci_region_align r64_mem)) G in
  let base_pref := u64 (base_mem + pci_region_sum r64_mem) in
  let base_pref := ALIGN64 (ALIGN64 base_pref (pci_region_align r64_pref)) G in
  (set_base base_mem r64_mem, set_base base_pref r64_pref,
   Limits (pcimem_start lim) (pcimem_end lim) base_mem
     (ALIGN64 (u64 (base_pref + pci_region_sum r64_pref)) G) (pci_io_low_end lim)).

(** [None] where the code panics. *)
Definition pci_bios_map_devices (MaxPCIBus : nat) (lim : pci_limits) (busses : list pci_bus)
    : M W (option (pci_limits * list pci_bus)) :=
  let '(err, b0) := pci_bios_init_root_regions_io lim (bus_at busses 0) in
  if truthy err then ret None
  else
    let busses := upd_bus 0 (fun _ => b0) busses in
    let '(err, b0) := pci_bios_init_root_regions_mem lim (bus_at busses 0) in
    let busses := upd_bus 0 (fun _ => b0) busses in
    res <- (if truthy err then
      let '(r_mem, r64_mem) :=
        pci_region_migrate_64bit_entries (r b0 PCI_REGION_TYPE_MEM) region_zero in
      let '(r_pref, r64_pref) :=
        pci_region_migrate_64bit_entries (r b0 PCI_REGION_TYPE_PREFMEM) region_zero in
      let b0 := set_region PCI_REGION_TYPE_MEM r_mem (set_region PCI_REGION_TYPE_PREFMEM r_pref b0) in
      let '(err, b0) := pci_bios_init_root_regions_mem lim b0 in
      let busses := upd_bus 0 (fun _ => b0) busses in
      if truthy err then ret None
      else
        reserved_end <- romfile_loadint etc_reserved_memory_end ;;
        let '(r64_mem, r64_pref, lim) := place_64bit reserved_end r64_mem r64_pref lim in
        busses <- map_local r64_mem busses ;;
        busses <- map_local r64_pref busses ;;
        ret (Some (lim, busses))
    else
      ret (Some (Limits (pcimem_start lim) (pcimem_end lim) 0 (pcimem64_end lim) (pci_io_low_end lim), busses))) ;;
    match res with
    | None => ret None
    | Some (lim, busses) =>
      busses <- map_busses (S MaxPCIBus) 0 busses ;; ret (Some (lim, busses))
    end.
End PciInit.
