(* ===== verification/PciCorrect.v ===== *)
(** * Correctness of the PCI resource assignment ([PciInit])

    The order of the entries of a region, the addresses given out from its base,
    the placement of the root regions, bridge windows and probed sizes. *)
From stdpp Require Import sorting.
From S2P Require Import Prelude Machine Pci PciInit.
Local Open Scope seabios_scope.

(** ** Sorted lists of entries *)

(** Larger alignment first, then larger size. *)
Definition entry_le (a b : pci_region_entry) : Prop :=
  align b < align a \/ align b = align a /\ size b <= size a.

(** Alignments are powers of two and divide the sizes. *)
Definition entry_ok (e : pci_region_entry) : Prop :=
  pow2_align 64 (align e) /\ (align e | size e) /\ 0 <= size e.

Definition total (l : list pci_region_entry) : Z := foldr (fun e s => size e + s) 0 l.

(** No size is negative; what is known of every entry. *)
Definition sized (e : pci_region_entry) : Prop := 0 <= size e.
Lemma entries_sized l : Forall entry_ok l -> Forall sized l.
Proof. intros Hl. eapply Forall_impl; [exact Hl|]. by intros e (_ & _ & ?). Qed.

Lemma total_nonneg l : Forall sized l -> 0 <= total l.
Proof. unfold sized. induction 1 as [|e l ? _ IH]; simpl; lia. Qed.

Lemma sum_total l : Forall sized l -> total l < 2 ^ 64 -> forall b,
  0 <= b -> b + total l < 2 ^ 64 -> foldl (fun sum e => u64 (sum + size e)) b l = b + total l.
Proof.
  induction 1 as [|e l He Hl IH]; intros Ht b Hb Hbt; simpl in *; [lia|]. unfold sized in He.
  pose proof (total_nonneg l Hl). rewrite u64_small by lia. rewrite IH by lia. lia.
Qed.

Lemma region_sum_total rg : Forall sized (entries rg) -> total (entries rg) < 2 ^ 64 ->
  pci_region_sum rg = total (entries rg).
Proof.
  intros Hl Ht. pose proof (total_nonneg _ Hl). unfold pci_region_sum.
  rewrite (sum_total _ Hl Ht); lia.
Qed.

Lemma insert_entry_perm e l : Permutation (insert_entry e l) (e :: l).
Proof.
  induction l as [|p l IH]; simpl; [done|]. destruct (_ || _); [done|].
  rewrite IH. apply Permutation_swap.
Qed.

Lemma insert_entry_sorted e l :
  StronglySorted entry_le l -> StronglySorted entry_le (insert_entry e l).
Proof.
  induction l as [|p l IH]; intros Hs; simpl; [by repeat constructor|].
  apply StronglySorted_inv in Hs as [Hs Hp].
  destruct ((align p <? align e) || ((align p =? align e) && (size p <? size e))) eqn:Hc.
  - apply orb_true_iff in Hc. rewrite andb_true_iff, !Z.ltb_lt, Z.eqb_eq in Hc.
    constructor; [by constructor|]. constructor; [unfold entry_le; lia|].
    eapply Forall_impl; [exact Hp|]. unfold entry_le. simpl. lia.
  - apply orb_false_iff in Hc. rewrite andb_false_iff, !Z.ltb_ge, Z.eqb_neq in Hc.
    constructor; [by apply IH|]. apply Forall_forall. intros x Hx.
    rewrite insert_entry_perm in Hx. apply elem_of_cons in Hx as [->|Hx].
    + unfold entry_le. lia.
    + rewrite Forall_forall in Hp. by apply Hp.
Qed.

Lemma align_divide a b : pow2_align 64 a -> pow2_align 64 b -> a <= b -> (a | b).
Proof.
  intros (i & Hi & ->) (j & Hj & ->) Hle. exists (2 ^ (j - i)).
  rewrite <- Z.pow_add_r by (apply Z.pow_le_mono_r_iff in Hle; lia). f_equal. lia.
Qed.

(** ** The addresses of a region *)

(** What the loop of [pci_region_map_entries] gives out from [addr] on. *)
Fixpoint region_addresses (addr : Z) (l : list pci_region_entry) : list (Z * pci_region_entry) :=
  match l with
  | [] => []
  | e :: l' => (addr, e) :: region_addresses (u64 (addr + size e)) l'
  end.

Definition range_before (x y : Z * pci_region_entry) : Prop := fst x + size (snd x) <= fst y.

Lemma region_addresses_fit l : forall b, Forall sized l -> 0 <= b -> b + total l < 2 ^ 64 ->
  Forall (fun x => b <= fst x /\ fst x + size (snd x) <= b + total l) (region_addresses b l) /\
  StronglySorted range_before (region_addresses b l).
Proof.
  induction l as [|e l IH]; intros b Hok Hb Ht; simpl in *; [by repeat constructor|].
  apply Forall_cons in Hok as [He Hl]. unfold sized in He. pose proof (total_nonneg l Hl). rewrite u64_small by lia.
  destruct (IH (b + size e)) as [Hin Hsort]; [done|lia|lia|]. split.
  - constructor; [simpl; lia|]. eapply Forall_impl; [exact Hin|]. simpl. lia.
  - constructor; [done|]. eapply Forall_impl; [exact Hin|]. unfold range_before. simpl. lia.
Qed.

Lemma region_addresses_aligned l : forall b, Forall entry_ok l -> StronglySorted entry_le l ->
  0 <= b -> b + total l < 2 ^ 64 -> Forall (fun e => (align e | b)) l ->
  Forall (fun x => (align (snd x) | fst x)) (region_addresses b l).
Proof.
  induction l as [|e l IH]; intros b Hok Hs Hb Ht Hal; simpl in *; [constructor|].
  apply Forall_cons in Hok as [He Hl]. apply StronglySorted_inv in Hs as [Hs Hle].
  apply Forall_cons in Hal as [Hae Hal]. destruct He as (Hpe & Hde & Hse).
  pose proof (total_nonneg l (entries_sized l Hl)). rewrite u64_small by lia. constructor; [done|].
  apply (IH (b + size e)); [done|done|lia|lia|].
  rewrite Forall_forall in *. intros x Hx. apply Z.divide_add_r; [by apply Hal|].
  transitivity (align e); [|done]. apply align_divide; [by apply Hl|done|]. destruct (Hle x Hx); lia.
Qed.

(** ** The map loop *)

Definition ref_ok (busses : list pci_bus) (ref : region_ref) : Prop :=
  match ref with Local => True | InBus i _ => 0 <= i < Z.of_nat (length busses) end.

Lemma upd_bus_length i f busses : length (upd_bus i f busses) = length busses.
Proof. apply length_insert. Qed.

Lemma bus_at_upd i j f busses :
  0 <= i < Z.of_nat (length busses) -> 0 <= j ->
  bus_at (upd_bus i f busses) j = if decide (j = i) then f (bus_at busses i) else bus_at busses j.
Proof.
  intros Hi Hj. unfold bus_at, upd_bus. rewrite !nth_lookup. case_decide as Hd.
  - subst j. rewrite list_lookup_insert_eq by lia. unfold bus_at. by rewrite nth_lookup.
  - by rewrite list_lookup_insert_ne by lia.
Qed.

Lemma get_upd_region ref ref' f st :
  ref_ok (snd st) ref -> ref_ok (snd st) ref' ->
  get_region ref' (upd_region ref f st) =
  if decide (ref' = ref) then f (get_region ref st) else get_region ref' st.
Proof.
  intros Hr Hr'. destruct st as [rg busses], ref as [|i t], ref' as [|j u]; simpl in *; try done.
  rewrite bus_at_upd by lia. destruct (decide (j = i)) as [->|Hne].
  - simpl. destruct (decide (u = t)) as [->|]; [by rewrite decide_True|].
    by rewrite decide_False by congruence.
  - by rewrite decide_False by congruence.
Qed.

Lemma upd_region_length ref f st : length (snd (upd_region ref f st)) = length (snd st).
Proof. destruct ref; simpl; [done|apply upd_bus_length]. Qed.

Lemma ref_ok_upd ref f st ref' : ref_ok (snd st) ref' -> ref_ok (snd (upd_region ref f st)) ref'.
Proof. destruct ref'; simpl; [done|]. by rewrite upd_region_length. Qed.

(** The bridge window that an entry stands for. *)
Definition window (e : pci_region_entry) : option region_ref :=
  if bar e =? -1 then Some (InBus (secondary_bus (dev e)) (type e)) else None.

(** The address last given to the window [ref], if any was. *)
Fixpoint window_base (addrs : list (Z * pci_region_entry)) (ref : region_ref) (old : Z) : Z :=
  match addrs with
  | [] => old
  | (addr, e) :: addrs' =>
    window_base addrs' ref (if decide (window e = Some ref) then addr else old)
  end.

Section MapEntries.
Context {W : Type} `{Env W} `{Ports W}.
Context (free : Z -> M W unit).

(** Programming the addresses, one entry after the other. *)
Fixpoint assign (addrs : list (Z * pci_region_entry)) : M W unit :=
  match addrs with
  | [] => ret tt
  | (addr, e) :: addrs' =>
    do pci_region_map_one_entry e addr ;; do free (pe_ptr e) ;; assign addrs'
  end.

(** The base the loop leaves. *)
Definition base_after (b : Z) (l : list pci_region_entry) : Z := foldl (fun b e => u64 (b + size e)) b l.

(** The windows of the entries are regions of other busses. *)
Definition windows_ok (busses : list pci_bus) (ref : region_ref) (l : list pci_region_entry) : Prop :=
  Forall (fun e => match window e with None => True | Some w => w <> ref /\ ref_ok busses w end) l.

(** The state of the regions after one step of the loop. *)
Definition map_step (ref : region_ref) (e : pci_region_entry) (l' : list pci_region_entry)
    (st : pci_region * list pci_bus) : pci_region * list pci_bus :=
  let addr := base (get_region ref st) in
  let st := upd_region ref (set_base (u64 (addr + size e))) st in
  let st := if bar e =? -1
            then upd_region (InBus (secondary_bus (dev e)) (type e)) (set_base addr) st else st in
  upd_region ref (set_entries l') st.

Lemma map_step_ref_ok ref e l' st ref' :
  ref_ok (snd st) ref' <-> ref_ok (snd (map_step ref e l' st)) ref'.
Proof.
  assert (Hl : length (snd (map_step ref e l' st)) = length (snd st)).
  { unfold map_step. rewrite upd_region_length.
    destruct (bar e =? -1); by rewrite !upd_region_length. }
  destruct ref' as [|i t]; [done|]. cbn [ref_ok]. by rewrite Hl.
Qed.

Lemma get_map_step ref e l' st ref' :
  ref_ok (snd st) ref -> ref_ok (snd st) ref' -> windows_ok (snd st) ref [e] ->
  get_region ref' (map_step ref e l' st) =
  if decide (ref' = ref) then Region (u64 (base (get_region ref st) + size e)) l'
  else set_base (if decide (window e = Some ref') then base (get_region ref st)
                 else base (get_region ref' st)) (get_region ref' st).
Proof.
  intros Hr Hr' Hw. apply Forall_cons in Hw as [Hw _]. unfold map_step, window in *.
  destruct (Z.eqb_spec (bar e) (-1)).
  - destruct Hw as [Hne Hok].
    rewrite !get_upd_region by (by repeat apply ref_ok_upd).
    destruct (get_region ref' st) eqn:He.
    repeat (case_decide; simplify_eq; try done); by rewrite ?He.
  - rewrite !get_upd_region by (by repeat apply ref_ok_upd).
    destruct (get_region ref' st) eqn:He. repeat (case_decide; simplify_eq; try done); by rewrite ?He.
Qed.

Lemma windows_ok_step ref e l' st l :
  windows_ok (snd st) ref l -> windows_ok (snd (map_step ref e l' st)) ref l.
Proof.
  intros Hl. eapply Forall_impl; [exact Hl|]. simpl. intros x. destruct (window x); [|done]. intros [? Hok]. split; [done|].
  by apply map_step_ref_ok.
Qed.

Lemma map_entries_spec ref l : forall st,
  ref_ok (snd st) ref -> windows_ok (snd st) ref l -> entries (get_region ref st) = l ->
  let b := base (get_region ref st) in
  let addrs := region_addresses b l in
  exists st', (forall s, map_entries free ref l st s = (do assign addrs ;; ret st') s) /\
    forall ref', ref_ok (snd st) ref' ->
      get_region ref' st' =
      if decide (ref' = ref) then Region (base_after b l) []
      else set_base (window_base addrs ref' (base (get_region ref' st))) (get_region ref' st).
Proof.
  induction l as [|e l IH]; intros st Hr Hw He; simpl.
  - exists st. split; [done|]. intros ref' Hr'. case_decide as Hd.
    + subst ref'. destruct (get_region ref st). simpl in *. by subst.
    + by destruct (get_region ref' st).
  - assert (Hw1 : windows_ok (snd st) ref [e]) by (apply Forall_cons in Hw as [? _]; by repeat constructor).
    assert (Hg := fun ref' Hr' => get_map_step ref e l st ref' Hr Hr' Hw1).
    destruct (IH (map_step ref e l st)) as (st' & Hrun & Hget).
    + by apply map_step_ref_ok.
    + apply windows_ok_step. by apply Forall_cons in Hw as [_ ?].
    + rewrite Hg by done. by rewrite decide_True.
    + rewrite (Hg ref Hr), decide_True in Hrun, Hget by done. simpl in Hrun, Hget.
      exists st'. split.
      * intros s. unfold bind in *. fold (map_step ref e l st).
        destruct (pci_region_map_one_entry e _ s) as [[[] s1]|]; [|done].
        destruct (free (pe_ptr e) s1) as [[[] s2]|]; [|done]. by rewrite Hrun.
      * intros ref' Hr'. rewrite Hget by (by apply map_step_ref_ok).
        destruct (decide (ref' = ref)); [done|]. rewrite Hg by done.
        rewrite decide_False by done. by destruct (get_region ref' st).
Qed.

Lemma region_addresses_entries b l : map snd (region_addresses b l) = l.
Proof. revert b. induction l as [|e l IH]; intros b; simpl; [done|]. by rewrite IH. Qed.

(** C11: the assignment of a region is correct.  For any entries whose sizes, added
    to the base, stay below 2^64, and of which none is the window to the region
    itself, the loop programs every entry, in the order of the list, with an
    address; the ranges lie between the base and the base plus the sum of the sizes
    and do not overlap; the region ends empty; every bridge window named by an
    entry gets the entry's address as base; no other region changes.  If moreover
    the entries are in the order of [insert_entry], each with a power of two as
    alignment that divides its size (true of BARs; a bridge's window made larger by
    a hint need not have such a size), and the base is aligned for the first, every
    address is a multiple of its entry's alignment. *)
Theorem pci_region_map_entries_correct ref st :
  let rg := get_region ref st in
  let addrs := region_addresses (base rg) (entries rg) in
  ref_ok (snd st) ref -> windows_ok (snd st) ref (entries rg) -> Forall sized (entries rg) ->
  0 <= base rg -> base rg + total (entries rg) < 2 ^ 64 ->
  exists st',
    (forall s, pci_region_map_entries free ref st s = (do assign addrs ;; ret st') s) /\
    map snd addrs = entries rg /\
    Forall (fun x => base rg <= fst x /\ fst x + size (snd x) <= base rg + pci_region_sum rg) addrs /\
    StronglySorted range_before addrs /\
    (forall ref', ref_ok (snd st) ref' ->
      get_region ref' st' =
      if decide (ref' = ref) then Region (base rg + pci_region_sum rg) []
      else set_base (window_base addrs ref' (base (get_region ref' st))) (get_region ref' st)) /\
    (Forall entry_ok (entries rg) -> StronglySorted entry_le (entries rg) -> (pci_region_align rg | base rg) ->
      Forall (fun x => (align (snd x) | fst x)) addrs).
Proof.
  intros rg addrs Hr Hw Hsz Hb Hbt. pose proof (total_nonneg _ Hsz).
  rewrite (region_sum_total rg) by (done || lia).
  destruct (map_entries_spec ref (entries rg) st Hr Hw eq_refl) as (st' & Hrun & Hget).
  destruct (region_addresses_fit (entries rg) (base rg)) as [Hin Hsort]; try done.
  exists st'. split_and!; try done; [apply region_addresses_entries| |].
  - intros ref' Hr'. rewrite Hget by done. unfold base_after. fold rg. by rewrite (sum_total _ Hsz) by lia.
  - intros Hok Hs Hal. apply region_addresses_aligned; try done.
    revert Hal Hok Hs. unfold pci_region_align. destruct (entries rg) as [|e l]; [done|].
    intros Hal Hok Hs. apply Forall_cons in Hok as [He Hl]. apply StronglySorted_inv in Hs as [_ Hle].
    constructor; [done|]. rewrite Forall_forall in *. intros x Hx. transitivity (align e); [|done].
    apply align_divide; [by apply Hl|apply He|]. destruct (Hle x Hx); lia.
Qed.
End MapEntries.

(** ** Root regions *)

Lemma region_align_pow2 rg : Forall entry_ok (entries rg) -> pow2_align 64 (pci_region_align rg).
Proof.
  unfold pci_region_align. destruct 1 as [|e l He]; [by exists 0|]. apply He.
Qed.

Lemma ALIGN_DOWN64_u64 x a : pow2_align 64 a -> ALIGN_DOWN64 (u64 x) a = u64 (x - x mod a).
Proof.
  intros Ha. unfold ALIGN_DOWN64. rewrite ALIGN_DOWN_w_spec by (done || apply u64_range).
  pose proof (pow2_align_pos _ _ Ha) as Hp. destruct (pow2_align_divide _ _ Ha) as [q Hq].
  assert (Hm : u64 x mod a = x mod a).
  { unfold u64. rewrite Hq, (Z.mul_comm q), Z.rem_mul_r by nia.
    by rewrite (Z.mul_comm a), Z_mod_plus_full, Z.mod_mod by lia. }
  rewrite Hm. unfold u64. pose proof (Z.mod_pos_bound x a Hp) as Hb.
  assert (Hd : u64 x mod a <= u64 x) by (apply Z.mod_le; [apply u64_range|done]).
  rewrite Hm in Hd. unfold u64 in Hd. generalize dependent (x mod a). intros r. intros. lia.
Qed.

(** The highest aligned place for a region that ends at [hi] or before. *)
Definition place_below (hi : Z) (rg : pci_region) : Z :=
  let x := hi - pci_region_sum rg in x - x mod pci_region_align rg.

Lemma place_below_spec hi rg : Forall entry_ok (entries rg) ->
  (pci_region_align rg | place_below hi rg) /\
  place_below hi rg + pci_region_sum rg <= hi < place_below hi rg + pci_region_sum rg + pci_region_align rg.
Proof.
  intros Hok. pose proof (pow2_align_pos _ _ (region_align_pow2 rg Hok)).
  unfold place_below. set (x := hi - _). split; [|pose proof (Z.mod_pos_bound x (pci_region_align rg)); lia].
  exists (x / pci_region_align rg). pose proof (Z.div_mod x (pci_region_align rg)). lia.
Qed.

(** What the code computes, when the place of the region above may have wrapped. *)
Lemma place_below_u64 hi rg : Forall entry_ok (entries rg) ->
  ALIGN_DOWN64 (u64 (hi - pci_region_sum rg)) (pci_region_align rg) = u64 (place_below hi rg).
Proof. intros Hok. by apply ALIGN_DOWN64_u64, region_align_pow2. Qed.

Lemma place_below_wrapped hi rg : Forall entry_ok (entries rg) ->
  ALIGN_DOWN64 (u64 (u64 hi - pci_region_sum rg)) (pci_region_align rg) = u64 (place_below hi rg).
Proof.
  intros Hok. rewrite <- place_below_u64 by done. f_equal. unfold u64. apply Zminus_mod_idemp_l.
Qed.

(** The two types in the order of their places. *)
Definition mem_order (bus : pci_bus) : pci_region_type * pci_region_type :=
  if pci_region_align (r bus PCI_REGION_TYPE_MEM) <? pci_region_align (r bus PCI_REGION_TYPE_PREFMEM)
  then (PCI_REGION_TYPE_PREFMEM, PCI_REGION_TYPE_MEM)
  else (PCI_REGION_TYPE_MEM, PCI_REGION_TYPE_PREFMEM).

Lemma mem_order_ne bus t_start t_end : mem_order bus = (t_start, t_end) ->
  t_start <> t_end /\ t_start <> PCI_REGION_TYPE_IO /\ t_end <> PCI_REGION_TYPE_IO.
Proof. unfold mem_order. destruct (_ <? _); intros [= <- <-]; done. Qed.

Lemma region_sum_range rg : 0 <= pci_region_sum rg.
Proof.
  unfold pci_region_sum. generalize (entries rg) as l. intros l.
  assert (Hg : forall b, 0 <= b -> 0 <= foldl (fun sum e => u64 (sum + size e)) b l); [|by apply Hg].
  induction l as [|e l IH]; intros b Hb; simpl; [done|]. apply IH, u64_range.
Qed.

(** C29: the memory windows of the root bus.  The region with the larger alignment
    goes below the other one, which ends at [pcimem_end].  The function succeeds
    exactly when the place computed without wrap-around is not below
    [pcimem_start] (unsigned wrap-around is detected), and then both bases are
    aligned and the two regions lie in the window, one below the other. *)
Theorem pci_bios_init_root_regions_mem_correct lim bus t_start t_end :
  let rg t := r bus t in
  let e := place_below (pcimem_end lim) (rg t_end) in
  let b := place_below e (rg t_start) in
  mem_order bus = (t_start, t_end) ->
  Forall entry_ok (entries (rg t_start)) -> Forall entry_ok (entries (rg t_end)) ->
  0 <= pcimem_start lim -> 0 <= pcimem_end lim ->
  pcimem_end lim + pci_region_sum (rg t_start) + pci_region_sum (rg t_end)
    + pci_region_align (rg t_start) + pci_region_align (rg t_end) <= 2 ^ 64 ->
  exists bus',
    pci_bios_init_root_regions_mem lim bus = (if pcimem_start lim <=? b then 0 else -1, bus') /\
    (forall t, entries (r bus' t) = entries (rg t)) /\
    r bus' PCI_REGION_TYPE_IO = rg PCI_REGION_TYPE_IO /\
    (pcimem_start lim <= b ->
       base (r bus' t_start) = b /\ base (r bus' t_end) = e /\
       (pci_region_align (rg t_start) | b) /\ (pci_region_align (rg t_end) | e) /\
       b + pci_region_sum (rg t_start) <= e /\ e + pci_region_sum (rg t_end) <= pcimem_end lim).
Proof.
  intros rg e b Ho Hs He H0 H1 Hsum.
  pose proof (place_below_spec (pcimem_end lim) (rg t_end) He) as (Hde & He1 & He2). fold e in Hde, He1, He2.
  pose proof (place_below_spec e (rg t_start) Hs) as (Hdb & Hb1 & Hb2). fold b in Hdb, Hb1, Hb2.
  pose proof (region_sum_range (rg t_start)). pose proof (region_sum_range (rg t_end)).
  pose proof (pow2_align_pos _ _ (region_align_pow2 _ Hs)). pose proof (pow2_align_pos _ _ (region_align_pow2 _ He)).
  destruct (mem_order_ne _ _ _ Ho) as (Hne & Hio1 & Hio2).
  unfold pci_bios_init_root_regions_mem. fold (mem_order bus). rewrite Ho. cbv zeta.
  cbn [base set_base]. rewrite (place_below_u64 _ _ He), (place_below_wrapped _ _ Hs).
  fold (rg t_end) (rg t_start). fold e. fold b.
  eexists. split; [|split_and!].
  - replace ((u64 b <? pcimem_start lim) || (pcimem_end lim <? u64 b))
      with (negb (pcimem_start lim <=? b)) by (unfold u64; zbool).
    by destruct (_ <=? _).
  - intros t. simpl. repeat (case_decide; subst; try done).
  - simpl. by rewrite !decide_False by done.
  - intros Hb. simpl. rewrite decide_True, (decide_False (P := t_end = t_start)), decide_True by done.
    simpl. rewrite !u64_small by lia. split_and!; done || lia.
Qed.

(** ** Bridge windows *)

Definition window_align (t : pci_region_type) (rg : pci_region) : Z :=
  Z.max (if decide (t = PCI_REGION_TYPE_IO) then PCI_BRIDGE_IO_MIN else PCI_BRIDGE_MEM_MIN)
        (pci_region_align rg).

Lemma window_align_pow2 t rg : Forall entry_ok (entries rg) -> pow2_align 64 (window_align t rg).
Proof.
  intros Hok. unfold window_align.
  destruct (Z.max_spec (if decide (t = PCI_REGION_TYPE_IO) then PCI_BRIDGE_IO_MIN else PCI_BRIDGE_MEM_MIN)
              (pci_region_align rg)) as [[_ ->]|[_ ->]]; [by apply region_align_pow2|].
  case_decide; [by exists 12|by exists 21].
Qed.

(** A bridge asks for a window that holds what is behind it.  The size is at
    least the sum of the sizes behind the bridge and at least the reservation of
    its hint, and less than an alignment more than the larger of the two; the
    alignment is a power of two, at least the minimum of the type, and every
    alignment behind the bridge divides it; a hot-pluggable bridge without
    devices gets a window that is not empty; the size is a multiple of the
    alignment except for an I/O window enlarged by its hint. *)
Theorem bridge_window_correct t rg size0 hotplug pcie :
  Forall entry_ok (entries rg) -> 0 <= size0 ->
  pci_region_sum rg + 2 * window_align t rg <= 2 ^ 64 -> size0 + window_align t rg <= 2 ^ 64 ->
  let '(size, align) := bridge_window t rg size0 hotplug pcie in
  align = window_align t rg /\ pow2_align 64 align /\ (pci_region_align rg | align) /\
  pci_region_sum rg <= size /\ size0 <= size /\
  size < Z.max (Z.max size0 (pci_region_sum rg)) 1 + align /\
  (hotplug = true -> (t = PCI_REGION_TYPE_IO -> pcie = false) -> 0 < size) /\
  (t <> PCI_REGION_TYPE_IO \/ size0 <= pci_region_sum rg -> (align | size)).
Proof.
  intros Hok H0 Hs1 Hs2. pose proof (window_align_pow2 t rg Hok) as Hp.
  pose proof (pow2_align_pos _ _ Hp). pose proof (region_sum_range rg) as Hsum.
  pose proof (region_align_pow2 rg Hok) as Hpr.
  assert (Hd : (pci_region_align rg | window_align t rg)).
  { apply align_divide; [done|done|]. unfold window_align. lia. }
  unfold bridge_window.
  set (al := if _ <? pci_region_align rg then _ else _).
  assert (Hal : al = window_align t rg) by (unfold al, window_align; zbool).
  clearbody al. subst al. set (al := window_align t rg) in *.
  set (sum := if (pci_region_sum rg =? 0) && hotplug && _ then al else pci_region_sum rg).
  assert (Hsum' : sum = pci_region_sum rg \/ (pci_region_sum rg = 0 /\ sum = al)).
  { unfold sum. destruct (Z.eqb_spec (pci_region_sum rg) 0); simpl; [|auto].
    destruct (hotplug && _); auto. }
  assert (Hpos : hotplug = true -> (t = PCI_REGION_TYPE_IO -> pcie = false) -> 0 < sum).
  { intros -> Hopt. unfold sum. destruct (Z.eqb_spec (pci_region_sum rg) 0); simpl; [|lia].
    destruct pcie, t; simpl; try lia; by specialize (Hopt eq_refl). }
  clearbody sum.
  pose proof (ALIGN_w_bounds 64 sum al Hp ltac:(lia) ltac:(lia)) as [Hda Hba].
  assert (Hsz : sum = al -> ALIGN64 sum al = al).
  { intros ->. apply ALIGN_w_aligned; try done; lia. }
  split_and!; try done; fold (ALIGN64 sum al) in *.
  all: destruct (Z.ltb_spec sum size0) as [Hlt|Hge]; [pose proof (ALIGN_w_bounds 64 size0 al Hp ltac:(lia) ltac:(lia)) as [Hdb Hbb]; fold (ALIGN64 size0 al) in *; case_decide as Ht|].
  all: try lia.
  all: try (intros; specialize (Hpos ltac:(done) ltac:(done)); lia).
  all: try (intros [? | ?]; [done|]; lia).
  all: try done.
Qed.

(** What the bus reservation hint of a bridge does.  Without a hint the
    subordinate bus is the last bus numbered behind the bridge; a valid hint
    that reaches past it moves it to [secbus + hint].  But every other hint, one
    that is satisfied already or an invalid one, makes it smaller than the last
    bus already numbered: the bus numbers behind the bridge lie outside its
    range and are given out a second time. *)
Theorem reserved_bus_hint_correct tmp_res_bus secbus pci_bus :
  0 < secbus <= pci_bus -> pci_bus < 256 -> 0 <= tmp_res_bus < 2 ^ 32 ->
  let hint := Z.land tmp_res_bus 0xff in
  let res := reserved_bus_hint tmp_res_bus secbus pci_bus in
  if tmp_res_bus =? 0xffffffff then res = pci_bus
  else if (pci_bus <? secbus + hint) && (secbus + hint <? 256) then res = secbus + hint
  else 0 <= res < pci_bus.
Proof.
  intros Hs Hp Ht hint res. unfold res, reserved_bus_hint.
  destruct (Z.eqb_spec tmp_res_bus 0xffffffff); [done|]. fold hint.
  assert (Hh : 0 <= hint < 256).
  { unfold hint. apply (land_pow2_range 8); lia. }
  clearbody hint. clear res. unfold u8.
  destruct (Z.ltb_spec (secbus + hint) 256).
  - replace (((hint + secbus) mod 2 ^ 8 <? secbus) || ((hint + secbus) mod 2 ^ 8 <? hint)) with false by zbool.
    rewrite andb_true_r. zbool.
  - replace (((hint + secbus) mod 2 ^ 8 <? secbus) || ((hint + secbus) mod 2 ^ 8 <? hint)) with true by zbool.
    rewrite andb_false_r. zbool.
Qed.

(** ** New entries *)

Section CreateEntry.
Context {W : Type} (malloc_tmp : M W Z).

Lemma insert_entry_align e l : StronglySorted entry_le l -> Forall (fun x => 0 < align x) (e :: l) ->
  pci_region_align (Region 0 (insert_entry e l)) = Z.max (align e) (pci_region_align (Region 0 l)).
Proof.
  intros Hs Hp. apply Forall_cons in Hp as [He Hp]. unfold pci_region_align. simpl.
  destruct l as [|p l]; simpl; [lia|]. apply Forall_cons in Hp as [Hp _].
  destruct ((align p <? align e) || ((align p =? align e) && (size p <? size e))) eqn:Hc; simpl.
  - apply orb_true_iff in Hc. rewrite andb_true_iff, !Z.ltb_lt, Z.eqb_eq in Hc. lia.
  - apply orb_false_iff in Hc. rewrite andb_false_iff, !Z.ltb_ge, Z.eqb_neq in Hc. lia.
Qed.

Lemma total_perm l l' : Permutation l l' -> total l = total l'.
Proof. induction 1; simpl; lia. Qed.

(** A new entry keeps a region in order.  Without memory nothing is added;
    otherwise the region of the entry's type has the old entries and the new
    one, still sorted, so that the first entry has the largest alignment; the
    base, the other regions and the bridge of the bus stay. *)
Theorem pci_region_create_entry_correct bus dev bar size align t is64 s entry s' :
  malloc_tmp s = Some (entry, s') -> StronglySorted entry_le (entries (r bus t)) ->
  Forall (fun x => 0 < PciInit.align x) (entries (r bus t)) -> 0 < align ->
  if entry =? 0 then pci_region_create_entry malloc_tmp bus dev bar size align t is64 s = Some (None, s')
  else exists bus',
    pci_region_create_entry malloc_tmp bus dev bar size align t is64 s = Some (Some bus', s') /\
    Permutation (entries (r bus' t)) (Entry entry dev bar size align is64 t :: entries (r bus t)) /\
    StronglySorted entry_le (entries (r bus' t)) /\
    pci_region_align (r bus' t) = Z.max align (pci_region_align (r bus t)) /\
    base (r bus' t) = base (r bus t) /\ (forall t', t' <> t -> r bus' t' = r bus t') /\
    bus_dev bus' = bus_dev bus.
Proof.
  intros Hm Hs Hp Ha. unfold pci_region_create_entry. rewrite (bind_some _ _ _ _ _ Hm).
  destruct (Z.eqb_spec entry 0); [done|]. eexists. split; [done|]. simpl.
  rewrite decide_True by done. simpl.
  split_and!; [apply insert_entry_perm|by apply insert_entry_sorted| |done| |done].
  - apply (insert_entry_align (Entry entry dev bar size align is64 t)); [done|by constructor].
  - intros t' Ht. by rewrite decide_False.
Qed.
End CreateEntry.

(** ** Sizing a BAR *)

(** The kinds of base address registers; memory BARs may be prefetchable. *)
Inductive bar_kind := BarIO | BarMem32 (prefetch : bool) | BarMem64 (prefetch : bool) | BarRom.

(** A register of a range of 2^k bytes: the bits one can write, and those that
    are wired (PCI specification, 6.2.5). *)
Definition bar_writable (kind : bar_kind) (k : Z) : Z :=
  match kind with
  | BarMem64 _ => (2 ^ 64 - 2 ^ k) mod 2 ^ 32
  | BarRom => 2 ^ 32 - 2 ^ k + 1
  | _ => 2 ^ 32 - 2 ^ k
  end.
Definition bar_writable_high (k : Z) : Z := (2 ^ 64 - 2 ^ k) / 2 ^ 32.
Definition bar_wired (kind : bar_kind) : Z :=
  match kind with
  | BarIO => 1 | BarMem32 p => 8 * b2z p | BarMem64 p => 4 + 8 * b2z p | BarRom => 0
  end.
Definition bar_kind_ok (kind : bar_kind) (k bar : Z) : Prop :=
  match kind with
  | BarIO => 2 <= k < 32 /\ bar <> PCI_ROM_SLOT
  | BarMem32 _ => 4 <= k < 32 /\ bar <> PCI_ROM_SLOT
  | BarMem64 _ => 4 <= k < 64 /\ bar <> PCI_ROM_SLOT
  | BarRom => 11 <= k < 32 /\ bar = PCI_ROM_SLOT
  end.
Definition bar_type (kind : bar_kind) : pci_region_type :=
  match kind with
  | BarIO => PCI_REGION_TYPE_IO
  | BarMem32 true | BarMem64 true => PCI_REGION_TYPE_PREFMEM
  | _ => PCI_REGION_TYPE_MEM
  end.
Definition bar_is64 (kind : bar_kind) : bool := match kind with BarMem64 _ => true | _ => false end.
Definition bar_mask (kind : bar_kind) : Z :=
  match kind with
  | BarRom => PCI_ROM_ADDRESS_MASK | BarIO => PCI_BASE_ADDRESS_IO_MASK | _ => PCI_BASE_ADDRESS_MEM_MASK
  end.

(** What register [x] holds after writing [v]. *)
Definition bar_write (kind : bar_kind) (k v : Z) : Z :=
  Z.lor (Z.land (u32 v) (bar_writable kind k)) (bar_wired kind).

(** The probe on the values alone, for every kind and size. *)
Definition probed (kind : bar_kind) (k : Z) : Z :=
  let val := bar_write kind k (if kind is BarRom then PCI_ROM_ADDRESS_MASK else 0xffffffff) in
  if bar_is64 kind
  then bar_size (Z.lor val (Z.shiftl (Z.land 0xffffffff (bar_writable_high k)) 32))
                (Z.lor (bar_mask kind) (Z.shiftl 0xffffffff 32)) true
  else bar_size val (bar_mask kind) false.

Lemma probed_all : Forall (fun k =>
    (k < 32 -> probed BarIO k = 2 ^ k) /\ (11 <= k < 32 -> probed BarRom k = 2 ^ k) /\
    forall p, (4 <= k < 32 -> probed (BarMem32 p) k = 2 ^ k) /\ (4 <= k -> probed (BarMem64 p) k = 2 ^ k))
  (seqZ 2 62).
Proof.
  change (seqZ 2 62) with (Z.add 2 <$> (Z.of_nat <$> seq 0 62)). cbn [seq fmap list_fmap].
  repeat (constructor; [split_and!; [intros; try (vm_compute; reflexivity); lia..|
    intros [|]; split; intros; try (vm_compute; reflexivity); lia]|]).
  constructor.
Qed.

Lemma probed_size kind k bar : bar_kind_ok kind k bar -> probed kind k = 2 ^ k.
Proof.
  intros Hok. pose proof probed_all as Hall. rewrite Forall_forall in Hall.
  destruct (Hall k) as (Hio & Hrom & Hmem).
  { apply elem_of_seqZ. destruct kind; simpl in Hok; lia. }
  destruct kind; simpl in Hok; destruct Hok; [apply Hio|apply Hmem|apply Hmem|apply Hrom]; lia.
Qed.

Lemma bar_values kind k bar : bar_kind_ok kind k bar ->
  0 <= bar_writable kind k < 2 ^ 32 /\ 0 <= bar_wired kind < 2 ^ 32.
Proof.
  intros Hok. split; [|destruct kind as [|[]|[]|]; simpl; lia].
  assert (0 < 2 ^ k) by (apply Z.pow_pos_nonneg; destruct kind; simpl in Hok; lia).
  destruct kind; simpl in *; [| |apply Z.mod_pos_bound; lia|].
  - assert (2 ^ k < 2 ^ 32) by (apply Z.pow_lt_mono_r; lia). lia.
  - assert (2 ^ k < 2 ^ 32) by (apply Z.pow_lt_mono_r; lia). lia.
  - assert (2 ^ k < 2 ^ 32) by (apply Z.pow_lt_mono_r; lia).
    assert (2 ^ 11 <= 2 ^ k) by (apply Z.pow_le_mono_r; lia). lia.
Qed.

Lemma land_u32 x y : 0 <= y < 2 ^ 32 -> Z.land (u32 x) y = Z.land x y.
Proof.
  intros Hy. unfold u32. rewrite <- (Z.land_ones x) by lia.
  rewrite <- Z.land_assoc, (Z.land_comm (Z.ones 32)), Z.land_ones, Z.mod_small by lia. done.
Qed.

(** Writing back what was read changes nothing. *)
Lemma bar_write_idem kind k bar v : bar_kind_ok kind k bar ->
  bar_write kind k (bar_write kind k v) = bar_write kind k v.
Proof.
  intros Hok. destruct (bar_values _ _ _ Hok) as [Hw _]. unfold bar_write. rewrite !land_u32 by done.
  apply Z.bits_inj'. intros n Hn. rewrite !Z.lor_spec, !Z.land_spec, !Z.lor_spec, !Z.land_spec.
  destruct (Z.testbit v n), (Z.testbit (bar_writable kind k) n), (Z.testbit (bar_wired kind) n); done.
Qed.

Lemma land_idem_u32 v w : 0 <= w < 2 ^ 32 -> Z.land (u32 (Z.land (u32 v) w)) w = Z.land (u32 v) w.
Proof. intros Hw. rewrite !land_u32 by done. by rewrite <- Z.land_assoc, Z.land_diag. Qed.

Lemma bar_low_bits_all : Forall (fun k =>
    Z.land (bar_writable BarIO k) 1 = 0 /\
    forall p, 4 <= k -> Forall (fun m => (k < 32 -> Z.land (bar_writable (BarMem32 p) k) m = 0) /\
                                        Z.land (bar_writable (BarMem64 p) k) m = 0) [1; 6; 8])
  (seqZ 2 62).
Proof.
  change (seqZ 2 62) with (Z.add 2 <$> (Z.of_nat <$> seq 0 62)). cbn [seq fmap list_fmap].
  repeat (constructor; [split; [vm_compute; reflexivity|intros p; intros; repeat constructor;
    try (vm_compute; reflexivity); lia]|]).
  constructor.
Qed.

(** The wired bits tell the kind. *)
Lemma bar_test kind k bar v m : bar_kind_ok kind k bar ->
  match kind with BarRom => False | BarIO => m = 1 | _ => m = 1 \/ m = 6 \/ m = 8 end ->
  Z.land (bar_write kind k v) m = Z.land (bar_wired kind) m.
Proof.
  intros Hok Hm.
  assert (Hw : Z.land (bar_writable kind k) m = 0).
  { pose proof bar_low_bits_all as Hall. rewrite Forall_forall in Hall.
    destruct (Hall k) as (Hio & Hmem).
    { apply elem_of_seqZ. destruct kind; simpl in Hok; lia. }
    destruct kind as [|p|p|]; [by subst| | |done]; simpl in Hok;
      specialize (Hmem p ltac:(lia)); rewrite Forall_forall in Hmem;
      (destruct (Hmem m) as [H32 H64]; [rewrite !elem_of_cons; tauto|]); [apply H32; lia|done]. }
  unfold bar_write. rewrite Z.land_lor_distr_l, <- Z.land_assoc, Hw. by rewrite Z.land_0_r.
Qed.

Section GetBar.
Context {W : Type} `{Env W} `{Ports W}.
Context (pci : pci_device) (bar : Z) (kind : bar_kind) (k : Z).
Context (lo hi : machine W -> Z).

(** A device with such a register, [lo] and, of a 64-bit one, [hi]. *)
Record bar_device : Prop := {
  read_lo : forall s, exists s', pci_config_readl (bdf pci) (pci_bar pci bar) s = Some (lo s, s') /\
    lo s' = lo s /\ hi s' = hi s;
  write_lo : forall v s, exists s', pci_config_writel (bdf pci) (pci_bar pci bar) v s = Some (tt, s') /\
    lo s' = bar_write kind k v /\ hi s' = hi s;
  read_hi : forall s, bar_is64 kind = true ->
    exists s', pci_config_readl (bdf pci) (pci_bar pci bar + 4) s = Some (hi s, s') /\
    lo s' = lo s /\ hi s' = hi s;
  write_hi : forall v s, bar_is64 kind = true ->
    exists s', pci_config_writel (bdf pci) (pci_bar pci bar + 4) v s = Some (tt, s') /\
    lo s' = lo s /\ hi s' = Z.land (u32 v) (bar_writable_high k) }.

Context (Hdev : bar_device) (Hok : bar_kind_ok kind k bar).

(** What the function makes of the register's value. *)
Lemma bar_decode v : let old := bar_write kind k v in
  let rom := bar =? PCI_ROM_SLOT in
  let io := negb rom && truthy (Z.land old PCI_BASE_ADDRESS_SPACE_IO) in
  (if rom then PCI_ROM_ADDRESS_MASK else if io then PCI_BASE_ADDRESS_IO_MASK else PCI_BASE_ADDRESS_MEM_MASK)
    = bar_mask kind /\
  (if rom then PCI_REGION_TYPE_MEM else if io then PCI_REGION_TYPE_IO
   else if truthy (Z.land old PCI_BASE_ADDRESS_MEM_PREFETCH) then PCI_REGION_TYPE_PREFMEM
   else PCI_REGION_TYPE_MEM) = bar_type kind /\
  negb rom && negb io && (Z.land old PCI_BASE_ADDRESS_MEM_TYPE_MASK =? PCI_BASE_ADDRESS_MEM_TYPE_64)
    = bar_is64 kind /\
  (if rom then PCI_ROM_ADDRESS_MASK else 0xffffffff) = (if kind is BarRom then PCI_ROM_ADDRESS_MASK else 0xffffffff).
Proof.
  intros old rom io. subst rom io. pose proof (bar_test kind k bar v) as Ht. fold old in Ht.
  destruct kind as [|p|p|]; pose proof Hok as Hr; simpl in Hr; destruct Hr as [_ Hr];
    [| | |by rewrite (proj2 (Z.eqb_eq _ _) Hr)];
    rewrite (proj2 (Z.eqb_neq _ _) Hr);
    unfold PCI_BASE_ADDRESS_SPACE_IO, PCI_BASE_ADDRESS_MEM_PREFETCH, PCI_BASE_ADDRESS_MEM_TYPE_MASK.
  - by rewrite (Ht 1).
  - rewrite (Ht 1), (Ht 8), (Ht 6) by auto. by destruct p.
  - rewrite (Ht 1), (Ht 8), (Ht 6) by auto. by destruct p.
Qed.

(** C28: probing a BAR finds its type and size and leaves it as it was.  On a
    register of 2^k bytes of any kind the PCI specification allows (I/O, 32-bit
    or 64-bit memory, prefetchable or not, expansion ROM), [pci_bios_get_bar]
    returns the region type, exactly 2^k, and whether it takes two registers;
    the registers hold their old values again. *)
Theorem pci_bios_get_bar_correct s v vhi :
  lo s = bar_write kind k v -> (bar_is64 kind = true -> hi s = Z.land (u32 vhi) (bar_writable_high k)) ->
  exists s', pci_bios_get_bar pci bar s = Some ((bar_type kind, 2 ^ k, bar_is64 kind), s') /\
    lo s' = lo s /\ hi s' = hi s.
Proof.
  intros Hlo Hhi. destruct (bar_decode v) as (Em & Et & E6 & Ew). cbv zeta in Em, Et, E6, Ew.
  rewrite <- Hlo in Em, Et, E6. unfold pci_bios_get_bar. cbv zeta.
  destruct (read_lo Hdev s) as (s1 & R1 & L1 & H1). rewrite (bind_some _ _ _ _ _ R1).
  rewrite Em, Et, E6.
  replace (if bar =? PCI_ROM_SLOT then bar_mask kind else 0xffffffff)
    with (if kind is BarRom then PCI_ROM_ADDRESS_MASK else 0xffffffff)
    by (rewrite <- Ew, <- Em; by destruct (bar =? PCI_ROM_SLOT)).
  destruct (write_lo Hdev (if kind is BarRom then PCI_ROM_ADDRESS_MASK else 0xffffffff) s1)
    as (s2 & R2 & L2 & H2). rewrite (bind_some _ _ _ _ _ R2).
  destruct (read_lo Hdev s2) as (s3 & R3 & L3 & H3). rewrite (bind_some _ _ _ _ _ R3).
  destruct (write_lo Hdev (lo s) s3) as (s4 & R4 & L4 & H4). rewrite (bind_some _ _ _ _ _ R4).
  assert (Hback : lo s4 = lo s) by (rewrite L4, Hlo; by eapply bar_write_idem).
  pose proof (probed_size _ _ _ Hok) as Hsz. unfold probed in Hsz. cbv zeta in Hsz.
  rewrite <- L2 in Hsz. destruct (bar_is64 kind) eqn:H64.
  - destruct (read_hi Hdev s4 H64) as (s5 & R5 & L5 & H5). rewrite (bind_some _ _ _ _ _ R5).
    destruct (write_hi Hdev 0xffffffff s5 H64) as (s6 & R6 & L6 & H6). rewrite (bind_some _ _ _ _ _ R6).
    destruct (read_hi Hdev s6 H64) as (s7 & R7 & L7 & H7). rewrite (bind_some _ _ _ _ _ R7).
    destruct (write_hi Hdev (hi s4) s7 H64) as (s8 & R8 & L8 & H8). rewrite (bind_some _ _ _ _ _ R8).
    exists s8. rewrite H6. change (u32 0xffffffff) with 0xffffffff. rewrite Hsz.
    split_and!; [done|congruence|].
    rewrite H8, H4, H3, H2, H1, Hhi by done. apply land_idem_u32.
    destruct kind; [done|done| |done]. simpl in Hok. unfold bar_writable_high.
    assert (0 < 2 ^ k) by (apply Z.pow_pos_nonneg; lia).
    assert (2 ^ k < 2 ^ 64) by (apply Z.pow_lt_mono_r; lia). lia.
  - exists s4. rewrite Hsz. split_and!; [done|congruence|congruence].
Qed.
End GetBar.

(** ** Examples *)

Module Demo.
Definition host_dev : pci_device := PciDevice 8 0x0200 0 0.
Definition bridge_dev : pci_device := PciDevice 16 PCI_CLASS_BRIDGE_PCI 1 1.
Definition window1 : pci_region_entry := Entry 100 bridge_dev (-1) 0x400000 0x200000 false PCI_REGION_TYPE_MEM.
Definition bar0 : pci_region_entry := Entry 200 host_dev 0 0x1000 0x1000 false PCI_REGION_TYPE_MEM.
Definition pref0 : pci_region_entry := Entry 300 host_dev 2 0x1000000 0x1000000 false PCI_REGION_TYPE_PREFMEM.
Definition bus0 : pci_bus :=
  PciBus (fun t => match t with
                   | PCI_REGION_TYPE_IO => region_zero
                   | PCI_REGION_TYPE_MEM => Region 0xfe000000 [window1; bar0]
                   | PCI_REGION_TYPE_PREFMEM => Region 0 [pref0]
                   end) None.
Definition bus1 : pci_bus := PciBus (fun _ => region_zero) (Some bridge_dev).
Definition busses : list pci_bus := [bus0; bus1].
Definition limits : pci_limits := Limits 0xe0000000 0xfec00000 0 0 0xa000.

Lemma mem_ok : Forall entry_ok [window1; bar0].
Proof.
  repeat constructor; simpl; try lia; [by exists 21|by exists 2|by exists 12|by exists 1].
Qed.
Lemma mem_sorted : StronglySorted entry_le [window1; bar0].
Proof. repeat constructor; simpl; lia. Qed.

(** A 64-bit prefetchable BAR of 2^34 bytes at register 0x18 of bdf 8. *)
Definition kind64 : bar_kind := BarMem64 true.
Record bar_world := BarWorld { cmd : Z; reg_lo : Z; reg_hi : Z }.
#[export] Instance bar_env : Env bar_world := {
  dev_inb port w := (0, w);
  dev_outb value port w := w;
  env_yield s := s;
  env_yield_toirq s := s;
  env_int nr r s := (r, s) }.
#[export] Instance bar_ports : Ports bar_world := {
  port_inw port w := (0, w);
  port_inl port w := ((if cmd w =? 0x80000818 then reg_lo w else reg_hi w), w);
  port_outw value port w := w;
  port_outl value port w :=
    if port =? PORT_PCI_CMD then BarWorld value (reg_lo w) (reg_hi w)
    else if cmd w =? 0x80000818 then BarWorld (cmd w) (bar_write kind64 34 value) (reg_hi w)
    else BarWorld (cmd w) (reg_lo w) (Z.land value (bar_writable_high 34)) }.
Definition lo (s : machine bar_world) : Z := u32 (reg_lo (mc_world s)).
Definition hi (s : machine bar_world) : Z := u32 (reg_hi (mc_world s)).

Lemma kind64_ok : bar_kind_ok kind64 34 2.
Proof. split; [lia|done]. Qed.

Lemma bar_write_u32 v : u32 (bar_write kind64 34 (u32 v)) = bar_write kind64 34 v.
Proof.
  destruct (bar_values _ _ _ kind64_ok). unfold bar_write. rewrite u32_idem.
  apply u32_small, lor_pow2_range; [lia| |done]. pose proof (u32_range v). apply land_pow2_range; lia.
Qed.

Lemma dev64 : bar_device host_dev 2 kind64 34 lo hi.
Proof.
  constructor; intros; eexists; (split; [reflexivity|]); unfold lo, hi; simpl; split; try done.
  - apply bar_write_u32.
  - pose proof (u32_range v). apply u32_small, land_pow2_range; [lia|lia|vm_compute; split; [discriminate|reflexivity]].
Qed.
End Demo.

#[local] Existing Instance Demo.bar_env.
#[local] Existing Instance Demo.bar_ports.

Lemma pci_bios_get_bar_correct_witness :
  let s := Machine ∅ (Demo.BarWorld 0 0xc 4) in
  exists s', pci_bios_get_bar Demo.host_dev 2 s = Some ((PCI_REGION_TYPE_PREFMEM, 2 ^ 34, true), s') /\
    Demo.lo s' = 0xc /\ Demo.hi s' = 4.
Proof.
  intros s. destruct (pci_bios_get_bar_correct Demo.host_dev 2 Demo.kind64 34 Demo.lo Demo.hi Demo.dev64
              Demo.kind64_ok s 0 4) as (s' & Hr & Hl & Hh).
  - vm_compute. reflexivity.
  - intros _. vm_compute. reflexivity.
  - exists s'. split; [exact Hr|]. split; [rewrite Hl|rewrite Hh]; vm_compute; reflexivity.
Defined.

Lemma pci_region_map_entries_correct_witness :
  exists st', (forall s : machine Demo.bar_world,
      pci_region_map_entries (fun _ => ret tt) (InBus 0 PCI_REGION_TYPE_MEM) (region_zero, Demo.busses) s =
      (do assign (fun _ => ret tt) [(0xfe000000, Demo.window1); (0xfe400000, Demo.bar0)] ;; ret st') s) /\
    Forall (fun x => (align (snd x) | fst x)) [(0xfe000000, Demo.window1); (0xfe400000, Demo.bar0)] /\
    get_region (InBus 0 PCI_REGION_TYPE_MEM) st' = Region 0xfe401000 [] /\
    base (get_region (InBus 1 PCI_REGION_TYPE_MEM) st') = 0xfe000000.
Proof.
  destruct (pci_region_map_entries_correct (W := Demo.bar_world) (fun _ => ret tt)
              (InBus 0 PCI_REGION_TYPE_MEM) (region_zero, Demo.busses)) as (st' & Hr & _ & _ & _ & Hg & Hal).
  - simpl. lia.
  - repeat constructor; simpl; try lia. discriminate.
  - apply entries_sized, Demo.mem_ok.
  - simpl. lia.
  - simpl. lia.
  - exists st'. split; [exact Hr|]. split; [apply Hal; [apply Demo.mem_ok|apply Demo.mem_sorted|by exists 0x7f0]|].
    split; (rewrite Hg; [vm_compute; reflexivity|simpl; lia]).
Defined.

Lemma pci_bios_init_root_regions_mem_correct_witness :
  exists bus', pci_bios_init_root_regions_mem Demo.limits Demo.bus0 = (0, bus') /\
    base (r bus' PCI_REGION_TYPE_MEM) = 0xfe600000 /\ base (r bus' PCI_REGION_TYPE_PREFMEM) = 0xfd000000.
Proof.
  destruct (pci_bios_init_root_regions_mem_correct Demo.limits Demo.bus0 PCI_REGION_TYPE_PREFMEM
              PCI_REGION_TYPE_MEM) as (bus' & Hr & _ & _ & Hb).
  - reflexivity.
  - repeat constructor; simpl; try lia; [by exists 24|by exists 1].
  - apply Demo.mem_ok.
  - simpl. lia.
  - simpl. lia.
  - vm_compute. discriminate.
  - exists bus'. split; [exact Hr|]. destruct Hb as (H1 & H2 & _); [vm_compute; discriminate|].
    rewrite H1, H2. split; vm_compute; reflexivity.
Defined.

Lemma bridge_window_correct_witness :
  bridge_window PCI_REGION_TYPE_MEM (r Demo.bus0 PCI_REGION_TYPE_MEM) 0x500000 true true = (0x600000, 0x200000) /\
  (0x200000 | 0x600000).
Proof.
  pose proof (bridge_window_correct PCI_REGION_TYPE_MEM (r Demo.bus0 PCI_REGION_TYPE_MEM) 0x500000 true true
                Demo.mem_ok ltac:(lia) ltac:(vm_compute; discriminate) ltac:(vm_compute; discriminate)) as Hw.
  split; [vm_compute; reflexivity|]. apply Hw. left. discriminate.
Defined.

Lemma reserved_bus_hint_correct_witness :
  reserved_bus_hint 1 5 7 = 1 /\ 0 <= reserved_bus_hint 1 5 7 < 7.
Proof.
  split; [vm_compute; reflexivity|].
  exact (reserved_bus_hint_correct 1 5 7 ltac:(lia) ltac:(lia) ltac:(lia)).
Defined.

Lemma pci_region_create_entry_correct_witness :
  exists bus', pci_region_create_entry (ret 400) Demo.bus0 Demo.host_dev 1 0x4000 0x4000 PCI_REGION_TYPE_MEM
                 false (Machine ∅ tt) = Some (Some bus', Machine ∅ tt) /\
    StronglySorted entry_le (entries (r bus' PCI_REGION_TYPE_MEM)) /\
    pci_region_align (r bus' PCI_REGION_TYPE_MEM) = 0x200000.
Proof.
  assert (Hp : Forall (fun x => 0 < align x) (entries (r Demo.bus0 PCI_REGION_TYPE_MEM)))
    by (repeat constructor; simpl; lia).
  destruct (pci_region_create_entry_correct (ret 400) Demo.bus0 Demo.host_dev 1 0x4000 0x4000
              PCI_REGION_TYPE_MEM false (Machine ∅ tt) 400 (Machine ∅ tt) eq_refl Demo.mem_sorted Hp ltac:(lia))
    as (bus' & Hr & _ & Hs & Ha & _).
  exists bus'. split; [exact Hr|]. split; [exact Hs|]. rewrite Ha. vm_compute. reflexivity.
Defined.
