(* ===== verification/Block.v ===== *)
(** * Drives: src/block.c

    The drive tables, the geometry translation, the parameter tables a boot
    loader reads and the dispatch of requests to the drivers.  The drivers, the
    mode switch of stacks.c and [malloc_low] are parameters.  The drive
    structures and tables are state of their own, because the code only reaches
    them through their names; variables in the low segment ([VARLOW]) and all
    that a caller sees are in memory. *)
From S2P Require Import Prelude Machine StringOps Timer Pci.
Local Open Scope seabios_scope.

Definition CMOS_BIOS_DISKTRANSFLAG := 0x39.
Definition BUILD_MAX_EXTDRIVE := 16.
Definition CDROM_SECTOR_SIZE := 2048.
Definition DISK_RET_SUCCESS := 0x00.
Definition DISK_RET_EPARAM := 0x01.
Definition DISK_RET_ECHANGED := 0x06.
Definition DISK_RET_EBOUNDARY := 0x09.
Definition DISK_RET_ENOTLOCKED := 0xb0.
Definition DISK_RET_ELOCKED := 0xb1.
Definition DISK_RET_ENOTREMOVABLE := 0xb2.
Definition DISK_RET_ETOOMANYLOCKS := 0xb4.
Definition CMD_RESET := 0x00.
Definition CMD_READ := 0x02.
Definition CMD_WRITE := 0x03.
Definition CMD_VERIFY := 0x04.
Definition CMD_FORMAT := 0x05.
Definition CMD_SEEK := 0x07.
Definition CMD_ISREADY := 0x10.
Definition DTYPE_FLOPPY := 0x10.
Definition DTYPE_ATA := 0x20.
Definition DTYPE_ATA_ATAPI := 0x21.
Definition DTYPE_RAMDISK := 0x30.
Definition DTYPE_CDEMU := 0x40.
Definition DTYPE_AHCI := 0x50.
Definition DTYPE_AHCI_ATAPI := 0x51.
Definition DTYPE_VIRTIO_SCSI := 0x60.
Definition DTYPE_VIRTIO_BLK := 0x61.
Definition DTYPE_USB := 0x70.
Definition DTYPE_USB_32 := 0x71.
Definition DTYPE_UAS := 0x72.
Definition DTYPE_UAS_32 := 0x73.
Definition DTYPE_LSI_SCSI := 0x80.
Definition DTYPE_ESP_SCSI := 0x81.
Definition DTYPE_MEGASAS := 0x82.
Definition DTYPE_PVSCSI := 0x83.
Definition DTYPE_MPT_SCSI := 0x84.
Definition DTYPE_SDCARD := 0x90.
Definition DTYPE_NVME := 0x91.
Definition TRANSLATION_NONE := 0.
Definition TRANSLATION_LBA := 1.
Definition TRANSLATION_LARGE := 2.
Definition TRANSLATION_RECHS := 3.
Definition TRANSLATION_HOST := 4.
Definition ATA_CB_DC := 2.
Definition ATA_CB_DH_DEV0 := 0xa0.
Definition ATA_CB_DH_DEV1 := 0xb0.
Definition ATA_CB_DH_LBA := 0x40.
Definition EDD_ISA := 0x01.
Definition EDD_PCI := 0x02.
Definition EDD_BUS_MASK := 0x0f.
Definition EDD_ATA := 0x10.
Definition EDD_SCSI := 0x20.
Definition EDD_IFACE_MASK := 0xf0.

(** ** Data *)

Record chs_s := Chs { head : Z; cylinder : Z; sector : Z }.

Record drive_s := Drive {
  type : Z; floppy_type : Z; lchs : chs_s; sectors : Z; cntl_id : Z;
  translation : Z; blksize : Z; pchs : chs_s; removable : Z }.

Definition set_lchs (c : chs_s) (d : drive_s) : drive_s :=
  Drive (type d) (floppy_type d) c (sectors d) (cntl_id d) (translation d) (blksize d) (pchs d) (removable d).
Definition set_translation (t : Z) (d : drive_s) : drive_s :=
  Drive (type d) (floppy_type d) (lchs d) (sectors d) (cntl_id d) t (blksize d) (pchs d) (removable d).

Record disk_op_s := Op { buf_fl : Z; drive_fl : Z; command : Z; count : Z; lba : Z }.
Definition set_count (n : Z) (op : disk_op_s) : disk_op_s :=
  Op (buf_fl op) (drive_fl op) (command op) n (lba op).

(** What the ATA driver keeps next to a drive: the fields of its channel. *)
Record ata_info := AtaInfo {
  slave : Z; iobase1 : Z; iobase2 : Z; irq : Z; pci_bdf : Z; chanid : Z }.

Inductive exttype := EXTTYPE_FLOPPY | EXTTYPE_HD | EXTTYPE_CD.
#[export] Instance exttype_eq_dec : EqDecision exttype.
Proof. solve_decision. Defined.

(** [IDMap] and the other globals; drives are known by their addresses.  The
    count of hard drives is in the BDA. *)
Record globals := Globals {
  drives : gmap Z drive_s;
  IDMap : exttype -> list Z;
  FloppyCount : Z; CDCount : Z;
  bounce_buf_fl : Z;
  cdemu_drive_gf : Z }.

Definition drive_zero : drive_s := Drive 0 0 (Chs 0 0 0) 0 0 0 0 (Chs 0 0 0) 0.
Definition drive_at (g : globals) (p : Z) : drive_s := default drive_zero (drives g !! p).
Definition set_drive (p : Z) (d : drive_s) (g : globals) : globals :=
  Globals (<[p := d]> (drives g)) (IDMap g) (FloppyCount g) (CDCount g) (bounce_buf_fl g) (cdemu_drive_gf g).
Definition set_IDMap (t : exttype) (l : list Z) (g : globals) : globals :=
  Globals (drives g) (fun t' => if decide (t' = t) then l else IDMap g t')
    (FloppyCount g) (CDCount g) (bounce_buf_fl g) (cdemu_drive_gf g).
Definition set_FloppyCount (n : Z) (g : globals) : globals :=
  Globals (drives g) (IDMap g) (u8 n) (CDCount g) (bounce_buf_fl g) (cdemu_drive_gf g).
Definition set_CDCount (n : Z) (g : globals) : globals :=
  Globals (drives g) (IDMap g) (FloppyCount g) (u8 n) (bounce_buf_fl g) (cdemu_drive_gf g).
Definition set_bounce_buf (p : Z) (g : globals) : globals :=
  Globals (drives g) (IDMap g) (FloppyCount g) (CDCount g) p (cdemu_drive_gf g).

(** Devices, with the globals of this file. *)
Record block_world (W : Type) := BlockWorld { bw_globals : globals; bw_rest : W }.
Arguments BlockWorld {W}. Arguments bw_globals {W}. Arguments bw_rest {W}.

(** Ports, other threads and interrupt handlers do not touch the globals. *)
Definition on_rest {W} (f : machine W -> machine W) (s : machine (block_world W)) : machine (block_world W) :=
  let s' := f (Machine (mc_mem s) (bw_rest (mc_world s))) in
  Machine (mc_mem s') (BlockWorld (bw_globals (mc_world s)) (mc_world s')).
#[export] Instance block_env {W} `{Env W} : Env (block_world W) := {
  dev_inb port w := let '(v, r) := dev_inb port (bw_rest w) in (v, BlockWorld (bw_globals w) r);
  dev_outb value port w := BlockWorld (bw_globals w) (dev_outb value port (bw_rest w));
  env_yield := on_rest env_yield;
  env_yield_toirq := on_rest env_yield_toirq;
  env_int nr regs s :=
    let '(regs', s') := env_int nr regs (Machine (mc_mem s) (bw_rest (mc_world s))) in
    (regs', Machine (mc_mem s') (BlockWorld (bw_globals (mc_world s)) (mc_world s'))) }.

(** ** Tables *)

Definition getDrive (g : globals) (t : exttype) (extdriveoffset : Z) : Z :=
  if BUILD_MAX_EXTDRIVE <=? u8 extdriveoffset then 0
  else nth (Z.to_nat (u8 extdriveoffset)) (IDMap g t) 0.

Fixpoint getDriveId_loop (n : nat) (i : Z) (g : globals) (t : exttype) (drive : Z) : Z :=
  match n with
  | O => -1
  | S n' => if getDrive g t i =? drive then i else getDriveId_loop n' (i + 1) g t drive
  end.
Definition getDriveId (g : globals) (t : exttype) (drive : Z) : Z :=
  getDriveId_loop (Z.to_nat BUILD_MAX_EXTDRIVE) 0 g t drive.

(** ** Disk geometry translation *)

Definition host_lchs_supplied (drive : drive_s) : bool :=
  (head (lchs drive) <=? 255) && (0 <? sector (lchs drive)) && (sector (lchs drive) <=? 63).

(** The heuristic of [get_translation]; [cylinders * heads] is an int. *)
Definition guess_translation (drive : drive_s) : Z :=
  let heads := head (pchs drive) in
  let cylinders := cylinder (pchs drive) in
  let spt := sector (pchs drive) in
  let psectors := u64 (heads * cylinders * spt) in
  if (heads =? 0) || (cylinders =? 0) || (spt =? 0) || (sectors drive <? psectors) then TRANSLATION_LBA
  else if (cylinders <=? 1024) && (heads <=? 16) && (spt <=? 63) then TRANSLATION_NONE
  else if s32 (cylinders * heads) <=? 131072 then TRANSLATION_LARGE
  else TRANSLATION_LBA.

(** [while (cylinders > 1024)] of the large translation; 16 bits halve at most
    six times. *)
Fixpoint large_loop (n : nat) (cylinders heads : Z) : Z * Z :=
  if cylinders <=? 1024 then (cylinders, heads)
  else
    let cylinders := Z.shiftr cylinders 1 in
    let heads := u16 (Z.shiftl heads 1) in
    if 127 <? heads then (cylinders, heads)
    else match n with O => (cylinders, heads) | S n' => large_loop n' cylinders heads end.

(** The switch of [setup_translation]: cylinders, heads and sectors per track. *)
Definition translate (translation : Z) (drive : drive_s) : Z * Z * Z :=
  let heads := head (pchs drive) in
  let cylinders := cylinder (pchs drive) in
  let spt := sector (pchs drive) in
  let secs := sectors drive in
  if translation =? TRANSLATION_LBA then
    if 63 * 255 * 1024 <? secs then (1024, 255, 63)
    else
      let sect := u32 secs / 63 in
      let heads := u16 (sect / 1024) in
      let heads := if 128 <? heads then 255 else if 64 <? heads then 128
                   else if 32 <? heads then 64 else if 16 <? heads then 32 else 16 in
      (u16 (sect / heads), heads, 63)
  else if translation =? TRANSLATION_RECHS then
    let '(cylinders, heads) :=
      if heads =? 16 then
        let cylinders := if 61439 <? cylinders then 61439 else cylinders in
        (u16 (u32 (cylinders * 16) / 15), 15)
      else (cylinders, heads) in
    let '(cylinders, heads) := large_loop 6 cylinders heads in (cylinders, heads, spt)
  else if translation =? TRANSLATION_LARGE then
    let '(cylinders, heads) := large_loop 6 cylinders heads in (cylinders, heads, spt)
  else if translation =? TRANSLATION_HOST then
    (cylinder (lchs drive), head (lchs drive), sector (lchs drive))
  else (cylinders, heads, spt).

(** The rest of [setup_translation]. *)
Definition with_translation (translation : Z) (drive : drive_s) : drive_s :=
  let '(cylinders, heads, spt) := translate translation drive in
  let cylinders := if 1024 <? cylinders then 1024 else cylinders in
  set_lchs (Chs heads cylinders spt) (set_translation translation drive).

(** A partition's packed position and the ATA info are read where they are. *)
Definition edd_pci_path (bdf channel : Z) : Z :=
  Z.lor (Z.lor (Z.lor (pci_bdf_to_bus bdf) (Z.shiftl (pci_bdf_to_dev bdf) 8))
               (Z.shiftl (pci_bdf_to_fn bdf) 16)) (u32 (Z.shiftl channel 24)).

(** Bytes of a string constant. *)
Fixpoint write_bytes (a : Z) (l : list Z) (m : memory) : memory :=
  match l with [] => m | b :: l' => write_bytes (a + 1) l' (write8 a b m) end.
Definition str_ISA := [0x49; 0x53; 0x41; 0x20].
Definition str_PCI := [0x50; 0x43; 0x49; 0x20].
Definition str_ATA := [0x41; 0x54; 0x41; 0x20; 0x20; 0x20; 0x20; 0x20].
Definition str_SCSI := [0x53; 0x43; 0x53; 0x49; 0x20; 0x20; 0x20; 0x20].

(** Offsets in struct fdpt_s, struct int13dpt_s and struct dpte_s (packed). *)
Module FDPT.
Definition cylinders := 0.
Definition heads := 2.
Definition a0h_signature := 3.
Definition phys_sectors := 4.
Definition precompensation := 5.
Definition drive_control_byte := 8.
Definition phys_cylinders := 9.
Definition phys_heads := 11.
Definition landing_zone := 12.
Definition sectors := 14.
Definition checksum := 15.
Definition size := 16.
Definition ebda := 0x3d.                         (* of the array in the EBDA *)
End FDPT.
Module DPT.
Definition size := 0.
Definition infos := 2.
Definition cylinders := 4.
Definition heads := 8.
Definition spt := 12.
Definition sector_count := 16.
Definition blksize := 24.
Definition dpte := 26.
Definition key := 30.
Definition dpi_length := 32.
Definition reserved1 := 33.
Definition reserved2 := 34.
Definition host_bus := 36.
Definition iface_type := 40.
Definition iface_path := 48.
Definition device_path := 56.
Definition phoenix_checksum := 65.
Definition t13_checksum := 73.
End DPT.

(** What [fill_fdpt] stores at the table. *)
Definition fdpt_table (l p : chs_s) (fdpt : Z) (m : memory) : memory :=
  let m := write16 (fdpt + FDPT.precompensation) 0xffff m in
  let m := write8 (fdpt + FDPT.drive_control_byte)
             (Z.lor 0xc0 (Z.shiftl (b2z (8 <? head p)) 3)) m in
  let m := write16 (fdpt + FDPT.landing_zone) (cylinder p) m in
  let m := write16 (fdpt + FDPT.cylinders) (cylinder l) m in
  let m := write8 (fdpt + FDPT.heads) (head l) m in
  let m := write8 (fdpt + FDPT.sectors) (sector l) m in
  if negb (cylinder l =? cylinder p) || negb (head l =? head p) || negb (sector l =? sector p) then
    let m := write16 (fdpt + FDPT.phys_cylinders) (cylinder p) m in
    let m := write8 (fdpt + FDPT.phys_heads) (head p) m in
    let m := write8 (fdpt + FDPT.phys_sectors) (sector p) m in
    let m := write8 (fdpt + FDPT.a0h_signature) 0xa0 m in
    write8 (fdpt + FDPT.checksum)
      (read8 m (fdpt + FDPT.checksum) - checksum fdpt FDPT.size m) m
  else m.

(** The EDD 1.x part of [fill_generic_edd], at flat address [p]. *)
Definition edd1 (d : drive_s) (p : Z) (m : memory) : memory :=
  let secs := sectors d in
  let m := write16 (p + DPT.size) 26 m in
  let m :=
    if secs =? 2 ^ 64 - 1 then
      let m := write16 (p + DPT.infos) 0x74 m in
      let m := write32 (p + DPT.cylinders) 0xffffffff m in
      let m := write32 (p + DPT.heads) 0xffffffff m in
      write32 (p + DPT.spt) 0xffffffff m
    else
      let m :=
        if u64 (sector (pchs d) * head (pchs d) * 0x3fff) <? secs then
          write32 (p + DPT.cylinders) 0x3fff (write16 (p + DPT.infos) 0x00 m)
        else write32 (p + DPT.cylinders) (cylinder (pchs d)) (write16 (p + DPT.infos) 0x02 m) in
      let m := write32 (p + DPT.heads) (head (pchs d)) m in
      write32 (p + DPT.spt) (sector (pchs d)) m in
  let m := write32 (p + DPT.sector_count) secs m in
  let m := write32 (p + DPT.sector_count + 4) (secs / 2 ^ 32) m in
  write16 (p + DPT.blksize) (blksize d) m.

(** The EDD 3.x part. *)
Definition edd3 (t13 : bool) (bus_iface iface_path device_path seg off : Z) (m : memory) : memory :=
  let p := Z.shiftl seg 4 + off in
  let m := write16 (p + DPT.key) 0xbedd m in
  let m := write8 (p + DPT.dpi_length) (if t13 then 44 else 36) m in
  let m := write8 (p + DPT.reserved1) 0 m in
  let m := write16 (p + DPT.reserved2) 0 m in
  let pci := Z.land bus_iface EDD_BUS_MASK =? EDD_PCI in
  let iface_path := if pci && negb t13 then Z.land iface_path 0x00ffffff else iface_path in
  let m := write_bytes (p + DPT.host_bus) (if pci then str_PCI else str_ISA) m in
  let m := write32 (p + DPT.iface_path) iface_path m in
  let m := write32 (p + DPT.iface_path + 4) 0 m in
  let scsi := Z.land bus_iface EDD_IFACE_MASK =? EDD_SCSI in
  let m := write_bytes (p + DPT.iface_type) (if scsi then str_SCSI else str_ATA) m in
  let m := write32 (p + DPT.device_path) device_path m in
  let m := write32 (p + DPT.device_path + 4) 0 m in
  if t13 then
    let m := write32 (p + DPT.device_path + 8) 0 m in
    let m := write32 (p + DPT.device_path + 12) 0 m in
    write8 (p + DPT.t13_checksum) (- checksum_far seg (off + 30) 43 m) m
  else write8 (p + DPT.phoenix_checksum) (- checksum_far seg (off + 30) 35 m) m.

(** [fill_generic_edd]: the result code and the memory. *)
Definition fill_generic_edd (edd : segoff_s) (d : drive_s) (dpte_so bus_iface iface_path device_path : Z)
    (m : memory) : Z * memory :=
  let seg := so_seg edd in
  let p := Z.shiftl seg 4 + so_offset edd in
  let size := read16 m (p + DPT.size) in
  let t13 := size =? 74 in
  if size <? 26 then (DISK_RET_EPARAM, m)
  else
    let m := edd1 d p m in
    if (size <? 30) || (dpte_so =? 0) then (DISK_RET_SUCCESS, m)
    else
      let m := write16 (p + DPT.size) 30 m in
      let m := write32 (p + DPT.dpte) dpte_so m in
      if (size <? 66) || (bus_iface =? 0) then (DISK_RET_SUCCESS, m)
      else (DISK_RET_SUCCESS, edd3 t13 bus_iface iface_path device_path seg (so_offset edd) m).

(** The options word of the DPTE. *)
Definition dpte_options (CONFIG_ATA_PIO32 : bool) (d : drive_s) : Z :=
  let options :=
    if type d =? DTYPE_ATA then
      if negb (translation d =? TRANSLATION_NONE) && negb (translation d =? TRANSLATION_HOST) then
        let options := Z.shiftl 1 3 in
        let options := if translation d =? TRANSLATION_LBA then Z.lor options (Z.shiftl 1 9) else options in
        if translation d =? TRANSLATION_RECHS then Z.lor options (Z.shiftl 3 9) else options
      else 0
    else Z.lor (Z.shiftl 1 5) (Z.shiftl 1 6) in
  let options := Z.lor options (Z.shiftl 1 4) in
  if CONFIG_ATA_PIO32 then Z.lor options (Z.shiftl 1 7) else options.

(** [fill_ata_edd]'s writes to DefaultDPTE, a variable at offset [dpte] of the
    low segment. *)
Definition fill_dpte (CONFIG_ATA_PIO32 : bool) (SEG_LOW dpte : Z) (a : ata_info) (d : drive_s)
    (m : memory) : memory :=
  let p := Z.shiftl SEG_LOW 4 + dpte in
  let m := write16 p (iobase1 a) m in
  let m := write16 (p + 2) (iobase2 a + ATA_CB_DC) m in
  let m := write8 (p + 4) (Z.lor (if slave a =? 0 then ATA_CB_DH_DEV0 else ATA_CB_DH_DEV1) ATA_CB_DH_LBA) m in
  let m := write8 (p + 5) 0xcb m in
  let m := write8 (p + 6) (irq a) m in
  let m := write8 (p + 7) 1 m in
  let m := write8 (p + 8) 0 m in
  let m := write8 (p + 9) 0 m in
  let m := write16 (p + 10) (dpte_options CONFIG_ATA_PIO32 d) m in
  let m := write16 (p + 12) 0 m in
  let m := write8 (p + 14) 0x11 m in
  write8 (p + 15) (- checksum_far SEG_LOW dpte 15 m) m.

Section Block.
Context {W : Type} `{Env W}.
Context (CONFIG_QEMU CONFIG_ATA CONFIG_ATA_PIO32 CONFIG_DRIVES CONFIG_ENTRY_EXTRASTACK : bool).
Context (SEG_LOW DefaultDPTE : Z).                (* the segment, and the offset in it *)
Context (malloc_low : Z -> M (block_world W) Z).
Context (ata_info_at : Z -> ata_info).           (* by drive *)

Definition get_globals : M (block_world W) globals := fun s => Some (bw_globals (mc_world s), s).
Definition upd_globals (f : globals -> globals) : M (block_world W) unit :=
  fun s => Some (tt, Machine (mc_mem s) (BlockWorld (f (bw_globals (mc_world s))) (bw_rest (mc_world s)))).
Definition get_drive (p : Z) : M (block_world W) drive_s := g <- get_globals ;; ret (drive_at g p).

Definition create_bounce_buf : M (block_world W) Z :=
  g <- get_globals ;;
  if truthy (bounce_buf_fl g) then ret 0
  else
    buf <- malloc_low CDROM_SECTOR_SIZE ;;
    if buf =? 0 then ret (-1)
    else do upd_globals (set_bounce_buf buf) ;; ret 0.

Definition get_translation (drive : drive_s) : M (block_world W) Z :=
  if host_lchs_supplied drive then ret TRANSLATION_HOST
  else if CONFIG_QEMU && (type drive =? DTYPE_ATA) then
    translation <- rtc_read (u8 (CMOS_BIOS_DISKTRANSFLAG + cntl_id drive / 4)) ;;
    ret (Z.land (Z.shiftr translation (2 * (cntl_id drive mod 4))) 0x03)
  else ret (guess_translation drive).

Definition setup_translation (p : Z) : M (block_world W) unit :=
  drive <- get_drive p ;;
  translation <- get_translation drive ;;
  upd_globals (set_drive p (with_translation translation drive)).

(** ** Drive mapping *)

Definition fill_fdpt (drive : drive_s) (hdid : Z) : M (block_world W) unit :=
  if 1 <? hdid then ret tt
  else
    ebda_seg <- get16 BDA.ebda_seg ;;
    let fdpt := MAKE_FLATPTR ebda_seg (FDPT.ebda + FDPT.size * hdid) in
    do upd_mem (fdpt_table (lchs drive) (pchs drive) fdpt) ;;
    let so := SEGOFF ebda_seg (FDPT.ebda + FDPT.size * hdid) in
    if hdid =? 0 then put32 (0x41 * 4) (segoff so) else put32 (0x46 * 4) (segoff so).

(** [add_drive] on a table and its count. *)
Definition add_drive (idmap : list Z) (count drive : Z) : list Z * Z :=
  if BUILD_MAX_EXTDRIVE <=? count then (idmap, count)
  else (<[Z.to_nat count := drive]> idmap, u8 (count + 1)).

Definition map_hd_drive (drive : Z) : M (block_world W) unit :=
  hdid <- get8 BDA.hdcount ;;
  g <- get_globals ;;
  let '(l, n) := add_drive (IDMap g EXTTYPE_HD) hdid drive in
  do upd_globals (set_IDMap EXTTYPE_HD l) ;;
  do put8 BDA.hdcount n ;;
  do setup_translation drive ;;
  d <- get_drive drive ;;
  fill_fdpt d hdid.

Definition map_cd_drive (drive : Z) : M (block_world W) unit :=
  g <- get_globals ;;
  let '(l, n) := add_drive (IDMap g EXTTYPE_CD) (CDCount g) drive in
  upd_globals (fun g => set_CDCount n (set_IDMap EXTTYPE_CD l g)).

Definition map_floppy_drive (drive : Z) : M (block_world W) unit :=
  g <- get_globals ;;
  let '(l, n) := add_drive (IDMap g EXTTYPE_FLOPPY) (FloppyCount g) drive in
  do upd_globals (fun g => set_FloppyCount n (set_IDMap EXTTYPE_FLOPPY l g)) ;;
  if n =? 1 then
    do upd_mem (set_equipment_flags 0x41 0x01) ;; put8 BDA.floppy_harddisk_info 0x07
  else if 2 <=? n then
    do upd_mem (set_equipment_flags 0x41 0x41) ;; put8 BDA.floppy_harddisk_info 0x77
  else ret tt.

(** ** EDD *)

Definition lift {A} (f : memory -> A * memory) : M (block_world W) A :=
  fun s => let '(x, m) := f (mc_mem s) in Some (x, Machine m (mc_world s)).

Definition fill_ata_edd (edd : segoff_s) (drive : Z) : M (block_world W) Z :=
  if negb CONFIG_ATA then ret DISK_RET_EPARAM
  else
    let a := ata_info_at drive in
    d <- get_drive drive ;;
    do upd_mem (fill_dpte CONFIG_ATA_PIO32 SEG_LOW DefaultDPTE a d) ;;
    let '(bustype, ifpath) :=
      if 0 <=? pci_bdf a then (EDD_PCI, edd_pci_path (pci_bdf a) (chanid a)) else (EDD_ISA, iobase1 a) in
    lift (fill_generic_edd edd d (segoff (SEGOFF SEG_LOW DefaultDPTE)) (Z.lor bustype EDD_ATA) ifpath (slave a)).

Definition fill_edd (edd : segoff_s) (drive : Z) : M (block_world W) Z :=
  d <- get_drive drive ;;
  if (type d =? DTYPE_ATA) || (type d =? DTYPE_ATA_ATAPI) then fill_ata_edd edd drive
  else if (type d =? DTYPE_VIRTIO_BLK) || (type d =? DTYPE_VIRTIO_SCSI) then
    lift (fill_generic_edd edd d 0xffffffff (Z.lor EDD_PCI EDD_SCSI) (edd_pci_path (cntl_id d) 0) 0)
  else lift (fill_generic_edd edd d 0 0 0 0).

(** ** Dispatch *)

(** The drivers: a result code and the request with the count done. *)
Inductive driver :=
| ata_atapi_process_op | usb_process_op | uas_process_op | lsi_scsi_process_op | esp_scsi_process_op
| megasas_process_op | mpt_scsi_process_op | virtio_blk_process_op | ahci_process_op
| ahci_atapi_process_op | sdcard_process_op | virtio_scsi_process_op | pvscsi_process_op
| nvme_process_op | floppy_process_op | ata_process_op | ramdisk_process_op | cdemu_process_op.
Context (run : driver -> disk_op_s -> M (block_world W) (Z * disk_op_s)).
(** [call32] runs a function in 32-bit mode, or returns its third argument. *)
Context (call32 : forall A, M (block_world W) A -> A -> M (block_world W) A).

Definition default_process_op (op : disk_op_s) : Z :=
  if (command op =? CMD_FORMAT) || (command op =? CMD_RESET) || (command op =? CMD_ISREADY) ||
     (command op =? CMD_VERIFY) || (command op =? CMD_SEEK)
  then DISK_RET_SUCCESS else DISK_RET_EPARAM.

(** The first matching [case] of a switch on the drive type. *)
Fixpoint dispatch (t : Z) (cases : list (Z * driver)) : option driver :=
  match cases with
  | [] => None
  | (t', f) :: cases' => if t =? t' then Some f else dispatch t cases'
  end.

Definition cases_both : list (Z * driver) :=
  [(DTYPE_ATA_ATAPI, ata_atapi_process_op); (DTYPE_USB, usb_process_op); (DTYPE_UAS, uas_process_op);
   (DTYPE_LSI_SCSI, lsi_scsi_process_op); (DTYPE_ESP_SCSI, esp_scsi_process_op);
   (DTYPE_MEGASAS, megasas_process_op); (DTYPE_MPT_SCSI, mpt_scsi_process_op)].
Definition cases_32 : list (Z * driver) :=
  [(DTYPE_VIRTIO_BLK, virtio_blk_process_op); (DTYPE_AHCI, ahci_process_op);
   (DTYPE_AHCI_ATAPI, ahci_atapi_process_op); (DTYPE_SDCARD, sdcard_process_op);
   (DTYPE_USB_32, usb_process_op); (DTYPE_UAS_32, uas_process_op);
   (DTYPE_VIRTIO_SCSI, virtio_scsi_process_op); (DTYPE_PVSCSI, pvscsi_process_op);
   (DTYPE_NVME, nvme_process_op)].
Definition cases_16 : list (Z * driver) :=
  [(DTYPE_FLOPPY, floppy_process_op); (DTYPE_ATA, ata_process_op); (DTYPE_RAMDISK, ramdisk_process_op);
   (DTYPE_CDEMU, cdemu_process_op)].

(** [process_op_both] with what its default case does. *)
Definition process_op_both (default : M (block_world W) (Z * disk_op_s)) (op : disk_op_s)
    : M (block_world W) (Z * disk_op_s) :=
  d <- get_drive (drive_fl op) ;;
  match dispatch (type d) cases_both with Some f => run f op | None => default end.

Definition process_op_32 (op : disk_op_s) : M (block_world W) (Z * disk_op_s) :=
  d <- get_drive (drive_fl op) ;;
  match dispatch (type d) cases_32 with
  | Some f => run f op
  | None => process_op_both (ret (DISK_RET_EPARAM, op)) op
  end.

Definition process_op_16 (op : disk_op_s) : M (block_world W) (Z * disk_op_s) :=
  d <- get_drive (drive_fl op) ;;
  match dispatch (type d) cases_16 with
  | Some f => run f op
  | None => process_op_both (call32 _ (process_op_32 op) (DISK_RET_EPARAM, op)) op
  end.

Definition process_op (MODESEGMENT : bool) (op : disk_op_s) : M (block_world W) (Z * disk_op_s) :=
  let origcount := count op in
  d <- get_drive (drive_fl op) ;;
  if 64 * 1024 <? s32 (origcount * blksize d) then ret (DISK_RET_EBOUNDARY, set_count 0 op)
  else
    res <- (if MODESEGMENT then process_op_16 op else process_op_32 op) ;;
    let '(r, op) := res in
    ret (r, if truthy r && (count op =? origcount) then set_count 0 op else op).
End Block.
