(* ===== verification/Disk.v ===== *)
(** * Disk services: src/disk.c

    INT 13h and INT 40h.  The stack switch of [send_disk_op] (stacks.c) only
    copies the request; the emulated CD drive's parameters ([CDEmu]) and the
    lock counters ([CDRom_locks]) are variables of the low segment. *)
From S2P Require Import Prelude Machine StringOps Timer Pci Block.
Local Open Scope seabios_scope.

Definition EXTSTART_HD := 0x80.
Definition EXTSTART_CD := 0xe0.

(** Offsets in struct eltorito_s and struct int13ext_s. *)
Module ElTorito.
Definition size := 19.
Definition media := 1.
Definition emulated_drive := 2.
Definition chs_heads := 16.
Definition chs_sptcyl := 17.
Definition chs_cyllow := 18.
End ElTorito.
Module Int13ext.
Definition count := 2.
Definition data := 4.
Definition lba := 8.
End Int13ext.

(** Cylinder, head and sector as INT 13h packs them in CX and DH. *)
Definition chs_of_regs (regs : bregs) : chs_s :=
  Chs (r_dh regs) (Z.lor (r_ch regs) (Z.land (Z.shiftl (r_cl regs) 2) 0x300)) (Z.land (r_cl regs) 0x3f).

(** The block address, computed in 32 bits. *)
Definition chs_lba (geo c : chs_s) : Z :=
  u32 (u32 (u32 (u32 (cylinder c * head geo) + head c) * sector geo) + sector c - 1).

Section Disk.
Context {W : Type} `{Env W}.
Context (CONFIG_DRIVES CONFIG_CDROM_EMU CONFIG_ENTRY_EXTRASTACK CONFIG_ATA CONFIG_ATA_PIO32 : bool).
Context (CONFIG_HARDWARE_IRQ : bool).
Context (SEG_LOW DefaultDPTE CDEmu CDRom_locks diskette_param_table2 : Z).
Context (ata_info_at : Z -> ata_info).
Context (run : driver -> disk_op_s -> M (block_world W) (Z * disk_op_s)).
Context (call32 : forall A, M (block_world W) A -> A -> M (block_world W) A).

(** Addresses of variables of the low segment. *)
Definition low (off : Z) : Z := Z.shiftl SEG_LOW 4 + off.

(** ** Return status *)

Definition set_last_status (regs : bregs) (code : Z) : M (block_world W) unit :=
  if r_dl regs <? EXTSTART_HD then put8 BDA.floppy_last_status code
  else put8 BDA.disk_last_status code.

(** The line number in the upper bits of the code is cut off again. *)
Definition disk_ret (regs : bregs) (status : Z) : M (block_world W) bregs :=
  let code := u8 status in
  do set_last_status regs code ;;
  ret (if truthy code then set_code_invalid regs code else set_code_success regs).

Definition disk_ret_unimplemented (regs : bregs) (status : Z) : M (block_world W) bregs :=
  let code := u8 status in
  do set_last_status regs code ;;
  ret (set_code_unimplemented regs code).

Definition DISK_STUB (regs : bregs) : M (block_world W) bregs := disk_ret regs DISK_RET_SUCCESS.

(** ** Helpers *)

Definition getLCHS (drive : Z) : M (block_world W) chs_s :=
  g <- get_globals ;;
  if CONFIG_CDROM_EMU && (drive =? cdemu_drive_gf g) then
    sptcyl <- get8 (low (CDEmu + ElTorito.chs_sptcyl)) ;;
    cyllow <- get8 (low (CDEmu + ElTorito.chs_cyllow)) ;;
    heads <- get8 (low (CDEmu + ElTorito.chs_heads)) ;;
    ret (Chs (heads + 1) (cyllow + Z.land (Z.shiftl sptcyl 2) 0x300 + 1) (Z.land sptcyl 0x3f))
  else ret (lchs (drive_at g drive)).

(** On the extra stack a copy of the request is run, and only the count goes
    back. *)
Definition send_disk_op (op : disk_op_s) : M (block_world W) (Z * disk_op_s) :=
  if negb CONFIG_DRIVES then ret (-1, op)
  else if negb CONFIG_ENTRY_EXTRASTACK then
    res <- process_op run call32 true op ;;
    let '(status, dop) := res in ret (status, set_count (count dop) op)
  else process_op run call32 true op.

Definition basic_access (regs : bregs) (drive command : Z) : M (block_world W) bregs :=
  let n := r_al regs in
  let c := chs_of_regs regs in
  if (128 <? n) || (n =? 0) || (sector c =? 0) then disk_ret regs DISK_RET_EPARAM
  else
    geo <- getLCHS drive ;;
    if (cylinder geo <=? cylinder c) || (head geo <=? head c) || (sector geo <? sector c)
    then disk_ret regs DISK_RET_EPARAM
    else
      res <- send_disk_op (Op (MAKE_FLATPTR (r_es regs) (r_bx regs)) drive command n (chs_lba geo c)) ;;
      let '(status, dop) := res in
      disk_ret (set_al (count dop) regs) status.

Definition extended_access (regs : bregs) (drive command : Z) : M (block_world W) bregs :=
  let param := Z.shiftl (r_ds regs) 4 + r_si regs in
  lba <- get64 (param + Int13ext.lba) ;;
  d <- get_drive drive ;;
  if sectors d <=? lba then disk_ret regs DISK_RET_EPARAM
  else
    data <- get32 (param + Int13ext.data) ;;
    n <- get16 (param + Int13ext.count) ;;
    if n =? 0 then disk_ret regs DISK_RET_SUCCESS
    else
      res <- send_disk_op (Op (SEGOFF_TO_FLATPTR (segoff_of data)) drive command n lba) ;;
      let '(status, dop) := res in
      do put16 (param + Int13ext.count) (count dop) ;;
      disk_ret regs status.

(** A request without data. *)
Definition simple_op (regs : bregs) (drive command : Z) : M (block_world W) bregs :=
  res <- send_disk_op (Op 0 drive command 0 0) ;;
  disk_ret regs (fst res).

(** ** Handlers *)

Definition disk_1300 (regs : bregs) (drive : Z) := simple_op regs drive CMD_RESET.

Definition disk_1301 (regs : bregs) (drive : Z) : M (block_world W) bregs :=
  v <- get8 (if r_dl regs <? EXTSTART_HD then BDA.floppy_last_status else BDA.disk_last_status) ;;
  ret (set_cf (set_ah v regs) (truthy v)).

Definition disk_1302 (regs : bregs) (drive : Z) := basic_access regs drive CMD_READ.
Definition disk_1303 (regs : bregs) (drive : Z) := basic_access regs drive CMD_WRITE.
Definition disk_1304 (regs : bregs) (drive : Z) := basic_access regs drive CMD_VERIFY.

Definition disk_1305 (regs : bregs) (drive : Z) : M (block_world W) bregs :=
  geo <- getLCHS drive ;;
  let n := r_al regs in
  let cyl := r_ch regs in
  let hd := r_dh regs in
  if (cylinder geo <=? cyl) || (head geo <=? hd) || (n =? 0) || (sector geo <? n)
  then disk_ret regs DISK_RET_EPARAM
  else
    let lba := u32 (u32 (u32 (cyl * head geo) + hd) * sector geo) in
    res <- send_disk_op (Op (MAKE_FLATPTR (r_es regs) (r_bx regs)) drive CMD_FORMAT n lba) ;;
    disk_ret regs (fst res).

(** The last part of [disk_1308]; [nlc] and [nlh] are the last cylinder and
    head, [nls] the sectors per track. *)
Definition report_geometry (regs : bregs) (nlc nlh nls count : Z) : M (block_world W) bregs :=
  media <- get8 (low (CDEmu + ElTorito.media)) ;;
  count <- (if CONFIG_CDROM_EMU && truthy media then
              emudrive <- get8 (low (CDEmu + ElTorito.emulated_drive)) ;;
              let count := if Z.land (Z.lxor emudrive (r_dl regs)) 0x80 =? 0 then u8 (count + 1) else count in
              ret (if (r_dl regs <? EXTSTART_HD) && (2 <? count) then 2 else count)
            else ret count) ;;
  let regs := set_al 0 regs in
  let regs := set_ch (Z.land nlc 0xff) regs in
  let regs := set_cl (Z.lor (Z.land (Z.shiftr nlc 2) 0xc0) (Z.land nls 0x3f)) regs in
  let regs := set_dh nlh regs in
  regs <- disk_ret regs DISK_RET_SUCCESS ;;
  ret (set_dl count regs).

Definition disk_1308 (regs : bregs) (drive : Z) : M (block_world W) bregs :=
  geo <- getLCHS drive ;;
  let nlc := u16 (cylinder geo - 1) in
  let nlh := u16 (head geo - 1) in
  let nls := sector geo in
  g <- get_globals ;;
  if r_dl regs <? EXTSTART_HD then
    media <- get8 (low (CDEmu + ElTorito.media)) ;;
    let regs := set_bx (if CONFIG_CDROM_EMU && (drive =? cdemu_drive_gf g) then media * 2
                        else floppy_type (drive_at g drive)) regs in
    let regs := set_di diskette_param_table2 (set_es SEG_BIOS regs) in
    report_geometry regs nlc nlh nls (FloppyCount g)
  else if r_dl regs <? EXTSTART_CD then
    count <- get8 BDA.hdcount ;;
    report_geometry regs (u16 (nlc - 1)) nlh nls count
  else disk_ret regs DISK_RET_EPARAM.

Definition disk_1309 (regs : bregs) (drive : Z) := DISK_STUB regs.
Definition disk_130c (regs : bregs) (drive : Z) := DISK_STUB regs.
Definition disk_130d (regs : bregs) (drive : Z) := DISK_STUB regs.
Definition disk_1310 (regs : bregs) (drive : Z) := simple_op regs drive CMD_ISREADY.
Definition disk_1311 (regs : bregs) (drive : Z) := DISK_STUB regs.
Definition disk_1314 (regs : bregs) (drive : Z) := DISK_STUB regs.

Definition disk_1315 (regs : bregs) (drive : Z) : M (block_world W) bregs :=
  regs <- disk_ret regs DISK_RET_SUCCESS ;;
  if (r_dl regs <? EXTSTART_HD) || (EXTSTART_CD <=? r_dl regs) then ret (set_ah 1 regs)
  else
    geo <- getLCHS drive ;;
    let lba := u32 (u32 (u32 (cylinder geo - 1) * head geo) * sector geo) in
    ret (set_ah 3 (set_dx (Z.land lba 0xffff) (set_cx (Z.shiftr lba 16) regs))).

Definition disk_1316 (regs : bregs) (drive : Z) : M (block_world W) bregs :=
  if EXTSTART_HD <=? r_dl regs then disk_ret regs DISK_RET_EPARAM else disk_ret regs DISK_RET_ECHANGED.

Definition disk_1341 (regs : bregs) (drive : Z) : M (block_world W) bregs :=
  let regs := set_cx 0x0007 (set_bx 0xaa55 regs) in
  regs <- disk_ret regs DISK_RET_SUCCESS ;; ret (set_ah 0x30 regs).

Definition disk_1342 (regs : bregs) (drive : Z) := extended_access regs drive CMD_READ.
Definition disk_1343 (regs : bregs) (drive : Z) := extended_access regs drive CMD_WRITE.
Definition disk_1344 (regs : bregs) (drive : Z) := extended_access regs drive CMD_VERIFY.

(** The lock counter of the CD drive a caller names. *)
Definition lock_of (regs : bregs) : Z := low (CDRom_locks + (r_dl regs - EXTSTART_CD)).

Definition disk_134500 (regs : bregs) (drive : Z) : M (block_world W) bregs :=
  locks <- get8 (lock_of regs) ;;
  if locks =? 0xff then disk_ret (set_al 1 regs) DISK_RET_ETOOMANYLOCKS
  else do put8 (lock_of regs) (locks + 1) ;; disk_ret (set_al 1 regs) DISK_RET_SUCCESS.

Definition disk_134501 (regs : bregs) (drive : Z) : M (block_world W) bregs :=
  locks <- get8 (lock_of regs) ;;
  if locks =? 0x00 then disk_ret (set_al 0 regs) DISK_RET_ENOTLOCKED
  else
    let locks := u8 (locks - 1) in
    do put8 (lock_of regs) locks ;; disk_ret (set_al (if truthy locks then 1 else 0) regs) DISK_RET_SUCCESS.

Definition disk_134502 (regs : bregs) (drive : Z) : M (block_world W) bregs :=
  locks <- get8 (lock_of regs) ;;
  disk_ret (set_al (if truthy locks then 1 else 0) regs) DISK_RET_SUCCESS.

Definition disk_1345XX (regs : bregs) (drive : Z) := disk_ret_unimplemented regs DISK_RET_EPARAM.

Definition disk_1345 (regs : bregs) (drive : Z) : M (block_world W) bregs :=
  if r_dl regs <? EXTSTART_CD then disk_ret regs DISK_RET_SUCCESS
  else
    match r_al regs with
    | 0x00 => disk_134500 regs drive
    | 0x01 => disk_134501 regs drive
    | 0x02 => disk_134502 regs drive
    | _ => disk_1345XX regs drive
    end.

Definition disk_1346 (regs : bregs) (drive : Z) : M (block_world W) bregs :=
  if r_dl regs <? EXTSTART_CD then disk_ret regs DISK_RET_ENOTREMOVABLE
  else
    locks <- get8 (lock_of regs) ;;
    if negb (locks =? 0) then disk_ret regs DISK_RET_ELOCKED
    else
      br <- call16_int 0x15 (set_dl (r_dl regs) (set_ah 0x52 bregs_zero)) ;;
      if truthy (r_ah br) || truthy (Z.land (r_flags br) F_CF) then disk_ret regs DISK_RET_ELOCKED
      else disk_ret regs DISK_RET_SUCCESS.

Definition disk_1347 (regs : bregs) (drive : Z) := extended_access regs drive CMD_SEEK.

Definition disk_1348 (regs : bregs) (drive : Z) : M (block_world W) bregs :=
  r <- fill_edd CONFIG_ATA CONFIG_ATA_PIO32 SEG_LOW DefaultDPTE ata_info_at
         (SEGOFF (r_ds regs) (r_si regs)) drive ;;
  disk_ret regs r.

Definition disk_1349 (regs : bregs) (drive : Z) : M (block_world W) bregs :=
  if r_dl regs <? EXTSTART_CD then disk_ret regs DISK_RET_SUCCESS
  else ret (set_ah DISK_RET_ECHANGED (set_invalid regs)).

Definition disk_134e (regs : bregs) (drive : Z) : M (block_world W) bregs :=
  match r_al regs with
  | 0x01 | 0x03 | 0x04 | 0x06 => disk_ret regs DISK_RET_SUCCESS
  | _ => disk_ret regs DISK_RET_EPARAM
  end.

Definition disk_13XX (regs : bregs) (drive : Z) := disk_ret_unimplemented regs DISK_RET_EPARAM.

Definition disk_13 (regs : bregs) (drive : Z) : M (block_world W) bregs :=
  do put8 BDA.disk_interrupt_flag 0 ;;
  match r_ah regs with
  | 0x00 => disk_1300 regs drive
  | 0x01 => disk_1301 regs drive
  | 0x02 => disk_1302 regs drive
  | 0x03 => disk_1303 regs drive
  | 0x04 => disk_1304 regs drive
  | 0x05 => disk_1305 regs drive
  | 0x08 => disk_1308 regs drive
  | 0x09 => disk_1309 regs drive
  | 0x0c => disk_130c regs drive
  | 0x0d => disk_130d regs drive
  | 0x10 => disk_1310 regs drive
  | 0x11 => disk_1311 regs drive
  | 0x14 => disk_1314 regs drive
  | 0x15 => disk_1315 regs drive
  | 0x16 => disk_1316 regs drive
  | 0x41 => disk_1341 regs drive
  | 0x42 => disk_1342 regs drive
  | 0x43 => disk_1343 regs drive
  | 0x44 => disk_1344 regs drive
  | 0x45 => disk_1345 regs drive
  | 0x46 => disk_1346 regs drive
  | 0x47 => disk_1347 regs drive
  | 0x48 => disk_1348 regs drive
  | 0x49 => disk_1349 regs drive
  | 0x4e => disk_134e regs drive
  | _ => disk_13XX regs drive
  end.

Definition floppy_13 (regs : bregs) (drive : Z) : M (block_world W) bregs :=
  match r_ah regs with
  | 0x00 | 0x01 | 0x02 | 0x03 | 0x04 | 0x05 | 0x08 | 0x15 | 0x16 => disk_13 regs drive
  | _ => disk_13XX regs drive
  end.

Definition cdemu_134b (regs : bregs) : M (block_world W) bregs :=
  do upd_mem (memcpy_far (r_ds regs) (r_si regs) SEG_LOW CDEmu ElTorito.size) ;;
  do (if r_al regs =? 0x00 then put8 (low (CDEmu + ElTorito.media)) 0x00 else ret tt) ;;
  disk_ret regs DISK_RET_SUCCESS.

(** ** Entry points *)

Definition handle_legacy_disk (regs : bregs) (extdrive : Z) : M (block_world W) bregs :=
  if negb CONFIG_DRIVES then disk_ret regs DISK_RET_EPARAM
  else
    g <- get_globals ;;
    if extdrive <? EXTSTART_HD then
      let drive := getDrive g EXTTYPE_FLOPPY extdrive in
      if drive =? 0 then disk_ret regs DISK_RET_EPARAM else floppy_13 regs drive
    else
      let drive := if EXTSTART_CD <=? extdrive then getDrive g EXTTYPE_CD (extdrive - EXTSTART_CD)
                   else getDrive g EXTTYPE_HD (extdrive - EXTSTART_HD) in
      if drive =? 0 then disk_ret regs DISK_RET_EPARAM else disk_13 regs drive.

Definition handle_40 (regs : bregs) : M (block_world W) bregs := handle_legacy_disk regs (r_dl regs).

Definition handle_13 (regs : bregs) : M (block_world W) bregs :=
  let extdrive := r_dl regs in
  if negb CONFIG_CDROM_EMU then handle_legacy_disk regs extdrive
  else if r_ah regs =? 0x4b then cdemu_134b regs
  else
    media <- get8 (low (CDEmu + ElTorito.media)) ;;
    if negb (truthy media) then handle_legacy_disk regs extdrive
    else
      emudrive <- get8 (low (CDEmu + ElTorito.emulated_drive)) ;;
      if extdrive =? emudrive then
        g <- get_globals ;;
        if 0x16 <? r_ah regs then disk_13XX regs (cdemu_drive_gf g) else disk_13 regs (cdemu_drive_gf g)
      else
        let extdrive :=
          if (extdrive <? EXTSTART_CD) && (Z.land (Z.lxor emudrive extdrive) 0x80 =? 0)
          then u8 (extdrive - 1) else extdrive in
        handle_legacy_disk regs extdrive.

Definition handle_76 : M (block_world W) unit :=
  do put8 BDA.disk_interrupt_flag 0xff ;;
  if negb CONFIG_HARDWARE_IRQ then ret tt
  else do outb 0x20 0xa0 ;; outb 0x20 0x20.
End Disk.
