(* ===== verification/DiskCorrect.v ===== *)
(** * Correctness of the disk services ([Block], [Disk])

    Addressing by cylinder, head and sector, the translated geometry, the
    parameter tables and the lock counters. *)
From S2P Require Import Prelude Machine StringOps Timer Pci Block Disk.
Local Open Scope seabios_scope.

(** ** Addressing *)

Definition capacity (geo : chs_s) : Z := cylinder geo * head geo * sector geo.

(** Sectors count from 1. *)
Definition chs_valid (geo c : chs_s) : Prop :=
  0 <= cylinder c < cylinder geo /\ 0 <= head c < head geo /\ 1 <= sector c <= sector geo.

Lemma chs_lba_linear geo c : chs_valid geo c -> capacity geo <= 2 ^ 32 ->
  chs_lba geo c = (cylinder c * head geo + head c) * sector geo + (sector c - 1) /\
  0 <= chs_lba geo c < capacity geo.
Proof.
  unfold chs_valid, capacity. intros (Hc & Hh & Hs) Hcap.
  set (nc := cylinder geo) in *. set (nh := head geo) in *. set (ns := sector geo) in *.
  set (t := cylinder c * nh + head c).
  assert (Ht : 0 <= t <= nc * nh - 1) by (unfold t; nia).
  assert (Hl : t * ns + (sector c - 1) <= nc * nh * ns - 1) by nia.
  assert (H1 : cylinder c * nh <= t) by (unfold t; lia).
  assert (H2 : t <= t * ns) by nia.
  unfold chs_lba. fold nh ns. rewrite (u32_small (cylinder c * nh)) by nia. fold t.
  rewrite (u32_small t) by nia. rewrite (u32_small (t * ns)) by nia.
  replace (t * ns + sector c - 1) with (t * ns + (sector c - 1)) by lia. rewrite u32_small by nia. nia.
Qed.

Definition lba_chs (geo : chs_s) (lba : Z) : chs_s :=
  Chs ((lba / sector geo) mod head geo) (lba / sector geo / head geo) (lba mod sector geo + 1).

Lemma lba_chs_valid geo lba : 0 < head geo -> 0 < sector geo -> 0 <= lba < capacity geo ->
  chs_valid geo (lba_chs geo lba).
Proof.
  unfold capacity, chs_valid, lba_chs. simpl. intros Hh Hs Hl.
  pose proof (Z.mod_pos_bound lba (sector geo) Hs). pose proof (Z.mod_pos_bound (lba / sector geo) (head geo) Hh).
  assert (lba / sector geo < cylinder geo * head geo) by (apply Z.div_lt_upper_bound; lia).
  split_and!; try lia; try (repeat apply Z.div_pos; lia). apply Z.div_lt_upper_bound; lia.
Qed.

(** Positions and block addresses correspond one to one.  For a geometry of
    at most 2^32 sectors the address is the number of the position in the order
    of cylinder, head and sector, it lies within the capacity, no two valid
    positions share an address, and every address below the capacity has one. *)
Theorem chs_lba_bijective geo :
  0 < head geo -> 0 < sector geo -> capacity geo <= 2 ^ 32 ->
  (forall c, chs_valid geo c ->
     chs_lba geo c = (cylinder c * head geo + head c) * sector geo + (sector c - 1) /\
     0 <= chs_lba geo c < capacity geo /\ lba_chs geo (chs_lba geo c) = c) /\
  (forall lba, 0 <= lba < capacity geo ->
     chs_valid geo (lba_chs geo lba) /\ chs_lba geo (lba_chs geo lba) = lba).
Proof.
  intros Hh Hs Hcap. split.
  - intros c Hc. destruct (chs_lba_linear geo c Hc Hcap) as [He Hr]. split_and!; try done; try lia.
    destruct Hc as (Hcc & Hch & Hcs). rewrite He. destruct c as [h cy s]. unfold lba_chs. simpl in *.
    rewrite Z.div_add_l, (Z.div_small (s - 1)), Z.add_0_r by lia.
    rewrite Z.div_add_l, (Z.div_small h), Z.add_0_r by lia.
    rewrite (Z.add_comm (cy * head geo)), Z_mod_plus_full, (Z.mod_small h) by lia.
    rewrite (Z.add_comm (_ * sector geo)), Z_mod_plus_full, Z.mod_small by lia. f_equal. lia.
  - intros lba Hl. pose proof (lba_chs_valid geo lba Hh Hs Hl) as Hv. split; [done|].
    destruct (chs_lba_linear geo _ Hv Hcap) as [He _]. rewrite He. unfold lba_chs. simpl.
    pose proof (Z.div_mod lba (sector geo)). pose proof (Z.div_mod (lba / sector geo) (head geo)). nia.
Qed.

(** ** Status *)

(** The memory after a handler for [regs] reported [status]. *)
Definition status_stored (regs : bregs) (status : Z) (m : memory) : memory :=
  write8 (if r_dl regs <? EXTSTART_HD then BDA.floppy_last_status else BDA.disk_last_status) (u8 status) m.

(** The registers after it: AH and the carry flag. *)
Definition status_regs (status : Z) (regs : bregs) : bregs :=
  set_cf (set_ah (u8 status) regs) (truthy (u8 status)).

Lemma status_regs_spec status regs :
  r_ah (status_regs status regs) = u8 status /\ cf_set (status_regs status regs) = truthy (u8 status) /\
  r_al (status_regs status regs) = r_al regs /\ r_dl (status_regs status regs) = r_dl regs /\
  r_ecx (status_regs status regs) = r_ecx regs /\ r_edx (status_regs status regs) = r_edx regs.
Proof.
  unfold status_regs. rewrite cf_set_cf. unfold r_ah, r_al.
  assert (He : forall c, r_eax (set_cf (set_ah (u8 status) regs) c) = with_high8 (r_eax regs) (u8 status))
    by (intros []; reflexivity).
  rewrite He, high8_with_high8, low8_with_high8, u8_idem.
  split_and!; try done; by destruct (truthy (u8 status)).
Qed.

Section DiskFacts.
Context {W : Type} `{Env W}.

Lemma disk_ret_eq (regs : bregs) status (s : machine (block_world W)) :
  disk_ret regs status s =
  Some (status_regs status regs, Machine (status_stored regs status (mc_mem s)) (mc_world s)).
Proof.
  unfold disk_ret, set_last_status, status_stored, status_regs, bind, put8, upd_mem, ret.
  unfold set_code_invalid, set_code_success, set_code_invalid_silent. rewrite u8_idem.
  destruct (_ <? _); simpl; (destruct (truthy (u8 status)) eqn:Ht; [done|]);
    (unfold truthy in Ht; apply negb_false_iff, Z.eqb_eq in Ht; by rewrite Ht).
Qed.

Context (CONFIG_DRIVES CONFIG_CDROM_EMU CONFIG_ENTRY_EXTRASTACK : bool).
Context (SEG_LOW CDEmu : Z).
Context (run : driver -> disk_op_s -> M (block_world W) (Z * disk_op_s)).
Context (call32 : forall A, M (block_world W) A -> A -> M (block_world W) A).

Definition access := basic_access CONFIG_DRIVES CONFIG_CDROM_EMU CONFIG_ENTRY_EXTRASTACK SEG_LOW CDEmu run call32.
Definition send := send_disk_op CONFIG_DRIVES CONFIG_ENTRY_EXTRASTACK run call32.

Lemma chs_of_regs_nonneg regs :
  0 <= cylinder (chs_of_regs regs) /\ 0 <= head (chs_of_regs regs) /\ 0 <= sector (chs_of_regs regs).
Proof.
  unfold chs_of_regs, r_dh, r_ch, r_cl. simpl. split_and!.
  - apply Z.lor_nonneg. split; [unfold high8; lia|]. apply Z.land_nonneg. by right.
  - unfold high8. lia.
  - apply Z.land_nonneg. by right.
Qed.

(** C30: reading and writing by cylinder, head and sector.  A request is refused
    with status 1, without reaching a driver, exactly when it asks for no or
    more than 128 sectors or for a position outside the geometry; otherwise
    one request for the linear address of the position, which is below the
    capacity, goes to the driver with the caller's buffer and count.  AL is
    the count the driver did, AH and the BDA get its status, the carry flag
    tells whether that is an error. *)
Theorem basic_access_correct regs drive command geo s :
  getLCHS CONFIG_CDROM_EMU SEG_LOW CDEmu drive s = Some (geo, s) -> capacity geo <= 2 ^ 32 ->
  let c := chs_of_regs regs in
  let lin := (cylinder c * head geo + head c) * sector geo + (sector c - 1) in
  let op := Op (MAKE_FLATPTR (r_es regs) (r_bx regs)) drive command (r_al regs) lin in
  (~ (1 <= r_al regs <= 128 /\ chs_valid geo c) ->
     access regs drive command s =
     Some (status_regs DISK_RET_EPARAM regs,
           Machine (status_stored regs DISK_RET_EPARAM (mc_mem s)) (mc_world s))) /\
  (1 <= r_al regs <= 128 /\ chs_valid geo c -> 0 <= lin < capacity geo /\
     forall status op' s', send op s = Some ((status, op'), s') ->
     exists regs', access regs drive command s =
       Some (regs', Machine (status_stored regs status (mc_mem s')) (mc_world s')) /\
       r_al regs' = u8 (count op') /\ r_ah regs' = u8 status /\ cf_set regs' = truthy (u8 status)).
Proof.
  intros Hgeo Hcap c lin op. pose proof (chs_of_regs_nonneg regs) as Hc. fold c in Hc.
  assert (Hal : 0 <= r_al regs) by (unfold r_al, low8; lia).
  unfold access, basic_access. fold c.
  destruct ((128 <? r_al regs) || (r_al regs =? 0) || (sector c =? 0)) eqn:H1.
  { rewrite !orb_true_iff, Z.ltb_lt, !Z.eqb_eq in H1. split; [intros _; apply disk_ret_eq|].
    unfold chs_valid. lia. }
  rewrite !orb_false_iff, Z.ltb_ge, !Z.eqb_neq in H1. rewrite (bind_some _ _ _ _ _ Hgeo).
  destruct ((cylinder geo <=? cylinder c) || (head geo <=? head c) || (sector geo <? sector c)) eqn:H2.
  { rewrite !orb_true_iff, !Z.leb_le, Z.ltb_lt in H2. split; [intros _; apply disk_ret_eq|].
    unfold chs_valid. lia. }
  rewrite !orb_false_iff, !Z.leb_gt, Z.ltb_ge in H2.
  assert (Hv : chs_valid geo c) by (unfold chs_valid; lia).
  split; [intros Hn; exfalso; apply Hn; split; [lia|done]|]. intros _.
  destruct (chs_lba_linear geo c Hv Hcap) as [He Hr]. rewrite He in Hr. split; [done|].
  intros status op' s' Hs. rewrite He. fold lin op. fold send.
  rewrite (bind_some _ _ _ _ _ Hs), disk_ret_eq.
  eexists. split; [done|]. destruct (status_regs_spec status (set_al (count op') regs)) as (Ha & Hf & Hl & _).
  rewrite Ha, Hf, Hl. split_and!; try done. unfold r_al. simpl. by rewrite low8_with_low8.
Qed.
End DiskFacts.

(** ** The reported geometry *)

(** The packed form of the last position, and its decoding. *)
Definition packed_cl (nlc nls : Z) : Z := Z.lor (Z.land (Z.shiftr nlc 2) 0xc0) (Z.land nls 0x3f).
Definition unpack_ok (nlc nls : Z) : bool :=
  let ch := Z.land nlc 0xff in
  let cl := packed_cl nlc nls in
  (u8 ch =? ch) && (u8 cl =? cl) &&
  (Z.lor ch (Z.land (Z.shiftl cl 2) 0x300) =? nlc) && (Z.land cl 0x3f =? nls).

Lemma unpack_all : forallb (fun c => forallb (unpack_ok c) (seqZ 0 64)) (seqZ 0 1024) = true.
Proof. vm_compute. reflexivity. Qed.

Lemma unpack nlc nls : 0 <= nlc < 1024 -> 0 <= nls < 64 -> unpack_ok nlc nls = true.
Proof.
  intros Hc Hs. pose proof unpack_all as Hall. rewrite forallb_forall in Hall.
  specialize (Hall nlc). rewrite forallb_forall in Hall. apply Hall.
  - apply list_elem_of_In, elem_of_seqZ. lia.
  - apply list_elem_of_In, elem_of_seqZ. lia.
Qed.

Section Geometry.
Context {W : Type} `{Env W}.
Context (CONFIG_CDROM_EMU : bool) (SEG_LOW CDEmu diskette_param_table2 : Z).

Lemma report_geometry_spec regs nlc nlh nls n (s : machine (block_world W)) :
  0 <= nlc < 1024 -> 0 <= nlh < 256 -> 0 <= nls < 64 ->
  exists regs' s',
    report_geometry CONFIG_CDROM_EMU SEG_LOW CDEmu regs nlc nlh nls n s = Some (regs', s') /\
    chs_of_regs regs' = Chs nlh nlc nls /\ r_ah regs' = 0 /\ cf_set regs' = false /\
    mc_world s' = mc_world s.
Proof.
  intros Hc Hh Hs. pose proof (unpack nlc nls Hc Hs) as Hu. unfold unpack_ok in Hu.
  rewrite !andb_true_iff, !Z.eqb_eq in Hu. destruct Hu as [[[Hch Hcl] Hcyl] Hsec].
  unfold report_geometry, get8, bind, ret. fold (packed_cl nlc nls).
  set (cnt := if _ && _ then _ else _).
  assert (Hcnt : exists n', cnt s = Some (n', s)) by (unfold cnt; destruct (_ && _); eauto).
  destruct Hcnt as [n' ->]. rewrite disk_ret_eq. do 2 eexists. split; [done|].
  match goal with |- context [status_regs ?st ?rg] => destruct (status_regs_spec st rg) as (Ha & Hf & _ & _ & Hcx & Hdx) end.
  unfold chs_of_regs, r_ah, r_ch, r_cl, r_dh, cf_set in *. simpl in *.
  rewrite Ha, Hf, !high8_with_low8, !high8_with_high8, low8_with_low8.
  rewrite Hch, Hcl, Hcyl, Hsec, (u8_small nlh) by lia. done.
Qed.

(** The geometry that AH=08h reports can be used with AH=02h.  Decoded the
    way the access functions decode CX and DH, the registers name the last head
    and sector of the drive and its last cylinder (on a hard disk the one
    before, the last one being reserved), and this is a valid position. *)
Theorem disk_1308_reports_last regs drive geo (s : machine (block_world W)) :
  getLCHS CONFIG_CDROM_EMU SEG_LOW CDEmu drive s = Some (geo, s) -> r_dl regs < EXTSTART_CD ->
  let reserved := if r_dl regs <? EXTSTART_HD then 0 else 1 in
  1 + reserved <= cylinder geo <= 1024 -> 1 <= head geo <= 256 -> 1 <= sector geo <= 63 ->
  exists regs' s',
    disk_1308 CONFIG_CDROM_EMU SEG_LOW CDEmu diskette_param_table2 regs drive s = Some (regs', s') /\
    chs_of_regs regs' = Chs (head geo - 1) (cylinder geo - 1 - reserved) (sector geo) /\
    chs_valid geo (chs_of_regs regs') /\ r_ah regs' = 0 /\ cf_set regs' = false.
Proof.
  intros Hgeo Hdl reserved Hc Hh Hs. unfold disk_1308. rewrite (bind_some _ _ _ _ _ Hgeo).
  unfold get_globals at 1. unfold bind at 1. rewrite (u16_small (head geo - 1)) by lia.
  subst reserved. destruct (Z.ltb_spec (r_dl regs) EXTSTART_HD);
    rewrite (u16_small (cylinder geo - 1)) by lia.
  - unfold get8 at 1. unfold bind at 1.
    edestruct report_geometry_spec as (regs' & s' & Hr & Hchs & Ha & Hf & _); cycle 3.
    + do 2 eexists. split; [exact Hr|]. rewrite Hchs. split_and!; try done; [f_equal; lia|].
      unfold chs_valid. simpl. lia.
    + lia.
    + lia.
    + lia.
  - rewrite (proj2 (Z.ltb_lt _ _) Hdl). unfold get8 at 1. unfold bind at 1. rewrite u16_small by lia.
    edestruct report_geometry_spec as (regs' & s' & Hr & Hchs & Ha & Hf & _); cycle 3.
    + do 2 eexists. split; [exact Hr|]. rewrite Hchs. split_and!; try done.
      unfold chs_valid. simpl. lia.
    + lia.
    + lia.
    + lia.
Qed.
End Geometry.

(** ** Translation *)

Lemma large_loop_spec n : forall c h, 0 <= c -> 0 <= h <= 127 ->
  let '(c', h') := large_loop n c h in 0 <= c' /\ 0 <= h' <= 254 /\ c' * h' <= c * h.
Proof.
  induction n as [|n IH]; intros c h Hc Hh; simpl; destruct (Z.leb_spec c 1024); try lia.
  all: rewrite Z.shiftr_div_pow2, Z.shiftl_mul_pow2 by lia; change (2 ^ 1) with 2;
    rewrite (u16_small (h * 2)) by lia; assert (c / 2 * (h * 2) <= c * h) by nia.
  - destruct (127 <? h * 2); split_and!; lia.
  - destruct (Z.ltb_spec 127 (h * 2)); [split_and!; lia|].
    specialize (IH (c / 2) (h * 2)). destruct (large_loop n (c / 2) (h * 2)) as [c' h'].
    destruct IH as (? & ? & ?); [lia|lia|]. split_and!; lia.
Qed.

(** The fields of a drive have their widths; head and sector numbers are those a
    driver can report. *)
Definition drive_ok (d : drive_s) : Prop :=
  0 <= head (pchs d) <= 127 /\ 0 <= cylinder (pchs d) < 2 ^ 16 /\ 0 <= sector (pchs d) <= 63 /\
  0 <= sectors d < 2 ^ 64.

Definition fits (c : Z * Z * Z) (secs : Z) : Prop :=
  let '(cylinders, heads, spt) := c in
  0 <= cylinders /\ 0 <= heads <= 255 /\ 0 <= spt <= 63 /\ cylinders * heads * spt <= secs.

Lemma translate_lba_fits d : 0 <= sectors d -> fits (translate TRANSLATION_LBA d) (sectors d).
Proof.
  intros Hs. unfold translate, fits. simpl. destruct (Z.ltb_spec (63 * 255 * 1024) (sectors d)); [lia|].
  rewrite (u32_small (sectors d)) by lia. set (sect := sectors d / 63).
  assert (Hsect : 0 <= sect <= 255 * 1024) by (unfold sect; lia).
  rewrite (u16_small (sect / 1024)) by lia.
  set (h := if 128 <? sect / 1024 then 255 else _).
  assert (Hh : 16 <= h <= 255) by (unfold h; zbool).
  assert (Hd : sect / h <= sect / 16) by (apply Z.div_le_compat_l; lia).
  assert (0 <= sect / h) by (apply Z.div_pos; lia).
  rewrite u16_small by lia. pose proof (Z.mul_div_le sect h ltac:(lia)).
  assert (63 * sect <= sectors d) by (unfold sect; lia). split_and!; nia.
Qed.

Lemma translate_fits t d : drive_ok d -> t <> TRANSLATION_HOST ->
  t = TRANSLATION_LBA \/ cylinder (pchs d) * head (pchs d) * sector (pchs d) <= sectors d ->
  fits (translate t d) (sectors d).
Proof.
  intros (Hh & Hc & Hs & Hd) Ht Hcap.
  destruct (Z.eq_dec t TRANSLATION_LBA) as [->|Hl]; [apply translate_lba_fits; lia|].
  destruct Hcap as [?|Hcap]; [done|].
  assert (Hloop : forall c h, 0 <= c -> 0 <= h <= 127 -> c * h <= cylinder (pchs d) * head (pchs d) ->
      fits (let '(c', h') := large_loop 6 c h in (c', h', sector (pchs d))) (sectors d)).
  { intros c h H1 H2 H3. pose proof (large_loop_spec 6 c h H1 H2) as Hlo.
    destruct (large_loop 6 c h) as [c' h']. unfold fits. split_and!; try lia. nia. }
  unfold translate. rewrite (proj2 (Z.eqb_neq t _) Hl).
  destruct (Z.eqb_spec t TRANSLATION_RECHS).
  - destruct (Z.eqb_spec (head (pchs d)) 16) as [H16|]; [|apply Hloop; lia].
    set (c := if 61439 <? cylinder (pchs d) then 61439 else _).
    assert (0 <= c <= cylinder (pchs d) /\ c <= 61439) by (unfold c; zbool).
    rewrite u32_small, u16_small by lia. apply Hloop; lia.
  - destruct (t =? TRANSLATION_LARGE); [apply Hloop; lia|].
    rewrite (proj2 (Z.eqb_neq t _) Ht). unfold fits. split_and!; lia.
Qed.

(** What [get_translation] guesses fits. *)
Lemma guess_fits d : drive_ok d -> let t := guess_translation d in
  t <> TRANSLATION_HOST /\
  (t = TRANSLATION_LBA \/ cylinder (pchs d) * head (pchs d) * sector (pchs d) <= sectors d).
Proof.
  intros (Hh & Hc & Hs & Hd). unfold guess_translation.
  assert (Hp : 0 <= head (pchs d) * cylinder (pchs d) * sector (pchs d) < 2 ^ 64).
  { assert (0 <= head (pchs d) * cylinder (pchs d) <= 127 * 2 ^ 16) by nia. nia. }
  rewrite u64_small by done.
  destruct ((head (pchs d) =? 0) || (cylinder (pchs d) =? 0) || (sector (pchs d) =? 0) || _) eqn:Hv.
  - split; [done|by left].
  - rewrite !orb_false_iff, Z.ltb_ge in Hv.
    split; [repeat case_match; done|]. right. lia.
Qed.

Lemma drive_at_set p q d g : drive_at (set_drive p d g) q = if decide (q = p) then d else drive_at g q.
Proof.
  unfold drive_at, set_drive. simpl.
  case_decide as Hq; [subst; by rewrite lookup_insert_eq|by rewrite lookup_insert_ne].
Qed.

Section Translation.
Context {W : Type} `{Env W}.
Context (CONFIG_QEMU : bool).

(** The translated geometry addresses only sectors that exist.  For a drive
    whose own geometry has at most 127 heads and 63 sectors and, when the CMOS
    chooses the translation (ATA drives with CONFIG_QEMU), is not larger than the
    drive: the setup ends; a geometry the host supplied is kept, up to the limit of
    1024 cylinders; otherwise, whatever translation the CMOS or the heuristic
    chooses, the logical geometry has at most 1024 cylinders, 255 heads and 63
    sectors, and its capacity is at most that of the drive.  Other drives and the
    drive's physical geometry stay as they are. *)
Theorem setup_translation_correct p s :
  let g := bw_globals (mc_world s) in
  let d := drive_at g p in
  drive_ok d -> 0 <= cylinder (lchs d) ->
  (CONFIG_QEMU = true -> type d = DTYPE_ATA ->
     cylinder (pchs d) * head (pchs d) * sector (pchs d) <= sectors d) ->
  exists s' t, setup_translation CONFIG_QEMU p s = Some (tt, s') /\
    let g' := bw_globals (mc_world s') in
    let l := lchs (drive_at g' p) in
    (forall q, q <> p -> drive_at g' q = drive_at g q) /\
    pchs (drive_at g' p) = pchs d /\ sectors (drive_at g' p) = sectors d /\
    translation (drive_at g' p) = t /\ 0 <= cylinder l <= 1024 /\
    if host_lchs_supplied d
    then t = TRANSLATION_HOST /\ head l = head (lchs d) /\ sector l = sector (lchs d) /\
         cylinder l = Z.min (cylinder (lchs d)) 1024
    else 0 <= head l <= 255 /\ 0 <= sector l <= 63 /\ capacity l <= sectors d.
Proof.
  intros g d Hok Hl Hcmos.
  assert (Hget : exists t s1, get_translation CONFIG_QEMU d s = Some (t, s1) /\
    bw_globals (mc_world s1) = g /\
    if host_lchs_supplied d then t = TRANSLATION_HOST
    else t <> TRANSLATION_HOST /\
         (t = TRANSLATION_LBA \/ cylinder (pchs d) * head (pchs d) * sector (pchs d) <= sectors d)).
  { unfold get_translation. destruct (host_lchs_supplied d); [by do 2 eexists|].
    destruct (CONFIG_QEMU && (type d =? DTYPE_ATA)) eqn:Hq.
    - apply andb_true_iff in Hq as [Hq Ht]. apply Z.eqb_eq in Ht.
      unfold rtc_read, bind, outb, inb, ret. simpl. destruct (dev_inb _ _) as [v w].
      do 2 eexists. split_and!; [done|done| |right; auto].
      assert (0 <= Z.land (Z.shiftr (u8 v) (2 * (cntl_id d mod 4))) 3 < 2 ^ 2)
        by (apply land_pow2_range; [lia| |lia]; apply Z.shiftr_nonneg, u8_range).
      unfold TRANSLATION_HOST. lia.
    - do 2 eexists. split_and!; [done|done| |]; by apply guess_fits. }
  destruct Hget as (t & s1 & Ht & Hg & Hcase).
  exists (Machine (mc_mem s1) (BlockWorld (set_drive p (with_translation t d) (bw_globals (mc_world s1))) (bw_rest (mc_world s1)))), t.
  split.
  { unfold setup_translation, get_drive. unfold bind at 1 2. unfold get_globals, ret. fold g d.
    by rewrite (bind_some _ _ _ _ _ Ht). }
  cbn [mc_world bw_globals]. rewrite Hg.
  assert (Hf : if host_lchs_supplied d
               then translate t d = (cylinder (lchs d), head (lchs d), sector (lchs d))
               else fits (translate t d) (sectors d)).
  { destruct (host_lchs_supplied d); [by subst t|]. by apply translate_fits; try apply Hcase. }
  split_and!; [intros q Hq; rewrite drive_at_set; by rewrite decide_False|..];
    rewrite drive_at_set, decide_True by done; unfold with_translation;
    destruct (translate t d) as [[cyls heads] spt] eqn:Htr; simpl; try done;
    unfold capacity; simpl; destruct (Z.ltb_spec 1024 cyls);
    destruct (host_lchs_supplied d); simplify_eq; unfold fits in *;
    split_and?; try done; try lia; nia.
Qed.
End Translation.

(** ** Drive parameter tables *)

Lemma sum_bytes_snoc n m : forall a, sum_bytes (S n) a m = sum_bytes n a m + read8 m (a + Z.of_nat n).
Proof.
  induction n as [|n IH]; intros a; [simpl; rewrite !Z.add_0_r; lia|].
  change (sum_bytes (S (S n)) a m) with (read8 m a + sum_bytes (S n) (a + 1) m).
  rewrite IH. simpl sum_bytes. replace (a + 1 + Z.of_nat n) with (a + Z.of_nat (S n)) by lia. lia.
Qed.

Lemma checksum_far_flat seg off len m : checksum_far seg off len m = checksum (Z.shiftl seg 4 + off) len m.
Proof. unfold checksum, checksum_far. by rewrite Z.shiftl_0_l. Qed.

(** Storing the negated checksum behind a table. *)
Lemma checksum_append a n m : 0 <= n ->
  checksum a (n + 1) (write8 (a + n) (- checksum a n m) m) = 0.
Proof.
  intros Hn. rewrite !checksum_sum by lia.
  replace (Z.to_nat (n + 1)) with (S (Z.to_nat n)) by lia.
  rewrite sum_bytes_snoc, sum_bytes_write8, Z2Nat.id, read8_write8_eq by lia.
  range_case (a + n) a n; [lia|]. unfold u8. lia.
Qed.

(** The number of bytes [fill_generic_edd] fills for an EDD 3.x caller. *)
Definition edd3_size (t13 : bool) : Z := if t13 then 74 else 66.

Lemma read8_write_bytes_ne l a m : forall b,
  b < a \/ a + Z.of_nat (length l) <= b -> read8 (write_bytes a l m) b = read8 m b.
Proof.
  revert a m. induction l as [|x l IH]; intros a m b Hb; simpl in *; [done|].
  rewrite IH by lia. apply read8_write8_ne. lia.
Qed.

Lemma edd3_frame t13 bus_iface ifp dp seg off m a :
  let p := Z.shiftl seg 4 + off in
  a < p + 30 \/ p + edd3_size t13 <= a -> read8 (edd3 t13 bus_iface ifp dp seg off m) a = read8 m a.
Proof.
  intros p Ha. unfold edd3. fold p. cbv zeta.
  unfold DPT.key, DPT.dpi_length, DPT.reserved1, DPT.reserved2, DPT.host_bus, DPT.iface_type,
    DPT.iface_path, DPT.device_path, DPT.phoenix_checksum, DPT.t13_checksum, edd3_size in *.
  assert (Hb : forall b : bool, length (if b then str_PCI else str_ISA) = 4%nat) by (intros []; done).
  assert (Hi : forall b : bool, length (if b then str_SCSI else str_ATA) = 8%nat) by (intros []; done).
  destruct t13;
    repeat first [rewrite read8_write8_ne by lia | rewrite read8_write16_ne by lia |
                  rewrite read8_write32_ne by lia |
                  rewrite read8_write_bytes_ne by (rewrite ?Hb, ?Hi; lia)]; done.
Qed.

Lemma edd3_checksum t13 bus_iface ifp dp seg off m :
  checksum (Z.shiftl seg 4 + off + 30) (edd3_size t13 - 30) (edd3 t13 bus_iface ifp dp seg off m) = 0.
Proof.
  unfold edd3. cbv zeta. rewrite !checksum_far_flat, !Z.add_assoc.
  destruct t13; unfold edd3_size, DPT.t13_checksum, DPT.phoenix_checksum.
  - set (p := Z.shiftl seg 4 + off). replace (p + 73) with (p + 30 + 43) by lia.
    apply (checksum_append (p + 30) 43). lia.
  - set (p := Z.shiftl seg 4 + off). replace (p + 65) with (p + 30 + 35) by lia.
    apply (checksum_append (p + 30) 35). lia.
Qed.

Lemma edd1_spec d p m :
  read32 (edd1 d p m) (p + DPT.sector_count) = u32 (sectors d) /\
  read32 (edd1 d p m) (p + DPT.sector_count + 4) = u32 (sectors d / 2 ^ 32) /\
  read16 (edd1 d p m) (p + DPT.blksize) = u16 (blksize d) /\
  (forall a, a < p \/ p + 26 <= a -> read8 (edd1 d p m) a = read8 m a).
Proof.
  unfold edd1. cbv zeta. unfold DPT.size, DPT.infos, DPT.cylinders, DPT.heads, DPT.spt, DPT.sector_count, DPT.blksize.
  split_and!; [by mem_simpl|by mem_simpl|by mem_simpl|]. intros a Ha. mem_simpl.
  destruct (sectors d =? 2 ^ 64 - 1); [by mem_simpl|].
  destruct (_ <? sectors d); by mem_simpl.
Qed.

Lemma read16_frame m m' a : (forall b, a <= b <= a + 1 -> read8 m' b = read8 m b) -> read16 m' a = read16 m a.
Proof. intros Hb. unfold read16. by rewrite !Hb by lia. Qed.
Lemma read32_frame m m' a : (forall b, a <= b <= a + 3 -> read8 m' b = read8 m b) -> read32 m' a = read32 m a.
Proof. intros Hb. unfold read32. by rewrite !(read16_frame m m') by (intros; apply Hb; lia). Qed.

(** The drive parameters of AH=48h.  A buffer of less than 26 bytes is
    refused and left alone.  Otherwise the drive's sector count and block size
    are stored and no byte outside the structure changes: 26 bytes, 30 with the
    DPTE pointer, and 66 or (when the caller's buffer is 74 bytes) 74 with the
    device path, in which case the bytes from the key on sum to zero. *)
Theorem fill_generic_edd_correct edd d dpte_so bus_iface ifp dp m :
  let p := Z.shiftl (so_seg edd) 4 + so_offset edd in
  let size := read16 m p in
  let '(status, m') := fill_generic_edd edd d dpte_so bus_iface ifp dp m in
  if size <? 26 then status = DISK_RET_EPARAM /\ m' = m
  else
    let full := (66 <=? size) && negb (dpte_so =? 0) && negb (bus_iface =? 0) in
    let with_dpte := (30 <=? size) && negb (dpte_so =? 0) in
    let filled := if full then edd3_size (size =? 74) else if with_dpte then 30 else 26 in
    status = DISK_RET_SUCCESS /\
    read16 m' p = (if with_dpte then 30 else 26) /\
    read32 m' (p + 16) = u32 (sectors d) /\ read32 m' (p + 20) = u32 (sectors d / 2 ^ 32) /\
    read16 m' (p + 24) = u16 (blksize d) /\
    (with_dpte = true -> read32 m' (p + 26) = u32 dpte_so) /\
    (full = true -> checksum (p + 30) (filled - 30) m' = 0) /\
    (forall a, a < p \/ p + filled <= a -> read8 m' a = read8 m a).
Proof.
  intros p size. unfold fill_generic_edd. fold p.
  assert (Hsz : read16 m (p + DPT.size) = size) by (unfold DPT.size; by rewrite Z.add_0_r).
  rewrite !Hsz. destruct (Z.ltb_spec size 26); [done|].
  destruct (edd1_spec d p m) as (Hlo & Hhi & Hb & Hf).
  assert (H26 : read16 (edd1 d p m) p = 26).
  { unfold edd1. cbv zeta. unfold DPT.size, DPT.infos, DPT.cylinders, DPT.heads, DPT.spt, DPT.sector_count, DPT.blksize.
    mem_simpl. destruct (sectors d =? 2 ^ 64 - 1); [by rewrite Z.add_0_r; mem_simpl|].
    destruct (_ <? sectors d); by rewrite Z.add_0_r; mem_simpl. }
  unfold DPT.sector_count, DPT.blksize in *. replace (p + 16 + 4) with (p + 20) in Hhi by lia.
  destruct ((size <? 30) || (dpte_so =? 0)) eqn:H1.
  { replace ((30 <=? size) && negb (dpte_so =? 0)) with false by zbool.
    replace ((66 <=? size) && negb (dpte_so =? 0) && negb (bus_iface =? 0)) with false by zbool.
    split_and!; try done. }
  replace ((30 <=? size) && negb (dpte_so =? 0)) with true by zbool.
  replace ((66 <=? size) && negb (dpte_so =? 0)) with (66 <=? size) by zbool.
  set (m2 := write32 (p + DPT.dpte) dpte_so _).
  assert (Hm2 : read16 m2 p = 30 /\ read32 m2 (p + 26) = u32 dpte_so /\
    forall a, p + 2 <= a < p + 26 \/ a < p \/ p + 30 <= a -> read8 m2 a = read8 (edd1 d p m) a).
  { unfold m2, DPT.dpte, DPT.size. rewrite Z.add_0_r. split_and!; [by mem_simpl|by mem_simpl|].
    intros a Ha. by mem_simpl. }
  destruct Hm2 as (H30 & Hdpte & Hf2). clearbody m2.
  assert (Hlo2 : read32 m2 (p + 16) = u32 (sectors d)) by (rewrite <- Hlo; apply read32_frame; intros; apply Hf2; lia).
  assert (Hhi2 : read32 m2 (p + 20) = u32 (sectors d / 2 ^ 32)) by (rewrite <- Hhi; apply read32_frame; intros; apply Hf2; lia).
  assert (Hb2 : read16 m2 (p + 24) = u16 (blksize d)) by (rewrite <- Hb; apply read16_frame; intros; apply Hf2; lia).
  destruct ((size <? 66) || (bus_iface =? 0)) eqn:H2.
  { replace ((66 <=? size) && negb (bus_iface =? 0)) with false by zbool.
    split_and!; try done. intros a Ha. rewrite Hf2 by lia. apply Hf. lia. }
  replace ((66 <=? size) && negb (bus_iface =? 0)) with true by zbool.
  assert (Hfr := fun a => edd3_frame (size =? 74) bus_iface ifp dp (so_seg edd) (so_offset edd) m2 a).
  fold p in Hfr. cbv zeta in Hfr.
  split_and!; try done.
  - rewrite <- H30. apply read16_frame. intros. apply Hfr. lia.
  - rewrite <- Hlo2. apply read32_frame. intros. apply Hfr. lia.
  - rewrite <- Hhi2. apply read32_frame. intros. apply Hfr. lia.
  - rewrite <- Hb2. apply read16_frame. intros. apply Hfr. lia.
  - intros _. rewrite <- Hdpte. apply read32_frame. intros. apply Hfr. lia.
  - intros _. apply edd3_checksum.
  - intros a Ha. rewrite Hfr by lia. unfold edd3_size in Ha.
    rewrite Hf2 by (destruct (size =? 74); lia). apply Hf. destruct (size =? 74); lia.
Qed.

(** ** Locks of removable drives *)

Section Locks.
Context {W : Type} `{Env W}.
Context (SEG_LOW CDRom_locks : Z).

(** What a call with the lock function [al] makes of a counter: the new value,
    the status and AL. *)
Definition lock_step (al c : Z) : Z * Z * Z :=
  if al =? 0 then (if c =? 255 then (c, DISK_RET_ETOOMANYLOCKS, 1) else (c + 1, 0, 1))
  else if al =? 1 then (if c =? 0 then (c, DISK_RET_ENOTLOCKED, 0) else (c - 1, 0, b2z (1 <? c)))
  else (c, 0, b2z (0 <? c)).

Lemma disk_1345_step regs drive (s : machine (block_world W)) :
  EXTSTART_CD <= r_dl regs -> 0 <= r_al regs <= 2 ->
  lock_of SEG_LOW CDRom_locks regs <> BDA.disk_last_status ->
  let a := lock_of SEG_LOW CDRom_locks regs in
  0 <= read8 (mc_mem s) a < 256 ->
  let '(c, status, al) := lock_step (r_al regs) (read8 (mc_mem s) a) in
  exists regs' s', disk_1345 SEG_LOW CDRom_locks regs drive s = Some (regs', s') /\
    read8 (mc_mem s') a = c /\ r_al regs' = al /\ r_ah regs' = status /\
    cf_set regs' = truthy status /\ r_dl regs' = r_dl regs /\ mc_world s' = mc_world s /\
    (forall b, b <> a -> b <> BDA.disk_last_status -> read8 (mc_mem s') b = read8 (mc_mem s) b).
Proof.
  intros Hdl Hal Hne a Hc. set (c := read8 (mc_mem s) a) in *.
  assert (Hst : forall rg st, r_dl rg = r_dl regs ->
    status_stored rg st = write8 BDA.disk_last_status (u8 st)).
  { intros rg st Hrg. unfold status_stored. rewrite Hrg.
    by replace (r_dl regs <? EXTSTART_HD) with false by (unfold EXTSTART_HD, EXTSTART_CD in *; lia). }
  assert (Hout : forall m0 st v, 0 <= st < 256 -> 0 <= v < 256 ->
    let s' := Machine (write8 BDA.disk_last_status (u8 st) m0) (mc_world s) in
    (forall b, b <> a -> b <> BDA.disk_last_status -> read8 m0 b = read8 (mc_mem s) b) ->
    exists regs' s'', disk_ret (set_al v regs) st (Machine m0 (mc_world s)) = Some (regs', s'') /\
      read8 (mc_mem s'') a = read8 m0 a /\ r_al regs' = v /\ r_ah regs' = st /\
      cf_set regs' = truthy st /\ r_dl regs' = r_dl regs /\ mc_world s'' = mc_world s /\
      (forall b, b <> a -> b <> BDA.disk_last_status -> read8 (mc_mem s'') b = read8 (mc_mem s) b)).
  { intros m0 st v Hst0 Hv s' Hm0. rewrite disk_ret_eq, Hst by done. do 2 eexists. split; [done|].
    destruct (status_regs_spec st (set_al v regs)) as (Ha & Hf & Hl & Hd & _).
    rewrite Ha, Hf, Hl, Hd, (u8_small st) by lia. cbn [mc_mem mc_world].
    assert (Hr : r_al (set_al v regs) = v) by (unfold r_al; simpl; rewrite low8_with_low8; apply u8_small; lia).
    rewrite Hr. split_and!; try done; [by rewrite read8_write8_ne|].
    intros b Hb1 Hb2. rewrite read8_write8_ne by congruence. by apply Hm0. }
  assert (Hs : s = Machine (mc_mem s) (mc_world s)) by (by destruct s).
  unfold disk_1345, lock_step. rewrite (proj2 (Z.ltb_ge _ _) Hdl).
  assert (Hcases : r_al regs = 0 \/ r_al regs = 1 \/ r_al regs = 2) by lia.
  destruct Hcases as [-> | [-> | ->]]; simpl.
  - unfold disk_134500, get8, bind. fold a c. destruct (Z.eqb_spec c 255).
    + rewrite Hs. apply Hout; unfold DISK_RET_ETOOMANYLOCKS; try lia; done.
    + simpl. destruct (Hout (write8 a (c + 1) (mc_mem s)) 0 1) as (r' & s'' & Hr & Hrd & ?); try lia.
      { intros b Hb _. by rewrite read8_write8_ne. }
      do 2 eexists. split; [exact Hr|]. rewrite Hrd, read8_write8_eq, u8_small by lia. done.
  - unfold disk_134501, get8, bind. fold a c. destruct (Z.eqb_spec c 0).
    + rewrite Hs. apply Hout; unfold DISK_RET_ENOTLOCKED; try lia; done.
    + simpl. rewrite (u8_small (c - 1)) by lia.
      replace (if truthy (c - 1) then 1 else 0) with (b2z (1 <? c)) by (unfold truthy, b2z; zbool).
      destruct (Hout (write8 a (c - 1) (mc_mem s)) 0 (b2z (1 <? c))) as (r' & s'' & Hr & Hrd & ?); try lia.
      { destruct (1 <? c); simpl; lia. }
      { intros b Hb _. by rewrite read8_write8_ne. }
      do 2 eexists. split; [exact Hr|]. rewrite Hrd, read8_write8_eq, u8_small by lia. done.
  - unfold disk_134502, get8, bind. fold a c.
    replace (if truthy c then 1 else 0) with (b2z (0 <? c)) by (unfold truthy, b2z; zbool).
    destruct (Hout (mc_mem s) 0 (b2z (0 <? c))) as (r' & s'' & Hr & Hrest); try lia; try done.
    { destruct (0 <? c); simpl; lia. }
    rewrite <- Hs in Hr. by exists r', s''.
Qed.
(** A sequence of lock function calls on one drive, with the registers they return. *)
Fixpoint lock_calls (als : list Z) (regs : bregs) (drive : Z) : M (block_world W) (list bregs) :=
  match als with
  | [] => ret []
  | al :: als' =>
    r <- disk_1345 SEG_LOW CDRom_locks (set_al al regs) drive ;;
    rs <- lock_calls als' regs drive ;; ret (r :: rs)
  end.

(** AH, AL and the carry flag of each answer. *)
Fixpoint lock_answers (als : list Z) (c : Z) : list (Z * Z * bool) :=
  match als with
  | [] => []
  | al :: als' => let '(c', status, v) := lock_step al c in (status, v, truthy status) :: lock_answers als' c'
  end.
Definition lock_answer (r : bregs) : Z * Z * bool := (r_ah r, r_al r, cf_set r).
Definition lock_count (als : list Z) (c : Z) : Z := foldl (fun c al => fst (fst (lock_step al c))) c als.

Lemma lock_step_range al c : 0 <= c < 256 -> 0 <= fst (fst (lock_step al c)) < 256.
Proof. intros Hc. unfold lock_step. zbool. Qed.

Lemma lock_count_repeat n : forall c, 0 <= c -> c + Z.of_nat n <= 255 ->
  lock_count (repeat 0 n) c = c + Z.of_nat n /\ lock_count (repeat 1 n) (c + Z.of_nat n) = c.
Proof.
  induction n as [|n IH]; intros c H0 Hc; [simpl; unfold lock_count; simpl; lia|].
  unfold lock_count, lock_step in *. simpl repeat. cbn [foldl]. simpl.
  rewrite (proj2 (Z.eqb_neq c 255)), (proj2 (Z.eqb_neq (c + Z.of_nat (S n)) 0)) by lia. simpl.
  destruct (IH (c + 1)) as [H1 _]; [lia|lia|]. destruct (IH c) as [_ H2]; [lia|lia|].
  rewrite H1. replace (c + Z.of_nat (S n) - 1) with (c + Z.of_nat n) by lia. rewrite H2. lia.
Qed.

(** C31: locks are counted.  Any sequence of lock, unlock and status calls for a
    drive ends; its counter is then the one the sequence makes by [lock_step], and
    each call answers as [lock_step] says: a lock adds one and an unlock takes one
    off, with status 0, AL telling whether the drive is locked and the carry flag
    clear, except that the 256th lock (status B4h) and the unlock of a free drive
    (status B0h) change nothing and set the carry flag; nothing but the counter and
    the status byte changes.  Eject is refused with status B1h, without asking INT
    15h, while the counter is not 0; as many unlocks as locks make it what it was. *)
Theorem cd_locks_correct als regs drive (s : machine (block_world W)) :
  EXTSTART_CD <= r_dl regs -> Forall (fun al => 0 <= al <= 2) als ->
  lock_of SEG_LOW CDRom_locks regs <> BDA.disk_last_status ->
  let a := lock_of SEG_LOW CDRom_locks regs in
  let c := read8 (mc_mem s) a in
  0 <= c < 256 ->
  (exists rs s', lock_calls als regs drive s = Some (rs, s') /\
     map lock_answer rs = lock_answers als c /\
     read8 (mc_mem s') a = lock_count als c /\ mc_world s' = mc_world s /\
     (forall b, b <> a -> b <> BDA.disk_last_status -> read8 (mc_mem s') b = read8 (mc_mem s) b) /\
     (lock_count als c <> 0 ->
        disk_1346 SEG_LOW CDRom_locks regs drive s' =
        Some (status_regs DISK_RET_ELOCKED regs,
              Machine (status_stored regs DISK_RET_ELOCKED (mc_mem s')) (mc_world s)))) /\
  (forall n, c + Z.of_nat n <= 255 -> lock_count (app (repeat 0 n) (repeat 1 n)) c = c).
Proof.
  intros Hdl Hals Hne a c Hc. split; cycle 1.
  { intros n Hn. destruct (lock_count_repeat n c) as [H1 H2]; [lia|done|].
    unfold lock_count in *. by rewrite foldl_app, H1. }
  subst c. revert s Hc. induction Hals as [|al als Hal Hals IH]; intros s Hc; cbn [lock_calls lock_answers].
  - exists [], s. unfold lock_count. simpl. split_and!; try done.
    intros Hnz. unfold disk_1346. rewrite (proj2 (Z.ltb_ge _ _) Hdl). unfold get8, bind. fold a.
    rewrite (proj2 (Z.eqb_neq _ _) Hnz). simpl. by rewrite disk_ret_eq.
  - assert (Hset : r_al (set_al al regs) = al)
      by (unfold r_al; simpl; rewrite low8_with_low8; apply u8_small; lia).
    pose proof (disk_1345_step (set_al al regs) drive s Hdl ltac:(lia) Hne Hc) as Hstep.
    rewrite Hset in Hstep. change (lock_of SEG_LOW CDRom_locks (set_al al regs)) with a in Hstep. cbv zeta in Hstep.
    pose proof (lock_step_range al (read8 (mc_mem s) a) Hc) as Hrg.
    destruct (lock_step al (read8 (mc_mem s) a)) as [[c' st] v] eqn:Hls. simpl in Hrg.
    destruct Hstep as (r' & s1 & Hone & Hrd & Hal' & Hah' & Hcf' & _ & Hw & Hfr). rewrite <- Hrd in Hrg.
    destruct (IH s1 Hrg) as (rs & s' & Hrun & Hans & Hcnt & Hw' & Hfr' & Hej). exists (r' :: rs), s'.
    unfold lock_count in *. cbn [foldl]. rewrite Hls. cbn [fst]. rewrite Hrd in Hcnt, Hej, Hans. rewrite Hw in Hw', Hej.
    split_and!; try done.
    + rewrite (bind_some _ _ _ _ _ Hone). by rewrite (bind_some _ _ _ _ _ Hrun).
    + cbn [map]. rewrite Hans. unfold lock_answer. by rewrite Hah', Hal', Hcf'.
    + intros b Hb1 Hb2. rewrite Hfr' by done. by apply Hfr.
Qed.
End Locks.

(** ** Examples *)

Module Demo.
(** One ATA disk of 2048000 sectors at address 0x1000, without a supplied
    logical geometry; devices that answer 0. *)
Definition disk0 : drive_s := Drive DTYPE_ATA 0 (Chs 0x8000 0 0) 2048000 0 0 512 (Chs 16 2031 63) 0.
Definition globals0 : globals :=
  Globals {[0x1000 := disk0]} (fun t => if decide (t = EXTTYPE_HD) then 0x1000 :: repeat 0 15 else repeat 0 16)
    0 0 0 0.
#[export] Instance env : Env unit := {
  dev_inb port w := (0, w);
  dev_outb value port w := w;
  env_yield s := s;
  env_yield_toirq s := s;
  env_int nr r s := (r, s) }.
Definition start : machine (block_world unit) := Machine ∅ (BlockWorld globals0 tt).

(** A driver that does every request. *)
Definition run (f : driver) (op : disk_op_s) : M (block_world unit) (Z * disk_op_s) := ret (0, op).
Definition call32 (A : Type) (c : M (block_world unit) A) (err : A) : M (block_world unit) A := c.

(** AH=02h: two sectors from cylinder 3, head 1, sector 5. *)
Definition disk1 : drive_s := set_lchs (Chs 64 507 63) disk0.
Definition start1 : machine (block_world unit) :=
  Machine ∅ (BlockWorld (set_drive 0x1000 disk1 globals0) tt).
Definition read_regs : bregs := Bregs 0 0x2000 0 0 0 0 0x0180 0x0305 0x0202 (Segoff 0 0) 0.
Definition cd_regs : bregs := set_dl 0xe1 bregs_zero.
End Demo.

#[local] Existing Instance Demo.env.

Lemma chs_lba_bijective_witness :
  let geo := Chs 64 507 63 in
  chs_lba geo (Chs 1 3 5) = 12163 /\ lba_chs geo 12163 = Chs 1 3 5 /\ chs_valid geo (lba_chs geo 12163).
Proof.
  intros geo. destruct (chs_lba_bijective geo) as [H1 H2]; [simpl; lia|simpl; lia|vm_compute; discriminate|].
  destruct (H1 (Chs 1 3 5)) as (Ha & _ & Hb); [unfold chs_valid; simpl; lia|].
  split; [rewrite Ha; vm_compute; reflexivity|]. split; [rewrite <- Hb; vm_compute; reflexivity|].
  apply H2. unfold capacity. simpl. lia.
Defined.

Lemma basic_access_correct_witness :
  exists regs', access true false true 0 0 Demo.run Demo.call32 Demo.read_regs 0x1000 CMD_READ Demo.start1 =
    Some (regs', Machine (status_stored Demo.read_regs 0 ∅) (mc_world Demo.start1)) /\
  r_al regs' = 2 /\ cf_set regs' = false.
Proof.
  destruct (basic_access_correct true false true 0 0 Demo.run Demo.call32 Demo.read_regs 0x1000 CMD_READ
              (Chs 64 507 63) Demo.start1 eq_refl ltac:(vm_compute; discriminate)) as [_ Hok].
  destruct Hok as [_ Hrun].
  { split; [vm_compute; split; discriminate|].
    unfold chs_valid; split_and!; vm_compute; reflexivity || discriminate. }
  destruct (Hrun 0 _ _ eq_refl) as (regs' & Hr & Hal & _ & Hcf).
  exists regs'. split; [exact Hr|]. rewrite Hal, Hcf. split; vm_compute; reflexivity.
Defined.

Lemma disk_1308_reports_last_witness :
  exists regs' s', disk_1308 false 0 0 0xfefc7 Demo.read_regs 0x1000 Demo.start1 = Some (regs', s') /\
    chs_of_regs regs' = Chs 63 505 63.
Proof.
  destruct (disk_1308_reports_last false 0 0 0xfefc7 Demo.read_regs 0x1000 (Chs 64 507 63) Demo.start1
              eq_refl) as (regs' & s' & Hr & Hc & _);
    [vm_compute; reflexivity|vm_compute; split; discriminate|vm_compute; split; discriminate|
     vm_compute; split; discriminate|].
  exists regs', s'. split; [exact Hr|exact Hc].
Defined.

Lemma setup_translation_correct_witness :
  exists s' t, setup_translation false 0x1000 Demo.start = Some (tt, s') /\
    capacity (lchs (drive_at (bw_globals (mc_world s')) 0x1000)) <= 2048000 /\ t = TRANSLATION_LARGE /\
    translation (drive_at (bw_globals (mc_world s')) 0x1000) = t.
Proof.
  destruct (setup_translation_correct false 0x1000 Demo.start) as (s' & t & Hs & _ & _ & _ & Ht & _ & Hl).
  - unfold drive_ok. split_and!; vm_compute; reflexivity || discriminate.
  - vm_compute. discriminate.
  - discriminate.
  - exists s', t. split; [exact Hs|]. split; [apply Hl|]. split; [|exact Ht].
    rewrite <- Ht. injection Hs as <-. vm_compute. reflexivity.
Defined.

Lemma cd_locks_correct_witness :
  exists rs s', lock_calls 0x9000 0x100 [0; 0; 1; 1; 1; 0] Demo.cd_regs 5 Demo.start = Some (rs, s') /\
    map lock_answer rs = [(0, 1, false); (0, 1, false); (0, 1, false); (0, 0, false); (0xb0, 0, true); (0, 1, false)] /\
    read8 (mc_mem s') 0x90101 = 1.
Proof.
  destruct (cd_locks_correct 0x9000 0x100 [0; 0; 1; 1; 1; 0] Demo.cd_regs 5 Demo.start) as [(rs & s' & Hr & Ha & Hc & _) _].
  - vm_compute. discriminate.
  - repeat constructor; lia.
  - vm_compute. discriminate.
  - vm_compute. split; [discriminate|reflexivity].
  - exists rs, s'. split; [exact Hr|]. split; [etransitivity; [exact Ha|]; vm_compute; reflexivity|].
    etransitivity; [exact Hc|]. vm_compute. reflexivity.
Defined.
