(* ===== verification/ScsiCmd.v ===== *)
(** * SCSI commands: src/hw/blockcmd.c

    Requests as the drivers of SCSI-like devices take them.  A request for a SCSI
    command keeps the block size and the address of the command where other
    requests keep the block address (an anonymous union of struct disk_op_s).
    Local structures are at addresses the sections fix.  A shift by 32 or more,
    which C leaves undefined, is a parameter, as are the allocator's functions
    and those of boot.c that name a drive in the boot menu. *)
From S2P Require Import Prelude Machine StringOps Bytes Timer Pci Block.
Local Open Scope seabios_scope.

Definition CMD_SCSI := 0x20.
Definition CDB_CMD_READ_10 := 0x28.
Definition CDB_CMD_WRITE_10 := 0x2a.
Definition CDB_CMD_READ_CAPACITY := 0x25.
Definition CDB_CMD_TEST_UNIT_READY := 0x00.
Definition CDB_CMD_INQUIRY := 0x12.
Definition CDB_CMD_REQUEST_SENSE := 0x03.
Definition CDB_CMD_MODE_SENSE := 0x5a.
Definition CDB_CMD_REPORT_LUNS := 0xa0.
Definition MODE_PAGE_HD_GEOMETRY := 0x04.
Definition SCSI_TYPE_DISK := 0x00.
Definition SCSI_TYPE_CDROM := 0x05.
Definition DISK_SECTOR_SIZE := 512.

(** The command blocks are 16 bytes; offsets of their fields and of those of the
    answers (blockcmd.h), and the sizes of the answers. *)
Definition sizeof_cdb := 16.
Module CDB.
Definition command := 0.
Definition flags := 1.
Definition page := 2.                            (* cdb_mode_sense *)
Definition lba := 2.                             (* cdb_rwdata_10 *)
Definition length := 4.                          (* cdb_request_sense *)
Definition luns_length := 6.                     (* cdb_report_luns *)
Definition count := 7.                           (* cdb_rwdata_10, cdb_mode_sense *)
End CDB.
Module Sense.
Definition asc := 12.
Definition ascq := 13.
Definition size := 18.
End Sense.
Module Inquiry.
Definition pdt := 0.
Definition removable := 1.
Definition vendor := 8.
Definition product := 16.
Definition rev := 32.
Definition size := 36.
End Inquiry.
Module Capacity.
Definition sectors := 0.
Definition blksize := 4.
Definition size := 8.
End Capacity.
Module Geom.
Definition cyl := 10.
Definition heads := 13.
Definition size := 27.
End Geom.
Module ReportLuns.
Definition length := 0.
Definition luns := 8.
Definition sizeof_lun := 8.
End ReportLuns.

(** The two other members of the union: [blocksize] in the first two bytes,
    [cdbcmd] in the last four. *)
Definition blocksize (op : disk_op_s) : Z := u16 (lba op).
Definition cdbcmd (op : disk_op_s) : Z := u32 (lba op / 2 ^ 32).
Definition set_scsi (blocksize cdbcmd : Z) (op : disk_op_s) : Z :=
  u16 blocksize + (u32 (lba op) - u16 (lba op)) + 2 ^ 32 * u32 cdbcmd.

(** What the functions of this file set before they call [process_op]. *)
Definition scsi_request (buf count blocksize cdbcmd : Z) (op : disk_op_s) : disk_op_s :=
  Op buf (drive_fl op) CMD_SCSI count (set_scsi blocksize cdbcmd op).

(** Changes to a drive. *)
Definition set_removable (v : Z) (d : drive_s) : drive_s :=
  Drive (type d) (floppy_type d) (lchs d) (sectors d) (cntl_id d) (translation d) (blksize d) (pchs d) v.
Definition set_size (blksize sectors : Z) (d : drive_s) : drive_s :=
  Drive (type d) (floppy_type d) (lchs d) sectors (cntl_id d) (translation d) blksize (pchs d) (removable d).
Definition set_blksize (v : Z) (d : drive_s) : drive_s := set_size v (sectors d) d.
Definition set_pchs (c : chs_s) (d : drive_s) : drive_s :=
  Drive (type d) (floppy_type d) (lchs d) (sectors d) (cntl_id d) (translation d) (blksize d) c (removable d).

Section ScsiCmd.
Context {W : Type} `{Env W} `{Cpu W} `{Vars}.
Context (run : driver -> disk_op_s -> M (block_world W) (Z * disk_op_s)).
Context (call32 : forall A, M (block_world W) A -> A -> M (block_world W) A).

(** Clocks are read from the devices. *)
#[export] Instance block_cpu : Cpu (block_world W) := {
  cpu_rdtscll w := let '(v, r) := cpu_rdtscll (bw_rest w) in (v, BlockWorld (bw_globals w) r);
  cpu_cpuid leaf w := cpu_cpuid leaf (bw_rest w);
  dev_inl port w := let '(v, r) := dev_inl port (bw_rest w) in (v, BlockWorld (bw_globals w) r) }.

Abbreviation B A := (M (block_world W) A).

(** ** Low level command requests *)

(** Addresses of the local [cmd]. *)
Context (cmd : Z).

Definition cdb_get_inquiry (op : disk_op_s) (data : Z) : B (Z * disk_op_s) :=
  do upd_mem (memset cmd 0 sizeof_cdb) ;;
  do put8 (cmd + CDB.command) CDB_CMD_INQUIRY ;;
  do put8 (cmd + CDB.length) Inquiry.size ;;
  process_op run call32 false (scsi_request data 1 Inquiry.size cmd op).

Definition cdb_get_sense (op : disk_op_s) (data : Z) : B (Z * disk_op_s) :=
  do upd_mem (memset cmd 0 sizeof_cdb) ;;
  do put8 (cmd + CDB.command) CDB_CMD_REQUEST_SENSE ;;
  do put8 (cmd + CDB.length) Sense.size ;;
  process_op run call32 false (scsi_request data 1 Sense.size cmd op).

Definition cdb_test_unit_ready (op : disk_op_s) : B (Z * disk_op_s) :=
  do upd_mem (memset cmd 0 sizeof_cdb) ;;
  do put8 (cmd + CDB.command) CDB_CMD_TEST_UNIT_READY ;;
  process_op run call32 false (scsi_request 0 0 0 cmd op).

Definition cdb_read_capacity (op : disk_op_s) (data : Z) : B (Z * disk_op_s) :=
  do upd_mem (memset cmd 0 sizeof_cdb) ;;
  do put8 (cmd + CDB.command) CDB_CMD_READ_CAPACITY ;;
  process_op run call32 false (scsi_request data 1 Capacity.size cmd op).

Definition cdb_mode_sense_geom (op : disk_op_s) (data : Z) : B (Z * disk_op_s) :=
  do upd_mem (memset cmd 0 sizeof_cdb) ;;
  do put8 (cmd + CDB.command) CDB_CMD_MODE_SENSE ;;
  do put8 (cmd + CDB.flags) 8 ;;
  do put8 (cmd + CDB.page) MODE_PAGE_HD_GEOMETRY ;;
  do put16 (cmd + CDB.count) (swab16 Geom.size) ;;
  process_op run call32 false (scsi_request data 1 Geom.size cmd op).

(** ** Main SCSI commands *)

(** The block at [cdb] the request stands for; the block size, or -1. *)
Definition scsi_fill_cmd (MODESEGMENT : bool) (op : disk_op_s) (cdb maxcdb : Z) : B Z :=
  if (command op =? CMD_READ) || (command op =? CMD_WRITE) then
    do upd_mem (memset cdb 0 maxcdb) ;;
    do put8 (cdb + CDB.command) (if command op =? CMD_READ then CDB_CMD_READ_10 else CDB_CMD_WRITE_10) ;;
    do put32 (cdb + CDB.lba) (swab32 (u32 (lba op))) ;;
    do put16 (cdb + CDB.count) (swab16 (count op)) ;;
    d <- get_drive (drive_fl op) ;;
    ret (blksize d)
  else if command op =? CMD_SCSI then
    if MODESEGMENT then ret (-1)
    else do upd_mem (memcpy cdb (cdbcmd op) maxcdb) ;; ret (blocksize op)
  else ret (-1).

Definition scsi_is_read (MODESEGMENT : bool) (op : disk_op_s) : bool :=
  (command op =? CMD_READ) || (negb MODESEGMENT && (command op =? CMD_SCSI) && truthy (blocksize op)).

(** The loop of [scsi_is_ready]; [sense] is the local answer. *)
Context (sense : Z).

Fixpoint ready_loop (fuel : nat) (in_progress : bool) (end_ : Z) (op : disk_op_s) : B (Z * disk_op_s) :=
  c <- timer_check end_ ;;
  if c then ret (-1, op)
  else
    res <- cdb_test_unit_ready op ;;
    let '(r, op) := res in
    if negb (truthy r) then ret (0, op)
    else
      res <- cdb_get_sense op sense ;;
      let '(r, op) := res in
      let again in_progress end_ :=
        match fuel with O => fun _ => None | S f => ready_loop f in_progress end_ op end in
      if truthy r then again in_progress end_
      else
        asc <- get8 (sense + Sense.asc) ;;
        ascq <- get8 (sense + Sense.ascq) ;;
        if asc =? 0x3a then ret (-1, op)
        else if (asc =? 0x04) && (ascq =? 0x01) && negb in_progress then
          end_ <- timer_calc 30000 ;; again true end_
        else again in_progress end_.

Definition scsi_is_ready (fuel : nat) (op : disk_op_s) : B (Z * disk_op_s) :=
  end_ <- timer_calc 5000 ;; ready_loop fuel false end_ op.

(** ** Logical units *)

Context (malloc_tmp : Z -> B Z) (free : Z -> B unit).
Context (add_lun : Z -> Z -> B Z).
Context (undefined_shift : Z -> Z -> Z).         (* an int shifted by 32 or more *)

(** [be16_to_cpu (lun[i]) << (16 * i)] is an int, then added to a u64. *)
Definition lun_part (v i : Z) : Z :=
  u64 (if i <? 2 then s32 (Z.shiftl (swab16 v) (16 * i)) else undefined_shift (swab16 v) (16 * i)).
Definition scsilun2u64 (scsi_lun : Z) : B Z :=
  l0 <- get16 scsi_lun ;; l1 <- get16 (scsi_lun + 2) ;;
  l2 <- get16 (scsi_lun + 4) ;; l3 <- get16 (scsi_lun + 6) ;;
  ret (Z.lor (Z.lor (Z.lor (lun_part l0 0) (lun_part l1 1)) (lun_part l2 2)) (lun_part l3 3)).

(** The loop that asks with growing buffers: the buffer in the end, and the
    number of units or an error. *)
Fixpoint report_luns (fuel : nat) (cdb maxluns : Z) (op : disk_op_s) : B (option (Z * option Z)) :=
  let op := Op (buf_fl op) (drive_fl op) (command op) (count op)
              (set_scsi (ReportLuns.luns + maxluns * ReportLuns.sizeof_lun) (cdbcmd op) op) in
  buf <- malloc_tmp (blocksize op) ;;
  let op := Op buf (drive_fl op) (command op) (count op) (lba op) in
  if buf =? 0 then ret None
  else
    do put32 (cdb + CDB.luns_length) (swab32 (blocksize op)) ;;
    res <- process_op run call32 false op ;;
    let '(r, op) := res in
    if negb (r =? DISK_RET_SUCCESS) then ret (Some (buf_fl op, None))
    else
      len <- get32 (buf_fl op + ReportLuns.length) ;;
      let nluns := swab32 len / ReportLuns.sizeof_lun in
      if nluns <=? maxluns then ret (Some (buf_fl op, Some nluns))
      else
        do free (buf_fl op) ;;
        match fuel with O => fun _ => None | S f => report_luns f cdb nluns op end.

(** [!add_lun (lun, tmp_drive)] summed over units that fit 32 bits. *)
Fixpoint add_reported (n : nat) (lun tmp_drive r : Z) : B Z :=
  match n with
  | O => ret r
  | S n' =>
    v <- scsilun2u64 lun ;;
    if truthy (Z.shiftr v 32) then add_reported n' (lun + ReportLuns.sizeof_lun) tmp_drive r
    else
      a <- add_lun (u32 v) tmp_drive ;;
      add_reported n' (lun + ReportLuns.sizeof_lun) tmp_drive (r + b2z (negb (truthy a)))
  end.

Definition scsi_rep_luns_scan (fuel : nat) (cdb tmp_drive : Z) : B Z :=
  do upd_mem (memset cdb 0 sizeof_cdb) ;;
  do put8 (cdb + CDB.command) CDB_CMD_REPORT_LUNS ;;
  got <- report_luns fuel cdb 1 (Op 0 tmp_drive CMD_SCSI 1 (2 ^ 32 * cdb)) ;;
  match got with
  | None => ret (-1)
  | Some (resp, None) => do free resp ;; ret (-1)
  | Some (resp, Some nluns) =>
    r <- add_reported (Z.to_nat nluns) (resp + ReportLuns.luns) tmp_drive 0 ;;
    do free resp ;; ret r
  end.

Fixpoint sequential_loop (n : nat) (lun tmp_drive r : Z) : B Z :=
  match n with
  | O => ret r
  | S n' =>
    a <- add_lun lun tmp_drive ;;
    sequential_loop n' (u32 (lun + 1)) tmp_drive (r + b2z (negb (truthy a)))
  end.
Definition scsi_sequential_scan (tmp_drive maxluns : Z) : B Z :=
  sequential_loop (Z.to_nat maxluns) 0 tmp_drive 0.

(** ** Setting up a drive *)

Context (CONFIG_QEMU_HARDWARE : bool).
(** Local copies of the answers and of the strings in them; the functions of
    boot.c get the drive, the three strings and the priority. *)
Context (data capdata geomdata vendor product rev : Z).
Context (boot_add_cd boot_add_hd : Z -> Z * Z * Z -> Z -> B unit).

Definition change_drive (p : Z) (f : drive_s -> drive_s) : B unit :=
  upd_globals (fun g => set_drive p (f (drive_at g p)) g).

(** [nullTrailingSpace] for its effect: the strings' buffers are short. *)
Definition trim (buf : Z) : B unit :=
  fun s => match nullTrailingSpace 32 buf (mc_mem s) with
           | Some (_, m) => Some (tt, Machine m (mc_world s))
           | None => None
           end.
Definition copy_trimmed (dest src size : Z) : B unit :=
  do upd_mem (strtcpy dest src (size + 1)) ;; trim dest.

(** The geometry in the mode page: [geomdata.cyl] is big-endian in three bytes. *)
Definition page_geometry (secs cyl2 cyl1 cyl0 heads : Z) : option chs_s :=
  let cylinders := u32 (Z.lor (Z.lor (Z.shiftl cyl2 16) (Z.shiftl cyl1 8)) cyl0) in
  let tracks := u32 (heads * cylinders) in
  if truthy cylinders && truthy heads && (secs <=? 0xffffffff) && (u32 secs mod tracks =? 0)
  then Some (Chs heads (u16 cylinders) (u16 (u32 secs / tracks))) else None.

Definition read_geometry (drive : Z) (dop : disk_op_s) : B unit :=
  res <- cdb_mode_sense_geom dop geomdata ;;
  if negb (fst res =? 0) then ret tt
  else
    c0 <- get8 (geomdata + Geom.cyl) ;; c1 <- get8 (geomdata + Geom.cyl + 1) ;;
    c2 <- get8 (geomdata + Geom.cyl + 2) ;; heads <- get8 (geomdata + Geom.heads) ;;
    d <- get_drive drive ;;
    match page_geometry (sectors d) c0 c1 c2 heads with
    | Some c => change_drive drive (set_pchs c)
    | None => ret tt
    end.

(** [memcmp (vendor, .., 5)] against the name with its terminator. *)
Definition QEMU : list Z := [0x51; 0x45; 0x4d; 0x55; 0].

Definition setup_disk (fuel : nat) (drive prio : Z) (dop : disk_op_s) : B Z :=
  res <- scsi_is_ready fuel dop ;;
  let '(r, dop) := res in
  if truthy r then ret r
  else
    res <- cdb_read_capacity dop capdata ;;
    let '(r, dop) := res in
    if truthy r then ret r
    else
      size <- get32 (capdata + Capacity.blksize) ;;
      do change_drive drive (set_blksize (u16 (swab32 size))) ;;
      d <- get_drive drive ;;
      if negb (blksize d =? DISK_SECTOR_SIZE) then ret (-1)
      else
        last <- get32 (capdata + Capacity.sectors) ;;
        do change_drive drive (set_size (blksize d) (swab32 last + 1)) ;;
        v <- (fun s => Some (read_bytes 5 vendor (mc_mem s), s)) ;;
        do (if CONFIG_QEMU_HARDWARE && bool_decide (v = QEMU) then read_geometry drive dop else ret tt) ;;
        do boot_add_hd drive (vendor, product, rev) prio ;; ret 0.

Definition scsi_drive_setup (fuel : nat) (drive prio : Z) : B Z :=
  res <- cdb_get_inquiry (Op 0 drive 0 0 0) data ;;
  let '(r, dop) := res in
  if truthy r then ret r
  else
    do copy_trimmed vendor (data + Inquiry.vendor) 8 ;;
    do copy_trimmed product (data + Inquiry.product) 16 ;;
    do copy_trimmed rev (data + Inquiry.rev) 4 ;;
    pdt <- get8 (data + Inquiry.pdt) ;;
    removable <- get8 (data + Inquiry.removable) ;;
    do change_drive drive (set_removable (b2z (truthy (Z.land removable 0x80)))) ;;
    if Z.land pdt 0x1f =? SCSI_TYPE_CDROM then
      do change_drive drive (set_size CDROM_SECTOR_SIZE (2 ^ 64 - 1)) ;;
      do boot_add_cd drive (vendor, product, rev) prio ;; ret 0
    else if negb (Z.land pdt 0x1f =? SCSI_TYPE_DISK) then ret (-1)
    else setup_disk fuel drive prio dop.
End ScsiCmd.
