(* ===== verification/Cdrom.v ===== *)
(** * Booting from CD: src/cdrom.c

    The El Torito boot of a CD, and the drive of 512-byte sectors it emulates
    from the image on the CD.  [CDEmu] and [emulated_drive_gf] are variables of
    the low segment; local buffers are at addresses the section fixes; the
    measurement of the catalog and the allocator's function are parameters. *)
From S2P Require Import Prelude Machine StringOps Bytes Timer Pci Block Disk ScsiCmd.
Local Open Scope seabios_scope.

Definition DISK_RET_EWRITEPROTECT := 0x03.

(** The other fields of struct eltorito_s. *)
Module CDEMU.
Definition controller_index := 3.
Definition ilba := 4.
Definition device_spec := 8.
Definition buffer_segment := 10.
Definition load_segment := 12.
Definition sector_count := 14.
End CDEMU.

(** [mbr->partitions[0].last] in a boot sector. *)
Definition mbr_part0_last := 0x1be + 5.

(** [strcmp] of the string at [a] and a constant gives 0: the bytes and the
    terminator are the same. *)
Definition str_equal (a : Z) (l : list Z) (m : memory) : bool :=
  bool_decide (read_bytes (S (length l)) a m = l ++ [0]).

(** CD001, 1, EL TORITO SPECIFICATION *)
Definition spec_id : list Z :=
  [0x43; 0x44; 0x30; 0x30; 0x31; 0x01; 0x45; 0x4c; 0x20; 0x54; 0x4f; 0x52; 0x49; 0x54; 0x4f; 0x20;
   0x53; 0x50; 0x45; 0x43; 0x49; 0x46; 0x49; 0x43; 0x41; 0x54; 0x49; 0x4f; 0x4e].

Section Cdrom.
Context {W : Type} `{Env W} `{Cpu W} `{Vars}.
Context (CONFIG_CDROM_EMU : bool).
Context (SEG_LOW CDEmu emulated_drive_gf : Z).   (* the variables' offsets in the low segment *)
Context (run : driver -> disk_op_s -> M (block_world W) (Z * disk_op_s)).
Context (call32 : forall A, M (block_world W) A -> A -> M (block_world W) A).

Abbreviation B A := (M (block_world W) A).
Abbreviation low := (low SEG_LOW).

(** ** CD emulation *)

(** The three parts of [cdemu_read]: a request at the CD drive, the rest of the
    caller's, and the number of sectors still to read. *)
Definition read_first (dop op : disk_op_s) (n : Z) : B (Z * disk_op_s * disk_op_s * Z) :=
  if truthy (Z.land (lba op) 3) then
    g <- get_globals ;;
    let cdbuf := bounce_buf_fl g in
    res <- process_op run call32 true (Op cdbuf (drive_fl dop) (command dop) 1 (lba dop)) ;;
    let '(r, dop) := res in
    if truthy r then ret (r, dop, op, n)
    else
      let thiscount := u8 (4 - Z.land (lba op) 3) in
      let thiscount := if n <? thiscount then u8 n else thiscount in
      do upd_mem (memcpy (buf_fl op) (cdbuf + Z.land (lba op) 3 * 512) (thiscount * 512)) ;;
      ret (0, Op (buf_fl dop) (drive_fl dop) (command dop) (count dop) (u64 (lba dop + 1)),
           Op (buf_fl op + thiscount * 512) (drive_fl op) (command op) (u16 (count op + thiscount)) (lba op),
           n - thiscount)
  else ret (0, dop, op, n).

Definition read_middle (dop op : disk_op_s) (n : Z) : B (Z * disk_op_s * disk_op_s * Z) :=
  if 3 <? n then
    res <- process_op run call32 true (Op (buf_fl op) (drive_fl dop) (command dop) (u16 (n / 4)) (lba dop)) ;;
    let '(r, dop) := res in
    let op := set_count (u16 (count op + count dop * 4)) op in
    if truthy r then ret (r, dop, op, n)
    else
      let thiscount := u8 (Z.land n (Z.lnot 3)) in
      ret (0, Op (buf_fl dop) (drive_fl dop) (command dop) (count dop) (u64 (lba dop + thiscount / 4)),
           Op (buf_fl op + thiscount * 512) (drive_fl op) (command op) (count op) (lba op), Z.land n 3)
  else ret (0, dop, op, n).

Definition read_last (dop op : disk_op_s) (n : Z) : B (Z * disk_op_s) :=
  if truthy n then
    g <- get_globals ;;
    let cdbuf := bounce_buf_fl g in
    res <- process_op run call32 true (Op cdbuf (drive_fl dop) (command dop) 1 (lba dop)) ;;
    let '(r, dop) := res in
    if truthy r then ret (r, op)
    else
      let thiscount := u8 n in
      do upd_mem (memcpy (buf_fl op) cdbuf (thiscount * 512)) ;;
      ret (DISK_RET_SUCCESS, set_count (u16 (count op + thiscount)) op)
  else ret (DISK_RET_SUCCESS, op).

Definition cdemu_read (op : disk_op_s) : B (Z * disk_op_s) :=
  drive <- get32 (low emulated_drive_gf) ;;
  ilba <- get32 (low (CDEmu + CDEMU.ilba)) ;;
  let dop := Op 0 drive (command op) 0 (u64 (ilba + lba op / 4)) in
  let n := count op in
  res <- read_first dop (set_count 0 op) n ;;
  let '(r, dop, op, n) := res in
  if truthy r then ret (r, op)
  else
    res <- read_middle dop op n ;;
    let '(r, dop, op, n) := res in
    if truthy r then ret (r, op) else read_last dop op n.

Definition cdemu_process_op (op : disk_op_s) : B (Z * disk_op_s) :=
  if negb CONFIG_CDROM_EMU then ret (0, op)
  else if command op =? CMD_READ then cdemu_read op
  else if (command op =? CMD_WRITE) || (command op =? CMD_FORMAT) then ret (DISK_RET_EWRITEPROTECT, op)
  else ret (default_process_op op, op).

(** The drivers with this one in its place. *)
Definition run_cdemu (f : driver) (op : disk_op_s) : B (Z * disk_op_s) :=
  match f with Block.cdemu_process_op => cdemu_process_op op | _ => run f op end.

Context (malloc_low malloc_fseg : Z -> B Z) (sizeof_drive_s : Z).

Definition set_cdemu_drive (p : Z) (g : globals) : globals :=
  Globals (drives g) (IDMap g) (FloppyCount g) (CDCount g) (bounce_buf_fl g) p.

Definition cdrom_prepboot : B unit :=
  if negb CONFIG_CDROM_EMU then ret tt
  else
    g <- get_globals ;;
    if CDCount g =? 0 then ret tt
    else
      r <- create_bounce_buf malloc_low ;;
      if r <? 0 then ret tt
      else
        drive <- malloc_fseg sizeof_drive_s ;;
        if drive =? 0 then ret tt
        else
          do upd_globals (set_cdemu_drive drive) ;;
          upd_globals (set_drive drive (Drive DTYPE_CDEMU 0 (Chs 0 0 0) (2 ^ 64 - 1) 0 0 DISK_SECTOR_SIZE (Chs 0 0 0) 0)).

(** ** CD booting *)

Context (cmd sense buffer : Z).                  (* addresses of locals *)
Context (tpm_add_cdrom_catalog : Z -> Z -> B unit).

(** [while (nbsectors)]: each round reads at least one sector. *)
Fixpoint load_image (fuel : nat) (nbsectors : Z) (dop : disk_op_s) : B (Z * disk_op_s) :=
  if nbsectors =? 0 then ret (0, dop)
  else
    match fuel with
    | O => fun _ => None
    | S f =>
      let n := if 64 * 1024 / CDROM_SECTOR_SIZE <? nbsectors then 64 * 1024 / CDROM_SECTOR_SIZE else nbsectors in
      res <- process_op run call32 false (set_count n dop) ;;
      let '(r, dop) := res in
      if truthy r then ret (12, dop)
      else load_image f (u16 (nbsectors - n))
             (Op (buf_fl dop + n * CDROM_SECTOR_SIZE) (drive_fl dop) (command dop) (count dop) (u64 (lba dop + n)))
    end.

(** The validity checks of the boot catalog. *)
Definition catalog_error (m : memory) : Z :=
  if negb (read8 m (buffer + 0x00) =? 0x01) then 8
  else if negb (read8 m (buffer + 0x01) =? 0x00) then 9
  else if negb (read8 m (buffer + 0x1e) =? 0x55) then 10
  else if negb (read8 m (buffer + 0x1f) =? 0xaa) then 10
  else if negb (read8 m (buffer + 0x20) =? 0x88) then 11
  else 0.

Definition get_mem : B memory := fun s => Some (mc_mem s, s).

(** The end of [cdrom_boot]: what is emulated. *)
Definition start_emulation (media boot_segment cdid : Z) : B Z :=
  if media =? 0 then
    do put8 (low (CDEmu + ElTorito.emulated_drive)) (EXTSTART_CD + cdid) ;; ret 0
  else
    g <- get_globals ;;
    if negb CONFIG_CDROM_EMU || (cdemu_drive_gf g =? 0) then ret 13
    else
      do (if media <? 4 then
            do put8 (low (CDEmu + ElTorito.emulated_drive)) 0x00 ;;
            do upd_mem (set_equipment_flags 0x41 0x41) ;;
            do put8 (low (CDEmu + ElTorito.chs_sptcyl)) (if media =? 0x01 then 15 else if media =? 0x02 then 18 else 36) ;;
            do put8 (low (CDEmu + ElTorito.chs_cyllow)) 79 ;;
            put8 (low (CDEmu + ElTorito.chs_heads)) 1
          else
            do put8 (low (CDEmu + ElTorito.emulated_drive)) 0x80 ;;
            hdcount <- get8 BDA.hdcount ;;
            do put8 BDA.hdcount (hdcount + 1) ;;
            let last := MAKE_FLATPTR boot_segment 0 + mbr_part0_last in
            heads <- get8 last ;; sptcyl <- get8 (last + 1) ;; cyllow <- get8 (last + 2) ;;
            do put8 (low (CDEmu + ElTorito.chs_heads)) heads ;;
            do put8 (low (CDEmu + ElTorito.chs_sptcyl)) sptcyl ;;
            put8 (low (CDEmu + ElTorito.chs_cyllow)) cyllow) ;;
      do put8 (low (CDEmu + ElTorito.media)) media ;; ret 0.

(** From the checked catalog on. *)
Definition boot_entry (drive cdid : Z) (dop : disk_op_s) : B Z :=
  do tpm_add_cdrom_catalog buffer CDROM_SECTOR_SIZE ;;
  do put32 (low emulated_drive_gf) drive ;;
  media <- get8 (buffer + 0x21) ;;
  seg <- get16 (buffer + 0x22) ;;
  let boot_segment := if seg =? 0 then 0x07c0 else seg in
  do put16 (low (CDEmu + CDEMU.load_segment)) boot_segment ;;
  do put16 (low (CDEmu + CDEMU.buffer_segment)) 0x0000 ;;
  nbsectors <- get16 (buffer + 0x26) ;;
  do put16 (low (CDEmu + CDEMU.sector_count)) nbsectors ;;
  lba <- get32 (buffer + 0x28) ;;
  do put32 (low (CDEmu + CDEMU.ilba)) lba ;;
  d <- get_drive drive ;;
  do put8 (low (CDEmu + CDEMU.controller_index)) (cntl_id d / 2) ;;
  do put16 (low (CDEmu + CDEMU.device_spec)) (cntl_id d mod 2) ;;
  let nbsectors := u16 (DIV_ROUND_UP nbsectors 4) in
  res <- load_image (Z.to_nat nbsectors) nbsectors
           (Op (MAKE_FLATPTR boot_segment 0) (drive_fl dop) (command dop) (count dop) lba) ;;
  if truthy (fst res) then ret (fst res) else start_emulation media boot_segment cdid.

Definition cdrom_boot (fuel : nat) (drive : Z) : B Z :=
  g <- get_globals ;;
  let cdid := getDriveId g EXTTYPE_CD drive in
  if (drive =? 0) || (cdid <? 0) then ret 1
  else
    res <- scsi_is_ready run call32 cmd sense fuel (Op 0 drive 0 0 0) ;;
    let dop := snd res in
    res <- process_op run call32 false (Op buffer (drive_fl dop) CMD_READ 1 0x11) ;;
    let '(r, dop) := res in
    if truthy r then ret 3
    else
      m <- get_mem ;;
      if truthy (read8 m (buffer + 0)) then ret 4
      else if negb (str_equal (buffer + 1) spec_id m) then ret 5
      else
        lba <- get32 (buffer + 0x47) ;;
        res <- process_op run call32 false (Op (buf_fl dop) (drive_fl dop) (command dop) 1 lba) ;;
        let '(r, dop) := res in
        if truthy r then ret 7
        else
          m <- get_mem ;;
          if truthy (catalog_error m) then ret (catalog_error m) else boot_entry drive cdid dop.

(** The volume label of a bootable medium: its text is what [znprintf] makes of
    the field in the buffer. *)
Context (volume_of : Z -> B Z).                  (* znprintf (30, %s, ..) *)
Context (trim_label : Z -> B unit).              (* nullTrailingSpace *)
Definition cdrom_media_info (fuel : nat) (drive : Z) : B Z :=
  res <- scsi_is_ready run call32 cmd sense fuel (Op 0 drive 0 0 0) ;;
  let '(r, dop) := res in
  if truthy r then ret 0
  else
    res <- process_op run call32 false (Op buffer (drive_fl dop) CMD_READ 1 0x11) ;;
    let '(r, dop) := res in
    if truthy r then ret 0
    else
      m <- get_mem ;;
      if truthy (read8 m (buffer + 0)) then ret 0
      else if negb (str_equal (buffer + 1) spec_id m) then ret 0
      else
        res <- process_op run call32 false (Op buffer (drive_fl dop) CMD_READ 1 0x10) ;;
        if truthy (fst res) then ret 0
        else volume <- volume_of (buffer + 40) ;; do trim_label volume ;; ret volume.
End Cdrom.
