(* ===== verification/ScsiCorrect.v ===== *)
(** * Waiting for a SCSI device

    [scsi_is_ready] of ScsiCmd ends, and in time, whatever the device answers. *)
From S2P Require Import Prelude Machine StringOps Bytes Areas Timer Pci Block ScsiCmd.
Local Open Scope seabios_scope.

(** ** The driver behind a drive *)

(** The driver of a drive that needs no driver of the 16-bit code only. *)
Definition driver_of (t : Z) : option driver :=
  match dispatch t cases_16 with
  | Some _ => None
  | None => match dispatch t cases_32 with Some f => Some f | None => dispatch t cases_both end
  end.

(** What [process_op] makes of a driver's answer. *)
Definition settle (origcount : Z) (res : Z * disk_op_s) : Z * disk_op_s :=
  let '(r, op) := res in (r, if truthy r && (count op =? origcount) then set_count 0 op else op).

Section Dispatch.
Context {W : Type} `{Env W}.
Context (run : driver -> disk_op_s -> M (block_world W) (Z * disk_op_s)).
Context (call32 : forall A, M (block_world W) A -> A -> M (block_world W) A).
(** The mode switch runs the function it is given. *)
Hypothesis call32_runs : forall A c d s, call32 A c d s = c s.

Lemma cases_disjoint t f : dispatch t cases_both = Some f -> dispatch t cases_32 = None.
Proof.
  unfold cases_both, cases_32. cbn [dispatch].
  intros Hb. repeat match type of Hb with
    | context [t =? ?c] => destruct (Z.eqb_spec t c) as [->|]; [reflexivity|]
    end. discriminate.
Qed.

Lemma process_op_runs mode f op s :
  driver_of (type (drive_at (bw_globals (mc_world s)) (drive_fl op))) = Some f ->
  0 <= count op * blksize (drive_at (bw_globals (mc_world s)) (drive_fl op)) <= 64 * 1024 ->
  process_op run call32 mode op s =
  match run f op s with Some (res, s') => Some (settle (count op) res, s') | None => None end.
Proof.
  intros Hf Hc. unfold process_op, get_drive, get_globals, bind at 1 2. cbn [ret].
  set (d := drive_at _ _) in *. unfold ret at 1.
  assert (s32 (count op * blksize d) = count op * blksize d) as -> by (unfold s32, u32; zbool).
  rewrite (proj2 (Z.ltb_ge _ _)) by lia.
  assert (Hrun : (if mode then process_op_16 run call32 op else process_op_32 run op) s = run f op s).
  { assert (H32 : dispatch (type d) cases_16 = None -> process_op_32 run op s = run f op s).
    { intros H16. unfold driver_of in Hf. rewrite H16 in Hf.
      unfold process_op_32, process_op_both, get_drive, get_globals, bind, ret. fold d.
      destruct (dispatch (type d) cases_32); [by injection Hf as ->|]. fold d. by rewrite Hf. }
    destruct (dispatch (type d) cases_16) eqn:H16; [unfold driver_of in Hf; by rewrite H16 in Hf|].
    destruct mode; [|by apply H32].
    unfold process_op_16, process_op_both, get_drive, get_globals, bind, ret. fold d. rewrite H16. fold d.
    destruct (dispatch (type d) cases_both) as [f'|] eqn:Hb; [|by rewrite call32_runs, H32].
    unfold driver_of in Hf. rewrite H16, (cases_disjoint _ _ Hb), Hb in Hf. by injection Hf as ->. }
  unfold bind. rewrite Hrun. by destruct (run f op s) as [[[r op'] s']|].
Qed.
End Dispatch.

(** ** Waiting until the device is ready *)

Section Ready.
Context {W : Type} `{Env W} `{Cpu W} `{Vars}.
Context (run : driver -> disk_op_s -> M (block_world W) (Z * disk_op_s)).
Context (call32 : forall A, M (block_world W) A -> A -> M (block_world W) A).
Hypothesis call32_runs : forall A c d s, call32 A c d s = c s.

(** The PM timer, which moves whenever it is read. *)
Context (clock : block_world W -> Z) (adv : block_world W -> block_world W) (port : Z).
Hypothesis inl_clock : forall w, dev_inl port w = (clock (adv w) mod 2 ^ 24, adv w).
Hypothesis clock_ticks : forall w, clock w < clock (adv w) < clock w + 2 ^ 24.

Context (cmd sense cd khz T : Z) (g : globals) (f : driver).

(** [cmd] is away from the timer's variables, and these from each other. *)
Definition apart (a n b k : Z) : Prop := a + n <= b \/ b + k <= a.
Hypothesis cmd_apart : apart cmd 16 TimerPort 2 /\ apart cmd 16 TimerLast 4 /\ apart cmd 16 TimerKHz 4.
Hypothesis vars_apart : apart TimerLast 4 TimerKHz 4.

(** The drive and its driver. *)
Hypothesis drive_ok : driver_of (type (drive_at g cd)) = Some f.
Hypothesis blksize_ok : 0 <= blksize (drive_at g cd) < 2 ^ 16.

(** What stays true: the timer's variables follow the clock, the rate and the
    globals are the given ones. *)
Definition steady (s : machine (block_world W)) : Prop :=
  in_step clock port s /\ bytes_ok (mc_mem s) /\ read32 (mc_mem s) TimerKHz = khz /\ bw_globals (mc_world s) = g.
Definition time (s : machine (block_world W)) : Z := clock (mc_world s).

(** A SCSI command takes at most [T] counts, whatever its outcome. *)
Definition scsi_driver : Prop := forall op s, command op = CMD_SCSI -> drive_fl op = cd -> steady s ->
  exists r op' s', run f op s = Some ((r, op'), s') /\ drive_fl op' = cd /\ steady s' /\ time s <= time s' <= time s + T.
Hypothesis scsi_ok : scsi_driver.
Hypothesis khz_range : 0 < khz < 2 ^ 16.
Hypothesis T_range : 0 <= T < 2 ^ 24.

Lemma adv_globals w : bw_globals (adv w) = bw_globals w.
Proof.
  pose proof (inl_clock w) as Hi. unfold dev_inl, block_cpu in Hi.
  destruct (dev_inl port (bw_rest w)) as [v r]. by injection Hi as _ <-.
Qed.

Lemma steady_read s : steady s ->
  exists s', timer_read s = Some (u32 (time s'), s') /\ steady s' /\ time s < time s' < time s + 2 ^ 24.
Proof.
  intros (Hi & Hb & Hk & Hg).
  assert (Hmv : forall w, clock w <= clock (adv w) < clock w + 2 ^ 24) by (intros w; pose proof (clock_ticks w); lia).
  destruct (timer_read_count clock adv port inl_clock Hmv s Hi) as (s' & Hr & Hw & Hi').
  exists s'. unfold time. rewrite Hw. split; [exact Hr|]. split; [|apply clock_ticks].
  assert (Hm : mc_mem s' = write32 TimerLast (u32 (clock (adv (mc_world s)))) (mc_mem s)).
  { destruct Hi as [(Hc & Hp & Hp0 & Hp1 & _) Hl]. revert Hr. unfold timer_read, bind at 1, get16. rewrite Hp, Hc.
    rewrite (proj2 (Z.eqb_neq port 0)), (proj2 (Z.eqb_neq port _)), andb_false_r by done. cbn [negb andb].
    unfold bind, Timer.inl. rewrite inl_clock. unfold timer_adjust_bits, bind, get32, put32, upd_mem, ret. cbn [mc_mem mc_world].
    intros Hr. injection Hr as Hv <-. cbn [mc_mem]. by rewrite Hv. }
  split; [exact Hi'|]. rewrite Hm, Hw, adv_globals. split; [auto with mem|]. split; [|exact Hg].
  rewrite read32_write32_ne by (unfold apart in vars_apart; lia). exact Hk.
Qed.

Lemma steady_check E s : steady s -> - 2 ^ 31 + 2 ^ 24 < time s - E < 2 ^ 31 - 2 ^ 24 ->
  exists s', timer_check (u32 E) s = Some (E <? time s', s') /\ steady s' /\ time s < time s' < time s + 2 ^ 24.
Proof.
  intros Hs HE. destruct (steady_read s Hs) as (s' & Hr & Hs' & Ht). exists s'. split; [|done].
  unfold timer_check, bind. rewrite Hr. unfold ret. by rewrite time_after_count by lia.
Qed.

Lemma steady_calc ms s : steady s ->
  exists s', timer_calc ms s = Some (u32 (time s' + khz * ms), s') /\ steady s' /\ time s < time s' < time s + 2 ^ 24.
Proof.
  intros Hs. destruct (steady_read s Hs) as (s' & Hr & Hs' & Ht). exists s'. split; [|done].
  unfold timer_calc, bind. rewrite Hr. unfold get32, ret. destruct Hs' as (_ & _ & -> & _).
  do 2 f_equal. unfold u32. lia.
Qed.

(** Writing to [cmd] disturbs nothing. *)
Lemma steady_cmd m' s : steady s -> outside cmd 16 (mc_mem s) m' -> bytes_ok m' -> steady (Machine m' (mc_world s)).
Proof.
  intros ([(Hc & Hp & Hr) Hl] & Hb & Hk & Hg) Hm Hb'. unfold apart in cmd_apart. destruct cmd_apart as (Ha1 & Ha2 & Ha3).
  unfold steady, in_step, pmtimer_sync. cbn [mc_mem mc_world].
  rewrite !(outside_read32 _ _ _ _ _ Hm) by lia.
  assert (read16 m' TimerPort = read16 (mc_mem s) TimerPort) as -> by (unfold read16; by rewrite !Hm by lia).
  done.
Qed.

Lemma cmd_writes l (m : memory) : Forall (fun p => 0 <= fst p < 16) l ->
  outside cmd 16 m (foldl (fun m p => write8 (cmd + fst p) (snd p) m) m l).
Proof.
  intros Hl. revert m. induction Hl as [|p l Hp _ IH]; intros m; simpl; [auto with mem|].
  eapply outside_trans; [|apply IH]. eapply outside_mono; [apply outside_write8|lia|lia].
Qed.

(** A SCSI command through [process_op]. *)
Lemma steady_op op s : command op = CMD_SCSI -> drive_fl op = cd -> 0 <= count op <= 1 -> steady s ->
  exists r op' s', process_op run call32 false op s = Some ((r, op'), s') /\ drive_fl op' = cd /\ steady s' /\
    time s <= time s' <= time s + T.
Proof.
  intros Hc Hd Hn Hs. destruct (scsi_ok op s Hc Hd Hs) as (r & op' & s' & Hr & Hd' & Hs' & Ht).
  pose proof Hs as (_ & _ & _ & Hg).
  rewrite (process_op_runs run call32 call32_runs false f); rewrite ?Hg, ?Hd; [|exact drive_ok|nia].
  rewrite Hr. unfold settle. eexists r, _, s'. split; [reflexivity|]. split; [|done]. by case_match.
Qed.

Lemma steady_test op s : drive_fl op = cd -> steady s ->
  exists r op' s', cdb_test_unit_ready run call32 cmd op s = Some ((r, op'), s') /\ drive_fl op' = cd /\ steady s' /\
    time s <= time s' <= time s + T.
Proof.
  intros Hd Hs. unfold cdb_test_unit_ready. erewrite bind_some by reflexivity. erewrite bind_some by reflexivity.
  cbn [mc_mem mc_world].
  match goal with |- context [process_op _ _ _ ?o ?s'] => apply (steady_op o s') end; try done.
  apply (steady_cmd _ s Hs).
  - eapply outside_trans; [apply memset_outside; done|].
    eapply outside_mono; [apply outside_write8|unfold CDB.command; lia|unfold CDB.command; lia].
  - apply bytes_ok_write8, bytes_ok_memset; [done|apply Hs].
Qed.

Lemma steady_sense op s : drive_fl op = cd -> steady s ->
  exists r op' s', cdb_get_sense run call32 cmd op sense s = Some ((r, op'), s') /\ drive_fl op' = cd /\ steady s' /\
    time s <= time s' <= time s + T.
Proof.
  intros Hd Hs. unfold cdb_get_sense. do 3 erewrite bind_some by reflexivity. cbn [mc_mem mc_world].
  match goal with |- context [process_op _ _ _ ?o ?s'] => apply (steady_op o s') end; try done.
  apply (steady_cmd _ s Hs).
  - eapply outside_trans; [apply memset_outside; done|].
    eapply outside_trans; (eapply outside_mono; [apply outside_write8|..]); unfold CDB.command, CDB.length; lia.
  - do 2 apply bytes_ok_write8. apply bytes_ok_memset; [done|apply Hs].
Qed.

(** The rounds the loop can still make, and when it is over at the latest. *)
Definition rounds (in_progress : bool) (E : Z) (s : machine (block_world W)) : Z :=
  E - time s + (if in_progress then 0 else 30000 * khz + 2).
Definition deadline (in_progress : bool) (E : Z) : Z :=
  E + 2 * T + 2 ^ 24 + (if in_progress then 0 else 30000 * khz + 2 * T + 2 ^ 24).

(** How the loop ends. *)
Definition ready_end (E limit : Z) (r : Z) (op' : disk_op_s) (s' : machine (block_world W)) : Prop :=
  drive_fl op' = cd /\ steady s' /\ time s' <= limit /\
  ((r = 0 /\ exists op s, cdb_test_unit_ready run call32 cmd op s = Some ((0, op'), s')) \/
   (r = -1 /\ (E < time s' \/ read8 (mc_mem s') (sense + Sense.asc) = 0x3a))).

Lemma ready_end_mono E E' l l' r op' s' : ready_end E' l' r op' s' -> E <= E' -> l' <= l -> ready_end E l r op' s'.
Proof.
  intros (Hd & Hs & Ht & Hr) HE Hl. split; [done|]. split; [done|]. split; [lia|].
  destruct Hr as [Hr|[-> [Hr|Hr]]]; [by left|right; split; [done|left; lia]|right; split; [done|by right]].
Qed.

Lemma ready_loop_ends fuel : forall b E op s, steady s -> drive_fl op = cd ->
  time s <= E + 2 * T -> E <= time s + 30000 * khz -> rounds b E s <= Z.of_nat fuel ->
  exists r op' s', ready_loop run call32 cmd sense fuel b (u32 E) op s = Some ((r, op'), s') /\
    ready_end E (deadline b E) r op' s'.
Proof.
  induction fuel as [|fuel IH]; intros b E op s Hs Hd Hhi Hlo Hf;
    destruct (steady_check E s Hs ltac:(lia)) as (s1 & Hc & Hs1 & Ht1);
    cbn [ready_loop]; rewrite (bind_some _ _ _ _ _ Hc); destruct (Z.ltb_spec E (time s1)) as [HE|HE].
  1, 3: exists (-1), op, s1; split; [reflexivity|]; split; [done|]; split; [done|];
        unfold deadline; split; [destruct b; lia|right; split; [done|by left]].
  { unfold rounds in Hf. destruct b; lia. }
  destruct (steady_test op s1 Hd Hs1) as (r2 & op2 & s2 & Htest & Hd2 & Hs2 & Ht2).
  rewrite (bind_some _ _ _ _ _ Htest). unfold truthy at 1. destruct (Z.eqb_spec r2 0) as [->|Hr2]; cbn [negb].
  { exists 0, op2, s2. split; [reflexivity|]. split; [done|]. split; [done|]. unfold deadline.
    split; [destruct b; lia|left; eauto]. }
  destruct (steady_sense op2 s2 Hd2 Hs2) as (r3 & op3 & s3 & Hsense & Hd3 & Hs3 & Ht3).
  rewrite (bind_some _ _ _ _ _ Hsense).
  assert (Hagain : exists r op' s', ready_loop run call32 cmd sense fuel b (u32 E) op3 s3 = Some ((r, op'), s') /\
    ready_end E (deadline b E) r op' s').
  { apply IH; try done; [lia|lia|]. unfold rounds in *. destruct b; lia. }
  cbv zeta. destruct (truthy r3); [exact Hagain|].
  do 2 erewrite bind_some by reflexivity.
  destruct (Z.eqb_spec (read8 (mc_mem s3) (sense + Sense.asc)) 0x3a) as [Ha|Ha].
  { exists (-1), op3, s3. split; [reflexivity|]. split; [done|]. split; [done|]. unfold deadline.
    split; [destruct b; lia|right; split; [done|by right]]. }
  destruct ((_ =? 0x04) && (_ =? 0x01) && negb b) eqn:Hp; [|exact Hagain].
  destruct b; [by rewrite andb_false_r in Hp|].
  destruct (steady_calc 30000 s3 Hs3) as (s4 & Hcalc & Hs4 & Ht4). rewrite (bind_some _ _ _ _ _ Hcalc).
  destruct (IH true (time s4 + khz * 30000) op3 s4 Hs4 Hd3) as (r & op' & s' & Hr & He); [lia|lia| |].
  { unfold rounds in *. lia. }
  exists r, op', s'. split; [exact Hr|]. eapply ready_end_mono; [exact He|lia|]. unfold deadline. lia.
Qed.

Lemma scsi_is_ready_run fuel op s : steady s -> drive_fl op = cd -> 35000 * khz + 2 <= Z.of_nat fuel ->
  exists E r op' s', scsi_is_ready run call32 cmd sense fuel op s = Some ((r, op'), s') /\
    ready_end E (deadline false E) r op' s' /\ time s + 5000 * khz <= E < time s + 5000 * khz + 2 ^ 24.
Proof.
  intros Hs Hd Hf. destruct (steady_calc 5000 s Hs) as (s1 & Hc & Hs1 & Ht1).
  unfold scsi_is_ready. rewrite (bind_some _ _ _ _ _ Hc).
  destruct (ready_loop_ends fuel false (time s1 + khz * 5000) op s1 Hs1 Hd) as (r & op' & s' & Hr & He);
    [lia|lia|unfold rounds; lia|].
  exists (time s1 + khz * 5000), r, op', s'. split; [exact Hr|]. split; [exact He|lia].
Qed.

(** [scsi_is_ready] ends for every device whose commands end, as the PM timer
    moves: after at most one round per timer count, and no later than 35 seconds
    (30 of them only when the device says it is becoming ready) plus the time of the
    commands under way.  The result is 0 only when the last TEST UNIT READY
    succeeded; otherwise it is -1, and the 5 seconds are over or the device says
    that no medium is present. *)
Theorem scsi_is_ready_ends fuel op s : steady s -> drive_fl op = cd -> 35000 * khz + 2 <= Z.of_nat fuel ->
  exists r op' s', scsi_is_ready run call32 cmd sense fuel op s = Some ((r, op'), s') /\
    ready_end (time s + 5000 * khz) (time s + 35000 * khz + 4 * T + 3 * 2 ^ 24) r op' s'.
Proof.
  intros Hs Hd Hf. destruct (scsi_is_ready_run fuel op s Hs Hd Hf) as (E & r & op' & s' & Hr & He & HE).
  exists r, op', s'. split; [exact Hr|]. eapply ready_end_mono; [exact He|lia|unfold deadline; lia].
Qed.
End Ready.

(** ** A device that is never ready *)

Module ScsiDemo.
(** Every command fails, at once. *)
Definition run (f : driver) (op : disk_op_s) : M (block_world Z) (Z * disk_op_s) := ret (1, op).
Definition call32 (A : Type) (c : M (block_world Z) A) (err : A) : M (block_world Z) A := c.
Definition clock (w : block_world Z) : Z := bw_rest w.
Definition adv (w : block_world Z) : block_world Z := BlockWorld (bw_globals w) (bw_rest w + 1000).
(** A CD drive at 0x2000. *)
Definition globals0 : globals :=
  Globals {[0x2000 := Drive DTYPE_ATA_ATAPI 0 (Chs 0 0 0) (2 ^ 64 - 1) 0 0 2048 (Chs 0 0 0) 1]}
    (fun _ => 0x2000 :: repeat 0 15) 0 1 0 0.
(** The PM timer of Timer's example at 3580 kHz. *)
Definition mem0 : memory := write32 0xf6900 3580 TimerDemo.m0.
Definition start : machine (block_world Z) := Machine mem0 (BlockWorld globals0 0xfffff000).
End ScsiDemo.

#[local] Existing Instance TimerDemo.vars.
#[local] Existing Instance TimerDemo.env.
#[local] Existing Instance TimerDemo.cpu.

Lemma scsi_start_steady : steady ScsiDemo.clock 0x608 3580 ScsiDemo.globals0 ScsiDemo.start.
Proof.
  split; [split; [split_and!; vm_compute; try reflexivity; [discriminate|discriminate|right; reflexivity]|reflexivity]|].
  split; [|split; reflexivity].
  unfold ScsiDemo.start, ScsiDemo.mem0, TimerDemo.m0. cbn [mc_mem]. auto with mem.
Qed.

(** Fuel is a number in unary: this one is not computed. *)
Lemma enough_fuel (z : Z) : exists n, z <= Z.of_nat n.
Proof. exists (Z.to_nat z). lia. Qed.

Lemma scsi_is_ready_ends_witness :
  exists fuel op' s', scsi_is_ready ScsiDemo.run ScsiDemo.call32 0x5f00 0x5f20 fuel (Op 0 0x2000 0 0 0) ScsiDemo.start =
    Some ((-1, op'), s') /\
    (0xfffff000 + 5000 * 3580 < bw_rest (mc_world s') \/ read8 (mc_mem s') (0x5f20 + Sense.asc) = 0x3a).
Proof.
  destruct (enough_fuel (35000 * 3580 + 2)) as [fuel Hfuel]. exists fuel.
  destruct (scsi_is_ready_ends ScsiDemo.run ScsiDemo.call32 ltac:(reflexivity) ScsiDemo.clock ScsiDemo.adv 0x608
    ltac:(reflexivity) ltac:(intros w; unfold ScsiDemo.clock, ScsiDemo.adv; cbn [bw_rest]; lia)
    0x5f00 0x5f20 0x2000 3580 0 ScsiDemo.globals0 ata_atapi_process_op) with (fuel := fuel)
    (op := Op 0 0x2000 0 0 0) (s := ScsiDemo.start) as (r & op' & s' & Hr & Hd & Hs & Ht & Hend).
  - unfold apart. split_and!; left; vm_compute; discriminate.
  - left. vm_compute. discriminate.
  - reflexivity.
  - vm_compute. split; [discriminate|reflexivity].
  - intros op s _ Hd Hs. exists 1, op, s. split; [reflexivity|]. split; [done|]. split; [done|lia].
  - lia.
  - lia.
  - apply scsi_start_steady.
  - reflexivity.
  - exact Hfuel.
  - destruct Hend as [(_ & op1 & s1 & Htest)|(-> & Hlate)]; [|by exists op', s'].
    unfold cdb_test_unit_ready, process_op, process_op_32, process_op_both, get_drive, get_globals, bind, ret in Htest.
    repeat case_match; simplify_eq; unfold ScsiDemo.run, ret in *; simplify_eq.
Defined.
