(* ===== verification/CdromCorrect.v ===== *)
(** * The emulated drive reads the image on the CD

    [cdemu_read] of Cdrom and its way from INT 13h, and what [cdrom_boot] makes of
    the boot catalog, over a driver that transfers sectors of a disc. *)
From S2P Require Import Prelude Machine StringOps Bytes Areas Timer Pci Block Disk DiskCorrect ScsiCmd Cdrom ScsiCorrect.
Local Open Scope seabios_scope.

(** ** What changes in memory *)

Definition area (a n x : Z) : Prop := a <= x < a + n.
Definition keeps (P : Z -> Prop) (m m' : memory) : Prop := forall x, ~ P x -> read8 m' x = read8 m x.

Lemma keeps_trans P m1 m2 m3 : keeps P m1 m2 -> keeps P m2 m3 -> keeps P m1 m3.
Proof. intros H1 H2 x Hx. by rewrite H2, H1. Qed.
Lemma keeps_mono (P Q : Z -> Prop) m m' : keeps P m m' -> (forall x, P x -> Q x) -> keeps Q m m'.
Proof. intros H HPQ x Hx. apply H. intros HP. by apply Hx, HPQ. Qed.
Lemma keeps_outside a n m m' : outside a n m m' -> keeps (area a n) m m'.
Proof. intros H x Hx. apply H. unfold area in Hx. lia. Qed.
Lemma keeps_read16 P m m' a : keeps P m m' -> (forall x, area a 2 x -> ~ P x) -> read16 m' a = read16 m a.
Proof. intros H HP. unfold read16. by rewrite !H by (apply HP; unfold area; lia). Qed.
Lemma keeps_read32 P m m' a : keeps P m m' -> (forall x, area a 4 x -> ~ P x) -> read32 m' a = read32 m a.
Proof.
  intros H HP. unfold read32. by rewrite !(keeps_read16 P m m') by (done || intros x Hx; apply HP; unfold area in *; lia).
Qed.

(** The next bytes after those already there. *)
Definition holds (data : Z -> Z) (a n : Z) (m : memory) : Prop := forall i, 0 <= i < n -> read8 m (a + i) = data i.
Lemma holds_app data a n k m : 0 <= n -> holds data a n m -> holds (fun i => data (n + i)) (a + n) k m ->
  holds data a (n + k) m.
Proof.
  intros Hn H1 H2 i Hi. destruct (Z_lt_ge_dec i n); [by apply H1; lia|].
  specialize (H2 (i - n) ltac:(lia)). cbv beta in H2. replace (a + n + (i - n)) with (a + i) in H2 by lia.
  rewrite H2. f_equal. lia.
Qed.
Lemma holds_keeps data a n P m m' : holds data a n m -> keeps P m m' -> (forall x, area a n x -> ~ P x) -> holds data a n m'.
Proof. intros Hh Hk HP i Hi. rewrite Hk by (apply HP; unfold area; lia). by apply Hh. Qed.
Lemma holds_ext (data data' : Z -> Z) a n m : holds data a n m -> (forall i, 0 <= i < n -> data i = data' i) -> holds data' a n m.
Proof. intros H He i Hi. rewrite <- He by done. by apply H. Qed.

(** ** The disc *)

Section Disc.
Context {W : Type} `{Env W}.
Context (run : driver -> disk_op_s -> M (block_world W) (Z * disk_op_s)).
Context (call32 : forall A, M (block_world W) A -> A -> M (block_world W) A).
Hypothesis call32_runs : forall A c d s, call32 A c d s = c s.

(** The bytes of the disc, the drive and its driver, and the memory the driver
    uses for itself. *)
Context (disc : Z -> Z) (cd : Z) (f : driver) (scratch : Z -> Prop).

(** A result of a request for [n] blocks: as many as [count] tells have been
    transferred, all unless there is an error. *)
Definition delivered (r : Z) (op op' : disk_op_s) (s s' : machine (block_world W)) : Prop :=
  op' = set_count (count op') op /\ 0 <= count op' <= count op /\ -128 <= r < 256 /\ (r = 0 -> count op' = count op) /\
  bw_globals (mc_world s') = bw_globals (mc_world s) /\ bytes_ok (mc_mem s') /\
  keeps (fun x => area (buf_fl op) (count op * 2048) x \/ scratch x) (mc_mem s) (mc_mem s') /\
  holds (fun i => disc (lba op * 2048 + i)) (buf_fl op) (count op' * 2048) (mc_mem s').

Definition reads_disc : Prop := forall op s, command op = CMD_READ -> drive_fl op = cd -> 0 <= count op <= 32 ->
  0 <= buf_fl op -> buf_fl op + count op * 2048 <= 2 ^ 32 -> bytes_ok (mc_mem s) ->
  exists r op' s', run f op s = Some ((r, op'), s') /\ delivered r op op' s s'.
Hypothesis driver_ok : reads_disc.

Definition is_cd (g : globals) : Prop :=
  driver_of (type (drive_at g cd)) = Some f /\ blksize (drive_at g cd) = CDROM_SECTOR_SIZE.

Lemma process_op_reads mode op s : command op = CMD_READ -> drive_fl op = cd -> 0 <= count op <= 32 ->
  0 <= buf_fl op -> buf_fl op + count op * 2048 <= 2 ^ 32 -> bytes_ok (mc_mem s) -> is_cd (bw_globals (mc_world s)) ->
  exists r op' s', process_op run call32 mode op s = Some ((r, op'), s') /\ delivered r op op' s s'.
Proof.
  intros Hc Hd Hn Hb0 Hb Hm [Hf Hbs].
  destruct (driver_ok op s Hc Hd Hn Hb0 Hb Hm) as (r & op' & s' & Hr & Hdel).
  rewrite (process_op_runs run call32 call32_runs mode f); rewrite ?Hd;
    [|exact Hf|rewrite Hbs; unfold CDROM_SECTOR_SIZE; lia].
  rewrite Hr. unfold settle. destruct (truthy r && (count op' =? count op)) eqn:He; eexists r, _, s'; (split; [reflexivity|]); [|done].
  apply andb_true_iff in He as [Hr0 _]. apply negb_true_iff, Z.eqb_neq in Hr0.
  destruct Hdel as (Hop & Hcnt & Hrr & Hall & Hg & Hok & Hk & Hh). unfold delivered. rewrite Hop. cbn [set_count count buf_fl lba].
  split_and!; try done; try lia. intros i Hi. lia.
Qed.

(** ** Reading 512-byte sectors *)

(** A request and the memory before it; the bytes it asks for start at
    [start] on the disc. *)
Context (op0 : disk_op_s) (s0 : machine (block_world W)) (ilba bounce : Z).
Abbreviation N := (count op0).
Abbreviation buf := (buf_fl op0).
Definition start : Z := (ilba * 4 + lba op0) * 512.
Definition touched (x : Z) : Prop := area buf (N * 512) x \/ area bounce 2048 x \/ scratch x.
Hypothesis command0 : command op0 = CMD_READ.
Hypothesis N_range : 1 <= N <= 128.
Hypothesis lba_range : 0 <= lba op0 < 2 ^ 32.
Hypothesis ilba_range : 0 <= ilba < 2 ^ 32.
Hypothesis buf_range : 0 <= buf /\ buf + N * 512 <= 2 ^ 32.
Hypothesis bounce_range : 0 <= bounce /\ bounce + 2048 <= 2 ^ 32.
Hypothesis bounce_ok : bounce_buf_fl (bw_globals (mc_world s0)) = bounce.
Hypothesis cd_ok : is_cd (bw_globals (mc_world s0)).
Hypothesis apart_bounce : forall x, area buf (N * 512) x -> ~ area bounce 2048 x /\ ~ scratch x.
Hypothesis bounce_scratch : forall x, area bounce 2048 x -> ~ scratch x.

(** After [k] sectors. *)
Definition sectors_done (k : Z) (s : machine (block_world W)) : Prop :=
  0 <= k <= N /\ bw_globals (mc_world s) = bw_globals (mc_world s0) /\ bytes_ok (mc_mem s) /\
  keeps touched (mc_mem s0) (mc_mem s) /\ holds (fun i => disc (start + i)) buf (k * 512) (mc_mem s).

(** The two requests between the parts of [cdemu_read]. *)
Definition between (k : Z) (dop op : disk_op_s) (n : Z) (s : machine (block_world W)) : Prop :=
  sectors_done k s /\ buf_fl op = buf + k * 512 /\ count op = k /\ lba op = lba op0 /\ n = N - k /\
  drive_fl dop = cd /\ command dop = CMD_READ /\
  (0 < n -> lba dop = (ilba * 4 + lba op0 + k) / 4).

Lemma sectors_done_keeps k s s' : sectors_done k s -> bw_globals (mc_world s') = bw_globals (mc_world s) ->
  bytes_ok (mc_mem s') -> keeps (fun x => area bounce 2048 x \/ scratch x) (mc_mem s) (mc_mem s') -> sectors_done k s'.
Proof.
  intros (Hk & Hg & Hm & Hkeep & Hh) Hg' Hm' Hkp. split; [done|]. split; [congruence|]. split; [done|].
  split; [eapply keeps_trans; [exact Hkeep|]; eapply keeps_mono; [exact Hkp|]; unfold touched; tauto|].
  eapply holds_keeps; [exact Hh|exact Hkp|]. intros x Hx.
  destruct (apart_bounce x) as [? ?]; [unfold area in *; lia|]. tauto.
Qed.

Lemma sectors_done_more k c s s' : sectors_done k s -> 0 <= c <= N - k ->
  bw_globals (mc_world s') = bw_globals (mc_world s) -> bytes_ok (mc_mem s') ->
  keeps (fun x => area (buf + k * 512) ((N - k) * 512) x \/ scratch x) (mc_mem s) (mc_mem s') ->
  holds (fun i => disc (start + k * 512 + i)) (buf + k * 512) (c * 512) (mc_mem s') -> sectors_done (k + c) s'.
Proof.
  intros (Hk & Hg & Hm & Hkeep & Hh) Hc Hg' Hm' Hkp Hnew. split; [lia|]. split; [congruence|]. split; [done|].
  split; [eapply keeps_trans; [exact Hkeep|]; eapply keeps_mono; [exact Hkp|]; unfold touched, area; intros x [?|?]; [left; lia|tauto]|].
  rewrite Z.mul_add_distr_r. apply (holds_app (fun i => disc (start + i))); [lia| |].
  - eapply holds_keeps; [exact Hh|exact Hkp|]. intros x Hx.
    destruct (apart_bounce x) as [? ?]; [unfold area in *; lia|]. unfold area in *. intros [?|?]; [lia|tauto].
  - eapply holds_ext; [exact Hnew|]. intros i Hi. cbv beta. f_equal. lia.
Qed.

(** One block by way of the bounce buffer: [c] of its sectors, from [o] on. *)
Lemma bounce_read k c o dop n s : sectors_done k s -> 1 <= c <= N - k -> 0 <= o -> o + c <= 4 ->
  command dop = CMD_READ -> drive_fl dop = cd -> lba dop * 4 + o = ilba * 4 + lba op0 + k ->
  buf_fl dop = bounce -> count dop = 1 -> 0 <= n ->
  exists r dop' s', process_op run call32 true dop s = Some ((r, dop'), s') /\ -128 <= r < 256 /\ sectors_done k s' /\
    drive_fl dop' = cd /\ command dop' = CMD_READ /\ lba dop' = lba dop /\
    (r = 0 -> sectors_done (k + c)
       (Machine (memcpy (buf + k * 512) (bounce + o * 512) (c * 512) (mc_mem s')) (mc_world s'))).
Proof.
  intros Hs Hc Ho Hoc Hcmd Hd Hl Hb Hn _. pose proof Hs as (Hk & Hg & Hm & _ & _).
  destruct (process_op_reads true dop s) as (r & dop' & s' & Hp & Hdel); rewrite ?Hn, ?Hb; try done; try lia; [by rewrite Hg|].
  destruct Hdel as (Hop & Hcnt & Hrr & Hall & Hg' & Hok & Hkp & Hh). rewrite Hn, Hb in Hkp. rewrite Hb in Hh. rewrite Hn in *.
  assert (Hs' : sectors_done k s') by (by apply (sectors_done_keeps k s)).
  exists r, dop', s'. split; [exact Hp|]. split; [done|]. split; [done|]. rewrite Hop. cbn [set_count drive_fl command lba].
  split_and!; try done. intros Hr. rewrite (Hall Hr) in Hh.
  assert (Hsep : buf + N * 512 <= bounce \/ bounce + 2048 <= buf).
  { destruct (Z_le_gt_dec (buf + N * 512) bounce); [by left|]. destruct (Z_le_gt_dec (bounce + 2048) buf); [by right|].
    exfalso. apply (proj1 (apart_bounce (Z.max buf bounce) ltac:(unfold area; lia))). unfold area. lia. }
  pose proof (memcpy_spec (buf + k * 512) (bounce + o * 512) (c * 512) (mc_mem s') Hok ltac:(lia) ltac:(lia)) as Hcp.
  apply (sectors_done_more k c s'); cbn [mc_mem mc_world]; try done; [lia|by eapply copied_ok| |].
  - eapply keeps_mono; [apply keeps_outside; eapply copied_outside; exact Hcp|]. intros x Hx. left. unfold area in *. lia.
  - intros i Hi. rewrite Hcp. rewrite (proj2 (in_range_true _ _ _)) by lia.
    replace (bounce + o * 512 + (buf + k * 512 + i - (buf + k * 512))) with (bounce + (o * 512 + i)) by lia.
    rewrite (Hh (o * 512 + i)) by lia. f_equal. unfold start. lia.
Qed.

(** The three parts. *)
Lemma read_first_ok dop op n s : between 0 dop op n s -> exists r dop' op' n' s',
  read_first run call32 dop op n s = Some ((r, dop', op', n'), s') /\ -128 <= r < 256 /\
  (r <> 0 -> sectors_done (count op') s') /\
  (r = 0 -> exists k, between k dop' op' n' s' /\ (0 < n' -> (lba op0 + k) mod 4 = 0)).
Proof.
  intros (Hs & Hb & Hcnt & Hl & Hn & Hd & Hcmd & Hal). pose proof Hs as (_ & Hg & _).
  unfold read_first. rewrite Hl, (Z.land_ones _ 2) by done. change (2 ^ 2) with 4. set (o := lba op0 mod 4).
  assert (Ho : 0 <= o < 4) by (subst o; lia).
  unfold truthy at 1. destruct (Z.eqb_spec o 0) as [Ho0|Ho0]; cbn [negb].
  { eexists 0, dop, op, n, s. split; [reflexivity|]. split; [lia|]. split; [done|]. intros _. exists 0. split; [by split_and!|].
    intros _. by rewrite Z.add_0_r. }
  erewrite bind_some by reflexivity. rewrite Hg, bounce_ok. cbv zeta.
  set (c := if n <? u8 (4 - o) then u8 n else u8 (4 - o)).
  assert (Hc : c = Z.min N (4 - o)) by (subst c; rewrite (u8_small (4 - o)) by lia; destruct (Z.ltb_spec n (4 - o)); unfold u8; lia).
  specialize (Hal ltac:(lia)).
  destruct (bounce_read 0 c o (Op bounce (drive_fl dop) (command dop) 1 (lba dop)) 1 s) as (r & dop' & s' & Hp & Hrr & Hs' & Hd' & Hcmd' & Hl' & Hok);
    try done; try lia; [cbn [lba]; subst o; lia|].
  rewrite (bind_some _ _ _ _ _ Hp). destruct (truthy r) eqn:Hr.
  { eexists r, dop', op, n, s'. split; [reflexivity|]. split; [done|]. rewrite Hcnt. split; [done|].
    intros ->. discriminate. }
  apply negb_false_iff, Z.eqb_eq in Hr as ->. erewrite bind_some by reflexivity. eexists 0, _, _, _, _.
  split; [reflexivity|]. split; [lia|]. split; [done|]. intros _. exists c. rewrite Hcnt, Hb.
  specialize (Hok eq_refl). replace (0 + c) with c in Hok by lia.
  cbn [buf_fl count lba drive_fl command]. rewrite !Z.mul_0_l, Z.add_0_r in *. unfold between.
  cbn [buf_fl count lba drive_fl command]. cbn [lba] in Hl'. rewrite Hl', Z.add_0_l, (u16_small c) by lia.
  split; [|subst o; lia]. split_and!; try done; [lia|]. intros Hn'. rewrite u64_small by lia. subst o. lia.
Qed.

Lemma read_middle_ok k dop op n s : between k dop op n s -> (0 < n -> (lba op0 + k) mod 4 = 0) ->
  exists r dop' op' n' s',
  read_middle run call32 dop op n s = Some ((r, dop', op', n'), s') /\ -128 <= r < 256 /\
  (r <> 0 -> sectors_done (count op') s') /\
  (r = 0 -> exists k, between k dop' op' n' s' /\ n' < 4 /\ (0 < n' -> (lba op0 + k) mod 4 = 0)).
Proof.
  intros Hbt Hmod. pose proof Hbt as (Hs & Hb & Hcnt & Hl & Hn & Hd & Hcmd & Hal). pose proof Hs as (Hk & Hg & Hm & _).
  unfold read_middle. destruct (Z.ltb_spec 3 n) as [H3|H3]; cycle 1.
  { eexists 0, dop, op, n, s. split; [reflexivity|]. split; [lia|]. split; [done|]. intros _. exists k. split; [exact Hbt|]. split; [lia|exact Hmod]. }
  specialize (Hmod ltac:(lia)). specialize (Hal ltac:(lia)). rewrite (u16_small (n / 4)) by lia.
  set (dop1 := Op (buf_fl op) (drive_fl dop) (command dop) (n / 4) (lba dop)).
  destruct (process_op_reads true dop1 s) as (r & dop' & s' & Hp & Hdel); subst dop1; cbn [command drive_fl count buf_fl];
    try done; try lia; [by rewrite Hg|].
  destruct Hdel as (Hop & Hc & Hrr & Hall & Hg' & Hok & Hkp & Hh). cbn [command drive_fl count buf_fl lba set_count] in *.
  rewrite (bind_some _ _ _ _ _ Hp). cbv zeta. set (c := count dop') in *.
  assert (Hmore : forall b, b = c * 4 -> sectors_done (k + b) s').
  { intros b ->. apply (sectors_done_more k (c * 4) s s'); try done; [lia| |].
    - eapply keeps_mono; [exact Hkp|]. rewrite Hb. unfold area. intros x [?|?]; [left; lia|by right].
    - rewrite Hb in Hh. replace (c * 4 * 512) with (c * 2048) by lia. eapply holds_ext; [exact Hh|]. intros i Hi. cbv beta.
      f_equal. unfold start. lia. }
  rewrite Hcnt. rewrite (u16_small (k + c * 4)) by lia. destruct (truthy r) eqn:Hr.
  { eexists r, dop', _, n, s'. split; [reflexivity|]. split; [done|]. split; [intros _; by apply Hmore|]. intros ->. discriminate. }
  apply negb_false_iff, Z.eqb_eq in Hr as ->. specialize (Hall eq_refl).
  assert (Hland : Z.land n (Z.lnot 3) = n - n mod 4).
  { pose proof (land_lnot_mask 8 n 2 ltac:(lia) ltac:(lia)) as Hx. change (Z.lnot (2 ^ 2 - 1) mod 2 ^ 8) with 252 in Hx.
    assert (Z.land n 252 = Z.land n (Z.lnot 3)) as <-; [|exact Hx].
    apply Z.bits_inj'. intros i Hi. rewrite !Z.land_spec. destruct (Z_lt_ge_dec i 8) as [Hi8|Hi8].
    - assert (i = 0 \/ i = 1 \/ i = 2 \/ i = 3 \/ i = 4 \/ i = 5 \/ i = 6 \/ i = 7) as Hc8 by lia.
      by destruct Hc8 as [-> | [-> | [-> | [-> | [-> | [-> | [-> | ->]]]]]]].
    - assert (Z.testbit n i = false) as ->; [|done]. apply Z.bits_above_log2; [lia|].
      apply Z.log2_lt_pow2; [lia|]. apply Z.lt_le_trans with (2 ^ 8); [lia|]. apply Z.pow_le_mono_r; lia. }
  assert (Hland3 : Z.land n 3 = n mod 4) by (apply (Z.land_ones n 2); done).
  rewrite Hland, Hland3, (u8_small (n - n mod 4)) by lia.
  eexists 0, _, _, _, _. split; [reflexivity|]. split; [lia|]. split; [done|]. intros _. exists (k + (n - n mod 4)).
  unfold between. cbn [buf_fl count lba drive_fl command set_count]. rewrite Hop. cbn [buf_fl count lba drive_fl command set_count].
  split_and!; try done; try lia.
  - apply Hmore. lia.
  - intros Hn'. rewrite u64_small by lia. lia.
Qed.

Lemma read_last_ok k dop op n s : between k dop op n s -> n < 4 -> (0 < n -> (lba op0 + k) mod 4 = 0) ->
  exists r op' s', read_last run call32 dop op n s = Some ((r, op'), s') /\ -128 <= r < 256 /\
    sectors_done (count op') s' /\ (r = 0 -> count op' = N).
Proof.
  intros (Hs & Hb & Hcnt & Hl & Hn & Hd & Hcmd & Hal) H4 Hmod. pose proof Hs as (Hk & Hg & Hm & _).
  unfold read_last, truthy at 1. destruct (Z.eqb_spec n 0) as [Hn0|Hn0]; cbn [negb].
  { eexists 0, op, s. split; [reflexivity|]. split; [lia|]. rewrite Hcnt. split; [done|lia]. }
  specialize (Hmod ltac:(lia)). specialize (Hal ltac:(lia)).
  erewrite bind_some by reflexivity. rewrite Hg, bounce_ok. cbv zeta.
  destruct (bounce_read k n 0 (Op bounce (drive_fl dop) (command dop) 1 (lba dop)) 1 s) as (r & dop' & s' & Hp & Hrr & Hs' & _ & _ & _ & Hok);
    try done; try lia; [cbn [lba]; lia|].
  rewrite (bind_some _ _ _ _ _ Hp). destruct (truthy r) eqn:Hr.
  { eexists r, op, s'. split; [reflexivity|]. split; [done|]. rewrite Hcnt. split; [done|]. intros ->. discriminate. }
  apply negb_false_iff, Z.eqb_eq in Hr as ->. erewrite bind_some by reflexivity. eexists 0, _, _.
  split; [reflexivity|]. split; [lia|]. cbn [set_count count]. rewrite (u8_small n), Hcnt, (u16_small (k + n)), Hb by lia.
  specialize (Hok eq_refl). rewrite Z.mul_0_l, Z.add_0_r in Hok. split; [exact Hok|lia].
Qed.

(** All of [cdemu_read]. *)
Context (SEG_LOW CDEmu emulated_drive_gf : Z).
Hypothesis cd_there : read32 (mc_mem s0) (low SEG_LOW emulated_drive_gf) = cd.
Hypothesis ilba_there : read32 (mc_mem s0) (low SEG_LOW (CDEmu + CDEMU.ilba)) = ilba.
Hypothesis mem_ok : bytes_ok (mc_mem s0).

Lemma cdemu_read_ok : exists r op' s', cdemu_read SEG_LOW CDEmu emulated_drive_gf run call32 op0 s0 = Some ((r, op'), s') /\
  -128 <= r < 256 /\ sectors_done (count op') s' /\ (r = 0 -> count op' = N).
Proof.
  unfold cdemu_read, get32. do 2 erewrite bind_some by reflexivity. rewrite cd_there, ilba_there. cbv zeta.
  assert (H0 : sectors_done 0 s0) by (split_and!; try done; [lia|intros i Hi; lia]).
  destruct (read_first_ok (Op 0 cd (command op0) 0 (u64 (ilba + lba op0 / 4))) (set_count 0 op0) N s0)
    as (r1 & dop1 & op1 & n1 & s1 & Hr1 & Hrr1 & He1 & Hok1).
  { unfold between. cbn [buf_fl count lba set_count drive_fl command]. split_and!; try done; try lia.
    intros _. rewrite u64_small by lia. lia. }
  rewrite (bind_some _ _ _ _ _ Hr1). destruct (truthy r1) eqn:Ht1.
  { exists r1, op1, s1. split; [reflexivity|]. split; [done|]. apply negb_true_iff, Z.eqb_neq in Ht1. by split; [apply He1|]. }
  apply negb_false_iff, Z.eqb_eq in Ht1. destruct (Hok1 Ht1) as (k1 & Hb1 & Hm1).
  destruct (read_middle_ok k1 dop1 op1 n1 s1 Hb1 Hm1) as (r2 & dop2 & op2 & n2 & s2 & Hr2 & Hrr2 & He2 & Hok2).
  rewrite (bind_some _ _ _ _ _ Hr2). destruct (truthy r2) eqn:Ht2.
  { exists r2, op2, s2. split; [reflexivity|]. split; [done|]. apply negb_true_iff, Z.eqb_neq in Ht2. by split; [apply He2|]. }
  apply negb_false_iff, Z.eqb_eq in Ht2. destruct (Hok2 Ht2) as (k2 & Hb2 & Hn2 & Hm2).
  exact (read_last_ok k2 dop2 op2 n2 s2 Hb2 Hn2 Hm2).
Qed.
End Disc.

(** ** From INT 13h *)

Section Int13.
Context {W : Type} `{Env W}.
Context (CONFIG_ENTRY_EXTRASTACK CONFIG_ATA CONFIG_ATA_PIO32 : bool).
Context (SEG_LOW DefaultDPTE CDEmu CDRom_locks diskette_param_table2 emulated_drive_gf : Z).
Context (ata_info_at : Z -> ata_info).
Context (run : driver -> disk_op_s -> M (block_world W) (Z * disk_op_s)).
Context (call32 : forall A, M (block_world W) A -> A -> M (block_world W) A).
Hypothesis call32_runs : forall A c d s, call32 A c d s = c s.
Context (disc : Z -> Z) (cd : Z) (f : driver) (scratch : Z -> Prop).
Hypothesis driver_ok : reads_disc run disc cd f scratch.

Abbreviation run_all := (run_cdemu true SEG_LOW CDEmu emulated_drive_gf run call32).
Abbreviation int13 := (handle_13 true true CONFIG_ENTRY_EXTRASTACK CONFIG_ATA CONFIG_ATA_PIO32 SEG_LOW DefaultDPTE
  CDEmu CDRom_locks diskette_param_table2 ata_info_at run_all call32).

(** The geometry an emulated drive reports. *)
Definition emulated_geometry (m : memory) : chs_s :=
  let sptcyl := read8 m (low SEG_LOW (CDEmu + ElTorito.chs_sptcyl)) in
  Chs (read8 m (low SEG_LOW (CDEmu + ElTorito.chs_heads)) + 1)
    (read8 m (low SEG_LOW (CDEmu + ElTorito.chs_cyllow)) + Z.land (Z.shiftl sptcyl 2) 0x300 + 1) (Z.land sptcyl 0x3f).

(** An emulation is active: the variables are outside the BIOS data area, the
    emulated drive is the one of cdrom.c and the CD drive has the driver. *)
Definition emulating (s : machine (block_world W)) : Prop :=
  let g := bw_globals (mc_world s) in
  0x500 <= low SEG_LOW CDEmu /\ 0x500 <= low SEG_LOW emulated_drive_gf /\
  read8 (mc_mem s) (low SEG_LOW (CDEmu + ElTorito.media)) <> 0 /\
  read32 (mc_mem s) (low SEG_LOW emulated_drive_gf) = cd /\ is_cd cd f g /\ bytes_ok (mc_mem s) /\
  type (drive_at g (cdemu_drive_gf g)) = DTYPE_CDEMU /\ blksize (drive_at g (cdemu_drive_gf g)) = 512 /\
  0 <= bounce_buf_fl g /\ bounce_buf_fl g + 2048 <= 2 ^ 32 /\
  (forall x, area (bounce_buf_fl g) 2048 x -> ~ scratch x).

(** The memory a call of [handle_13] for [n] sectors may write. *)
Definition int13_area (g : globals) (b n x : Z) : Prop :=
  area b (n * 512) x \/ area (bounce_buf_fl g) 2048 x \/ scratch x \/ area 0x400 0x100 x.

Lemma sectors_done_less op (s0 s : machine (block_world W)) ilba bounce k k' : sectors_done disc scratch op s0 ilba bounce k s -> 0 <= k' <= k ->
  sectors_done disc scratch op s0 ilba bounce k' s.
Proof.
  intros (Hk & Hg & Hm & Hkp & Hh) Hle. split; [lia|]. do 3 (split; [done|]). intros i Hi. apply Hh. lia.
Qed.

(** Reading [n] sectors of the image. *)
Definition image_read (op : disk_op_s) (s : machine (block_world W)) (r n : Z) (s' : machine (block_world W)) : Prop :=
  -128 <= r < 256 /\ (r = 0 -> n = count op) /\
  sectors_done disc scratch op s (read32 (mc_mem s) (low SEG_LOW (CDEmu + CDEMU.ilba)))
    (bounce_buf_fl (bw_globals (mc_world s))) n s'.

Lemma process_emulated op s : emulating s -> command op = CMD_READ ->
  drive_fl op = cdemu_drive_gf (bw_globals (mc_world s)) -> 1 <= count op <= 128 -> 0 <= lba op < 2 ^ 32 ->
  0 <= buf_fl op -> buf_fl op + count op * 512 <= 2 ^ 32 ->
  (forall x, area (buf_fl op) (count op * 512) x -> ~ area (bounce_buf_fl (bw_globals (mc_world s))) 2048 x /\ ~ scratch x) ->
  exists r op' s', process_op run_all call32 true op s = Some ((r, op'), s') /\ image_read op s r (count op') s'.
Proof.
  intros (Hl1 & Hl2 & Hm & Hcd & Hiscd & Hok & Ht & Hbs & Hbb & Hbb2 & Hbsc) Hc Hd Hn Hlba Hb0 Hb Hap.
  destruct (cdemu_read_ok run call32 call32_runs disc cd f scratch driver_ok op s _ (bounce_buf_fl (bw_globals (mc_world s)))
    Hc Hn Hlba (read32_range _ _ Hok) (conj Hb0 Hb) (conj Hbb Hbb2) eq_refl Hiscd Hap SEG_LOW CDEmu emulated_drive_gf
    Hcd eq_refl Hok) as (r & op' & s' & Hr & Hrr & Hs' & Hall).
  unfold process_op. erewrite bind_some by reflexivity. rewrite Hd, Hbs.
  assert (s32 (count op * 512) = count op * 512) as -> by (unfold s32, u32; zbool). rewrite (proj2 (Z.ltb_ge _ _)) by lia.
  assert (Hp : process_op_16 run_all call32 op s = Some ((r, op'), s')).
  { unfold process_op_16. erewrite bind_some by reflexivity. rewrite Hd, Ht. cbn [dispatch cases_16].
    unfold run_cdemu, cdemu_process_op. change (DTYPE_CDEMU =? DTYPE_FLOPPY) with false. change (DTYPE_CDEMU =? DTYPE_ATA) with false.
    change (DTYPE_CDEMU =? DTYPE_RAMDISK) with false. change (DTYPE_CDEMU =? DTYPE_CDEMU) with true. cbn iota. cbn [negb].
    rewrite Hc. change (CMD_READ =? CMD_READ) with true. cbn iota. exact Hr. }
  rewrite (bind_some _ _ _ _ _ Hp). eexists r, _, s'. split; [reflexivity|]. unfold image_read.
  destruct (truthy r && (count op' =? count op)) eqn:He; [|done]. cbn [set_count count].
  apply andb_true_iff in He as [Hr0 _]. apply negb_true_iff, Z.eqb_neq in Hr0. split_and!; try done; try lia.
  all: eapply sectors_done_less; [exact Hs'|]; destruct Hs' as [? _]; lia.
Qed.

Lemma send_emulated op s r op' s' : process_op run_all call32 true op s = Some ((r, op'), s') ->
  exists op2, send_disk_op true CONFIG_ENTRY_EXTRASTACK run_all call32 op s = Some ((r, op2), s') /\ count op2 = count op'.
Proof.
  intros Hp. unfold send_disk_op. destruct CONFIG_ENTRY_EXTRASTACK; cbn [negb]; [by exists op'|].
  unfold bind. rewrite Hp. by eexists.
Qed.

(** The variables are out of the reach of the interrupt flag. *)
Lemma emulating_flag s : emulating s ->
  let s1 := Machine (write8 BDA.disk_interrupt_flag 0 (mc_mem s)) (mc_world s) in
  emulating s1 /\ emulated_geometry (mc_mem s1) = emulated_geometry (mc_mem s) /\
  read32 (mc_mem s1) (low SEG_LOW (CDEmu + CDEMU.ilba)) = read32 (mc_mem s) (low SEG_LOW (CDEmu + CDEMU.ilba)).
Proof.
  intros (Hl1 & Hl2 & Hm & Hcd & Hiscd & Hok & Hrest). cbv zeta. unfold emulating, emulated_geometry. cbn [mc_mem mc_world].
  unfold low, CDEMU.ilba, ElTorito.media, ElTorito.chs_sptcyl, ElTorito.chs_cyllow, ElTorito.chs_heads in *.
  change BDA.disk_interrupt_flag with 0x48e. rewrite !read8_write8_ne, !read32_write8_ne by lia.
  split; [|done]. split_and!; try done; try lia. auto with mem. all: apply Hrest.
Qed.

Lemma emulated_capacity s : emulating s -> capacity (emulated_geometry (mc_mem s)) < 2 ^ 32.
Proof.
  intros (_ & _ & _ & _ & _ & Hok & _). unfold capacity, emulated_geometry. cbn [cylinder head sector].
  pose proof (Hok (low SEG_LOW (CDEmu + ElTorito.chs_heads))). pose proof (Hok (low SEG_LOW (CDEmu + ElTorito.chs_cyllow))).
  pose proof (Hok (low SEG_LOW (CDEmu + ElTorito.chs_sptcyl))). set (x := read8 _ (low SEG_LOW (CDEmu + ElTorito.chs_sptcyl))) in *.
  pose proof (land_pow2_range 10 (Z.shiftl x 2) 0x300 ltac:(lia) ltac:(apply Z.shiftl_nonneg; lia) ltac:(lia)).
  pose proof (land_pow2_range 6 x 0x3f ltac:(lia) ltac:(lia) ltac:(lia)). nia.
Qed.

Lemma basic_access_emulated regs s : emulating s -> 1 <= r_al regs <= 128 ->
  let c := chs_of_regs regs in let geo := emulated_geometry (mc_mem s) in
  let b := MAKE_FLATPTR (r_es regs) (r_bx regs) in
  chs_valid geo c -> 0 <= b -> b + r_al regs * 512 <= 2 ^ 32 ->
  (forall x, area b (r_al regs * 512) x -> ~ area (bounce_buf_fl (bw_globals (mc_world s))) 2048 x /\ ~ scratch x) ->
  exists regs' r n s', basic_access true true CONFIG_ENTRY_EXTRASTACK SEG_LOW CDEmu run_all call32 regs
      (cdemu_drive_gf (bw_globals (mc_world s))) CMD_READ s =
      Some (regs', Machine (status_stored regs r (mc_mem s')) (mc_world s')) /\
    image_read (Op b (cdemu_drive_gf (bw_globals (mc_world s))) CMD_READ (r_al regs) (chs_lba geo c)) s r n s' /\
    r_al regs' = n /\ r_ah regs' = u8 r /\ cf_set regs' = truthy (u8 r).
Proof.
  intros Hem Hal c geo b Hv Hb0 Hb Hap. unfold basic_access. fold c.
  pose proof Hv as (Hvc & Hvh & Hvs).
  rewrite (proj2 (Z.ltb_ge 128 _)), (proj2 (Z.eqb_neq (r_al regs) 0)), (proj2 (Z.eqb_neq (sector c) 0)) by lia. cbn [orb].
  assert (Hg : getLCHS true SEG_LOW CDEmu (cdemu_drive_gf (bw_globals (mc_world s))) s = Some (geo, s)).
  { unfold getLCHS. erewrite bind_some by reflexivity. rewrite Z.eqb_refl. reflexivity. }
  rewrite (bind_some _ _ _ _ _ Hg).
  rewrite (proj2 (Z.leb_gt _ _)), (proj2 (Z.leb_gt _ _)), (proj2 (Z.ltb_ge _ _)) by lia. cbn [orb].
  pose proof (emulated_capacity s Hem) as Hcap. fold geo in Hcap.
  destruct (chs_lba_linear geo c Hv ltac:(lia)) as [_ Hr].
  destruct (process_emulated (Op b (cdemu_drive_gf (bw_globals (mc_world s))) CMD_READ (r_al regs) (chs_lba geo c)) s)
    as (r & op' & s' & Hp & Hread); cbn [command drive_fl count lba buf_fl]; try done; try lia.
  destruct (send_emulated _ _ _ _ _ Hp) as (op2 & Hs & Hc). rewrite (bind_some _ _ _ _ _ Hs), disk_ret_eq.
  eexists _, r, (count op'), s'. split; [reflexivity|]. split; [exact Hread|].
  destruct (status_regs_spec r (set_al (count op2) regs)) as (-> & -> & -> & _). split; [|done].
  unfold r_al. simpl. rewrite low8_with_low8, Hc. destruct Hread as (_ & _ & [? _]). cbn [count] in *. apply u8_small. lia.
Qed.

(** The way from the entry point. *)
Lemma int13_emulated regs s : emulating s -> r_ah regs = 2 ->
  r_dl regs = read8 (mc_mem s) (low SEG_LOW (CDEmu + ElTorito.emulated_drive)) ->
  int13 regs s = basic_access true true CONFIG_ENTRY_EXTRASTACK SEG_LOW CDEmu run_all call32 regs
    (cdemu_drive_gf (bw_globals (mc_world s))) CMD_READ (Machine (write8 BDA.disk_interrupt_flag 0 (mc_mem s)) (mc_world s)).
Proof.
  intros Hem Hah Hdl. unfold handle_13. cbn [negb]. rewrite Hah. change (2 =? 0x4b) with false. cbn iota.
  erewrite bind_some by reflexivity.
  assert (truthy (read8 (mc_mem s) (low SEG_LOW (CDEmu + ElTorito.media))) = true) as ->
    by (apply negb_true_iff, Z.eqb_neq, Hem). cbn [negb].
  erewrite bind_some by reflexivity. rewrite Hdl, Z.eqb_refl. erewrite bind_some by reflexivity.
  change (0x16 <? 2) with false. cbn iota. unfold disk_13. erewrite bind_some by reflexivity. by rewrite Hah.
Qed.

(** C14: a program that reads from the emulated drive gets the image.  INT 13h,
    AH=02h, on the drive number of an active emulation, for 1 to 128 sectors at a
    cylinder, head and sector of the reported geometry: the first AL sectors of
    the buffer ES:BX are those of the boot image on the CD from the linear
    position on, although the CD has blocks of four sectors and only whole ones
    can be read; AL is the number asked for unless AH tells an error, the carry
    flag says which, and nothing is written but the buffer, the bounce buffer,
    the driver's own memory and the BIOS data area. *)
Theorem int13_reads_image regs s :
  emulating s -> r_ah regs = 2 -> 0 <= r_es regs < 2 ^ 16 ->
  r_dl regs = read8 (mc_mem s) (low SEG_LOW (CDEmu + ElTorito.emulated_drive)) ->
  let geo := emulated_geometry (mc_mem s) in
  let c := chs_of_regs regs in
  let lin := (cylinder c * head geo + head c) * sector geo + (sector c - 1) in
  let b := MAKE_FLATPTR (r_es regs) (r_bx regs) in
  let ilba := read32 (mc_mem s) (low SEG_LOW (CDEmu + CDEMU.ilba)) in
  1 <= r_al regs <= 128 -> chs_valid geo c ->
  (forall x, area b (r_al regs * 512) x ->
     ~ area (bounce_buf_fl (bw_globals (mc_world s))) 2048 x /\ ~ scratch x /\ ~ area 0x400 0x100 x) ->
  exists regs' s', int13 regs s = Some (regs', s') /\
    0 <= r_al regs' <= r_al regs /\ (r_ah regs' = 0 -> r_al regs' = r_al regs) /\ cf_set regs' = truthy (r_ah regs') /\
    holds (fun i => disc ((ilba * 4 + lin) * 512 + i)) b (r_al regs' * 512) (mc_mem s') /\
    keeps (int13_area (bw_globals (mc_world s)) b (r_al regs)) (mc_mem s) (mc_mem s').
Proof.
  intros Hem Hah Hes Hdl geo c lin b ilba Hal Hv Hap.
  set (s1 := Machine (write8 BDA.disk_interrupt_flag 0 (mc_mem s)) (mc_world s)).
  destruct (emulating_flag s Hem) as (Hem1 & Hgeo1 & Hilba1). fold s1 in Hem1, Hgeo1, Hilba1.
  assert (Hb : 0 <= b /\ b + r_al regs * 512 <= 2 ^ 32).
  { subst b. unfold MAKE_FLATPTR. rewrite Z.shiftl_mul_pow2 by done. unfold r_bx, low16. rewrite u32_small; lia. }
  pose proof (emulated_capacity s Hem) as Hcap. fold geo in Hcap.
  destruct (chs_lba_linear geo c Hv ltac:(lia)) as [He Hr]. fold lin in He. rewrite He in Hr.
  destruct (basic_access_emulated regs s1 Hem1) as (regs' & r & n & s' & Hacc & Hread & Hregs); try done; try lia.
  - by rewrite Hgeo1.
  - intros x Hx. by destruct (Hap x Hx) as (? & ? & _).
  - rewrite Hgeo1 in Hread. fold c geo in Hread. rewrite He in Hread.
    destruct Hread as (Hrr & Hall & Hk & Hg & Hok & Hkp & Hh). cbn [count buf_fl lba] in *. fold b in Hkp, Hh. rewrite Hilba1 in Hh. fold ilba in Hh.
    exists regs'. eexists. split; [by rewrite (int13_emulated regs s Hem Hah Hdl)|].
    destruct Hregs as (-> & Hah' & ->). rewrite Hah'. split; [done|]. split.
    { intros Hr0. apply Hall. unfold u8 in Hr0. lia. }
    split; [done|]. cbn [mc_mem]. unfold status_stored.
    set (st := if r_dl regs <? EXTSTART_HD then BDA.floppy_last_status else BDA.disk_last_status). assert (Hst : area 0x400 0x100 st) by (subst st; unfold area; destruct (_ <? _); vm_compute; intuition discriminate).
    split.
    + intros i Hi. rewrite read8_write8_ne; [by apply Hh|]. intros Hst'. apply (Hap (b + i)); [unfold area; lia|]. by rewrite <- Hst'.
    + intros x Hx. unfold int13_area in Hx. rewrite read8_write8_ne by (intros Hst'; rewrite <- Hst' in Hx; tauto).
      rewrite Hkp by (unfold touched; cbn [buf_fl count]; tauto). subst s1. cbn [mc_mem]. apply read8_write8_ne. intros <-. apply Hx. do 3 right.
      unfold area. vm_compute. intuition discriminate.
Qed.
End Int13.

(** ** A disc and its driver *)

Module CdDemo.
(** A driver of a drive that holds the disc. *)
Section Driver.
Context {W : Type} (disc : Z -> Z).
Definition bytes_at (n : nat) (p : Z) : list Z := map (fun i => disc (p + Z.of_nat i)) (seq 0 n).
Definition run (f : driver) (op : disk_op_s) : M (block_world W) (Z * disk_op_s) :=
  do (if command op =? CMD_READ
      then upd_mem (Bytes.write_bytes (buf_fl op) (bytes_at (Z.to_nat (count op * 2048)) (lba op * 2048)))
      else ret tt) ;; ret (0, op).

Lemma reads_disc_run cd f : (forall i, 0 <= disc i < 2 ^ 8) -> reads_disc run disc cd f (fun _ => False).
Proof.
  intros Hdisc op s Hc Hd Hn Hb0 Hb Hm. eexists 0, op, _. split.
  { unfold run. rewrite Hc. reflexivity. } cbn [mc_mem mc_world].
  set (l := bytes_at _ _). assert (Hl : Z.of_nat (List.length l) = count op * 2048).
  { subst l. unfold bytes_at. rewrite length_map, length_seq. lia. }
  unfold delivered. split; [by destruct op|]. do 2 (split; [lia|]). do 2 (split; [done|]).
  split; [apply bytes_ok_write_bytes, Hm|]. split.
  - intros x Hx. apply read8_write_bytes_out. unfold area in Hx. lia.
  - intros i Hi. rewrite <- (Z2Nat.id i) by lia. cbn [mc_mem]. rewrite read8_write_bytes_in by lia.
    subst l. unfold bytes_at. rewrite (nth_indep _ 0 (disc (lba op * 2048 + Z.of_nat 0))) by (rewrite length_map, length_seq; lia).
    rewrite (map_nth (fun i => disc (lba op * 2048 + Z.of_nat i))), seq_nth by lia. apply u8_small, Hdisc.
Qed.
End Driver.

(** The bytes of a disc, the drive at 0x2000 that holds it, and the emulated
    drive at 0xf6000. *)
Definition disc (i : Z) : Z := u8 (i / 512 + i).
Definition globals0 : globals :=
  Globals {[0x2000 := Drive DTYPE_ATA_ATAPI 0 (Chs 0 0 0) (2 ^ 64 - 1) 0 0 2048 (Chs 0 0 0) 1;
            0xf6000 := Drive DTYPE_CDEMU 0 (Chs 0 0 0) (2 ^ 64 - 1) 0 0 512 (Chs 0 0 0) 0]}
    (fun t => if decide (t = EXTTYPE_CD) then 0x2000 :: repeat 0 15 else repeat 0 16) 0 1 0xe0000 0xf6000.

(** A 1.44M floppy image at block 100. *)
Definition mem0 : memory :=
  Bytes.write_bytes 0xe9100 [19; 2; 0; 0; 100; 0; 0; 0; 0; 0; 0; 0; 0xc0; 0x07; 1; 0; 1; 18; 79]
    (write32 0xe9120 0x2000 ∅).
Definition start : machine (block_world unit) := Machine mem0 (BlockWorld globals0 tt).
(** AH=02h: 9 sectors from cylinder 0, head 1, sector 2 to 0:7C00h. *)
Definition regs : bregs := Bregs 0 0 0 0 0 0x7c00 0x0100 0x0002 0x0209 (Segoff 0 0) 0.
End CdDemo.

#[local] Existing Instance DiskCorrect.Demo.env.

Lemma int13_reads_image_witness :
  exists regs' s', handle_13 true true false false false 0xe900 0 0x100 0 0 (fun _ => AtaInfo 0 0 0 0 0 0)
      (run_cdemu true 0xe900 0x100 0x120 (CdDemo.run CdDemo.disc) Demo.call32) Demo.call32 CdDemo.regs CdDemo.start = Some (regs', s') /\
    holds (fun i => CdDemo.disc ((100 * 4 + 19) * 512 + i)) 0x7c00 (r_al regs' * 512) (mc_mem s').
Proof.
  destruct (int13_reads_image false false false 0xe900 0 0x100 0 0 0x120 (fun _ => AtaInfo 0 0 0 0 0 0) (CdDemo.run CdDemo.disc) Demo.call32
    ltac:(reflexivity) CdDemo.disc 0x2000 ata_atapi_process_op (fun _ => False) (CdDemo.reads_disc_run CdDemo.disc _ _ (fun i => u8_range _)) CdDemo.regs CdDemo.start)
    as (regs' & s' & Hr & _ & _ & _ & Hh & _).
  - assert (Hok : bytes_ok (mc_mem CdDemo.start)) by (unfold CdDemo.start, CdDemo.mem0; cbn [mc_mem]; auto with mem).
    unfold emulating. do 3 (split; [vm_compute; discriminate|]). split; [vm_compute; reflexivity|]. split; [split; reflexivity|].
    split; [exact Hok|]. split_and!; try (by intros x _ []); vm_compute; reflexivity || discriminate.
  - reflexivity.
  - vm_compute. split; [discriminate|reflexivity].
  - reflexivity.
  - vm_compute. split; discriminate.
  - unfold chs_valid. split_and!; vm_compute; reflexivity || discriminate.
  - intros x Hx. change (area 0x7c00 (9 * 512) x) in Hx. change (bounce_buf_fl _) with 0xe0000. unfold area in *. lia.
  - exists regs', s'. split; [exact Hr|]. exact Hh.
Defined.
