(* ===== verification/CdromBoot.v ===== *)
(** * What the BIOS boots from a CD

    [cdrom_boot] of Cdrom over a drive that answers every read: the result code,
    the image in memory and the variables of the emulation, as functions of the
    bytes of the disc. *)
From S2P Require Import Prelude Machine StringOps Bytes Areas Timer Pci Block Disk DiskCorrect ScsiCmd Cdrom ScsiCorrect CdromCorrect.
Local Open Scope seabios_scope.

(** ** Writes inside an area *)

Lemma keeps_refl P m : keeps P m m.
Proof. by intros x _. Qed.
Lemma keeps_write8 (P : Z -> Prop) a v m : P a -> keeps P m (write8 a v m).
Proof. intros HP x Hx. apply read8_write8_ne. intros <-. by apply Hx. Qed.
Lemma keeps_write16 (P : Z -> Prop) a v m : P a -> P (a + 1) -> keeps P m (write16 a v m).
Proof. intros H1 H2. eapply keeps_trans; apply keeps_write8; done. Qed.
Lemma keeps_write32 (P : Z -> Prop) a v m : (forall x, area a 4 x -> P x) -> keeps P m (write32 a v m).
Proof. intros HP. eapply keeps_trans; apply keeps_write16; apply HP; unfold area; lia. Qed.
Lemma holds_read8 data a n i m : holds data a n m -> 0 <= i < n -> read8 m (a + i) = data i.
Proof. intros H Hi. by apply H. Qed.
Lemma holds_read16 data a n i m : holds data a n m -> 0 <= i -> i + 1 < n -> read16 m (a + i) = data i + 2 ^ 8 * data (i + 1).
Proof. intros H H1 H2. unfold read16. rewrite <- Z.add_assoc. by rewrite !(H _) by lia. Qed.

(** ** The disc as data *)

Section Boot.
Context (disc : Z -> Z).
Hypothesis disc_bytes : forall p, is_byte (disc p).

Definition d16 (p : Z) : Z := disc p + 2 ^ 8 * disc (p + 1).
Definition d32 (p : Z) : Z := d16 p + 2 ^ 16 * d16 (p + 2).
Definition dbytes (n : nat) (p : Z) : list Z := map (fun i => disc (p + Z.of_nat i)) (seq 0 n).

Lemma holds_d32 p a n i m : holds (fun i => disc (p + i)) a n m -> 0 <= i -> i + 3 < n -> read32 m (a + i) = d32 (p + i).
Proof.
  intros H H1 H2. unfold read32, d32, d16. rewrite (holds_read16 _ _ _ _ _ H) by lia.
  replace (a + i + 2) with (a + (i + 2)) by lia. rewrite (holds_read16 _ _ _ _ _ H) by lia.
  by rewrite !Z.add_assoc.
Qed.
Lemma holds_d16 p a n i m : holds (fun i => disc (p + i)) a n m -> 0 <= i -> i + 1 < n -> read16 m (a + i) = d16 (p + i).
Proof. intros H H1 H2. rewrite (holds_read16 _ _ _ _ _ H) by lia. unfold d16. by rewrite !Z.add_assoc. Qed.
Lemma holds_dbytes p a n i k m : holds (fun i => disc (p + i)) a n m -> 0 <= i -> i + Z.of_nat k <= n ->
  read_bytes k (a + i) m = dbytes k (p + i).
Proof.
  intros H H1 H2. apply (nth_ext _ _ 0 (disc (p + i + Z.of_nat 0))).
  { unfold dbytes. by rewrite length_read_bytes, length_map, length_seq. }
  intros j Hj. rewrite length_read_bytes in Hj. rewrite nth_read_bytes by done. unfold dbytes.
  rewrite (map_nth (fun j => disc (p + i + Z.of_nat j))), seq_nth by done.
  rewrite <- Z.add_assoc, (H (i + Z.of_nat j)) by lia. by rewrite Z.add_assoc.
Qed.

(** The Boot Record Volume Descriptor, and the boot catalog it names. *)
Definition descriptor : Z := 0x11 * 2048.
Definition catalog : Z := d32 (descriptor + 0x47) * 2048.
Definition image_media : Z := disc (catalog + 0x21).
Definition image_segment : Z := if d16 (catalog + 0x22) =? 0 then 0x07c0 else d16 (catalog + 0x22).
Definition image_sectors : Z := d16 (catalog + 0x26).
Definition image_lba : Z := d32 (catalog + 0x28).
Definition image_blocks : Z := (image_sectors + 3) / 4.

(** The result of [cdrom_boot]: the first check that fails. *)
Definition boot_code (can_emulate : bool) : Z :=
  if negb (disc descriptor =? 0) then 4
  else if negb (bool_decide (dbytes 30 (descriptor + 1) = spec_id ++ [0])) then 5
  else if negb (disc (catalog + 0x00) =? 0x01) then 8
  else if negb (disc (catalog + 0x01) =? 0x00) then 9
  else if negb (disc (catalog + 0x1e) =? 0x55) then 10
  else if negb (disc (catalog + 0x1f) =? 0xaa) then 10
  else if negb (disc (catalog + 0x20) =? 0x88) then 11
  else if negb (image_media =? 0) && negb can_emulate then 13
  else 0.

Lemma d16_range p : 0 <= d16 p < 2 ^ 16.
Proof. pose proof (disc_bytes p). pose proof (disc_bytes (p + 1)). unfold is_byte, d16 in *. lia. Qed.
Lemma d32_range p : 0 <= d32 p < 2 ^ 32.
Proof. pose proof (d16_range p). pose proof (d16_range (p + 2)). unfold d32. lia. Qed.
Lemma image_segment_range : 0 < image_segment < 2 ^ 16.
Proof. pose proof (d16_range (catalog + 0x22)). unfold image_segment. zbool. Qed.
Lemma image_blocks_range : 0 <= image_blocks <= 2 ^ 14.
Proof. pose proof (d16_range (catalog + 0x26)). unfold image_blocks, image_sectors. lia. Qed.

(** ** A drive that answers *)

Context {W : Type} `{Env W} `{Cpu W} `{Vars}.
Context (run : driver -> disk_op_s -> M (block_world W) (Z * disk_op_s)).
Context (call32 : forall A, M (block_world W) A -> A -> M (block_world W) A).
Hypothesis call32_runs : forall A c d s, call32 A c d s = c s.
Context (cd : Z) (f : driver) (scratch : Z -> Prop) (g : globals).
Hypothesis driver_ok : reads_disc run disc cd f scratch.
Hypothesis driver_reliable : forall op s r op' s', run f op s = Some ((r, op'), s') -> command op = CMD_READ -> r = 0.
Hypothesis cd_ok : is_cd cd f g.

(** A state from which everything else is the memory's matter. *)
Definition sound (s : machine (block_world W)) : Prop := bytes_ok (mc_mem s) /\ bw_globals (mc_world s) = g.

Lemma block_read mode op s : command op = CMD_READ -> drive_fl op = cd -> 0 <= count op <= 32 ->
  0 <= buf_fl op -> buf_fl op + count op * 2048 <= 2 ^ 32 -> sound s ->
  exists s', process_op run call32 mode op s = Some ((0, op), s') /\ sound s' /\
    keeps (fun x => area (buf_fl op) (count op * 2048) x \/ scratch x) (mc_mem s) (mc_mem s') /\
    holds (fun i => disc (lba op * 2048 + i)) (buf_fl op) (count op * 2048) (mc_mem s').
Proof.
  intros Hc Hd Hn Hb0 Hb [Hm Hg]. destruct cd_ok as [Hf Hbs].
  destruct (driver_ok op s Hc Hd Hn Hb0 Hb Hm) as (r & op' & s' & Hr & Hdel).
  pose proof (driver_reliable _ _ _ _ _ Hr Hc) as ->.
  destruct Hdel as (Hop & Hcnt & _ & Hall & Hg' & Hok & Hk & Hh). rewrite (Hall eq_refl) in *.
  exists s'. rewrite (process_op_runs run call32 call32_runs mode f); rewrite ?Hg, ?Hd;
    [|exact Hf|rewrite Hbs; unfold CDROM_SECTOR_SIZE; lia].
  rewrite Hr. split; [|split; [split; [done|congruence]|done]]. unfold settle. simpl. rewrite Hop. by destruct op.
Qed.

(** ** The image *)

Lemma load_image_ok fuel : forall n dop s, command dop = CMD_READ -> drive_fl dop = cd -> 0 <= n < 2 ^ 16 ->
  (Z.to_nat n <= fuel)%nat -> 0 <= buf_fl dop -> buf_fl dop + n * 2048 <= 2 ^ 32 -> 0 <= lba dop -> lba dop + n < 2 ^ 64 -> sound s ->
  (forall x, area (buf_fl dop) (n * 2048) x -> ~ scratch x) ->
  exists dop' s', load_image run call32 fuel n dop s = Some ((0, dop'), s') /\ sound s' /\
    keeps (fun x => area (buf_fl dop) (n * 2048) x \/ scratch x) (mc_mem s) (mc_mem s') /\
    holds (fun i => disc (lba dop * 2048 + i)) (buf_fl dop) (n * 2048) (mc_mem s').
Proof.
  induction fuel as [|fuel IH]; intros n dop s Hc Hd Hn Hf Hb0 Hb Hl0 Hl Hs Hsc; cbn [load_image].
  all: destruct (Z.eqb_spec n 0) as [->|Hn0];
    [exists dop, s; split; [reflexivity|]; split; [done|]; split; [apply keeps_refl|intros i Hi; lia]|].
  { lia. }
  change (64 * 1024 / CDROM_SECTOR_SIZE) with 32. set (k := if 32 <? n then 32 else n).
  assert (Hk : 1 <= k <= n /\ k <= 32) by (subst k; destruct (Z.ltb_spec 32 n); lia). cbv zeta.
  destruct (block_read false (set_count k dop) s) as (s1 & Hr & Hs1 & Hkp & Hh); cbn [set_count command drive_fl count buf_fl];
    try done; try lia.
  cbn [set_count command drive_fl count buf_fl lba] in *. rewrite (bind_some _ _ _ _ _ Hr). change (truthy 0) with false. cbn iota.
  unfold CDROM_SECTOR_SIZE. cbn [set_count command drive_fl count buf_fl lba]. rewrite u16_small, u64_small by lia.
  destruct (IH (n - k) (Op (buf_fl dop + k * 2048) (drive_fl dop) (command dop) k (lba dop + k)) s1) as (dop' & s' & Hr' & Hs' & Hkp' & Hh');
    cbn [command drive_fl count buf_fl lba] in *; try done; try lia.
  { intros x Hx. apply Hsc. unfold area in *. lia. }
  exists dop', s'. split; [exact Hr'|]. split; [done|]. split.
  - eapply keeps_trans; (eapply keeps_mono; [eassumption|]); unfold area; intros x [?|?]; (left; lia) || by right.
  - replace (n * 2048) with (k * 2048 + (n - k) * 2048) by lia. apply (holds_app (fun i => disc (lba dop * 2048 + i))); [lia| |].
    + eapply holds_keeps; [exact Hh|exact Hkp'|]. intros x Hx. pose proof (Hsc x) as Hx'. unfold area in *. intros [?|?]; [lia|].
      by apply Hx'; [lia|].
    + eapply holds_ext; [exact Hh'|]. intros i Hi. cbv beta. f_equal. lia.
Qed.

(** ** The emulation's variables *)

Context (CONFIG_CDROM_EMU : bool) (SEG_LOW CDEmu emulated_drive_gf : Z).
Abbreviation L := (low SEG_LOW CDEmu).
Abbreviation E := (low SEG_LOW emulated_drive_gf).
Hypothesis vars_high : 0x500 <= L /\ 0x500 <= E.
Hypothesis vars_apart : L + 19 <= E \/ E + 4 <= L.
Definition variables (x : Z) : Prop := area L 19 x \/ area E 4 x.
Definition bios_data : Z -> Prop := area 0x400 0x100.
Definition image_area : Z -> Prop := area (image_segment * 16) (image_blocks * 2048).
Hypothesis variables_scratch : forall x, variables x -> ~ scratch x.
Hypothesis image_free : forall x, image_area x -> ~ scratch x /\ ~ variables x /\ ~ bios_data x.

Definition can_emulate : bool := CONFIG_CDROM_EMU && negb (cdemu_drive_gf g =? 0).

(** The image is in memory and the variables tell where it is. *)
Definition loaded (m : memory) : Prop :=
  read32 m E = cd /\ read32 m (L + CDEMU.ilba) = image_lba /\ read16 m (L + CDEMU.load_segment) = image_segment /\
  read16 m (L + CDEMU.sector_count) = image_sectors /\
  holds (fun i => disc (image_lba * 2048 + i)) (image_segment * 16) (image_blocks * 2048) m.

(** The drive the image is seen as: none but the CD with its number [cdid]; a
    floppy of the size the medium has; a hard disk with the geometry of its
    partition table. *)
Definition emulated (cdid : Z) (m : memory) : Prop :=
  if image_media =? 0 then read8 m (L + ElTorito.emulated_drive) = u8 (EXTSTART_CD + cdid)
  else
    read8 m (L + ElTorito.media) = image_media /\
    if image_media <? 4 then
      read8 m (L + ElTorito.emulated_drive) = 0 /\
      emulated_geometry SEG_LOW CDEmu m =
        Chs 2 80 (if image_media =? 1 then 15 else if image_media =? 2 then 18 else 36)
    else
      read8 m (L + ElTorito.emulated_drive) = 0x80 /\
      (1 <= image_sectors ->
       read8 m (L + ElTorito.chs_heads) = disc (image_lba * 2048 + 0x1c3) /\
       read8 m (L + ElTorito.chs_sptcyl) = disc (image_lba * 2048 + 0x1c4) /\
       read8 m (L + ElTorito.chs_cyllow) = disc (image_lba * 2048 + 0x1c5)).

Lemma low_add a b : low SEG_LOW (a + b) = low SEG_LOW a + b.
Proof. unfold low. lia. Qed.

(** What [start_emulation] writes leaves the image and its place alone. *)
Definition emulation_area (x : Z) : Prop := x = L + 1 \/ x = L + 2 \/ area (L + 16) 3 x \/ bios_data x.
Lemma loaded_keeps m m' : loaded m -> keeps emulation_area m m' -> loaded m'.
Proof.
  intros (F1 & F2 & F3 & F4 & F5) Hk.
  assert (Hv : forall x, area E 4 x \/ area (L + 4) 4 x \/ area (L + 12) 4 x -> ~ emulation_area x).
  { unfold emulation_area, bios_data, area. lia. }
  assert (Hi : forall x, image_area x -> ~ emulation_area x).
  { intros x Hx. destruct (image_free x Hx) as (_ & Hnv & Hb). unfold emulation_area, variables, area in *. intros [?|[?|[?|?]]]; tauto || lia. }
  unfold loaded, CDEMU.ilba, CDEMU.load_segment, CDEMU.sector_count in *.
  rewrite !(keeps_read32 _ _ _ _ Hk), !(keeps_read16 _ _ _ _ Hk).
  1: split_and!; try done; eapply holds_keeps; [exact F5|exact Hk|exact Hi].
  all: intros x Hx; apply Hv; unfold area in *; lia.
Qed.

Lemma emulation_bytes : emulation_area (L + 2) /\ emulation_area (L + 1) /\ emulation_area (L + 16) /\
  emulation_area (L + 17) /\ emulation_area (L + 18) /\ emulation_area 0x475 /\ emulation_area 0x410 /\ emulation_area (0x410 + 1).
Proof. unfold emulation_area, bios_data, area. split_and!; lia. Qed.

Ltac keep_writes :=
  unfold set_equipment_flags;
  repeat first [apply keeps_refl | eapply keeps_trans; [|first [apply keeps_write8; assumption | apply keeps_write16; assumption]]].

Lemma start_floppy cdid s : sound s -> loaded (mc_mem s) -> image_media <> 0 -> can_emulate = true -> image_media < 4 -> exists s',
  start_emulation CONFIG_CDROM_EMU SEG_LOW CDEmu image_media image_segment cdid s = Some (0, s') /\ sound s' /\
  keeps emulation_area (mc_mem s) (mc_mem s') /\ emulated cdid (mc_mem s').
Proof.
  intros [Hm Hg] Hl Hnz Hcan H4. destruct emulation_bytes as (B2 & B1 & B16 & B17 & B18 & Bh & Be & Be1).
  unfold can_emulate in Hcan. apply andb_true_iff in Hcan as [Hc1 Hc2]. apply negb_true_iff in Hc2.
  unfold start_emulation, emulated. rewrite (proj2 (Z.eqb_neq _ _) Hnz), (proj2 (Z.ltb_lt _ _) H4), Hc1, !low_add.
  unfold ElTorito.emulated_drive, ElTorito.chs_sptcyl, ElTorito.chs_cyllow, ElTorito.chs_heads, ElTorito.media.
  erewrite bind_some by reflexivity. rewrite Hg, Hc2. cbn [negb orb].
  eexists. split; [unfold bind, put8, upd_mem, get8, ret; cbn [mc_mem mc_world]; reflexivity|]. cbn [mc_mem mc_world].
  change BDA.equipment_list_flags with 0x410. split; [split; [|done]|split].
  - cbn [mc_mem]. unfold set_equipment_flags. auto 12 with mem.
  - cbn [mc_mem]. keep_writes.
  - pose proof (disc_bytes (catalog + 0x21)) as Hb. fold image_media in Hb. unfold is_byte in Hb. cbn [mc_mem].
    unfold emulated_geometry. rewrite !low_add. unfold ElTorito.chs_sptcyl, ElTorito.chs_cyllow, ElTorito.chs_heads.
    unfold set_equipment_flags. change BDA.equipment_list_flags with 0x410. mem_simpl. rewrite (u8_small image_media) by lia.
    split; [done|]. split; [done|]. by destruct (image_media =? 1), (image_media =? 2).
Qed.

Lemma start_disk cdid s : sound s -> loaded (mc_mem s) -> image_media <> 0 -> can_emulate = true -> 4 <= image_media -> exists s',
  start_emulation CONFIG_CDROM_EMU SEG_LOW CDEmu image_media image_segment cdid s = Some (0, s') /\ sound s' /\
  keeps emulation_area (mc_mem s) (mc_mem s') /\ emulated cdid (mc_mem s').
Proof.
  intros [Hm Hg] Hl Hnz Hcan H4. destruct emulation_bytes as (B2 & B1 & B16 & B17 & B18 & Bh & Be & Be1).
  unfold can_emulate in Hcan. apply andb_true_iff in Hcan as [Hc1 Hc2]. apply negb_true_iff in Hc2.
  unfold start_emulation, emulated. rewrite (proj2 (Z.eqb_neq _ _) Hnz), (proj2 (Z.ltb_ge _ _) H4), Hc1, !low_add.
  unfold ElTorito.emulated_drive, ElTorito.chs_sptcyl, ElTorito.chs_cyllow, ElTorito.chs_heads, ElTorito.media.
  erewrite bind_some by reflexivity. rewrite Hg, Hc2. cbn [negb orb].
  assert (Hseg : MAKE_FLATPTR image_segment 0 = image_segment * 16).
  { pose proof image_segment_range. unfold MAKE_FLATPTR. rewrite Z.shiftl_mul_pow2, u32_small by lia. lia. }
  eexists. split; [unfold bind, put8, upd_mem, get8, ret; cbn [mc_mem mc_world]; reflexivity|]. cbn [mc_mem mc_world].
  change BDA.hdcount with 0x475. rewrite Hseg. change (image_segment * 16 + mbr_part0_last) with (image_segment * 16 + 0x1c3).
  split; [split; [|done]|split].
  - cbn [mc_mem]. auto 12 with mem.
  - cbn [mc_mem]. keep_writes.
  - pose proof (disc_bytes (catalog + 0x21)) as Hb. fold image_media in Hb. unfold is_byte in Hb. cbn [mc_mem].
    mem_simpl. rewrite (u8_small image_media) by lia. split; [done|]. split; [done|]. intros Hn.
    destruct Hl as (_ & _ & _ & _ & Hh).
    assert (Hin : forall i, 0x1c3 <= i < 0x1c6 -> let x := image_segment * 16 + i in x <> L + 2 /\ x <> 0x475 /\ read8 (mc_mem s) x = disc (image_lba * 2048 + i)).
    { intros i Hi. assert (1 <= image_blocks) by (unfold image_blocks; lia). cbv zeta.
      destruct (image_free (image_segment * 16 + i)) as (_ & Hv & Hbd); [unfold image_area, area; lia|].
      unfold variables, bios_data, area in *. split; [lia|]. split; [lia|]. apply Hh. lia. }
    destruct (Hin 0x1c3 ltac:(lia)) as (? & ? & <-). destruct (Hin 0x1c4 ltac:(lia)) as (? & ? & <-). destruct (Hin 0x1c5 ltac:(lia)) as (? & ? & <-).
    replace (image_segment * 16 + 0x1c3 + 1) with (image_segment * 16 + 0x1c4) by lia.
    replace (image_segment * 16 + 0x1c3 + 2) with (image_segment * 16 + 0x1c5) by lia.
    split_and!; repeat first [rewrite read8_write8_eq | rewrite read8_write8_ne by lia]; apply u8_small, Hm.
Qed.

Lemma start_emulation_ok cdid s : sound s -> loaded (mc_mem s) -> exists s',
  start_emulation CONFIG_CDROM_EMU SEG_LOW CDEmu image_media image_segment cdid s =
    Some (if negb (image_media =? 0) && negb can_emulate then 13 else 0, s') /\ sound s' /\ loaded (mc_mem s') /\
  (negb (image_media =? 0) && negb can_emulate = false -> emulated cdid (mc_mem s')).
Proof.
  intros Hs Hl. destruct (Z.eqb_spec image_media 0) as [Hnz|Hnz]; cbn [negb andb].
  - destruct emulation_bytes as (B2 & _). unfold start_emulation, emulated. rewrite Hnz. change (0 =? 0) with true. cbn iota.
    eexists. split; [do 1 (erewrite bind_some by reflexivity); reflexivity|]. cbn [mc_mem mc_world]. rewrite low_add.
    split; [split; [apply bytes_ok_write8, Hs|apply Hs]|]. split.
    + eapply loaded_keeps; [exact Hl|]. by apply keeps_write8.
    + intros _. apply read8_write8_eq.
  - destruct can_emulate eqn:Hcan; cbn [negb].
    + assert (exists s', start_emulation CONFIG_CDROM_EMU SEG_LOW CDEmu image_media image_segment cdid s = Some (0, s') /\ sound s' /\
        keeps emulation_area (mc_mem s) (mc_mem s') /\ emulated cdid (mc_mem s')) as (s' & Hr & Hs' & Hk & He).
      { destruct (Z_lt_ge_dec image_media 4); [by apply start_floppy|apply start_disk; try done; lia]. }
      exists s'. split; [exact Hr|]. split; [done|]. split; [by eapply loaded_keeps|done].
    + exists s. split; [|done]. unfold start_emulation. rewrite (proj2 (Z.eqb_neq _ _) Hnz). erewrite bind_some by reflexivity.
      unfold can_emulate in Hcan. destruct Hs as [_ ->]. destruct CONFIG_CDROM_EMU; cbn [negb orb andb] in *; [|done].
      apply negb_false_iff in Hcan. by rewrite Hcan.
Qed.

(** ** The boot catalog's entry *)

Context (cmd sense buffer : Z) (tpm_add_cdrom_catalog : Z -> Z -> M (block_world W) unit).
Hypothesis buffer_range : 0 <= buffer /\ buffer + 2048 <= 2 ^ 32.
Hypothesis buffer_free : forall x, area buffer 2048 x -> ~ scratch x /\ ~ variables x.
Hypothesis cd_range : 0 <= cd < 2 ^ 32.
(** The measurement ends and keeps to its own memory. *)
Hypothesis tpm_ok : forall s, sound s -> exists s', tpm_add_cdrom_catalog buffer CDROM_SECTOR_SIZE s = Some (tt, s') /\
  sound s' /\ keeps scratch (mc_mem s) (mc_mem s').

(** The memory when the variables are set. *)
Definition entry_mem (m : memory) : memory :=
  write16 (L + 8) (cntl_id (drive_at g cd) mod 2)
    (write8 (L + 3) (cntl_id (drive_at g cd) / 2)
      (write32 (L + 4) image_lba
        (write16 (L + 14) image_sectors
          (write16 (L + 10) 0 (write16 (L + 12) image_segment (write32 E cd m)))))).

Lemma variables_in x : (E <= x < E + 4 \/ L <= x < L + 19) -> variables x.
Proof. unfold variables, area. lia. Qed.

Lemma entry_mem_keeps m : keeps variables m (entry_mem m).
Proof.
  unfold entry_mem.
  repeat (eapply keeps_trans; [|first [apply keeps_write8 | apply keeps_write16 | apply keeps_write32; intros x Hx; unfold area in Hx];
    apply variables_in; lia]). apply keeps_refl.
Qed.

Lemma entry_mem_fields m m' : keeps (fun x => image_area x \/ scratch x) (entry_mem m) m' ->
  holds (fun i => disc (image_lba * 2048 + i)) (image_segment * 16) (image_blocks * 2048) m' -> loaded m'.
Proof.
  intros Hk Hh. pose proof image_segment_range. pose proof (d16_range (catalog + 0x26)) as Hn. fold image_sectors in Hn.
  pose proof (d32_range (catalog + 0x28)) as Hl. fold image_lba in Hl.
  assert (Hv : forall x, variables x -> ~ (image_area x \/ scratch x)).
  { intros x Hx [Hi|Hsc]; [by destruct (image_free x Hi) as (_ & Hnv & _)|by apply (variables_scratch x)]. }
  unfold loaded, CDEMU.ilba, CDEMU.load_segment, CDEMU.sector_count.
  rewrite !(keeps_read32 _ _ _ _ Hk), !(keeps_read16 _ _ _ _ Hk);
    try (intros x Hx; apply Hv, variables_in; unfold area in Hx; lia).
  unfold entry_mem. mem_simpl. rewrite !u32_small, !u16_small by lia. done.
Qed.

Lemma boot_entry_ok cdid dop s : sound s -> command dop = CMD_READ -> drive_fl dop = cd ->
  holds (fun i => disc (catalog + i)) buffer 2048 (mc_mem s) -> exists s',
  boot_entry CONFIG_CDROM_EMU SEG_LOW CDEmu emulated_drive_gf run call32 buffer tpm_add_cdrom_catalog cd cdid dop s =
    Some (if negb (image_media =? 0) && negb can_emulate then 13 else 0, s') /\ sound s' /\ loaded (mc_mem s') /\
  (negb (image_media =? 0) && negb can_emulate = false -> emulated cdid (mc_mem s')).
Proof.
  intros Hs Hc Hd Hh. destruct (tpm_ok s Hs) as (s1 & Ht & Hs1 & Hk1). unfold boot_entry. rewrite (bind_some _ _ _ _ _ Ht).
  assert (Hb : forall m', keeps variables (mc_mem s1) m' -> holds (fun i => disc (catalog + i)) buffer 2048 m').
  { intros m' Hk. eapply (holds_keeps _ _ _ variables); [|exact Hk|apply buffer_free]. eapply holds_keeps; [exact Hh|exact Hk1|apply buffer_free]. }
  assert (K1 : forall a v m', L <= a < L + 18 -> keeps variables (mc_mem s1) m' -> keeps variables (mc_mem s1) (write16 a v m')).
  { intros a v m' Ha Hk. eapply keeps_trans; [exact Hk|]. apply keeps_write16; apply variables_in; lia. }
  assert (K2 : forall a v m', (a = E \/ L <= a < L + 16) -> keeps variables (mc_mem s1) m' -> keeps variables (mc_mem s1) (write32 a v m')).
  { intros a v m' Ha Hk. eapply keeps_trans; [exact Hk|]. apply keeps_write32. intros x Hx. apply variables_in. unfold area in Hx. lia. }
  pose proof (keeps_refl variables (mc_mem s1)) as K0. rewrite !low_add. unfold CDEMU.load_segment, CDEMU.buffer_segment,
    CDEMU.sector_count, CDEMU.ilba, CDEMU.controller_index, CDEMU.device_spec.
  do 2 (erewrite bind_some by reflexivity). cbn [mc_mem mc_world].
  rewrite (holds_read8 _ _ _ _ _ (Hb _ (K2 E cd _ (or_introl eq_refl) K0))) by lia. cbv beta. fold image_media.
  erewrite bind_some by reflexivity. cbn [mc_mem mc_world].
  rewrite (holds_d16 _ _ _ _ _ (Hb _ (K2 E cd _ (or_introl eq_refl) K0))) by lia. cbv zeta. fold image_segment.
  do 3 (erewrite bind_some by reflexivity). cbn [mc_mem mc_world].
  rewrite (holds_d16 catalog _ 2048) by (lia || (apply Hb; do 2 (apply K1; [lia|]); apply K2; [lia|exact K0])). fold image_sectors.
  do 2 (erewrite bind_some by reflexivity). cbn [mc_mem mc_world].
  rewrite (holds_d32 catalog _ 2048) by (lia || (apply Hb; do 3 (apply K1; [lia|]); apply K2; [lia|exact K0])). fold image_lba.
  do 2 (erewrite bind_some by reflexivity). cbn [mc_mem mc_world]. destruct Hs1 as [Hm1 Hg1]. rewrite Hg1.
  do 2 (erewrite bind_some by reflexivity). cbn [mc_mem mc_world]. fold (entry_mem (mc_mem s1)).
  pose proof image_blocks_range as Hbl. pose proof image_segment_range as Hsg.
  pose proof (d32_range (catalog + 0x28)) as Hlr. fold image_lba in Hlr.
  assert (u16 (DIV_ROUND_UP image_sectors 4) = image_blocks) as ->.
  { pose proof (d16_range (catalog + 0x26)) as Hn. fold image_sectors in Hn. unfold DIV_ROUND_UP.
    rewrite u32_small by lia. unfold image_blocks. rewrite u16_small by lia. f_equal. lia. }
  assert (MAKE_FLATPTR image_segment 0 = image_segment * 16) as Hseg.
  { unfold MAKE_FLATPTR. rewrite Z.shiftl_mul_pow2, u32_small by lia. lia. }
  rewrite Hseg.
  destruct (load_image_ok (Z.to_nat image_blocks) image_blocks
    (Op (image_segment * 16) (drive_fl dop) (command dop) (count dop) image_lba) (Machine (entry_mem (mc_mem s1)) (mc_world s1)))
    as (dop' & s2 & Hld & Hs2 & Hk2 & Hh2); cbn [command drive_fl buf_fl lba] in *; try done; try lia.
  { split; [|exact Hg1]. unfold entry_mem. cbn [mc_mem]. auto 12 with mem. }
  { intros x Hx. by apply image_free. }
  rewrite (bind_some _ _ _ _ _ Hld). cbn [fst]. change (truthy 0) with false. cbn iota.
  apply start_emulation_ok; [done|]. by eapply entry_mem_fields.
Qed.

(** ** From the power-on of the drive *)

(** The timer and the drive's answers to SCSI commands, as in ScsiCorrect. *)
Context (clock : block_world W -> Z) (adv : block_world W -> block_world W) (port khz T : Z).
Hypothesis inl_clock : forall w, dev_inl port w = (clock (adv w) mod 2 ^ 24, adv w).
Hypothesis clock_ticks : forall w, clock w < clock (adv w) < clock w + 2 ^ 24.
Hypothesis cmd_apart : apart cmd 16 TimerPort 2 /\ apart cmd 16 TimerLast 4 /\ apart cmd 16 TimerKHz 4.
Hypothesis timer_apart : apart TimerLast 4 TimerKHz 4.
Hypothesis scsi_ok : scsi_driver run clock port cd khz T g f.
Hypothesis khz_range : 0 < khz < 2 ^ 16.
Hypothesis T_range : 0 <= T < 2 ^ 24.

Lemma str_equal_disc m : holds (fun i => disc (descriptor + i)) buffer 2048 m ->
  str_equal (buffer + 1) spec_id m = bool_decide (dbytes 30 (descriptor + 1) = spec_id ++ [0]).
Proof. intros Hh. unfold str_equal. change (S (List.length spec_id)) with 30%nat. by rewrite (holds_dbytes descriptor _ 2048) by (done || lia). Qed.

(** C15: what [cdrom_boot] makes of a CD, for a drive whose commands end and whose
    reads of blocks succeed with the bytes of the disc, and a disc whose boot image
    is to be loaded where it covers neither the code's buffers, nor the emulation's
    variables, nor the BIOS data it sets.  The call waits for the drive, which ends,
    and whatever else the disc holds it returns the code of the first check that
    fails: the descriptor at block 17 (4, 5), the catalog's validation entry (8, 9,
    10), the bootable mark (11), and an emulation the BIOS has no drive for (13).
    With 0 or 13 the boot image, all its blocks however many, is at the segment the
    catalog says (07C0h if it says 0), and the variables hold its place, size and
    drive; with 0 they tell a drive that is the CD itself, a floppy of the size the
    medium has, or a hard disk with the geometry of its first partition's end. *)
Theorem cdrom_boot_correct fuel cdid s : steady clock port khz g s -> 35000 * khz + 2 <= Z.of_nat fuel ->
  cd <> 0 -> getDriveId g EXTTYPE_CD cd = cdid -> 0 <= cdid ->
  exists s', cdrom_boot CONFIG_CDROM_EMU SEG_LOW CDEmu emulated_drive_gf run call32 cmd sense buffer
      tpm_add_cdrom_catalog fuel cd s = Some (boot_code can_emulate, s') /\
    (boot_code can_emulate = 0 \/ boot_code can_emulate = 13 -> loaded (mc_mem s')) /\
    (boot_code can_emulate = 0 -> emulated cdid (mc_mem s')).
Proof.
  intros Hst Hf Hcd0 Hid Hid0. destruct cd_ok as [Hdrv Hbs].
  destruct (scsi_is_ready_run run call32 call32_runs clock adv port inl_clock clock_ticks cmd sense cd khz T g f cmd_apart timer_apart
    Hdrv ltac:(rewrite Hbs; vm_compute; split; [discriminate|reflexivity]) scsi_ok khz_range T_range fuel (Op 0 cd 0 0 0) s Hst eq_refl Hf)
    as (E0 & r0 & dop0 & s0 & Hr0 & (Hd0 & Hst0 & _) & _).
  assert (Hs0 : sound s0) by (split; apply Hst0).
  unfold cdrom_boot. erewrite bind_some by reflexivity. destruct Hst as (_ & _ & _ & ->). rewrite Hid.
  rewrite (proj2 (Z.eqb_neq _ _) Hcd0), (proj2 (Z.ltb_ge _ _) Hid0). cbn [orb]. rewrite (bind_some _ _ _ _ _ Hr0). cbn [snd]. rewrite Hd0.
  destruct (block_read false (Op buffer cd CMD_READ 1 0x11) s0) as (s1 & Hr1 & Hs1 & _ & Hh1); cbn [command drive_fl count buf_fl]; try done; try lia.
  cbn [count buf_fl lba] in Hh1. rewrite (bind_some _ _ _ _ _ Hr1). change (truthy 0) with false. cbn iota.
  change (0x11 * 2048) with descriptor in Hh1. change (1 * 2048) with 2048 in Hh1.
  erewrite bind_some by reflexivity. rewrite (holds_read8 _ _ _ _ _ Hh1), Z.add_0_r by lia. unfold boot_code, truthy at 1.
  destruct (disc descriptor =? 0) eqn:H4; cbn [negb]; [|exists s1; split; [done|]; split; [intros [?|?]; done|done]].
  rewrite (str_equal_disc _ Hh1).
  destruct (bool_decide _) eqn:H5; cbn [negb]; [|exists s1; split; [done|]; split; [intros [?|?]; done|done]].
  erewrite bind_some by reflexivity. rewrite (holds_d32 _ _ _ _ _ Hh1) by lia. cbn [buf_fl drive_fl command].
  pose proof (d32_range (descriptor + 0x47)) as Hcr.
  destruct (block_read false (Op buffer cd CMD_READ 1 (d32 (descriptor + 0x47))) s1) as (s2 & Hr2 & Hs2 & _ & Hh2); cbn [command drive_fl count buf_fl]; try done; try lia.
  cbn [count buf_fl lba] in Hh2. rewrite (bind_some _ _ _ _ _ Hr2). change (truthy 0) with false. cbn iota.
  fold catalog in Hh2. change (1 * 2048) with 2048 in Hh2. erewrite bind_some by reflexivity. unfold catalog_error.
  rewrite !(holds_read8 _ _ _ _ _ Hh2) by lia.
  repeat match goal with
  | |- context [if negb (disc (catalog + ?i) =? ?v) then _ else _] =>
    destruct (disc (catalog + i) =? v); cbn [negb];
      [|exists s2; split; [done|]; split; [intros [?|?]; done|done]]
  end.
  change (truthy 0) with false. cbn iota.
  destruct (boot_entry_ok cdid (Op buffer cd CMD_READ 1 (d32 (descriptor + 0x47))) s2 Hs2 eq_refl eq_refl Hh2)
    as (s3 & Hr3 & _ & Hl3 & He3). exists s3. split; [exact Hr3|]. split; [done|].
  intros Hz. apply He3. by destruct (negb (image_media =? 0) && negb can_emulate).
Qed.
End Boot.

(** ** A bootable disc *)

Module BootDemo.
(** Descriptor at block 17, catalog at block 20, and at block 25 the image of a
    1.44M floppy, of which 4 sectors are loaded. *)
Definition disc (i : Z) : Z :=
  let d := i - 0x11 * 2048 in
  let c := i - 20 * 2048 in
  u8 (if (1 <=? d) && (d <? 30) then nth (Z.to_nat (d - 1)) spec_id 0
  else if d =? 0x47 then 20
  else if c =? 0 then 1
  else if c =? 0x1e then 0x55
  else if c =? 0x1f then 0xaa
  else if c =? 0x20 then 0x88
  else if c =? 0x21 then 2
  else if c =? 0x26 then 4
  else if c =? 0x28 then 25
  else if 25 * 2048 <=? i then i / 512 else 0).
Lemma disc_bytes i : 0 <= disc i < 2 ^ 8.
Proof. apply u8_range. Qed.
Definition globals0 : globals :=
  Globals {[0x2000 := Drive DTYPE_ATA_ATAPI 0 (Chs 0 0 0) (2 ^ 64 - 1) 0 0 2048 (Chs 0 0 0) 1;
            0xf6000 := Drive DTYPE_CDEMU 0 (Chs 0 0 0) (2 ^ 64 - 1) 0 0 512 (Chs 0 0 0) 0]}
    (fun t => if decide (t = EXTTYPE_CD) then 0x2000 :: repeat 0 15 else repeat 0 16) 0 1 0xe0000 0xf6000.
Definition start : machine (block_world Z) := Machine ScsiDemo.mem0 (BlockWorld globals0 0xfffff000).
Definition tpm (addr len : Z) : M (block_world Z) unit := ret tt.
End BootDemo.

#[local] Existing Instance TimerDemo.vars.
#[local] Existing Instance TimerDemo.env.
#[local] Existing Instance TimerDemo.cpu.

Lemma boot_start_steady : steady ScsiDemo.clock 0x608 3580 BootDemo.globals0 BootDemo.start.
Proof.
  destruct scsi_start_steady as (H1 & H2 & H3 & _). split; [|split; [exact H2|split; [exact H3|reflexivity]]]. exact H1.
Qed.

Lemma boot_area_disc : image_segment BootDemo.disc = 0x7c0 /\ image_blocks BootDemo.disc = 1.
Proof. split; vm_compute; reflexivity. Qed.

Lemma cdrom_boot_correct_witness :
  exists fuel s', cdrom_boot true 0xe900 0x100 0x120 (CdDemo.run BootDemo.disc) ScsiDemo.call32 0x5f00 0x5f20 0x6000
      BootDemo.tpm fuel 0x2000 BootDemo.start = Some (0, s') /\
    read8 (mc_mem s') 0x7c00 = 100 /\ emulated_geometry 0xe900 0x100 (mc_mem s') = Chs 2 80 18.
Proof.
  destruct (enough_fuel (35000 * 3580 + 2)) as [fuel Hfuel]. exists fuel.
  destruct boot_area_disc as [Hseg Hblk].
  assert (Hcode : boot_code BootDemo.disc true = 0) by (vm_compute; reflexivity).
  destruct (cdrom_boot_correct BootDemo.disc BootDemo.disc_bytes (CdDemo.run BootDemo.disc) ScsiDemo.call32 ltac:(reflexivity)
    0x2000 ata_atapi_process_op (fun _ => False) BootDemo.globals0
    (CdDemo.reads_disc_run BootDemo.disc _ _ BootDemo.disc_bytes)) with
    (CONFIG_CDROM_EMU := true) (SEG_LOW := 0xe900) (CDEmu := 0x100) (emulated_drive_gf := 0x120) (cmd := 0x5f00) (sense := 0x5f20)
    (buffer := 0x6000) (tpm_add_cdrom_catalog := BootDemo.tpm) (clock := ScsiDemo.clock) (adv := ScsiDemo.adv) (port := 0x608)
    (khz := 3580) (T := 0) (fuel := fuel) (cdid := 0) (s := BootDemo.start) as (s' & Hr & Hl & He).
  - intros op s r op' s' Hrun _. unfold CdDemo.run, bind, upd_mem, ret in Hrun. destruct (command op =? CMD_READ); by injection Hrun.
  - split; reflexivity.
  - vm_compute. split; discriminate.
  - left. vm_compute. discriminate.
  - by intros x _ [].
  - intros x Hx. unfold image_area, variables, bios_data, area in *. rewrite Hseg, Hblk in Hx.
    change (low 0xe900 0x100) with 0xe9100. change (low 0xe900 0x120) with 0xe9120. lia.
  - lia.
  - intros x Hx. unfold variables, area in *. change (low 0xe900 0x100) with 0xe9100. change (low 0xe900 0x120) with 0xe9120. lia.
  - lia.
  - intros s Hs. exists s. split; [reflexivity|]. split; [done|]. apply keeps_refl.
  - reflexivity.
  - intros w. unfold ScsiDemo.clock, ScsiDemo.adv. cbn [bw_rest]. lia.
  - unfold apart. split_and!; left; vm_compute; discriminate.
  - left. vm_compute. discriminate.
  - intros op s Hc Hd Hs. exists 0, op, s. unfold CdDemo.run. rewrite Hc. split; [reflexivity|]. split; [done|]. split; [done|lia].
  - lia.
  - lia.
  - apply boot_start_steady.
  - exact Hfuel.
  - discriminate.
  - reflexivity.
  - lia.
  - change (can_emulate BootDemo.globals0 true) with true in *. rewrite Hcode in *. exists s'. split; [exact Hr|].
    destruct (Hl (or_introl eq_refl)) as (_ & _ & _ & _ & Hh). rewrite Hseg, Hblk in Hh. split.
    + exact (Hh 0 ltac:(lia)).
    + destruct (He eq_refl) as (_ & _ & Hg). exact Hg.
Defined.
