(* ===== verification/StdVga.v ===== *)
(** * The standard VGA: vgasrc/stdvgaio.c, vgasrc/stdvga.c

    The registers of a VGA behind its index and data ports, and the functions of
    the VGA BIOS on them.  Video memory is part of the memory of [Machine], which
    is what the text and packed modes show; the four planes behind the window of
    the planar modes are not told apart.  Far pointers are a segment and an
    offset; offsets do not leave their segment. *)
From S2P Require Import Prelude Machine StringOps Pci.
Local Open Scope seabios_scope.

Definition VGAREG_ACTL_ADDRESS := 0x3c0.
Definition VGAREG_ACTL_WRITE_DATA := 0x3c0.
Definition VGAREG_ACTL_READ_DATA := 0x3c1.
Definition VGAREG_WRITE_MISC_OUTPUT := 0x3c2.
Definition VGAREG_SEQU_ADDRESS := 0x3c4.
Definition VGAREG_SEQU_DATA := 0x3c5.
Definition VGAREG_PEL_MASK := 0x3c6.
Definition VGAREG_DAC_STATE := 0x3c7.
Definition VGAREG_DAC_READ_ADDRESS := 0x3c7.
Definition VGAREG_DAC_WRITE_ADDRESS := 0x3c8.
Definition VGAREG_DAC_DATA := 0x3c9.
Definition VGAREG_READ_FEATURE_CTL := 0x3ca.
Definition VGAREG_READ_MISC_OUTPUT := 0x3cc.
Definition VGAREG_GRDC_ADDRESS := 0x3ce.
Definition VGAREG_GRDC_DATA := 0x3cf.
Definition VGAREG_MDA_CRTC_ADDRESS := 0x3b4.
Definition VGAREG_VGA_CRTC_ADDRESS := 0x3d4.
Definition VGAREG_ACTL_RESET := 0x3da.
Definition SEG_GRAPH := 0xa000.
Definition SEG_CTEXT := 0xb800.

Definition SR_HARDWARE := 0x0001.
Definition SR_BDA := 0x0002.
Definition SR_DAC := 0x0004.
Definition SR_SAVE := 0x0100.
Definition SR_RESTORE := 0x0200.

Definition MM_TEXT := 0x00.
Definition MM_CGA := 0x01.
Definition MM_PLANAR := 0x03.
Definition MM_PACKED := 0x04.
Definition MM_DIRECT := 0x06.

(** struct vgamode_s *)
Record vgamode_s := VgaMode {
  memmodel : Z; width : Z; height : Z; depth : Z; cwidth : Z; cheight : Z; sstart : Z }.

(** [GET_FARVAR], [SET_FARVAR]: the flat address of a far pointer. *)
Definition far (seg off : Z) : Z := Z.shiftl seg 4 + off.

(** vgabios.c [vga_bpp]; [ALIGN (depth, 8)] on an int. *)
Definition vga_bpp (m : vgamode_s) : Z :=
  if memmodel m =? MM_TEXT then 16
  else if memmodel m =? MM_PLANAR then 1
  else if 8 <? depth m then Z.land (depth m + 7) (Z.lnot 7) else depth m.

Section StdVga.
Context {W : Type} `{Env W} `{Ports W}.

(** ** Port access: stdvgaio.c *)

Definition stdvga_pelmask_read : M W Z := inb VGAREG_PEL_MASK.
Definition stdvga_pelmask_write (value : Z) : M W unit := outb value VGAREG_PEL_MASK.
Definition stdvga_misc_read : M W Z := inb VGAREG_READ_MISC_OUTPUT.
Definition stdvga_misc_write (value : Z) : M W unit := outb value VGAREG_WRITE_MISC_OUTPUT.
Definition stdvga_misc_mask (off on : Z) : M W unit :=
  v <- stdvga_misc_read ;; stdvga_misc_write (u8 (Z.lor (Z.land v (Z.lnot off)) on)).

(** A register behind an index port and the data port after it. *)
Definition index_read (port index : Z) : M W Z := do outb index port ;; inb (port + 1).
Definition index_write (port index value : Z) : M W unit := outw (Z.lor (Z.shiftl value 8) index) port.
Definition index_mask (port index off on : Z) : M W unit :=
  do outb index port ;; v <- inb (port + 1) ;; outb (Z.lor (Z.land v (Z.lnot off)) on) (port + 1).

Definition stdvga_sequ_read (index : Z) : M W Z := index_read VGAREG_SEQU_ADDRESS index.
Definition stdvga_sequ_write (index value : Z) : M W unit := index_write VGAREG_SEQU_ADDRESS index (u8 value).
Definition stdvga_sequ_mask (index off on : Z) : M W unit := index_mask VGAREG_SEQU_ADDRESS index off on.
Definition stdvga_grdc_read (index : Z) : M W Z := index_read VGAREG_GRDC_ADDRESS index.
Definition stdvga_grdc_write (index value : Z) : M W unit := index_write VGAREG_GRDC_ADDRESS index (u8 value).
Definition stdvga_grdc_mask (index off on : Z) : M W unit := index_mask VGAREG_GRDC_ADDRESS index off on.
Definition stdvga_crtc_read (crtc_addr index : Z) : M W Z := index_read crtc_addr index.
Definition stdvga_crtc_write (crtc_addr index value : Z) : M W unit := index_write crtc_addr index (u8 value).
Definition stdvga_crtc_mask (crtc_addr index off on : Z) : M W unit := index_mask crtc_addr index off on.

Definition stdvga_attr_read (index : Z) : M W Z :=
  do inb VGAREG_ACTL_RESET ;;
  orig <- inb VGAREG_ACTL_ADDRESS ;;
  do outb index VGAREG_ACTL_ADDRESS ;;
  v <- inb VGAREG_ACTL_READ_DATA ;;
  do inb VGAREG_ACTL_RESET ;;
  do outb orig VGAREG_ACTL_ADDRESS ;; ret v.
Definition stdvga_attr_write (index value : Z) : M W unit :=
  do inb VGAREG_ACTL_RESET ;;
  orig <- inb VGAREG_ACTL_ADDRESS ;;
  do outb index VGAREG_ACTL_ADDRESS ;;
  do outb value VGAREG_ACTL_WRITE_DATA ;;
  outb orig VGAREG_ACTL_ADDRESS.
Definition stdvga_attr_mask (index off on : Z) : M W unit :=
  do inb VGAREG_ACTL_RESET ;;
  orig <- inb VGAREG_ACTL_ADDRESS ;;
  do outb index VGAREG_ACTL_ADDRESS ;;
  v <- inb VGAREG_ACTL_READ_DATA ;;
  do outb (Z.lor (Z.land v (Z.lnot off)) on) VGAREG_ACTL_WRITE_DATA ;;
  outb orig VGAREG_ACTL_ADDRESS.
Definition stdvga_attrindex_read : M W Z := do inb VGAREG_ACTL_RESET ;; inb VGAREG_ACTL_ADDRESS.
Definition stdvga_attrindex_write (value : Z) : M W unit := do inb VGAREG_ACTL_RESET ;; outb value VGAREG_ACTL_ADDRESS.

(** [n] times one byte between the DAC and memory. *)
Fixpoint dac_in (n : nat) (a : Z) : M W unit :=
  match n with O => ret tt | S n' => v <- inb VGAREG_DAC_DATA ;; do put8 a v ;; dac_in n' (a + 1) end.
Fixpoint dac_out (n : nat) (a : Z) : M W unit :=
  match n with O => ret tt | S n' => v <- get8 a ;; do outb v VGAREG_DAC_DATA ;; dac_out n' (a + 1) end.
Definition stdvga_dac_read (seg data_far start count : Z) : M W unit :=
  do outb start VGAREG_DAC_READ_ADDRESS ;; dac_in (3 * Z.to_nat count) (far seg data_far).
Definition stdvga_dac_write (seg data_far start count : Z) : M W unit :=
  do outb start VGAREG_DAC_WRITE_ADDRESS ;; dac_out (3 * Z.to_nat count) (far seg data_far).

(** ** Attribute control: stdvga.c *)

(** [for (i = lo; i < lo + n; i++)] *)
Fixpoint for_loop (n : nat) (i : Z) (body : Z -> M W unit) : M W unit :=
  match n with O => ret tt | S n' => do body i ;; for_loop n' (i + 1) body end.

Definition stdvga_set_border_color (color : Z) : M W unit :=
  let v1 := Z.land color 0x0f in
  let v1 := if truthy (Z.land v1 0x08) then u8 (v1 + 0x08) else v1 in
  do stdvga_attr_write 0x00 v1 ;;
  for_loop 3 1 (fun i => stdvga_attr_mask i 0x10 (Z.land color 0x10)).
Definition stdvga_set_overscan_border_color (color : Z) : M W unit := stdvga_attr_write 0x11 color.
Definition stdvga_get_overscan_border_color : M W Z := stdvga_attr_read 0x11.
Definition stdvga_set_palette (palid : Z) : M W unit :=
  for_loop 3 1 (fun i => stdvga_attr_mask i 0x01 (Z.land palid 0x01)).
Definition stdvga_set_all_palette_reg (seg data_far : Z) : M W unit :=
  do for_loop 16 0 (fun i => v <- get8 (far seg (data_far + i)) ;; stdvga_attr_write i v) ;;
  v <- get8 (far seg (data_far + 16)) ;; stdvga_attr_write 0x11 v.
Definition stdvga_get_all_palette_reg (seg data_far : Z) : M W unit :=
  do for_loop 16 0 (fun i => v <- stdvga_attr_read i ;; put8 (far seg (data_far + i)) v) ;;
  v <- stdvga_attr_read 0x11 ;; put8 (far seg (data_far + 16)) v.
Definition stdvga_toggle_intensity (flag : Z) : M W unit :=
  stdvga_attr_mask 0x10 0x08 (Z.shiftl (Z.land flag 0x01) 3).
Definition stdvga_select_video_dac_color_page (flag data : Z) : M W unit :=
  if negb (truthy (Z.land flag 0x01)) then stdvga_attr_mask 0x10 0x80 (u8 (Z.shiftl data 7))
  else
    val <- stdvga_attr_read 0x10 ;;
    let data := if negb (truthy (Z.land val 0x80)) then u8 (Z.shiftl data 2) else data in
    stdvga_attr_write 0x14 (Z.land data 0x0f).
Definition stdvga_read_video_dac_state : M W (Z * Z) :=
  v1 <- stdvga_attr_read 0x10 ;;
  v2 <- stdvga_attr_read 0x14 ;;
  let val1 := Z.shiftr v1 7 in
  let val2 := Z.land v2 0x0f in
  ret (val1, if negb (truthy (Z.land val1 0x01)) then Z.shiftr val2 2 else val2).

(** ** DAC control *)

(** The gray of a color. *)
Definition gray (r g b : Z) : Z :=
  let intensity := Z.shiftr (77 * r + 151 * g + 28 * b + 0x80) 8 in
  if 0x3f <? intensity then 0x3f else intensity.

(** [rgb] is on the stack, at [SS:rgb]. *)
Definition stdvga_perform_gray_scale_summing (SS rgb start count : Z) : M W unit :=
  do stdvga_attrindex_write 0x00 ;;
  do for_loop (Z.to_nat count) start (fun i =>
       do stdvga_dac_read SS rgb (u8 i) 1 ;;
       r <- get8 (far SS rgb) ;; g <- get8 (far SS (rgb + 1)) ;; b <- get8 (far SS (rgb + 2)) ;;
       let v := gray r g b in
       do put8 (far SS (rgb + 2)) v ;; do put8 (far SS (rgb + 1)) v ;; do put8 (far SS rgb) v ;;
       stdvga_dac_write SS rgb (u8 i) 1) ;;
  stdvga_attrindex_write 0x20.

(** ** Memory control and fonts *)

Definition stdvga_set_text_block_specifier (spec : Z) : M W unit := stdvga_sequ_write 0x03 spec.

Definition stdvga_planar4_plane (plane : Z) : M W unit :=
  if plane <? 0 then do stdvga_sequ_write 0x02 0x0f ;; stdvga_grdc_write 0x04 0
  else do stdvga_sequ_write 0x02 (Z.shiftl 1 plane) ;; stdvga_grdc_write 0x04 plane.

Definition get_font_access : M W unit :=
  do stdvga_sequ_write 0x00 0x01 ;; do stdvga_sequ_write 0x02 0x04 ;; do stdvga_sequ_write 0x04 0x07 ;;
  do stdvga_sequ_write 0x00 0x03 ;; do stdvga_grdc_write 0x04 0x02 ;; do stdvga_grdc_write 0x05 0x00 ;;
  stdvga_grdc_write 0x06 0x04.
Definition release_font_access : M W unit :=
  do stdvga_sequ_write 0x00 0x01 ;; do stdvga_sequ_write 0x02 0x03 ;; do stdvga_sequ_write 0x04 0x03 ;;
  do stdvga_sequ_write 0x00 0x03 ;;
  misc <- stdvga_misc_read ;;
  do stdvga_grdc_write 0x06 (if truthy (Z.land misc 0x01) then 0x0e else 0x0a) ;;
  do stdvga_grdc_write 0x04 0x00 ;; stdvga_grdc_write 0x05 0x10.

Definition stdvga_load_font (seg src_far count start destflags fontsize : Z) : M W unit :=
  do get_font_access ;;
  let blockaddr := u16 (Z.shiftl (Z.land destflags 0x03) 14 + Z.shiftl (Z.land destflags 0x04) 11) in
  let dest_far := blockaddr + start * 32 in
  do for_loop (Z.to_nat count) 0 (fun i =>
       upd_mem (memcpy_far SEG_GRAPH (dest_far + i * 32) seg (src_far + i * fontsize) fontsize)) ;;
  release_font_access.

(** ** CRTC registers *)

Definition stdvga_get_crtc : M W Z :=
  v <- stdvga_misc_read ;;
  ret (if truthy (Z.land v 1) then VGAREG_VGA_CRTC_ADDRESS else VGAREG_MDA_CRTC_ADDRESS).

Definition stdvga_vram_ratio (m : vgamode_s) : Z :=
  if memmodel m =? MM_TEXT then 2
  else if memmodel m =? MM_CGA then 4 / depth m
  else if memmodel m =? MM_PLANAR then 4
  else 1.

Definition stdvga_set_cursor_shape (cursor_type : Z) : M W unit :=
  crtc_addr <- stdvga_get_crtc ;;
  do stdvga_crtc_write crtc_addr 0x0a (Z.shiftr cursor_type 8) ;; stdvga_crtc_write crtc_addr 0x0b cursor_type.

Definition stdvga_set_cursor_pos (address : Z) : M W unit :=
  crtc_addr <- stdvga_get_crtc ;;
  let address := Z.quot address 2 in
  do stdvga_crtc_write crtc_addr 0x0e (Z.shiftr address 8) ;; stdvga_crtc_write crtc_addr 0x0f address.

Definition stdvga_set_scan_lines (lines : Z) : M W unit :=
  crtc_addr <- stdvga_get_crtc ;; stdvga_crtc_mask crtc_addr 0x09 0x1f (u8 (lines - 1)).

Definition stdvga_get_vde : M W Z :=
  crtc_addr <- stdvga_get_crtc ;;
  vde <- stdvga_crtc_read crtc_addr 0x12 ;;
  ovl <- stdvga_crtc_read crtc_addr 0x07 ;;
  ret (u16 (vde + (Z.shiftl (Z.land ovl 0x02) 7 + Z.shiftl (Z.land ovl 0x40) 3 + 1))).

Definition stdvga_get_window (m : vgamode_s) (window : Z) : M W Z := ret (-1).
Definition stdvga_set_window (m : vgamode_s) (window val : Z) : M W Z := ret (-1).
Definition stdvga_get_linelength (m : vgamode_s) : M W Z :=
  crtc_addr <- stdvga_get_crtc ;;
  val <- stdvga_crtc_read crtc_addr 0x13 ;; ret (Z.quot (val * 8) (stdvga_vram_ratio m)).
Definition stdvga_set_linelength (m : vgamode_s) (val : Z) : M W Z :=
  crtc_addr <- stdvga_get_crtc ;;
  do stdvga_crtc_write crtc_addr 0x13 (Z.quot (val * stdvga_vram_ratio m + 7) 8) ;; ret 0.
Definition stdvga_get_displaystart (m : vgamode_s) : M W Z :=
  crtc_addr <- stdvga_get_crtc ;;
  hi <- stdvga_crtc_read crtc_addr 0x0c ;;
  lo <- stdvga_crtc_read crtc_addr 0x0d ;;
  ret (Z.quot (Z.lor (Z.shiftl hi 8) lo * 4) (stdvga_vram_ratio m)).
Definition stdvga_set_displaystart (m : vgamode_s) (val : Z) : M W Z :=
  crtc_addr <- stdvga_get_crtc ;;
  let val := Z.quot (val * stdvga_vram_ratio m) 4 in
  do stdvga_crtc_write crtc_addr 0x0c (Z.shiftr val 8) ;;
  do stdvga_crtc_write crtc_addr 0x0d val ;; ret 0.
Definition stdvga_get_dacformat (m : vgamode_s) : M W Z := ret (-1).
Definition stdvga_set_dacformat (m : vgamode_s) (val : Z) : M W Z := ret (-1).
Definition stdvga_get_linesize (m : vgamode_s) : Z := Z.quot (width m * vga_bpp m + 7) 8.

(** ** Save and restore *)

End StdVga.

(** Offsets in struct saveVideoHardware and struct saveDACcolors. *)
Module SaveHw.
Definition sequ_index := 0.
Definition crtc_index := 1.
Definition grdc_index := 2.
Definition actl_index := 3.
Definition feature := 4.
Definition sequ_regs := 5.
Definition sequ0 := 9.
Definition crtc_regs := 10.
Definition actl_regs := 35.
Definition grdc_regs := 55.
Definition crtc_addr := 64.
Definition plane_latch := 66.
Definition size := 70.
End SaveHw.
Module SaveDac.
Definition rwmode := 0.
Definition peladdr := 1.
Definition pelmask := 2.
Definition dac := 3.
Definition color_select := 771.
Definition size := 772.
End SaveDac.

Section SaveRestore.
Context {W : Type} `{Env W} `{Ports W}.

(** [SET_FARVAR (seg, info->reg[i], read (i))] for each [i] *)
Definition save_regs (n : nat) (a : Z) (read : Z -> M W Z) : M W unit :=
  for_loop n 0 (fun i => v <- read i ;; put8 (a + i) v).
Definition load_regs (n : nat) (a : Z) (write : Z -> Z -> M W unit) : M W unit :=
  for_loop n 0 (fun i => v <- get8 (a + i) ;; write i v).

Definition stdvga_save_hw_state (seg info : Z) : M W unit :=
  let a := far seg info in
  crtc_addr <- stdvga_get_crtc ;;
  v <- inb VGAREG_SEQU_ADDRESS ;; do put8 (a + SaveHw.sequ_index) v ;;
  v <- inb crtc_addr ;; do put8 (a + SaveHw.crtc_index) v ;;
  v <- inb VGAREG_GRDC_ADDRESS ;; do put8 (a + SaveHw.grdc_index) v ;;
  v <- stdvga_attrindex_read ;; do put8 (a + SaveHw.actl_index) v ;;
  v <- inb VGAREG_READ_FEATURE_CTL ;; do put8 (a + SaveHw.feature) v ;;
  do save_regs 4 (a + SaveHw.sequ_regs) (fun i => stdvga_sequ_read (i + 1)) ;;
  v <- stdvga_sequ_read 0 ;; do put8 (a + SaveHw.sequ0) v ;;
  do save_regs 25 (a + SaveHw.crtc_regs) (stdvga_crtc_read crtc_addr) ;;
  do save_regs 20 (a + SaveHw.actl_regs) stdvga_attr_read ;;
  do save_regs 9 (a + SaveHw.grdc_regs) stdvga_grdc_read ;;
  do put16 (a + SaveHw.crtc_addr) crtc_addr ;;
  save_regs 4 (a + SaveHw.plane_latch) (fun _ => ret 0).

Definition stdvga_restore_hw_state (seg info : Z) : M W unit :=
  let a := far seg info in
  do load_regs 4 (a + SaveHw.sequ_regs) (fun i => stdvga_sequ_write (i + 1)) ;;
  v <- get8 (a + SaveHw.sequ0) ;; do stdvga_sequ_write 0x00 v ;;
  crtc_addr <- get16 (a + SaveHw.crtc_addr) ;;
  do stdvga_crtc_write crtc_addr 0x11 0x00 ;;
  do for_loop 25 0 (fun i =>
       if negb (i =? 0x11) then v <- get8 (a + SaveHw.crtc_regs + i) ;; stdvga_crtc_write crtc_addr i v else ret tt) ;;
  do stdvga_misc_mask 0x01 (if crtc_addr =? VGAREG_VGA_CRTC_ADDRESS then 0x01 else 0x00) ;;
  v <- get8 (a + SaveHw.crtc_regs + 0x11) ;; do stdvga_crtc_write crtc_addr 0x11 v ;;
  do load_regs 20 (a + SaveHw.actl_regs) stdvga_attr_write ;;
  v <- get8 (a + SaveHw.actl_index) ;; do stdvga_attrindex_write v ;;
  do load_regs 9 (a + SaveHw.grdc_regs) stdvga_grdc_write ;;
  v <- get8 (a + SaveHw.sequ_index) ;; do outb v VGAREG_SEQU_ADDRESS ;;
  v <- get8 (a + SaveHw.crtc_index) ;; do outb v crtc_addr ;;
  v <- get8 (a + SaveHw.grdc_index) ;; do outb v VGAREG_GRDC_ADDRESS ;;
  v <- get8 (a + SaveHw.feature) ;; outb v (crtc_addr - 0x4 + 0xa).

Definition stdvga_save_dac_state (seg info : Z) : M W unit :=
  let a := far seg info in
  v <- inb VGAREG_DAC_STATE ;; do put8 (a + SaveDac.rwmode) v ;;
  v <- inb VGAREG_DAC_WRITE_ADDRESS ;; do put8 (a + SaveDac.peladdr) v ;;
  v <- stdvga_pelmask_read ;; do put8 (a + SaveDac.pelmask) v ;;
  do stdvga_dac_read seg (info + SaveDac.dac) 0 256 ;;
  put8 (a + SaveDac.color_select) 0.

Definition stdvga_restore_dac_state (seg info : Z) : M W unit :=
  let a := far seg info in
  v <- get8 (a + SaveDac.pelmask) ;; do stdvga_pelmask_write v ;;
  do stdvga_dac_write seg (info + SaveDac.dac) 0 256 ;;
  v <- get8 (a + SaveDac.peladdr) ;; outb v VGAREG_DAC_WRITE_ADDRESS.

(** [bda_save_restore] is vgabios.c's: the size it used. *)
Definition stdvga_save_restore (bda_save_restore : Z -> Z -> Z -> M W Z) (cmd seg data : Z) : M W Z :=
  pos <- (if truthy (Z.land cmd SR_HARDWARE) then
            do (if truthy (Z.land cmd SR_SAVE) then stdvga_save_hw_state seg data else ret tt) ;;
            do (if truthy (Z.land cmd SR_RESTORE) then stdvga_restore_hw_state seg data else ret tt) ;;
            ret (data + SaveHw.size)
          else ret data) ;;
  used <- bda_save_restore cmd seg pos ;;
  let pos := pos + used in
  pos <- (if truthy (Z.land cmd SR_DAC) then
            do (if truthy (Z.land cmd SR_SAVE) then stdvga_save_dac_state seg pos else ret tt) ;;
            do (if truthy (Z.land cmd SR_RESTORE) then stdvga_restore_dac_state seg pos else ret tt) ;;
            ret (pos + SaveDac.size)
          else ret pos) ;;
  ret (pos - data).

Definition stdvga_enable_video_addressing (disable : Z) : M W unit :=
  stdvga_misc_mask 0x02 (if truthy (Z.land disable 1) then 0x00 else 0x02).

Definition stdvga_setup : M W Z := do stdvga_misc_write 0xc3 ;; do stdvga_sequ_write 0x04 0x02 ;; ret 0.
End SaveRestore.
