(* ===== verification/VgaFb.v ===== *)
(** * The frame buffer: vgasrc/vgafb.c

    Characters and pixels in the memory of a text or a graphics mode.  The text
    page is in the memory at the mode's segment; [gfx_cga] and [gfx_packed] use
    the windows at B800h and A000h.  A mode is known by its offset in the VGA
    ROM, and what depends on the card (vgahw.h) is a parameter.  Local arrays of
    [gfx_direct] are on the stack. *)
From S2P Require Import Prelude Machine StringOps Bytes Pci StdVga.
Local Open Scope seabios_scope.

(** The fields of the BIOS data area a VGA BIOS uses, and its own
    (struct vga_bda_s). *)
Module VBDA.
Definition video_mode := bda 0x49.
Definition video_cols := bda 0x4a.
Definition video_pagesize := bda 0x4c.
Definition video_pagestart := bda 0x4e.
Definition cursor_pos := bda 0x50.
Definition cursor_type := bda 0x60.
Definition video_page := bda 0x62.
Definition crtc_address := bda 0x63.
Definition video_rows := bda 0x84.
Definition char_height := bda 0x85.
Definition video_ctl := bda 0x87.
Definition video_switches := bda 0x88.
Definition modeset_ctl := bda 0x89.
Definition dcc_index := bda 0x8a.
Definition flags := bda 0xb9.
Definition vbe_mode := bda 0xba.
Definition vgamode_offset := bda 0xbc.
End VBDA.
Definition BF_EMULATE_TEXT := 0x10.
Definition BF_SWCURSOR := 0x20.
Definition BF_EXTRA_STACK := 0x40.

Record cursorpos := CursorPos { cp_x : Z; cp_y : Z; cp_page : Z }.
Record carattr := CarAttr { ca_car : Z; ca_attr : Z; ca_use_attr : bool }.
Definition set_x (x : Z) (cp : cursorpos) : cursorpos := CursorPos (u8 x) (cp_y cp) (cp_page cp).
Definition set_y (y : Z) (cp : cursorpos) : cursorpos := CursorPos (cp_x cp) (u8 y) (cp_page cp).

Definition GO_READ8 := 1.
Definition GO_WRITE8 := 2.
Definition GO_MEMSET := 3.
Definition GO_MEMMOVE := 4.
Record gfx_op := GfxOp {
  vmode_g : vgamode_s; linelength : Z; displaystart : Z;
  go_op : Z; go_x : Z; go_y : Z; pixels : list Z; xlen : Z; ylen : Z; srcy : Z }.
Definition set_op (code : Z) (op : gfx_op) : gfx_op :=
  GfxOp (vmode_g op) (linelength op) (displaystart op) code (go_x op) (go_y op) (pixels op) (xlen op) (ylen op) (srcy op).
Definition set_pixels (l : list Z) (op : gfx_op) : gfx_op :=
  GfxOp (vmode_g op) (linelength op) (displaystart op) (go_op op) (go_x op) (go_y op) l (xlen op) (ylen op) (srcy op).
Definition set_xy (x y : Z) (op : gfx_op) : gfx_op :=
  GfxOp (vmode_g op) (linelength op) (displaystart op) (go_op op) (u16 x) (u16 y) (pixels op) (xlen op) (ylen op) (srcy op).
Definition set_area (xlen ylen srcy : Z) (op : gfx_op) : gfx_op :=
  GfxOp (vmode_g op) (linelength op) (displaystart op) (go_op op) (go_x op) (go_y op) (pixels op) (u16 xlen) (u16 ylen) (u16 srcy).

(** ** Strides *)

(** [for (; lines; lines--, dst += stride, src += stride)] *)
Fixpoint copy_lines (n : nat) (seg dst src copylen stride : Z) (m : memory) : memory :=
  match n with
  | O => m
  | S n' => copy_lines n' seg (dst + stride) (src + stride) copylen stride (memcpy_far seg dst seg src copylen m)
  end.
Definition memmove_stride (seg dst src copylen stride lines : Z) (m : memory) : memory :=
  if u32 src <? u32 dst
  then copy_lines (Z.to_nat lines) seg (dst + stride * (lines - 1)) (src + stride * (lines - 1)) copylen (- stride) m
  else copy_lines (Z.to_nat lines) seg dst src copylen stride m.
Fixpoint memset_stride_loop (n : nat) (seg dst val setlen stride : Z) (m : memory) : memory :=
  match n with
  | O => m
  | S n' => memset_stride_loop n' seg (dst + stride) val setlen stride (memset_far seg dst val setlen m)
  end.
Definition memset_stride (seg dst val setlen stride lines : Z) (m : memory) : memory :=
  memset_stride_loop (Z.to_nat lines) seg dst val setlen stride m.
Fixpoint memset16_stride_loop (n : nat) (seg dst val setlen stride : Z) (m : memory) : memory :=
  match n with
  | O => m
  | S n' => memset16_stride_loop n' seg (dst + stride) val setlen stride (memset16_far seg dst val setlen m)
  end.
Definition memset16_stride (seg dst val setlen stride lines : Z) (m : memory) : memory :=
  memset16_stride_loop (Z.to_nat lines) seg dst val setlen stride m.

(** ** Pixels of a byte *)

Definition seq8 : list Z := [0; 1; 2; 3; 4; 5; 6; 7].
Definition pixel (l : list Z) (i : Z) : Z := nth (Z.to_nat i) l 0.
(** [fold or] of the parts of the eight pixels *)
Definition pack (part : Z -> Z) : Z := foldl (fun data i => Z.lor data (part i)) 0 seq8.

(** CGA modes, one and two bits. *)
Definition cga_unpack (bpp data : Z) : list Z :=
  if bpp =? 1 then map (fun i => Z.land (Z.shiftr data (7 - i)) 1) seq8
  else let data := swab16 data in map (fun i => Z.land (Z.shiftr data ((7 - i) * 2)) 3) seq8.
Definition cga_pack (bpp : Z) (l : list Z) : Z :=
  if bpp =? 1 then pack (fun i => Z.shiftl (Z.land (pixel l i) 1) (7 - i))
  else swab16 (pack (fun i => Z.shiftl (Z.land (pixel l i) 3) ((7 - i) * 2))).
Definition cga_fill (bpp data : Z) : Z :=
  let data := if bpp =? 1 then Z.lor (Z.land data 1) (Z.shiftl (Z.land data 1) 1) else data in
  let data := Z.land data 3 in
  Z.lor data (Z.lor (Z.lor (Z.shiftl data 2) (Z.shiftl data 4)) (Z.shiftl data 6)).

(** ** Colors of direct modes *)

Definition DIV_ROUND_CLOSEST (x d : Z) : Z := Z.quot (x + Z.quot d 2) d.
Definition color_bits (depth : Z) : Z * Z * Z :=
  if depth =? 15 then (5, 5, 5) else if depth =? 16 then (5, 6, 5) else (8, 8, 8).

Definition get_color (depth attr : Z) : Z :=
  let '(rbits, gbits, bbits) := color_bits depth in
  let h := if truthy (Z.land attr 8) then 1 else 0 in
  let r := if truthy (Z.land attr 4) then 2 else 0 in
  let g := if truthy (Z.land attr 2) then 2 else 0 in
  let b := if truthy (Z.land attr 1) then 2 else 0 in
  let g := if Z.land attr 0xf =? 6 then 1 else g in
  let rv := DIV_ROUND_CLOSEST ((Z.shiftl 1 rbits - 1) * (r + h)) 3 in
  let gv := DIV_ROUND_CLOSEST ((Z.shiftl 1 gbits - 1) * (g + h)) 3 in
  let bv := DIV_ROUND_CLOSEST ((Z.shiftl 1 bbits - 1) * (b + h)) 3 in
  u32 (Z.shiftl rv (gbits + bbits) + Z.shiftl gv bbits + bv).

Definition reverse_color (depth color : Z) : Z :=
  let '(rbits, gbits, bbits) := color_bits depth in
  let rv := Z.land (Z.shiftr color (gbits + bbits)) (Z.shiftl 1 rbits - 1) in
  let gv := Z.land (Z.shiftr color bbits) (Z.shiftl 1 gbits - 1) in
  let bv := Z.land color (Z.shiftl 1 bbits - 1) in
  let r := DIV_ROUND_CLOSEST (rv * 3) (Z.shiftl 1 rbits - 1) in
  let g := DIV_ROUND_CLOSEST (gv * 3) (Z.shiftl 1 gbits - 1) in
  let b := DIV_ROUND_CLOSEST (bv * 3) (Z.shiftl 1 bbits - 1) in
  let h := if truthy r && truthy g && truthy b && (negb (r =? 2) || negb (g =? 2) || negb (b =? 2)) then 1 else 0 in
  Z.lor (Z.lor (if truthy h then 8 else 0) (if truthy (r - h) then 4 else 0))
        (Z.lor (if truthy (g - h) then 2 else 0) (if truthy (b - h) then 1 else 0)).

(** Descriptors for INT 15h, AH=87h (x86.h). *)
Definition GDT_DATA := Z.shiftl 0x93 40.
Definition GDT_BASE (v : Z) : Z := Z.lor (Z.shiftl (Z.land v 0xff000000) 32) (Z.shiftl (Z.land v 0x00ffffff) 16).
Definition GDT_LIMIT (v : Z) : Z := Z.lor (Z.shiftl (Z.land v 0x000f0000) 32) (Z.land v 0x0000ffff).

Section VgaFb.
Context {W : Type} `{Env W} `{Ports W}.
Context (CONFIG_VGA_STDVGA_PORTS CONFIG_VGA_EMULATE_TEXT : bool).
(** Modes by their offset in the ROM; what vgahw.h chooses by card; the linear
    frame buffer; the stack segment and the arrays on it. *)
Context (mode_at : Z -> vgamode_s).
Context (vgahw_get_linelength vgahw_get_displaystart : vgamode_s -> M W Z).
Context (VBE_framebuffer SS gdt data_fl : Z).

Definition get_current_mode : M W (option vgamode_s) :=
  off <- get16 VBDA.vgamode_offset ;; ret (if off =? 0 then None else Some (mode_at off)).

Definition vga_emulate_text : M W bool :=
  flags <- get8 VBDA.flags ;; ret (CONFIG_VGA_EMULATE_TEXT && truthy (Z.land flags BF_EMULATE_TEXT)).

(** ** Basic graphics operations *)

Fixpoint for_planes (l : list Z) (body : Z -> list Z -> M W (list Z)) (acc : list Z) : M W (list Z) :=
  match l with [] => ret acc | p :: l' => acc <- body p acc ;; for_planes l' body acc end.
Definition planes : list Z := [0; 1; 2; 3].

Definition gfx_planar (op : gfx_op) : M W gfx_op :=
  if negb CONFIG_VGA_STDVGA_PORTS then ret op
  else
    let dest_far := u32 (go_y op * linelength op + go_x op / 8) in
    px <-
      (if go_op op =? GO_WRITE8 then
         for_planes planes (fun plane px =>
           do stdvga_planar4_plane plane ;;
           let data := pack (fun i => Z.shiftl (Z.land (Z.shiftr (pixel (pixels op) i) plane) 1) (7 - i)) in
           do put8 (far SEG_GRAPH dest_far) data ;; ret px) (pixels op)
       else if go_op op =? GO_MEMSET then
         for_planes planes (fun plane px =>
           do stdvga_planar4_plane plane ;;
           let data := if truthy (Z.land (pixel (pixels op) 0) (Z.shiftl 1 plane)) then 0xff else 0x00 in
           do upd_mem (memset_stride SEG_GRAPH dest_far data (xlen op / 8) (linelength op) (ylen op)) ;; ret px) (pixels op)
       else if go_op op =? GO_MEMMOVE then
         let src_far := u32 (srcy op * linelength op + go_x op / 8) in
         for_planes planes (fun plane px =>
           do stdvga_planar4_plane plane ;;
           do upd_mem (memmove_stride SEG_GRAPH dest_far src_far (xlen op / 8) (linelength op) (ylen op)) ;; ret px) (pixels op)
       else
         for_planes planes (fun plane px =>
           do stdvga_planar4_plane plane ;;
           data <- get8 (far SEG_GRAPH dest_far) ;;
           ret (map (fun i => Z.lor (pixel px i) (Z.shiftl (Z.land (Z.shiftr data (7 - i)) 1) plane)) seq8)) (repeat 0 8)) ;;
    do stdvga_planar4_plane (-1) ;; ret (set_pixels px op).

Definition gfx_cga (op : gfx_op) : M W gfx_op :=
  let bpp := depth (vmode_g op) in
  let dest_far := u32 (go_y op / 2 * linelength op + go_x op / 8 * bpp) in
  let cell := if truthy (Z.land (go_y op) 1) then dest_far + 0x2000 else dest_far in
  if go_op op =? GO_WRITE8 then
    do (if bpp =? 1 then put8 (far SEG_CTEXT cell) (cga_pack bpp (pixels op))
        else put16 (far SEG_CTEXT cell) (cga_pack bpp (pixels op))) ;; ret op
  else if go_op op =? GO_MEMSET then
    let data := cga_fill bpp (pixel (pixels op) 0) in
    do upd_mem (memset_stride SEG_CTEXT dest_far data (xlen op / 8 * bpp) (linelength op) (ylen op / 2)) ;;
    do upd_mem (memset_stride SEG_CTEXT (dest_far + 0x2000) data (xlen op / 8 * bpp) (linelength op) (ylen op / 2)) ;; ret op
  else if go_op op =? GO_MEMMOVE then
    let src_far := u32 (srcy op / 2 * linelength op + go_x op / 8 * bpp) in
    do upd_mem (memmove_stride SEG_CTEXT dest_far src_far (xlen op / 8 * bpp) (linelength op) (ylen op / 2)) ;;
    do upd_mem (memmove_stride SEG_CTEXT (dest_far + 0x2000) (src_far + 0x2000) (xlen op / 8 * bpp) (linelength op) (ylen op / 2)) ;;
    ret op
  else
    data <- (if bpp =? 1 then get8 (far SEG_CTEXT cell) else get16 (far SEG_CTEXT cell)) ;;
    ret (set_pixels (cga_unpack bpp data) op).

(** [memcpy_far] between the pixels and the window, whose offsets wrap. *)
Definition read8_pixels (dest_far : Z) (m : memory) : list Z :=
  map (fun i => read8 m (far SEG_GRAPH (u16 (dest_far + i)))) seq8.
Definition write8_pixels (dest_far : Z) (l : list Z) (m : memory) : memory :=
  foldl (fun m i => write8 (far SEG_GRAPH (u16 (dest_far + i))) (pixel l i) m) m seq8.

Definition gfx_packed (op : gfx_op) : M W gfx_op :=
  let dest_far := u32 (go_y op * linelength op + go_x op) in
  if go_op op =? GO_WRITE8 then do upd_mem (write8_pixels dest_far (pixels op)) ;; ret op
  else if go_op op =? GO_MEMSET then
    do upd_mem (memset_stride SEG_GRAPH dest_far (pixel (pixels op) 0) (xlen op) (linelength op) (ylen op)) ;; ret op
  else if go_op op =? GO_MEMMOVE then
    let src_far := u32 (srcy op * linelength op + go_x op) in
    do upd_mem (memmove_stride SEG_GRAPH dest_far src_far (xlen op) (linelength op) (ylen op)) ;; ret op
  else fun s => Some (set_pixels (read8_pixels dest_far (mc_mem s)) op, s).

(** ** Frame buffers in high memory *)

Definition memcpy_high (dest src len : Z) : M W unit :=
  do put64 (far SS (gdt + 16)) (Z.lor (Z.lor GDT_DATA (GDT_LIMIT 0xfffff)) (GDT_BASE (u32 src))) ;;
  do put64 (far SS (gdt + 24)) (Z.lor (Z.lor GDT_DATA (GDT_LIMIT 0xfffff)) (GDT_BASE (u32 dest))) ;;
  do call16_int 0x15 (set_es SS (set_esi gdt (set_ecx (u32 len / 2) (set_eax 0x8700 (set_flags F_CF bregs_zero))))) ;; ret tt.

Fixpoint copy_lines_high (n : nat) (dst src copylen stride : Z) : M W unit :=
  match n with
  | O => ret tt
  | S n' => do memcpy_high dst src copylen ;; copy_lines_high n' (dst + stride) (src + stride) copylen stride
  end.
Definition memmove_stride_high (dst src copylen stride lines : Z) : M W unit :=
  if u32 src <? u32 dst
  then copy_lines_high (Z.to_nat lines) (dst + stride * (lines - 1)) (src + stride * (lines - 1)) copylen (- stride)
  else copy_lines_high (Z.to_nat lines) dst src copylen stride.

(** The local [data]: a color for each of the eight pixels. *)
Definition fill_data (bypp : Z) (color : Z -> Z) : M W unit :=
  for_loop 8 0 (fun i => put32 (far SS (data_fl + i * bypp)) (color i)).

Definition gfx_direct (op : gfx_op) : M W gfx_op :=
  fb <- get32 VBE_framebuffer ;;
  if fb =? 0 then ret op
  else
    let dep := depth (vmode_g op) in
    let bypp := Z.quot (dep + 7) 8 in
    let dest_far := u32 (fb + displaystart op + go_y op * linelength op + go_x op * bypp) in
    let data := MAKE_FLATPTR SS data_fl in
    if go_op op =? GO_WRITE8 then
      do fill_data bypp (fun i => get_color dep (pixel (pixels op) i)) ;;
      do memcpy_high dest_far data (bypp * 8) ;; ret op
    else if go_op op =? GO_MEMSET then
      do fill_data bypp (fun _ => get_color dep (pixel (pixels op) 0)) ;;
      do memcpy_high dest_far data (bypp * 8) ;;
      do memcpy_high (dest_far + bypp * 8) dest_far (xlen op * bypp - bypp * 8) ;;
      do for_loop (Z.to_nat (ylen op - 1)) 1 (fun i =>
           memcpy_high (dest_far + linelength op * i) dest_far (xlen op * bypp)) ;; ret op
    else if go_op op =? GO_MEMMOVE then
      let src_far := u32 (fb + displaystart op + srcy op * linelength op + go_x op * bypp) in
      do memmove_stride_high dest_far src_far (xlen op * bypp) (linelength op) (ylen op) ;; ret op
    else
      do memcpy_high data dest_far (bypp * 8) ;;
      fun s => Some (set_pixels (map (fun i =>
                       reverse_color dep (read32 (mc_mem s) (far SS (data_fl + i * bypp)))) seq8) op, s).

(** ** Graphics interface *)

Definition init_gfx_op (m : vgamode_s) : M W gfx_op :=
  l <- vgahw_get_linelength m ;; d <- vgahw_get_displaystart m ;;
  ret (GfxOp m (u32 l) (u32 d) 0 0 0 (repeat 0 8) 0 0 0).

Definition handle_gfx_op (op : gfx_op) : M W gfx_op :=
  let mm := memmodel (vmode_g op) in
  if mm =? MM_PLANAR then gfx_planar op
  else if mm =? MM_CGA then gfx_cga op
  else if mm =? MM_PACKED then gfx_packed op
  else if mm =? MM_DIRECT then gfx_direct op
  else ret op.

Definition gfx_move_chars (m : vgamode_s) (dest movesize : cursorpos) (lines : Z) : M W unit :=
  op <- init_gfx_op m ;;
  cheight <- get16 VBDA.char_height ;;
  let op := set_xy (cp_x dest * 8) (cp_y dest * cheight) op in
  let op := set_area (cp_x movesize * 8) (cp_y movesize * cheight) (go_y op + lines * cheight) op in
  do handle_gfx_op (set_op GO_MEMMOVE op) ;; ret tt.

Definition gfx_clear_chars (m : vgamode_s) (win winsize : cursorpos) (ca : carattr) : M W unit :=
  op <- init_gfx_op m ;;
  cheight <- get16 VBDA.char_height ;;
  let op := set_xy (cp_x win * 8) (cp_y win * cheight) op in
  let op := set_area (cp_x winsize * 8) (cp_y winsize * cheight) (srcy op) op in
  emulate <- vga_emulate_text ;;
  let color := if emulate then Z.shiftr (ca_attr ca) 4 else ca_attr ca in
  do handle_gfx_op (set_op GO_MEMSET (set_pixels (<[0%nat := color]> (pixels op)) op)) ;; ret tt.

Definition get_font_data (c : Z) : M W segoff_s :=
  char_height <- get16 VBDA.char_height ;;
  let low := (char_height =? 8) && (128 <=? c) in
  v <- get32 (if low then 0x1f * 4 else 0x43 * 4) ;;
  let font := segoff_of v in
  let c := if low then c - 128 else c in
  ret (Segoff (u16 (so_offset font + c * char_height)) (so_seg font)).

(** One line of a character cell. *)
Definition glyph_bit (fontline j : Z) : bool := truthy (Z.land fontline (Z.shiftr 0x80 j)).
Definition write_line (usexor : bool) (fg bg fontline : Z) (op : gfx_op) : M W gfx_op :=
  op <- (if usexor then
           op <- handle_gfx_op (set_op GO_READ8 op) ;;
           ret (set_pixels (map (fun j => Z.lxor (pixel (pixels op) j) (if glyph_bit fontline j then fg else 0x00)) seq8) op)
         else ret (set_pixels (map (fun j => if glyph_bit fontline j then fg else bg) seq8) op)) ;;
  handle_gfx_op (set_op GO_WRITE8 op).

Fixpoint write_lines (n : nat) (i : Z) (font : segoff_s) (usexor : bool) (fg bg : Z) (op : gfx_op) : M W unit :=
  match n with
  | O => ret tt
  | S n' =>
    fontline <- get8 (far (so_seg font) (so_offset font + i)) ;;
    op <- write_line usexor fg bg fontline op ;;
    write_lines n' (i + 1) font usexor fg bg (set_xy (go_x op) (go_y op + 1) op)
  end.

(** The bottom right pixel of the cell, read to guess the background. *)
Definition guess_background (cheight : Z) (op : gfx_op) : M W (gfx_op * Z) :=
  op <- handle_gfx_op (set_xy (go_x op) (go_y op + (cheight - 1)) (set_op GO_READ8 op)) ;;
  ret (set_xy (go_x op) (go_y op - (cheight - 1)) op, pixel (pixels op) 7).

Definition gfx_write_char (m : vgamode_s) (cp : cursorpos) (ca : carattr) : M W unit :=
  cols <- get16 VBDA.video_cols ;;
  if cols <=? cp_x cp then ret tt
  else
    font <- get_font_data (ca_car ca) ;;
    op <- init_gfx_op m ;;
    cheight <- get16 VBDA.char_height ;;
    let op := set_xy (cp_x cp * 8) (cp_y cp * cheight) op in
    emulate <- vga_emulate_text ;;
    if emulate then
      if ca_use_attr ca
      then write_lines (Z.to_nat cheight) 0 font false (Z.land (ca_attr ca) 0x0f) (Z.shiftr (ca_attr ca) 4) op
      else
        res <- guess_background cheight op ;;
        let '(op, bg) := res in write_lines (Z.to_nat cheight) 0 font false (Z.lxor bg 0x7) bg op
    else if truthy (Z.land (ca_attr ca) 0x80) && (depth m <? 8)
    then write_lines (Z.to_nat cheight) 0 font true (Z.land (ca_attr ca) 0x7f) 0x00 op
    else write_lines (Z.to_nat cheight) 0 font false (ca_attr ca) 0x00 op.

(** The lines of a cell as bits, and the last color that is not the background. *)
Definition line_bits (bg : Z) (l : list Z) : Z := pack (fun j => if pixel l j =? bg then 0 else Z.shiftr 0x80 j).
Definition line_color (bg fg : Z) (l : list Z) : Z := foldl (fun fg j => if pixel l j =? bg then fg else pixel l j) fg seq8.
Fixpoint read_lines (n : nat) (bg fg : Z) (op : gfx_op) : M W (list Z * Z) :=
  match n with
  | O => ret ([], fg)
  | S n' =>
    op <- handle_gfx_op op ;;
    res <- read_lines n' bg (line_color bg fg (pixels op)) (set_xy (go_x op) (go_y op + 1) op) ;;
    ret (line_bits bg (pixels op) :: fst res, snd res)
  end.

(** [for (; car < 256; car++)]: the first character with these lines. *)
Fixpoint find_char (n : nat) (car : Z) (lines : list Z) : M W (option Z) :=
  match n with
  | O => ret None
  | S n' =>
    font <- get_font_data car ;;
    fun s => if bool_decide (read_bytes (List.length lines) (far (so_seg font) (so_offset font)) (mc_mem s) = lines)
             then Some (Some car, s) else find_char n' (car + 1) lines s
  end.

Definition gfx_read_char (m : vgamode_s) (cp : cursorpos) : M W carattr :=
  cheight <- get16 VBDA.char_height ;;
  cols <- get16 VBDA.video_cols ;;
  if (cols <=? cp_x cp) || (16 <? cheight) then ret (CarAttr 0 0 false)
  else
    op <- init_gfx_op m ;;
    let op := set_xy (cp_x cp * 8) (cp_y cp * cheight) (set_op GO_READ8 op) in
    emulate <- vga_emulate_text ;;
    res <- (if emulate then guess_background cheight op else ret (op, 0x00)) ;;
    let '(op, bg) := res in
    res <- read_lines (Z.to_nat cheight) bg (if emulate then Z.lxor bg 0x7 else 0x00) op ;;
    let '(lines, fg) := res in
    let car := if emulate then 1 else 0 in
    found <- find_char (Z.to_nat (256 - car)) car lines ;;
    ret (match found with
         | Some c => CarAttr (u8 c) (u8 (Z.lor fg (Z.shiftl bg 4))) false
         | None => CarAttr 0 0 false
         end).

Definition vgafb_write_pixel (color x y : Z) : M W unit :=
  mode <- get_current_mode ;;
  match mode with
  | None => ret tt
  | Some m =>
    op <- init_gfx_op m ;;
    op <- handle_gfx_op (set_op GO_READ8 (set_xy (Z.land x (Z.lnot 7)) y op)) ;;
    let i := Z.to_nat (Z.land x 0x07) in
    let usexor := truthy (Z.land color 0x80) && (depth m <? 8) in
    let v := if usexor then Z.lxor (nth i (pixels op) 0) (Z.land color 0x7f) else color in
    do handle_gfx_op (set_op GO_WRITE8 (set_pixels (<[i := v]> (pixels op)) op)) ;; ret tt
  end.

Definition vgafb_read_pixel (x y : Z) : M W Z :=
  mode <- get_current_mode ;;
  match mode with
  | None => ret 0
  | Some m =>
    op <- init_gfx_op m ;;
    op <- handle_gfx_op (set_op GO_READ8 (set_xy (Z.land x (Z.lnot 7)) y op)) ;;
    ret (nth (Z.to_nat (Z.land x 0x07)) (pixels op) 0)
  end.

(** ** Text operations *)

Definition text_address (cp : cursorpos) : M W Z :=
  cols <- get16 VBDA.video_cols ;;
  pagesize <- get16 VBDA.video_pagesize ;;
  ret (u32 (pagesize * cp_page cp + cp_y cp * (cols * 2) + cp_x cp * 2)).

Definition vgafb_move_chars (dest movesize : cursorpos) (lines : Z) : M W unit :=
  mode <- get_current_mode ;;
  match mode with
  | None => ret tt
  | Some m =>
    if negb (memmodel m =? MM_TEXT) then gfx_move_chars m dest movesize lines
    else
      cols <- get16 VBDA.video_cols ;;
      let stride := cols * 2 in
      dest_addr <- text_address dest ;;
      upd_mem (memmove_stride (sstart m) dest_addr (dest_addr + lines * stride) (cp_x movesize * 2) stride (cp_y movesize))
  end.

Definition vgafb_clear_chars (win winsize : cursorpos) (ca : carattr) : M W unit :=
  mode <- get_current_mode ;;
  match mode with
  | None => ret tt
  | Some m =>
    if negb (memmodel m =? MM_TEXT) then gfx_clear_chars m win winsize ca
    else
      cols <- get16 VBDA.video_cols ;;
      let stride := cols * 2 in
      let attr := Z.lor (Z.shiftl (if ca_use_attr ca then ca_attr ca else 0x07) 8) (ca_car ca) in
      addr <- text_address win ;;
      upd_mem (memset16_stride (sstart m) addr attr (cp_x winsize * 2) stride (cp_y winsize))
  end.

Definition vgafb_scroll (win winsize : cursorpos) (lines : Z) (ca : carattr) : M W unit :=
  if lines =? 0 then vgafb_clear_chars win winsize ca
  else if 0 <? lines then
    let size := set_y (cp_y winsize - lines) winsize in
    do vgafb_move_chars win size lines ;;
    vgafb_clear_chars (set_y (cp_y win + cp_y size) win) (set_y lines winsize) ca
  else
    let win' := set_y (cp_y win - lines) win in
    do vgafb_move_chars win' (set_y (cp_y winsize + lines) winsize) lines ;;
    vgafb_clear_chars (set_y (cp_y win' + lines) win') (set_y (- lines) winsize) ca.

Definition vgafb_write_char (cp : cursorpos) (ca : carattr) : M W unit :=
  mode <- get_current_mode ;;
  match mode with
  | None => ret tt
  | Some m =>
    if negb (memmodel m =? MM_TEXT) then gfx_write_char m cp ca
    else
      dest_far <- text_address cp ;;
      if ca_use_attr ca then put16 (far (sstart m) dest_far) (u16 (Z.lor (Z.shiftl (ca_attr ca) 8) (ca_car ca)))
      else put8 (far (sstart m) dest_far) (ca_car ca)
  end.

Definition vgafb_read_char (cp : cursorpos) : M W carattr :=
  mode <- get_current_mode ;;
  match mode with
  | None => ret (CarAttr 0 0 false)
  | Some m =>
    if negb (memmodel m =? MM_TEXT) then gfx_read_char m cp
    else
      dest_far <- text_address cp ;;
      v <- get16 (far (sstart m) dest_far) ;; ret (CarAttr (u8 v) (u8 (Z.shiftr v 8)) false)
  end.
End VgaFb.
