(* ===== verification/VgaBios.v ===== *)
(** * INT 10h: vgasrc/vgabios.c, vgasrc/swcursor.c

    The video services over VgaFb and StdVga.  Setting a mode in the hardware,
    the tables of modes, the VBE functions (AH=4Fh) and Cirrus' extension are
    parameters, as is the choice of the card's functions (vgahw.h). *)
From S2P Require Import Prelude Machine StringOps Bytes Pci StdVga VgaFb.
Local Open Scope seabios_scope.

Definition MF_LEGACY := 0x0001.
Definition MF_GRAYSUM := 0x0002.
Definition MF_NOPALETTE := 0x0008.
Definition MF_NOCLEARMEM := 0x8000.
Definition MF_VBEFLAGS := 0xfe00.
Definition VBE_RETURN_STATUS_FAILED := 0x014f.

(** [ALIGN] on an int. *)
Definition align_int (x a : Z) : Z := Z.land (x + (a - 1)) (Z.lnot (a - 1)).
Definition calc_page_size (memmodel width height : Z) : Z :=
  u16 (if memmodel =? MM_TEXT then align_int (width * height * 2) 2048
       else if memmodel =? MM_CGA then 16 * 1024
       else align_int (Z.quot (width * height) 8) 8192).

(** Offsets in struct saveBDAstate and struct video_func_info. *)
Module SaveBda.
Definition bda_0x49 := 0.
Definition bda_0x84 := 28.
Definition vbe_mode := 34.
Definition font0 := 36.
Definition font1 := 40.
Definition size := 44.
End SaveBda.
Module FuncInfo.
Definition static_functionality := 0x00.
Definition bda_0x49 := 0x04.
Definition bda_0x84 := 0x22.
Definition dcc_index := 0x25.
Definition colors := 0x27.
Definition pages := 0x29.
Definition scan_lines := 0x2a.
Definition video_mem := 0x31.
Definition size := 0x40.
End FuncInfo.

Section VgaBios.
Context {W : Type} `{Env W} `{Ports W}.
Context (CONFIG_VGA_STDVGA_PORTS CONFIG_VGA_EMULATE_TEXT CONFIG_VGA_ALLOCATE_EXTRA_STACK CONFIG_VGA_CIRRUS CONFIG_VGA_VBE : bool).
Context (mode_at : Z -> vgamode_s).
Context (vgahw_get_linelength vgahw_get_displaystart : vgamode_s -> M W Z).
Context (VBE_framebuffer SS gdt data_fl : Z).
(** What vgahw.h chooses: a mode's offset or 0, and 0 or an error. *)
Context (vgahw_find_mode : Z -> M W Z) (vgahw_set_mode : Z -> Z -> M W Z).
Context (vgahw_set_displaystart : vgamode_s -> Z -> M W Z) (vgahw_save_restore : Z -> Z -> Z -> M W Z).
(** The segment of the ROM and what lies in it; the local [rgb]. *)
Context (global_seg vgafont8 vgafont14 vgafont16 vgafont14alt vgafont16alt static_functionality rgb : Z).
Context (clext_1012 handle_104f : bregs -> M W bregs).

Abbreviation vgafb_scroll := (VgaFb.vgafb_scroll CONFIG_VGA_STDVGA_PORTS CONFIG_VGA_EMULATE_TEXT mode_at
  vgahw_get_linelength vgahw_get_displaystart VBE_framebuffer SS gdt data_fl).
Abbreviation vgafb_write_char := (VgaFb.vgafb_write_char CONFIG_VGA_STDVGA_PORTS CONFIG_VGA_EMULATE_TEXT mode_at
  vgahw_get_linelength vgahw_get_displaystart VBE_framebuffer SS gdt data_fl).
Abbreviation vgafb_read_char := (VgaFb.vgafb_read_char CONFIG_VGA_STDVGA_PORTS CONFIG_VGA_EMULATE_TEXT mode_at
  vgahw_get_linelength vgahw_get_displaystart VBE_framebuffer SS gdt data_fl).
Abbreviation vgafb_write_pixel := (VgaFb.vgafb_write_pixel CONFIG_VGA_STDVGA_PORTS mode_at
  vgahw_get_linelength vgahw_get_displaystart VBE_framebuffer SS gdt data_fl).
Abbreviation vgafb_read_pixel := (VgaFb.vgafb_read_pixel CONFIG_VGA_STDVGA_PORTS mode_at
  vgahw_get_linelength vgahw_get_displaystart VBE_framebuffer SS gdt data_fl).
Abbreviation handle_gfx_op := (VgaFb.handle_gfx_op CONFIG_VGA_STDVGA_PORTS VBE_framebuffer SS gdt data_fl).
Abbreviation get_current_mode := (VgaFb.get_current_mode mode_at).
Abbreviation vga_emulate_text := (VgaFb.vga_emulate_text CONFIG_VGA_EMULATE_TEXT).

(** ** Helpers *)

(** The shape scaled to the height of a character. *)
Definition scale_cursor (cursor_type cheight : Z) : Z :=
  let start := Z.land (Z.shiftr cursor_type 8) 0x3f in
  let end_ := Z.land cursor_type 0x1f in
  if (cheight <=? 8) || (8 <=? end_) || (0x20 <=? start) then cursor_type
  else
    let start := u8 (if negb (end_ =? start + 1) then Z.quot ((start + 1) * cheight) 8 - 1
                     else Z.quot ((end_ + 1) * cheight) 8 - 2) in
    let end_ := u8 (Z.quot ((end_ + 1) * cheight) 8 - 1) in
    Z.lor (Z.shiftl start 8) end_.

Definition get_cursor_shape : M W Z :=
  cursor_type <- get16 VBDA.cursor_type ;;
  video_ctl <- get8 VBDA.video_ctl ;;
  cheight <- get16 VBDA.char_height ;;
  ret (if truthy (Z.land video_ctl 1) then cursor_type else scale_cursor cursor_type cheight).

Definition set_cursor_shape (cursor_type : Z) : M W unit :=
  do put16 VBDA.cursor_type cursor_type ;;
  if CONFIG_VGA_STDVGA_PORTS then shape <- get_cursor_shape ;; stdvga_set_cursor_shape shape else ret tt.

Definition set_cursor_pos (cp : cursorpos) : M W unit :=
  if 7 <? cp_page cp then ret tt
  else
    page <- get8 VBDA.video_page ;;
    do (if (cp_page cp =? page) && CONFIG_VGA_STDVGA_PORTS
        then address <- text_address cp ;; stdvga_set_cursor_pos (s32 address) else ret tt) ;;
    put16 (VBDA.cursor_pos + 2 * cp_page cp) (Z.lor (Z.shiftl (cp_y cp) 8) (cp_x cp)).

Definition get_cursor_pos (page : Z) : M W cursorpos :=
  if 7 <? page then ret (CursorPos 0 0 0)
  else xy <- get16 (VBDA.cursor_pos + 2 * page) ;; ret (CursorPos (u8 xy) (u8 (Z.shiftr xy 8)) page).

Definition set_active_page (page : Z) : M W unit :=
  if 7 <? page then ret tt
  else
    mode <- get_current_mode ;;
    match mode with
    | None => ret tt
    | Some m =>
      address <- text_address (CursorPos 0 0 page) ;;
      do vgahw_set_displaystart m (s32 address) ;;
      do put16 VBDA.video_pagestart address ;;
      do put8 VBDA.video_page page ;;
      cp <- get_cursor_pos page ;; set_cursor_pos cp
    end.

Definition set_scan_lines (lines : Z) : M W unit :=
  do stdvga_set_scan_lines lines ;;
  do put16 VBDA.char_height lines ;;
  vde <- stdvga_get_vde ;;
  let rows := u8 (vde / lines) in
  do put8 VBDA.video_rows (rows - 1) ;;
  cols <- get16 VBDA.video_cols ;;
  do put16 VBDA.video_pagesize (calc_page_size MM_TEXT cols rows) ;;
  set_cursor_shape (if lines =? 8 then 0x0607 else u16 (Z.lor (Z.shiftl (lines - 3) 8) (lines - 2))).

(** ** Character writing *)

Definition write_char (cp : cursorpos) (ca : carattr) : M W cursorpos :=
  do vgafb_write_char cp ca ;;
  let cp := set_x (cp_x cp + 1) cp in
  cols <- get16 VBDA.video_cols ;;
  ret (if cp_x cp =? cols then set_y (cp_y cp + 1) (set_x 0 cp) else cp).

Definition write_teletype (cp : cursorpos) (ca : carattr) : M W cursorpos :=
  cp <- (if ca_car ca =? 7 then ret cp
         else if ca_car ca =? 8 then ret (if 0 <? cp_x cp then set_x (cp_x cp - 1) cp else cp)
         else if ca_car ca =? 13 then ret (set_x 0 cp)
         else if ca_car ca =? 10 then ret (set_y (cp_y cp + 1) cp)
         else write_char cp ca) ;;
  nbrows <- get8 VBDA.video_rows ;;
  if nbrows <? cp_y cp then
    let cp := set_y (cp_y cp - 1) cp in
    cols <- get16 VBDA.video_cols ;;
    do vgafb_scroll (CursorPos 0 0 (cp_page cp)) (CursorPos (u8 cols) (u8 (nbrows + 1)) 0) 1 (CarAttr 0x20 0 false) ;;
    ret cp
  else ret cp.

(** ** Saving the BIOS data area *)

Definition save_bda (seg data : Z) : M W unit :=
  do upd_mem (memcpy_far seg (data + SaveBda.bda_0x49) SEG_BDA 0x49 28) ;;
  do upd_mem (memcpy_far seg (data + SaveBda.bda_0x84) SEG_BDA 0x84 6) ;;
  v <- get16 VBDA.vbe_mode ;; do put16 (far seg (data + SaveBda.vbe_mode)) v ;;
  v <- get32 (0x1f * 4) ;; do put32 (far seg (data + SaveBda.font0)) v ;;
  v <- get32 (0x43 * 4) ;; put32 (far seg (data + SaveBda.font1)) v.

Definition restore_bda (seg data : Z) : M W unit :=
  do upd_mem (memcpy_far SEG_BDA 0x49 seg (data + SaveBda.bda_0x49) 28) ;;
  do upd_mem (memcpy_far SEG_BDA 0x84 seg (data + SaveBda.bda_0x84) 6) ;;
  vbe_mode <- get16 (far seg (data + SaveBda.vbe_mode)) ;;
  do put16 VBDA.vbe_mode vbe_mode ;;
  off <- vgahw_find_mode (Z.land vbe_mode (Z.lnot MF_VBEFLAGS)) ;;
  do put16 VBDA.vgamode_offset off ;;
  v <- get32 (far seg (data + SaveBda.font0)) ;; do put32 (0x1f * 4) v ;;
  v <- get32 (far seg (data + SaveBda.font1)) ;; put32 (0x43 * 4) v.

Definition bda_save_restore (cmd seg data : Z) : M W Z :=
  if negb (truthy (Z.land cmd SR_BDA)) then ret 0
  else
    do (if truthy (Z.land cmd SR_SAVE) then save_bda seg data else ret tt) ;;
    do (if truthy (Z.land cmd SR_RESTORE) then restore_bda seg data else ret tt) ;;
    ret SaveBda.size.

(** ** Setting a mode *)

Definition set_ivt (nr seg off : Z) : M W unit := put32 (nr * 4) (segoff (SEGOFF seg off)).

Definition vga_set_mode (mode flags : Z) : M W Z :=
  off <- vgahw_find_mode mode ;;
  if off =? 0 then ret VBE_RETURN_STATUS_FAILED
  else
    r <- vgahw_set_mode off flags ;;
    if truthy r then ret r
    else
      let m := mode_at off in
      do put8 VBDA.video_mode (if mode <? 0x100 then mode else 0xff) ;;
      do put16 VBDA.vbe_mode (Z.lor mode (Z.land flags MF_VBEFLAGS)) ;;
      do put16 VBDA.vgamode_offset off ;;
      do (if CONFIG_VGA_ALLOCATE_EXTRA_STACK then
            f <- get8 VBDA.flags ;;
            put8 VBDA.flags (Z.lor (Z.land f (Z.lnot BF_EXTRA_STACK)) (if truthy (Z.land flags MF_LEGACY) then BF_EXTRA_STACK else 0))
          else ret tt) ;;
      do (if memmodel m =? MM_TEXT then
            do put16 VBDA.video_cols (width m) ;;
            do put8 VBDA.video_rows (height m - 1) ;;
            put16 VBDA.cursor_type 0x0607
          else
            do put16 VBDA.video_cols (width m / cwidth m) ;;
            do put8 VBDA.video_rows (height m / cheight m - 1) ;;
            emulate <- vga_emulate_text ;;
            put16 VBDA.cursor_type (if emulate then 0x0607 else 0x0000)) ;;
      do put16 VBDA.video_pagesize (calc_page_size (memmodel m) (width m) (height m)) ;;
      crtc <- (if CONFIG_VGA_STDVGA_PORTS then stdvga_get_crtc else ret 0) ;;
      do put16 VBDA.crtc_address crtc ;;
      do put16 VBDA.char_height (cheight m) ;;
      do put8 VBDA.video_ctl (Z.lor 0x60 (if truthy (Z.land flags MF_NOCLEARMEM) then 0x80 else 0x00)) ;;
      do put8 VBDA.video_switches 0xf9 ;;
      ctl <- get8 VBDA.modeset_ctl ;; do put8 VBDA.modeset_ctl (Z.land ctl 0x7f) ;;
      do for_loop 8 0 (fun i => put16 (VBDA.cursor_pos + 2 * i) 0x0000) ;;
      do put16 VBDA.video_pagestart 0x0000 ;;
      do put8 VBDA.video_page 0x00 ;;
      do set_ivt 0x1f global_seg (vgafont8 + 128 * 8) ;;
      do (if cheight m =? 8 then set_ivt 0x43 global_seg vgafont8
          else if cheight m =? 14 then set_ivt 0x43 global_seg vgafont14
          else if cheight m =? 16 then set_ivt 0x43 global_seg vgafont16
          else ret tt) ;;
      ret 0.

(** ** The handlers *)

Definition handle_1000 (regs : bregs) : M W bregs :=
  let mode := Z.land (r_al regs) 0x7f in
  let regs := set_al (if 7 <? mode then 0x20 else if mode =? 6 then 0x3f else 0x30) regs in
  ctl <- get8 VBDA.modeset_ctl ;;
  let flags := Z.lor MF_LEGACY (Z.land ctl (Z.lor MF_NOPALETTE MF_GRAYSUM)) in
  let flags := if truthy (Z.land (r_al regs) 0x80) then Z.lor flags MF_NOCLEARMEM else flags in
  do vga_set_mode mode flags ;; ret regs.
Definition handle_1001 (regs : bregs) : M W bregs := do set_cursor_shape (r_cx regs) ;; ret regs.
Definition handle_1002 (regs : bregs) : M W bregs :=
  do set_cursor_pos (CursorPos (r_dl regs) (r_dh regs) (r_bh regs)) ;; ret regs.
Definition handle_1003 (regs : bregs) : M W bregs :=
  shape <- get16 VBDA.cursor_type ;;
  let regs := set_cx shape regs in
  cp <- get_cursor_pos (r_bh regs) ;; ret (set_dh (cp_y cp) (set_dl (cp_x cp) regs)).
Definition handle_1004 (regs : bregs) : M W bregs := ret (set_ax 0 (set_bx 0 (set_cx 0 (set_dx 0 regs)))).
Definition handle_1005 (regs : bregs) : M W bregs := do set_active_page (r_al regs) ;; ret regs.

Definition verify_scroll (regs : bregs) (dir : Z) : M W unit :=
  let ulx := r_cl regs in
  let uly := r_ch regs in
  rows <- get8 VBDA.video_rows ;;
  let nbrows := rows + 1 in
  let lry := if nbrows <=? r_dh regs then nbrows - 1 else r_dh regs in
  nbcols <- get16 VBDA.video_cols ;;
  let lrx := if nbcols <=? r_dl regs then u8 (nbcols - 1) else r_dl regs in
  let wincols := lrx - ulx + 1 in
  let winrows := lry - uly + 1 in
  if (wincols <=? 0) || (winrows <=? 0) then ret tt
  else
    let lines := if winrows <=? r_al regs then 0 else r_al regs in
    page <- get8 VBDA.video_page ;;
    vgafb_scroll (CursorPos ulx uly page) (CursorPos (u8 wincols) (u8 winrows) 0) (lines * dir) (CarAttr 0x20 (r_bh regs) true).
Definition handle_1006 (regs : bregs) : M W bregs := do verify_scroll regs 1 ;; ret regs.
Definition handle_1007 (regs : bregs) : M W bregs := do verify_scroll regs (-1) ;; ret regs.

Definition handle_1008 (regs : bregs) : M W bregs :=
  cp <- get_cursor_pos (r_bh regs) ;;
  ca <- vgafb_read_char cp ;; ret (set_ah (ca_attr ca) (set_al (ca_car ca) regs)).

(** [while (count--) write_char (&cp, ca)] *)
Fixpoint write_chars (n : nat) (cp : cursorpos) (ca : carattr) : M W cursorpos :=
  match n with O => ret cp | S n' => cp <- write_char cp ca ;; write_chars n' cp ca end.
Definition handle_1009 (regs : bregs) : M W bregs :=
  cp <- get_cursor_pos (r_bh regs) ;;
  do write_chars (Z.to_nat (r_cx regs)) cp (CarAttr (r_al regs) (r_bl regs) true) ;; ret regs.
Definition handle_100a (regs : bregs) : M W bregs :=
  cp <- get_cursor_pos (r_bh regs) ;;
  do write_chars (Z.to_nat (r_cx regs)) cp (CarAttr (r_al regs) (r_bl regs) false) ;; ret regs.

Definition handle_100b (regs : bregs) : M W bregs :=
  if negb CONFIG_VGA_STDVGA_PORTS then ret regs
  else
    do (if r_bh regs =? 0x00 then stdvga_set_border_color (r_bl regs)
        else if r_bh regs =? 0x01 then stdvga_set_palette (r_bl regs) else ret tt) ;; ret regs.
Definition handle_100c (regs : bregs) : M W bregs :=
  do vgafb_write_pixel (r_al regs) (r_cx regs) (r_dx regs) ;; ret regs.
Definition handle_100d (regs : bregs) : M W bregs :=
  v <- vgafb_read_pixel (r_cx regs) (r_dx regs) ;; ret (set_al v regs).
Definition handle_100e (regs : bregs) : M W bregs :=
  page <- get8 VBDA.video_page ;;
  cp <- get_cursor_pos page ;;
  cp <- write_teletype cp (CarAttr (r_al regs) (r_bl regs) false) ;;
  do set_cursor_pos cp ;; ret regs.
Definition handle_100f (regs : bregs) : M W bregs :=
  page <- get8 VBDA.video_page ;; mode <- get8 VBDA.video_mode ;; ctl <- get8 VBDA.video_ctl ;;
  cols <- get16 VBDA.video_cols ;;
  ret (set_ah cols (set_al (Z.lor mode (Z.land ctl 0x80)) (set_bh page regs))).

(** AH=10h: the palette. *)
Definition handle_101010 (regs : bregs) : M W bregs :=
  do put8 (far SS rgb) (r_dh regs) ;; do put8 (far SS (rgb + 1)) (r_ch regs) ;; do put8 (far SS (rgb + 2)) (r_cl regs) ;;
  do stdvga_dac_write SS rgb (u8 (r_bx regs)) 1 ;; ret regs.
Definition handle_101015 (regs : bregs) : M W bregs :=
  do stdvga_dac_read SS rgb (u8 (r_bx regs)) 1 ;;
  r <- get8 (far SS rgb) ;; g <- get8 (far SS (rgb + 1)) ;; b <- get8 (far SS (rgb + 2)) ;;
  ret (set_cl b (set_ch g (set_dh r regs))).
Definition handle_1010 (regs : bregs) : M W bregs :=
  if negb CONFIG_VGA_STDVGA_PORTS then ret regs
  else
    match r_al regs with
    | 0x00 => if 0x14 <? r_bl regs then ret regs else do stdvga_attr_write (r_bl regs) (r_bh regs) ;; ret regs
    | 0x01 => do stdvga_set_overscan_border_color (r_bh regs) ;; ret regs
    | 0x02 => do stdvga_set_all_palette_reg (r_es regs) (r_dx regs) ;; ret regs
    | 0x03 => do stdvga_toggle_intensity (r_bl regs) ;; ret regs
    | 0x07 => if 0x14 <? r_bl regs then ret regs else v <- stdvga_attr_read (r_bl regs) ;; ret (set_bh v regs)
    | 0x08 => v <- stdvga_get_overscan_border_color ;; ret (set_bh v regs)
    | 0x09 => do stdvga_get_all_palette_reg (r_es regs) (r_dx regs) ;; ret regs
    | 0x10 => handle_101010 regs
    | 0x12 => do stdvga_dac_write (r_es regs) (r_dx regs) (u8 (r_bx regs)) (r_cx regs) ;; ret regs
    | 0x13 => do stdvga_select_video_dac_color_page (r_bl regs) (r_bh regs) ;; ret regs
    | 0x15 => handle_101015 regs
    | 0x17 => do stdvga_dac_read (r_es regs) (r_dx regs) (u8 (r_bx regs)) (r_cx regs) ;; ret regs
    | 0x18 => do stdvga_pelmask_write (r_bl regs) ;; ret regs
    | 0x19 => v <- stdvga_pelmask_read ;; ret (set_bl v regs)
    | 0x1a => v <- stdvga_read_video_dac_state ;; ret (set_bh (snd v) (set_bl (fst v) regs))
    | 0x1b => do stdvga_perform_gray_scale_summing SS rgb (r_bx regs) (r_cx regs) ;; ret regs
    | _ => ret regs
    end.

(** AH=11h: fonts. *)
Definition load_gfx_font (seg off height bl dl : Z) : M W unit :=
  do set_ivt 0x43 seg off ;;
  let rows := if bl =? 0 then dl else if bl =? 1 then 14 else if bl =? 3 then 43 else 25 in
  do put8 VBDA.video_rows (rows - 1) ;; put16 VBDA.char_height height.

Definition font_pointer (regs : bregs) : M W (option segoff_s) :=
  match r_bh regs with
  | 0x00 => v <- get32 (0x1f * 4) ;; ret (Some (segoff_of v))
  | 0x01 => v <- get32 (0x43 * 4) ;; ret (Some (segoff_of v))
  | 0x02 => ret (Some (SEGOFF global_seg vgafont14))
  | 0x03 => ret (Some (SEGOFF global_seg vgafont8))
  | 0x04 => ret (Some (SEGOFF global_seg (vgafont8 + 128 * 8)))
  | 0x05 => ret (Some (SEGOFF global_seg vgafont14alt))
  | 0x06 => ret (Some (SEGOFF global_seg vgafont16))
  | 0x07 => ret (Some (SEGOFF global_seg vgafont16alt))
  | _ => ret None
  end.
Definition set_bp (v : Z) (r : bregs) : bregs :=
  Bregs (r_ds r) (r_es r) (r_edi r) (r_esi r) (with_low16 (r_ebp r) v) (r_ebx r) (r_edx r) (r_ecx r) (r_eax r) (r_code r) (r_flags r).
Definition r_bp (r : bregs) : Z := low16 (r_ebp r).
Definition handle_101130 (regs : bregs) : M W bregs :=
  so <- font_pointer regs ;;
  match so with
  | None => ret regs
  | Some so =>
    cheight <- get16 VBDA.char_height ;; rows <- get8 VBDA.video_rows ;;
    ret (set_dl rows (set_cx (Z.land cheight 0xff) (set_bp (so_offset so) (set_es (so_seg so) regs))))
  end.

(** The functions for a text mode, then those for every mode. *)
Definition handle_1011_text (regs : bregs) : option (M W unit) :=
  let user lines := stdvga_load_font (r_es regs) (r_bp regs) (r_cx regs) (r_dx regs) (r_bl regs) lines in
  let rom font lines := stdvga_load_font global_seg font 0x100 0 (r_bl regs) lines in
  match r_al regs with
  | 0x00 => Some (user (r_bh regs))
  | 0x01 => Some (rom vgafont14 14)
  | 0x02 => Some (rom vgafont8 8)
  | 0x03 => Some (stdvga_set_text_block_specifier (r_bl regs))
  | 0x04 => Some (rom vgafont16 16)
  | 0x10 => Some (do user (r_bh regs) ;; set_scan_lines (r_bh regs))
  | 0x11 => Some (do rom vgafont14 14 ;; set_scan_lines 14)
  | 0x12 => Some (do rom vgafont8 8 ;; set_scan_lines 8)
  | 0x14 => Some (do rom vgafont16 16 ;; set_scan_lines 16)
  | _ => None
  end.
Definition handle_1011 (regs : bregs) : M W bregs :=
  match (if CONFIG_VGA_STDVGA_PORTS then handle_1011_text regs else None) with
  | Some c => do c ;; ret regs
  | None =>
    match r_al regs with
    | 0x30 => handle_101130 regs
    | 0x20 => do set_ivt 0x1f (r_es regs) (r_bp regs) ;; ret regs
    | 0x21 => do load_gfx_font (r_es regs) (r_bp regs) (u8 (r_cx regs)) (r_bl regs) (r_dl regs) ;; ret regs
    | 0x22 => do load_gfx_font global_seg vgafont14 14 (r_bl regs) (r_dl regs) ;; ret regs
    | 0x23 => do load_gfx_font global_seg vgafont8 8 (r_bl regs) (r_dl regs) ;; ret regs
    | 0x24 => do load_gfx_font global_seg vgafont16 16 (r_bl regs) (r_dl regs) ;; ret regs
    | _ => ret regs
    end
  end.

(** AH=12h *)
Definition handle_101210 (regs : bregs) : M W bregs :=
  crtc_addr <- get16 VBDA.crtc_address ;; switches <- get8 VBDA.video_switches ;;
  ret (set_cx (Z.land switches 0x0f) (set_bx (if crtc_addr =? VGAREG_MDA_CRTC_ADDRESS then 0x0103 else 0x0003) regs)).
Definition scan_line_bits (al mctl vswt : Z) : Z * Z :=
  match al with
  | 0x00 => (Z.lor (Z.land mctl (Z.lnot 0x10)) 0x80, Z.lor (Z.land vswt (Z.lnot 0x0f)) 0x08)
  | 0x01 => (Z.land mctl (Z.lnot 0x90), Z.lor (Z.land vswt (Z.lnot 0x0f)) 0x09)
  | 0x02 => (Z.lor (Z.land mctl (Z.lnot 0x80)) 0x10, Z.lor (Z.land vswt (Z.lnot 0x0f)) 0x09)
  | _ => (mctl, vswt)
  end.
Definition handle_101230 (regs : bregs) : M W bregs :=
  mctl <- get8 VBDA.modeset_ctl ;; vswt <- get8 VBDA.video_switches ;;
  let '(mctl, vswt) := scan_line_bits (r_al regs) mctl vswt in
  do put8 VBDA.modeset_ctl mctl ;; do put8 VBDA.video_switches vswt ;; ret (set_al 0x12 regs).
Definition handle_1012 (regs : bregs) : M W bregs :=
  if CONFIG_VGA_CIRRUS && (0x80 <=? r_bl regs) then clext_1012 regs
  else
    match r_bl regs with
    | 0x10 => handle_101210 regs
    | 0x30 => handle_101230 regs
    | 0x31 =>
      ctl <- get8 VBDA.video_ctl ;;
      do put8 VBDA.video_ctl (Z.lor (Z.land ctl (Z.lnot 0x08)) (Z.shiftl (Z.land (r_al regs) 0x01) 3)) ;; ret (set_al 0x12 regs)
    | 0x32 =>
      if CONFIG_VGA_STDVGA_PORTS then do stdvga_enable_video_addressing (r_al regs) ;; ret (set_al 0x12 regs) else ret regs
    | 0x33 =>
      ctl <- get8 VBDA.modeset_ctl ;;
      do put8 VBDA.modeset_ctl (Z.lor (Z.lxor (Z.land (Z.shiftl (r_al regs) 1) 0x02) 0x02) (Z.land ctl (Z.lnot 0x02))) ;;
      ret (set_al 0x12 regs)
    | 0x34 =>
      ctl <- get8 VBDA.video_ctl ;;
      do put8 VBDA.video_ctl (Z.lor (Z.land ctl (Z.lnot 0x01)) (Z.land (r_al regs) 0x01)) ;; ret (set_al 0x12 regs)
    | 0x35 | 0x36 => ret (set_al 0x12 regs)
    | _ => ret regs
    end.

(** AH=13h: a string, with or without attributes in it. *)
Fixpoint write_string (n : nat) (has_attr : bool) (es offset attr : Z) (cp : cursorpos) : M W cursorpos :=
  match n with
  | O => ret cp
  | S n' =>
    car <- get8 (far es offset) ;;
    attr <- (if has_attr then get8 (far es (offset + 1)) else ret attr) ;;
    cp <- write_teletype cp (CarAttr car attr true) ;;
    write_string n' has_attr es (offset + (if has_attr then 2 else 1)) attr cp
  end.
Definition handle_1013 (regs : bregs) : M W bregs :=
  cp <- write_string (Z.to_nat (r_cx regs)) (truthy (Z.land (r_al regs) 2)) (r_es regs) (r_bp regs) (r_bl regs)
          (CursorPos (r_dl regs) (r_dh regs) (r_bh regs)) ;;
  do (if truthy (Z.land (r_al regs) 1) then set_cursor_pos cp else ret tt) ;; ret regs.

Definition handle_101a (regs : bregs) : M W bregs :=
  match r_al regs with
  | 0x00 => v <- get8 VBDA.dcc_index ;; ret (set_al 0x1a (set_bx v regs))
  | 0x01 => do put8 VBDA.dcc_index (r_bl regs) ;; ret (set_al 0x1a regs)
  | _ => ret regs
  end.

Definition handle_101b (regs : bregs) : M W bregs :=
  let seg := r_es regs in
  let info := r_di regs in
  do upd_mem (memset_far seg info 0 FuncInfo.size) ;;
  do put32 (far seg (info + FuncInfo.static_functionality)) (segoff (SEGOFF global_seg static_functionality)) ;;
  do upd_mem (memcpy_far seg (info + FuncInfo.bda_0x49) SEG_BDA 0x49 30) ;;
  do upd_mem (memcpy_far seg (info + FuncInfo.bda_0x84) SEG_BDA 0x84 3) ;;
  v <- get8 VBDA.dcc_index ;; do put8 (far seg (info + FuncInfo.dcc_index)) v ;;
  do put16 (far seg (info + FuncInfo.colors)) 16 ;;
  do put8 (far seg (info + FuncInfo.pages)) 8 ;;
  do put8 (far seg (info + FuncInfo.scan_lines)) 2 ;;
  do put8 (far seg (info + FuncInfo.video_mem)) 3 ;;
  ret (set_al 0x1b regs).

Definition handle_101c (regs : bregs) : M W bregs :=
  let states := r_cx regs in
  let cmd := r_al regs in
  if truthy (Z.land states (Z.lnot 0x07)) || (2 <? cmd) then ret regs
  else
    r <- vgahw_save_restore (Z.lor states (Z.shiftl cmd 8)) (r_es regs) (r_bx regs) ;;
    if r <? 0 then ret regs
    else ret (set_al 0x1c (if cmd =? 0 then set_bx (Z.quot r 64) regs else regs)).

(** ** The software cursor: swcursor.c *)

Fixpoint cursor_lines (n : nat) (op : gfx_op) : M W unit :=
  match n with
  | O => ret tt
  | S n' =>
    op <- handle_gfx_op (set_op GO_READ8 op) ;;
    let op := set_pixels (map (fun p => Z.lxor p 0x07) (pixels op)) op in
    op <- handle_gfx_op (set_op GO_WRITE8 op) ;;
    cursor_lines n' (set_xy (go_x op) (go_y op + 1) op)
  end.
Definition gfx_set_swcursor (m : vgamode_s) (cp : cursorpos) : M W unit :=
  cursor_type <- get_cursor_shape ;;
  let start := u8 (Z.shiftr cursor_type 8) in
  let end_ := Z.land cursor_type 0xff in
  op <- init_gfx_op vgahw_get_linelength vgahw_get_displaystart m ;;
  cheight <- get16 VBDA.char_height ;;
  cursor_lines (Z.to_nat (Z.min cheight (end_ + 1) - start)) (set_xy (cp_x cp * 8) (cp_y cp * cheight + start) op).

Definition set_swcursor (enable : bool) : M W unit :=
  flags <- get8 VBDA.flags ;;
  if bool_decide (truthy (Z.land flags BF_SWCURSOR) = enable) then ret tt
  else
    mode <- get_current_mode ;;
    match mode with
    | None => ret tt
    | Some m =>
      page <- get8 VBDA.video_page ;;
      cp <- get_cursor_pos page ;;
      cols <- get16 VBDA.video_cols ;; rows <- get8 VBDA.video_rows ;; shape <- get16 VBDA.cursor_type ;;
      if (cols <=? cp_x cp) || (rows <? cp_y cp) || (0x2000 <=? shape) then ret tt
      else
        do put8 VBDA.flags (Z.lor (Z.land flags (Z.lnot BF_SWCURSOR)) (if enable then BF_SWCURSOR else 0)) ;;
        if negb (memmodel m =? MM_TEXT) then gfx_set_swcursor m cp
        else
          address <- text_address cp ;;
          let dest_far := far (sstart m) (address + 1) in
          attr <- get8 dest_far ;; put8 dest_far (Z.lor (Z.shiftr attr 4) (Z.shiftl attr 4))
    end.

Definition swcursor_pre_handle10 (regs : bregs) : M W unit :=
  emulate <- vga_emulate_text ;;
  if negb emulate then ret tt
  else
    let ah := r_ah regs in
    if ((ah =? 0x4f) && CONFIG_VGA_VBE && (r_al regs =? 0x02)) || ((0x00 <=? ah) && (ah <=? 0x02))
       || ((0x05 <=? ah) && (ah <=? 0x0e)) || (ah =? 0x13)
    then set_swcursor false else ret tt.

Definition swcursor_check_event : M W unit :=
  emulate <- vga_emulate_text ;;
  if negb emulate then ret tt
  else ticks <- get32 BDA.timer_counter ;; set_swcursor (ticks mod 18 <? 9).

Definition handle_10 (regs : bregs) : M W bregs :=
  do swcursor_pre_handle10 regs ;;
  match r_ah regs with
  | 0x00 => handle_1000 regs
  | 0x01 => handle_1001 regs
  | 0x02 => handle_1002 regs
  | 0x03 => handle_1003 regs
  | 0x04 => handle_1004 regs
  | 0x05 => handle_1005 regs
  | 0x06 => handle_1006 regs
  | 0x07 => handle_1007 regs
  | 0x08 => handle_1008 regs
  | 0x09 => handle_1009 regs
  | 0x0a => handle_100a regs
  | 0x0b => handle_100b regs
  | 0x0c => handle_100c regs
  | 0x0d => handle_100d regs
  | 0x0e => handle_100e regs
  | 0x0f => handle_100f regs
  | 0x10 => handle_1010 regs
  | 0x11 => handle_1011 regs
  | 0x12 => handle_1012 regs
  | 0x13 => handle_1013 regs
  | 0x1a => handle_101a regs
  | 0x1b => handle_101b regs
  | 0x1c => handle_101c regs
  | 0x4f => handle_104f regs
  | _ => ret regs
  end.
End VgaBios.
