(* ===== verification/VgaText.v ===== *)
(** * The text screen

    What the text operations of VgaFb do to the bytes of the page: rows copied
    and filled, windows scrolled; and INT 10h AH=06h and AH=07h on the cells of
    the screen. *)
From S2P Require Import Prelude Machine StringOps Bytes Pci StdVga VgaFb VgaBios.
Local Open Scope seabios_scope.

(** ** One row *)

Section Row.
Implicit Types (m : memory) (seg d s a i : Z).

Lemma far_add seg off i : far seg (off + i) = far seg off + i.
Proof. unfold far. lia. Qed.

Lemma movsb_far_out n seg : forall d s m a, 0 <= d -> d + Z.of_nat n <= 65536 ->
  a < far seg d \/ far seg d + Z.of_nat n <= a ->
  read8 (movsb_far n seg d seg s m) a = read8 m a.
Proof.
  induction n as [|n IH]; intros d s m a Hd Hn Ha; [done|]. cbn [movsb_far]. unfold far in *.
  destruct (decide (n = 0%nat)) as [->|Hn0]; [cbn [movsb_far]; apply read8_write8_ne; lia|].
  rewrite (u16_small (d + 1)) by lia. rewrite IH by lia. apply read8_write8_ne. lia.
Qed.

Lemma movsb_far_in n seg : forall d s m i, 0 <= d -> d + Z.of_nat n <= 65536 -> 0 <= s -> s + Z.of_nat n <= 65536 ->
  d + Z.of_nat n <= s \/ s + Z.of_nat n <= d -> bytes_ok m -> 0 <= i < Z.of_nat n ->
  read8 (movsb_far n seg d seg s m) (far seg d + i) = read8 m (far seg s + i).
Proof.
  induction n as [|n IH]; intros d s m i Hd Hn Hs Hsn Hdis Hm Hi; [lia|]. cbn [movsb_far].
  destruct (decide (n = 0%nat)) as [->|Hn0].
  - cbn [movsb_far]. replace i with 0 by lia. rewrite !Z.add_0_r. unfold far. rewrite read8_write8_eq.
    apply u8_small, Hm.
  - rewrite !u16_small by lia. destruct (decide (i = 0)) as [->|Hi0].
    + rewrite movsb_far_out by (unfold far; lia). rewrite !Z.add_0_r. unfold far. rewrite read8_write8_eq.
      apply u8_small, Hm.
    + replace (far seg d + i) with (far seg (d + 1) + (i - 1)) by (unfold far; lia).
      rewrite IH by (lia || auto with mem). rewrite read8_write8_ne by (unfold far; lia). f_equal. unfold far. lia.
Qed.

Lemma bytes_ok_movsb_far n ds ss : forall d s m, bytes_ok m -> bytes_ok (movsb_far n ds d ss s m).
Proof. induction n as [|n IH]; intros d s m Hm; [done|]. apply IH. auto with mem. Qed.

Lemma stosw_out n seg c : forall d m a, 0 <= d -> d + 2 * Z.of_nat n <= 65536 ->
  a < far seg d \/ far seg d + 2 * Z.of_nat n <= a -> read8 (stosw n seg d c m) a = read8 m a.
Proof.
  induction n as [|n IH]; intros d m a Hd Hn Ha; [done|]. cbn [stosw]. unfold far in *.
  destruct (decide (n = 0%nat)) as [->|Hn0]; [cbn [stosw]; apply read8_write16_ne; lia|].
  rewrite (u16_small (d + 2)) by lia. rewrite IH by lia. apply read8_write16_ne. lia.
Qed.

(** The byte of a cell at an even or an odd offset. *)
Definition half (c i : Z) : Z := if i mod 2 =? 0 then u8 c else u8 (c / 2 ^ 8).

Lemma stosw_in n seg c : forall d m i, 0 <= d -> d + 2 * Z.of_nat n <= 65536 -> 0 <= i < 2 * Z.of_nat n ->
  read8 (stosw n seg d c m) (far seg d + i) = half c i.
Proof.
  induction n as [|n IH]; intros d m i Hd Hn Hi; [lia|]. cbn [stosw].
  assert (Hfirst : i < 2 -> read8 (write16 (far seg d) c m) (far seg d + i) = half c i).
  { intros Hi2. rewrite read8_write16. unfold half. destruct (decide (i = 0)) as [->|Hi0].
    - by rewrite decide_True by lia.
    - assert (i = 1) as -> by lia. by rewrite decide_False, decide_True by lia. }
  destruct (decide (n = 0%nat)) as [->|Hn0]; [cbn [stosw]; apply Hfirst; lia|].
  rewrite (u16_small (d + 2)) by lia. destruct (decide (i < 2)) as [Hi2|Hi2].
  - rewrite stosw_out by (unfold far; lia). by apply Hfirst.
  - replace (far seg d + i) with (far seg (d + 2) + (i - 2)) by (unfold far; lia).
    rewrite IH by lia. unfold half. by replace ((i - 2) mod 2) with (i mod 2) by lia.
Qed.

Lemma bytes_ok_stosw n seg c : forall d m, bytes_ok m -> bytes_ok (stosw n seg d c m).
Proof. induction n as [|n IH]; intros d m Hm; [done|]. apply IH. auto with mem. Qed.
End Row.
#[export] Hint Resolve bytes_ok_movsb_far bytes_ok_stosw : mem.

(** ** Rows at a stride *)

Section Rows.
Implicit Types (m : memory) (seg dst src stride a : Z).

(** The offset of byte [i] of row [k], and the rows being in the segment. *)
Definition in_row (base stride len k a : Z) : Prop := base + k * stride <= a < base + k * stride + len.
Definition in_rows (base stride len n a : Z) : Prop := exists k, 0 <= k < n /\ in_row base stride len k a.
Definition rows_fit (dst stride len n : Z) : Prop :=
  forall k, 0 <= k < n -> 0 <= dst + k * stride /\ dst + k * stride + len <= 65536.

Lemma rows_fit_head dst stride len n : rows_fit dst stride len n -> 0 < n -> 0 <= dst /\ dst + len <= 65536.
Proof. intros H Hn. specialize (H 0). lia. Qed.
Lemma rows_fit_next dst stride len n : rows_fit dst stride len (n + 1) -> rows_fit (dst + stride) stride len n.
Proof. intros H k Hk. specialize (H (k + 1)). rewrite Z.mul_add_distr_r in H. lia. Qed.

Lemma in_rows_next base stride len n a :
  ~ in_rows base stride len (n + 1) a -> ~ in_rows (base + stride) stride len n a.
Proof. intros Hn (k & Hk & Ha). apply Hn. exists (k + 1). unfold in_row in *. lia. Qed.
Lemma not_in_head base stride len n a : 0 < n -> ~ in_rows base stride len n a -> a < base \/ base + len <= a.
Proof. intros Hn Ha. destruct (Z_lt_dec a base), (Z_le_dec (base + len) a); [by left|by left|by right|].
  destruct Ha. exists 0. unfold in_row. lia. Qed.

(** Rows a stride apart do not meet. *)
Lemma rows_apart base stride len k k' i i' : 0 <= len <= Z.abs stride -> k <> k' -> 0 <= i < len -> 0 <= i' < len ->
  base + k * stride + i <> base + k' * stride + i'.
Proof.
  intros Hl Hk Hi Hi' He. assert (Hd : (k - k') * stride = i' - i) by lia.
  apply (f_equal Z.abs) in Hd. rewrite Z.abs_mul in Hd.
  assert (Hk1 : 1 <= Z.abs (k - k')) by lia. assert (Hi1 : Z.abs (i' - i) < Z.abs stride) by lia.
  pose proof (Z.abs_nonneg (i' - i)) as Hi0. revert Hd Hk1 Hi1 Hi0. generalize (Z.abs (k - k')) (Z.abs stride) (Z.abs (i' - i)). clear. intros a b c Hd Hk1 Hi1 Hi0. assert (1 * b <= a * b) by (apply Z.mul_le_mono_nonneg_r; lia). lia.
Qed.

Lemma memset16_stride_out n seg val len stride : 0 <= len -> len mod 2 = 0 -> len < 65536 -> forall dst m a,
  rows_fit dst stride len (Z.of_nat n) -> ~ in_rows (far seg dst) stride len (Z.of_nat n) a ->
  read8 (memset16_stride_loop n seg dst val len stride m) a = read8 m a.
Proof.
  intros Hl Heven Hl16. induction n as [|n IH]; intros dst m a Hfit Ha; [done|]. cbn [memset16_stride_loop].
  pose proof (rows_fit_head _ _ _ (Z.of_nat (S n)) Hfit ltac:(lia)) as [H0 H1].
  pose proof (not_in_head _ _ _ (Z.of_nat (S n)) _ ltac:(lia) Ha) as Hh.
  replace (Z.of_nat (S n)) with (Z.of_nat n + 1) in * by lia.
  apply in_rows_next in Ha. rewrite <- far_add in Ha. rewrite IH by (done || by apply rows_fit_next).
  unfold memset16_far. destruct (decide (len = 0)) as [->|Hl0]; [done|].
  rewrite !u16_small by lia. rewrite stosw_out by lia. done.
Qed.

Lemma memset16_stride_in n seg val len stride : 0 <= len <= Z.abs stride -> len mod 2 = 0 -> len < 65536 -> forall dst m k i,
  rows_fit dst stride len (Z.of_nat n) -> 0 <= k < Z.of_nat n -> 0 <= i < len ->
  read8 (memset16_stride_loop n seg dst val len stride m) (far seg dst + k * stride + i) = half val i.
Proof.
  intros Hl Heven Hl16. induction n as [|n IH]; intros dst m k i Hfit Hk Hi; [lia|]. cbn [memset16_stride_loop].
  pose proof (rows_fit_head _ _ _ (Z.of_nat (S n)) Hfit ltac:(lia)) as [H0 H1].
  replace (Z.of_nat (S n)) with (Z.of_nat n + 1) in * by lia.
  destruct (decide (k = 0)) as [->|Hk0].
  - rewrite memset16_stride_out by (lia || (by apply rows_fit_next) || (intros (k & Hk' & Ha); rewrite far_add in Ha;
      unfold in_row in Ha;
      eapply (rows_apart (far seg dst) stride len 0 (k + 1) i (far seg dst + 0 * stride + i - (far seg dst + stride + k * stride))); lia)).
    unfold memset16_far. rewrite !u16_small by lia. replace (far seg dst + 0 * stride + i) with (far seg dst + i) by lia.
    apply stosw_in; lia.
  - replace (far seg dst + k * stride + i) with (far seg (dst + stride) + (k - 1) * stride + i) by (rewrite far_add; lia).
    apply IH; [by apply rows_fit_next|lia|done].
Qed.

Lemma bytes_ok_memset16_stride n seg val len stride : forall dst m, bytes_ok m ->
  bytes_ok (memset16_stride_loop n seg dst val len stride m).
Proof. induction n as [|n IH]; intros dst m Hm; [done|]. apply IH. unfold memset16_far. auto with mem. Qed.

Lemma copy_lines_out n seg len stride : 0 <= len < 65536 -> forall dst src m a,
  rows_fit dst stride len (Z.of_nat n) -> ~ in_rows (far seg dst) stride len (Z.of_nat n) a ->
  read8 (copy_lines n seg dst src len stride m) a = read8 m a.
Proof.
  intros Hl. induction n as [|n IH]; intros dst src m a Hfit Ha; [done|]. cbn [copy_lines].
  pose proof (rows_fit_head _ _ _ (Z.of_nat (S n)) Hfit ltac:(lia)) as [H0 H1].
  pose proof (not_in_head _ _ _ (Z.of_nat (S n)) _ ltac:(lia) Ha) as Hh.
  replace (Z.of_nat (S n)) with (Z.of_nat n + 1) in * by lia.
  apply in_rows_next in Ha. rewrite <- far_add in Ha. rewrite IH by (done || by apply rows_fit_next).
  unfold memcpy_far. destruct (decide (len = 0)) as [->|Hl0]; [done|].
  rewrite (u16_small len), (u16_small dst) by lia. apply movsb_far_out; lia.
Qed.

Lemma bytes_ok_copy_lines n seg len stride : forall dst src m, bytes_ok m ->
  bytes_ok (copy_lines n seg dst src len stride m).
Proof. induction n as [|n IH]; intros dst src m Hm; [done|]. apply IH. unfold memcpy_far. auto with mem. Qed.

(** Copying towards the rows that were read already: [L] rows ahead. *)
Lemma copy_lines_in n seg len stride L : 0 <= len <= Z.abs stride -> len < 65536 -> 1 <= L -> forall dst m k i,
  rows_fit dst stride len (Z.of_nat n) -> rows_fit (dst + L * stride) stride len (Z.of_nat n) -> bytes_ok m ->
  0 <= k < Z.of_nat n -> 0 <= i < len ->
  read8 (copy_lines n seg dst (dst + L * stride) len stride m) (far seg dst + k * stride + i) =
  read8 m (far seg dst + (k + L) * stride + i).
Proof.
  intros Hl Hl16 HL. induction n as [|n IH]; intros dst m k i Hfit Hfits Hm Hk Hi; [lia|]. cbn [copy_lines].
  pose proof (rows_fit_head _ _ _ (Z.of_nat (S n)) Hfit ltac:(lia)) as [H0 H1].
  pose proof (rows_fit_head _ _ _ (Z.of_nat (S n)) Hfits ltac:(lia)) as [H2 H3].
  replace (Z.of_nat (S n)) with (Z.of_nat n + 1) in * by lia. unfold memcpy_far.
  rewrite !(u16_small len), !(u16_small dst), !(u16_small (dst + L * stride)) by lia.
  destruct (decide (k = 0)) as [->|Hk0].
  - rewrite copy_lines_out by (lia || (by apply rows_fit_next) || (intros (k & Hk' & Ha); rewrite far_add in Ha;
      unfold in_row in Ha;
      eapply (rows_apart (far seg dst) stride len 0 (k + 1) i (far seg dst + 0 * stride + i - (far seg dst + stride + k * stride))); lia)).
    replace (far seg dst + 0 * stride + i) with (far seg dst + i) by lia.
    rewrite movsb_far_in by (done || nia). f_equal. rewrite far_add. lia.
  - replace (dst + L * stride + stride) with (dst + stride + L * stride) by lia.
    replace (far seg dst + k * stride + i) with (far seg (dst + stride) + (k - 1) * stride + i) by (rewrite far_add; lia).
    rewrite IH; [|by apply rows_fit_next| |auto with mem|lia|done].
    2: { apply rows_fit_next in Hfits. by replace (dst + stride + L * stride) with (dst + L * stride + stride) by lia. }
    rewrite movsb_far_out by (rewrite ?far_add; nia). f_equal. rewrite far_add. lia.
Qed.

(** Rows read in the other order. *)
Lemma rows_fit_rev dst stride len n : rows_fit dst stride len n -> rows_fit (dst + stride * (n - 1)) (- stride) len n.
Proof. intros H k Hk. specialize (H (n - 1 - k)). lia. Qed.
Lemma in_rows_rev base stride len n a : in_rows (base + stride * (n - 1)) (- stride) len n a -> in_rows base stride len n a.
Proof. intros (k & Hk & Ha). exists (n - 1 - k). unfold in_row in *. lia. Qed.

Lemma memmove_stride_spec seg dst L len stride n m :
  0 <= n -> 0 < stride -> 0 <= len <= stride -> len < 65536 -> L <> 0 -> bytes_ok m ->
  rows_fit dst stride len n -> rows_fit (dst + L * stride) stride len n ->
  let m' := memmove_stride seg dst (dst + L * stride) len stride n m in
  (forall k i, 0 <= k < n -> 0 <= i < len ->
     read8 m' (far seg dst + k * stride + i) = read8 m (far seg dst + (k + L) * stride + i)) /\
  (forall a, ~ in_rows (far seg dst) stride len n a -> read8 m' a = read8 m a) /\ bytes_ok m'.
Proof.
  intros Hn Hst Hl Hl16 HL Hm Hd Hs m'. subst m'. unfold memmove_stride.
  destruct (decide (n = 0)) as [->|Hn0]; [by case_match; split_and!; auto; intros; lia|].
  pose proof (rows_fit_head _ _ _ n Hd ltac:(lia)) as [H0 H1].
  pose proof (rows_fit_head _ _ _ n Hs ltac:(lia)) as [H2 H3].
  rewrite !u32_small by lia. destruct (Z.ltb_spec (dst + L * stride) dst) as [Hlt|Hge].
  - assert (HL' : 1 <= - L) by nia.
    apply rows_fit_rev in Hd, Hs.
    replace (dst + L * stride + stride * (n - 1)) with (dst + stride * (n - 1) + (- L) * (- stride)) in * by lia.
    split_and!; [intros k i Hk Hi| |by auto using bytes_ok_copy_lines, bytes_ok_memset16_stride].
    + replace (far seg dst + k * stride + i) with (far seg (dst + stride * (n - 1)) + (n - 1 - k) * (- stride) + i)
        by (rewrite far_add; lia).
      rewrite copy_lines_in by (rewrite ?Z2Nat.id by lia; done || lia). f_equal. rewrite far_add. lia.
    + intros a Ha. apply copy_lines_out; rewrite ?Z2Nat.id by lia; [lia|done|].
      contradict Ha. rewrite far_add in Ha. by apply in_rows_rev.
  - assert (HL' : 1 <= L) by nia.
    split_and!; [intros k i Hk Hi| |by auto using bytes_ok_copy_lines, bytes_ok_memset16_stride].
    + apply copy_lines_in; rewrite ?Z2Nat.id by lia; done || lia.
    + intros a Ha. apply copy_lines_out; rewrite ?Z2Nat.id by lia; done || lia.
Qed.

Lemma memset16_stride_spec seg dst val len stride n m :
  0 <= n -> 0 <= len <= stride -> len mod 2 = 0 -> len < 65536 -> bytes_ok m -> rows_fit dst stride len n ->
  let m' := memset16_stride seg dst val len stride n m in
  (forall k i, 0 <= k < n -> 0 <= i < len -> read8 m' (far seg dst + k * stride + i) = half val i) /\
  (forall a, ~ in_rows (far seg dst) stride len n a -> read8 m' a = read8 m a) /\ bytes_ok m'.
Proof.
  intros Hn Hl He Hl16 Hm Hd m'. subst m'. unfold memset16_stride. split_and!; [| |by auto using bytes_ok_copy_lines, bytes_ok_memset16_stride].
  - intros k i Hk Hi. apply memset16_stride_in; rewrite ?Z2Nat.id by lia; done || lia.
  - intros a Ha. apply memset16_stride_out; rewrite ?Z2Nat.id by lia; done || lia.
Qed.
End Rows.
#[export] Hint Resolve bytes_ok_memset16_stride bytes_ok_copy_lines : mem.

(** ** The screen of a text mode *)

(** The segment of the mode, the size of the screen and its page. *)
Record console := Console { c_seg : Z; c_cols : Z; c_rows : Z; c_page : Z; c_pagesize : Z }.
Definition console_ok (c : console) : Prop :=
  0x60 <= c_seg c /\ 1 <= c_cols c <= 255 /\ 1 <= c_rows c <= 255 /\ 0 <= c_page c <= 7 /\ 0 <= c_pagesize c /\
  c_page c * c_pagesize c + c_rows c * (c_cols c * 2) <= 65536.
Definition c_stride (c : console) : Z := c_cols c * 2.
Definition c_off (c : console) (x y : Z) : Z := c_page c * c_pagesize c + y * c_stride c + x * 2.
Definition cell_addr (c : console) (x y : Z) : Z := far (c_seg c) (c_off c x y).

Definition word (ca : carattr) : Z := Z.lor (Z.shiftl (if ca_use_attr ca then ca_attr ca else 0x07) 8) (ca_car ca).
Lemma half_word ca i : 0 <= ca_car ca < 2 ^ 8 -> 0 <= ca_attr ca < 2 ^ 8 ->
  half (word ca) i = if i mod 2 =? 0 then ca_car ca else if ca_use_attr ca then ca_attr ca else 0x07.
Proof.
  intros Hc Ha. unfold half, word. rewrite Z.shiftl_mul_pow2 by lia. rewrite lor_add_shifted by lia.
  destruct (ca_use_attr ca), (i mod 2 =? 0); unfold u8; lia.
Qed.

(** ** Windows *)

Section Windows.
Implicit Types (m : memory) (c : console).

(** Nothing but the positions of the cursor changes in the BIOS data area. *)
Definition bda_kept (m m' : memory) : Prop :=
  forall a, 0x400 <= a < 0x450 \/ 0x460 <= a < 0x500 -> read8 m' a = read8 m a.

Lemma bda_kept_trans m1 m2 m3 : bda_kept m1 m2 -> bda_kept m2 m3 -> bda_kept m1 m3.
Proof. intros H12 H23 a Ha. by rewrite H23, H12. Qed.

(** A window on the screen, and the bytes of its rows. *)
Definition on_screen (c : console) (x y w h : Z) : Prop :=
  0 <= x /\ 0 <= y /\ 0 <= w /\ 0 <= h /\ x + w <= c_cols c /\ y + h <= c_rows c.
Definition in_window (c : console) (x y w h a : Z) : Prop :=
  in_rows (cell_addr c x y) (c_stride c) (w * 2) h a.

Lemma c_off_row c x y k : c_off c x (y + k) = c_off c x y + k * c_stride c.
Proof. unfold c_off. lia. Qed.
Lemma cell_addr_row c x y k : cell_addr c x (y + k) = cell_addr c x y + k * c_stride c.
Proof. unfold cell_addr. by rewrite c_off_row, far_add. Qed.

Lemma window_end c x y : console_ok c -> 0 <= x <= c_cols c -> 0 <= y -> y < c_rows c ->
  0 <= c_off c x y <= 65536.
Proof.
  intros (Hseg & Hcols & Hrows & Hpage & Hps & Hfit) Hx Hy Hyr. unfold c_off, c_stride.
  assert ((y + 1) * (c_cols c * 2) <= c_rows c * (c_cols c * 2)) by (apply Z.mul_le_mono_nonneg_r; lia).
  assert (0 <= y * (c_cols c * 2)) by (apply Z.mul_nonneg_nonneg; lia).
  assert (0 <= c_page c * c_pagesize c) by (apply Z.mul_nonneg_nonneg; lia). lia.
Qed.

Lemma window_fits c x y w h : console_ok c -> on_screen c x y w h -> rows_fit (c_off c x y) (c_stride c) (w * 2) h.
Proof.
  intros Hc (Hx & Hy & Hw & Hh & Hxw & Hyh) k Hk. rewrite <- c_off_row.
  pose proof (window_end c x (y + k) Hc ltac:(lia) ltac:(lia) ltac:(lia)).
  pose proof (window_end c (x + w) (y + k) Hc ltac:(lia) ltac:(lia) ltac:(lia)).
  assert (c_off c (x + w) (y + k) = c_off c x (y + k) + w * 2) by (unfold c_off; lia). lia.
Qed.

Lemma window_above c x y w h a : console_ok c -> on_screen c x y w h -> in_window c x y w h a -> 0x600 <= a.
Proof.
  intros Hc Hon (k & Hk & Ha). pose proof (window_fits c x y w h Hc Hon k Hk).
  destruct Hc as (Hseg & _). unfold in_row, cell_addr, far in Ha. rewrite Z.shiftl_mul_pow2 in Ha by lia. lia.
Qed.

Lemma bda_kept_window c x y w h m m' : console_ok c -> on_screen c x y w h ->
  (forall a, ~ in_window c x y w h a -> read8 m' a = read8 m a) -> bda_kept m m'.
Proof.
  intros Hc Hon Hk a Ha. apply Hk. intros Hw. apply (window_above c x y w h a Hc Hon) in Hw. lia.
Qed.

(** What a window of the page holds after scrolling by [lines]. *)
Definition scrolled (c : console) (x y w h lines : Z) (ca : carattr) (m m' : memory) : Prop :=
  (forall k i, 0 <= k < h -> 0 <= i < w * 2 ->
     read8 m' (cell_addr c x y + k * c_stride c + i) =
     if negb (lines =? 0) && (0 <=? k + lines) && (k + lines <? h)
     then read8 m (cell_addr c x y + (k + lines) * c_stride c + i) else half (word ca) i) /\
  (forall a, ~ in_window c x y w h a -> read8 m' a = read8 m a) /\ bytes_ok m'.

(** Part of a window. *)
Lemma sub_window c x y w h k n a : 0 <= k -> k + n <= h -> in_window c x (y + k) w n a -> in_window c x y w h a.
Proof.
  intros Hk Hn (j & Hj & Ha). exists (k + j). split; [lia|]. unfold in_row in *. rewrite cell_addr_row in Ha. lia.
Qed.
Lemma other_rows c x y w k n j i : 0 <= x -> 0 <= w -> x + w <= c_cols c -> 0 <= j < k \/ k + n <= j -> 0 <= i < w * 2 ->
  ~ in_window c x (y + k) w n (cell_addr c x y + j * c_stride c + i).
Proof.
  intros Hx Hw Hc Hj Hi (l & Hl & Ha). unfold in_row in Ha. rewrite cell_addr_row in Ha.
  eapply (rows_apart (cell_addr c x y) (c_stride c) (w * 2) j (k + l) i
            (cell_addr c x y + j * c_stride c + i - (cell_addr c x y + (k + l) * c_stride c))); unfold c_stride in *; lia.
Qed.

(** Rows [k] to [k + n] take the rows [lines] ahead, and the others are filled. *)
Lemma move_then_fill c x y w h k n l p lines ca m :
  console_ok c -> on_screen c x y w h -> bytes_ok m ->
  0 <= ca_car ca < 2 ^ 8 -> 0 <= ca_attr ca < 2 ^ 8 ->
  lines <> 0 -> Z.abs lines <= h -> n = h - Z.abs lines -> p = Z.abs lines ->
  k = Z.max 0 (- lines) -> l = (if 0 <? lines then n else 0) ->
  let m1 := memmove_stride (c_seg c) (c_off c x (y + k)) (c_off c x (y + k) + lines * c_stride c) (w * 2) (c_stride c) n m in
  let m2 := memset16_stride (c_seg c) (c_off c x (y + l)) (word ca) (w * 2) (c_stride c) p m1 in
  bda_kept m m1 /\ bytes_ok m1 /\ scrolled c x y w h lines ca m m2.
Proof.
  intros Hc Hon Hm Hcar Hattr Hlines Hh -> -> -> -> m1 m2. set (k := Z.max 0 (- lines)) in *.
  set (n := h - Z.abs lines) in *. set (l := if 0 <? lines then n else 0) in *.
  pose proof Hon as (Hx & Hy & Hw & Hh0 & Hxw & Hyh).
  assert (Hst : 0 < c_stride c /\ w * 2 <= c_stride c /\ w * 2 < 65536) by (destruct Hc as (_ & ? & _); unfold c_stride; lia).
  assert (Hl : 0 <= l /\ l + Z.abs lines <= h) by (subst l; destruct (Z.ltb_spec 0 lines); lia).
  assert (Hon1 : on_screen c x (y + k) w n) by (unfold on_screen; lia).
  assert (Hon2 : on_screen c x (y + k + lines) w n) by (unfold on_screen; lia).
  assert (Hon3 : on_screen c x (y + l) w (Z.abs lines)) by (unfold on_screen; lia).
  assert (Hfit2 : rows_fit (c_off c x (y + k) + lines * c_stride c) (c_stride c) (w * 2) n)
    by (rewrite <- c_off_row; by apply window_fits).
  pose proof (memmove_stride_spec (c_seg c) (c_off c x (y + k)) lines (w * 2) (c_stride c) n m ltac:(lia) ltac:(lia)
    ltac:(lia) ltac:(lia) Hlines Hm (window_fits _ _ _ _ _ Hc Hon1) Hfit2) as (Hin1 & Hout1 & Hok1).
  fold m1 in Hin1, Hout1, Hok1.
  pose proof (memset16_stride_spec (c_seg c) (c_off c x (y + l)) (word ca) (w * 2) (c_stride c) (Z.abs lines) m1
    ltac:(lia) ltac:(lia) ltac:(lia) ltac:(lia) Hok1 (window_fits _ _ _ _ _ Hc Hon3)) as (Hin2 & Hout2 & Hok2).
  fold m2 in Hin2, Hout2, Hok2.
  split_and!; [exact (bda_kept_window _ _ _ _ _ _ _ Hc Hon1 Hout1)|done| ].
  assert (Hj : forall j i, 0 <= j < h -> 0 <= i < w * 2 ->
    read8 m2 (cell_addr c x y + j * c_stride c + i) =
    if (0 <=? j + lines) && (j + lines <? h) then read8 m (cell_addr c x y + (j + lines) * c_stride c + i) else half (word ca) i).
  { intros j i Hj Hi. destruct (decide (l <= j < l + Z.abs lines)) as [Hjl|Hjl].
    - replace (cell_addr c x y + j * c_stride c + i) with (cell_addr c x (y + l) + (j - l) * c_stride c + i)
        by (rewrite cell_addr_row; lia).
      unfold cell_addr at 1. rewrite Hin2 by lia.
      destruct (Z.leb_spec 0 (j + lines)), (Z.ltb_spec (j + lines) h); try done.
      exfalso. subst l. destruct (Z.ltb_spec 0 lines); lia.
    - rewrite Hout2 by (apply other_rows; lia).
      assert (0 <= j + lines < h /\ k <= j < k + n) as [Hjb Hjk] by (subst l; destruct (Z.ltb_spec 0 lines); lia).
      destruct (Z.leb_spec 0 (j + lines)), (Z.ltb_spec (j + lines) h); try lia. cbn [andb].
      replace (cell_addr c x y + j * c_stride c + i) with (far (c_seg c) (c_off c x (y + k)) + (j - k) * c_stride c + i)
        by (rewrite c_off_row; unfold cell_addr; rewrite far_add; lia).
      rewrite Hin1 by lia. f_equal. rewrite c_off_row, far_add. unfold cell_addr. lia. }
  split_and!; [|intros a Ha|done].
  - intros j i Hj' Hi. rewrite (proj2 (Z.eqb_neq lines 0)) by done. cbn [negb andb]. by apply Hj.
  - rewrite Hout2, Hout1; [done| |]; contradict Ha; eapply sub_window; try exact Ha; lia.
Qed.

Lemma c_off_range c x y : console_ok c -> 0 <= x <= 255 -> 0 <= y <= 255 -> c_off c x y < 2 ^ 32.
Proof.
  intros (Hseg & Hcols & Hrows & Hpage & Hps & Hfit) Hx Hy. unfold c_off, c_stride.
  assert (y * (c_cols c * 2) <= 255 * (c_cols c * 2)) by (apply Z.mul_le_mono_nonneg_r; lia).
  assert (0 <= c_rows c * (c_cols c * 2)) by (apply Z.mul_nonneg_nonneg; lia). lia.
Qed.

(** ** Cells *)

(** The character and the attribute. *)
Definition cell (c : console) (m : memory) (x y : Z) : Z * Z := (read8 m (cell_addr c x y), read8 m (cell_addr c x y + 1)).
Definition blank (ca : carattr) : Z * Z := (ca_car ca, if ca_use_attr ca then ca_attr ca else 0x07).

Lemma cell_in_window_at c x y x' y' : cell_addr c x' y' = cell_addr c x y + (y' - y) * c_stride c + (x' - x) * 2.
Proof. unfold cell_addr, far, c_off. lia. Qed.
Lemma cell_outside c x y w h x' y' b : 0 <= x' < c_cols c -> 0 <= b <= 1 -> 0 <= x -> x + w <= c_cols c ->
  ~ (x <= x' < x + w /\ y <= y' < y + h) -> ~ in_window c x y w h (cell_addr c x' y' + b).
Proof.
  intros Hx' Hb Hx Hw Hout (k & Hk & Ha). unfold in_row in Ha.
  assert (He : cell_addr c x y + k * c_stride c = cell_addr c 0 (y + k) + x * 2) by (unfold cell_addr, far, c_off; lia).
  assert (He' : cell_addr c x' y' = cell_addr c 0 (y + k) + (y' - (y + k)) * c_stride c + x' * 2)
    by (unfold cell_addr, far, c_off; lia).
  rewrite He in Ha. rewrite He' in Ha. destruct (decide (y' = y + k)) as [->|Hy].
  - assert ((y + k - (y + k)) * c_stride c = 0) as Hz by lia. rewrite Hz in Ha. lia.
  - eapply (rows_apart (cell_addr c 0 (y + k)) (c_stride c) (c_cols c * 2) (y' - (y + k)) 0 (x' * 2 + b)
      ((y' - (y + k)) * c_stride c + x' * 2 + b)); unfold c_stride in *; lia.
Qed.

Lemma scrolled_cells c x y w h lines ca m m' x' y' :
  on_screen c x y w h -> scrolled c x y w h lines ca m m' ->
  0 <= ca_car ca < 2 ^ 8 -> 0 <= ca_attr ca < 2 ^ 8 -> 0 <= x' < c_cols c -> 0 <= y' < c_rows c ->
  cell c m' x' y' =
  if (x <=? x') && (x' <? x + w) && ((y <=? y') && (y' <? y + h)) then
    if negb (lines =? 0) && (y <=? y' + lines) && (y' + lines <? y + h) then cell c m x' (y' + lines) else blank ca
  else cell c m x' y'.
Proof.
  intros (Hx & Hy & Hw & Hh0 & Hxw & Hyh) (Hin & Hout & _) Hcar Hattr Hx' Hy'. unfold cell.
  destruct ((x <=? x') && (x' <? x + w) && ((y <=? y') && (y' <? y + h))) eqn:Hwin.
  - assert (Hb : x <= x' < x + w /\ y <= y' < y + h) by lia.
    rewrite (cell_in_window_at c x y x' y'), (cell_in_window_at c x y x' (y' + lines)).
    rewrite <- !(Z.add_assoc _ ((x' - x) * 2) 1), !Hin, !half_word by lia.
    replace ((x' - x) * 2 mod 2) with 0 by lia. replace (((x' - x) * 2 + 1) mod 2) with 1 by lia. cbn [Z.eqb].
    replace (y' + lines - y) with (y' - y + lines) by lia.
    replace (negb (lines =? 0) && (0 <=? y' - y + lines) && (y' - y + lines <? h))
      with (negb (lines =? 0) && (y <=? y' + lines) && (y' + lines <? y + h)) by lia.
    by destruct (negb (lines =? 0) && (y <=? y' + lines) && (y' + lines <? y + h)).
  - assert (Hb : ~ (x <= x' < x + w /\ y <= y' < y + h)) by lia.
    f_equal; [rewrite <- (Z.add_0_r (cell_addr c x' y'))|]; apply Hout; apply cell_outside; lia || done.
Qed.
End Windows.

(** ** The services *)

Section Console.
Context {W : Type} `{Env W} `{Ports W}.
Context (CONFIG_VGA_STDVGA_PORTS CONFIG_VGA_EMULATE_TEXT : bool).
Context (mode_at : Z -> vgamode_s).
Context (vgahw_get_linelength vgahw_get_displaystart : vgamode_s -> M W Z).
Context (VBE_framebuffer SS gdt data_fl : Z).
Implicit Types (s : machine W) (m : memory) (c : console).

Abbreviation vgafb_move_chars := (VgaFb.vgafb_move_chars CONFIG_VGA_STDVGA_PORTS mode_at
  vgahw_get_linelength vgahw_get_displaystart VBE_framebuffer SS gdt data_fl).
Abbreviation vgafb_clear_chars := (VgaFb.vgafb_clear_chars CONFIG_VGA_STDVGA_PORTS CONFIG_VGA_EMULATE_TEXT mode_at
  vgahw_get_linelength vgahw_get_displaystart VBE_framebuffer SS gdt data_fl).
Abbreviation vgafb_scroll := (VgaFb.vgafb_scroll CONFIG_VGA_STDVGA_PORTS CONFIG_VGA_EMULATE_TEXT mode_at
  vgahw_get_linelength vgahw_get_displaystart VBE_framebuffer SS gdt data_fl).

(** The BIOS data area describes the screen. *)
Record text_mode (c : console) (m : memory) : Prop := {
  tm_mode : read16 m VBDA.vgamode_offset <> 0;
  tm_text : memmodel (mode_at (read16 m VBDA.vgamode_offset)) = MM_TEXT;
  tm_seg : sstart (mode_at (read16 m VBDA.vgamode_offset)) = c_seg c;
  tm_cols : read16 m VBDA.video_cols = c_cols c;
  tm_rows : read8 m VBDA.video_rows = c_rows c - 1;
  tm_page : read8 m VBDA.video_page = c_page c;
  tm_pagesize : read16 m VBDA.video_pagesize = c_pagesize c;
  tm_flags : Z.land (read8 m VBDA.flags) BF_EMULATE_TEXT = 0;
  tm_bytes : bytes_ok m }.

Lemma text_mode_kept c m m' : text_mode c m -> bda_kept m m' -> bytes_ok m' -> text_mode c m'.
Proof.
  intros [H1 H2 H3 H4 H5 H6 H7 H8 H9] Hk Hm'.
  assert (H16 : forall a, 0x400 <= a < 0x44f \/ 0x460 <= a < 0x4ff -> read16 m' a = read16 m a).
  { intros a Ha. unfold read16. by rewrite !Hk by lia. }
  constructor; rewrite ?H16 by (unfold VBDA.vgamode_offset, VBDA.video_cols, VBDA.video_pagesize, bda; lia);
    rewrite ?Hk by (unfold VBDA.video_rows, VBDA.video_page, VBDA.flags, bda; lia); done.
Qed.

Lemma get_current_mode_text c s : text_mode c (mc_mem s) ->
  get_current_mode mode_at s = Some (Some (mode_at (read16 (mc_mem s) VBDA.vgamode_offset)), s).
Proof. intros [H1 _ _ _ _ _ _ _ _]. unfold get_current_mode, bind, get16, ret. by apply Z.eqb_neq in H1 as ->. Qed.

Lemma text_address_text c s x y : console_ok c -> text_mode c (mc_mem s) -> 0 <= x -> 0 <= y -> c_off c x y < 2 ^ 32 ->
  text_address (CursorPos x y (c_page c)) s = Some (c_off c x y, s).
Proof.
  intros (Hseg & Hcols & Hrows & Hpage & Hps & Hfit) Ht Hx Hy Ho. unfold text_address, bind, get16, ret.
  rewrite (tm_cols _ _ Ht), (tm_pagesize _ _ Ht). unfold c_off, c_stride in *. cbn [cp_x cp_y cp_page].
  rewrite u32_small by nia. do 2 f_equal. lia.
Qed.

Lemma vgafb_move_chars_text c s x y w h lines : console_ok c -> text_mode c (mc_mem s) -> 0 <= x -> 0 <= y ->
  c_off c x y < 2 ^ 32 ->
  vgafb_move_chars (CursorPos x y (c_page c)) (CursorPos w h 0) lines s =
  Some (tt, Machine (memmove_stride (c_seg c) (c_off c x y) (c_off c x y + lines * c_stride c) (w * 2) (c_stride c) h
                       (mc_mem s)) (mc_world s)).
Proof.
  intros Hc Ht Hx Hy Ho. unfold vgafb_move_chars. erewrite bind_some by by eapply get_current_mode_text.
  cbv beta iota. rewrite (tm_text _ _ Ht). cbn [negb Z.eqb MM_TEXT]. erewrite bind_some by reflexivity.
  rewrite (tm_cols _ _ Ht). erewrite bind_some by by eapply text_address_text.
  unfold upd_mem. by rewrite (tm_seg _ _ Ht).
Qed.

Lemma vgafb_clear_chars_text c s x y w h ca : console_ok c -> text_mode c (mc_mem s) -> 0 <= x -> 0 <= y ->
  c_off c x y < 2 ^ 32 ->
  vgafb_clear_chars (CursorPos x y (c_page c)) (CursorPos w h 0) ca s =
  Some (tt, Machine (memset16_stride (c_seg c) (c_off c x y) (word ca) (w * 2) (c_stride c) h (mc_mem s)) (mc_world s)).
Proof.
  intros Hc Ht Hx Hy Ho. unfold vgafb_clear_chars. erewrite bind_some by by eapply get_current_mode_text.
  cbv beta iota. rewrite (tm_text _ _ Ht). cbn [negb Z.eqb MM_TEXT]. erewrite bind_some by reflexivity.
  rewrite (tm_cols _ _ Ht). erewrite bind_some by by eapply text_address_text.
  unfold upd_mem. by rewrite (tm_seg _ _ Ht).
Qed.


Lemma vgafb_scroll_text c s x y w h lines ca :
  console_ok c -> text_mode c (mc_mem s) -> on_screen c x y w h -> Z.abs lines <= h ->
  0 <= ca_car ca < 2 ^ 8 -> 0 <= ca_attr ca < 2 ^ 8 ->
  exists m', vgafb_scroll (CursorPos x y (c_page c)) (CursorPos w h 0) lines ca s = Some (tt, Machine m' (mc_world s)) /\
    scrolled c x y w h lines ca (mc_mem s) m'.
Proof.
  intros Hc Ht Hon Hl Hcar Hattr. pose proof Hon as (Hx & Hy & Hw & Hh0 & Hxw & Hyh).
  assert (Hcr : c_cols c <= 255 /\ c_rows c <= 255) by (destruct Hc as (_ & ? & ? & _); lia).
  unfold vgafb_scroll. destruct (Z.eqb_spec lines 0) as [->|Hl0].
  - rewrite (vgafb_clear_chars_text c) by (done || apply c_off_range; lia || done). eexists. split; [done|].
    pose proof (tm_bytes _ _ Ht) as Hm.
    pose proof (memset16_stride_spec (c_seg c) (c_off c x y) (word ca) (w * 2) (c_stride c) h (mc_mem s)
      ltac:(lia) ltac:(unfold c_stride; lia) ltac:(lia) ltac:(lia) Hm (window_fits _ _ _ _ _ Hc Hon)) as (Hin & Hout & Hok).
    split_and!; [|exact Hout|exact Hok]. intros k i Hk Hi. by apply Hin.
  - assert (Hgo : forall k n l p, n = h - Z.abs lines -> p = Z.abs lines -> k = Z.max 0 (- lines) ->
      l = (if 0 <? lines then n else 0) -> exists m',
        bind (vgafb_move_chars (CursorPos x (y + k) (c_page c)) (CursorPos w n 0) lines)
          (fun _ => vgafb_clear_chars (CursorPos x (y + l) (c_page c)) (CursorPos w p 0) ca) s =
        Some (tt, Machine m' (mc_world s)) /\ scrolled c x y w h lines ca (mc_mem s) m').
    { intros k n l p Hn Hp Hk Hll.
      destruct (move_then_fill c x y w h k n l p lines ca (mc_mem s) Hc Hon (tm_bytes _ _ Ht) Hcar Hattr Hl0 Hl Hn Hp Hk Hll)
        as (Hkept & Hok1 & Hscr).
      assert (0 <= l <= 255 - y) by (subst; destruct (Z.ltb_spec 0 lines); lia).
      erewrite bind_some by (apply vgafb_move_chars_text; [done..|lia|apply c_off_range; lia || done]).
      rewrite (vgafb_clear_chars_text c); [by eexists|done|by eapply text_mode_kept|lia..|apply c_off_range; lia || done]. }
    destruct (Z.ltb_spec 0 lines) as [Hpos|Hneg].
    + unfold set_y. cbn [cp_x cp_y cp_page]. rewrite !u8_small by lia.
      destruct (Hgo 0 (h - lines) (h - lines) lines) as (m' & Hm'); [lia..|].
      exists m'. by rewrite Z.add_0_r in Hm'.
    + unfold set_y. cbn [cp_x cp_y cp_page]. rewrite !u8_small by (rewrite ?u8_small by lia; lia).
      destruct (Hgo (- lines) (h + lines) 0 (- lines)) as (m' & Hm'); [lia..|].
      exists m'. rewrite Z.add_0_r in Hm'. replace (y - lines) with (y + - lines) by lia.
      by replace (y + - lines + lines) with y by lia.
Qed.

End Console.
