(* ===== verification/VgaScreen.v ===== *)
(** * INT 10h on a text screen

    An abstract terminal, and the refinement: AH=0Eh (teletype) moves it as
    described, AH=06h and AH=07h scroll a window of its cells. *)
From S2P Require Import Prelude Machine StringOps Bytes Pci StdVga VgaFb VgaBios VgaText.
Local Open Scope seabios_scope.

(** ** The terminal *)

Record terminal := Terminal { t_x : Z; t_y : Z; t_cell : Z -> Z -> Z * Z }.

(** Below the last row the screen moves up by one. *)
Definition feed (rows : Z) (t : terminal) : terminal :=
  if rows - 1 <? t_y t
  then Terminal (t_x t) (t_y t - 1) (fun x y => if y =? rows - 1 then (0x20, 0x07) else t_cell t x (y + 1))
  else t.
(** A character, its attribute or the one of the cell, and the cursor moves. *)
Definition type_char (cols : Z) (ca : carattr) (t : terminal) : terminal :=
  let cells x y := if (x =? t_x t) && (y =? t_y t)
                   then (ca_car ca, if ca_use_attr ca then ca_attr ca else snd (t_cell t x y)) else t_cell t x y in
  if t_x t + 1 =? cols then Terminal 0 (t_y t + 1) cells else Terminal (t_x t + 1) (t_y t) cells.
Definition BEL := 7.
Definition BS := 8.
Definition LF := 10.
Definition CR := 13.
(** What a character does before the screen moves. *)
Definition typed (cols : Z) (ca : carattr) (t : terminal) : terminal :=
  if ca_car ca =? BEL then t
  else if ca_car ca =? BS then Terminal (Z.max 0 (t_x t - 1)) (t_y t) (t_cell t)
  else if ca_car ca =? CR then Terminal 0 (t_y t) (t_cell t)
  else if ca_car ca =? LF then Terminal (t_x t) (t_y t + 1) (t_cell t)
  else type_char cols ca t.
Definition teletype (cols rows : Z) (ca : carattr) (t : terminal) : terminal := feed rows (typed cols ca t).

(** The cursor stays on the screen. *)
Definition cursor_ok (cols rows : Z) (t : terminal) : Prop := 0 <= t_x t < cols /\ 0 <= t_y t < rows.
Lemma teletype_cursor cols rows ca t : cursor_ok cols rows t -> cursor_ok cols rows (teletype cols rows ca t).
Proof.
  unfold cursor_ok, teletype, typed, type_char, feed. intros Ht.
  repeat (case_match; cbn [t_x t_y] in *); lia.
Qed.

Section Screen.
Context {W : Type} `{Env W} `{Ports W}.
Context (CONFIG_VGA_STDVGA_PORTS CONFIG_VGA_EMULATE_TEXT CONFIG_VGA_ALLOCATE_EXTRA_STACK CONFIG_VGA_CIRRUS CONFIG_VGA_VBE : bool).
Context (mode_at : Z -> vgamode_s).
Context (vgahw_get_linelength vgahw_get_displaystart : vgamode_s -> M W Z).
Context (VBE_framebuffer SS gdt data_fl : Z).
Context (vgahw_find_mode : Z -> M W Z) (vgahw_set_mode : Z -> Z -> M W Z).
Context (vgahw_set_displaystart : vgamode_s -> Z -> M W Z) (vgahw_save_restore : Z -> Z -> Z -> M W Z).
Context (global_seg vgafont8 vgafont14 vgafont16 vgafont14alt vgafont16alt static_functionality rgb : Z).
Context (clext_1012 handle_104f : bregs -> M W bregs).
Implicit Types (s : machine W) (m : memory) (c : console) (t : terminal).

Abbreviation handle_10 := (VgaBios.handle_10 CONFIG_VGA_STDVGA_PORTS CONFIG_VGA_EMULATE_TEXT CONFIG_VGA_ALLOCATE_EXTRA_STACK
  CONFIG_VGA_CIRRUS CONFIG_VGA_VBE mode_at vgahw_get_linelength vgahw_get_displaystart VBE_framebuffer SS gdt data_fl
  vgahw_find_mode vgahw_set_mode vgahw_set_displaystart vgahw_save_restore global_seg vgafont8 vgafont14 vgafont16
  vgafont14alt vgafont16alt static_functionality rgb clext_1012 handle_104f).
Abbreviation vgafb_write_char := (VgaFb.vgafb_write_char CONFIG_VGA_STDVGA_PORTS CONFIG_VGA_EMULATE_TEXT mode_at
  vgahw_get_linelength vgahw_get_displaystart VBE_framebuffer SS gdt data_fl).
Abbreviation write_char := (VgaBios.write_char CONFIG_VGA_STDVGA_PORTS CONFIG_VGA_EMULATE_TEXT mode_at
  vgahw_get_linelength vgahw_get_displaystart VBE_framebuffer SS gdt data_fl).
Abbreviation write_teletype := (VgaBios.write_teletype CONFIG_VGA_STDVGA_PORTS CONFIG_VGA_EMULATE_TEXT mode_at
  vgahw_get_linelength vgahw_get_displaystart VBE_framebuffer SS gdt data_fl).
Abbreviation text_mode := (VgaText.text_mode mode_at).

(** The bytes of the page shown. *)
Definition on_page (c : console) (a : Z) : Prop := cell_addr c 0 0 <= a < cell_addr c 0 (c_rows c).
Lemma window_on_page c x y w h a : console_ok c -> on_screen c x y w h -> in_window c x y w h a -> on_page c a.
Proof.
  intros (_ & Hcols & _) (Hx & Hy & Hw & Hh & Hxw & Hyh) (k & Hk & Ha). unfold in_row in Ha. unfold on_page.
  assert (He : cell_addr c x y + k * c_stride c = cell_addr c 0 0 + (y + k) * c_stride c + x * 2)
    by (unfold cell_addr, far, c_off; lia).
  assert (He' : cell_addr c 0 (c_rows c) = cell_addr c 0 0 + c_rows c * c_stride c) by (unfold cell_addr, far, c_off; lia).
  assert (0 <= (y + k) * c_stride c) by (unfold c_stride; apply Z.mul_nonneg_nonneg; lia).
  assert ((y + k + 1) * c_stride c <= c_rows c * c_stride c) by (unfold c_stride; apply Z.mul_le_mono_nonneg_r; lia).
  unfold c_stride in *. lia.
Qed.

Lemma no_swcursor (regs : bregs) c s : text_mode c (mc_mem s) ->
  swcursor_pre_handle10 CONFIG_VGA_STDVGA_PORTS CONFIG_VGA_EMULATE_TEXT CONFIG_VGA_VBE mode_at vgahw_get_linelength
    vgahw_get_displaystart VBE_framebuffer SS gdt data_fl regs s = Some (tt, s).
Proof.
  intros Ht. unfold swcursor_pre_handle10, vga_emulate_text, bind, get8, ret. rewrite (tm_flags _ _ _ Ht).
  by rewrite andb_false_r.
Qed.

(** ** AH=06h and AH=07h *)

(** The last row and column are limited to the screen. *)
Definition win_right (c : console) (regs : bregs) : Z := Z.min (r_dl regs) (c_cols c - 1).
Definition win_bottom (c : console) (regs : bregs) : Z := Z.min (r_dh regs) (c_rows c - 1).
(** Up for AH=06h; 0, or more than there are rows, clears the window. *)
Definition scroll_lines (c : console) (regs : bregs) : Z :=
  if win_bottom c regs - r_ch regs + 1 <=? r_al regs then 0 else if r_ah regs =? 6 then r_al regs else - r_al regs.
Definition scroll_spec (c : console) (regs : bregs) (m : memory) (x y : Z) : Z * Z :=
  let n := scroll_lines c regs in
  if (r_cl regs <=? x) && (x <=? win_right c regs) && ((r_ch regs <=? y) && (y <=? win_bottom c regs)) then
    if negb (n =? 0) && (r_ch regs <=? y + n) && (y + n <=? win_bottom c regs) then cell c m x (y + n) else (0x20, r_bh regs)
  else cell c m x y.

Lemma reg8_range r : 0 <= low8 r < 2 ^ 8 /\ 0 <= high8 r < 2 ^ 8.
Proof. unfold low8, high8. lia. Qed.

Lemma verify_scroll_text c s regs dir :
  console_ok c -> text_mode c (mc_mem s) -> dir = (if r_ah regs =? 6 then 1 else -1) ->
  exists m', verify_scroll CONFIG_VGA_STDVGA_PORTS CONFIG_VGA_EMULATE_TEXT mode_at vgahw_get_linelength
      vgahw_get_displaystart VBE_framebuffer SS gdt data_fl regs dir s = Some (tt, Machine m' (mc_world s)) /\
    (forall x y, 0 <= x < c_cols c -> 0 <= y < c_rows c -> cell c m' x y = scroll_spec c regs (mc_mem s) x y) /\
    (forall a, ~ on_page c a -> read8 m' a = read8 (mc_mem s) a).
Proof.
  intros Hc Ht Hdir. pose proof Hc as (_ & Hcols & Hrows & _).
  destruct (reg8_range (r_ecx regs)) as [Hcl Hch]. destruct (reg8_range (r_edx regs)) as [Hdl Hdh].
  pose proof (proj1 (reg8_range (r_eax regs))) as Hal. pose proof (proj2 (reg8_range (r_ebx regs))) as Hbh.
  fold (r_cl regs) (r_ch regs) (r_dl regs) (r_dh regs) (r_al regs) (r_bh regs) in *.
  unfold verify_scroll. erewrite bind_some by reflexivity. cbv beta. rewrite (tm_rows _ _ _ Ht).
  erewrite bind_some by reflexivity. cbv beta zeta. rewrite (tm_cols _ _ _ Ht), Z.sub_add.
  assert (Hb : (if c_rows c <=? r_dh regs then c_rows c - 1 else r_dh regs) = win_bottom c regs)
    by (unfold win_bottom; destruct (Z.leb_spec (c_rows c) (r_dh regs)); lia).
  assert (Hr : (if c_cols c <=? r_dl regs then u8 (c_cols c - 1) else r_dl regs) = win_right c regs)
    by (unfold win_right; rewrite u8_small by lia; destruct (Z.leb_spec (c_cols c) (r_dl regs)); lia).
  rewrite Hb, Hr. unfold scroll_spec.
  assert (Hrb : win_right c regs <= c_cols c - 1 /\ win_bottom c regs <= c_rows c - 1) by (unfold win_right, win_bottom; lia).
  destruct (Z.leb_spec (win_right c regs - r_cl regs + 1) 0) as [Hw|Hw].
  { exists (mc_mem s). cbn [orb]. split_and!; [by destruct s| |done]. intros x y Hx Hy.
    by replace ((r_cl regs <=? x) && (x <=? win_right c regs)) with false by lia. }
  destruct (Z.leb_spec (win_bottom c regs - r_ch regs + 1) 0) as [Hh|Hh].
  { exists (mc_mem s). cbn [orb]. split_and!; [by destruct s| |done]. intros x y Hx Hy.
    replace ((r_ch regs <=? y) && (y <=? win_bottom c regs)) with false by lia. by rewrite andb_false_r. }
  cbn [orb]. erewrite bind_some by reflexivity. cbv beta. rewrite (tm_page _ _ _ Ht), !u8_small by lia.
  assert (Hl : (if win_bottom c regs - r_ch regs + 1 <=? r_al regs then 0 else r_al regs) * dir = scroll_lines c regs)
    by (unfold scroll_lines; subst dir; repeat case_match; lia).
  rewrite Hl. assert (Hla : Z.abs (scroll_lines c regs) <= win_bottom c regs - r_ch regs + 1)
    by (unfold scroll_lines; repeat case_match; lia).
  assert (Hon : on_screen c (r_cl regs) (r_ch regs) (win_right c regs - r_cl regs + 1) (win_bottom c regs - r_ch regs + 1))
    by (unfold on_screen; lia).
  destruct (vgafb_scroll_text CONFIG_VGA_STDVGA_PORTS CONFIG_VGA_EMULATE_TEXT mode_at vgahw_get_linelength
    vgahw_get_displaystart VBE_framebuffer SS gdt data_fl c s _ _ _ _ (scroll_lines c regs) (CarAttr 0x20 (r_bh regs) true)
    Hc Ht Hon Hla ltac:(done) Hbh) as (m' & Hrun & Hscr).
  exists m'. split_and!; [exact Hrun| |].
  - intros x y Hx Hy. rewrite (scrolled_cells c _ _ _ _ _ _ _ _ x y Hon Hscr) by (cbn; lia). cbn [blank ca_car ca_attr ca_use_attr].
    generalize (cell c (mc_mem s) x y) (cell c (mc_mem s) x (y + scroll_lines c regs)). intros p q.
    replace (x <? r_cl regs + (win_right c regs - r_cl regs + 1)) with (x <=? win_right c regs) by lia.
    replace (y <? r_ch regs + (win_bottom c regs - r_ch regs + 1)) with (y <=? win_bottom c regs) by lia.
    by replace (y + scroll_lines c regs <? r_ch regs + (win_bottom c regs - r_ch regs + 1))
      with (y + scroll_lines c regs <=? win_bottom c regs) by lia.
  - intros a Ha. apply Hscr. contradict Ha. by eapply window_on_page.
Qed.

(** ** The teletype *)

Definition cells_shown (c : console) (t : terminal) (m : memory) : Prop :=
  forall x y, 0 <= x < c_cols c -> 0 <= y < c_rows c -> cell c m x y = t_cell t x y.
Definition cursor_of (c : console) (t : terminal) : cursorpos := CursorPos (t_x t) (t_y t) (c_page c).
Definition byte_attr (ca : carattr) : Prop := 0 <= ca_car ca < 2 ^ 8 /\ 0 <= ca_attr ca < 2 ^ 8.

Lemma off_page_kept c m m' : console_ok c -> (forall a, ~ on_page c a -> read8 m' a = read8 m a) -> bda_kept m m'.
Proof.
  intros (Hseg & Hcols & Hrows & Hpage & Hps & Hfit) Hk a Ha. apply Hk. unfold on_page, cell_addr, far, c_off, c_stride.
  rewrite Z.shiftl_mul_pow2 by lia. assert (0 <= c_page c * c_pagesize c) by (apply Z.mul_nonneg_nonneg; lia). lia.
Qed.

Lemma vgafb_write_char_text c s x y ca : console_ok c -> text_mode c (mc_mem s) -> byte_attr ca ->
  0 <= x < c_cols c -> 0 <= y < c_rows c ->
  exists m', vgafb_write_char (CursorPos x y (c_page c)) ca s = Some (tt, Machine m' (mc_world s)) /\
    cell c m' x y = (ca_car ca, if ca_use_attr ca then ca_attr ca else snd (cell c (mc_mem s) x y)) /\
    (forall a, ~ in_window c x y 1 1 a -> read8 m' a = read8 (mc_mem s) a) /\ bytes_ok m'.
Proof.
  intros Hc Ht [Hcar Hattr] Hx Hy. unfold VgaFb.vgafb_write_char.
  erewrite bind_some by by eapply get_current_mode_text. cbv beta iota. rewrite (tm_text _ _ _ Ht).
  cbn [negb Z.eqb MM_TEXT]. pose proof Hc as (_ & ? & ? & _).
  erewrite bind_some by (eapply text_address_text; [done..|lia|lia|apply c_off_range; lia || done]).
  rewrite (tm_seg _ _ _ Ht). fold (cell_addr c x y). pose proof (tm_bytes _ _ _ Ht) as Hm.
  assert (Hout : forall a, ~ in_window c x y 1 1 a -> a < cell_addr c x y \/ cell_addr c x y + 1 < a).
  { intros a Ha. destruct (decide (cell_addr c x y <= a <= cell_addr c x y + 1)); [|lia]. destruct Ha.
    exists 0. unfold in_row. lia. }
  destruct (ca_use_attr ca); eexists; (split; [done|]); unfold cell.
  - split_and!; [|intros a Ha; apply read8_write16_ne; apply Hout in Ha; lia|auto with mem].
    rewrite !read8_write16, decide_True, decide_False, decide_True by lia.
    rewrite Z.shiftl_mul_pow2, lor_add_shifted by lia. f_equal; unfold u8, u16; lia.
  - split_and!; [|intros a Ha; apply read8_write8_ne; apply Hout in Ha; lia|auto with mem].
    rewrite read8_write8_eq, read8_write8_ne by lia. f_equal. by apply u8_small.
Qed.

(** [write_char]: the cell under the cursor, and the cursor. *)
Lemma write_char_text c s t ca : console_ok c -> text_mode c (mc_mem s) -> byte_attr ca ->
  cursor_ok (c_cols c) (c_rows c) t -> cells_shown c t (mc_mem s) ->
  exists m', write_char (cursor_of c t) ca s = Some (cursor_of c (type_char (c_cols c) ca t), Machine m' (mc_world s)) /\
    cells_shown c (type_char (c_cols c) ca t) m' /\ (forall a, ~ on_page c a -> read8 m' a = read8 (mc_mem s) a) /\ bytes_ok m'.
Proof.
  intros Hc Ht Hca [Hx Hy] Hcells. destruct (vgafb_write_char_text c s _ _ ca Hc Ht Hca Hx Hy) as (m' & Hrun & Hcell & Hout & Hok).
  pose proof Hc as (_ & Hcols & Hrows & _).
  assert (Hon : on_screen c (t_x t) (t_y t) 1 1) by (unfold on_screen; lia).
  assert (Hkept : bda_kept (mc_mem s) m') by by eapply bda_kept_window.
  exists m'. split_and!; [| | |done].
  - unfold VgaBios.write_char. unfold cursor_of at 1. erewrite bind_some by exact Hrun.
    erewrite bind_some by reflexivity. cbn [mc_mem].
    rewrite (tm_cols _ _ _ (text_mode_kept _ c _ _ Ht Hkept Hok)). unfold set_x, set_y, cursor_of, type_char.
    cbn [cp_x cp_y cp_page]. rewrite !u8_small by lia. by destruct (t_x t + 1 =? c_cols c).
  - intros x y Hx' Hy'. assert (Hcase : cell c m' x y = if (x =? t_x t) && (y =? t_y t)
      then (ca_car ca, if ca_use_attr ca then ca_attr ca else snd (t_cell t x y)) else t_cell t x y).
    { destruct (decide (x = t_x t /\ y = t_y t)) as [[-> ->]|Hne].
      - rewrite !Z.eqb_refl. cbn [andb]. by rewrite Hcell, Hcells.
      - replace ((x =? t_x t) && (y =? t_y t)) with false by lia. rewrite <- Hcells by done. unfold cell.
        f_equal; [rewrite <- (Z.add_0_r (cell_addr c x y))|]; apply Hout; apply cell_outside; lia. }
    rewrite Hcase. unfold type_char. by destruct (t_x t + 1 =? c_cols c).
  - intros a Ha. apply Hout. contradict Ha. by eapply window_on_page.
Qed.

Lemma typed_text c s t ca : console_ok c -> text_mode c (mc_mem s) -> byte_attr ca ->
  cursor_ok (c_cols c) (c_rows c) t -> cells_shown c t (mc_mem s) ->
  exists m',
    (if ca_car ca =? 7 then ret (cursor_of c t)
     else if ca_car ca =? 8 then ret (if 0 <? cp_x (cursor_of c t) then set_x (cp_x (cursor_of c t) - 1) (cursor_of c t) else cursor_of c t)
     else if ca_car ca =? 13 then ret (set_x 0 (cursor_of c t))
     else if ca_car ca =? 10 then ret (set_y (cp_y (cursor_of c t) + 1) (cursor_of c t))
     else write_char (cursor_of c t) ca) s = Some (cursor_of c (typed (c_cols c) ca t), Machine m' (mc_world s)) /\
    cells_shown c (typed (c_cols c) ca t) m' /\ (forall a, ~ on_page c a -> read8 m' a = read8 (mc_mem s) a) /\ bytes_ok m'.
Proof.
  intros Hc Ht Hca Hcur Hcells. pose proof Hc as (_ & Hcols & Hrows & _). pose proof Hcur as [Hx Hy].
  pose proof (tm_bytes _ _ _ Ht) as Hm. unfold typed, BEL, BS, CR, LF. destruct s as [m w]. cbn [mc_mem mc_world] in *.
  destruct (ca_car ca =? 7); [by exists m|]. destruct (ca_car ca =? 8).
  { exists m. split_and!; try done. unfold ret, cursor_of, set_x. cbn [cp_x cp_y cp_page t_x t_y].
    destruct (Z.ltb_spec 0 (t_x t)); [rewrite u8_small by lia|]; do 3 f_equal; lia. }
  destruct (ca_car ca =? 13); [by exists m|]. destruct (ca_car ca =? 10).
  { exists m. split_and!; try done. unfold ret, cursor_of, set_y. cbn [cp_x cp_y cp_page t_x t_y]. by rewrite u8_small by lia. }
  by apply (write_char_text c (Machine m w)).
Qed.

Lemma typed_cursor cols rows ca t : cursor_ok cols rows t ->
  0 <= t_x (typed cols ca t) < cols /\ 0 <= t_y (typed cols ca t) <= rows.
Proof. unfold cursor_ok, typed, type_char. intros Ht. repeat (case_match; cbn [t_x t_y] in *); lia. Qed.

(** One character, with the scrolling. *)
Lemma write_teletype_text c s t ca : console_ok c -> text_mode c (mc_mem s) -> byte_attr ca ->
  cursor_ok (c_cols c) (c_rows c) t -> cells_shown c t (mc_mem s) ->
  exists m', let t' := teletype (c_cols c) (c_rows c) ca t in
    write_teletype (cursor_of c t) ca s = Some (cursor_of c t', Machine m' (mc_world s)) /\
    cells_shown c t' m' /\ (forall a, ~ on_page c a -> read8 m' a = read8 (mc_mem s) a) /\ bytes_ok m'.
Proof.
  intros Hc Ht Hca Hcur Hcells. pose proof Hc as (_ & Hcols & Hrows & _).
  destruct (typed_text c s t ca Hc Ht Hca Hcur Hcells) as (m1 & Hrun & Hcells1 & Hout1 & Hok1).
  destruct (typed_cursor _ _ ca _ Hcur) as [Hx1 Hy1].
  assert (Ht1 : text_mode c m1) by (eapply text_mode_kept; [done| |done]; by eapply off_page_kept).
  unfold teletype.
  set (t1 := typed (c_cols c) ca t) in *. unfold VgaBios.write_teletype. erewrite bind_some by exact Hrun.
  erewrite bind_some by reflexivity. cbn [mc_mem]. rewrite (tm_rows _ _ _ Ht1). unfold feed. cbn [cp_y cursor_of].
  destruct (Z.ltb_spec (c_rows c - 1) (t_y t1)) as [Hdown|Hin]; [|by exists m1].
  erewrite bind_some by reflexivity. cbn [mc_mem]. rewrite (tm_cols _ _ _ Ht1), Z.sub_add, !u8_small by lia.
  assert (Hon : on_screen c 0 0 (c_cols c) (c_rows c)) by (unfold on_screen; lia).
  destruct (vgafb_scroll_text CONFIG_VGA_STDVGA_PORTS CONFIG_VGA_EMULATE_TEXT mode_at vgahw_get_linelength
    vgahw_get_displaystart VBE_framebuffer SS gdt data_fl c (Machine m1 (mc_world s)) _ _ _ _ 1 (CarAttr 0x20 0 false)
    Hc Ht1 Hon ltac:(lia) ltac:(done) ltac:(done)) as (m2 & Hrun2 & Hscr).
  exists m2. unfold set_y. cbn [cp_x cp_y cp_page cursor_of]. rewrite u8_small by lia.
  erewrite bind_some by exact Hrun2. split_and!; [done| | |by apply Hscr].
  - intros x y Hx Hy. rewrite (scrolled_cells c _ _ _ _ _ _ _ _ x y Hon Hscr) by (cbn; lia). cbn [t_cell mc_mem].
    replace ((0 <=? x) && (x <? 0 + c_cols c) && ((0 <=? y) && (y <? 0 + c_rows c))) with true by lia.
    destruct (Z.eqb_spec y (c_rows c - 1)) as [->|Hne].
    + by replace (negb (1 =? 0) && (0 <=? c_rows c - 1 + 1) && (c_rows c - 1 + 1 <? 0 + c_rows c)) with false by lia.
    + replace (negb (1 =? 0) && (0 <=? y + 1) && (y + 1 <? 0 + c_rows c)) with true by lia. apply Hcells1; lia.
  - intros a Ha. cbn [mc_mem] in *. destruct Hscr as (_ & Hout2 & _). rewrite Hout2; [by apply Hout1|].
    contradict Ha. by eapply window_on_page.
Qed.

(** ** AH=0Eh *)

Definition cursor_addr (c : console) : Z := VBDA.cursor_pos + 2 * c_page c.
(** The terminal on the screen, with its cursor in the BIOS data area. *)
Definition shows (c : console) (t : terminal) (m : memory) : Prop :=
  text_mode c m /\ cursor_ok (c_cols c) (c_rows c) t /\ read16 m (cursor_addr c) = t_x t + 2 ^ 8 * t_y t /\ cells_shown c t m.

Lemma get_cursor_pos_text c s t : console_ok c -> shows c t (mc_mem s) -> get_cursor_pos (c_page c) s = Some (cursor_of c t, s).
Proof.
  intros (_ & Hcols & Hrows & Hpage & _) (_ & [Hx Hy] & Hcur & _). unfold get_cursor_pos.
  replace (7 <? c_page c) with false by lia. erewrite bind_some by reflexivity. fold (cursor_addr c). rewrite Hcur.
  unfold ret, cursor_of. rewrite Z.shiftr_div_pow2 by lia. do 3 f_equal; unfold u8; lia.
Qed.

Lemma stdvga_set_cursor_pos_mem (a : Z) s : exists w, stdvga_set_cursor_pos a s = Some (tt, Machine (mc_mem s) w).
Proof.
  unfold stdvga_set_cursor_pos, stdvga_get_crtc, stdvga_misc_read, inb, bind, ret, stdvga_crtc_write, index_write, outw.
  destruct (dev_inb _ _) as [v w]. eexists. done.
Qed.

Lemma set_cursor_pos_text c s t : console_ok c -> text_mode c (mc_mem s) -> cursor_ok (c_cols c) (c_rows c) t ->
  cells_shown c t (mc_mem s) ->
  exists s', set_cursor_pos CONFIG_VGA_STDVGA_PORTS (cursor_of c t) s = Some (tt, s') /\ shows c t (mc_mem s') /\
    (forall a, a <> cursor_addr c -> a <> cursor_addr c + 1 -> read8 (mc_mem s') a = read8 (mc_mem s) a).
Proof.
  intros Hc Ht Hcur Hcells. pose proof Hc as (Hseg & Hcols & Hrows & Hpage & Hps & Hfit). pose proof Hcur as [Hx Hy].
  assert (Hrun : exists w, set_cursor_pos CONFIG_VGA_STDVGA_PORTS (cursor_of c t) s =
    Some (tt, Machine (write16 (cursor_addr c) (t_x t + 2 ^ 8 * t_y t) (mc_mem s)) w)).
  { unfold set_cursor_pos. cbn [cursor_of cp_page cp_x cp_y]. replace (7 <? c_page c) with false by lia.
    erewrite bind_some by reflexivity. cbv beta. rewrite (tm_page _ _ _ Ht), Z.eqb_refl.
    assert (Hv : Z.lor (Z.shiftl (t_y t) 8) (t_x t) = t_x t + 2 ^ 8 * t_y t)
      by (rewrite Z.shiftl_mul_pow2, lor_add_shifted by lia; lia).
    rewrite Hv. destruct CONFIG_VGA_STDVGA_PORTS; cbn [andb].
    - destruct (stdvga_set_cursor_pos_mem (s32 (c_off c (t_x t) (t_y t))) s) as [w Hw].
      exists w. erewrite bind_some; [|erewrite bind_some by (unfold cursor_of; eapply text_address_text; [done..|lia|lia|apply c_off_range; lia || done]); exact Hw].
      done.
    - exists (mc_world s). by destruct s. }
  destruct Hrun as [w Hrun]. eexists. split; [exact Hrun|]. cbn [mc_mem].
  assert (Hout : forall a, a <> cursor_addr c -> a <> cursor_addr c + 1 ->
    read8 (write16 (cursor_addr c) (t_x t + 2 ^ 8 * t_y t) (mc_mem s)) a = read8 (mc_mem s) a).
  { intros a Ha Ha'. apply read8_write16_ne. lia. }
  split; [|done]. pose proof (tm_bytes _ _ _ Ht) as Hm. split_and!; [|done| |].
  - eapply text_mode_kept; [done| |auto with mem]. intros a Ha. apply Hout; unfold cursor_addr, VBDA.cursor_pos, bda; lia.
  - rewrite read16_write16_eq. apply u16_small. lia.
  - assert (Haddr : forall x y, 0 <= x -> 0 <= y -> 0x600 <= cell_addr c x y).
    { intros x y Hx' Hy'. unfold cell_addr, far, c_off, c_stride. rewrite Z.shiftl_mul_pow2 by lia.
      assert (0 <= c_page c * c_pagesize c /\ 0 <= y * (c_cols c * 2)) by (split; apply Z.mul_nonneg_nonneg; lia). lia. }
    intros x y Hx' Hy'. rewrite <- Hcells by done. pose proof (Haddr x y ltac:(lia) ltac:(lia)).
    unfold cell. f_equal; apply Hout; unfold cursor_addr, VBDA.cursor_pos, bda; lia.
Qed.

(** The calls that write text: AH=0Eh, and AH=13h with the characters of a string
    in memory, each followed by its attribute when bit 1 of AL is set. *)
Fixpoint string_chars (n : nat) (has_attr : bool) (a attr : Z) (m : memory) : list carattr :=
  match n with
  | O => []
  | S n' =>
    let attr := if has_attr then read8 m (a + 1) else attr in
    CarAttr (read8 m a) attr true :: string_chars n' has_attr (a + (if has_attr then 2 else 1)) attr m
  end.
Definition has_attr (regs : bregs) : bool := truthy (Z.land (r_al regs) 2).
Definition string_addr (regs : bregs) : Z := far (r_es regs) (r_bp regs).
Definition call_chars (m : memory) (regs : bregs) : list carattr :=
  if r_ah regs =? 0x0e then [CarAttr (r_al regs) (r_bl regs) false]
  else string_chars (Z.to_nat (r_cx regs)) (has_attr regs) (string_addr regs) (r_bl regs) m.

Definition type_all (c : console) (l : list carattr) (t : terminal) : terminal :=
  foldl (fun t ca => teletype (c_cols c) (c_rows c) ca t) t l.
(** A string starts at DL and DH, and moves the cursor when bit 0 of AL is set. *)
Definition call_effect (c : console) (m : memory) (regs : bregs) (t : terminal) : terminal :=
  if r_ah regs =? 0x0e then type_all c (call_chars m regs) t
  else
    let t' := type_all c (call_chars m regs) (Terminal (r_dl regs) (r_dh regs) (t_cell t)) in
    if truthy (Z.land (r_al regs) 1) then t' else Terminal (t_x t) (t_y t) (t_cell t').

(** Memory the calls do not write. *)
Definition untouched (c : console) (a : Z) : Prop := ~ on_page c a /\ a <> cursor_addr c /\ a <> cursor_addr c + 1.
(** A string starts on the screen and is not part of what is written. *)
Definition call_ok (c : console) (regs : bregs) : Prop :=
  r_ah regs = 0x0e \/
  (r_ah regs = 0x13 /\ r_bh regs = c_page c /\ r_dl regs < c_cols c /\ r_dh regs < c_rows c /\
   forall i, 0 <= i < 2 * r_cx regs -> untouched c (string_addr regs + i)).

Lemma type_all_cursor c l : forall t, cursor_ok (c_cols c) (c_rows c) t -> cursor_ok (c_cols c) (c_rows c) (type_all c l t).
Proof. induction l as [|ca l IH]; intros t Ht; [done|]. by apply IH, teletype_cursor. Qed.

Lemma string_chars_kept n ha m m' : forall a attr, (forall i, 0 <= i < 2 * Z.of_nat n -> read8 m' (a + i) = read8 m (a + i)) ->
  string_chars n ha a attr m' = string_chars n ha a attr m.
Proof.
  induction n as [|n IH]; intros a attr Hk; [done|]. cbn [string_chars].
  rewrite (Hk 1) by lia. pose proof (Hk 0 ltac:(lia)) as H0a. rewrite Z.add_0_r in H0a. rewrite H0a. f_equal.
  apply IH. intros i Hi. destruct ha; rewrite <- !Z.add_assoc; apply Hk; lia.
Qed.

(** The loop of AH=13h. *)
Lemma write_string_text c n ha es : console_ok c -> forall off attr s t,
  text_mode c (mc_mem s) -> cursor_ok (c_cols c) (c_rows c) t -> cells_shown c t (mc_mem s) -> 0 <= attr < 2 ^ 8 ->
  (forall i, 0 <= i < 2 * Z.of_nat n -> ~ on_page c (far es off + i)) ->
  exists m', let t' := type_all c (string_chars n ha (far es off) attr (mc_mem s)) t in
    write_string CONFIG_VGA_STDVGA_PORTS CONFIG_VGA_EMULATE_TEXT mode_at vgahw_get_linelength vgahw_get_displaystart
      VBE_framebuffer SS gdt data_fl n ha es off attr (cursor_of c t) s = Some (cursor_of c t', Machine m' (mc_world s)) /\
    cells_shown c t' m' /\ (forall a, ~ on_page c a -> read8 m' a = read8 (mc_mem s) a) /\ bytes_ok m'.
Proof.
  intros Hc. induction n as [|n IH]; intros off attr s t Ht Hcur Hcells Hattr Hoff.
  { exists (mc_mem s). pose proof (tm_bytes _ _ _ Ht). split_and!; [by destruct s|done..]. }
  cbn [write_string string_chars]. pose proof (tm_bytes _ _ _ Ht) as Hm.
  set (attr1 := if ha then read8 (mc_mem s) (far es off + 1) else attr).
  assert (Hattr1 : 0 <= attr1 < 2 ^ 8) by (subst attr1; destruct ha; [apply Hm|done]).
  destruct (write_teletype_text c s t (CarAttr (read8 (mc_mem s) (far es off)) attr1 true) Hc Ht (conj (Hm _) Hattr1) Hcur Hcells)
    as (m1 & Hrun & Hcells1 & Hout1 & Hok1).
  set (ca := CarAttr (read8 (mc_mem s) (far es off)) attr1 true) in *.
  assert (Ht1 : text_mode c m1) by (eapply text_mode_kept; [done| |done]; by eapply off_page_kept).
  destruct (IH (off + (if ha then 2 else 1)) attr1 (Machine m1 (mc_world s)) (teletype (c_cols c) (c_rows c) ca t) Ht1
    (teletype_cursor _ _ _ _ Hcur) Hcells1 Hattr1) as (m2 & Hrun2 & Hcells2 & Hout2 & Hok2).
  { intros i Hi. rewrite far_add, <- Z.add_assoc. apply Hoff. destruct ha; lia. }
  cbn [mc_mem mc_world] in *. rewrite far_add in *.
  rewrite (string_chars_kept n ha (mc_mem s) m1) in * by (intros i Hi; apply Hout1; rewrite <- Z.add_assoc; apply Hoff; destruct ha; lia).
  exists m2. split_and!; [|exact Hcells2|intros a Ha; by rewrite Hout2, Hout1|done].
  erewrite bind_some by reflexivity. erewrite bind_some by (instantiate (1 := s); instantiate (1 := attr1); subst attr1; destruct ha; rewrite <- ?far_add; reflexivity).
  erewrite bind_some by exact Hrun. exact Hrun2.
Qed.

Lemma handle_100e_text c s t regs : console_ok c -> shows c t (mc_mem s) -> r_ah regs = 0x0e ->
  exists s', handle_10 regs s = Some (regs, s') /\ shows c (call_effect c (mc_mem s) regs t) (mc_mem s') /\
    (forall a, untouched c a -> read8 (mc_mem s') a = read8 (mc_mem s) a).
Proof.
  intros Hc Hshow Hah. pose proof Hshow as (Ht & Hcur & _ & Hcells).
  assert (Hca : byte_attr (CarAttr (r_al regs) (r_bl regs) false)) by (split; cbn; apply reg8_range).
  destruct (write_teletype_text c s t _ Hc Ht Hca Hcur Hcells) as (m1 & Hrun & Hcells1 & Hout1 & Hok1).
  assert (Ht1 : text_mode c m1) by (eapply text_mode_kept; [done| |done]; by eapply off_page_kept).
  pose proof (teletype_cursor _ _ (CarAttr (r_al regs) (r_bl regs) false) _ Hcur) as Hcur1.
  destruct (set_cursor_pos_text c (Machine m1 (mc_world s)) _ Hc Ht1 Hcur1 Hcells1) as (s2 & Hrun2 & Hshow2 & Hout2).
  exists s2. split_and!.
  - unfold VgaBios.handle_10. erewrite bind_some by by eapply no_swcursor. rewrite Hah. unfold handle_100e.
    erewrite bind_some by reflexivity. cbv beta. rewrite (tm_page _ _ _ Ht).
    erewrite bind_some by by apply get_cursor_pos_text. erewrite bind_some by exact Hrun. by erewrite bind_some by exact Hrun2.
  - unfold call_effect, call_chars. by rewrite Hah.
  - intros a (Ha & Ha1 & Ha2). rewrite Hout2 by done. by apply Hout1.
Qed.

Lemma handle_1013_text c s t regs : console_ok c -> shows c t (mc_mem s) -> r_ah regs = 0x13 -> call_ok c regs ->
  exists s', handle_10 regs s = Some (regs, s') /\ shows c (call_effect c (mc_mem s) regs t) (mc_mem s') /\
    (forall a, untouched c a -> read8 (mc_mem s') a = read8 (mc_mem s) a).
Proof.
  intros Hc Hshow Hah [Hbad|(_ & Hbh & Hdl & Hdh & Hstr)]; [congruence|]. pose proof Hshow as (Ht & Hcur & Hword & Hcells).
  set (t0 := Terminal (r_dl regs) (r_dh regs) (t_cell t)).
  assert (Hcur0 : cursor_ok (c_cols c) (c_rows c) t0) by (split; cbn; (split; [apply reg8_range|done])).
  assert (Hcx : 0 <= r_cx regs) by (unfold r_cx, low16; lia).
  destruct (write_string_text c (Z.to_nat (r_cx regs)) (has_attr regs) (r_es regs) Hc (r_bp regs) (r_bl regs) s t0)
    as (m1 & Hrun & Hcells1 & Hout1 & Hok1); [done|done|done|apply reg8_range| |].
  { intros i Hi. apply Hstr. lia. }
  set (t1 := type_all c (string_chars (Z.to_nat (r_cx regs)) (has_attr regs) (far (r_es regs) (r_bp regs)) (r_bl regs) (mc_mem s)) t0) in *.
  assert (Ht1 : text_mode c m1) by (eapply text_mode_kept; [done| |done]; by eapply off_page_kept).
  assert (Heff : call_effect c (mc_mem s) regs t =
    if truthy (Z.land (r_al regs) 1) then t1 else Terminal (t_x t) (t_y t) (t_cell t1))
    by (unfold call_effect, call_chars, string_addr; by rewrite Hah).
  rewrite Heff. unfold VgaBios.handle_10. erewrite bind_some by by eapply no_swcursor. rewrite Hah. unfold handle_1013.
  rewrite Hbh. erewrite bind_some by exact Hrun. destruct (truthy (Z.land (r_al regs) 1)).
  - destruct (set_cursor_pos_text c (Machine m1 (mc_world s)) t1 Hc Ht1 (type_all_cursor c _ _ Hcur0) Hcells1)
      as (s2 & Hrun2 & Hshow2 & Hout2).
    exists s2. split_and!; [by erewrite bind_some by exact Hrun2|done|]. intros a (Ha & Ha1 & Ha2). rewrite Hout2 by done. by apply Hout1.
  - eexists. split_and!; [by erewrite bind_some by reflexivity| |intros a (Ha & _); by apply Hout1].
    cbn [mc_mem]. split_and!; [done|done| |done]. cbn [t_x t_y]. rewrite <- Hword. unfold read16.
    assert (Hoff : forall b, 0 <= b <= 1 -> ~ on_page c (cursor_addr c + b)).
    { pose proof Hc as (Hseg & Hcols & Hrows & Hpage & Hps & Hfit). intros b Hb. unfold on_page, cell_addr, far, c_off, c_stride.
      rewrite Z.shiftl_mul_pow2 by lia. assert (0 <= c_page c * c_pagesize c) by (apply Z.mul_nonneg_nonneg; lia).
      unfold cursor_addr, VBDA.cursor_pos, bda. lia. }
    pose proof (Hoff 0 ltac:(lia)) as Hz. rewrite Z.add_0_r in Hz. by rewrite !Hout1 by (done || apply Hoff; lia).
Qed.

(** The effect of a call depends on memory no call writes. *)
Lemma call_effect_kept c m m' regs t : call_ok c regs -> (forall a, untouched c a -> read8 m' a = read8 m a) ->
  call_effect c m' regs t = call_effect c m regs t.
Proof.
  intros Hok Hk. unfold call_effect, call_chars. destruct Hok as [->|(Hah & _ & _ & _ & Hstr)]; [done|]. rewrite Hah. cbn [Z.eqb].
  rewrite (string_chars_kept _ _ m m'); [done|]. intros i Hi. apply Hk, Hstr. unfold r_cx, low16 in *. lia.
Qed.

Definition call_effects (c : console) (m : memory) (l : list bregs) (t : terminal) : terminal :=
  foldl (fun t regs => call_effect c m regs t) t l.
Lemma call_effects_kept c m m' l : Forall (call_ok c) l -> (forall a, untouched c a -> read8 m' a = read8 m a) ->
  forall t, call_effects c m' l t = call_effects c m l t.
Proof.
  intros Hl Hk. induction Hl as [|regs l Hok _ IH]; intros t; [done|]. cbn. rewrite (call_effect_kept c m m') by done. apply IH.
Qed.

(** A program's calls, one after the other. *)
Fixpoint int10_calls (l : list bregs) : M W unit :=
  match l with [] => ret tt | regs :: l' => do handle_10 regs ;; int10_calls l' end.

(** C7: in a text mode, with the cursor on the screen, the text services of INT 10h
    behave like a terminal: after any sequence of calls of AH=0Eh, and of AH=13h for
    the page shown with a position on the screen and a string that lies neither on
    the shown page nor on its cursor word, the screen and the position of the cursor
    in the BIOS data area are those of the terminal fed with the same characters
    (with bell, backspace, carriage return and line feed, the wrap at the end of a
    row and the scrolling at the end of the screen), the cursor is on the screen,
    and no other memory has changed. *)
Theorem text_output_refines_terminal c : console_ok c -> forall l s t,
  shows c t (mc_mem s) -> Forall (call_ok c) l ->
  exists s', int10_calls l s = Some (tt, s') /\
    shows c (call_effects c (mc_mem s) l t) (mc_mem s') /\
    (forall a, untouched c a -> read8 (mc_mem s') a = read8 (mc_mem s) a).
Proof.
  intros Hc l. induction l as [|regs l IH]; intros s t Hshow Hl; [by exists s|].
  apply Forall_cons in Hl as [Hok Hl]. cbn [int10_calls]. unfold call_effects. cbn [foldl]. fold (call_effects c (mc_mem s) l).
  assert (Hone : exists s', handle_10 regs s = Some (regs, s') /\ shows c (call_effect c (mc_mem s) regs t) (mc_mem s') /\
    (forall a, untouched c a -> read8 (mc_mem s') a = read8 (mc_mem s) a)).
  { destruct Hok as [Hah|Hstr]; [by apply handle_100e_text|]. apply handle_1013_text; [done..|apply Hstr|by right]. }
  destruct Hone as (s1 & Hrun & Hshow1 & Hout1). erewrite bind_some by exact Hrun.
  destruct (IH s1 _ Hshow1 Hl) as (s2 & Hrun2 & Hshow2 & Hout2). exists s2. split_and!; [done| |].
  - by rewrite (call_effects_kept c (mc_mem s) (mc_mem s1)) in Hshow2.
  - intros a Ha. by rewrite Hout2, Hout1.
Qed.

(** C18: INT 10h with AH=06h or AH=07h scrolls the window given by CX and DX up or
    down by AL rows on the page shown: each cell of the window, limited to the
    screen, takes the cell AL rows further or becomes a blank with the attribute
    BH (all of them when AL is 0 or at least the height of the window); the other
    cells, the other pages and the rest of memory do not change. *)
Theorem scroll_window_correct c s regs :
  console_ok c -> text_mode c (mc_mem s) -> r_ah regs = 6 \/ r_ah regs = 7 ->
  exists m', handle_10 regs s = Some (regs, Machine m' (mc_world s)) /\
    (forall x y, 0 <= x < c_cols c -> 0 <= y < c_rows c -> cell c m' x y = scroll_spec c regs (mc_mem s) x y) /\
    (forall a, ~ on_page c a -> read8 m' a = read8 (mc_mem s) a).
Proof.
  intros Hc Ht Hah. unfold VgaBios.handle_10. erewrite bind_some by by eapply no_swcursor.
  destruct (verify_scroll_text c s regs _ Hc Ht eq_refl) as (m' & Hrun & Hcells & Hout). exists m'. split_and!; [|done..].
  destruct Hah as [Hah|Hah]; rewrite Hah in *; unfold handle_1006, handle_1007; by erewrite bind_some by exact Hrun.
Qed.
End Screen.

(** ** Examples *)

Module ScreenDemo.
#[export] Instance env : Env unit := {|
  dev_inb := fun _ w => (0x67, w); dev_outb := fun _ _ w => w; env_yield := fun s => s;
  env_yield_toirq := fun s => s; env_int := fun _ r s => (r, s) |}.
#[export] Instance ports : Ports unit := {|
  port_inw := fun _ w => (0, w); port_inl := fun _ w => (0, w); port_outw := fun _ _ w => w; port_outl := fun _ _ w => w |}.

(** Mode 3: 80 by 25 characters at B800h. *)
Definition mode3 : vgamode_s := VgaMode MM_TEXT 80 25 4 9 16 SEG_CTEXT.
Definition mode_at (off : Z) : vgamode_s := mode3.
Definition screen : console := Console SEG_CTEXT 80 25 1 4096.
Definition mem0 : memory :=
  write16 VBDA.vgamode_offset 0x2000 (write16 VBDA.video_cols 80 (write8 VBDA.video_rows 24
    (write8 VBDA.video_page 1 (write16 VBDA.video_pagesize 4096
      (write16 (VBDA.cursor_pos + 2) 0x184f (Bytes.write_bytes 0x7c00 [0x4f; 0x4b; 10; 33] ∅)))))).
Definition start : machine unit := Machine mem0 tt.
Definition hw_none (m : vgamode_s) : M unit Z := ret 0.
Definition no_regs (regs : bregs) : M unit bregs := ret regs.
Definition int10 := handle_10 true true true false true mode_at hw_none hw_none 0x7000 0x9000 0 0x100
  (fun _ => ret 0x2000) (fun _ _ => ret 0) (fun _ _ => ret 0) (fun _ _ _ => ret 0) 0xc000 0 0 0 0 0 0 0x200 no_regs no_regs.
(** [A] in the last cell of the screen, and the string at 07C0:0000 at row 3. *)
Definition put_A : bregs := Bregs 0 0 0 0 0 7 0 0 0x0e41 (Segoff 0 0) 0.
Definition put_string : bregs := Bregs 0 0x7c0 0 0 0 0x011e 0x0302 4 0x1301 (Segoff 0 0) 0.
(** Scroll columns 2 to 90 of rows 1 to 24 up by two. *)
Definition scroll_up : bregs := Bregs 0 0 0 0 0 0x1f00 0x185a 0x0102 0x0602 (Segoff 0 0) 0.

Lemma screen_ok : console_ok screen.
Proof. unfold console_ok. split_and!; vm_compute; congruence. Qed.
Lemma start_text : text_mode mode_at screen (mc_mem start).
Proof.
  constructor; [vm_compute; congruence..|].
  unfold start, mem0. cbn [mc_mem]. auto 20 with mem.
Qed.
Definition term0 : terminal := Terminal 79 24 (cell screen mem0).
Lemma start_shows : shows mode_at screen term0 (mc_mem start).
Proof. split; [apply start_text|]. split; [vm_compute; split; split; congruence|]. split; [by vm_compute|done]. Qed.
End ScreenDemo.

#[local] Existing Instances ScreenDemo.env ScreenDemo.ports.

Lemma scroll_window_correct_witness :
  exists m', ScreenDemo.int10 ScreenDemo.scroll_up ScreenDemo.start = Some (ScreenDemo.scroll_up, Machine m' tt) /\
    cell ScreenDemo.screen m' 79 24 = (0x20, 0x1f) /\ read8 m' 0x7c00 = 0x4f.
Proof.
  destruct (scroll_window_correct true true true false true ScreenDemo.mode_at ScreenDemo.hw_none ScreenDemo.hw_none
    0x7000 0x9000 0 0x100 (fun _ => ret 0x2000) (fun _ _ => ret 0) (fun _ _ => ret 0) (fun _ _ _ => ret 0)
    0xc000 0 0 0 0 0 0 0x200 ScreenDemo.no_regs ScreenDemo.no_regs ScreenDemo.screen ScreenDemo.start ScreenDemo.scroll_up
    ScreenDemo.screen_ok ScreenDemo.start_text ltac:(left; reflexivity)) as (m' & Hrun & Hcells & Hout).
  exists m'. split; [exact Hrun|]. split.
  - rewrite Hcells by (cbn; lia). vm_compute. reflexivity.
  - rewrite Hout; [vm_compute; reflexivity|]. vm_compute. intros [Ha _]. congruence.
Defined.

Lemma text_output_refines_terminal_witness :
  exists s', int10_calls true true true false true ScreenDemo.mode_at ScreenDemo.hw_none ScreenDemo.hw_none
      0x7000 0x9000 0 0x100 (fun _ => ret 0x2000) (fun _ _ => ret 0) (fun _ _ => ret 0) (fun _ _ _ => ret 0)
      0xc000 0 0 0 0 0 0 0x200 ScreenDemo.no_regs ScreenDemo.no_regs [ScreenDemo.put_A; ScreenDemo.put_string] ScreenDemo.start = Some (tt, s') /\
    cell ScreenDemo.screen (mc_mem s') 79 23 = (0x41, 0) /\ cell ScreenDemo.screen (mc_mem s') 3 3 = (0x4b, 0x1e) /\
    cell ScreenDemo.screen (mc_mem s') 4 4 = (33, 0x1e) /\ read16 (mc_mem s') (cursor_addr ScreenDemo.screen) = 0x0405.
Proof.
  destruct (text_output_refines_terminal true true true false true ScreenDemo.mode_at ScreenDemo.hw_none ScreenDemo.hw_none
    0x7000 0x9000 0 0x100 (fun _ => ret 0x2000) (fun _ _ => ret 0) (fun _ _ => ret 0) (fun _ _ _ => ret 0)
    0xc000 0 0 0 0 0 0 0x200 ScreenDemo.no_regs ScreenDemo.no_regs ScreenDemo.screen ScreenDemo.screen_ok
    [ScreenDemo.put_A; ScreenDemo.put_string] ScreenDemo.start ScreenDemo.term0 ScreenDemo.start_shows) as (s' & Hrun & (_ & _ & Hcur & Hcells) & _).
  { constructor; [left; reflexivity|]. constructor; [|constructor]. right. do 4 (split; [vm_compute; reflexivity|]).
    intros i Hi. change (r_cx ScreenDemo.put_string) with 4 in Hi. change (string_addr ScreenDemo.put_string) with 0x7c00.
    unfold untouched, on_page. change (cell_addr ScreenDemo.screen 0 0) with 0xb9000. change (cursor_addr ScreenDemo.screen) with 0x452. lia. }
  exists s'. split; [exact Hrun|]. rewrite !Hcells by (cbn; lia). rewrite Hcur. vm_compute.
  split_and!; reflexivity.
Defined.
