(* ===== verification/VgaPixel.v ===== *)
(** * Pixels of the graphics modes

    The pixels of the CGA modes (one and two bits, in two banks of lines) and of
    the packed mode, and INT 10h AH=0Ch and AH=0Dh on them. *)
From S2P Require Import Prelude Machine StringOps Bytes Pci StdVga VgaFb VgaBios VgaText.
Local Open Scope seabios_scope.

(** ** The pixels of a byte or word *)

Section Pack.
Implicit Types (b x q : Z).

(** One more field at the right. *)
Lemma field_step b k x q : 0 <= b -> 0 <= k -> 0 <= q < 2 ^ b ->
  Z.lor (x * 2 ^ (k + b)) (Z.shiftl q k) = (x * 2 ^ b + q) * 2 ^ k.
Proof.
  intros Hb Hk Hq. assert (Hp : 2 ^ (k + b) = 2 ^ b * 2 ^ k) by (rewrite Z.pow_add_r by lia; apply Z.mul_comm).
  assert (0 < 2 ^ k) by (apply Z.pow_pos_nonneg; lia).
  rewrite Z.shiftl_mul_pow2 by done. rewrite lor_add_shifted; [rewrite Hp; ring|by apply Z.add_nonneg_nonneg|]. rewrite Hp.
  split; [apply Z.mul_nonneg_nonneg; [apply Hq|by apply Z.lt_le_incl]|apply Z.mul_lt_mono_pos_r; [done|apply Hq]].
Qed.

(** Eight fields of [b] bits, the first one at the left. *)
Definition horner (b : Z) (l : list Z) : Z := foldl (fun d q => d * 2 ^ b + q) 0 l.
Lemma pack_horner b (part : Z -> Z) : 0 <= b -> (forall i, 0 <= part i < 2 ^ b) ->
  pack (fun i => Z.shiftl (part i) ((7 - i) * b)) = horner b (map part seq8).
Proof.
  intros Hb Hq. unfold pack, seq8, horner. cbn [foldl map].
  rewrite <- (Z.mul_0_l (2 ^ (((7 - 0) * b) + b))) at 1. rewrite field_step by (auto; lia).
  replace ((7 - 0) * b) with ((7 - 1) * b + b) by lia. rewrite field_step by (auto; lia).
  replace ((7 - 1) * b) with ((7 - 2) * b + b) by lia. rewrite field_step by (auto; lia).
  replace ((7 - 2) * b) with ((7 - 3) * b + b) by lia. rewrite field_step by (auto; lia).
  replace ((7 - 3) * b) with ((7 - 4) * b + b) by lia. rewrite field_step by (auto; lia).
  replace ((7 - 4) * b) with ((7 - 5) * b + b) by lia. rewrite field_step by (auto; lia).
  replace ((7 - 5) * b) with ((7 - 6) * b + b) by lia. rewrite field_step by (auto; lia).
  replace ((7 - 6) * b) with ((7 - 7) * b + b) by lia. rewrite field_step by (auto; lia).
  replace ((7 - 7) * b) with 0 by lia. rewrite Z.pow_0_r. lia.
Qed.

Lemma pack_ext (f g : Z -> Z) : (forall i, f i = g i) -> pack f = pack g.
Proof. intros He. unfold pack, seq8. cbn [foldl]. by rewrite !He. Qed.

Lemma horner_snoc b l q : horner b (l ++ [q]) = horner b l * 2 ^ b + q.
Proof. unfold horner. by rewrite foldl_app. Qed.
Lemma horner_range b l : 0 <= b -> Forall (fun q => 0 <= q < 2 ^ b) l -> 0 <= horner b l < 2 ^ (b * Z.of_nat (length l)).
Proof.
  intros Hb. induction l as [|q l IH] using rev_ind; intros Hl; [cbn; lia|].
  apply Forall_app in Hl as [Hl Hq]. apply Forall_cons in Hq as [Hq _]. specialize (IH Hl).
  rewrite horner_snoc, length_app. cbn [length]. replace (b * Z.of_nat (length l + 1)) with (b * Z.of_nat (length l) + b) by lia.
  rewrite Z.pow_add_r by lia. nia.
Qed.

(** The fields again, counted from the right. *)
Lemma horner_field b l : 0 <= b -> Forall (fun q => 0 <= q < 2 ^ b) l -> forall j, (j < length l)%nat ->
  Z.land (Z.shiftr (horner b l) (Z.of_nat j * b)) (Z.ones b) = nth (length l - 1 - j) l 0.
Proof.
  intros Hb. induction l as [|q l IH] using rev_ind; intros Hl j Hj; [cbn in Hj; lia|].
  apply Forall_app in Hl as [Hl Hq]. apply Forall_cons in Hq as [Hq _]. rewrite length_app in *. cbn [length] in *.
  assert (Hp : 0 < 2 ^ b) by (apply Z.pow_pos_nonneg; lia).
  rewrite horner_snoc. destruct j as [|j].
  - rewrite Z.mul_0_l, Z.shiftr_0_r, Z.land_ones by done. rewrite app_nth2 by lia.
    replace (length l + 1 - 1 - 0 - length l)%nat with 0%nat by lia. cbn [nth].
    rewrite Z.add_comm, Z_mod_plus_full. by apply Z.mod_small.
  - replace (Z.of_nat (S j) * b) with (b + Z.of_nat j * b) by lia. rewrite <- Z.shiftr_shiftr by lia.
    rewrite (Z.shiftr_div_pow2 (_ + q)) by done. rewrite Z.div_add_l, (Z.div_small q) by lia. rewrite Z.add_0_r, IH by (done || lia).
    rewrite app_nth1 by lia. f_equal. lia.
Qed.
End Pack.

Lemma swab16_halves v : 0 <= v < 2 ^ 16 -> swab16 v = v mod 2 ^ 8 * 2 ^ 8 + v / 2 ^ 8.
Proof.
  intros Hv. unfold swab16. rewrite Z.shiftl_mul_pow2, Z.shiftr_div_pow2 by lia. rewrite lor_add_shifted by lia. unfold u16. lia.
Qed.
Lemma swab16_swab16 v : 0 <= v < 2 ^ 16 -> swab16 (swab16 v) = v.
Proof. intros Hv. rewrite !swab16_halves; [lia|lia|]. rewrite swab16_halves by done. lia. Qed.

Lemma land_ones_range x b : 0 <= b -> 0 <= Z.land x (Z.ones b) < 2 ^ b.
Proof. intros Hb. rewrite Z.land_ones by done. apply Z.mod_pos_bound, Z.pow_pos_nonneg; lia. Qed.

(** What is written with eight pixels is read again, cut to the depth. *)
Definition cga_bpp (bpp : Z) : Prop := bpp = 1 \/ bpp = 2.
Lemma cga_pack_range bpp l : cga_bpp bpp -> 0 <= cga_pack bpp l < 2 ^ (8 * bpp).
Proof.
  intros [-> | ->]; unfold cga_pack; cbn [Z.eqb Pos.eqb].
  - rewrite (pack_ext _ (fun i => Z.shiftl (Z.land (pixel l i) 1) ((7 - i) * 1))) by (intros; by rewrite Z.mul_1_r).
    rewrite pack_horner; [|lia|intros i; by apply (land_ones_range _ 1)].
    apply (horner_range 1); [lia|]. apply Forall_map, Forall_forall. intros i _. by apply (land_ones_range _ 1).
  - apply u16_range.
Qed.
Lemma cga_unpack_pack bpp l i : cga_bpp bpp -> (i < 8)%nat ->
  nth i (cga_unpack bpp (cga_pack bpp l)) 0 = Z.land (nth i l 0) (Z.ones bpp).
Proof.
  intros Hbpp Hi.
  assert (Hf : Forall (fun q => 0 <= q < 2 ^ bpp) (map (fun i => Z.land (pixel l i) (Z.ones bpp)) seq8)).
  { apply Forall_map, Forall_forall. intros j _. apply land_ones_range. destruct Hbpp; lia. }
  pose proof (horner_field bpp _ ltac:(destruct Hbpp; lia) Hf (7 - i) ltac:(cbn; lia)) as Hfield.
  replace (length (map (fun i0 => Z.land (pixel l i0) (Z.ones bpp)) seq8) - 1 - (7 - i))%nat with i in Hfield by (cbn [length map seq8]; lia).
  assert (Hnth : forall f, nth i (map f seq8) 0 = f (Z.of_nat i)) by (intros f; do 8 (destruct i as [|i]; [done|]); lia).
  rewrite Hnth in Hfield. unfold pixel at 2 in Hfield. rewrite Nat2Z.id in Hfield. rewrite <- Hfield.
  rewrite Nat2Z.inj_sub by lia. destruct Hbpp as [-> | ->]; unfold cga_unpack, cga_pack; cbn [Z.eqb Pos.eqb].
  - rewrite Hnth. rewrite (pack_ext _ (fun i => Z.shiftl (Z.land (pixel l i) 1) ((7 - i) * 1))) by (intros; by rewrite Z.mul_1_r).
    rewrite pack_horner; [|lia|intros j; by apply (land_ones_range _ 1)].
    change (Z.ones 1) with 1. do 2 f_equal. lia.
  - rewrite Hnth. rewrite pack_horner; [|lia|intros j; by apply (land_ones_range _ 2)].
    change (Z.ones 2) with 3. rewrite swab16_swab16; [done|]. apply (horner_range 2); [lia|]. exact Hf.
Qed.

(** ** Pixels in memory *)

(** A mode, the bytes from line to line, and the size of the picture. *)
Record canvas := Canvas { v_mode : vgamode_s; v_line : Z; v_width : Z; v_height : Z }.
Definition v_depth (v : canvas) : Z := depth (v_mode v).
Definition v_packed (v : canvas) : Prop := memmodel (v_mode v) = MM_PACKED /\ v_depth v = 8.
Definition v_cga (v : canvas) : Prop :=
  memmodel (v_mode v) = MM_CGA /\ cga_bpp (v_depth v) /\ v_line v mod v_depth v = 0 /\
  (v_height v + 1) / 2 * v_line v <= 0x2000.
Definition canvas_ok (v : canvas) : Prop :=
  (v_packed v \/ v_cga v) /\ 0 <= v_line v /\ v_width v * v_depth v <= 8 * v_line v /\ v_width v mod 8 = 0 /\
  v_height v * v_line v <= 65536.

(** The byte with the pixel, and the pixel in it. *)
Definition pixel_byte (v : canvas) (x y : Z) : Z :=
  if memmodel (v_mode v) =? MM_PACKED then far SEG_GRAPH (y * v_line v + x)
  else far SEG_CTEXT (y mod 2 * 0x2000 + y / 2 * v_line v) + x * v_depth v / 8.
Definition pixel_at (v : canvas) (m : memory) (x y : Z) : Z :=
  Z.land (Z.shiftr (read8 m (pixel_byte v x y)) (8 - v_depth v - (x * v_depth v) mod 8)) (Z.ones (v_depth v)).
Definition on_canvas (v : canvas) (x y : Z) : Prop := 0 <= x < v_width v /\ 0 <= y < v_height v.
(** The window of the frame buffer. *)
Definition in_framebuffer (v : canvas) (a : Z) : Prop :=
  if memmodel (v_mode v) =? MM_PACKED then far SEG_GRAPH 0 <= a < far SEG_GRAPH 0 + 0x10000
  else far SEG_CTEXT 0 <= a < far SEG_CTEXT 0 + 0x4000.

Definition group_read (bpp : Z) (m : memory) (a : Z) : Z := if bpp =? 1 then read8 m a else read16 m a.
Definition group_write (bpp a v : Z) (m : memory) : memory := if bpp =? 1 then write8 a v m else write16 a v m.

(** Evaluate the shifts and the offsets of a given pixel. *)
Ltac closed_numbers :=
  repeat match goal with
    | |- context [2 ^ ?e] => let v := eval vm_compute in (2 ^ e) in change (2 ^ e) with v
    | |- context [read8 ?m (?a + ?o / 8)] => let v := eval vm_compute in (o / 8) in change (a + o / 8) with (a + v)
    end.

Lemma cga_unpack_read bpp m a i : cga_bpp bpp -> bytes_ok m -> (i < 8)%nat ->
  nth i (cga_unpack bpp (group_read bpp m a)) 0 =
  Z.land (Z.shiftr (read8 m (a + Z.of_nat i * bpp / 8)) (8 - bpp - (Z.of_nat i * bpp) mod 8)) (Z.ones bpp).
Proof.
  intros Hbpp Hm Hi. unfold group_read.
  assert (Hnth : forall f, nth i (map f seq8) 0 = f (Z.of_nat i)) by (intros f; do 8 (destruct i as [|i]; [done|]); lia).
  destruct Hbpp as [-> | ->]; unfold cga_unpack; cbn [Z.eqb Pos.eqb]; rewrite Hnth.
  - replace (a + Z.of_nat i * 1 / 8) with a by lia. change (Z.ones 1) with 1. do 2 f_equal. lia.
  - pose proof (Hm a) as H0. pose proof (Hm (a + 1)) as H1. rewrite swab16_halves by (unfold read16; lia). unfold read16.
    change 3 with (Z.ones 2). rewrite !Z.land_ones, !Z.shiftr_div_pow2 by lia.
    replace ((read8 m a + 2 ^ 8 * read8 m (a + 1)) mod 2 ^ 8) with (read8 m a) by lia.
    replace ((read8 m a + 2 ^ 8 * read8 m (a + 1)) / 2 ^ 8) with (read8 m (a + 1)) by lia.
    generalize dependent i. intros i Hi _. do 8 (destruct i as [|i]; [closed_numbers; rewrite ?Z.add_0_r; lia|]). lia.
Qed.

Lemma group_read_write bpp a v m : cga_bpp bpp -> 0 <= v < 2 ^ (8 * bpp) -> group_read bpp (group_write bpp a v m) a = v.
Proof.
  intros [-> | ->] Hv; unfold group_read, group_write; cbn [Z.eqb Pos.eqb].
  - rewrite read8_write8_eq. by apply u8_small.
  - rewrite read16_write16_eq. by apply u16_small.
Qed.
Lemma read8_group_write bpp a v m b : cga_bpp bpp -> b < a \/ a + bpp <= b -> read8 (group_write bpp a v m) b = read8 m b.
Proof.
  intros [-> | ->] Hb; unfold group_write; cbn [Z.eqb Pos.eqb]; [apply read8_write8_ne|apply read8_write16_ne]; lia.
Qed.
Lemma bytes_ok_group_write bpp a v m : bytes_ok m -> bytes_ok (group_write bpp a v m).
Proof. intros Hm. unfold group_write. destruct (bpp =? 1); auto with mem. Qed.

(** ** Groups of eight pixels *)

Section Canvas.
Context {W : Type} `{Env W} `{Ports W}.
Context (CONFIG_VGA_STDVGA_PORTS : bool) (VBE_framebuffer SS gdt data_fl : Z).
Implicit Types (s : machine W) (m : memory) (v : canvas) (op : gfx_op).

Abbreviation handle_gfx_op := (VgaFb.handle_gfx_op CONFIG_VGA_STDVGA_PORTS VBE_framebuffer SS gdt data_fl).

(** The operation is for the group of pixel [x] of line [y]. *)
Definition op_at (v : canvas) (x y : Z) (op : gfx_op) : Prop :=
  vmode_g op = v_mode v /\ linelength op = v_line v /\ go_x op = x - x mod 8 /\ go_y op = y.

Definition cga_cell (v : canvas) (x y : Z) : Z := y mod 2 * 0x2000 + y / 2 * v_line v + x / 8 * v_depth v.

Lemma cga_bounds v x y : canvas_ok v -> v_cga v -> on_canvas v x y ->
  0 <= y / 2 * v_line v /\ x / 8 * v_depth v + v_depth v <= v_line v /\ y / 2 * v_line v + v_line v <= 0x2000 /\
  0 <= x / 8 * v_depth v.
Proof.
  intros (_ & Hl & Hw & Hw8 & _) (_ & Hbpp & _ & Hh) [Hx Hy].
  assert (0 <= y / 2 * v_line v) by (apply Z.mul_nonneg_nonneg; lia).
  assert ((y / 2 + 1) * v_line v <= (v_height v + 1) / 2 * v_line v) by (apply Z.mul_le_mono_nonneg_r; lia).
  destruct Hbpp as [He|He]; rewrite He in *; lia.
Qed.

Lemma cga_cell_address v x y op : canvas_ok v -> v_cga v -> on_canvas v x y -> op_at v x y op ->
  (let dest_far := u32 (go_y op / 2 * linelength op + go_x op / 8 * depth (vmode_g op)) in
   if truthy (Z.land (go_y op) 1) then dest_far + 0x2000 else dest_far) = cga_cell v x y.
Proof.
  intros Hv Hc Hon (-> & -> & -> & ->). destruct (cga_bounds v x y Hv Hc Hon) as (H1 & H2 & H3 & H4).
  assert (Hd : 1 <= v_depth v) by (destruct Hc as (_ & [? | ?] & _); lia).
  replace ((x - x mod 8) / 8) with (x / 8) by lia. fold (v_depth v).
  rewrite u32_small by lia. unfold cga_cell. change 1 with (Z.ones 1). rewrite Z.land_ones by lia. unfold truthy.
  change (2 ^ 1) with 2. destruct (Z.eqb_spec (y mod 2) 0) as [->|Hy]; cbn [negb]; [lia|].
  replace (y mod 2) with 1 by lia. lia.
Qed.

(** Pixel [i] of the group. *)
Lemma cga_pixel_byte v x y i : v_cga v -> 0 <= i < 8 ->
  pixel_byte v (x - x mod 8 + i) y = far SEG_CTEXT (cga_cell v x y) + i * v_depth v / 8 /\
  ((x - x mod 8 + i) * v_depth v) mod 8 = (i * v_depth v) mod 8.
Proof.
  intros (Hmm & Hbpp & _ & _) Hi. unfold pixel_byte. rewrite Hmm. cbn [Z.eqb MM_CGA MM_PACKED Pos.eqb].
  unfold cga_cell, far. destruct Hbpp as [He|He]; rewrite He; lia.
Qed.

Lemma group_pixels v x y m : canvas_ok v -> v_cga v -> on_canvas v x y -> bytes_ok m -> forall i, (i < 8)%nat ->
  nth i (cga_unpack (v_depth v) (group_read (v_depth v) m (far SEG_CTEXT (cga_cell v x y)))) 0 =
  pixel_at v m (x - x mod 8 + Z.of_nat i) y.
Proof.
  intros Hv Hc Hon Hm i Hi. rewrite cga_unpack_read by (apply Hc || done). unfold pixel_at.
  by destruct (cga_pixel_byte v x y (Z.of_nat i) Hc ltac:(lia)) as [-> ->].
Qed.

Lemma cga_read v x y op s : canvas_ok v -> v_cga v -> on_canvas v x y -> op_at v x y op -> bytes_ok (mc_mem s) ->
  exists l, handle_gfx_op (set_op GO_READ8 op) s = Some (set_pixels l (set_op GO_READ8 op), s) /\ length l = 8%nat /\
    forall i, (i < 8)%nat -> nth i l 0 = pixel_at v (mc_mem s) (x - x mod 8 + Z.of_nat i) y.
Proof.
  intros Hv Hc Hon Hop Hm. pose proof Hc as (Hmm & Hbpp & _). pose proof Hop as (Hmode & _).
  exists (cga_unpack (v_depth v) (group_read (v_depth v) (mc_mem s) (far SEG_CTEXT (cga_cell v x y)))). split_and!.
  - unfold VgaFb.handle_gfx_op. cbn [set_op vmode_g]. rewrite Hmode, Hmm. cbn [Z.eqb MM_CGA MM_PLANAR Pos.eqb].
    unfold gfx_cga. cbn [set_op vmode_g go_op go_x go_y linelength].
    cbn [Z.eqb GO_READ8 GO_WRITE8 GO_MEMSET GO_MEMMOVE Pos.eqb].
    pose proof (cga_cell_address v x y op Hv Hc Hon Hop) as Hcell. cbv zeta in *. rewrite Hmode in *. fold (v_depth v) in *.
    rewrite Hcell. unfold group_read. by destruct (v_depth v =? 1).
  - unfold cga_unpack. by destruct (_ =? 1).
  - by apply group_pixels.
Qed.

(** [m'] has the eight pixels [l] in the group of [x], and is [m] elsewhere. *)
Definition group_written (v : canvas) (x y : Z) (l : list Z) (m m' : memory) : Prop :=
  (forall x' y', on_canvas v x' y' ->
     pixel_at v m' x' y' =
     if (x' / 8 =? x / 8) && (y' =? y) then Z.land (nth (Z.to_nat (x' mod 8)) l 0) (Z.ones (v_depth v)) else pixel_at v m x' y') /\
  (forall a, ~ in_framebuffer v a -> read8 m' a = read8 m a) /\ bytes_ok m'.

Lemma cga_other_byte v x y x' y' : canvas_ok v -> v_cga v -> on_canvas v x y -> on_canvas v x' y' ->
  ~ (x' / 8 = x / 8 /\ y' = y) ->
  pixel_byte v x' y' < far SEG_CTEXT (cga_cell v x y) \/ far SEG_CTEXT (cga_cell v x y) + v_depth v <= pixel_byte v x' y'.
Proof.
  intros Hv Hc Hon Hon' Hne. destruct (cga_bounds v x y Hv Hc Hon) as (H1 & H2 & H3 & H4).
  destruct (cga_bounds v x' y' Hv Hc Hon') as (H1' & H2' & H3' & H4').
  pose proof Hc as (Hmm & Hbpp & _). unfold pixel_byte. rewrite Hmm. cbn [Z.eqb MM_CGA MM_PACKED Pos.eqb].
  unfold far, cga_cell. set (o := x / 8 * v_depth v) in *. set (o' := x' * v_depth v / 8) in *.
  assert (Ho' : x' / 8 * v_depth v <= o' < x' / 8 * v_depth v + v_depth v)
    by (subst o'; destruct Hon' as [Hx' _]; destruct Hbpp as [He|He]; rewrite He in *; lia).
  destruct (decide (y' mod 2 = y mod 2)) as [Hbank|Hbank]; [|destruct (decide (y mod 2 = 0)); lia].
  rewrite Hbank. destruct (decide (y' / 2 = y / 2)) as [Hrow|Hrow].
  - rewrite Hrow. assert (x' / 8 <> x / 8) by (contradict Hne; split; [done|lia]).
    subst o. destruct Hbpp as [He|He]; rewrite He in *; lia.
  - destruct (Z_lt_dec (y' / 2) (y / 2)).
    + assert ((y' / 2 + 1) * v_line v <= y / 2 * v_line v) by (apply Z.mul_le_mono_nonneg_r; [apply Hv|lia]). lia.
    + assert ((y / 2 + 1) * v_line v <= y' / 2 * v_line v) by (apply Z.mul_le_mono_nonneg_r; [apply Hv|lia]). lia.
Qed.

Lemma cga_group_written v x y l m : canvas_ok v -> v_cga v -> on_canvas v x y -> bytes_ok m ->
  group_written v x y l m (group_write (v_depth v) (far SEG_CTEXT (cga_cell v x y)) (cga_pack (v_depth v) l) m).
Proof.
  intros Hv Hc Hon Hm. pose proof Hc as (Hmm & Hbpp & _). destruct (cga_bounds v x y Hv Hc Hon) as (H1 & H2 & H3 & H4).
  pose proof (bytes_ok_group_write (v_depth v) (far SEG_CTEXT (cga_cell v x y)) (cga_pack (v_depth v) l) m Hm) as Hok.
  split_and!; [|intros a Ha|done].
  - intros x' y' Hon'. destruct ((x' / 8 =? x / 8) && (y' =? y)) eqn:Hsame.
    + assert (x' = x - x mod 8 + Z.of_nat (Z.to_nat (x' mod 8)) /\ y' = y) as [He ->] by lia.
      rewrite He at 1. rewrite <- group_pixels by (done || lia).
      rewrite group_read_write by (done || by apply cga_pack_range). apply cga_unpack_pack; [done|lia].
    + unfold pixel_at. rewrite read8_group_write; [done|done|]. apply cga_other_byte; try done. lia.
  - apply read8_group_write; [done|]. unfold in_framebuffer in Ha. rewrite Hmm in Ha. cbn [Z.eqb MM_CGA MM_PACKED Pos.eqb] in Ha.
    unfold far, cga_cell in *. lia.
Qed.

Lemma cga_write v x y op l s : canvas_ok v -> v_cga v -> on_canvas v x y -> op_at v x y op -> bytes_ok (mc_mem s) ->
  exists op' m', handle_gfx_op (set_op GO_WRITE8 (set_pixels l op)) s = Some (op', Machine m' (mc_world s)) /\
    group_written v x y l (mc_mem s) m'.
Proof.
  intros Hv Hc Hon Hop Hm. pose proof Hc as (Hmm & Hbpp & _). pose proof Hop as (Hmode & _).
  eexists _, _. split; [|by apply cga_group_written].
  unfold VgaFb.handle_gfx_op. cbn [set_op set_pixels vmode_g]. rewrite Hmode, Hmm. cbn [Z.eqb MM_CGA MM_PLANAR Pos.eqb].
  unfold gfx_cga. cbn [set_op set_pixels vmode_g go_op go_x go_y linelength pixels].
  cbn [Z.eqb GO_READ8 GO_WRITE8 GO_MEMSET GO_MEMMOVE Pos.eqb].
  pose proof (cga_cell_address v x y op Hv Hc Hon Hop) as Hcell. cbv zeta in *. rewrite Hmode in *. fold (v_depth v) in *.
  rewrite Hcell. unfold group_write. by destruct (v_depth v =? 1).
Qed.

(** *** The packed mode *)

Lemma packed_bounds v x y : canvas_ok v -> v_packed v -> on_canvas v x y ->
  0 <= y * v_line v /\ x - x mod 8 + 8 <= v_line v /\ y * v_line v + v_line v <= 65536.
Proof.
  intros (_ & Hl & Hw & Hw8 & Hh) (_ & Hd) [Hx Hy]. rewrite Hd in *.
  assert (0 <= y * v_line v) by (apply Z.mul_nonneg_nonneg; lia).
  assert ((y + 1) * v_line v <= v_height v * v_line v) by (apply Z.mul_le_mono_nonneg_r; lia). lia.
Qed.

Definition packed_group (v : canvas) (x y : Z) : Z := far SEG_GRAPH (y * v_line v + (x - x mod 8)).

Lemma packed_address v x y op : canvas_ok v -> v_packed v -> on_canvas v x y -> op_at v x y op ->
  u32 (go_y op * linelength op + go_x op) = y * v_line v + (x - x mod 8).
Proof.
  intros Hv Hp Hon (_ & -> & -> & ->). destruct (packed_bounds v x y Hv Hp Hon) as (H1 & H2 & H3).
  destruct Hon. apply u32_small. lia.
Qed.

Lemma packed_pixel v m x y : v_packed v -> bytes_ok m -> pixel_at v m x y = read8 m (far SEG_GRAPH (y * v_line v + x)).
Proof.
  intros (Hmm & Hd) Hm. unfold pixel_at, pixel_byte. rewrite Hmm, Hd. cbn [Z.eqb MM_PACKED Pos.eqb].
  replace (8 - 8 - (x * 8) mod 8) with 0 by lia. rewrite Z.shiftr_0_r, Z.land_ones by lia. by apply Z.mod_small, Hm.
Qed.

Lemma packed_read v x y op s : canvas_ok v -> v_packed v -> on_canvas v x y -> op_at v x y op -> bytes_ok (mc_mem s) ->
  exists l, handle_gfx_op (set_op GO_READ8 op) s = Some (set_pixels l (set_op GO_READ8 op), s) /\ length l = 8%nat /\
    forall i, (i < 8)%nat -> nth i l 0 = pixel_at v (mc_mem s) (x - x mod 8 + Z.of_nat i) y.
Proof.
  intros Hv Hp Hon Hop Hm. pose proof Hp as (Hmm & Hd). pose proof Hop as (Hmode & _).
  exists (read8_pixels (y * v_line v + (x - x mod 8)) (mc_mem s)). split_and!; [|done|].
  - unfold VgaFb.handle_gfx_op. cbn [set_op vmode_g]. rewrite Hmode, Hmm. cbn [Z.eqb MM_CGA MM_PLANAR MM_PACKED Pos.eqb].
    unfold gfx_packed. cbn [set_op vmode_g go_op go_x go_y linelength].
    cbn [Z.eqb GO_READ8 GO_WRITE8 GO_MEMSET GO_MEMMOVE Pos.eqb]. by rewrite packed_address with (v := v) (x := x) (y := y).
  - intros i Hi. rewrite packed_pixel by done. unfold read8_pixels.
    assert (Hnth : forall f, nth i (map f seq8) 0 = f (Z.of_nat i)) by (intros f; do 8 (destruct i as [|i]; [done|]); lia).
    rewrite Hnth. destruct (packed_bounds v x y Hv Hp Hon) as (H1 & H2 & H3). destruct Hon as [Hx Hy].
    rewrite u16_small by lia. do 2 f_equal. lia.
Qed.

Lemma write8_pixels_bytes dest l m : 0 <= dest -> dest + 8 <= 65536 ->
  write8_pixels dest l m = Bytes.write_bytes (far SEG_GRAPH dest) (map (pixel l) seq8) m.
Proof.
  intros Hd0 Hd1. unfold write8_pixels, seq8. cbn [foldl map Bytes.write_bytes]. rewrite !u16_small by lia.
  repeat (f_equal; [unfold far; lia|]). f_equal. unfold far. lia.
Qed.

Lemma packed_group_written v x y l m : canvas_ok v -> v_packed v -> on_canvas v x y -> bytes_ok m ->
  group_written v x y l m (Bytes.write_bytes (packed_group v x y) (map (pixel l) seq8) m).
Proof.
  intros Hv Hp Hon Hm. pose proof Hp as (Hmm & Hd). destruct (packed_bounds v x y Hv Hp Hon) as (H1 & H2 & H3).
  assert (Hok : bytes_ok (Bytes.write_bytes (packed_group v x y) (map (pixel l) seq8) m)) by auto with mem.
  pose proof Hon as [Hx Hy]. split_and!; [|intros a Ha|done].
  - intros x' y' Hon'. rewrite !packed_pixel by done. destruct (packed_bounds v x' y' Hv Hp Hon') as (H1' & H2' & H3').
    pose proof Hon' as [Hx' Hy']. destruct ((x' / 8 =? x / 8) && (y' =? y)) eqn:Hsame.
    + assert (far SEG_GRAPH (y' * v_line v + x') = packed_group v x y + Z.of_nat (Z.to_nat (x' mod 8))) as ->.
      { unfold packed_group, far. assert (y' = y) as -> by lia. lia. }
      rewrite read8_write_bytes_in by (cbn [length map seq8]; lia). rewrite Hd, Z.land_ones by lia. unfold u8. f_equal.
      set (i := Z.to_nat (x' mod 8)). assert (Hi : (i < 8)%nat) by lia.
      assert (Hnth : forall f, nth i (map f seq8) 0 = f (Z.of_nat i)) by (intros f; clearbody i; do 8 (destruct i as [|i]; [done|]); lia).
      rewrite Hnth. unfold pixel. by rewrite Nat2Z.id.
    + apply read8_write_bytes_out. cbn [length map seq8]. unfold packed_group, far.
      destruct (decide (y' = y)) as [->|Hrow]; [lia|]. destruct (Z_lt_dec y' y).
      * assert ((y' + 1) * v_line v <= y * v_line v) by (apply Z.mul_le_mono_nonneg_r; [apply Hv|lia]). lia.
      * assert ((y + 1) * v_line v <= y' * v_line v) by (apply Z.mul_le_mono_nonneg_r; [apply Hv|lia]). lia.
  - apply read8_write_bytes_out. cbn [length map seq8]. unfold in_framebuffer in Ha. rewrite Hmm in Ha.
    cbn [Z.eqb MM_PACKED Pos.eqb] in Ha. unfold packed_group, far in *. lia.
Qed.

Lemma packed_write v x y op l s : canvas_ok v -> v_packed v -> on_canvas v x y -> op_at v x y op -> bytes_ok (mc_mem s) ->
  exists op' m', handle_gfx_op (set_op GO_WRITE8 (set_pixels l op)) s = Some (op', Machine m' (mc_world s)) /\
    group_written v x y l (mc_mem s) m'.
Proof.
  intros Hv Hp Hon Hop Hm. pose proof Hp as (Hmm & Hd). pose proof Hop as (Hmode & _).
  eexists _, _. split; [|by apply packed_group_written].
  unfold VgaFb.handle_gfx_op. cbn [set_op set_pixels vmode_g]. rewrite Hmode, Hmm. cbn [Z.eqb MM_CGA MM_PLANAR MM_PACKED Pos.eqb].
  unfold gfx_packed. cbn [set_op set_pixels vmode_g go_op go_x go_y linelength pixels].
  cbn [Z.eqb GO_READ8 GO_WRITE8 GO_MEMSET GO_MEMMOVE Pos.eqb]. rewrite (packed_address v x y) by done.
  destruct (packed_bounds v x y Hv Hp Hon) as (H1 & H2 & H3). pose proof Hon as [Hx Hy].
  unfold bind, upd_mem, ret. by rewrite write8_pixels_bytes by lia.
Qed.

(** Both kinds of mode. *)
Lemma group_op_read v x y op s : canvas_ok v -> on_canvas v x y -> op_at v x y op -> bytes_ok (mc_mem s) ->
  exists l, handle_gfx_op (set_op GO_READ8 op) s = Some (set_pixels l (set_op GO_READ8 op), s) /\ length l = 8%nat /\
    forall i, (i < 8)%nat -> nth i l 0 = pixel_at v (mc_mem s) (x - x mod 8 + Z.of_nat i) y.
Proof. intros Hv. pose proof Hv as [[Hp|Hc] _]; [by apply packed_read|by apply cga_read]. Qed.
Lemma group_op_write v x y op l s : canvas_ok v -> on_canvas v x y -> op_at v x y op -> bytes_ok (mc_mem s) ->
  exists op' m', handle_gfx_op (set_op GO_WRITE8 (set_pixels l op)) s = Some (op', Machine m' (mc_world s)) /\
    group_written v x y l (mc_mem s) m'.
Proof. intros Hv. pose proof Hv as [[Hp|Hc] _]; [by apply packed_write|by apply cga_write]. Qed.
End Canvas.

(** ** AH=0Ch and AH=0Dh *)

Section Services.
Context {W : Type} `{Env W} `{Ports W}.
Context (CONFIG_VGA_STDVGA_PORTS CONFIG_VGA_EMULATE_TEXT CONFIG_VGA_ALLOCATE_EXTRA_STACK CONFIG_VGA_CIRRUS CONFIG_VGA_VBE : bool).
Context (mode_at : Z -> vgamode_s).
Context (vgahw_get_linelength vgahw_get_displaystart : vgamode_s -> M W Z).
Context (VBE_framebuffer SS gdt data_fl : Z).
Context (vgahw_find_mode : Z -> M W Z) (vgahw_set_mode : Z -> Z -> M W Z).
Context (vgahw_set_displaystart : vgamode_s -> Z -> M W Z) (vgahw_save_restore : Z -> Z -> Z -> M W Z).
Context (global_seg vgafont8 vgafont14 vgafont16 vgafont14alt vgafont16alt static_functionality rgb : Z).
Context (clext_1012 handle_104f : bregs -> M W bregs).
Implicit Types (s : machine W) (m : memory) (v : canvas).

Abbreviation handle_10 := (VgaBios.handle_10 CONFIG_VGA_STDVGA_PORTS CONFIG_VGA_EMULATE_TEXT CONFIG_VGA_ALLOCATE_EXTRA_STACK
  CONFIG_VGA_CIRRUS CONFIG_VGA_VBE mode_at vgahw_get_linelength vgahw_get_displaystart VBE_framebuffer SS gdt data_fl
  vgahw_find_mode vgahw_set_mode vgahw_set_displaystart vgahw_save_restore global_seg vgafont8 vgafont14 vgafont16
  vgafont14alt vgafont16alt static_functionality rgb clext_1012 handle_104f).

(** The mode is the current one, and the card tells its line length. *)
Record graphics_mode (v : canvas) (m : memory) : Prop := {
  gm_mode : read16 m VBDA.vgamode_offset <> 0;
  gm_at : mode_at (read16 m VBDA.vgamode_offset) = v_mode v;
  gm_flags : Z.land (read8 m VBDA.flags) BF_EMULATE_TEXT = 0;
  gm_bytes : bytes_ok m }.
Definition card_tells (f : vgamode_s -> M W Z) (v : canvas) (P : Z -> Prop) : Prop :=
  forall s, exists x w, f (v_mode v) s = Some (x, Machine (mc_mem s) w) /\ P x.

(** The color, combined with the old one when its bit 7 is set. *)
Definition new_pixel (v : canvas) (color old : Z) : Z :=
  Z.land (if truthy (Z.land color 0x80) && (v_depth v <? 8) then Z.lxor old (Z.land color 0x7f) else color) (Z.ones (v_depth v)).

Lemma land_group (x : Z) : Z.land x (Z.lnot 7) = x - x mod 8 /\ Z.land x 7 = x mod 8.
Proof.
  change 7 with (Z.ones 3). rewrite <- Z.ldiff_land, Z.ldiff_ones_r, Z.land_ones, Z.shiftl_mul_pow2, Z.shiftr_div_pow2 by lia. lia.
Qed.

Lemma init_gfx_op_at v x y s : canvas_ok v -> on_canvas v x y -> x < 2 ^ 16 -> y < 2 ^ 16 ->
  card_tells vgahw_get_linelength v (fun l => l = v_line v) -> card_tells vgahw_get_displaystart v (fun _ => True) ->
  exists op w, init_gfx_op vgahw_get_linelength vgahw_get_displaystart (v_mode v) s = Some (op, Machine (mc_mem s) w) /\
    op_at v x y (set_xy (Z.land x (Z.lnot 7)) y op).
Proof.
  intros Hv [Hx Hy] Hx16 Hy16 Hline Hstart. destruct (Hline s) as (l & w1 & Hrun1 & ->).
  destruct (Hstart (Machine (mc_mem s) w1)) as (d & w2 & Hrun2 & _).
  eexists _, w2. split.
  - unfold init_gfx_op. erewrite bind_some by exact Hrun1. by erewrite bind_some by exact Hrun2.
  - unfold op_at. cbn [set_xy vmode_g linelength go_x go_y]. rewrite (proj1 (land_group x)).
    destruct Hv as (_ & Hl & _ & _ & Hh). assert (v_line v <= v_height v * v_line v) by nia.
    split_and!; [done|apply u32_small; lia|apply u16_small; lia|apply u16_small; lia].
Qed.

Lemma get_current_mode_graphics v s : graphics_mode v (mc_mem s) -> get_current_mode mode_at s = Some (Some (v_mode v), s).
Proof.
  intros [Hoff Hat _ _]. unfold get_current_mode, bind, get16, ret. apply Z.eqb_neq in Hoff as ->. by rewrite Hat.
Qed.

Lemma no_swcursor_graphics v s regs : graphics_mode v (mc_mem s) ->
  swcursor_pre_handle10 CONFIG_VGA_STDVGA_PORTS CONFIG_VGA_EMULATE_TEXT CONFIG_VGA_VBE mode_at vgahw_get_linelength
    vgahw_get_displaystart VBE_framebuffer SS gdt data_fl regs s = Some (tt, s).
Proof.
  intros Ht. unfold swcursor_pre_handle10, vga_emulate_text, bind, get8, ret. rewrite (gm_flags _ _ Ht).
  by rewrite andb_false_r.
Qed.

Lemma vgafb_read_pixel_at v x y s : canvas_ok v -> graphics_mode v (mc_mem s) -> on_canvas v x y -> x < 2 ^ 16 -> y < 2 ^ 16 ->
  card_tells vgahw_get_linelength v (fun l => l = v_line v) -> card_tells vgahw_get_displaystart v (fun _ => True) ->
  exists w, vgafb_read_pixel CONFIG_VGA_STDVGA_PORTS mode_at vgahw_get_linelength vgahw_get_displaystart
    VBE_framebuffer SS gdt data_fl x y s = Some (pixel_at v (mc_mem s) x y, Machine (mc_mem s) w).
Proof.
  intros Hv Hg Hon Hx Hy Hline Hstart. destruct (init_gfx_op_at v x y s Hv Hon Hx Hy Hline Hstart) as (op & w & Hrun & Hop).
  destruct (group_op_read CONFIG_VGA_STDVGA_PORTS VBE_framebuffer SS gdt data_fl v x y (set_xy (Z.land x (Z.lnot 7)) y op)
    (Machine (mc_mem s) w) Hv Hon Hop (gm_bytes _ _ Hg)) as (l & Hread & Hlen & Hl).
  exists w. unfold vgafb_read_pixel. erewrite bind_some by by apply get_current_mode_graphics. cbv beta iota.
  erewrite bind_some by exact Hrun. erewrite bind_some by exact Hread. unfold ret. cbn [set_pixels pixels].
  rewrite (proj2 (land_group x)), Hl by lia. destruct Hon as [Hx0 Hy0]. do 3 f_equal. cbn [mc_mem]. lia.
Qed.

Lemma vgafb_write_pixel_at v x y color s : canvas_ok v -> graphics_mode v (mc_mem s) -> on_canvas v x y ->
  x < 2 ^ 16 -> y < 2 ^ 16 ->
  card_tells vgahw_get_linelength v (fun l => l = v_line v) -> card_tells vgahw_get_displaystart v (fun _ => True) ->
  exists m' w, vgafb_write_pixel CONFIG_VGA_STDVGA_PORTS mode_at vgahw_get_linelength vgahw_get_displaystart
    VBE_framebuffer SS gdt data_fl color x y s = Some (tt, Machine m' w) /\
    (forall x' y', on_canvas v x' y' -> pixel_at v m' x' y' =
       if (x' =? x) && (y' =? y) then new_pixel v color (pixel_at v (mc_mem s) x y) else pixel_at v (mc_mem s) x' y') /\
    (forall a, ~ in_framebuffer v a -> read8 m' a = read8 (mc_mem s) a) /\ bytes_ok m'.
Proof.
  intros Hv Hg Hon Hx Hy Hline Hstart. destruct (init_gfx_op_at v x y s Hv Hon Hx Hy Hline Hstart) as (op & w & Hrun & Hop).
  destruct (group_op_read CONFIG_VGA_STDVGA_PORTS VBE_framebuffer SS gdt data_fl v x y (set_xy (Z.land x (Z.lnot 7)) y op)
    (Machine (mc_mem s) w) Hv Hon Hop (gm_bytes _ _ Hg)) as (l & Hread & Hlen & Hl).
  set (i := Z.to_nat (x mod 8)). assert (Hi : (i < 8)%nat) by lia.
  set (c := if truthy (Z.land color 0x80) && (v_depth v <? 8) then Z.lxor (nth i l 0) (Z.land color 0x7f) else color).
  destruct (group_op_write CONFIG_VGA_STDVGA_PORTS VBE_framebuffer SS gdt data_fl v x y
    (set_pixels l (set_op GO_READ8 (set_xy (Z.land x (Z.lnot 7)) y op))) (<[i := c]> l) (Machine (mc_mem s) w) Hv Hon Hop (gm_bytes _ _ Hg))
    as (op' & m' & Hwrite & Hpix & Hout & Hok).
  exists m', w. split_and!; [|intros x' y' Hon'|done|done].
  - unfold vgafb_write_pixel. erewrite bind_some by by apply get_current_mode_graphics. cbv beta iota.
    erewrite bind_some by exact Hrun. erewrite bind_some by exact Hread. cbn [pixels set_pixels].
    rewrite (proj2 (land_group x)). fold i. fold (v_depth v). fold c. by erewrite bind_some by exact Hwrite.
  - destruct Hon as [Hx0 Hy0]. destruct Hon' as [Hx0' Hy0']. rewrite Hpix by done. cbn [mc_mem] in *.
    assert (Hold : nth i l 0 = pixel_at v (mc_mem s) x y) by (rewrite Hl by done; f_equal; lia).
    destruct (Z.eqb_spec y' y) as [->|Hny]; [|by rewrite !andb_false_r]. rewrite !andb_true_r.
    destruct (Z.eqb_spec x' x) as [->|Hnx].
    + rewrite Z.eqb_refl. fold i. rewrite nth_lookup, list_lookup_insert_eq by lia. cbn [default].
      unfold new_pixel. by rewrite <- Hold.
    + destruct (Z.eqb_spec (x' / 8) (x / 8)) as [Hgroup|]; [|done].
      rewrite nth_lookup, list_lookup_insert_ne by lia. rewrite <- nth_lookup, Hl by lia.
      replace (x - x mod 8 + Z.of_nat (Z.to_nat (x' mod 8))) with x' by lia. 
      unfold pixel_at. by rewrite <- Z.land_assoc, Z.land_diag.
Qed.

Lemma graphics_mode_kept v m m' : graphics_mode v m -> (forall a, ~ in_framebuffer v a -> read8 m' a = read8 m a) -> bytes_ok m' ->
  graphics_mode v m'.
Proof.
  intros [Hoff Hat Hfl Hm] Hout Hok.
  assert (Hk : forall a, a < 0x1000 -> read8 m' a = read8 m a).
  { intros a Ha. apply Hout. unfold in_framebuffer. case_match; unfold far, SEG_GRAPH, SEG_CTEXT; rewrite Z.shiftl_mul_pow2 by lia; lia. }
  assert (H16 : read16 m' VBDA.vgamode_offset = read16 m VBDA.vgamode_offset)
    by (unfold read16; rewrite !Hk by (unfold VBDA.vgamode_offset, bda; lia); done).
  constructor; rewrite ?H16, ?Hk by (unfold VBDA.flags, bda; lia); done.
Qed.

(** C16: in the CGA modes and the packed mode INT 10h AH=0Dh returns the pixel at
    CX and DX, and AH=0Ch sets it to the color AL, or to its exclusive or with AL
    when bit 7 of AL is set and the mode has less than 256 colors; every other
    pixel of the picture, also those in the same byte and in the other bank of
    lines, and all memory outside the frame buffer keep their values. *)
Theorem pixel_services_correct v regs s : canvas_ok v ->
  card_tells vgahw_get_linelength v (fun l => l = v_line v) -> card_tells vgahw_get_displaystart v (fun _ => True) ->
  graphics_mode v (mc_mem s) -> on_canvas v (r_cx regs) (r_dx regs) ->
  (r_ah regs = 0x0d -> exists s', handle_10 regs s = Some (set_al (pixel_at v (mc_mem s) (r_cx regs) (r_dx regs)) regs, s') /\
     mc_mem s' = mc_mem s) /\
  (r_ah regs = 0x0c -> exists s', handle_10 regs s = Some (regs, s') /\ graphics_mode v (mc_mem s') /\
     (forall x y, on_canvas v x y -> pixel_at v (mc_mem s') x y =
        if (x =? r_cx regs) && (y =? r_dx regs)
        then new_pixel v (r_al regs) (pixel_at v (mc_mem s) (r_cx regs) (r_dx regs)) else pixel_at v (mc_mem s) x y) /\
     (forall a, ~ in_framebuffer v a -> read8 (mc_mem s') a = read8 (mc_mem s) a)).
Proof.
  intros Hv Hline Hstart Hg Hon. assert (H16 : r_cx regs < 2 ^ 16 /\ r_dx regs < 2 ^ 16) by (unfold r_cx, r_dx, low16; lia).
  destruct H16 as [Hcx Hdx]. split; intros Hah.
  - destruct (vgafb_read_pixel_at v _ _ s Hv Hg Hon Hcx Hdx Hline Hstart) as (w & Hrun).
    eexists. unfold VgaBios.handle_10. erewrite bind_some by by eapply no_swcursor_graphics. rewrite Hah.
    unfold handle_100d. by erewrite bind_some by exact Hrun.
  - destruct (vgafb_write_pixel_at v _ _ (r_al regs) s Hv Hg Hon Hcx Hdx Hline Hstart) as (m' & w & Hrun & Hpix & Hout & Hok).
    eexists. unfold VgaBios.handle_10. erewrite bind_some by by eapply no_swcursor_graphics. rewrite Hah.
    unfold handle_100c. erewrite bind_some by exact Hrun. split_and!; [done|by eapply graphics_mode_kept|done..].
Qed.
End Services.

(** ** Example: mode 4 *)

Module PixelDemo.
#[export] Instance env : Env unit := {|
  dev_inb := fun _ w => (0x67, w); dev_outb := fun _ _ w => w; env_yield := fun s => s;
  env_yield_toirq := fun s => s; env_int := fun _ r s => (r, s) |}.
#[export] Instance ports : Ports unit := {|
  port_inw := fun _ w => (0, w); port_inl := fun _ w => (0, w); port_outw := fun _ _ w => w; port_outl := fun _ _ w => w |}.
Definition mode4 : vgamode_s := VgaMode MM_CGA 320 200 2 8 8 SEG_CTEXT.
Definition picture : canvas := Canvas mode4 80 320 200.
Definition mem0 : memory := write16 VBDA.vgamode_offset 0x2000 (write8 0xba054 0x1b ∅).
Definition line_length (m : vgamode_s) : M unit Z := ret 80.
Definition display_start (m : vgamode_s) : M unit Z := ret 0.
Definition no_regs (regs : bregs) : M unit bregs := ret regs.
(** Pixel 18 of line 3, exclusive or 3. *)
Definition regs : bregs := Bregs 0 0 0 0 0 0 3 18 0x0c83 (Segoff 0 0) 0.
End PixelDemo.

#[local] Existing Instances PixelDemo.env PixelDemo.ports.

Lemma pixel_services_correct_witness :
  exists s', VgaBios.handle_10 true true true false true (fun _ => PixelDemo.mode4) PixelDemo.line_length PixelDemo.display_start
      0x7000 0x9000 0 0x100 (fun _ => ret 0x2000) (fun _ _ => ret 0) (fun _ _ => ret 0) (fun _ _ _ => ret 0)
      0xc000 0 0 0 0 0 0 0x200 PixelDemo.no_regs PixelDemo.no_regs PixelDemo.regs (Machine PixelDemo.mem0 tt) = Some (PixelDemo.regs, s') /\
    pixel_at PixelDemo.picture (mc_mem s') 18 3 = 1 /\ pixel_at PixelDemo.picture (mc_mem s') 19 3 = 3.
Proof.
  destruct (pixel_services_correct true true true false true (fun _ => PixelDemo.mode4) PixelDemo.line_length PixelDemo.display_start
    0x7000 0x9000 0 0x100 (fun _ => ret 0x2000) (fun _ _ => ret 0) (fun _ _ => ret 0) (fun _ _ _ => ret 0)
    0xc000 0 0 0 0 0 0 0x200 PixelDemo.no_regs PixelDemo.no_regs PixelDemo.picture PixelDemo.regs (Machine PixelDemo.mem0 tt))
    as [_ Hwrite].
  - split; [right; split; [reflexivity|split; [right; reflexivity|vm_compute; split; congruence]]|vm_compute; split_and!; congruence].
  - intros s. exists 80, tt. split; [by destruct s as [? []]|reflexivity].
  - intros s. exists 0, tt. split; [by destruct s as [? []]|done].
  - constructor; [vm_compute; congruence|reflexivity..|]. unfold PixelDemo.mem0. cbn [mc_mem]. auto with mem.
  - vm_compute. split; split; congruence.
  - destruct (Hwrite eq_refl) as (s' & Hrun & _ & Hpix & _). exists s'. split; [exact Hrun|].
    rewrite !Hpix by (vm_compute; split; split; congruence). vm_compute. split; reflexivity.
Defined.
