(* ===== verification/VgaState.v ===== *)
(** * Saving and restoring the state of a VGA

    The registers of a VGA behind its ports, as its data sheet describes them:
    index and data ports, the base of the CRTC and its write protection, the
    flip-flop of the attribute controller, the palette that advances.  INT 10h
    AH=1Ch on such a card. *)
From S2P Require Import Prelude Machine StringOps Bytes Pci StdVga VgaFb VgaBios VgaText.
Local Open Scope seabios_scope.

(** ** The card *)

Record vga_regs := Regs {
  misc : Z; seq_i : Z; crt_i : Z; gr_i : Z; att_i : Z; to_data : bool; feat : Z;
  seq : Z -> Z; crt : Z -> Z; gr : Z -> Z; att : Z -> Z;
  pel_mask : Z; pel_r : Z; pel_w : Z; pel : Z -> Z }.

Definition set_misc v r := Regs v (seq_i r) (crt_i r) (gr_i r) (att_i r) (to_data r) (feat r) (seq r) (crt r) (gr r) (att r) (pel_mask r) (pel_r r) (pel_w r) (pel r).
Definition set_seq_i v r := Regs (misc r) v (crt_i r) (gr_i r) (att_i r) (to_data r) (feat r) (seq r) (crt r) (gr r) (att r) (pel_mask r) (pel_r r) (pel_w r) (pel r).
Definition set_crt_i v r := Regs (misc r) (seq_i r) v (gr_i r) (att_i r) (to_data r) (feat r) (seq r) (crt r) (gr r) (att r) (pel_mask r) (pel_r r) (pel_w r) (pel r).
Definition set_gr_i v r := Regs (misc r) (seq_i r) (crt_i r) v (att_i r) (to_data r) (feat r) (seq r) (crt r) (gr r) (att r) (pel_mask r) (pel_r r) (pel_w r) (pel r).
Definition set_att_i v r := Regs (misc r) (seq_i r) (crt_i r) (gr_i r) v (to_data r) (feat r) (seq r) (crt r) (gr r) (att r) (pel_mask r) (pel_r r) (pel_w r) (pel r).
Definition set_to_data v r := Regs (misc r) (seq_i r) (crt_i r) (gr_i r) (att_i r) v (feat r) (seq r) (crt r) (gr r) (att r) (pel_mask r) (pel_r r) (pel_w r) (pel r).
Definition set_feat v r := Regs (misc r) (seq_i r) (crt_i r) (gr_i r) (att_i r) (to_data r) v (seq r) (crt r) (gr r) (att r) (pel_mask r) (pel_r r) (pel_w r) (pel r).
Definition set_seq v r := Regs (misc r) (seq_i r) (crt_i r) (gr_i r) (att_i r) (to_data r) (feat r) v (crt r) (gr r) (att r) (pel_mask r) (pel_r r) (pel_w r) (pel r).
Definition set_crt v r := Regs (misc r) (seq_i r) (crt_i r) (gr_i r) (att_i r) (to_data r) (feat r) (seq r) v (gr r) (att r) (pel_mask r) (pel_r r) (pel_w r) (pel r).
Definition set_gr v r := Regs (misc r) (seq_i r) (crt_i r) (gr_i r) (att_i r) (to_data r) (feat r) (seq r) (crt r) v (att r) (pel_mask r) (pel_r r) (pel_w r) (pel r).
Definition set_att v r := Regs (misc r) (seq_i r) (crt_i r) (gr_i r) (att_i r) (to_data r) (feat r) (seq r) (crt r) (gr r) v (pel_mask r) (pel_r r) (pel_w r) (pel r).
Definition set_pel_mask v r := Regs (misc r) (seq_i r) (crt_i r) (gr_i r) (att_i r) (to_data r) (feat r) (seq r) (crt r) (gr r) (att r) v (pel_r r) (pel_w r) (pel r).
Definition set_pel_r v r := Regs (misc r) (seq_i r) (crt_i r) (gr_i r) (att_i r) (to_data r) (feat r) (seq r) (crt r) (gr r) (att r) (pel_mask r) v (pel_w r) (pel r).
Definition set_pel_w v r := Regs (misc r) (seq_i r) (crt_i r) (gr_i r) (att_i r) (to_data r) (feat r) (seq r) (crt r) (gr r) (att r) (pel_mask r) (pel_r r) v (pel r).
Definition set_pel v r := Regs (misc r) (seq_i r) (crt_i r) (gr_i r) (att_i r) (to_data r) (feat r) (seq r) (crt r) (gr r) (att r) (pel_mask r) (pel_r r) (pel_w r) v.

Definition put (f : Z -> Z) (i v : Z) : Z -> Z := fun j => if j =? i then v else f j.
Lemma put_eq f i v : put f i v i = v.
Proof. unfold put. by rewrite Z.eqb_refl. Qed.
Lemma put_ne f i v j : j <> i -> put f i v j = f j.
Proof. intros Hj. unfold put. by apply Z.eqb_neq in Hj as ->. Qed.

(** Color: the CRTC answers at 3D4h, and the status port at 3DAh. *)
Definition color (r : vga_regs) : Prop := Z.odd (misc r) = true.

Section Card.
(** The bits a register keeps, by its bank (the sequencer, the CRTC, the
    graphics and the attribute controller). *)
Context (kept : Z -> Z -> Z).
Definition SEQ := 0.
Definition CRT := 1.
Definition GR := 2.
Definition ATT := 3.

Definition write_seq i v r := set_seq (put (seq r) i (Z.land v (kept SEQ i))) r.
(** Bit 7 of register 11h protects registers 0 to 7, but for bit 4 of register 7. *)
Definition write_crt i v r :=
  if Z.testbit (crt r 0x11) 7 && (i <=? 7)
  then if i =? 7 then set_crt (put (crt r) 7 (Z.lor (Z.land (crt r 7) 0xef) (Z.land v 0x10))) r else r
  else set_crt (put (crt r) i (Z.land v (kept CRT i))) r.
Definition write_gr i v r := set_gr (put (gr r) i (Z.land v (kept GR i))) r.
Definition write_att i v r := set_att (put (att r) i (Z.land v (kept ATT i))) r.

(** What the ports in color mode do; other ports are not part of the card. *)
Definition card_in (port : Z) (r : vga_regs) : option (Z * vga_regs) :=
  if port =? 0x3cc then Some (misc r, r)
  else if port =? 0x3c4 then Some (seq_i r, r)
  else if port =? 0x3c5 then Some (seq r (seq_i r), r)
  else if port =? 0x3ce then Some (gr_i r, r)
  else if port =? 0x3cf then Some (gr r (gr_i r), r)
  else if port =? 0x3d4 then Some (crt_i r, r)
  else if port =? 0x3d5 then Some (crt r (crt_i r), r)
  else if port =? 0x3c0 then Some (att_i r, r)
  else if port =? 0x3c1 then Some (att r (Z.land (att_i r) 0x1f), r)
  else if port =? 0x3ca then Some (feat r, r)
  else if port =? 0x3c6 then Some (pel_mask r, r)
  else if port =? 0x3c8 then Some (pel_w r / 3, r)
  else if port =? 0x3c9 then Some (pel r (pel_r r), set_pel_r ((pel_r r + 1) mod 768) r)
  else None.
Definition card_out (v port : Z) (r : vga_regs) : option vga_regs :=
  if port =? 0x3c2 then Some (set_misc v r)
  else if port =? 0x3c4 then Some (set_seq_i v r)
  else if port =? 0x3ce then Some (set_gr_i v r)
  else if port =? 0x3d4 then Some (set_crt_i v r)
  else if port =? 0x3c0 then
    Some (if to_data r then set_to_data false (write_att (Z.land (att_i r) 0x1f) v r)
          else set_to_data true (set_att_i (Z.land v 0x3f) r))
  else if port =? 0x3da then Some (set_feat v r)
  else if port =? 0x3c6 then Some (set_pel_mask v r)
  else if port =? 0x3c7 then Some (set_pel_r (v * 3) r)
  else if port =? 0x3c8 then Some (set_pel_w (v * 3) r)
  else if port =? 0x3c9 then Some (set_pel_w ((pel_w r + 1) mod 768) (set_pel (put (pel r) (pel_w r) (Z.land v 0x3f)) r))
  else None.
(** A word written to an index port is an index and a value. *)
Definition card_outw (v port : Z) (r : vga_regs) : option vga_regs :=
  let i := v mod 2 ^ 8 in
  let v := v / 2 ^ 8 in
  if port =? 0x3c4 then Some (write_seq i v (set_seq_i i r))
  else if port =? 0x3ce then Some (write_gr i v (set_gr_i i r))
  else if port =? 0x3d4 then Some (write_crt i v (set_crt_i i r))
  else None.

(** The registers hold bytes, without the bits they do not keep. *)
Record regs_ok (r : vga_regs) : Prop := {
  ok_misc : is_byte (misc r);
  ok_seq_i : is_byte (seq_i r); ok_crt_i : is_byte (crt_i r); ok_gr_i : is_byte (gr_i r);
  ok_att_i : 0 <= att_i r < 2 ^ 6; ok_feat : is_byte (feat r);
  ok_seq : forall i, is_byte (seq r i) /\ Z.land (seq r i) (kept SEQ i) = seq r i;
  ok_crt : forall i, is_byte (crt r i) /\ Z.land (crt r i) (kept CRT i) = crt r i;
  ok_gr : forall i, is_byte (gr r i) /\ Z.land (gr r i) (kept GR i) = gr r i;
  ok_att : forall i, is_byte (att r i) /\ Z.land (att r i) (kept ATT i) = att r i;
  ok_pel_mask : is_byte (pel_mask r); ok_pel_r : 0 <= pel_r r < 768; ok_pel_w : 0 <= pel_w r < 768;
  ok_pel : forall i, 0 <= pel r i < 2 ^ 6 }.
End Card.

(** ** Runs on a card *)

Section State.
Context {W : Type} `{Env W} `{Ports W}.
Context (kept : Z -> Z -> Z) (view : W -> vga_regs).

(** The ports of [W] are those of a card whose registers are [view]. *)
Record is_card : Prop := {
  card_reads : forall port w v r', color (view w) -> card_in port (view w) = Some (v, r') ->
    exists w', dev_inb port w = (v, w') /\ view w' = r';
  card_writes : forall v port w r', color (view w) -> card_out kept v port (view w) = Some r' ->
    view (dev_outb v port w) = r';
  card_writes_word : forall v port w r', color (view w) -> card_outw kept v port (view w) = Some r' ->
    view (port_outw v port w) = r';
  card_status : forall w, color (view w) -> exists v w', dev_inb VGAREG_ACTL_RESET w = (v, w') /\ view w' = set_to_data false (view w);
  card_dac_state : forall w, color (view w) -> exists v w', dev_inb VGAREG_DAC_STATE w = (v, w') /\ view w' = view w }.
Hypothesis (card : is_card).

(** [c] ends in a state with [Q]. *)
Definition wp {A} (c : M W A) (Q : A -> memory -> vga_regs -> Prop) (m : memory) (r : vga_regs) : Prop :=
  forall w, view w = r -> exists x m' w', c (Machine m w) = Some (x, Machine m' w') /\ Q x m' (view w').

Section Rules.
Context {A B : Type}.
Implicit Types (m : memory) (r : vga_regs) (Q : A -> memory -> vga_regs -> Prop).

Lemma wp_ret x Q m r : Q x m r -> wp (ret x) Q m r.
Proof. intros HQ w <-. by exists x, m, w. Qed.
Lemma wp_bind (c : M W B) (k : B -> M W A) Q m r : wp c (fun x => wp (k x) Q) m r -> wp (bind c k) Q m r.
Proof.
  intros Hc w Hw. destruct (Hc w Hw) as (x & m1 & w1 & Hrun & Hk). destruct (Hk w1 eq_refl) as (y & m2 & w2 & Hrun2 & HQ).
  exists y, m2, w2. by rewrite (bind_some _ _ _ _ _ Hrun).
Qed.
Lemma wp_mono (c : M W A) Q Q' m r : wp c Q m r -> (forall x m' r', Q x m' r' -> Q' x m' r') -> wp c Q' m r.
Proof. intros Hc HQ w Hw. destruct (Hc w Hw) as (x & m1 & w1 & Hrun & Hx). exists x, m1, w1. eauto. Qed.
End Rules.

Lemma wp_get8 a Q (m : memory) r : Q (read8 m a) m r -> wp (get8 a) Q m r.
Proof. intros HQ w <-. by exists (read8 m a), m, w. Qed.
Lemma wp_get16 a Q (m : memory) r : Q (read16 m a) m r -> wp (get16 a) Q m r.
Proof. intros HQ w <-. by exists (read16 m a), m, w. Qed.
Lemma wp_put8 a v Q (m : memory) r : Q tt (write8 a v m) r -> wp (put8 a v) Q m r.
Proof. intros HQ w <-. by exists tt, (write8 a v m), w. Qed.
Lemma wp_put16 a v Q (m : memory) r : Q tt (write16 a v m) r -> wp (put16 a v) Q m r.
Proof. intros HQ w <-. by exists tt, (write16 a v m), w. Qed.

Lemma wp_inb port v r' Q (m : memory) r : color r -> card_in port r = Some (v, r') -> Q (u8 v) m r' -> wp (inb port) Q m r.
Proof.
  intros Hc Hin HQ w <-. destruct (card_reads card port w v r' Hc Hin) as (w' & Hdev & <-).
  exists (u8 v), m, w'. unfold inb. cbn [mc_mem mc_world]. by rewrite Hdev.
Qed.
Lemma wp_outb v port r' Q (m : memory) r : color r -> card_out kept (u8 v) port r = Some r' -> Q tt m r' -> wp (outb v port) Q m r.
Proof.
  intros Hc Hout HQ w <-. exists tt, m, (dev_outb (u8 v) port w). split; [done|].
  by rewrite (card_writes card _ _ _ _ Hc Hout).
Qed.
Lemma wp_outw v port r' Q (m : memory) r : color r -> card_outw kept (u16 v) port r = Some r' -> Q tt m r' -> wp (outw v port) Q m r.
Proof.
  intros Hc Hout HQ w <-. exists tt, m, (port_outw (u16 v) port w). split; [done|].
  by rewrite (card_writes_word card _ _ _ _ Hc Hout).
Qed.
Lemma wp_status Q (m : memory) r : color r -> (forall v, Q v m (set_to_data false r)) -> wp (inb VGAREG_ACTL_RESET) Q m r.
Proof.
  intros Hc HQ w <-. destruct (card_status card w Hc) as (v & w' & Hdev & Hview).
  exists (u8 v), m, w'. unfold inb. cbn [mc_mem mc_world]. by rewrite Hdev, Hview.
Qed.
Lemma wp_dac_state Q (m : memory) r : color r -> (forall v, Q (u8 v) m r) -> wp (inb VGAREG_DAC_STATE) Q m r.
Proof.
  intros Hc HQ w <-. destruct (card_dac_state card w Hc) as (v & w' & Hdev & Hview).
  exists (u8 v), m, w'. unfold inb. cbn [mc_mem mc_world]. rewrite Hdev, Hview. done.
Qed.

Lemma wp_for (body : Z -> M W unit) (I : Z -> memory -> vga_regs -> Prop) Q n : forall i m r,
  (forall j m' r', i <= j < i + Z.of_nat n -> I j m' r' -> wp (body j) (fun _ => I (j + 1)) m' r') ->
  I i m r -> (forall m' r', I (i + Z.of_nat n) m' r' -> Q tt m' r') -> wp (for_loop n i body) Q m r.
Proof.
  induction n as [|n IH]; intros i m r Hbody Hi HQ; cbn [for_loop].
  - apply wp_ret, HQ. by replace (i + Z.of_nat 0) with i by lia.
  - apply wp_bind. eapply wp_mono; [apply Hbody; [lia|done]|]. intros [] m' r' Hi'. apply IH; [|done|].
    + intros j m2 r2 Hj. apply Hbody. lia.
    + intros m2 r2 H2. apply HQ. by replace (i + Z.of_nat (S n)) with (i + 1 + Z.of_nat n) by lia.
Qed.

(** *** Registers behind an index port *)

Lemma index_word i v : 0 <= i < 2 ^ 8 ->
  u16 (Z.lor (Z.shiftl (u8 v) 8) i) mod 2 ^ 8 = i /\ u16 (Z.lor (Z.shiftl (u8 v) 8) i) / 2 ^ 8 = u8 v.
Proof.
  intros Hi. pose proof (u8_range v). rewrite Z.shiftl_mul_pow2, lor_add_shifted by lia. rewrite u16_small by lia. lia.
Qed.

Lemma wp_sequ_write i v Q (m : memory) r : color r -> 0 <= i < 2 ^ 8 ->
  Q tt m (write_seq kept i (u8 v) (set_seq_i i r)) -> wp (stdvga_sequ_write i v) Q m r.
Proof.
  intros Hc Hi HQ. destruct (index_word i v Hi) as [H1 H2]. eapply wp_outw; [done| |exact HQ].
  unfold card_outw. by rewrite H1, H2.
Qed.
Lemma wp_grdc_write i v Q (m : memory) r : color r -> 0 <= i < 2 ^ 8 ->
  Q tt m (write_gr kept i (u8 v) (set_gr_i i r)) -> wp (stdvga_grdc_write i v) Q m r.
Proof.
  intros Hc Hi HQ. destruct (index_word i v Hi) as [H1 H2]. eapply wp_outw; [done| |exact HQ].
  unfold card_outw. by rewrite H1, H2.
Qed.
Lemma wp_crtc_write i v Q (m : memory) r : color r -> 0 <= i < 2 ^ 8 ->
  Q tt m (write_crt kept i (u8 v) (set_crt_i i r)) -> wp (stdvga_crtc_write VGAREG_VGA_CRTC_ADDRESS i v) Q m r.
Proof.
  intros Hc Hi HQ. destruct (index_word i v Hi) as [H1 H2]. eapply wp_outw; [done| |exact HQ].
  unfold card_outw. by rewrite H1, H2.
Qed.

Lemma wp_sequ_read i Q (m : memory) r : color r -> 0 <= i < 2 ^ 8 ->
  Q (u8 (seq r i)) m (set_seq_i i r) -> wp (stdvga_sequ_read i) Q m r.
Proof.
  intros Hc Hi HQ. apply wp_bind. eapply wp_outb; [done|reflexivity|]. rewrite u8_small by lia.
  eapply wp_inb; [done|reflexivity|done].
Qed.
Lemma wp_grdc_read i Q (m : memory) r : color r -> 0 <= i < 2 ^ 8 ->
  Q (u8 (gr r i)) m (set_gr_i i r) -> wp (stdvga_grdc_read i) Q m r.
Proof.
  intros Hc Hi HQ. apply wp_bind. eapply wp_outb; [done|reflexivity|]. rewrite u8_small by lia.
  eapply wp_inb; [done|reflexivity|done].
Qed.
Lemma wp_crtc_read i Q (m : memory) r : color r -> 0 <= i < 2 ^ 8 ->
  Q (u8 (crt r i)) m (set_crt_i i r) -> wp (stdvga_crtc_read VGAREG_VGA_CRTC_ADDRESS i) Q m r.
Proof.
  intros Hc Hi HQ. apply wp_bind. eapply wp_outb; [done|reflexivity|]. rewrite u8_small by lia.
  eapply wp_inb; [done|reflexivity|done].
Qed.

(** *** The attribute controller *)

Lemma att_index i : 0 <= i < 0x20 -> Z.land (Z.land (u8 i) 0x3f) 0x1f = i.
Proof.
  intros Hi. change 0x3f with (Z.ones 6). change 0x1f with (Z.ones 5). rewrite !Z.land_ones by lia. unfold u8. lia.
Qed.

(** The index as it is written back. *)
Definition att_orig (r : vga_regs) : Z := Z.land (u8 (u8 (att_i r))) 0x3f.
Lemma wp_attr_write i v Q (m : memory) r : color r -> 0 <= i < 0x20 ->
  Q tt m (set_to_data true (set_att_i (att_orig r) (write_att kept i (u8 v) r))) -> wp (stdvga_attr_write i v) Q m r.
Proof.
  intros Hc Hi HQ. apply wp_bind, wp_status; [done|]. intros x. apply wp_bind. eapply wp_inb; [done|reflexivity|].
  apply wp_bind. eapply wp_outb; [done|reflexivity|]. apply wp_bind. eapply wp_outb; [done|reflexivity|].
  eapply wp_outb; [done|reflexivity|]. cbn [to_data att_i set_to_data set_att_i]. rewrite att_index by done. exact HQ.
Qed.
Lemma wp_attr_read i Q (m : memory) r : color r -> 0 <= i < 0x20 ->
  Q (u8 (att r i)) m (set_to_data true (set_att_i (att_orig r) r)) -> wp (stdvga_attr_read i) Q m r.
Proof.
  intros Hc Hi HQ. apply wp_bind, wp_status; [done|]. intros x. apply wp_bind. eapply wp_inb; [done|reflexivity|].
  apply wp_bind. eapply wp_outb; [done|reflexivity|]. apply wp_bind. eapply wp_inb; [done|reflexivity|].
  apply wp_bind, wp_status; [done|]. intros y. apply wp_bind. eapply wp_outb; [done|reflexivity|]. apply wp_ret.
  cbn [to_data att_i set_to_data set_att_i att]. rewrite att_index by done. exact HQ.
Qed.

(** ** The hardware state *)

(** Byte [k] of struct saveVideoHardware. *)
Definition hw_byte (r : vga_regs) (k : Z) : Z :=
  if k =? 0 then seq_i r else if k =? 1 then crt_i r else if k =? 2 then gr_i r else if k =? 3 then att_i r
  else if k =? 4 then feat r
  else if k <? 9 then seq r (k - 4) else if k =? 9 then seq r 0
  else if k <? 35 then crt r (k - 10) else if k <? 55 then att r (k - 35) else if k <? 64 then gr r (k - 55)
  else if k =? 64 then 0xd4 else if k =? 65 then 0x03 else 0.
(** The first [n] bytes at [a] are those of [f], and the others are as before. *)
Definition written (a : Z) (f : Z -> Z) (n : Z) (m m' : memory) : Prop :=
  (forall k, 0 <= k < n -> read8 m' (a + k) = f k) /\ (forall b, b < a \/ a + n <= b -> read8 m' b = read8 m b).

Lemma written_nothing a f m : written a f 0 m m.
Proof. split; [intros; lia|done]. Qed.
Lemma written_step a f n m m' v : written a f n m m' -> 0 <= n -> u8 v = f n -> written a f (n + 1) m (write8 (a + n) v m').
Proof.
  intros [Hin Hout] Hn Hv. split.
  - intros k Hk. rewrite read8_write8. case_decide as Hd; [|apply Hin; lia]. by replace k with n by lia.
  - intros b Hb. rewrite read8_write8_ne by lia. apply Hout. lia.
Qed.

(** Only the index registers, and what else reading changes, differ. *)
Definition like (r0 r : vga_regs) : Prop :=
  exists a b c d e, r = set_seq_i a (set_crt_i b (set_gr_i c (set_to_data d (set_pel_r e r0)))).
Lemma like_refl r : like r r.
Proof. exists (seq_i r), (crt_i r), (gr_i r), (to_data r), (pel_r r). by destruct r. Qed.
Lemma like_color r0 r : like r0 r -> color r0 -> color r.
Proof. by intros (a & b & c & d & e & ->). Qed.

Lemma att_orig_ok r : regs_ok kept r -> att_orig r = att_i r.
Proof.
  intros Hr. pose proof (ok_att_i _ _ Hr). unfold att_orig. change 0x3f with (Z.ones 6). rewrite Z.land_ones by lia. unfold u8. lia.
Qed.
Lemma like_att r0 r d : like r0 r -> regs_ok kept r0 -> like r0 (set_to_data d (set_att_i (att_orig r) r)).
Proof.
  intros (a & b & c & d' & e & ->) Hr.
  replace (att_orig _) with (att_i r0) by (rewrite <- (att_orig_ok r0) by done; done).
  exists a, b, c, d, e. by destruct r0.
Qed.

(** Saving the registers of a bank. *)
Lemma wp_save_regs n a k0 f read m0 r0 Q m r : 0 <= k0 -> regs_ok kept r0 -> color r0 ->
  (forall i m r P, 0 <= i < Z.of_nat n -> like r0 r -> (forall r', like r0 r' -> P (u8 (f (k0 + i))) m r') -> wp (read i) P m r) ->
  like r0 r -> written a f k0 m0 m -> (forall i, 0 <= i < Z.of_nat n -> is_byte (f (k0 + i))) ->
  (forall m' r', like r0 r' -> written a f (k0 + Z.of_nat n) m0 m' -> Q tt m' r') ->
  wp (save_regs n (a + k0) read) Q m r.
Proof.
  intros Hk0 Hr0 Hc Hread Hlike Hw Hb HQ. unfold save_regs.
  eapply (wp_for _ (fun i m' r' => like r0 r' /\ written a f (k0 + i) m0 m')).
  - intros j m' r' Hj [Hl Hwr]. apply wp_bind. apply Hread; [lia|done|]. intros r2 Hl2. apply wp_put8. split; [done|].
    rewrite <- Z.add_assoc, Z.add_assoc. replace (a + k0 + j) with (a + (k0 + j)) by lia. replace (k0 + (j + 1)) with (k0 + j + 1) by lia.
    apply written_step; [done|lia|]. assert (Hbj := Hb j ltac:(lia)). unfold is_byte in Hbj. by rewrite !(u8_small (f _)) by (rewrite ?u8_small; lia).
  - by rewrite Z.add_0_r.
  - intros m' r' [Hl Hwr]. by apply HQ.
Qed.

Lemma wp_get_crtc Q (m : memory) r : color r -> Q VGAREG_VGA_CRTC_ADDRESS m r -> wp stdvga_get_crtc Q m r.
Proof.
  intros Hc HQ. apply wp_bind. eapply wp_inb; [done|reflexivity|]. apply wp_ret.
  assert (Hv : truthy (Z.land (u8 (misc r)) 1) = true).
  { change 1 with (Z.ones 1). rewrite Z.land_ones by lia. unfold color in Hc. apply Zodd_bool_iff, Zodd_ex_iff in Hc as [k Hk].
    unfold truthy, u8. change (2 ^ 1) with 2. lia. }
  by rewrite Hv.
Qed.

(** The values of the banks in the saved area. *)
Ltac hw_offset :=
  unfold hw_byte;
  repeat match goal with
    | |- context [?x =? ?y] => destruct (Z.eqb_spec x y); [lia|]
    | |- context [?x <? ?y] => destruct (Z.ltb_spec x y); [try lia|try lia]
    end.
Lemma hw_byte_seq r i : 0 <= i < 4 -> hw_byte r (5 + i) = seq r (i + 1).
Proof. intros Hi. hw_offset. f_equal. lia. Qed.
Lemma hw_byte_crt r i : 0 <= i < 25 -> hw_byte r (10 + i) = crt r i.
Proof. intros Hi. hw_offset. f_equal. lia. Qed.
Lemma hw_byte_att r i : 0 <= i < 20 -> hw_byte r (35 + i) = att r i.
Proof. intros Hi. hw_offset. f_equal. lia. Qed.
Lemma hw_byte_gr r i : 0 <= i < 9 -> hw_byte r (55 + i) = gr r i.
Proof. intros Hi. hw_offset. f_equal. lia. Qed.
Lemma hw_byte_ok r k : regs_ok kept r -> is_byte (hw_byte r k).
Proof.
  intros Hr. unfold hw_byte. pose proof (ok_att_i _ _ Hr).
  repeat case_match; try apply Hr; unfold is_byte; lia.
Qed.

Lemma wp_save_hw seg info Q (m : memory) r0 : color r0 -> regs_ok kept r0 ->
  (forall m' r', like r0 r' -> written (far seg info) (hw_byte r0) 70 m m' -> Q tt m' r') ->
  wp (stdvga_save_hw_state seg info) Q m r0.
Proof.
  intros Hc Hr HQ. unfold stdvga_save_hw_state. set (a := far seg info) in *.
  assert (Hb : forall k, is_byte (hw_byte r0 k)) by (intros k; by apply hw_byte_ok).
  assert (Hu : forall k, u8 (hw_byte r0 k) = hw_byte r0 k) by (intros k; by apply u8_small, Hb).
  assert (Huu : forall k, u8 (u8 (hw_byte r0 k)) = hw_byte r0 k) by (intros k; by rewrite !Hu).
  apply wp_bind, wp_get_crtc; [done|].
  apply wp_bind. eapply wp_inb; [done|reflexivity|]. apply wp_bind, wp_put8.
  apply wp_bind. eapply wp_inb; [done|reflexivity|]. apply wp_bind, wp_put8.
  apply wp_bind. eapply wp_inb; [done|reflexivity|]. apply wp_bind, wp_put8.
  apply wp_bind. apply wp_bind, wp_status; [done|]. intros st. eapply wp_inb; [done|reflexivity|]. apply wp_bind, wp_put8.
  apply wp_bind. eapply wp_inb; [done|reflexivity|]. apply wp_bind, wp_put8.
  apply wp_bind. eapply (wp_save_regs 4 a 5 (hw_byte r0)); [lia|done|done| | | |intros; apply Hb| ].
  { intros i m1 r1 P Hi Hl HP. apply wp_sequ_read; [by eapply like_color|lia|]. rewrite hw_byte_seq in HP by lia.
    destruct Hl as (x1 & x2 & x3 & x4 & x5 & ->). apply HP. by exists (i + 1), x2, x3, x4, x5. }
  { exists (seq_i r0), (crt_i r0), (gr_i r0), false, (pel_r r0). by destruct r0. }
  { apply (written_step _ _ 4); [|lia|apply (Huu 4)]. apply (written_step _ _ 3); [|lia|apply (Huu 3)].
    apply (written_step _ _ 2); [|lia|apply (Huu 2)]. apply (written_step _ _ 1); [|lia|apply (Huu 1)].
    apply (written_step _ _ 0); [|lia|apply (Huu 0)]. apply written_nothing. }
  intros m1 r1 Hl1 Hw1. apply wp_bind. apply wp_sequ_read; [by eapply like_color|lia|]. apply wp_bind, wp_put8.
  destruct Hl1 as (x1 & x2 & x3 & x4 & x5 & ->).
  apply wp_bind. eapply (wp_save_regs 25 a 10 (hw_byte r0)); [lia|done|done| | | |intros; apply Hb| ].
  { intros i m2 r2 P Hi Hl HP. apply wp_crtc_read; [by eapply like_color|lia|]. rewrite hw_byte_crt in HP by lia.
    destruct Hl as (y1 & y2 & y3 & y4 & y5 & ->). apply HP. by exists y1, i, y3, y4, y5. }
  { by exists 0, x2, x3, x4, x5. }
  { apply (written_step _ _ 9); [exact Hw1|lia|apply (Huu 9)]. }
  intros m2 r2 Hl2 Hw2. apply wp_bind. eapply (wp_save_regs 20 a 35 (hw_byte r0)); [lia|done|done| |exact Hl2|exact Hw2|intros; apply Hb| ].
  { intros i m3 r3 P Hi Hl HP. apply wp_attr_read; [by eapply like_color|lia|]. rewrite hw_byte_att in HP by lia.
    assert (Ha : att r3 = att r0) by (by destruct Hl as (y1 & y2 & y3 & y4 & y5 & ->)). rewrite Ha. apply HP. by apply like_att. }
  intros m3 r3 Hl3 Hw3. apply wp_bind. eapply (wp_save_regs 9 a 55 (hw_byte r0)); [lia|done|done| |exact Hl3|exact Hw3|intros; apply Hb| ].
  { intros i m4 r4 P Hi Hl HP. apply wp_grdc_read; [by eapply like_color|lia|]. rewrite hw_byte_gr in HP by lia.
    destruct Hl as (y1 & y2 & y3 & y4 & y5 & ->). apply HP. by exists y1, y2, i, y4, y5. }
  intros m4 r4 Hl4 Hw4. apply wp_bind, wp_put16.
  eapply (wp_save_regs 4 a 66 (hw_byte r0)); [lia|done|done| |exact Hl4| |intros; apply Hb|exact HQ].
  { intros i m5 r5 P Hi Hl HP. apply wp_ret. assert (Hz : hw_byte r0 (66 + i) = 0).
    { by hw_offset. }
    rewrite Hz in HP. by apply HP. }
  change 66 with (65 + 1). unfold write16, SaveHw.crtc_addr. rewrite <- (Z.add_assoc a 64 1).
  apply (written_step _ _ 65); [|lia|done]. by apply (written_step _ _ 64).
Qed.

(** The registers of the saved state, and the palette of the current one. *)
Record restored_hw (r0 r r' : vga_regs) : Prop := {
  rs_color : color r';
  rs_seq_i : seq_i r' = seq_i r0; rs_crt_i : crt_i r' = crt_i r0; rs_gr_i : gr_i r' = gr_i r0;
  rs_att_i : att_i r' = att_i r0; rs_feat : feat r' = feat r0;
  rs_seq : forall i, 0 <= i < 5 -> seq r' i = seq r0 i;
  rs_crt : forall i, 0 <= i < 25 -> crt r' i = crt r0 i;
  rs_gr : forall i, 0 <= i < 9 -> gr r' i = gr r0 i;
  rs_att : forall i, 0 <= i < 20 -> att r' i = att r0 i;
  rs_pel : pel r' = pel r; rs_pel_mask : pel_mask r' = pel_mask r; rs_pel_w : pel_w r' = pel_w r }.

(** The part of the card the following registers are not in. *)
Definition same_pel (r r' : vga_regs) : Prop := pel r' = pel r /\ pel_mask r' = pel_mask r /\ pel_w r' = pel_w r.

Lemma wp_load_regs n a write (I : Z -> vga_regs -> Prop) Q m r :
  (forall i r', 0 <= i < Z.of_nat n -> I i r' -> wp (write i (read8 m (a + i))) (fun _ m' r2 => m' = m /\ I (i + 1) r2) m r') ->
  I 0 r -> (forall r', I (Z.of_nat n) r' -> Q tt m r') -> wp (load_regs n a write) Q m r.
Proof.
  intros Hwrite Hi HQ. unfold load_regs. eapply (wp_for _ (fun i m' r' => m' = m /\ I i r')).
  - intros j m' r' Hj [-> Hr']. apply wp_bind, wp_get8. by apply Hwrite.
  - done.
  - intros m' r' [-> Hr']. by apply HQ.
Qed.

Lemma write_crt_open i v r : Z.testbit (crt r 0x11) 7 = false \/ 7 < i ->
  write_crt kept i v r = set_crt (put (crt r) i (Z.land v (kept CRT i))) r.
Proof.
  intros Hi. unfold write_crt. destruct Hi as [-> |Hi]; [done|]. destruct (Z.leb_spec i 7); [lia|]. by rewrite andb_false_r.
Qed.

Lemma wp_misc_mask Q (m : memory) r : color r -> (forall v, Z.odd v = true -> Q tt m (set_misc v r)) -> wp (stdvga_misc_mask 0x01 0x01) Q m r.
Proof.
  intros Hc HQ. apply wp_bind. eapply wp_inb; [done|reflexivity|]. eapply wp_outb; [done|reflexivity|]. apply HQ.
  unfold u8. rewrite <- !Z.bit0_odd, !Z.mod_pow2_bits_low, Z.lor_spec by lia. apply orb_true_r.
Qed.

(** What has been restored, in the order of the code. *)
Definition seq_done (r0 r' : vga_regs) : Prop := forall i, 0 <= i < 5 -> seq r' i = seq r0 i.
Definition crt_done (r0 r' : vga_regs) : Prop := forall i, 0 <= i < 25 -> crt r' i = crt r0 i.
Definition att_done (r0 r' : vga_regs) : Prop := forall i, 0 <= i < 20 -> att r' i = att r0 i.
Definition hw_saved (a : Z) (r0 : vga_regs) (m : memory) : Prop := forall k, 0 <= k < 70 -> read8 m (a + k) = hw_byte r0 k.

Section Restore.
Context (r0 : vga_regs) (a : Z) (m : memory).
Context (Hr0 : regs_ok kept r0) (Hsaved : hw_saved a r0 m).

(** A saved value is kept when it is written. *)
Lemma saved_seq i : 0 <= i < 4 -> Z.land (u8 (read8 m (a + SaveHw.sequ_regs + i))) (kept SEQ (i + 1)) = seq r0 (i + 1).
Proof.
  intros Hi. unfold SaveHw.sequ_regs. rewrite <- Z.add_assoc, Hsaved, hw_byte_seq by lia.
  destruct (ok_seq _ _ Hr0 (i + 1)) as [Hb Hk]. by rewrite u8_small.
Qed.
Lemma saved_crt i : 0 <= i < 25 -> Z.land (u8 (read8 m (a + SaveHw.crtc_regs + i))) (kept CRT i) = crt r0 i.
Proof.
  intros Hi. unfold SaveHw.crtc_regs. rewrite <- Z.add_assoc, Hsaved, hw_byte_crt by lia.
  destruct (ok_crt _ _ Hr0 i) as [Hb Hk]. by rewrite u8_small.
Qed.
Lemma saved_att i : 0 <= i < 20 -> Z.land (u8 (read8 m (a + SaveHw.actl_regs + i))) (kept ATT i) = att r0 i.
Proof.
  intros Hi. unfold SaveHw.actl_regs. rewrite <- Z.add_assoc, Hsaved, hw_byte_att by lia.
  destruct (ok_att _ _ Hr0 i) as [Hb Hk]. by rewrite u8_small.
Qed.
Lemma saved_gr i : 0 <= i < 9 -> Z.land (u8 (read8 m (a + SaveHw.grdc_regs + i))) (kept GR i) = gr r0 i.
Proof.
  intros Hi. unfold SaveHw.grdc_regs. rewrite <- Z.add_assoc, Hsaved, hw_byte_gr by lia.
  destruct (ok_gr _ _ Hr0 i) as [Hb Hk]. by rewrite u8_small.
Qed.

(** One bank more, the rest as it was. *)
Lemma put_done (f g : Z -> Z) n v : (forall j, 0 <= j < n -> f j = g j) -> v = g n -> forall j, 0 <= j < n + 1 -> put f n v j = g j.
Proof.
  intros Hf Hv j Hj. destruct (decide (j = n)) as [->|Hne]; [by rewrite put_eq|]. rewrite put_ne by done. apply Hf. lia.
Qed.

Lemma wp_restore_seq (k : M W unit) Q r : color r ->
  (forall r', color r' -> same_pel r r' -> seq_done r0 r' -> wp k Q m r') ->
  wp (do load_regs 4 (a + SaveHw.sequ_regs) (fun i => stdvga_sequ_write (i + 1)) ;;
      v <- get8 (a + SaveHw.sequ0) ;; do stdvga_sequ_write 0x00 v ;; k) Q m r.
Proof.
  intros Hc HQ. apply wp_bind.
  eapply (wp_load_regs 4 _ _ (fun i r' => color r' /\ same_pel r r' /\ forall j, 0 <= j < i -> seq r' (j + 1) = seq r0 (j + 1))).
  - intros i r' Hi (Hc' & Hp & Hs). apply wp_sequ_write; [done|lia|]. do 3 (split; [done|]). cbn [seq write_seq set_seq set_seq_i].
    intros j Hj. rewrite saved_seq by lia. destruct (decide (j = i)) as [->|Hne]; [by rewrite put_eq|].
    rewrite put_ne by lia. apply Hs. lia.
  - split; [done|]. split; [done|]. intros; lia.
  - intros r' (Hc' & Hp & Hs). apply wp_bind, wp_get8, wp_bind, wp_sequ_write; [done|lia|]. apply HQ; [done..|].
    intros i Hi. cbn [seq write_seq set_seq set_seq_i]. destruct (decide (i = 0)) as [->|Hne].
    + rewrite put_eq. unfold SaveHw.sequ0. rewrite Hsaved by lia. destruct (ok_seq _ _ Hr0 0) as [Hb Hk].
      change (hw_byte r0 9) with (seq r0 0). by rewrite !u8_small by (rewrite ?u8_small by done; done).
    + rewrite put_ne by done. replace i with (i - 1 + 1) by lia. apply Hs. lia.
Qed.

Lemma wp_restore_crt (k : M W unit) Q r : color r ->
  (forall r', color r' -> same_pel r r' -> seq r' = seq r -> crt_done r0 r' -> wp k Q m r') ->
  wp (do stdvga_crtc_write VGAREG_VGA_CRTC_ADDRESS 0x11 0x00 ;;
      do for_loop 25 0 (fun i =>
        if negb (i =? 0x11) then v <- get8 (a + SaveHw.crtc_regs + i) ;; stdvga_crtc_write VGAREG_VGA_CRTC_ADDRESS i v else ret tt) ;;
      do stdvga_misc_mask 0x01 0x01 ;;
      v <- get8 (a + SaveHw.crtc_regs + 0x11) ;; do stdvga_crtc_write VGAREG_VGA_CRTC_ADDRESS 0x11 v ;; k) Q m r.
Proof.
  intros Hc HQ. apply wp_bind, wp_crtc_write; [done|lia|]. rewrite write_crt_open by (right; lia).
  apply wp_bind. eapply (wp_for _ (fun i m' r' => m' = m /\ color r' /\ same_pel r r' /\ seq r' = seq r /\ crt r' 0x11 = 0 /\
    forall j, 0 <= j < i -> j <> 0x11 -> crt r' j = crt r0 j)).
  - intros i m' r' Hi (-> & Hc' & Hp & Hs & Hopen & Hcrt). destruct (Z.eqb_spec i 0x11) as [->|Hne]; cbn [negb].
    + apply wp_ret. split_and!; try done. intros j Hj Hj17. apply Hcrt; lia.
    + apply wp_bind, wp_get8, wp_crtc_write; [done|lia|].
      rewrite write_crt_open by (left; cbn [crt set_crt_i]; by rewrite Hopen). cbn [crt set_crt set_crt_i].
      split_and!; try done; cbn [crt set_crt set_crt_i]; [by rewrite put_ne by done|].
      intros j Hj Hj17. rewrite saved_crt by lia. destruct (decide (j = i)) as [->|Hji]; [by rewrite put_eq|].
      rewrite put_ne by done. apply Hcrt; lia.
  - split_and!; try done. intros; lia.
  - intros m' r' (-> & Hc' & Hp & Hs & Hopen & Hcrt). apply wp_bind, wp_misc_mask; [done|]. intros v Hv.
    apply wp_bind, wp_get8, wp_bind, wp_crtc_write; [done|lia|]. rewrite write_crt_open by (right; lia).
    apply HQ; [done..|]. intros i Hi. cbn [crt set_crt set_crt_i set_misc]. rewrite saved_crt by lia.
    destruct (decide (i = 0x11)) as [->|Hne]; [by rewrite put_eq|]. rewrite put_ne by done. apply Hcrt; lia.
Qed.

Lemma wp_restore_att (k : M W unit) Q r : color r ->
  (forall r', color r' -> same_pel r r' -> seq r' = seq r -> crt r' = crt r -> att_done r0 r' -> att_i r' = att_i r0 -> wp k Q m r') ->
  wp (do load_regs 20 (a + SaveHw.actl_regs) stdvga_attr_write ;;
      v <- get8 (a + SaveHw.actl_index) ;; do stdvga_attrindex_write v ;; k) Q m r.
Proof.
  intros Hc HQ. apply wp_bind.
  eapply (wp_load_regs 20 _ _ (fun i r' => color r' /\ same_pel r r' /\ seq r' = seq r /\ crt r' = crt r /\
    forall j, 0 <= j < i -> att r' j = att r0 j)).
  - intros i r' Hi (Hc' & Hp & Hs & Hkk & Ha). apply wp_attr_write; [done|lia|]. split_and!; try done.
    cbn [att write_att set_att set_att_i set_to_data]. apply put_done; [done|]. by apply saved_att.
  - split_and!; try done. intros; lia.
  - intros r' (Hc' & Hp & Hs & Hkk & Ha). apply wp_bind, wp_get8. apply wp_bind, wp_bind, wp_status; [done|]. intros st.
    eapply wp_outb; [done|reflexivity|]. apply HQ; try done. cbn [to_data att_i set_to_data set_att_i].
    unfold SaveHw.actl_index. rewrite Hsaved by lia. pose proof (ok_att_i _ _ Hr0).
    change 0x3f with (Z.ones 6). rewrite Z.land_ones by lia. change (hw_byte r0 3) with (att_i r0). unfold u8. lia.
Qed.

Lemma wp_restore_gr Q r : color r ->
  (forall r', color r' -> same_pel r r' -> seq r' = seq r -> crt r' = crt r -> att r' = att r -> att_i r' = att_i r ->
     (forall i, 0 <= i < 9 -> gr r' i = gr r0 i) ->
     seq_i r' = seq_i r0 -> crt_i r' = crt_i r0 -> gr_i r' = gr_i r0 -> feat r' = feat r0 -> Q tt m r') ->
  wp (do load_regs 9 (a + SaveHw.grdc_regs) stdvga_grdc_write ;;
      v <- get8 (a + SaveHw.sequ_index) ;; do outb v VGAREG_SEQU_ADDRESS ;;
      v <- get8 (a + SaveHw.crtc_index) ;; do outb v VGAREG_VGA_CRTC_ADDRESS ;;
      v <- get8 (a + SaveHw.grdc_index) ;; do outb v VGAREG_GRDC_ADDRESS ;;
      v <- get8 (a + SaveHw.feature) ;; outb v (VGAREG_VGA_CRTC_ADDRESS - 0x4 + 0xa)) Q m r.
Proof.
  intros Hc HQ. apply wp_bind.
  eapply (wp_load_regs 9 _ _ (fun i r' => color r' /\ same_pel r r' /\ seq r' = seq r /\ crt r' = crt r /\ att r' = att r /\
    att_i r' = att_i r /\ forall j, 0 <= j < i -> gr r' j = gr r0 j)).
  - intros i r' Hi (Hc' & Hp & Hs & Hkk & Ha & Hai & Hg). apply wp_grdc_write; [done|lia|]. split_and!; try done.
    cbn [gr write_gr set_gr set_gr_i]. apply put_done; [done|]. by apply saved_gr.
  - split_and!; try done. intros; lia.
  - intros r' (Hc' & Hp & Hs & Hkk & Ha & Hai & Hg).
    apply wp_bind, wp_get8. apply wp_bind. eapply wp_outb; [done|reflexivity|].
    apply wp_bind, wp_get8. apply wp_bind. eapply wp_outb; [done|reflexivity|].
    apply wp_bind, wp_get8. apply wp_bind. eapply wp_outb; [done|reflexivity|].
    apply wp_bind, wp_get8. eapply wp_outb; [done|reflexivity|].
    assert (Hu : forall k, 0 <= k < 70 -> u8 (read8 m (a + k)) = hw_byte r0 k)
      by (intros k Hk'; rewrite Hsaved by done; apply u8_small, hw_byte_ok, Hr0).
    apply HQ; try done.
    + exact (Hu 0 ltac:(lia)).
    + exact (Hu 1 ltac:(lia)).
    + exact (Hu 2 ltac:(lia)).
    + exact (Hu 4 ltac:(lia)).
Qed.
End Restore.

Lemma wp_restore_hw seg info Q (m : memory) r r0 : color r -> regs_ok kept r0 -> hw_saved (far seg info) r0 m ->
  (forall r', restored_hw r0 r r' -> Q tt m r') -> wp (stdvga_restore_hw_state seg info) Q m r.
Proof.
  intros Hc Hr0 Hsaved HQ. unfold stdvga_restore_hw_state. set (a := far seg info) in *.
  apply (wp_restore_seq r0 a m Hr0 Hsaved); [done|]. intros r1 Hc1 Hp1 Hs1. apply wp_bind, wp_get16.
  assert (Hcrtc : read16 m (a + SaveHw.crtc_addr) = VGAREG_VGA_CRTC_ADDRESS).
  { unfold read16, SaveHw.crtc_addr. rewrite <- Z.add_assoc. by rewrite !Hsaved by lia. }
  rewrite Hcrtc. change (if VGAREG_VGA_CRTC_ADDRESS =? VGAREG_VGA_CRTC_ADDRESS then 0x01 else 0x00) with 0x01.
  apply (wp_restore_crt r0 a m Hr0 Hsaved); [done|]. intros r2 Hc2 Hp2 Hs2 Hk2.
  apply (wp_restore_att r0 a m Hr0 Hsaved); [done|]. intros r3 Hc3 Hp3 Hs3 Hk3 Ha3 Hai3.
  apply (wp_restore_gr r0 a m Hr0 Hsaved); [done|]. intros r4 Hc4 Hp4 Hs4 Hk4 Ha4 Hai4 Hg4 H1 H2 H3 H4.
  apply HQ. destruct Hp1 as (Hpa1 & Hpb1 & Hpc1), Hp2 as (Hpa2 & Hpb2 & Hpc2), Hp3 as (Hpa3 & Hpb3 & Hpc3), Hp4 as (Hpa4 & Hpb4 & Hpc4).
  constructor; try done; try congruence.
  - intros i Hi. rewrite Hs4, Hs3, Hs2. by apply Hs1.
  - intros i Hi. rewrite Hk4, Hk3. by apply Hk2.
  - intros i Hi. rewrite Ha4. by apply Ha3.
Qed.

(** ** The palette *)

(** Byte [k] of struct saveDACcolors; the first is the state of the DAC. *)
Definition dac_byte (r : vga_regs) (x k : Z) : Z :=
  if k =? 0 then x else if k =? 1 then pel_w r / 3 else if k =? 2 then pel_mask r
  else if k <? 771 then pel r (k - 3) else 0.
Lemma dac_byte_pel r x i : 0 <= i < 768 -> dac_byte r x (3 + i) = pel r i.
Proof.
  intros Hi. unfold dac_byte.
  repeat match goal with
    | |- context [?x =? ?y] => destruct (Z.eqb_spec x y); [lia|]
    | |- context [?x <? ?y] => destruct (Z.ltb_spec x y); [try lia|try lia]
    end. f_equal. lia.
Qed.

Lemma wp_dac_in a x m0 r0 Q n : color r0 -> regs_ok kept r0 -> forall i m r,
  like r0 r -> pel_r r = i -> 0 <= i -> i + Z.of_nat n <= 768 -> written a (dac_byte r0 x) (3 + i) m0 m ->
  (forall m' r', like r0 r' -> written a (dac_byte r0 x) (3 + i + Z.of_nat n) m0 m' -> Q tt m' r') ->
  wp (dac_in n (a + (3 + i))) Q m r.
Proof.
  intros Hc Hr0. induction n as [|n IH]; intros i m r Hl Hpr Hi Hn Hw HQ; cbn [dac_in].
  { apply wp_ret, HQ; [done|]. by replace (3 + i + Z.of_nat 0) with (3 + i) by lia. }
  pose proof (like_color _ _ Hl Hc) as Hcr. apply wp_bind. eapply wp_inb; [done|reflexivity|]. apply wp_bind, wp_put8.
  assert (Hpel : pel r = pel r0) by (by destruct Hl as (y1 & y2 & y3 & y4 & y5 & ->)).
  assert (Hl' : like r0 (set_pel_r ((pel_r r + 1) mod 768) r)).
  { destruct Hl as (y1 & y2 & y3 & y4 & y5 & ->). by exists y1, y2, y3, y4, ((y5 + 1) mod 768). }
  assert (Hstep : written a (dac_byte r0 x) (3 + (i + 1)) m0 (write8 (a + (3 + i)) (u8 (pel r (pel_r r))) m)).
  { replace (3 + (i + 1)) with (3 + i + 1) by lia. apply written_step; [done|lia|].
    rewrite dac_byte_pel, Hpel, Hpr by lia. pose proof (ok_pel _ _ Hr0 i). rewrite !u8_small by (rewrite ?u8_small; lia). done. }
  replace (a + (3 + i) + 1) with (a + (3 + (i + 1))) by lia. destruct (decide (n = 0%nat)) as [->|Hn0].
  - cbn [dac_in]. apply wp_ret, HQ; [done|]. by replace (3 + i + Z.of_nat 1) with (3 + (i + 1)) by lia.
  - apply IH; [done| |lia|lia|done|].
    + cbn [pel_r set_pel_r]. rewrite Hpr. apply Z.mod_small. lia.
    + intros m' r' Hl2 Hw2. apply HQ; [done|]. by replace (3 + i + Z.of_nat (S n)) with (3 + (i + 1) + Z.of_nat n) by lia.
Qed.

Lemma wp_save_dac seg info Q (m : memory) r0 r : color r0 -> regs_ok kept r0 -> like r0 r ->
  (forall x m' r', like r0 r' -> written (far seg info) (dac_byte r0 x) 772 m m' -> Q tt m' r') ->
  wp (stdvga_save_dac_state seg info) Q m r.
Proof.
  intros Hc Hr0 Hl HQ. unfold stdvga_save_dac_state. set (a := far seg info) in *.
  pose proof (like_color _ _ Hl Hc) as Hcr.
  assert (Hw : pel_w r = pel_w r0 /\ pel_mask r = pel_mask r0) by (by destruct Hl as (y1 & y2 & y3 & y4 & y5 & ->)).
  destruct Hw as [Hpw Hpm]. pose proof (ok_pel_w _ _ Hr0) as Hbw. pose proof (ok_pel_mask _ _ Hr0) as Hbm. unfold is_byte in Hbm.
  apply wp_bind, wp_dac_state; [done|]. intros x. apply wp_bind, wp_put8.
  apply wp_bind. eapply wp_inb; [done|reflexivity|]. apply wp_bind, wp_put8.
  apply wp_bind. eapply wp_inb; [done|reflexivity|]. apply wp_bind, wp_put8.
  apply wp_bind. unfold stdvga_dac_read. apply wp_bind. eapply wp_outb; [done|reflexivity|].
  rewrite far_add. fold a. change (a + SaveDac.dac) with (a + (3 + 0)). change (3 * Z.to_nat 256)%nat with 768%nat.
  eapply (wp_dac_in a (u8 x) m r0); [done|done| |done|lia|lia| |].
  - destruct Hl as (y1 & y2 & y3 & y4 & y5 & ->). by exists y1, y2, y3, y4, (u8 0 * 3).
  - unfold SaveDac.rwmode, SaveDac.peladdr, SaveDac.pelmask.
    apply (written_step _ _ 2); [|lia|]. 2: { change (dac_byte r0 (u8 x) 2) with (pel_mask r0). rewrite Hpm. by rewrite !u8_small by (rewrite ?u8_small; lia). }
    apply (written_step _ _ 1); [|lia|]. 2: { change (dac_byte r0 (u8 x) 1) with (pel_w r0 / 3). rewrite Hpw. by rewrite !u8_small by (rewrite ?u8_small; lia). }
    apply (written_step _ _ 0); [|lia|]. 2: { change (dac_byte r0 (u8 x) 0) with (u8 x). apply u8_small, u8_range. }
    apply written_nothing.
  - intros m' r' Hl' Hw'. apply wp_put8. eapply HQ; [done|]. unfold SaveDac.color_select.
    change 772 with (771 + 1). apply written_step; [exact Hw'|lia|done].
Qed.

(** The palette of the saved state, and the registers of the current one. *)
Record restored_dac (r0 r r' : vga_regs) : Prop := {
  rd_pel : forall i, 0 <= i < 768 -> pel r' i = pel r0 i;
  rd_pel_mask : pel_mask r' = pel_mask r0;
  rd_pel_w : pel_w r' / 3 = pel_w r0 / 3;
  rd_other : exists x y z, r' = set_pel_mask x (set_pel_w y (set_pel z r)) }.

Lemma wp_dac_out a x m r0 r1 Q n : regs_ok kept r0 -> (forall k, 0 <= k < 771 -> read8 m (a + k) = dac_byte r0 x k) ->
  color r1 -> forall i f, 0 <= i -> i + Z.of_nat n <= 768 -> (forall j, 0 <= j < i -> f j = pel r0 j) ->
  (forall w g, (forall j, 0 <= j < i + Z.of_nat n -> g j = pel r0 j) -> Q tt m (set_pel_w w (set_pel g r1))) ->
  wp (dac_out n (a + (3 + i))) Q m (set_pel_w i (set_pel f r1)).
Proof.
  intros Hr0 Hsaved Hc. induction n as [|n IH]; intros i f Hi Hn Hf HQ; cbn [dac_out].
  { apply wp_ret, HQ. intros j Hj. apply Hf. lia. }
  apply wp_bind, wp_get8. apply wp_bind. eapply wp_outb; [done|reflexivity|].
  replace (a + (3 + i) + 1) with (a + (3 + (i + 1))) by lia. cbn [pel pel_w set_pel set_pel_w].
  assert (Hv : Z.land (u8 (read8 m (a + (3 + i)))) 0x3f = pel r0 i).
  { rewrite Hsaved, dac_byte_pel by lia. pose proof (ok_pel _ _ Hr0 i). change 0x3f with (Z.ones 6). rewrite Z.land_ones by lia.
    unfold u8. lia. }
  rewrite Hv. assert (Hf' : forall j, 0 <= j < i + 1 -> put f i (pel r0 i) j = pel r0 j) by (by apply put_done).
  destruct (decide (n = 0%nat)) as [->|Hn0].
  - cbn [dac_out]. apply wp_ret. apply (HQ ((i + 1) mod 768) (put f i (pel r0 i))). intros j Hj. apply Hf'. lia.
  - rewrite Z.mod_small by lia. apply (IH (i + 1) (put f i (pel r0 i))); [lia|lia|done|]. intros w g Hg. apply HQ. intros j Hj. apply Hg. lia.
Qed.

Lemma wp_restore_dac seg info x Q (m : memory) r r0 : color r -> regs_ok kept r0 ->
  (forall k, 0 <= k < 771 -> read8 m (far seg info + k) = dac_byte r0 x k) ->
  (forall r', restored_dac r0 r r' -> Q tt m r') -> wp (stdvga_restore_dac_state seg info) Q m r.
Proof.
  intros Hc Hr0 Hsaved HQ. unfold stdvga_restore_dac_state. set (a := far seg info) in *.
  apply wp_bind, wp_get8. apply wp_bind. eapply wp_outb; [done|reflexivity|].
  apply wp_bind. unfold stdvga_dac_write. apply wp_bind. eapply wp_outb; [done|reflexivity|].
  rewrite far_add. fold a. change (a + SaveDac.dac) with (a + (3 + 0)). change (3 * Z.to_nat 256)%nat with 768%nat.
  set (r1 := set_pel_mask _ r). change (set_pel_w (u8 0 * 3) r1) with (set_pel_w 0 (set_pel (pel r1) r1)).
  eapply (wp_dac_out a x m r0 r1); [done|done|done|lia|lia|intros; lia|]. intros w g Hg. apply wp_bind, wp_get8.
  eapply wp_outb; [done|reflexivity|]. apply HQ. unfold r1, SaveDac.pelmask, SaveDac.peladdr.
  pose proof (ok_pel_mask _ _ Hr0) as Hbm. unfold is_byte in Hbm. pose proof (ok_pel_w _ _ Hr0) as Hbw.
  rewrite !Hsaved by lia. change (dac_byte r0 x 2) with (pel_mask r0). change (dac_byte r0 x 1) with (pel_w r0 / 3).
  constructor.
  - intros i Hi. apply Hg. lia.
  - by apply u8_small.
  - cbn [pel_w set_pel_w]. rewrite u8_small by lia. lia.
  - by eexists _, _, g.
Qed.
End State.

(** ** AH=1Ch *)

Section Service.
Context {W : Type} `{Env W} `{Ports W}.
Context (kept : Z -> Z -> Z) (view : W -> vga_regs) (card : is_card kept view).
Context (CONFIG_VGA_STDVGA_PORTS CONFIG_VGA_EMULATE_TEXT CONFIG_VGA_ALLOCATE_EXTRA_STACK CONFIG_VGA_CIRRUS CONFIG_VGA_VBE : bool).
Context (mode_at : Z -> vgamode_s).
Context (vgahw_get_linelength vgahw_get_displaystart : vgamode_s -> M W Z).
Context (VBE_framebuffer SS gdt data_fl : Z).
Context (vgahw_find_mode : Z -> M W Z) (vgahw_set_mode : Z -> Z -> M W Z).
Context (vgahw_set_displaystart : vgamode_s -> Z -> M W Z).
Context (global_seg vgafont8 vgafont14 vgafont16 vgafont14alt vgafont16alt static_functionality rgb : Z).
Context (clext_1012 handle_104f : bregs -> M W bregs).
Implicit Types (s : machine W) (m : memory) (r : vga_regs).

(** The standard VGA's functions in the choice of vgahw.h. *)
Abbreviation save_restore := (stdvga_save_restore (VgaBios.bda_save_restore vgahw_find_mode)).
Abbreviation handle_10 := (VgaBios.handle_10 CONFIG_VGA_STDVGA_PORTS CONFIG_VGA_EMULATE_TEXT CONFIG_VGA_ALLOCATE_EXTRA_STACK
  CONFIG_VGA_CIRRUS CONFIG_VGA_VBE mode_at vgahw_get_linelength vgahw_get_displaystart VBE_framebuffer SS gdt data_fl
  vgahw_find_mode vgahw_set_mode vgahw_set_displaystart save_restore global_seg vgafont8 vgafont14 vgafont16
  vgafont14alt vgafont16alt static_functionality rgb clext_1012 handle_104f).

(** The parts of the state asked for: the hardware, the palette, or both. *)
Definition states_ok (states : Z) : Prop := states = SR_HARDWARE \/ states = SR_DAC \/ states = Z.lor SR_HARDWARE SR_DAC.
Definition with_hw (states : Z) : bool := truthy (Z.land states SR_HARDWARE).
Definition with_dac (states : Z) : bool := truthy (Z.land states SR_DAC).
Definition dac_offset (states : Z) : Z := if with_hw states then SaveHw.size else 0.
Definition state_size (states : Z) : Z := dac_offset states + if with_dac states then SaveDac.size else 0.
Definition state_saved (states a x : Z) r m : Prop :=
  (with_hw states = true -> hw_saved a r m) /\
  (with_dac states = true -> forall k, 0 <= k < 772 -> read8 m (a + dac_offset states + k) = dac_byte r x k).

Lemma state_saved_kept states a x r m m' : (forall b, a <= b < a + state_size states -> read8 m' b = read8 m b) ->
  state_saved states a x r m -> state_saved states a x r m'.
Proof.
  unfold state_saved, state_size, dac_offset, SaveHw.size, SaveDac.size. intros Hk [Hhw Hdac]. split.
  - intros Hh k Hb. rewrite Hh in Hk. rewrite Hk by (destruct (with_dac states); lia). by apply Hhw.
  - intros Hd k Hb. rewrite Hd in Hk. rewrite Hk by (destruct (with_hw states); lia). by apply Hdac.
Qed.

Lemma wp_save states seg data Q m r0 : states_ok states -> color r0 -> regs_ok kept r0 ->
  (forall x m' r', like r0 r' -> state_saved states (far seg data) x r0 m' ->
     (forall b, b < far seg data \/ far seg data + state_size states <= b -> read8 m' b = read8 m b) -> Q (state_size states) m' r') ->
  wp view (save_restore (Z.lor states SR_SAVE) seg data) Q m r0.
Proof.
  intros Hst Hc Hr0 HQ. unfold stdvga_save_restore. set (a := far seg data) in *.
  assert (Hdac : forall off m1 r1 (P : unit -> memory -> vga_regs -> Prop), like r0 r1 ->
    (forall x m' r', like r0 r' -> written (a + off) (dac_byte r0 x) 772 m1 m' -> P tt m' r') ->
    wp view (stdvga_save_dac_state seg (data + off)) P m1 r1).
  { intros off m1 r1 P Hl HP. eapply wp_save_dac; [done..|]. rewrite far_add. exact HP. }
  destruct Hst as [-> |[-> | ->]].
  - apply wp_bind, wp_bind, wp_save_hw with (kept := kept); [done..|]. intros m' r' Hl [Hin Hout].
    apply wp_bind, wp_ret, wp_ret, wp_bind, wp_ret, wp_bind, wp_ret, wp_ret.
    replace (data + SaveHw.size + 0 - data) with (state_size SR_HARDWARE) by (change (state_size SR_HARDWARE) with SaveHw.size; lia).
    apply (HQ 0); [done| |exact Hout]. split; [intros _; exact Hin|done].
  - apply wp_bind, wp_ret, wp_bind, wp_ret, wp_bind, wp_bind. apply Hdac; [apply like_refl|]. intros x m' r' Hl [Hin Hout].
    apply wp_bind, wp_ret, wp_ret, wp_ret.
    replace (data + 0 + SaveDac.size - data) with (state_size SR_DAC) by (change (state_size SR_DAC) with SaveDac.size; lia).
    rewrite Z.add_0_r in Hin, Hout. apply (HQ x); [done| |exact Hout]. split; [done|intros _]. change (dac_offset SR_DAC) with 0.
    by rewrite Z.add_0_r.
  - apply wp_bind, wp_bind, wp_save_hw with (kept := kept); [done..|]. intros m1 r1 Hl1 [Hin1 Hout1].
    apply wp_bind, wp_ret, wp_ret, wp_bind, wp_ret, wp_bind, wp_bind. rewrite Z.add_0_r. apply Hdac; [done|].
    intros x m' r' Hl [Hin Hout]. apply wp_bind, wp_ret, wp_ret, wp_ret. unfold SaveHw.size in *.
    replace (data + 70 + SaveDac.size - data) with (state_size (Z.lor SR_HARDWARE SR_DAC))
      by (change (state_size (Z.lor SR_HARDWARE SR_DAC)) with (70 + SaveDac.size); lia).
    change (state_size (Z.lor SR_HARDWARE SR_DAC)) with (70 + 772) in *. apply (HQ x); [done| |].
    + split; intros _; [|exact Hin]. intros k Hk. rewrite Hout by lia. by apply Hin1.
    + intros b Hb. rewrite Hout by lia. apply Hout1. lia.
Qed.

(** Equal in what is saved. *)
Record hw_equal (r0 r' : vga_regs) : Prop := {
  he_seq_i : seq_i r' = seq_i r0; he_crt_i : crt_i r' = crt_i r0; he_gr_i : gr_i r' = gr_i r0;
  he_att_i : att_i r' = att_i r0; he_feat : feat r' = feat r0;
  he_seq : forall i, 0 <= i < 5 -> seq r' i = seq r0 i; he_crt : forall i, 0 <= i < 25 -> crt r' i = crt r0 i;
  he_gr : forall i, 0 <= i < 9 -> gr r' i = gr r0 i; he_att : forall i, 0 <= i < 20 -> att r' i = att r0 i }.
Record dac_equal (r0 r' : vga_regs) : Prop := {
  de_pel : forall i, 0 <= i < 768 -> pel r' i = pel r0 i;
  de_pel_mask : pel_mask r' = pel_mask r0; de_pel_w : pel_w r' / 3 = pel_w r0 / 3 }.
Definition state_equal (states : Z) (r0 r' : vga_regs) : Prop :=
  (with_hw states = true -> hw_equal r0 r') /\ (with_dac states = true -> dac_equal r0 r').

Lemma wp_restore states seg data x Q m r r0 : states_ok states -> color r -> regs_ok kept r0 ->
  state_saved states (far seg data) x r0 m ->
  (forall r', state_equal states r0 r' -> Q (state_size states) m r') ->
  wp view (save_restore (Z.lor states SR_RESTORE) seg data) Q m r.
Proof.
  intros Hst Hc Hr0 [Hhw Hdac] HQ. unfold stdvga_save_restore. set (a := far seg data) in *.
  assert (Hdacs : forall off r1 (P : unit -> memory -> vga_regs -> Prop), color r1 -> off = dac_offset states -> with_dac states = true ->
    (forall r', restored_dac r0 r1 r' -> P tt m r') -> wp view (stdvga_restore_dac_state seg (data + off)) P m r1).
  { intros off r1 P Hc1 -> Hd HP. eapply (wp_restore_dac kept view card seg _ x); [done..| |exact HP].
    rewrite far_add. intros k Hk. apply Hdac; [done|lia]. }
  assert (Hhws : forall (P : unit -> memory -> vga_regs -> Prop), with_hw states = true ->
    (forall r', color r' -> hw_equal r0 r' -> P tt m r') -> wp view (stdvga_restore_hw_state seg data) P m r).
  { intros P Hh HP. eapply wp_restore_hw with (kept := kept) (r0 := r0); [done..|by apply Hhw|]. intros r' Hr'. apply HP; [apply Hr'|].
    destruct Hr'. by constructor. }
  assert (Hdeq : forall r1 r', restored_dac r0 r1 r' -> dac_equal r0 r') by (intros r1 r' []; by constructor).
  destruct Hst as [-> |[-> | ->]].
  - apply wp_bind, wp_bind, wp_ret, wp_bind, Hhws; [done|]. intros r1 Hc1 Heq.
    apply wp_ret, wp_bind, wp_ret, wp_bind, wp_ret, wp_ret.
    replace (data + SaveHw.size + 0 - data) with (state_size SR_HARDWARE) by (change (state_size SR_HARDWARE) with SaveHw.size; lia).
    apply HQ. split; [by intros _|done].
  - apply wp_bind, wp_ret, wp_bind, wp_ret, wp_bind, wp_bind, wp_ret, wp_bind, Hdacs; [done..|]. intros r1 Heq.
    apply wp_ret, wp_ret.
    replace (data + 0 + SaveDac.size - data) with (state_size SR_DAC) by (change (state_size SR_DAC) with SaveDac.size; lia).
    apply HQ. split; [done|]. intros _. by eapply Hdeq.
  - apply wp_bind, wp_bind, wp_ret, wp_bind, Hhws; [done|]. intros r1 Hc1 Heq1.
    apply wp_ret, wp_bind, wp_ret, wp_bind, wp_bind, wp_ret, wp_bind. rewrite Z.add_0_r. apply Hdacs; [done..|]. intros r2 Heq2.
    apply wp_ret, wp_ret. unfold SaveHw.size.
    replace (data + 70 + SaveDac.size - data) with (state_size (Z.lor SR_HARDWARE SR_DAC))
      by (change (state_size (Z.lor SR_HARDWARE SR_DAC)) with (70 + SaveDac.size); lia).
    apply HQ. split; intros _; [|by eapply Hdeq].
    destruct (rd_other _ _ _ Heq2) as (u & v & w & ->). destruct Heq1. by constructor.
Qed.

Lemma handle_101c_call regs s : r_ah regs = 0x1c ->
  handle_10 regs s = handle_101c save_restore regs s.
Proof.
  intros Hah. unfold VgaBios.handle_10, swcursor_pre_handle10. rewrite Hah. cbn [Z.eqb Pos.eqb andb orb].
  cbv beta iota delta [bind vga_emulate_text get8 ret].
  by destruct (CONFIG_VGA_EMULATE_TEXT && truthy (Z.land (read8 (mc_mem s) VBDA.flags) BF_EMULATE_TEXT)).
Qed.

(** C17: INT 10h AH=1Ch restores what it saved: when the hardware state, the palette
    or both (CX = 1, 4 or 5) are saved to an area (AL=01h), only the area is
    written, and whatever a program does to the card afterwards, as long as the
    area and color mode are as they were, restoring from it (AL=02h) gives the
    sequencer, CRTC (also the write-protected ones), graphics and attribute
    registers, the index registers and the feature register, the 256 colors, the
    mask and the palette index back, and writes no memory. *)
Theorem video_state_roundtrip regs regs' s : 
  let states := r_cx regs in
  let a := far (r_es regs) (r_bx regs) in
  r_ah regs = 0x1c -> r_al regs = 1 -> r_ah regs' = 0x1c -> r_al regs' = 2 ->
  r_cx regs' = states -> r_es regs' = r_es regs -> r_bx regs' = r_bx regs ->
  states_ok states -> color (view (mc_world s)) -> regs_ok kept (view (mc_world s)) ->
  exists s1, handle_10 regs s = Some (set_al 0x1c regs, s1) /\
    (forall b, b < a \/ a + state_size states <= b -> read8 (mc_mem s1) b = read8 (mc_mem s) b) /\
    forall s2, color (view (mc_world s2)) ->
      (forall b, a <= b < a + state_size states -> read8 (mc_mem s2) b = read8 (mc_mem s1) b) ->
      exists s3, handle_10 regs' s2 = Some (set_al 0x1c regs', s3) /\ mc_mem s3 = mc_mem s2 /\
        state_equal states (view (mc_world s)) (view (mc_world s3)).
Proof.
  intros states a Hah Hal Hah' Hal' Hcx Hes Hbx Hst Hc Hr0.
  assert (Hstates : truthy (Z.land states (Z.lnot 0x07)) = false) by (destruct Hst as [-> |[-> | ->]]; done).
  assert (Hsize : (state_size states <? 0) = false) by (destruct Hst as [-> |[-> | ->]]; done).
  destruct (wp_save states (r_es regs) (r_bx regs)
    (fun v m' _ => v = state_size states /\ (exists x, state_saved states a x (view (mc_world s)) m') /\
       forall b, b < a \/ a + state_size states <= b -> read8 m' b = read8 (mc_mem s) b) (mc_mem s) _ Hst Hc Hr0)
    with (w := mc_world s) as (v & m1 & w1 & Hrun & -> & (x & Hsaved) & Hout); [by eauto 10|done|].
  exists (Machine m1 w1). split_and!; [|exact Hout|].
  - rewrite handle_101c_call by done. unfold handle_101c. fold states. rewrite Hstates, Hal. change (false || (2 <? 1)) with false. cbv iota zeta.
    destruct s as [m0 w0]. cbn [mc_mem mc_world] in *.
    change (Z.lor states (Z.shiftl 1 8)) with (Z.lor states SR_SAVE). erewrite bind_some by exact Hrun. by rewrite Hsize.
  - intros s2 Hc2 Hkept. cbn [mc_mem] in *.
    assert (Hsaved2 : state_saved states (far (r_es regs') (r_bx regs')) x (view (mc_world s)) (mc_mem s2)).
    { rewrite Hes, Hbx. by eapply state_saved_kept. }
    destruct (wp_restore states (r_es regs') (r_bx regs') x
      (fun v m' r' => v = state_size states /\ m' = mc_mem s2 /\ state_equal states (view (mc_world s)) r') (mc_mem s2) _ _ Hst Hc2 Hr0 Hsaved2)
      with (w := mc_world s2) as (v & m3 & w3 & Hrun3 & -> & -> & Heq); [by eauto|done|].
    exists (Machine (mc_mem s2) w3). split_and!; [|done|exact Heq].
    rewrite handle_101c_call by done. unfold handle_101c. rewrite Hcx. rewrite Hstates, Hal'. change (false || (2 <? 2)) with false. cbv iota zeta.
    destruct s2 as [m2 w2]. cbn [mc_mem mc_world] in *.
    change (Z.lor states (Z.shiftl 2 8)) with (Z.lor states SR_RESTORE). erewrite bind_some by exact Hrun3. by rewrite Hsize.
Qed.

Lemma save_restore_size states seg data s : states_ok states -> save_restore states seg data s = Some (state_size states, s).
Proof.
  intros Hst. unfold stdvga_save_restore.
  destruct Hst as [-> |[-> | ->]]; do 3 (erewrite bind_some by reflexivity); unfold ret; do 2 f_equal;
    [change (state_size _) with SaveHw.size|change (state_size _) with SaveDac.size|change (state_size _) with (SaveHw.size + SaveDac.size)]; lia.
Qed.

(** AL=00h rounds the size down: with [64 * BX] bytes the area is too small. *)
Lemma reported_size_too_small regs s : r_ah regs = 0x1c -> r_al regs = 0 -> states_ok (r_cx regs) ->
  exists regs', handle_10 regs s = Some (regs', s) /\ 64 * r_bx regs' < state_size (r_cx regs).
Proof.
  intros Hah Hal Hst. rewrite handle_101c_call by done. unfold handle_101c. rewrite Hal.
  assert (Hstates : truthy (Z.land (r_cx regs) (Z.lnot 0x07)) = false) by (destruct Hst as [-> |[-> | ->]]; done).
  assert (Hcmd : Z.lor (r_cx regs) (Z.shiftl 0 8) = r_cx regs) by (destruct Hst as [-> |[-> | ->]]; done).
  assert (Hbx : forall v (b : bregs), r_bx (set_al 0x1c (set_bx v b)) = u16 v).
  { intros v b. unfold r_bx, set_al, set_bx. cbn [r_ebx set_eax set_ebx]. apply low16_with. }
  rewrite Hstates, Hcmd. change (false || (2 <? 0)) with false. cbv iota zeta.
  erewrite bind_some by by apply save_restore_size.
  assert (Hsize : (state_size (r_cx regs) <? 0) = false) by (destruct Hst as [-> |[-> | ->]]; done).
  rewrite Hsize. change (0 =? 0) with true. cbv iota. eexists. split; [reflexivity|]. rewrite Hbx.
  destruct Hst as [-> |[-> | ->]]; by vm_compute.
Qed.
End Service.

(** ** Example: a card whose registers keep all bits *)

Module CardDemo.
Definition kept (bank i : Z) : Z := 0xff.
#[export] Instance env : Env vga_regs := {|
  dev_inb := fun port w =>
    if port =? VGAREG_ACTL_RESET then (0, set_to_data false w)
    else match card_in port w with Some x => x | None => (0, w) end;
  dev_outb := fun v port w => default w (card_out kept v port w);
  env_yield := fun s => s; env_yield_toirq := fun s => s; env_int := fun _ r s => (r, s) |}.
#[export] Instance ports : Ports vga_regs := {|
  port_inw := fun _ w => (0, w); port_inl := fun _ w => (0, w);
  port_outw := fun v port w => default w (card_outw kept v port w); port_outl := fun _ _ w => w |}.

Lemma demo_card : is_card kept (fun w => w).
Proof.
  constructor.
  - intros port w v r' _ Hin. exists r'. split; [|done]. unfold dev_inb, env.
    destruct (Z.eqb_spec port VGAREG_ACTL_RESET) as [->|Hp]; [discriminate Hin|]. by rewrite Hin.
  - intros v port w r' _ Hout. unfold dev_outb, env. by rewrite Hout.
  - intros v port w r' _ Hout. unfold port_outw, ports. by rewrite Hout.
  - intros w _. by exists 0, (set_to_data false w).
  - intros w _. by exists 0, w.
Qed.

(** A protected CRTC, and the card after another program has used it. *)
Definition before : vga_regs := Regs 0x67 2 5 4 0x20 false 0 (fun i => u8 (i + 3)) (fun i => if i =? 0x11 then 0x8e else u8 (i * 7))
  (fun i => u8 (i + 1)) (fun i => u8 i) 0xff 9 12 (fun i => i mod 64).
Definition after_use : vga_regs := Regs 0x63 0 0 0 0 true 1 (fun _ => 0) (fun _ => 0x80) (fun _ => 0) (fun _ => 0) 0 0 0 (fun _ => 0).
Lemma before_ok : regs_ok kept before.
Proof.
  assert (Hff : forall x, is_byte x -> is_byte x /\ Z.land x 0xff = x).
  { intros x Hx. split; [done|]. change 0xff with (Z.ones 8). rewrite Z.land_ones by lia. by apply Z.mod_small. }
  constructor; cbn; try (unfold is_byte; lia); intros i; try (apply Hff; try apply u8_range).
  destruct (i =? 17); [unfold is_byte; lia|apply u8_range].
Qed.
Definition none (m : vgamode_s) : M vga_regs Z := ret 0.
Definition no_regs (r : bregs) : M vga_regs bregs := ret r.
(** Both parts of the state, at 2000:0000. *)
Definition save : bregs := Bregs 0 0x2000 0 0 0 0 0 5 0x1c01 (Segoff 0 0) 0.
Definition restore : bregs := Bregs 0 0x2000 0 0 0 0 0 5 0x1c02 (Segoff 0 0) 0.
End CardDemo.

#[local] Existing Instances CardDemo.env CardDemo.ports.

Lemma video_state_roundtrip_witness :
  exists s1 s3,
    VgaBios.handle_10 true true true false true (fun _ => VgaMode 0 80 25 4 9 16 SEG_CTEXT) CardDemo.none CardDemo.none
      0x7000 0x9000 0 0x100 (fun _ => ret 0) (fun _ _ => ret 0) (fun _ _ => ret 0)
      (stdvga_save_restore (VgaBios.bda_save_restore (fun _ => ret 0))) 0xc000 0 0 0 0 0 0 0x200 CardDemo.no_regs CardDemo.no_regs
      CardDemo.save (Machine ∅ CardDemo.before) = Some (set_al 0x1c CardDemo.save, s1) /\
    VgaBios.handle_10 true true true false true (fun _ => VgaMode 0 80 25 4 9 16 SEG_CTEXT) CardDemo.none CardDemo.none
      0x7000 0x9000 0 0x100 (fun _ => ret 0) (fun _ _ => ret 0) (fun _ _ => ret 0)
      (stdvga_save_restore (VgaBios.bda_save_restore (fun _ => ret 0))) 0xc000 0 0 0 0 0 0 0x200 CardDemo.no_regs CardDemo.no_regs
      CardDemo.restore (Machine (mc_mem s1) CardDemo.after_use) = Some (set_al 0x1c CardDemo.restore, s3) /\
    crt (mc_world s3) 2 = 14 /\ crt (mc_world s3) 0x11 = 0x8e /\ pel (mc_world s3) 700 = 60.
Proof.
  destruct (video_state_roundtrip CardDemo.kept (fun w => w) CardDemo.demo_card true true true false true
    (fun _ => VgaMode 0 80 25 4 9 16 SEG_CTEXT) CardDemo.none CardDemo.none 0x7000 0x9000 0 0x100 (fun _ => ret 0) (fun _ _ => ret 0)
    (fun _ _ => ret 0) 0xc000 0 0 0 0 0 0 0x200 CardDemo.no_regs CardDemo.no_regs CardDemo.save CardDemo.restore
    (Machine ∅ CardDemo.before)) as (s1 & Hrun1 & _ & Hrestore); try reflexivity.
  - right. right. reflexivity.
  - exact CardDemo.before_ok.
  - destruct (Hrestore (Machine (mc_mem s1) CardDemo.after_use)) as (s3 & Hrun3 & _ & Hhw & Hdac); [reflexivity|done|].
    exists s1, s3. split; [exact Hrun1|]. split; [exact Hrun3|].
    split; [rewrite (he_crt _ _ (Hhw eq_refl)) by lia; reflexivity|].
    split; [rewrite (he_crt _ _ (Hhw eq_refl)) by lia; reflexivity|].
    rewrite (de_pel _ _ (Hdac eq_refl)) by lia. reflexivity.
Defined.
