(* ===== verification/Sercon.v ===== *)
(** * The serial console: src/sercon.c, src/cp437.c

    INT 10h on a serial port: characters go to a terminal that understands the
    usual control sequences, and what is typed there comes back as keys.  The
    [VARLOW] variables are a record in the world; the port, the timer interrupt
    and the real video BIOS are behind it.  While a character waits for the port
    interrupts may run; those that touch these variables are not modelled. *)
From S2P Require Import Prelude Machine Clock Kbd VgaFb.
Local Open Scope seabios_scope.

Definition SEROFF_DATA := 0.
Definition SEROFF_LCR := 3.
Definition SEROFF_LSR := 5.

(** ** cp437.c *)

Definition cp437_to_unicode_map : list Z :=
  [
   0x0000; 0x263a; 0x263b; 0x2665; 0x2666; 0x2663; 0x2660; 0x2022;
   0x25d8; 0x25cb; 0x25d9; 0x2642; 0x2640; 0x266a; 0x266b; 0x263c;
   0x25ba; 0x25c4; 0x2195; 0x203c; 0x00b6; 0x00a7; 0x25ac; 0x21a8;
   0x2191; 0x2193; 0x2192; 0x2190; 0x221f; 0x2194; 0x25b2; 0x25bc;
   0x0020; 0x0021; 0x0022; 0x0023; 0x0024; 0x0025; 0x0026; 0x0027;
   0x0028; 0x0029; 0x002a; 0x002b; 0x002c; 0x002d; 0x002e; 0x002f;
   0x0030; 0x0031; 0x0032; 0x0033; 0x0034; 0x0035; 0x0036; 0x0037;
   0x0038; 0x0039; 0x003a; 0x003b; 0x003c; 0x003d; 0x003e; 0x003f;
   0x0040; 0x0041; 0x0042; 0x0043; 0x0044; 0x0045; 0x0046; 0x0047;
   0x0048; 0x0049; 0x004a; 0x004b; 0x004c; 0x004d; 0x004e; 0x004f;
   0x0050; 0x0051; 0x0052; 0x0053; 0x0054; 0x0055; 0x0056; 0x0057;
   0x0058; 0x0059; 0x005a; 0x005b; 0x005c; 0x005d; 0x005e; 0x005f;
   0x0060; 0x0061; 0x0062; 0x0063; 0x0064; 0x0065; 0x0066; 0x0067;
   0x0068; 0x0069; 0x006a; 0x006b; 0x006c; 0x006d; 0x006e; 0x006f;
   0x0070; 0x0071; 0x0072; 0x0073; 0x0074; 0x0075; 0x0076; 0x0077;
   0x0078; 0x0079; 0x007a; 0x007b; 0x007c; 0x007d; 0x007e; 0x2302;
   0x00c7; 0x00fc; 0x00e9; 0x00e2; 0x00e4; 0x00e0; 0x00e5; 0x00e7;
   0x00ea; 0x00eb; 0x00e8; 0x00ef; 0x00ee; 0x00ec; 0x00c4; 0x00c5;
   0x00c9; 0x00e6; 0x00c6; 0x00f4; 0x00f6; 0x00f2; 0x00fb; 0x00f9;
   0x00ff; 0x00d6; 0x00dc; 0x00a2; 0x00a3; 0x00a5; 0x20a7; 0x0192;
   0x00e1; 0x00ed; 0x00f3; 0x00fa; 0x00f1; 0x00d1; 0x00aa; 0x00ba;
   0x00bf; 0x2310; 0x00ac; 0x00bd; 0x00bc; 0x00a1; 0x00ab; 0x00bb;
   0x2591; 0x2592; 0x2593; 0x2502; 0x2524; 0x2561; 0x2562; 0x2556;
   0x2555; 0x2563; 0x2551; 0x2557; 0x255d; 0x255c; 0x255b; 0x2510;
   0x2514; 0x2534; 0x252c; 0x251c; 0x2500; 0x253c; 0x255e; 0x255f;
   0x255a; 0x2554; 0x2569; 0x2566; 0x2560; 0x2550; 0x256c; 0x2567;
   0x2568; 0x2564; 0x2565; 0x2559; 0x2558; 0x2552; 0x2553; 0x256b;
   0x256a; 0x2518; 0x250c; 0x2588; 0x2584; 0x258c; 0x2590; 0x2580;
   0x03b1; 0x00df; 0x0393; 0x03c0; 0x03a3; 0x03c3; 0x00b5; 0x03c4;
   0x03a6; 0x0398; 0x03a9; 0x03b4; 0x221e; 0x03c6; 0x03b5; 0x2229;
   0x2261; 0x00b1; 0x2265; 0x2264; 0x2320; 0x2321; 0x00f7; 0x2248;
   0x00b0; 0x2219; 0x00b7; 0x221a; 0x207f; 0x00b2; 0x25a0; 0x00a0].
Definition cp437_to_unicode (cp437 : Z) : Z := nth (Z.to_nat cp437) cp437_to_unicode_map 0.

(** ** Variables *)

Record sercon_s := Sercon {
  port : Z; split : Z; enable : Z; real_vga_handler : segoff_s;
  attr_last : Z; col_last : Z; row_last : Z; char : Z; attr : Z;
  rx_buf : list Z; ScreenAndDebug : Z }.
Definition set_port (v : Z) (c : sercon_s) : sercon_s := Sercon (u16 v) (split c) (enable c) (real_vga_handler c) (attr_last c) (col_last c) (row_last c) (char c) (attr c) (rx_buf c) (ScreenAndDebug c).
Definition set_split (v : Z) (c : sercon_s) : sercon_s := Sercon (port c) (u8 v) (enable c) (real_vga_handler c) (attr_last c) (col_last c) (row_last c) (char c) (attr c) (rx_buf c) (ScreenAndDebug c).
Definition set_enable (v : Z) (c : sercon_s) : sercon_s := Sercon (port c) (split c) (u8 v) (real_vga_handler c) (attr_last c) (col_last c) (row_last c) (char c) (attr c) (rx_buf c) (ScreenAndDebug c).
Definition set_real_vga_handler (v : segoff_s) (c : sercon_s) : sercon_s := Sercon (port c) (split c) (enable c) v (attr_last c) (col_last c) (row_last c) (char c) (attr c) (rx_buf c) (ScreenAndDebug c).
Definition set_attr_last (v : Z) (c : sercon_s) : sercon_s := Sercon (port c) (split c) (enable c) (real_vga_handler c) (u8 v) (col_last c) (row_last c) (char c) (attr c) (rx_buf c) (ScreenAndDebug c).
Definition set_col_last (v : Z) (c : sercon_s) : sercon_s := Sercon (port c) (split c) (enable c) (real_vga_handler c) (attr_last c) (u8 v) (row_last c) (char c) (attr c) (rx_buf c) (ScreenAndDebug c).
Definition set_row_last (v : Z) (c : sercon_s) : sercon_s := Sercon (port c) (split c) (enable c) (real_vga_handler c) (attr_last c) (col_last c) (u8 v) (char c) (attr c) (rx_buf c) (ScreenAndDebug c).
Definition set_char (v : Z) (c : sercon_s) : sercon_s := Sercon (port c) (split c) (enable c) (real_vga_handler c) (attr_last c) (col_last c) (row_last c) (u8 v) (attr c) (rx_buf c) (ScreenAndDebug c).
Definition set_attr (v : Z) (c : sercon_s) : sercon_s := Sercon (port c) (split c) (enable c) (real_vga_handler c) (attr_last c) (col_last c) (row_last c) (char c) (u8 v) (rx_buf c) (ScreenAndDebug c).
Definition set_rx_buf (v : list Z) (c : sercon_s) : sercon_s := Sercon (port c) (split c) (enable c) (real_vga_handler c) (attr_last c) (col_last c) (row_last c) (char c) (attr c) v (ScreenAndDebug c).
Definition set_ScreenAndDebug (v : Z) (c : sercon_s) : sercon_s := Sercon (port c) (split c) (enable c) (real_vga_handler c) (attr_last c) (col_last c) (row_last c) (char c) (attr c) (rx_buf c) v.

(** The valid bytes of [rx_buf] are a list; its length is [rx_bytes]. *)
Definition RX_SIZE := 16.
Definition rx_bytes (c : sercon_s) : Z := Z.of_nat (length (rx_buf c)).

Record sercon_world (W : Type) := SerconWorld { sw_vars : sercon_s; sw_rest : W }.
Arguments SerconWorld {W}. Arguments sw_vars {W}. Arguments sw_rest {W}.
Definition on_port {W} (f : machine W -> machine W) (s : machine (sercon_world W)) : machine (sercon_world W) :=
  let s' := f (Machine (mc_mem s) (sw_rest (mc_world s))) in
  Machine (mc_mem s') (SerconWorld (sw_vars (mc_world s)) (mc_world s')).
#[export] Instance sercon_env {W} `{Env W} : Env (sercon_world W) := {
  dev_inb p w := let '(v, r) := dev_inb p (sw_rest w) in (v, SerconWorld (sw_vars w) r);
  dev_outb v p w := SerconWorld (sw_vars w) (dev_outb v p (sw_rest w));
  env_yield := on_port env_yield;
  env_yield_toirq := on_port env_yield_toirq;
  env_int nr regs s :=
    let '(regs', s') := env_int nr regs (Machine (mc_mem s) (sw_rest (mc_world s))) in
    (regs', Machine (mc_mem s') (SerconWorld (sw_vars (mc_world s)) (mc_world s'))) }.

(** ** Escape sequences of keys *)

Record termseq_s := TermSeq { ts_seq : list Z; ts_keycode : Z }.
Definition termseq : list termseq_s :=
  [TermSeq [0x4f; 0x50] 0x3b00; TermSeq [0x4f; 0x51] 0x3c00; TermSeq [0x4f; 0x52] 0x3d00; TermSeq [0x4f; 0x53] 0x3e00;
   TermSeq [0x5b; 0x31; 0x35; 0x7e] 0x3f00; TermSeq [0x5b; 0x31; 0x37; 0x7e] 0x4000;
   TermSeq [0x5b; 0x31; 0x38; 0x7e] 0x4100; TermSeq [0x5b; 0x31; 0x39; 0x7e] 0x4200;
   TermSeq [0x5b; 0x32; 0x30; 0x7e] 0x4300; TermSeq [0x5b; 0x32; 0x31; 0x7e] 0x4400;
   TermSeq [0x5b; 0x32; 0x33; 0x7e] 0x5700; TermSeq [0x5b; 0x32; 0x34; 0x7e] 0x5800;
   TermSeq [0x5b; 0x32; 0x7e] 0x52e0; TermSeq [0x5b; 0x33; 0x7e] 0x53e0;
   TermSeq [0x5b; 0x35; 0x7e] 0x49e0; TermSeq [0x5b; 0x36; 0x7e] 0x51e0;
   TermSeq [0x5b; 0x41] 0x48e0; TermSeq [0x5b; 0x42] 0x50e0; TermSeq [0x5b; 0x43] 0x4de0; TermSeq [0x5b; 0x44] 0x4be0;
   TermSeq [0x5b; 0x48] 0x47e0; TermSeq [0x5b; 0x46] 0x4fe0].

(** [cmpbuf]: the bytes after the first one begin with the sequence. *)
Definition cmpbuf (seq : termseq_s) (buf : list Z) : bool :=
  if Z.of_nat (length buf) <? Z.of_nat (length (ts_seq seq)) + 1 then false
  else bool_decide (take (length (ts_seq seq)) (tail buf) = ts_seq seq).
Definition findseq (buf : list Z) : option termseq_s := List.find (fun seq => cmpbuf seq buf) termseq.
Definition sercon_cmap : list Z := [0x30; 0x34; 0x32; 0x36; 0x31; 0x35; 0x33; 0x37].

Section Sercon.
Context {W : Type} `{Env W}.
Abbreviation S A := (M (sercon_world W) A).
Context (CONFIG_SERCON CONFIG_DEBUG_SERIAL : bool) (CONFIG_DEBUG_SERIAL_PORT : Z).
(** Polls of the port, and bytes read from it at one time. *)
Context (fuel : nat).
(** [romfile_loadint], and the entry points of the BIOS. *)
Context (romfile_loadint_sercon_port : S Z) (entry_10 entry_sercon : segoff_s).

Definition getv (f : sercon_s -> Z) : S Z := fun s => Some (f (sw_vars (mc_world s)), s).
Definition updv (f : sercon_s -> sercon_s) : S unit :=
  fun s => Some (tt, Machine (mc_mem s) (SerconWorld (f (sw_vars (mc_world s))) (sw_rest (mc_world s)))).

Definition video_rows : S Z := v <- get8 VBDA.video_rows ;; ret (u8 (v + 1)).
Definition video_cols : S Z := v <- get16 VBDA.video_cols ;; ret (u8 v).
Definition cursor_pos_col : S Z := pos <- get16 VBDA.cursor_pos ;; ret (Z.land pos 0xff).
Definition cursor_pos_row : S Z := pos <- get16 VBDA.cursor_pos ;; ret (Z.land (Z.shiftr pos 8) 0xff).
Definition cursor_pos_set (row col : Z) : S unit := put16 VBDA.cursor_pos (u16 (Z.lor (Z.shiftl row 8) col)).
Definition sercon_splitmode : S bool := v <- getv split ;; ret (truthy v).

(** ** Output *)

Fixpoint putchar_loop (n : nat) (addr chr end_ : Z) : S unit :=
  match n with
  | O => fun _ => None
  | Datatypes.S n' =>
    lsr <- inb (u16 (addr + SEROFF_LSR)) ;;
    if Z.land lsr 0x60 =? 0x60 then outb chr (u16 (addr + SEROFF_DATA))
    else fun s => if irqtimer_check end_ (mc_mem s) then Some (tt, s)
                  else (do yield ;; putchar_loop n' addr chr end_) s
  end.
Definition sercon_putchar (chr : Z) : S unit :=
  addr <- getv port ;;
  fun s => putchar_loop fuel addr (u8 chr) (irqtimer_calc_ticks 0x0a (mc_mem s)) s.
Fixpoint putchars (l : list Z) : S unit :=
  match l with [] => ret tt | chr :: l' => do sercon_putchar chr ;; putchars l' end.

Definition sercon_term_reset : S unit := putchars [0x1b; 0x63].
Definition sercon_term_clear_screen : S unit := putchars [0x1b; 0x5b; 0x32; 0x4a].
Definition sercon_term_no_linewrap : S unit := putchars [0x1b; 0x5b; 0x3f; 0x37; 0x6c].
Definition sercon_term_cursor_goto (row col : Z) : S unit :=
  let row := u8 (row + 1) in
  let col := u8 (col + 1) in
  putchars [0x1b; 0x5b; 0x30 + row / 10; 0x30 + row mod 10; 0x3b; 0x30 + col / 10; 0x30 + col mod 10; 0x48].
Definition set_color (fg bg bold : Z) : list Z :=
  [0x1b; 0x5b; 0x30]
  ++ (if negb (fg =? 7) then [0x3b; 0x33; nth (Z.to_nat (Z.land fg 7)) sercon_cmap 0] else [])
  ++ (if negb (bg =? 0) then [0x3b; 0x34; nth (Z.to_nat (Z.land bg 7)) sercon_cmap 0] else [])
  ++ (if truthy bold then [0x3b; 0x31] else []) ++ [0x6d].
Definition sercon_term_set_color (fg bg bold : Z) : S unit := putchars (set_color fg bg bold).

Definition sercon_set_attr (a : Z) : S unit :=
  last <- getv attr_last ;;
  if a =? last then ret tt
  else
    do updv (set_attr_last a) ;;
    sercon_term_set_color (Z.land a 7) (Z.land (Z.shiftr a 4) 7) (Z.land a 0x08).

Definition utf8 (unicode : Z) : list Z :=
  if unicode <? 0x7f then [unicode]
  else if unicode <? 0x7ff then
    [Z.lor 0xc0 (Z.land (Z.shiftr unicode 6) 0x1f); Z.lor 0x80 (Z.land unicode 0x3f)]
  else
    [Z.lor 0xe0 (Z.land (Z.shiftr unicode 12) 0x0f); Z.lor 0x80 (Z.land (Z.shiftr unicode 6) 0x3f);
     Z.lor 0x80 (Z.land unicode 0x3f)].
Definition sercon_print_utf8 (chr : Z) : S unit := putchars (utf8 (cp437_to_unicode chr)).

Definition sercon_cursor_pos_set (row col : Z) : S unit :=
  split <- sercon_splitmode ;; if split then ret tt else cursor_pos_set row col.

(** [while (sercon_row_last < row)]: a byte, so at most 255 times. *)
Fixpoint newlines (n : nat) (row : Z) : S unit :=
  match n with
  | O => ret tt
  | Datatypes.S n' =>
    last <- getv row_last ;;
    if last <? row then do sercon_putchar 0x0a ;; do updv (set_row_last (last + 1)) ;; newlines n' row else ret tt
  end.
Definition goto_cursor (row col : Z) : S unit :=
  do sercon_term_cursor_goto row col ;; do updv (set_row_last row) ;; updv (set_col_last col).
Definition sercon_lazy_cursor_sync : S unit :=
  row <- cursor_pos_row ;; col <- cursor_pos_col ;;
  rl <- getv row_last ;; cl <- getv col_last ;;
  if (rl =? row) && (cl =? col) then ret tt
  else if (col =? 0) && (rl <=? row) then
    do (if negb (cl =? 0) then do sercon_putchar 0x0d ;; updv (set_col_last 0) else ret tt) ;;
    do newlines 255 row ;;
    rl <- getv row_last ;; cl <- getv col_last ;;
    if (rl =? row) && (cl =? col) then ret tt else goto_cursor row col
  else goto_cursor row col.

Definition sercon_lazy_flush : S unit :=
  chr <- getv char ;; a <- getv attr ;;
  do (if truthy chr then
        do sercon_set_attr a ;;
        do sercon_print_utf8 chr ;;
        cl <- getv col_last ;; updv (set_col_last (cl + 1))
      else ret tt) ;;
  do sercon_lazy_cursor_sync ;;
  do updv (set_attr 0x07) ;; updv (set_char 0x00).

Definition sercon_lazy_cursor_update (row col : Z) : S unit :=
  do sercon_cursor_pos_set row col ;; do updv (set_row_last row) ;; updv (set_col_last col).

Definition sercon_lazy_backspace : S unit :=
  do sercon_lazy_flush ;;
  col <- cursor_pos_col ;;
  if 0 <? col then
    do sercon_putchar 8 ;; row <- cursor_pos_row ;; sercon_lazy_cursor_update row (u8 (col - 1))
  else ret tt.

Definition sercon_lazy_cr : S unit := row <- cursor_pos_row ;; sercon_cursor_pos_set row 0.

Definition sercon_lazy_lf : S unit :=
  r <- cursor_pos_row ;;
  let row := u8 (r + 1) in
  rows <- video_rows ;;
  row <- (if rows <=? row then
            do (rl <- getv row_last ;; if 0 <? rl then updv (set_row_last (rl - 1)) else ret tt) ;;
            ret (u8 (rows - 1))
          else ret row) ;;
  col <- cursor_pos_col ;; sercon_cursor_pos_set row col.

Definition sercon_lazy_move_cursor : S unit :=
  c <- cursor_pos_col ;;
  let col := u8 (c + 1) in
  cols <- video_cols ;;
  if cols <=? col then do sercon_lazy_cr ;; sercon_lazy_lf
  else row <- cursor_pos_row ;; sercon_cursor_pos_set row col.

Definition sercon_lazy_putchar (chr a : Z) (teletype : bool) : S unit :=
  row <- cursor_pos_row ;; rl <- getv row_last ;; col <- cursor_pos_col ;; cl <- getv col_last ;;
  do (if negb (row =? rl) || negb (col =? cl) then sercon_lazy_flush else ret tt) ;;
  do updv (set_char chr) ;;
  if teletype then sercon_lazy_move_cursor else updv (set_attr a).

(** ** INT 10h *)

Definition sercon_1000 (regs : bregs) : S bregs :=
  let clearscreen := negb (truthy (Z.land (r_al regs) 0x80)) in
  let mode := Z.land (r_al regs) 0x7f in
  split <- sercon_splitmode ;;
  regs <- (if split then ret regs
           else
             let cols := if (mode =? 0x00) || (mode =? 0x01) || (mode =? 0x04) || (mode =? 0x05) then 40 else 80 in
             do cursor_pos_set 0 0 ;;
             do put8 VBDA.video_mode mode ;; do put16 VBDA.video_cols cols ;; do put8 VBDA.video_rows (25 - 1) ;;
             do put16 VBDA.cursor_type 0x0007 ;; ret (set_al 0x30 regs)) ;;
  do updv (set_enable (if mode <=? 0x07 then 1 else 0)) ;;
  do updv (set_col_last 0) ;; do updv (set_row_last 0) ;; do updv (set_attr_last 0) ;;
  do sercon_term_reset ;;
  do sercon_term_no_linewrap ;;
  do (if clearscreen then sercon_term_clear_screen else ret tt) ;;
  ret regs.
Definition sercon_1001 (regs : bregs) : S bregs := do put16 VBDA.cursor_type (r_cx regs) ;; ret regs.
Definition sercon_1002 (regs : bregs) : S bregs := do sercon_cursor_pos_set (r_dh regs) (r_dl regs) ;; ret regs.
Definition sercon_1003 (regs : bregs) : S bregs :=
  t <- get16 VBDA.cursor_type ;; row <- cursor_pos_row ;; col <- cursor_pos_col ;;
  ret (set_dl col (set_dh row (set_cx t regs))).
Definition sercon_1006 (regs : bregs) : S bregs :=
  do sercon_lazy_flush ;;
  rows <- video_rows ;; cols <- video_cols ;;
  do (if r_al regs =? 0 then
        if (r_ch regs =? 0) && (r_cl regs =? 0) && (r_dh regs =? rows - 1) && (r_dl regs =? cols - 1)
        then do sercon_set_attr (r_bh regs) ;; sercon_term_clear_screen else ret tt
      else putchars [0x0d; 0x0a]) ;; ret regs.
Definition sercon_1008 (regs : bregs) : S bregs := ret (set_bh 0x20 (set_ah 0x07 regs)).

Definition sercon_10XX (regs : bregs) : S bregs := ret (set_unimplemented regs).

Fixpoint print_times (n : nat) (chr : Z) : S unit :=
  match n with O => ret tt | Datatypes.S n' => do sercon_print_utf8 chr ;; print_times n' chr end.
Definition sercon_1009 (regs : bregs) : S bregs :=
  let count := r_cx regs in
  rows <- video_rows ;; cols <- video_cols ;; row <- cursor_pos_row ;; col <- cursor_pos_col ;;
  do (if count =? 1 then sercon_lazy_putchar (r_al regs) (r_bl regs) false
      else if (r_al regs =? 0x20) && (rows * cols =? count) && (row =? 0) && (col =? 0) then
        do sercon_lazy_flush ;;
        do sercon_set_attr (r_bl regs) ;;
        sercon_term_clear_screen
      else
        do sercon_lazy_flush ;;
        do sercon_set_attr (r_bl regs) ;;
        do print_times (Z.to_nat count) (r_al regs) ;;
        row <- cursor_pos_row ;; col <- cursor_pos_col ;; sercon_term_cursor_goto row col) ;;
  ret regs.
Definition sercon_100e (regs : bregs) : S bregs :=
  do (if r_al regs =? 7 then sercon_putchar 0x07
      else if r_al regs =? 8 then sercon_lazy_backspace
      else if r_al regs =? 13 then sercon_lazy_cr
      else if r_al regs =? 10 then sercon_lazy_lf
      else sercon_lazy_putchar (r_al regs) 0 true) ;; ret regs.
Definition sercon_100f (regs : bregs) : S bregs :=
  mode <- get8 VBDA.video_mode ;; cols <- get16 VBDA.video_cols ;; ret (set_ah cols (set_al mode regs)).
Definition sercon_104f (regs : bregs) : S bregs :=
  split <- sercon_splitmode ;;
  if negb split then ret (set_ax 0x0100 regs)
  else if r_al regs =? 0x00 then do updv (set_enable 0) ;; ret regs else ret regs.

(** The second switch of [handle_sercon]. *)
Definition handle_sercon_ah (ah : Z) (regs : bregs) : S bregs :=
  match ah with
  | 0x00 => sercon_1000 regs
  | 0x01 => sercon_1001 regs
  | 0x02 => sercon_1002 regs
  | 0x03 => sercon_1003 regs
  | 0x06 => sercon_1006 regs
  | 0x08 => sercon_1008 regs
  | 0x09 => sercon_1009 regs
  | 0x0e => sercon_100e regs
  | 0x0f => sercon_100f regs
  | 0x4f => sercon_104f regs
  | _ => sercon_10XX regs
  end.
Definition handle_sercon (regs : bregs) : S bregs :=
  if negb CONFIG_SERCON then ret regs
  else
    p <- getv port ;;
    if p =? 0 then ret regs
    else
      split <- sercon_splitmode ;;
      let ah := r_ah regs in
      if ((ah =? 0x01) || (ah =? 0x02) || (ah =? 0x03) || (ah =? 0x08) || (ah =? 0x0f)) && split then ret regs
      else handle_sercon_ah ah regs.

Definition sercon_setup : S unit :=
  if negb CONFIG_SERCON then ret tt
  else
    v <- romfile_loadint_sercon_port ;;
    let addr := u16 v in
    if addr =? 0 then ret tt
    else
      do (if CONFIG_DEBUG_SERIAL && (addr =? CONFIG_DEBUG_SERIAL_PORT) then updv (set_ScreenAndDebug 0) else ret tt) ;;
      v <- get32 (0x10 * 4) ;;
      let vgabios := segoff_of v in
      do (if negb (so_seg vgabios =? so_seg entry_10) || negb (so_offset vgabios =? so_offset entry_10)
          then do updv (set_real_vga_handler vgabios) ;; updv (set_split 1)
          else updv (set_real_vga_handler entry_10)) ;;
      do put32 (0x10 * 4) (segoff entry_sercon) ;;
      do updv (set_port addr) ;;
      do outb 0x03 (u16 (addr + SEROFF_LCR)) ;;
      outb 0x01 (u16 (addr + 0x02)).

(** ** Input *)

Definition shiftbuf (remove : Z) : S unit := updv (fun c => set_rx_buf (drop (Z.to_nat remove) (rx_buf c)) c).
Definition key (keycode : Z) : S unit := upd_mem (fun m => snd (enqueue_key keycode m)).

(** All bytes of the port; those that do not fit are lost.  The count is a byte. *)
Fixpoint read_data (n : nat) (addr count : Z) : S Z :=
  match n with
  | O => fun _ => None
  | Datatypes.S n' =>
    lsr <- inb (u16 (addr + SEROFF_LSR)) ;;
    if negb (truthy (Z.land lsr 0x01)) then ret count
    else
      byte <- inb (u16 (addr + SEROFF_DATA)) ;;
      fun s =>
        let c := sw_vars (mc_world s) in
        (if rx_bytes c <? RX_SIZE
         then do updv (set_rx_buf (rx_buf c ++ [byte])) ;; read_data n' addr (u8 (count + 1))
         else read_data n' addr count) s
  end.

(** [for (;;)]: every round takes bytes from the buffer. *)
Fixpoint input_loop (n : nat) (count : Z) : S unit :=
  match n with
  | O => fun _ => None
  | Datatypes.S n' => fun s =>
    (match rx_buf (sw_vars (mc_world s)) with
     | [] => ret tt
     | chr :: rest =>
       let esc := chr =? 0x1b in
       match (if negb (bool_decide (rest = [])) && esc then findseq (chr :: rest) else None) with
       | Some seq =>
         do key (ts_keycode seq) ;; do shiftbuf (Z.of_nat (length (ts_seq seq)) + 1) ;; input_loop n' count
       | None =>
         if esc && truthy count then ret tt
         else
           let keycode := ascii_to_keycode chr in
           do (if truthy keycode then key keycode else ret tt) ;;
           do shiftbuf 1 ;; input_loop n' count
       end
     end) s
  end.

Definition sercon_check_event : S unit :=
  if negb CONFIG_SERCON then ret tt
  else
    addr <- getv port ;;
    if addr =? 0 then ret tt
    else
      lsr <- inb (u16 (addr + SEROFF_LSR)) ;;
      if lsr =? 0xff then ret tt
      else
        do sercon_lazy_flush ;;
        count <- read_data fuel addr 0 ;;
        input_loop (Datatypes.S (Z.to_nat RX_SIZE)) count.
End Sercon.
