(* ===== verification/SerconTerm.v ===== *)
(** * What a terminal makes of the bytes of the serial console

    A terminal for the part of ECMA-48 the console uses: UTF-8 text, CR, LF with
    scrolling, BS, ESC c, CSI H (cursor), CSI 2J (clear), CSI ?7l (no wrap), with
    the attributes ignored; and what it shows for each sequence that the
    functions of [Sercon] send. *)
From S2P Require Import Prelude Machine VgaFb Sercon.
Local Open Scope seabios_scope.

(** ** The terminal *)

(** What of a UTF-8 sequence or of a control sequence has been received; the
    arguments of a control sequence, the last one first. *)
Inductive parse := Ground | Utf (more : nat) (u : Z) | Escape | Csi (private : bool) (args : list Z).
Record display := Display { d_x : Z; d_y : Z; d_wrap : bool; d_code : Z -> Z -> Z; d_parse : parse }.

Definition set_parse (p : parse) (d : display) : display := Display (d_x d) (d_y d) (d_wrap d) (d_code d) p.
Definition at_xy (x y : Z) (d : display) : display := Display x y (d_wrap d) (d_code d) (d_parse d).
Definition blank (x y : Z) : Z := 0x20.
Definition home : display := Display 0 0 true blank Ground.

Section Term.
Context (cols rows : Z).

Definition line_feed (d : display) : display :=
  if d_y d + 1 <? rows then at_xy (d_x d) (d_y d + 1) d
  else Display (d_x d) (d_y d) (d_wrap d) (fun x y => if y =? rows - 1 then 0x20 else d_code d x (y + 1)) (d_parse d).
Definition show_code (u : Z) (d : display) : display :=
  let d := Display (d_x d) (d_y d) (d_wrap d)
             (fun x y => if (x =? d_x d) && (y =? d_y d) then u else d_code d x y) (d_parse d) in
  if d_x d + 1 <? cols then at_xy (d_x d + 1) (d_y d) d
  else if d_wrap d then line_feed (at_xy 0 (d_y d) d) else d.
Definition control (private : bool) (args : list Z) (final : Z) (d : display) : display :=
  let clip n v := Z.max 0 (Z.min (v - 1) (n - 1)) in
  if (final =? 0x48) && negb private then
    match rev args with
    | r :: c :: _ => at_xy (clip cols c) (clip rows r) d
    | [r] => at_xy 0 (clip rows r) d
    | [] => at_xy 0 0 d
    end
  else if (final =? 0x4a) && negb private && bool_decide (args = [2])
  then Display (d_x d) (d_y d) (d_wrap d) blank (d_parse d)
  else if (final =? 0x6c) && private && bool_decide (args = [7])
  then Display (d_x d) (d_y d) false (d_code d) (d_parse d)
  else d.

Definition on_byte (d : display) (b : Z) : display :=
  match d_parse d with
  | Ground =>
    if b =? 0x1b then set_parse Escape d
    else if b =? 0x0d then at_xy 0 (d_y d) d
    else if b =? 0x0a then line_feed d
    else if b =? 0x08 then at_xy (Z.max 0 (d_x d - 1)) (d_y d) d
    else if b <? 0x20 then d
    else if b <? 0x7f then show_code b d
    else if Z.land b 0xe0 =? 0xc0 then set_parse (Utf 1 (Z.land b 0x1f)) d
    else if Z.land b 0xf0 =? 0xe0 then set_parse (Utf 2 (Z.land b 0x0f)) d
    else d
  | Utf more u =>
    if Z.land b 0xc0 =? 0x80 then
      let u := Z.lor (Z.shiftl u 6) (Z.land b 0x3f) in
      match more with
      | O | 1%nat => show_code u (set_parse Ground d)
      | S more' => set_parse (Utf more' u) d
      end
    else set_parse Ground d
  | Escape =>
    if b =? 0x63 then home else if b =? 0x5b then set_parse (Csi false [0]) d else set_parse Ground d
  | Csi private args =>
    if (0x30 <=? b) && (b <=? 0x39) then
      set_parse (Csi private (match args with a :: l => a * 10 + (b - 0x30) :: l | [] => [b - 0x30] end)) d
    else if b =? 0x3b then set_parse (Csi private (0 :: args)) d
    else if b =? 0x3f then set_parse (Csi true args) d
    else if (0x40 <=? b) && (b <=? 0x7e) then control private args b (set_parse Ground d)
    else d
  end.
Definition receive (l : list Z) (d : display) : display := foldl on_byte d l.

Lemma receive_app l l' d : receive (l ++ l') d = receive l' (receive l d).
Proof. apply foldl_app. Qed.

(** ** Text *)

(** The sequence of two or three bytes of a code, decoded. *)
Definition utf8_ok (u : Z) : bool :=
  match utf8 u with
  | [b] => (b =? u) && (0x20 <=? b) && (b <? 0x7f)
  | [b; b'] => (Z.land b 0xe0 =? 0xc0) && (0x7f <=? b) && (Z.land b' 0xc0 =? 0x80)
               && (Z.lor (Z.shiftl (Z.land b 0x1f) 6) (Z.land b' 0x3f) =? u)
  | [b; b'; b''] => (Z.land b 0xe0 =? 0xe0) && (Z.land b 0xf0 =? 0xe0) && (0x7f <=? b)
                    && (Z.land b' 0xc0 =? 0x80) && (Z.land b'' 0xc0 =? 0x80)
                    && (Z.lor (Z.shiftl (Z.lor (Z.shiftl (Z.land b 0x0f) 6) (Z.land b' 0x3f)) 6) (Z.land b'' 0x3f) =? u)
  | _ => false
  end.
Lemma cp437_utf8_ok c : 0 < c < 256 -> utf8_ok (cp437_to_unicode c) = true.
Proof.
  intros Hc. assert (Hall : forallb (fun k => utf8_ok (cp437_to_unicode (Z.of_nat k))) (seq 1 255) = true) by by vm_compute.
  rewrite forallb_forall in Hall. specialize (Hall (Z.to_nat c)). rewrite Z2Nat.id in Hall by lia.
  apply Hall, in_seq. lia.
Qed.

Ltac not_byte := repeat match goal with
  | |- context [?a =? ?b] => destruct (Z.eqb_spec a b); [lia|]
  | |- context [?a <? ?b] => destruct (Z.ltb_spec a b); [lia|] end.
Lemma on_code d b : d_parse d = Ground -> 0x20 <= b < 0x7f -> on_byte d b = show_code b d.
Proof. intros Hd Hb. unfold on_byte. rewrite Hd. not_byte. destruct (Z.ltb_spec b 0x20); [lia|]. by destruct (Z.ltb_spec b 0x7f); [|lia]. Qed.
Lemma on_lead2 d b : d_parse d = Ground -> 0x7f <= b -> Z.land b 0xe0 = 0xc0 ->
  on_byte d b = set_parse (Utf 1 (Z.land b 0x1f)) d.
Proof. intros Hd Hb Hl. unfold on_byte. rewrite Hd, Hl. not_byte. done. Qed.
Lemma on_lead3 d b : d_parse d = Ground -> 0x7f <= b -> Z.land b 0xe0 = 0xe0 -> Z.land b 0xf0 = 0xe0 ->
  on_byte d b = set_parse (Utf 2 (Z.land b 0x0f)) d.
Proof. intros Hd Hb Hl Hl'. unfold on_byte. rewrite Hd, Hl, Hl'. not_byte. done. Qed.
Lemma on_next d b n u : d_parse d = Utf (S (S n)) u -> Z.land b 0xc0 = 0x80 ->
  on_byte d b = set_parse (Utf (S n) (Z.lor (Z.shiftl u 6) (Z.land b 0x3f))) d.
Proof. intros Hd Hb. unfold on_byte. by rewrite Hd, Hb. Qed.
Lemma on_last d b u : d_parse d = Utf 1 u -> Z.land b 0xc0 = 0x80 ->
  on_byte d b = show_code (Z.lor (Z.shiftl u 6) (Z.land b 0x3f)) (set_parse Ground d).
Proof. intros Hd Hb. unfold on_byte. by rewrite Hd, Hb. Qed.
Lemma reparse p q d : set_parse p (set_parse q d) = set_parse p d.
Proof. by destruct d. Qed.
Lemma set_ground d : d_parse d = Ground -> set_parse Ground d = d.
Proof. destruct d. cbn. by intros ->. Qed.

Lemma receive_utf8 u d : utf8_ok u = true -> d_parse d = Ground -> receive (utf8 u) d = show_code u d.
Proof.
  unfold utf8_ok, receive. intros Hu Hd.
  destruct (utf8 u) as [|b [|b' [|b'' [|? ?]]]]; try discriminate;
    rewrite ?andb_true_iff, ?Z.eqb_eq, ?Z.leb_le, ?Z.ltb_lt in Hu; cbn [foldl].
  - destruct Hu as ((-> & ?) & ?). by apply on_code.
  - destruct Hu as (((Hb & ?) & Hb') & Heq). rewrite (on_lead2 d b) by done. erewrite on_last by done.
    by rewrite reparse, set_ground, Heq.
  - destruct Hu as (((((Hb & Hbf) & ?) & Hb') & Hb'') & Heq). rewrite (on_lead3 d b) by done.
    rewrite (on_next _ b' 0 (Z.land b 0x0f)) by done. erewrite on_last by done. by rewrite !reparse, set_ground, Heq.
Qed.

(** ** Control sequences *)

(** Arguments are digits and separators. *)
Definition is_arg (b : Z) : bool := (0x30 <=? b) && (b <=? 0x39) || (b =? 0x3b).
Lemma receive_args l : forallb is_arg l = true -> forall d args, d_parse d = Csi false args ->
  exists args', receive l d = set_parse (Csi false args') d.
Proof.
  unfold receive. induction l as [|b l IH]; cbn [forallb foldl]; intros Hl d args Hd.
  { exists args. by destruct d; cbn in *; subst. }
  apply andb_true_iff in Hl as [Hb Hl].
  assert (Hstep : exists args', on_byte d b = set_parse (Csi false args') d).
  { unfold on_byte. rewrite Hd. unfold is_arg in Hb. destruct ((0x30 <=? b) && (b <=? 0x39)); [eauto|].
    cbn [orb] in Hb. rewrite Hb. eauto. }
  destruct Hstep as [args' Hstep]. rewrite Hstep. destruct (IH Hl (set_parse (Csi false args') d) args' eq_refl) as [args2 ->].
  exists args2. apply reparse.
Qed.
(** Attributes do not change what is shown. *)
Lemma cmap_digit n : is_arg (nth n sercon_cmap 0x30) = true.
Proof. do 9 (destruct n; [reflexivity|]). by rewrite nth_overflow by (cbn; lia). Qed.
Lemma cmap_arg v : is_arg (nth (Z.to_nat (Z.land v 7)) sercon_cmap 0) = true.
Proof.
  assert (0 <= Z.land v 7 < 8) by (change 7 with (Z.ones 3); rewrite Z.land_ones by lia; lia).
  rewrite (nth_indep _ _ 0x30) by (cbn; lia). apply cmap_digit.
Qed.
Lemma receive_color fg bg bold d : d_parse d = Ground -> receive (set_color fg bg bold) d = d.
Proof.
  intros Hd. set (args := [0x30] ++ (if negb (fg =? 7) then [0x3b; 0x33; nth (Z.to_nat (Z.land fg 7)) sercon_cmap 0] else [])
    ++ (if negb (bg =? 0) then [0x3b; 0x34; nth (Z.to_nat (Z.land bg 7)) sercon_cmap 0] else [])
    ++ (if truthy bold then [0x3b; 0x31] else [])).
  assert (Hc : set_color fg bg bold = [0x1b; 0x5b] ++ args ++ [0x6d])
    by (unfold set_color, args; by rewrite <- !app_assoc).
  assert (Ha : forallb is_arg args = true).
  { unfold args. rewrite !forallb_app. destruct (negb (fg =? 7)), (negb (bg =? 0)), (truthy bold); cbn [forallb app];
      rewrite ?cmap_arg; reflexivity. }
  rewrite Hc, !receive_app.
  replace (receive [0x1b; 0x5b] d) with (set_parse (Csi false [0]) d) by (unfold receive, on_byte; cbn [foldl]; by rewrite Hd).
  destruct (receive_args args Ha (set_parse (Csi false [0]) d) [0] eq_refl) as [args' ->]. rewrite reparse.
  unfold receive, on_byte. cbn [foldl set_parse d_parse Z.leb Z.eqb andb]. cbn. rewrite <- (set_ground d Hd) at 2. by destruct d.
Qed.

Definition goto_bytes (row col : Z) : list Z :=
  let row := u8 (row + 1) in
  let col := u8 (col + 1) in
  [0x1b; 0x5b; 0x30 + row / 10; 0x30 + row mod 10; 0x3b; 0x30 + col / 10; 0x30 + col mod 10; 0x48].
Lemma on_digit d p a l k : d_parse d = Csi p (a :: l) -> 0 <= k < 10 ->
  on_byte d (0x30 + k) = set_parse (Csi p (a * 10 + k :: l)) d.
Proof.
  intros Hd Hk. unfold on_byte. rewrite Hd. destruct (Z.leb_spec 0x30 (0x30 + k)); [|lia].
  destruct (Z.leb_spec (0x30 + k) 0x39); [|lia]. cbn [andb]. do 3 f_equal. lia.
Qed.
Lemma receive_position r r' c c' d : d_parse d = Ground -> 0 <= r < 10 -> 0 <= r' < 10 -> 0 <= c < 10 -> 0 <= c' < 10 ->
  receive [0x1b; 0x5b; 0x30 + r; 0x30 + r'; 0x3b; 0x30 + c; 0x30 + c'; 0x48] d =
  at_xy (Z.max 0 (Z.min (c * 10 + c' - 1) (cols - 1))) (Z.max 0 (Z.min (r * 10 + r' - 1) (rows - 1))) d.
Proof.
  intros Hd Hr Hr' Hc Hc'. unfold receive. cbn [foldl].
  replace (on_byte (on_byte d 0x1b) 0x5b) with (set_parse (Csi false [0]) d) by (unfold on_byte; by rewrite Hd).
  rewrite (on_digit (set_parse (Csi false [0]) d) false 0 [] r) by done. rewrite reparse.
  rewrite (on_digit _ false (0 * 10 + r) [] r') by done. rewrite reparse.
  set (row := (0 * 10 + r) * 10 + r').
  replace (on_byte (set_parse (Csi false [row]) d) 0x3b) with (set_parse (Csi false [0; row]) d) by done.
  rewrite (on_digit _ false 0 [row] c) by done. rewrite reparse.
  rewrite (on_digit _ false (0 * 10 + c) [row] c') by done. rewrite reparse.
  set (col := (0 * 10 + c) * 10 + c'). transitivity (control false [col; row] 0x48 (set_parse Ground (set_parse (Csi false [col; row]) d))); [done|].
  rewrite reparse, set_ground by done. unfold control. cbn [Z.eqb Pos.eqb negb andb rev app].
  subst row col. f_equal; f_equal; f_equal; lia.
Qed.
Lemma receive_goto row col d : d_parse d = Ground -> 0 <= row < rows -> 0 <= col < cols -> rows <= 98 -> cols <= 98 ->
  receive (goto_bytes row col) d = at_xy col row d.
Proof.
  intros Hd Hr Hc Hrs Hcs. unfold goto_bytes, u8. cbn zeta. rewrite !(Z.mod_small _ (2 ^ 8)) by lia.
  rewrite (receive_position ((row + 1) / 10) ((row + 1) mod 10) ((col + 1) / 10) ((col + 1) mod 10) d Hd) by lia.
  f_equal; lia.
Qed.

Lemma receive_reset d : d_parse d = Ground -> receive [0x1b; 0x63] d = home.
Proof. destruct d as [x y w f p]. cbn [d_parse]. intros ->. reflexivity. Qed.
Lemma receive_no_linewrap d : d_parse d = Ground ->
  receive [0x1b; 0x5b; 0x3f; 0x37; 0x6c] d = Display (d_x d) (d_y d) false (d_code d) Ground.
Proof. destruct d as [x y w f p]. cbn [d_parse]. intros ->. reflexivity. Qed.
Lemma receive_clear d : d_parse d = Ground ->
  receive [0x1b; 0x5b; 0x32; 0x4a] d = Display (d_x d) (d_y d) (d_wrap d) blank Ground.
Proof. destruct d as [x y w f p]. cbn [d_parse]. intros ->. reflexivity. Qed.
Lemma receive_byte b d : d_parse d = Ground -> b = 7 \/ b = 8 \/ b = 13 ->
  receive [b] d = (if b =? 8 then at_xy (Z.max 0 (d_x d - 1)) (d_y d) d else if b =? 13 then at_xy 0 (d_y d) d else d).
Proof. intros Hd Hb. unfold receive, on_byte. cbn [foldl]. rewrite Hd. by destruct Hb as [-> | [-> | ->]]. Qed.

(** Line feeds: down to the last row, and what is left over scrolls. *)
Lemma receive_line_feeds n : forall d, d_parse d = Ground -> 0 <= d_y d < rows ->
  let d' := receive (repeat 0x0a n) d in let p := Z.max 0 (d_y d + Z.of_nat n - (rows - 1)) in
  d_x d' = d_x d /\ d_y d' = Z.min (d_y d + Z.of_nat n) (rows - 1) /\ d_wrap d' = d_wrap d /\ d_parse d' = Ground /\
  (forall x y, 0 <= y < rows -> d_code d' x y = if y + p <? rows then d_code d x (y + p) else 0x20).
Proof.
  induction n as [|n IH]; intros d Hd Hy; cbn zeta.
  { cbn [receive repeat foldl]. split_and!; [done|lia|done|done|]. intros x y Hxy.
    replace (Z.max 0 (d_y d + Z.of_nat 0 - (rows - 1))) with 0 by lia. rewrite Z.add_0_r.
    by destruct (Z.ltb_spec y rows); [|lia]. }
  cbn [repeat receive foldl]. replace (on_byte d 0x0a) with (line_feed d) by (unfold on_byte; by rewrite Hd).
  change (foldl on_byte (line_feed d) (repeat 0x0a n)) with (receive (repeat 0x0a n) (line_feed d)).
  specialize (IH (line_feed d)). unfold line_feed in *. destruct (Z.ltb_spec (d_y d + 1) rows) as [Hlt|Hge]; cbn in IH.
  - destruct (IH Hd ltac:(lia)) as (Hx & Hy' & Hw & Hp & Hc). split_and!; [done|lia|done|done|]. intros x y Hxy.
    rewrite Hc by done. replace (d_y d + 1 + Z.of_nat n) with (d_y d + Z.of_nat (S n)) by lia. done.
  - destruct (IH Hd Hy) as (Hx & Hy' & Hw & Hp & Hc). split_and!; [done|lia|done|done|]. intros x y Hxy.
    rewrite Hc by done. set (p := Z.max 0 (d_y d + Z.of_nat n - (rows - 1))).
    replace (Z.max 0 (d_y d + Z.of_nat (S n) - (rows - 1))) with (p + 1) by lia.
    destruct (Z.ltb_spec (y + p) rows), (Z.ltb_spec (y + (p + 1)) rows), (Z.eqb_spec (y + p) (rows - 1)); try lia; f_equal; lia.
Qed.
End Term.
