(* ===== verification/SerconLine.v ===== *)
(** * The serial line of the console

    The UART as the console uses it (a class: what it promises), and what each
    output function of [Sercon] sends and remembers, as a function of the
    variables and of the cursor in the BIOS data area. *)
From S2P Require Import Prelude Machine Clock Kbd VgaFb Sercon SerconTerm.
Local Open Scope seabios_scope.

(** A UART at [addr] whose transmitter is always ready: [sent] are the bytes
    written so far, [incoming] those received and not yet read. *)
Class SerialLine (addr : Z) (W : Type) `{Env W} := {
  sent : W -> list Z;
  incoming : W -> list Z;
  line_status w : exists lsr w', dev_inb (u16 (addr + SEROFF_LSR)) w = (lsr, w') /\ 0 <= lsr < 0xff /\
    Z.land lsr 0x60 = 0x60 /\ truthy (Z.land lsr 0x01) = bool_decide (incoming w <> []) /\
    sent w' = sent w /\ incoming w' = incoming w;
  line_read w b l : incoming w = b :: l -> exists w',
    dev_inb (u16 (addr + SEROFF_DATA)) w = (b, w') /\ sent w' = sent w /\ incoming w' = l;
  line_write w b : let w' := dev_outb b (u16 (addr + SEROFF_DATA)) w in
    sent w' = sent w ++ [b] /\ incoming w' = incoming w }.

(** ** What the output functions do, on the variables alone *)

Definition attr_out (a : Z) (v : sercon_s) : list Z * sercon_s :=
  if a =? attr_last v then ([], v)
  else (set_color (Z.land a 7) (Z.land (Z.shiftr a 4) 7) (Z.land a 0x08), set_attr_last a v).
Definition char_out (v : sercon_s) : list Z * sercon_s :=
  if truthy (char v) then
    let '(l, v1) := attr_out (attr v) v in
    (l ++ utf8 (cp437_to_unicode (char v)), set_col_last (col_last v1 + 1) v1)
  else ([], v).
Definition sync_out (row col : Z) (v : sercon_s) : list Z * sercon_s :=
  if (row_last v =? row) && (col_last v =? col) then ([], v)
  else if (col =? 0) && (row_last v <=? row) then
    ((if col_last v =? 0 then [] else [0x0d]) ++ repeat 0x0a (Z.to_nat (row - row_last v)), set_row_last row (set_col_last 0 v))
  else (goto_bytes row col, set_col_last col (set_row_last row v)).
Definition flush_out (row col : Z) (v : sercon_s) : list Z * sercon_s :=
  let '(l, v1) := char_out v in
  let '(l', v2) := sync_out row col v1 in
  (l ++ l', set_char 0 (set_attr 0x07 v2)).

(** The variables of type u8 are bytes. *)
Definition bytes_vars (v : sercon_s) : Prop :=
  0 <= row_last v < 256 /\ 0 <= col_last v < 256 /\ 0 <= char v < 256 /\ 0 <= attr_last v < 256 /\ 0 <= attr v < 256.

Definition byte (b : Z) : Prop := 0 <= b < 256.
Lemma cmap_byte k : byte (nth k sercon_cmap 0).
Proof. unfold byte. do 8 (destruct k; [cbn; lia|]). destruct k; cbn; lia. Qed.
Lemma color_bytes fg bg bold : Forall byte (set_color fg bg bold).
Proof.
  unfold set_color. repeat (apply Forall_app; split); repeat case_match; repeat constructor; try apply cmap_byte; unfold byte; lia.
Qed.
Lemma utf8_bytes c : byte c -> Forall byte (utf8 (cp437_to_unicode c)).
Proof.
  intros Hc. assert (Hall : forallb (fun k => forallb (fun b => (0 <=? b) && (b <? 256)) (utf8 (cp437_to_unicode (Z.of_nat k))))
    (seq 0 256) = true) by by vm_compute.
  rewrite forallb_forall in Hall. specialize (Hall (Z.to_nat c)). unfold byte in Hc. rewrite Z2Nat.id in Hall by lia.
  specialize (Hall ltac:(apply in_seq; lia)). rewrite forallb_forall in Hall. apply Forall_forall. intros b Hb.
  apply list_elem_of_In in Hb. specialize (Hall b Hb). unfold byte. apply andb_true_iff in Hall as [H0 H1]. lia.
Qed.
Lemma goto_bytes_ok row col : Forall byte (goto_bytes row col).
Proof.
  unfold goto_bytes, u8. cbn zeta. set (r := (row + 1) mod 2 ^ 8). set (c := (col + 1) mod 2 ^ 8).
  assert (0 <= r < 256) by (subst r; lia). assert (0 <= c < 256) by (subst c; lia).
  assert (0 <= r / 10 <= 25 /\ 0 <= c / 10 <= 25) by lia. unfold byte. repeat constructor; lia.
Qed.

(** The cursor of the BIOS data area. *)
Definition bda_row m : Z := Z.land (Z.shiftr (read16 m VBDA.cursor_pos) 8) 0xff.
Definition bda_col m : Z := Z.land (read16 m VBDA.cursor_pos) 0xff.
Lemma bda_cursor_bytes m : 0 <= bda_row m < 256 /\ 0 <= bda_col m < 256.
Proof. unfold bda_row, bda_col. change 0xff with (Z.ones 8). rewrite !Z.land_ones by lia. lia. Qed.

Lemma set_row_last_same row v : row_last v = row -> 0 <= row < 256 -> set_row_last row v = v.
Proof. intros <- Hr. destruct v. unfold set_row_last, u8. cbn in *. f_equal; lia. Qed.
Lemma attr_out_bytes a v : bytes_vars v -> bytes_vars (snd (attr_out a v)).
Proof. unfold attr_out, bytes_vars. case_match; cbn; unfold u8; lia. Qed.
Lemma attr_out_kept a v : let v' := snd (attr_out a v) in
  port v' = port v /\ char v' = char v /\ col_last v' = col_last v /\ row_last v' = row_last v /\ rx_buf v' = rx_buf v /\ split v' = split v.
Proof. unfold attr_out. by case_match. Qed.
Lemma char_out_bytes v : bytes_vars v -> bytes_vars (snd (char_out v)).
Proof.
  unfold char_out. intros Hv. case_match; [|done]. pose proof (attr_out_bytes (attr v) v Hv) as Hv1.
  destruct (attr_out (attr v) v) as [l v1]. unfold bytes_vars in *. cbn in *. unfold u8. lia.
Qed.
Lemma char_out_kept v : let v' := snd (char_out v) in
  port v' = port v /\ char v' = char v /\ row_last v' = row_last v /\ rx_buf v' = rx_buf v /\ split v' = split v.
Proof.
  unfold char_out. case_match; [|done]. pose proof (attr_out_kept (attr v) v) as (? & ? & ? & ? & ? & ?).
  destruct (attr_out (attr v) v) as [l v1]. cbn in *. by split_and!.
Qed.
Lemma sync_out_kept row col v : bytes_vars v -> let v' := snd (sync_out row col v) in
  port v' = port v /\ split v' = split v /\ rx_buf v' = rx_buf v /\ bytes_vars v'.
Proof. unfold sync_out, bytes_vars. intros Hv. repeat case_match; cbn; unfold u8; split_and!; done || lia. Qed.
Lemma flush_out_kept row col v : bytes_vars v -> let v' := snd (flush_out row col v) in
  port v' = port v /\ split v' = split v /\ rx_buf v' = rx_buf v /\ bytes_vars v'.
Proof.
  intros Hv. unfold flush_out. pose proof (char_out_kept v) as (Hp1 & _ & _ & Hrx1 & Hs1).
  pose proof (char_out_bytes v Hv) as Hv1. destruct (char_out v) as [l v1]. cbn [snd] in *.
  pose proof (sync_out_kept row col v1 Hv1) as (Hp2 & Hs2 & Hrx2 & Hv2). destruct (sync_out row col v1) as [l2 v2].
  cbn [snd] in *. cbn [port split rx_buf set_char set_attr]. split_and!; try congruence.
  unfold bytes_vars in *. cbn. unfold u8. lia.
Qed.

(** ** Runs *)

Section Line.
Context {W : Type} `{Env W}.
Context (addr : Z) `{!SerialLine addr W}.
Context (fuel : nat) (Hfuel : (0 < fuel)%nat).
Implicit Types (v : sercon_s) (m : memory) (w : W).

(** A run with a result: memory and variables change as said, the bytes go out,
    what has come in stays. *)
Definition emits {A} (act : M (sercon_world W) A) m v (x : A) m' v' (l : list Z) : Prop :=
  forall w, exists w', act (Machine m (SerconWorld v w)) = Some (x, Machine m' (SerconWorld v' w')) /\
    sent w' = sent w ++ l /\ incoming w' = incoming w.

Lemma emits_ret {A} (x : A) m v : emits (ret x) m v x m v [].
Proof. intros w. exists w. by rewrite app_nil_r. Qed.
Lemma emits_updv f m v : emits (updv f) m v tt m (f v) [].
Proof. intros w. exists w. by rewrite app_nil_r. Qed.
Lemma emits_bind {A B} (c : M (sercon_world W) A) (k : A -> M (sercon_world W) B) m v x m1 v1 l1 y m2 v2 l2 :
  emits c m v x m1 v1 l1 -> emits (k x) m1 v1 y m2 v2 l2 -> emits (bind c k) m v y m2 v2 (l1 ++ l2).
Proof.
  intros Hc Hk w. destruct (Hc w) as (w1 & Hrun & Hs & Hi). destruct (Hk w1) as (w2 & Hrun2 & Hs2 & Hi2).
  exists w2. split_and!; [by erewrite bind_some by exact Hrun|by rewrite Hs2, Hs, app_assoc|by rewrite Hi2].
Qed.
(** Reading a variable or memory. *)
Lemma emits_read {A B} (c : M (sercon_world W) A) (k : A -> M (sercon_world W) B) m v x y m2 v2 l :
  (forall w, c (Machine m (SerconWorld v w)) = Some (x, Machine m (SerconWorld v w))) ->
  emits (k x) m v y m2 v2 l -> emits (bind c k) m v y m2 v2 l.
Proof. intros Hc Hk. apply (emits_bind c k m v x m v []); [|done]. intros w. exists w. by rewrite app_nil_r, Hc. Qed.
Lemma emits_then {B} (c : M (sercon_world W) unit) (k : unit -> M (sercon_world W) B) m v m1 v1 y m2 v2 l :
  emits c m v tt m1 v1 [] -> emits (k tt) m1 v1 y m2 v2 l -> emits (bind c k) m v y m2 v2 l.
Proof. intros Hc Hk. by apply (emits_bind c k m v tt m1 v1 []). Qed.

Lemma emits_putchar m v b : port v = addr -> 0 <= b < 256 -> emits (sercon_putchar fuel b) m v tt m v [b].
Proof.
  intros Hp Hb w. unfold sercon_putchar, bind, getv. cbn [mc_world sw_vars mc_mem]. rewrite Hp.
  destruct fuel as [|n]; [lia|]. cbn [putchar_loop]. unfold bind, inb. cbn [mc_world mc_mem dev_inb sercon_env sw_rest sw_vars].
  destruct (line_status w) as (lsr & w1 & -> & Hlsr & Hready & _ & Hs & Hi). unfold u8 at 1. rewrite Z.mod_small by lia.
  rewrite Hready. cbn [Z.eqb Pos.eqb]. unfold outb. cbn [mc_world mc_mem dev_outb sw_vars sw_rest].
  unfold u8. rewrite !(Z.mod_small b) by lia. eexists. split; [done|]. cbn [sw_rest].
  destruct (line_write w1 b) as [Hs1 Hi1]. by rewrite Hs1, Hi1, Hs, Hi.
Qed.
Lemma emits_putchars l m v : port v = addr -> Forall (fun b => 0 <= b < 256) l -> emits (putchars fuel l) m v tt m v l.
Proof.
  intros Hp. induction l as [|b l IH]; intros Hl; [apply emits_ret|]. apply Forall_cons in Hl as [Hb Hl].
  cbn [putchars]. apply (emits_bind _ _ m v tt m v [b]); [by apply emits_putchar|by apply IH].
Qed.

Lemma emits_set_attr m v a : port v = addr ->
  emits (sercon_set_attr fuel a) m v tt m (snd (attr_out a v)) (fst (attr_out a v)).
Proof.
  intros Hp. unfold sercon_set_attr, attr_out. apply (emits_read _ _ m v (attr_last v)); [done|].
  destruct (a =? attr_last v); [apply emits_ret|]. apply (emits_then _ _ m v m (set_attr_last a v)); [apply emits_updv|].
  apply emits_putchars; [done|apply color_bytes].
Qed.
Lemma emits_utf8 m v c : port v = addr -> byte c -> emits (sercon_print_utf8 fuel c) m v tt m v (utf8 (cp437_to_unicode c)).
Proof. intros Hp Hc. by apply emits_putchars, utf8_bytes. Qed.

Lemma emits_newlines k row m : 0 <= row < 256 -> forall v, port v = addr -> 0 <= row_last v <= row -> row - row_last v <= Z.of_nat k ->
  emits (newlines fuel k row) m v tt m (set_row_last row v) (repeat 0x0a (Z.to_nat (row - row_last v))).
Proof.
  intros Hrow. induction k as [|k IH]; intros v Hp Hle Hk.
  { replace (row - row_last v) with 0 by lia. rewrite set_row_last_same by lia. apply emits_ret. }
  cbn [newlines]. apply (emits_read _ _ m v (row_last v)); [done|]. destruct (Z.ltb_spec (row_last v) row) as [Hlt|Hge].
  - replace (Z.to_nat (row - row_last v)) with (S (Z.to_nat (row - (row_last v + 1)))) by lia.
    apply (emits_bind _ _ m v tt m v [0x0a]); [by apply emits_putchar|].
    apply (emits_then _ _ m v m (set_row_last (row_last v + 1) v)); [apply emits_updv|].
    assert (Hl : row_last (set_row_last (row_last v + 1) v) = row_last v + 1) by (cbn; unfold u8; lia).
    specialize (IH (set_row_last (row_last v + 1) v)). rewrite Hl in IH. apply IH; [done|lia|lia].
  - replace (row - row_last v) with 0 by lia. rewrite set_row_last_same by lia. apply emits_ret.
Qed.

Lemma emits_goto m v row col : port v = addr ->
  emits (goto_cursor fuel row col) m v tt m (set_col_last col (set_row_last row v)) (goto_bytes row col).
Proof.
  intros Hp. unfold goto_cursor. rewrite <- (app_nil_r (goto_bytes row col)).
  apply (emits_bind _ _ m v tt m v); [apply emits_putchars; [done|apply goto_bytes_ok]|].
  apply (emits_then _ _ m v m (set_row_last row v)); apply emits_updv.
Qed.

Lemma emits_sync m v : port v = addr -> bytes_vars v ->
  let out := sync_out (bda_row m) (bda_col m) v in
  emits (sercon_lazy_cursor_sync fuel) m v tt m (snd out) (fst out).
Proof.
  intros Hp (Hrl & Hcl & _). pose proof (bda_cursor_bytes m) as [Hr Hc]. unfold sercon_lazy_cursor_sync, sync_out. cbn zeta.
  apply (emits_read _ _ m v (bda_row m)); [done|]. apply (emits_read _ _ m v (bda_col m)); [done|].
  apply (emits_read _ _ m v (row_last v)); [done|]. apply (emits_read _ _ m v (col_last v)); [done|].
  destruct ((row_last v =? bda_row m) && (col_last v =? bda_col m)); [apply emits_ret|].
  destruct ((bda_col m =? 0) && (row_last v <=? bda_row m)) eqn:Hcr; [|by apply emits_goto].
  apply andb_true_iff in Hcr as [Hcol Hle%Z.leb_le]. apply Z.eqb_eq in Hcol. cbn [fst snd].
  apply (emits_bind _ _ m v tt m (set_col_last 0 v)).
  { destruct (Z.eqb_spec (col_last v) 0) as [Hz|Hz]; cbn [negb].
    - replace (set_col_last 0 v) with v by (destruct v; cbn in *; by subst). apply emits_ret.
    - rewrite <- (app_nil_r [0x0d]). apply (emits_bind _ _ m v tt m v); [by apply emits_putchar|apply emits_updv]. }
  rewrite <- (app_nil_r (repeat _ _)).
  apply (emits_bind _ _ m _ tt m (set_row_last (bda_row m) (set_col_last 0 v))).
  { apply (emits_newlines 255 (bda_row m) m Hr (set_col_last 0 v)); [done|cbn; lia..]. }
  set (v1 := set_row_last (bda_row m) (set_col_last 0 v)).
  apply (emits_read _ _ m v1 (row_last v1)); [done|]. apply (emits_read _ _ m v1 (col_last v1)); [done|]. subst v1.
  cbn [row_last col_last set_row_last set_col_last]. unfold u8 at 1.
  rewrite Z.mod_small, Z.eqb_refl, Hcol by lia. apply emits_ret.
Qed.

Lemma emits_flush m v : port v = addr -> bytes_vars v ->
  let out := flush_out (bda_row m) (bda_col m) v in
  emits (sercon_lazy_flush fuel) m v tt m (snd out) (fst out).
Proof.
  intros Hp Hv. unfold sercon_lazy_flush, flush_out. cbn zeta.
  apply (emits_read _ _ m v (char v)); [done|]. apply (emits_read _ _ m v (attr v)); [done|].
  assert (Hchar : emits (if truthy (char v) then
        do sercon_set_attr fuel (attr v) ;; do sercon_print_utf8 fuel (char v) ;;
        cl <- getv col_last ;; updv (set_col_last (cl + 1)) else ret tt) m v tt m (snd (char_out v)) (fst (char_out v))).
  { unfold char_out. destruct (truthy (char v)); [|apply emits_ret]. pose proof (emits_set_attr m v (attr v) Hp) as Ha.
    pose proof (attr_out_kept (attr v) v) as (Hp1 & _). destruct (attr_out (attr v) v) as [l v1]. cbn [fst snd] in *.
    eapply emits_bind; [exact Ha|]. rewrite <- (app_nil_r (utf8 _)).
    eapply emits_bind; [apply emits_utf8; [congruence|apply Hv]|].
    apply (emits_read _ _ m v1 (col_last v1)); [done|apply emits_updv]. }
  pose proof (char_out_bytes v Hv) as Hv1. pose proof (char_out_kept v) as (Hp1 & _).
  destruct (char_out v) as [l v1]. cbn [fst snd] in *.
  pose proof (emits_sync m v1 ltac:(congruence) Hv1) as Hsync. cbn zeta in Hsync.
  destruct (sync_out (bda_row m) (bda_col m) v1) as [l2 v2]. cbn [fst snd] in *.
  eapply emits_bind; [exact Hchar|]. rewrite <- (app_nil_r l2). eapply emits_bind; [exact Hsync|].
  apply (emits_then _ _ m v2 m (set_attr 0x07 v2)); apply emits_updv.
Qed.

(** ** The timer's call *)

(** The output goes out before the input is looked at. *)
Lemma check_event_flush m v w : port v = addr -> addr <> 0 -> bytes_vars v ->
  let out := flush_out (bda_row m) (bda_col m) v in
  exists w', sent w' = sent w ++ fst out /\ incoming w' = incoming w /\
    sercon_check_event true fuel (Machine m (SerconWorld v w)) =
    (count <- read_data fuel addr 0 ;; input_loop (S (Z.to_nat RX_SIZE)) count) (Machine m (SerconWorld (snd out) w')).
Proof.
  intros Hp Ha Hv. cbn zeta. unfold sercon_check_event. cbn [negb].
  destruct (line_status (addr := addr) w) as (lsr & w1 & Hdev & Hlsr & _ & _ & Hs1 & Hi1).
  pose proof (emits_flush m v Hp Hv) as He. cbn zeta in He. destruct (He w1) as (w2 & Hrun & Hs2 & Hi2). exists w2. split_and!; [by rewrite Hs2, Hs1|congruence|].
  erewrite bind_some by reflexivity. cbn [mc_world sw_vars]. rewrite Hp. destruct (Z.eqb_spec addr 0); [done|].
  erewrite bind_some by (unfold inb; cbn [mc_world mc_mem dev_inb sercon_env sw_rest sw_vars]; rewrite Hdev; reflexivity).
  unfold u8 at 1. rewrite Z.mod_small by lia. destruct (Z.eqb_spec lsr 0xff); [lia|]. by erewrite bind_some by exact Hrun.
Qed.

(** All that has come in is taken; the buffer keeps 16 bytes. *)
Lemma read_data_run m l : Forall byte l -> forall n c v w, incoming w = l -> (length l < n)%nat ->
  (length (rx_buf v) <= 16)%nat -> 0 <= c <= Z.of_nat (length (rx_buf v)) ->
  let buf := take 16 (rx_buf v ++ l) in
  exists w', read_data n addr c (Machine m (SerconWorld v w)) =
    Some (c + Z.of_nat (length buf) - Z.of_nat (length (rx_buf v)), Machine m (SerconWorld (set_rx_buf buf v) w')) /\
    incoming w' = [] /\ sent w' = sent w.
Proof.
  clear Hfuel fuel. induction l as [|b l IH]; intros Hl [|n] c v w Hin Hn Hlen Hc; cbn [length] in Hn; try lia; cbn zeta; cbn [read_data];
    destruct (line_status (addr := addr) w) as (lsr & w1 & Hdev & Hlsr & _ & Hdata & Hs1 & Hi1);
    (erewrite bind_some by (unfold inb; cbn [mc_world mc_mem dev_inb sercon_env sw_rest sw_vars]; rewrite Hdev; reflexivity));
    unfold u8 at 1; rewrite (Z.mod_small lsr) by lia; rewrite Hdata, Hin.
  - exists w1. rewrite app_nil_r, take_ge by done. split_and!; [|congruence..]. cbn [bool_decide negb].
    rewrite Z.add_simpl_r. by destruct v.
  - apply Forall_cons in Hl as [Hb Hl].
    destruct (line_read (addr := addr) w1 b l (eq_trans Hi1 Hin)) as (w2 & Hdev2 & Hs2 & Hi2).
    rewrite bool_decide_true by done. cbn [negb].
    erewrite bind_some by (unfold inb; cbn [mc_world mc_mem dev_inb sercon_env sw_rest sw_vars]; rewrite Hdev2; reflexivity).
    unfold u8 at 1. rewrite (Z.mod_small b) by (unfold byte in Hb; lia). cbn [mc_world sw_vars]. unfold rx_bytes, RX_SIZE.
    destruct (Z.ltb_spec (Z.of_nat (length (rx_buf v))) 16) as [Hroom|Hfull].
    + specialize (IH Hl n (u8 (c + 1)) (set_rx_buf (rx_buf v ++ [b]) v) w2 Hi2 ltac:(lia)).
      cbn [rx_buf set_rx_buf] in IH. rewrite length_app in IH. cbn [length] in IH. unfold u8 in IH. rewrite Z.mod_small in IH by lia.
      destruct IH as (w' & Hrun & Hin' & Hs'); [lia..|]. rewrite <- app_assoc in Hrun. cbn [app] in Hrun.
      exists w'. split_and!; [|done|congruence]. erewrite bind_some by reflexivity. cbn [mc_mem mc_world sw_rest sw_vars].
      unfold u8. rewrite (Z.mod_small (c + 1)) by lia. rewrite Hrun. f_equal. f_equal. lia.
    + specialize (IH Hl n c v w2 Hi2 ltac:(lia) Hlen Hc). rewrite !take_app_length' in * by lia.
      destruct IH as (w' & Hrun & Hin' & Hs'). exists w'. split_and!; [exact Hrun|done|congruence].
Qed.
End Line.

(** ** An example line *)

Module LineDemo.
(** A UART at 3F8h: what was written, and what waits to be read. *)
Record uart := Uart { u_sent : list Z; u_in : list Z }.
Definition uart_inb (p : Z) (w : uart) : Z * uart :=
  if p =? 0x3fd then ((if bool_decide (u_in w <> []) then 0x61 else 0x60), w)
  else if p =? 0x3f8 then match u_in w with b :: l => (b, Uart (u_sent w) l) | [] => (0, w) end
  else (0xff, w).
Definition uart_outb (v p : Z) (w : uart) : uart := if p =? 0x3f8 then Uart (u_sent w ++ [v]) (u_in w) else w.
#[export] Instance env : Env uart := {|
  dev_inb := uart_inb; dev_outb := uart_outb; env_yield := fun s => s;
  env_yield_toirq := fun s => s; env_int := fun _ r s => (r, s) |}.
#[export] Program Instance line : SerialLine 0x3f8 uart := { sent := u_sent; incoming := u_in }.
Next Obligation.
  intros w. exists (if bool_decide (u_in w <> []) then 0x61 else 0x60), w. split; [done|].
  case_bool_decide; (split; [lia|]); split_and!; reflexivity.
Qed.
Next Obligation. intros [o i] b l Hin. cbn in Hin. subst i. eexists. split; [reflexivity|done]. Qed.
Next Obligation. done. Qed.

Definition vars : sercon_s := Sercon 0x3f8 0 1 (Segoff 0 0) 0 0 0 0 7 [] 0.
Definition mem0 : memory := write16 VBDA.cursor_pos 0 (write16 VBDA.video_cols 80 (write8 VBDA.video_rows 24 ∅)).
End LineDemo.
