(* ===== verification/SerconScreen.v ===== *)
(** * The screen on the other end of the serial line

    The lazy output of [Sercon] against the abstract terminal of [VgaScreen]: what
    has been sent and what is still held back (a character, scrolls) make up the
    terminal's screen, and a timer tick sends all of it. *)
From S2P Require Import Prelude Machine Clock Kbd VgaFb VgaScreen Sercon SerconTerm SerconLine Bytes.
Local Open Scope seabios_scope.

(** ** The session: the terminal and what has not been sent of it *)

(** [v_row]: the row the other end has reached, as it will be numbered when the
    [v_lag] scrolls that are held back have happened. *)
Record session := Session { v_term : terminal; v_row : Z; v_lag : Z }.
Definition flushed (ss : session) : session := Session (v_term ss) (t_y (v_term ss)) 0.

Section Session.
Context (cols rows : Z).

Definition type_step (ch : Z) (ss : session) : session :=
  let t := v_term ss in
  let t' := teletype cols rows (CarAttr ch 0 false) t in
  let bottom := t_y t =? rows - 1 in
  if ch =? BS then Session t' (t_y t) 0
  else if (ch =? BEL) || (ch =? CR) then Session t' (v_row ss) (v_lag ss)
  else if ch =? LF then if bottom then Session t' (v_row ss - 1) (v_lag ss + 1) else Session t' (v_row ss) (v_lag ss)
  else if bottom && (t_x t + 1 =? cols) then Session t' (t_y t - 1) 1 else Session t' (t_y t) 0.
(** AH=09h: the character at the cursor, which stays. *)
Definition put_step (ch : Z) (a : Z -> Z -> Z) (ss : session) : session :=
  let t := v_term ss in
  Session (Terminal (t_x t) (t_y t) (fun x y => if (x =? t_x t) && (y =? t_y t) then (ch, a x y) else t_cell t x y)) (t_y t) 0.
Definition write_step (ch a : Z) (ss : session) : session := put_step ch (fun _ _ => a) ss.
Definition cursor_step (row col : Z) (ss : session) : session :=
  Session (Terminal col row (t_cell (v_term ss))) (v_row ss) (v_lag ss).

(** A line feed that scrolls needs the cursor in the first column, and the other
    end not yet scrolled as far as its screen reaches; the cursor is moved only
    when no scroll is held back. *)
Definition type_ok (ch : Z) (ss : session) : Prop :=
  0 < ch < 256 /\ (ch = LF -> t_y (v_term ss) = rows - 1 -> t_x (v_term ss) = 0 /\ 0 < v_row ss).
Definition cursor_step_ok (row col : Z) (ss : session) : Prop := v_lag ss = 0 /\ 0 <= row < rows /\ 0 <= col < cols.

(** ** Events: calls of INT 10h and timer ticks *)

Inductive event := Call (regs : bregs) | Tick.
Definition step (ev : event) (ss : session) : session :=
  match ev with
  | Tick => flushed ss
  | Call regs =>
    match r_ah regs with
    | 0x0e => type_step (r_al regs) ss
    | 0x09 => write_step (r_al regs) (r_bl regs) ss
    | 0x02 => cursor_step (r_dh regs) (r_dl regs) ss
    | _ => ss
    end
  end.
Definition event_ok (ev : event) (ss : session) : Prop :=
  match ev with
  | Tick => True
  | Call regs =>
    (r_ah regs = 0x0e /\ type_ok (r_al regs) ss) \/ (r_ah regs = 0x09 /\ r_cx regs = 1 /\ 0 < r_al regs) \/
    (r_ah regs = 0x02 /\ cursor_step_ok (r_dh regs) (r_dl regs) ss) \/ r_ah regs = 0x03 \/ r_ah regs = 0x0f
  end.
Fixpoint steps (l : list event) (ss : session) : session :=
  match l with [] => ss | ev :: l' => steps l' (step ev ss) end.
Fixpoint events_ok (l : list event) (ss : session) : Prop :=
  match l with [] => True | ev :: l' => event_ok ev ss /\ events_ok l' (step ev ss) end.

(** ** The other end shows the session *)

Definition glyph (t : terminal) (x y : Z) : Z := cp437_to_unicode (fst (t_cell t x y)).
(** The character held back, at the cursor. *)
Definition pending (ch : Z) (d : display) (x y : Z) : Z :=
  if truthy ch && ((x =? d_x d) && (y =? d_y d)) then cp437_to_unicode ch else d_code d x y.
Definition held (ch lag : Z) (d : display) (x y : Z) : Z :=
  if y + lag <? rows then pending ch d x (y + lag) else 0x20.

Record display_ok (d : display) : Prop := {
  do_parse : d_parse d = Ground; do_wrap : d_wrap d = false; do_x : 0 <= d_x d < cols; do_y : 0 <= d_y d < rows }.
Record linked (addr : Z) (ss : session) (m : memory) (v : sercon_s) (d : display) : Prop := {
  lk_rows : read8 m VBDA.video_rows = rows - 1;
  lk_cols : read16 m VBDA.video_cols = cols;
  lk_row : bda_row m = t_y (v_term ss);
  lk_col : bda_col m = t_x (v_term ss);
  lk_cursor : cursor_ok cols rows (v_term ss);
  lk_vars : port v = addr /\ split v = 0 /\ rx_buf v = [] /\ bytes_vars v;
  lk_display : display_ok d;
  lk_last : row_last v = v_row ss /\ d_y d = v_row ss + v_lag ss /\ col_last v = d_x d;
  lk_lag : 0 <= v_row ss /\ 0 <= v_lag ss /\ (0 < v_lag ss -> t_x (v_term ss) = 0 /\ t_y (v_term ss) = rows - 1);
  lk_shown x y : 0 <= x < cols -> 0 <= y < rows -> glyph (v_term ss) x y = held (char v) (v_lag ss) d x y }.
End Session.

Section Lazy.
Context (cols rows addr : Z) (Hcols : 0 < cols <= 98) (Hrows : 1 < rows <= 98).
Implicit Types (ss : session) (m : memory) (v : sercon_s) (d : display).
Abbreviation linked := (linked cols rows addr).

(** ** The flush *)

(** The character is shown; the column remembered may now be one too many. *)
Lemma char_out_shown v d : display_ok cols rows d -> col_last v = d_x d -> bytes_vars v ->
  let d' := receive cols rows (fst (char_out v)) d in
  display_ok cols rows d' /\ d_y d' = d_y d /\
  col_last (snd (char_out v)) = (if truthy (char v) then d_x d + 1 else d_x d) /\
  d_x d' = (if truthy (char v) then Z.min (d_x d + 1) (cols - 1) else d_x d) /\
  (forall x y, d_code d' x y = pending (char v) d x y).
Proof.
  intros [Hp Hw Hx Hy] Hcl (_ & _ & Hch & _). unfold char_out, pending. destruct (truthy (char v)) eqn:Hc; cbn [fst snd].
  2: { cbn [receive foldl]. split_and!; done. }
  pose proof (attr_out_kept (attr v) v) as (_ & _ & Hcl1 & _).
  assert (Ha : receive cols rows (fst (attr_out (attr v) v)) d = d)
    by (unfold attr_out; case_match; [done|by apply receive_color]).
  destruct (attr_out (attr v) v) as [l v1]. cbn [fst snd] in *. rewrite receive_app, Ha.
  unfold truthy in Hc. rewrite receive_utf8 by (done || (apply cp437_utf8_ok; lia)).
  unfold show_code. rewrite Hw. cbn [d_x d_y d_wrap d_code].
  destruct (Z.ltb_spec (d_x d + 1) cols); cbn; (split_and!; [constructor; cbn; done || lia|done| |lia|done]); unfold u8; lia.
Qed.

(** The cursor moves, and the scrolls happen. *)
Lemma sync_out_shown row col lag v d : display_ok cols rows d -> 0 <= row < rows -> 0 <= col < cols ->
  0 <= row_last v -> d_y d = row_last v + lag -> 0 <= lag -> (0 < lag -> col = 0 /\ row = rows - 1) ->
  col_last v = d_x d \/ (col_last v = cols /\ d_x d = cols - 1) ->
  let d' := receive cols rows (fst (sync_out row col v)) d in let v' := snd (sync_out row col v) in
  display_ok cols rows d' /\ d_x d' = col /\ d_y d' = row /\ row_last v' = row /\ col_last v' = col /\
  (forall x y, 0 <= y < rows -> d_code d' x y = if y + lag <? rows then d_code d x (y + lag) else 0x20).
Proof.
  intros [Hp Hw Hx Hy] Hrow Hcol Hrl Hyl Hlag Hl Hcl. unfold sync_out.
  destruct ((row_last v =? row) && (col_last v =? col)) eqn:Hsame; cbn [fst snd].
  { apply andb_true_iff in Hsame as [Hr%Z.eqb_eq Hc%Z.eqb_eq]. cbn [receive foldl].
    assert (lag = 0) by lia. split_and!; [done|lia..|]. intros x y Hxy. subst lag. rewrite Z.add_0_r.
    by destruct (Z.ltb_spec y rows); [|lia]. }
  destruct ((col =? 0) && (row_last v <=? row)) eqn:Hcr; cbn [fst snd].
  - apply andb_true_iff in Hcr as [Hc0%Z.eqb_eq Hle%Z.leb_le].
    rewrite receive_app.
    set (d1 := receive cols rows (if col_last v =? 0 then [] else [0x0d]) d).
    assert (Hd1 : d_parse d1 = Ground /\ d_y d1 = d_y d /\ d_wrap d1 = false /\ d_x d1 = 0 /\ d_code d1 = d_code d).
    { unfold d1. destruct (Z.eqb_spec (col_last v) 0); [cbn [receive foldl]; split_and!; done || lia|].
      rewrite receive_byte by tauto. cbn. by split_and!. }
    destruct Hd1 as (Hp1 & Hy1 & Hw1 & Hx1 & Hc1).
    destruct (receive_line_feeds cols rows (Z.to_nat (row - row_last v)) d1 Hp1 ltac:(lia)) as (Hx2 & Hy2 & Hw2 & Hp2 & Hc2).
    rewrite Z2Nat.id, Hy1 in * by lia. set (d2 := receive cols rows (repeat 0x0a _) d1) in *.
    assert (Hyr : d_y d2 = row) by lia. cbn [row_last col_last set_row_last set_col_last]. unfold u8.
    rewrite (Z.mod_small row), (Z.mod_small 0) by lia.
    split_and!; [constructor; congruence || lia|congruence|done|done|lia|].
    intros x y Hxy. rewrite Hc2, Hc1 by done.
    replace (Z.max 0 (d_y d + (row - row_last v) - (rows - 1))) with lag by lia. done.
  - assert (lag = 0) by (apply andb_false_iff in Hcr as [Hc0%Z.eqb_neq|Hle%Z.leb_gt]; lia).
    rewrite receive_goto by (done || lia). cbn. unfold u8. rewrite !Z.mod_small by lia.
    split_and!; [constructor; cbn; done|done..|]. intros x y Hxy. subst lag. rewrite Z.add_0_r.
    by destruct (Z.ltb_spec y rows); [|lia].
Qed.

Lemma flush_linked ss m v d : linked ss m v d ->
  let out := flush_out (bda_row m) (bda_col m) v in
  linked (flushed ss) m (snd out) (receive cols rows (fst out) d) /\ char (snd out) = 0 /\
  d_x (receive cols rows (fst out) d) = t_x (v_term ss).
Proof.
  intros [Hmr Hmc Hr Hc [Hcx Hcy] (Hport & Hsplit & Hrx & Hv) Hd (Hl1 & Hl2 & Hl3) (Hg1 & Hg2 & Hg3) Hshown].
  rewrite Hr, Hc. unfold flush_out.
  pose proof (char_out_shown v d Hd Hl3 Hv) as (Hd1 & Hy1 & Hcl1 & Hx1 & Hc1).
  pose proof (char_out_kept v) as (Hport1 & _ & Hrl1 & Hrx1 & Hsplit1). pose proof (char_out_bytes v Hv) as Hv1.
  destruct (char_out v) as [l v1]. cbn [fst snd] in *. set (d1 := receive cols rows l d) in *.
  pose proof (do_x _ _ _ Hd) as Hxd.
  pose proof (sync_out_shown (t_y (v_term ss)) (t_x (v_term ss)) (v_lag ss) v1 d1 Hd1 Hcy Hcx
    ltac:(lia) ltac:(lia) Hg2 Hg3 ltac:(destruct (truthy (char v)); lia)) as (Hd2 & Hx2 & Hy2 & Hrl2 & Hcl2 & Hc2).
  pose proof (sync_out_kept (t_y (v_term ss)) (t_x (v_term ss)) v1 Hv1) as Hk.
  destruct Hk as (Hport2 & Hsplit2 & Hrx2 & Hv2).
  destruct (sync_out _ _ v1) as [l2 v2]. cbn [fst snd] in *. rewrite receive_app. fold d1. set (d2 := receive cols rows l2 d1) in *.
  split; [|done]. constructor; cbn [v_term v_row v_lag flushed char port split rx_buf row_last col_last set_char set_attr]; try done.
  - split_and!; try congruence. unfold bytes_vars in *. cbn. unfold u8. lia.
  - split_and!; [done|lia|congruence].
  - split_and!; lia.
  - intros x y Hx Hy. rewrite Hshown by done. unfold held. rewrite Z.add_0_r.
    destruct (Z.ltb_spec y rows); [|lia]. unfold pending at 2. cbn [truthy negb Z.eqb andb u8 Z.modulo].
    rewrite Hc2 by done. by rewrite Hc1.
Qed.

(** Nothing is held back when the cursors agree. *)
Lemma synced_linked ss m v d : linked ss m v d -> row_last v = bda_row m -> col_last v = bda_col m ->
  flushed ss = ss /\ d_x d = t_x (v_term ss) /\ d_y d = t_y (v_term ss).
Proof.
  intros [_ _ Hr Hc _ _ [_ _ _ Hy] (Hl1 & Hl2 & Hl3) (Hg1 & Hg2 & Hg3) _] Hrow Hcol.
  assert (Hlag : v_lag ss = 0) by lia. split_and!; [|lia..]. destruct ss as [t r g]. unfold flushed. cbn in *. f_equal; lia.
Qed.

(** A new character is held back at the cursor. *)
Lemma hold_linked ss m v d ch a : linked (flushed ss) m v d -> d_x d = t_x (v_term ss) ->
  0 < ch < 256 -> linked (put_step ch a ss) m (set_char ch v) d.
Proof.
  intros [Hmr Hmc Hr Hc Hcur (Hport & Hsplit & Hrx & Hv) Hd (Hl1 & Hl2 & Hl3) (Hg1 & Hg2 & Hg3) Hshown] Hx Hch.
  constructor; cbn [v_term v_row v_lag put_step flushed t_x t_y char port split rx_buf row_last col_last set_char] in *; try done.
  - split_and!; try done. unfold bytes_vars in *. cbn. unfold u8. lia.
  - intros x y Hxr Hyr. specialize (Hshown x y Hxr Hyr). unfold glyph, held, pending in *. cbn [t_cell].
    rewrite Z.add_0_r in *. destruct (Z.ltb_spec y rows); [|lia]. unfold u8. rewrite (Z.mod_small ch) by lia.
    replace (truthy ch) with true by (unfold truthy; by destruct (Z.eqb_spec ch 0); [lia|]). rewrite <- Hx, <- Hl2.
    destruct ((x =? d_x d) && (y =? d_y d)) eqn:Hxy; cbn [andb fst]; [done|].
    rewrite ?andb_false_r in Hshown. exact Hshown.
Qed.
Lemma attr_linked ss m v d a : linked ss m v d -> linked ss m (set_attr a v) d.
Proof.
  intros [Hmr Hmc Hr Hc Hcur (Hport & Hsplit & Hrx & Hv) Hd Hl Hg Hshown]. constructor; try done.
  split_and!; try done. unfold bytes_vars in *. cbn. unfold u8. lia.
Qed.

(** ** The cursor *)

Definition with_cursor (row col : Z) m : memory := write16 VBDA.cursor_pos (u16 (Z.lor (Z.shiftl row 8) col)) m.
Lemma with_cursor_spec row col m : 0 <= row < 256 -> 0 <= col < 256 ->
  bda_row (with_cursor row col m) = row /\ bda_col (with_cursor row col m) = col /\
  read8 (with_cursor row col m) VBDA.video_rows = read8 m VBDA.video_rows /\
  read16 (with_cursor row col m) VBDA.video_cols = read16 m VBDA.video_cols.
Proof.
  intros Hr Hc. assert (Hpos : u16 (Z.lor (Z.shiftl row 8) col) = row * 2 ^ 8 + col).
  { rewrite Z.shiftl_mul_pow2, lor_add_shifted by lia. unfold u16. lia. }
  unfold with_cursor, bda_row, bda_col, VBDA.cursor_pos, VBDA.video_rows, VBDA.video_cols, bda. rewrite Hpos. mem_simpl.
  change 0xff with (Z.ones 8). rewrite !Z.land_ones, Z.shiftr_div_pow2 by lia. unfold u16. split_and!; lia.
Qed.

Lemma cursor_linked ss m v d row col : linked ss m v d -> 0 <= row < rows -> 0 <= col < cols ->
  (v_lag ss = 0 \/ (col = 0 /\ row = rows - 1)) -> linked (cursor_step row col ss) (with_cursor row col m) v d.
Proof.
  intros [Hmr Hmc Hr Hc Hcur Hv Hd Hl (Hg1 & Hg2 & Hg3) Hshown] Hrow Hcol Hlag.
  destruct (with_cursor_spec row col m) as (Hr1 & Hc1 & Hmr1 & Hmc1); [lia..|].
  constructor; cbn [v_term v_row v_lag cursor_step t_x t_y]; try done; try congruence.
  split_and!; [done..|]. intros. destruct Hlag as [Hlag|[-> ->]]; [lia|done].
Qed.

(** One more scroll is held back. *)
Lemma scroll_linked ss m v d : linked ss m v d -> 0 < v_row ss -> t_x (v_term ss) = 0 -> t_y (v_term ss) = rows - 1 ->
  linked (Session (feed rows (Terminal 0 rows (t_cell (v_term ss)))) (v_row ss - 1) (v_lag ss + 1)) m
    (set_row_last (row_last v - 1) v) d.
Proof.
  intros [Hmr Hmc Hr Hc Hcur (Hport & Hsplit & Hrx & Hv) Hd (Hl1 & Hl2 & Hl3) (Hg1 & Hg2 & Hg3) Hshown] Hrow Hx Hy.
  assert (Hu : u8 (row_last v - 1) = row_last v - 1) by (unfold bytes_vars, u8 in *; lia).
  assert (Hf : feed rows (Terminal 0 rows (t_cell (v_term ss))) =
    Terminal 0 (rows - 1) (fun x y => if y =? rows - 1 then (0x20, 0x07) else t_cell (v_term ss) x (y + 1))).
  { unfold feed. cbn [t_y t_x t_cell]. by destruct (Z.ltb_spec (rows - 1) rows); [|lia]. }
  rewrite Hf. unfold cursor_ok in *.
  constructor; cbn [v_term v_row v_lag t_x t_y char port split rx_buf row_last col_last set_row_last];
    rewrite ?Hu; try done; try congruence; try (unfold cursor_ok; cbn [t_x t_y]; lia).
  - split_and!; try done. unfold bytes_vars in *. cbn. rewrite Hu. lia.
  - intros x y Hxr Hyr. unfold glyph, held. cbn [t_cell]. destruct (Z.eqb_spec y (rows - 1)) as [->|Hne].
    { by destruct (Z.ltb_spec (rows - 1 + (v_lag ss + 1)) rows); [lia|]. }
    pose proof (Hshown x (y + 1) Hxr ltac:(lia)) as Hs. unfold glyph, held in Hs. rewrite Hs.
    replace (y + 1 + v_lag ss) with (y + (v_lag ss + 1)) by lia. done.
Qed.

(** ** The operations *)

Context {W : Type} `{Env W} `{!SerialLine addr W} (fuel : nat) (Hfuel : (0 < fuel)%nat).

(** A function that takes one session to another, whatever it sends. *)
Definition does {A} (act : M (sercon_world W) A) (ss ss' : session) : Prop :=
  forall m v d, linked ss m v d -> exists x m' v' l,
    emits addr act m v x m' v' l /\ linked ss' m' v' (receive cols rows l d).
Lemma does_bind {A B} (c : M (sercon_world W) A) (k : A -> M (sercon_world W) B) ss ss1 ss2 :
  does c ss ss1 -> (forall x, does (k x) ss1 ss2) -> does (bind c k) ss ss2.
Proof.
  intros Hc Hk m v d Hl. destruct (Hc m v d Hl) as (x & m1 & v1 & l1 & He1 & Hl1).
  destruct (Hk x m1 v1 _ Hl1) as (y & m2 & v2 & l2 & He2 & Hl2). exists y, m2, v2, (l1 ++ l2).
  split; [by eapply emits_bind|]. by rewrite receive_app.
Qed.
Lemma does_ret {A} (x : A) ss : does (ret x) ss ss.
Proof. intros m v d Hl. exists x, m, v, []. split; [apply emits_ret|done]. Qed.

Lemma does_flush ss : does (sercon_lazy_flush fuel) ss (flushed ss).
Proof.
  intros m v d Hl. pose proof (lk_vars _ _ _ _ _ _ _ Hl) as (Hport & _ & _ & Hv).
  exists tt, m. eexists _, _. split; [by apply emits_flush|]. by apply flush_linked.
Qed.
(** [sercon_cursor_pos_set] on the primary display. *)
Lemma emits_cursor_set m v row col : split v = 0 ->
  emits addr (sercon_cursor_pos_set row col) m v tt (with_cursor row col m) v [].
Proof.
  intros Hs w. exists w. unfold sercon_cursor_pos_set, sercon_splitmode, bind, getv, ret. cbn [mc_world sw_vars]. rewrite Hs.
  cbn [truthy negb Z.eqb]. by rewrite app_nil_r.
Qed.
Lemma does_cursor row col ss : 0 <= row < rows -> 0 <= col < cols -> (v_lag ss = 0 \/ (col = 0 /\ row = rows - 1)) ->
  does (sercon_cursor_pos_set row col) ss (cursor_step row col ss).
Proof.
  intros Hr Hc Hlag m v d Hl. exists tt, (with_cursor row col m), v, [].
  split; [apply emits_cursor_set, (lk_vars _ _ _ _ _ _ _ Hl)|]. by apply cursor_linked.
Qed.

Lemma does_cr ss : does sercon_lazy_cr ss (cursor_step (t_y (v_term ss)) 0 ss).
Proof.
  intros m v d Hl. destruct (lk_cursor _ _ _ _ _ _ _ Hl) as [Hx Hy]. pose proof (lk_lag _ _ _ _ _ _ _ Hl) as (_ & Hg & Hlag).
  destruct (does_cursor (t_y (v_term ss)) 0 ss Hy ltac:(lia) ltac:(lia) m v d Hl) as (x & m' & v' & l & He & Hl').
  exists x, m', v', l. split; [|done]. unfold sercon_lazy_cr. rewrite <- (lk_row _ _ _ _ _ _ _ Hl) in He.
  by apply (emits_read _ _ _ m v (bda_row m)).
Qed.

Definition lf_step ss : session :=
  let t := feed rows (Terminal (t_x (v_term ss)) (t_y (v_term ss) + 1) (t_cell (v_term ss))) in
  if t_y (v_term ss) =? rows - 1 then Session t (v_row ss - 1) (v_lag ss + 1) else Session t (v_row ss) (v_lag ss).
Lemma does_lf ss : (t_y (v_term ss) = rows - 1 -> t_x (v_term ss) = 0 /\ 0 < v_row ss) -> does sercon_lazy_lf ss (lf_step ss).
Proof.
  intros Hok m v d Hl. pose proof Hl as [Hmr Hmc Hr Hc [Hx Hy] (Hport & Hsplit & Hrx & Hv) Hd (Hl1 & Hl2 & Hl3) (Hg1 & Hg2 & Hg3) _].
  unfold lf_step. destruct (Z.eqb_spec (t_y (v_term ss)) (rows - 1)) as [Hbot|Hbot].
  - destruct (Hok Hbot) as [Hx0 Hrow]. rewrite Hx0, Hbot. replace (rows - 1 + 1) with rows by lia.
    pose proof (scroll_linked ss m v d Hl Hrow Hx0 Hbot) as Hl'.
    set (ss' := Session _ _ _) in *. set (v' := set_row_last _ v) in *.
    assert (Hss : v_term ss' = Terminal 0 (rows - 1) (t_cell (v_term ss')) /\ ss' = cursor_step (rows - 1) 0 ss').
    { subst ss'. unfold cursor_step, feed. cbn [v_term v_row v_lag t_y t_x t_cell].
      destruct (Z.ltb_spec (rows - 1) rows); [done|lia]. }
    destruct Hss as [_ Hss]. exists tt, (with_cursor (rows - 1) 0 m), v', []. split.
    2: { rewrite Hss. apply cursor_linked; [done|lia..]. }
    unfold sercon_lazy_lf. apply (emits_read _ _ _ m v (bda_row m)); [done|]. cbn zeta.
    apply (emits_read _ _ _ m v (u8 (rows - 1 + 1))); [intros w; unfold video_rows, bind, get8, ret; cbn [mc_mem]; by rewrite Hmr|].
    rewrite Hr, Hbot. unfold u8. rewrite !Z.mod_small by lia. destruct (Z.leb_spec (rows - 1 + 1) (rows - 1 + 1)); [|lia].
    eapply (emits_bind _ _ _ m v (rows - 1) m v' []).
    { apply (emits_then _ _ _ m v m v').
      - apply (emits_read _ _ _ m v (row_last v)); [done|]. destruct (Z.ltb_spec 0 (row_last v)); [apply emits_updv|lia].
      - replace (rows - 1 + 1 - 1) with (rows - 1) by lia. apply emits_ret. }
    apply (emits_read _ _ _ m v' (bda_col m)); [done|]. rewrite Hc, Hx0. by apply emits_cursor_set.
  - replace (Session _ _ _) with (cursor_step (t_y (v_term ss) + 1) (t_x (v_term ss)) ss).
    2: { unfold cursor_step, feed. cbn [t_x t_y]. destruct (Z.ltb_spec (rows - 1) (t_y (v_term ss) + 1)); [lia|done]. }
    destruct (does_cursor (t_y (v_term ss) + 1) (t_x (v_term ss)) ss ltac:(lia) Hx ltac:(left; destruct (Z.eq_dec (v_lag ss) 0); [done|lia])
      m v d Hl) as (x & m' & v' & l & He & Hl').
    exists x, m', v', l. split; [|done]. unfold sercon_lazy_lf. apply (emits_read _ _ _ m v (bda_row m)); [done|]. cbn zeta.
    apply (emits_read _ _ _ m v (u8 (rows - 1 + 1))); [intros w; unfold video_rows, bind, get8, ret; cbn [mc_mem]; by rewrite Hmr|].
    rewrite Hr. unfold u8. rewrite !Z.mod_small by lia. destruct (Z.leb_spec (rows - 1 + 1) (t_y (v_term ss) + 1)); [lia|].
    apply (emits_read _ _ _ m v (t_y (v_term ss) + 1)); [done|]. apply (emits_read _ _ _ m v (bda_col m)); [done|].
    by rewrite Hc.
Qed.

(** ** Characters *)

(** What was held back goes out before another place is written. *)
Lemma flush_if_moved ss m v d : linked ss m v d -> exists v' l,
  emits addr (if negb (bda_row m =? row_last v) || negb (bda_col m =? col_last v) then sercon_lazy_flush fuel else ret tt)
    m v tt m v' l /\
  linked (flushed ss) m v' (receive cols rows l d) /\ d_x (receive cols rows l d) = t_x (v_term ss).
Proof.
  intros Hl. pose proof (lk_vars _ _ _ _ _ _ _ Hl) as (Hport & _ & _ & Hv).
  destruct (Z.eqb_spec (bda_row m) (row_last v)) as [Hr|Hr], (Z.eqb_spec (bda_col m) (col_last v)) as [Hc|Hc]; cbn [negb orb].
  1: { destruct (synced_linked ss m v d Hl (eq_sym Hr) (eq_sym Hc)) as (-> & Hx & _). exists v, []. split_and!; [apply emits_ret|done..]. }
  all: pose proof (flush_linked ss m v d Hl) as (Hl' & _ & Hx);
    eexists _, _; split; [by apply emits_flush|by split].
Qed.

Lemma does_write ch a ss : 0 < ch < 256 -> does (sercon_lazy_putchar fuel ch a false) ss (write_step ch a ss).
Proof.
  intros Hch m v d Hl. destruct (flush_if_moved ss m v d Hl) as (v1 & l1 & He1 & Hl1 & Hx1).
  exists tt, m, (set_attr a (set_char ch v1)), l1. split; [|by apply attr_linked, hold_linked].
  unfold sercon_lazy_putchar. apply (emits_read _ _ _ m v (bda_row m)); [done|]. apply (emits_read _ _ _ m v (row_last v)); [done|].
  apply (emits_read _ _ _ m v (bda_col m)); [done|]. apply (emits_read _ _ _ m v (col_last v)); [done|].
  rewrite <- (app_nil_r l1). eapply emits_bind; [exact He1|].
  apply (emits_then _ _ _ m v1 m (set_char ch v1)); apply emits_updv.
Qed.

Definition move_step ss : session :=
  let t := v_term ss in
  if t_x t + 1 =? cols then lf_step (cursor_step (t_y t) 0 ss) else cursor_step (t_y t) (t_x t + 1) ss.
Lemma does_move ss : v_lag ss = 0 -> v_row ss = t_y (v_term ss) -> does sercon_lazy_move_cursor ss (move_step ss).
Proof.
  intros Hlag Hrow m v d Hl. pose proof (lk_cursor _ _ _ _ _ _ _ Hl) as [Hx Hy].
  assert (Hrun : forall act ss', does act ss ss' ->
    (forall m' v' l, emits addr act m v tt m' v' l -> emits addr sercon_lazy_move_cursor m v tt m' v' l) ->
    exists x m' v' l, emits addr sercon_lazy_move_cursor m v x m' v' l /\ linked ss' m' v' (receive cols rows l d)).
  { intros act ss' Hdoes Hsame. destruct (Hdoes m v d Hl) as ([] & m' & v' & l & He & Hl'). eauto 10. }
  assert (Hread : forall B (k : Z -> Z -> M (sercon_world W) B) y m' v' l, emits addr (k (t_x (v_term ss) + 1) cols) m v y m' v' l ->
    emits addr (c <- cursor_pos_col ;; let col := u8 (c + 1) in cols <- video_cols ;; k col cols) m v y m' v' l).
  { intros B k y m' v' l He. apply (emits_read _ _ _ m v (bda_col m)); [done|]. cbn zeta.
    apply (emits_read _ _ _ m v cols).
    { intros w. unfold video_cols, bind, get16, ret. cbn [mc_mem]. rewrite (lk_cols _ _ _ _ _ _ _ Hl). unfold u8.
      by rewrite Z.mod_small by lia. }
    rewrite (lk_col _ _ _ _ _ _ _ Hl). unfold u8. by rewrite Z.mod_small by lia. }
  set (k := fun col cols : Z => if cols <=? col then do sercon_lazy_cr ;; sercon_lazy_lf
    else (row <- cursor_pos_row ;; sercon_cursor_pos_set row col : M (sercon_world W) unit)).
  unfold move_step. destruct (Z.eqb_spec (t_x (v_term ss) + 1) cols) as [He|He].
  - apply (Hrun (do sercon_lazy_cr ;; sercon_lazy_lf)).
    + eapply does_bind; [apply does_cr|]. intros _. apply does_lf. cbn [v_term v_row cursor_step t_x t_y]. lia.
    + intros m' v' l Hem. apply (Hread _ k). unfold k.
      by destruct (Z.leb_spec cols (t_x (v_term ss) + 1)); [|lia].
  - apply (Hrun (row <- cursor_pos_row ;; sercon_cursor_pos_set row (t_x (v_term ss) + 1))).
    + intros m1 v1 d1 Hl1. destruct (does_cursor (t_y (v_term ss)) (t_x (v_term ss) + 1) ss Hy ltac:(lia) ltac:(tauto) m1 v1 d1 Hl1)
        as (x & m' & v' & l & Hem & Hl'). exists x, m', v', l. split; [|done].
      apply (emits_read _ _ _ m1 v1 (bda_row m1)); [done|]. by rewrite (lk_row _ _ _ _ _ _ _ Hl1).
    + intros m' v' l Hem. apply (Hread _ k). unfold k.
      by destruct (Z.leb_spec cols (t_x (v_term ss) + 1)); [lia|].
Qed.

Definition is_control (ch : Z) : bool := (ch =? BEL) || (ch =? BS) || (ch =? LF) || (ch =? CR).
Lemma type_step_printable ch ss : is_control ch = false -> cursor_ok cols rows (v_term ss) ->
  type_step cols rows ch ss = move_step (put_step ch (fun x y => snd (t_cell (v_term ss) x y)) ss).
Proof.
  unfold is_control, type_step, teletype, typed, move_step, lf_step. intros Hch [Hx Hy].
  cbn [ca_car v_term put_step t_x t_y cursor_step v_row v_lag]. destruct (ch =? BEL); [done|].
  destruct (ch =? BS); [done|]. destruct (ch =? LF); [done|]. destruct (ch =? CR); [done|]. cbn [orb].
  unfold type_char. cbn [ca_car ca_use_attr]. destruct (Z.eqb_spec (t_x (v_term ss) + 1) cols); rewrite ?andb_true_r, ?andb_false_r.
  - by destruct (t_y (v_term ss) =? rows - 1).
  - unfold feed. cbn [t_y]. by destruct (Z.ltb_spec (rows - 1) (t_y (v_term ss))); [lia|].
Qed.
Lemma does_type_printable ch ss : is_control ch = false -> 0 < ch < 256 ->
  does (sercon_lazy_putchar fuel ch 0 true) ss (type_step cols rows ch ss).
Proof.
  intros Hctl Hch m v d Hl. rewrite type_step_printable by (done || apply Hl).
  destruct (flush_if_moved ss m v d Hl) as (v1 & l1 & He1 & Hl1 & Hx1).
  pose proof (hold_linked ss m v1 _ ch (fun x y => snd (t_cell (v_term ss) x y)) Hl1 Hx1 Hch) as Hl2.
  destruct (does_move (put_step ch (fun x y => snd (t_cell (v_term ss) x y)) ss) eq_refl eq_refl m _ _ Hl2) as (x & m' & v' & l2 & He2 & Hl3).
  exists x, m', v', (l1 ++ l2). split; [|by rewrite receive_app].
  unfold sercon_lazy_putchar. apply (emits_read _ _ _ m v (bda_row m)); [done|]. apply (emits_read _ _ _ m v (row_last v)); [done|].
  apply (emits_read _ _ _ m v (bda_col m)); [done|]. apply (emits_read _ _ _ m v (col_last v)); [done|].
  eapply emits_bind; [exact He1|]. apply (emits_then _ _ _ m v1 m (set_char ch v1)); [apply emits_updv|exact He2].
Qed.

(** Backspace goes out at once, after what was held back. *)
Lemma back_linked ss m v d : linked (flushed ss) m v d -> d_x d = t_x (v_term ss) -> char v = 0 -> 0 < t_x (v_term ss) ->
  linked (Session (Terminal (t_x (v_term ss) - 1) (t_y (v_term ss)) (t_cell (v_term ss))) (t_y (v_term ss)) 0)
    (with_cursor (t_y (v_term ss)) (t_x (v_term ss) - 1) m)
    (set_col_last (t_x (v_term ss) - 1) (set_row_last (t_y (v_term ss)) v)) (receive cols rows [8] d).
Proof.
  intros Hl Hdx Hch Hx. pose proof (lk_cursor _ _ _ _ _ _ _ Hl) as [Hxc Hyc]. cbn [v_term flushed] in *.
  pose proof (cursor_linked (flushed ss) m v d (t_y (v_term ss)) (t_x (v_term ss) - 1) Hl Hyc ltac:(lia) ltac:(by left))
    as [Hmr Hmc Hr Hc Hcur (Hport & Hsplit & Hrx & Hv) [Hp Hw Hdx' Hdy] (Hl1 & Hl2 & Hl3) (Hg1 & Hg2 & Hg3) Hshown].
  rewrite receive_byte by tauto. cbn [Z.eqb Pos.eqb]. rewrite Hdx, Z.max_r by lia.
  assert (Hux : u8 (t_x (v_term ss) - 1) = t_x (v_term ss) - 1) by (unfold u8; lia).
  assert (Huy : u8 (t_y (v_term ss)) = t_y (v_term ss)) by (unfold u8; lia).
  constructor; cbn [v_term v_row v_lag cursor_step flushed t_x t_y char port split rx_buf row_last col_last set_row_last set_col_last] in *; try done.
  - split_and!; try done. unfold bytes_vars in *. cbn. rewrite Hux, Huy. lia.
  - constructor; cbn; done || lia.
  - intros x y Hxr Hyr. rewrite Hch in *. specialize (Hshown x y Hxr Hyr). exact Hshown.
Qed.
Lemma does_backspace ss : does (sercon_lazy_backspace fuel) ss (type_step cols rows BS ss).
Proof.
  intros m v d Hl. pose proof (lk_cursor _ _ _ _ _ _ _ Hl) as [Hx Hy]. pose proof (lk_col _ _ _ _ _ _ _ Hl) as Hc.
  pose proof (lk_vars _ _ _ _ _ _ _ Hl) as (Hport & _ & _ & Hv). pose proof (lk_row _ _ _ _ _ _ _ Hl) as Hr.
  pose proof (flush_linked ss m v d Hl) as (Hl1 & Hch1 & Hx1). pose proof (emits_flush (W := W) addr fuel Hfuel m v Hport Hv) as He1.
  cbn zeta in *. destruct (flush_out (bda_row m) (bda_col m) v) as [l1 v1]. cbn [fst snd] in *.
  unfold type_step, teletype, typed, feed. cbn [ca_car Z.eqb Pos.eqb BEL BS t_x t_y t_cell].
  destruct (Z.ltb_spec (rows - 1) (t_y (v_term ss))); [lia|].
  destruct (Z.ltb_spec 0 (t_x (v_term ss))) as [Hpos|Hzero].
  - rewrite Z.max_r by lia. pose proof (back_linked ss m v1 _ Hl1 Hx1 Hch1 Hpos) as Hl2. rewrite <- receive_app in Hl2.
    do 4 eexists. split; [|exact Hl2]. unfold sercon_lazy_backspace. eapply emits_bind; [exact He1|].
    apply (emits_read _ _ _ m v1 (bda_col m)); [done|]. rewrite Hc. destruct (Z.ltb_spec 0 (t_x (v_term ss))); [|lia].
    pose proof (lk_vars _ _ _ _ _ _ _ Hl1) as (Hport1 & Hsplit1 & _).
    rewrite <- (app_nil_r [8]). eapply emits_bind; [by apply emits_putchar|].
    apply (emits_read _ _ _ m v1 (bda_row m)); [done|]. rewrite Hr. unfold sercon_lazy_cursor_update.
    replace (u8 (t_x (v_term ss) - 1)) with (t_x (v_term ss) - 1) by (unfold u8; lia).
    eapply emits_then; [by apply emits_cursor_set|]. eapply emits_then; apply emits_updv.
  - replace (Session _ _ _) with (flushed ss).
    2: { unfold flushed. f_equal. destruct (v_term ss) as [x y f]. cbn in *. f_equal. lia. }
    exists tt, m, v1, l1. split; [|done]. unfold sercon_lazy_backspace. rewrite <- (app_nil_r l1). eapply emits_bind; [exact He1|].
    apply (emits_read _ _ _ m v1 (bda_col m)); [done|]. rewrite Hc. destruct (Z.ltb_spec 0 (t_x (v_term ss))); [lia|]. apply emits_ret.
Qed.
Lemma does_bell ss : does (sercon_putchar fuel 0x07) ss (type_step cols rows BEL ss).
Proof.
  intros m v d Hl. pose proof (lk_vars _ _ _ _ _ _ _ Hl) as (Hport & _). pose proof (lk_cursor _ _ _ _ _ _ _ Hl) as [_ Hy].
  exists tt, m, v, [7]. split; [by apply emits_putchar|]. rewrite receive_byte by (apply (lk_display _ _ _ _ _ _ _ Hl) || tauto).
  cbn [Z.eqb Pos.eqb]. unfold type_step, teletype, typed, feed. cbn [ca_car Z.eqb Pos.eqb BEL BS orb].
  destruct (Z.ltb_spec (rows - 1) (t_y (v_term ss))); [lia|]. by destruct ss.
Qed.

(** AH=0Eh *)
Lemma does_100e regs ss : cursor_ok cols rows (v_term ss) -> type_ok rows (r_al regs) ss ->
  does (sercon_100e fuel regs) ss (type_step cols rows (r_al regs) ss).
Proof.
  intros [Hx Hy] [Hch Hlf]. unfold sercon_100e. eapply does_bind; [|intros; apply does_ret].
  destruct (Z.eqb_spec (r_al regs) 7) as [->|H7]; [apply does_bell|].
  destruct (Z.eqb_spec (r_al regs) 8) as [->|H8]; [apply does_backspace|].
  destruct (Z.eqb_spec (r_al regs) 13) as [->|H13].
  { replace (type_step cols rows 13 ss) with (cursor_step (t_y (v_term ss)) 0 ss); [apply does_cr|].
    unfold type_step, teletype, typed, feed, cursor_step. cbn [ca_car Z.eqb Pos.eqb BEL BS CR orb t_x t_y].
    destruct (Z.ltb_spec (rows - 1) (t_y (v_term ss))); [lia|done]. }
  destruct (Z.eqb_spec (r_al regs) 10) as [He|H10].
  { rewrite He in *. replace (type_step cols rows 10 ss) with (lf_step ss); [by apply does_lf, Hlf|done]. }
  apply does_type_printable; [|done]. unfold is_control, BEL, BS, LF, CR. lia.
Qed.

(** ** INT 10h and the timer tick *)

Context (Haddr : addr <> 0).
Lemma does_handle regs ss ss' (act : M (sercon_world W) bregs) : does act ss ss' ->
  (forall s, handle_sercon_ah fuel (r_ah regs) regs s = act s) -> does (handle_sercon true fuel regs) ss ss'.
Proof.
  intros Hact Heq m v d Hl. destruct (Hact m v d Hl) as (x & m' & v' & l & He & Hl').
  exists x, m', v', l. split; [|done]. pose proof (lk_vars _ _ _ _ _ _ _ Hl) as (Hport & Hsplit & _).
  unfold handle_sercon. cbn [negb]. apply (emits_read _ _ _ m v (port v)); [done|]. rewrite Hport.
  destruct (Z.eqb_spec addr 0); [done|]. apply (emits_read _ _ _ m v false).
  { intros w. unfold sercon_splitmode, bind, getv, ret. cbn [mc_world sw_vars]. by rewrite Hsplit. }
  rewrite andb_false_r. intros w. rewrite Heq. apply He.
Qed.

Lemma does_call regs ss : cursor_ok cols rows (v_term ss) -> event_ok cols rows (Call regs) ss ->
  does (handle_sercon true fuel regs) ss (step cols rows (Call regs) ss).
Proof.
  intros Hcur Hok. cbn [step event_ok] in *. assert (Hal : 0 <= r_al regs < 256) by (unfold r_al, low8; lia).
  destruct Hok as [[Hah Hok]|[(Hah & Hcx & Hch)|[(Hah & Hlag & Hr & Hc)|[Hah|Hah]]]]; rewrite Hah.
  - eapply does_handle; [by apply does_100e|by rewrite Hah].
  - apply (does_handle _ _ _ (do sercon_lazy_putchar fuel (r_al regs) (r_bl regs) false ;; ret regs)).
    + eapply does_bind; [apply does_write; lia|intros; apply does_ret].
    + intros s. rewrite Hah. cbn [handle_sercon_ah]. unfold sercon_1009. rewrite Hcx. done.
  - eapply does_handle; [|by rewrite Hah]. unfold sercon_1002. eapply does_bind; [|intros; apply does_ret].
    apply does_cursor; [done..|tauto].
  - eapply does_handle; [|by rewrite Hah]. intros m v d Hl.
    exists (set_dl (bda_col m) (set_dh (bda_row m) (set_cx (read16 m VBDA.cursor_type) regs))), m, v, [].
    split; [|exact Hl]. intros w. exists w. by rewrite app_nil_r.
  - eapply does_handle; [|by rewrite Hah]. intros m v d Hl.
    exists (set_ah (read16 m VBDA.video_cols) (set_al (read8 m VBDA.video_mode) regs)), m, v, [].
    split; [|exact Hl]. intros w. exists w. by rewrite app_nil_r.
Qed.

(** No input: the tick only flushes. *)
Lemma tick_run ss m v d w : linked ss m v d -> incoming w = [] ->
  exists v' w' l, sercon_check_event true fuel (Machine m (SerconWorld v w)) = Some (tt, Machine m (SerconWorld v' w')) /\
    sent w' = sent w ++ l /\ incoming w' = [] /\ linked (flushed ss) m v' (receive cols rows l d) /\ char v' = 0 /\
    d_x (receive cols rows l d) = t_x (v_term ss).
Proof.
  intros Hl Hin. pose proof (lk_vars _ _ _ _ _ _ _ Hl) as (Hport & _ & _ & Hv).
  pose proof (flush_linked ss m v d Hl) as (Hl1 & Hch1 & Hx1).
  destruct (check_event_flush addr fuel Hfuel m v w Hport Haddr Hv) as (w1 & Hs1 & Hi1 & Hrun).
  cbn zeta in *. destruct (flush_out (bda_row m) (bda_col m) v) as [l1 v1]. cbn [fst snd] in *.
  pose proof (lk_vars _ _ _ _ _ _ _ Hl1) as (_ & _ & Hrx & _).
  destruct (read_data_run addr m [] (List.Forall_nil _) fuel 0 v1 w1) as (w2 & Hread & Hin2 & Hs2);
    [congruence|cbn; lia|rewrite Hrx; cbn; lia|lia|].
  rewrite Hrx in Hread. cbn [length app take Z.of_nat] in Hread.
  replace (set_rx_buf [] v1) with v1 in Hread by (destruct v1; cbn in *; by subst).
  exists v1, w2, l1. split_and!; [|congruence|done..]. rewrite Hrun. erewrite bind_some by exact Hread.
  cbn [input_loop mc_world sw_vars]. by rewrite Hrx.
Qed.

(** ** Setting a mode *)

Definition mode_cols (al : Z) : Z := if bool_decide (al ∈ [0; 1; 4; 5]) then 40 else 80.
Definition cleared : session := Session (Terminal 0 0 (fun _ _ => (0x20, 0x07))) 0 0.
(** The primary display, with nothing held back. *)
Definition idle v : Prop := port v = addr /\ split v = 0 /\ rx_buf v = [] /\ char v = 0 /\ bytes_vars v.

Lemma mode_set_run regs m v d w : idle v -> d_parse d = Ground -> r_ah regs = 0 -> r_al regs < 0x80 ->
  cols = mode_cols (r_al regs) -> rows = 25 ->
  exists regs' m' v' w' l, handle_sercon true fuel regs (Machine m (SerconWorld v w)) = Some (regs', Machine m' (SerconWorld v' w')) /\
    sent w' = sent w ++ l /\ incoming w' = incoming w /\ linked cleared m' v' (receive cols rows l d).
Proof.
  intros (Hport & Hsplit & Hrx & Hch & Hv) Hd Hah Hal Hc Hr.
  assert (Hal' : 0 <= r_al regs < 128) by (unfold r_al, low8 in *; lia).
  assert (Hmode : Z.land (r_al regs) 0x7f = r_al regs) by (change 0x7f with (Z.ones 7); rewrite Z.land_ones, Z.mod_small by lia; done).
  assert (Hclear : Z.land (r_al regs) 0x80 = 0).
  { change 0x80 with (2 ^ 7). apply Z.bits_inj'. intros n Hn. rewrite Z.land_spec, Z.bits_0, Z.pow2_bits_eqb by lia.
    destruct (Z.eqb_spec 7 n) as [<-|]; [|by rewrite andb_false_r]. by rewrite Z.testbit_eqb, Z.div_small by lia. }
  assert (Hmc : (if (r_al regs =? 0x00) || (r_al regs =? 0x01) || (r_al regs =? 0x04) || (r_al regs =? 0x05) then 40 else 80) = cols).
  { rewrite Hc. unfold mode_cols. case_bool_decide as Hin; [|case_match; [|done]; exfalso; apply Hin; set_unfold; lia].
    set_unfold in Hin. by replace (_ || _ || _ || _) with true by lia. }
  set (m' := write16 VBDA.cursor_type 0x0007 (write8 VBDA.video_rows 24 (write16 VBDA.video_cols cols
    (write8 VBDA.video_mode (r_al regs) (with_cursor 0 0 m))))).
  set (v' := set_attr_last 0 (set_row_last 0 (set_col_last 0 (set_enable (if r_al regs <=? 7 then 1 else 0) v)))).
  set (l := [0x1b; 0x63] ++ [0x1b; 0x5b; 0x3f; 0x37; 0x6c] ++ [0x1b; 0x5b; 0x32; 0x4a] ++ []).
  assert (Hrun : emits addr (sercon_1000 fuel regs) m v (set_al 0x30 regs) m' v' l).
  { unfold sercon_1000. rewrite Hclear, Hmode, Hmc.
    apply (emits_read _ _ _ m v false); [intros w0; unfold sercon_splitmode, bind, getv, ret; cbn [mc_world sw_vars]; by rewrite Hsplit|].
    apply (emits_bind _ _ _ m v (set_al 0x30 regs) m' v []); [intros w0; exists w0; by rewrite app_nil_r|].
    do 4 (eapply emits_then; [apply emits_updv|]). fold v'.
    assert (Hput : forall l, forallb (fun b => (0 <=? b) && (b <? 256)) l = true -> emits addr (putchars fuel l) m' v' tt m' v' l).
    { intros l1 Hl1. apply emits_putchars; [done..|]. rewrite forallb_forall in Hl1. apply List.Forall_forall. intros b Hb%Hl1. lia. }
    apply (emits_bind addr (sercon_term_reset fuel) _ m' v' tt m' v' [0x1b; 0x63]); [by apply Hput|].
    apply (emits_bind addr (sercon_term_no_linewrap fuel) _ m' v' tt m' v' [0x1b; 0x5b; 0x3f; 0x37; 0x6c]); [by apply Hput|].
    apply (emits_bind addr (sercon_term_clear_screen fuel) _ m' v' tt m' v' [0x1b; 0x5b; 0x32; 0x4a]); [by apply Hput|apply emits_ret]. }
  assert (Hrun' : emits addr (handle_sercon true fuel regs) m v (set_al 0x30 regs) m' v' l).
  { unfold handle_sercon. cbn [negb]. apply (emits_read _ _ _ m v (port v)); [done|]. rewrite Hport.
    destruct (Z.eqb_spec addr 0); [done|]. apply (emits_read _ _ _ m v false).
    { intros w0. unfold sercon_splitmode, bind, getv, ret. cbn [mc_world sw_vars]. by rewrite Hsplit. }
    rewrite andb_false_r, Hah. exact Hrun. }
  destruct (Hrun' w) as (w' & Hex & Hs & Hi). exists (set_al 0x30 regs), m', v', w', l. split_and!; [done..|].
  unfold l. rewrite !receive_app, receive_reset, receive_no_linewrap, receive_clear by done. cbn [receive foldl].
  destruct (with_cursor_spec 0 0 m) as (Hr0 & Hc0 & _); [lia..|].
  constructor; cbn [cleared v_term v_row v_lag home d_x d_y d_wrap d_code d_parse t_x t_y].
  - unfold m', VBDA.video_rows, VBDA.cursor_type, bda. mem_simpl. by rewrite Hr.
  - unfold m', VBDA.video_cols, VBDA.video_rows, VBDA.cursor_type, bda. mem_simpl. unfold u16. lia.
  - rewrite <- Hr0. unfold m', bda_row, VBDA.video_mode, VBDA.cursor_pos, VBDA.video_cols, VBDA.video_rows, VBDA.cursor_type, bda. by mem_simpl.
  - rewrite <- Hc0. unfold m', bda_col, VBDA.video_mode, VBDA.cursor_pos, VBDA.video_cols, VBDA.video_rows, VBDA.cursor_type, bda. by mem_simpl.
  - split; cbn; lia.
  - split_and!; try done. unfold v', bytes_vars in *. cbn. unfold u8. lia.
  - constructor; cbn; done || lia.
  - done.
  - lia.
  - intros x y Hx Hy. unfold glyph, held, pending. cbn. rewrite Hch. by destruct (y + 0 <? rows).
Qed.

(** ** A program's use of the console *)

Definition run_event (ev : event) : M (sercon_world W) unit :=
  match ev with Call regs => do handle_sercon true fuel regs ;; ret tt | Tick => sercon_check_event true fuel end.
Fixpoint run_events (l : list event) : M (sercon_world W) unit :=
  match l with [] => ret tt | ev :: l' => do run_event ev ;; run_events l' end.

Lemma step_cursor ev ss : cursor_ok cols rows (v_term ss) -> event_ok cols rows ev ss ->
  cursor_ok cols rows (v_term (step cols rows ev ss)).
Proof.
  intros Hcur Hok. destruct ev as [regs|]; [|done]. cbn [step event_ok] in *.
  destruct Hok as [[-> Hok]|[(-> & _)|[(-> & _ & Hr & Hc)|[-> | ->]]]]; [|done|done|done..].
  pose proof (teletype_cursor cols rows (CarAttr (r_al regs) 0 false) _ Hcur). unfold type_step.
  by repeat case_match.
Qed.

Lemma events_run l : forall ss m v d w, events_ok cols rows l ss -> linked ss m v d -> incoming w = [] ->
  exists m' v' w' out, (forall l', run_events (l ++ l') (Machine m (SerconWorld v w)) = run_events l' (Machine m' (SerconWorld v' w'))) /\
    sent w' = sent w ++ out /\ incoming w' = [] /\ linked (steps cols rows l ss) m' v' (receive cols rows out d).
Proof.
  induction l as [|ev l IH]; intros ss m v d w Hok Hl Hin.
  { exists m, v, w, []. by rewrite app_nil_r. }
  destruct Hok as [Hev Hok]. pose proof (lk_cursor _ _ _ _ _ _ _ Hl) as Hcur.
  assert (Hone : exists m1 v1 w1 out1, run_event ev (Machine m (SerconWorld v w)) = Some (tt, Machine m1 (SerconWorld v1 w1)) /\
    sent w1 = sent w ++ out1 /\ incoming w1 = [] /\ linked (step cols rows ev ss) m1 v1 (receive cols rows out1 d)).
  { destruct ev as [regs|].
    - destruct (does_call regs ss Hcur Hev m v d Hl) as (x & m1 & v1 & l1 & He & Hl1). destruct (He w) as (w1 & Hrun & Hs & Hi).
      exists m1, v1, w1, l1. cbn [run_event]. erewrite bind_some by exact Hrun. split_and!; [done|done|congruence|done].
    - destruct (tick_run ss m v d w Hl Hin) as (v1 & w1 & l1 & Hrun & Hs & Hi & Hl1 & _). by exists m, v1, w1, l1. }
  destruct Hone as (m1 & v1 & w1 & out1 & Hrun & Hs & Hi & Hl1).
  destruct (IH _ _ _ _ _ Hok Hl1 Hi) as (m' & v' & w' & out & Hrun' & Hs' & Hi' & Hl').
  exists m', v', w', (out1 ++ out). cbn [app run_events steps].
  split_and!; [intros l'; by erewrite bind_some by exact Hrun|by rewrite Hs', Hs, app_assoc|done|by rewrite receive_app].
Qed.
End Lazy.

(** C8: the serial console shows what a screen would show.  On the primary display,
    over a line that is ready to send and on which nothing is typed, and with no
    character held back, a program sets a mode (AH=00h with AL below 80h, which
    clears the screen), and then writes characters other than 0 (AH=0Eh, and AH=09h
    for one character), moves the cursor on the screen (AH=02h) and asks for it and
    for the mode (AH=03h, AH=0Fh), with timer ticks between the calls in any places.
    A line feed in the last row comes in the first column, and with fewer scrolls
    held back than the other end has rows above its cursor; the cursor is not moved
    while scrolls are held back (both restrictions are the code's).  Then after a
    last tick a terminal that receives the bytes sent over the serial line shows the
    character of each cell of the abstract terminal of the text services fed with
    the same calls, with the same cursor, whatever was held back, joined or left out
    in between; the BIOS data area has that cursor too. *)
Theorem serial_console_refines_terminal {W} `{Env W} (addr : Z) `{!SerialLine addr W} (fuel : nat) mode events m v w d :
  addr <> 0 -> (0 < fuel)%nat -> idle addr v -> incoming w = [] -> d_parse d = Ground ->
  r_ah mode = 0 -> r_al mode < 0x80 ->
  let cols := mode_cols (r_al mode) in let rows := 25 in
  events_ok cols rows events cleared ->
  exists m' v' w' out,
    run_events fuel (Call mode :: events ++ [Tick]) (Machine m (SerconWorld v w)) = Some (tt, Machine m' (SerconWorld v' w')) /\
    sent w' = sent w ++ out /\
    let t := v_term (steps cols rows events cleared) in let d' := receive cols rows out d in
    d_x d' = t_x t /\ d_y d' = t_y t /\ bda_col m' = t_x t /\ bda_row m' = t_y t /\
    (forall x y, 0 <= x < cols -> 0 <= y < rows -> d_code d' x y = glyph t x y).
Proof.
  intros Haddr Hfuel Hidle Hin Hd Hah Hal cols rows Hok.
  assert (Hcols : 0 < cols <= 98) by (subst cols; unfold mode_cols; case_bool_decide; lia).
  assert (Hrows : 1 < rows <= 98) by (subst rows; lia).
  destruct (mode_set_run cols rows addr Hcols Hrows fuel Hfuel Haddr mode m v d w Hidle Hd Hah Hal eq_refl eq_refl)
    as (regs1 & m1 & v1 & w1 & out1 & Hrun1 & Hs1 & Hi1 & Hl1).
  destruct (events_run cols rows addr Hcols Hrows fuel Hfuel Haddr events cleared m1 v1 _ w1 Hok Hl1 (eq_trans Hi1 Hin))
    as (m2 & v2 & w2 & out2 & Hrun2 & Hs2 & Hi2 & Hl2).
  destruct (tick_run cols rows addr Hcols Hrows fuel Hfuel Haddr _ m2 v2 _ w2 Hl2 Hi2)
    as (v3 & w3 & out3 & Hrun3 & Hs3 & _ & Hl3 & Hch & Hx).
  exists m2, v3, w3, (out1 ++ out2 ++ out3). split_and!.
  - cbn [run_events run_event]. erewrite bind_some by (erewrite bind_some by exact Hrun1; reflexivity).
    rewrite Hrun2. cbn [run_events run_event]. by erewrite bind_some by exact Hrun3.
  - by rewrite Hs3, Hs2, Hs1, !app_assoc.
  - rewrite !receive_app. destruct Hl3 as [_ _ Hr Hc _ _ _ (_ & Hy & _) _ Hshown]. cbn [flushed v_term v_row v_lag] in *.
    split_and!; [done|lia|done|done|]. intros x y Hxr Hyr. rewrite Hshown by done. unfold held. rewrite Z.add_0_r, Hch.
    by destruct (Z.ltb_spec y rows); [|lia].
Qed.

(** ** Examples *)

Module ConsoleDemo.
Definition call (ax bx cx dx : Z) : event := Call (Bregs 0 0 0 0 0 bx dx cx ax (Segoff 0 0) 0).
Definition mode3 : bregs := Bregs 0 0 0 0 0 0 0 0 0x0003 (Segoff 0 0) 0.
(** [Hi], a new line, a tick, a bullet at row 5 and column 7, then the last row and
    a line feed on it. *)
Definition events : list event :=
  [call 0x0e48 0 0 0; call 0x0e69 0 0 0; call 0x0e0d 0 0 0; call 0x0e0a 0 0 0; Tick;
   call 0x0200 0 0 0x0507; call 0x0907 0x1f 1 0; call 0x0200 0 0 0x1800; Tick; call 0x0e0a 0 0 0; call 0x0e58 0 0 0].
End ConsoleDemo.

#[local] Existing Instances LineDemo.env LineDemo.line.

Ltac event_fine := first
  [ exact I
  | left; split; [reflexivity|split; [vm_compute; split; reflexivity|vm_compute; intros; first [discriminate|split; reflexivity]]]
  | right; left; split; [reflexivity|split; [reflexivity|vm_compute; reflexivity]]
  | right; right; left; split; [reflexivity|split; [reflexivity|vm_compute; split; split; discriminate || reflexivity]] ].
Lemma demo_events_ok : events_ok 80 25 ConsoleDemo.events cleared.
Proof. cbn [ConsoleDemo.events events_ok]. repeat (split; [event_fine|]). exact I. Qed.

Lemma serial_console_refines_terminal_witness :
  exists m' v' w', run_events 3 (Call ConsoleDemo.mode3 :: ConsoleDemo.events ++ [Tick])
      (Machine LineDemo.mem0 (SerconWorld LineDemo.vars (LineDemo.Uart [] []))) = Some (tt, Machine m' (SerconWorld v' w')) /\
    let d := receive 80 25 (LineDemo.u_sent w') home in
    d_code d 1 0 = 0x20 /\ d_code d 7 4 = 0x2022 /\ d_code d 0 24 = 0x58 /\ d_x d = 1 /\ d_y d = 24.
Proof.
  destruct (serial_console_refines_terminal (W := LineDemo.uart) 0x3f8 3 ConsoleDemo.mode3 ConsoleDemo.events LineDemo.mem0 LineDemo.vars
    (LineDemo.Uart [] []) home) as (m' & v' & w' & out & Hrun & Hs & Hx & Hy & _ & _ & Hcode).
  - discriminate.
  - lia.
  - unfold idle, bytes_vars. cbn. split_and!; done || lia.
  - reflexivity.
  - reflexivity.
  - reflexivity.
  - reflexivity.
  - exact demo_events_ok.
  - exists m', v', w'. split; [exact Hrun|]. cbn [sent LineDemo.line LineDemo.u_sent app] in Hs. cbn zeta. rewrite Hs.
    change (mode_cols (r_al ConsoleDemo.mode3)) with 80 in *. rewrite !Hcode by lia. rewrite Hx, Hy.
    split_and!; vm_compute; reflexivity.
Defined.

(** A line feed in the last row outside the first column: the terminal of the text
    services moves [A] up to row 23, the other end keeps it in row 24. *)
Module LineFeedDemo.
Definition events : list event :=
  [ConsoleDemo.call 0x0200 0 0 0x1802; Tick; ConsoleDemo.call 0x0e41 0 0 0; ConsoleDemo.call 0x0e0a 0 0 0].
End LineFeedDemo.
Lemma line_feed_not_sent :
  fst (t_cell (v_term (steps 80 25 LineFeedDemo.events cleared)) 2 23) = 0x41 /\
  match run_events 3 (Call ConsoleDemo.mode3 :: LineFeedDemo.events ++ [Tick])
    (Machine LineDemo.mem0 (SerconWorld LineDemo.vars (LineDemo.Uart [] []))) with
  | Some (_, s) => let d := receive 80 25 (LineDemo.u_sent (sw_rest (mc_world s))) home in
                   d_code d 2 23 = 0x20 /\ d_code d 2 24 = 0x41
  | None => False
  end.
Proof. vm_compute. split_and!; reflexivity. Qed.
