(* ===== verification/SerconKeys.v ===== *)
(** * What is typed on the serial console

    Keys travel as characters or as escape sequences and arrive in pieces; the
    timer's call puts the same keys into the keyboard buffer. *)
From S2P Require Import Prelude Machine Clock Kbd VgaFb Sercon SerconTerm SerconLine.
Local Open Scope seabios_scope.

(** ** Keys *)

Inductive keystroke := KeyChar (c : Z) | KeySeq (s : termseq_s).
Definition key_ok (k : keystroke) : Prop :=
  match k with KeyChar c => 0 <= c < 256 /\ c <> 0x1b | KeySeq s => In s termseq end.
(** What the terminal sends. *)
Definition encode_key (k : keystroke) : list Z :=
  match k with KeyChar c => [c] | KeySeq s => 0x1b :: ts_seq s end.
Definition encode_keys (ks : list keystroke) : list Z := concat (map encode_key ks).
(** What the BIOS makes of it; some characters are on no key. *)
Definition key_codes (k : keystroke) : list Z :=
  match k with
  | KeyChar c => if truthy (ascii_to_keycode c) then [ascii_to_keycode c] else []
  | KeySeq s => [ts_keycode s]
  end.
Definition codes (ks : list keystroke) : list Z := concat (map key_codes ks).
Definition enqueue_all (l : list Z) (m : memory) : memory := foldl (fun m k => snd (enqueue_key k m)) m l.

Lemma encode_key_cons k : exists b l, encode_key k = b :: l.
Proof. destruct k; cbn; eauto. Qed.

(** ** The sequences *)

(** No sequence begins another one. *)
Lemma prefix_free s t : In s termseq -> In t termseq -> ts_seq s `prefix_of` ts_seq t -> s = t.
Proof.
  assert (Hall : forallb (fun s => forallb (fun t =>
    negb (bool_decide (ts_seq s `prefix_of` ts_seq t)) || bool_decide (ts_seq s = ts_seq t) && (ts_keycode s =? ts_keycode t)) termseq) termseq = true)
    by by vm_compute.
  intros Hs Ht Hp. rewrite forallb_forall in Hall. specialize (Hall s Hs). rewrite forallb_forall in Hall. specialize (Hall t Ht).
  rewrite bool_decide_true in Hall by done. cbn [negb orb] in Hall. apply andb_true_iff in Hall as [He%bool_decide_eq_true Hk%Z.eqb_eq].
  destruct s, t. cbn in *. by subst.
Qed.
Lemma cmpbuf_prefix s b l : cmpbuf s (b :: l) = true <-> ts_seq s `prefix_of` l.
Proof.
  unfold cmpbuf. cbn [length tail]. destruct (Z.ltb_spec (Z.of_nat (S (length l))) (Z.of_nat (length (ts_seq s)) + 1)) as [Hlt|Hge].
  - split; [done|]. intros Hp%prefix_length. lia.
  - rewrite bool_decide_eq_true. split.
    + intros Heq. exists (drop (length (ts_seq s)) l). by rewrite <- Heq at 1; rewrite take_drop.
    + intros [k ->]. by rewrite take_app_length.
Qed.
(** Two prefixes of a list are prefixes of each other. *)
Lemma prefixes_compare {A} (l1 l2 l : list A) : l1 `prefix_of` l -> l2 `prefix_of` l -> l1 `prefix_of` l2 \/ l2 `prefix_of` l1.
Proof. intros H1 H2. by eapply prefix_weak_total. Qed.

Lemma findseq_found s b l : In s termseq -> findseq (b :: ts_seq s ++ l) = Some s.
Proof.
  intros Hs. unfold findseq. destruct (List.find _ termseq) as [t|] eqn:Hf.
  - apply List.find_some in Hf as [Ht Hc%cmpbuf_prefix]. f_equal.
    destruct (prefixes_compare (ts_seq s) (ts_seq t) _ ltac:(by eexists) Hc) as [Hp|Hp]; [symmetry|]; by apply prefix_free.
  - eapply List.find_none in Hf; [|exact Hs]. cbv beta in Hf.
    assert (Hc : cmpbuf s (b :: ts_seq s ++ l) = true) by (apply cmpbuf_prefix; by eexists). congruence.
Qed.

(** The beginning of a sequence, of which bytes are still to come. *)
Definition incomplete (rest : list Z) : Prop :=
  exists s p x q, In s termseq /\ rest = 0x1b :: p /\ ts_seq s = p ++ x :: q.
Lemma findseq_incomplete rest : incomplete rest -> findseq rest = None.
Proof.
  intros (s & p & x & q & Hs & -> & Hseq). destruct (findseq (0x1b :: p)) as [t|] eqn:Hf; [exfalso|done].
  unfold findseq in Hf. apply List.find_some in Hf as [Ht Hc%cmpbuf_prefix].
  assert (Hp : ts_seq t `prefix_of` ts_seq s) by (rewrite Hseq; etransitivity; [exact Hc|by eexists]).
  pose proof (prefix_free t s Ht Hs Hp) as ->. apply prefix_length in Hc. rewrite Hseq, length_app in Hc. cbn in Hc. lia.
Qed.
Lemma incomplete_short rest : incomplete rest -> (length rest <= 4)%nat.
Proof.
  intros (s & p & x & q & Hs & -> & Hseq).
  assert (Hall : forallb (fun s => Nat.leb (length (ts_seq s)) 4) termseq = true) by by vm_compute.
  rewrite forallb_forall in Hall. specialize (Hall s Hs). apply Nat.leb_le in Hall. rewrite Hseq, length_app in Hall. cbn in *. lia.
Qed.
(** Incomplete bytes are not whole keys. *)
Lemma incomplete_not_keys rest k ks : incomplete rest -> key_ok k -> rest <> encode_keys (k :: ks).
Proof.
  intros (s & p & x & q & Hs & -> & Hseq) Hk Heq. unfold encode_keys in Heq. cbn [map concat] in Heq.
  destruct k as [c|t]; cbn [encode_key app] in Heq; [destruct Hk; congruence|]. injection Heq as Hp.
  assert (Hpre : ts_seq t `prefix_of` ts_seq s) by (rewrite Hseq, Hp; eexists; by rewrite <- app_assoc).
  pose proof (prefix_free t s Hk Hs Hpre) as ->. rewrite Hp in Hseq. apply (f_equal length) in Hseq. rewrite !length_app in Hseq. cbn in Hseq. lia.
Qed.

(** What has come of some keys: whole ones, and at most a part of the next. *)
Lemma keys_split ks : Forall key_ok ks -> forall B C, encode_keys ks = B ++ C -> exists ks1 ks2 rest,
  ks = ks1 ++ ks2 /\ B = encode_keys ks1 ++ rest /\ encode_keys ks2 = rest ++ C /\ (rest = [] \/ incomplete rest).
Proof.
  induction 1 as [|k ks Hk Hks IH]; intros B C Heq.
  { destruct B; [|done]. exists [], [], []. split_and!; [done..|by left]. }
  change (encode_keys (k :: ks)) with (encode_key k ++ encode_keys ks) in Heq.
  destruct (decide (length B < length (encode_key k))%nat) as [Hlt|Hge].
  - exists [], (k :: ks), B. split_and!; [done|done|done|].
    destruct B as [|b B]; [by left|right]. destruct k as [c|s]; cbn [encode_key length] in *; [lia|].
    cbn [app] in Heq. injection Heq as <- Heq.
    assert (Hp : B `prefix_of` ts_seq s).
    { destruct (prefixes_compare B (ts_seq s) (ts_seq s ++ encode_keys ks)) as [Hp|Hp]; [by exists C|by eexists|done|].
      apply prefix_length in Hp. lia. }
    destruct Hp as [[|x q] Hq]; [rewrite app_nil_r in Hq; subst; lia|]. by exists s, B, x, q.
  - assert (Hp : encode_key k `prefix_of` B).
    { destruct (prefixes_compare (encode_key k) B (encode_key k ++ encode_keys ks)) as [Hp|Hp]; [by eexists|rewrite Heq; by eexists|done|].
      destruct Hp as [z Hz]. assert (z = []) as -> by (apply (f_equal length) in Hz; rewrite length_app in Hz; destruct z; [done|cbn in Hz; lia]).
      rewrite Hz, app_nil_r. done. }
    destruct Hp as [B' ->]. rewrite <- app_assoc in Heq. apply app_inv_head in Heq.
    destruct (IH B' C Heq) as (ks1 & ks2 & rest & -> & -> & Hc & Hr). exists (k :: ks1), ks2, rest.
    split_and!; [done|by rewrite app_assoc|done|done].
Qed.

Lemma encode_keys_app ks1 ks2 : encode_keys (ks1 ++ ks2) = encode_keys ks1 ++ encode_keys ks2.
Proof. unfold encode_keys. by rewrite map_app, concat_app. Qed.
Lemma codes_app ks1 ks2 : codes (ks1 ++ ks2) = codes ks1 ++ codes ks2.
Proof. unfold codes. by rewrite map_app, concat_app. Qed.
Lemma encode_keys_length ks : (length ks <= length (encode_keys ks))%nat.
Proof.
  induction ks as [|k ks IH]; [cbn; lia|]. change (encode_keys (k :: ks)) with (encode_key k ++ encode_keys ks).
  destruct (encode_key_cons k) as (b & l & ->). rewrite length_app. cbn. lia.
Qed.

(** ** The loop *)

Section Keys.
Context {W : Type} `{Env W}.

Lemma loop_run ks : Forall key_ok ks -> forall n count rest m v (w : W), rx_buf v = encode_keys ks ++ rest ->
  rest = [] \/ (incomplete rest /\ count <> 0) -> (length ks < n)%nat ->
  input_loop n count (Machine m (SerconWorld v w)) = Some (tt, Machine (enqueue_all (codes ks) m) (SerconWorld (set_rx_buf rest v) w)).
Proof.
  induction 1 as [|k ks Hk Hks IH]; intros n count rest m v w Hbuf Hrest Hn; (destruct n as [|n]; [lia|]); cbn [input_loop mc_world sw_vars].
  - cbn in Hbuf. rewrite Hbuf. replace (set_rx_buf rest v) with v by (destruct v; cbn in *; by subst).
    destruct Hrest as [->|[Hi Hc]]; [done|]. pose proof (findseq_incomplete rest Hi) as Hf. destruct Hi as (s & p & x & q & _ & -> & _).
    unfold truthy. rewrite (proj2 (Z.eqb_neq count 0)) by done. cbn [Z.eqb Pos.eqb andb negb]. rewrite andb_true_r, Hf. by destruct (negb _).
  - change (encode_keys (k :: ks)) with (encode_key k ++ encode_keys ks) in Hbuf.
    change (codes (k :: ks)) with (key_codes k ++ codes ks). unfold enqueue_all. rewrite foldl_app. rewrite <- app_assoc in Hbuf.
    assert (Hnext : forall m', input_loop n count (Machine m' (SerconWorld (set_rx_buf (encode_keys ks ++ rest) v) w)) =
      Some (tt, Machine (enqueue_all (codes ks) m') (SerconWorld (set_rx_buf rest v) w))) 
      by (intros m'; apply (IH n count rest m' (set_rx_buf (encode_keys ks ++ rest) v) w eq_refl Hrest); cbn in Hn; lia).
    destruct k as [c|s]; cbn [encode_key app key_codes] in *; rewrite Hbuf.
    + destruct Hk as [_ Hc]. rewrite (proj2 (Z.eqb_neq c 0x1b)) by done. rewrite andb_false_r. cbn [andb].
      unfold shiftbuf. change (Z.to_nat 1) with 1%nat. destruct (truthy (ascii_to_keycode c)).
      * erewrite bind_some by reflexivity. erewrite bind_some by reflexivity. cbn [mc_mem mc_world sw_vars sw_rest].
        rewrite Hbuf. cbn [drop]. apply Hnext.
      * erewrite bind_some by reflexivity. erewrite bind_some by reflexivity. cbn [mc_mem mc_world sw_vars sw_rest].
        rewrite Hbuf. cbn [drop]. apply Hnext.
    + rewrite bool_decide_false.
      2: { assert (Hall : forallb (fun s => match ts_seq s with [] => false | _ => true end) termseq = true) by by vm_compute.
           rewrite forallb_forall in Hall. specialize (Hall s Hk). by destruct (ts_seq s). }
      cbn [negb andb Z.eqb Pos.eqb]. rewrite (findseq_found s 0x1b) by done.
      erewrite bind_some by reflexivity. erewrite bind_some by reflexivity. cbn [mc_mem mc_world sw_vars sw_rest]. rewrite Hbuf.
      replace (Z.to_nat (Z.of_nat (length (ts_seq s)) + 1)) with (S (length (ts_seq s))) by lia. cbn [drop].
      rewrite drop_app_length. apply Hnext.
Qed.

Lemma encode_keys_bytes ks : Forall key_ok ks -> Forall byte (encode_keys ks).
Proof.
  induction 1 as [|k ks Hk _ IH]; [constructor|]. change (encode_keys (k :: ks)) with (encode_key k ++ encode_keys ks).
  apply Forall_app. split; [|done]. destruct k as [c|s]; cbn [encode_key]; [constructor; [apply Hk|constructor]|].
  constructor; [unfold byte; lia|].
  assert (Hall : forallb (fun s => forallb (fun b => (0 <=? b) && (b <? 256)) (ts_seq s)) termseq = true) by by vm_compute.
  rewrite forallb_forall in Hall. specialize (Hall s Hk). rewrite forallb_forall in Hall. apply List.Forall_forall.
  intros b Hb%Hall. unfold byte. lia.
Qed.

(** ** The pieces *)

Context (addr : Z) `{!SerialLine addr W} (Haddr : addr <> 0).
(** Bytes come in. *)
Context (arrive : list Z -> W -> W).
Hypothesis arrive_in : forall l w, incoming (arrive l w) = incoming w ++ l.

(** Pieces come in, each followed by the timer's call. *)
Fixpoint polls (fuel : nat) (pieces : list (list Z)) : M (sercon_world W) unit :=
  match pieces with
  | [] => ret tt
  | l :: pieces' =>
    do (fun s => Some (tt, Machine (mc_mem s) (SerconWorld (sw_vars (mc_world s)) (arrive l (sw_rest (mc_world s)))))) ;;
    do sercon_check_event true fuel ;; polls fuel pieces'
  end.

Lemma polls_run fuel pieces : (12 < fuel)%nat -> Forall (fun l => l <> [] /\ (length l <= 12)%nat) pieces ->
  forall ks rest m v w, Forall key_ok ks -> rest ++ concat pieces = encode_keys ks -> rest = [] \/ incomplete rest ->
  rx_buf v = rest -> port v = addr -> bytes_vars v -> incoming w = [] ->
  exists v' w', polls fuel pieces (Machine m (SerconWorld v w)) = Some (tt, Machine (enqueue_all (codes ks) m) (SerconWorld v' w')) /\
    rx_buf v' = [].
Proof.
  intros Hfuel. induction 1 as [|l pieces [Hne Hlen] Hpieces IH]; intros ks rest m v w Hks Heq Hrest Hbuf Hport Hv Hin.
  - cbn [concat] in Heq. rewrite app_nil_r in Heq. destruct ks as [|k ks].
    { exists v, w. cbn in Heq. by subst. }
    apply Forall_cons in Hks as [Hk Hks]. exfalso. destruct Hrest as [->|Hr]; [|by apply (incomplete_not_keys rest k ks)].
    change (encode_keys (k :: ks)) with (encode_key k ++ encode_keys ks) in Heq. destruct (encode_key_cons k) as (b & l & Hb).
    by rewrite Hb in Heq.
  - cbn [concat] in Heq. rewrite app_assoc in Heq.
    destruct (keys_split ks Hks (rest ++ l) (concat pieces) (eq_sym Heq)) as (ks1 & ks2 & rest' & -> & Hbytes & Hleft & Hrest').
    apply Forall_app in Hks as [Hks1 Hks2].
    assert (Hshort : (length rest <= 4)%nat) by (destruct Hrest as [->|Hr]; [cbn; lia|by apply incomplete_short]).
    set (w1 := arrive l w). set (out := flush_out (bda_row m) (bda_col m) v).
    destruct (check_event_flush addr fuel ltac:(lia) m v w1 Hport Haddr Hv) as (w2 & _ & Hin2 & Hrun). fold out in Hrun.
    destruct (flush_out_kept (bda_row m) (bda_col m) v Hv) as (Hport2 & _ & Hrx2 & Hv2). fold out in Hport2, Hrx2, Hv2.
    assert (Hl : Forall byte l).
    { pose proof (encode_keys_bytes _ (Forall_app_2 _ _ _ Hks1 Hks2)) as Hb. rewrite <- Heq in Hb.
      apply Forall_app in Hb as [Hb _]. by apply Forall_app in Hb as [_ Hb]. }
    destruct (read_data_run addr m l Hl fuel 0 (snd out) w2) as (w3 & Hread & Hin3 & _);
      [rewrite Hin2; unfold w1; by rewrite arrive_in, Hin|lia|rewrite Hrx2, Hbuf; lia|lia|].
    rewrite Hrx2, Hbuf, take_ge, Hbytes in Hread by (rewrite length_app; lia).
    assert (Hcount : 0 + Z.of_nat (length (encode_keys ks1 ++ rest')) - Z.of_nat (length rest) <> 0).
    { rewrite <- Hbytes, length_app. destruct l; [done|cbn; lia]. }
    set (count := 0 + _ - _) in *. set (v1 := set_rx_buf (encode_keys ks1 ++ rest') (snd out)) in *.
    pose proof (loop_run ks1 Hks1 (S (Z.to_nat RX_SIZE)) count rest' m v1 w3 eq_refl ltac:(tauto)) as Hloop.
    destruct (IH ks2 rest' (enqueue_all (codes ks1) m) (set_rx_buf rest' v1) w3) as (v' & w' & Hpolls & Hend); try done.
    { by cbn; rewrite Hport2. }
    exists v', w'. split; [|done]. cbn [polls]. erewrite bind_some by reflexivity. cbn [mc_mem mc_world sw_vars sw_rest]. fold w1.
    erewrite bind_some.
    2: { rewrite Hrun. erewrite bind_some by exact Hread. apply Hloop. pose proof (encode_keys_length ks1) as Hk.
         apply (f_equal length) in Hbytes. rewrite !length_app in Hbytes. change (S (Z.to_nat RX_SIZE)) with 17%nat. lia. }
    rewrite Hpolls. unfold enqueue_all. by rewrite codes_app, foldl_app.
Qed.

Lemma enqueue_all_room l : forall m n q, kbd_rep m n q -> Z.of_nat (length q + length l) < n ->
  kbd_rep (enqueue_all l m) n (q ++ map u16 l).
Proof.
  clear. induction l as [|k l IH]; intros m n q Hq Hn; cbn [map]; [by rewrite app_nil_r|]. cbn [length] in Hn.
  destruct (enqueue_key_room m n q k Hq ltac:(lia)) as (m' & Hk & Hq'). unfold enqueue_all. cbn [foldl]. rewrite Hk. cbn [snd].
  specialize (IH m' n (q ++ [u16 k]) Hq'). rewrite <- app_assoc in IH. apply IH. rewrite length_app. cbn. lia.
Qed.

(** C13: what is typed on the serial console arrives in the keyboard buffer.  Any
    keys, characters other than ESC and the keys of the table of escape sequences,
    are sent as bytes and come in in any pieces of 1 to 12 bytes, which may split an
    escape sequence anywhere, each piece followed by a timer tick.  Then the buffer
    of the BIOS data area, if it has room, holds the code of each of these keys in
    order behind what it held before, and none is left over in [rx_buf]. *)
Theorem typed_keys_arrive fuel ks pieces m v w n q :
  (12 < fuel)%nat -> Forall (fun l => l <> [] /\ (length l <= 12)%nat) pieces -> Forall key_ok ks ->
  concat pieces = encode_keys ks ->
  port v = addr -> rx_buf v = [] -> bytes_vars v -> incoming w = [] ->
  kbd_rep m n q -> Z.of_nat (length q + length (codes ks)) < n ->
  exists m' v' w', polls fuel pieces (Machine m (SerconWorld v w)) = Some (tt, Machine m' (SerconWorld v' w')) /\
    kbd_rep m' n (q ++ map u16 (codes ks)) /\ rx_buf v' = [].
Proof.
  intros Hfuel Hp Hks Heq Hport Hrx Hv Hin Hq Hroom.
  destruct (polls_run fuel pieces Hfuel Hp ks [] m v w Hks) as (v' & w' & Hrun & Hend); try done; [by left|].
  exists (enqueue_all (codes ks) m), v', w'. split_and!; [done| |done]. by apply enqueue_all_room.
Qed.
End Keys.

#[local] Existing Instances LineDemo.env LineDemo.line.

(** A letter and F5, whose sequence comes in three pieces. *)
Lemma typed_keys_arrive_witness :
  let arrive l w := LineDemo.Uart (LineDemo.u_sent w) (LineDemo.u_in w ++ l) in
  exists m' v' w', polls arrive 13 [[0x61; 0x1b; 0x5b]; [0x31]; [0x35; 0x7e]]
      (Machine (kbd_init LineDemo.mem0) (SerconWorld LineDemo.vars (LineDemo.Uart [] []))) = Some (tt, Machine m' (SerconWorld v' w')) /\
    kbd_rep m' 16 [0x1e61; 0x3f00].
Proof.
  intros arrive.
  destruct (typed_keys_arrive 0x3f8 ltac:(discriminate) arrive ltac:(reflexivity) 13
    [KeyChar 0x61; KeySeq (TermSeq [0x5b; 0x31; 0x35; 0x7e] 0x3f00)] [[0x61; 0x1b; 0x5b]; [0x31]; [0x35; 0x7e]]
    (kbd_init LineDemo.mem0) LineDemo.vars (LineDemo.Uart [] []) 16 []) as (m' & v' & w' & Hrun & Hq & _).
  - lia.
  - repeat constructor; cbn; discriminate || lia.
  - constructor; [split; [lia|discriminate]|]. constructor; [cbn; tauto|constructor].
  - reflexivity.
  - reflexivity.
  - reflexivity.
  - unfold bytes_vars. cbn. lia.
  - reflexivity.
  - apply kbd_init_rep.
  - vm_compute. reflexivity.
  - exists m', v', w'. split; [exact Hrun|exact Hq].
Defined.
