(* ===== verification/Boot.v ===== *)
(** * Booting: src/boot.c

    The list of bootable devices in the order of their priorities, the boot
    menu, the list of boot entries and the boot sequence itself.  Device paths
    are in [BootPath], the files with the boot order in [BootOrder].  What the
    code calls in other parts is a parameter: option ROMs, CD and flash booting,
    the TPM, the splash screen, the jump to 16-bit code. *)
From Stdlib Require Import Ascii String.
From S2P Require Import Prelude E820 Hlist Machine StringOps Bytes Malloc Timer Clock Pci FwCfg Romfile Output BootPath BootOrder Block.
Local Open Scope seabios_scope.

Definition CMOS_BIOS_BOOTFLAG1 := 0x38.
Definition CMOS_BIOS_BOOTFLAG2 := 0x3d.
Definition DEFAULT_PRIO := 9999.
Definition IPL_TYPE_FLOPPY := 0x01.
Definition IPL_TYPE_HARDDISK := 0x02.
Definition IPL_TYPE_CDROM := 0x03.
Definition IPL_TYPE_CBFS := 0x20.
Definition IPL_TYPE_BEV := 0x80.
Definition IPL_TYPE_BCV := 0x81.
Definition IPL_TYPE_HALT := 0xf0.
Definition MBR_SIGNATURE := 0xaa55.
Definition MAXDESCSIZE := 80.
Definition DEFAULT_BOOTMENU_WAIT := 2500.
Definition ARRAY_SIZE_BEV := 20%nat.
Definition sizeof_bootentry_s := 24.

(** A description: a literal or a pointer. *)
Inductive text := Literal (l : list Z) | At (a : Z).

(** struct bootentry_s; [data] is the union. *)
Record bootentry_s := Bootentry { be_type : Z; be_data : Z; priority : Z; description : text }.
(** struct bev_s *)
Record bev_s := Bev { bev_type : Z; vector : Z }.

(** The priorities of devices that QEMU does not order. *)
Record default_prios := DefaultPrios {
  DefaultFloppyPrio : Z; DefaultCDPrio : Z; DefaultHDPrio : Z; DefaultBEVPrio : Z }.

Record boot_config := BootConfig {
  BootRetryTime : Z; CheckFloppySig : Z; Bootorder : list Z; BiosGeometry : list BootDeviceLCHS }.

(** [BEV], [HaveHDBoot] and [HaveFDBoot]. *)
Record bev_list := BevList { BEV : list bev_s; HaveHDBoot : Z; HaveFDBoot : Z }.

(** ** The list of devices *)

Definition segoff_word (seg off : Z) : Z := u32 (u16 off + 2 ^ 16 * u16 seg).

(** [be] goes before [pos]: the [break]s of the search. *)
Definition goes_before (drive : Z -> drive_s) (be pos : bootentry_s) : bool :=
  if priority be <? priority pos then true
  else if priority pos <? priority be then false
  else if be_type be <? be_type pos then true
  else if be_type pos <? be_type be then false
  else (be_type be <=? IPL_TYPE_CDROM) &&
    ((type (drive (be_data be)) <? type (drive (be_data pos))) ||
     ((type (drive (be_data be)) =? type (drive (be_data pos))) &&
      (cntl_id (drive (be_data be)) <? cntl_id (drive (be_data pos))))).

Fixpoint insert_sorted (drive : Z -> drive_s) (be : bootentry_s) (BootList : list bootentry_s) : list bootentry_s :=
  match BootList with
  | [] => [be]
  | pos :: rest => if goes_before drive be pos then be :: BootList else pos :: insert_sorted drive be rest
  end.

(** Return the given priority if it's set. *)
Definition defPrio (prio defaultprio : Z) : Z := if prio <? 0 then defaultprio else prio.

(** ** Boot entries *)

Definition add_bev (ty vec : Z) (b : bev_list) : bev_list :=
  let '(skip, b) :=
    if ty =? IPL_TYPE_HARDDISK then (truthy (HaveHDBoot b), BevList (BEV b) (HaveHDBoot b + 1) (HaveFDBoot b))
    else (false, b) in
  if skip then b
  else
    let '(skip, b) :=
      if ty =? IPL_TYPE_FLOPPY then (truthy (HaveFDBoot b), BevList (BEV b) (HaveHDBoot b) (HaveFDBoot b + 1))
      else (false, b) in
    if skip then b
    else if (ARRAY_SIZE_BEV <=? length (BEV b))%nat then b
    else BevList (BEV b ++ [Bev ty vec]) (HaveHDBoot b) (HaveFDBoot b).

(** ** The menu *)

Definition menuchars : list Z := str "123456789abcdefghijklmnopqrsuvwxyz".

(** The entry a key selects, with the entries before and after it. *)
Fixpoint menu_pick (key_ascii : Z) (chars : list Z) (before BootList : list bootentry_s) :
  option (list bootentry_s * bootentry_s * list bootentry_s) :=
  match BootList, chars with
  | pos :: rest, c :: chars' =>
    if key_ascii =? c then Some (before, pos, rest) else menu_pick key_ascii chars' (before ++ [pos]) rest
  | _, _ => None
  end.

(** [hlist_del], the new priority, [hlist_add_head]. *)
Definition make_first (picked : list bootentry_s * bootentry_s * list bootentry_s) : list bootentry_s :=
  let '(before, boot, after) := picked in
  Bootentry (be_type boot) (be_data boot) 0 (description boot) :: before ++ after.

(** The nibbles of the boot order in the CMOS: device types by rank. *)
Definition boot_nibble (val i : Z) (d : default_prios) : default_prios :=
  if val =? 1 then DefaultPrios i (DefaultCDPrio d) (DefaultHDPrio d) (DefaultBEVPrio d)
  else if val =? 2 then DefaultPrios (DefaultFloppyPrio d) (DefaultCDPrio d) i (DefaultBEVPrio d)
  else if val =? 3 then DefaultPrios (DefaultFloppyPrio d) i (DefaultHDPrio d) (DefaultBEVPrio d)
  else if val =? 4 then DefaultPrios (DefaultFloppyPrio d) (DefaultCDPrio d) (DefaultHDPrio d) i
  else d.
Fixpoint boot_nibbles (n : nat) (i bootorder : Z) (d : default_prios) : default_prios :=
  match n with
  | O => d
  | S n' => boot_nibbles n' (i + 1) (Z.shiftr bootorder 4) (boot_nibble (Z.land bootorder 0x0f) i d)
  end.
Definition nvram_order (flag1 flag2 : Z) : default_prios :=
  let bootorder := Z.lor flag2 (Z.shiftl (Z.land flag1 0xf0) 4) in
  boot_nibbles 3 101 bootorder (DefaultPrios DEFAULT_PRIO DEFAULT_PRIO DEFAULT_PRIO DEFAULT_PRIO).

(** ** State *)

(** The drive tables are in the world, below the devices. *)
#[export] Instance block_ports {W} `{Ports W} : Ports (block_world W) := {
  port_inw p w := let '(v, r) := port_inw p (bw_rest w) in (v, BlockWorld (bw_globals w) r);
  port_inl p w := let '(v, r) := port_inl p (bw_rest w) in (v, BlockWorld (bw_globals w) r);
  port_outw v p w := BlockWorld (bw_globals w) (port_outw v p (bw_rest w));
  port_outl v p w := BlockWorld (bw_globals w) (port_outl v p (bw_rest w)) }.
#[export] Instance block_dma {W} `{DmaPort W} : DmaPort (block_world W) := { port_dma x := on_rest (port_dma x) }.

Section Boot.
Context {S : Type} `{Hlist S} `{Layout}.
Context {W : Type} `{Env W} `{Ports W} `{DmaPort W}.

Abbreviation WB := (block_world W).

Record boot_s := BootS {
  bs_r : rstate (S := S) (W := WB);
  BootList : list bootentry_s;
  bs_prios : default_prios;
  bs_config : boot_config;
  bs_bev : bev_list;
  BootSequence : Z }.

Abbreviation B A := (ST boot_s A).
Abbreviation R A := (ST (rstate (S := S) (W := WB)) A).

Definition lift_r {A} (c : R A) : B A := fun s =>
  match c (bs_r s) with
  | Some (x, r) => Some (x, BootS r (BootList s) (bs_prios s) (bs_config s) (bs_bev s) (BootSequence s))
  | None => None
  end.
Definition lift_m {A} (c : M WB A) : B A := lift_r (with_device c).
Definition get {A} (f : boot_s -> A) : B A := fun s => Some (f s, s).
Definition get_mem_b : B memory := lift_r get_mem.
Definition get_drives : B (Z -> drive_s) := get (fun s => drive_at (bw_globals (rs_dev (bs_r s)))).
Definition set_BootList (l : list bootentry_s) : B unit :=
  fun s => Some (tt, BootS (bs_r s) l (bs_prios s) (bs_config s) (bs_bev s) (BootSequence s)).
Definition set_prios (p : default_prios) : B unit :=
  fun s => Some (tt, BootS (bs_r s) (BootList s) p (bs_config s) (bs_bev s) (BootSequence s)).
Definition set_config (c : boot_config) : B unit :=
  fun s => Some (tt, BootS (bs_r s) (BootList s) (bs_prios s) c (bs_bev s) (BootSequence s)).
Definition upd_bev (f : bev_list -> bev_list) : B unit :=
  fun s => Some (tt, BootS (bs_r s) (BootList s) (bs_prios s) (bs_config s) (f (bs_bev s)) (BootSequence s)).
Definition set_BootSequence (n : Z) : B unit :=
  fun s => Some (tt, BootS (bs_r s) (BootList s) (bs_prios s) (bs_config s) (bs_bev s) n).

(** Compile-time options. *)
Context (CONFIG_BOOT CONFIG_BOOTORDER CONFIG_BOOTMENU CONFIG_QEMU CONFIG_CDROM_BOOT CONFIG_COREBOOT_FLASH
  CONFIG_HOST_BIOS_GEOMETRY ScreenAndDebug : bool).
(** See [malloc_palloc], [FwCfg], [BootOrder] and [Romfile]. *)
Context (preempted : bool) (qemu_cfg_dma_enabled : bool) (access : Z) (fuel limit : nat) (stack : Z).
(** [FUNC16(entry_10)] and [PlatformRunningOn & PF_QEMU]. *)
Context (entry_10 : Z) (on_qemu : bool).
(** Functions of other parts. *)
Context (debug_putc : Z -> M WB unit) (cdrom_media_info : Z -> M WB Z) (call_bcv : Z -> Z -> M WB unit)
  (farcall16 : bregs -> M WB unit) (cdrom_boot : Z -> M WB Z) (cbfs_run_payload : Z -> M WB unit) (reset : M WB unit)
  (CDEmu_emulated_drive CDEmu_load_segment : memory -> Z)
  (tpm_add_bcv tpm_add_cdrom : Z -> Z -> Z -> M WB unit) (tpm_can_show_menu : M WB bool) (tpm_menu : M WB unit)
  (enable_bootsplash disable_bootsplash wait_threads : M WB unit).

Fixpoint print_chars (out : list Z) : M WB unit :=
  match out with
  | [] => ret tt
  | c :: out' => do screen_putc entry_10 ScreenAndDebug debug_putc c ;; print_chars out'
  end.
(** [None] when a number is missing from the arguments. *)
Definition printf (fmt : string) (args : list arg) : B unit :=
  match bvprintf (str fmt) args with Some out => lift_m (print_chars out) | None => fun _ => None end.

Definition text_of (d : text) (m : memory) : list Z :=
  match d with Literal l => l | At a => cstr limit a m end.

(** ** Registering devices *)

Definition bootentry_add (ty prio data : Z) (desc : text) : B unit :=
  if negb CONFIG_BOOT then ret tt
  else
    be <- lift_r (alloc (malloc_tmp preempted sizeof_bootentry_s)) ;;
    if be =? 0 then ret tt
    else
      drive <- get_drives ;;
      l <- get BootList ;;
      let desc := if desc is At 0 then Literal (str "?") else desc in
      set_BootList (insert_sorted drive (Bootentry ty data prio desc) l).

Definition boot_add_bev (seg bev desc prio : Z) : B unit :=
  d <- get bs_prios ;;
  do bootentry_add IPL_TYPE_BEV (defPrio prio (DefaultBEVPrio d)) (segoff_word seg bev)
       (if truthy desc then At (MAKE_FLATPTR seg desc) else Literal (str "Unknown")) ;;
  set_prios (DefaultPrios (DefaultFloppyPrio d) (DefaultCDPrio d) (DefaultHDPrio d) DEFAULT_PRIO).

Definition boot_add_bcv (seg ip desc prio : Z) : B unit :=
  d <- get bs_prios ;;
  bootentry_add IPL_TYPE_BCV (defPrio prio (DefaultHDPrio d)) (segoff_word seg ip)
    (if truthy desc then At (MAKE_FLATPTR seg desc) else Literal (str "Legacy option rom")).

Definition boot_add_floppy (drive : Z) (desc : text) (prio : Z) : B unit :=
  d <- get bs_prios ;; bootentry_add IPL_TYPE_FLOPPY (defPrio prio (DefaultFloppyPrio d)) drive desc.

Definition boot_add_hd (drive : Z) (desc : text) (prio : Z) : B unit :=
  d <- get bs_prios ;; bootentry_add IPL_TYPE_HARDDISK (defPrio prio (DefaultHDPrio d)) drive desc.

Definition boot_add_cd (drive : Z) (desc : text) (prio : Z) : B unit :=
  desc <-
    (if on_qemu then
       extra <- lift_m (cdrom_media_info drive) ;;
       if extra =? 0 then ret desc
       else
         m <- get_mem_b ;;
         p <- lift_r (fun s =>
                match znprintf preempted MAXDESCSIZE (str "%s (%s)")
                        [Text (Some (text_of desc m)); Text (Some (cstr limit extra m))] (rs_ms s) with
                | Some (a, ms) => Some (a, RState ms (rs_dev s) (RomfileRoot s) (romfile_pointer_list s))
                | None => None
                end) ;;
         do lift_r (upd_ms (free extra)) ;;
         ret (At p)
     else ret desc) ;;
  d <- get bs_prios ;;
  bootentry_add IPL_TYPE_CDROM (defPrio prio (DefaultCDPrio d)) drive desc.

Definition boot_add_cbfs (data : Z) (desc : text) (prio : Z) : B unit :=
  bootentry_add IPL_TYPE_CBFS (defPrio prio DEFAULT_PRIO) data desc.

(** ** Setup *)

Definition boot_init : B unit :=
  if negb CONFIG_BOOT then ret tt
  else
    do (if CONFIG_QEMU then
          flag <- lift_m (rtc_read CMOS_BIOS_BOOTFLAG1) ;;
          c <- get bs_config ;;
          do (if truthy (Z.land flag 1) then set_config (BootConfig (BootRetryTime c) 0 (Bootorder c) (BiosGeometry c)) else ret tt) ;;
          flag2 <- lift_m (rtc_read CMOS_BIOS_BOOTFLAG2) ;;
          flag1 <- lift_m (rtc_read CMOS_BIOS_BOOTFLAG1) ;;
          set_prios (nvram_order flag1 flag2)
        else ret tt) ;;
    retry <- lift_r (romfile_loadint qemu_cfg_dma_enabled access fuel stack (str "etc/boot-fail-wait") 60000) ;;
    order <- lift_r (loadBootOrder preempted qemu_cfg_dma_enabled access fuel limit CONFIG_BOOTORDER) ;;
    geometry <- lift_r (loadBiosGeometry preempted qemu_cfg_dma_enabled access fuel limit CONFIG_HOST_BIOS_GEOMETRY) ;;
    c <- get bs_config ;;
    set_config (BootConfig (u32 retry) (CheckFloppySig c) order geometry).

(** [find_prio] on the strings in memory. *)
Definition find_prio_b (glob : string) : B Z :=
  c <- get bs_config ;; m <- get_mem_b ;; ret (find_prio (str glob) (strings limit (Bootorder c) m)).

(** ** Keyboard *)

Definition check_for_keystroke : M WB bool :=
  br <- call16_int 0x16 (set_ah 1 (set_flags (Z.lor F_IF F_ZF) bregs_zero)) ;;
  ret (negb (truthy (Z.land (r_flags br) F_ZF))).
Definition get_raw_keystroke : M WB Z :=
  br <- call16_int 0x16 (set_flags F_IF bregs_zero) ;; ret (r_ax br).

Fixpoint keystroke_loop (n : nat) (end_ : Z) : M WB Z :=
  pending <- check_for_keystroke ;;
  if (pending : bool) then get_raw_keystroke
  else
    fun s =>
      if irqtimer_check end_ (mc_mem s) then Some (-1, s)
      else match n with O => None | Datatypes.S n' => (do yield_toirq ;; keystroke_loop n' end_) s end.
Definition get_keystroke_full (msec : Z) : M WB Z :=
  fun s => keystroke_loop fuel (irqtimer_calc msec (mc_mem s)) s.
Definition get_keystroke (msec : Z) : M WB Z :=
  keystroke <- get_keystroke_full msec ;; ret (if keystroke <? 0 then keystroke else Z.shiftr keystroke 8).

Fixpoint drain (n : nat) : M WB unit :=
  k <- get_keystroke 0 ;;
  if 0 <=? k then match n with O => fun _ => None | Datatypes.S n' => drain n' end else ret tt.

(** ** The boot menu *)

(** The items shown. *)
Fixpoint show_menu (chars : list Z) (l : list bootentry_s) : B unit :=
  match l, chars with
  | pos :: rest, c :: chars' =>
    m <- get_mem_b ;;
    do printf "%c. %s
" [Word c; Text (Some (take 76 (text_of (description pos) m)))] ;;
    show_menu chars' rest
  | _, _ => ret tt
  end.

(** The loop that waits for a choice; the result is what was picked, or nothing
    after ESC. *)
Fixpoint menu_loop (n : nat) (esc_accepted_time : Z) : B (option (list bootentry_s * bootentry_s * list bootentry_s)) :=
  let again : B (option (list bootentry_s * bootentry_s * list bootentry_s)) :=
    match n with O => fun _ => None | Datatypes.S n' => menu_loop n' esc_accepted_time end in
  keystroke <- lift_m (get_keystroke_full 1000) ;;
  m <- get_mem_b ;;
  if (keystroke =? 0x011b) && negb (irqtimer_check esc_accepted_time m) then again
  else if keystroke <? 0 then again
  else
    let scan_code := Z.shiftr keystroke 8 in
    let key_ascii := Z.land keystroke 0xff in
    can <- lift_m tpm_can_show_menu ;;
    do (if can && (key_ascii =? chr "t") then do printf "
" [] ;; lift_m tpm_menu else ret tt) ;;
    if scan_code =? 1 then do printf "
" [] ;; ret None
    else
      l <- get BootList ;;
      match menu_pick key_ascii menuchars [] l with Some picked => ret (Some picked) | None => again end.

Definition interactive_bootmenu : B unit :=
  if negb CONFIG_BOOTMENU then ret tt
  else
    show <- lift_r (romfile_loadint qemu_cfg_dma_enabled access fuel stack (str "etc/show-boot-menu") 1) ;;
    if show =? 0 then ret tt
    else
      do lift_m (drain fuel) ;;
      loaded <- lift_r (romfile_loadfile preempted qemu_cfg_dma_enabled access fuel (str "etc/boot-menu-message")) ;;
      let bootmsg := fst loaded in
      menukey <- lift_r (romfile_loadint qemu_cfg_dma_enabled access fuel stack (str "etc/boot-menu-key") 1) ;;
      m <- get_mem_b ;;
      do printf "%s" [Text (Some (if bootmsg =? 0 then str "
Press ESC for boot menu.

" else cstr limit bootmsg m))] ;;
      do lift_r (upd_ms (free bootmsg)) ;;
      menutime <- lift_r (romfile_loadint qemu_cfg_dma_enabled access fuel stack (str "etc/boot-menu-wait") DEFAULT_BOOTMENU_WAIT) ;;
      do lift_m enable_bootsplash ;;
      scan_code <- lift_m (get_keystroke (u32 menutime)) ;;
      do lift_m disable_bootsplash ;;
      if negb (scan_code =? s32 menukey) then ret tt
      else
        do lift_m (drain fuel) ;;
        do printf "Select boot device:

" [] ;;
        do lift_m wait_threads ;;
        l <- get BootList ;;
        do show_menu menuchars l ;;
        can <- lift_m tpm_can_show_menu ;;
        do (if (can : bool) then printf "
t. TPM Configuration
" [] else ret tt) ;;
        m <- get_mem_b ;;
        picked <- menu_loop fuel (irqtimer_calc (if s32 menukey =? 1 then 1500 else 0) m) ;;
        match picked with
        | None => ret tt
        | Some picked => do printf "
" [] ;; set_BootList (make_first picked)
        end.

(** ** Preparing to boot *)

Definition map_entry (pos : bootentry_s) : B unit :=
  if be_type pos =? IPL_TYPE_BCV then
    do lift_m (call_bcv (be_data pos / 2 ^ 16) (be_data pos mod 2 ^ 16)) ;; upd_bev (add_bev IPL_TYPE_HARDDISK 0)
  else if be_type pos =? IPL_TYPE_FLOPPY then
    do lift_m (map_floppy_drive (be_data pos)) ;; upd_bev (add_bev IPL_TYPE_FLOPPY 0)
  else if be_type pos =? IPL_TYPE_HARDDISK then
    do lift_m (map_hd_drive CONFIG_QEMU (be_data pos)) ;; upd_bev (add_bev IPL_TYPE_HARDDISK 0)
  else
    do (if be_type pos =? IPL_TYPE_CDROM then lift_m (map_cd_drive (be_data pos)) else ret tt) ;;
    upd_bev (add_bev (be_type pos) (be_data pos)).
Fixpoint map_entries (l : list bootentry_s) : B unit :=
  match l with [] => ret tt | pos :: rest => do map_entry pos ;; map_entries rest end.

Definition bcv_prepboot : B unit :=
  if negb CONFIG_BOOT then ret tt
  else
    haltprio <- find_prio_b "HALT" ;;
    do (if 0 <=? haltprio then bootentry_add IPL_TYPE_HALT haltprio 0 (Literal (str "HALT")) else ret tt) ;;
    l <- get BootList ;;
    do map_entries l ;;
    do upd_bev (add_bev IPL_TYPE_FLOPPY 0) ;;
    upd_bev (add_bev IPL_TYPE_HARDDISK 0).

(** ** Int 18 and 19 *)

Definition call_boot_entry (seg offset bootdrv : Z) : M WB unit :=
  farcall16 (set_ax 0xaa55 (set_dl bootdrv
    (Bregs 0 0 0 0 0 0 0 0 0 (Segoff seg offset) F_IF))).

Definition boot_disk (bootdrv checksig : Z) : B unit :=
  let bootseg := 0x07c0 in
  br <- lift_m (call16_int 0x13 (set_cl 1 (set_al 1 (set_ah 2 (set_es bootseg (set_dl bootdrv (set_flags F_IF bregs_zero))))))) ;;
  if cf_set br then printf "Boot failed: could not read the boot disk

" []
  else
    m <- get_mem_b ;;
    if truthy checksig && negb (read16 m (bootseg * 16 + 0x1fe) =? MBR_SIGNATURE) then
      printf "Boot failed: not a bootable disk

" []
    else
      do lift_m (tpm_add_bcv bootdrv (MAKE_FLATPTR bootseg 0) 512) ;;
      let bootip := u16 (Z.shiftl (Z.land bootseg 0x0fff) 4) in
      lift_m (call_boot_entry (Z.land bootseg 0xf000) bootip bootdrv).

Definition boot_cdrom (drive : Z) : B unit :=
  if negb CONFIG_CDROM_BOOT then ret tt
  else
    do printf "Booting from DVD/CD...
" [] ;;
    status <- lift_m (cdrom_boot drive) ;;
    if truthy status then printf "Boot failed: Could not read from CDROM (code %04x)
" [Word status]
    else
      m <- get_mem_b ;;
      let bootdrv := CDEmu_emulated_drive m in
      let bootseg := CDEmu_load_segment m in
      do lift_m (tpm_add_cdrom bootdrv (MAKE_FLATPTR bootseg 0) 512) ;;
      let bootip := u16 (Z.shiftl (Z.land bootseg 0x0fff) 4) in
      lift_m (call_boot_entry (Z.land bootseg 0xf000) bootip bootdrv).

Definition boot_cbfs (file : Z) : B unit :=
  if negb CONFIG_COREBOOT_FLASH then ret tt
  else do printf "Booting from CBFS...
" [] ;; lift_m (cbfs_run_payload file).

Definition boot_rom (vec : Z) : B unit :=
  do printf "Booting from ROM...
" [] ;; lift_m (call_boot_entry (vec / 2 ^ 16) (vec mod 2 ^ 16) 0).

Fixpoint fail_wait (n : nat) (forever : bool) (end_ : Z) : M WB unit := fun s =>
  if negb forever && irqtimer_check end_ (mc_mem s) then Some (tt, s)
  else match n with O => None | Datatypes.S n' => (do yield_toirq ;; fail_wait n' forever end_) s end.

Definition boot_fail : B unit :=
  c <- get bs_config ;;
  let forever := BootRetryTime c =? 2 ^ 32 - 1 in
  do (if forever then printf "No bootable device.
" []
      else printf "No bootable device.  Retrying in %d seconds.
" [Word (Z.quot (s32 (BootRetryTime c)) 1000)]) ;;
  m <- get_mem_b ;;
  do lift_m (fail_wait fuel forever (irqtimer_calc (BootRetryTime c) m)) ;;
  do printf "Rebooting.
" [] ;;
  lift_m reset.

(** What follows an attempt: the machine was reset, or int 18 is raised. *)
Inductive followed := Reset | Int18.

(** The switch of [do_boot]. *)
Definition boot_type (ie : bev_s) : B followed :=
  let ty := bev_type ie in
  if ty =? IPL_TYPE_FLOPPY then
    c <- get bs_config ;;
    do printf "Booting from Floppy...
" [] ;; do boot_disk 0x00 (CheckFloppySig c) ;; ret Int18
  else if ty =? IPL_TYPE_HARDDISK then
    do printf "Booting from Hard Disk...
" [] ;; do boot_disk 0x80 1 ;; ret Int18
  else if ty =? IPL_TYPE_CDROM then do boot_cdrom (vector ie) ;; ret Int18
  else if ty =? IPL_TYPE_CBFS then do boot_cbfs (vector ie) ;; ret Int18
  else if ty =? IPL_TYPE_BEV then do boot_rom (vector ie) ;; ret Int18
  else if ty =? IPL_TYPE_HALT then do boot_fail ;; ret Reset
  else ret Int18.

(** [None]: the panic, or an index before the array. *)
Definition do_boot (seq_nr : Z) : B followed :=
  if negb CONFIG_BOOT || (seq_nr <? 0) then fun _ => None
  else
    b <- get bs_bev ;;
    match BEV b !! Z.to_nat seq_nr with
    | None => do boot_fail ;; ret Reset
    | Some ie => boot_type ie
    end.

Definition handle_18 : B followed :=
  seq <- get BootSequence ;;
  let seq := s32 (seq + 1) in
  do set_BootSequence seq ;;
  do_boot seq.

Definition handle_19 : B followed := do set_BootSequence 0 ;; do_boot 0.

(** The BIOS's own handlers answer its interrupts 18h. *)
Fixpoint after_attempt (n : nat) (f : followed) : B unit :=
  match f with
  | Reset => ret tt
  | Int18 => match n with O => fun _ => None | Datatypes.S n' => f <- handle_18 ;; after_attempt n' f end
  end.
Definition boot_sequence (n : nat) : B unit := f <- handle_19 ;; after_attempt n f.
End Boot.
