(* ===== verification/BootCorrect.v ===== *)
(** * The boot order is respected ([Boot])

    The list of devices is the stable sort of the registrations; the boot menu
    moves the chosen device to the front of it; the boot entries follow the list;
    the boot sequence tries the entries one after the other. *)
From Stdlib Require Import Ascii String Sorted Permutation.
From S2P Require Import Prelude E820 Hlist Machine StringOps Bytes Malloc MallocCorrect Timer Clock Pci FwCfg Romfile Output BootPath BootOrder Block Boot.
Local Open Scope seabios_scope.

(** ** The sorted list *)

Section Order.
Context (drive : Z -> drive_s).

(** What a device is ordered by: priority, type, and for drives the type and
    number of the controller. *)
Definition drive_key (be : bootentry_s) : Z * Z :=
  if be_type be <=? IPL_TYPE_CDROM then (type (drive (be_data be)), cntl_id (drive (be_data be))) else (0, 0).
Definition key (be : bootentry_s) : Z * Z * (Z * Z) := (priority be, be_type be, drive_key be).

Definition key_lt (k1 k2 : Z * Z * (Z * Z)) : Prop :=
  let '(p1, t1, (d1, c1)) := k1 in
  let '(p2, t2, (d2, c2)) := k2 in
  p1 < p2 \/ (p1 = p2 /\ (t1 < t2 \/ (t1 = t2 /\ (d1 < d2 \/ (d1 = d2 /\ c1 < c2))))).
Definition key_le (k1 k2 : Z * Z * (Z * Z)) : Prop := ~ key_lt k2 k1.

Lemma key_lt_trans k1 k2 k3 : key_lt k1 k2 -> key_le k2 k3 -> key_lt k1 k3.
Proof. destruct k1 as [[p1 t1] [d1 c1]], k2 as [[p2 t2] [d2 c2]], k3 as [[p3 t3] [d3 c3]]. unfold key_le, key_lt. lia. Qed.
Lemma key_lt_le k1 k2 : key_lt k1 k2 -> key_le k1 k2.
Proof. destruct k1 as [[p1 t1] [d1 c1]], k2 as [[p2 t2] [d2 c2]]. unfold key_le, key_lt. lia. Qed.
Lemma key_lt_irrefl k : ~ key_lt k k.
Proof. destruct k as [[p t] [d c]]. unfold key_lt. lia. Qed.

Lemma goes_before_key be pos : goes_before drive be pos = true <-> key_lt (key be) (key pos).
Proof.
  unfold goes_before, key, key_lt. destruct (drive_key be) as [d1 c1] eqn:H1, (drive_key pos) as [d2 c2] eqn:H2.
  destruct (Z.ltb_spec (priority be) (priority pos)); [split; [lia|done]|].
  destruct (Z.ltb_spec (priority pos) (priority be)); [split; [done|lia]|].
  destruct (Z.ltb_spec (be_type be) (be_type pos)); [split; [lia|done]|].
  destruct (Z.ltb_spec (be_type pos) (be_type be)); [split; [done|lia]|].
  unfold drive_key, IPL_TYPE_CDROM in *. replace (be_type pos) with (be_type be) in H2 by lia.
  destruct (be_type be <=? 3); cbn [andb]; injection H1 as <- <-; injection H2 as <- <-; [|split; [done|lia]].
  rewrite orb_true_iff, andb_true_iff, !Z.ltb_lt, Z.eqb_eq. lia.
Qed.

Abbreviation sorted := (StronglySorted (fun a b => key_le (key a) (key b))).

Lemma insert_perm be l : insert_sorted drive be l ≡ₚ be :: l.
Proof. induction l as [|pos l IH]; simpl; [done|]. case_match; [done|]. rewrite IH. constructor. Qed.

Lemma insert_keeps_sorted be l : sorted l -> sorted (insert_sorted drive be l).
Proof.
  induction 1 as [|pos l Hl IH Hpos]; simpl; [repeat constructor|].
  destruct (goes_before drive be pos) eqn:Hb.
  - apply goes_before_key in Hb. constructor; [by constructor|]. constructor; [by apply key_lt_le|].
    eapply Forall_impl; [exact Hpos|]. simpl. intros x Hx. eapply key_lt_le, key_lt_trans; eauto.
  - constructor; [done|]. rewrite insert_perm. constructor; [|done]. intros Hlt. apply goes_before_key in Hlt. congruence.
Qed.

Definition same_key (k : Z * Z * (Z * Z)) (be : bootentry_s) : bool := bool_decide (key be = k).

Lemma filter_none {A} (f : A -> bool) l : (forall x, x ∈ l -> f x = false) -> List.filter f l = [].
Proof. induction l as [|x l IH]; intros Hf; simpl; [done|]. rewrite Hf by left. apply IH. intros y Hy. apply Hf. by right. Qed.

(** A device goes after all with its key. *)
Lemma insert_stable k be l : sorted l ->
  List.filter (same_key k) (insert_sorted drive be l) = List.filter (same_key k) (l ++ [be]).
Proof.
  unfold same_key. induction 1 as [|pos l Hl IH Hpos]; [done|]. cbn [insert_sorted app].
  destruct (goes_before drive be pos) eqn:Hb.
  - apply goes_before_key in Hb. change (pos :: l ++ [be]) with ((pos :: l) ++ [be]). rewrite List.filter_app.
    change (List.filter ?f (be :: ?l)) with (if f be then be :: List.filter f l else List.filter f l). cbv beta.
    change (List.filter ?f [be]) with (if f be then [be] else []). cbv beta.
    case_bool_decide as Hk; [|by rewrite app_nil_r].
    assert (forall x, x ∈ pos :: l -> key x <> k) as Hne.
    { intros x [->|Hx]%elem_of_cons Hxk.
      - rewrite <- Hk in Hxk. rewrite Hxk in Hb. by apply key_lt_irrefl in Hb.
      - eapply Forall_forall in Hpos; [|exact Hx]. rewrite <- Hk in Hxk. simpl in Hpos. rewrite Hxk in Hpos. by apply Hpos. }
    rewrite (filter_none (fun be => bool_decide (key be = k)) (pos :: l)); [done|].
    intros x Hx. by apply bool_decide_false, Hne.
  - cbn [List.filter]. by rewrite IH.
Qed.

(** C19: the list of devices is the stable sort of the registrations: the same
    devices, in the order of priority, type and controller, and those that agree
    in all of these in the order in which they were registered. *)
Theorem BootList_stable_sort (regs : list bootentry_s) :
  let l := fold_left (fun l be => insert_sorted drive be l) regs [] in
  Permutation l regs /\ sorted l /\ forall k, List.filter (same_key k) l = List.filter (same_key k) regs.
Proof.
  enough (forall l0, sorted l0 ->
    let l := fold_left (fun l be => insert_sorted drive be l) regs l0 in
    Permutation l (l0 ++ regs) /\ sorted l /\ forall k, List.filter (same_key k) l = List.filter (same_key k) (l0 ++ regs))
    as Hgen by (apply (Hgen []); constructor).
  induction regs as [|be regs IH]; intros l0 Hs; cbn [fold_left].
  - by rewrite app_nil_r.
  - destruct (IH (insert_sorted drive be l0) (insert_keeps_sorted be l0 Hs)) as (Hp & Hsr & Hst). split_and!; [|done|].
    + rewrite Hp, insert_perm. apply Permutation_middle.
    + intros k. rewrite Hst, List.filter_app, insert_stable by done. rewrite !List.filter_app. cbn [List.filter].
      rewrite <- app_assoc. f_equal. by destruct (same_key k be).
Qed.
End Order.

(** ** The menu *)

Lemma menu_pick_spec : forall chars before l i c boot, NoDup chars -> l !! i = Some boot -> chars !! i = Some c ->
  menu_pick c chars before l = Some (before ++ take i l, boot, drop (S i) l).
Proof.
  induction chars as [|d chars IH]; intros before l i c boot Hnd Hl Hc; [done|].
  destruct l as [|pos l]; [done|]. apply NoDup_cons in Hnd as [Hd Hnd]. destruct i as [|i]; cbn [menu_pick].
  - injection Hl as ->. injection Hc as ->. rewrite Z.eqb_refl. cbn [take drop]. by rewrite app_nil_r.
  - rewrite (proj2 (Z.eqb_neq c d)).
    + rewrite (IH _ l i c boot) by done. cbn [take]. by rewrite <- app_assoc.
    + intros ->. apply Hd. by eapply list_elem_of_lookup_2.
Qed.

Lemma sorted_remove {A} (R : A -> A -> Prop) l1 x l2 : StronglySorted R (l1 ++ x :: l2) -> StronglySorted R (l1 ++ l2).
Proof.
  induction l1 as [|y l1 IH]; simpl; intros Hs; inversion_clear Hs as [|? ? Hs' Hall]; [done|].
  constructor; [by apply IH|]. rewrite Forall_app in *. destruct Hall as [? Hx]. by inversion_clear Hx.
Qed.

(** The menu does what it shows.  The key shown for an entry of the list
    takes that entry out and puts it at the front with the best priority; the
    others keep their order, and the list stays sorted. *)
Theorem bootmenu_choice (drive : Z -> drive_s) l i boot c :
  l !! i = Some boot -> menuchars !! i = Some c -> Forall (fun be => 0 < priority be) l ->
  StronglySorted (fun a b => key_le (key drive a) (key drive b)) l ->
  exists picked, menu_pick c menuchars [] l = Some picked /\
    make_first picked = Bootentry (be_type boot) (be_data boot) 0 (description boot) :: take i l ++ drop (S i) l /\
    StronglySorted (fun a b => key_le (key drive a) (key drive b)) (make_first picked).
Proof.
  intros Hl Hc Hp Hs. assert (NoDup menuchars) as Hnd by (refine (bool_decide_unpack _ _); vm_compute; done).
  eexists. split; [by apply menu_pick_spec|]. cbn [make_first app]. split; [done|].
  rewrite <- (take_drop_middle l i boot Hl) in Hs, Hp. apply sorted_remove in Hs. constructor; [done|].
  rewrite Forall_app in *. destruct Hp as [H1 H2]. inversion_clear H2 as [|? ? _ H3].
  assert (forall x, 0 < priority x -> key_le (key drive (Bootentry (be_type boot) (be_data boot) 0 (description boot))) (key drive x)) as Hle.
  { intros x Hx. unfold key_le, key_lt, key. destruct (drive_key _ x), (drive_key _ _). cbn [priority]. lia. }
  split; eapply Forall_impl; eauto.
Qed.

(** ** The boot order in the CMOS *)

(** The rank of a type of device in the order of QEMU: the last of the three
    places that names it. *)
Definition nvram_rank (flag1 flag2 ty : Z) : Z :=
  if flag1 / 16 =? ty then 103
  else if flag2 / 16 =? ty then 102
  else if flag2 mod 16 =? ty then 101
  else DEFAULT_PRIO.

Lemma boot_nibble_ranks val i d :
  boot_nibble val i d =
  DefaultPrios (if val =? 1 then i else DefaultFloppyPrio d) (if val =? 3 then i else DefaultCDPrio d)
    (if val =? 2 then i else DefaultHDPrio d) (if val =? 4 then i else DefaultBEVPrio d).
Proof. unfold boot_nibble. destruct d. zbool. Qed.

Lemma high_nibble x : 0 <= x < 2 ^ 8 -> Z.land x 0xf0 = 16 * (x / 16).
Proof.
  intros Hx. assert (forallb (fun y => Z.land y 0xf0 =? 16 * (y / 16)) (seqZ 0 256) = true) as Hall by (vm_compute; reflexivity).
  rewrite forallb_forall in Hall. apply Z.eqb_eq, Hall. apply list_elem_of_In, elem_of_seqZ. lia.
Qed.
Lemma nvram_word flag1 flag2 : 0 <= flag1 < 2 ^ 8 -> 0 <= flag2 < 2 ^ 8 ->
  Z.lor flag2 (Z.shiftl (Z.land flag1 0xf0) 4) = flag2 + 256 * (flag1 / 16).
Proof.
  intros H1 H2. rewrite high_nibble, Z.shiftl_mul_pow2, Z.lor_comm by lia.
  replace (16 * (flag1 / 16) * 2 ^ 4) with (flag1 / 16 * 2 ^ 8) by lia. rewrite lor_add_shifted by lia. lia.
Qed.

(** The priorities from the CMOS.  A type of device has the rank 101, 102 or
    103 of its place in the order QEMU stores, and the lowest priority when the
    order does not name it. *)
Theorem nvram_order_ranks flag1 flag2 :
  is_byte flag1 -> is_byte flag2 ->
  nvram_order flag1 flag2 =
  DefaultPrios (nvram_rank flag1 flag2 1) (nvram_rank flag1 flag2 3) (nvram_rank flag1 flag2 2) (nvram_rank flag1 flag2 4).
Proof.
  unfold is_byte. intros H1 H2. unfold nvram_order. rewrite nvram_word by done.
  set (w := flag2 + 256 * (flag1 / 16)). cbn [boot_nibbles]. change 0x0f with (Z.ones 4).
  rewrite !Z.shiftr_shiftr, !Z.land_ones, !Z.shiftr_div_pow2 by lia.
  replace (w mod 2 ^ 4) with (flag2 mod 16) by lia.
  replace (w / 2 ^ 4 mod 2 ^ 4) with (flag2 / 16) by lia.
  replace (w / 2 ^ (4 + 4) mod 2 ^ 4) with (flag1 / 16) by lia.
  by rewrite !boot_nibble_ranks.
Qed.

(** ** Boot entries *)

(** The entry a device gives. *)
Definition bev_of (pos : bootentry_s) : bev_s :=
  if be_type pos =? IPL_TYPE_BCV then Bev IPL_TYPE_HARDDISK 0
  else if be_type pos =? IPL_TYPE_FLOPPY then Bev IPL_TYPE_FLOPPY 0
  else if be_type pos =? IPL_TYPE_HARDDISK then Bev IPL_TYPE_HARDDISK 0
  else Bev (be_type pos) (be_data pos).

(** The entries, less those for a floppy or hard disk after the first. *)
Fixpoint first_of_kind (hd fd : bool) (l : list bev_s) : list bev_s :=
  match l with
  | [] => []
  | b :: l' =>
    if bev_type b =? IPL_TYPE_HARDDISK then if hd then first_of_kind hd fd l' else b :: first_of_kind true fd l'
    else if bev_type b =? IPL_TYPE_FLOPPY then if fd then first_of_kind hd fd l' else b :: first_of_kind hd true l'
    else b :: first_of_kind hd fd l'
  end.

Definition add_bevs (l : list bev_s) (b : bev_list) : bev_list :=
  fold_left (fun b e => add_bev (bev_type e) (vector e) b) l b.

(** Storing into the array of 20. *)
Definition store_bev (l : list bev_s) (e : bev_s) : list bev_s := if (20 <=? length l)%nat then l else l ++ [e].
Lemma store_bev_length l e : (length l <= 20)%nat -> (length (store_bev l e) <= 20)%nat.
Proof. intros Hl. unfold store_bev. destruct (Nat.leb_spec 20 (length l)); [done|]. rewrite length_app. simpl. lia. Qed.
Lemma take_store l e r : (length l <= 20)%nat -> take 20 (store_bev l e ++ r) = take 20 (l ++ e :: r).
Proof.
  intros Hl. unfold store_bev. destruct (Nat.leb_spec 20 (length l)); [|by rewrite <- app_assoc].
  by rewrite !take_app_le by lia.
Qed.

Lemma truthy_succ x : 0 <= x -> truthy (x + 1) = true.
Proof. intros Hx. unfold truthy. zbool. Qed.

Lemma add_bev_eq ty v L h f : add_bev ty v (BevList L h f) =
  if ty =? IPL_TYPE_HARDDISK then BevList (if truthy h then L else store_bev L (Bev ty v)) (h + 1) f
  else if ty =? IPL_TYPE_FLOPPY then BevList (if truthy f then L else store_bev L (Bev ty v)) h (f + 1)
  else BevList (store_bev L (Bev ty v)) h f.
Proof.
  unfold add_bev, store_bev. cbn [HaveHDBoot HaveFDBoot BEV]. change ARRAY_SIZE_BEV with 20%nat.
  destruct (Z.eqb_spec ty IPL_TYPE_HARDDISK) as [->|]; cbn [HaveHDBoot HaveFDBoot BEV].
  - change (IPL_TYPE_HARDDISK =? IPL_TYPE_FLOPPY) with false. cbn [HaveHDBoot HaveFDBoot BEV].
    destruct (truthy h); [done|]. by case_match.
  - destruct (ty =? IPL_TYPE_FLOPPY); cbn [HaveHDBoot HaveFDBoot BEV]; [destruct (truthy f); [done|]|]; by case_match.
Qed.

Lemma add_bevs_spec l : forall b, 0 <= HaveHDBoot b -> 0 <= HaveFDBoot b -> (length (BEV b) <= 20)%nat ->
  BEV (add_bevs l b) = take 20 (BEV b ++ first_of_kind (truthy (HaveHDBoot b)) (truthy (HaveFDBoot b)) l).
Proof.
  induction l as [|[ty v] l IH]; intros [L h f] Hh Hf Hl; cbn [add_bevs fold_left first_of_kind bev_type vector BEV HaveHDBoot HaveFDBoot] in *.
  - by rewrite app_nil_r, take_ge.
  - fold (add_bevs l (add_bev ty v (BevList L h f))). rewrite add_bev_eq.
    pose proof (store_bev_length L (Bev ty v) Hl).
    destruct (ty =? IPL_TYPE_HARDDISK); [|destruct (ty =? IPL_TYPE_FLOPPY)].
    + rewrite IH by (cbn; try destruct (truthy h); lia). cbn [BEV HaveHDBoot HaveFDBoot]. rewrite truthy_succ by done.
      destruct (truthy h); [done|]. by apply take_store.
    + rewrite IH by (cbn; try destruct (truthy f); lia). cbn [BEV HaveHDBoot HaveFDBoot]. rewrite (truthy_succ f) by done.
      destruct (truthy f); [done|]. by apply take_store.
    + rewrite IH by (cbn; lia). by apply take_store.
Qed.

(** ** The stateful part *)

Section State.
Context {S : Type} `{Hlist S} `{Layout}.
Context {W : Type} `{Env W} `{Ports W} `{DmaPort W}.
Context (CONFIG_QEMU preempted : bool) (limit : nat) (call_bcv : Z -> Z -> M (block_world W) unit).

Abbreviation bst := (boot_s (S := S) (W := W)).

(** An option ROM's code returns. *)
Context (call_bcv_returns : forall seg ip m, exists m', call_bcv seg ip m = Some (tt, m')).

(** What a call to another part leaves alone. *)
Definition same_boot (s s' : bst) : Prop :=
  BootList s' = BootList s /\ bs_bev s' = bs_bev s /\ bs_config s' = bs_config s /\ BootSequence s' = BootSequence s.

(** A computation that always returns. *)
Definition returns {T A} (c : ST T A) : Prop := forall s, exists x s', c s = Some (x, s').

Lemma st_returns_bind {T A A'} (c : ST T A) (k : A -> ST T A') : returns c -> (forall x, returns (k x)) -> returns (bind c k).
Proof. intros Hc Hk s. destruct (Hc s) as (x & s' & Heq). rewrite (bind_some _ _ _ _ _ Heq). apply Hk. Qed.
Lemma st_returns_ret {T A} (x : A) : returns (T := T) (ret x).
Proof. by eexists _, _. Qed.

(** Reads, writes and port accesses return. *)
Ltac returns_prim := repeat first
  [ apply st_returns_ret | apply st_returns_bind; [|intros ?] | case_match
  | by (intros ?; eexists _, _; reflexivity) ].

Lemma inb_returns port : returns (inb port : M (block_world W) Z).
Proof. intros m. unfold inb. destruct (dev_inb _ _). by eexists _, _. Qed.

Lemma map_hd_returns drive : returns (map_hd_drive CONFIG_QEMU drive).
Proof.
  unfold map_hd_drive, setup_translation, get_translation, fill_fdpt, rtc_read. returns_prim. apply inb_returns.
Qed.
Lemma map_floppy_returns drive : returns (map_floppy_drive (W := W) drive).
Proof. unfold map_floppy_drive. returns_prim. Qed.
Lemma map_cd_returns drive : returns (map_cd_drive (W := W) drive).
Proof. unfold map_cd_drive. returns_prim. Qed.

Lemma lift_m_returns {A} (c : M (block_world W) A) (s : bst) :
  returns c -> exists x s', lift_m c s = Some (x, s') /\ same_boot s s'.
Proof.
  intros Hc. unfold lift_m, lift_r, with_device.
  destruct (Hc (Machine (rs_mem (bs_r s)) (rs_dev (bs_r s)))) as (x & m' & ->). by eexists _, _.
Qed.

(** A device is mapped and its entry added. *)
Lemma map_entry_spec pos (s : bst) : exists s',
  map_entry CONFIG_QEMU call_bcv pos s = Some (tt, s') /\ BootList s' = BootList s /\
  bs_bev s' = add_bev (bev_type (bev_of pos)) (vector (bev_of pos)) (bs_bev s).
Proof.
  assert (Hdone : forall (c : M (block_world W) unit) ty v, returns c -> exists s',
    bind (lift_m c) (fun _ => upd_bev (add_bev ty v)) s = Some (tt, s') /\ BootList s' = BootList s /\
    bs_bev s' = add_bev ty v (bs_bev s)).
  { intros c ty v Hc. destruct (lift_m_returns c s Hc) as (x & s' & Heq & Hl & Hb & _).
    rewrite (bind_some _ _ _ _ _ Heq). eexists. split; [done|]. simpl. by rewrite Hb. }
  unfold map_entry, bev_of. case_match; [apply Hdone; intros m; destruct (call_bcv_returns (be_data pos / 2 ^ 16) (be_data pos mod 2 ^ 16) m); eauto|].
  case_match; [apply Hdone, map_floppy_returns|]. case_match; [apply Hdone, map_hd_returns|].
  case_match; [apply Hdone, map_cd_returns|]. by eexists.
Qed.

Lemma map_bevs_spec l : forall (s : bst), exists s',
  map_entries CONFIG_QEMU call_bcv l s = Some (tt, s') /\ BootList s' = BootList s /\
  bs_bev s' = add_bevs (bev_of <$> l) (bs_bev s).
Proof.
  induction l as [|pos l IH]; intros s; cbn [map_entries]; [by eexists|].
  destruct (map_entry_spec pos s) as (s1 & Heq & Hl1 & Hb1). rewrite (bind_some _ _ _ _ _ Heq).
  destruct (IH s1) as (s2 & Heq2 & Hl2 & Hb2). exists s2. split_and!; [done|congruence|]. csimpl. by rewrite Hb2, Hb1.
Qed.

Lemma bootentry_add_returns ty prio data desc (s : bst) : exists s',
  bootentry_add true preempted ty prio data desc s = Some (tt, s') /\ bs_bev s' = bs_bev s.
Proof.
  unfold bootentry_add, bind, lift_r, alloc. cbn [negb]. destruct (malloc_tmp _ _ _) as [a ms].
  destruct (a =? 0); by eexists.
Qed.

Lemma find_prio_b_eq glob (s : bst) :
  find_prio_b limit glob s = Some (find_prio (str glob) (strings limit (Bootorder (bs_config s)) (rs_mem (bs_r s))), s).
Proof. by destruct s. Qed.

(** C34: the boot entries follow the list of devices.  [bcv_prepboot] returns, and
    the entries are those of the devices in the list's order, with only the first
    floppy and the first hard disk, followed by a floppy and a hard disk where
    there was none, as far as they fit into the array of 20. *)
Theorem bcv_prepboot_entries (s : bst) :
  bs_bev s = BevList [] 0 0 ->
  exists s', bcv_prepboot true CONFIG_QEMU preempted limit call_bcv s = Some (tt, s') /\
    BEV (bs_bev s') =
    take 20 (first_of_kind false false ((bev_of <$> BootList s') ++ [Bev IPL_TYPE_FLOPPY 0; Bev IPL_TYPE_HARDDISK 0])).
Proof.
  intros Hb. unfold bcv_prepboot. cbn [negb]. rewrite (bind_some _ _ _ _ _ (find_prio_b_eq "HALT" s)).
  set (halt := find_prio _ _).
  assert (exists s1, (if 0 <=? halt then bootentry_add true preempted IPL_TYPE_HALT halt 0 (Literal (str "HALT")) else ret tt) s =
    Some (tt, s1) /\ bs_bev s1 = bs_bev s) as (s1 & Heq1 & Hb1).
  { destruct (0 <=? halt); [apply bootentry_add_returns|by eexists]. }
  rewrite (bind_some _ _ _ _ _ Heq1). erewrite bind_some by reflexivity. cbv beta.
  destruct (map_bevs_spec (BootList s1) s1) as (s2 & Heq2 & Hl2 & Hb2). rewrite (bind_some _ _ _ _ _ Heq2).
  eexists. split; [reflexivity|]. cbn [bs_bev BootList]. rewrite Hb2, Hb1, Hb, Hl2.
  change (add_bev IPL_TYPE_HARDDISK 0 (add_bev IPL_TYPE_FLOPPY 0 ?b)) with (add_bevs [Bev IPL_TYPE_FLOPPY 0; Bev IPL_TYPE_HARDDISK 0] b).
  unfold add_bevs. rewrite <- fold_left_app. apply add_bevs_spec; simpl; lia.
Qed.
(** ** The boot sequence *)

Context (CONFIG_CDROM_BOOT CONFIG_COREBOOT_FLASH ScreenAndDebug : bool) (fuel : nat) (entry_10 : Z).
Context (debug_putc : Z -> M (block_world W) unit)
  (farcall16 : bregs -> M (block_world W) unit) (cdrom_boot : Z -> M (block_world W) Z)
  (cbfs_run_payload : Z -> M (block_world W) unit) (reset : M (block_world W) unit)
  (CDEmu_emulated_drive CDEmu_load_segment : memory -> Z)
  (tpm_add_bcv tpm_add_cdrom : Z -> Z -> Z -> M (block_world W) unit).

(** A computation that leaves the boot entries and the sequence number alone. *)
Definition keeps {A} (c : ST bst A) : Prop :=
  forall s x s', c s = Some (x, s') -> bs_bev s' = bs_bev s /\ BootSequence s' = BootSequence s.

Lemma keeps_bind {A A'} (c : ST bst A) (k : A -> ST bst A') : keeps c -> (forall x, keeps (k x)) -> keeps (bind c k).
Proof.
  intros Hc Hk s x s' Hb. apply bind_inv in Hb as (y & s1 & H1' & H2'). apply Hc in H1' as [<- <-]. by eapply Hk.
Qed.
Lemma keeps_ret {A} (x : A) : keeps (ret x).
Proof. by intros s y s' [= -> ->]. Qed.
Lemma keeps_none {A} : keeps (fun _ => @None (A * bst)).
Proof. done. Qed.
Lemma keeps_lift_r {A} (c : ST _ A) : keeps (lift_r c).
Proof. intros s x s'. unfold lift_r. destruct (c (bs_r s)) as [[y r]|]; [|done]. by intros [= -> <-]. Qed.
Lemma keeps_get {A} (f : bst -> A) : keeps (get f).
Proof. by intros s x s' [= <- <-]. Qed.

Ltac keeps_tac := repeat first
  [ apply keeps_ret | apply keeps_none | apply keeps_lift_r | apply keeps_get | apply keeps_bind; [|intros ?] | case_match ].

Abbreviation boot_type := (boot_type CONFIG_CDROM_BOOT CONFIG_COREBOOT_FLASH ScreenAndDebug fuel entry_10 debug_putc
  farcall16 cdrom_boot cbfs_run_payload reset CDEmu_emulated_drive CDEmu_load_segment tpm_add_bcv tpm_add_cdrom).
Abbreviation boot_fail := (boot_fail ScreenAndDebug fuel entry_10 debug_putc reset).
Abbreviation do_boot := (do_boot true CONFIG_CDROM_BOOT CONFIG_COREBOOT_FLASH ScreenAndDebug fuel entry_10 debug_putc
  farcall16 cdrom_boot cbfs_run_payload reset CDEmu_emulated_drive CDEmu_load_segment tpm_add_bcv tpm_add_cdrom).
Abbreviation handle_18 := (handle_18 true CONFIG_CDROM_BOOT CONFIG_COREBOOT_FLASH ScreenAndDebug fuel entry_10 debug_putc
  farcall16 cdrom_boot cbfs_run_payload reset CDEmu_emulated_drive CDEmu_load_segment tpm_add_bcv tpm_add_cdrom).
Abbreviation after_attempt := (after_attempt true CONFIG_CDROM_BOOT CONFIG_COREBOOT_FLASH ScreenAndDebug fuel entry_10 debug_putc
  farcall16 cdrom_boot cbfs_run_payload reset CDEmu_emulated_drive CDEmu_load_segment tpm_add_bcv tpm_add_cdrom).
Abbreviation boot_sequence := (boot_sequence true CONFIG_CDROM_BOOT CONFIG_COREBOOT_FLASH ScreenAndDebug fuel entry_10 debug_putc
  farcall16 cdrom_boot cbfs_run_payload reset CDEmu_emulated_drive CDEmu_load_segment tpm_add_bcv tpm_add_cdrom).

Lemma keeps_boot_type ie : keeps (boot_type ie).
Proof.
  unfold boot_type, boot_disk, boot_cdrom, boot_cbfs, boot_rom, boot_fail, printf, lift_m, get_mem_b. keeps_tac.
Qed.

(** The entries one after the other: each attempt that comes back is followed by
    the next entry, and the last one by [boot_fail]. *)
Fixpoint try_in_order (i : Z) (l : list bev_s) : ST bst unit :=
  do set_BootSequence i ;;
  match l with
  | [] => boot_fail
  | ie :: rest => f <- boot_type ie ;; match f with Reset => ret tt | Int18 => try_in_order (i + 1) rest end
  end.

Lemma do_boot_at dn rest (s : bst) : BEV (bs_bev s) = dn ++ rest ->
  do_boot (Z.of_nat (length dn)) s =
  match rest with [] => bind boot_fail (fun _ => ret Reset) s | ie :: _ => boot_type ie s end.
Proof.
  intros Hb. unfold do_boot. cbn [negb orb]. destruct (Z.ltb_spec (Z.of_nat (length dn)) 0); [lia|].
  erewrite bind_some by reflexivity. cbv beta. rewrite Hb, Nat2Z.id, lookup_app_r, Nat.sub_diag by lia. by destruct rest.
Qed.

Lemma handle_18_next (s : bst) : 0 <= BootSequence s < 2 ^ 31 - 1 ->
  handle_18 s = (do set_BootSequence (BootSequence s + 1) ;; do_boot (BootSequence s + 1)) s.
Proof.
  intros Hq. unfold handle_18. erewrite bind_some by reflexivity. cbv beta.
  replace (s32 (BootSequence s + 1)) with (BootSequence s + 1); [done|].
  unfold s32. rewrite u32_small by lia. zbool.
Qed.

Lemma run_in_order rest : forall n dn (s : bst),
  BEV (bs_bev s) = dn ++ rest -> BootSequence s = Z.of_nat (length dn) -> Z.of_nat (length (dn ++ rest)) < 2 ^ 31 ->
  (length rest <= n)%nat ->
  bind (do_boot (Z.of_nat (length dn))) (after_attempt n) s =
  match rest with
  | [] => boot_fail
  | ie :: rest => f <- boot_type ie ;; match f with Reset => ret tt | Int18 => try_in_order (Z.of_nat (length dn) + 1) rest end
  end s.
Proof.
  induction rest as [|ie rest IH]; intros n dn s Hb Hq Hlen Hn; unfold bind at 1; rewrite (do_boot_at dn _ s Hb).
  - unfold bind. destruct (boot_fail s) as [[[] s']|]; [|done]. by destruct n.
  - unfold bind at 1. destruct (boot_type ie s) as [[[|] s1]|] eqn:Ht; [by destruct n| |done].
    apply keeps_boot_type in Ht as [Hb1 Hq1]. destruct n as [|n]; cbn [length] in Hn; [lia|]. cbn [after_attempt].
    rewrite length_app in Hlen. cbn [length] in Hlen.
    unfold bind at 1. rewrite handle_18_next by lia. rewrite Hq1, Hq.
    erewrite bind_some by reflexivity. cbv beta.
    replace (Z.of_nat (length dn) + 1) with (Z.of_nat (length (dn ++ [ie]))) by (rewrite length_app; simpl; lia).
    set (s2 := BootS _ _ _ _ _ _).
    transitivity (bind (do_boot (Z.of_nat (length (dn ++ [ie])))) (after_attempt n) s2); [done|].
    rewrite (IH n (dn ++ [ie]) s2); [by destruct rest| |done|rewrite !length_app; simpl; lia|lia].
    rewrite <- app_assoc. simpl. congruence.
Qed.

(** C35: the boot sequence tries every entry once, in order.  However often the
    attempts come back through int 18h, int 19h runs the entries one after the
    other and ends with [boot_fail] after the last; it never starts over and never
    leaves the array. *)
Theorem boot_sequence_in_order n (s : bst) :
  Z.of_nat (length (BEV (bs_bev s))) < 2 ^ 31 -> (length (BEV (bs_bev s)) <= n)%nat ->
  boot_sequence n s = try_in_order 0 (BEV (bs_bev s)) s.
Proof.
  intros Hlen Hn. unfold boot_sequence, handle_19. set (s0 := BootS (bs_r s) (BootList s) (bs_prios s) (bs_config s) (bs_bev s) 0).
  transitivity (bind (do_boot (Z.of_nat (length (@nil bev_s)))) (after_attempt n) s0); [done|].
  rewrite (run_in_order (BEV (bs_bev s)) n [] s0) by done. by destruct (BEV (bs_bev s)).
Qed.
End State.

(** ** Witnesses *)

Module Demo.
#[local] Existing Instances MallocCorrect.Demo.layout DemoDevice.env DemoDevice.ports DemoDevice.dma.

(** A hard disk behind the network, a floppy, a second hard disk. *)
Definition drives : gmap Z drive_s :=
  {[0x1000 := Drive DTYPE_ATA 0 (Chs 16 100 63) 100800 0 0 512 (Chs 16 100 63) 0;
    0x2000 := Drive DTYPE_FLOPPY 4 (Chs 2 80 18) 2880 0 0 512 (Chs 2 80 18) 0;
    0x3000 := Drive DTYPE_ATA 0 (Chs 16 100 63) 100800 1 0 512 (Chs 16 100 63) 0]}.
Definition devices : list bootentry_s :=
  [Bootentry IPL_TYPE_BEV 0xca000010 1 (Literal (str "iPXE"));
   Bootentry IPL_TYPE_FLOPPY 0x2000 101 (Literal (str "Floppy"));
   Bootentry IPL_TYPE_HARDDISK 0x1000 103 (Literal (str "ata0-0"));
   Bootentry IPL_TYPE_HARDDISK 0x3000 103 (Literal (str "ata0-1"))].
Definition state : boot_s (S := words) (W := DemoDevice.W) :=
  BootS (RState MallocCorrect.Demo.st2
      (BlockWorld (Globals drives (fun _ => replicate 16 0) 0 0 0 0) (0, 0)) [] [])
    devices (DefaultPrios 101 102 103 104) (BootConfig 60000 1 [] []) (BevList [] 0 0) (-1).
Definition state2 : boot_s (S := words) (W := DemoDevice.W) :=
  BootS (bs_r state) devices (bs_prios state) (bs_config state) (BevList [Bev IPL_TYPE_BEV 0xca000010; Bev IPL_TYPE_HALT 0] 0 0) (-1).
(** Parts that do nothing. *)
Definition nop {A} (_ : A) : M (block_world DemoDevice.W) unit := ret tt.
Definition nop3 (_ _ _ : Z) : M (block_world DemoDevice.W) unit := ret tt.
End Demo.
#[local] Existing Instances MallocCorrect.Demo.layout DemoDevice.env DemoDevice.ports DemoDevice.dma.

Lemma bootmenu_choice_witness :
  exists picked, menu_pick (Output.chr "3"%char) menuchars [] Demo.devices = Some picked /\
    make_first picked = Bootentry IPL_TYPE_HARDDISK 0x1000 0 (Literal (str "ata0-0")) :: take 2 Demo.devices ++ drop 3 Demo.devices /\
    StronglySorted (fun a b => key_le (key (fun p => default drive_zero (Demo.drives !! p)) a)
      (key (fun p => default drive_zero (Demo.drives !! p)) b)) (make_first picked).
Proof.
  apply (bootmenu_choice (fun p => default drive_zero (Demo.drives !! p)) Demo.devices 2
    (Bootentry IPL_TYPE_HARDDISK 0x1000 103 (Literal (str "ata0-0"))) (Output.chr "3"%char)).
  - reflexivity.
  - reflexivity.
  - repeat constructor.
  - repeat first [apply SSorted_nil | apply SSorted_cons | apply List.Forall_nil | apply List.Forall_cons];
      vm_compute; intuition discriminate.
Defined.

Lemma nvram_order_ranks_witness :
  nvram_order 0x10 0x32 = DefaultPrios 103 102 101 DEFAULT_PRIO /\
  nvram_order 0x10 0x32 = DefaultPrios (nvram_rank 0x10 0x32 1) (nvram_rank 0x10 0x32 3) (nvram_rank 0x10 0x32 2) (nvram_rank 0x10 0x32 4).
Proof. split; [reflexivity|]. apply (nvram_order_ranks 0x10 0x32); unfold is_byte; lia. Defined.

Lemma bcv_prepboot_entries_witness :
  exists s', bcv_prepboot true false false 80 (fun _ _ m => Some (tt, m)) Demo.state = Some (tt, s') /\
    BEV (bs_bev s') =
    take 20 (first_of_kind false false ((bev_of <$> BootList s') ++ [Bev IPL_TYPE_FLOPPY 0; Bev IPL_TYPE_HARDDISK 0])).
Proof.
  apply (bcv_prepboot_entries false false 80 (fun _ _ m => Some (tt, m))); [|done].
  intros seg ip m. by exists m.
Defined.

Lemma boot_sequence_in_order_witness :
  boot_sequence true false false false 0 0 Demo.nop Demo.nop (fun _ m => Some (1, m)) Demo.nop (Demo.nop tt)
    (fun _ => 0) (fun _ => 0) Demo.nop3 Demo.nop3 3 Demo.state2 =
  try_in_order false false false 0 0 Demo.nop Demo.nop (fun _ m => Some (1, m)) Demo.nop (Demo.nop tt)
    (fun _ => 0) (fun _ => 0) Demo.nop3 Demo.nop3 0 (BEV (bs_bev Demo.state2)) Demo.state2.
Proof.
  apply (boot_sequence_in_order false false false 0 0 Demo.nop Demo.nop (fun _ m => Some (1, m)) Demo.nop (Demo.nop tt)
    (fun _ => 0) (fun _ => 0) Demo.nop3 Demo.nop3 3 Demo.state2); simpl; lia.
Defined.
