(* ===== verification/Lzma.v ===== *)
(** * The LZMA decoder: src/fw/lzmadecode.c, and its use in src/fw/coreboot.c

    The decoder is written over a few macros that decode one bit ([IfBit0] with
    [UpdateBit0] and [UpdateBit1]) and over three arrays: the probabilities, the
    input and the output.  Here the macros and the accesses to the output are
    the nodes of a program tree ([prog]), and the functions of the decoder build
    such trees; [run] executes a tree on the arrays, checking every index.  A
    [do .. while] loop with a counter is a recursion on the counter. *)
From S2P Require Import Prelude Machine Bytes.

(** ** Constants *)

Definition kNumTopBits : Z := 24.
Definition kTopValue : Z := Z.shiftl 1 kNumTopBits.
Definition kNumBitModelTotalBits : Z := 11.
Definition kBitModelTotal : Z := Z.shiftl 1 kNumBitModelTotalBits.
Definition kNumMoveBits : Z := 5.

Definition kNumPosBitsMax : Z := 4.
Definition kNumPosStatesMax : Z := Z.shiftl 1 kNumPosBitsMax.
Definition kLenNumLowBits : Z := 3.
Definition kLenNumLowSymbols : Z := Z.shiftl 1 kLenNumLowBits.
Definition kLenNumMidBits : Z := 3.
Definition kLenNumMidSymbols : Z := Z.shiftl 1 kLenNumMidBits.
Definition kLenNumHighBits : Z := 8.
Definition kLenNumHighSymbols : Z := Z.shiftl 1 kLenNumHighBits.

Definition LenChoice : Z := 0.
Definition LenChoice2 : Z := LenChoice + 1.
Definition LenLow : Z := LenChoice2 + 1.
Definition LenMid : Z := LenLow + Z.shiftl kNumPosStatesMax kLenNumLowBits.
Definition LenHigh : Z := LenMid + Z.shiftl kNumPosStatesMax kLenNumMidBits.
Definition kNumLenProbs : Z := LenHigh + kLenNumHighSymbols.

Definition kNumStates : Z := 12.
Definition kNumLitStates : Z := 7.
Definition kStartPosModelIndex : Z := 4.
Definition kEndPosModelIndex : Z := 14.
Definition kNumFullDistances : Z := Z.shiftl 1 (Z.shiftr kEndPosModelIndex 1).
Definition kNumPosSlotBits : Z := 6.
Definition kNumLenToPosStates : Z := 4.
Definition kNumAlignBits : Z := 4.
Definition kAlignTableSize : Z := Z.shiftl 1 kNumAlignBits.
Definition kMatchMinLen : Z := 2.

Definition IsMatch : Z := 0.
Definition IsRep : Z := IsMatch + Z.shiftl kNumStates kNumPosBitsMax.
Definition IsRepG0 : Z := IsRep + kNumStates.
Definition IsRepG1 : Z := IsRepG0 + kNumStates.
Definition IsRepG2 : Z := IsRepG1 + kNumStates.
Definition IsRep0Long : Z := IsRepG2 + kNumStates.
Definition PosSlot : Z := IsRep0Long + Z.shiftl kNumStates kNumPosBitsMax.
Definition SpecPos : Z := PosSlot + Z.shiftl kNumLenToPosStates kNumPosSlotBits.
Definition Align : Z := SpecPos + kNumFullDistances - kEndPosModelIndex.
Definition LenCoder : Z := Align + kAlignTableSize.
Definition RepLenCoder : Z := LenCoder + kNumLenProbs.
Definition Literal : Z := RepLenCoder + kNumLenProbs.

Definition LZMA_BASE_SIZE : Z := 1846.
Definition LZMA_LIT_SIZE : Z := 768.
Definition LZMA_PROPERTIES_SIZE : Z := 5.

(** "#if Literal != LZMA_BASE_SIZE StopCompilingDueBUG" *)
Example Literal_is_LZMA_BASE_SIZE : Literal = LZMA_BASE_SIZE.
Proof. reflexivity. Qed.

(** ** The properties: [LzmaDecodeProperties] *)

Record CLzmaProperties := Properties { lc : Z; lp : Z; pb : Z }.

(** [for (n = 0; prop0 >= unit; n++, prop0 -= unit);] with [prop0] a byte *)
Fixpoint prop_loop (fuel : nat) (unit n prop0 : Z) : Z * Z :=
  match fuel with
  | O => (n, prop0)
  | S f => if unit <=? prop0 then prop_loop f unit (n + 1) (u8 (prop0 - unit)) else (n, prop0)
  end.

(** [None]: LZMA_RESULT_DATA_ERROR.  A byte is less than 256, so is the number
    of iterations. *)
Definition LzmaDecodeProperties (propsData : Z -> Z) (size : Z) : option CLzmaProperties :=
  if size <? LZMA_PROPERTIES_SIZE then None
  else
    let prop0 := propsData 0 in
    if 9 * 5 * 5 <=? prop0 then None
    else
      let '(pb, prop0) := prop_loop 256 (9 * 5) 0 prop0 in
      let '(lp, prop0) := prop_loop 256 9 0 prop0 in
      Some (Properties prop0 lp pb).

Definition LzmaGetNumProbs (p : CLzmaProperties) : Z := LZMA_BASE_SIZE + Z.shiftl LZMA_LIT_SIZE (lc p + lp p).

(** ** Programs over the range decoder and the output *)

Inductive prog (A : Type) :=
| Ret (x : A)
| IfBit0 (prob : Z) (k : bool -> prog A)      (* the bit is 0; the probability is updated *)
| DirectBit (k : bool -> prog A)              (* a bit without probability: it is 1 *)
| Normalize (k : prog A)                      (* RC_NORMALIZE *)
| GetOut (i : Z) (k : Z -> prog A)            (* outStream[i] *)
| PutOut (i x : Z) (k : prog A)               (* outStream[i] = x *)
| DataError                                   (* return LZMA_RESULT_DATA_ERROR *)
| Endless.                                    (* a loop ran out of fuel *)
Arguments Ret {A}. Arguments IfBit0 {A}. Arguments DirectBit {A}. Arguments Normalize {A}.
Arguments GetOut {A}. Arguments PutOut {A}. Arguments DataError {A}. Arguments Endless {A}.

Fixpoint pbind {A B} (c : prog A) (f : A -> prog B) : prog B :=
  match c with
  | Ret x => f x
  | IfBit0 p k => IfBit0 p (fun b => pbind (k b) f)
  | DirectBit k => DirectBit (fun b => pbind (k b) f)
  | Normalize k => Normalize (pbind k f)
  | GetOut i k => GetOut i (fun x => pbind (k x) f)
  | PutOut i x k => PutOut i x (pbind k f)
  | DataError => DataError
  | Endless => Endless
  end.

Declare Scope lzma_scope.
Delimit Scope lzma_scope with lzma.
Local Open Scope lzma_scope.
Notation "'let*' x := c 'in' k" := (pbind c (fun x => k))
  (at level 100, x pattern, c at next level, k at level 200) : lzma_scope.
Notation "'bit0?' p 'then' a 'else' b" := (IfBit0 p (fun zero : bool => if zero then a else b))
  (at level 200, a at level 200, b at level 200) : lzma_scope.

(** [mi <<= 1] on a 0, [mi = (mi + mi) + 1] on a 1 *)
Definition get_bit (zero : bool) (mi : Z) : Z := if zero then Z.shiftl mi 1 else mi + mi + 1.

(** [RangeDecoderBitTreeDecode]: the loop, and the whole macro *)
Fixpoint tree_loop (i : nat) (probs res : Z) : prog Z :=
  match i with
  | O => Ret res
  | S i' => IfBit0 (probs + res) (fun zero => tree_loop i' probs (get_bit zero res))
  end.
Definition RangeDecoderBitTreeDecode (probs : Z) (numLevels : Z) : prog Z :=
  let* res := tree_loop (Z.to_nat numLevels) probs 1 in Ret (res - Z.shiftl 1 numLevels).

(** ** [LzmaDecode] *)

Record vars := Vars
  { nowPos : Z; previousByte : Z; state : Z; rep0 : Z; rep1 : Z; rep2 : Z; rep3 : Z }.

Section LzmaDecode.
Context (props : CLzmaProperties) (outSize : Z).

Definition posStateMask : Z := u32 (Z.shiftl 1 (pb props) - 1).
Definition literalPosMask : Z := u32 (Z.shiftl 1 (lp props) - 1).

(** The literal after a match: as long as the bits agree with those of the byte
    at the last distance, they have probabilities of their own. *)
Fixpoint matched_loop (fuel : nat) (prob matchByte symbol : Z) : prog Z :=
  match fuel with
  | O => Endless
  | S f =>
    let matchByte := Z.shiftl matchByte 1 in
    let bit := Z.land matchByte 0x100 in
    let probLit := prob + 0x100 + bit + symbol in
    IfBit0 probLit (fun zero =>
      let symbol := get_bit zero symbol in
      if (if zero then negb (bit =? 0) else bit =? 0) then Ret symbol
      else if symbol <? 0x100 then matched_loop f prob matchByte symbol else Ret symbol)
  end.

Fixpoint plain_loop (fuel : nat) (prob symbol : Z) : prog Z :=
  if symbol <? 0x100 then
    match fuel with
    | O => Endless
    | S f => IfBit0 (prob + symbol) (fun zero => plain_loop f prob (get_bit zero symbol))
    end
  else Ret symbol.

Definition literal (v : vars) : prog vars :=
  let symbol := 1 in
  let prob := Literal + LZMA_LIT_SIZE *
    (Z.shiftl (Z.land (nowPos v) literalPosMask) (lc props) + Z.shiftr (previousByte v) (8 - lc props)) in
  let* symbol :=
    (if kNumLitStates <=? state v
     then GetOut (u32 (nowPos v - rep0 v)) (fun matchByte => matched_loop 8 prob matchByte symbol)
     else Ret symbol) in
  let* symbol := plain_loop 8 prob symbol in
  let previousByte := u8 symbol in
  PutOut (nowPos v) previousByte
    (let state := if state v <? 4 then 0 else if state v <? 10 then state v - 3 else state v - 6 in
     Ret (Vars (nowPos v + 1) previousByte state (rep0 v) (rep1 v) (rep2 v) (rep3 v))).

(** The length coder at [prob]. *)
Definition length_ (prob posState : Z) : prog Z :=
  bit0? prob + LenChoice then
    (let* len := RangeDecoderBitTreeDecode (prob + LenLow + Z.shiftl posState kLenNumLowBits) kLenNumLowBits in
     Ret (len + 0))
  else
    bit0? prob + LenChoice2 then
      (let* len := RangeDecoderBitTreeDecode (prob + LenMid + Z.shiftl posState kLenNumMidBits) kLenNumMidBits in
       Ret (len + kLenNumLowSymbols))
    else
      (let* len := RangeDecoderBitTreeDecode (prob + LenHigh) kLenNumHighBits in
       Ret (len + (kLenNumLowSymbols + kLenNumMidSymbols))).

Fixpoint direct_loop (numDirectBits : nat) (rep0 : Z) : prog Z :=
  match numDirectBits with
  | O => Ret rep0
  | S n =>
    DirectBit (fun one =>
      let rep0 := u32 (Z.shiftl rep0 1) in direct_loop n (if one then Z.lor rep0 1 else rep0))
  end.

(** The low bits of a distance, lowest first. *)
Fixpoint reverse_loop (numDirectBits : nat) (prob mi i rep0 : Z) : prog Z :=
  match numDirectBits with
  | O => Ret rep0
  | S n =>
    IfBit0 (prob + mi) (fun zero =>
      reverse_loop n prob (get_bit zero mi) (Z.shiftl i 1) (if zero then rep0 else Z.lor rep0 i))
  end.

(** The distance of a match of length code [len], less one. *)
Definition distance (len : Z) : prog Z :=
  let prob := PosSlot +
    Z.shiftl (if len <? kNumLenToPosStates then len else kNumLenToPosStates - 1) kNumPosSlotBits in
  let* posSlot := RangeDecoderBitTreeDecode prob kNumPosSlotBits in
  if kStartPosModelIndex <=? posSlot then
    let numDirectBits := Z.shiftr posSlot 1 - 1 in
    let rep0 := Z.lor 2 (Z.land posSlot 1) in
    if posSlot <? kEndPosModelIndex then
      let rep0 := u32 (Z.shiftl rep0 numDirectBits) in
      reverse_loop (Z.to_nat numDirectBits) (SpecPos + rep0 - posSlot - 1) 1 1 rep0
    else
      let* rep0 := direct_loop (Z.to_nat (numDirectBits - kNumAlignBits)) rep0 in
      reverse_loop (Z.to_nat kNumAlignBits) Align 1 1 (u32 (Z.shiftl rep0 kNumAlignBits))
  else Ret posSlot.

(** [do .. while(len != 0 && nowPos < outSize)] *)
Fixpoint copy_loop (fuel : nat) (len : Z) (v : vars) : prog vars :=
  match fuel with
  | O => Endless
  | S f =>
    GetOut (u32 (nowPos v - rep0 v)) (fun byte =>
      let len := len - 1 in
      PutOut (nowPos v) byte
        (let v := Vars (nowPos v + 1) byte (state v) (rep0 v) (rep1 v) (rep2 v) (rep3 v) in
         if negb (len =? 0) && (nowPos v <? outSize) then copy_loop f len v else Ret v))
  end.

(** A match once its length code is known: a new distance unless it repeats
    one.  [None] is the end mark of a stream. *)
Definition match_ (len : Z) (v : vars) : prog (option vars) :=
  let* w :=
    (if state v <? 4 then
       let* d := distance len in
       let rep0 := u32 (d + 1) in
       if rep0 =? 0 then Ret None
       else Ret (Some (Vars (nowPos v) (previousByte v) (state v + kNumLitStates) rep0 (rep1 v) (rep2 v) (rep3 v)))
     else Ret (Some v)) in
  match w with
  | None => Ret None
  | Some v =>
    let len := len + kMatchMinLen in
    if nowPos v <? rep0 v then DataError
    else let* v := copy_loop (Z.to_nat len) len v in Ret (Some v)
  end.

(** One turn of the main loop; [None]: the stream has ended. *)
Definition step (v : vars) : prog (option vars) :=
  let posState := Z.land (nowPos v) posStateMask in
  let '(Vars nowPos previousByte state rep0 rep1 rep2 rep3) := v in
  bit0? IsMatch + Z.shiftl state kNumPosBitsMax + posState then
    (let* v := literal v in Ret (Some v))
  else
    bit0? IsRep + state then
      (let state := if state <? kNumLitStates then 0 else 3 in
       let v := Vars nowPos previousByte state rep0 rep0 rep1 rep2 in
       let* len := length_ LenCoder posState in match_ len v)
    else
      let repeat (v : vars) :=
        let* len := length_ RepLenCoder posState in match_ len v in
      let state' := if state <? kNumLitStates then 8 else 11 in
      bit0? IsRepG0 + state then
        (bit0? IsRep0Long + Z.shiftl state kNumPosBitsMax + posState then
           (if nowPos =? 0 then DataError
            else
              let state := if state <? kNumLitStates then 9 else 11 in
              GetOut (u32 (nowPos - rep0)) (fun byte =>
                PutOut nowPos byte (Ret (Some (Vars (nowPos + 1) byte state rep0 rep1 rep2 rep3)))))
         else repeat (Vars nowPos previousByte state' rep0 rep1 rep2 rep3))
      else
        (bit0? IsRepG1 + state then
           repeat (Vars nowPos previousByte state' rep1 rep0 rep2 rep3)
         else
           bit0? IsRepG2 + state then
             repeat (Vars nowPos previousByte state' rep2 rep0 rep1 rep3)
           else
             repeat (Vars nowPos previousByte state' rep3 rep0 rep1 rep2)).

(** The main loop; [v] is what it has when it ends or breaks. *)
Fixpoint decode_loop (fuel : nat) (v : vars) : prog vars :=
  if nowPos v <? outSize then
    match fuel with
    | O => Endless
    | S f =>
      let* r := step v in
      match r with Some v => decode_loop f v | None => Ret v end
    end
  else Ret v.

Definition start : vars := Vars 0 0 0 1 1 1 1.

(** The body of the function after RC_INIT. *)
Definition decode : prog vars :=
  let* v := decode_loop (Z.to_nat outSize) start in Normalize (Ret v).
End LzmaDecode.

(** ** Running a program on the arrays *)

(** [Buffer] is an index into the input. *)
Record decoder := Decoder
  { Probs : list Z; Buffer : Z; Range : Z; Code : Z; outStream : list Z }.

Inductive outcome (A : Type) :=
| Finished (x : A) (s : decoder)
| Failed (s : decoder)              (* LZMA_RESULT_DATA_ERROR *)
| OutOfBounds                       (* an index outside an array *)
| OutOfFuel.
Arguments Finished {A}. Arguments Failed {A}. Arguments OutOfBounds {A}. Arguments OutOfFuel {A}.

Definition and_then {A B} (r : outcome A) (k : A -> decoder -> outcome B) : outcome B :=
  match r with
  | Finished x s => k x s
  | Failed s => Failed s
  | OutOfBounds => OutOfBounds
  | OutOfFuel => OutOfFuel
  end.

Definition at_index (l : list Z) (i : Z) : option Z := if i <? 0 then None else l !! Z.to_nat i.

Definition UpdateBit0 (p : Z) : Z := u16 (p + Z.shiftr (kBitModelTotal - p) kNumMoveBits).
Definition UpdateBit1 (p : Z) : Z := u16 (p - Z.shiftr p kNumMoveBits).

Section Run.
Context (inStream : list Z).
Definition inSize : Z := Z.of_nat (length inStream).

(** RC_TEST and RC_READ_BYTE: the end of the input is an error that is reported,
    a read that is not from the input goes wrong. *)
Definition read_byte (s : decoder) : outcome unit :=
  if Buffer s =? inSize then Failed s
  else
    match at_index inStream (Buffer s) with
    | None => OutOfBounds
    | Some byte =>
      Finished tt (Decoder (Probs s) (Buffer s + 1) (Range s) (u32 (Z.lor (u32 (Z.shiftl (Code s) 8)) byte)) (outStream s))
    end.

Definition with_range (s : decoder) (r : Z) : decoder := Decoder (Probs s) (Buffer s) r (Code s) (outStream s).

Definition rc_normalize (s : decoder) : outcome unit :=
  if Range s <? kTopValue
  then and_then (read_byte s) (fun _ s => Finished tt (with_range s (u32 (Z.shiftl (Range s) 8))))
  else Finished tt s.

Fixpoint run {A} (c : prog A) (s : decoder) : outcome A :=
  match c with
  | Ret x => Finished x s
  | IfBit0 p k =>
    and_then (rc_normalize s) (fun _ s =>
      match at_index (Probs s) p with
      | None => OutOfBounds
      | Some prob =>
        let bound := u32 (Z.shiftr (Range s) kNumBitModelTotalBits * prob) in
        if Code s <? bound then
          run (k true) (Decoder (<[Z.to_nat p := UpdateBit0 prob]> (Probs s)) (Buffer s) bound (Code s) (outStream s))
        else
          run (k false) (Decoder (<[Z.to_nat p := UpdateBit1 prob]> (Probs s)) (Buffer s)
                           (u32 (Range s - bound)) (u32 (Code s - bound)) (outStream s))
      end)
  | DirectBit k =>
    and_then (rc_normalize s) (fun _ s =>
      let range := Z.shiftr (Range s) 1 in
      if range <=? Code s then
        run (k true) (Decoder (Probs s) (Buffer s) range (u32 (Code s - range)) (outStream s))
      else run (k false) (with_range s range))
  | Normalize k => and_then (rc_normalize s) (fun _ s => run k s)
  | GetOut i k => match at_index (outStream s) i with None => OutOfBounds | Some x => run (k x) s end
  | PutOut i x k =>
    match at_index (outStream s) i with
    | None => OutOfBounds
    | Some _ => run k (Decoder (Probs s) (Buffer s) (Range s) (Code s) (<[Z.to_nat i := x]> (outStream s)))
    end
  | DataError => Failed s
  | Endless => OutOfFuel
  end.

(** RC_INIT: five bytes. *)
Fixpoint rc_init_loop (n : nat) (s : decoder) : outcome unit :=
  match n with
  | O => Finished tt s
  | S n' => and_then (read_byte s) (fun _ s => rc_init_loop n' s)
  end.

(** The probabilities [p] are those of the caller's array: the loop sets the
    first [numProbs] of them. *)
Definition init_probs (props : CLzmaProperties) (p : list Z) : option (list Z) :=
  let numProbs := Literal + u32 (Z.shiftl LZMA_LIT_SIZE (lc props + lp props)) in
  if Z.of_nat (length p) <? numProbs then None
  else Some (replicate (Z.to_nat numProbs) (Z.shiftr kBitModelTotal 1) ++ drop (Z.to_nat numProbs) p).

(** [*inSizeProcessed] and [*outSizeProcessed] are [Buffer] and [nowPos] of a
    finished run, and 0 otherwise. *)
Definition LzmaDecode (props : CLzmaProperties) (p : list Z) (out : list Z) : outcome vars :=
  match init_probs props p with
  | None => OutOfBounds
  | Some p =>
    let s := Decoder p 0 0xFFFFFFFF 0 out in
    and_then (rc_init_loop 5 s) (fun _ s => run (decode props (Z.of_nat (length out))) s)
  end.
End Run.

(** ** [ulzma] of coreboot.c *)

(** The areas of memory are the arrays; [temp] is what the stack held where
    [scratch] is.  The result is -1 or the size of the output. *)
Definition ulzma (temp : list Z) (dst maxlen src srclen : Z) (m : memory) : option (Z * memory) :=
  match LzmaDecodeProperties (fun i => read8 m (src + i)) LZMA_PROPERTIES_SIZE with
  | None => Some (-1, m)
  | Some props =>
    let need := LzmaGetNumProbs props * 2 in
    if 15980 <? need then Some (-1, m)
    else
      let dstlen := read32 m (src + LZMA_PROPERTIES_SIZE) in
      if maxlen <? dstlen then Some (-1, m)
      else
        let inStream := read_bytes (Z.to_nat srclen) (src + LZMA_PROPERTIES_SIZE + 8) m in
        let out := read_bytes (Z.to_nat dstlen) dst m in
        match LzmaDecode inStream props temp out with
        | Finished _ s => Some (s32 dstlen, write_bytes dst (outStream s) m)
        | Failed s => Some (-1, write_bytes dst (outStream s) m)
        | _ => None
        end
  end.

(** A stream made by the xz tools: 48 bytes of text with matches, repeated
    matches and an end mark. *)
Definition hello_lzma : list Z :=
  [0; 0; 0; 1; 0; 48; 0; 0; 0; 0; 0; 0; 0;
   0; 48; 153; 174; 168; 34; 196; 19; 4; 95; 126; 192; 18; 210; 75; 9; 76; 168; 5; 228; 112; 137; 96; 223; 152; 153;
   122; 33; 51; 246; 255; 255; 113; 212; 0; 0].
Definition hello_text : list Z :=
  [97; 98; 114; 97; 99; 97; 100; 97; 98; 114; 97; 32; 97; 98; 114; 97; 99; 97; 100; 97; 98; 114; 97; 44; 32;
   104; 101; 108; 108; 111; 32; 104; 101; 108; 108; 111; 32; 104; 101; 108; 108; 111; 32; 108; 122; 109; 97; 33].

Definition result {A} (r : outcome A) (nowPos : A -> Z) : option (Z * Z * list Z) :=
  match r with Finished x s => Some (nowPos x, Buffer s, outStream s) | _ => None end.

Example hello_decodes :
  result (LzmaDecode (drop 13 hello_lzma) (Properties 0 0 0) (replicate 2614 0) (replicate 48 0)) nowPos =
  Some (48, 30, hello_text).
Proof. vm_compute. reflexivity. Qed.

(** With room to spare the end mark is read. *)
Example hello_ends :
  result (LzmaDecode (drop 13 hello_lzma) (Properties 0 0 0) (replicate 2614 0) (replicate 50 7)) nowPos =
  Some (48, 36, hello_text ++ [7; 7]).
Proof. vm_compute. reflexivity. Qed.

(** Cut short, the input is an error. *)
Example hello_cut :
  result (LzmaDecode (take 25 (drop 13 hello_lzma)) (Properties 0 0 0) (replicate 2614 0) (replicate 48 0)) nowPos =
  None.
Proof. vm_compute. reflexivity. Qed.
