(* ===== verification/LzmaCorrect.v ===== *)
(** * The LZMA decoder is safe ([Lzma])

    Whatever the input, every index is inside its array, every loop ends and
    the range decoder stays in its working range. *)
From S2P Require Import Prelude Machine Bytes Lzma.
Local Open Scope lzma_scope.

(** The constants, as numbers. *)
Ltac consts :=
  change kTopValue with (2 ^ 24) in *; change kNumBitModelTotalBits with 11 in *; change kBitModelTotal with 2048 in *;
  change kNumMoveBits with 5 in *; change kNumPosBitsMax with 4 in *; change kLenNumLowBits with 3 in *;
  change kLenNumLowSymbols with 8 in *; change kLenNumMidBits with 3 in *; change kLenNumMidSymbols with 8 in *;
  change kLenNumHighBits with 8 in *; change LenChoice2 with 1 in *; change LenChoice with 0 in *;
  change LenLow with 2 in *; change LenMid with 130 in *; change LenHigh with 258 in *;
  change kNumLitStates with 7 in *; change kStartPosModelIndex with 4 in *; change kEndPosModelIndex with 14 in *;
  change kNumPosSlotBits with 6 in *; change kNumLenToPosStates with 4 in *; change kNumAlignBits with 4 in *;
  change kMatchMinLen with 2 in *; change IsMatch with 0 in *; change IsRep0Long with 240 in *;
  change IsRepG0 with 204 in *; change IsRepG1 with 216 in *; change IsRepG2 with 228 in *; change IsRep with 192 in *;
  change PosSlot with 432 in *; change SpecPos with 688 in *; change Align with 802 in *;
  change RepLenCoder with 1332 in *; change LenCoder with 818 in *; change Literal with 1846 in *;
  change LZMA_BASE_SIZE with 1846 in *; change LZMA_LIT_SIZE with 768 in *.

Definition props_ok (p : CLzmaProperties) : Prop := 0 <= lc p <= 8 /\ 0 <= lp p <= 4 /\ 0 <= pb p <= 4.

Lemma numProbs_eq p : props_ok p -> LzmaGetNumProbs p = 1846 + 768 * 2 ^ (lc p + lp p).
Proof. intros Hp. unfold LzmaGetNumProbs. rewrite Z.shiftl_mul_pow2 by (destruct Hp; lia). done. Qed.

Lemma mask_mod x k : 0 <= k < 32 -> Z.land x (u32 (Z.shiftl 1 k - 1)) = x mod 2 ^ k.
Proof.
  intros Hk. rewrite Z.shiftl_mul_pow2, Z.mul_1_l by lia.
  assert (2 ^ k <= 2 ^ 31) by (apply Z.pow_le_mono_r; lia).
  assert (0 < 2 ^ k) by (apply Z.pow_pos_nonneg; lia).
  rewrite u32_small by lia. replace (2 ^ k - 1) with (Z.ones k) by (rewrite Z.ones_equiv; lia). apply Z.land_ones. lia.
Qed.

(** ** Safe programs *)

Section Safe.
Context (N outSize : Z).

(** Every index is in range and every loop ends, whatever bits are decoded;
    what the program returns satisfies [Q]. *)
Fixpoint safe {A} (c : prog A) (Q : A -> Prop) : Prop :=
  match c with
  | Ret x => Q x
  | IfBit0 p k => 0 <= p < N /\ forall b, safe (k b) Q
  | DirectBit k => forall b, safe (k b) Q
  | Normalize k => safe k Q
  | GetOut i k => 0 <= i < outSize /\ forall x, is_byte x -> safe (k x) Q
  | PutOut i x k => 0 <= i < outSize /\ is_byte x /\ safe k Q
  | DataError => True
  | Endless => False
  end.

Lemma safe_mono {A} (c : prog A) (Q Q' : A -> Prop) : safe c Q -> (forall x, Q x -> Q' x) -> safe c Q'.
Proof.
  intros Hc HQ. induction c as [x|p k IH|k IH|k IH|i k IH|i x k IH| |]; simpl in *; try (destruct Hc); naive_solver.
Qed.
Lemma safe_bind {A B} (c : prog A) (f : A -> prog B) (Q : B -> Prop) :
  safe c (fun x => safe (f x) Q) -> safe (pbind c f) Q.
Proof.
  intros Hc. induction c as [x|p k IH|k IH|k IH|i k IH|i x k IH| |]; simpl in *; try (destruct Hc); naive_solver.
Qed.

(** The decoder keeps its range and its probabilities away from the ends. *)
Definition prob_ok (p : Z) : Prop := 31 <= p <= 2017.
Definition range_ok (r : Z) : Prop := 2 ^ 16 <= r < 2 ^ 32.

Record decoder_ok (inStream : list Z) (s : decoder) : Prop := {
  ok_probs : Forall prob_ok (take (Z.to_nat N) (Probs s));
  ok_nprobs : N <= Z.of_nat (length (Probs s));
  ok_buffer : 0 <= Buffer s <= inSize inStream;
  ok_range : range_ok (Range s);
  ok_out : Forall is_byte (outStream s);
  ok_nout : Z.of_nat (length (outStream s)) = outSize
}.

Lemma at_index_nth (l : list Z) i : 0 <= i < Z.of_nat (length l) -> at_index l i = Some (nth (Z.to_nat i) l 0).
Proof. intros Hi. unfold at_index. destruct (Z.ltb_spec i 0); [lia|].
  destruct (lookup_lt_is_Some_2 l (Z.to_nat i)) as [x Hx]; [lia|]. by rewrite nth_lookup, Hx. Qed.
Lemma at_index_some (l : list Z) (P : Z -> Prop) n i : Forall P (take n l) -> 0 <= i < Z.of_nat n ->
  (n <= length l)%nat -> exists x, at_index l i = Some x /\ P x.
Proof.
  intros Hl Hi Hn. unfold at_index. destruct (Z.ltb_spec i 0); [lia|].
  destruct (lookup_lt_is_Some_2 l (Z.to_nat i)) as [x Hx]; [lia|]. exists x. split; [done|].
  rewrite Forall_lookup in Hl. apply (Hl (Z.to_nat i)). by rewrite lookup_take_lt by lia.
Qed.

Lemma Forall_take_insert (P : Z -> Prop) (l : list Z) n i x : Forall P (take n l) -> P x -> Forall P (take n (<[i:=x]> l)).
Proof.
  intros Hl Hx. destruct (decide (i < n)%nat).
  - rewrite take_insert_lt by done. by apply Forall_insert.
  - by rewrite take_insert_ge by lia.
Qed.

Lemma normalize_ok inStream s : decoder_ok inStream s ->
  match rc_normalize inStream s with
  | Finished _ s' => decoder_ok inStream s' /\ 2 ^ 24 <= Range s' /\ Probs s' = Probs s /\ outStream s' = outStream s
  | Failed s' => decoder_ok inStream s'
  | _ => False
  end.
Proof.
  intros [Hp Hn Hb Hr Ho Hno]. unfold rc_normalize, read_byte. consts.
  destruct (Z.ltb_spec (Range s) (2 ^ 24)); [|split_and!; [by split|lia|done|done]].
  destruct (Z.eqb_spec (Buffer s) (inSize inStream)); [by split|].
  rewrite at_index_nth by (unfold inSize in *; lia). cbn [and_then].
  unfold range_ok in *. unfold with_range. cbn [Range]. rewrite (Z.shiftl_mul_pow2 (Range s)), (u32_small (Range s * 2 ^ 8)) by lia.
  split_and!; [split| | |]; cbn [Probs Range Buffer outStream]; try done; unfold range_ok; lia.
Qed.

Lemma shiftr_bound r p : 2 ^ 24 <= r < 2 ^ 32 -> prob_ok p ->
  let bound := u32 (Z.shiftr r 11 * p) in range_ok bound /\ range_ok (r - bound) /\ bound = r / 2048 * p.
Proof.
  unfold prob_ok, range_ok. intros Hr Hp. cbv zeta. rewrite Z.shiftr_div_pow2 by lia. change (2 ^ 11) with 2048.
  assert (r / 2048 * 31 <= r / 2048 * p <= r / 2048 * 2017) by nia.
  rewrite u32_small by lia. split_and!; lia.
Qed.

Lemma UpdateBit0_ok p : prob_ok p -> prob_ok (UpdateBit0 p).
Proof.
  unfold prob_ok, UpdateBit0. consts. intros Hp. rewrite Z.shiftr_div_pow2 by lia. rewrite u16_small by lia. lia.
Qed.
Lemma UpdateBit1_ok p : prob_ok p -> prob_ok (UpdateBit1 p).
Proof.
  unfold prob_ok, UpdateBit1. consts. intros Hp. rewrite Z.shiftr_div_pow2 by lia. rewrite u16_small by lia. lia.
Qed.

Lemma bit_ok inStream s p x r c : decoder_ok inStream s -> prob_ok x -> range_ok r ->
  decoder_ok inStream (Decoder (<[Z.to_nat p := x]> (Probs s)) (Buffer s) r c (outStream s)).
Proof.
  intros [Hp Hn Hb Hr Ho Hno] Hx Hr'. split; cbn [Probs Range Buffer outStream]; try done.
  - by apply Forall_take_insert.
  - by rewrite length_insert.
Qed.

(** Safe programs do not go wrong on the arrays. *)
Lemma run_safe {A} inStream (c : prog A) (Q : A -> Prop) s : safe c Q -> decoder_ok inStream s ->
  match run inStream c s with
  | Finished x s' => Q x /\ decoder_ok inStream s'
  | Failed s' => decoder_ok inStream s'
  | _ => False
  end.
Proof.
  revert s. induction c as [x|p k IH|k IH|k IH|i k IH|i x k IH| |]; intros s Hc Hs; cbn [safe] in Hc; cbn [run].
  - done.
  - destruct Hc as [Hp Hk]. pose proof (normalize_ok inStream s Hs) as Hn.
    destruct (rc_normalize inStream s) as [[] s'|s'| |]; cbn [and_then]; [|done..]. destruct Hn as (Hs' & Hr & _ & _).
    destruct (at_index_some (Probs s') prob_ok (Z.to_nat N) p) as (pv & -> & Hpv);
      [apply Hs'|lia|pose proof (ok_nprobs _ _ Hs'); lia|]. consts.
    destruct (shiftr_bound (Range s') pv) as (Hb0 & Hb1 & _); [pose proof (ok_range _ _ Hs') as []; lia|done|].
    destruct (Code s' <? _); apply IH; [by apply Hk|apply bit_ok; [exact Hs'|by apply UpdateBit0_ok|exact Hb0]|by apply Hk|].
    apply bit_ok; [done|by apply UpdateBit1_ok|]. unfold range_ok in *. rewrite u32_small by lia. done.
  - pose proof (normalize_ok inStream s Hs) as Hn.
    destruct (rc_normalize inStream s) as [[] s'|s'| |]; cbn [and_then]; [|done..]. destruct Hn as (Hs' & Hr & _ & _).
    destruct Hs' as [H1 H2 H3 H4 H5 H6]. unfold range_ok in H4.
    assert (range_ok (Z.shiftr (Range s') 1)) by (unfold range_ok; rewrite Z.shiftr_div_pow2 by lia; lia).
    destruct (_ <=? Code s'); (apply IH; [apply Hc|by split]).
  - pose proof (normalize_ok inStream s Hs) as Hn.
    destruct (rc_normalize inStream s) as [[] s'|s'| |]; cbn [and_then]; [|done..]. destruct Hn. by apply IH.
  - destruct Hc as [Hi Hk]. destruct (at_index_some (outStream s) is_byte (length (outStream s)) i) as (x & -> & Hx);
      [rewrite firstn_all; apply Hs|pose proof (ok_nout _ _ Hs); lia|done|]. apply IH; [by apply Hk|done].
  - destruct Hc as (Hi & Hx & Hk). destruct (at_index_some (outStream s) is_byte (length (outStream s)) i) as (y & -> & _);
      [rewrite firstn_all; apply Hs|pose proof (ok_nout _ _ Hs); lia|done|]. apply IH; [done|].
    destruct Hs as [H1 H2 H3 H4 H5 H6]. split; cbn [Probs Range Buffer outStream]; try done.
    + by apply Forall_insert.
    + by rewrite length_insert.
  - done.
  - done.
Qed.
End Safe.

(** ** The parts of the decoder *)

Section Parts.
Context (N outSize : Z).
Abbreviation safe_ := (safe N outSize).

Lemma get_bit_bounds zero x : 2 * x <= get_bit zero x <= 2 * x + 1.
Proof. destruct zero; unfold get_bit; rewrite ?Z.shiftl_mul_pow2; lia. Qed.

Lemma tree_loop_safe probs B i : forall res, 0 < res -> (res + 1) * 2 ^ Z.of_nat i <= 2 * B -> 0 <= probs -> probs + B <= N ->
  safe_ (tree_loop i probs res) (fun r => res * 2 ^ Z.of_nat i <= r < (res + 1) * 2 ^ Z.of_nat i).
Proof.
  induction i as [|i IH]; intros res Hres HB Hp HN; cbn [tree_loop safe]; [simpl; lia|].
  rewrite Nat2Z.inj_succ, Z.pow_succ_r in * by lia.
  assert (0 < 2 ^ Z.of_nat i) by (apply Z.pow_pos_nonneg; lia). split; [nia|]. intros b.
  pose proof (get_bit_bounds b res). eapply safe_mono; [apply IH|]; [lia|nia|done..|].
  intros r. cbn beta. nia.
Qed.

Lemma tree_safe probs n : 0 < n -> 0 <= probs -> probs + 2 ^ n <= N ->
  safe_ (RangeDecoderBitTreeDecode probs n) (fun r => 0 <= r < 2 ^ n).
Proof.
  intros Hn Hp HN. unfold RangeDecoderBitTreeDecode. apply safe_bind.
  eapply safe_mono; [apply (tree_loop_safe probs (2 ^ n))|]; rewrite ?Z2Nat.id; try lia.
  intros r Hr. cbn [safe]. cbn beta in Hr. rewrite Z.shiftl_mul_pow2 by lia. lia.
Qed.

Lemma length_safe prob posState : 0 <= prob -> prob + 514 <= N -> 0 <= posState < 16 ->
  safe_ (length_ prob posState) (fun len => 0 <= len < 272).
Proof.
  intros Hp HN Hs. unfold length_. consts. rewrite !Z.shiftl_mul_pow2 by lia. cbn [safe]. split; [lia|].
  intros []; [|cbn [safe]; split; [lia|intros []]];
    apply safe_bind; (eapply safe_mono; [apply tree_safe; lia|]); intros r Hr; cbn [safe]; cbn beta in Hr; lia.
Qed.

(** The literal coder; [8 - f] bits are already decoded. *)
Lemma land_256 x : Z.land x 0x100 = 0 \/ Z.land x 0x100 = 256.
Proof.
  change 0x100 with (2 ^ 8). destruct (Z.testbit x 8) eqn:Hb; [right|left].
  - apply Z.bits_inj'. intros n Hn. rewrite Z.land_spec, Z.pow2_bits_eqb by lia.
    destruct (Z.eqb_spec 8 n) as [<-|]; [by rewrite Hb|by rewrite andb_false_r].
  - pose proof (truthy_land_bit x 8 ltac:(lia)) as H. rewrite Hb in H. unfold truthy in H.
    by destruct (Z.eqb_spec (Z.land x (2 ^ 8)) 0).
Qed.

Lemma matched_safe prob f : forall matchByte symbol, (0 < f <= 8)%nat -> 2 ^ (8 - Z.of_nat f) <= symbol < 256 ->
  0 <= prob -> prob + 768 <= N -> safe_ (matched_loop f prob matchByte symbol) (fun s => 1 <= s).
Proof.
  induction f as [|f IH]; intros mb symbol Hf Hs Hp HN; [lia|]. cbn [matched_loop safe].
  assert (0 < 2 ^ (8 - Z.of_nat (S f))) by (apply Z.pow_pos_nonneg; lia).
  pose proof (land_256 (Z.shiftl mb 1)) as Hbit. set (bit := Z.land (Z.shiftl mb 1) 0x100) in *.
  split; [lia|]. intros b. pose proof (get_bit_bounds b symbol).
  destruct (if b then _ else _); [cbn [safe]; lia|].
  destruct (Z.ltb_spec (get_bit b symbol) 256); [|cbn [safe]; lia].
  destruct f as [|f]; [change (8 - Z.of_nat 1) with 7 in *; lia|]. apply IH; [lia| |done..].
  replace (8 - Z.of_nat (S f)) with (8 - Z.of_nat (S (S f)) + 1) by lia. rewrite Z.pow_add_r by lia. lia.
Qed.

Lemma plain_safe prob f : forall symbol, (f <= 8)%nat -> 2 ^ (8 - Z.of_nat f) <= symbol ->
  0 <= prob -> prob + 256 <= N -> safe_ (plain_loop f prob symbol) (fun s => True).
Proof.
  induction f as [|f IH]; intros symbol Hf Hs Hp HN; cbn [plain_loop];
    (destruct (Z.ltb_spec symbol 0x100); [|done]); [change (8 - Z.of_nat 0) with 8 in Hs; lia|]. cbn [safe].
  assert (0 < 2 ^ (8 - Z.of_nat (S f))) by (apply Z.pow_pos_nonneg; lia). split; [lia|].
  intros b. pose proof (get_bit_bounds b symbol). apply IH; try lia.
  replace (8 - Z.of_nat f) with (8 - Z.of_nat (S f) + 1) by lia. rewrite Z.pow_add_r by lia. lia.
Qed.

Lemma direct_safe n (Q : Z -> Prop) : forall r, (forall r, Q r) -> safe_ (direct_loop n r) Q.
Proof. induction n as [|n IH]; intros r HQ; cbn [direct_loop safe]; auto. Qed.

Lemma reverse_safe prob B n : forall mi i r, 0 < mi -> (mi + 1) * 2 ^ Z.of_nat n <= 2 * B -> 0 <= prob + 1 -> prob + B <= N ->
  safe_ (reverse_loop n prob mi i r) (fun _ => True).
Proof.
  induction n as [|n IH]; intros mi i r Hmi HB Hp HN; cbn [reverse_loop safe]; [done|].
  rewrite Nat2Z.inj_succ, Z.pow_succ_r in HB by lia.
  assert (0 < 2 ^ Z.of_nat n) by (apply Z.pow_pos_nonneg; lia). split; [nia|]. intros b.
  pose proof (get_bit_bounds b mi). apply IH; [lia|nia|done..].
Qed.

Lemma distance_safe len : 0 <= len -> 1846 <= N -> safe_ (distance len) (fun _ => True).
Proof.
  intros Hlen HN. unfold distance. consts. rewrite Z.shiftl_mul_pow2 by lia. apply safe_bind.
  eapply safe_mono; [apply tree_safe; [lia| |]; destruct (Z.ltb_spec len 4); lia|].
  intros slot Hslot. cbn beta in *. destruct (Z.leb_spec 4 slot); [|done]. rewrite Z.shiftr_div_pow2 by lia.
  destruct (Z.ltb_spec slot 14).
  - change (2 ^ 1) with 2. set (nd := slot / 2 - 1). assert (Hnd : 1 <= nd <= 5) by lia.
    assert (Hlow : Z.lor 2 (Z.land slot 1) = 2 + slot mod 2).
    { change (Z.land slot 1) with (Z.land slot (Z.ones 1)). rewrite Z.land_ones by lia.
      change 2 with (1 * 2 ^ 1) at 1. rewrite lor_add_shifted by lia. done. }
    rewrite Hlow, Z.shiftl_mul_pow2 by lia.
    assert (Hcases : nd = 1 \/ nd = 2 \/ nd = 3 \/ nd = 4 \/ nd = 5) by lia.
    rewrite u32_small by (destruct Hcases as [-> | [-> | [-> | [-> | ->]]]]; lia).
    apply (reverse_safe _ (2 ^ nd)); rewrite ?Z2Nat.id by lia; [lia|lia| |];
      destruct Hcases as [Hn | [Hn | [Hn | [Hn | Hn]]]]; rewrite Hn; lia.
  - apply safe_bind. apply direct_safe. intros r. apply (reverse_safe _ 16); [lia| |lia..].
    change (Z.of_nat (Z.to_nat 4)) with 4. lia.
Qed.

(** ** The variables *)

Definition rep_ok (pos r : Z) : Prop := 1 <= r <= Z.max 1 pos.

Record vars_ok (v : vars) : Prop := {
  ok_pos : 0 <= nowPos v <= outSize;
  ok_prev : is_byte (previousByte v);
  ok_state : 0 <= state v < 12 /\ (7 <= state v -> 0 < nowPos v);
  ok_rep0 : rep_ok (nowPos v) (rep0 v);
  ok_rep1 : rep_ok (nowPos v) (rep1 v);
  ok_rep2 : rep_ok (nowPos v) (rep2 v);
  ok_rep3 : rep_ok (nowPos v) (rep3 v)
}.

Lemma rep_ok_next pos r : 0 < pos -> rep_ok pos r -> rep_ok (pos + 1) r.
Proof. unfold rep_ok. lia. Qed.

Context (small : 0 <= outSize < 2 ^ 32).

(** Reading behind the current position. *)
Lemma get_safe {A} pos r (k : Z -> prog A) (Q : A -> Prop) : 0 < pos < outSize -> rep_ok pos r ->
  (forall x, is_byte x -> safe_ (k x) Q) -> safe_ (GetOut (u32 (pos - r)) k) Q.
Proof. intros Hp Hr Hk. cbn [safe]. split; [|done]. unfold rep_ok in Hr. rewrite u32_small by lia. lia. Qed.

Lemma copy_safe f : forall len v, 1 <= len <= Z.of_nat f -> vars_ok v -> 0 < nowPos v < outSize ->
  safe_ (copy_loop outSize f len v) (fun v' => vars_ok v' /\ nowPos v < nowPos v').
Proof.
  induction f as [|f IH]; intros len [np pr st r0 r1 r2 r3] Hlen Hv Hnp; [lia|]. cbn [copy_loop].
  destruct Hv as [H1 H2 H3 H4 H5 H6 H7]. cbn [nowPos previousByte state rep0 rep1 rep2 rep3] in *.
  apply get_safe; [lia|done|]. intros x Hx. cbn [safe]. split; [lia|split; [done|]].
  assert (Hv' : vars_ok (Vars (np + 1) x st r0 r1 r2 r3)).
  { split; cbn [nowPos previousByte state rep0 rep1 rep2 rep3]; [lia|done|lia|..]; apply rep_ok_next; done || lia. }
  destruct (negb (len - 1 =? 0)) eqn:Hl; cbn [andb].
  - destruct (Z.eqb_spec (len - 1) 0); [done|]. destruct (Z.ltb_spec (np + 1) outSize).
    + eapply safe_mono; [apply IH; cbn [nowPos]; try done; lia|]. cbn [nowPos]. intros v' [Hv'' Hlt]. split; [done|lia].
    + cbn [safe nowPos]. split; [done|lia].
  - cbn [safe nowPos]. split; [done|lia].
Qed.

(** What holds when the length of a match is known: for a new match the state is
    less than 4 and the distance is still to come. *)
Definition match_pre (v : vars) : Prop :=
  0 <= nowPos v < outSize /\ is_byte (previousByte v) /\
  (0 <= state v < 4 \/ 7 <= state v < 12 /\ rep_ok (nowPos v) (rep0 v)) /\
  rep_ok (nowPos v) (rep1 v) /\ rep_ok (nowPos v) (rep2 v) /\ rep_ok (nowPos v) (rep3 v).

Definition progress (v : vars) (r : option vars) : Prop :=
  match r with None => True | Some v' => vars_ok v' /\ nowPos v < nowPos v' end.

Lemma match_safe len v : 1846 <= N -> 0 <= len -> match_pre v -> safe_ (match_ outSize len v) (progress v).
Proof.
  intros HN Hlen (Hp & Hprev & Hst & H1 & H2 & H3). unfold match_. apply safe_bind.
  assert (Hcopy : forall w, nowPos w = nowPos v -> is_byte (previousByte w) -> 0 <= state w < 12 ->
    1 <= rep0 w < 2 ^ 32 -> rep_ok (nowPos v) (rep1 w) -> rep_ok (nowPos v) (rep2 w) -> rep_ok (nowPos v) (rep3 w) ->
    safe_ (if nowPos w <? rep0 w then DataError
           else let* v' := copy_loop outSize (Z.to_nat (len + kMatchMinLen)) (len + kMatchMinLen) w in Ret (Some v'))
      (progress v)).
  { intros w Hnp Hpw Hsw Hr0 Hr1 Hr2 Hr3. consts. destruct (Z.ltb_spec (nowPos w) (rep0 w)); [done|]. apply safe_bind.
    rewrite <- Hnp in *. eapply safe_mono; [apply copy_safe; [lia| |lia]|].
    - split; try done; try lia; unfold rep_ok in *; lia.
    - intros v' [Hv' Hlt]. cbn [safe progress]. split; [done|lia]. }
  destruct (Z.ltb_spec (state v) 4).
  - apply safe_bind. eapply safe_mono; [by apply distance_safe|]. intros d _. cbn beta zeta.
    destruct (Z.eqb_spec (u32 (d + 1)) 0) as [|Hd]; [done|]. cbn [safe].
    pose proof (u32_range (d + 1)). apply Hcopy; cbn [nowPos previousByte state rep0 rep1 rep2 rep3]; consts; try done; lia.
  - cbn [safe]. destruct Hst as [|[Hst Hr0]]; [lia|]. apply Hcopy; try done; unfold rep_ok in *; lia.
Qed.
End Parts.

(** ** The main loop *)

Section Loop.
Context (props : CLzmaProperties) (outSize : Z).
Context (valid : props_ok props) (small : 0 <= outSize < 2 ^ 32).
Abbreviation N := (LzmaGetNumProbs props).

Lemma numProbs_bound : 1846 + 768 <= N.
Proof.
  rewrite numProbs_eq by done. assert (0 < 2 ^ (lc props + lp props)) by (destruct valid; apply Z.pow_pos_nonneg; lia). lia.
Qed.

(** The literal coder of a position and a previous byte lies in the array. *)
Lemma literal_index pos byte : 0 <= pos -> is_byte byte ->
  let prob := Literal + LZMA_LIT_SIZE *
    (Z.shiftl (Z.land pos (literalPosMask props)) (lc props) + Z.shiftr byte (8 - lc props)) in
  0 <= prob /\ prob + 768 <= N.
Proof.
  intros Hpos Hb. pose proof valid as (Hlc & Hlp & _). unfold literalPosMask. consts. cbv zeta.
  rewrite mask_mod, Z.shiftl_mul_pow2, Z.shiftr_div_pow2, numProbs_eq, Z.pow_add_r by (done || lia).
  assert (0 < 2 ^ lp props) by (apply Z.pow_pos_nonneg; lia). assert (0 < 2 ^ lc props) by (apply Z.pow_pos_nonneg; lia).
  pose proof (Z.mod_pos_bound pos (2 ^ lp props) ltac:(lia)).
  assert (0 <= byte / 2 ^ (8 - lc props) < 2 ^ lc props).
  { unfold is_byte in Hb. assert (2 ^ 8 = 2 ^ (8 - lc props) * 2 ^ lc props) as Hsplit
      by (rewrite <- Z.pow_add_r by lia; f_equal; lia).
    assert (0 < 2 ^ (8 - lc props)) by (apply Z.pow_pos_nonneg; lia).
    split; [apply Z.div_pos; lia|]. apply Z.div_lt_upper_bound; lia. }
  clear small. generalize dependent (2 ^ lp props). generalize dependent (2 ^ lc props). intros a Ha Hq b Hb' Hm. nia.
Qed.

Lemma literal_safe v : vars_ok outSize v -> nowPos v < outSize ->
  safe N outSize (literal props v) (fun v' => vars_ok outSize v' /\ nowPos v < nowPos v').
Proof.
  intros [Hp Hprev Hst H0 H1 H2 H3] Hlt. unfold literal.
  destruct (literal_index (nowPos v) (previousByte v) ltac:(lia) Hprev) as [Hi1 Hi2].
  set (prob := Literal + _) in *. apply safe_bind.
  assert (Hrest : forall symbol, 1 <= symbol -> safe N outSize
    (let* symbol := plain_loop 8 prob symbol in
     PutOut (nowPos v) (u8 symbol)
       (Ret (Vars (nowPos v + 1) (u8 symbol) (if state v <? 4 then 0 else if state v <? 10 then state v - 3 else state v - 6)
          (rep0 v) (rep1 v) (rep2 v) (rep3 v))))
    (fun v' => vars_ok outSize v' /\ nowPos v < nowPos v')).
  { intros symbol Hs. apply safe_bind. eapply safe_mono; [apply plain_safe; simpl; lia|]. intros x _. cbn [safe nowPos].
    split; [lia|split; [apply u8_range|]]. split; [|lia].
    split; cbn [nowPos previousByte state rep0 rep1 rep2 rep3]; [lia|apply u8_range| |..].
    - destruct (Z.ltb_spec (state v) 4), (Z.ltb_spec (state v) 10); lia.
    - unfold rep_ok in *. lia.
    - unfold rep_ok in *. lia.
    - unfold rep_ok in *. lia.
    - unfold rep_ok in *. lia. }
  consts. destruct (Z.leb_spec 7 (state v)).
  - apply get_safe; [done|lia|done|]. intros x Hx. eapply safe_mono; [apply matched_safe; simpl; lia|].
    intros s Hs. by apply Hrest.
  - cbn [safe]. by apply Hrest.
Qed.

Lemma step_safe v : vars_ok outSize v -> nowPos v < outSize -> safe N outSize (step props outSize v) (progress outSize v).
Proof.
  intros Hv Hlt. pose proof numProbs_bound as HN. unfold step, posStateMask. pose proof valid as (_ & _ & Hpb).
  rewrite mask_mod by lia. set (posState := nowPos v mod 2 ^ pb props).
  assert (HpS : 0 <= posState < 16).
  { pose proof (Z.mod_pos_bound (nowPos v) (2 ^ pb props) ltac:(apply Z.pow_pos_nonneg; lia)).
    assert (2 ^ pb props <= 2 ^ 4) by (apply Z.pow_le_mono_r; lia). lia. }
  clearbody posState. pose proof (literal_safe v Hv Hlt) as Hlit.
  destruct v as [np pr st r0 r1 r2 r3]. destruct Hv as [H1 H2 H3 H4 H5 H6 H7].
  cbn [nowPos previousByte state rep0 rep1 rep2 rep3] in *. consts. rewrite !Z.shiftl_mul_pow2 by lia.
  assert (Hrep : forall st' a b c d, 7 <= st' < 12 -> rep_ok np a -> rep_ok np b -> rep_ok np c -> rep_ok np d ->
    safe N outSize (let* len := length_ 1332 posState in match_ outSize len (Vars np pr st' a b c d))
      (progress outSize (Vars np pr st r0 r1 r2 r3))).
  { intros st' a b c d Hst Ha Hb Hc Hd. apply safe_bind. eapply safe_mono; [apply length_safe; lia|].
    intros len Hlen. cbn beta in Hlen. apply (match_safe N outSize small len (Vars np pr st' a b c d)); [lia|lia|].
    split_and!; cbn; try done; try lia. right. by split. }
  assert (Hst7 : 7 <= (if st <? 7 then 8 else 11) < 12) by (destruct (st <? 7); lia).
  cbn [safe]. split; [lia|]. intros [].
  { apply safe_bind. eapply safe_mono; [exact Hlit|]. done. }
  cbn [safe]. split; [lia|]. intros [].
  { apply safe_bind. eapply safe_mono; [apply length_safe; lia|]. intros len Hlen. cbn beta in Hlen.
    apply (match_safe N outSize small len (Vars np pr _ r0 r0 r1 r2)); [lia|lia|].
    split_and!; cbn; try done; try lia. left. destruct (st <? 7); lia. }
  cbn [safe]. split; [lia|]. intros []; [|cbn [safe]; split; [lia|intros []]]; cbn [safe].
  - split; [lia|]. intros []; [|by apply Hrep]. destruct (Z.eqb_spec np 0); [done|].
    apply get_safe; [done|lia|done|]. intros x Hx. cbn [safe progress]. split; [lia|split; [done|]].
    split; [|cbn; lia]. split; cbn; [lia|done|destruct (st <? 7); lia|..]; unfold rep_ok in *; lia.
  - by apply Hrep.
  - split; [lia|]. intros []; by apply Hrep.
Qed.

Lemma loop_safe fuel : forall v, vars_ok outSize v -> outSize <= nowPos v + Z.of_nat fuel ->
  safe N outSize (decode_loop props outSize fuel v) (vars_ok outSize).
Proof.
  induction fuel as [|f IH]; intros v Hv Hf; cbn [decode_loop];
    (destruct (Z.ltb_spec (nowPos v) outSize); [|done]); [lia|].
  apply safe_bind. eapply safe_mono; [by apply step_safe|]. intros [v'|] Hprog; cbn [progress safe] in *; [|done].
  destruct Hprog as [Hv' Hgt]. apply IH; [done|lia].
Qed.

Lemma decode_safe : safe N outSize (decode props outSize) (vars_ok outSize).
Proof.
  unfold decode. apply safe_bind. eapply safe_mono; [apply loop_safe|].
  - unfold start. split; cbn; unfold rep_ok, is_byte; lia.
  - cbn [start nowPos]. lia.
  - done.
Qed.
End Loop.

(** ** The decoder *)

Lemma read_byte_ok N outSize inStream s : decoder_ok N outSize inStream s ->
  match read_byte inStream s with
  | Finished _ s' | Failed s' => decoder_ok N outSize inStream s'
  | _ => False
  end.
Proof.
  intros [H1 H2 H3 H4 H5 H6]. unfold read_byte. destruct (Z.eqb_spec (Buffer s) (inSize inStream)); [by split|].
  rewrite at_index_nth by (unfold inSize in *; lia). split; cbn; try done; lia.
Qed.

Lemma rc_init_ok N outSize inStream n : forall s, decoder_ok N outSize inStream s ->
  match rc_init_loop inStream n s with
  | Finished _ s' | Failed s' => decoder_ok N outSize inStream s'
  | _ => False
  end.
Proof.
  induction n as [|n IH]; intros s Hs; cbn [rc_init_loop]; [done|]. pose proof (read_byte_ok _ _ _ _ Hs).
  destruct (read_byte inStream s); cbn [and_then]; [by apply IH|done..].
Qed.

Lemma init_probs_ok props p : props_ok props -> LzmaGetNumProbs props <= Z.of_nat (length p) ->
  exists p', init_probs props p = Some p' /\ length p' = length p /\
  take (Z.to_nat (LzmaGetNumProbs props)) p' = replicate (Z.to_nat (LzmaGetNumProbs props)) 1024.
Proof.
  intros Hp Hlen. unfold init_probs. assert (Literal + u32 (Z.shiftl LZMA_LIT_SIZE (lc props + lp props)) = LzmaGetNumProbs props) as ->.
  { unfold LzmaGetNumProbs. consts. destruct Hp as (H1 & H2 & _). rewrite Z.shiftl_mul_pow2 by lia.
    assert (0 < 2 ^ (lc props + lp props)) by (apply Z.pow_pos_nonneg; lia).
    assert (2 ^ (lc props + lp props) <= 2 ^ 12) by (apply Z.pow_le_mono_r; lia). by rewrite u32_small by lia. }
  destruct (Z.ltb_spec (Z.of_nat (length p)) (LzmaGetNumProbs props)); [lia|]. eexists. split; [reflexivity|]. split.
  - rewrite length_app, length_replicate, length_drop. lia.
  - rewrite take_app_length' by (by rewrite length_replicate). done.
Qed.

Lemma start_ok props p out inStream : props_ok props -> LzmaGetNumProbs props <= Z.of_nat (length p) -> Forall is_byte out ->
  exists p', init_probs props p = Some p' /\
  decoder_ok (LzmaGetNumProbs props) (Z.of_nat (length out)) inStream (Decoder p' 0 0xFFFFFFFF 0 out).
Proof.
  intros Hp Hlen Hout. destruct (init_probs_ok props p Hp Hlen) as (p' & Hi & Hl & Ht). exists p'. split; [done|].
  split; cbn; try done; unfold inSize, range_ok; try lia. rewrite Ht. apply Forall_replicate. unfold prob_ok. lia.
Qed.

(** The decoder is safe for every input.  With valid properties and room for
    the probabilities, [LzmaDecode] ends, on any input and any output area of
    less than 4 GiB, without an index outside the three arrays: it either
    finishes, having read no more than the input and written no more than the
    output, or reports an error; the output area keeps its size. *)
Lemma LzmaDecode_safe inStream props p out :
  props_ok props -> LzmaGetNumProbs props <= Z.of_nat (length p) ->
  Forall is_byte out -> Z.of_nat (length out) < 2 ^ 32 ->
  match LzmaDecode inStream props p out with
  | Finished v s => 0 <= nowPos v <= Z.of_nat (length out) /\ 0 <= Buffer s <= inSize inStream /\
      length (outStream s) = length out /\ Forall is_byte (outStream s)
  | Failed s => length (outStream s) = length out /\ Forall is_byte (outStream s)
  | OutOfBounds | OutOfFuel => False
  end.
Proof.
  intros Hp Hlen Hout Hsmall. unfold LzmaDecode.
  destruct (start_ok props p out inStream Hp Hlen Hout) as (p' & -> & Hs).
  pose proof (rc_init_ok _ _ _ 5 _ Hs) as Hi. destruct (rc_init_loop inStream 5 _) as [[] s|s| |]; cbn [and_then]; [| |done..].
  2: { destruct Hi as [_ _ _ _ H5 H6]. split; [lia|done]. }
  pose proof (run_safe _ _ inStream _ _ s (decode_safe props (Z.of_nat (length out)) Hp ltac:(lia)) Hi) as Hrun.
  destruct (run inStream _ s) as [v s'|s'| |]; try done.
  - destruct Hrun as [Hv [H1 H2 H3 H4 H5 H6]]. split; [apply Hv|]. split; [done|]. split; [lia|done].
  - destruct Hrun as [H1 H2 H3 H4 H5 H6]. split; [lia|done].
Qed.

(** ** [ulzma] *)

(** The formula in the comment of [LzmaDecodeProperties] is what its loops do. *)
Lemma LzmaDecodeProperties_formula data size : is_byte (data 0) ->
  LzmaDecodeProperties data size =
  if (size <? 5) || (225 <=? data 0) then None
  else Some (Properties (data 0 mod 9) (data 0 / 9 mod 5) (data 0 / 9 / 5)).
Proof.
  intros Hb. unfold LzmaDecodeProperties. change LZMA_PROPERTIES_SIZE with 5. destruct (size <? 5); [done|]. cbn [orb].
  change (9 * 5 * 5) with 225. destruct (Z.leb_spec 225 (data 0)); [done|].
  assert (Hall : forallb (fun x =>
    let '(n45, prop0) := prop_loop 256 (9 * 5) 0 x in let '(n9, prop0) := prop_loop 256 9 0 prop0 in
    (prop0 =? x mod 9) && (n9 =? x / 9 mod 5) && (n45 =? x / 9 / 5)) (seqZ 0 225) = true) by (vm_compute; reflexivity).
  rewrite forallb_forall in Hall. specialize (Hall (data 0)).
  destruct (prop_loop 256 (9 * 5) 0 (data 0)) as [n45 p1]. destruct (prop_loop 256 9 0 p1) as [n9 p2].
  rewrite !andb_true_iff, !Z.eqb_eq in Hall. destruct Hall as [[-> ->] ->]; [|done].
  apply list_elem_of_In, elem_of_seqZ. unfold is_byte in Hb. lia.
Qed.

Lemma LzmaDecodeProperties_ok data size p : is_byte (data 0) -> LzmaDecodeProperties data size = Some p -> props_ok p.
Proof.
  intros Hb. rewrite LzmaDecodeProperties_formula by done. unfold is_byte in Hb.
  destruct (size <? 5); cbn [orb]; [done|]. destruct (Z.leb_spec 225 (data 0)); [done|]. intros [= <-].
  unfold props_ok. cbn [lc lp pb]. lia.
Qed.

(** C5: decompression is safe for every input.  Whatever bytes are at [src] (and
    whatever the stack held in [scratch]), [ulzma] ends; it reads nothing of the
    input but the 13 bytes of the header and the [srclen] bytes behind it (so up to
    13 bytes past the [srclen] bytes at [src], as the code counts), with all indices
    of the decoder inside their arrays, the input's included and the probabilities
    in the 15980 bytes of [scratch]; it changes no byte outside the [maxlen] bytes at
    [dst], and returns -1 or the size in the header, which is at most [maxlen]. *)
Theorem ulzma_safe temp dst maxlen src srclen m :
  bytes_ok m -> length temp = Z.to_nat (15980 / 2) ->
  exists r m', ulzma temp dst maxlen src srclen m = Some (r, m') /\ bytes_ok m' /\
    (forall x, x < dst \/ dst + maxlen <= x -> read8 m' x = read8 m x) /\
    (r = -1 \/ read32 m (src + 5) <= maxlen /\ r = s32 (read32 m (src + 5))).
Proof.
  intros Hm Htemp. unfold ulzma. change LZMA_PROPERTIES_SIZE with 5.
  destruct (LzmaDecodeProperties _ 5) as [props|] eqn:Hp; [|exists (-1), m; auto 6].
  apply LzmaDecodeProperties_ok in Hp; [|apply Hm].
  destruct (Z.ltb_spec 15980 (LzmaGetNumProbs props * 2)); [exists (-1), m; auto 6|].
  destruct (Z.ltb_spec maxlen (read32 m (src + 5))); [exists (-1), m; auto 6|].
  pose proof (read32_range (src + 5) m Hm) as Hr. set (dstlen := read32 m (src + 5)) in *.
  pose proof (LzmaDecode_safe (read_bytes (Z.to_nat srclen) (src + 5 + 8) m) props temp
    (read_bytes (Z.to_nat dstlen) dst m) Hp) as Hsafe. rewrite length_read_bytes, Htemp in Hsafe.
  specialize (Hsafe ltac:(lia) (read_bytes_ok _ _ _ Hm) ltac:(lia)).
  assert (Hwrite : forall l, length l = Z.to_nat dstlen -> forall x, x < dst \/ dst + maxlen <= x ->
    read8 (write_bytes dst l m) x = read8 m x) by (intros l Hl x Hx; apply read8_write_bytes_out; lia).
  destruct (LzmaDecode _ _ _ _) as [v s|s| |]; try done.
  - destruct Hsafe as (_ & _ & Hl & _). do 2 eexists. split; [reflexivity|]. split; [by apply bytes_ok_write_bytes|].
    split; [by apply Hwrite|by right].
  - destruct Hsafe as [Hl _]. do 2 eexists. split; [reflexivity|]. split; [by apply bytes_ok_write_bytes|].
    split; [by apply Hwrite|by left].
Qed.

Lemma ulzma_safe_witness : exists r m',
  ulzma (replicate (Z.to_nat 7990) 0) 0x4000 64 0x1000 36 (write_bytes 0x1000 hello_lzma ∅) = Some (r, m') /\
  forall x, x < 0x4000 \/ 0x4000 + 64 <= x -> read8 m' x = read8 (write_bytes 0x1000 hello_lzma ∅) x.
Proof.
  destruct (ulzma_safe (replicate (Z.to_nat 7990) 0) 0x4000 64 0x1000 36 (write_bytes 0x1000 hello_lzma ∅))
    as (r & m' & H1 & _ & H2 & _); [apply bytes_ok_write_bytes, bytes_ok_empty|apply length_replicate|].
  exists r, m'. split; [exact H1|exact H2].
Defined.

Example ulzma_hello :
  match ulzma (replicate (Z.to_nat 7990) 0) 0x4000 64 0x1000 36 (write_bytes 0x1000 hello_lzma ∅) with
  | Some (r, m) => r = 48 /\ read_bytes 48 0x4000 m = hello_text
  | None => False
  end.
Proof. vm_compute. split; reflexivity. Qed.

(** The decoder is told that [srclen] bytes follow the header, although the
    header is part of the [srclen] bytes: a file that ends too early is decoded
    from the bytes after it. *)
Example ulzma_reads_past_src :
  let m t := write_bytes (0x1000 + 36) t (write_bytes 0x1000 (take 36 hello_lzma) ∅) in
  let run t := match ulzma (replicate (Z.to_nat 7990) 0) 0x4000 64 0x1000 36 (m t) with
               | Some (r, m) => Some (r, read_bytes 48 0x4000 m)
               | None => None
               end in
  run (drop 36 hello_lzma) = Some (48, hello_text) /\ run (replicate 13 0) <> run (drop 36 hello_lzma).
Proof. cbv zeta. split; vm_compute; [reflexivity|discriminate]. Qed.
