(* ===== verification/LzmaRange.v ===== *)
(** * The LZMA decoder inverts range coding ([Lzma])

    [encode] replays a program on given bits and keeps the interval a range
    encoder would: its low end, its size and the number of bytes shifted out.
    When the input is a number of the final interval, the decoder finds exactly
    the given bits. *)
From S2P Require Import Prelude Machine Bytes Lzma LzmaCorrect.
Local Open Scope lzma_scope.

(** ** The encoder *)

Record encoder := Encoder
  { e_probs : list Z; e_low : Z; e_range : Z; e_shifts : nat; e_out : list Z }.

Definition e_normalize (e : encoder) : encoder :=
  if e_range e <? kTopValue
  then Encoder (e_probs e) (e_low e * 256) (e_range e * 256) (S (e_shifts e)) (e_out e) else e.

Fixpoint encode {A} (c : prog A) (bits : list bool) (e : encoder) : option (A * encoder * list bool) :=
  match c with
  | Ret x => Some (x, e, bits)
  | IfBit0 p k =>
    match bits with
    | [] => None
    | b :: bits =>
      let e := e_normalize e in
      match at_index (e_probs e) p with
      | None => None
      | Some prob =>
        let bound := e_range e / kBitModelTotal * prob in
        if b then
          encode (k true) bits
            (Encoder (<[Z.to_nat p := UpdateBit0 prob]> (e_probs e)) (e_low e) bound (e_shifts e) (e_out e))
        else
          encode (k false) bits
            (Encoder (<[Z.to_nat p := UpdateBit1 prob]> (e_probs e)) (e_low e + bound) (e_range e - bound)
               (e_shifts e) (e_out e))
      end
    end
  | DirectBit k =>
    match bits with
    | [] => None
    | b :: bits =>
      let e := e_normalize e in
      let half := e_range e / 2 in
      encode (k b) bits
        (Encoder (e_probs e) (if b then e_low e + half else e_low e) half (e_shifts e) (e_out e))
    end
  | Normalize k => encode k bits (e_normalize e)
  | GetOut i k => match at_index (e_out e) i with None => None | Some x => encode (k x) bits e end
  | PutOut i x k =>
    match at_index (e_out e) i with
    | None => None
    | Some _ => encode k bits (Encoder (e_probs e) (e_low e) (e_range e) (e_shifts e) (<[Z.to_nat i := x]> (e_out e)))
    end
  | DataError | Endless => None
  end.

(** The stream: a zero byte and the number in [4 + shifts] bytes. *)
Definition be_list (n : nat) (v : Z) : list Z := rev (le_list n v).
Definition stream (e : encoder) : list Z := 0 :: be_list (4 + e_shifts e) (e_low e).

(** ** Intervals nest *)

Section Encoder.
Context (N outSize : Z).

Record encoder_ok (e : encoder) : Prop := {
  eok_probs : Forall prob_ok (take (Z.to_nat N) (e_probs e));
  eok_nprobs : N <= Z.of_nat (length (e_probs e));
  eok_range : range_ok (e_range e);
  eok_low : 0 <= e_low e;
  eok_out : Forall is_byte (e_out e);
  eok_nout : Z.of_nat (length (e_out e)) = outSize
}.

Definition inside (e e' : encoder) : Prop :=
  exists k, e_shifts e' = (k + e_shifts e)%nat /\
  e_low e * 256 ^ Z.of_nat k <= e_low e' /\ e_low e' + e_range e' <= (e_low e + e_range e) * 256 ^ Z.of_nat k.

Lemma inside_trans e1 e2 e3 : inside e1 e2 -> inside e2 e3 -> inside e1 e3.
Proof.
  intros (k & Hk & Hl & Hh) (j & Hj & Hl' & Hh'). exists (j + k)%nat. split; [lia|].
  rewrite Nat2Z.inj_add, Z.pow_add_r by lia. assert (0 < 256 ^ Z.of_nat j) by (apply Z.pow_pos_nonneg; lia).
  split; nia.
Qed.
Lemma inside_step e e' : e_shifts e' = e_shifts e -> e_low e <= e_low e' ->
  e_low e' + e_range e' <= e_low e + e_range e -> inside e e'.
Proof. intros H1 H2 H3. exists O. simpl. split; [done|lia]. Qed.
Lemma inside_normalize e : inside e (e_normalize e).
Proof.
  unfold e_normalize. destruct (_ <? _); [|apply inside_step; lia]. exists 1%nat. simpl. split; [done|lia].
Qed.

Lemma e_normalize_ok e : encoder_ok e -> encoder_ok (e_normalize e) /\ 2 ^ 24 <= e_range (e_normalize e).
Proof.
  intros [H1 H2 H3 H4 H5 H6]. unfold e_normalize, range_ok in *. consts. destruct (Z.ltb_spec (e_range e) (2 ^ 24)).
  - split; [|simpl; lia]. split; simpl; try done; unfold range_ok; lia.
  - split; [|done]. by split.
Qed.

Lemma probe_ok e p : encoder_ok e -> 0 <= p < N -> exists prob, at_index (e_probs e) p = Some prob /\ prob_ok prob.
Proof. intros [H1 H2 H3 H4 H5 H6] Hp. apply (at_index_some _ _ (Z.to_nat N)); [done|lia|lia]. Qed.

Lemma e_bit_ok e p x low range : encoder_ok e -> prob_ok x -> range_ok range -> 0 <= low ->
  encoder_ok (Encoder (<[Z.to_nat p := x]> (e_probs e)) low range (e_shifts e) (e_out e)).
Proof.
  intros [H1 H2 H3 H4 H5 H6] Hx Hr Hl. split; simpl; try done; [by apply Forall_take_insert|by rewrite length_insert].
Qed.

Lemma bound_ok r p : 2 ^ 24 <= r < 2 ^ 32 -> prob_ok p ->
  range_ok (r / 2048 * p) /\ range_ok (r - r / 2048 * p) /\ u32 (Z.shiftr r 11 * p) = r / 2048 * p.
Proof.
  intros Hr Hp. destruct (shiftr_bound r p Hr Hp) as (H1 & H2 & H3). cbv zeta in *. by rewrite H3 in *.
Qed.

(** One step of [encode] on a safe program. *)
Lemma encode_spec {A} (c : prog A) (Q : A -> Prop) : forall bits e x e' rest,
  safe N outSize c Q -> encoder_ok e -> encode c bits e = Some (x, e', rest) -> inside e e' /\ encoder_ok e' /\ Q x.
Proof.
  induction c as [x0|p k IH|k IH|k IH|i k IH|i y k IH| |]; intros bits e x e' rest Hc He Hrun; cbn [safe] in Hc;
    cbn [encode] in Hrun; try done.
  - injection Hrun as -> -> ->. split; [apply inside_step; lia|done].
  - destruct Hc as [Hp Hk]. destruct bits as [|b bits]; [done|].
    destruct (e_normalize_ok e He) as [Hn Hr]. pose proof (inside_normalize e) as Hin. set (n := e_normalize e) in *.
    destruct (probe_ok n p Hn Hp) as (prob & Hat & Hprob). rewrite Hat in Hrun. consts.
    pose proof Hn as [_ _ [Hr1 Hr2] Hlow _ _].
    destruct (bound_ok (e_range n) prob (conj Hr Hr2) Hprob) as (Hb0 & Hb1 & _). unfold range_ok in Hb0, Hb1.
    destruct b; (edestruct IH as (Hi & Hok & HQ); [apply Hk| |exact Hrun|]);
      [apply e_bit_ok; [done|by apply UpdateBit0_ok|done|done]| |apply e_bit_ok; [done|by apply UpdateBit1_ok|done|lia]|];
      (split; [|done]); eapply inside_trans; [exact Hin| |exact Hin|]; eapply inside_trans; [|exact Hi| |exact Hi];
      apply inside_step; simpl; lia.
  - destruct bits as [|b bits]; [done|]. destruct (e_normalize_ok e He) as [Hn Hr].
    pose proof (inside_normalize e) as Hin. set (n := e_normalize e) in *. pose proof Hn as [H1 H2 H3 H4 H5 H6].
    unfold range_ok in H3. edestruct IH as (Hi & Hok & HQ); [apply Hc| |exact Hrun|].
    { split; simpl; try done; [unfold range_ok; lia|destruct b; lia]. }
    split; [|done]. eapply inside_trans; [exact Hin|]. eapply inside_trans; [|exact Hi].
    apply inside_step; simpl; destruct b; lia.
  - destruct (e_normalize_ok e He) as [Hn Hr]. destruct (IH _ _ _ _ _ Hc Hn Hrun) as (Hi & Hok & HQ).
    split; [|done]. eapply inside_trans; [apply inside_normalize|done].
  - destruct Hc as [Hi Hk]. destruct (at_index_some (e_out e) is_byte (length (e_out e)) i) as (v & Hat & Hv);
      [rewrite firstn_all; apply He|pose proof (eok_nout _ He); lia|done|]. rewrite Hat in Hrun. eauto.
  - destruct Hc as (Hi & Hy & Hk). destruct (at_index (e_out e) i); [|done].
    destruct He as [H1 H2 H3 H4 H5 H6]. edestruct IH as (Hin & Hok & HQ); [exact Hk| |exact Hrun|].
    { split; simpl; try done; [by apply Forall_insert|by rewrite length_insert]. }
    done.
Qed.
End Encoder.

(** ** The decoder follows the encoder *)

Lemma nth_le_list n : forall i v, (i < n)%nat -> nth i (le_list n v) 0 = (v / 256 ^ Z.of_nat i) mod 256.
Proof.
  induction n as [|n IH]; intros i v Hi; [lia|]. destruct i as [|i]; cbn [le_list nth].
  - change (256 ^ Z.of_nat 0) with 1. by rewrite Z.div_1_r.
  - rewrite IH, Nat2Z.inj_succ, Z.pow_succ_r, Z.div_div by (try apply Z.pow_pos_nonneg; lia). done.
Qed.
Lemma nth_be_list n i v : (i < n)%nat -> nth i (be_list n v) 0 = (v / 256 ^ Z.of_nat (n - 1 - i)) mod 256.
Proof.
  intros Hi. unfold be_list. rewrite rev_nth by (by rewrite length_le_list). rewrite length_le_list.
  rewrite nth_le_list by lia. do 4 f_equal. lia.
Qed.

Section Follow.
Context (N outSize : Z) (num : Z) (K : nat) (tail : list Z).
Context (num_fits : 0 <= num < 256 ^ Z.of_nat (4 + K)).

Definition input : list Z := 0 :: be_list (4 + K) num ++ tail.

(** The top of the number, after the bytes that the encoder has not shifted out. *)
Definition top (j : nat) : Z := num / 256 ^ Z.of_nat (K - j).

Definition within (e : encoder) : Prop :=
  (e_shifts e <= K)%nat /\ e_low e <= top (e_shifts e) < e_low e + e_range e.

Definition follows (e : encoder) (s : decoder) : Prop :=
  Probs s = e_probs e /\ outStream s = e_out e /\ Range s = e_range e /\
  Buffer s = 5 + Z.of_nat (e_shifts e) /\ Code s = top (e_shifts e) - e_low e.

Lemma top_shift k j : (k + j <= K)%nat -> top j = top (k + j) / 256 ^ Z.of_nat k.
Proof.
  intros Hk. unfold top. rewrite Z.div_div by (try apply Z.pow_pos_nonneg; lia).
  rewrite <- Z.pow_add_r by lia. do 2 f_equal. lia.
Qed.

Lemma within_back e e' : inside e e' -> within e' -> within e.
Proof.
  intros (k & Hk & Hl & Hh) [HK Ht]. split; [lia|]. rewrite (top_shift k) by lia. rewrite <- Hk.
  assert (0 < 256 ^ Z.of_nat k) by (apply Z.pow_pos_nonneg; lia).
  split; [apply Z.div_le_lower_bound; lia|apply Z.div_lt_upper_bound; lia].
Qed.

Lemma input_byte j : (j < K)%nat -> nth (5 + j) input 0 = top (S j) mod 256 /\ 5 + Z.of_nat j < inSize input.
Proof.
  intros Hj. change (nth (5 + j) input 0) with (nth (4 + j) (be_list (4 + K) num ++ tail) 0).
  assert (Hlen : length (be_list (4 + K) num) = (4 + K)%nat) by (unfold be_list; by rewrite length_rev, length_le_list).
  split.
  - rewrite app_nth1, nth_be_list by lia. unfold top. by replace (4 + K - 1 - (4 + j))%nat with (K - S j)%nat by lia.
  - unfold inSize, input. cbn [length]. rewrite length_app, Hlen. lia.
Qed.

Lemma code_byte c byte : 0 <= c < 2 ^ 24 -> 0 <= byte < 256 -> u32 (Z.lor (u32 (Z.shiftl c 8)) byte) = c * 256 + byte.
Proof.
  intros Hc Hb. rewrite Z.shiftl_mul_pow2, (u32_small (c * 2 ^ 8)) by lia. rewrite lor_add_shifted by lia.
  rewrite u32_small by lia. lia.
Qed.

Lemma code_step q : 0 <= q < 2 ^ 32 -> u32 (Z.lor (u32 (Z.shiftl (q / 256) 8)) (q mod 256)) = q.
Proof. intros Hq. rewrite code_byte; lia. Qed.

Lemma normalize_follows e s : encoder_ok N outSize e -> follows e s -> within (e_normalize e) ->
  exists s', rc_normalize input s = Finished tt s' /\ follows (e_normalize e) s'.
Proof.
  intros He (HP & HO & HR & HB & HC) [HK Ht]. unfold e_normalize, rc_normalize in *. rewrite HR in *. consts.
  destruct (Z.ltb_spec (e_range e) (2 ^ 24)); [|by exists s].
  cbn [e_shifts e_low e_range] in HK, Ht. unfold read_byte.
  destruct (input_byte (e_shifts e) HK) as [Hbyte Hsize]. destruct (Z.eqb_spec (Buffer s) (inSize input)); [lia|].
  rewrite at_index_nth by (unfold inSize in *; lia). cbn [and_then].
  eexists. split; [reflexivity|]. pose proof (eok_range _ _ _ He) as Hr. unfold range_ok in Hr.
  assert (Htop : top (e_shifts e) = top (S (e_shifts e)) / 256).
  { by rewrite (top_shift 1) by lia. }
  split_and!; cbn [with_range Probs outStream Range Buffer Code]; try done.
  - cbn [e_range]. rewrite Z.shiftl_mul_pow2, u32_small by lia. lia.
  - cbn [e_shifts]. lia.
  - cbn [e_shifts e_low]. replace (Z.to_nat (Buffer s)) with (5 + e_shifts e)%nat by lia. rewrite Hbyte, HC.
    rewrite code_byte by lia. lia.
Qed.

(** On the bits the encoder was given, the decoder takes the same path. *)
Lemma run_follows {A} (c : prog A) (Q : A -> Prop) : forall bits e s x e' rest,
  safe N outSize c Q -> encoder_ok N outSize e -> encode c bits e = Some (x, e', rest) ->
  follows e s -> within e' -> exists s', run input c s = Finished x s' /\ follows e' s'.
Proof.
  induction c as [x0|p k IH|k IH|k IH|i k IH|i y k IH| |]; intros bits e s x e' rest Hc He Hrun Hs Hw; cbn [safe] in Hc;
    cbn [encode] in Hrun; cbn [run]; try done.
  - injection Hrun as -> -> ->. by exists s.
  - destruct Hc as [Hp Hk]. destruct bits as [|b bits]; [done|].
    destruct (e_normalize_ok _ _ e He) as [Hn Hr]. destruct (probe_ok _ _ _ p Hn Hp) as (prob & Hat & Hprob).
    rewrite Hat in Hrun. consts. pose proof (eok_range _ _ _ Hn) as [_ Hr2]. pose proof (eok_low _ _ _ Hn) as Hlow.
    destruct (bound_ok (e_range (e_normalize e)) prob (conj Hr Hr2) Hprob) as (Hb0 & Hb1 & Hb).
    set (bound := e_range (e_normalize e) / 2048 * prob) in *. unfold range_ok in Hb0, Hb1.
    assert (He1 : encoder_ok N outSize
      (if b then Encoder (<[Z.to_nat p := UpdateBit0 prob]> (e_probs (e_normalize e))) (e_low (e_normalize e)) bound
                   (e_shifts (e_normalize e)) (e_out (e_normalize e))
       else Encoder (<[Z.to_nat p := UpdateBit1 prob]> (e_probs (e_normalize e))) (e_low (e_normalize e) + bound)
              (e_range (e_normalize e) - bound) (e_shifts (e_normalize e)) (e_out (e_normalize e)))).
    { destruct b; apply e_bit_ok; try done; auto using UpdateBit0_ok, UpdateBit1_ok; lia. }
    assert (Hw1 : within (if b then Encoder (<[Z.to_nat p := UpdateBit0 prob]> (e_probs (e_normalize e))) (e_low (e_normalize e)) bound
                   (e_shifts (e_normalize e)) (e_out (e_normalize e))
       else Encoder (<[Z.to_nat p := UpdateBit1 prob]> (e_probs (e_normalize e))) (e_low (e_normalize e) + bound)
              (e_range (e_normalize e) - bound) (e_shifts (e_normalize e)) (e_out (e_normalize e)))).
    { destruct b; (eapply within_back; [|exact Hw]); exact (proj1 (encode_spec N outSize _ Q _ _ _ _ _ (Hk _) He1 Hrun)). }
    assert (Hwn : within (e_normalize e)).
    { destruct b; destruct Hw1 as [HK Ht]; cbn [e_shifts e_low e_range] in *; split; try done; lia. }
    destruct (normalize_follows e s He Hs Hwn) as (s1 & -> & HP & HO & HR & HB & HC). cbn [and_then].
    rewrite HP, Hat, HR, Hb. destruct Hw1 as [_ Hw1]. destruct Hwn as [_ Hwn].
    destruct b; cbn [e_shifts e_low e_range] in Hw1.
    + destruct (Z.ltb_spec (Code s1) bound); [|lia]. eapply IH; [apply Hk|exact He1|exact Hrun| |exact Hw].
      split_and!; done.
    + destruct (Z.ltb_spec (Code s1) bound); [lia|]. eapply IH; [apply Hk|exact He1|exact Hrun| |exact Hw].
      split_and!; cbn [Probs outStream Range Buffer Code e_probs e_out e_range e_shifts e_low]; try done.
      * rewrite u32_small by lia. done.
      * rewrite u32_small by lia. lia.
  - destruct bits as [|b bits]; [done|]. destruct (e_normalize_ok _ _ e He) as [Hn Hr].
    pose proof Hn as [H1 H2 H3 H4 H5 H6]. unfold range_ok in H3. set (half := e_range (e_normalize e) / 2) in *.
    match type of Hrun with encode _ _ ?e1 = _ => assert (He1 : encoder_ok N outSize e1) by
      (split; simpl; try done; [unfold range_ok; lia|destruct b; lia]);
      assert (Hw1 : within e1) by (eapply within_back; [exact (proj1 (encode_spec N outSize _ Q _ _ _ _ _ (Hc _) He1 Hrun))|exact Hw]) end.
    assert (Hwn : within (e_normalize e)).
    { destruct Hw1 as [HK Ht]. cbn [e_shifts e_low e_range] in *. split; [done|]. destruct b; lia. }
    destruct (normalize_follows e s He Hs Hwn) as (s1 & -> & HP & HO & HR & HB & HC). cbn [and_then].
    rewrite HR, Z.shiftr_div_pow2 by lia. change (2 ^ 1) with 2. fold half.
    destruct Hw1 as [_ Hw1]. destruct Hwn as [_ Hwn]. cbn [e_shifts e_low e_range] in Hw1.
    destruct b.
    + destruct (Z.leb_spec half (Code s1)); [|lia]. eapply IH; [apply Hc|exact He1|exact Hrun| |exact Hw].
      split_and!; cbn; try done. rewrite u32_small by lia. lia.
    + destruct (Z.leb_spec half (Code s1)); [lia|]. eapply IH; [apply Hc|exact He1|exact Hrun| |exact Hw].
      split_and!; cbn; done.
  - destruct (e_normalize_ok _ _ e He) as [Hn Hr].
    assert (Hwn : within (e_normalize e)) by (eapply within_back; [exact (proj1 (encode_spec N outSize _ Q _ _ _ _ _ Hc Hn Hrun))|exact Hw]).
    destruct (normalize_follows e s He Hs Hwn) as (s1 & -> & Hf). by eapply IH.
  - destruct Hc as [Hi Hk]. destruct Hs as (HP & HO & HR & HB & HC). rewrite HO.
    destruct (at_index_some (e_out e) is_byte (length (e_out e)) i) as (v & Hat & Hv);
      [rewrite firstn_all; apply He|pose proof (eok_nout _ _ _ He); lia|done|]. rewrite Hat in Hrun |- *.
    eapply IH; [by apply Hk|exact He|exact Hrun|done|exact Hw].
  - destruct Hc as (Hi & Hy & Hk). pose proof Hs as (HP & HO & HR & HB & HC). rewrite HO.
    destruct (at_index (e_out e) i); [|done]. destruct He as [H1 H2 H3 H4 H5 H6].
    eapply IH; [exact Hk| |exact Hrun| |exact Hw].
    + split; simpl; try done; [by apply Forall_insert|by rewrite length_insert].
    + split_and!; simpl; done.
Qed.

(** RC_INIT reads the zero byte and the top of the number. *)
Lemma rc_init_follows p out : exists s,
  rc_init_loop input 5 (Decoder p 0 0xFFFFFFFF 0 out) = Finished tt s /\ follows (Encoder p 0 0xFFFFFFFF 0 out) s.
Proof.
  assert (Hstep : forall j, (j <= 4)%nat -> exists s,
    rc_init_loop input (S j) (Decoder p 0 0xFFFFFFFF 0 out) = Finished tt s /\
    s = Decoder p (1 + Z.of_nat j) 0xFFFFFFFF (num / 256 ^ Z.of_nat (4 + K - j)) out).
  { assert (Hread : forall n s, rc_init_loop input (S n) s =
      and_then (rc_init_loop input n s) (fun _ s' => read_byte input s')).
    { induction n as [|n IHn]; intros s; [cbn; by destruct (read_byte input s) as [[]| | |]|].
      change (rc_init_loop input (S (S n)) s) with (and_then (read_byte input s) (fun _ s => rc_init_loop input (S n) s)).
      change (rc_init_loop input (S n) s) with (and_then (read_byte input s) (fun _ s => rc_init_loop input n s)).
      destruct (read_byte input s); cbn [and_then]; [apply IHn|done..]. }
    assert (Hlen : inSize input = 5 + Z.of_nat K + Z.of_nat (length tail)).
    { unfold inSize, input, be_list. cbn [length]. rewrite length_app, length_rev, length_le_list. lia. }
    induction j as [|j IHj]; intros Hj.
    - rewrite Hread. cbn [rc_init_loop and_then]. unfold read_byte. cbn [Buffer Probs Range Code outStream].
      destruct (Z.eqb_spec 0 (inSize input)); [lia|]. rewrite at_index_nth by (unfold inSize in *; lia). eexists. split; [reflexivity|]. f_equal.
      rewrite Nat.sub_0_r, Z.div_small by done. reflexivity.
    - destruct IHj as (s & Hs & ->); [lia|]. rewrite Hread, Hs. cbn [and_then]. unfold read_byte. cbn [Buffer Probs Range Code outStream].
      destruct (Z.eqb_spec (1 + Z.of_nat j) (inSize input)); [lia|].
      rewrite at_index_nth by (unfold inSize in *; lia). eexists. split; [reflexivity|].
      replace (Z.to_nat (1 + Z.of_nat j)) with (S j) by lia. unfold input at 1. cbn [nth].
      rewrite app_nth1 by (unfold be_list; rewrite length_rev, length_le_list; lia). rewrite nth_be_list by lia.
      replace (4 + K - 1 - j)%nat with (4 + K - S j)%nat by lia.
      assert (Hdiv : num / 256 ^ Z.of_nat (4 + K - j) = num / 256 ^ Z.of_nat (4 + K - S j) / 256).
      { rewrite Z.div_div by (try apply Z.pow_pos_nonneg; lia). rewrite Z.mul_comm, <- Z.pow_succ_r by lia.
        do 2 f_equal. lia. }
      rewrite Hdiv. set (q := num / 256 ^ Z.of_nat (4 + K - S j)).
      assert (Hq : 0 <= q < 2 ^ 32).
      { assert (Hpow : 0 < 256 ^ Z.of_nat (4 + K - S j)) by (apply Z.pow_pos_nonneg; lia).
        split; [apply Z.div_pos; [apply num_fits|exact Hpow]|]. apply Z.div_lt_upper_bound; [exact Hpow|].
        eapply Z.lt_le_trans; [apply num_fits|]. change (2 ^ 32) with (256 ^ 4). rewrite <- Z.pow_add_r by (clear; lia).
        apply Z.pow_le_mono_r; [done|]. clear -Hj. lia. }
      clearbody q. rewrite code_step by exact Hq. f_equal. clear. lia. }
  destruct (Hstep 4%nat ltac:(lia)) as (s & Hs & ->). eexists. split; [exact Hs|].
  split_and!; cbn; try done. unfold top. rewrite Z.sub_0_r, Nat.sub_0_r. do 2 f_equal; lia.
Qed.
End Follow.
