(* ===== verification/LzmaPackets.v ===== *)
(** * The LZMA decoder decodes what is encoded ([Lzma])

    A reference encoder: a text is a list of packets (literals, matches with a
    new distance, matches with one of the last four distances), the packets are
    bits, and the bits are range coded ([LzmaRange]).  The decoder gives the text
    back. *)
From S2P Require Import Prelude Machine Bytes Lzma LzmaCorrect LzmaRange.
Local Open Scope lzma_scope.

(** ** Packets and their meaning *)

Inductive packet :=
| Lit (byte : Z)
| Match (dist : Z) (len : nat)
| ShortRep
| Rep (which : nat) (len : nat).

(** The text so far and the last four distances. *)
Definition window := (list Z * (Z * Z * Z * Z))%type.

Fixpoint copy (dist : Z) (len : nat) (text : list Z) : list Z :=
  match len with
  | O => text
  | S n => copy dist n (text ++ [nth (length text - Z.to_nat dist) text 0])
  end.

Definition in_text (text : list Z) (dist : Z) : bool := (1 <=? dist) && (dist <=? Z.of_nat (length text)).
Definition good_len (len : nat) : bool := (2 <=? len)%nat && (len <=? 273)%nat.

Definition packet_step (p : packet) (w : window) : option window :=
  let '(text, (a, b, c, d)) := w in
  match p with
  | Lit x => if (0 <=? x) && (x <? 256) then Some (text ++ [x], (a, b, c, d)) else None
  | Match dist len =>
    if in_text text dist && good_len len then Some (copy dist len text, (dist, a, b, c)) else None
  | ShortRep => if in_text text a then Some (copy a 1 text, (a, b, c, d)) else None
  | Rep i len =>
    let '(dist, reps) := match i with
                         | O => (a, (a, b, c, d)) | 1%nat => (b, (b, a, c, d))
                         | 2%nat => (c, (c, a, b, d)) | _ => (d, (d, a, b, c)) end in
    if in_text text dist && good_len len then Some (copy dist len text, reps) else None
  end.

Fixpoint expand (ps : list packet) (w : window) : option window :=
  match ps with
  | [] => Some w
  | p :: ps => match packet_step p w with None => None | Some w => expand ps w end
  end.

(** The text a list of packets stands for. *)
Definition text_of (ps : list packet) : option (list Z) :=
  match expand ps ([], (1, 1, 1, 1)) with None => None | Some (text, _) => Some text end.

(** ** The bits of packets *)

(** Highest bit first, lowest bit first, and without probabilities. *)
Fixpoint msb (n : nat) (x : Z) : list bool :=
  match n with O => [] | S m => negb (Z.testbit x (Z.of_nat m)) :: msb m x end.
Fixpoint lsb (n : nat) (x : Z) : list bool :=
  match n with O => [] | S m => negb (Z.odd x) :: lsb m (x / 2) end.
Fixpoint raw (n : nat) (x : Z) : list bool :=
  match n with O => [] | S m => Z.testbit x (Z.of_nat m) :: raw m x end.

Definition length_bits (len : nat) : list bool :=
  let n := Z.of_nat len - 2 in
  if n <? 8 then true :: msb 3 n
  else if n <? 16 then false :: true :: msb 3 (n - 8)
  else false :: false :: msb 8 (n - 16).

Definition distance_bits (dist : Z) : list bool :=
  let x := dist - 1 in
  if x <? 4 then msb 6 x
  else
    let low := Z.log2 x - 1 in
    let slot := 2 * Z.log2 x + b2z (Z.testbit x low) in
    msb 6 slot ++
    (if slot <? 14 then lsb (Z.to_nat low) x else raw (Z.to_nat (low - 4)) (x / 16) ++ lsb 4 x).

Definition packet_bits (p : packet) : list bool :=
  match p with
  | Lit x => true :: msb 8 (256 + x)
  | Match dist len => false :: true :: length_bits len ++ distance_bits dist
  | ShortRep => [false; false; true; true]
  | Rep O len => false :: false :: true :: false :: length_bits len
  | Rep 1 len => false :: false :: false :: true :: length_bits len
  | Rep 2 len => false :: false :: false :: false :: true :: length_bits len
  | Rep _ len => false :: false :: false :: false :: false :: length_bits len
  end.

(** The reference encoder for a text of [size] bytes. *)
Definition first_encoder (probs out : list Z) : encoder := Encoder probs 0 0xFFFFFFFF 0 out.
Definition lzma_encode (props : CLzmaProperties) (size : nat) (ps : list packet) : option (list Z) :=
  match encode (decode props (Z.of_nat size)) (flat_map packet_bits ps)
          (first_encoder (replicate (Z.to_nat (LzmaGetNumProbs props)) 1024) (replicate size 0)) with
  | Some (_, e, []) => Some (stream e)
  | _ => None
  end.

Definition hello_packets : list packet :=
  map Lit [97; 98; 114; 97; 99; 97; 100] ++ [Match 7 4; Lit 32; Match 12 11; ShortRep; Lit 44; Rep 0 3; Rep 1 2; Rep 2 2; Lit 33].

Example hello_packets_decode :
  match text_of hello_packets, lzma_encode (Properties 3 0 2) 33 hello_packets with
  | Some text, Some data =>
    length text = 33%nat /\
    result (LzmaDecode data (Properties 3 0 2) (replicate 7990 5) (replicate 33 9)) nowPos =
    Some (33, Z.of_nat (length data), text)
  | _, _ => False
  end.
Proof. vm_compute. split; reflexivity. Qed.

(** ** Replaying bits

    A program on given bits, without probabilities, with two output areas: the
    encoder's and the decoder's, which need not agree where nothing is written. *)

Fixpoint replay {A} (c : prog A) (bits : list bool) (o1 o2 : list Z) : option (A * list bool * list Z * list Z) :=
  match c with
  | Ret x => Some (x, bits, o1, o2)
  | IfBit0 _ k | DirectBit k => match bits with [] => None | b :: bits => replay (k b) bits o1 o2 end
  | Normalize k => replay k bits o1 o2
  | GetOut i k =>
    match at_index o1 i, at_index o2 i with
    | Some x, Some y => if x =? y then replay (k x) bits o1 o2 else None
    | _, _ => None
    end
  | PutOut i x k =>
    match at_index o1 i, at_index o2 i with
    | Some _, Some _ => replay k bits (<[Z.to_nat i := x]> o1) (<[Z.to_nat i := x]> o2)
    | _, _ => None
    end
  | DataError | Endless => None
  end.

Lemma replay_bind {A B} (c : prog A) (f : A -> prog B) : forall bits o1 o2 x bits' o1' o2',
  replay c bits o1 o2 = Some (x, bits', o1', o2') -> replay (pbind c f) bits o1 o2 = replay (f x) bits' o1' o2'.
Proof.
  induction c as [x0|p k IH|k IH|k IH|i k IH|i y k IH| |]; intros bits o1 o2 x bits' o1' o2' H; cbn [replay pbind] in *;
    try done.
  - by injection H as -> -> -> ->.
  - destruct bits; [done|by apply IH].
  - destruct bits; [done|by apply IH].
  - by apply IH.
  - destruct (at_index o1 i) as [a|]; [|done]. destruct (at_index o2 i) as [b|]; [|done].
    destruct (a =? b); [by apply IH|done].
  - destruct (at_index o1 i) as [a|]; [|done]. destruct (at_index o2 i) as [b|]; [|done]. by apply IH.
Qed.

Section Replay.
Context (N outSize : Z).

Lemma replay_safe {A} (c : prog A) (Q : A -> Prop) : forall bits o1 o2 x bits' o1' o2',
  safe N outSize c Q -> Forall is_byte o1 -> replay c bits o1 o2 = Some (x, bits', o1', o2') -> Q x /\ Forall is_byte o1'.
Proof.
  induction c as [x0|p k IH|k IH|k IH|i k IH|i y k IH| |]; intros bits o1 o2 x bits' o1' o2' Hc Ho H;
    cbn [replay safe] in *; try done.
  - by injection H as -> -> -> ->.
  - destruct bits; [done|]. destruct Hc as [_ Hk]. by eapply IH.
  - destruct bits; [done|]. by eapply IH.
  - by eapply IH.
  - destruct Hc as [_ Hk]. destruct (at_index o1 i) as [a|] eqn:Ha; [|done]. destruct (at_index o2 i) as [b|]; [|done].
    destruct (a =? b); [|done]. eapply IH; [apply Hk|done|done].
    unfold at_index in Ha. destruct (i <? 0); [done|]. rewrite Forall_lookup in Ho. by eapply Ho.
  - destruct Hc as (_ & Hy & Hk). destruct (at_index o1 i) as [a|]; [|done]. destruct (at_index o2 i) as [b|]; [|done].
    eapply IH; [done| |done]. by apply Forall_insert.
Qed.

(** Encoders that differ in what is outside the array and in the output. *)
Definition alike (e1 e2 : encoder) : Prop :=
  take (Z.to_nat N) (e_probs e1) = take (Z.to_nat N) (e_probs e2) /\ e_low e1 = e_low e2 /\ e_range e1 = e_range e2 /\
  e_shifts e1 = e_shifts e2.

Lemma alike_normalize e1 e2 : alike e1 e2 -> alike (e_normalize e1) (e_normalize e2).
Proof.
  intros (H1 & H2 & H3 & H4). unfold e_normalize. rewrite H3. destruct (_ <? _); [|done].
  split_and!; simpl; try done; [by rewrite H2|by rewrite H4].
Qed.

Lemma alike_probe e1 e2 p : alike e1 e2 -> 0 <= p < N -> at_index (e_probs e1) p = at_index (e_probs e2) p.
Proof.
  intros (H & _) Hp. unfold at_index. destruct (p <? 0); [done|].
  rewrite <- (lookup_take_lt (e_probs e1) (Z.to_nat N)), <- (lookup_take_lt (e_probs e2) (Z.to_nat N)) by lia. by rewrite H.
Qed.

Lemma alike_insert e1 e2 p x low range o1 o2 : alike e1 e2 -> 0 <= p < N ->
  alike (Encoder (<[Z.to_nat p := x]> (e_probs e1)) low range (e_shifts e1) o1)
    (Encoder (<[Z.to_nat p := x]> (e_probs e2)) low range (e_shifts e2) o2).
Proof.
  intros (H & _ & _ & Hs) Hp. split_and!; simpl; try done. rewrite !take_insert_lt by lia. by rewrite H.
Qed.

Lemma normalize_out e : e_out (e_normalize e) = e_out e.
Proof. unfold e_normalize. by destruct (_ <? _). Qed.

Lemma encode_replay {A} (c : prog A) (Q : A -> Prop) : forall bits e1 e2 x rest o1 o2,
  safe N outSize c Q -> encoder_ok N outSize e1 -> encoder_ok N outSize e2 -> alike e1 e2 ->
  replay c bits (e_out e1) (e_out e2) = Some (x, rest, o1, o2) ->
  exists e1' e2', encode c bits e1 = Some (x, e1', rest) /\ encode c bits e2 = Some (x, e2', rest) /\ alike e1' e2' /\
  e_out e1' = o1 /\ e_out e2' = o2.
Proof.
  induction c as [x0|p k IH|k IH|k IH|i k IH|i y k IH| |]; intros bits e1 e2 x rest o1 o2 Hc H1 H2 Ha H;
    cbn [replay safe encode] in *; try done.
  - injection H as -> -> <- <-. by exists e1, e2.
  - destruct Hc as [Hp Hk]. destruct bits as [|b bits]; [done|].
    destruct (e_normalize_ok _ _ _ H1) as [Hn1 Hr1]. destruct (e_normalize_ok _ _ _ H2) as [Hn2 _].
    pose proof (alike_normalize _ _ Ha) as Hna. rewrite <- (normalize_out e1), <- (normalize_out e2) in H.
    set (n1 := e_normalize e1) in *. set (n2 := e_normalize e2) in *.
    destruct (probe_ok _ _ n1 p Hn1 Hp) as (prob & Hat & Hprob). rewrite <- (alike_probe _ _ _ Hna Hp), Hat.
    pose proof Hna as (_ & Hlow & Hrange & _). rewrite <- Hlow, <- Hrange. consts.
    pose proof (eok_range _ _ _ Hn1) as [_ Hr2]. pose proof (eok_low _ _ _ Hn1).
    destruct (bound_ok (e_range n1) prob (conj Hr1 Hr2) Hprob) as (Hb0 & Hb1 & _). unfold range_ok in Hb0, Hb1.
    destruct b.
    + eapply IH; [apply Hk| | | |exact H]; [..|by apply alike_insert]; apply e_bit_ok; auto using UpdateBit0_ok.
    + eapply IH; [apply Hk| | | |exact H]; [..|by apply alike_insert]; apply e_bit_ok; auto using UpdateBit1_ok; lia.
  - destruct bits as [|b bits]; [done|].
    destruct (e_normalize_ok _ _ _ H1) as [Hn1 Hr1]. destruct (e_normalize_ok _ _ _ H2) as [Hn2 Hr2].
    pose proof (alike_normalize _ _ Ha) as Hna. rewrite <- (normalize_out e1), <- (normalize_out e2) in H.
    set (n1 := e_normalize e1) in *. set (n2 := e_normalize e2) in *.
    destruct Hn1 as [A1 A2 A3 A4 A5 A6]. destruct Hn2 as [B1 B2 B3 B4 B5 B6]. unfold range_ok in A3, B3.
    destruct Hna as (Hp & Hlow & Hrange & Hs).
    eapply IH; [apply Hc| | | |exact H].
    + split; simpl; try done; [unfold range_ok; lia|destruct b; lia].
    + split; simpl; try done; [unfold range_ok; lia|destruct b; lia].
    + split_and!; simpl; try done; [destruct b; lia|lia].
  - destruct (e_normalize_ok _ _ _ H1) as [Hn1 Hr1]. destruct (e_normalize_ok _ _ _ H2) as [Hn2 _].
    rewrite <- (normalize_out e1), <- (normalize_out e2) in H. eapply IH; try done. by apply alike_normalize.
  - destruct Hc as [_ Hk]. destruct (at_index (e_out e1) i) as [a|] eqn:Hat; [|done].
    destruct (at_index (e_out e2) i) as [a'|]; [|done]. destruct (Z.eqb_spec a a') as [Heq|]; [|done]. subst a'.
    eapply IH; try done. apply Hk. unfold at_index in Hat. destruct (i <? 0); [done|].
    pose proof (eok_out _ _ _ H1) as Ho. rewrite Forall_lookup in Ho. by eapply Ho.
  - destruct Hc as (_ & Hy & Hk). destruct (at_index (e_out e1) i); [|done]. destruct (at_index (e_out e2) i); [|done].
    destruct H1 as [A1 A2 A3 A4 A5 A6]. destruct H2 as [B1 B2 B3 B4 B5 B6].
    eapply IH; [exact Hk| | | |exact H].
    + split; simpl; try done; [by apply Forall_insert|by rewrite length_insert].
    + split; simpl; try done; [by apply Forall_insert|by rewrite length_insert].
    + destruct Ha as (G1 & G2 & G3 & G4). by split_and!.
Qed.
End Replay.

(** ** Bits of numbers *)

Lemma half_bit x m : 0 <= m -> 0 <= x -> get_bit (negb (Z.testbit x m)) (x / 2 ^ (m + 1)) = x / 2 ^ m.
Proof.
  intros Hm Hx. pose proof (Z.testbit_spec' x m Hm) as Hb.
  assert (Hd : x / 2 ^ (m + 1) = x / 2 ^ m / 2).
  { rewrite Z.div_div, Z.pow_add_r by (try apply Z.pow_pos_nonneg; lia). done. }
  rewrite Hd. generalize dependent (x / 2 ^ m). intros y Hb _.
  destruct (Z.testbit x m); unfold get_bit; cbn [negb Z.b2z] in *; rewrite ?Z.shiftl_mul_pow2 by lia; lia.
Qed.

Lemma of_nat_S n : Z.of_nat (S n) = Z.of_nat n + 1.
Proof. lia. Qed.

Section Bits.
Context (o1 o2 : list Z).

Lemma tree_replay probs x rest n : 0 <= x ->
  replay (tree_loop n probs (x / 2 ^ Z.of_nat n)) (msb n x ++ rest) o1 o2 = Some (x, rest, o1, o2).
Proof.
  intros Hx. induction n as [|n IH]; cbn [tree_loop msb replay app]; [by rewrite Z.div_1_r|].
  rewrite of_nat_S, half_bit by lia. apply IH.
Qed.

Lemma testbit_high n m x h : 0 <= x -> (m < n)%nat -> Z.testbit (h * 2 ^ Z.of_nat n + x) (Z.of_nat m) = Z.testbit x (Z.of_nat m).
Proof.
  intros Hx Hm. rewrite <- (Z.mod_pow2_bits_low _ (Z.of_nat n)) by lia. rewrite Z.add_comm, Z_mod_plus_full.
  apply Z.mod_pow2_bits_low. lia.
Qed.
Lemma msb_high n x h : 0 <= x -> msb n (h * 2 ^ Z.of_nat n + x) = msb n x.
Proof.
  intros Hx. assert (H : forall m, (m <= n)%nat -> msb m (h * 2 ^ Z.of_nat n + x) = msb m x); [|by apply H].
  induction m as [|m IH]; intros Hm; cbn [msb]; [done|]. rewrite testbit_high by lia. f_equal. apply IH. lia.
Qed.

Lemma bit_tree_replay probs n x rest : 0 <= x < 2 ^ Z.of_nat n ->
  replay (RangeDecoderBitTreeDecode probs (Z.of_nat n)) (msb n x ++ rest) o1 o2 = Some (x, rest, o1, o2).
Proof.
  intros Hx. unfold RangeDecoderBitTreeDecode. rewrite Nat2Z.id, <- (msb_high n x 1) by lia.
  assert (H1 : 1 = (1 * 2 ^ Z.of_nat n + x) / 2 ^ Z.of_nat n) by (rewrite Z.div_add_l, Z.div_small by lia; lia).
  rewrite H1 at 1. erewrite replay_bind by (apply tree_replay; lia). cbn [replay].
  rewrite Z.shiftl_mul_pow2 by lia. repeat f_equal. lia.
Qed.

Lemma length_replay probs posState len rest : (2 <= len <= 273)%nat ->
  replay (length_ probs posState) (length_bits len ++ rest) o1 o2 = Some (Z.of_nat len - 2, rest, o1, o2).
Proof.
  intros Hlen. unfold length_, length_bits. set (n := Z.of_nat len - 2).
  destruct (Z.ltb_spec n 8); [|destruct (Z.ltb_spec n 16)]; cbn [replay app].
  - erewrite replay_bind by (apply (bit_tree_replay _ 3); simpl; lia). cbn [replay]. by rewrite Z.add_0_r.
  - erewrite replay_bind by (apply (bit_tree_replay _ 3); simpl; lia). cbn [replay]. consts. repeat f_equal. lia.
  - erewrite replay_bind by (apply (bit_tree_replay _ 8); simpl; lia). cbn [replay]. consts. repeat f_equal. lia.
Qed.

Lemma plain_replay fuel prob x rest n : 256 <= x < 512 -> (n <= fuel)%nat -> (n <= 8)%nat ->
  replay (plain_loop fuel prob (x / 2 ^ Z.of_nat n)) (msb n x ++ rest) o1 o2 = Some (x, rest, o1, o2).
Proof.
  intros Hx. revert fuel. induction n as [|n IH]; intros fuel Hf Hn.
  - change (2 ^ Z.of_nat 0) with 1. rewrite Z.div_1_r. destruct fuel; cbn [plain_loop];
      (destruct (Z.ltb_spec x 0x100); [lia|done]).
  - destruct fuel as [|fuel]; [lia|]. cbn [plain_loop].
    assert (Hlt : x / 2 ^ Z.of_nat (S n) < 256).
    { apply Z.div_lt_upper_bound; [apply Z.pow_pos_nonneg; lia|]. assert (2 ^ 1 <= 2 ^ Z.of_nat (S n)) by
        (apply Z.pow_le_mono_r; lia). lia. }
    destruct (Z.ltb_spec (x / 2 ^ Z.of_nat (S n)) 0x100); [|lia]. cbn [replay msb app].
    rewrite of_nat_S, half_bit by lia. apply IH; lia.
Qed.

(** The matched loop stops after some of the bits. *)
Lemma matched_replay prob x rest n : 256 <= x < 512 -> forall mb, (0 < n <= 8)%nat -> exists k, (k <= n)%nat /\
  replay (matched_loop n prob mb (x / 2 ^ Z.of_nat n)) (msb n x ++ rest) o1 o2 =
  Some (x / 2 ^ Z.of_nat k, msb k x ++ rest, o1, o2).
Proof.
  intros Hx. induction n as [|n IH]; intros mb Hn; [lia|]. cbn [matched_loop replay msb app].
  rewrite of_nat_S, half_bit by lia. destruct (if negb _ then _ else _).
  - exists n. split; [lia|done].
  - destruct (Z.ltb_spec (x / 2 ^ Z.of_nat n) 0x100) as [Hlt|]; [|exists n; split; [lia|done]].
    destruct n as [|n]; [change (2 ^ Z.of_nat 0) with 1 in Hlt; rewrite Z.div_1_r in Hlt; lia|].
    destruct (IH (Z.shiftl mb 1)) as (k & Hk & Hr); [lia|]. exists k. split; [lia|exact Hr].
Qed.

Lemma direct_replay x rest n : 0 <= x < 2 ^ 32 ->
  replay (direct_loop n (x / 2 ^ Z.of_nat n)) (raw n x ++ rest) o1 o2 = Some (x, rest, o1, o2).
Proof.
  intros Hx. induction n as [|n IH]; cbn [direct_loop raw replay app]; [by rewrite Z.div_1_r|].
  rewrite of_nat_S. pose proof (half_bit x (Z.of_nat n) ltac:(lia) ltac:(lia)) as Hb.
  assert (Hle : 0 <= x / 2 ^ Z.of_nat n <= x).
  { split; [apply Z.div_pos; [lia|apply Z.pow_pos_nonneg; lia]|]. apply Z.div_le_upper_bound; [apply Z.pow_pos_nonneg; lia|].
    assert (0 < 2 ^ Z.of_nat n) by (apply Z.pow_pos_nonneg; lia). nia. }
  assert (Heq : (if Z.testbit x (Z.of_nat n) then Z.lor (u32 (Z.shiftl (x / 2 ^ (Z.of_nat n + 1)) 1)) 1
                 else u32 (Z.shiftl (x / 2 ^ (Z.of_nat n + 1)) 1)) = x / 2 ^ Z.of_nat n).
  { rewrite <- Hb in Hle |- *. clear Hb. set (y := x / 2 ^ (Z.of_nat n + 1)) in *. clearbody y.
    destruct (Z.testbit x (Z.of_nat n)); cbn [negb get_bit] in *; rewrite !Z.shiftl_mul_pow2 in * by lia;
      rewrite u32_small by lia; [|done]. rewrite lor_add_shifted by lia. lia. }
  cbv zeta. rewrite Heq. apply IH.
Qed.

Lemma lor_bit h l k : 0 <= k -> 0 <= l < 2 ^ k -> Z.lor (h * 2 ^ (k + 1) + l) (2 ^ k) = h * 2 ^ (k + 1) + l + 2 ^ k.
Proof.
  intros Hk Hl. rewrite Z.pow_add_r by lia. change (2 ^ 1) with 2.
  assert (Hland : Z.land (h * (2 ^ k * 2) + l) (2 ^ k) = 0).
  { apply Z.bits_inj'. intros n Hn. rewrite Z.land_spec, Z.pow2_bits_eqb, Z.bits_0 by lia.
    destruct (Z.eqb_spec k n) as [<-|]; [|by rewrite andb_false_r]. rewrite andb_true_r.
    apply Z.testbit_false; [lia|]. replace (h * (2 ^ k * 2) + l) with (h * 2 * 2 ^ k + l) by lia.
    rewrite Z.div_add_l, Z.div_small by lia. rewrite Z.add_0_r. apply Z_mod_mult. }
  rewrite <- Z.lxor_lor by done. by rewrite <- Z.add_nocarry_lxor by done.
Qed.

Lemma reverse_replay prob rest n : forall mi k h l v, 0 <= k -> 0 <= l < 2 ^ k -> 0 <= v ->
  replay (reverse_loop n prob mi (2 ^ k) (h * 2 ^ (k + Z.of_nat n) + l)) (lsb n v ++ rest) o1 o2 =
  Some (h * 2 ^ (k + Z.of_nat n) + l + 2 ^ k * (v mod 2 ^ Z.of_nat n), rest, o1, o2).
Proof.
  induction n as [|n IH]; intros mi k h l v Hk Hl Hv; cbn [reverse_loop lsb replay app].
  { change (2 ^ Z.of_nat 0) with 1. rewrite Z.mod_1_r, Z.mul_0_r, (Z.add_0_r (_ + l)). done. }
  assert (0 < 2 ^ k) by (apply Z.pow_pos_nonneg; lia).
  assert (Hpow : 2 ^ (k + 1) = 2 * 2 ^ k) by (rewrite Z.pow_add_r by lia; lia).
  replace (k + Z.of_nat (S n)) with (k + 1 + Z.of_nat n) by lia.
  replace (Z.shiftl (2 ^ k) 1) with (2 ^ (k + 1)) by (rewrite Z.shiftl_mul_pow2 by lia; lia).
  assert (Hmod : v mod 2 ^ Z.of_nat (S n) = v mod 2 + 2 * ((v / 2) mod 2 ^ Z.of_nat n)).
  { rewrite Nat2Z.inj_succ, Z.pow_succ_r by lia. apply Z.rem_mul_r; [lia|apply Z.pow_pos_nonneg; lia]. }
  rewrite Hmod. rewrite Zmod_odd. destruct (Z.odd v); cbn [negb].
  - replace (h * 2 ^ (k + 1 + Z.of_nat n)) with (h * 2 ^ Z.of_nat n * 2 ^ (k + 1))
      by (rewrite (Z.pow_add_r 2 (k + 1)) by lia; lia).
    rewrite lor_bit by done.
    replace (h * 2 ^ Z.of_nat n * 2 ^ (k + 1)) with (h * 2 ^ (k + 1 + Z.of_nat n))
      by (rewrite (Z.pow_add_r 2 (k + 1)) by lia; lia).
    rewrite <- Z.add_assoc, IH by lia. do 4 f_equal. rewrite Hpow. lia.
  - rewrite IH by lia. do 4 f_equal. rewrite Hpow. lia.
Qed.
End Bits.

(** ** Packets *)

Section Distance.
Context (o1 o2 : list Z).

Lemma top_bits x : 4 <= x -> let low := Z.log2 x - 1 in
  1 <= low /\ x / 2 ^ low = 2 + b2z (Z.testbit x low) /\ x < 2 ^ (low + 2).
Proof.
  intros Hx low. pose proof (Z.log2_spec x ltac:(lia)) as [H1 H2].
  assert (2 <= Z.log2 x) by (apply Z.log2_le_pow2; lia).
  replace (Z.log2 x) with (low + 1) in H1 by lia. replace (Z.succ (Z.log2 x)) with (low + 2) in H2 by lia.
  split; [lia|]. split; [|done]. assert (0 < 2 ^ low) by (apply Z.pow_pos_nonneg; lia).
  pose proof (Z.testbit_spec' x low ltac:(lia)) as Hb. rewrite Z.pow_add_r in H1, H2 by lia.
  assert (2 <= x / 2 ^ low < 4) by (split; [apply Z.div_le_lower_bound|apply Z.div_lt_upper_bound]; lia).
  unfold b2z. destruct (Z.testbit x low); cbn [Z.b2z] in Hb; lia.
Qed.

Lemma slot_facts x : 4 <= x < 2 ^ 32 -> let low := Z.log2 x - 1 in
  let slot := 2 * Z.log2 x + b2z (Z.testbit x low) in
  4 <= slot < 64 /\ Z.shiftr slot 1 - 1 = low /\ Z.lor 2 (Z.land slot 1) = x / 2 ^ low.
Proof.
  intros Hx low slot. destruct (top_bits x ltac:(lia)) as (H1 & H2 & _). fold low in H1, H2. rewrite H2.
  assert (Z.log2 x < 32) by (apply Z.log2_lt_pow2; lia). replace (Z.log2 x) with (low + 1) in * by lia.
  rewrite Z.shiftr_div_pow2 by lia. change (Z.land slot 1) with (Z.land slot (Z.ones 1)). rewrite Z.land_ones by lia.
  pose proof (lor_add_shifted 1 (slot mod 2 ^ 1) 1 ltac:(lia) ltac:(lia)) as Hlor. change (1 * 2 ^ 1) with 2 in Hlor.
  rewrite Hlor. clear Hlor. subst slot. unfold b2z.
  destruct (Z.testbit x low); lia.
Qed.

Lemma distance_replay len dist rest : 1 <= dist < 2 ^ 32 ->
  replay (distance len) (distance_bits dist ++ rest) o1 o2 = Some (dist - 1, rest, o1, o2).
Proof.
  intros Hd. unfold distance, distance_bits. consts. set (x := dist - 1). assert (Hx : 0 <= x < 2 ^ 32) by lia.
  clearbody x. destruct (Z.ltb_spec x 4).
  { erewrite replay_bind by (apply (bit_tree_replay _ _ _ 6); change (2 ^ Z.of_nat 6) with 64; lia).
    destruct (Z.leb_spec 4 x); [lia|done]. }
  destruct (slot_facts x ltac:(lia)) as (Hs & Hnd & Hlor). destruct (top_bits x ltac:(lia)) as (Hlow & _ & _).
  set (low := Z.log2 x - 1) in *. set (slot := 2 * Z.log2 x + b2z (Z.testbit x low)) in *. rewrite <- app_assoc.
  erewrite replay_bind by (apply (bit_tree_replay _ _ _ 6); change (2 ^ Z.of_nat 6) with 64; lia). cbv zeta.
  destruct (Z.leb_spec 4 slot); [|lia]. rewrite Hnd, Hlor.
  assert (Hpow : 0 < 2 ^ low) by (apply Z.pow_pos_nonneg; lia).
  pose proof (Z.div_mod x (2 ^ low) ltac:(lia)) as Hdm. pose proof (Z.mod_pos_bound x (2 ^ low) Hpow) as Hmb.
  assert (Hq : 0 <= x / 2 ^ low) by (apply Z.div_pos; lia). destruct (Z.ltb_spec slot 14).
  - assert (Hle : 0 <= x / 2 ^ low * 2 ^ low <= x).
    { clear -Hdm Hmb Hq Hpow. generalize dependent (x / 2 ^ low). generalize dependent (x mod 2 ^ low). nia. }
    rewrite Z.shiftl_mul_pow2, u32_small by (clear -Hle Hlow Hx; lia).
    pose proof (reverse_replay o1 o2 (688 + x / 2 ^ low * 2 ^ low - slot - 1) rest (Z.to_nat low) 1 0 (x / 2 ^ low) 0 x
      ltac:(lia) ltac:(lia) ltac:(lia)) as Hr.
    rewrite Z2Nat.id, Z.add_0_l, Z.add_0_r in Hr by lia. change (2 ^ 0) with 1 in Hr. rewrite Hr. do 4 f_equal. lia.
  - assert (Hlow4 : 4 <= low) by (unfold slot, b2z in *; destruct (Z.testbit x low); lia).
    assert (Hx16 : x / 2 ^ low = x / 16 / 2 ^ Z.of_nat (Z.to_nat (low - 4))).
    { rewrite Z2Nat.id, Z.div_div by (try apply Z.pow_pos_nonneg; lia). change 16 with (2 ^ 4).
      rewrite <- Z.pow_add_r by lia. do 2 f_equal. lia. }
    rewrite Hx16, <- app_assoc. clear Hx16 Hdm Hmb.
    erewrite replay_bind by (apply direct_replay; lia). rewrite Z.shiftl_mul_pow2, u32_small by lia.
    pose proof (reverse_replay o1 o2 802 rest 4 1 0 (x / 16) 0 x ltac:(lia) ltac:(lia) ltac:(lia)) as Hr.
    rewrite Z.add_0_l, Z.add_0_r in Hr. change (2 ^ 0) with 1 in Hr. change (Z.of_nat 4) with 4 in Hr.
    change (Z.to_nat 4) with 4%nat. rewrite Hr. do 4 f_equal. change (2 ^ 4) with 16. lia.
Qed.
End Distance.

Section Packets.
Context (props : CLzmaProperties) (size : nat) (b1 b2 : list Z).
Context (valid : props_ok props) (small : Z.of_nat size < 2 ^ 32).
Context (len_b1 : length b1 = size) (len_b2 : length b2 = size).
Abbreviation outSize := (Z.of_nat size).

(** An output area holding a text. *)
Definition filled (text b : list Z) : list Z := text ++ drop (length text) b.

Lemma at_filled text b i : 0 <= i < Z.of_nat (length text) -> at_index (filled text b) i = Some (nth (Z.to_nat i) text 0).
Proof.
  intros Hi. unfold at_index. destruct (Z.ltb_spec i 0); [lia|]. unfold filled. rewrite lookup_app_l by lia.
  destruct (lookup_lt_is_Some_2 text (Z.to_nat i)) as [x Hx]; [lia|]. by rewrite nth_lookup, Hx.
Qed.
Lemma put_filled text b x : (length text < length b)%nat ->
  (exists y, at_index (filled text b) (Z.of_nat (length text)) = Some y) /\
  <[Z.to_nat (Z.of_nat (length text)) := x]> (filled text b) = filled (text ++ [x]) b.
Proof.
  intros Hlt. unfold at_index, filled. destruct (Z.ltb_spec (Z.of_nat (length text)) 0); [lia|]. rewrite Nat2Z.id.
  destruct (drop (length text) b) as [|y rest] eqn:E.
  { apply (f_equal length) in E. rewrite length_drop in E. simpl in E. lia. }
  split; [exists y; rewrite lookup_app_r, Nat.sub_diag by lia; done|].
  rewrite insert_app_r_alt, Nat.sub_diag by lia. cbn [insert list_insert]. rewrite length_app. cbn [length].
  rewrite <- app_assoc, <- drop_drop, E. done.
Qed.

Definition represents (w : window) (v : vars) : Prop :=
  let '(text, (a, b, c, d)) := w in
  nowPos v = Z.of_nat (length text) /\ rep0 v = a /\ rep1 v = b /\ rep2 v = c /\ rep3 v = d.

Lemma get_replay {A} text pos dist (k : Z -> prog A) bits : pos = Z.of_nat (length text) -> in_text text dist = true ->
  (length text <= size)%nat ->
  replay (GetOut (u32 (pos - dist)) k) bits (filled text b1) (filled text b2) =
  replay (k (nth (length text - Z.to_nat dist) text 0)) bits (filled text b1) (filled text b2).
Proof.
  intros -> Hd Hl. unfold in_text in Hd. apply andb_true_iff in Hd as [H1%Z.leb_le H2%Z.leb_le].
  rewrite u32_small by lia. cbn [replay]. rewrite !at_filled by lia. rewrite Z.eqb_refl.
  replace (Z.to_nat (Z.of_nat (length text) - dist)) with (length text - Z.to_nat dist)%nat by lia. done.
Qed.
Lemma put_replay {A} text pos x (k : prog A) bits : pos = Z.of_nat (length text) -> (length text < size)%nat ->
  replay (PutOut pos x k) bits (filled text b1) (filled text b2) =
  replay k bits (filled (text ++ [x]) b1) (filled (text ++ [x]) b2).
Proof.
  intros -> Hl. cbn [replay]. destruct (put_filled text b1 x) as [[y ->] ->]; [lia|].
  destruct (put_filled text b2 x) as [[z ->] ->]; [lia|]. done.
Qed.

Lemma in_text_app text dist x : in_text text dist = true -> in_text (text ++ [x]) dist = true.
Proof.
  unfold in_text. rewrite !andb_true_iff, !Z.leb_le, length_app. simpl. lia.
Qed.
Lemma length_copy dist n : forall text, length (copy dist n text) = (length text + n)%nat.
Proof. induction n as [|n IH]; intros text; cbn [copy]; [lia|]. rewrite IH, length_app. simpl. lia. Qed.

Lemma copy_loop_S f len v : copy_loop outSize (S f) len v =
  GetOut (u32 (nowPos v - rep0 v)) (fun byte =>
    PutOut (nowPos v) byte
      (let w := Vars (nowPos v + 1) byte (state v) (rep0 v) (rep1 v) (rep2 v) (rep3 v) in
       if negb (len - 1 =? 0) && (nowPos w <? outSize) then copy_loop outSize f (len - 1) w else Ret w)).
Proof. done. Qed.

Lemma copy_replay rest n : forall text v, nowPos v = Z.of_nat (length text) -> in_text text (rep0 v) = true ->
  (length text + S n <= size)%nat -> exists byte,
  replay (copy_loop outSize (S n) (Z.of_nat (S n)) v) rest (filled text b1) (filled text b2) =
  Some (Vars (Z.of_nat (length text + S n)) byte (state v) (rep0 v) (rep1 v) (rep2 v) (rep3 v), rest,
        filled (copy (rep0 v) (S n) text) b1, filled (copy (rep0 v) (S n) text) b2).
Proof.
  induction n as [|n IH]; intros text [np pr st r0 r1 r2 r3] Hnp Hin Hle;
    cbn [nowPos previousByte state rep0 rep1 rep2 rep3] in *; rewrite copy_loop_S;
    cbn [nowPos previousByte state rep0 rep1 rep2 rep3]; rewrite (get_replay text) by (done || lia);
    cbv zeta; rewrite (put_replay text) by (done || lia).
  - exists (nth (length text - Z.to_nat r0) text 0). change (negb (Z.of_nat 1 - 1 =? 0)) with false. cbn [andb replay copy].
    repeat f_equal. lia.
  - replace (Z.of_nat (S (S n)) - 1) with (Z.of_nat (S n)) by lia.
    destruct (Z.eqb_spec (Z.of_nat (S n)) 0); [lia|]. destruct (Z.ltb_spec (np + 1) outSize); [|lia]. cbn [negb andb].
    set (x := nth (length text - Z.to_nat r0) text 0).
    destruct (IH (text ++ [x]) (Vars (np + 1) x st r0 r1 r2 r3)) as (byte & Hr); cbn [nowPos rep0];
      [rewrite length_app; simpl; lia|by apply in_text_app|rewrite length_app; simpl; lia|].
    cbn [nowPos previousByte state rep0 rep1 rep2 rep3] in Hr. rewrite Hr. exists byte.
    rewrite length_app. cbn [length]. replace (length text + 1 + S n)%nat with (length text + S (S n))%nat by lia. done.
Qed.

(** What a packet must leave behind. *)
Definition after (w : window) (r : option (option vars * list bool * list Z * list Z)) (rest : list bool) : Prop :=
  exists v', r = Some (Some v', rest, filled w.1 b1, filled w.1 b2) /\ represents w v'.

Lemma literal_replay text reps v x rest : represents (text, reps) v -> vars_ok outSize v -> (length text < size)%nat ->
  0 <= x < 256 ->
  after (text ++ [x], reps)
    (replay (let* v := literal props v in Ret (Some v)) (msb 8 (256 + x) ++ rest) (filled text b1) (filled text b2)) rest.
Proof.
  destruct reps as [[[a b] c] d]. intros (Hnp & Ha & Hb & Hc & Hd) Hv Hl Hx. unfold literal. set (prob := Literal + _).
  pose proof Hv as [Hp1 Hp2 [Hp3 Hp4] [Hr1 Hr2] _ _ _].
  assert (H1 : 1 = (256 + x) / 2 ^ Z.of_nat 8) by (change (2 ^ Z.of_nat 8) with 256; lia).
  assert (Hsym : exists k, (k <= 8)%nat /\
    replay (if kNumLitStates <=? state v
            then GetOut (u32 (nowPos v - rep0 v)) (fun matchByte => matched_loop 8 prob matchByte 1) else Ret 1)
      (msb 8 (256 + x) ++ rest) (filled text b1) (filled text b2) =
    Some ((256 + x) / 2 ^ Z.of_nat k, msb k (256 + x) ++ rest, filled text b1, filled text b2)).
  { consts. destruct (Z.leb_spec 7 (state v)); [|exists 8%nat; by rewrite <- H1].
    rewrite (get_replay text) by (done || lia || (unfold in_text; rewrite andb_true_iff, !Z.leb_le; lia)).
    pose proof (matched_replay (filled text b1) (filled text b2) prob (256 + x) rest 8 ltac:(lia)) as Hm.
    rewrite <- H1 in Hm. apply Hm. lia. }
  destruct Hsym as (k & Hk & Hsym). erewrite replay_bind.
  2:{ erewrite replay_bind by exact Hsym. erewrite replay_bind by (apply plain_replay; lia). cbv zeta.
      rewrite (put_replay text) by (done || lia). replace (u8 (256 + x)) with x by (unfold u8; lia).
      cbn [replay]. reflexivity. }
  cbn [replay]. eexists. split; [reflexivity|]. split_and!; cbn; try done. rewrite length_app. simpl. lia.
Qed.

(** The end of a match. *)
Lemma copy_after text reps w dist len rest : represents (text, reps) w -> rep0 w = dist -> in_text text dist = true ->
  (2 <= len)%nat -> (length text + len <= size)%nat ->
  after (copy dist len text, reps)
    (replay (let len := Z.of_nat len - 2 + kMatchMinLen in
             if nowPos w <? rep0 w then DataError
             else let* v := copy_loop outSize (Z.to_nat len) len w in Ret (Some v)) rest (filled text b1) (filled text b2)) rest.
Proof.
  destruct reps as [[[a b] c] d]. intros (Hnp & Ha & Hb & Hc & Hd) Hdist Hin Hlen Hle. consts. cbv zeta.
  replace (Z.of_nat len - 2 + 2) with (Z.of_nat len) by lia. rewrite Nat2Z.id.
  pose proof Hin as Hin'. unfold in_text in Hin'. apply andb_true_iff in Hin' as [H1%Z.leb_le H2%Z.leb_le].
  destruct (Z.ltb_spec (nowPos w) (rep0 w)); [lia|]. destruct len as [|n]; [lia|].
  destruct (copy_replay rest n text w) as (byte & Hr); [done|by rewrite Hdist|done|].
  erewrite replay_bind by exact Hr. cbn [replay]. rewrite Hdist. eexists. split; [reflexivity|].
  split_and!; cbn [nowPos rep0 rep1 rep2 rep3]; try congruence. by rewrite length_copy.
Qed.

Lemma match_new_replay text a b c d v dist len rest : represents (text, (a, b, c, d)) v -> state v < 4 ->
  in_text text dist = true -> (2 <= len)%nat -> (length text + len <= size)%nat ->
  after (copy dist len text, (dist, b, c, d))
    (replay (match_ outSize (Z.of_nat len - 2) v) (distance_bits dist ++ rest) (filled text b1) (filled text b2)) rest.
Proof.
  intros (Hnp & Ha & Hb & Hc & Hd) Hst Hin Hlen Hle. unfold match_.
  pose proof Hin as Hin'. unfold in_text in Hin'. apply andb_true_iff in Hin' as [H1%Z.leb_le H2%Z.leb_le].
  destruct (Z.ltb_spec (state v) 4); [|lia]. erewrite replay_bind.
  2:{ erewrite replay_bind by (apply distance_replay; lia). cbv zeta.
      replace (u32 (dist - 1 + 1)) with dist by (rewrite u32_small; lia).
      destruct (Z.eqb_spec dist 0); [lia|]. cbn [replay]. reflexivity. }
  cbv beta iota. apply copy_after; done.
Qed.

Lemma match_rep_replay text reps v dist len rest : represents (text, reps) v -> 4 <= state v -> rep0 v = dist ->
  in_text text dist = true -> (2 <= len)%nat -> (length text + len <= size)%nat ->
  after (copy dist len text, reps)
    (replay (match_ outSize (Z.of_nat len - 2) v) rest (filled text b1) (filled text b2)) rest.
Proof.
  intros Hrep Hst Hr0 Hin Hlen Hle. unfold match_. destruct (Z.ltb_spec (state v) 4); [lia|]. cbn [pbind].
  by apply copy_after.
Qed.

Lemma short_replay text a b c d v st rest : represents (text, (a, b, c, d)) v -> in_text text a = true ->
  (length text < size)%nat ->
  after (copy a 1 text, (a, b, c, d))
    (replay (GetOut (u32 (nowPos v - rep0 v)) (fun byte =>
       PutOut (nowPos v) byte (Ret (Some (Vars (nowPos v + 1) byte st (rep0 v) (rep1 v) (rep2 v) (rep3 v))))))
       rest (filled text b1) (filled text b2)) rest.
Proof.
  intros (Hnp & Ha & Hb & Hc & Hd) Hin Hl. rewrite (get_replay text) by (done || lia || by rewrite Ha).
  rewrite (put_replay text) by (done || lia). cbn [replay]. rewrite Ha. eexists. split; [reflexivity|].
  split_and!; cbn; try done. rewrite length_app. simpl. lia.
Qed.

Lemma good_len_spec len : good_len len = true -> (2 <= len <= 273)%nat.
Proof. unfold good_len. rewrite andb_true_iff, !Nat.leb_le. lia. Qed.

(** A packet is decoded to what it stands for. *)
Lemma packet_replay p text reps v w' rest : represents (text, reps) v -> vars_ok outSize v ->
  packet_step p (text, reps) = Some w' -> (length w'.1 <= size)%nat ->
  (length text < length w'.1)%nat /\
  after w' (replay (step props outSize v) (packet_bits p ++ rest) (filled text b1) (filled text b2)) rest.
Proof.
  destruct reps as [[[a b] c] d]. intros Hrep Hv Hstep Hle. unfold step.
  pose proof Hrep as (Hnp & Ha & Hb & Hc & Hd). set (posState := Z.land _ _). clearbody posState.
  assert (Hnew : forall st bits len i, (2 <= len <= 273)%nat -> 0 <= i -> forall dist, in_text text dist = true ->
    (length text + len <= size)%nat -> st < 4 ->
    after (copy dist len text, (dist, a, b, c))
      (replay (let* len := length_ i posState in match_ outSize len (Vars (nowPos v) (previousByte v) st (rep0 v) (rep0 v) (rep1 v) (rep2 v)))
        (length_bits len ++ distance_bits dist ++ bits) (filled text b1) (filled text b2)) bits).
  { intros st bits len i Hlen Hi dist Hin Hsz Hst. erewrite replay_bind by (by apply length_replay).
    eapply match_new_replay; [|done..|lia|done]. split_and!; cbn; done || congruence. }
  assert (Hold : forall st bits len r0 r1 r2 r3, (2 <= len <= 273)%nat -> in_text text r0 = true ->
    (length text + len <= size)%nat -> 4 <= st ->
    after (copy r0 len text, (r0, r1, r2, r3))
      (replay (let* len := length_ RepLenCoder posState in match_ outSize len (Vars (nowPos v) (previousByte v) st r0 r1 r2 r3))
        (length_bits len ++ bits) (filled text b1) (filled text b2)) bits).
  { intros st bits len r0 r1 r2 r3 Hlen Hin Hsz Hst. erewrite replay_bind by (by apply length_replay).
    eapply match_rep_replay; [|done..|lia|done]. split_and!; cbn; done. }
  assert (Hst8 : 4 <= (if state v <? kNumLitStates then 8 else 11)) by (destruct (_ <? _); lia).
  assert (Hst0 : (if state v <? kNumLitStates then 0 else 3) < 4) by (destruct (_ <? _); lia).
  pose proof (literal_replay text (a, b, c, d) v) as Hlit. pose proof (short_replay text a b c d v) as Hshort.
  destruct v as [np pr st r0 r1 r2 r3]. cbn [nowPos previousByte state rep0 rep1 rep2 rep3] in *. subst r0 r1 r2 r3.
  destruct p as [x|dist len| |i len]; cbn [packet_step] in Hstep.
  - destruct ((0 <=? x) && (x <? 256)) eqn:Hx; [|done]. injection Hstep as <-.
    apply andb_true_iff in Hx as [Hx1%Z.leb_le Hx2%Z.ltb_lt]. cbn [fst] in Hle |- *. rewrite length_app in Hle |- *.
    cbn [length] in *. split; [lia|]. cbn [packet_bits app replay]. apply Hlit; try done; lia.
  - destruct (in_text text dist && good_len len) eqn:Hg; [|done]. injection Hstep as <-.
    apply andb_true_iff in Hg as [Hin Hlen%good_len_spec]. cbn [fst] in Hle |- *. rewrite length_copy in Hle |- *.
    split; [lia|]. cbn [packet_bits app replay]. rewrite <- app_assoc. by apply Hnew.
  - destruct (in_text text a) eqn:Hin; [|done]. apply (inj Some) in Hstep as <-. cbn [fst] in Hle |- *.
    rewrite length_copy in Hle |- *. split; [lia|]. cbn [packet_bits app replay].
    pose proof Hin as Hin'. unfold in_text in Hin'. apply andb_true_iff in Hin' as [H1%Z.leb_le H2%Z.leb_le].
    destruct (Z.eqb_spec np 0); [lia|]. apply Hshort; [done|done|lia].
  - assert (Hcase : exists dist reps, in_text text dist = true /\ (2 <= len <= 273)%nat /\ w' = (copy dist len text, reps) /\
      (i = O /\ (dist, reps) = (a, (a, b, c, d)) \/ i = 1%nat /\ (dist, reps) = (b, (b, a, c, d)) \/
       i = 2%nat /\ (dist, reps) = (c, (c, a, b, d)) \/ (2 < i)%nat /\ (dist, reps) = (d, (d, a, b, c)))).
    { destruct i as [|[|[|i]]];
        match type of Hstep with (if ?g then _ else _) = _ => destruct g eqn:Hg; [|done] end; injection Hstep as <-;
        apply andb_true_iff in Hg as [Hin Hlen%good_len_spec]; do 2 eexists; (split; [exact Hin|split; [done|split; [done|]]]);
        [by left|by right; left|by right; right; left|right; right; right; split; [lia|done]]. }
    destruct Hcase as (dist & reps & Hin & Hlen & -> & Hcase). cbn [fst] in Hle |- *. rewrite length_copy in Hle |- *.
    split; [lia|]. destruct Hcase as [[-> [= -> ->]] | [[-> [= -> ->]] | [[-> [= -> ->]] | [Hi [= -> ->]]]]].
    1-3: cbn [packet_bits app replay]; by apply Hold.
    destruct i as [|[|[|i]]]; [lia..|]. cbn [packet_bits app replay]. by apply Hold.
Qed.
End Packets.

(** ** Whole streams *)

Section Streams.
Context (props : CLzmaProperties) (size : nat) (b1 b2 : list Z).
Context (valid : props_ok props) (small : Z.of_nat size < 2 ^ 32).
Context (len_b1 : length b1 = size) (len_b2 : length b2 = size) (bytes_b1 : Forall is_byte b1).
Abbreviation outSize := (Z.of_nat size).
Abbreviation N := (LzmaGetNumProbs props).

Lemma expand_grows ps : forall w w', expand ps w = Some w' -> (length w.1 <= length w'.1)%nat.
Proof.
  assert (Hcopy : forall dist n text, (length text <= length (copy dist n text))%nat) by (induction n as [|n IHn]; intros text; cbn [copy]; [lia|]; etrans; [|apply IHn]; rewrite length_app; lia).
  induction ps as [|p ps IH]; intros w w' H; cbn [expand] in H; [by injection H as ->|].
  destruct (packet_step p w) as [w1|] eqn:Hs; [|done]. apply IH in H. etrans; [|exact H]. clear H IH.
  destruct w as [text [[[a b] c] d]], p as [x|dist len| |i len]; cbn [packet_step] in Hs.
  - destruct (_ && _); [|done]. apply (inj Some) in Hs as <-. cbn [fst]. rewrite length_app. lia.
  - destruct (_ && _); [|done]. apply (inj Some) in Hs as <-. apply Hcopy.
  - destruct (in_text _ _); [|done]. apply (inj Some) in Hs as <-. apply Hcopy.
  - destruct i as [|[|[|i]]]; (destruct (_ && _); [|done]); apply (inj Some) in Hs as <-; apply Hcopy.
Qed.

Lemma filled_ok text : (length text <= size)%nat -> Forall is_byte text -> Forall is_byte (filled text b1).
Proof. intros Hl Ht. unfold filled. apply Forall_app. split; [done|]. by apply Forall_drop. Qed.

Lemma loop_replay ps : forall fuel w v w', represents w v -> vars_ok outSize v -> expand ps w = Some w' ->
  length w'.1 = size -> (size <= length w.1 + fuel)%nat -> Forall is_byte (filled w.1 b1) ->
  exists v', replay (decode_loop props outSize fuel v) (flat_map packet_bits ps) (filled w.1 b1) (filled w.1 b2) =
    Some (v', [], filled w'.1 b1, filled w'.1 b2) /\ represents w' v'.
Proof.
  induction ps as [|p ps IH]; intros fuel w v w' Hrep Hv Hexp Hsize Hfuel Hbytes.
  - cbn [expand] in Hexp. apply (inj Some) in Hexp as <-. exists v. split; [|done].
    destruct w as [text [[[a b] c] d]]. destruct Hrep as (Hnp & _). cbn [fst] in *.
    destruct fuel; cbn [decode_loop]; (destruct (Z.ltb_spec (nowPos v) outSize); [lia|done]).
  - cbn [expand] in Hexp. destruct (packet_step p w) as [w1|] eqn:Hs; [|done].
    pose proof (expand_grows ps _ _ Hexp) as Hgrow. destruct w as [text reps]. cbn [fst] in *.
    destruct (packet_replay props size b1 b2 small len_b1 len_b2 p text reps v w1 (flat_map packet_bits ps) Hrep Hv Hs
      ltac:(lia)) as [Hlt (v1 & Hr & Hrep1)].
    assert (Hnp : nowPos v = Z.of_nat (length text)) by (destruct reps as [[[a b] c] d]; apply Hrep).
    destruct fuel as [|fuel]; [lia|]. cbn [decode_loop flat_map].
    destruct (Z.ltb_spec (nowPos v) outSize); [|lia]. erewrite replay_bind by exact Hr.
    destruct (replay_safe N outSize _ _ _ _ _ _ _ _ _ (step_safe props outSize valid ltac:(lia) v Hv ltac:(lia)) Hbytes Hr)
      as [[Hv1 _] Hbytes1].
    apply IH; try done. lia.
Qed.

Lemma decode_replay ps text : text_of ps = Some text -> length text = size -> exists v,
  replay (decode props outSize) (flat_map packet_bits ps) b1 b2 = Some (v, [], text, text) /\ nowPos v = outSize.
Proof.
  unfold text_of. destruct (expand ps _) as [[t reps]|] eqn:Hexp; [|done]. intros [= ->] Hlen. unfold decode.
  destruct (loop_replay ps size ([], (1, 1, 1, 1)) start (text, reps)) as (v & Hr & Hrep); try done.
  - unfold start. split; cbn; unfold rep_ok, is_byte; lia.
  - rewrite Nat2Z.id. erewrite replay_bind by exact Hr. cbn [replay fst]. exists v.
    unfold filled. rewrite !drop_ge, !app_nil_r by lia. split; [done|].
    destruct reps as [[[a b] c] d]. destruct Hrep as (-> & _). by rewrite Hlen.
Qed.
End Streams.

Lemma first_encoder_ok N outSize probs out : Forall prob_ok (take (Z.to_nat N) probs) -> N <= Z.of_nat (length probs) ->
  Forall is_byte out -> Z.of_nat (length out) = outSize -> encoder_ok N outSize (first_encoder probs out).
Proof. intros H1 H2 H3 H4. split; simpl; try done; unfold range_ok; lia. Qed.

(** Encoding for two pairs of arrays gives the same stream. *)
Lemma encode_packets props ps text p1 p2 o1 o2 (size := length text) (N := LzmaGetNumProbs props)
  (probs := replicate (Z.to_nat N) 1024) :
  props_ok props -> text_of ps = Some text -> Z.of_nat size < 2 ^ 32 ->
  take (Z.to_nat N) p1 = probs -> N <= Z.of_nat (length p1) -> length o1 = size -> Forall is_byte o1 ->
  take (Z.to_nat N) p2 = probs -> N <= Z.of_nat (length p2) -> length o2 = size -> Forall is_byte o2 ->
  encoder_ok N (Z.of_nat size) (first_encoder p2 o2) /\
  exists v e1 e2, nowPos v = Z.of_nat size /\ e_out e2 = text /\ alike N e1 e2 /\
    encode (decode props (Z.of_nat size)) (flat_map packet_bits ps) (first_encoder p1 o1) = Some (v, e1, []) /\
    encode (decode props (Z.of_nat size)) (flat_map packet_bits ps) (first_encoder p2 o2) = Some (v, e2, []).
Proof.
  intros Hp Htext Hsmall Ht1 Hl1 Ho1 Hb1 Ht2 Hl2 Ho2 Hb2.
  assert (Hok : forall p o, take (Z.to_nat N) p = probs -> N <= Z.of_nat (length p) -> length o = size -> Forall is_byte o ->
    encoder_ok N (Z.of_nat size) (first_encoder p o)).
  { intros p o Ht Hl Ho Hb. apply first_encoder_ok; [|done..|lia]. rewrite Ht. apply Forall_replicate. unfold prob_ok. lia. }
  split; [by apply Hok|].
  pose proof (decode_safe props (Z.of_nat size) Hp ltac:(lia)) as Hsafe. fold N in Hsafe.
  destruct (decode_replay props size o1 o2 Hp Hsmall Ho1 Ho2 Hb1 ps text Htext eq_refl) as (v & Hr & Hnp).
  assert (Hal : alike N (first_encoder p1 o1) (first_encoder p2 o2)) by (split_and!; simpl; try done; congruence).
  destruct (encode_replay _ _ _ _ _ _ _ _ _ _ _ Hsafe (Hok _ _ Ht1 Hl1 Ho1 Hb1) (Hok _ _ Ht2 Hl2 Ho2 Hb2) Hal Hr)
    as (e1 & e2 & H1 & H2 & H3 & _ & H4). by exists v, e1, e2.
Qed.

Lemma length_stream e : length (stream e) = (5 + e_shifts e)%nat.
Proof. unfold stream, be_list. cbn [length]. by rewrite length_rev, length_le_list. Qed.

(** The decoder on the number an encoder ends with. *)
Lemma run_stream {A} N outSize (c : prog A) (Q : A -> Prop) bits p out e x tail :
  safe N outSize c Q -> encoder_ok N outSize (first_encoder p out) -> encode c bits (first_encoder p out) = Some (x, e, []) ->
  exists s0 s, rc_init_loop (stream e ++ tail) 5 (Decoder p 0 0xFFFFFFFF 0 out) = Finished tt s0 /\
    run (stream e ++ tail) c s0 = Finished x s /\ outStream s = e_out e /\ Buffer s = Z.of_nat (length (stream e)).
Proof.
  intros Hsafe He Hrun. destruct (encode_spec _ _ _ _ _ _ _ _ _ Hsafe He Hrun) as ((k & Hk & Hlo & Hhi) & Hok & _).
  cbn [first_encoder e_shifts e_low e_range] in Hk, Hlo, Hhi. rewrite Nat.add_0_r in Hk.
  pose proof (eok_range _ _ _ Hok) as [Hr _]. pose proof (eok_low _ _ _ Hok) as Hl.
  assert (Hfits : 0 <= e_low e < 256 ^ Z.of_nat (4 + k)).
  { split; [done|]. replace (Z.of_nat (4 + k)) with (4 + Z.of_nat k) by lia. rewrite Z.pow_add_r by lia.
    assert (0 < 256 ^ Z.of_nat k) by (apply Z.pow_pos_nonneg; lia). change (256 ^ 4) with (2 ^ 32). lia. }
  assert (Hin : stream e ++ tail = input (e_low e) k tail) by (unfold stream, input; by rewrite Hk).
  rewrite Hin. destruct (rc_init_follows (e_low e) k tail Hfits p out) as (s0 & Hinit & Hf). exists s0.
  destruct (run_follows N outSize (e_low e) k tail Hfits _ _ _ _ s0 _ _ _ Hsafe He Hrun Hf) as (s & HR & _ & HO & _ & HB & _).
  { split; [lia|]. rewrite Hk. unfold top. rewrite Nat.sub_diag. change (256 ^ Z.of_nat 0) with 1. rewrite Z.div_1_r. lia. }
  exists s. split_and!; [done..|]. rewrite length_stream, HB. lia.
Qed.

(** C1: the decoder inverts a reference encoder.  Take any packets (literals,
    matches at a new distance or at one of the last four, and one-byte repeats)
    that stand for a text of less than 4 GiB.  Their bits, range coded with the
    adaptive probabilities, make a stream, and [LzmaDecode] of that stream,
    whatever follows it and whatever was in the other two arrays, finishes with
    the text in the output, having read exactly the stream. *)
Theorem LzmaDecode_roundtrip props ps text :
  props_ok props -> text_of ps = Some text -> Z.of_nat (length text) < 2 ^ 32 ->
  exists data, lzma_encode props (length text) ps = Some data /\
  forall tail p out, LzmaGetNumProbs props <= Z.of_nat (length p) -> length out = length text -> Forall is_byte out ->
    exists v s, LzmaDecode (data ++ tail) props p out = Finished v s /\
      outStream s = text /\ nowPos v = Z.of_nat (length text) /\ Buffer s = Z.of_nat (length data).
Proof.
  intros Hp Htext Hsmall. set (N := LzmaGetNumProbs props). set (zeros := replicate (length text) 0).
  set (probs := replicate (Z.to_nat N) 1024).
  assert (HN : 0 <= N) by (pose proof (numProbs_bound props (Z.of_nat (length text)) Hp); lia).
  assert (Hz : Forall is_byte zeros) by (apply Forall_replicate; unfold is_byte; lia).
  assert (Ht : take (Z.to_nat N) probs = probs) by (apply take_ge; unfold probs; rewrite length_replicate; lia).
  assert (Hl : N <= Z.of_nat (length probs)) by (unfold probs; rewrite length_replicate; lia).
  assert (Hlz : length zeros = length text) by apply length_replicate.
  destruct (encode_packets props ps text probs probs zeros zeros) as (_ & v0 & e & _ & _ & _ & _ & Hrun & _); try done.
  exists (stream e). split; [unfold lzma_encode; fold N probs zeros; by rewrite Hrun|].
  intros tail p out Hlp Hlo Hout. unfold LzmaDecode. destruct (init_probs_ok props p Hp Hlp) as (p' & -> & Hl' & Htake).
  destruct (encode_packets props ps text probs p' zeros out)
    as (Hok & v & e1 & e2 & Hnp & Htxt & (_ & Hlow & _ & Hsh) & Hrun1 & Hrun2); try done; [by rewrite Hl'|].
  rewrite Hrun in Hrun1. injection Hrun1 as <- <-.
  assert (Hst : stream e = stream e2) by (unfold stream; by rewrite Hlow, Hsh).
  destruct (run_stream _ _ _ _ _ _ _ _ _ tail (decode_safe props (Z.of_nat (length text)) Hp ltac:(lia)) Hok Hrun2)
    as (s0 & s & Hinit & HR & HO & HB).
  rewrite Hst, Hinit, Hlo. exists v0, s. split_and!; [done|congruence|done..].
Qed.

Lemma LzmaDecode_roundtrip_witness : exists data,
  lzma_encode (Properties 3 0 2) 33 hello_packets = Some data /\
  exists v s, LzmaDecode data (Properties 3 0 2) (replicate 7990 5) (replicate 33 9) = Finished v s /\
    Some (outStream s) = text_of hello_packets.
Proof.
  destruct (text_of hello_packets) as [text|] eqn:Ht; [|vm_compute in Ht; discriminate].
  assert (Hl : length text = 33%nat) by (vm_compute in Ht; injection Ht as <-; reflexivity).
  destruct (LzmaDecode_roundtrip (Properties 3 0 2) hello_packets text) as (data & He & Hd);
    [unfold props_ok; simpl; lia|done|rewrite Hl; lia|].
  rewrite Hl in *. exists data. split; [done|].
  destruct (Hd [] (replicate 7990 5) (replicate 33 9)) as (v & s & H1 & H2 & _);
    [vm_compute; discriminate|done|apply Forall_replicate; unfold is_byte; lia|].
  rewrite app_nil_r in H1. exists v, s. split; [done|by rewrite H2].
Defined.
