(* ===== verification/Sha1.v ===== *)
(** * SHA-1: src/sha1.c

    The hash works in two local arrays: the schedule [w] of 80 words, whose
    first 64 bytes hold the block, and the chaining value [ctx].  Both are areas
    of the memory here, at the addresses of that name.  [Fips] is the definition
    of the standard (FIPS 180-1), on messages as lists of bytes. *)
From S2P Require Import Prelude Machine StringOps Bytes.

(** [rol] of src/x86.h *)
Definition rol (val n : Z) : Z := u32 (Z.lor (Z.shiftl val n) (Z.shiftr val (32 - n))).

Definition sha_ko (i : Z) : Z :=
  if i =? 0 then 0x5a827999 else if i =? 1 then 0x6ed9eba1 else if i =? 2 then 0x8f1bbcdc else 0xca62c1d6.

Abbreviation working := (Z * Z * Z * Z * Z)%type.

(** The loops of [sha1_block] run with [i] from [0] to [15], [16] to [79] and
    [0] to [79]; [n] counts the iterations left. *)
Fixpoint swap_loop (n : nat) (i w : Z) (m : memory) : memory :=
  match n with
  | O => m
  | S n' => swap_loop n' (i + 1) w (write32 (w + 4 * i) (swab32 (read32 m (w + 4 * i))) m)
  end.

Fixpoint schedule_loop (n : nat) (i w : Z) (m : memory) : memory :=
  match n with
  | O => m
  | S n' =>
    let W j := read32 m (w + 4 * j) in
    let tmp := Z.lxor (Z.lxor (Z.lxor (W (i - 3)) (W (i - 8))) (W (i - 14))) (W (i - 16)) in
    schedule_loop n' (i + 1) w (write32 (w + 4 * i) (rol tmp 1) m)
  end.

Definition round_f (i b c d : Z) : Z * Z :=
  if i <=? 19 then (Z.lor (Z.land b c) (Z.land (Z.lxor b 0xffffffff) d), 0)
  else if i <=? 39 then (Z.lxor (Z.lxor b c) d, 1)
  else if i <=? 59 then (Z.lor (Z.lor (Z.land b c) (Z.land b d)) (Z.land c d), 2)
  else (Z.lxor (Z.lxor b c) d, 3).

Fixpoint round_loop (n : nat) (i w : Z) (m : memory) (s : working) : working :=
  match n with
  | O => s
  | S n' =>
    let '(a, b, c, d, e) := s in
    let '(f, idx) := round_f i b c d in
    let tmp := u32 (rol a 5 + f + e + sha_ko idx + read32 m (w + 4 * i)) in
    round_loop n' (i + 1) w m (tmp, a, rol b 30, c, d)
  end.

Definition ctx_h (ctx i : Z) : Z := ctx + 4 * i.

Definition sha1_block (w ctx : Z) (m : memory) : memory :=
  let m := swap_loop 16 0 w m in
  let m := schedule_loop 64 16 w m in
  let h i := read32 m (ctx_h ctx i) in
  let '(a, b, c, d, e) := round_loop 80 0 w m (h 0, h 1, h 2, h 3, h 4) in
  let add i x m := write32 (ctx_h ctx i) (read32 m (ctx_h ctx i) + x) m in
  add 4 e (add 3 d (add 2 c (add 1 b (add 0 a m)))).

Section Sha1.
Context (CONFIG_TCGBIOS : bool).
Context (w ctx : Z).                  (* the local arrays *)

(** "treat data in 64-byte chunks" *)
Fixpoint chunk_loop (fuel : nat) (data32 length offset bits : Z) (m : memory) : option (Z * Z * memory) :=
  if 64 <=? u32 (length - offset) then
    match fuel with
    | O => None
    | S f =>
      let m := memcpy w (data32 + offset) 64 m in
      let m := sha1_block w ctx m in
      chunk_loop f data32 length (u32 (offset + 64)) (u32 (bits + 64 * 8)) m
    end
  else Some (offset, bits, m).

(** "need to switch result's endianness" *)
Fixpoint result_loop (n : nat) (num : Z) (m : memory) : memory :=
  match n with
  | O => m
  | S n' => result_loop n' (num + 1) (write32 (ctx_h ctx num) (swab32 (read32 m (ctx_h ctx num))) m)
  end.

Definition write64 (a v : Z) (m : memory) : memory := write32 (a + 4) (v / 2 ^ 32) (write32 a v m).

(** [tmp] is a local variable whose bytes are copied to the end of the block. *)
Definition sha1_do (fuel : nat) (data32 length : Z) (m : memory) : option memory :=
  match chunk_loop fuel data32 length 0 0 m with
  | None => None
  | Some (offset, bits, m) =>
    let num := u16 (length - offset) in
    let bits := u32 (bits + Z.shiftl num 3) in
    let m := memcpy w (data32 + offset) num m in
    let m := write8 (w + num) 0x80 m in
    let m := if 0 <? 64 - (num + 1) then memset (w + (num + 1)) 0 (64 - (num + 1)) m else m in
    let m := if 56 <=? num then memset w 0 60 (sha1_block w ctx m) else m in
    let m := write64 (w + 4 * 14) (swab64 bits) m in
    let m := sha1_block w ctx m in
    Some (result_loop 5 0 m)
  end.

Definition sha1 (fuel : nat) (data length hash : Z) (m : memory) : option (Z * memory) :=
  if negb CONFIG_TCGBIOS then Some (0, m)
  else
    let set i v m := write32 (ctx_h ctx i) v m in
    let m := set 4 0xc3d2e1f0 (set 3 0x10325476 (set 2 0x98badcfe (set 1 0xefcdab89 (set 0 0x67452301 m)))) in
    match sha1_do fuel data length m with
    | None => None
    | Some m => Some (0, memcpy hash (ctx_h ctx 0) 20 m)
    end.
End Sha1.

(** ** The standard *)

Module Fips.

(** The circular left shift of a word. *)
Definition S_ (n x : Z) : Z := (x * 2 ^ n) mod 2 ^ 32 + x / 2 ^ (32 - n).

Definition f (t : nat) (B C D : Z) : Z :=
  if (t <? 20)%nat then Z.lxor (Z.land B C) (Z.land (2 ^ 32 - 1 - B) D)
  else if (t <? 40)%nat then Z.lxor (Z.lxor B C) D
  else if (t <? 60)%nat then Z.lxor (Z.lxor (Z.land B C) (Z.land B D)) (Z.land C D)
  else Z.lxor (Z.lxor B C) D.

Definition K (t : nat) : Z :=
  if (t <? 20)%nat then 0x5A827999 else if (t <? 40)%nat then 0x6ED9EBA1
  else if (t <? 60)%nat then 0x8F1BBCDC else 0xCA62C1D6.

(** The words W_0 .. W_(15+n). *)
Fixpoint schedule (n : nat) (block : list Z) : list Z :=
  match n with
  | O => block
  | S n' =>
    let W := schedule n' block in let t := (16 + n')%nat in
    let W_ k := nth (t - k) W 0 in
    W ++ [S_ 1 (Z.lxor (Z.lxor (Z.lxor (W_ 3%nat) (W_ 8%nat)) (W_ 14%nat)) (W_ 16%nat))]
  end.

Definition step (W : list Z) (s : working) (t : nat) : working :=
  let '(A, B, C, D, E) := s in
  ((S_ 5 A + f t B C D + E + nth t W 0 + K t) mod 2 ^ 32, A, S_ 30 B, C, D).

Definition compress (H : working) (block : list Z) : working :=
  let W := schedule 64 block in
  let '(A, B, C, D, E) := foldl (step W) H (seq 0 80) in
  let '(H0, H1, H2, H3, H4) := H in
  ((H0 + A) mod 2 ^ 32, (H1 + B) mod 2 ^ 32, (H2 + C) mod 2 ^ 32, (H3 + D) mod 2 ^ 32, (H4 + E) mod 2 ^ 32).

(** Big-endian words and numbers. *)
Fixpoint words (l : list Z) : list Z :=
  match l with
  | a :: b :: c :: d :: l' => (a * 2 ^ 24 + b * 2 ^ 16 + c * 2 ^ 8 + d) :: words l'
  | _ => []
  end.
Definition be32 (v : Z) : list Z := rev (le_list 4 v).
Definition be64 (v : Z) : list Z := rev (le_list 8 v).

(** A one bit, zeros up to 64 bits short of a block, and the length in bits. *)
Definition pad (msg : list Z) : list Z :=
  let l := Z.of_nat (length msg) in
  msg ++ [0x80] ++ replicate (Z.to_nat ((55 - l) mod 64)) 0 ++ be64 (8 * l).

Fixpoint blocks (n : nat) (H : working) (l : list Z) : working :=
  match n with
  | O => H
  | S n' => blocks n' (compress H (words (take 64 l))) (drop 64 l)
  end.

Definition H_init : working := (0x67452301, 0xEFCDAB89, 0x98BADCFE, 0x10325476, 0xC3D2E1F0).

Definition digest (s : working) : list Z :=
  let '(H0, H1, H2, H3, H4) := s in be32 H0 ++ be32 H1 ++ be32 H2 ++ be32 H3 ++ be32 H4.

Definition SHA1 (msg : list Z) : list Z :=
  let p := pad msg in digest (blocks (length p / 64) H_init p).

End Fips.

(** The standard's examples: "abc", and the 56 bytes that need a second block. *)
Definition abc : list Z := [97; 98; 99].
Definition abcdbcde : list Z :=
  flat_map (fun i => [97 + i; 98 + i; 99 + i; 100 + i]) [0; 1; 2; 3; 4; 5; 6; 7; 8; 9; 10; 11; 12; 13].

Example sha1_abc : Fips.SHA1 abc =
  [0xA9; 0x99; 0x3E; 0x36; 0x47; 0x06; 0x81; 0x6A; 0xBA; 0x3E;
   0x25; 0x71; 0x78; 0x50; 0xC2; 0x6C; 0x9C; 0xD0; 0xD8; 0x9D].
Proof. vm_compute. reflexivity. Qed.
Example sha1_abcdbcde : Fips.SHA1 abcdbcde =
  [0x84; 0x98; 0x3E; 0x44; 0x1C; 0x3B; 0xD2; 0x6E; 0xBA; 0xAE;
   0x4A; 0xA1; 0xF9; 0x51; 0x29; 0xE5; 0xE5; 0x46; 0x70; 0xF1].
Proof. vm_compute. reflexivity. Qed.
Example sha1_runs : forall l, In l [abc; abcdbcde] ->
  match sha1 true 0x1000 0x2000 10 0x3000 (Z.of_nat (length l)) 0x4000 (write_bytes 0x3000 l ∅) with
  | Some (0, m) => read_bytes 20 0x4000 m = Fips.SHA1 l
  | _ => False
  end.
Proof. intros l [<- | [<- | []]]; vm_compute; reflexivity. Qed.
