(* ===== verification/Sha1Correct.v ===== *)
(** * [Sha1] computes the standard's digest

    The block function on memory is the compression of the standard on lists of
    words; the buffering of the last block is the padding of the message. *)
From S2P Require Import Prelude Machine StringOps Bytes Areas Sha1.

(** ** Words *)

Definition is_word (x : Z) : Prop := 0 <= x < 2 ^ 32.

Lemma rol_S n x : is_word x -> In n [1; 5; 30] -> rol x n = Fips.S_ n x.
Proof.
  unfold is_word, rol, Fips.S_, u32. intros Hx [<- | [<- | [<- | []]]];
    rewrite Z.shiftl_mul_pow2, Z.shiftr_div_pow2, lor_add_shifted by lia; lia.
Qed.

Lemma lxor_ones b : is_word b -> Z.lxor b 0xffffffff = 2 ^ 32 - 1 - b.
Proof.
  intros Hb. change 0xffffffff with (Z.ones 32).
  assert (Hand : Z.land b (Z.lxor b (Z.ones 32)) = 0).
  { apply Z.bits_inj'. intros n Hn. rewrite Z.land_spec, Z.lxor_spec, Z.bits_0, Z.testbit_ones_nonneg by lia.
    destruct (Z.ltb_spec n 32); [by destruct (Z.testbit b n)|]. by rewrite (testbit_small b 32). }
  pose proof (Z.add_nocarry_lxor _ _ Hand) as H.
  rewrite <- Z.lxor_assoc, Z.lxor_nilpotent, Z.lxor_0_l in H. change (Z.ones 32) with (2 ^ 32 - 1) in *. lia.
Qed.

Lemma choice_xor b c d : is_word b ->
  Z.lor (Z.land b c) (Z.land (Z.lxor b 0xffffffff) d) = Z.lxor (Z.land b c) (Z.land (2 ^ 32 - 1 - b) d).
Proof.
  intros Hb. rewrite lxor_ones by done. symmetry. apply Z.lxor_lor. rewrite <- lxor_ones by done.
  change 0xffffffff with (Z.ones 32). apply Z.bits_inj'. intros n Hn.
  rewrite !Z.land_spec, Z.lxor_spec, Z.bits_0, Z.testbit_ones_nonneg by lia.
  destruct (Z.ltb_spec n 32).
  - by destruct (Z.testbit b n), (Z.testbit c n).
  - by rewrite (testbit_small b 32).
Qed.

Lemma majority_xor b c d :
  Z.lor (Z.lor (Z.land b c) (Z.land b d)) (Z.land c d) = Z.lxor (Z.lxor (Z.land b c) (Z.land b d)) (Z.land c d).
Proof.
  apply Z.bits_inj'. intros n _. rewrite !Z.lor_spec, !Z.lxor_spec, !Z.land_spec.
  by destruct (Z.testbit b n), (Z.testbit c n), (Z.testbit d n).
Qed.

Lemma round_f_spec t b c d : is_word b ->
  fst (round_f (Z.of_nat t) b c d) = Fips.f t b c d /\ sha_ko (snd (round_f (Z.of_nat t) b c d)) = Fips.K t.
Proof.
  intros Hb. unfold round_f, Fips.f, Fips.K.
  assert (Hz : forall k : nat, (Z.of_nat t <=? Z.of_nat k) = (t <? S k)%nat).
  { intros k. destruct (Z.leb_spec (Z.of_nat t) (Z.of_nat k)), (Nat.ltb_spec t (S k)); lia || done. }
  rewrite (Hz 19%nat : (Z.of_nat t <=? 19) = _), (Hz 39%nat : (Z.of_nat t <=? 39) = _),
    (Hz 59%nat : (Z.of_nat t <=? 59) = _).
  repeat case_match; cbn [fst snd]; split; try done; [by apply choice_xor|apply majority_xor].
Qed.

Definition working_ok (s : working) : Prop :=
  let '(a, b, c, d, e) := s in is_word a /\ is_word b /\ is_word c /\ is_word d /\ is_word e.

Lemma S_range n x : is_word x -> In n [1; 5; 30] -> is_word (Fips.S_ n x).
Proof. intros Hx Hn. rewrite <- rol_S by done. apply u32_range. Qed.

(** ** The block *)

Definition word_at (a : Z) (m : memory) (j : nat) : Z := read32 m (a + 4 * Z.of_nat j).



Lemma swap_loop_spec w n : forall k m, bytes_ok m -> let m' := swap_loop n (Z.of_nat k) w m in
  bytes_ok m' /\ outside (w + 4 * Z.of_nat k) (4 * Z.of_nat n) m m' /\
  forall j, (k <= j < k + n)%nat -> word_at w m' j = swab32 (word_at w m j).
Proof.
  induction n as [|n IH]; intros k m Hm; cbn [swap_loop]; [split_and!; [done|apply outside_refl|lia]|].
  replace (Z.of_nat k + 1) with (Z.of_nat (S k)) by lia. cbv zeta in IH |- *.
  set (m1 := write32 (w + 4 * Z.of_nat k) _ m).
  destruct (IH (S k) m1 ltac:(subst m1; auto with mem)) as (Hok & Hout & Hval).
  assert (H1 : outside (w + 4 * Z.of_nat k) 4 m m1) by apply outside_write32.
  split_and!; [done| |].
  - eapply outside_trans; [eapply outside_mono; [exact H1|lia..]|eapply outside_mono; [exact Hout|lia..]].
  - intros j Hj. destruct (decide (j = k)) as [->|].
    + unfold word_at. rewrite (outside_read32 _ _ _ _ _ Hout) by lia. subst m1.
      rewrite read32_write32_eq. apply u32_small, swab32_range.
    + rewrite Hval by lia. f_equal. unfold word_at. apply (outside_read32 _ _ _ _ _ H1). lia.
Qed.

Lemma length_schedule n : forall block, length (Fips.schedule n block) = (length block + n)%nat.
Proof. induction n as [|n IH]; intros block; simpl; [lia|]. rewrite length_app, IH. simpl. lia. Qed.

Lemma lxor_word x y : is_word x -> is_word y -> is_word (Z.lxor x y).
Proof.
  unfold is_word. intros Hx Hy. split; [apply Z.lxor_nonneg; lia|].
  rewrite <- (Z.mod_small x (2 ^ 32)), <- (Z.mod_small y (2 ^ 32)) by lia.
  rewrite <- !Z.land_ones, Z.land_comm, (Z.land_comm y) by lia.
  assert (forall a b c, Z.lxor (Z.land a b) (Z.land a c) = Z.land a (Z.lxor b c)) as ->.
  { intros a b c. apply Z.bits_inj'. intros n _. rewrite Z.lxor_spec, !Z.land_spec, Z.lxor_spec.
    by destruct (Z.testbit a n), (Z.testbit b n), (Z.testbit c n). }
  rewrite Z.land_comm, Z.land_ones by lia. apply Z.mod_pos_bound. lia.
Qed.

Lemma schedule_loop_spec w block n : forall k m, bytes_ok m -> length block = 16%nat ->
  (forall j, (j < 16 + k)%nat -> word_at w m j = nth j (Fips.schedule k block) 0) ->
  let m' := schedule_loop n (Z.of_nat (16 + k)) w m in
  bytes_ok m' /\ outside (w + 4 * Z.of_nat (16 + k)) (4 * Z.of_nat n) m m' /\
  forall j, (j < 16 + (k + n))%nat -> word_at w m' j = nth j (Fips.schedule (k + n) block) 0.
Proof.
  induction n as [|n IH]; intros k m Hm Hb HW; cbn [schedule_loop].
  { rewrite Nat.add_0_r. split_and!; [done|apply outside_refl|done]. }
  replace (Z.of_nat (16 + k) + 1) with (Z.of_nat (16 + S k)) by lia. cbv zeta in IH |- *.
  set (m1 := write32 (w + 4 * Z.of_nat (16 + k)) _ m).
  assert (H1 : outside (w + 4 * Z.of_nat (16 + k)) 4 m m1) by apply outside_write32.
  destruct (IH (S k) m1) as (Hok & Hout & Hval); [subst m1; auto with mem|done| |].
  - intros j Hj. cbn [Fips.schedule]. destruct (decide (j = 16 + k)%nat) as [->|Hne].
    + rewrite app_nth2, length_schedule, Hb, Nat.sub_diag by (rewrite length_schedule; lia). cbn [nth].
      unfold word_at. subst m1. rewrite read32_write32_eq.
      assert (HR : forall z d, z = Z.of_nat d -> (0 < d <= 16)%nat ->
        read32 m (w + 4 * (Z.of_nat (16 + k) - z)) = nth (16 + k - d) (Fips.schedule k block) 0).
      { intros z d -> Hd. rewrite <- HW by lia. unfold word_at. f_equal. lia. }
      rewrite (HR 3 3%nat), (HR 8 8%nat), (HR 14 14%nat), (HR 16 16%nat), u32_small by (lia || apply u32_range).
      apply rol_S; [|simpl; tauto]. repeat apply lxor_word; rewrite <- HW by lia; by apply read32_range.
    + rewrite app_nth1 by (rewrite length_schedule; lia). rewrite <- HW by lia.
      unfold word_at. apply (outside_read32 _ _ _ _ _ H1). lia.
  - rewrite <- (Nat.add_succ_comm k n). split_and!; [done| |exact Hval].
    eapply outside_trans; [eapply outside_mono; [exact H1|lia..]|eapply outside_mono; [exact Hout|lia..]].
Qed.

Lemma round_loop_spec w m W n : forall t s, bytes_ok m -> (t + n <= 80)%nat ->
  (forall j, (j < 80)%nat -> word_at w m j = nth j W 0) -> working_ok s ->
  round_loop n (Z.of_nat t) w m s = foldl (Fips.step W) s (seq t n) /\
  working_ok (round_loop n (Z.of_nat t) w m s).
Proof.
  induction n as [|n IH]; intros t [[[[a b] c] d] e] Hm Ht HW Hs; [done|]. cbn [round_loop seq foldl].
  destruct Hs as (Ha & Hb & Hc & Hd & He). pose proof (round_f_spec t b c d Hb) as Hf.
  destruct (round_f (Z.of_nat t) b c d) as [f idx]. cbn [fst snd] in Hf. destruct Hf as [-> HK].
  replace (Z.of_nat t + 1) with (Z.of_nat (S t)) by lia. cbv zeta.
  assert (Hstep : Fips.step W (a, b, c, d, e) t =
    (u32 (rol a 5 + Fips.f t b c d + e + sha_ko idx + read32 m (w + 4 * Z.of_nat t)), a, rol b 30, c, d)).
  { unfold Fips.step. rewrite !rol_S by (done || simpl; tauto). rewrite HK, <- HW by lia. unfold u32, word_at.
    do 4 f_equal. f_equal. lia. }
  rewrite Hstep. apply IH; [done|lia|done|]. split_and!; try done; apply u32_range.
Qed.

Definition ctx_words (ctx : Z) (m : memory) : working :=
  (read32 m (ctx_h ctx 0), read32 m (ctx_h ctx 1), read32 m (ctx_h ctx 2), read32 m (ctx_h ctx 3), read32 m (ctx_h ctx 4)).

Lemma ctx_words_ok ctx m : bytes_ok m -> working_ok (ctx_words ctx m).
Proof. intros Hm. split_and!; by apply read32_range. Qed.

Lemma nth_words j : forall l, (4 * j + 3 < length l)%nat ->
  nth j (Fips.words l) 0 =
  nth (4 * j) l 0 * 2 ^ 24 + nth (4 * j + 1) l 0 * 2 ^ 16 + nth (4 * j + 2) l 0 * 2 ^ 8 + nth (4 * j + 3) l 0.
Proof.
  induction j as [|j IH]; intros l Hl; destruct l as [|a [|b [|c [|d l]]]]; simpl in Hl; try lia; [done|].
  replace (4 * S j)%nat with (S (S (S (S (4 * j))))) by lia. cbn [Fips.words nth Nat.add]. apply IH. lia.
Qed.

Lemma length_words n : forall l, length l = (4 * n)%nat -> length (Fips.words l) = n.
Proof.
  induction n as [|n IH]; intros l Hl; destruct l as [|a [|b [|c [|d l]]]]; simpl in Hl; try lia; [done|].
  cbn [Fips.words length]. f_equal. apply IH. lia.
Qed.

Lemma swab32_word_at w m j n : bytes_ok m -> (j < n)%nat ->
  swab32 (word_at w m j) = nth j (Fips.words (read_bytes (4 * n) w m)) 0.
Proof.
  intros Hm Hj. rewrite nth_words by (rewrite length_read_bytes; lia). rewrite !nth_read_bytes by lia.
  unfold word_at, read32, read16.
  replace (w + Z.of_nat (4 * j)) with (w + 4 * Z.of_nat j) by lia.
  replace (w + Z.of_nat (4 * j + 1)) with (w + 4 * Z.of_nat j + 1) by lia.
  replace (w + Z.of_nat (4 * j + 2)) with (w + 4 * Z.of_nat j + 2) by lia.
  replace (w + Z.of_nat (4 * j + 3)) with (w + 4 * Z.of_nat j + 2 + 1) by lia.
  set (x := w + 4 * Z.of_nat j). pose proof (Hm x). pose proof (Hm (x + 1)). pose proof (Hm (x + 2)). pose proof (Hm (x + 2 + 1)).
  match goal with |- swab32 (?a + 2 ^ 8 * ?b + 2 ^ 16 * (?c + 2 ^ 8 * ?d)) = _ =>
    replace (a + 2 ^ 8 * b + 2 ^ 16 * (c + 2 ^ 8 * d)) with (a + b * 2 ^ 8 + c * 2 ^ 16 + d * 2 ^ 24) by lia end.
  rewrite swab32_of_bytes by done. lia.
Qed.

(** The local arrays, and what a step may change. *)
Section Arrays.
Context (w ctx : Z).
Context (arrays_apart : ctx + 20 <= w \/ w + 320 <= ctx).

Definition scratch (m m' : memory) : Prop :=
  forall x, (x < w \/ w + 320 <= x) -> (x < ctx \/ ctx + 20 <= x) -> read8 m' x = read8 m x.

Lemma scratch_refl m : scratch m m.
Proof. by intros x _ _. Qed.
Lemma scratch_trans m1 m2 m3 : scratch m1 m2 -> scratch m2 m3 -> scratch m1 m3.
Proof. intros H1 H2 x Hw Hc. by rewrite H2, H1. Qed.
Lemma scratch_w a n m m' : outside a n m m' -> w <= a -> a + n <= w + 320 -> scratch m m'.
Proof. intros H H1 H2 x Hw Hc. apply H. lia. Qed.
Lemma scratch_ctx a n m m' : outside a n m m' -> ctx <= a -> a + n <= ctx + 20 -> scratch m m'.
Proof. intros H H1 H2 x Hw Hc. apply H. lia. Qed.

Lemma ctx_words_outside a n m m' : outside a n m m' -> w <= a -> a + n <= w + 320 ->
  ctx_words ctx m' = ctx_words ctx m.
Proof. intros H H1 H2. unfold ctx_words, ctx_h. by rewrite !(outside_read32 _ _ _ _ _ H) by lia. Qed.

Lemma block_words m n : bytes_ok m ->
  forall j, (j < n)%nat -> word_at w (swap_loop n 0 w m) j = nth j (Fips.words (read_bytes (4 * n) w m)) 0.
Proof.
  intros Hm j Hj. destruct (swap_loop_spec w n 0 m Hm) as (_ & _ & H). change 0 with (Z.of_nat 0).
  rewrite H by lia. by apply swab32_word_at.
Qed.

(** Adding the working variables to the chaining value. *)
Lemma add_words a b c d e m : bytes_ok m ->
  let add i x m := write32 (ctx_h ctx i) (read32 m (ctx_h ctx i) + x) m in
  let m' := add 4 e (add 3 d (add 2 c (add 1 b (add 0 a m)))) in
  let '(h0, h1, h2, h3, h4) := ctx_words ctx m in
  bytes_ok m' /\ outside ctx 20 m m' /\
  ctx_words ctx m' = (u32 (h0 + a), u32 (h1 + b), u32 (h2 + c), u32 (h3 + d), u32 (h4 + e)).
Proof.
  intros Hm. unfold ctx_words, ctx_h. cbv zeta. split_and!.
  - auto 7 with mem.
  - intros x Hx. rewrite !read8_write32_ne by lia. done.
  - repeat first [rewrite read32_write32_eq | rewrite read32_write32_ne by lia]. done.
Qed.

Lemma sha1_block_spec m : bytes_ok m -> let m' := sha1_block w ctx m in
  bytes_ok m' /\ scratch m m' /\
  ctx_words ctx m' = Fips.compress (ctx_words ctx m) (Fips.words (read_bytes 64 w m)).
Proof.
  intros Hm. unfold sha1_block. set (block := Fips.words (read_bytes 64 w m)).
  destruct (swap_loop_spec w 16 0 m Hm) as (Hm1 & Hout1 & _). pose proof (block_words m 16 Hm) as Hw1.
  change (Z.of_nat 0) with 0 in *. set (m1 := swap_loop 16 0 w m) in *.
  destruct (schedule_loop_spec w block 64 0 m1 Hm1) as (Hm2 & Hout2 & Hw2);
    [apply length_words; by rewrite length_read_bytes|intros j Hj; apply Hw1; lia|].
  change (Z.of_nat (16 + 0)) with 16 in *. change (0 + 64)%nat with 64%nat in *. set (m2 := schedule_loop 64 16 w m1) in *.
  assert (Hc1 : ctx_words ctx m1 = ctx_words ctx m) by (apply (ctx_words_outside _ _ _ _ Hout1); lia).
  assert (Hc2 : ctx_words ctx m2 = ctx_words ctx m) by (rewrite <- Hc1; apply (ctx_words_outside _ _ _ _ Hout2); lia).
  destruct (round_loop_spec w m2 (Fips.schedule 64 block) 80 0 (ctx_words ctx m2) Hm2 ltac:(lia) Hw2
    (ctx_words_ok ctx m2 Hm2)) as [Hr _].
  change (Z.of_nat 0) with 0 in Hr. rewrite Hc2 in Hr.
  assert (Hcomp : Fips.compress (ctx_words ctx m) block =
    let '(A, B, C, D, E) := round_loop 80 0 w m2 (ctx_words ctx m) in let '(H0, H1, H2, H3, H4) := ctx_words ctx m in
    (u32 (H0 + A), u32 (H1 + B), u32 (H2 + C), u32 (H3 + D), u32 (H4 + E))) by (rewrite Hr; reflexivity).
  rewrite Hcomp. clear Hr Hcomp.
  change (read32 m2 (ctx_h ctx 0), read32 m2 (ctx_h ctx 1), read32 m2 (ctx_h ctx 2),
    read32 m2 (ctx_h ctx 3), read32 m2 (ctx_h ctx 4)) with (ctx_words ctx m2).
  rewrite Hc2. destruct (round_loop 80 0 w m2 (ctx_words ctx m)) as [[[[a b] c] d] e].
  pose proof (add_words a b c d e m2 Hm2) as Hadd. cbv zeta in Hadd. rewrite Hc2 in Hadd.
  destruct (ctx_words ctx m) as [[[[h0 h1] h2] h3] h4]. destruct Hadd as (Hok & Hout3 & Hval).
  split_and!; [exact Hok| |exact Hval].
  eapply scratch_trans; [eapply scratch_trans|].
  - apply (scratch_w _ _ _ _ Hout1); lia.
  - apply (scratch_w _ _ _ _ Hout2); lia.
  - apply (scratch_ctx _ _ _ _ Hout3); lia.
Qed.

(** ** Whole messages *)


Definition apart (a n : Z) : Prop := (a + n <= w \/ w + 320 <= a) /\ (a + n <= ctx \/ ctx + 20 <= a).

Lemma scratch_read_bytes n a m m' : scratch m m' -> apart a (Z.of_nat n) -> read_bytes n a m' = read_bytes n a m.
Proof. intros H [H1 H2]. apply read_bytes_ext. intros b Hb. apply H; lia. Qed.


(** The chunks: [k] of them from [offset] on. *)
Lemma chunk_loop_spec data length n k : forall fuel offset bits m,
  bytes_ok m -> 0 <= offset -> Z.of_nat n + offset = length -> length < 2 ^ 29 -> Z.of_nat k = Z.of_nat n / 64 -> (k <= fuel)%nat ->
  bits = 8 * offset -> apart data length ->
  exists m', chunk_loop w ctx fuel data length offset bits m =
    Some (offset + 64 * Z.of_nat k, 8 * (offset + 64 * Z.of_nat k), m') /\
  bytes_ok m' /\ scratch m m' /\
  ctx_words ctx m' = Fips.blocks k (ctx_words ctx m) (read_bytes n (data + offset) m).
Proof.
  revert n. induction k as [|k IH]; intros n fuel offset bits m Hm Ho Hn Hlen Hk Hfuel -> [Ha1 Ha2].
  - exists m. destruct fuel; cbn [chunk_loop]; unfold u32;
      replace (length - offset) with (Z.of_nat n) by lia; (destruct (Z.leb_spec 64 (Z.of_nat n mod 2 ^ 32)); [lia|]);
      rewrite Z.add_0_r; eauto using scratch_refl.
  - destruct fuel as [|fuel]; [lia|]. cbn [chunk_loop].
    assert (Hn64 : 64 <= Z.of_nat n) by lia.
    assert (Hk' : Z.of_nat k = Z.of_nat (n - 64) / 64) by lia.
    assert (Hn' : Z.of_nat (n - 64) + (offset + 64) = length) by lia.
    rewrite (u32_small (length - offset)), (u32_small (offset + 64)), (u32_small (8 * offset + 64 * 8)) by lia.
    destruct (Z.leb_spec 64 (length - offset)) as [Hge|]; [|lia]. cbv zeta. clear Hk.
    pose proof (memcpy_spec w (data + offset) 64 m Hm ltac:(lia) ltac:(lia)) as Hcp.
    set (m1 := memcpy w (data + offset) 64 m) in *.
    destruct (sha1_block_spec m1 (copied_ok _ _ _ _ _ Hcp Hm)) as (Hm2 & Hs2 & Hc2).
    set (m2 := sha1_block w ctx m1) in *.
    assert (Hs1 : scratch m m1) by (apply (scratch_w w 64); [by eapply copied_outside|lia..]).
    assert (Hs : scratch m m2) by (by eapply scratch_trans).
    clearbody m2 m1.
    destruct (IH (n - 64)%nat fuel (offset + 64) (8 * offset + 64 * 8) m2) as (m3 & -> & Hok & Hs3 & Hc3);
      [exact Hm2|clear -Ho; lia|exact Hn'|exact Hlen|exact Hk'|clear -Hfuel; lia|clear; lia|exact (conj Ha1 Ha2)|].
    exists m3. split_and!; [do 3 f_equal; clear; lia|exact Hok|by eapply scratch_trans|].
    rewrite Hc3. cbn [Fips.blocks]. rewrite read_bytes_take, read_bytes_drop by lia. f_equal.
    + rewrite Hc2. f_equal.
      * apply (ctx_words_outside w 64); [by eapply copied_outside|lia..].
      * f_equal. by apply (copied_bytes _ _ 64).
    + replace (data + (offset + 64)) with (data + offset + Z.of_nat 64) by lia.
      apply scratch_read_bytes; [done|]. split; lia.
Qed.

(** ** The last block *)


Lemma le_list_swab32 v : is_word v -> le_list 4 (swab32 v) = Fips.be32 v.
Proof.
  intros Hv. destruct (word_bytes v Hv) as (a & b & c & d & Ha & Hb & Hc & Hd & ->).
  rewrite swab32_of_bytes by done. unfold Fips.be32. cbn [le_list rev app]. unfold is_byte, u8 in *.
  clear Hv. repeat (apply (f_equal2 cons); [lia|]); reflexivity.
Qed.

Lemma read_bytes_bits bits a m : is_word bits -> bytes_ok m ->
  read_bytes 8 a (write64 a (swab64 bits) m) = Fips.be64 bits.
Proof.
  intros Hb Hm. change 8%nat with (4 + 4)%nat. rewrite read_bytes_app. change (Z.of_nat 4) with 4.
  assert (bytes_ok (write64 a (swab64 bits) m)) by (unfold write64; auto with mem).
  rewrite !read_bytes_le32 by done. unfold write64. rewrite read32_write32_eq, read32_write32_ne, read32_write32_eq by lia.
  unfold is_word in Hb. rewrite swab64_halves by lia. rewrite Z.mod_small, Z.div_small by lia.
  change (swab32 0) with 0. rewrite Z.add_0_r, Z.div_mul by lia.
  rewrite (u32_small (swab32 bits)) by apply swab32_range. rewrite le_list_swab32 by done.
  unfold u32. rewrite Z_mod_mult. destruct (word_bytes bits Hb) as (x & b & c & d & Hx & Hb' & Hc & Hd & ->).
  unfold Fips.be64, Fips.be32, is_byte in *. cbn [le_list rev app]. unfold u8. clear Hb. repeat (apply (f_equal2 cons); [lia|]); reflexivity.
Qed.


Lemma outside_write64 a v m : outside a 8 m (write64 a v m).
Proof.
  unfold write64. apply (outside_trans _ _ _ (write32 a v m)).
  - apply (outside_mono a 4); [apply outside_write32|lia..].
  - apply (outside_mono (a + 4) 4); [apply outside_write32|lia..].
Qed.
Lemma bytes_ok_write64 a v m : bytes_ok m -> bytes_ok (write64 a v m).
Proof. intros. unfold write64. auto with mem. Qed.

(** The rest of the message, the one bit and zeros fill the block. *)
Lemma fill_spec src num m : bytes_ok m -> (num < 64)%nat -> apart src (Z.of_nat num) ->
  let m1 := write8 (w + Z.of_nat num) 0x80 (memcpy w src (Z.of_nat num) m) in
  let m2 := if 0 <? 64 - (Z.of_nat num + 1)
            then memset (w + (Z.of_nat num + 1)) 0 (64 - (Z.of_nat num + 1)) m1 else m1 in
  bytes_ok m2 /\ outside w 64 m m2 /\
  read_bytes 64 w m2 = read_bytes num src m ++ [0x80] ++ replicate (63 - num) 0.
Proof.
  intros Hm Hnum [Ha1 Ha2] m1 m2.
  pose proof (memcpy_spec w src (Z.of_nat num) m Hm ltac:(lia) ltac:(lia)) as Hcp.
  assert (Hok1 : bytes_ok m1) by (subst m1; apply bytes_ok_write8; by eapply copied_ok).
  assert (Hout1 : outside w 64 m m1).
  { subst m1. eapply outside_trans; [eapply outside_mono; [by eapply copied_outside|lia..]|].
    eapply outside_mono; [apply outside_write8|lia..]. }
  assert (Hm2 : m2 = memset (w + (Z.of_nat num + 1)) 0 (Z.of_nat (63 - num)) m1).
  { subst m2. destruct (Z.ltb_spec 0 (64 - (Z.of_nat num + 1))); [f_equal; lia|].
    by replace (63 - num)%nat with O by lia. }
  clearbody m2. subst m2.
  pose proof (memset_outside (w + (Z.of_nat num + 1)) 0 (Z.of_nat (63 - num)) m1 ltac:(lia)) as Hout2.
  split_and!; [apply bytes_ok_memset; [lia|done]| |].
  { eapply outside_trans; [exact Hout1|]. eapply outside_mono; [exact Hout2|lia..]. }
  replace 64%nat with (num + (1 + (63 - num)))%nat at 1 by lia. rewrite !read_bytes_app. f_equal; [|f_equal].
  - rewrite (outside_read_bytes _ _ _ _ _ _ Hout2) by lia. subst m1.
    rewrite (outside_read_bytes _ _ _ _ _ _ (outside_write8 _ _ _)) by lia. by apply copied_bytes.
  - rewrite (outside_read_bytes _ _ _ _ _ _ Hout2) by lia. subst m1. cbn [read_bytes]. by rewrite read8_write8_eq.
  - replace (w + Z.of_nat num + Z.of_nat 1) with (w + (Z.of_nat num + 1)) by lia. apply memset_bytes.
Qed.

(** The length in bits ends the block. *)
Lemma finish_spec bits front m : bytes_ok m -> is_word bits -> read_bytes 56 w m = front ->
  let m' := sha1_block w ctx (write64 (w + 4 * 14) (swab64 bits) m) in
  bytes_ok m' /\ scratch m m' /\
  ctx_words ctx m' = Fips.compress (ctx_words ctx m) (Fips.words (front ++ Fips.be64 bits)).
Proof.
  intros Hm Hbits <-. cbv zeta. set (m1 := write64 _ _ m).
  pose proof (outside_write64 (w + 4 * 14) (swab64 bits) m) as Hout. fold m1 in Hout.
  destruct (sha1_block_spec m1) as (Hok & Hs & Hc); [by apply bytes_ok_write64|].
  split_and!; [exact Hok|eapply scratch_trans; [apply (scratch_w _ _ _ _ Hout); lia|exact Hs]|].
  rewrite Hc. f_equal.
  - apply (ctx_words_outside _ _ _ _ Hout); lia.
  - f_equal. change 64%nat with (56 + 8)%nat. rewrite read_bytes_app. f_equal.
    + apply (outside_read_bytes _ _ _ _ _ _ Hout). lia.
    + apply (read_bytes_bits bits (w + 4 * 14) m Hbits Hm).
Qed.

Lemma blocks_plus k e : forall H l, Fips.blocks (k + e) H l = Fips.blocks e (Fips.blocks k H l) (drop (64 * k) l).
Proof.
  induction k as [|k IH]; intros H l; [done|]. cbn [Nat.add Fips.blocks]. rewrite IH, drop_drop.
  do 2 f_equal. lia.
Qed.
Lemma blocks_prefix k : forall H l l', (64 * k <= length l)%nat -> Fips.blocks k H (l ++ l') = Fips.blocks k H l.
Proof.
  induction k as [|k IH]; intros H l l' Hl; [done|]. cbn [Fips.blocks].
  rewrite take_app_le, drop_app_le by lia. apply IH. rewrite length_drop. lia.
Qed.
Lemma blocks_1 H l : length l = 64%nat -> Fips.blocks 1 H l = Fips.compress H (Fips.words l).
Proof. intros Hl. cbn [Fips.blocks]. by rewrite take_ge by lia. Qed.
Lemma blocks_2 H l l' : length l = 64%nat -> length l' = 64%nat ->
  Fips.blocks 2 H (l ++ l') = Fips.compress (Fips.compress H (Fips.words l)) (Fips.words l').
Proof.
  intros Hl Hl'. cbn [Fips.blocks]. by rewrite take_app_length', drop_app_length', (take_ge l') by lia.
Qed.

(** From the last whole block on: one more block, or two. *)
Lemma last_blocks src num bits m : bytes_ok m -> (num < 64)%nat -> apart src (Z.of_nat num) -> is_word bits ->
  let m1 := write8 (w + Z.of_nat num) 0x80 (memcpy w src (Z.of_nat num) m) in
  let m2 := if 0 <? 64 - (Z.of_nat num + 1)
            then memset (w + (Z.of_nat num + 1)) 0 (64 - (Z.of_nat num + 1)) m1 else m1 in
  let m3 := if 56 <=? Z.of_nat num then memset w 0 60 (sha1_block w ctx m2) else m2 in
  let m' := sha1_block w ctx (write64 (w + 4 * 14) (swab64 bits) m3) in
  let e := if (num <? 56)%nat then 1%nat else 2%nat in
  bytes_ok m' /\ scratch m m' /\
  ctx_words ctx m' = Fips.blocks e (ctx_words ctx m)
    (read_bytes num src m ++ [0x80] ++ replicate (64 * e - 9 - num) 0 ++ Fips.be64 bits).
Proof.
  intros Hm Hnum Ha Hbits m1 m2. destruct (fill_spec src num m Hm Hnum Ha) as (Hm2 & Hout2 & Hrd).
  cbv zeta in Hm2, Hout2, Hrd. fold m1 in Hm2, Hout2, Hrd. fold m2 in Hm2, Hout2, Hrd. clearbody m2. clear m1.
  assert (Hs2 : scratch m m2) by (apply (scratch_w _ _ _ _ Hout2); lia).
  assert (Hc2 : ctx_words ctx m2 = ctx_words ctx m) by (apply (ctx_words_outside _ _ _ _ Hout2); lia).
  pose proof (length_read_bytes num src m) as Hlen.
  destruct (Nat.ltb_spec num 56) as [Hlt|Hge].
  - destruct (Z.leb_spec 56 (Z.of_nat num)); [lia|]. cbv zeta.
    destruct (finish_spec bits _ m2 Hm2 Hbits eq_refl) as (Hok & Hs & Hc). cbv zeta in Hok, Hs, Hc.
    split_and!; [exact Hok|by eapply scratch_trans|]. rewrite Hc, Hc2, blocks_1.
    + do 2 f_equal. rewrite <- (read_bytes_take 64 56 w m2), Hrd by lia.
      replace (63 - num)%nat with (64 * 1 - 9 - num + 8)%nat by lia. rewrite replicate_add, !app_assoc.
      rewrite take_app_length' by (rewrite !length_app, length_replicate; simpl; lia). done.
    + rewrite !length_app, length_replicate, Hlen. simpl length. lia.
  - destruct (Z.leb_spec 56 (Z.of_nat num)); [|lia]. cbv zeta.
    destruct (sha1_block_spec m2 Hm2) as (Hm3 & Hs3 & Hc3). cbv zeta in Hm3, Hs3, Hc3.
    set (m3 := sha1_block w ctx m2) in *. clearbody m3.
    pose proof (memset_outside w 0 60 m3 ltac:(lia)) as Hout4.
    assert (Hfront : read_bytes 56 w (memset w 0 60 m3) = replicate 56 0).
    { change 60 with (Z.of_nat 60). rewrite <- (read_bytes_take 60 56), memset_bytes by lia. done. }
    destruct (finish_spec bits _ (memset w 0 60 m3) (bytes_ok_memset w 0 60 m3 ltac:(lia) Hm3) Hbits Hfront)
      as (Hok & Hs & Hc). cbv zeta in Hok, Hs, Hc.
    split_and!; [exact Hok| |].
    + eapply scratch_trans; [exact Hs2|]. eapply scratch_trans; [exact Hs3|]. eapply scratch_trans; [|exact Hs].
      apply (scratch_w _ _ _ _ Hout4); lia.
    + rewrite Hc, (ctx_words_outside _ _ _ _ Hout4), Hc3, Hc2, Hrd by lia.
      replace (64 * 2 - 9 - num)%nat with (63 - num + 56)%nat by lia. rewrite replicate_add, <- app_assoc, !app_assoc.
      rewrite <- (app_assoc _ (replicate 56 0) _), blocks_2; [done| |by rewrite length_app, length_replicate].
      rewrite !length_app, length_replicate, Hlen. simpl length. lia.
Qed.

Lemma result_loop_swap n : forall i m, result_loop ctx n i m = swap_loop n i ctx m.
Proof. induction n as [|n IH]; intros i m; cbn [result_loop swap_loop]; [done|]. apply IH. Qed.

Lemma result_spec m : bytes_ok m -> let m' := result_loop ctx 5 0 m in
  bytes_ok m' /\ scratch m m' /\ read_bytes 20 ctx m' = Fips.digest (ctx_words ctx m).
Proof.
  intros Hm. rewrite result_loop_swap. destruct (swap_loop_spec ctx 5 0 m Hm) as (Hok & Hout & Hval).
  change (Z.of_nat 0) with 0 in *. cbv zeta. split_and!; [exact Hok|apply (scratch_ctx _ _ _ _ Hout); lia|].
  change 20%nat with (4 + (4 + (4 + (4 + 4))))%nat. rewrite !read_bytes_app, !read_bytes_le32 by exact Hok.
  assert (Hj : forall a j, (j < 5)%nat -> a = ctx + 4 * Z.of_nat j ->
    le_list 4 (read32 (swap_loop 5 0 ctx m) a) = Fips.be32 (read32 m a)).
  { intros a j Hj ->. change (read32 ?m' (ctx + 4 * Z.of_nat j)) with (word_at ctx m' j).
    rewrite Hval by lia. apply le_list_swab32. by apply read32_range. }
  rewrite (Hj _ 0%nat), (Hj _ 1%nat), (Hj _ 2%nat), (Hj _ 3%nat), (Hj _ 4%nat) by lia.
  unfold Fips.digest, ctx_words, ctx_h.
  change (Z.of_nat 4) with 4. replace (ctx + 4 + 4) with (ctx + 8) by lia. replace (ctx + 8 + 4) with (ctx + 12) by lia.
  replace (ctx + 12 + 4) with (ctx + 16) by lia. change (4 * 0) with 0. by rewrite Z.add_0_r.
Qed.

Lemma pad_split msg k num : length msg = (64 * k + num)%nat -> (num < 64)%nat ->
  let e := if (num <? 56)%nat then 1%nat else 2%nat in
  length (Fips.pad msg) = (64 * (k + e))%nat /\
  drop (64 * k) (Fips.pad msg) = drop (64 * k) msg ++ [0x80] ++ replicate (64 * e - 9 - num) 0 ++
    Fips.be64 (8 * Z.of_nat (length msg)).
Proof.
  intros Hl Hnum e. unfold Fips.pad.
  replace (Z.to_nat _) with (64 * e - 9 - num)%nat.
  2: { subst e. destruct (Nat.ltb_spec num 56); rewrite Hl; lia. }
  split; [|apply drop_app_le; lia].
  rewrite !length_app, length_replicate, Hl. simpl length. subst e. destruct (Nat.ltb_spec num 56); lia.
Qed.

Lemma sha1_do_spec fuel data length m : bytes_ok m -> 0 <= length < 2 ^ 29 -> (Z.to_nat (length / 64) <= fuel)%nat ->
  apart data length ->
  exists m', sha1_do w ctx fuel data length m = Some m' /\ bytes_ok m' /\ scratch m m' /\
  let p := Fips.pad (read_bytes (Z.to_nat length) data m) in
  read_bytes 20 ctx m' = Fips.digest (Fips.blocks (List.length p / 64) (ctx_words ctx m) p).
Proof.
  intros Hm Hl Hf Ha. set (k := Z.to_nat (length / 64)) in *. set (num := Z.to_nat (length mod 64)).
  assert (Hk : Z.of_nat k = length / 64) by lia. assert (Hn : Z.of_nat num = length mod 64) by lia.
  clearbody k num.
  destruct (chunk_loop_spec data length (Z.to_nat length) k fuel 0 0 m) as (m1 & Hrun & Hm1 & Hs1 & Hc1);
    try exact Hm; try exact Ha; try exact Hf; try lia.
  unfold sha1_do. rewrite Hrun. rewrite Z.add_0_l, Z.add_0_r in *.
  rewrite (u16_small (length - 64 * Z.of_nat k)) by lia.
  replace (length - 64 * Z.of_nat k) with (Z.of_nat num) by lia.
  rewrite Z.shiftl_mul_pow2, u32_small by lia.
  replace (8 * (64 * Z.of_nat k) + Z.of_nat num * 2 ^ 3) with (8 * length) by lia. cbv zeta.
  destruct (last_blocks (data + 64 * Z.of_nat k) num (8 * length) m1) as (Hm2 & Hs2 & Hc2);
    [exact Hm1|lia|split; destruct Ha; lia|split; lia|]. cbv zeta in Hm2, Hs2, Hc2.
  match goal with |- context [result_loop ctx 5 0 ?x] => set (m2 := x) in *; clearbody m2 end.
  destruct (result_spec m2 Hm2) as (Hm3 & Hs3 & Hc3). cbv zeta in Hm3, Hs3, Hc3.
  eexists. split; [reflexivity|]. split_and!; [exact Hm3|by repeat (eapply scratch_trans; [eassumption|])|].
  rewrite Hc3, Hc2, Hc1. f_equal. set (msg := read_bytes (Z.to_nat length) data m).
  assert (Hlen : List.length msg = (64 * k + num)%nat) by (unfold msg; rewrite length_read_bytes; lia).
  destruct (pad_split msg k num Hlen ltac:(lia)) as [-> Hdrop].
  rewrite (Nat.mul_comm 64 (k + _)), Nat.div_mul, blocks_plus, Hdrop by lia. f_equal.
  - symmetry. apply blocks_prefix. lia.
  - f_equal; [|rewrite Hlen; do 3 f_equal; lia]. unfold msg. rewrite read_bytes_drop by lia.
    rewrite (scratch_read_bytes num _ m m1 Hs1) by (split; destruct Ha; lia). f_equal; lia.
Qed.

End Arrays.

Lemma sha1_run w ctx fuel data length hash m :
  bytes_ok m -> ctx + 20 <= w \/ w + 320 <= ctx -> 0 <= length < 2 ^ 29 -> (Z.to_nat (length / 64) <= fuel)%nat ->
  apart w ctx data length -> ctx + 20 <= hash \/ hash + 20 <= ctx ->
  exists m', sha1 true w ctx fuel data length hash m = Some (0, m') /\
  bytes_ok m' /\ read_bytes 20 hash m' = Fips.SHA1 (read_bytes (Z.to_nat length) data m) /\
  forall x, (x < w \/ w + 320 <= x) -> (x < ctx \/ ctx + 20 <= x) -> (x < hash \/ hash + 20 <= x) ->
    read8 m' x = read8 m x.
Proof.
  intros Hm Harr Hl Hf Ha Hh. unfold sha1. cbn [negb].
  set (m1 := write32 _ _ (write32 _ _ _)). assert (Hm1 : bytes_ok m1) by (subst m1; auto 7 with mem).
  assert (Hs1 : scratch w ctx m m1).
  { intros x Hw Hc. subst m1. unfold ctx_h. rewrite !read8_write32_ne by lia. done. }
  assert (Hc1 : ctx_words ctx m1 = Fips.H_init).
  { subst m1. unfold ctx_words, ctx_h.
    repeat first [rewrite read32_write32_eq | rewrite read32_write32_ne by lia]. reflexivity. }
  clearbody m1. destruct (sha1_do_spec w ctx Harr fuel data length m1 Hm1 Hl Hf Ha) as (m2 & -> & Hm2 & Hs2 & Hd).
  cbv zeta in Hd. rewrite Hc1, (scratch_read_bytes _ _ Harr _ _ _ _ Hs1) in Hd by (rewrite Z2Nat.id by lia; exact Ha).
  unfold ctx_h. rewrite Z.add_0_r.
  pose proof (memcpy_spec hash ctx 20 m2 Hm2 ltac:(lia) ltac:(lia)) as Hcp.
  eexists. split; [reflexivity|]. split; [by apply (copied_ok _ _ _ _ _ Hcp)|]. split.
  - unfold Fips.SHA1. cbv zeta. rewrite <- Hd. by apply (copied_bytes hash ctx 20).
  - intros x Hx1 Hx2 Hx3. rewrite (copied_outside _ _ _ _ _ Hcp) by done. rewrite Hs2, Hs1 by done. done.
Qed.

(** C10: [sha1] computes SHA-1.  For data of less than 2^29 bytes (the 32-bit
    count of bits) apart from the two local arrays, and a place for the result
    apart from them, given a step of fuel for each whole block the function
    returns 0, the 20 bytes at [hash] are the digest the standard defines of the
    data, and nothing else in memory changes but the arrays. *)
Theorem sha1_correct w ctx fuel data length hash m :
  bytes_ok m -> ctx + 20 <= w \/ w + 320 <= ctx -> 0 <= length < 2 ^ 29 -> (Z.to_nat (length / 64) <= fuel)%nat ->
  apart w ctx data length -> ctx + 20 <= hash \/ hash + 20 <= ctx ->
  exists m', sha1 true w ctx fuel data length hash m = Some (0, m') /\
  read_bytes 20 hash m' = Fips.SHA1 (read_bytes (Z.to_nat length) data m) /\
  forall x, (x < w \/ w + 320 <= x) -> (x < ctx \/ ctx + 20 <= x) -> (x < hash \/ hash + 20 <= x) ->
    read8 m' x = read8 m x.
Proof.
  intros Hm Harr Hl Hf Ha Hh. destruct (sha1_run w ctx fuel data length hash m Hm Harr Hl Hf Ha Hh) as (m' & Hr & _ & Hd).
  by exists m'.
Qed.

Lemma sha1_correct_witness :
  exists m', sha1 true 0x1000 0x2000 1 0x3000 56 0x4000 (write_bytes 0x3000 abcdbcde ∅) = Some (0, m') /\
  read_bytes 20 0x4000 m' = Fips.SHA1 abcdbcde.
Proof.
  destruct (sha1_correct 0x1000 0x2000 1 0x3000 56 0x4000 (write_bytes 0x3000 abcdbcde ∅)) as (m' & H1 & H2 & _);
    [apply bytes_ok_write_bytes, bytes_ok_empty|lia|lia|vm_compute; lia|split; lia|lia|].
  exists m'. split; [exact H1|]. rewrite H2. vm_compute. reflexivity.
Defined.
