(* ===== verification/Tcg.v ===== *)
(** * TPM measurements and the event log: src/tcgbios.c

    The log area, the digests of a TPM 1.2 or 2.0, the commands to the device
    and the INT 1Ah interface.  The driver below [tpmhw_transmit] and
    [malloc_high] are parameters.  Local structs and constant strings are areas
    of memory: their addresses are in the class [Frame]. *)
From Stdlib Require Import Ascii String.
From S2P Require Import Prelude Machine StringOps Bytes Sha1.
Local Open Scope seabios_scope.

(** ** Constants: src/std/tcg.h, src/hw/tpm_drivers.h *)

Definition SHA1_BUFSIZE := 20.
Definition TPM2_ALG_SHA1 := 0x0004.
Definition TPM2_ALG_SHA256 := 0x000b.
Definition TPM2_ALG_SHA384 := 0x000c.
Definition TPM2_ALG_SHA512 := 0x000d.
Definition TPM2_ALG_SM3_256 := 0x0012.
Definition TPM_VERSION_NONE := 0.
Definition TPM_VERSION_1_2 := 1.
Definition TPM_VERSION_2 := 2.
Definition TPM_TAG_RQU_CMD := 0x00c1.
Definition TPM2_ST_NO_SESSIONS := 0x8001.
Definition TPM2_ST_SESSIONS := 0x8002.
Definition TPM_DURATION_TYPE_SHORT := 0.
Definition TPM_DURATION_TYPE_MEDIUM := 1.
Definition TPM_DURATION_TYPE_LONG := 2.
Definition EV_NO_ACTION := 3.
Definition EV_SEPARATOR := 4.
Definition EV_ACTION := 5.
Definition EV_EVENT_TAG := 6.
Definition EV_COMPACT_HASH := 12.
Definition EV_IPL := 13.
Definition EV_IPL_PARTITION_DATA := 14.
Definition TCG_PC_LOGOVERFLOW := 2.
Definition TCG_PC_UNSUPPORTED := 3.
Definition TCG_GENERAL_ERROR := 1.
Definition TCG_FATAL_COM_ERROR := 1 + 0x17.
Definition TCG_INVALID_INPUT_PARA := 1 + 0x18.
Definition TCG_TCG_COMMAND_ERROR := 1 + 0x19.
Definition TCG_INTERFACE_SHUTDOWN := 1 + 0x20.
Definition TCG_PC_TPM_NOT_PRESENT := 1 + 0x22.
Definition TCG_MAGIC := 0x41504354.

(** [hash_parameters]: algorithm, flag and size. *)
Definition hash_parameters : list (Z * Z * Z) :=
  [(TPM2_ALG_SHA1, 1, 20); (TPM2_ALG_SHA256, 2, 32); (TPM2_ALG_SHA384, 4, 48); (TPM2_ALG_SHA512, 8, 64);
   (TPM2_ALG_SM3_256, 16, 32)].

Definition tpm20_get_hash_buffersize (hashAlg : Z) : Z :=
  match find (fun '(alg, _, _) => alg =? hashAlg) hash_parameters with Some (_, _, size) => size | None => -1 end.
Definition tpm20_hashalg_to_flag (hashAlg : Z) : Z :=
  match find (fun '(alg, _, _) => alg =? hashAlg) hash_parameters with Some (_, flag, _) => flag | None => 0 end.
Definition tpm20_hashalg_flag_to_hashalg (hashalg_flag : Z) : Z :=
  match find (fun '(_, flag, _) => flag =? hashalg_flag) hash_parameters with Some (alg, _, _) => alg | None => 0 end.

(** ** State *)

(** [tpm_state], and the other variables of the file *)
Record tcg_vars := TcgVars {
  log_area_minimum_length : Z;
  log_area_start_address : Z;
  entry_count : Z;
  log_area_next_entry : Z;
  log_area_last_entry : Z;
  TPM_version : Z;
  tpm20_pcr_selection_size : Z;
  tpm20_pcr_selection : Z;
  TPM_has_physical_presence : Z;
  TPM_working : Z;
  TPM_interface_shutdown : Z }.

Definition set_log (start len count next last : Z) (v : tcg_vars) : tcg_vars :=
  TcgVars len start count next last (TPM_version v) (tpm20_pcr_selection_size v) (tpm20_pcr_selection v)
    (TPM_has_physical_presence v) (TPM_working v) (TPM_interface_shutdown v).
Definition set_version (x : Z) (v : tcg_vars) : tcg_vars :=
  TcgVars (log_area_minimum_length v) (log_area_start_address v) (entry_count v) (log_area_next_entry v)
    (log_area_last_entry v) x (tpm20_pcr_selection_size v) (tpm20_pcr_selection v)
    (TPM_has_physical_presence v) (TPM_working v) (TPM_interface_shutdown v).
Definition set_selection (p size : Z) (v : tcg_vars) : tcg_vars :=
  TcgVars (log_area_minimum_length v) (log_area_start_address v) (entry_count v) (log_area_next_entry v)
    (log_area_last_entry v) (TPM_version v) size p (TPM_has_physical_presence v) (TPM_working v) (TPM_interface_shutdown v).
Definition set_presence (x : Z) (v : tcg_vars) : tcg_vars :=
  TcgVars (log_area_minimum_length v) (log_area_start_address v) (entry_count v) (log_area_next_entry v)
    (log_area_last_entry v) (TPM_version v) (tpm20_pcr_selection_size v) (tpm20_pcr_selection v) x (TPM_working v)
    (TPM_interface_shutdown v).
Definition set_working (x : Z) (v : tcg_vars) : tcg_vars :=
  TcgVars (log_area_minimum_length v) (log_area_start_address v) (entry_count v) (log_area_next_entry v)
    (log_area_last_entry v) (TPM_version v) (tpm20_pcr_selection_size v) (tpm20_pcr_selection v)
    (TPM_has_physical_presence v) x (TPM_interface_shutdown v).
Definition set_shutdown (x : Z) (v : tcg_vars) : tcg_vars :=
  TcgVars (log_area_minimum_length v) (log_area_start_address v) (entry_count v) (log_area_next_entry v)
    (log_area_last_entry v) (TPM_version v) (tpm20_pcr_selection_size v) (tpm20_pcr_selection v)
    (TPM_has_physical_presence v) (TPM_working v) x.

Record tcg (W : Type) := TcgWorld { tcg_st : tcg_vars; tcg_dev : W }.
Arguments TcgWorld {W}. Arguments tcg_st {W}. Arguments tcg_dev {W}.

(** Where the compiler put the local structs: a [struct tpm_log_entry], a hash,
    the arrays of [sha1], the event structs; the constant strings; and the bytes
    that were on the stack where [tpm20_get_pcrbanks] has its buffer. *)
Class Frame := {
  le_at : Z; hash_at : Z; sha1_w_at : Z; sha1_ctx_at : Z; event_at : Z; pcpes_at : Z; info_at : Z; separator_at : Z;
  str_at : string -> Z;
  buffer_junk : list Z }.

(** Sizes of the structs. *)
Definition sizeof_header : Z := 8.        (* struct tpm_log_header *)
Definition sizeof_trailer : Z := 4.       (* struct tpm_log_trailer *)
Definition sizeof_le : Z := 8 + (4 + 5 * 2 + 20 + 32 + 48 + 64 + 32).
Definition sizeof_pcpes : Z := 32.

(** Big-endian fields of a request, and of a response. *)
Definition be (n : nat) (v : Z) : list Z := rev (le_list n v).
Definition be_at (n off : nat) (l : list Z) : Z := le_value (rev (take n (drop off l))).

Section Tcg.
Context {W : Type} `{Frame}.
Context (CONFIG_TCGBIOS CONFIG_COREBOOT : bool).
(** The driver: locality, request, room for the response and duration to an
    error code and the response. *)
Context (tpmhw_transmit : Z -> list Z -> Z -> Z -> W -> (Z * list Z) * W).
Context (tpmhw_set_timeouts : list Z -> list Z -> W -> W).
Context (tpmhw_probe : W -> Z * W) (tpmhw_is_present : W -> bool).
Context (malloc_high : Z -> M (tcg W) Z).
Context (runningOnXen : bool).
Context (rdtscll : W -> Z * W).
Context (RsdpAddr SMBiosAddr : Z).      (* of fw/biostables.c *)

Definition get_st : M (tcg W) tcg_vars := fun s => Some (tcg_st (mc_world s), s).
Definition upd_st (f : tcg_vars -> tcg_vars) : M (tcg W) unit :=
  fun s => Some (tt, Machine (mc_mem s) (TcgWorld (f (tcg_st (mc_world s))) (tcg_dev (mc_world s)))).
Definition dev {A} (f : W -> A * W) : M (tcg W) A :=
  fun s => let '(x, w) := f (tcg_dev (mc_world s)) in Some (x, Machine (mc_mem s) (TcgWorld (tcg_st (mc_world s)) w)).
Definition transmit (locty : Z) (req : list Z) (room duration : Z) : M (tcg W) (Z * list Z) :=
  dev (tpmhw_transmit locty req room duration).
Definition get_mem : M (tcg W) memory := fun s => Some (mc_mem s, s).

(** [sha1] with one step of fuel for each block. *)
Definition call_sha1 (data length hash : Z) : M (tcg W) unit :=
  fun s =>
    match sha1 CONFIG_TCGBIOS sha1_w_at sha1_ctx_at (Z.to_nat (length / 64)) data length hash (mc_mem s) with
    | None => None
    | Some (_, m) => Some (tt, Machine m (mc_world s))
    end.

(** ** The log *)

Definition tpm_set_log_area (start_address minimum_length : Z) : M (tcg W) Z :=
  if (start_address =? 0) || (minimum_length =? 0) then ret (-1)
  else
    do upd_mem (memset start_address 0 minimum_length) ;;
    do upd_st (set_log start_address minimum_length 0 start_address 0) ;;
    ret 0.

Definition tpm_log_event (entry digest_len event event_len : Z) : M (tcg W) Z :=
  v <- get_st ;;
  if log_area_next_entry v =? 0 then ret (-1)
  else
    let size := u32 (sizeof_header + digest_len + sizeof_trailer + event_len) in
    let logsize := u32 (log_area_next_entry v + size - log_area_start_address v) in
    if log_area_minimum_length v <? logsize then ret (-1)
    else
      let dest := log_area_next_entry v in
      do upd_mem (memcpy dest entry (sizeof_header + digest_len)) ;;
      let t := dest + sizeof_header + digest_len in
      do put32 t event_len ;;
      do upd_mem (memcpy (t + sizeof_trailer) event (u32 event_len)) ;;
      do upd_st (fun v => set_log (log_area_start_address v) (log_area_minimum_length v) (u32 (entry_count v + 1))
                            (u32 (log_area_next_entry v + size)) (log_area_next_entry v) v) ;;
      ret 0.

(** ** Digests *)

(** The banks the TPM has selected: a record of algorithm, size and bit map for
    each; [visit] is what the two loops do with a bank, [inr] an early return. *)
Fixpoint selection_loop {A} (fuel : nat) (visit : Z -> Z -> Z -> A -> memory -> A * memory + Z) (total end_ : Z)
    (count sel : Z) (x : A) (m : memory) : option ((Z * Z * A + Z) * memory) :=
  if count <? total then
    match fuel with
    | O => None
    | S f =>
      let sizeOfSelect := read8 m (sel + 2) in
      let nsel := sel + 3 + sizeOfSelect in
      if end_ <? nsel then Some (inl (count, sel, x), m)
      else
        let hsize := tpm20_get_hash_buffersize (swab16 (read16 m sel)) in
        if hsize <? 0 then Some (inr (-1), m)
        else
          match visit count sel hsize x m with
          | inr e => Some (inr e, m)
          | inl (x, m) => selection_loop f visit total end_ (count + 1) nsel x m
          end
    end
  else Some (inl (count, sel, x), m).

(** Each bank takes three bytes at least, so the size is fuel enough. *)
Definition on_selection {A} (visit : Z -> Z -> Z -> A -> memory -> A * memory + Z) (x : A) : M (tcg W) (Z * Z * A + Z) :=
  v <- get_st ;;
  fun s =>
    let p := tpm20_pcr_selection v in
    match selection_loop (S (Z.to_nat (tpm20_pcr_selection_size v))) visit (swab32 (read32 (mc_mem s) p))
            (p + tpm20_pcr_selection_size v) 0 (p + 4) x (mc_mem s) with
    | None => None
    | Some (r, m) => Some (r, Machine m (mc_world s))
    end.

Definition write_digest (le sha1 : Z) (bigEndian : bool) (count sel hsize dest : Z) (m : memory) : Z * memory + Z :=
  if le + sizeof_le <? dest + 2 + hsize then inr (-1)
  else
    let m := write16 dest (if bigEndian then read16 m sel else swab16 (read16 m sel)) m in
    let m := memset (dest + 2) 0 hsize m in
    let m := memcpy (dest + 2) sha1 (if SHA1_BUFSIZE <? hsize then SHA1_BUFSIZE else hsize) m in
    inl (dest + (2 + hsize), m).

Definition tpm20_build_digest (le sha1 : Z) (bigEndian : bool) : M (tcg W) Z :=
  v <- get_st ;;
  if tpm20_pcr_selection v =? 0 then ret (-1)
  else
    r <- on_selection (write_digest le sha1 bigEndian) (le + 8 + 4) ;;
    match r with
    | inr e => ret e
    | inl (count, sel, dest) =>
      if negb (sel =? tpm20_pcr_selection v + tpm20_pcr_selection_size v) then ret (-1)
      else
        do put32 (le + 8) (if bigEndian then swab32 count else count) ;;
        ret (dest - (le + 8))
    end.

Definition tpm12_build_digest (le sha1 : Z) : M (tcg W) Z :=
  do upd_mem (memcpy (le + 8) sha1 SHA1_BUFSIZE) ;; ret SHA1_BUFSIZE.

Definition tpm_build_digest (le sha1 : Z) (bigEndian : bool) : M (tcg W) Z :=
  v <- get_st ;;
  if TPM_version v =? TPM_VERSION_1_2 then tpm12_build_digest le sha1
  else if TPM_version v =? TPM_VERSION_2 then tpm20_build_digest le sha1 bigEndian
  else ret (-1).

(** [struct tpm_log_entry le = { .hdr.pcrindex = .., .hdr.eventtype = .. }] *)
Definition init_le (pcrindex eventtype : Z) : M (tcg W) unit :=
  upd_mem (fun m => write32 (le_at + 4) eventtype (write32 le_at pcrindex (memset le_at 0 sizeof_le m))).

(** "Spec ID Event03" and the fields after it *)
Definition spec_id_event : list Z :=
  [83; 112; 101; 99; 32; 73; 68; 32; 69; 118; 101; 110; 116; 48; 51; 0] ++ [0; 0; 0; 0] ++ [0; 2; 0; 2] ++ replicate 260 0.
Definition sizeof_event : Z := 28 + 256.

Definition write_algorithm (count sel hsize : Z) (x : unit) (m : memory) : unit * memory + Z :=
  let event_size := 28 + 4 * (count + 1) in
  if sizeof_event - 4 <? event_size then inr (-1)
  else
    let m := write16 (event_at + 28 + 4 * count) (swab16 (read16 m sel)) m in
    inl (tt, write16 (event_at + 28 + 4 * count + 2) hsize m).

Definition tpm20_write_EfiSpecIdEventStruct : M (tcg W) Z :=
  v <- get_st ;;
  if tpm20_pcr_selection v =? 0 then ret (-1)
  else
    do upd_mem (write_bytes event_at spec_id_event) ;;
    r <- on_selection write_algorithm tt ;;
    match r with
    | inr e => ret e
    | inl (count, sel, _) =>
      if negb (sel =? tpm20_pcr_selection v + tpm20_pcr_selection_size v) then ret (-1)
      else
        do put32 (event_at + 24) count ;;
        let event_size := 28 + 4 * count in
        do put32 (event_at + event_size) 0 ;;
        do init_le 0 EV_NO_ACTION ;;
        tpm_log_event le_at SHA1_BUFSIZE event_at (event_size + 4)
    end.

(** ** Commands *)

Definition header (tag totlen ordinal : Z) : list Z := be 2 tag ++ be 4 totlen ++ be 4 ordinal.
(** [struct tpm2_authblock] with the password session *)
Definition authblock : list Z := be 4 0x40000009 ++ be 2 0 ++ [1] ++ be 2 0.

(** A response received into a buffer. *)
Definition received (resp buffer : list Z) : list Z := resp ++ drop (length resp) buffer.

Definition tpm_simple_cmd (locty ordinal param_size param to_t : Z) : M (tcg W) Z :=
  v <- get_st ;;
  let tag := if TPM_version v =? TPM_VERSION_1_2 then TPM_TAG_RQU_CMD
             else if TPM_version v =? TPM_VERSION_2 then TPM2_ST_NO_SESSIONS else 0 in
  let req := header tag (10 + param_size) ordinal ++ le_list 2 (if param_size =? 2 then swab16 param else param) in
  r <- transmit locty (take (Z.to_nat (10 + param_size)) req) 64 to_t ;;
  ret (if truthy r.1 then -1 else s32 (be_at 4 6 (received r.2 (replicate 64 0)))).

(** The buffer [rsp] of [rsize] bytes is returned with the code. *)
Definition tpm20_getcapability (capability property count : Z) (rsp : list Z) : M (tcg W) (Z * list Z) :=
  let rsize := Z.of_nat (length rsp) in
  let req := header TPM2_ST_NO_SESSIONS 22 0x17a ++ be 4 capability ++ be 4 property ++ be 4 count in
  r <- transmit 0 req rsize TPM_DURATION_TYPE_SHORT ;;
  let rsp := received r.2 rsp in
  ret (if truthy r.1 || (rsize <? be_at 4 2 rsp) then -1 else s32 (be_at 4 6 rsp), rsp).

Definition tpm20_get_pcrbanks : M (tcg W) Z :=
  r <- tpm20_getcapability 5 0 8 (take 128 buffer_junk) ;;
  let '(ret_, buffer) := r in
  if truthy ret_ then ret ret_
  else
    let resplen := be_at 4 2 buffer in
    if resplen <=? 15 then ret (-1)
    else
      let size := resplen - 15 in
      if size <? 4 + 3 then ret (-1)
      else
        p <- malloc_high size ;;
        do upd_st (fun v => set_selection p (tpm20_pcr_selection_size v) v) ;;
        if p =? 0 then ret (-1)
        else
          do upd_mem (write_bytes p (take (Z.to_nat size) (drop 15 buffer))) ;;
          do upd_st (set_selection p size) ;;
          ret ret_.

(** [while (1)] over the selection; the fuel is that of [on_selection]. *)
Fixpoint any_selected (n : nat) (p : Z) (m : memory) : bool :=
  match n with O => false | S n' => truthy (read8 m p) || any_selected n' (p + 1) m end.
Fixpoint suppt_loop (fuel : nat) (end_ sel suppt active : Z) (m : memory) : option (Z * Z) :=
  match fuel with
  | O => None
  | S f =>
    let sizeOfSelect := read8 m (sel + 2) in
    let nsel := sel + 3 + sizeOfSelect in
    if end_ <? nsel then Some (suppt, active)
    else
      let flag := tpm20_hashalg_to_flag (swab16 (read16 m sel)) in
      suppt_loop f end_ nsel (Z.lor suppt flag)
        (if any_selected (Z.to_nat sizeOfSelect) (sel + 3) m then Z.lor active flag else active) m
  end.
(** the return value, [*suppt_pcrbanks] and [*active_pcrbanks] *)
Definition tpm20_get_suppt_pcrbanks : M (tcg W) (Z * Z * Z) :=
  v <- get_st ;;
  if tpm20_pcr_selection v =? 0 then ret (-1, 0, 0)
  else
    fun s =>
      match suppt_loop (S (Z.to_nat (tpm20_pcr_selection_size v))) (tpm20_pcr_selection v + tpm20_pcr_selection_size v)
              (tpm20_pcr_selection v + 4) 0 0 (mc_mem s) with
      | None => None
      | Some (suppt, active) => Some ((0, suppt, active), s)
      end.

(** The response is a struct of [size] bytes; [resp_size] is its new length. *)
Definition tpm12_get_capability (cap subcap rsize : Z) : M (tcg W) (Z * list Z) :=
  let req := header TPM_TAG_RQU_CMD 22 0x65 ++ be 4 cap ++ be 4 4 ++ be 4 subcap in
  r <- transmit 0 req rsize TPM_DURATION_TYPE_SHORT ;;
  ret (if truthy r.1 || negb (Z.of_nat (length r.2) =? rsize) then -1 else s32 (be_at 4 6 r.2), r.2).

(** The 22 bytes of [struct tpm_permanent_flags]; zeros on an error. *)
Definition tpm12_read_permanent_flags : M (tcg W) (Z * list Z) :=
  r <- tpm12_get_capability 4 0x108 36 ;;
  if truthy r.1 then ret (-1, replicate 22 0) else ret (0, drop 14 r.2).

Definition tpm12_determine_timeouts : M (tcg W) Z :=
  t <- tpm12_get_capability 5 0x115 30 ;;
  if truthy t.1 then ret t.1
  else
    d <- tpm12_get_capability 5 0x120 26 ;;
    if truthy d.1 then ret d.1
    else
      let word (l : list Z) i := be_at 4 (14 + 4 * i) l in
      do dev (fun w => (tt, tpmhw_set_timeouts (map (word t.2) [0; 1; 2; 3]%nat) (map (word d.2) [0; 1; 2]%nat) w)) ;;
      ret 0.

Definition tpm20_set_timeouts : M (tcg W) unit :=
  dev (fun w => (tt, tpmhw_set_timeouts [750000; 2000000; 200000; 30000] [750000; 2000000; 2000000] w)).

(** A command whose response is [rsize] bytes with a zero error code. *)
Definition tpm_plain_cmd (req : list Z) (rsize to_t : Z) : M (tcg W) (bool * list Z) :=
  r <- transmit 0 req rsize to_t ;;
  ret (negb (truthy r.1 || negb (Z.of_nat (length r.2) =? rsize) || truthy (be_at 4 6 r.2)), r.2).

Definition tpm12_extend (le digest_len : Z) : M (tcg W) Z :=
  m <- get_mem ;;
  let req := header TPM_TAG_RQU_CMD 34 0x14 ++ be 4 (read32 m le) ++ read_bytes 20 (le + 8) m in
  r <- tpm_plain_cmd req 30 TPM_DURATION_TYPE_SHORT ;;
  ret (if fst r then 0 else -1).

Definition tpm20_extend (le digest_len : Z) : M (tcg W) Z :=
  m <- get_mem ;;
  let req := header TPM2_ST_SESSIONS (27 + digest_len) 0x182 ++ be 4 (read32 m le) ++ be 4 9 ++ authblock ++
               read_bytes (Z.to_nat digest_len) (le + 8) m in
  r <- tpm_plain_cmd req 10 TPM_DURATION_TYPE_SHORT ;;
  ret (if fst r then 0 else -1).

Definition tpm_extend (le digest_len : Z) : M (tcg W) Z :=
  v <- get_st ;;
  if TPM_version v =? TPM_VERSION_1_2 then tpm12_extend le digest_len
  else if TPM_version v =? TPM_VERSION_2 then tpm20_extend le digest_len
  else ret (-1).

Definition tpm20_stirrandom : M (tcg W) Z :=
  t1 <- dev rdtscll ;; t2 <- dev rdtscll ;;
  let stir := u64 (t1 + swab64 t2) in
  r <- tpm_plain_cmd (header TPM2_ST_NO_SESSIONS 20 0x146 ++ be 2 8 ++ le_list 8 stir) 10 TPM_DURATION_TYPE_SHORT ;;
  ret (if fst r then 0 else -1).

(** The random bytes, when there is no error. *)
Definition tpm20_getrandom (buf_len : Z) : M (tcg W) (Z * list Z) :=
  if 20 <? buf_len then ret (-1, [])
  else
    r <- tpm_plain_cmd (header TPM2_ST_NO_SESSIONS 12 0x17b ++ be 2 buf_len) 32 TPM_DURATION_TYPE_MEDIUM ;;
    ret (if fst r then (0, take (Z.to_nat buf_len) (drop 12 r.2)) else (-1, [])).

Definition tpm20_hierarchycontrol (hierarchy state : Z) : M (tcg W) Z :=
  r <- tpm_plain_cmd (header TPM2_ST_SESSIONS 32 0x121 ++ be 4 0x4000000c ++ be 4 9 ++ authblock ++ be 4 hierarchy ++ [u8 state])
         10 TPM_DURATION_TYPE_MEDIUM ;;
  ret (if fst r then 0 else -1).

Definition tpm20_hierarchychangeauth (auth : list Z) : M (tcg W) Z :=
  r <- tpm_plain_cmd (header TPM2_ST_SESSIONS 49 0x129 ++ be 4 0x4000000c ++ be 4 9 ++ authblock ++ be 2 20 ++ auth)
         10 TPM_DURATION_TYPE_MEDIUM ;;
  ret (if fst r then 0 else -1).

(** ** Measurements *)

Definition tpm_is_working : M (tcg W) bool := v <- get_st ;; ret (CONFIG_TCGBIOS && truthy (TPM_working v)).

Definition tpm_set_failure : M (tcg W) unit :=
  v <- get_st ;;
  do (if TPM_version v =? TPM_VERSION_1_2 then
        do tpm_simple_cmd 0 0x73 0 0 TPM_DURATION_TYPE_SHORT ;; ret tt
      else if TPM_version v =? TPM_VERSION_2 then
        do tpm20_hierarchycontrol 0x4000000b 0 ;; do tpm20_hierarchycontrol 0x40000001 0 ;; ret tt
      else ret tt) ;;
  upd_st (set_working 0).

Definition tpm_add_measurement_to_log (pcrindex event_type event event_length hashdata hashdata_length : Z)
  : M (tcg W) unit :=
  working <- tpm_is_working ;;
  if negb working then ret tt
  else
    do call_sha1 hashdata hashdata_length hash_at ;;
    do init_le pcrindex event_type ;;
    digest_len <- tpm_build_digest le_at hash_at true ;;
    if digest_len <? 0 then ret tt
    else
      r <- tpm_extend le_at digest_len ;;
      if truthy r then tpm_set_failure
      else
        do tpm_build_digest le_at hash_at false ;;
        do tpm_log_event le_at digest_len event event_length ;;
        ret tt.

(** The arguments are constants: [strlen] is the length of the string. *)
Definition tpm_add_action (pcrIndex : Z) (s : string) : M (tcg W) unit :=
  let len := Z.of_nat (String.length s) in
  tpm_add_measurement_to_log pcrIndex EV_ACTION (str_at s) len (str_at s) len.

Fixpoint separators (n : nat) (pcrIndex : Z) : M (tcg W) unit :=
  match n with
  | O => ret tt
  | S n' =>
    do tpm_add_measurement_to_log pcrIndex EV_SEPARATOR 0 0 separator_at 4 ;; separators n' (pcrIndex + 1)
  end.
Definition tpm_add_event_separators : M (tcg W) unit := separators 8 0.

Definition tpm_smbios_measure : M (tcg W) unit :=
  do upd_mem (write_bytes event_at (le_list 4 1 ++ le_list 4 SHA1_BUFSIZE ++ replicate 20 0)) ;;
  if SMBiosAddr =? 0 then ret tt
  else
    table <- get32 (SMBiosAddr + 24) ;; length <- get16 (SMBiosAddr + 22) ;;
    do call_sha1 table length (event_at + 8) ;;
    tpm_add_measurement_to_log 1 EV_EVENT_TAG event_at 28 event_at 28.

Definition tpm12_assert_physical_presence : M (tcg W) Z :=
  r <- tpm_simple_cmd 0 0x4000000a 2 8 TPM_DURATION_TYPE_SHORT ;;
  if r =? 0 then ret 0
  else
    pf <- tpm12_read_permanent_flags ;;
    if truthy pf.1 then ret (-1)
    else
      let flag i := nth (2 + i) pf.2 0 in
      if truthy (flag 7%nat) then ret 0
      else if negb (truthy (flag 6%nat)) && negb (truthy (flag 8%nat)) then
        do tpm_simple_cmd 0 0x4000000a 2 0x20 TPM_DURATION_TYPE_SHORT ;;
        tpm_simple_cmd 0 0x4000000a 2 8 TPM_DURATION_TYPE_SHORT
      else ret (-1).

Definition startup_failed : M (tcg W) Z := do tpm_set_failure ;; ret (-1).

Definition tpm12_startup : M (tcg W) Z :=
  r <- tpm_simple_cmd 0 0x99 2 1 TPM_DURATION_TYPE_SHORT ;;
  let r := if CONFIG_COREBOOT && (r =? 0x26) then 0 else r in
  if truthy r then startup_failed
  else
    r <- tpm12_assert_physical_presence ;;
    do (if r =? 0 then upd_st (set_presence 1) else ret tt) ;;
    r <- tpm12_determine_timeouts ;;
    if truthy r then startup_failed
    else
      r <- tpm_simple_cmd 0 0x50 0 0 TPM_DURATION_TYPE_LONG ;;
      if truthy r then startup_failed
      else
        r <- tpm_simple_cmd 3 0x4000000b 0 0 TPM_DURATION_TYPE_SHORT ;;
        if truthy r && negb (r =? 0x3d) then startup_failed else ret 0.

Definition tpm20_startup : M (tcg W) Z :=
  do tpm20_set_timeouts ;;
  r <- tpm_simple_cmd 0 0x144 2 0 TPM_DURATION_TYPE_SHORT ;;
  let r := if CONFIG_COREBOOT && (r =? 0x100) then 0 else r in
  if truthy r then startup_failed
  else
    r <- tpm_simple_cmd 0 0x143 1 1 TPM_DURATION_TYPE_LONG ;;
    if truthy r then startup_failed
    else
      r <- tpm20_get_pcrbanks ;;
      if truthy r then startup_failed
      else
        r <- tpm20_write_EfiSpecIdEventStruct ;;
        if truthy r then startup_failed else ret 0.

Definition tpm_startup : M (tcg W) Z :=
  v <- get_st ;;
  if TPM_version v =? TPM_VERSION_1_2 then tpm12_startup
  else if TPM_version v =? TPM_VERSION_2 then tpm20_startup
  else ret (-1).

(** ** Setup: [find_acpi_table] of fw/biostables.c and the tables *)

Definition RSDP_SIGNATURE := 0x2052545020445352.
Definition RSDT_SIGNATURE := 0x54445352.
Definition TCPA_SIGNATURE := 0x41504354.
Definition TPM2_SIGNATURE := 0x324D5054.

(** [for (i=0; &rsdt->table_offset_entry[i] < end; i++)]; [entry] is the address
    of the entry. *)
Fixpoint find_table_loop (fuel : nat) (entry end_ signature : Z) (m : memory) : option Z :=
  if entry <? end_ then
    match fuel with
    | O => None
    | S f =>
      let tbl := read32 m entry in
      if (tbl =? 0) || negb (read32 m tbl =? signature) then find_table_loop f (u32 (entry + 4)) end_ signature m
      else Some tbl
    end
  else Some 0.

Definition find_acpi_table (signature : Z) : M (tcg W) Z :=
  sig <- get64 RsdpAddr ;;
  if (RsdpAddr =? 0) || negb (sig =? RSDP_SIGNATURE) then ret 0
  else
    rsdt <- get32 (RsdpAddr + 16) ;; rsig <- get32 rsdt ;;
    if (rsdt =? 0) || negb (rsig =? RSDT_SIGNATURE) then ret 0
    else
      len <- get32 (rsdt + 4) ;;
      fun s =>
        match find_table_loop (Z.to_nat (len / 4)) (u32 (rsdt + 36)) (u32 (rsdt + len)) signature (mc_mem s) with
        | None => None
        | Some t => Some (t, s)
        end.

(** The 64-bit start address is cut to a pointer. *)
Definition tpm_tcpa_probe : M (tcg W) Z :=
  tcpa <- find_acpi_table TCPA_SIGNATURE ;;
  if tcpa =? 0 then ret (-1)
  else start <- get32 (tcpa + 42) ;; len <- get32 (tcpa + 38) ;; tpm_set_log_area start len.

Definition tpm_tpm2_probe : M (tcg W) Z :=
  tpm2 <- find_acpi_table TPM2_SIGNATURE ;;
  if tpm2 =? 0 then ret (-1)
  else
    length <- get32 (tpm2 + 4) ;;
    if length <? 76 then ret (-1)
    else start <- get32 (tpm2 + 68) ;; len <- get32 (tpm2 + 64) ;; tpm_set_log_area start len.

Definition tpm_setup : M (tcg W) unit :=
  if negb CONFIG_TCGBIOS then ret tt
  else
    r <- tpm_tpm2_probe ;;
    r <- (if truthy r then tpm_tcpa_probe else ret 0) ;;
    if truthy r then ret tt
    else
      version <- dev tpmhw_probe ;;
      do upd_st (set_version version) ;;
      if version =? TPM_VERSION_NONE then ret tt
      else
        do upd_st (set_working 1) ;;
        if runningOnXen then ret tt
        else
          r <- tpm_startup ;;
          if truthy r then ret tt
          else do tpm_smbios_measure ;; tpm_add_action 2 "Start Option ROM Scan"%string.

(** ** Later phases of the boot *)

Definition tpm20_prepboot : M (tcg W) unit :=
  r <- tpm20_stirrandom ;;
  if truthy r then tpm_set_failure
  else
    r <- tpm20_getrandom 20 ;;
    if truthy r.1 then tpm_set_failure
    else
      r <- tpm20_hierarchychangeauth r.2 ;;
      if truthy r then tpm_set_failure else ret tt.

Definition tpm_prepboot : M (tcg W) unit :=
  if negb CONFIG_TCGBIOS then ret tt
  else
    v <- get_st ;;
    do (if TPM_version v =? TPM_VERSION_1_2 then
          if truthy (TPM_has_physical_presence v) then
            do tpm_simple_cmd 0 0x4000000a 2 0x14 TPM_DURATION_TYPE_SHORT ;; ret tt
          else ret tt
        else if TPM_version v =? TPM_VERSION_2 then tpm20_prepboot
        else ret tt) ;;
    do tpm_add_action 4 "Calling INT 19h"%string ;;
    tpm_add_event_separators.

Definition tpm_option_rom (addr len : Z) : M (tcg W) unit :=
  working <- tpm_is_working ;;
  if negb working then ret tt
  else
    do upd_mem (write_bytes event_at (le_list 4 7 ++ le_list 4 (2 + 2 + SHA1_BUFSIZE) ++ replicate 24 0)) ;;
    do call_sha1 addr len (event_at + 12) ;;
    tpm_add_measurement_to_log 2 EV_EVENT_TAG event_at 32 event_at 32.

(** A measurement of [addr] described by a constant string. *)
Definition measure_named (pcrindex event_type : Z) (s : string) (addr length : Z) : M (tcg W) unit :=
  tpm_add_measurement_to_log pcrindex event_type (str_at s) (Z.of_nat (String.length s)) addr length.

Definition tpm_add_bcv (bootdrv addr length : Z) : M (tcg W) unit :=
  working <- tpm_is_working ;;
  if negb working then ret tt
  else if length <? 0x200 then ret tt
  else
    do tpm_add_action 4 (if bootdrv =? 0x80 then "Booting BCV device 80h (HDD)"%string else "Booting BCV device 00h (Floppy)"%string) ;;
    do measure_named 4 EV_IPL "MBR"%string addr 0x1b8 ;;
    measure_named 5 EV_IPL_PARTITION_DATA "MBR PARTITION_TABLE"%string (addr + 0x1b8) 0x48.

Definition tpm_add_cdrom (bootdrv addr length : Z) : M (tcg W) unit :=
  working <- tpm_is_working ;;
  if negb working then ret tt
  else do tpm_add_action 4 "Booting from CD ROM device"%string ;; measure_named 4 EV_IPL "EL TORITO IPL"%string addr length.

Definition tpm_add_cdrom_catalog (addr length : Z) : M (tcg W) unit :=
  working <- tpm_is_working ;;
  if negb working then ret tt
  else
    do tpm_add_action 4 "Booting from CD ROM device"%string ;;
    measure_named 5 EV_IPL_PARTITION_DATA "BOOT CATALOG"%string addr length.

Definition tpm_s3_resume : M (tcg W) unit :=
  working <- tpm_is_working ;;
  if negb working then ret tt
  else
    v <- get_st ;;
    r <- (if TPM_version v =? TPM_VERSION_1_2 then tpm_simple_cmd 0 0x99 2 2 TPM_DURATION_TYPE_SHORT
          else if TPM_version v =? TPM_VERSION_2 then
            r <- tpm_simple_cmd 0 0x144 2 1 TPM_DURATION_TYPE_SHORT ;;
            if truthy r then ret r else tpm_simple_cmd 0 0x143 1 1 TPM_DURATION_TYPE_LONG
          else ret (-1)) ;;
    if truthy r then tpm_set_failure else ret tt.

(** ** The INT 1Ah interface *)

Definition input_buf32 (regs : bregs) : Z := MAKE_FLATPTR (r_es regs) (r_di regs).
Definition output_buf32 (regs : bregs) : Z := MAKE_FLATPTR (r_ds regs) (r_si regs).

(** [pcpes] is the address of a [struct pcpes]; [event] is not used. *)
Definition hash_log_extend (pcpes hashdata hashdata_length event : Z) (extend : bool) : M (tcg W) Z :=
  pcrindex <- get32 pcpes ;;
  if 24 <=? pcrindex then ret TCG_INVALID_INPUT_PARA
  else
    do (if truthy hashdata then call_sha1 hashdata hashdata_length (pcpes + 8) else ret tt) ;;
    pcrindex <- get32 pcpes ;; eventtype <- get32 (pcpes + 4) ;;
    do init_le pcrindex eventtype ;;
    digest_len <- tpm_build_digest le_at (pcpes + 8) true ;;
    if digest_len <? 0 then ret TCG_GENERAL_ERROR
    else
      r <- (if extend then tpm_extend le_at digest_len else ret 0) ;;
      if truthy r then ret TCG_TCG_COMMAND_ERROR
      else
        do tpm_build_digest le_at (pcpes + 8) false ;;
        eventdatasize <- get32 (pcpes + 28) ;;
        r <- tpm_log_event le_at digest_len (pcpes + sizeof_pcpes) eventdatasize ;;
        ret (if truthy r then TCG_PC_LOGOVERFLOW else 0).

(** The label [err_exit]: the output block of a failed call is [n] bytes long. *)
Definition err_exit (out n rc : Z) : M (tcg W) Z :=
  do (if negb (rc =? 0) then do put16 out n ;; put16 (out + 2) 0 else ret tt) ;; ret rc.

(** The short and the long input block have the same first fields. *)
Definition hash_log_extend_event_int (hleei hleeo : Z) : M (tcg W) Z :=
  ipblength <- get16 hleei ;;
  if negb ((ipblength =? 24) || (ipblength =? 28)) then err_exit hleeo 4 TCG_INVALID_INPUT_PARA
  else
    let log_at := hleei + (if ipblength =? 24 then 16 else 20) in
    logdataptr <- get32 log_at ;; logdatalen <- get32 (log_at + 4) ;; pcrindex <- get32 (hleei + 12) ;;
    let pcpes := logdataptr in
    index <- get32 pcpes ;; eventdatasize <- get32 (pcpes + 28) ;;
    if negb (index =? pcrindex) || negb (logdatalen =? u32 (sizeof_pcpes + eventdatasize))
    then err_exit hleeo 4 TCG_INVALID_INPUT_PARA
    else
      hashdataptr <- get32 (hleei + 4) ;; hashdatalen <- get32 (hleei + 8) ;;
      rc <- hash_log_extend pcpes hashdataptr hashdatalen (pcpes + sizeof_pcpes) true ;;
      if truthy rc then err_exit hleeo 4 rc
      else
        do put16 hleeo 28 ;; do put16 (hleeo + 2) 0 ;;
        v <- get_st ;; do put32 (hleeo + 4) (entry_count v) ;;
        do upd_mem (memcpy (hleeo + 8) (pcpes + 8) 20) ;;
        err_exit hleeo 4 rc.

Definition pass_through_to_tpm_int (pttti pttto : Z) : M (tcg W) Z :=
  let trh := pttti + 8 in
  ipblength <- get16 pttti ;; opblength <- get16 (pttti + 4) ;; totlen <- get32 (trh + 2) ;;
  let totlen := swab32 totlen in
  if (ipblength <? 8 + 10) || negb (ipblength =? u32 (8 + totlen)) || (opblength <? 4)
  then err_exit pttto 4 TCG_INVALID_INPUT_PARA
  else
    tag <- get16 trh ;; let tag := swab16 tag in
    v <- get_st ;;
    let unknown_tag :=
      if TPM_version v =? TPM_VERSION_1_2 then negb (tag =? TPM_TAG_RQU_CMD) && negb (tag =? 0xc2) && negb (tag =? 0xc3)
      else if TPM_version v =? TPM_VERSION_2 then negb (tag =? TPM2_ST_NO_SESSIONS) && negb (tag =? TPM2_ST_SESSIONS)
      else false in
    if unknown_tag then err_exit pttto 4 TCG_INVALID_INPUT_PARA
    else
      m <- get_mem ;;
      r <- transmit 0 (read_bytes (Z.to_nat totlen) trh m) (opblength - 4) TPM_DURATION_TYPE_LONG ;;
      do upd_mem (write_bytes (pttto + 4) r.2) ;;
      if truthy r.1 then err_exit pttto 4 TCG_FATAL_COM_ERROR
      else
        do put16 pttto (4 + Z.of_nat (List.length r.2)) ;; do put16 (pttto + 2) 0 ;;
        err_exit pttto 4 0.

Definition shutdown_preboot_interface : M (tcg W) Z := do upd_st (set_shutdown 1) ;; ret 0.

Definition hash_log_event_int (hlei hleo : Z) : M (tcg W) Z :=
  size <- get16 hlei ;;
  if negb (size =? 28) then err_exit hleo 2 TCG_INVALID_INPUT_PARA
  else
    pcpes <- get32 (hlei + 20) ;;
    index <- get32 pcpes ;; pcrindex <- get32 (hlei + 12) ;;
    eventtype <- get32 (pcpes + 4) ;; logeventtype <- get32 (hlei + 16) ;;
    logdatalen <- get32 (hlei + 24) ;; eventdatasize <- get32 (pcpes + 28) ;;
    if negb (index =? pcrindex) || negb (eventtype =? logeventtype) ||
       negb (logdatalen =? u32 (sizeof_pcpes + eventdatasize))
    then err_exit hleo 2 TCG_INVALID_INPUT_PARA
    else
      hashdataptr <- get32 (hlei + 4) ;; hashdatalen <- get32 (hlei + 8) ;;
      rc <- hash_log_extend pcpes hashdataptr hashdatalen (pcpes + sizeof_pcpes) false ;;
      if truthy rc then err_exit hleo 2 rc
      else
        do put16 hleo 8 ;; do put16 (hleo + 2) 0 ;;
        v <- get_st ;; do put32 (hleo + 4) (entry_count v) ;;
        err_exit hleo 2 rc.

Definition hash_all_int (hai hash : Z) : M (tcg W) Z :=
  ipblength <- get16 hai ;; hashdataptr <- get32 (hai + 4) ;; hashdatalen <- get32 (hai + 8) ;;
  algorithmid <- get32 (hai + 12) ;;
  if negb (ipblength =? 16) || (hashdataptr =? 0) || (hashdatalen =? 0) || negb (algorithmid =? 4)
  then ret TCG_INVALID_INPUT_PARA
  else do call_sha1 hashdataptr hashdatalen hash ;; ret 0.

Definition tss_int (ti to : Z) : M (tcg W) Z := do put16 to 4 ;; do put16 (to + 2) 0 ;; ret TCG_PC_UNSUPPORTED.

(** The result and the new value of [*edx_ptr]. *)
Definition compact_hash_log_extend_event_int (buffer info length pcrindex edx : Z) : M (tcg W) (Z * Z) :=
  do put32 info_at info ;;
  do upd_mem (write_bytes pcpes_at (le_list 4 pcrindex ++ le_list 4 EV_COMPACT_HASH ++ replicate 20 0 ++ le_list 4 4)) ;;
  rc <- hash_log_extend pcpes_at buffer length info_at true ;;
  if truthy rc then ret (rc, edx)
  else v <- get_st ;; ret (0, entry_count v).

(** [regs->eax = f()] *)
Definition to_eax (regs : bregs) (c : M (tcg W) Z) : M (tcg W) bregs := rc <- c ;; ret (set_eax rc regs).

Definition StatusCheck (regs : bregs) : M (tcg W) bregs :=
  present <- dev (fun w => (tpmhw_is_present w, w)) ;;
  if negb present then ret (set_eax TCG_PC_TPM_NOT_PRESENT regs)
  else
    v <- get_st ;;
    let regs := set_cl 2 (set_ch 1 (set_ebx TCG_MAGIC (set_eax 0 regs))) in
    ret (set_edi (log_area_last_entry v) (set_esi (log_area_start_address v) (set_edx 0 regs))).

Definition tpm_interrupt_handler32 (regs : bregs) : M (tcg W) bregs :=
  if negb CONFIG_TCGBIOS then ret regs
  else
    let regs := set_cf regs false in
    v <- get_st ;;
    if truthy (TPM_interface_shutdown v) && truthy (r_al regs) then ret (set_eax TCG_INTERFACE_SHUTDOWN regs)
    else
      let in_ := input_buf32 regs in let out := output_buf32 regs in
      let al := r_al regs in
      if al =? 0 then StatusCheck regs
      else if al =? 1 then to_eax regs (hash_log_extend_event_int in_ out)
      else if al =? 2 then to_eax regs (pass_through_to_tpm_int in_ out)
      else if al =? 3 then to_eax regs shutdown_preboot_interface
      else if al =? 4 then to_eax regs (hash_log_event_int in_ out)
      else if al =? 5 then to_eax regs (hash_all_int in_ out)
      else if al =? 6 then to_eax regs (tss_int in_ out)
      else if al =? 7 then
        r <- compact_hash_log_extend_event_int in_ (r_esi regs) (r_ecx regs) (r_edx regs) (r_edx regs) ;;
        ret (set_eax r.1 (set_edx r.2 regs))
      else ret (set_cf regs true).
End Tcg.
