(* ===== verification/TcgLog.v ===== *)
(** * The event log of [Tcg] is the sequence of the events it was given

    [log_ok] relates the variables of [tpm_state] and the log area to a list of
    entries; [tpm_set_log_area] makes the empty list, [tpm_log_event] appends one
    entry or reports that it does not fit. *)
From S2P Require Import Prelude Machine StringOps Bytes Areas Tcg.
Local Open Scope seabios_scope.

(** An entry as the specification of the log describes it. *)
Record log_entry := LogEntry { en_pcr : Z; en_type : Z; en_digest : list Z; en_event : list Z }.

Definition encode_entry (e : log_entry) : list Z :=
  le_list 4 (en_pcr e) ++ le_list 4 (en_type e) ++ en_digest e ++
  le_list 4 (Z.of_nat (length (en_event e))) ++ en_event e.
Definition encode_log (es : list log_entry) : list Z := concat (map encode_entry es).
Definition log_size (es : list log_entry) : Z := Z.of_nat (length (encode_log es)).

Record log_ok (v : tcg_vars) (m : memory) (es : list log_entry) : Prop := {
  log_area : 0 < log_area_start_address v /\ log_area_start_address v + log_area_minimum_length v < 2 ^ 32;
  log_fits : log_size es <= log_area_minimum_length v;
  log_bytes : read_bytes (length (encode_log es)) (log_area_start_address v) m = encode_log es;
  log_next : log_area_next_entry v = log_area_start_address v + log_size es;
  log_count : entry_count v = Z.of_nat (length es);
  log_last : log_area_last_entry v =
    match es with [] => 0 | _ => log_area_start_address v + log_size (removelast es) end }.

Lemma encode_log_app es e : encode_log (es ++ [e]) = encode_log es ++ encode_entry e.
Proof. unfold encode_log. rewrite map_app, concat_app. simpl. by rewrite app_nil_r. Qed.
Lemma log_size_app es e : log_size (es ++ [e]) = log_size es + Z.of_nat (length (encode_entry e)).
Proof. unfold log_size. rewrite encode_log_app, length_app. lia. Qed.
Lemma log_size_pos es : 0 <= log_size es.
Proof. unfold log_size. lia. Qed.

Lemma length_encode_entry e : Z.of_nat (length (encode_entry e)) =
  12 + Z.of_nat (length (en_digest e)) + Z.of_nat (length (en_event e)).
Proof. unfold encode_entry. rewrite !length_app, !length_le_list. lia. Qed.

(** Every entry takes twelve bytes at least: the count cannot overflow. *)
Lemma log_count_bound es : 12 * Z.of_nat (length es) <= log_size es.
Proof.
  induction es as [|e es IH] using rev_ind; [done|]. rewrite log_size_app, length_encode_entry, length_app.
  simpl length. lia.
Qed.

(** The entry a call of [tpm_log_event] describes. *)
Definition entry_of (m : memory) (entry digest_len event event_len : Z) : log_entry :=
  LogEntry (read32 m entry) (read32 m (entry + 4)) (read_bytes (Z.to_nat digest_len) (entry + 8) m)
    (read_bytes (Z.to_nat event_len) event m).

Lemma length_entry_of m entry digest_len event event_len : 0 <= digest_len -> 0 <= event_len ->
  Z.of_nat (length (encode_entry (entry_of m entry digest_len event event_len))) = 12 + digest_len + event_len.
Proof. intros. rewrite length_encode_entry. simpl. rewrite !length_read_bytes. lia. Qed.

(** The three writes of [tpm_log_event]. *)
Definition write_entry (dest entry digest_len event event_len : Z) (m : memory) : memory :=
  memcpy (dest + 8 + digest_len + 4) event event_len
    (write32 (dest + 8 + digest_len) event_len (memcpy dest entry (8 + digest_len) m)).

(** [n] bytes at [a] do not meet the [k] bytes at [b]. *)
Definition no_overlap (a n b k : Z) : Prop := a + n <= b \/ b + k <= a.

Lemma read_bytes_split n a m k : 0 <= k <= n -> read_bytes (Z.to_nat n) a m =
  read_bytes (Z.to_nat k) a m ++ read_bytes (Z.to_nat (n - k)) (a + k) m.
Proof.
  intros H. replace (Z.to_nat n) with (Z.to_nat k + Z.to_nat (n - k))%nat by lia. rewrite read_bytes_app.
  by rewrite Z2Nat.id by lia.
Qed.

Lemma write_entry_spec dest entry digest_len event event_len m :
  bytes_ok m -> 0 <= digest_len -> 0 <= event_len < 2 ^ 32 ->
  let n := 12 + digest_len + event_len in
  no_overlap entry (8 + digest_len) dest n -> no_overlap event event_len dest n ->
  let m' := write_entry dest entry digest_len event event_len m in
  bytes_ok m' /\ outside dest n m m' /\
  read_bytes (Z.to_nat n) dest m' = encode_entry (entry_of m entry digest_len event event_len).
Proof.
  intros Hm Hd He n Hen Hev m'. unfold no_overlap in *. subst m'. unfold write_entry.
  pose proof (memcpy_spec dest entry (8 + digest_len) m Hm ltac:(lia) ltac:(lia)) as H1.
  set (m1 := memcpy dest entry _ m) in *. pose proof (copied_ok _ _ _ _ _ H1 Hm) as Hm1.
  set (m2 := write32 _ event_len m1). assert (Hm2 : bytes_ok m2) by (subst m2; auto with mem).
  pose proof (outside_write32 (dest + 8 + digest_len) event_len m1 : outside _ 4 m1 m2) as H2.
  pose proof (memcpy_spec (dest + 8 + digest_len + 4) event event_len m2 Hm2 ltac:(lia) ltac:(lia)) as H3.
  set (m3 := memcpy _ event event_len m2) in *. clearbody m1.
  assert (Hval : read32 m2 (dest + 8 + digest_len) = event_len).
  { subst m2. rewrite read32_write32_eq. by apply u32_small. }
  clearbody m2 m3. pose proof (copied_outside _ _ _ _ _ H1) as O1. pose proof (copied_outside _ _ _ _ _ H3) as O3.
  split; [by apply (copied_ok _ _ _ _ _ H3)|]. split.
  { intros x Hx. rewrite O3, H2, O1 by lia. done. }
  rewrite (read_bytes_split n dest m3 (8 + digest_len)) by lia.
  rewrite (read_bytes_split (n - _) _ m3 4) by lia.
  replace (n - (8 + digest_len) - 4) with event_len by lia.
  rewrite (Z.add_assoc dest), (outside_read_bytes _ _ _ _ _ _ O3), (outside_read_bytes _ _ _ _ _ _ H2) by lia.
  rewrite (copied_bytes dest entry (Z.to_nat (8 + digest_len)) m m1) by (rewrite Z2Nat.id by lia; exact H1).
  rewrite (outside_read_bytes _ _ _ _ _ (dest + 8 + digest_len) O3) by lia.
  change (Z.to_nat 4) with 4%nat. rewrite read_bytes_le32, Hval by done.
  rewrite (copied_bytes _ event (Z.to_nat event_len) m2 m3) by (rewrite Z2Nat.id by lia; exact H3).
  rewrite (outside_read_bytes _ _ _ _ _ event H2), (outside_read_bytes _ _ _ _ _ event O1) by lia.
  unfold encode_entry, entry_of. cbn [en_pcr en_type en_digest en_event].
  rewrite length_read_bytes, Z2Nat.id by lia.
  rewrite (read_bytes_split (8 + digest_len) entry m 4), (read_bytes_split (8 + digest_len - 4) _ m 4) by lia.
  change (Z.to_nat 4) with 4%nat. rewrite !read_bytes_le32 by done. rewrite <- !app_assoc.
  replace (entry + 4 + 4) with (entry + 8) by lia. do 5 f_equal. lia.
Qed.

(** The variables after an entry of [n] bytes. *)
Definition appended (n : Z) (v : tcg_vars) : tcg_vars :=
  set_log (log_area_start_address v) (log_area_minimum_length v) (entry_count v + 1) (log_area_next_entry v + n)
    (log_area_next_entry v) v.

Definition log_room (v : tcg_vars) : Z :=
  log_area_start_address v + log_area_minimum_length v - log_area_next_entry v.

Lemma log_ok_appended v m m' es e : log_ok v m es -> outside (log_area_next_entry v) (log_room v) m m' ->
  let n := Z.of_nat (length (encode_entry e)) in n <= log_room v ->
  read_bytes (Z.to_nat n) (log_area_next_entry v) m' = encode_entry e ->
  log_ok (appended n v) m' (es ++ [e]).
Proof.
  intros [Ha Hf Hb Hn Hc Hl] Ho n Hr He. unfold log_room in *.
  assert (Hlen : Z.of_nat (length (encode_log es)) = log_size es) by done.
  constructor; cbn [appended set_log log_area_start_address log_area_minimum_length entry_count log_area_next_entry
                    log_area_last_entry]; [done|rewrite log_size_app; lia|..].
  - rewrite encode_log_app, length_app, read_bytes_app. f_equal.
    + rewrite (outside_read_bytes _ _ _ _ _ _ Ho) by lia. exact Hb.
    + rewrite Hlen, <- Hn. subst n. by rewrite Nat2Z.id in He.
  - rewrite log_size_app. lia.
  - rewrite length_app. simpl length. lia.
  - rewrite removelast_last. destruct es; [|done]. simpl. done.
Qed.

Lemma log_ok_outside v m m' es a n : log_ok v m es -> outside a n m m' ->
  no_overlap a n (log_area_start_address v) (log_area_minimum_length v) -> log_ok v m' es.
Proof.
  unfold no_overlap. intros [Ha Hf Hb Hn Hc Hl] Ho Hd. constructor; [done..| |done|done|done].
  unfold log_size in Hf. rewrite (outside_read_bytes _ _ _ _ _ _ Ho) by lia. done.
Qed.

Section LogEvent.
Context {W : Type}.
Implicit Types (v : tcg_vars) (w : W).

Lemma tpm_log_event_run v m w es entry digest_len event event_len :
  log_ok v m es -> bytes_ok m -> 0 <= digest_len -> 0 <= event_len ->
  12 + digest_len + event_len + log_area_minimum_length v < 2 ^ 32 ->
  no_overlap entry (8 + digest_len) (log_area_next_entry v) (log_room v) ->
  no_overlap event event_len (log_area_next_entry v) (log_room v) ->
  let e := entry_of m entry digest_len event event_len in
  let s := Machine m (TcgWorld v w) in
  (log_size (es ++ [e]) <= log_area_minimum_length v /\
   exists m', tpm_log_event entry digest_len event event_len s =
     Some (0, Machine m' (TcgWorld (appended (Z.of_nat (length (encode_entry e))) v) w)) /\
   log_ok (appended (Z.of_nat (length (encode_entry e))) v) m' (es ++ [e]) /\ bytes_ok m' /\
   outside (log_area_next_entry v) (log_room v) m m') \/
  (log_area_minimum_length v < log_size (es ++ [e]) /\ tpm_log_event entry digest_len event event_len s = Some (-1, s)).
Proof.
  intros Hok Hm Hd He Hsz Hen Hev e s. pose proof Hok as [Ha Hf Hb Hn Hc Hl].
  pose proof (log_size_pos es) as Hp. pose proof (log_count_bound es) as Hcb.
  unfold log_room, no_overlap in *. rewrite log_size_app. subst e.
  rewrite length_entry_of by done. set (e := entry_of _ _ _ _ _) in *.
  unfold tpm_log_event. erewrite bind_some by reflexivity. cbn [mc_world tcg_st s].
  rewrite (proj2 (Z.eqb_neq _ _)) by lia. cbv zeta.
  replace (sizeof_header + digest_len + sizeof_trailer + event_len) with (12 + digest_len + event_len)
    by (unfold sizeof_header, sizeof_trailer; lia).
  rewrite (u32_small (12 + digest_len + event_len)) by lia.
  replace (log_area_next_entry v + (12 + digest_len + event_len) - log_area_start_address v)
    with (log_size es + (12 + digest_len + event_len)) by lia.
  rewrite u32_small by lia.
  destruct (Z.ltb_spec (log_area_minimum_length v) (log_size es + (12 + digest_len + event_len))); [right; split; [lia|done]|].
  left. split; [lia|].
  destruct (write_entry_spec (log_area_next_entry v) entry digest_len event event_len m Hm Hd ltac:(lia))
    as (Hm' & Ho & Hr); [unfold no_overlap; lia..|].
  exists (write_entry (log_area_next_entry v) entry digest_len event event_len m).
  assert (Ho' : outside (log_area_next_entry v) (log_room v) m
    (write_entry (log_area_next_entry v) entry digest_len event event_len m))
    by (eapply outside_mono; [exact Ho|unfold log_room; lia..]).
  split_and!; [|..|exact Hm'|exact Ho'].
  - unfold upd_mem, put32, upd_st, bind. cbn -[memcpy write32]. rewrite !u32_small by lia. reflexivity.
  - rewrite <- (length_entry_of m entry digest_len event event_len) in H, Hr |- * by done.
    apply (log_ok_appended v m); [done..| |exact Hr]. unfold log_room, e in *. lia.
Qed.
End LogEvent.
