(* ===== verification/TcgDigest.v ===== *)
(** * The digests of an event

    A TPM 1.2 takes the SHA-1 hash itself; a TPM 2.0 takes one digest for each of
    its PCR banks, the hash followed by zeros up to the size of the bank's
    algorithm.  [encode_selection] is the structure the TPM describes its banks
    with, [digest_list] the structure [tpm20_build_digest] makes. *)
From S2P Require Import Prelude Machine StringOps Bytes Areas Tcg TcgLog.
Local Open Scope seabios_scope.

(** A bank: its algorithm and the bit map of its PCRs. *)
Abbreviation bank := (Z * list Z)%type.

Definition bank_ok (b : bank) : Prop := 0 <= b.1 < 2 ^ 16 /\ Z.of_nat (length b.2) < 2 ^ 8.

Definition encode_bank (b : bank) : list Z := be 2 b.1 ++ [Z.of_nat (length b.2)] ++ b.2.
Definition encode_banks (banks : list bank) : list Z := concat (map encode_bank banks).
Definition encode_selection (banks : list bank) : list Z := be 4 (Z.of_nat (length banks)) ++ encode_banks banks.

(** One digest: [None] for an algorithm that is not known. *)
Definition digest_value (bigEndian : bool) (h : list Z) (b : bank) : option (list Z) :=
  let size := tpm20_get_hash_buffersize b.1 in
  if size <? 0 then None
  else Some ((if bigEndian then be 2 b.1 else le_list 2 b.1) ++ h ++ replicate (Z.to_nat (size - 20)) 0).

Fixpoint digest_values (bigEndian : bool) (h : list Z) (banks : list bank) : option (list Z) :=
  match banks with
  | [] => Some []
  | b :: banks =>
    match digest_value bigEndian h b, digest_values bigEndian h banks with
    | Some d, Some ds => Some (d ++ ds)
    | _, _ => None
    end
  end.

(** The count and the digests, when there is room for them. *)
Definition digest_list (bigEndian : bool) (h : list Z) (banks : list bank) : option (list Z) :=
  match digest_values bigEndian h banks with
  | Some ds =>
    if Z.of_nat (length ds) <=? sizeof_le - 12
    then Some ((if bigEndian then be 4 (Z.of_nat (length banks)) else le_list 4 (Z.of_nat (length banks))) ++ ds)
    else None
  | None => None
  end.

Lemma length_be n v : length (be n v) = n.
Proof. unfold be. by rewrite length_rev, length_le_list. Qed.

Lemma hash_size_cases alg : tpm20_get_hash_buffersize alg = -1 \/ 20 <= tpm20_get_hash_buffersize alg <= 64.
Proof.
  unfold tpm20_get_hash_buffersize. destruct (find _ _) as [[[a f] size]|] eqn:Hf; [|by left]. right.
  apply find_some in Hf as [Hin _]. simpl in Hin. intuition; simplify_eq; lia.
Qed.

(** ** Fields of the selection *)

Lemma swab16_bytes a b : is_byte a -> is_byte b -> swab16 (a + 2 ^ 8 * b) = b + 2 ^ 8 * a.
Proof.
  unfold is_byte. intros Ha Hb. unfold swab16. rewrite Z.shiftl_mul_pow2, Z.shiftr_div_pow2 by lia.
  rewrite lor_add_shifted by lia. unfold u16. lia.
Qed.

Lemma be_2 v : be 2 v = [u8 (v / 2 ^ 8); u8 v].
Proof. reflexivity. Qed.

Lemma read16_be a m v : 0 <= v < 2 ^ 16 -> read_bytes 2 a m = be 2 v ->
  swab16 (read16 m a) = v /\ le_list 2 (read16 m a) = be 2 v.
Proof.
  intros Hv. rewrite be_2. cbn [read_bytes]. intros [= H1 H2]. unfold read16. rewrite H1, H2.
  split; [rewrite swab16_bytes by apply u8_range; unfold u8; lia|].
  cbn [le_list]. unfold u8. apply (f_equal2 cons); [lia|]. apply (f_equal2 cons); [lia|done].
Qed.

Lemma read32_be a m v : bytes_ok m -> 0 <= v < 2 ^ 32 -> read_bytes 4 a m = be 4 v -> swab32 (read32 m a) = v.
Proof.
  intros Hm Hv Hr. destruct (word_bytes v Hv) as (x & y & z & t & Hx & Hy & Hz & Ht & ->).
  unfold is_byte in *. replace (be 4 _) with [t; z; y; x] in Hr.
  2: { unfold be. cbn [le_list rev app]. unfold u8. repeat (apply (f_equal2 cons); [lia|]); done. }
  cbn [read_bytes] in Hr. replace (a + 1 + 1 + 1) with (a + 2 + 1) in Hr by lia. replace (a + 1 + 1) with (a + 2) in Hr by lia.
  injection Hr as H1 H2 H3 H4. unfold read32, read16. rewrite H1, H2, H3, H4.
  replace (t + 2 ^ 8 * z + 2 ^ 16 * (y + 2 ^ 8 * x)) with (t + z * 2 ^ 8 + y * 2 ^ 16 + x * 2 ^ 24) by lia.
  by apply swab32_of_bytes.
Qed.

(** What the loop sees of the first of the remaining banks. *)
Lemma first_bank b banks sel m : bank_ok b ->
  read_bytes (length (encode_banks (b :: banks))) sel m = encode_banks (b :: banks) ->
  let n := Z.of_nat (length b.2) in
  read8 m (sel + 2) = n /\ swab16 (read16 m sel) = b.1 /\ le_list 2 (read16 m sel) = be 2 b.1 /\
  read_bytes (length (encode_banks banks)) (sel + 3 + n) m = encode_banks banks.
Proof.
  intros [Ha Hs] Hr n. unfold encode_banks in Hr |- *. cbn [map concat] in Hr. fold (encode_banks banks) in Hr |- *.
  unfold encode_bank in Hr. rewrite !length_app, length_be in Hr. simpl length in Hr.
  rewrite <- !app_assoc, <- !Nat.add_assoc in Hr. rewrite !read_bytes_app in Hr.
  apply app_inj_1 in Hr as [H2 Hr]; [|by rewrite length_read_bytes, length_be].
  apply app_inj_1 in Hr as [H1 Hr]; [|done].
  apply app_inj_1 in Hr as [_ Hr]; [|by rewrite length_read_bytes].
  apply read16_be in H2 as [H2 H3]; [|done]. cbn [read_bytes] in H1. injection H1 as H1.
  split_and!; [exact H1|exact H2|exact H3|]. rewrite <- Hr at 2. f_equal. unfold n. lia.
Qed.

(** ** One digest *)

Lemma read_bytes_write16 a v m : read_bytes 2 a (write16 a v m) = le_list 2 v.
Proof.
  cbn [read_bytes le_list]. rewrite !read8_write16. rewrite decide_True, (decide_False (P := a + 1 = a)), decide_True by lia.
  unfold u8. reflexivity.
Qed.

Lemma outside_write16 a v m : outside a 2 m (write16 a v m).
Proof. intros x Hx. apply read8_write16_ne. lia. Qed.

Lemma digest_value_some bigEndian h b : 0 <= tpm20_get_hash_buffersize b.1 -> length h = 20%nat ->
  exists d, digest_value bigEndian h b = Some d /\ Z.of_nat (length d) = 2 + tpm20_get_hash_buffersize b.1.
Proof.
  intros Hs Hh. unfold digest_value. destruct (Z.ltb_spec (tpm20_get_hash_buffersize b.1) 0); [lia|].
  eexists. split; [reflexivity|]. rewrite !length_app, length_replicate, Hh.
  destruct (hash_size_cases b.1); [lia|]. destruct bigEndian; rewrite ?length_be, ?length_le_list; lia.
Qed.

Section Digest.
Context (le sha1 : Z) (bigEndian : bool) (h : list Z).

(** The hash is in memory, and not where digests are written. *)
Definition hash_here (dest : Z) (m : memory) : Prop :=
  read_bytes 20 sha1 m = h /\ no_overlap sha1 20 dest (le + sizeof_le - dest).

Lemma write_digest_spec count sel dest b m : bytes_ok m -> hash_here dest m ->
  let hsize := tpm20_get_hash_buffersize b.1 in 0 <= hsize ->
  swab16 (read16 m sel) = b.1 -> le_list 2 (read16 m sel) = be 2 b.1 -> dest + 2 + hsize <= le + sizeof_le ->
  exists d m', write_digest le sha1 bigEndian count sel hsize dest m = inl (dest + (2 + hsize), m') /\
  digest_value bigEndian h b = Some d /\ Z.of_nat (length d) = 2 + hsize /\
  bytes_ok m' /\ outside dest (2 + hsize) m m' /\ read_bytes (length d) dest m' = d.
Proof.
  intros Hm [Hh Hno] hsize Hs Hsw Hbe Hfit. unfold no_overlap in Hno.
  assert (20 <= hsize <= 64) by (destruct (hash_size_cases b.1); unfold hsize in *; lia).
  destruct (digest_value_some bigEndian h b Hs) as (d & Hd & Hlen); [by rewrite <- Hh, length_read_bytes|].
  fold hsize in Hlen. unfold write_digest. destruct (Z.ltb_spec (le + sizeof_le) (dest + 2 + hsize)); [lia|].
  unfold SHA1_BUFSIZE. replace (if 20 <? hsize then 20 else hsize) with 20 by (destruct (Z.ltb_spec 20 hsize); lia).
  set (x := if bigEndian then _ else _). cbv zeta. set (m1 := write16 dest x m).
  assert (Hm1 : bytes_ok m1) by (subst m1; auto with mem).
  pose proof (outside_write16 dest x m : outside _ _ m m1) as O1.
  pose proof (read_bytes_write16 dest x m : read_bytes 2 dest m1 = _) as R1. clearbody m1.
  set (m2 := memset (dest + 2) 0 hsize m1). assert (Hm2 : bytes_ok m2) by (apply bytes_ok_memset; [lia|done]).
  pose proof (memset_outside (dest + 2) 0 hsize m1 ltac:(lia) : outside _ _ m1 m2) as O2.
  assert (R2 : read_bytes (Z.to_nat hsize) (dest + 2) m2 = replicate (Z.to_nat hsize) 0).
  { unfold m2. rewrite <- (Z2Nat.id hsize) at 2 by lia. apply memset_bytes. }
  clearbody m2. pose proof (memcpy_spec (dest + 2) sha1 20 m2 Hm2 ltac:(lia) ltac:(lia)) as C3.
  set (m3 := memcpy _ _ _ m2) in *. clearbody m3. pose proof (copied_outside _ _ _ _ _ C3) as O3.
  exists d, m3. split_and!; [done|done|done|by apply (copied_ok _ _ _ _ _ C3)| |].
  { intros y Hy. rewrite O3, O2, O1 by lia. done. }
  replace (length d) with (2 + (20 + Z.to_nat (hsize - 20)))%nat by lia. rewrite !read_bytes_app.
  change (Z.of_nat 2) with 2. rewrite (copied_bytes _ sha1 20 m2 m3 C3).
  rewrite (outside_read_bytes _ _ _ _ 2 _ O3), (outside_read_bytes _ _ _ _ 2 _ O2), R1 by lia.
  rewrite (outside_read_bytes _ _ _ _ _ sha1 O2), (outside_read_bytes _ _ _ _ _ sha1 O1), Hh by lia.
  rewrite (outside_read_bytes _ _ _ _ _ _ O3) by lia.
  replace (Z.to_nat hsize) with (20 + Z.to_nat (hsize - 20))%nat in R2 by lia.
  rewrite read_bytes_app, replicate_add in R2. apply app_inj_1 in R2 as [_ ->]; [|by rewrite length_read_bytes].
  unfold digest_value in Hd. fold hsize in Hd. destruct (hsize <? 0); [done|]. apply (inj Some) in Hd as <-.
  f_equal. unfold x. destruct bigEndian; [done|by rewrite Hsw].
Qed.

(** ** All of them *)

Lemma length_encode_bank b : Z.of_nat (length (encode_bank b)) = 3 + Z.of_nat (length b.2).
Proof. unfold encode_bank. rewrite !length_app, length_be. simpl length. lia. Qed.

Lemma length_encode_banks_cons b banks :
  length (encode_banks (b :: banks)) = (length (encode_bank b) + length (encode_banks banks))%nat.
Proof. unfold encode_banks. cbn [map concat]. by rewrite length_app. Qed.

Definition loop_result (banks : list bank) (total end_ dest : Z) (m m' : memory)
    (r : option ((Z * Z * Z + Z) * memory)) : Prop :=
  match digest_values bigEndian h banks with
  | Some ds =>
    if dest + Z.of_nat (length ds) <=? le + sizeof_le then
      r = Some (inl (total, end_, dest + Z.of_nat (length ds)), m') /\ outside dest (Z.of_nat (length ds)) m m' /\
      read_bytes (length ds) dest m' = ds
    else r = Some (inr (-1), m')
  | None => r = Some (inr (-1), m')
  end.

Lemma digest_loop_spec total end_ banks : forall fuel count sel dest m,
  bytes_ok m -> Forall bank_ok banks -> (length banks <= fuel)%nat -> total = count + Z.of_nat (length banks) ->
  end_ = sel + Z.of_nat (length (encode_banks banks)) -> dest <= le + sizeof_le ->
  read_bytes (length (encode_banks banks)) sel m = encode_banks banks ->
  no_overlap sel (Z.of_nat (length (encode_banks banks))) dest (le + sizeof_le - dest) -> hash_here dest m ->
  exists m', bytes_ok m' /\ outside dest (le + sizeof_le - dest) m m' /\
  loop_result banks total end_ dest m m'
    (selection_loop fuel (write_digest le sha1 bigEndian) total end_ count sel dest m).
Proof.
  unfold loop_result. induction banks as [|b banks IH]; intros fuel count sel dest m Hm Hb Hf Ht He Hd Hr Hno Hh.
  - exists m. split_and!; [done|apply outside_refl|]. cbn [digest_values length] in *. rewrite Z.add_0_r in *.
    rewrite (proj2 (Z.leb_le _ _)) by lia. split_and!; [|apply outside_refl|done].
    destruct fuel; cbn [selection_loop]; rewrite (proj2 (Z.ltb_ge _ _)) by lia; subst end_; cbn [encode_banks map concat length];
      rewrite Ht, ?Z.add_0_r; done.
  - inversion_clear Hb as [|? ? Hb1 Hbs]. destruct (first_bank b banks sel m Hb1 Hr) as (R1 & R2 & R3 & Rrest).
    rewrite length_encode_banks_cons in *. pose proof (length_encode_bank b) as Hlb. cbn [length] in *.
    destruct fuel as [|fuel]; [lia|]. cbn [selection_loop digest_values]. rewrite R1, R2.
    rewrite (proj2 (Z.ltb_lt count total)) by lia. rewrite (proj2 (Z.ltb_ge end_ _)) by lia. cbv zeta.
    destruct (Z.ltb_spec (tpm20_get_hash_buffersize b.1) 0) as [Hs|Hs].
    { exists m. split_and!; [done|apply outside_refl|]. unfold digest_value.
      rewrite (proj2 (Z.ltb_lt (tpm20_get_hash_buffersize b.1) 0)) by done. done. }
    destruct (Z.ltb_spec (le + sizeof_le) (dest + 2 + tpm20_get_hash_buffersize b.1)) as [Hbig|Hfit].
    + exists m. split_and!; [done|apply outside_refl|].
      replace (write_digest le sha1 bigEndian count sel (tpm20_get_hash_buffersize b.1) dest m) with (@inr (Z * memory) Z (-1)).
      2: { unfold write_digest. by rewrite (proj2 (Z.ltb_lt _ _)) by exact Hbig. }
      destruct (digest_value_some bigEndian h b Hs) as (d & -> & Hl).
      { destruct Hh as [<- _]. by rewrite length_read_bytes. }
      destruct (digest_values bigEndian h banks) as [ds|]; [|done]. rewrite length_app.
      rewrite (proj2 (Z.leb_gt _ _)) by lia. done.
    + destruct (write_digest_spec count sel dest b m Hm Hh Hs R2 R3 Hfit) as (d & m1 & -> & -> & Hl & Hm1 & O1 & D1).
      set (hsize := tpm20_get_hash_buffersize b.1) in *. unfold no_overlap in Hno.
      destruct Hh as [Hh Hhno]. unfold no_overlap in Hhno.
      destruct (IH fuel (count + 1) (sel + 3 + Z.of_nat (length b.2)) (dest + (2 + hsize)) m1)
        as (m2 & Hm2 & O2 & H2); try done; try lia.
      { rewrite (outside_read_bytes _ _ _ _ _ _ O1) by lia. exact Rrest. }
      { unfold no_overlap. lia. }
      { split; [rewrite (outside_read_bytes _ _ _ _ _ _ O1) by lia; exact Hh|unfold no_overlap; lia]. }
      exists m2. split_and!; [done| |].
      { intros y Hy. rewrite O2, O1 by lia. done. }
      destruct (digest_values bigEndian h banks) as [ds|]; [|done]. rewrite length_app.
      replace (dest + Z.of_nat (length d + length ds)) with (dest + (2 + hsize) + Z.of_nat (length ds)) by lia.
      destruct (Z.leb_spec (dest + (2 + hsize) + Z.of_nat (length ds)) (le + sizeof_le)); [|done].
      destruct H2 as (-> & O3 & D2). split_and!; [done| |].
      * intros y Hy. rewrite O3, O1 by lia. done.
      * rewrite read_bytes_app. replace (dest + Z.of_nat (length d)) with (dest + (2 + hsize)) by lia.
        rewrite D2, (outside_read_bytes _ _ _ _ _ _ O3), D1 by lia. done.
Qed.
End Digest.

(** The TPM's description of its banks, as [tpm20_get_pcrbanks] keeps it. *)
Record banks_ok (v : tcg_vars) (m : memory) (banks : list bank) : Prop := {
  banks_at : tpm20_pcr_selection v <> 0;
  banks_size : tpm20_pcr_selection_size v = Z.of_nat (length (encode_selection banks));
  banks_bytes : read_bytes (length (encode_selection banks)) (tpm20_pcr_selection v) m = encode_selection banks;
  banks_each : Forall bank_ok banks;
  banks_count : Z.of_nat (length banks) < 2 ^ 32 }.

(** The digests of an event whose hash is [h]. *)
Definition event_digest (v : tcg_vars) (banks : list bank) (bigEndian : bool) (h : list Z) : option (list Z) :=
  if TPM_version v =? TPM_VERSION_1_2 then Some h
  else if TPM_version v =? TPM_VERSION_2 then digest_list bigEndian h banks
  else None.

Lemma banks_ok_outside v m m' banks a n : banks_ok v m banks -> outside a n m m' ->
  no_overlap (tpm20_pcr_selection v) (tpm20_pcr_selection_size v) a n -> banks_ok v m' banks.
Proof.
  unfold no_overlap. intros [Ha Hs Hb He Hc] Ho Hno. constructor; [done..| |done|done].
  rewrite (outside_read_bytes _ _ _ _ _ _ Ho) by lia. done.
Qed.

Lemma length_encode_selection banks : length (encode_selection banks) = (4 + length (encode_banks banks))%nat.
Proof. unfold encode_selection. by rewrite length_app, length_be. Qed.

Lemma banks_ok_parts v m banks : bytes_ok m -> banks_ok v m banks ->
  swab32 (read32 m (tpm20_pcr_selection v)) = Z.of_nat (length banks) /\
  read_bytes (length (encode_banks banks)) (tpm20_pcr_selection v + 4) m = encode_banks banks.
Proof.
  intros Hm [Ha Hs Hb He Hc]. rewrite length_encode_selection in Hb. unfold encode_selection in Hb.
  rewrite read_bytes_app in Hb. apply app_inj_1 in Hb as [H1 H2]; [|by rewrite length_read_bytes, length_be].
  split; [apply read32_be; [done|lia|done]|exact H2].
Qed.

Lemma length_banks_le banks : (length banks <= length (encode_banks banks))%nat.
Proof.
  induction banks as [|b banks IH]; [simpl; lia|]. rewrite length_encode_banks_cons.
  pose proof (length_encode_bank b). simpl length. lia.
Qed.

Lemma digest_list_count (bigEndian : bool) n m a : bytes_ok m -> 0 <= n < 2 ^ 32 ->
  read_bytes 4 a (write32 a (if bigEndian then swab32 n else n) m) = (if bigEndian then be 4 n else le_list 4 n).
Proof.
  intros Hm Hn. rewrite read_bytes_le32, read32_write32_eq by auto with mem. destruct bigEndian.
  - rewrite (u32_small (swab32 n)) by apply swab32_range.
    destruct (word_bytes n Hn) as (x & y & z & t & Hx & Hy & Hz & Ht & ->). unfold is_byte in *.
    rewrite swab32_of_bytes by done. unfold be. cbn [le_list rev app]. unfold u8.
    clear Hn. repeat (apply (f_equal2 cons); [lia|]); done.
  - by rewrite u32_small by lia.
Qed.

Section Build.
Context {W : Type}.

Lemma tpm20_build_digest_eq (v : tcg_vars) m (w : W) le sha1 bigEndian : tpm20_pcr_selection v <> 0 ->
  tpm20_build_digest le sha1 bigEndian (Machine m (TcgWorld v w)) =
  let p := tpm20_pcr_selection v in let end_ := p + tpm20_pcr_selection_size v in
  match selection_loop (S (Z.to_nat (tpm20_pcr_selection_size v))) (write_digest le sha1 bigEndian)
          (swab32 (read32 m p)) end_ 0 (p + 4) (le + 8 + 4) m with
  | None => None
  | Some (inr e, m') => Some (e, Machine m' (TcgWorld v w))
  | Some (inl (count, sel, dest), m') =>
    if sel =? end_ then
      Some (dest - (le + 8), Machine (write32 (le + 8) (if bigEndian then swab32 count else count) m') (TcgWorld v w))
    else Some (-1, Machine m' (TcgWorld v w))
  end.
Proof.
  intros Hp. unfold tpm20_build_digest, on_selection, get_st, bind, ret, put32, upd_mem. cbn beta iota delta [mc_world tcg_st mc_mem].
  rewrite (proj2 (Z.eqb_neq _ _)) by done. cbn beta iota zeta delta [mc_world tcg_st mc_mem].
  destruct (selection_loop _ _ _ _ _ _ _ m) as [[[[[count sel] dest]|e] m']|]; try reflexivity.
  by destruct (sel =? _).
Qed.

Lemma tpm20_build_digest_run (v : tcg_vars) m (w : W) le sha1 banks bigEndian :
  bytes_ok m -> banks_ok v m banks ->
  no_overlap (tpm20_pcr_selection v) (tpm20_pcr_selection_size v) (le + 8) (sizeof_le - 8) ->
  no_overlap sha1 20 (le + 8) (sizeof_le - 8) ->
  exists m', bytes_ok m' /\ outside (le + 8) (sizeof_le - 8) m m' /\
  match digest_list bigEndian (read_bytes 20 sha1 m) banks with
  | Some d =>
    tpm20_build_digest le sha1 bigEndian (Machine m (TcgWorld v w)) =
      Some (Z.of_nat (length d), Machine m' (TcgWorld v w)) /\ read_bytes (length d) (le + 8) m' = d
  | None => tpm20_build_digest le sha1 bigEndian (Machine m (TcgWorld v w)) = Some (-1, Machine m' (TcgWorld v w))
  end.
Proof.
  intros Hm Hbk Hno Hsh. unfold no_overlap in *. destruct (banks_ok_parts v m banks Hm Hbk) as [Hcount Hbytes].
  destruct Hbk as [Ha Hs _ He Hc]. rewrite length_encode_selection in Hs. pose proof (length_banks_le banks) as Hle.
  assert (Hsz : sizeof_le = 218) by reflexivity.
  set (p := tpm20_pcr_selection v) in *. set (size := tpm20_pcr_selection_size v) in *.
  set (h := read_bytes 20 sha1 m).
  destruct (digest_loop_spec le sha1 bigEndian h (Z.of_nat (length banks)) (p + size) banks (S (Z.to_nat size)) 0 (p + 4)
    (le + 8 + 4) m) as (m1 & Hm1 & O1 & H1); try done; try (unfold no_overlap; lia).
  { split; [done|unfold no_overlap; lia]. }
  rewrite tpm20_build_digest_eq by done. fold p size. cbv zeta. rewrite Hcount. unfold loop_result, digest_list in *.
  set (r := selection_loop _ _ _ _ _ _ _ m) in *. clearbody r.
  destruct (digest_values bigEndian h banks) as [ds|].
  2: { exists m1. subst r. split_and!; [done| |done]. eapply outside_mono; [exact O1|lia..]. }
  destruct (Z.leb_spec (Z.of_nat (length ds)) (sizeof_le - 12)).
  - rewrite (proj2 (Z.leb_le _ _)) in H1 by lia. destruct H1 as (-> & O2 & D1). rewrite Z.eqb_refl.
    set (c := Z.of_nat (length banks)) in *.
    exists (write32 (le + 8) (if bigEndian then swab32 c else c) m1). split; [auto with mem|].
    pose proof (outside_write32 (le + 8) (if bigEndian then swab32 c else c) m1) as O3. split.
    { intros x Hx. rewrite O3, O2 by lia. done. }
    assert (Hc4 : length (if bigEndian then be 4 c else le_list 4 c) = 4%nat)
      by (by destruct bigEndian; rewrite ?length_be, ?length_le_list).
    rewrite length_app, Hc4. split.
    + do 2 f_equal. lia.
    + rewrite read_bytes_app. f_equal; [apply digest_list_count; [done|lia]|].
      change (Z.of_nat 4) with 4. by rewrite (outside_read_bytes _ _ _ _ _ _ O3), D1 by lia.
  - rewrite (proj2 (Z.leb_gt _ _)) in H1 by lia. subst r. exists m1. split_and!; [done| |done].
    eapply outside_mono; [exact O1|lia..].
Qed.

Lemma tpm_build_digest_run (v : tcg_vars) m (w : W) le sha1 banks bigEndian :
  bytes_ok m ->
  (TPM_version v = TPM_VERSION_2 -> banks_ok v m banks /\
   no_overlap (tpm20_pcr_selection v) (tpm20_pcr_selection_size v) (le + 8) (sizeof_le - 8)) ->
  no_overlap sha1 20 (le + 8) (sizeof_le - 8) ->
  exists m', bytes_ok m' /\ outside (le + 8) (sizeof_le - 8) m m' /\
  match event_digest v banks bigEndian (read_bytes 20 sha1 m) with
  | Some d =>
    tpm_build_digest le sha1 bigEndian (Machine m (TcgWorld v w)) =
      Some (Z.of_nat (length d), Machine m' (TcgWorld v w)) /\ read_bytes (length d) (le + 8) m' = d
  | None => tpm_build_digest le sha1 bigEndian (Machine m (TcgWorld v w)) = Some (-1, Machine m' (TcgWorld v w))
  end.
Proof.
  intros Hm Hv Hsh. unfold tpm_build_digest. erewrite bind_some by reflexivity. cbn [mc_world tcg_st].
  unfold event_digest. destruct (Z.eqb_spec (TPM_version v) TPM_VERSION_1_2).
  - assert (Hsz : sizeof_le = 218) by reflexivity. unfold no_overlap in Hsh.
    pose proof (memcpy_spec (le + 8) sha1 20 m Hm ltac:(lia) ltac:(lia)) as C.
    exists (memcpy (le + 8) sha1 20 m). split; [by apply (copied_ok _ _ _ _ _ C)|]. split.
    { eapply outside_mono; [by apply (copied_outside _ _ _ _ _ C)|lia..]. }
    rewrite length_read_bytes. split; [reflexivity|]. by apply (copied_bytes _ _ 20).
  - destruct (Z.eqb_spec (TPM_version v) TPM_VERSION_2) as [E|].
    + destruct (Hv E) as [Hb Hno]. by apply tpm20_build_digest_run.
    + exists m. split_and!; [done|apply outside_refl|done].
Qed.
End Build.

(** ** Whatever the TPM says of its banks, the digests stay in the entry *)

Lemma bytes_ok_movsl n : forall d s m, bytes_ok m -> bytes_ok (movsl n d s m).
Proof. induction n as [|n IH]; intros d s m Hm; cbn [movsl]; auto with mem. Qed.
Lemma bytes_ok_memcpy d s len m : bytes_ok m -> bytes_ok (memcpy d s len m).
Proof. intros Hm. unfold memcpy. case_match; [by apply bytes_ok_movsb|by apply bytes_ok_movsl]. Qed.

Lemma write_digest_frame le sha1 bigEndian count sel hsize dest m : bytes_ok m -> 20 <= hsize -> le + 8 <= dest ->
  match write_digest le sha1 bigEndian count sel hsize dest m with
  | inr e => e = -1
  | inl (dest', m') => bytes_ok m' /\ outside (le + 8) (sizeof_le - 8) m m' /\ dest <= dest' <= le + sizeof_le
  end.
Proof.
  intros Hm Hs Hd. unfold write_digest. destruct (Z.ltb_spec (le + sizeof_le) (dest + 2 + hsize)); [done|].
  set (x := if bigEndian then _ else _). replace (if SHA1_BUFSIZE <? hsize then SHA1_BUFSIZE else hsize) with 20
    by (unfold SHA1_BUFSIZE; destruct (Z.ltb_spec 20 hsize); lia).
  split_and!; [|intros y Hy|lia|lia].
  - apply bytes_ok_memcpy, bytes_ok_memset; [lia|]. by apply bytes_ok_write16.
  - rewrite memcpy_frame, memset_outside, read8_write16_ne by lia. done.
Qed.

Lemma digest_loop_frame le sha1 bigEndian total end_ fuel : forall count sel dest m,
  bytes_ok m -> le + 8 <= dest <= le + sizeof_le -> 0 < Z.of_nat fuel -> end_ - sel < 3 * Z.of_nat fuel ->
  exists r m', selection_loop fuel (write_digest le sha1 bigEndian) total end_ count sel dest m = Some (r, m') /\
  bytes_ok m' /\ outside (le + 8) (sizeof_le - 8) m m' /\
  match r with inr e => e = -1 | inl (_, _, dest') => dest <= dest' <= le + sizeof_le end.
Proof.
  induction fuel as [|fuel IH]; intros count sel dest m Hm Hd Hf Hend; [lia|]. cbn [selection_loop].
  destruct (count <? total); [|eexists (inl (count, sel, dest)), m; split_and!; [done|done|apply outside_refl|lia..]].
  cbv zeta. pose proof (Hm (sel + 2)).
  destruct (Z.ltb_spec end_ (sel + 3 + read8 m (sel + 2)));
    [eexists (inl (count, sel, dest)), m; split_and!; [done|done|apply outside_refl|lia..]|].
  set (hsize := tpm20_get_hash_buffersize _). destruct (Z.ltb_spec hsize 0);
    [eexists (inr (-1)), m; split_and!; [done|done|apply outside_refl|done]|].
  pose proof (write_digest_frame le sha1 bigEndian count sel hsize dest m Hm) as Hw.
  destruct (hash_size_cases (swab16 (read16 m sel))) as [Hx|Hx]; [unfold hsize in *; lia|]. fold hsize in Hx.
  specialize (Hw ltac:(lia) ltac:(lia)). destruct (write_digest _ _ _ _ _ _ _ _) as [[dest' m1]|e].
  - destruct Hw as (Hm1 & O1 & Hd1). destruct (IH (count + 1) (sel + 3 + read8 m (sel + 2)) dest' m1) as (r & m2 & -> & Hm2 & O2 & Hr);
      [done|lia|lia|lia|].
    exists r, m2. split_and!; [done|done|by eapply outside_trans|]. destruct r as [[[c s] d]|e]; [lia|done].
  - exists (inr e), m. split_and!; [done|done|apply outside_refl|done].
Qed.

(** C38: a TPM cannot make the BIOS overrun its stack.  For any bytes at all in the
    structure the TPM has described its PCR banks with (unknown algorithms, a
    wrong count, sizes that run past the end), [tpm20_build_digest] ends, gives
    -1 or a size of at most the 210 bytes a [struct tpm_log_entry] has for
    digests, and writes nothing outside those bytes. *)
Theorem tpm20_build_digest_bounded {W} (v : tcg_vars) m (w : W) le sha1 bigEndian :
  bytes_ok m -> 0 <= tpm20_pcr_selection_size v ->
  exists r m', tpm20_build_digest le sha1 bigEndian (Machine m (TcgWorld v w)) = Some (r, Machine m' (TcgWorld v w)) /\
  -1 <= r <= 210 /\ forall x, x < le + 8 \/ le + sizeof_le <= x -> read8 m' x = read8 m x.
Proof.
  intros Hm Hs. destruct (decide (tpm20_pcr_selection v = 0)) as [E|E].
  { exists (-1), m. unfold tpm20_build_digest, get_st, bind. cbn [mc_world tcg_st]. rewrite E. by split_and!. }
  rewrite tpm20_build_digest_eq by done. cbv zeta. set (p := tpm20_pcr_selection v). set (size := tpm20_pcr_selection_size v) in *.
  assert (Hsz : sizeof_le = 218) by done.
  destruct (digest_loop_frame le sha1 bigEndian (swab32 (read32 m p)) (p + size) (S (Z.to_nat size)) 0 (p + 4) (le + 8 + 4) m)
    as (r & m1 & -> & Hm1 & O1 & Hr); [done|lia|lia|lia|].
  destruct r as [[[count sel] dest]|e].
  - destruct (sel =? p + size).
    + eexists _, _. split; [reflexivity|]. split; [lia|]. intros x Hx. rewrite read8_write32_ne by lia. apply O1. lia.
    + eexists _, m1. split; [reflexivity|]. split; [lia|]. intros x Hx. apply O1. lia.
  - subst e. eexists _, m1. split; [reflexivity|]. split; [lia|]. intros x Hx. apply O1. lia.
Qed.

(** Two banks in a structure that claims a thousand. *)
Definition bad_selection : memory :=
  write_bytes 0x8000 (be 4 1000 ++ encode_banks [(TPM2_ALG_SHA256, [7]); (TPM2_ALG_SHA384, [1; 2; 3])]) ∅.

Lemma tpm20_build_digest_bounded_witness :
  let v := TcgVars 0 0 0 0 0 TPM_VERSION_2 14 0x8000 0 1 0 in
  exists r m', tpm20_build_digest 0x1000 0x2000 true (Machine bad_selection (TcgWorld v tt)) =
    Some (r, Machine m' (TcgWorld v tt)) /\ -1 <= r <= 210 /\
  forall x, x < 0x1008 \/ 0x1000 + sizeof_le <= x -> read8 m' x = read8 bad_selection x.
Proof.
  apply (tpm20_build_digest_bounded (TcgVars 0 0 0 0 0 TPM_VERSION_2 14 0x8000 0 1 0) bad_selection tt 0x1000 0x2000 true).
  - apply bytes_ok_write_bytes, bytes_ok_empty.
  - cbn. lia.
Defined.
