(* ===== verification/TcgCorrect.v ===== *)
(** * What is measured is extended into the TPM and logged

    One measurement on the machine: the hash, the request to the device, the
    entry of the log; sequences of measurements against a TPM 1.2, whose PCRs are
    the replay of the log; the interface after it is shut down. *)
From S2P Require Import Prelude Machine StringOps Bytes Areas Sha1 Sha1Correct Tcg TcgLog TcgDigest.
Local Open Scope seabios_scope.

(** ** Several areas *)

Abbreviation area := (Z * Z)%type.

Definition outside_all (areas : list area) (m m' : memory) : Prop :=
  forall x, Forall (fun b => x < b.1 \/ b.1 + b.2 <= x) areas -> read8 m' x = read8 m x.
Definition away (areas : list area) (a n : Z) : Prop := Forall (fun b => no_overlap a n b.1 b.2) areas.

Lemma outside_all_refl areas m : outside_all areas m m.
Proof. by intros x _. Qed.
Lemma outside_all_trans areas m1 m2 m3 : outside_all areas m1 m2 -> outside_all areas m2 m3 -> outside_all areas m1 m3.
Proof. intros H1 H2 x Hx. by rewrite H2, H1. Qed.
Lemma outside_all_one areas b k a n m m' : outside a n m m' -> In (b, k) areas -> b <= a -> a + n <= b + k ->
  outside_all areas m m'.
Proof.
  intros H Hin Ha Hn x Hx. apply H. rewrite List.Forall_forall in Hx. specialize (Hx _ Hin). simpl in Hx. lia.
Qed.
Lemma outside_all_more areas areas' m m' : outside_all areas m m' -> incl areas areas' -> outside_all areas' m m'.
Proof. intros H Hi x Hx. apply H. rewrite List.Forall_forall in *. auto. Qed.

Lemma away_read8 areas a n m m' x : outside_all areas m m' -> away areas a n -> a <= x < a + n -> read8 m' x = read8 m x.
Proof.
  intros H Ha Hx. apply H. eapply Forall_impl; [exact Ha|]. unfold no_overlap. simpl. intros b Hb. lia.
Qed.
Lemma away_read_bytes areas a n m m' : outside_all areas m m' -> away areas a n ->
  read_bytes (Z.to_nat n) a m' = read_bytes (Z.to_nat n) a m.
Proof. intros H Ha. apply read_bytes_ext. intros b Hb. eapply away_read8; [exact H|exact Ha|lia]. Qed.

Lemma log_ok_all areas v m m' es : log_ok v m es -> outside_all areas m m' ->
  away areas (log_area_start_address v) (log_area_minimum_length v) -> log_ok v m' es.
Proof.
  intros [Ha Hf Hb Hn Hc Hl] Ho Hw. constructor; [done..| |done|done|done].
  rewrite <- Hb at 2. apply read_bytes_ext. intros x Hx. unfold log_size in Hf. eapply away_read8; [exact Ho|exact Hw|lia].
Qed.
Lemma banks_ok_all areas v m m' banks : banks_ok v m banks -> outside_all areas m m' ->
  away areas (tpm20_pcr_selection v) (tpm20_pcr_selection_size v) -> banks_ok v m' banks.
Proof.
  intros [Ha Hs Hb He Hc] Ho Hw. constructor; [done..| |done|done].
  rewrite <- Hb at 2. apply read_bytes_ext. intros x Hx. eapply away_read8; [exact Ho|exact Hw|lia].
Qed.

(** ** The request *)

Definition extend_request (v : tcg_vars) (pcr : Z) (d : list Z) : list Z :=
  if TPM_version v =? TPM_VERSION_1_2 then header TPM_TAG_RQU_CMD 34 0x14 ++ be 4 pcr ++ d
  else header TPM2_ST_SESSIONS (27 + Z.of_nat (length d)) 0x182 ++ be 4 pcr ++ be 4 9 ++ authblock ++ d.
Definition extend_room (v : tcg_vars) : Z := if TPM_version v =? TPM_VERSION_1_2 then 30 else 10.
(** The answer that reports success. *)
Definition accepted (v : tcg_vars) (r : Z * list Z) : bool :=
  negb (truthy r.1 || negb (Z.of_nat (length r.2) =? extend_room v) || truthy (be_at 4 6 r.2)).

Definition has_tpm (v : tcg_vars) : Prop := TPM_version v = TPM_VERSION_1_2 \/ TPM_version v = TPM_VERSION_2.

(** The two builds of the digests succeed together, with the same length. *)
Lemma digest_values_both h banks : length h = 20%nat ->
  match digest_values true h banks, digest_values false h banks with
  | Some dT, Some dL => length dT = length dL
  | None, None => True
  | _, _ => False
  end.
Proof.
  intros Hh. induction banks as [|b banks IH]; [done|]. cbn [digest_values]. unfold digest_value.
  destruct (tpm20_get_hash_buffersize b.1 <? 0); [done|].
  destruct (digest_values true h banks), (digest_values false h banks); try done.
  rewrite !length_app, length_be, length_le_list, IH. lia.
Qed.
Lemma event_digest_both v h banks : length h = 20%nat ->
  match event_digest v banks true h, event_digest v banks false h with
  | Some dT, Some dL => length dT = length dL /\ Z.of_nat (length dT) <= sizeof_le - 8
  | None, None => True
  | _, _ => False
  end.
Proof.
  intros Hh. unfold event_digest, digest_list. destruct (_ =? _); [split; [done|rewrite Hh; done]|]. destruct (_ =? _); [|done].
  pose proof (digest_values_both h banks Hh) as H.
  destruct (digest_values true h banks), (digest_values false h banks); try done. rewrite H.
  destruct (Z.leb_spec (Z.of_nat (length l0)) (sizeof_le - 12)); [|done].
  rewrite !length_app, length_be, length_le_list, H. split; [done|]. lia.
Qed.

Section Measure.
Context {W : Type} `{Frame}.
Context (tpmhw_transmit : Z -> list Z -> Z -> Z -> W -> (Z * list Z) * W).

Lemma tpm_extend_run (v : tcg_vars) m (w : W) le d : has_tpm v ->
  read_bytes (length d) (le + 8) m = d -> (TPM_version v = TPM_VERSION_1_2 -> length d = 20%nat) ->
  let '(r, w') := tpmhw_transmit 0 (extend_request v (read32 m le) d) (extend_room v) TPM_DURATION_TYPE_SHORT w in
  tpm_extend tpmhw_transmit le (Z.of_nat (length d)) (Machine m (TcgWorld v w)) =
    Some (if accepted v r then 0 else -1, Machine m (TcgWorld v w')).
Proof.
  intros Hv Hd H20. unfold extend_request, extend_room, accepted, tpm_extend, extend_room.
  destruct (Z.eqb_spec (TPM_version v) TPM_VERSION_1_2) as [E|E].
  - unfold tpm12_extend, tpm_plain_cmd, transmit, dev, get_st, get_mem, bind, ret.
    cbn [mc_world mc_mem tcg_st tcg_dev]. rewrite (proj2 (Z.eqb_eq _ _)) by done. cbn [mc_world mc_mem tcg_st tcg_dev].
    rewrite (H20 E) in Hd. rewrite Hd. destruct (tpmhw_transmit _ _ _ _ _) as [r w']. cbn [fst]. reflexivity.
  - destruct Hv as [|E2]; [done|]. unfold tpm20_extend, tpm_plain_cmd, transmit, dev, get_st, get_mem, bind, ret.
    cbn [mc_world mc_mem tcg_st tcg_dev]. rewrite (proj2 (Z.eqb_neq _ _)), (proj2 (Z.eqb_eq _ _)) by done.
    cbn [mc_world mc_mem tcg_st tcg_dev]. rewrite Nat2Z.id, Hd.
    destruct (tpmhw_transmit _ _ _ _ _) as [r w']. cbn [fst]. reflexivity.
Qed.

(** ** The log entry *)

(** The areas an event is built in, for a hash at [hash]. *)
Definition locals (hash : Z) : list area := [(le_at, sizeof_le); (hash, 20); (sha1_w_at, 320); (sha1_ctx_at, 20)].
Definition locals_ok (hash : Z) : Prop :=
  no_overlap sha1_ctx_at 20 sha1_w_at 320 /\ no_overlap hash 20 sha1_ctx_at 20 /\ no_overlap hash 20 le_at sizeof_le.
Definition log_area_of (v : tcg_vars) : area := (log_area_start_address v, log_area_minimum_length v).

(** The log and the description of the banks are not in those areas. *)
Definition state_away (hash : Z) (v : tcg_vars) (m : memory) (banks : list bank) : Prop :=
  away (locals hash) (log_area_start_address v) (log_area_minimum_length v) /\
  (TPM_version v = TPM_VERSION_2 -> banks_ok v m banks /\
   away (log_area_of v :: locals hash) (tpm20_pcr_selection v) (tpm20_pcr_selection_size v)).

Lemma state_away_mono hash v m m' banks : state_away hash v m banks ->
  outside_all (log_area_of v :: locals hash) m m' -> state_away hash v m' banks.
Proof.
  intros [H1 H2] Ho. split; [done|]. intros E. destruct (H2 E) as [Hb Hw]. split; [|done].
  by eapply banks_ok_all.
Qed.

Lemma init_le_run {X} pcr type m (x : tcg X) : bytes_ok m -> 0 <= pcr < 2 ^ 32 -> 0 <= type < 2 ^ 32 ->
  exists m', init_le pcr type (Machine m x) = Some (tt, Machine m' x) /\ bytes_ok m' /\
  outside le_at sizeof_le m m' /\ read32 m' le_at = pcr /\ read32 m' (le_at + 4) = type.
Proof.
  intros Hm Hp Ht. unfold init_le, upd_mem. cbn [mc_mem mc_world]. eexists. split; [reflexivity|].
  assert (bytes_ok (memset le_at 0 sizeof_le m)) by (apply bytes_ok_memset; [done|done]).
  assert (sizeof_le = 218) as Hs by done. split_and!; [auto with mem| | |].
  - intros y Hy. rewrite !read8_write32_ne by lia. apply memset_outside; [done|lia].
  - rewrite read32_write32_ne, read32_write32_eq by lia. by apply u32_small.
  - rewrite read32_write32_eq. by apply u32_small.
Qed.

Lemma build_in_locals hash v m (w : W) banks bigEndian : bytes_ok m -> locals_ok hash -> state_away hash v m banks ->
  exists m', bytes_ok m' /\ outside (le_at + 8) (sizeof_le - 8) m m' /\
  match event_digest v banks bigEndian (read_bytes 20 hash m) with
  | Some d =>
    tpm_build_digest le_at hash bigEndian (Machine m (TcgWorld v w)) =
      Some (Z.of_nat (length d), Machine m' (TcgWorld v w)) /\ read_bytes (length d) (le_at + 8) m' = d
  | None => tpm_build_digest le_at hash bigEndian (Machine m (TcgWorld v w)) = Some (-1, Machine m' (TcgWorld v w))
  end.
Proof.
  intros Hm (_ & _ & Hh) [_ Hv]. assert (sizeof_le = 218) as Hs by done. unfold no_overlap in *.
  apply tpm_build_digest_run; [done| |unfold no_overlap; lia].
  intros E. destruct (Hv E) as [Hb Hw]. split; [done|]. inversion_clear Hw as [|? ? _ Hw']. inversion_clear Hw' as [|? ? Hle _].
  unfold no_overlap in *. simpl in Hle. lia.
Qed.

(** The second build and the entry. *)
Lemma log_digest_run hash v m (w : W) es banks dL n event event_len : bytes_ok m -> log_ok v m es -> locals_ok hash ->
  state_away hash v m banks -> event_digest v banks false (read_bytes 20 hash m) = Some dL -> n = Z.of_nat (length dL) ->
  n <= sizeof_le - 8 -> 0 <= event_len -> 12 + sizeof_le + event_len + log_area_minimum_length v < 2 ^ 32 ->
  away (log_area_of v :: locals hash) event event_len ->
  let e := LogEntry (read32 m le_at) (read32 m (le_at + 4)) dL (read_bytes (Z.to_nat event_len) event m) in
  exists r v' m', (do tpm_build_digest le_at hash false ;; tpm_log_event le_at n event event_len) (Machine m (TcgWorld v w)) =
    Some (r, Machine m' (TcgWorld v' w)) /\ bytes_ok m' /\ outside_all (log_area_of v :: locals hash) m m' /\
  if log_size (es ++ [e]) <=? log_area_minimum_length v
  then r = 0 /\ v' = appended (Z.of_nat (length (encode_entry e))) v /\ log_ok v' m' (es ++ [e])
  else r = -1 /\ v' = v /\ log_ok v' m' es.
Proof.
  intros Hm Hlog Hloc Hst Hd Hn Hfit Hel Hsz Hev e. assert (sizeof_le = 218) as Hs by done.
  destruct (build_in_locals hash v m w banks false Hm Hloc Hst) as (m1 & Hm1 & O1 & H1).
  rewrite Hd in H1. destruct H1 as [Hrun D1]. erewrite bind_some by exact Hrun.
  assert (A1 : outside_all (locals hash) m m1).
  { eapply (outside_all_one _ le_at sizeof_le); [exact O1|by left|lia..]. }
  assert (Hlog1 : log_ok v m1 es) by (eapply log_ok_all; [exact Hlog|exact A1|apply Hst]).
  assert (Hroom : 0 <= log_room v /\ log_area_start_address v <= log_area_next_entry v /\
    log_area_next_entry v + log_room v = log_area_start_address v + log_area_minimum_length v).
  { destruct Hlog as [? ? _ ? _ _]. pose proof (log_size_pos es). unfold log_room. lia. }
  assert (E1 : entry_of m1 le_at n event event_len = e).
  { unfold entry_of, e. rewrite !(outside_read32 _ _ _ _ _ O1) by lia. rewrite Hn, Nat2Z.id, D1. f_equal.
    eapply away_read_bytes; [exact A1|]. by inversion_clear Hev. }
  destruct Hst as [Hw _]. inversion_clear Hev as [|? ? Hevl Hev']. inversion_clear Hw as [|? ? Hwle _].
  unfold no_overlap, log_area_of in *. cbn [fst snd] in *.
  destruct (tpm_log_event_run v m1 w es le_at n event event_len) as [[Hf (m2 & Hr & Hlog2 & Hm2 & O2)]|[Hf Hr]];
    try done; try (unfold no_overlap; lia); rewrite E1 in *; rewrite Hr.
  - exists 0, (appended (Z.of_nat (length (encode_entry e))) v), m2. split_and!; [done|done| |].
    + apply (outside_all_trans _ _ m1); [eapply outside_all_more; [exact A1|by right]|].
      eapply (outside_all_one _ (log_area_start_address v) (log_area_minimum_length v)); [exact O2|by left|lia..].
    + by rewrite (proj2 (Z.leb_le _ _)).
  - exists (-1), v, m1. split_and!; [done|done|eapply outside_all_more; [exact A1|by right]|].
    by rewrite (proj2 (Z.leb_gt _ _)).
Qed.

(** ** One measurement *)

Lemma call_sha1_run data length hash m (x : tcg W) : bytes_ok m -> locals_ok hash -> 0 <= length < 2 ^ 29 ->
  apart sha1_w_at sha1_ctx_at data length ->
  exists m', call_sha1 true data length hash (Machine m x) = Some (tt, Machine m' x) /\ bytes_ok m' /\
  outside_all (locals hash) m m' /\ read_bytes 20 hash m' = Fips.SHA1 (read_bytes (Z.to_nat length) data m).
Proof.
  intros Hm (Hwc & Hhc & _) Hl Ha. unfold no_overlap in *.
  destruct (sha1_run sha1_w_at sha1_ctx_at (Z.to_nat (length / 64)) data length hash m Hm ltac:(lia) Hl ltac:(lia) Ha
    ltac:(lia)) as (m' & Hr & Hm' & Hd & Ho).
  exists m'. unfold call_sha1. cbn [mc_mem mc_world]. rewrite Hr. split_and!; [done|done| |done].
  intros y Hy. unfold locals in Hy. rewrite !List.Forall_cons_iff in Hy. cbn [fst snd] in Hy. apply Ho; lia.
Qed.

(** The entry of an event and its digests in the order of the device. *)
Lemma begin_entry_run hash v m (w : W) banks pcr type : bytes_ok m -> locals_ok hash -> state_away hash v m banks ->
  0 <= pcr < 2 ^ 32 -> 0 <= type < 2 ^ 32 ->
  exists m', bytes_ok m' /\ outside_all (locals hash) m m' /\ read_bytes 20 hash m' = read_bytes 20 hash m /\
  match event_digest v banks true (read_bytes 20 hash m) with
  | Some d =>
    (do init_le pcr type ;; tpm_build_digest le_at hash true) (Machine m (TcgWorld v w)) =
      Some (Z.of_nat (length d), Machine m' (TcgWorld v w)) /\
    read_bytes (length d) (le_at + 8) m' = d /\ read32 m' le_at = pcr /\ read32 m' (le_at + 4) = type
  | None =>
    (do init_le pcr type ;; tpm_build_digest le_at hash true) (Machine m (TcgWorld v w)) =
      Some (-1, Machine m' (TcgWorld v w))
  end.
Proof.
  intros Hm Hloc Hst Hp Ht. assert (sizeof_le = 218) as Hs by done.
  destruct (init_le_run pcr type m (TcgWorld v w) Hm Hp Ht) as (m1 & R1 & Hm1 & O1 & P1 & T1).
  assert (A1 : outside_all (locals hash) m m1) by (eapply (outside_all_one _ le_at sizeof_le); [exact O1|by left|lia..]).
  assert (Hst1 : state_away hash v m1 banks).
  { eapply state_away_mono; [exact Hst|]. eapply outside_all_more; [exact A1|by right]. }
  destruct (build_in_locals hash v m1 w banks true Hm1 Hloc Hst1) as (m2 & Hm2 & O2 & H2).
  destruct Hloc as (_ & _ & Hh). unfold no_overlap in Hh.
  assert (E1 : read_bytes 20 hash m1 = read_bytes 20 hash m) by (apply (outside_read_bytes _ _ _ _ _ _ O1); lia).
  assert (E2 : read_bytes 20 hash m2 = read_bytes 20 hash m).
  { rewrite <- E1. apply (outside_read_bytes _ _ _ _ _ _ O2). lia. }
  rewrite E1 in H2. exists m2. split_and!; [done| |done|].
  { apply (outside_all_trans _ _ m1); [done|]. eapply (outside_all_one _ le_at sizeof_le); [exact O2|by left|lia..]. }
  erewrite bind_some by exact R1. destruct (event_digest v banks true _) as [d|]; [|done].
  destruct H2 as [R2 D2]. rewrite !(outside_read32 _ _ _ _ _ O2) by lia. done.
Qed.

Lemma tpm_set_failure_run v (w : W) : exists w', forall m,
  tpm_set_failure tpmhw_transmit (Machine m (TcgWorld v w)) = Some (tt, Machine m (TcgWorld (set_working 0 v) w')).
Proof.
  unfold tpm_set_failure, tpm_simple_cmd, tpm20_hierarchycontrol, tpm_plain_cmd, transmit, dev, get_st, upd_st, bind, ret.
  cbn [mc_world mc_mem tcg_st tcg_dev].
  destruct (TPM_version v =? TPM_VERSION_1_2); [|destruct (TPM_version v =? TPM_VERSION_2)];
    cbn [mc_world mc_mem tcg_st tcg_dev]; repeat (destruct (tpmhw_transmit _ _ _ _ _); cbn [mc_world mc_mem tcg_st tcg_dev]);
    by eexists; intros m.
Qed.

(** What a measurement needs of its arguments. *)
Record event_args (v : tcg_vars) (pcr type event event_len data data_len : Z) : Prop := {
  ev_pcr : 0 <= pcr < 2 ^ 32;
  ev_type : 0 <= type < 2 ^ 32;
  ev_len : 0 <= event_len /\ 12 + sizeof_le + event_len + log_area_minimum_length v < 2 ^ 32;
  ev_event : away (log_area_of v :: locals hash_at) event event_len;
  ev_data_len : 0 <= data_len < 2 ^ 29;
  ev_data : apart sha1_w_at sha1_ctx_at data data_len }.

(** The variables, the log and the device after a measurement. *)
Definition measured (v : tcg_vars) (es : list log_entry) (w : W) (banks : list bank) (pcr type : Z) (h event : list Z)
    (v' : tcg_vars) (es' : list log_entry) (w' : W) : Prop :=
  match event_digest v banks true h, event_digest v banks false h with
  | Some dT, Some dL =>
    let '(r, w1) := tpmhw_transmit 0 (extend_request v pcr dT) (extend_room v) TPM_DURATION_TYPE_SHORT w in
    if accepted v r then
      let e := LogEntry pcr type dL event in w' = w1 /\
      if log_size (es ++ [e]) <=? log_area_minimum_length v
      then es' = es ++ [e] /\ v' = appended (Z.of_nat (length (encode_entry e))) v
      else es' = es /\ v' = v
    else es' = es /\ v' = set_working 0 v /\ forall m,
      tpm_set_failure tpmhw_transmit (Machine m (TcgWorld v w1)) = Some (tt, Machine m (TcgWorld v' w'))
  | _, _ => es' = es /\ v' = v /\ w' = w
  end.

Lemma log_ok_working v m es x : log_ok v m es -> log_ok (set_working x v) m es.
Proof. by intros [? ? ? ? ? ?]; constructor. Qed.

Lemma event_digest_20 v banks bigEndian h d : length h = 20%nat -> TPM_version v = TPM_VERSION_1_2 ->
  event_digest v banks bigEndian h = Some d -> length d = 20%nat.
Proof. intros Hh E. unfold event_digest. rewrite E. cbn. by intros [= <-]. Qed.

Lemma measurement_run v m w es banks pcr type event event_len data data_len :
  bytes_ok m -> log_ok v m es -> locals_ok hash_at -> state_away hash_at v m banks -> has_tpm v ->
  truthy (TPM_working v) = true -> event_args v pcr type event event_len data data_len ->
  exists v' es' m' w',
  tpm_add_measurement_to_log true tpmhw_transmit pcr type event event_len data data_len (Machine m (TcgWorld v w)) =
    Some (tt, Machine m' (TcgWorld v' w')) /\
  measured v es w banks pcr type (Fips.SHA1 (read_bytes (Z.to_nat data_len) data m))
    (read_bytes (Z.to_nat event_len) event m) v' es' w' /\
  log_ok v' m' es' /\ bytes_ok m' /\ outside_all (log_area_of v :: locals hash_at) m m'.
Proof.
  intros Hm Hlog Hloc Hst Hv Hwork [Hp Ht [Hel Hsz] Hev Hdl Hda]. unfold measured.
  destruct (call_sha1_run data data_len hash_at m (TcgWorld v w) Hm Hloc Hdl Hda) as (m1 & R1 & Hm1 & A1 & E1).
  set (h := Fips.SHA1 _) in *.
  assert (Hh : length h = 20%nat) by (rewrite <- E1; apply length_read_bytes).
  assert (B1 : outside_all (log_area_of v :: locals hash_at) m m1) by (eapply outside_all_more; [exact A1|by right]).
  pose proof (state_away_mono _ _ _ _ _ Hst B1) as Hst1.
  destruct (begin_entry_run hash_at v m1 w banks pcr type Hm1 Hloc Hst1 Hp Ht) as (m2 & Hm2 & A2 & E2 & H2).
  rewrite E1 in *. assert (A : outside_all (locals hash_at) m m2) by (by eapply outside_all_trans).
  assert (B : outside_all (log_area_of v :: locals hash_at) m m2) by (eapply outside_all_more; [exact A|by right]).
  assert (Hlog2 : log_ok v m2 es) by (eapply log_ok_all; [exact Hlog|exact A|apply Hst]).
  pose proof (event_digest_both v h banks Hh) as Hboth.
  unfold tpm_add_measurement_to_log, tpm_is_working. erewrite bind_some by reflexivity. cbn [mc_world tcg_st].
  rewrite Hwork. cbn [andb negb]. erewrite bind_some by exact R1.
  destruct (event_digest v banks true h) as [dT|] eqn:ET, (event_digest v banks false h) as [dL|] eqn:EL; try done.
  - destruct H2 as (R2 & D2 & P2 & T2), Hboth as [Hlen Hfit]. apply bind_inv in R2 as (u & s2 & R2 & R3).
    erewrite bind_some by exact R2. erewrite bind_some by exact R3. rewrite (proj2 (Z.ltb_ge _ _)) by lia.
    pose proof (tpm_extend_run v m2 w le_at dT Hv D2 (fun E => event_digest_20 v banks true h dT Hh E ET)) as Hext.
    rewrite P2 in Hext. destruct (tpmhw_transmit 0 _ _ _ w) as [r w1].
    erewrite bind_some by exact Hext. destruct (accepted v r).
    + change (truthy 0) with false. cbv iota.
      destruct (log_digest_run hash_at v m2 w1 es banks dL (Z.of_nat (length dT)) event event_len) as
        (c & v' & m3 & R4 & Hm3 & O3 & H3); try done; try lia.
      { exact (state_away_mono _ _ _ _ _ Hst B). } { by rewrite E2. }
      rewrite P2, T2, (away_read_bytes (locals hash_at) event event_len m m2 A) in H3 by by inversion_clear Hev.
      apply bind_inv in R4 as (u4 & s4 & R4 & R5). erewrite bind_some by exact R4. erewrite bind_some by exact R5.
      set (e := LogEntry pcr type dL _) in *. destruct (_ <=? _); destruct H3 as (_ & -> & Hlog3).
      * eexists _, (es ++ [e]), m3, w1. split_and!; try done. by apply (outside_all_trans _ _ m2).
      * eexists _, es, m3, w1. split_and!; try done. by apply (outside_all_trans _ _ m2).
    + change (truthy (-1)) with true. cbv iota. destruct (tpm_set_failure_run v w1) as (w2 & Hfail). rewrite Hfail.
      eexists _, es, m2, w2. split_and!; try done. by apply log_ok_working.
  - apply bind_inv in H2 as (u & s2 & R2 & R3). erewrite bind_some by exact R2. erewrite bind_some by exact R3.
    exists v, es, m2, w. split_and!; done.
Qed.
End Measure.
