(* ===== verification/TcgReplay.v ===== *)
(** * The log of a TPM 1.2 replays to its PCRs

    Who reads the log can compute every PCR from it.  The device is any driver
    with PCRs that obeys the specification of TPM_Extend ([tpm12]). *)
From S2P Require Import Prelude Machine StringOps Bytes Areas Sha1 Sha1Correct Tcg TcgLog TcgDigest TcgCorrect.
Local Open Scope seabios_scope.

(** The registers of the TPM, and the replay of a log on them. *)
Definition extend_pcr (pcrs : Z -> list Z) (p : Z) (d : list Z) : Z -> list Z :=
  fun q => if q =? p then Fips.SHA1 (pcrs p ++ d) else pcrs q.
Definition replay (pcrs : Z -> list Z) (es : list log_entry) : Z -> list Z :=
  foldl (fun a e => extend_pcr a (en_pcr e) (en_digest e)) pcrs es.

Definition extend12 (p : Z) (d : list Z) : list Z := header TPM_TAG_RQU_CMD 34 0x14 ++ be 4 p ++ d.
Definition success12 (r : Z * list Z) : bool :=
  negb (truthy r.1 || negb (Z.of_nat (length r.2) =? 30) || truthy (be_at 4 6 r.2)).

(** The commands a measurement sends: TPM_Extend, and TPM_SetTempDeactivated,
    which leaves the registers alone. *)
Class tpm12 {W : Type} (tpmhw_transmit : Z -> list Z -> Z -> Z -> W -> (Z * list Z) * W) (pcr : W -> Z -> list Z) := {
  extend_spec : forall w p d, 0 <= p < 2 ^ 32 -> length d = 20%nat ->
    let '(r, w') := tpmhw_transmit 0 (extend12 p d) 30 TPM_DURATION_TYPE_SHORT w in
    forall q, pcr w' q = if success12 r then extend_pcr (pcr w) p d q else pcr w q;
  deactivate_spec : forall w q,
    pcr (tpmhw_transmit 0 (header TPM_TAG_RQU_CMD 10 0x73) 64 TPM_DURATION_TYPE_SHORT w).2 q = pcr w q }.

(** A call of [tpm_add_measurement_to_log]. *)
Record measurement := Measurement {
  ms_pcr : Z; ms_type : Z; ms_event : Z; ms_event_len : Z; ms_data : Z; ms_data_len : Z }.

Definition entry_for (m : memory) (x : measurement) : log_entry :=
  LogEntry (ms_pcr x) (ms_type x) (Fips.SHA1 (read_bytes (Z.to_nat (ms_data_len x)) (ms_data x) m))
    (read_bytes (Z.to_nat (ms_event_len x)) (ms_event x) m).
(** The bytes they take in the log: the hash has 20. *)
Definition sizes (l : list measurement) : Z := foldr (fun x n => 32 + ms_event_len x + n) 0 l.

Section Replay.
Context {W : Type} `{Frame}.
Context (tpmhw_transmit : Z -> list Z -> Z -> Z -> W -> (Z * list Z) * W) (pcr : W -> Z -> list Z).
Context `{!tpm12 tpmhw_transmit pcr}.

Fixpoint measure_all (l : list measurement) : M (tcg W) unit :=
  match l with
  | [] => ret tt
  | x :: l =>
    do tpm_add_measurement_to_log true tpmhw_transmit (ms_pcr x) (ms_type x) (ms_event x) (ms_event_len x) (ms_data x)
         (ms_data_len x) ;;
    measure_all l
  end.

Definition call_ok (v : tcg_vars) (x : measurement) : Prop :=
  event_args v (ms_pcr x) (ms_type x) (ms_event x) (ms_event_len x) (ms_data x) (ms_data_len x) /\
  away (log_area_of v :: locals hash_at) (ms_data x) (ms_data_len x).

Lemma call_ok_area v v' x : log_area_of v' = log_area_of v -> call_ok v x -> call_ok v' x.
Proof.
  intros E [[Hp Ht Hl He Hd Ha] Hw]. unfold log_area_of in *. injection E as E1 E2. split; [|unfold log_area_of in *; by rewrite E1, E2].
  constructor; unfold log_area_of in *; rewrite ?E1, ?E2; done.
Qed.

Lemma entry_for_stable v m m' x : call_ok v x -> outside_all (log_area_of v :: locals hash_at) m m' ->
  entry_for m' x = entry_for m x.
Proof.
  intros [[Hp Ht Hl He Hd Ha] Hw] Ho. unfold entry_for.
  by rewrite (away_read_bytes _ _ _ _ _ Ho Hw), (away_read_bytes _ _ _ _ _ Ho He).
Qed.

Lemma not_working_run l v m (w : W) : truthy (TPM_working v) = false ->
  measure_all l (Machine m (TcgWorld v w)) = Some (tt, Machine m (TcgWorld v w)).
Proof.
  intros Hw. induction l as [|x l IH]; [done|]. cbn [measure_all].
  unfold tpm_add_measurement_to_log, tpm_is_working. unfold bind, get_st, ret in *. cbn [mc_world tcg_st].
  rewrite Hw. cbn [andb negb]. done.
Qed.

Lemma length_SHA1 l : length (Fips.SHA1 l) = 20%nat.
Proof.
  unfold Fips.SHA1, Fips.digest. destruct (Fips.blocks _ _ _) as [[[[a b] c] d] e]. reflexivity.
Qed.

Lemma failure_keeps_pcr v m (w : W) v' w' q : TPM_version v = TPM_VERSION_1_2 ->
  tpm_set_failure tpmhw_transmit (Machine m (TcgWorld v w)) = Some (tt, Machine m (TcgWorld v' w')) -> pcr w' q = pcr w q.
Proof.
  intros E. pose proof (deactivate_spec w q) as Hd. revert Hd.
  unfold tpm_set_failure, tpm_simple_cmd, transmit, dev, get_st, upd_st, bind, ret.
  cbn [mc_world mc_mem tcg_st tcg_dev]. rewrite E, Z.eqb_refl. cbv iota zeta. cbn [mc_world mc_mem tcg_st tcg_dev].
  rewrite E, Z.eqb_refl. cbv iota zeta.
  change (take _ _) with (header TPM_TAG_RQU_CMD 10 0x73).
  destruct (tpmhw_transmit _ _ _ _ _) as [r w1]. cbn. intros Hd [= _ <-]. exact Hd.
Qed.

Definition replays (pcrs : Z -> list Z) (w : W) (es : list log_entry) : Prop := forall q, pcr w q = replay pcrs es q.

Lemma replay_app pcrs es e q :
  replay pcrs (es ++ [e]) q = extend_pcr (replay pcrs es) (en_pcr e) (en_digest e) q.
Proof. unfold replay. by rewrite foldl_app. Qed.
Lemma extend_pcr_ext f g p d q : (forall r, f r = g r) -> extend_pcr f p d q = extend_pcr g p d q.
Proof. intros E. unfold extend_pcr. by rewrite !E. Qed.

Lemma size_entry_for m x v : call_ok v x -> Z.of_nat (length (encode_entry (entry_for m x))) = 32 + ms_event_len x.
Proof.
  intros [[_ _ [Hl _] _ _ _] _]. rewrite length_encode_entry. cbn [entry_for en_digest en_event].
  rewrite length_SHA1, length_read_bytes. lia.
Qed.

(** One measurement: the entry and the register, or a failure and neither. *)
Lemma measurement_replays pcrs v m w es x : TPM_version v = TPM_VERSION_1_2 -> truthy (TPM_working v) = true ->
  bytes_ok m -> log_ok v m es -> locals_ok hash_at -> state_away hash_at v m [] -> call_ok v x -> replays pcrs w es ->
  log_size es + 32 + ms_event_len x <= log_area_minimum_length v ->
  exists v' es' m' w',
  tpm_add_measurement_to_log true tpmhw_transmit (ms_pcr x) (ms_type x) (ms_event x) (ms_event_len x) (ms_data x)
    (ms_data_len x) (Machine m (TcgWorld v w)) = Some (tt, Machine m' (TcgWorld v' w')) /\
  ((es' = es ++ [entry_for m x] /\ TPM_working v' = TPM_working v) \/ (es' = es /\ TPM_working v' = 0)) /\
  TPM_version v' = TPM_VERSION_1_2 /\ log_area_of v' = log_area_of v /\ log_ok v' m' es' /\ bytes_ok m' /\
  outside_all (log_area_of v :: locals hash_at) m m' /\ replays pcrs w' es'.
Proof.
  intros E Hwork Hm Hlog Hloc Hst Hx Hrep Hfit. pose proof Hx as [Hev _].
  destruct (measurement_run tpmhw_transmit v m w es [] _ _ _ _ _ _ Hm Hlog Hloc Hst (or_introl E) Hwork Hev)
    as (v' & es' & m' & w' & Hrun & Hmeas & Hlog' & Hm' & Ho).
  exists v', es', m', w'. split; [exact Hrun|]. unfold measured, event_digest in Hmeas.
  rewrite E, Z.eqb_refl in Hmeas. set (h := Fips.SHA1 _) in *. set (ev := read_bytes (Z.to_nat (ms_event_len x)) _ m) in *.
  unfold extend_request, extend_room, accepted, extend_room in Hmeas. rewrite E, Z.eqb_refl in Hmeas.
  pose proof (extend_spec w (ms_pcr x) h (ev_pcr _ _ _ _ _ _ _ Hev) (length_SHA1 _)) as Hext. unfold extend12, success12 in Hext.
  destruct (tpmhw_transmit 0 _ 30 _ w) as [r w1]. change (LogEntry _ _ h ev) with (entry_for m x) in Hmeas.
  destruct (negb _).
  - destruct Hmeas as [-> Hmeas]. pose proof (size_entry_for m x v Hx) as Hsz.
    rewrite (proj2 (Z.leb_le _ _)) in Hmeas by (rewrite log_size_app; lia). destruct Hmeas as [-> ->].
    split_and!; try done; [by left|]. intros q. rewrite Hext, replay_app. by apply extend_pcr_ext.
  - destruct Hmeas as (-> & -> & Hfail). split_and!; try done; [by right|]. intros q.
    rewrite (failure_keeps_pcr _ _ _ _ _ q E (Hfail m)), Hext. apply Hrep.
Qed.

(** C2: a boot's measurements can be replayed.  On a TPM 1.2 any driver that
    obeys the specification of TPM_Extend, any sequence of measurements whose
    entries fit the log runs to its end; the log then has the entries of the
    first [k] measurements (number of the register, event type, SHA-1 of the
    data, event) after those it had, all of them unless the TPM was given up as
    broken, and every PCR is what one computes from the log. *)
Theorem tpm_log_replays_to_pcrs pcrs l : forall v m w es,
  TPM_version v = TPM_VERSION_1_2 -> bytes_ok m -> log_ok v m es -> locals_ok hash_at -> state_away hash_at v m [] ->
  Forall (call_ok v) l -> log_size es + sizes l <= log_area_minimum_length v -> replays pcrs w es ->
  exists k v' m' w', measure_all l (Machine m (TcgWorld v w)) = Some (tt, Machine m' (TcgWorld v' w')) /\
  (TPM_working v' <> 0 -> k = length l) /\
  let es' := es ++ take k (map (entry_for m) l) in log_ok v' m' es' /\ replays pcrs w' es'.
Proof.
  induction l as [|x l IH]; intros v m w es E Hm Hlog Hloc Hst Hcalls Hfit Hrep.
  { exists O, v, m, w. rewrite app_nil_r. done. }
  destruct (truthy (TPM_working v)) eqn:Hwork.
  2: { exists O, v, m, w. rewrite not_working_run by done. rewrite app_nil_r. unfold truthy in Hwork.
       destruct (Z.eqb_spec (TPM_working v) 0); done. }
  inversion_clear Hcalls as [|? ? Hx Hl]. cbn [sizes foldr] in Hfit. fold (sizes l) in Hfit.
  assert (Hsl : 0 <= sizes l).
  { clear -Hl. induction Hl as [|y l [[_ _ [Hy _] _ _ _] _] _ IH]; [done|]. cbn [sizes foldr]. fold (sizes l). lia. }
  destruct (measurement_replays pcrs v m w es x E Hwork Hm Hlog Hloc Hst Hx Hrep ltac:(lia))
    as (v1 & es1 & m1 & w1 & Hrun & Hres & E1 & Ea & Hlog1 & Hm1 & Ho & Hrep1).
  cbn [measure_all]. erewrite bind_some by exact Hrun.
  destruct Hres as [[-> Hw1]|[-> Hw1]].
  - destruct (IH v1 m1 w1 (es ++ [entry_for m x])) as (k & v2 & m2 & w2 & Hrun2 & Hk & Hlog2 & Hrep2); try done.
    + destruct Hst as [Ha _]. unfold log_area_of in Ea. injection Ea as Ea1 Ea2. split; [by rewrite Ea1, Ea2|by rewrite E1].
    + eapply Forall_impl; [exact Hl|]. intros y. by apply call_ok_area.
    + rewrite log_size_app, (size_entry_for m x v Hx). unfold log_area_of in Ea. injection Ea as _ ->. lia.
    + exists (S k), v2, m2, w2. split; [done|]. split; [intros Hw2; cbn [length]; by rewrite Hk|].
      cbn [map take]. assert (Hmap : map (entry_for m1) l = map (entry_for m) l).
      { apply map_ext_in. intros y Hy. eapply entry_for_stable; [|exact Ho]. rewrite List.Forall_forall in Hl. by apply Hl. }
      rewrite Hmap, <- app_assoc in Hlog2, Hrep2. done.
  - rewrite not_working_run by (by rewrite Hw1). exists O, v1, m1, w1. rewrite app_nil_r. done.
Qed.
End Replay.

(** ** An example: a TPM that only counts registers, and two measurements *)

Module Sample.
#[export] Instance frame : Frame := {|
  le_at := 0x1000; hash_at := 0x2000; sha1_w_at := 0x3000; sha1_ctx_at := 0x4000; event_at := 0x5000; pcpes_at := 0x6000;
  info_at := 0x7000; separator_at := 0x8000; str_at := fun _ => 0x9000; buffer_junk := [] |}.

Definition tpm (locty : Z) (req : list Z) (room duration : Z) (w : Z -> list Z) : (Z * list Z) * (Z -> list Z) :=
  if decide (take 10 req = header TPM_TAG_RQU_CMD 34 0x14) then
    ((0, replicate 30 0), extend_pcr w (be_at 4 10 req) (drop 14 req))
  else ((0, replicate 10 0), w).

#[export] Instance tpm_spec : tpm12 tpm (fun w => w).
Proof.
  split.
  - intros w p d Hp Hd. unfold tpm, extend12. change (take 10 _) with (header TPM_TAG_RQU_CMD 34 0x14).
    rewrite decide_True by done. intros q. change (success12 _) with true. cbv iota.
    change (drop 14 _) with d. assert (be_at 4 10 (header TPM_TAG_RQU_CMD 34 20 ++ be 4 p ++ d) = p) as ->; [|done].
    change (be_at 4 10 _) with (le_value (le_list 4 p)). rewrite le_value_list. by rewrite Z.mod_small.
  - intros w q. reflexivity.
Qed.

Definition vars : tcg_vars := TcgVars 0x1000 0x10000 0 0x10000 0 TPM_VERSION_1_2 0 0 0 1 0.
Definition calls : list measurement :=
  [Measurement 4 EV_ACTION 0xa000 3 0xa000 3; Measurement 5 EV_IPL 0xa000 0 0xa001 2].
Definition memory0 : memory := write_bytes 0xa000 [0x61; 0x62; 0x63] ∅.

Lemma log_ok_empty start len v m : log_area_start_address v = start -> log_area_minimum_length v = len -> 0 < start ->
  0 <= len -> start + len < 2 ^ 32 -> log_area_next_entry v = start -> entry_count v = 0 -> log_area_last_entry v = 0 ->
  log_ok v m [].
Proof. intros E1 E2 Hs Hl Hsl En Ec El. constructor; rewrite ?E1, ?E2, ?En, ?Ec, ?El; change (log_size []) with 0; done || lia. Qed.
End Sample.
#[local] Existing Instances Sample.frame Sample.tpm_spec.

Ltac areas := unfold away, locals, log_area_of; rewrite ?List.Forall_cons_iff; unfold no_overlap; cbn; unfold sizeof_le;
  split_and!; try lia; apply List.Forall_nil.

Lemma tpm_log_replays_to_pcrs_witness :
  let m := Sample.memory0 in
  exists k v' m' w', measure_all Sample.tpm Sample.calls (Machine m (TcgWorld Sample.vars (fun _ => replicate 20 0))) =
    Some (tt, Machine m' (TcgWorld v' w')) /\
  (TPM_working v' <> 0 -> k = 2%nat) /\
  let es' := take k (map (entry_for m) Sample.calls) in
  log_ok v' m' es' /\ replays (fun w => w) (fun _ => replicate 20 0) w' es'.
Proof.
  apply (tpm_log_replays_to_pcrs Sample.tpm (fun w => w) (fun _ => replicate 20 0) Sample.calls Sample.vars Sample.memory0
    (fun _ => replicate 20 0) []).
  - reflexivity.
  - apply bytes_ok_write_bytes, bytes_ok_empty.
  - apply (Sample.log_ok_empty 0x10000 0x1000); cbn; lia.
  - unfold locals_ok, no_overlap. cbn. unfold sizeof_le. lia.
  - split; [areas|done].
  - repeat apply List.Forall_cons; [| |apply List.Forall_nil]; (split; [constructor|]); cbn -[Z.pow]; unfold EV_ACTION, EV_IPL, sizeof_le;
      try lia; try (unfold apart; cbn; lia); areas.
  - vm_compute. discriminate.
  - intros q. reflexivity.
Defined.
