(* ===== verification/TcgInt.v ===== *)
(** * The TPM's BIOS interface, INT 1Ah

    [hash_log_extend], the common part of three functions, on every branch; and
    the interface after [TCG_ShutdownPreBootInterface]. *)
From S2P Require Import Prelude Machine StringOps Bytes Areas Sha1 Sha1Correct Tcg TcgLog TcgDigest TcgCorrect TcgReplay.
Local Open Scope seabios_scope.

Section Interface.
Context {W : Type} `{Frame}.
Context (tpmhw_transmit : Z -> list Z -> Z -> Z -> W -> (Z * list Z) * W).

(** The areas the call writes, but for the digest in the caller's block. *)
Definition own_areas : list area := [(le_at, sizeof_le); (sha1_w_at, 320); (sha1_ctx_at, 20)].

(** The block of the caller: a [struct pcpes] and its event. *)
Record block_ok (v : tcg_vars) (m : memory) (pcpes hashdata len : Z) : Prop := {
  bk_size : 12 + sizeof_le + read32 m (pcpes + 28) + log_area_minimum_length v < 2 ^ 32;
  bk_at : away (log_area_of v :: own_areas) pcpes (32 + read32 m (pcpes + 28));
  bk_data : hashdata <> 0 -> 0 <= len < 2 ^ 29 /\ apart sha1_w_at sha1_ctx_at hashdata len }.

(** The hash: of the data, or the one the caller has put in the block. *)
Definition block_hash (m : memory) (pcpes hashdata len : Z) : list Z :=
  if hashdata =? 0 then read_bytes 20 (pcpes + 8) m else Fips.SHA1 (read_bytes (Z.to_nat len) hashdata m).
Definition block_entry (m : memory) (pcpes : Z) (dL : list Z) : log_entry :=
  LogEntry (read32 m pcpes) (read32 m (pcpes + 4)) dL (read_bytes (Z.to_nat (read32 m (pcpes + 28))) (pcpes + 32) m).

(** The result, the variables, the log and the device after the call. *)
Definition block_logged (v : tcg_vars) (m : memory) (es : list log_entry) (w : W) (banks : list bank)
    (pcpes : Z) (h : list Z) (extend : bool) (rc : Z) (v' : tcg_vars) (es' : list log_entry) (w' : W) : Prop :=
  match event_digest v banks true h, event_digest v banks false h with
  | Some dT, Some dL =>
    let '(r, w1) := tpmhw_transmit 0 (extend_request v (read32 m pcpes) dT) (extend_room v) TPM_DURATION_TYPE_SHORT w in
    if extend && negb (accepted v r) then rc = TCG_TCG_COMMAND_ERROR /\ es' = es /\ v' = v /\ w' = w1
    else
      w' = (if extend then w1 else w) /\
      let e := block_entry m pcpes dL in
      if log_size (es ++ [e]) <=? log_area_minimum_length v
      then rc = 0 /\ es' = es ++ [e] /\ v' = appended (Z.of_nat (length (encode_entry e))) v
      else rc = TCG_PC_LOGOVERFLOW /\ es' = es /\ v' = v
  | _, _ => rc = TCG_GENERAL_ERROR /\ es' = es /\ v' = v /\ w' = w
  end.

Lemma away_sub areas a n b k : away areas a n -> a <= b -> b + k <= a + n -> 0 <= k -> away areas b k.
Proof.
  intros Ha Hb Hk H0. eapply Forall_impl; [exact Ha|]. unfold no_overlap. cbv beta. intros x Hx. lia.
Qed.

Lemma away_read32 areas a n m m' b : outside_all areas m m' -> away areas a n -> a <= b -> b + 4 <= a + n ->
  read32 m' b = read32 m b.
Proof. intros Ho Ha Hb Hn. unfold read32, read16. by rewrite !(away_read8 areas a n m m') by (done || lia). Qed.

Lemma block_away v m pcpes hashdata len : block_ok v m pcpes hashdata len -> bytes_ok m ->
  away (log_area_of v :: locals (pcpes + 8)) pcpes 8 /\
  away (log_area_of v :: locals (pcpes + 8)) (pcpes + 28) (4 + read32 m (pcpes + 28)).
Proof.
  intros [_ Ha _] Hm. pose proof (read32_range (pcpes + 28) m Hm). unfold away, own_areas, locals in *.
  rewrite !List.Forall_cons_iff in *. unfold no_overlap in *. cbn [fst snd] in *.
  destruct Ha as (Hl & H1 & H2 & H3 & _). split; split_and!; try apply List.Forall_nil; lia.
Qed.

(** The hash is in the block, everything else in it as it was. *)
Lemma block_hash_run v m (w : W) pcpes hashdata len : bytes_ok m -> locals_ok (pcpes + 8) ->
  block_ok v m pcpes hashdata len ->
  exists m', (if truthy hashdata then call_sha1 true hashdata len (pcpes + 8) else ret tt) (Machine m (TcgWorld v w)) =
    Some (tt, Machine m' (TcgWorld v w)) /\ bytes_ok m' /\ outside_all (locals (pcpes + 8)) m m' /\
  read_bytes 20 (pcpes + 8) m' = block_hash m pcpes hashdata len.
Proof.
  intros Hm Hloc [_ _ Hd]. unfold block_hash, truthy. destruct (Z.eqb_spec hashdata 0) as [->|Hne].
  - exists m. split_and!; [done|done|apply outside_all_refl|done].
  - destruct (Hd Hne) as [Hl Ha]. cbn [negb]. by apply call_sha1_run.
Qed.

Lemma hash_log_extend_run v m w es banks pcpes hashdata len event extend :
  bytes_ok m -> log_ok v m es -> locals_ok (pcpes + 8) -> state_away (pcpes + 8) v m banks -> has_tpm v ->
  block_ok v m pcpes hashdata len -> read32 m pcpes < 24 ->
  exists rc v' es' m' w',
  hash_log_extend true tpmhw_transmit pcpes hashdata len event extend (Machine m (TcgWorld v w)) =
    Some (rc, Machine m' (TcgWorld v' w')) /\
  block_logged v m es w banks pcpes (block_hash m pcpes hashdata len) extend rc v' es' w' /\
  log_ok v' m' es' /\ bytes_ok m' /\ outside_all (log_area_of v :: locals (pcpes + 8)) m m'.
Proof.
  intros Hm Hlog Hloc Hst Hv Hbk Hpcr. unfold block_logged. set (hash := pcpes + 8) in *.
  destruct (block_hash_run v m w pcpes hashdata len Hm Hloc Hbk) as (m1 & R1 & Hm1 & A1 & E1). fold hash in R1, A1, E1.
  set (h := block_hash m pcpes hashdata len) in *.
  assert (Hh : length h = 20%nat) by (rewrite <- E1; apply length_read_bytes).
  destruct (block_away _ _ _ _ _ Hbk Hm) as [W1 W2]. fold hash in W1, W2. destruct Hbk as [Hsz _ _].
  assert (Hless : forall a n, away (log_area_of v :: locals hash) a n -> away (locals hash) a n)
    by (intros a n Hx; by inversion_clear Hx).
  assert (Hmore : forall m', outside_all (locals hash) m m' -> outside_all (log_area_of v :: locals hash) m m')
    by (intros m' Hx; eapply outside_all_more; [exact Hx|by right]).
  pose proof (state_away_mono _ _ _ _ _ Hst (Hmore _ A1)) as Hst1.
  destruct (begin_entry_run tpmhw_transmit hash v m1 w banks (read32 m pcpes) (read32 m (pcpes + 4)) Hm1 Hloc Hst1)
    as (m2 & Hm2 & A2 & E2 & H2); [by apply read32_range..|].
  rewrite E1 in *. assert (A : outside_all (locals hash) m m2) by (by eapply outside_all_trans).
  assert (Hlog2 : log_ok v m2 es) by (eapply log_ok_all; [exact Hlog|exact A|apply Hst]).
  pose proof (event_digest_both v h banks Hh) as Hboth. pose proof (read32_range (pcpes + 28) m Hm) as Hn.
  unfold hash_log_extend. erewrite bind_some by reflexivity. cbn [mc_mem]. rewrite (proj2 (Z.leb_gt _ _)) by done.
  fold hash. erewrite bind_some by exact R1. do 2 (erewrite bind_some by reflexivity). cbn [mc_mem].
  rewrite !(away_read32 (locals hash) pcpes 8 m m1) by (try apply Hless; done || lia).
  destruct (event_digest v banks true h) as [dT|] eqn:ET, (event_digest v banks false h) as [dL|] eqn:EL; try done.
  2: { apply bind_inv in H2 as (u & s2 & R2 & R3). erewrite bind_some by exact R2. erewrite bind_some by exact R3.
       exists TCG_GENERAL_ERROR, v, es, m2, w. split_and!; try done. by apply Hmore. }
  destruct H2 as (R2 & D2 & P2 & T2), Hboth as [Hlen Hfit]. apply bind_inv in R2 as (u & s2 & R2 & R3).
  erewrite bind_some by exact R2. erewrite bind_some by exact R3. rewrite (proj2 (Z.ltb_ge _ _)) by lia.
  pose proof (tpm_extend_run tpmhw_transmit v m2 w le_at dT Hv D2 (fun E => event_digest_20 v banks true h dT Hh E ET)) as Hext.
  rewrite P2 in Hext. destruct (tpmhw_transmit 0 _ _ _ w) as [r w1].
  set (rx := (if extend then _ else _) : M (tcg W) Z).
  assert (Rx : rx (Machine m2 (TcgWorld v w)) =
    Some (if extend && negb (accepted v r) then -1 else 0, Machine m2 (TcgWorld v (if extend then w1 else w)))).
  { subst rx. destruct extend; [rewrite Hext; by destruct (accepted v r)|done]. }
  erewrite bind_some by exact Rx. set (w2 := if extend then w1 else w) in *.
  destruct (extend && negb (accepted v r)) eqn:Hrej.
  { assert (w2 = w1) as -> by (subst w2; by destruct extend). exists TCG_TCG_COMMAND_ERROR, v, es, m2, w1.
    split_and!; try done. by apply Hmore. }
  change (truthy 0) with false. cbv iota.
  destruct (log_digest_run tpmhw_transmit hash v m2 w2 es banks dL (Z.of_nat (length dT)) (pcpes + 32) (read32 m (pcpes + 28))) as
    (c & v' & m3 & R4 & Hm3 & O3 & H3); try done; try lia.
  { exact (state_away_mono _ _ _ _ _ Hst (Hmore _ A)). } { by rewrite E2. }
  { eapply away_sub; [exact W2|lia..]. }
  assert (W3 : away (locals hash) (pcpes + 32) (read32 m (pcpes + 28))) by (apply Hless; eapply away_sub; [exact W2|lia..]).
  rewrite P2, T2, (away_read_bytes (locals hash) _ _ m m2 A W3) in H3.
  apply bind_inv in R4 as (u4 & s4 & R4 & R5). erewrite bind_some by exact R4. erewrite bind_some by reflexivity.
  assert (E4 : read32 (mc_mem s4) (pcpes + 28) = read32 m (pcpes + 28)).
  { destruct (build_in_locals tpmhw_transmit hash v m2 w2 banks false Hm2 Hloc (state_away_mono _ _ _ _ _ Hst (Hmore _ A)))
      as (mx & _ & Ox & Hx).
    rewrite E2, EL in Hx. destruct Hx as [Hx _]. rewrite R4 in Hx. injection Hx as _ ->. cbn [mc_mem].
    assert (Ax : outside_all (locals hash) m2 mx)
      by (eapply (outside_all_one _ le_at sizeof_le); [exact Ox|by left|unfold sizeof_le; lia..]).
    rewrite (away_read32 _ _ _ _ _ (pcpes + 28) Ax (Hless _ _ W2)), (away_read32 _ _ _ _ _ (pcpes + 28) A (Hless _ _ W2)) by lia.
    done. }
  rewrite E4. erewrite bind_some by exact R5. fold (block_entry m pcpes dL) in H3. set (e := block_entry m pcpes dL) in *.
  assert (B3 : outside_all (log_area_of v :: locals hash) m m3) by (eapply outside_all_trans; [apply Hmore, A|exact O3]).
  destruct (_ <=? _); destruct H3 as (-> & -> & Hlog3).
  - exists 0, (appended (Z.of_nat (length (encode_entry e))) v), (es ++ [e]), m3, w2. done.
  - exists TCG_PC_LOGOVERFLOW, v, es, m3, w2. done.
Qed.

(** C37: what INT 1Ah logs.  [hash_log_extend], for a TPM 1.2 or 2.0, a log that is
    in order, less than 2^29 bytes of data, and an event whose size with that of the
    whole log stays below 2^32 (beyond that the code's sum wraps and does not see
    that the log is full), the caller's block and data, the log and the code's own
    variables being apart: a register above 23 is refused and nothing happens.
    Otherwise the hash of the data (or the caller's, when there is no data) is made
    into the digests of the TPM's banks; they are extended when that is asked for,
    with one request that has the register and the big-endian digests; and the log
    has one more entry, with the little-endian digests and the event of the block.
    When the digests cannot be made, the TPM refuses or the log is full, the code
    says so and the log is the same.  Nothing but the log, the local arrays and the
    digest in the caller's block is written. *)
Theorem hash_log_extend_correct v m w es banks pcpes hashdata len event extend :
  bytes_ok m -> log_ok v m es -> locals_ok (pcpes + 8) -> state_away (pcpes + 8) v m banks -> has_tpm v ->
  block_ok v m pcpes hashdata len ->
  let s := Machine m (TcgWorld v w) in
  if 24 <=? read32 m pcpes
  then hash_log_extend true tpmhw_transmit pcpes hashdata len event extend s = Some (TCG_INVALID_INPUT_PARA, s)
  else exists rc v' es' m' w',
    hash_log_extend true tpmhw_transmit pcpes hashdata len event extend s = Some (rc, Machine m' (TcgWorld v' w')) /\
    block_logged v m es w banks pcpes (block_hash m pcpes hashdata len) extend rc v' es' w' /\
    log_ok v' m' es' /\ outside_all (log_area_of v :: locals (pcpes + 8)) m m'.
Proof.
  intros Hm Hlog Hloc Hst Hv Hbk s. destruct (Z.leb_spec 24 (read32 m pcpes)) as [H24|H24].
  - unfold hash_log_extend. erewrite bind_some by reflexivity. cbn [mc_mem s]. by rewrite (proj2 (Z.leb_le _ _)) by done.
  - destruct (hash_log_extend_run v m w es banks pcpes hashdata len event extend Hm Hlog Hloc Hst Hv Hbk H24)
      as (rc & v' & es' & m' & w' & H1 & H2 & H3 & _ & H5).
    by exists rc, v', es', m', w'.
Qed.

(** ** The interface after it is shut down *)

Context (tpmhw_is_present : W -> bool).

(** A sequence of calls of INT 1Ah, function 0xBB. *)
Fixpoint int_calls (l : list bregs) : M (tcg W) (list bregs) :=
  match l with
  | [] => ret []
  | regs :: l =>
    r <- tpm_interrupt_handler32 true tpmhw_transmit tpmhw_is_present regs ;; rs <- int_calls l ;; ret (r :: rs)
  end.

(** The answer to a call: only the status can be asked for. *)
Definition closed_answer (v : tcg_vars) (w : W) (regs : bregs) : bregs :=
  let regs := set_cf regs false in
  if r_al regs =? 0 then
    if tpmhw_is_present w then
      set_edi (log_area_last_entry v) (set_esi (log_area_start_address v) (set_edx 0
        (set_cl 2 (set_ch 1 (set_ebx TCG_MAGIC (set_eax 0 regs))))))
    else set_eax TCG_PC_TPM_NOT_PRESENT regs
  else set_eax TCG_INTERFACE_SHUTDOWN regs.

Lemma closed_call v m w regs : TPM_interface_shutdown v <> 0 ->
  tpm_interrupt_handler32 true tpmhw_transmit tpmhw_is_present regs (Machine m (TcgWorld v w)) =
  Some (closed_answer v w regs, Machine m (TcgWorld v w)).
Proof.
  intros Hs. unfold tpm_interrupt_handler32, closed_answer. cbn [negb]. cbv zeta.
  set (regs' := set_cf regs false). erewrite bind_some by reflexivity. cbn [mc_world tcg_st]. unfold truthy.
  rewrite (proj2 (Z.eqb_neq _ 0)) by done. cbn [negb andb]. destruct (r_al regs' =? 0); [|done].
  cbn [negb]. unfold StatusCheck, dev, get_st, bind, ret. cbn [mc_world mc_mem tcg_st tcg_dev].
  by destruct (tpmhw_is_present w).
Qed.

Lemma closed_calls l : forall v m w, TPM_interface_shutdown v <> 0 ->
  int_calls l (Machine m (TcgWorld v w)) = Some (map (closed_answer v w) l, Machine m (TcgWorld v w)).
Proof.
  induction l as [|regs l IH]; intros v m w Hs; [done|]. cbn [int_calls map].
  erewrite bind_some by by apply closed_call. erewrite bind_some by by apply IH. done.
Qed.

(** C39: the interface cannot be used again once it is shut down.  Whatever calls
    of INT 1Ah follow TCG_ShutdownPreBootInterface, in any order, with any
    arguments: all but the status call, unknown functions too, return
    TCG_INTERFACE_SHUTDOWN with the carry flag clear; the log, memory and the TPM
    stay as they were and the interface stays closed. *)
Theorem tpm_shutdown_is_final v m w regs l : r_al regs = 3 -> TPM_interface_shutdown v = 0 ->
  let v' := set_shutdown 1 v in
  int_calls (regs :: l) (Machine m (TcgWorld v w)) =
    Some (set_eax 0 (set_cf regs false) :: map (closed_answer v' w) l, Machine m (TcgWorld v' w)).
Proof.
  intros Hal Hs v'. cbn [int_calls].
  assert (E : tpm_interrupt_handler32 true tpmhw_transmit tpmhw_is_present regs (Machine m (TcgWorld v w)) =
    Some (set_eax 0 (set_cf regs false), Machine m (TcgWorld v' w))).
  { unfold tpm_interrupt_handler32. cbn [negb]. erewrite bind_some by reflexivity. cbn [mc_world tcg_st]. rewrite Hs.
    cbn [truthy Z.eqb negb andb]. replace (r_al (set_cf regs false)) with 3 by (rewrite <- Hal; done). reflexivity. }
  erewrite bind_some by exact E. erewrite bind_some by (by apply closed_calls). done.
Qed.
End Interface.

(** ** Examples *)

#[local] Existing Instance Sample.frame.

Module Sample2.
Definition banks : list bank := [(TPM2_ALG_SHA1, [255; 255; 255]); (TPM2_ALG_SHA256, [255; 255; 255])].
Definition vars : tcg_vars := TcgVars 0x1000 0x10000 0 0x10000 0 TPM_VERSION_2 16 0xb000 0 1 0.
Definition memory0 : memory :=
  write_bytes 0xa000 (le_list 4 4 ++ le_list 4 EV_IPL ++ replicate 20 0 ++ le_list 4 3 ++ [0x61; 0x62; 0x63])
    (write_bytes 0xb000 (encode_selection banks) ∅).
(** A TPM that accepts every command and keeps them. *)
Definition tpm (locty : Z) (req : list Z) (room duration : Z) (w : list (list Z)) : (Z * list Z) * list (list Z) :=
  ((0, replicate 10 0), req :: w).
End Sample2.

Lemma hash_log_extend_correct_witness :
  exists rc v' es' m' w',
    hash_log_extend true Sample2.tpm 0xa000 0xa020 3 0 true (Machine Sample2.memory0 (TcgWorld Sample2.vars [])) =
      Some (rc, Machine m' (TcgWorld v' w')) /\
    block_logged Sample2.tpm Sample2.vars Sample2.memory0 [] [] Sample2.banks 0xa000
      (block_hash Sample2.memory0 0xa000 0xa020 3) true rc v' es' w' /\
    log_ok v' m' es' /\ outside_all (log_area_of Sample2.vars :: locals 0xa008) Sample2.memory0 m'.
Proof.
  apply (hash_log_extend_correct Sample2.tpm Sample2.vars Sample2.memory0 [] [] Sample2.banks 0xa000 0xa020 3 0 true).
  - by repeat apply bytes_ok_write_bytes.
  - apply (Sample.log_ok_empty 0x10000 0x1000); cbn; lia.
  - unfold locals_ok, no_overlap. cbn. unfold sizeof_le. lia.
  - split; [areas|]. intros _. split; [|areas]. constructor; try done; try (vm_compute; congruence).
    repeat apply List.Forall_cons; try apply List.Forall_nil; split; cbn; unfold TPM2_ALG_SHA1, TPM2_ALG_SHA256; lia.
  - by right.
  - change (read32 Sample2.memory0 (0xa000 + 28)) with (read32 Sample2.memory0 0xa01c).
    assert (E : read32 Sample2.memory0 0xa01c = 3) by (vm_compute; reflexivity).
    constructor; change (0xa000 + 28) with 0xa01c; rewrite ?E; [cbn; unfold sizeof_le; lia|unfold own_areas; areas|].
    intros _. split; [lia|]. unfold apart. cbn. lia.
Defined.

Lemma tpm_shutdown_is_final_witness :
  let regs n := set_eax n bregs_zero in
  int_calls Sample2.tpm (fun _ => true) [regs 3; regs 1; regs 0x77] (Machine ∅ (TcgWorld Sample2.vars [])) =
  Some ([set_eax 0 (set_cf (regs 3) false); set_eax TCG_INTERFACE_SHUTDOWN (regs 1); set_eax TCG_INTERFACE_SHUTDOWN (regs 0x77)],
    Machine ∅ (TcgWorld (set_shutdown 1 Sample2.vars) [])).
Proof.
  apply (tpm_shutdown_is_final Sample2.tpm (fun _ => true) Sample2.vars ∅ [] (set_eax 3 bregs_zero)
    [set_eax 1 bregs_zero; set_eax 0x77 bregs_zero]); reflexivity.
Defined.
