(* ===== verification/KExpr.v ===== *)
(** * Configuration expressions: scripts/kconfig/expr.c

    The dependency expressions of the configuration language and their
    simplification.  An expression is a tree, so the model returns the new tree
    where the code changes it in place; a pointer into a tree that is being
    rewritten is a path.  Freed nodes are not kept, and the messages of the
    debugging build are left out. *)
From Stdlib Require Export String Ascii.
From S2P Require Import Prelude.

(** ** Data: expr.h *)

(** [mod_] is the C constant mod. *)
Inductive tristate := no | mod_ | yes.
#[export] Instance tristate_eq_dec : EqDecision tristate.
Proof. solve_decision. Defined.

Definition tri_val (t : tristate) : Z := match t with no => 0 | mod_ => 1 | yes => 2 end.
Definition EXPR_OR (a b : tristate) : tristate := if tri_val b <? tri_val a then a else b.
Definition EXPR_AND (a b : tristate) : tristate := if tri_val a <? tri_val b then a else b.
Definition EXPR_NOT (a : tristate) : tristate := match a with no => yes | mod_ => mod_ | yes => no end.

(** Symbols are known by their addresses; three are static variables. *)
Inductive symbol_ref := symbol_yes | symbol_mod | symbol_no | SymbolAt (address : Z).
#[export] Instance symbol_ref_eq_dec : EqDecision symbol_ref.
Proof. solve_decision. Defined.

Inductive symbol_type := S_UNKNOWN | S_BOOLEAN | S_TRISTATE | S_INT | S_HEX | S_STRING | S_OTHER.
#[export] Instance symbol_type_eq_dec : EqDecision symbol_type.
Proof. solve_decision. Defined.

(** The fields of struct symbol that expressions look at. *)
Record symbol := Symbol {
  name : option string; type : symbol_type; curr_val : string; curr_tri : tristate; is_const : bool }.

(** E_OR and E_AND have two subexpressions, E_EQUAL and E_UNEQUAL two symbols. *)
Inductive conn := E_OR | E_AND.
Inductive comp := E_EQUAL | E_UNEQUAL.
#[export] Instance conn_eq_dec : EqDecision conn.
Proof. solve_decision. Defined.
#[export] Instance comp_eq_dec : EqDecision comp.
Proof. solve_decision. Defined.

Inductive expr :=
| Bin (type : conn) (left right : expr)
| E_NOT (left : expr)
| Cmp (type : comp) (left right : symbol_ref)
| E_SYMBOL (left : symbol_ref)
| E_LIST (left : option expr) (right : symbol_ref)
| E_RANGE (left right : symbol_ref).

Definition sym_is (s t : symbol_ref) : bool := bool_decide (s = t).

(** A node of a given binary type. *)
Definition bin_of (ty : conn) (e : expr) : option (expr * expr) :=
  match e with Bin ty' l r => if bool_decide (ty' = ty) then Some (l, r) else None | _ => None end.

Definition is_symbol (s : symbol_ref) (e : expr) : bool :=
  match e with E_SYMBOL s' => sym_is s' s | _ => false end.

(** The neutral element of a connective, and the absorbing one. *)
Definition unit_of (ty : conn) : symbol_ref := match ty with E_OR => symbol_no | E_AND => symbol_yes end.
Definition zero_of (ty : conn) : symbol_ref := match ty with E_OR => symbol_yes | E_AND => symbol_no end.

(** Number of nodes, and the depth of AND, OR and NOT. *)
Fixpoint size (e : expr) : nat :=
  match e with Bin _ l r => S (size l + size r) | E_NOT l => S (size l) | _ => 1 end.
Fixpoint height (e : expr) : nat :=
  match e with Bin _ l r => S (Nat.max (height l) (height r)) | E_NOT l => S (height l) | _ => 0 end.

(** ** Construction *)

Definition expr_alloc_symbol (s : symbol_ref) : expr := E_SYMBOL s.
Definition expr_alloc_comp (ty : comp) (s1 s2 : symbol_ref) : expr := Cmp ty s1 s2.
Definition expr_alloc_two (ty : conn) (e1 e2 : expr) : expr := Bin ty e1 e2.

(** NULL is [None]. *)
Definition expr_alloc_conn (ty : conn) (e1 e2 : option expr) : option expr :=
  match e1, e2 with
  | None, _ => e2
  | Some e1, Some e2 => Some (expr_alloc_two ty e1 e2)
  | Some e1, None => Some e1
  end.
Definition expr_alloc_and : option expr -> option expr -> option expr := expr_alloc_conn E_AND.
Definition expr_alloc_or : option expr -> option expr -> option expr := expr_alloc_conn E_OR.

(** ** Constants *)

(** At a node whose subexpressions are done. *)
Definition eliminate_yn_node (ty : conn) (l r : expr) : expr :=
  if is_symbol (zero_of ty) l then E_SYMBOL (zero_of ty)
  else if is_symbol (unit_of ty) l then r
  else if is_symbol (zero_of ty) r then E_SYMBOL (zero_of ty)
  else if is_symbol (unit_of ty) r then l
  else Bin ty l r.

Fixpoint expr_eliminate_yn (e : expr) : expr :=
  match e with
  | Bin ty l r => eliminate_yn_node ty (expr_eliminate_yn l) (expr_eliminate_yn r)
  | _ => e
  end.

(** ** Equality up to order *)

Section EliminateEq.
Context (eq : expr -> expr -> bool).       (* [expr_eq] on smaller expressions *)

(** [__expr_eliminate_eq] when [e1] is not of type [ty]: down [e2].  Both
    expressions and the number of pairs eliminated. *)
Fixpoint eliminate_eq_right (ty : conn) (e1 e2 : expr) : expr * expr * nat :=
  let leaf :=
    match e1, e2 with
    | E_SYMBOL s1, E_SYMBOL s2 =>
      if sym_is s1 s2 && (sym_is s1 symbol_yes || sym_is s1 symbol_no) then (e1, e2, 0%nat)
      else if eq e1 e2 then (E_SYMBOL (unit_of ty), E_SYMBOL (unit_of ty), 1%nat) else (e1, e2, 0%nat)
    | _, _ => if eq e1 e2 then (E_SYMBOL (unit_of ty), E_SYMBOL (unit_of ty), 1%nat) else (e1, e2, 0%nat)
    end in
  match e2 with
  | Bin ty' l r =>
    if bool_decide (ty' = ty) then
      let '(e1, l, n1) := eliminate_eq_right ty e1 l in
      let '(e1, r, n2) := eliminate_eq_right ty e1 r in
      (e1, Bin ty' l r, (n1 + n2)%nat)
    else leaf
  | _ => leaf
  end.

(** [__expr_eliminate_eq]: down [e1] first. *)
Fixpoint eliminate_eq_left (ty : conn) (e1 e2 : expr) : expr * expr * nat :=
  match e1 with
  | Bin ty' l r =>
    if bool_decide (ty' = ty) then
      let '(l, e2, n1) := eliminate_eq_left ty l e2 in
      let '(r, e2, n2) := eliminate_eq_left ty r e2 in
      (Bin ty' l r, e2, (n1 + n2)%nat)
    else eliminate_eq_right ty e1 e2
  | _ => eliminate_eq_right ty e1 e2
  end.

(** [expr_eliminate_eq] on two expressions. *)
Definition eliminate_eq_with (e1 e2 : expr) : expr * expr * nat :=
  let '(e1, e2, n1) := match e1 with Bin ty _ _ => eliminate_eq_left ty e1 e2 | _ => (e1, e2, 0%nat) end in
  let '(e1, e2, n2) :=
    match e2 with
    | Bin ty _ _ => match bin_of ty e1 with
                    | Some _ => (e1, e2, 0%nat)
                    | None => eliminate_eq_left ty e1 e2
                    end
    | _ => (e1, e2, 0%nat)
    end in
  (expr_eliminate_yn e1, expr_eliminate_yn e2, (n1 + n2)%nat).
End EliminateEq.

(** [expr_eq]; the recursion goes down into [e1]. *)
Fixpoint expr_eq_fuel (n : nat) (e1 e2 : expr) : bool :=
  match e1, e2 with
  | Cmp ty1 l1 r1, Cmp ty2 l2 r2 => bool_decide (ty1 = ty2) && sym_is l1 l2 && sym_is r1 r2
  | E_SYMBOL s1, E_SYMBOL s2 => sym_is s1 s2
  | E_NOT l1, E_NOT l2 => match n with O => false | S n' => expr_eq_fuel n' l1 l2 end
  | Bin ty1 _ _, Bin ty2 _ _ =>
    if bool_decide (ty1 = ty2) then
      match n with
      | O => false
      | S n' =>
        let '(e1, e2, _) := eliminate_eq_with (expr_eq_fuel n') e1 e2 in
        match e1, e2 with E_SYMBOL s1, E_SYMBOL s2 => sym_is s1 s2 | _, _ => false end
      end
    else false
  | _, _ => false
  end.
Definition expr_eq (e1 e2 : expr) : bool := expr_eq_fuel (height e1) e1 e2.

Definition expr_eliminate_eq : expr -> expr -> expr * expr * nat := eliminate_eq_with expr_eq.

Section Symbols.
Context (sym : symbol_ref -> symbol).

(** ** FOO!=n *)

Fixpoint expr_trans_bool (e : expr) : expr :=
  match e with
  | Bin ty l r => Bin ty (expr_trans_bool l) (expr_trans_bool r)
  | E_NOT l => E_NOT (expr_trans_bool l)
  | Cmp E_UNEQUAL l r =>
    if bool_decide (type (sym l) = S_TRISTATE) && sym_is r symbol_no then E_SYMBOL l else e
  | _ => e
  end.

(** ** Joining two operands *)

(** The symbol a joinable operand is about; only [e1] may be the negation of a
    comparison. *)
Definition join_sym1 (e : expr) : option symbol_ref :=
  match e with
  | Cmp _ s _ | E_SYMBOL s => Some s
  | E_NOT (Cmp _ s _) | E_NOT (E_SYMBOL s) => Some s
  | _ => None
  end.
Definition join_sym2 (e : expr) : option symbol_ref :=
  match e with
  | Cmp _ s _ | E_SYMBOL s => Some s
  | E_NOT (E_SYMBOL s) => Some s
  | _ => None
  end.

(** The checks both functions begin with. *)
Definition join_sym (e1 e2 : expr) : option symbol_ref :=
  match join_sym1 e1, join_sym2 e2 with
  | Some s1, Some s2 =>
    if sym_is s1 s2 && (bool_decide (type (sym s1) = S_BOOLEAN) || bool_decide (type (sym s1) = S_TRISTATE))
    then Some s1 else None
  | _, _ => None
  end.

(** Both operands compare in the way [ty], one with [a] and one with [b]. *)
Definition compare_both (ty : comp) (a b : symbol_ref) (e1 e2 : expr) : bool :=
  match e1, e2 with
  | Cmp t1 _ r1, Cmp t2 _ r2 =>
    bool_decide (t1 = ty) && bool_decide (t2 = ty) &&
    ((sym_is r1 a && sym_is r2 b) || (sym_is r1 b && sym_is r2 a))
  | _, _ => false
  end.

(** One operand is a symbol, the other compares it with [a] in the way [ty]. *)
Definition symbol_and_compare (ty : comp) (a : symbol_ref) (e1 e2 : expr) : bool :=
  match e1, e2 with
  | E_SYMBOL _, Cmp t _ r | Cmp t _ r, E_SYMBOL _ => bool_decide (t = ty) && sym_is r a
  | _, _ => false
  end.

Definition expr_join_or (e1 e2 : expr) : option expr :=
  if expr_eq e1 e2 then Some e1
  else
    match join_sym e1 e2 with
    | None => None
    | Some s =>
      if bool_decide (type (sym s) = S_TRISTATE) && compare_both E_EQUAL symbol_yes symbol_mod e1 e2
      then Some (Cmp E_UNEQUAL s symbol_no)
      else if bool_decide (type (sym s) = S_TRISTATE) && compare_both E_EQUAL symbol_yes symbol_no e1 e2
      then Some (Cmp E_UNEQUAL s symbol_mod)
      else if bool_decide (type (sym s) = S_TRISTATE) && compare_both E_EQUAL symbol_mod symbol_no e1 e2
      then Some (Cmp E_UNEQUAL s symbol_yes)
      else if bool_decide (type (sym s) = S_BOOLEAN) then
        match e1, e2 with
        | E_NOT (E_SYMBOL _), E_SYMBOL _ | E_SYMBOL _, E_NOT (E_SYMBOL _) => Some (E_SYMBOL symbol_yes)
        | _, _ => None
        end
      else None
    end.

(** (a='b') && (a!='c') -> 'b'='c' ? 'n' : a='b', for constants. *)
Definition join_equal_unequal (s b c : symbol_ref) : option expr :=
  if is_const (sym c) && is_const (sym b)
  then Some (if negb (sym_is b c) then Cmp E_EQUAL s b else E_SYMBOL symbol_no)
  else None.

Definition expr_join_and (e1 e2 : expr) : option expr :=
  if expr_eq e1 e2 then Some e1
  else
    match join_sym e1 e2 with
    | None => None
    | Some s =>
      if symbol_and_compare E_EQUAL symbol_yes e1 e2 then Some (Cmp E_EQUAL s symbol_yes)
      else if symbol_and_compare E_UNEQUAL symbol_no e1 e2 then Some (E_SYMBOL s)
      else if symbol_and_compare E_UNEQUAL symbol_mod e1 e2 then Some (Cmp E_EQUAL s symbol_yes)
      else if bool_decide (type (sym s) = S_TRISTATE) then
        match
          match e1, e2 with
          | Cmp E_EQUAL _ b, Cmp E_UNEQUAL _ c | Cmp E_UNEQUAL _ c, Cmp E_EQUAL _ b => join_equal_unequal s b c
          | _, _ => None
          end
        with
        | Some e => Some e
        | None =>
          if compare_both E_UNEQUAL symbol_yes symbol_no e1 e2 then Some (Cmp E_EQUAL s symbol_mod)
          else if compare_both E_UNEQUAL symbol_yes symbol_mod e1 e2 then Some (Cmp E_EQUAL s symbol_no)
          else if compare_both E_UNEQUAL symbol_mod symbol_no e1 e2 then Some (Cmp E_EQUAL s symbol_yes)
          else None
        end
      else None
    end.

Definition expr_join (ty : conn) : expr -> expr -> option expr :=
  match ty with E_OR => expr_join_or | E_AND => expr_join_and end.

(** ** Negation normal form *)

Definition flip (ty : comp) : comp := match ty with E_EQUAL => E_UNEQUAL | E_UNEQUAL => E_EQUAL end.

(** A comparison of a boolean symbol with a constant. *)
Definition transform_cmp (ty : comp) (l r : symbol_ref) : expr :=
  if negb (bool_decide (type (sym l) = S_BOOLEAN)) then Cmp ty l r
  else
    match ty, r with
    | E_EQUAL, symbol_no | E_UNEQUAL, symbol_yes => E_NOT (E_SYMBOL l)
    | E_EQUAL, symbol_mod => E_SYMBOL symbol_no
    | E_UNEQUAL, symbol_mod => E_SYMBOL symbol_yes
    | E_EQUAL, symbol_yes | E_UNEQUAL, symbol_no => E_SYMBOL l
    | _, _ => Cmp ty l r
    end.

(** [None] when the fuel is not enough, and for a range, whose symbols the code
    would take for expressions. *)
Fixpoint expr_transform_fuel (n : nat) (e : expr) : option expr :=
  match n with
  | O => None
  | S n' =>
    match e with
    | Bin ty l r =>
      l ← expr_transform_fuel n' l;
      r ← expr_transform_fuel n' r;
      Some (Bin ty l r)
    | E_NOT l =>
      l ← expr_transform_fuel n' l;
      match l with
      | E_NOT a => expr_transform_fuel n' a
      | Cmp ty l r => Some (Cmp (flip ty) l r)
      | Bin E_OR a b => expr_transform_fuel n' (Bin E_AND (E_NOT a) (E_NOT b))
      | Bin E_AND a b => expr_transform_fuel n' (Bin E_OR (E_NOT a) (E_NOT b))
      | E_SYMBOL symbol_yes => Some (E_SYMBOL symbol_no)
      | E_SYMBOL symbol_mod => Some (E_SYMBOL symbol_mod)
      | E_SYMBOL symbol_no => Some (E_SYMBOL symbol_yes)
      | _ => Some (E_NOT l)
      end
    | Cmp ty l r => Some (transform_cmp ty l r)
    | E_RANGE _ _ => None
    | _ => Some e
    end
  end.
Definition expr_transform (e : expr) : option expr := expr_transform_fuel (4 * height e + 4) e.

(** ** Common operands *)

(** [expr_extract_eq] when [e1] is not of type [ty], and in general: the two
    expressions without the operands they share, and those. *)
Fixpoint extract_eq_right (ty : conn) (ep : option expr) (e1 e2 : expr) : option expr * expr * expr :=
  let leaf :=
    if expr_eq e1 e2
    then (Some (match ep with Some ep => Bin ty ep e1 | None => e1 end), E_SYMBOL (unit_of ty), E_SYMBOL (unit_of ty))
    else (ep, e1, e2) in
  match e2 with
  | Bin ty' l r =>
    if bool_decide (ty' = ty) then
      let '(ep, e1, l) := extract_eq_right ty ep e1 l in
      let '(ep, e1, r) := extract_eq_right ty ep e1 r in
      (ep, e1, Bin ty' l r)
    else leaf
  | _ => leaf
  end.
Fixpoint expr_extract_eq (ty : conn) (ep : option expr) (e1 e2 : expr) : option expr * expr * expr :=
  match e1 with
  | Bin ty' l r =>
    if bool_decide (ty' = ty) then
      let '(ep, l, e2) := expr_extract_eq ty ep l e2 in
      let '(ep, r, e2) := expr_extract_eq ty ep r e2 in
      (ep, Bin ty' l r, e2)
    else extract_eq_right ty ep e1 e2
  | _ => extract_eq_right ty ep e1 e2
  end.

(** [expr_extract_eq_and] and [expr_extract_eq_or]. *)
Definition expr_extract_eq_conn (ty : conn) (e1 e2 : expr) : option expr * expr * expr :=
  let '(tmp, e1, e2) := expr_extract_eq ty None e1 e2 in
  match tmp with
  | Some _ => (tmp, expr_eliminate_yn e1, expr_eliminate_yn e2)
  | None => (tmp, e1, e2)
  end.

(** ** Duplicates *)

(** A [struct expr **] into the tree a function was called on. *)
Inductive dir := Lft | Rgt.
Definition path := list dir.

Fixpoint at_path (e : expr) (p : path) {struct p} : option expr :=
  match p, e with
  | [], _ => Some e
  | Lft :: p', Bin _ l _ => at_path l p'
  | Rgt :: p', Bin _ _ r => at_path r p'
  | _, _ => None
  end.
Fixpoint put (e : expr) (p : path) (x : expr) {struct p} : expr :=
  match p, e with
  | [], _ => x
  | Lft :: p', Bin ty l r => Bin ty (put l p' x) r
  | Rgt :: p', Bin ty l r => Bin ty l (put r p' x)
  | _, _ => e
  end.
#[export] Instance dir_eq_dec : EqDecision dir.
Proof. solve_decision. Defined.

(** [expr_eliminate_dups1 (type, ep1, ep2)] on pointers into [e]: the tree and
    [trans_count].  The call on [&e1, &e1] sees only the tree at [e1]. *)
Fixpoint expr_eliminate_dups1 (n : nat) (ty : conn) (p1 p2 : path) (e : expr) (count : nat)
    : option (expr * nat) :=
  match n with
  | O => None
  | S n' =>
    e1 ← at_path e p1;
    e2 ← at_path e p2;
    if bin_of ty e1 is Some _ then
      '(e, count) ← expr_eliminate_dups1 n' ty (p1 ++ [Lft]) p2 e count;
      expr_eliminate_dups1 n' ty (p1 ++ [Rgt]) p2 e count
    else if bin_of ty e2 is Some _ then
      '(e, count) ← expr_eliminate_dups1 n' ty p1 (p2 ++ [Lft]) e count;
      expr_eliminate_dups1 n' ty p1 (p2 ++ [Rgt]) e count
    else if bool_decide (p1 = p2) then Some (e, count)
    else
      '(e1, count) ← match e1 with
                     | Bin ty' _ _ => expr_eliminate_dups1 n' ty' [] [] e1 count
                     | _ => Some (e1, count)
                     end;
      match expr_join ty e1 e2 with
      | Some tmp => Some (put (put e p1 (E_SYMBOL (unit_of ty))) p2 tmp, S count)
      | None => Some (put e p1 e1, count)
      end
  end.

Definition dual (ty : conn) : conn := match ty with E_OR => E_AND | E_AND => E_OR end.

(** [expr_eliminate_dups2]; after the operands of [e2] it goes on with [e2]
    itself. *)
Fixpoint expr_eliminate_dups2 (n : nat) (ty : conn) (p1 p2 : path) (e : expr) (count : nat)
    : option (expr * nat) :=
  match n with
  | O => None
  | S n' =>
    e1 ← at_path e p1;
    e2 ← at_path e p2;
    if bin_of ty e1 is Some _ then
      '(e, count) ← expr_eliminate_dups2 n' ty (p1 ++ [Lft]) p2 e count;
      expr_eliminate_dups2 n' ty (p1 ++ [Rgt]) p2 e count
    else
      '(e, count) ← (if bin_of ty e2 is Some _ then
                       '(e, count) ← expr_eliminate_dups2 n' ty p1 (p2 ++ [Lft]) e count;
                       expr_eliminate_dups2 n' ty p1 (p2 ++ [Rgt]) e count
                     else Some (e, count));
      if bool_decide (p1 = p2) then Some (e, count)
      else
        e1 ← at_path e p1;
        match e1 with
        | Bin ty' _ _ =>
          '(e1, count) ← expr_eliminate_dups2 n' ty' [] [] e1 count;
          let e := put e p1 e1 in
          e2 ← at_path e p2;
          tmp1 ← expr_transform (E_NOT e1);
          let '(_, tmp1, _) := expr_extract_eq_conn (dual ty') tmp1 e2 in
          if is_symbol (unit_of (dual ty')) tmp1
          then Some (put e p1 (E_SYMBOL (zero_of (dual ty'))), S count)
          else Some (e, count)
        | _ => Some (e, count)
        end
  end.

(** Enough fuel for one pass. *)
Definition dups_fuel (e : expr) : nat := (2 * size e + 4) * (size e + 1).

(** One iteration of [expr_eliminate_dups]. *)
Definition dups_pass (e : expr) : option (expr * nat) :=
  match e with
  | Bin ty _ _ =>
    '(e, count) ← expr_eliminate_dups1 (dups_fuel e) ty [] [] e 0;
    expr_eliminate_dups2 (dups_fuel e) ty [] [] e count
  | _ => Some (e, 0%nat)
  end.

Fixpoint expr_eliminate_dups_fuel (n : nat) (e : expr) : option expr :=
  '(e, count) ← dups_pass e;
  match count with
  | O => Some e
  | _ => match n with O => None | S n' => expr_eliminate_dups_fuel n' (expr_eliminate_yn e) end
  end.
Definition expr_eliminate_dups (e : expr) : option expr := expr_eliminate_dups_fuel (size e) e.
End Symbols.

(** ** Queries *)

Fixpoint expr_contains_symbol (dep : expr) (s : symbol_ref) : bool :=
  match dep with
  | Bin _ l r => expr_contains_symbol l s || expr_contains_symbol r s
  | E_SYMBOL s' => sym_is s' s
  | Cmp _ l r => sym_is l s || sym_is r s
  | E_NOT l => expr_contains_symbol l s
  | _ => false
  end.

Fixpoint expr_depends_symbol (dep : expr) (s : symbol_ref) : bool :=
  match dep with
  | Bin E_AND l r => expr_depends_symbol l s || expr_depends_symbol r s
  | E_SYMBOL s' => sym_is s' s
  | Cmp E_EQUAL l r => sym_is l s && (sym_is r symbol_yes || sym_is r symbol_mod)
  | Cmp E_UNEQUAL l r => sym_is l s && sym_is r symbol_no
  | _ => false
  end.

(** [None] is NULL, or a tree with NULL in it. *)
Fixpoint expr_trans_compare (e : expr) (ty : comp) (s : symbol_ref) : option expr :=
  match e with
  | Bin c l r =>
    e ← (if sym_is s symbol_yes then
           e1 ← expr_trans_compare l E_EQUAL s; e2 ← expr_trans_compare r E_EQUAL s; Some (Bin c e1 e2)
         else if sym_is s symbol_no then
           e1 ← expr_trans_compare l E_EQUAL s; e2 ← expr_trans_compare r E_EQUAL s; Some (Bin (dual c) e1 e2)
         else Some e);
    Some (match ty with E_UNEQUAL => E_NOT e | E_EQUAL => e end)
  | E_NOT l => expr_trans_compare l (flip ty) s
  | Cmp _ _ _ =>
    match ty, s with
    | E_EQUAL, symbol_yes | E_UNEQUAL, symbol_no => Some e
    | E_EQUAL, symbol_mod => Some (E_SYMBOL symbol_no)
    | E_UNEQUAL, symbol_mod => Some (E_SYMBOL symbol_yes)
    | E_EQUAL, symbol_no | E_UNEQUAL, symbol_yes => Some (E_NOT e)
    | _, _ => None
    end
  | E_SYMBOL l => Some (Cmp ty l s)
  | _ => None
  end.

(** ** Values *)

Section Values.
Context (sym : symbol_ref -> symbol).      (* after [sym_calc_value] *)
Context (modules : tristate).              (* the value of [modules_sym] *)

Definition sym_get_tristate_value (s : symbol_ref) : tristate := curr_tri (sym s).

Definition sym_get_string_value (s : symbol_ref) : string :=
  match type (sym s) with
  | S_BOOLEAN | S_TRISTATE =>
    match sym_get_tristate_value s with
    | no => "n"
    | mod_ => if bool_decide (modules = no) then "n" else "m"
    | yes => "y"
    end
  | _ => curr_val (sym s)
  end%string.

Fixpoint expr_calc_value (e : expr) : tristate :=
  match e with
  | E_SYMBOL s => sym_get_tristate_value s
  | Bin E_AND l r => EXPR_AND (expr_calc_value l) (expr_calc_value r)
  | Bin E_OR l r => EXPR_OR (expr_calc_value l) (expr_calc_value r)
  | E_NOT l => EXPR_NOT (expr_calc_value l)
  | Cmp E_EQUAL l r => if String.eqb (sym_get_string_value l) (sym_get_string_value r) then yes else no
  | Cmp E_UNEQUAL l r => if String.eqb (sym_get_string_value l) (sym_get_string_value r) then no else yes
  | _ => no
  end.

(** ** Printing *)

(** The enum of expr.h, for the comparison of types. *)
Inductive expr_type := T_NONE | T_OR | T_AND | T_NOT | T_EQUAL | T_UNEQUAL | T_LIST | T_SYMBOL | T_RANGE.
#[export] Instance expr_type_eq_dec : EqDecision expr_type.
Proof. solve_decision. Defined.

Definition etype (e : expr) : expr_type :=
  match e with
  | Bin E_OR _ _ => T_OR | Bin E_AND _ _ => T_AND | E_NOT _ => T_NOT
  | Cmp E_EQUAL _ _ => T_EQUAL | Cmp E_UNEQUAL _ _ => T_UNEQUAL
  | E_LIST _ _ => T_LIST | E_SYMBOL _ => T_SYMBOL | E_RANGE _ _ => T_RANGE
  end.

(** The cases of the switch fall through in this order. *)
Definition compare_chain : list expr_type := [T_NOT; T_AND; T_OR; T_LIST; T_NONE].
Definition chain_from (t : expr_type) : list expr_type :=
  match t with
  | T_EQUAL | T_UNEQUAL => compare_chain
  | T_NOT => drop 1 compare_chain
  | T_AND => drop 2 compare_chain
  | T_OR => drop 3 compare_chain
  | T_LIST => drop 4 compare_chain
  | _ => []
  end.
Definition expr_compare_type (t1 t2 : expr_type) : Z :=
  if bool_decide (t1 = t2) then 0 else if bool_decide (t2 ∈ chain_from t1) then 1 else -1.

(** The calls of [fn]: a symbol or NULL, and the text. *)
Definition text (s : string) : option symbol_ref * string := (None, s).
Definition print_sym (s : symbol_ref) : option symbol_ref * string := (Some s, default EmptyString (name (sym s))).
Definition print_named (s : symbol_ref) : option symbol_ref * string :=
  match name (sym s) with Some n => (Some s, n) | None => text "<choice>"%string end.

Fixpoint expr_print (e : expr) (prevtoken : expr_type) : list (option symbol_ref * string) :=
  let parens := 0 <? expr_compare_type prevtoken (etype e) in
  (if parens then [text "("%string] else []) ++
  match e with
  | E_SYMBOL s => [print_named s]
  | E_NOT l => text "!"%string :: expr_print l T_NOT
  | Cmp E_EQUAL l r => [print_named l; text "="%string; print_sym r]
  | Cmp E_UNEQUAL l r => [print_named l; text "!="%string; print_sym r]
  | Bin E_OR l r => expr_print l T_OR ++ text " || "%string :: expr_print r T_OR
  | Bin E_AND l r => expr_print l T_AND ++ text " && "%string :: expr_print r T_AND
  | E_LIST rest s =>
    print_sym s :: match rest with Some l => text " ^ "%string :: expr_print l T_LIST | None => [] end
  | E_RANGE l r => [text "["%string; print_sym l; text " "%string; print_sym r; text "]"%string]
  end ++
  (if parens then [text ")"%string] else []).
End Values.

(** ** Unmet dependencies *)

Fixpoint expr_get_leftmost_symbol (e : expr) : option expr :=
  match e with
  | E_SYMBOL _ => Some e
  | Bin _ l _ | E_NOT l => expr_get_leftmost_symbol l
  | _ => None                              (* takes a symbol for an expression *)
  end.

Section Unmet.
Context (sym : symbol_ref -> symbol).

(** [None] is NULL. *)
Fixpoint expr_simplify_unmet_dep (e1 e2 : expr) : option expr :=
  match e1 with
  | Bin E_OR l r => expr_alloc_and (expr_simplify_unmet_dep l e2) (expr_simplify_unmet_dep r e2)
  | Bin E_AND _ _ =>
    e ← expr_eliminate_dups sym (Bin E_AND e1 e2);
    if negb (expr_eq e e1) then expr_get_leftmost_symbol e1 else None
  | _ => expr_get_leftmost_symbol e1
  end.
End Unmet.
