(* ===== verification/KExprCorrect.v ===== *)
(** * Correctness of the expression simplifier ([KExpr])

    Every rewriting of expr.c is compared with the value of an expression in the
    three-valued logic of the configuration language. *)
From S2P Require Import Prelude KExpr.

Definition tri_op (ty : conn) : tristate -> tristate -> tristate :=
  match ty with E_OR => EXPR_OR | E_AND => EXPR_AND end.
Definition tri_unit (ty : conn) : tristate := match ty with E_OR => no | E_AND => yes end.
Definition tri_zero (ty : conn) : tristate := tri_unit (dual ty).

(** The laws of the connectives, by cases. *)
Ltac tri_cases := intros; repeat match goal with x : tristate |- _ => destruct x | x : conn |- _ => destruct x end; done.

Lemma tri_op_comm ty a b : tri_op ty a b = tri_op ty b a.
Proof. tri_cases. Qed.
Lemma tri_op_assoc ty a b c : tri_op ty a (tri_op ty b c) = tri_op ty (tri_op ty a b) c.
Proof. tri_cases. Qed.
Lemma tri_op_unit ty a : tri_op ty (tri_unit ty) a = a.
Proof. tri_cases. Qed.
Lemma tri_op_unit_r ty a : tri_op ty a (tri_unit ty) = a.
Proof. tri_cases. Qed.
Lemma tri_op_zero ty a : tri_op ty (tri_zero ty) a = tri_zero ty.
Proof. tri_cases. Qed.
Lemma tri_op_zero_r ty a : tri_op ty a (tri_zero ty) = tri_zero ty.
Proof. tri_cases. Qed.
Lemma tri_op_idem ty a : tri_op ty a a = a.
Proof. tri_cases. Qed.
Lemma tri_op_inter ty a b c d :
  tri_op ty (tri_op ty a c) (tri_op ty b d) = tri_op ty (tri_op ty a b) (tri_op ty c d).
Proof. tri_cases. Qed.
Lemma tri_not_not a : EXPR_NOT (EXPR_NOT a) = a.
Proof. tri_cases. Qed.
Lemma tri_not_op ty a b : EXPR_NOT (tri_op ty a b) = tri_op (dual ty) (EXPR_NOT a) (EXPR_NOT b).
Proof. tri_cases. Qed.
Lemma dual_dual ty : dual (dual ty) = ty.
Proof. by destruct ty. Qed.

(** What symbol.c guarantees of calculated symbols: the three constants have
    their values, a boolean symbol is not m, no tristate symbol is m without
    modules, and different constants have different strings ([sym_lookup] makes
    one symbol per name). *)
Record consistent (sym : symbol_ref -> symbol) (modules : tristate) : Prop := {
  c_yes : sym symbol_yes = Symbol (Some "y"%string) S_UNKNOWN "y" yes true;
  c_mod : sym symbol_mod = Symbol (Some "m"%string) S_UNKNOWN "m" mod_ true;
  c_no : sym symbol_no = Symbol (Some "n"%string) S_UNKNOWN "n" no true;
  c_boolean : forall s, type (sym s) = S_BOOLEAN -> curr_tri (sym s) <> mod_;
  c_tristate : forall s, type (sym s) = S_TRISTATE -> curr_tri (sym s) = mod_ -> modules <> no;
  c_const : forall s t, is_const (sym s) = true -> is_const (sym t) = true -> s <> t ->
    sym_get_string_value sym modules s <> sym_get_string_value sym modules t }.

Section Values.
Context (sym : symbol_ref -> symbol) (modules : tristate) (Hcons : consistent sym modules).

Definition val : expr -> tristate := expr_calc_value sym modules.
Definition str : symbol_ref -> string := sym_get_string_value sym modules.
#[local] Arguments val _ : simpl never.
#[local] Arguments str _ : simpl never.

Lemma val_bin ty l r : val (Bin ty l r) = tri_op ty (val l) (val r).
Proof. by destruct ty. Qed.
Lemma val_not l : val (E_NOT l) = EXPR_NOT (val l).
Proof. done. Qed.

Lemma val_unit ty : val (E_SYMBOL (unit_of ty)) = tri_unit ty.
Proof. destruct ty; unfold val; simpl; unfold sym_get_tristate_value; by rewrite ?(c_no _ _ Hcons), ?(c_yes _ _ Hcons). Qed.
Lemma val_zero ty : val (E_SYMBOL (zero_of ty)) = tri_zero ty.
Proof. destruct ty; unfold val; simpl; unfold sym_get_tristate_value; by rewrite ?(c_no _ _ Hcons), ?(c_yes _ _ Hcons). Qed.
Lemma val_yes : val (E_SYMBOL symbol_yes) = yes.
Proof. apply (val_unit E_AND). Qed.
Lemma val_mod : val (E_SYMBOL symbol_mod) = mod_.
Proof. unfold val; simpl; unfold sym_get_tristate_value. by rewrite (c_mod _ _ Hcons). Qed.
Lemma val_no : val (E_SYMBOL symbol_no) = no.
Proof. apply (val_unit E_OR). Qed.

Lemma is_symbol_spec s e : is_symbol s e = true -> e = E_SYMBOL s.
Proof. destruct e; simpl; try done. unfold sym_is. intros ->%bool_decide_eq_true. done. Qed.

(** ** Constants *)

Lemma eliminate_yn_node_val ty l r : val (eliminate_yn_node ty l r) = tri_op ty (val l) (val r).
Proof.
  unfold eliminate_yn_node.
  repeat case_match; try apply val_bin;
    repeat match goal with H : is_symbol _ _ = true |- _ => apply is_symbol_spec in H; subst end;
    rewrite ?val_zero, ?val_unit, ?tri_op_zero, ?tri_op_zero_r, ?tri_op_unit, ?tri_op_unit_r; done.
Qed.

Lemma eliminate_yn_val e : val (expr_eliminate_yn e) = val e.
Proof.
  induction e as [ty l IHl r IHr| | | | |]; try done. cbn [expr_eliminate_yn].
  by rewrite eliminate_yn_node_val, IHl, IHr, val_bin.
Qed.

(** Nothing is left to do: no node has a constant y or n below it. *)
Fixpoint yn_done (e : expr) : Prop :=
  match e with
  | Bin _ l r =>
    (is_symbol symbol_yes l || is_symbol symbol_no l || is_symbol symbol_yes r || is_symbol symbol_no r) = false /\
    yn_done l /\ yn_done r
  | _ => True
  end.

Lemma eliminate_yn_node_done ty l r : yn_done l -> yn_done r -> yn_done (eliminate_yn_node ty l r).
Proof.
  intros Hl Hr. unfold eliminate_yn_node.
  repeat case_match; try done. simpl. split; [|done]. destruct ty; simpl in *;
    repeat match goal with H : is_symbol _ _ = false |- _ => rewrite H end; done.
Qed.

Lemma eliminate_yn_done e : yn_done (expr_eliminate_yn e).
Proof. induction e; try done. by apply eliminate_yn_node_done. Qed.

Lemma eliminate_yn_stable e : yn_done e -> expr_eliminate_yn e = e.
Proof.
  induction e as [ty l IHl r IHr| | | | |]; try done. cbn [yn_done expr_eliminate_yn]. intros (Hc & Hl & Hr).
  rewrite IHl, IHr by done. rewrite !orb_false_iff in Hc. destruct Hc as [[[H1 H2] H3] H4].
  unfold eliminate_yn_node. destruct ty; simpl; by rewrite H1, H2, H3, H4.
Qed.

(** The elimination of constants is exact and complete.  The result of
    [expr_eliminate_yn] has the value of the expression in the three-valued
    logic; no AND or OR of it has y or n as an operand; and an expression of
    which that is true is not changed. *)
Theorem expr_eliminate_yn_correct e :
  val (expr_eliminate_yn e) = val e /\ yn_done (expr_eliminate_yn e) /\
  (yn_done e <-> expr_eliminate_yn e = e).
Proof.
  split_and!; [apply eliminate_yn_val|apply eliminate_yn_done|]. split; [apply eliminate_yn_stable|].
  intros <-. apply eliminate_yn_done.
Qed.

(** ** Equality *)

(** The operands taken out of both sides, as one value [c]. *)
Definition split_off (ty : conn) (e1 e2 e1' e2' : expr) : Prop :=
  exists c, val e1 = tri_op ty (val e1') c /\ val e2 = tri_op ty (val e2') c.

Lemma split_off_refl ty e1 e2 : split_off ty e1 e2 e1 e2.
Proof. exists (tri_unit ty). by rewrite !tri_op_unit_r. Qed.

Section Sound.
Context (eq : expr -> expr -> bool) (Heq : forall e1 e2, eq e1 e2 = true -> val e1 = val e2).

Lemma eliminate_leaf_sound ty e1 e2 : eq e1 e2 = true ->
  split_off ty e1 e2 (E_SYMBOL (unit_of ty)) (E_SYMBOL (unit_of ty)).
Proof. intros He. exists (val e1). rewrite val_unit, tri_op_unit. split; [done|]. symmetry. by apply Heq. Qed.

Lemma eliminate_right_sound ty e2 : forall e1 e1' e2' n,
  eliminate_eq_right eq ty e1 e2 = (e1', e2', n) -> split_off ty e1 e2 e1' e2'.
Proof.
  induction e2 as [ty' l IHl r IHr| | | | |]; intros e1 e1' e2' n; simpl;
    try (repeat case_match; intros [= <- <- <-]; auto using split_off_refl, eliminate_leaf_sound; done).
  case_bool_decide as Hty; cycle 1.
  { repeat case_match; intros [= <- <- <-]; auto using split_off_refl, eliminate_leaf_sound. }
  subst ty'. destruct (eliminate_eq_right eq ty e1 l) as [[e1a l'] n1] eqn:Hl.
  destruct (eliminate_eq_right eq ty e1a r) as [[e1b r'] n2] eqn:Hr. intros [= <- <- <-].
  destruct (IHl _ _ _ _ Hl) as (c1 & H1 & H2). destruct (IHr _ _ _ _ Hr) as (c2 & H3 & H4).
  exists (tri_op ty c1 c2). rewrite !val_bin, H1, H3, H2, H4. split.
  - rewrite (tri_op_comm _ c1). symmetry. apply tri_op_assoc.
  - apply tri_op_inter.
Qed.

Lemma eliminate_left_sound ty e1 : forall e2 e1' e2' n,
  eliminate_eq_left eq ty e1 e2 = (e1', e2', n) -> split_off ty e1 e2 e1' e2'.
Proof.
  induction e1 as [ty' l IHl r IHr| | | | |]; intros e2 e1' e2' n; simpl; try apply eliminate_right_sound.
  case_bool_decide as Hty; [|apply eliminate_right_sound]. subst ty'.
  destruct (eliminate_eq_left eq ty l e2) as [[l' e2a] n1] eqn:Hl.
  destruct (eliminate_eq_left eq ty r e2a) as [[r' e2b] n2] eqn:Hr. intros [= <- <- <-].
  destruct (IHl _ _ _ _ Hl) as (c1 & H1 & H2). destruct (IHr _ _ _ _ Hr) as (c2 & H3 & H4).
  exists (tri_op ty c1 c2). rewrite !val_bin, H1, H3, H2, H4. split.
  - apply tri_op_inter.
  - rewrite (tri_op_comm _ c1). symmetry. apply tri_op_assoc.
Qed.
End Sound.

(** A node of the type keeps its type. *)
Lemma eliminate_right_bin eq ty e1 l r : exists e1' l' r' n,
  eliminate_eq_right eq ty e1 (Bin ty l r) = (e1', Bin ty l' r', n).
Proof.
  simpl. rewrite bool_decide_true by done. destruct (eliminate_eq_right eq ty e1 l) as [[e1a l'] n1].
  destruct (eliminate_eq_right eq ty e1a r) as [[e1b r'] n2]. eauto.
Qed.

Lemma eliminate_left_bin eq ty e1 : forall l r, exists e1' l' r' n,
  eliminate_eq_left eq ty e1 (Bin ty l r) = (e1', Bin ty l' r', n).
Proof.
  induction e1 as [ty' a IHa b IHb| | | | |]; intros l r; cbn [eliminate_eq_left]; try apply eliminate_right_bin.
  case_bool_decide as Hty; [|apply eliminate_right_bin].
  destruct (IHa l r) as (a' & l' & r' & n & ->). destruct (IHb l' r') as (b' & l'' & r'' & n' & ->). eauto.
Qed.

(** On two nodes of one type only the first elimination happens. *)
Lemma eliminate_eq_with_bin eq ty l1 r1 l2 r2 : exists e1 e2 n,
  eliminate_eq_left eq ty (Bin ty l1 r1) (Bin ty l2 r2) = (e1, e2, n) /\
  eliminate_eq_with eq (Bin ty l1 r1) (Bin ty l2 r2) = (expr_eliminate_yn e1, expr_eliminate_yn e2, n).
Proof.
  unfold eliminate_eq_with. destruct (eliminate_left_bin eq ty (Bin ty l1 r1) l2 r2) as (e1' & l' & r' & n & He).
  rewrite He. exists e1', (Bin ty l' r'), n. split; [done|].
  simpl in He. rewrite bool_decide_true in He by done.
  destruct (eliminate_eq_left eq ty l1 _) as [[l1' e2a] m1]. destruct (eliminate_eq_left eq ty r1 e2a) as [[r1' e2b] m2].
  injection He as <- _ _. unfold bin_of at 1. rewrite bool_decide_true by done. by rewrite Nat.add_0_r.
Qed.

Lemma expr_eq_fuel_sound n : forall e1 e2, expr_eq_fuel n e1 e2 = true -> val e1 = val e2.
Proof.
  induction n as [|n IH]; intros e1 e2; destruct e1 as [ty1 l1 r1|l1|ty1 l1 r1|s1| |], e2 as [ty2 l2 r2|l2|ty2 l2 r2|s2| |];
    simpl; try done; unfold sym_is;
    try (rewrite !andb_true_iff, !bool_decide_eq_true; by intros [[-> ->] ->]);
    try (rewrite bool_decide_eq_true; by intros ->);
    try (case_bool_decide as Hty; try done).
  - subst ty2. destruct (eliminate_eq_with_bin (expr_eq_fuel n) ty1 l1 r1 l2 r2) as (e1 & e2 & m & Hl & ->).
    destruct (eliminate_left_sound _ IH _ _ _ _ _ _ Hl) as (c & -> & ->).
    rewrite <- (eliminate_yn_val e1), <- (eliminate_yn_val e2).
    destruct (expr_eliminate_yn e1), (expr_eliminate_yn e2); try done.
    rewrite bool_decide_eq_true. by intros ->.
  - intros He. by rewrite !val_not, (IH _ _ He).
Qed.

(** ** The fuel of [expr_eq] *)

Lemma eliminate_right_agree eq1 eq2 ty e1 h e2 :
  (forall a b, (height a < h)%nat -> eq1 a b = eq2 a b) -> (height e1 < h)%nat ->
  eliminate_eq_right eq1 ty e1 e2 = eliminate_eq_right eq2 ty e1 e2 /\
  (height (fst (fst (eliminate_eq_right eq1 ty e1 e2))) < h)%nat.
Proof.
  intros Hag. revert e1. induction e2 as [ty' l IHl r IHr| | | | |]; intros e1 Hh; simpl;
    try (rewrite <- Hag by done; repeat case_match; simpl; split; (done || lia)).
  case_bool_decide; [|rewrite <- Hag by done; repeat case_match; simpl; split; (done || lia)].
  destruct (IHl e1 Hh) as [<- Hl]. destruct (eliminate_eq_right eq1 ty e1 l) as [[e1a l'] n1]. simpl in Hl.
  destruct (IHr e1a Hl) as [<- Hr]. by destruct (eliminate_eq_right eq1 ty e1a r) as [[e1b r'] n2].
Qed.

Lemma eliminate_left_agree eq1 eq2 ty h e1 : forall e2,
  (forall a b, (height a < h)%nat -> eq1 a b = eq2 a b) -> (height e1 < h)%nat ->
  eliminate_eq_left eq1 ty e1 e2 = eliminate_eq_left eq2 ty e1 e2.
Proof.
  induction e1 as [ty' l IHl r IHr| | | | |]; intros e2 Hag Hh; cbn [eliminate_eq_left];
    try (by eapply eliminate_right_agree).
  case_bool_decide; [|by eapply eliminate_right_agree]. simpl in Hh.
  rewrite <- IHl by (done || lia). destruct (eliminate_eq_left eq1 ty l e2) as [[l' e2a] n1].
  rewrite <- IHr by (done || lia). done.
Qed.

Lemma expr_eq_fuel_enough n : forall m e1 e2, (height e1 <= n)%nat -> (height e1 <= m)%nat ->
  expr_eq_fuel n e1 e2 = expr_eq_fuel m e1 e2.
Proof.
  induction n as [|n IH]; intros m e1 e2 Hn Hm;
    destruct e1 as [ty1 l1 r1|l1|ty1 l1 r1|s1| |]; simpl in Hn; try lia;
    destruct m as [|m]; simpl in Hm; try lia; try done;
    destruct e2 as [ty2 l2 r2|l2|ty2 l2 r2|s2| |]; try done; cbn [expr_eq_fuel].
  - case_bool_decide as Hty; [|done]. subst ty2.
    assert (Hag : forall a b, (height a < height (Bin ty1 l1 r1))%nat -> expr_eq_fuel n a b = expr_eq_fuel m a b).
    { intros a b Ha. simpl in Ha. apply IH; lia. }
    unfold eliminate_eq_with. cbn [eliminate_eq_left]. rewrite bool_decide_true by done.
    rewrite (eliminate_left_agree _ _ _ _ l1 _ Hag) by (simpl; lia).
    destruct (eliminate_eq_left (expr_eq_fuel m) ty1 l1 _) as [[l1' e2a] n1] eqn:El.
    rewrite (eliminate_left_agree _ _ _ _ r1 _ Hag) by (simpl; lia).
    destruct (eliminate_eq_left (expr_eq_fuel m) ty1 r1 e2a) as [[r1' e2b] n2] eqn:Er.
    destruct (eliminate_left_bin (expr_eq_fuel m) ty1 l1 l2 r2) as (? & l2' & r2' & ? & He). rewrite El in He.
    injection He as -> -> ->. 
    destruct (eliminate_left_bin (expr_eq_fuel m) ty1 r1 l2' r2') as (? & l2'' & r2'' & ? & He). rewrite Er in He.
    injection He as -> -> ->. unfold bin_of. by rewrite bool_decide_true.
  - apply IH; lia.
Qed.

(** The equality test of expressions is sound and its recursion ends.  When
    [expr_eq] says that two expressions are equal up to the order and grouping
    of operands, they have the same value under every assignment of values to
    symbols; and more depth than the height of the first expression changes no
    answer. *)
Theorem expr_eq_correct e1 e2 n :
  (height e1 <= n)%nat ->
  expr_eq_fuel n e1 e2 = expr_eq e1 e2 /\ (expr_eq e1 e2 = true -> val e1 = val e2).
Proof.
  intros Hn. split; [by apply expr_eq_fuel_enough|]. apply expr_eq_fuel_sound.
Qed.

Lemma expr_eq_sound e1 e2 : expr_eq e1 e2 = true -> val e1 = val e2.
Proof. apply expr_eq_fuel_sound. Qed.

(** ** Negation normal form *)

Fixpoint neg (e : expr) : expr :=
  match e with
  | Bin ty l r => Bin (dual ty) (neg l) (neg r)
  | E_NOT l => l
  | Cmp ty l r => Cmp (flip ty) l r
  | E_SYMBOL symbol_yes => E_SYMBOL symbol_no
  | E_SYMBOL symbol_mod => E_SYMBOL symbol_mod
  | E_SYMBOL symbol_no => E_SYMBOL symbol_yes
  | _ => E_NOT e
  end.

Fixpoint nnf (e : expr) : expr :=
  match e with
  | Bin ty l r => Bin ty (nnf l) (nnf r)
  | E_NOT l => neg (nnf l)
  | Cmp ty l r => transform_cmp sym ty l r
  | _ => e
  end.

(** Negation only of symbols (and lists), and no comparison that can be done. *)
Fixpoint nf (e : expr) : Prop :=
  match e with
  | Bin _ l r => nf l /\ nf r
  | E_NOT (E_SYMBOL (SymbolAt _)) | E_NOT (E_LIST _ _) => True
  | E_NOT _ => False
  | Cmp ty l r => transform_cmp sym ty l r = Cmp ty l r
  | E_RANGE _ _ => False
  | _ => True
  end.

(** Expressions of dependencies have no ranges. *)
Fixpoint no_range (e : expr) : Prop :=
  match e with
  | Bin _ l r => no_range l /\ no_range r | E_NOT l => no_range l | E_RANGE _ _ => False | _ => True
  end.

(** The depth of AND and OR. *)
Fixpoint core_height (e : expr) : nat :=
  match e with Bin _ l r => S (Nat.max (core_height l) (core_height r)) | _ => 0 end.

Lemma nf_height e : nf e -> (height e <= core_height e + 1)%nat.
Proof.
  induction e as [ty l IHl r IHr|l IHl|ty l r|s|l s|l r]; simpl; intros Hn; try lia.
  - destruct Hn as [Hl Hr]. specialize (IHl Hl). specialize (IHr Hr). lia.
  - destruct l as [| | |[]| |]; try done; simpl; lia.
Qed.

Lemma boolean_at s : type (sym s) = S_BOOLEAN -> exists a, s = SymbolAt a.
Proof.
  destruct s; rewrite ?(c_yes _ _ Hcons), ?(c_mod _ _ Hcons), ?(c_no _ _ Hcons); simpl; try done. eauto.
Qed.

Lemma transform_cmp_nf ty l r : nf (transform_cmp sym ty l r) /\ core_height (transform_cmp sym ty l r) = 0%nat.
Proof.
  unfold transform_cmp. case_bool_decide as Hb; simpl; cycle 1.
  { split; [|done]. unfold transform_cmp. by rewrite bool_decide_false. }
  destruct (boolean_at _ Hb) as [a ->].
  destruct ty, r; simpl; (split; [|done]); try done; unfold transform_cmp; by rewrite bool_decide_true.
Qed.

Lemma flip_nf ty l r : transform_cmp sym ty l r = Cmp ty l r -> transform_cmp sym (flip ty) l r = Cmp (flip ty) l r.
Proof. unfold transform_cmp. case_bool_decide; simpl; [|done]. by destruct ty, r. Qed.

Lemma neg_nf e : nf e -> nf (neg e) /\ core_height (neg e) = core_height e.
Proof.
  induction e as [ty l IHl r IHr|l IHl|ty l r|s|l s|l r]; simpl; intros Hn; try done.
  - destruct Hn as [Hl Hr]. destruct (IHl Hl) as [? ->], (IHr Hr) as [? ->]. done.
  - destruct l as [| | |[]| |]; done.
  - split; [|done]. by apply flip_nf.
  - by destruct s.
Qed.

Lemma nnf_nf e : no_range e -> nf (nnf e) /\ (core_height (nnf e) <= height e)%nat.
Proof.
  induction e as [ty l IHl r IHr|l IHl|ty l r|s|l s|l r]; simpl; intros Hn; try done.
  - destruct Hn as [Hl Hr]. destruct (IHl Hl), (IHr Hr). split; [done|lia].
  - destruct (IHl Hn) as [H1 H2]. destruct (neg_nf _ H1) as [? ->]. split; [done|lia].
  - destruct (transform_cmp_nf ty l r) as [? ->]. split; [done|lia].
Qed.

#[local] Abbreviation transform := (expr_transform_fuel sym).

Lemma transform_nf e : forall n, nf e -> (height e < n)%nat -> transform n e = Some e.
Proof.
  induction e as [ty l IHl r IHr|l IHl|ty l r|s|l s|l r]; intros [|n] Hn Hh; simpl in *; try lia; try done.
  - destruct Hn as [Hl Hr]. rewrite IHl by (done || lia). simpl. by rewrite IHr by (done || lia).
  - destruct l as [| | |[]| |]; try done; (destruct n; [lia|]); done.
  - by rewrite Hn.
Qed.

Lemma transform_neg e : forall n, nf e -> (2 * height e + 3 <= n)%nat -> transform n (E_NOT e) = Some (neg e).
Proof.
  induction e as [ty l IHl r IHr|l IHl|ty l r|s|l s|l r]; intros n Hn Hh; simpl in Hh;
    (destruct n as [|n]; [lia|]); cbn [expr_transform_fuel]; rewrite transform_nf by (done || (simpl; lia)); simpl; try done.
  - destruct n as [|n]; [lia|]. destruct Hn as [Hl Hr].
    destruct ty; cbn [expr_transform_fuel];
      (rewrite IHl by (done || lia)); simpl; (rewrite IHr by (done || lia)); done.
  - destruct l as [| | |[]| |]; try done; apply transform_nf; try done; simpl in *; lia.
  - by destruct s.
Qed.

Lemma transform_nnf e : forall n, no_range e -> (4 * height e + 4 <= n)%nat -> transform n e = Some (nnf e).
Proof.
  induction e as [ty l IHl r IHr|l IHl|ty l r|s|l s|l r]; intros n Hr Hh; simpl in Hh;
    (destruct n as [|n]; [lia|]); try done; simpl in Hr.
  - destruct Hr as [Hrl Hrr]. cbn [expr_transform_fuel]. rewrite IHl by (done || lia). simpl.
    by rewrite IHr by (done || lia).
  - destruct (nnf_nf _ Hr) as [Hnf Hch]. pose proof (nf_height _ Hnf).
    pose proof (transform_neg (nnf l) (S n) Hnf ltac:(lia)) as Ht. cbn [expr_transform_fuel] in *.
    rewrite transform_nf in Ht by (done || lia). rewrite IHl by (done || lia). simpl in *. exact Ht.
Qed.

Lemma val_neg e : nf e -> val (neg e) = EXPR_NOT (val e).
Proof.
  induction e as [ty l IHl r IHr|l IHl|ty l r|s|l s|l r]; simpl; intros Hn; try done.
  - destruct Hn as [Hl Hr]. by rewrite !val_bin, IHl, IHr, tri_not_op.
  - by rewrite val_not, tri_not_not.
  - unfold val. simpl. destruct ty; simpl; by destruct (String.eqb _ _).
  - destruct s; try done; by rewrite ?val_yes, ?val_mod, ?val_no.
Qed.

(** The strings of the constants, and of a symbol with a logical value. *)
Lemma str_yes : str symbol_yes = "y"%string.
Proof. unfold str, sym_get_string_value. by rewrite (c_yes _ _ Hcons). Qed.
Lemma str_mod : str symbol_mod = "m"%string.
Proof. unfold str, sym_get_string_value. by rewrite (c_mod _ _ Hcons). Qed.
Lemma str_no : str symbol_no = "n"%string.
Proof. unfold str, sym_get_string_value. by rewrite (c_no _ _ Hcons). Qed.

Definition logical (s : symbol_ref) : Prop := type (sym s) = S_BOOLEAN \/ type (sym s) = S_TRISTATE.
Definition tri_str (t : tristate) : string := match t with no => "n" | mod_ => "m" | yes => "y" end%string.

Lemma str_logical s : logical s -> str s = tri_str (curr_tri (sym s)).
Proof.
  intros [Hs|Hs]; unfold str, sym_get_string_value, sym_get_tristate_value; rewrite Hs.
  - pose proof (c_boolean _ _ Hcons s Hs). by destruct (curr_tri (sym s)).
  - pose proof (c_tristate _ _ Hcons s Hs) as Hm. destruct (curr_tri (sym s)) eqn:He; try done.
    rewrite bool_decide_false; [done|]. by apply Hm.
Qed.

Lemma val_cmp ty l r : val (Cmp ty l r) =
  if String.eqb (str l) (str r) then (match ty with E_EQUAL => yes | E_UNEQUAL => no end)
  else (match ty with E_EQUAL => no | E_UNEQUAL => yes end).
Proof. by destruct ty. Qed.
Lemma val_symbol s : val (E_SYMBOL s) = curr_tri (sym s).
Proof. done. Qed.

Lemma val_transform_cmp ty l r : val (transform_cmp sym ty l r) = val (Cmp ty l r).
Proof.
  unfold transform_cmp. case_bool_decide as Hb; simpl; [|done].
  pose proof (c_boolean _ _ Hcons l Hb) as Hm. pose proof (str_logical l (or_introl Hb)) as Hs.
  destruct ty, r; try done;
    rewrite val_cmp, ?str_yes, ?str_mod, ?str_no, Hs, ?val_not, ?val_symbol, ?(c_no _ _ Hcons), ?(c_yes _ _ Hcons);
    by destruct (curr_tri (sym l)).
Qed.

Lemma val_nnf e : no_range e -> val (nnf e) = val e.
Proof.
  induction e as [ty l IHl r IHr|l IHl|ty l r|s|l s|l r]; simpl; intros Hn; try done.
  - destruct Hn as [Hl Hr]. by rewrite !val_bin, IHl, IHr.
  - rewrite val_neg by (by apply nnf_nf). by rewrite IHl, val_not.
  - apply val_transform_cmp.
Qed.

Lemma expr_transform_nnf e : no_range e -> expr_transform sym e = Some (nnf e).
Proof. intros Hn. by apply transform_nnf. Qed.

(** C32: the transformation of expressions ends and is right.  On an expression
    without ranges [expr_transform] returns its negation normal form: negation
    is left only before symbols, no boolean symbol is compared with y, m or n,
    the value is the same in the three-valued logic, and transforming the
    result again changes nothing. *)
Theorem expr_transform_correct e :
  no_range e ->
  exists e', expr_transform sym e = Some e' /\ e' = nnf e /\ nf e' /\ val e' = val e /\
             expr_transform sym e' = Some e'.
Proof.
  intros Hn. destruct (nnf_nf e Hn) as [Hnf _]. exists (nnf e).
  split_and!; [by apply expr_transform_nnf|done|done|by apply val_nnf|]. apply transform_nf; [done|lia].
Qed.

End Values.
#[global] Arguments val _ _ _ : simpl never.
#[global] Arguments str _ _ _ : simpl never.

(** ** A configuration *)

Module Demo.
Definition FOO : symbol_ref := SymbolAt 1.
Definition BAR : symbol_ref := SymbolAt 2.
Definition BOOL : symbol_ref := SymbolAt 3.

(** Two tristate symbols with the given value and a boolean one. *)
Definition table (v : tristate) (s : symbol_ref) : symbol :=
  match s with
  | symbol_yes => Symbol (Some "y"%string) S_UNKNOWN "y" yes true
  | symbol_mod => Symbol (Some "m"%string) S_UNKNOWN "m" mod_ true
  | symbol_no => Symbol (Some "n"%string) S_UNKNOWN "n" no true
  | SymbolAt 1 => Symbol (Some "FOO"%string) S_TRISTATE "" v false
  | SymbolAt 2 => Symbol (Some "BAR"%string) S_TRISTATE "" v false
  | SymbolAt 3 => Symbol (Some "BOOL"%string) S_BOOLEAN "" yes false
  | SymbolAt _ => Symbol None S_UNKNOWN "" no false
  end.

Lemma table_consistent v : consistent (table v) yes.
Proof.
  split; try done.
  - intros [| | |[|[[]|[]|]|]]; simpl; done.
  - intros s t. assert (H : forall s, is_const (table v s) = true -> s = symbol_yes \/ s = symbol_mod \/ s = symbol_no).
    { intros [| | |[|[[]|[]|]|]]; simpl; auto; done. }
    intros [->|[-> | ->]]%H [->|[-> | ->]]%H; done.
Qed.

(** (FOO || BAR) && (!FOO && !BAR) *)
Definition excluded : expr :=
  Bin E_AND (Bin E_OR (E_SYMBOL FOO) (E_SYMBOL BAR)) (Bin E_AND (E_NOT (E_SYMBOL FOO)) (E_NOT (E_SYMBOL BAR))).
End Demo.

(** FOO!=n || !(BAR && FOO), and with its operands in another order. *)
Definition Demo_or1 : expr :=
  Bin E_OR (Cmp E_UNEQUAL Demo.FOO symbol_no) (E_NOT (Bin E_AND (E_SYMBOL Demo.BAR) (E_SYMBOL Demo.FOO))).
Definition Demo_or2 : expr :=
  Bin E_OR (E_NOT (Bin E_AND (E_SYMBOL Demo.FOO) (E_SYMBOL Demo.BAR))) (Cmp E_UNEQUAL Demo.FOO symbol_no).

Lemma expr_eq_correct_witness :
  expr_eq Demo_or1 Demo_or2 = true /\
  expr_eq_fuel 7 Demo_or1 Demo_or2 = expr_eq Demo_or1 Demo_or2 /\
  (expr_eq Demo_or1 Demo_or2 = true -> val (Demo.table mod_) yes Demo_or1 = val (Demo.table mod_) yes Demo_or2).
Proof. split; [by vm_compute|]. apply (expr_eq_correct _ _ (Demo.table_consistent mod_)). simpl. lia. Defined.

Lemma expr_eliminate_yn_correct_witness :
  let e := Bin E_AND (E_SYMBOL symbol_yes) Demo_or1 in
  val (Demo.table mod_) yes (expr_eliminate_yn e) = val (Demo.table mod_) yes e /\ yn_done (expr_eliminate_yn e) /\
  (yn_done e <-> expr_eliminate_yn e = e).
Proof. apply (expr_eliminate_yn_correct _ _ (Demo.table_consistent mod_)). Defined.

Lemma expr_transform_correct_witness :
  exists e', expr_transform (Demo.table mod_) Demo_or1 = Some e' /\ e' = nnf (Demo.table mod_) Demo_or1 /\
    nf (Demo.table mod_) e' /\ val (Demo.table mod_) yes e' = val (Demo.table mod_) yes Demo_or1 /\
    expr_transform (Demo.table mod_) e' = Some e'.
Proof. apply (expr_transform_correct _ _ (Demo.table_consistent mod_)). simpl. auto. Defined.
