(* ===== verification/KExprDups.v ===== *)
(** * Removal of redundant operands ([KExpr.expr_eliminate_dups])

    The pairs of operands of a chain of AND or OR are compared through two
    pointers into the chain.  Each step keeps the chain's shape, so that the
    walk ends, and either leaves the tree alone or makes it smaller once
    constants are removed, so that the passes end. *)
From S2P Require Import Prelude KExpr KExprCorrect.

(** ** Paths along a chain *)

Definition child (d : dir) (l r : expr) : expr := match d with Lft => l | Rgt => r end.

(** The node a path leads to when it goes through nodes of type [ty] only. *)
Fixpoint spine (ty : conn) (e : expr) (p : path) {struct p} : option expr :=
  match p, e with
  | [], _ => Some e
  | d :: p', Bin ty' l r => if bool_decide (ty' = ty) then spine ty (child d l r) p' else None
  | _, _ => None
  end.

(** The shape of a chain. *)
Inductive shape := Leaf | Node (l r : shape).
Fixpoint skel (ty : conn) (e : expr) : shape :=
  match e with
  | Bin ty' l r => if bool_decide (ty' = ty) then Node (skel ty l) (skel ty r) else Leaf
  | _ => Leaf
  end.
Fixpoint depth (s : shape) : nat := match s with Leaf => 0 | Node l r => S (Nat.max (depth l) (depth r)) end.

Lemma depth_size ty e : (depth (skel ty e) < size e)%nat.
Proof. induction e as [ty' l IHl r IHr| | | | |]; simpl; try lia. case_bool_decide; simpl; lia. Qed.

Lemma bin_of_spec ty e l r : bin_of ty e = Some (l, r) -> e = Bin ty l r.
Proof. destruct e; simpl; try done. case_bool_decide; [|done]. by intros [= -> ->]; subst. Qed.
Lemma skel_leaf ty e : bin_of ty e = None <-> skel ty e = Leaf.
Proof. destruct e; simpl; try case_bool_decide; done. Qed.

Lemma spine_at ty p : forall e x, spine ty e p = Some x -> at_path e p = Some x.
Proof.
  induction p as [|[] p IH]; intros e x; [done| |]; destruct e; simpl; try done; case_bool_decide; try done; apply IH.
Qed.

Lemma spine_app ty p q : forall e, spine ty e (p ++ q) = (x ← spine ty e p; spine ty x q).
Proof. induction p as [|d p IH]; intros e; [done|]. destruct e; simpl; try done. by case_bool_decide. Qed.

Lemma spine_size ty p : forall e x, spine ty e p = Some x -> (size x <= size e)%nat /\ (p <> [] -> (size x < size e)%nat).
Proof.
  induction p as [|d p IH]; intros e x; simpl. { by intros [= ->]. }
  destruct e; simpl; try done. case_bool_decide; [|done]. intros [H1 _]%IH. destruct d; simpl in H1; lia.
Qed.

(** Paths depend on the shape only. *)
Lemma spine_skel ty p : forall e e' x, skel ty e' = skel ty e -> spine ty e p = Some x ->
  exists x', spine ty e' p = Some x' /\ skel ty x' = skel ty x.
Proof.
  induction p as [|d p IH]; intros e e' x Hsk; simpl. { intros [= ->]. eauto. }
  destruct e as [ty1 l r| | | | |]; try done. simpl in Hsk. case_bool_decide; [|done]. subst ty1.
  destruct e' as [ty1 l' r'| | | | |]; try done. simpl in Hsk. case_bool_decide; [|done].
  injection Hsk as Hl Hr. intros Hx. by apply (IH (child d l r)); [destruct d|].
Qed.

Lemma spine_child ty p d e l r : spine ty e p = Some (Bin ty l r) -> spine ty e (p ++ [d]) = Some (child d l r).
Proof. intros H. rewrite spine_app, H. simpl. by rewrite bool_decide_true. Qed.

(** ** Replacing a node of the chain *)

Lemma put_spine ty p : forall e x y, spine ty e p = Some x -> spine ty (put e p y) p = Some y.
Proof.
  induction p as [|d p IH]; intros e x y; [done|]. destruct e; simpl; try done. case_bool_decide; [|done].
  intros Hx. destruct d; simpl in *; rewrite bool_decide_true by done; eauto.
Qed.

Lemma put_same ty p : forall e x, spine ty e p = Some x -> put e p x = e.
Proof.
  induction p as [|d p IH]; intros e x; simpl. { by intros [= ->]. }
  destruct e; try done. case_bool_decide; [|done]. intros Hx. destruct d; simpl in Hx; f_equal; eauto.
Qed.

Lemma put_skel ty p : forall e x y, spine ty e p = Some x -> skel ty y = skel ty x ->
  skel ty (put e p y) = skel ty e.
Proof.
  induction p as [|d p IH]; intros e x y; simpl. { by intros [= ->]. }
  destruct e; try done. case_bool_decide; [|done]. intros Hx Hy.
  destruct d; simpl in *; rewrite bool_decide_true by done; f_equal; eauto.
Qed.

Lemma put_size ty p : forall e x y, spine ty e p = Some x -> (size (put e p y) + size x = size e + size y)%nat.
Proof.
  induction p as [|d p IH]; intros e x y; simpl. { intros [= ->]. lia. }
  destruct e; try done. case_bool_decide; [|done]. intros Hx. destruct d; simpl in *; specialize (IH _ _ y Hx); lia.
Qed.

(** ** Sizes without constants *)

Lemma eliminate_yn_node_size ty l r : (size (eliminate_yn_node ty l r) <= S (size l + size r))%nat.
Proof. unfold eliminate_yn_node. repeat case_match; simpl; lia. Qed.
Lemma eliminate_yn_size e : (size (expr_eliminate_yn e) <= size e)%nat.
Proof.
  induction e; simpl; try lia. etrans; [apply eliminate_yn_node_size|]. lia.
Qed.

Lemma put_yn_size ty p : forall e x y, spine ty e p = Some x ->
  (size (expr_eliminate_yn (put e p y)) + size x <= size e + size (expr_eliminate_yn y))%nat.
Proof.
  induction p as [|d p IH]; intros e x y; simpl. { intros [= ->]. lia. }
  destruct e as [ty' l r| | | | |]; try done. case_bool_decide; [|done]. intros Hx.
  destruct d; simpl in *; specialize (IH _ _ y Hx).
  - pose proof (eliminate_yn_node_size ty' (expr_eliminate_yn (put l p y)) (expr_eliminate_yn r)).
    pose proof (eliminate_yn_size r). lia.
  - pose proof (eliminate_yn_node_size ty' (expr_eliminate_yn l) (expr_eliminate_yn (put r p y))).
    pose proof (eliminate_yn_size l). lia.
Qed.

Lemma put_no_range ty p : forall e x y, spine ty e p = Some x -> no_range e -> no_range y -> no_range (put e p y).
Proof.
  induction p as [|d p IH]; intros e x y; simpl. { done. }
  destruct e; try done. case_bool_decide; [|done]. intros Hx. destruct d; simpl in *; intros [? ?] ?; eauto.
Qed.
Lemma spine_no_range ty p : forall e x, spine ty e p = Some x -> no_range e -> no_range x.
Proof.
  induction p as [|d p IH]; intros e x; simpl. { by intros [= ->]. }
  destruct e; try done. case_bool_decide; [|done]. intros Hx [? ?]. apply (IH _ _ Hx). by destruct d.
Qed.

(** A unit below a node of the chain goes away with the node. *)
Lemma node_unit_size ty l r :
  (size (eliminate_yn_node ty (E_SYMBOL (unit_of ty)) r) <= size r)%nat /\
  (size (eliminate_yn_node ty l (E_SYMBOL (unit_of ty))) <= size l)%nat.
Proof.
  assert (is_symbol (zero_of ty) (E_SYMBOL (unit_of ty)) = false /\ is_symbol (unit_of ty) (E_SYMBOL (unit_of ty)) = true)
    as [Hz Hu] by by destruct ty.
  assert (1 <= size l)%nat by (destruct l; simpl; lia).
  unfold eliminate_yn_node. rewrite Hz, Hu. split; [lia|].
  destruct (is_symbol (zero_of ty) l), (is_symbol (unit_of ty) l); simpl; lia.
Qed.

Lemma put_unit_size ty p : forall e x, spine ty e p = Some x -> p <> [] ->
  (size (expr_eliminate_yn (put e p (E_SYMBOL (unit_of ty)))) + size x + 1 <= size e)%nat.
Proof.
  induction p as [|d p IH]; intros e x; [done|]. simpl. destruct e as [ty' l r| | | | |]; try done.
  case_bool_decide; [|done]. subst ty'. intros Hx _.
  pose proof (eliminate_yn_size l). pose proof (eliminate_yn_size r).
  destruct (decide (p = [])) as [->|Hp].
  - injection Hx as <-. pose proof (node_unit_size ty (expr_eliminate_yn l) (expr_eliminate_yn r)).
    destruct d; simpl; lia.
  - specialize (IH _ _ Hx Hp). destruct d; cbn [put child expr_eliminate_yn size] in *;
      match goal with |- context [eliminate_yn_node ?ty ?l ?r] => pose proof (eliminate_yn_node_size ty l r) end; lia.
Qed.

(** Two operands of a chain do not overlap. *)
Lemma put_put_comm ty p1 : forall p2 e x1 x2 y z, spine ty e p1 = Some x1 -> spine ty e p2 = Some x2 ->
  bin_of ty x1 = None -> bin_of ty x2 = None -> p1 <> p2 ->
  spine ty (put e p1 y) p2 = Some x2 /\ spine ty (put e p2 z) p1 = Some x1 /\
  put (put e p1 y) p2 z = put (put e p2 z) p1 y.
Proof.
  induction p1 as [|d1 p1 IH]; intros [|d2 p2] e x1 x2 y z; simpl; try done.
  { intros [= ->] H Hn _. destruct x1; try done. simpl in Hn. by case_bool_decide. }
  { intros H [= ->] Hn Hl. destruct x2; try done. simpl in Hl. by case_bool_decide. }
  destruct e as [ty' l r| | | | |]; try done. case_bool_decide; [|done]. subst ty'. intros H1 H2 Hn1 Hn2 Hne.
  destruct d1, d2; simpl in *; rewrite ?bool_decide_true by done; simpl; try done.
  all: destruct (IH p2 _ _ _ y z H1 H2 Hn1 Hn2 ltac:(congruence)) as (? & ? & ->); done.
Qed.

Section Values.
Context (sym : symbol_ref -> symbol) (modules : tristate) (Hcons : consistent sym modules).
Context (q : symbol_ref -> Prop) (Hyes : q symbol_yes) (Hno : q symbol_no).
#[local] Abbreviation val := (val sym modules).
#[local] Abbreviation str := (str sym modules).

(** The symbols that stand for themselves in an expression satisfy [q]. *)
Fixpoint syms (e : expr) : Prop :=
  match e with
  | Bin _ l r => syms l /\ syms r | E_NOT l => syms l | E_SYMBOL s => q s | _ => True
  end.

Lemma put_syms ty p : forall e x y, spine ty e p = Some x -> syms e -> syms y -> syms (put e p y).
Proof.
  induction p as [|d p IH]; intros e x y; simpl. { done. }
  destruct e; try done. case_bool_decide; [|done]. intros Hx. destruct d; simpl in *; intros [? ?] ?; eauto.
Qed.
Lemma spine_syms ty p : forall e x, spine ty e p = Some x -> syms e -> syms x.
Proof.
  induction p as [|d p IH]; intros e x; simpl. { by intros [= ->]. }
  destruct e; try done. case_bool_decide; [|done]. intros Hx [? ?]. apply (IH _ _ Hx). by destruct d.
Qed.
Lemma syms_unit ty : syms (E_SYMBOL (unit_of ty)).
Proof. by destruct ty. Qed.
Lemma eliminate_yn_syms e : syms e -> syms (expr_eliminate_yn e).
Proof.
  induction e as [ty l IHl r IHr| | | | |]; try done. simpl. intros [?%IHl ?%IHr].
  unfold eliminate_yn_node. repeat case_match; try done; apply (syms_unit (dual ty)) || by destruct ty.
Qed.

(** ** Values along a chain *)

(** The value of the chain as a function of one operand. *)
Lemma put_val ty p : forall e x, spine ty e p = Some x ->
  exists c, forall y, val (put e p y) = tri_op ty c (val y).
Proof.
  induction p as [|d p IH]; intros e x; simpl. { intros _. exists (tri_unit ty). intros y. by rewrite tri_op_unit. }
  destruct e as [ty' l r| | | | |]; try done. case_bool_decide; [|done]. subst ty'. intros Hx.
  destruct (IH _ _ Hx) as [c Hc]. destruct d; simpl in *.
  - exists (tri_op ty c (val r)). intros y. rewrite val_bin, Hc. destruct ty, c, (val y), (val r); done.
  - exists (tri_op ty c (val l)). intros y. rewrite val_bin, Hc. destruct ty, c, (val y), (val l); done.
Qed.

Lemma spine_absorb ty e p x : spine ty e p = Some x -> tri_op ty (val e) (val x) = val e.
Proof.
  intros Hx. destruct (put_val _ _ _ _ Hx) as [c Hc]. specialize (Hc x). rewrite (put_same _ _ _ _ Hx) in Hc.
  rewrite Hc. by rewrite <- tri_op_assoc, tri_op_idem.
Qed.

(** Two operands that are no nodes of the chain. *)
Lemma put_put_val ty p1 p2 e x1 x2 y z : spine ty e p1 = Some x1 -> spine ty e p2 = Some x2 ->
  bin_of ty x1 = None -> bin_of ty x2 = None -> p1 <> p2 ->
  tri_op ty (val y) (val z) = tri_op ty (val x1) (val x2) -> val (put (put e p1 y) p2 z) = val e.
Proof.
  revert p2 e. induction p1 as [|d1 p1 IH]; intros [|d2 p2] e; simpl; try done.
  { intros [= ->] H Hn _. destruct x1; try done. simpl in Hn. by case_bool_decide. }
  { intros H [= ->] Hn Hl. destruct x2; try done. simpl in Hl. by case_bool_decide. }
  destruct e as [ty' l r| | | | |]; try done. case_bool_decide; [|done]. subst ty'. intros H1 H2 Hn1 Hn2 Hne Hv.
  assert (Hput : forall p a x w, spine ty a p = Some x -> exists c, val (put a p w) = tri_op ty c (val w) /\ val a = tri_op ty c (val x)).
  { intros p a x w Ha. destruct (put_val _ _ _ _ Ha) as [c Hc]. exists c. split; [apply Hc|].
    specialize (Hc x). rewrite (put_same _ _ _ _ Ha) in Hc. exact Hc. }
  destruct d1, d2; simpl in *; rewrite !val_bin.
  1,4: by rewrite (IH p2 _ H1 H2 Hn1 Hn2 ltac:(congruence) Hv).
  - destruct (Hput _ _ _ y H1) as (c1 & -> & ->), (Hput _ _ _ z H2) as (c2 & -> & ->). 
    by rewrite (tri_op_inter ty c1 c2 (val y)), (tri_op_inter ty c1 c2 (val x1)), Hv.
  - destruct (Hput _ _ _ y H1) as (c1 & -> & ->), (Hput _ _ _ z H2) as (c2 & -> & ->).
    by rewrite (tri_op_inter ty c2 c1 (val z)), (tri_op_inter ty c2 c1 (val x2)),
      (tri_op_comm ty (val z)), (tri_op_comm ty (val x2)), Hv.
Qed.

(** ** Joining *)

Lemma join_sym_logical e1 e2 s : join_sym sym e1 e2 = Some s ->
  logical sym s /\
  ((exists t r, e1 = Cmp t s r) \/ e1 = E_SYMBOL s \/ (exists t r, e1 = E_NOT (Cmp t s r)) \/ e1 = E_NOT (E_SYMBOL s)) /\
  ((exists t r, e2 = Cmp t s r) \/ e2 = E_SYMBOL s \/ e2 = E_NOT (E_SYMBOL s)).
Proof.
  unfold join_sym. destruct (join_sym1 e1) as [s1|] eqn:E1; [|done]. destruct (join_sym2 e2) as [s2|] eqn:E2; [|done].
  unfold sym_is. destruct (bool_decide_reflect (s1 = s2)) as [->|]; [|done]. simpl.
  destruct (_ || _) eqn:Hl; [|done]. intros [= ->].
  split. { apply orb_prop in Hl as [Hl%bool_decide_eq_true|Hl%bool_decide_eq_true]; [by left|by right]. }
  split.
  - destruct e1 as [|[]| | | |]; simpl in E1; try done; injection E1 as ->; eauto 10.
  - destruct e2 as [|[]| | | |]; simpl in E2; try done; injection E2 as ->; eauto 10.
Qed.

(** [t] can stand for the two operands. *)
Record joined (ty : conn) (e1 e2 t : expr) : Prop := {
  j_val : val t = tri_op ty (val e1) (val e2);
  j_size : (S (size t) <= size e1 + size e2)%nat;
  j_leaf : bin_of ty t = None;
  j_range : no_range e1 -> no_range t;
  j_syms : syms e1 -> syms e2 -> syms t }.

Lemma size_pos e : (1 <= size e)%nat.
Proof. destruct e; simpl; lia. Qed.

Lemma joined_eq ty e1 e2 : bin_of ty e1 = None -> expr_eq e1 e2 = true -> joined ty e1 e2 e1.
Proof.
  intros Hb He. pose proof (size_pos e2). split; try done; [|lia].
  by rewrite (expr_eq_sound sym modules Hcons _ _ He), tri_op_idem.
Qed.

Lemma joined_cmp ty e1 e2 t s r : val (Cmp t s r) = tri_op ty (val e1) (val e2) -> joined ty e1 e2 (Cmp t s r).
Proof. intros Hv. pose proof (size_pos e1). pose proof (size_pos e2). split; try done. simpl. lia. Qed.
Lemma joined_symbol ty e1 e2 s : val (E_SYMBOL s) = tri_op ty (val e1) (val e2) ->
  (syms e1 -> syms e2 -> q s) -> joined ty e1 e2 (E_SYMBOL s).
Proof. intros Hv Hq. pose proof (size_pos e1). pose proof (size_pos e2). split; try done. simpl. lia. Qed.

Lemma compare_both_spec ty a b e1 e2 : compare_both ty a b e1 e2 = true ->
  exists s1 s2, (e1 = Cmp ty s1 a /\ e2 = Cmp ty s2 b) \/ (e1 = Cmp ty s1 b /\ e2 = Cmp ty s2 a).
Proof.
  destruct e1, e2; simpl; try done. unfold sym_is.
  rewrite andb_true_iff, orb_true_iff, !andb_true_iff, !bool_decide_eq_true. naive_solver.
Qed.
Lemma symbol_and_compare_spec ty a e1 e2 : symbol_and_compare ty a e1 e2 = true ->
  exists s1 s2, (e1 = E_SYMBOL s1 /\ e2 = Cmp ty s2 a) \/ (e2 = E_SYMBOL s1 /\ e1 = Cmp ty s2 a).
Proof.
  destruct e1, e2; simpl; try done; unfold sym_is; rewrite andb_true_iff, !bool_decide_eq_true; naive_solver.
Qed.

(** Comparisons of a logical symbol with constants, by the symbol's value. *)
Ltac cmp_values Hs s :=
  rewrite ?(val_not sym modules), ?(val_cmp sym modules), ?(val_symbol sym modules),
    ?(str_logical sym modules Hcons s Hs), ?(str_yes sym modules Hcons), ?(str_mod sym modules Hcons),
    ?(str_no sym modules Hcons), ?(c_yes _ _ Hcons), ?(c_no _ _ Hcons); destruct (curr_tri (sym s)) eqn:?; done.

Lemma expr_join_or_joined e1 e2 t : bin_of E_OR e1 = None -> expr_join_or sym e1 e2 = Some t -> joined E_OR e1 e2 t.
Proof.
  intros Hb. unfold expr_join_or. destruct (expr_eq e1 e2) eqn:He. { intros [= <-]. by apply joined_eq. }
  destruct (join_sym sym e1 e2) as [s|] eqn:Hs; [|done]. apply join_sym_logical in Hs as (Hl & H1 & H2).
  repeat (destruct (_ && compare_both _ _ _ _ _) eqn:Hc;
    [apply andb_prop in Hc as [_ (s1 & s2 & [[-> ->]|[-> ->]])%compare_both_spec]; intros [= <-];
     assert (s1 = s) as -> by naive_solver; assert (s2 = s) as -> by naive_solver;
     apply joined_cmp; cmp_values Hl s|clear Hc]).
  case_bool_decide as Hbool; [|done].
  pose proof (c_boolean _ _ Hcons s Hbool) as Hm.
  destruct H1 as [(? & ? & ->)|[->|[(? & ? & ->)| ->]]], H2 as [(? & ? & ->)|[->| ->]]; try done;
    intros [= <-]; (apply joined_symbol; [cmp_values Hl s|done]).
Qed.

Lemma join_equal_unequal_joined s b c t e1 e2 :
  (e1 = Cmp E_EQUAL s b /\ e2 = Cmp E_UNEQUAL s c) \/ (e1 = Cmp E_UNEQUAL s c /\ e2 = Cmp E_EQUAL s b) ->
  join_equal_unequal sym s b c = Some t -> joined E_AND e1 e2 t.
Proof.
  intros He. unfold join_equal_unequal. destruct (is_const (sym c)) eqn:Hcc; [|done].
  destruct (is_const (sym b)) eqn:Hcb; [|done]. simpl. unfold sym_is.
  assert (Hop : tri_op E_AND (val e1) (val e2) = tri_op E_AND (val (Cmp E_EQUAL s b)) (val (Cmp E_UNEQUAL s c))).
  { destruct He as [[-> ->]|[-> ->]]; [done|]. apply tri_op_comm. }
  case_bool_decide as Hbc; simpl; intros [= <-].
  - apply joined_symbol; [|done]. rewrite Hop, Hbc, (val_no sym modules Hcons), !(val_cmp sym modules).
    by destruct (String.eqb _ _).
  - apply joined_cmp. rewrite Hop, !(val_cmp sym modules).
    destruct (String.eqb_spec (str s) (str b)) as [Hsb|]; [|by destruct (String.eqb _ _)].
    destruct (String.eqb_spec (str s) (str c)) as [Hsc|]; [|done].
    destruct (c_const _ _ Hcons b c Hcb Hcc Hbc). change (str b = str c). congruence.
Qed.

Lemma expr_join_and_joined e1 e2 t : bin_of E_AND e1 = None -> expr_join_and sym e1 e2 = Some t -> joined E_AND e1 e2 t.
Proof.
  intros Hb. unfold expr_join_and. destruct (expr_eq e1 e2) eqn:He. { intros [= <-]. by apply joined_eq. }
  destruct (join_sym sym e1 e2) as [s|] eqn:Hs; [|done]. apply join_sym_logical in Hs as (Hl & H1 & H2).
  repeat (destruct (symbol_and_compare _ _ _ _) eqn:Hc;
    [apply symbol_and_compare_spec in Hc as (s1 & s2 & [[-> ->]|[-> ->]]); intros [= <-];
     assert (s1 = s) as -> by naive_solver; assert (s2 = s) as -> by naive_solver;
     (apply joined_cmp || (apply joined_symbol; [|done])); cmp_values Hl s|clear Hc]).
  case_bool_decide as Htri; [|done]. destruct (match e1 with Cmp _ _ _ => _ | _ => _ end) as [t'|] eqn:Hj.
  - intros [= ->]. destruct H1 as [(t1 & r1 & ->)|[->|[(? & ? & ->)| ->]]]; try done.
    destruct H2 as [(t2 & r2 & ->)|[->| ->]]; [|by destruct t1|by destruct t1].
    destruct t1, t2; try done; eapply join_equal_unequal_joined; eauto.
  - clear Hj.
    repeat (destruct (compare_both _ _ _ _ _) eqn:Hc;
      [apply compare_both_spec in Hc as (s1 & s2 & [[-> ->]|[-> ->]]); intros [= <-];
       assert (s1 = s) as -> by naive_solver; assert (s2 = s) as -> by naive_solver;
       apply joined_cmp; cmp_values Hl s|clear Hc]). done.
Qed.

Lemma expr_join_joined ty e1 e2 t : bin_of ty e1 = None -> expr_join sym ty e1 e2 = Some t -> joined ty e1 e2 t.
Proof. destruct ty; [apply expr_join_or_joined|apply expr_join_and_joined]. Qed.
(** ** Steps *)

(** What every call does to the tree and to trans_count, along chains of [ty]. *)
Record step (ty : conn) (e : expr) (c : nat) (e' : expr) (c' : nat) : Prop := {
  s_skel : skel ty e' = skel ty e;
  s_size : (size e' <= size e)%nat;
  s_count : (e' = e /\ c' = c) \/ ((c < c')%nat /\ (size (expr_eliminate_yn e') < size e)%nat);
  s_range : no_range e -> no_range e';
  s_syms : syms e -> syms e' /\ val e' = val e }.

Lemma step_refl ty e c : step ty e c e c.
Proof. split; auto. Qed.

Lemma step_trans ty e c e1 c1 e2 c2 : step ty e c e1 c1 -> step ty e1 c1 e2 c2 -> step ty e c e2 c2.
Proof.
  intros [A1 A2 A3 A4 A5] [B1 B2 B3 B4 B5]. split; [congruence|lia| |auto|].
  - destruct A3 as [[-> ->]|[? ?]]; [done|]. destruct B3 as [[-> ->]|[? ?]]; [auto|]. right. lia.
  - intros Hs. destruct (A5 Hs) as [Hs1 <-]. by apply B5.
Qed.

(** A step of an operand is a step of the chain. *)
Lemma step_put ty ty' e p x x' c c' : spine ty e p = Some x -> skel ty x' = skel ty x ->
  step ty' x c x' c' -> step ty e c (put e p x') c'.
Proof.
  intros Hp Hsk [_ A2 A3 A4 A5]. pose proof (put_size _ _ _ _ x' Hp) as Hsz. pose proof (put_yn_size _ _ _ _ x' Hp) as Hyn.
  split.
  - by eapply put_skel.
  - lia.
  - destruct A3 as [[-> ->]|[? ?]]; [left; split; [by eapply put_same|done]|]. right. lia.
  - intros Hr. eapply put_no_range; eauto using spine_no_range.
  - intros Hs. destruct (A5 (spine_syms _ _ _ _ Hp Hs)) as [Hs' Hv]. split; [by eapply put_syms|].
    destruct (put_val _ _ _ _ Hp) as [k Hk]. rewrite Hk, Hv, <- Hk. by rewrite (put_same _ _ _ _ Hp).
Qed.

(** The nested call on an operand that is a chain of the other type. *)
Lemma step_nested ty ty' e p x x' c c' : spine ty e p = Some x -> bin_of ty x = None -> bin_of ty' x <> None ->
  step ty' x c x' c' -> bin_of ty x' = None /\ bin_of ty' x' <> None /\ step ty e c (put e p x') c'.
Proof.
  intros Hp Hb Hb' Hst. assert (Hx' : bin_of ty' x' <> None).
  { intros Hn%skel_leaf. apply Hb'. apply skel_leaf. by rewrite <- (s_skel _ _ _ _ _ Hst). }
  assert (Hbx : bin_of ty x' = None).
  { destruct x as [tx ? ?| | | | |], x' as [tx' ? ?| | | | |]; simpl in *; repeat case_bool_decide; try done; congruence. }
  split_and!; [done|done|]. eapply step_put; [done| |done]. apply skel_leaf in Hb, Hbx. congruence.
Qed.

(** Two operands replaced by a unit and their join. *)
Lemma step_join ty e p1 p2 x1 x2 t c : spine ty e p1 = Some x1 -> spine ty e p2 = Some x2 ->
  bin_of ty x1 = None -> bin_of ty x2 = None -> p1 <> p2 -> joined ty x1 x2 t ->
  step ty e c (put (put e p1 (E_SYMBOL (unit_of ty))) p2 t) (S c).
Proof.
  intros H1 H2 Hn1 Hn2 Hne [J1 J2 J3 J4 J5].
  destruct (put_put_comm ty p1 p2 e x1 x2 (E_SYMBOL (unit_of ty)) t H1 H2 Hn1 Hn2 Hne) as (Hs2 & Hs1 & Hcomm).
  pose proof (put_size _ _ _ _ t H2). pose proof (put_size _ _ _ _ (E_SYMBOL (unit_of ty)) Hs1).
  assert (Hp1 : p1 <> []).
  { intros ->. injection H1 as ->. destruct p2; [done|]. destruct x1; simpl in *; try done; by case_bool_decide. }
  pose proof (put_unit_size _ _ _ _ Hs1 Hp1). pose proof (size_pos x1). pose proof (size_pos x2).
  split.
  - rewrite (put_skel ty p2 _ x2 _ Hs2) by (apply skel_leaf in Hn2, J3; congruence).
    eapply put_skel; [done|]. apply skel_leaf in Hn1. by rewrite Hn1.
  - rewrite Hcomm. simpl size in *. lia.
  - right. rewrite Hcomm. lia.
  - intros Hr. apply (put_no_range ty p2 _ x2); [done| |apply J4; eauto using spine_no_range].
    by apply (put_no_range ty p1 _ x1).
  - intros Hs. split.
    + apply (put_syms ty p2 _ x2); [done| |apply J5; eauto using spine_syms].
      apply (put_syms ty p1 _ x1); [done..|apply syms_unit].
    + eapply put_put_val; try done. by rewrite (val_unit sym modules Hcons), tri_op_unit, J1.
Qed.

(** Fuel for a call on a tree of at most [N] nodes. *)
Definition gas (N : nat) : nat := (2 * N + 2) * N.

(** A pointer's subtree after a step of the tree. *)
Lemma step_spine ty e c e' c' p x : step ty e c e' c' -> spine ty e p = Some x ->
  exists x', spine ty e' p = Some x' /\ skel ty x' = skel ty x.
Proof. intros Hst. apply spine_skel. apply Hst. Qed.

(** The subtrees of a pointer whose node is split. *)
Lemma skel_children ty x l r : skel ty x = Node l r -> exists a b, x = Bin ty a b /\ skel ty a = l /\ skel ty b = r.
Proof. destruct x; simpl; try done. case_bool_decide; [|done]. subst. intros [= <- <-]. eauto. Qed.
Lemma skel_child ty e p l r : (exists x, spine ty e p = Some x /\ skel ty x = Node l r) ->
  forall d, exists x, spine ty e (p ++ [d]) = Some x /\ skel ty x = match d with Lft => l | Rgt => r end.
Proof.
  intros (x & Hx & (a & b & -> & Ha & Hb)%skel_children) d. exists (child d a b). split; [by apply spine_child|]. by destruct d.
Qed.
Lemma put_put ty p : forall e x y z, spine ty e p = Some x -> put (put e p y) p z = put e p z.
Proof.
  induction p as [|d p IH]; intros e x y z; [done|]. simpl. destruct e; try done. case_bool_decide; [|done].
  intros Hx. destruct d; simpl in *; f_equal; eauto.
Qed.

Lemma gas_S N : gas (S N) = (gas N + 4 * N + 4)%nat.
Proof. unfold gas. lia. Qed.

(** A proper operand of a chain. *)
Lemma operand_smaller ty e p1 p2 x1 x2 : spine ty e p1 = Some x1 -> spine ty e p2 = Some x2 ->
  bin_of ty x1 = None -> p1 <> p2 -> (size x1 < size e)%nat.
Proof.
  intros H1 H2 Hb Hne. apply (spine_size _ _ _ _ H1). intros ->. injection H1 as ->.
  destruct p2; [done|]. destruct x1; simpl in *; try done. by case_bool_decide.
Qed.

(** A call returns, with a step of the tree. *)
Definition returns (ty : conn) (e : expr) (c : nat) (o : option (expr * nat)) : Prop :=
  exists e' c', o = Some (e', c') /\ step ty e c e' c'.

Lemma returns_bind ty e c o f : returns ty e c o ->
  (forall e1 c1, step ty e c e1 c1 -> returns ty e1 c1 (f (e1, c1))) -> returns ty e c (o ≫= f).
Proof.
  intros (e1 & c1 & -> & H1) Hf. destruct (Hf e1 c1 H1) as (e2 & c2 & H2 & Hs). exists e2, c2.
  split; [exact H2|]. by eapply step_trans.
Qed.

Definition node_at (ty : conn) (e : expr) (p : path) (s : shape) : Prop := exists x, spine ty e p = Some x /\ skel ty x = s.
Lemma node_at_step ty e c e' c' p s : step ty e c e' c' -> node_at ty e p s -> node_at ty e' p s.
Proof. intros Hst (x & Hx & <-). exact (step_spine _ _ _ _ _ _ _ Hst Hx). Qed.

Lemma node_at_bin ty e p s : node_at ty e p s -> exists x, at_path e p = Some x /\ spine ty e p = Some x /\ skel ty x = s /\
  match s with Leaf => bin_of ty x = None | Node _ _ => exists ab, bin_of ty x = Some ab end.
Proof.
  intros (x & Hx & Hs). exists x. split_and!; [by eapply spine_at|done|done|]. destruct s as [|l r].
  - by apply skel_leaf.
  - apply skel_children in Hs as (a & b & -> & _). simpl. rewrite bool_decide_true by done. eauto.
Qed.

(** Both operands found: the nested call, and the join. *)
Lemma dups1_leaf N n ty e p1 p2 x1 x2 c :
  (forall n ty e p1 p2 s1 s2 c, (size e <= N)%nat -> node_at ty e p1 s1 -> node_at ty e p2 s2 ->
    (depth s1 + depth s2 + 1 + gas N <= n)%nat -> returns ty e c (expr_eliminate_dups1 sym n ty p1 p2 e c)) ->
  (size e <= S N)%nat -> (gas (S N) <= n)%nat -> spine ty e p1 = Some x1 -> spine ty e p2 = Some x2 ->
  bin_of ty x1 = None -> bin_of ty x2 = None -> p1 <> p2 ->
  returns ty e c
    ('(e1, count) ← match x1 with
                    | Bin ty' _ _ => expr_eliminate_dups1 sym n ty' [] [] x1 c
                    | _ => Some (x1, c)
                    end;
     match expr_join sym ty e1 x2 with
     | Some tmp => Some (put (put e p1 (E_SYMBOL (unit_of ty))) p2 tmp, S count)
     | None => Some (put e p1 e1, count)
     end).
Proof.
  intros IHN HN Hg H1 H2 Hb1 Hb2 Hne. pose proof (operand_smaller _ _ _ _ _ _ H1 H2 Hb1 Hne) as Hlt.
  assert (exists x1' c', match x1 with Bin ty' _ _ => expr_eliminate_dups1 sym n ty' [] [] x1 c | _ => Some (x1, c) end
      = Some (x1', c') /\ bin_of ty x1' = None /\ step ty e c (put e p1 x1') c') as (x1' & c' & -> & Hb & Hst).
  { destruct x1 as [ty' l r| | | | |]; try (eexists _, c; split_and!; [done|done|];
      rewrite (put_same _ _ _ _ H1); apply step_refl).
    pose proof (depth_size ty' (Bin ty' l r)). rewrite gas_S in Hg.
    destruct (IHN n ty' (Bin ty' l r) [] [] (skel ty' (Bin ty' l r)) (skel ty' (Bin ty' l r)) c) as (x1' & c' & He & Hst);
      [lia|by eexists|by eexists|lia|].
    exists x1', c'. split; [done|].
    assert (bin_of ty' (Bin ty' l r) <> None) as Hb' by (simpl; by rewrite bool_decide_true).
    by destruct (step_nested ty ty' e p1 _ x1' c c' H1 Hb1 Hb' Hst) as (? & _ & ?). }
  cbn [mbind option_bind]. destruct (expr_join sym ty x1' x2) as [t|] eqn:Hj; [|by eexists _, _].
  eexists _, _. split; [done|]. eapply step_trans; [exact Hst|].
  destruct (put_put_comm ty p1 p2 e x1 x2 x1' x2 H1 H2 Hb1 Hb2 Hne) as (H2' & _ & _).
  pose proof (step_join ty (put e p1 x1') p1 p2 x1' x2 t c' (put_spine _ _ _ _ _ H1) H2' Hb Hb2 Hne) as Hsj.
  rewrite (put_put _ _ _ _ _ _ H1) in Hsj. apply Hsj. by apply expr_join_joined.
Qed.

Lemma dups1_returns N : forall n ty e p1 p2 s1 s2 c, (size e <= N)%nat ->
  node_at ty e p1 s1 -> node_at ty e p2 s2 -> (depth s1 + depth s2 + 1 + gas N <= n)%nat ->
  returns ty e c (expr_eliminate_dups1 sym n ty p1 p2 e c).
Proof.
  induction N as [|N IHN]; [intros n ty e; pose proof (size_pos e); lia|].
  induction n as [|n IHn]; [lia|]. intros ty e p1 p2 s1 s2 c HN Hp1 Hp2 Hg.
  destruct (node_at_bin _ _ _ _ Hp1) as (x1 & Ha1 & Hx1 & Hs1 & Hb1).
  destruct (node_at_bin _ _ _ _ Hp2) as (x2 & Ha2 & Hx2 & Hs2 & Hb2).
  cbn [expr_eliminate_dups1]. rewrite Ha1, Ha2. cbn [mbind option_bind].
  destruct s1 as [|l1 r1].
  - rewrite Hb1. destruct s2 as [|l2 r2].
    + rewrite Hb2. case_bool_decide as Hp; [eexists _, _; split; [done|apply step_refl]|].
      simpl in Hg. eapply dups1_leaf; eauto; lia.
    + destruct Hb2 as [ab ->]. simpl in Hg. apply returns_bind.
      * apply (IHn _ _ _ _ Leaf l2); try done; [by apply (skel_child _ _ _ _ _ Hp2 Lft)|simpl; lia].
      * intros e1 c1 Hst. apply (IHn _ _ _ _ Leaf r2); [etrans; [apply Hst|done]|by eapply node_at_step| |simpl; lia].
        eapply node_at_step; [done|]. apply (skel_child _ _ _ _ _ Hp2 Rgt).
  - destruct Hb1 as [ab ->]. simpl in Hg. apply returns_bind.
    + apply (IHn _ _ _ _ l1 s2); try done; [by apply (skel_child _ _ _ _ _ Hp1 Lft)|lia].
    + intros e1 c1 Hst. apply (IHn _ _ _ _ r1 s2); [etrans; [apply Hst|done]| |by eapply node_at_step|lia].
      eapply node_at_step; [done|]. apply (skel_child _ _ _ _ _ Hp1 Rgt).
Qed.
(** ** Common operands *)

#[local] Abbreviation split_off := (split_off sym modules).

Lemma split_off_trans_l ty e1 e1' e1'' l l' r r' : split_off ty e1 l e1' l' -> split_off ty e1' r e1'' r' ->
  split_off ty e1 (Bin ty l r) e1'' (Bin ty l' r').
Proof.
  intros (c1 & H1 & H2) (c2 & H3 & H4). exists (tri_op ty c1 c2). rewrite !val_bin, H1, H3, H2, H4. split.
  - rewrite (tri_op_comm _ c1). symmetry. apply tri_op_assoc.
  - apply tri_op_inter.
Qed.
Lemma split_off_sym ty e1 e2 e1' e2' : split_off ty e1 e2 e1' e2' -> split_off ty e2 e1 e2' e1'.
Proof. intros (c & H1 & H2). by exists c. Qed.

Lemma extract_right_sound ty e2 : forall ep e1 ep' e1' e2',
  extract_eq_right ty ep e1 e2 = (ep', e1', e2') -> split_off ty e1 e2 e1' e2'.
Proof.
  assert (Hleaf : forall ep e1 e2 ep' e1' e2', (if expr_eq e1 e2
    then (Some (match ep with Some ep => Bin ty ep e1 | None => e1 end), E_SYMBOL (unit_of ty), E_SYMBOL (unit_of ty))
    else (ep, e1, e2)) = (ep', e1', e2') -> split_off ty e1 e2 e1' e2').
  { intros ep e1 e3 ep' e1' e2'. destruct (expr_eq e1 e3) eqn:He; intros [= <- <- <-]; [|apply split_off_refl].
    eapply eliminate_leaf_sound; [done|apply (expr_eq_sound _ _ Hcons)|done]. }
  induction e2 as [ty' l IHl r IHr| | | | |]; intros ep e1 ep' e1' e2'; cbn [extract_eq_right]; try apply Hleaf.
  case_bool_decide as Hty; [|apply Hleaf]. subst ty'.
  destruct (extract_eq_right ty ep e1 l) as [[ep1 e1a] l'] eqn:Hl.
  destruct (extract_eq_right ty ep1 e1a r) as [[ep2 e1b] r'] eqn:Hr. intros [= <- <- <-].
  eapply split_off_trans_l; eauto.
Qed.

Lemma extract_sound ty e1 : forall ep e2 ep' e1' e2',
  expr_extract_eq ty ep e1 e2 = (ep', e1', e2') -> split_off ty e1 e2 e1' e2'.
Proof.
  induction e1 as [ty' l IHl r IHr| | | | |]; intros ep e2 ep' e1' e2'; cbn [expr_extract_eq]; try apply extract_right_sound.
  case_bool_decide as Hty; [|apply extract_right_sound]. subst ty'.
  destruct (expr_extract_eq ty ep l e2) as [[ep1 l'] e2a] eqn:Hl.
  destruct (expr_extract_eq ty ep1 r e2a) as [[ep2 r'] e2b] eqn:Hr. intros [= <- <- <-].
  apply split_off_sym. eapply split_off_trans_l; apply split_off_sym; eauto.
Qed.

Lemma extract_conn_sound ty e1 e2 ep e1' e2' :
  expr_extract_eq_conn ty e1 e2 = (ep, e1', e2') -> split_off ty e1 e2 e1' e2'.
Proof.
  unfold expr_extract_eq_conn. destruct (expr_extract_eq ty None e1 e2) as [[tmp a] b] eqn:He.
  apply extract_sound in He as (c & H1 & H2). intros Hr. exists c.
  destruct tmp; injection Hr as <- <- <-; by rewrite ?(eliminate_yn_val sym modules Hcons).
Qed.

(** ** The complement of an operand *)

Section TwoValued.
Context (Htwo : forall s, q s -> curr_tri (sym s) <> mod_).

Lemma two_valued e : syms e -> val e <> mod_.
Proof.
  induction e as [ty l IHl r IHr|l IHl|ty l r|s|l s|l r]; intros Hs.
  - destruct Hs as [?%IHl ?%IHr]. rewrite val_bin. by destruct ty, (val l), (val r).
  - specialize (IHl Hs). rewrite val_not. by destruct (val l).
  - rewrite val_cmp. by destruct (String.eqb _ _), ty.
  - by apply Htwo.
  - done.
  - done.
Qed.

(** The operand [x] of the chain is replaced by the absorbing constant when all
    the operands of its complement are found in [x2]. *)
Lemma step_complement ty e c p1 p2 x1 x2 t ep t' x2' :
  spine ty e p1 = Some x1 -> spine ty e p2 = Some x2 -> bin_of ty x1 = None -> (1 < size x1)%nat ->
  val t = EXPR_NOT (val x1) -> expr_extract_eq_conn ty t x2 = (ep, t', x2') -> is_symbol (unit_of ty) t' = true ->
  step ty e c (put e p1 (E_SYMBOL (zero_of ty))) (S c).
Proof.
  intros H1 H2 Hb Hsz Ht (k & Hk1 & Hk2)%extract_conn_sound ->%is_symbol_spec.
  pose proof (put_size _ _ _ _ (E_SYMBOL (zero_of ty)) H1). pose proof (put_yn_size _ _ _ _ (E_SYMBOL (zero_of ty)) H1).
  simpl size in *. split.
  - eapply put_skel; [done|]. apply skel_leaf in Hb. by rewrite Hb.
  - lia.
  - right. lia.
  - intros Hr. by eapply put_no_range.
  - intros Hs. split. { eapply put_syms; [done..|]. by destruct ty. }
    pose proof (two_valued _ (spine_syms _ _ _ _ H1 Hs)) as Hx.
    destruct (put_val _ _ _ _ H1) as [k1 Hput]. rewrite Hput, (val_zero sym modules Hcons), tri_op_zero_r.
    pose proof (spine_absorb _ _ _ _ H1) as Ha1. pose proof (spine_absorb _ _ _ _ H2) as Ha2.
    rewrite (val_unit sym modules Hcons), tri_op_unit, Ht in Hk1. subst k. rewrite Hk2 in Ha2.
    destruct ty, (val e), (val x1), (val x2'); done.
Qed.
(** Fuel suffices for calls on trees of at most [N] nodes. *)
Definition dups2_ends (N : nat) : Prop := forall n ty e p1 p2 s1 s2 c,
  (size e <= N)%nat -> no_range e -> node_at ty e p1 s1 -> node_at ty e p2 s2 ->
  (depth s1 + depth s2 + 1 + gas N <= n)%nat -> returns ty e c (expr_eliminate_dups2 sym n ty p1 p2 e c).

Lemma dups2_leaf N n ty e p1 p2 x1 s2 c : dups2_ends N ->
  (size e <= S N)%nat -> no_range e -> (gas (S N) <= n)%nat -> spine ty e p1 = Some x1 -> node_at ty e p2 s2 ->
  bin_of ty x1 = None -> p1 <> p2 ->
  returns ty e c
    (match x1 with
     | Bin ty' _ _ =>
       '(e1, count) ← expr_eliminate_dups2 sym n ty' [] [] x1 c;
       let e := put e p1 e1 in
       e2 ← at_path e p2;
       tmp1 ← expr_transform sym (E_NOT e1);
       let '(_, tmp1, _) := expr_extract_eq_conn (dual ty') tmp1 e2 in
       if is_symbol (unit_of (dual ty')) tmp1
       then Some (put e p1 (E_SYMBOL (zero_of (dual ty'))), S count)
       else Some (e, count)
     | _ => Some (e, c)
     end).
Proof.
  intros IHN HN Hr Hg H1 (x2 & H2 & Hs2) Hb Hne. pose proof (operand_smaller _ _ _ _ _ _ H1 H2 Hb Hne) as Hlt.
  destruct x1 as [ty' l r| | | | |]; try (eexists _, _; split; [done|apply step_refl]).
  assert (dual ty' = ty) as Hdual by (simpl in Hb; case_bool_decide; [done|]; by destruct ty, ty').
  rewrite Hdual. pose proof (depth_size ty' (Bin ty' l r)). rewrite gas_S in Hg.
  destruct (IHN n ty' (Bin ty' l r) [] [] (skel ty' (Bin ty' l r)) (skel ty' (Bin ty' l r)) c) as (x1' & c' & -> & Hst);
    [lia|by eapply spine_no_range|by eexists|by eexists|lia|].
  assert (bin_of ty' (Bin ty' l r) <> None) as Hb' by (simpl; by rewrite bool_decide_true).
  destruct (step_nested ty ty' e p1 _ x1' c c' H1 Hb Hb' Hst) as (Hbx & Hbx' & Hst').
  cbn [mbind option_bind]. pose proof (put_spine _ _ _ _ x1' H1) as H1'.
  destruct (step_spine _ _ _ _ _ _ _ Hst' H2) as (x2' & H2' & _). rewrite (spine_at _ _ _ _ H2'). cbn [mbind option_bind].
  assert (no_range (E_NOT x1')) as Hnr by (apply (s_range _ _ _ _ _ Hst), (spine_no_range _ _ _ _ H1 Hr)).
  rewrite (expr_transform_nnf sym modules Hcons _ Hnr). cbn [mbind option_bind].
  destruct (expr_extract_eq_conn ty _ x2') as [[ep t'] x2''] eqn:He.
  destruct (is_symbol (unit_of ty) t') eqn:Ht; [|by eexists _, _].
  eexists _, _. split; [done|]. eapply step_trans; [exact Hst'|].
  eapply step_complement; [exact H1'|exact H2'|done| | |exact He|done].
  - destruct x1' as [? a b| | | | |]; try done. pose proof (size_pos a). simpl. lia.
  - by rewrite (val_nnf sym modules Hcons _ Hnr).
Qed.

Lemma dups2_returns N : dups2_ends N.
Proof.
  induction N as [|N IHN]; [intros n ty e; pose proof (size_pos e); lia|].
  intros n. induction n as [|n IHn]; [lia|]. intros ty e p1 p2 s1 s2 c HN Hr Hp1 Hp2 Hg.
  destruct (node_at_bin _ _ _ _ Hp1) as (x1 & Ha1 & Hx1 & Hs1 & Hb1).
  destruct (node_at_bin _ _ _ _ Hp2) as (x2 & Ha2 & Hx2 & Hs2 & Hb2).
  cbn [expr_eliminate_dups2]. rewrite Ha1, Ha2. cbn [mbind option_bind].
  destruct s1 as [|l1 r1].
  - rewrite Hb1. apply returns_bind.
    + destruct s2 as [|l2 r2]; [rewrite Hb2; eexists _, _; split; [done|apply step_refl]|].
      destruct Hb2 as [ab ->]. simpl in Hg. apply returns_bind.
      * apply (IHn _ _ _ _ Leaf l2); try done; [by apply (skel_child _ _ _ _ _ Hp2 Lft)|simpl; lia].
      * intros e1 c1 Hst.
        apply (IHn _ _ _ _ Leaf r2); [etrans; [apply Hst|done]|by apply Hst|by eapply node_at_step| |simpl; lia].
        eapply node_at_step; [done|]. apply (skel_child _ _ _ _ _ Hp2 Rgt).
    + intros e1 c1 Hst. case_bool_decide as Hp; [eexists _, _; split; [done|apply step_refl]|].
      destruct (node_at_step _ _ _ _ _ _ _ Hst Hp1) as (x1' & Hx1' & Hs1').
      rewrite (spine_at _ _ _ _ Hx1'). cbn [mbind option_bind].
      eapply dups2_leaf; [exact IHN|etrans; [apply Hst|done]|by apply Hst|lia|exact Hx1'|by eapply node_at_step| |done].
      by apply skel_leaf.
  - destruct Hb1 as [ab ->]. simpl in Hg. apply returns_bind.
    + apply (IHn _ _ _ _ l1 s2); try done; [by apply (skel_child _ _ _ _ _ Hp1 Lft)|lia].
    + intros e1 c1 Hst. apply (IHn _ _ _ _ r1 s2); [etrans; [apply Hst|done]|by apply Hst| |by eapply node_at_step|lia].
      eapply node_at_step; [done|]. apply (skel_child _ _ _ _ _ Hp1 Rgt).
Qed.
End TwoValued.
End Values.


(** ** The passes *)

Section Passes.
Context (sym : symbol_ref -> symbol) (modules : tristate) (Hcons : consistent sym modules).
#[local] Abbreviation val := (val sym modules).

(** No symbol whose value is m stands for itself: every subexpression is y or n. *)
Definition not_m (s : symbol_ref) : Prop := curr_tri (sym s) <> mod_.
Definition no_m : expr -> Prop := syms not_m.

Lemma no_m_yes : not_m symbol_yes.
Proof. unfold not_m. by rewrite (c_yes _ _ Hcons). Qed.
Lemma no_m_no : not_m symbol_no.
Proof. unfold not_m. by rewrite (c_no _ _ Hcons). Qed.

Lemma root_node ty e : node_at ty e [] (skel ty e).
Proof. by exists e. Qed.

Lemma dups_fuel_enough e ty : (depth (skel ty e) + depth (skel ty e) + 1 + gas (size e) <= dups_fuel e)%nat.
Proof. pose proof (depth_size ty e). unfold dups_fuel, gas. nia. Qed.

(** What [expr_eliminate_dups] keeps. *)
Definition refines (e e' : expr) : Prop :=
  (size e' <= size e)%nat /\ (no_range e -> no_range e') /\ (no_m e -> no_m e' /\ val e' = val e).

Lemma dups_pass_spec e : no_range e -> exists e' c, dups_pass sym e = Some (e', c) /\ refines e e' /\
  ((e' = e /\ c = 0%nat) \/ ((0 < c)%nat /\ (size (expr_eliminate_yn e') < size e)%nat)).
Proof.
  intros Hr. destruct e as [ty l r| | | | |]; try (eexists _, _; split_and!; [done|by split_and!; auto|by left]).
  set (e := Bin ty l r) in *.
  assert (dups_pass sym e = ('(e1, c) ← expr_eliminate_dups1 sym (dups_fuel e) ty [] [] e 0;
    expr_eliminate_dups2 sym (dups_fuel e1) ty [] [] e1 c)) as -> by done.
  pose proof (dups_fuel_enough e ty) as Hfuel.
  destruct (dups1_returns sym modules Hcons not_m no_m_yes no_m_no (size e) (dups_fuel e) ty e [] [] _ _ 0%nat (le_n _)
    (root_node ty e) (root_node ty e) Hfuel) as (e1 & c1 & -> & Hst1).
  cbn [mbind option_bind].
  destruct (dups2_returns sym modules Hcons not_m no_m_yes no_m_no ltac:(done) (size e1) (dups_fuel e1) ty e1 [] [] _ _ c1
    (le_n _) (s_range _ _ _ _ _ _ _ _ Hst1 Hr) (root_node ty e1) (root_node ty e1) (dups_fuel_enough e1 ty)) as (e2 & c2 & -> & Hst2).
  destruct (step_trans _ _ _ _ _ _ _ _ _ _ Hst1 Hst2) as [_ A2 A3 A4 A5].
  exists e2, c2. by split_and!.
Qed.

Lemma eliminate_yn_range e : no_range e -> no_range (expr_eliminate_yn e).
Proof.
  induction e as [ty l IHl r IHr| | | | |]; try done. simpl. intros [?%IHl ?%IHr].
  unfold eliminate_yn_node. by repeat case_match.
Qed.

Lemma refines_yn e e1 e2 : refines e e1 -> refines (expr_eliminate_yn e1) e2 -> refines e e2.
Proof.
  intros (A1 & A2 & A3) (B1 & B2 & B3). pose proof (eliminate_yn_size e1). split_and!; [lia| |].
  - intros Hr. apply B2, eliminate_yn_range, A2, Hr.
  - intros Hs. destruct (A3 Hs) as [Hs1 <-]. rewrite <- (eliminate_yn_val sym modules Hcons e1).
    apply B3. by apply (eliminate_yn_syms _ no_m_yes no_m_no).
Qed.

Lemma eliminate_dups_ends n : forall e, (size e <= n)%nat -> no_range e ->
  exists e', expr_eliminate_dups_fuel sym n e = Some e' /\ refines e e' /\ dups_pass sym e' = Some (e', 0%nat).
Proof.
  induction n as [|n IH]; intros e Hn Hr; [pose proof (size_pos e); lia|]. cbn [expr_eliminate_dups_fuel].
  destruct (dups_pass_spec e Hr) as (e' & c & He & Href & [[-> ->]|[Hc Hlt]]).
  - rewrite He. cbn [mbind option_bind]. by exists e.
  - rewrite He. cbn [mbind option_bind]. destruct c as [|c]; [lia|].
    destruct (IH (expr_eliminate_yn e')) as (e'' & -> & Href' & Hp);
      [lia|by apply eliminate_yn_range, Href|]. exists e''. split_and!; [done|by eapply refines_yn|done].
Qed.

(** C21: the removal of redundant operands ends, and is right on two-valued
    expressions.  For an expression without ranges [expr_eliminate_dups]
    returns an expression that is no larger and on which it does nothing more;
    when no symbol in the expression has the value m, the value is the same. *)
Theorem expr_eliminate_dups_correct e :
  no_range e ->
  exists e', expr_eliminate_dups sym e = Some e' /\ expr_eliminate_dups sym e' = Some e' /\
    (size e' <= size e)%nat /\ no_range e' /\ (no_m e -> no_m e' /\ val e' = val e).
Proof.
  intros Hr. destruct (eliminate_dups_ends (size e) e (le_n _) Hr) as (e' & He & (Hs & Hr' & Hv) & Hp).
  exists e'. split_and!; [done| |done|auto|done].
  unfold expr_eliminate_dups. destruct (size e'); cbn [expr_eliminate_dups_fuel]; by rewrite Hp.
Qed.

(** Joining two operands keeps the value in the three-valued logic.  When
    [expr_join_or] or [expr_join_and] replaces two operands by one, the one has
    the value of their disjunction or conjunction whatever the symbols' values
    are, m included, and it is smaller than both together. *)
Theorem expr_join_correct ty e1 e2 t :
  bin_of ty e1 = None -> expr_join sym ty e1 e2 = Some t ->
  val t = tri_op ty (val e1) (val e2) /\ (size t < size e1 + size e2)%nat.
Proof.
  intros Hb Ht. destruct (expr_join_joined sym modules Hcons (fun _ => True) I I ty e1 e2 t Hb Ht) as [Hv Hs _ _ _]. done.
Qed.
(** ** Comparing an expression with a constant *)

(** Every symbol that stands for itself is boolean or tristate, or a constant. *)
Definition comparable : expr -> Prop :=
  syms (fun s => logical sym s \/ s = symbol_yes \/ s = symbol_no).
Fixpoint no_list (e : expr) : Prop :=
  match e with Bin _ l r => no_list l /\ no_list r | E_NOT l => no_list l | E_LIST _ _ | E_RANGE _ _ => False | _ => True end.

(** The value of the comparison of a value with y or n. *)
Definition compared (ty : comp) (a b : tristate) : tristate :=
  if bool_decide (a = b) then match ty with E_EQUAL => yes | E_UNEQUAL => no end
  else match ty with E_EQUAL => no | E_UNEQUAL => yes end.

Lemma comparable_cmp ty s c : not_m s -> logical sym s \/ s = symbol_yes \/ s = symbol_no ->
  c = symbol_yes \/ c = symbol_no -> val (Cmp ty s c) = compared ty (val (E_SYMBOL s)) (val (E_SYMBOL c)).
Proof.
  unfold not_m. intros Hm Hs Hc. rewrite val_cmp. assert (str sym modules s = tri_str (val (E_SYMBOL s))) as ->.
  { destruct Hs as [Hs|[-> | ->]]; [by apply str_logical| |].
    - by rewrite (str_yes sym modules Hcons), (val_yes sym modules Hcons).
    - by rewrite (str_no sym modules Hcons), (val_no sym modules Hcons). }
  destruct Hc as [-> | ->].
  - rewrite (str_yes sym modules Hcons), (val_yes sym modules Hcons). by destruct (val (E_SYMBOL s)), ty.
  - rewrite (str_no sym modules Hcons), (val_no sym modules Hcons). by destruct (val (E_SYMBOL s)), ty.
Qed.

(** [expr_trans_compare] pushes a comparison into an expression.  On a
    two-valued expression compared with y or n it returns an expression whose
    value is that of the comparison. *)
Theorem expr_trans_compare_correct e ty s :
  no_m e -> comparable e -> no_list e -> s = symbol_yes \/ s = symbol_no ->
  exists e', expr_trans_compare e ty s = Some e' /\ val e' = compared ty (val e) (val (E_SYMBOL s)).
Proof.
  revert ty. induction e as [c l IHl r IHr|l IHl|c l r|l|l s'|l r]; intros ty Hm Hcp Hnl Hs; try done.
  - destruct Hm as [Hml Hmr], Hcp as [Hcl Hcr], Hnl as [Hnl Hnr].
    destruct (IHl E_EQUAL Hml Hcl Hnl Hs) as (l' & Hl & Hvl), (IHr E_EQUAL Hmr Hcr Hnr Hs) as (r' & Hr & Hvr).
    pose proof (two_valued sym modules not_m ltac:(done) _ Hml) as Htl.
    pose proof (two_valued sym modules not_m ltac:(done) _ Hmr) as Htr.
    simpl. destruct Hs as [-> | ->]; rewrite Hl, Hr; eexists; (split; [done|]);
      rewrite ?(val_yes sym modules Hcons), ?(val_no sym modules Hcons) in *;
      destruct ty; rewrite ?val_not, !val_bin, Hvl, Hvr; by destruct c, (val l), (val r).
  - destruct (IHl (flip ty) Hm Hcp Hnl Hs) as (l' & Hl & Hvl). exists l'. split; [done|].
    pose proof (two_valued sym modules not_m ltac:(done) l Hm) as Htl.
    rewrite Hvl, val_not. destruct Hs as [-> | ->];
      rewrite ?(val_yes sym modules Hcons), ?(val_no sym modules Hcons); by destruct ty, (val l).
  - simpl. assert (val (Cmp c l r) <> mod_) by (rewrite val_cmp; by destruct (String.eqb _ _), c).
    destruct Hs as [-> | ->], ty; eexists; (split; [done|]); rewrite ?val_not, ?(val_yes sym modules Hcons), ?(val_no sym modules Hcons);
      by destruct (val (Cmp c l r)).
  - eexists. split; [done|]. by apply comparable_cmp.
Qed.
End Passes.

(** ** Examples *)

Lemma expr_eliminate_dups_correct_witness :
  exists e', expr_eliminate_dups (Demo.table yes) Demo.excluded = Some e' /\
    expr_eliminate_dups (Demo.table yes) e' = Some e' /\
    (size e' <= size Demo.excluded)%nat /\ no_range e' /\
    (no_m (Demo.table yes) Demo.excluded -> no_m (Demo.table yes) e' /\
       val (Demo.table yes) yes e' = val (Demo.table yes) yes Demo.excluded).
Proof. apply (expr_eliminate_dups_correct _ _ (Demo.table_consistent yes)). simpl. auto. Defined.

Lemma expr_join_correct_witness :
  let e1 := Cmp E_EQUAL Demo.FOO symbol_yes in
  let e2 := Cmp E_EQUAL Demo.FOO symbol_mod in
  let t := Cmp E_UNEQUAL Demo.FOO symbol_no in
  expr_join (Demo.table mod_) E_OR e1 e2 = Some t /\
  val (Demo.table mod_) yes t = tri_op E_OR (val (Demo.table mod_) yes e1) (val (Demo.table mod_) yes e2) /\
  (size t < size e1 + size e2)%nat.
Proof.
  split; [by vm_compute|]. apply (expr_join_correct _ _ (Demo.table_consistent mod_)); [done|by vm_compute].
Defined.

Lemma expr_trans_compare_correct_witness :
  exists e', expr_trans_compare Demo.excluded E_UNEQUAL symbol_yes = Some e' /\
    val (Demo.table yes) yes e' =
      compared E_UNEQUAL (val (Demo.table yes) yes Demo.excluded) (val (Demo.table yes) yes (E_SYMBOL symbol_yes)).
Proof.
  apply (expr_trans_compare_correct _ _ (Demo.table_consistent yes)); [by simpl| |simpl; auto|by left].
  unfold comparable, logical. simpl. auto.
Defined.

(** When FOO and BAR are m, the exclusion is m, and its simplification is n. *)
Example eliminate_dups_loses_m :
  val (Demo.table mod_) yes Demo.excluded = mod_ /\
  expr_eliminate_dups (Demo.table mod_) Demo.excluded = Some (E_SYMBOL symbol_no) /\
  val (Demo.table mod_) yes (E_SYMBOL symbol_no) = no.
Proof. by vm_compute. Qed.

(** FOO!=n is y when FOO is m; [expr_trans_bool], whose comment is about
    boolean symbols, turns it into FOO, which is m. *)
Example trans_bool_loses_y :
  val (Demo.table mod_) yes (Cmp E_UNEQUAL Demo.FOO symbol_no) = yes /\
  expr_trans_bool (Demo.table mod_) (Cmp E_UNEQUAL Demo.FOO symbol_no) = E_SYMBOL Demo.FOO /\
  val (Demo.table mod_) yes (E_SYMBOL Demo.FOO) = mod_.
Proof. by vm_compute. Qed.
