(* ===== verification/KSym.v ===== *)
(** * Configuration symbols: scripts/kconfig/symbol.c

    The values of symbols, computed on demand from their prompts, defaults,
    selects and the user's settings, and what the user may set.  A [struct
    symbol] is split in what the parser fixes ([sym_info]) and what the
    calculation changes ([sym_state]); the flags that matter here are booleans.
    Messages, the menu entries' own flags and the memory of strings are left
    out: two string values are the same when their characters are. *)
From Stdlib Require Import String Ascii.
From S2P Require Import Prelude Machine KExpr.
Local Open Scope seabios_scope.

(** ** Data: expr.h *)

(** [void *val]: a string, or the chosen symbol of a choice. *)
Inductive cval := VStr (s : string) | VSym (s : symbol_ref) | VNull.
#[export] Instance cval_eq_dec : EqDecision cval.
Proof. solve_decision. Defined.

Record symbol_value := SymbolValue { val : cval; tri : tristate }.
#[export] Instance symbol_value_eq_dec : EqDecision symbol_value.
Proof. solve_decision. Defined.

Inductive prop_type :=
  P_UNKNOWN | P_PROMPT | P_COMMENT | P_MENU | P_DEFAULT | P_CHOICE | P_SELECT | P_RANGE | P_ENV | P_SYMBOL.
#[export] Instance prop_type_eq_dec : EqDecision prop_type.
Proof. solve_decision. Defined.

(** [p_text]: the property has a text, which makes it a prompt. *)
Record property := Property { p_type : prop_type; p_text : bool; p_visible : option expr; p_expr : option expr }.

(** The fixed part of a symbol: with the flags SYMBOL_CONST, CHOICE, CHOICEVAL,
    AUTO. *)
Record sym_info := SymInfo {
  i_name : option string; i_type : symbol_type; i_const : bool; i_choice : bool; i_choiceval : bool; i_auto : bool;
  i_props : list property; i_dir_dep : option expr; i_rev_dep : option expr }.

(** The rest: [curr], [def[S_DEF_USER]], [visible], [dir_dep.tri], [rev_dep.tri],
    and the flags VALID, WRITE, CHANGED, DEF_USER, NEED_SET_CHOICE_VALUES. *)
Record sym_state := SymState {
  curr : symbol_value; def_user : symbol_value; visible : tristate; dir_tri : tristate; rev_tri : tristate;
  f_valid : bool; f_write : bool; f_changed : bool; f_def_user : bool; f_need : bool }.

Definition set_curr (x : symbol_value) (k : sym_state) :=
  SymState x (def_user k) (visible k) (dir_tri k) (rev_tri k) (f_valid k) (f_write k) (f_changed k) (f_def_user k) (f_need k).
Definition set_def (x : symbol_value) (k : sym_state) :=
  SymState (curr k) x (visible k) (dir_tri k) (rev_tri k) (f_valid k) (f_write k) (f_changed k) (f_def_user k) (f_need k).
Definition set_visible (x : tristate) (k : sym_state) :=
  SymState (curr k) (def_user k) x (dir_tri k) (rev_tri k) (f_valid k) (f_write k) (f_changed k) (f_def_user k) (f_need k).
Definition set_dir (x : tristate) (k : sym_state) :=
  SymState (curr k) (def_user k) (visible k) x (rev_tri k) (f_valid k) (f_write k) (f_changed k) (f_def_user k) (f_need k).
Definition set_rev (x : tristate) (k : sym_state) :=
  SymState (curr k) (def_user k) (visible k) (dir_tri k) x (f_valid k) (f_write k) (f_changed k) (f_def_user k) (f_need k).
Definition set_valid (x : bool) (k : sym_state) :=
  SymState (curr k) (def_user k) (visible k) (dir_tri k) (rev_tri k) x (f_write k) (f_changed k) (f_def_user k) (f_need k).
Definition set_write (x : bool) (k : sym_state) :=
  SymState (curr k) (def_user k) (visible k) (dir_tri k) (rev_tri k) (f_valid k) x (f_changed k) (f_def_user k) (f_need k).
Definition set_changed (x : bool) (k : sym_state) :=
  SymState (curr k) (def_user k) (visible k) (dir_tri k) (rev_tri k) (f_valid k) (f_write k) x (f_def_user k) (f_need k).
Definition set_def_user (x : bool) (k : sym_state) :=
  SymState (curr k) (def_user k) (visible k) (dir_tri k) (rev_tri k) (f_valid k) (f_write k) (f_changed k) x (f_need k).
Definition set_need (x : bool) (k : sym_state) :=
  SymState (curr k) (def_user k) (visible k) (dir_tri k) (rev_tri k) (f_valid k) (f_write k) (f_changed k) (f_def_user k) x.

Record kstate := KState { syms : symbol_ref -> sym_state; modules_val : tristate }.

Definition with_sym (s : symbol_ref) (f : sym_state -> sym_state) (k : kstate) : kstate :=
  KState (fun t => if decide (t = s) then f (syms k s) else syms k t) (modules_val k).

(** ** Strings: the C library *)

Definition is_digit (c : ascii) : bool := let n := nat_of_ascii c in (48 <=? n)%nat && (n <=? 57)%nat.
Definition digit_of (base : Z) (c : ascii) : option Z :=
  let n := Z.of_nat (nat_of_ascii c) in
  let d := if (48 <=? n) && (n <=? 57) then n - 48 else if (97 <=? n) && (n <=? 122) then n - 87
           else if (65 <=? n) && (n <=? 90) then n - 55 else base in
  if d <? base then Some d else None.
Definition is_xdigit (c : ascii) : bool := match digit_of 16 c with Some _ => true | None => false end.

Fixpoint digits (base acc : Z) (s : string) : Z :=
  match s with
  | EmptyString => acc
  | String c s' => match digit_of base c with Some d => digits base (acc * base + d) s' | None => acc end
  end.
Definition is_space (c : ascii) : bool := let n := nat_of_ascii c in (n =? 32)%nat || ((9 <=? n)%nat && (n <=? 13)%nat).
Fixpoint skip_space (s : string) : string :=
  match s with String c s' => if is_space c then skip_space s' else s | EmptyString => s end.
(** "0x" counts only when a digit follows. *)
Definition skip_0x (base : Z) (s : string) : string :=
  match s with
  | String "0" (String x (String c s')) =>
    if (base =? 16) && (Ascii.eqb x "x" || Ascii.eqb x "X") && is_xdigit c then String c s' else s
  | _ => s
  end.
Definition clamp_ll (x : Z) : Z := Z.max (- 2 ^ 63) (Z.min x (2 ^ 63 - 1)).
Definition strtoll (s : string) (base : Z) : Z :=
  match skip_space s with
  | String "-" s' => clamp_ll (- digits base 0 (skip_0x base s'))
  | String "+" s' => clamp_ll (digits base 0 (skip_0x base s'))
  | s' => clamp_ll (digits base 0 (skip_0x base s'))
  end.

Definition digit_char (d : Z) : ascii := ascii_of_nat (Z.to_nat (if d <? 10 then 48 + d else 87 + d)).
Fixpoint print_digits (fuel : nat) (base x : Z) (acc : string) : string :=
  match fuel with
  | O => acc
  | S f => let acc := String (digit_char (x mod base)) acc in if x / base =? 0 then acc else print_digits f base (x / base) acc
  end.
(** [sprintf] with "%lld" and "0x%llx" *)
Definition print_lld (x : Z) : string :=
  if x <? 0 then String "-" (print_digits 20 10 (- x) EmptyString) else print_digits 20 10 x EmptyString.
Definition print_0x (x : Z) : string := String "0" (String "x" (print_digits 16 16 (u64 x) EmptyString)).

(** ** Access *)

Abbreviation MK := (ST kstate).
Definition get_sym (s : symbol_ref) : MK sym_state := fun k => Some (syms k s, k).
Definition upd_sym (s : symbol_ref) (f : sym_state -> sym_state) : MK unit := fun k => Some (tt, with_sym s f k).
Definition get_modules : MK tristate := fun k => Some (modules_val k, k).
Definition set_modules (x : tristate) : MK unit := fun k => Some (tt, KState (syms k) x).
(** What the code cannot do: a NULL pointer is followed. *)
Definition crash {A} : MK A := fun _ => None.

Fixpoint for_each {A} (l : list A) (f : A -> MK unit) : MK unit :=
  match l with [] => ret tt | x :: l => do f x ;; for_each l f end.

(** [expr_list_for_each_sym]: the symbols of a chain of E_LIST. *)
Fixpoint list_syms_of (e : expr) : list symbol_ref :=
  match e with E_LIST l s => s :: match l with Some l => list_syms_of l | None => [] end | _ => [] end.
Definition list_syms (e : option expr) : list symbol_ref := match e with Some e => list_syms_of e | None => [] end.

(** Never asked of the list of a choice, whose [left] is not a symbol. *)
Definition prop_get_symbol (p : property) : option symbol_ref :=
  match p_expr p with Some (E_SYMBOL s) => Some s | _ => None end.

Definition string_of (v : cval) : string := match v with VStr s => s | _ => EmptyString end.

Definition empty_value := SymbolValue (VStr "") no.     (* symbol_empty.curr *)
Definition no_value := SymbolValue (VStr "n") no.       (* symbol_no.curr *)

Section Symbols.
Context (info : symbol_ref -> sym_info) (all_symbols : list symbol_ref).
Context (modules_sym : symbol_ref).        (* set by the parser *)

Definition sym_set_changed (s : symbol_ref) : MK unit := upd_sym s (set_changed true).
Definition sym_set_all_changed : MK unit := for_each all_symbols sym_set_changed.

Definition sym_get_type (s : symbol_ref) : MK symbol_type :=
  k <- get_sym s ;; m <- get_modules ;;
  ret (if bool_decide (i_type (info s) = S_TRISTATE) &&
          ((i_choiceval (info s) && bool_decide (visible k = yes)) || bool_decide (m = no))
       then S_BOOLEAN else i_type (info s)).

Definition is_logical (t : symbol_type) : bool := match t with S_BOOLEAN | S_TRISTATE => true | _ => false end.

Definition sym_get_choice_prop (s : symbol_ref) : option property :=
  find (fun p => bool_decide (p_type p = P_CHOICE)) (i_props (info s)).
Definition sym_get_env_prop (s : symbol_ref) : option property :=
  find (fun p => bool_decide (p_type p = P_ENV)) (i_props (info s)).
Definition choice_values (s : symbol_ref) : option (list symbol_ref) :=
  match sym_get_choice_prop s with Some p => Some (list_syms (p_expr p)) | None => None end.

(** [sym_set_all_choice_values] of confdata.c *)
Definition set_all_choice_values (csym : symbol_ref) : MK unit :=
  match choice_values csym with
  | None => crash
  | Some l =>
    do for_each l (fun s => k <- get_sym s ;;
         if f_def_user k then ret tt else upd_sym s (set_def (SymbolValue (val (def_user k)) no))) ;;
    do upd_sym csym (set_def_user true) ;;
    upd_sym csym (fun k => set_need false (set_valid false k))
  end.

Section Calc.
(** [sym_calc_value], for the symbols an expression has. *)
Context (calc : symbol_ref -> MK unit).

Definition sym_get_string_value (s : symbol_ref) : MK string :=
  k <- get_sym s ;;
  if is_logical (i_type (info s)) then
    match tri (curr k) with
    | no => ret "n"%string
    | mod_ =>
      do calc modules_sym ;;
      m <- get_sym modules_sym ;; ret (if bool_decide (tri (curr m) = no) then "n"%string else "m"%string)
    | yes => ret "y"%string
    end
  else ret (string_of (val (curr k))).

Fixpoint expr_calc (e : expr) : MK tristate :=
  match e with
  | E_SYMBOL s => do calc s ;; k <- get_sym s ;; ret (tri (curr k))
  | Bin c l r =>
    x <- expr_calc l ;; y <- expr_calc r ;;
    ret (match c with E_AND => EXPR_AND x y | E_OR => EXPR_OR x y end)
  | E_NOT l => x <- expr_calc l ;; ret (EXPR_NOT x)
  | Cmp c l r =>
    do calc l ;; do calc r ;;
    x <- sym_get_string_value l ;; y <- sym_get_string_value r ;;
    let same := String.eqb x y in
    ret (match c with E_EQUAL => if same then yes else no | E_UNEQUAL => if same then no else yes end)
  | _ => ret no
  end.
Definition expr_calc_opt (e : option expr) : MK tristate := match e with Some e => expr_calc e | None => ret yes end.

(** The first property of a type whose condition is not no, and its value. *)
Fixpoint first_visible (ty : prop_type) (l : list property) : MK (option (property * tristate)) :=
  match l with
  | [] => ret None
  | p :: l =>
    if bool_decide (p_type p = ty) then
      v <- expr_calc_opt (p_visible p) ;; if bool_decide (v = no) then first_visible ty l else ret (Some (p, v))
    else first_visible ty l
  end.
Definition sym_get_default_prop (s : symbol_ref) := first_visible P_DEFAULT (i_props (info s)).
Definition sym_get_range_prop (s : symbol_ref) := first_visible P_RANGE (i_props (info s)).

Definition base_of (t : symbol_type) (base : Z) : Z := match t with S_INT => 10 | S_HEX => 16 | _ => base end.

Definition sym_get_range_val (s : symbol_ref) (base : Z) : MK Z :=
  do calc s ;; k <- get_sym s ;; ret (strtoll (string_of (val (curr k))) (base_of (i_type (info s)) base)).

(** The two symbols of a range: an E_RANGE. *)
Definition range_syms (p : property) : option (symbol_ref * symbol_ref) :=
  match p_expr p with Some (E_RANGE l r) => Some (l, r) | _ => None end.

Definition set_string (s : symbol_ref) (x : string) : MK unit :=
  upd_sym s (fun k => set_curr (SymbolValue (VStr x) (tri (curr k))) k).

Definition sym_validate_range (s : symbol_ref) : MK unit :=
  let ty := i_type (info s) in
  match ty with
  | S_INT | S_HEX =>
    let base := base_of ty 0 in
    p <- sym_get_range_prop s ;;
    match p with
    | None => ret tt
    | Some (p, _) =>
      match range_syms p with
      | None => crash
      | Some (lo, hi) =>
        k <- get_sym s ;; let v := strtoll (string_of (val (curr k))) base in
        let print x := match ty with S_INT => print_lld x | _ => print_0x x end in
        v2 <- sym_get_range_val lo base ;;
        if v2 <=? v then
          v2 <- sym_get_range_val hi base ;;
          if v <=? v2 then ret tt else set_string s (print v2)
        else set_string s (print v2)
      end
    end
  | _ => ret tt
  end.

(** The disjunction of the conditions of the prompts. *)
Fixpoint prompts_visible (l : list property) (acc : tristate) : MK tristate :=
  match l with
  | [] => ret acc
  | p :: l =>
    if p_text p then v <- expr_calc_opt (p_visible p) ;; prompts_visible l (EXPR_OR acc v) else prompts_visible l acc
  end.

(** [if (sym->field != tri) { sym->field = tri; sym_set_changed(sym); }] *)
Definition change (s : symbol_ref) (field : sym_state -> tristate) (set : tristate -> sym_state -> sym_state) (x : tristate)
  : MK unit :=
  k <- get_sym s ;; if bool_decide (field k = x) then ret tt else do upd_sym s (set x) ;; sym_set_changed s.

Definition mod_to_yes (x : tristate) : tristate := match x with mod_ => yes | _ => x end.

Definition sym_calc_visibility (s : symbol_ref) : MK unit :=
  let i := info s in
  v <- prompts_visible (i_props i) no ;;
  m <- get_modules ;;
  let v := if negb (bool_decide (i_type i = S_TRISTATE)) || bool_decide (m = no) then mod_to_yes v else v in
  do change s visible set_visible v ;;
  if i_choiceval i then ret tt
  else
    v <- expr_calc_opt (i_dir_dep i) ;;
    do change s dir_tri set_dir (mod_to_yes v) ;;
    v <- match i_rev_dep i with Some e => expr_calc e | None => ret no end ;;
    ty <- sym_get_type s ;;
    change s rev_tri set_rev (if bool_decide (ty = S_BOOLEAN) then mod_to_yes v else v).

(** The default of a choice: a visible default symbol, else the first visible
    value. *)
Fixpoint first_default (l : list property) : MK (option symbol_ref) :=
  match l with
  | [] => ret None
  | p :: l =>
    if bool_decide (p_type p = P_DEFAULT) then
      v <- expr_calc_opt (p_visible p) ;;
      if bool_decide (v = no) then first_default l
      else
        match prop_get_symbol p with
        | None => crash
        | Some d => k <- get_sym d ;; if bool_decide (visible k = no) then first_default l else ret (Some d)
        end
    else first_default l
  end.
Fixpoint first_seen (l : list symbol_ref) : MK (option symbol_ref) :=
  match l with
  | [] => ret None
  | s :: l => k <- get_sym s ;; if bool_decide (visible k = no) then first_seen l else ret (Some s)
  end.
Definition sym_choice_default (s : symbol_ref) : MK (option symbol_ref) :=
  d <- first_default (i_props (info s)) ;;
  match d with
  | Some d => ret (Some d)
  | None => match choice_values s with None => crash | Some l => first_seen l end
  end.

(** The visibility of all values; whether all the visible ones have the user
    flag. *)
Fixpoint choice_visibility (l : list symbol_ref) (user : bool) : MK bool :=
  match l with
  | [] => ret user
  | s :: l =>
    do sym_calc_visibility s ;; k <- get_sym s ;;
    choice_visibility l (if bool_decide (visible k = no) then user else user && f_def_user k)
  end.

Definition sym_calc_choice (s : symbol_ref) : MK cval :=
  k <- get_sym s ;;
  match choice_values s with
  | None => crash
  | Some l =>
    user <- choice_visibility l (f_def_user k) ;;
    do upd_sym s (fun k => set_def_user (f_def_user k && user) k) ;;
    k <- get_sym s ;;
    let default_ :=
      d <- sym_choice_default s ;;
      match d with
      | Some d => ret (VSym d)
      | None => do upd_sym s (fun k => set_curr (SymbolValue (val (curr k)) no) k) ;; ret VNull
      end in
    match val (def_user k) with
    | VSym d => kd <- get_sym d ;; if bool_decide (visible kd = no) then default_ else ret (VSym d)
    | _ => default_
    end
  end.

(** [EXPR_AND(expr_calc_value(e), v)]: a macro, which may compute [e] twice. *)
Definition expr_and (e : option expr) (v : tristate) : MK tristate :=
  x <- expr_calc_opt e ;; if tri_val x <? tri_val v then expr_calc_opt e else ret v.

(** The default, or [x] when there is none. *)
Definition default_tri (s : symbol_ref) (x : tristate) : MK tristate :=
  p <- sym_get_default_prop s ;;
  match p with Some (p, v) => do upd_sym s (set_write true) ;; expr_and (p_expr p) v | None => ret x end.

(** The new value of a boolean or tristate. *)
Definition logical_value (s : symbol_ref) : MK tristate :=
  let i := info s in
  k <- get_sym s ;;
  x <- (if i_choiceval i && bool_decide (visible k = yes) then
          match sym_get_choice_prop s with
          | None => crash
          | Some p =>
            match prop_get_symbol p with
            | None => crash
            | Some c => kc <- get_sym c ;; ret (if bool_decide (val (curr kc) = VSym s) then yes else no)
            end
          end
        else
          x <- (if bool_decide (visible k = no) then
                  do (if bool_decide (rev_tri k = no) then ret tt else upd_sym s (set_write true)) ;;
                  if i_choice i then ret no else default_tri s no
                else
                  do upd_sym s (set_write true) ;;
                  if f_def_user k then ret (EXPR_AND (tri (def_user k)) (visible k))
                  else if i_choice i then ret no else default_tri s no) ;;
          k <- get_sym s ;; ret (EXPR_OR x (rev_tri k))) ;;
  ty <- sym_get_type s ;; ret (if bool_decide (ty = S_BOOLEAN) then mod_to_yes x else x).

(** The new value of a string or a number. *)
Definition string_value (s : symbol_ref) : MK cval :=
  k <- get_sym s ;;
  let from_default :=
    p <- sym_get_default_prop s ;;
    match p with
    | None => ret (VStr "")
    | Some (p, _) =>
      match prop_get_symbol p with
      | None => ret (VStr "")
      | Some d => do upd_sym s (set_write true) ;; do calc d ;; kd <- get_sym d ;; ret (val (curr kd))
      end
    end in
  if bool_decide (visible k = no) then from_default
  else
    do upd_sym s (set_write true) ;;
    if f_def_user k then ret (val (def_user k)) else from_default.

(** What changes other symbols once the value is known. *)
Definition spread (s : symbol_ref) (oldval : symbol_value) : MK unit :=
  let i := info s in
  k <- get_sym s ;;
  do (if bool_decide (oldval = curr k) then ret tt
      else
        do sym_set_changed s ;;
        if bool_decide (modules_sym = s) then
          do sym_set_all_changed ;; km <- get_sym modules_sym ;; set_modules (tri (curr km))
        else ret tt) ;;
  do (if i_choice i then
        match choice_values s with
        | None => crash
        | Some l =>
          for_each l (fun c =>
            k <- get_sym s ;; kc <- get_sym c ;;
            do (if f_write k && negb (bool_decide (visible kc = no)) then upd_sym c (set_write true) else ret tt) ;;
            if f_changed k then sym_set_changed c else ret tt)
        end
      else ret tt) ;;
  do (if i_auto i then upd_sym s (set_write false) else ret tt) ;;
  k <- get_sym s ;;
  if f_need k then set_all_choice_values s else ret tt.

Definition calc_body (s : symbol_ref) : MK unit :=
  let i := info s in
  k <- get_sym s ;;
  if f_valid k then ret tt
  else
    do (if i_choiceval i && f_need k then
          do upd_sym s (set_need false) ;;
          match sym_get_choice_prop s with
          | None => crash
          | Some p => match prop_get_symbol p with None => ret tt | Some c => calc c end
          end
        else ret tt) ;;
    do upd_sym s (set_valid true) ;;
    k <- get_sym s ;;
    let oldval := curr k in
    match i_type i with
    | S_UNKNOWN | S_OTHER =>
      upd_sym s (set_curr (SymbolValue (match i_name i with Some n => VStr n | None => VNull end) no))
    | t =>
      do (if i_choiceval i then ret tt else upd_sym s (set_write false)) ;;
      do sym_calc_visibility s ;;
      let newval := if is_logical t then no_value else empty_value in
      do upd_sym s (set_curr newval) ;;
      newval <- (if is_logical t then x <- logical_value s ;; ret (SymbolValue (val newval) x)
                 else x <- string_value s ;; ret (SymbolValue x (tri newval))) ;;
      do upd_sym s (set_curr newval) ;;
      do (if i_choice i && bool_decide (tri newval = yes) then
            v <- sym_calc_choice s ;; upd_sym s (fun k => set_curr (SymbolValue v (tri (curr k))) k)
          else ret tt) ;;
      do sym_validate_range s ;;
      spread s oldval
    end.
End Calc.

(** The depth of recursion is the fuel: each call marks one more symbol. *)
Fixpoint sym_calc_value (n : nat) (s : symbol_ref) : MK unit :=
  match n with O => crash | S n => calc_body (sym_calc_value n) s end.

(** ** The user's settings *)

Definition sym_clear_all_valid (n : nat) : MK unit :=
  do for_each all_symbols (fun s => upd_sym s (set_valid false)) ;; sym_calc_value n modules_sym.

Definition sym_tristate_within_range (s : symbol_ref) (x : tristate) : MK bool :=
  ty <- sym_get_type s ;; k <- get_sym s ;;
  ret (if bool_decide (visible k = no) then false
       else if negb (is_logical ty) then false
       else if bool_decide (ty = S_BOOLEAN) && bool_decide (x = mod_) then false
       else if tri_val (visible k) <=? tri_val (rev_tri k) then false
       else if i_choiceval (info s) && bool_decide (visible k = yes) then bool_decide (x = yes)
       else (tri_val (rev_tri k) <=? tri_val x) && (tri_val x <=? tri_val (visible k))).

Definition sym_is_changable (s : symbol_ref) : MK bool :=
  k <- get_sym s ;; ret (tri_val (rev_tri k) <? tri_val (visible k)).

(** A choice value set to y: the choice and all its visible values. *)
Definition set_choice_user (s : symbol_ref) : MK unit :=
  match sym_get_choice_prop s with
  | None => crash
  | Some p =>
    match prop_get_symbol p with
    | None => crash
    | Some c =>
      do upd_sym c (fun k => set_def_user true (set_def (SymbolValue (VSym s) (tri (def_user k))) k)) ;;
      match choice_values c with
      | None => crash
      | Some l =>
        for_each l (fun d => k <- get_sym d ;;
          if bool_decide (visible k = no) then ret tt else upd_sym d (set_def_user true))
      end
    end
  end.

(** [SYMBOL_DEF_USER] is set, with a mark that the symbol has changed. *)
Definition mark_user (s : symbol_ref) : MK unit :=
  k <- get_sym s ;; if f_def_user k then ret tt else do upd_sym s (set_def_user true) ;; sym_set_changed s.

Definition sym_set_tristate_value (n : nat) (s : symbol_ref) (x : tristate) : MK bool :=
  k <- get_sym s ;;
  let oldval := tri (curr k) in
  ok <- (if bool_decide (oldval = x) then ret true else sym_tristate_within_range s x) ;;
  if negb ok then ret false
  else
    do mark_user s ;;
    do (if i_choiceval (info s) && bool_decide (x = yes) then set_choice_user s else ret tt) ;;
    do upd_sym s (fun k => set_def (SymbolValue (val (def_user k)) x) k) ;;
    do (if bool_decide (oldval = x) then ret tt else sym_clear_all_valid n) ;;
    ret true.

Definition next_tri (x : tristate) : tristate := match x with no => mod_ | mod_ => yes | yes => no end.
(** The value comes round to the old one in three steps. *)
Fixpoint toggle_loop (steps n : nat) (s : symbol_ref) (oldval newval : tristate) : MK tristate :=
  match steps with
  | O => crash
  | S k =>
    let newval := next_tri newval in
    ok <- sym_set_tristate_value n s newval ;;
    if ok : bool then ret newval
    else if bool_decide (oldval = newval) then ret newval else toggle_loop k n s oldval newval
  end.
Definition sym_toggle_tristate_value (n : nat) (s : symbol_ref) : MK tristate :=
  k <- get_sym s ;; toggle_loop 3 n s (tri (curr k)) (tri (curr k)).

Fixpoint all_chars (f : ascii -> bool) (s : string) : bool :=
  match s with EmptyString => true | String c s => f c && all_chars f s end.
Definition tristate_of_char (s : string) : option tristate :=
  match s with
  | String "y" _ | String "Y" _ => Some yes
  | String "m" _ | String "M" _ => Some mod_
  | String "n" _ | String "N" _ => Some no
  | _ => None
  end.

Definition int_valid (s : string) : bool :=
  let s := match s with String "-" s => s | _ => s end in
  match s with
  | EmptyString => false
  | String c s => is_digit c && (negb (Ascii.eqb c "0") || String.eqb s EmptyString) && all_chars is_digit s
  end.
Definition hex_valid (s : string) : bool :=
  let s := match s with String "0" (String "x" s) | String "0" (String "X" s) => s | _ => s end in
  match s with EmptyString => false | _ => all_chars is_xdigit s end.

Definition sym_string_valid (s : symbol_ref) (str : string) : bool :=
  match i_type (info s) with
  | S_STRING => true
  | S_INT => int_valid str
  | S_HEX => hex_valid str
  | S_BOOLEAN | S_TRISTATE => match tristate_of_char str with Some _ => true | None => false end
  | _ => false
  end.

Definition number_within_range (n : nat) (s : symbol_ref) (str : string) (base : Z) : MK bool :=
  if negb (sym_string_valid s str) then ret false
  else
    p <- sym_get_range_prop (sym_calc_value n) s ;;
    match p with
    | None => ret true
    | Some (p, _) =>
      match range_syms p with
      | None => crash
      | Some (lo, hi) =>
        let v := strtoll str base in
        x <- sym_get_range_val (sym_calc_value n) lo base ;;
        if x <=? v then y <- sym_get_range_val (sym_calc_value n) hi base ;; ret (v <=? y) else ret false
      end
    end.

Definition sym_string_within_range (n : nat) (s : symbol_ref) (str : string) : MK bool :=
  match i_type (info s) with
  | S_STRING => ret (sym_string_valid s str)
  | S_INT => number_within_range n s str 10
  | S_HEX => number_within_range n s str 16
  | S_BOOLEAN | S_TRISTATE =>
    match tristate_of_char str with Some x => sym_tristate_within_range s x | None => ret false end
  | _ => ret false
  end.

(** Whether a string starts with 0x or 0X. *)
Definition has_0x (s : string) : bool :=
  match s with String "0" (String c _) => Ascii.eqb c "x" || Ascii.eqb c "X" | _ => false end.

Definition sym_set_string_value (n : nat) (s : symbol_ref) (newval : string) : MK bool :=
  if is_logical (i_type (info s)) then
    match tristate_of_char newval with Some x => sym_set_tristate_value n s x | None => ret false end
  else
    ok <- sym_string_within_range n s newval ;;
    if negb ok then ret false
    else
      do mark_user s ;;
      k <- get_sym s ;;
      let oldval := val (def_user k) in
      let set x := do upd_sym s (fun k => set_def (SymbolValue (VStr x) (tri (def_user k))) k) ;; do sym_clear_all_valid n ;; ret true in
      if bool_decide (i_type (info s) = S_HEX) && negb (has_0x newval) then set (String "0" (String "x" newval))
      else if bool_decide (oldval = VStr newval) then ret true
      else set newval.

Definition sym_get_string_default (n : nat) (s : symbol_ref) : MK string :=
  let i := info s in
  let calc := sym_calc_value n in
  do sym_calc_visibility calc s ;; do calc modules_sym ;;
  p <- sym_get_default_prop calc s ;;
  r <- match p with
       | None => ret (no, EmptyString)
       | Some (p, v) =>
         if is_logical (i_type i) then x <- expr_and calc (p_expr p) v ;; ret (x, EmptyString)
         else
           match prop_get_symbol p with
           | None => ret (no, EmptyString)
           | Some d => do calc d ;; k <- get_sym d ;; ret (no, string_of (val (curr k)))
           end
       end ;;
  let '(x, str) := r in
  k <- get_sym s ;; km <- get_sym modules_sym ;;
  let x := EXPR_OR x (rev_tri k) in
  let x := if negb (i_choiceval i) && bool_decide (tri (curr km) = no) then mod_to_yes x else x in
  let x := if bool_decide (i_type i = S_BOOLEAN) then mod_to_yes x else x in
  ret (match i_type i with
       | S_BOOLEAN | S_TRISTATE => match x with no => "n" | mod_ => "m" | yes => "y" end
       | S_INT | S_HEX | S_STRING => str
       | _ => ""
       end)%string.
End Symbols.
