(* ===== verification/KSymInv.v ===== *)
(** * Every calculation of [KSym] ends, and booleans are never m

    Whatever the configuration, circular dependencies and choices included.  A
    call of [sym_calc_value] that does anything marks a symbol as valid; only the
    first calculation of a choice takes such a mark back, and then drops the flag
    NEED_SET_CHOICE_VALUES for it.  [measure] counts both. *)
From Stdlib Require Import String Ascii.
From S2P Require Import Prelude Machine KExpr KSym.
Local Open Scope seabios_scope.

Section Inv.
Context (info : symbol_ref -> sym_info) (all_symbols : list symbol_ref) (modules_sym : symbol_ref).

Definition weight (k : sym_state) : nat := (if f_valid k then 0 else 1) + (if f_need k then 2 else 0).
Definition measure (k : kstate) : nat := list_sum (map (fun s => weight (syms k s)) all_symbols).

(** A boolean has no value m, and the value is what the type says. *)
Definition typed_state (s : symbol_ref) (k : sym_state) : Prop := i_type (info s) = S_BOOLEAN -> tri (curr k) <> mod_.

(** Symbols outside the table are constants; the flag is only on choices and
    their values. *)
Record inv (k : kstate) : Prop := {
  inv_const : forall s, ~ In s all_symbols -> weight (syms k s) = O;
  inv_need : forall s, f_need (syms k s) = true -> choice_values info s <> None;
  inv_typed : forall s, typed_state s (syms k s) }.

(** What the parser guarantees of the properties the code follows pointers
    through. *)
Record config_ok : Prop := {
  cfg_choiceval : forall s, i_choiceval (info s) = true ->
    exists p c, sym_get_choice_prop info s = Some p /\ prop_get_symbol p = Some c /\ choice_values info c <> None;
  cfg_choice : forall s, i_choice (info s) = true -> choice_values info s <> None;
  cfg_default : forall s p, i_choice (info s) = true -> In p (i_props (info s)) -> p_type p = P_DEFAULT ->
    prop_get_symbol p <> None;
  cfg_range : forall s p, In p (i_props (info s)) -> p_type p = P_RANGE -> range_syms p <> None }.
Context (Hcfg : config_ok).

(** [c] ends when fuel for [n] is enough, and keeps the invariant. *)
Definition safe {A} (n : nat) (Q : A -> Prop) (c : MK A) : Prop :=
  forall k, inv k -> (measure k < n)%nat ->
  exists x k', c k = Some (x, k') /\ inv k' /\ (measure k' <= measure k)%nat /\ Q x.

Lemma safe_ret {A} n (Q : A -> Prop) x : Q x -> safe n Q (ret x).
Proof. intros HQ k Hk Hm. by exists x, k. Qed.

Lemma ksafe_bind {A B} n (Q : A -> Prop) (R : B -> Prop) c f :
  safe n Q c -> (forall x, Q x -> safe n R (f x)) -> safe n R (bind c f).
Proof.
  intros Hc Hf k Hk Hm. destruct (Hc k Hk Hm) as (x & k1 & E1 & Hk1 & Hm1 & HQ).
  destruct (Hf x HQ k1 Hk1 ltac:(lia)) as (y & k2 & E2 & Hk2 & Hm2 & HR).
  exists y, k2. rewrite (bind_some _ _ _ _ _ E1). split_and!; [done|done|lia|done].
Qed.

Lemma ksafe_mono {A} n (Q R : A -> Prop) c : safe n Q c -> (forall x, Q x -> R x) -> safe n R c.
Proof. intros Hc HQ k Hk Hm. destruct (Hc k Hk Hm) as (x & k1 & ? & ? & ? & ?). exists x, k1. auto. Qed.

Abbreviation always := (fun _ => True).
Lemma safe_seq {A B} n (R : B -> Prop) (c : MK A) f : safe n always c -> safe n R f -> safe n R (do c ;; f).
Proof. intros Hc Hf. eapply ksafe_bind; [exact Hc|]. intros _ _. exact Hf. Qed.

Lemma safe_get_sym n s : safe n (fun k => typed_state s k /\ (f_need k = true -> choice_values info s <> None)) (get_sym s).
Proof. intros k Hk Hm. exists (syms k s), k. split_and!; [done|done|done|by apply Hk|by apply Hk]. Qed.
Lemma safe_get_modules n : safe n always get_modules.
Proof. intros k Hk Hm. by exists (modules_val k), k. Qed.
Lemma safe_set_modules n x : safe n always (set_modules x).
Proof. intros k Hk Hm. exists tt, (KState (syms k) x). split_and!; try done. by destruct Hk. Qed.

Lemma syms_with s f k t : syms (with_sym s f k) t = if decide (t = s) then f (syms k s) else syms k t.
Proof. done. Qed.

Lemma measure_with_le l s f k : (weight (f (syms k s)) <= weight (syms k s))%nat ->
  (list_sum (map (fun t => weight (syms (with_sym s f k) t)) l) <= list_sum (map (fun t => weight (syms k t)) l))%nat.
Proof.
  intros Hw. induction l as [|t l IH]; [done|]. cbn [map list_sum foldr]. fold (list_sum (map (fun t => weight (syms k t)) l)).
  fold (list_sum (map (fun t => weight (syms (with_sym s f k) t)) l)). rewrite (syms_with s f k t).
  destruct (decide (t = s)) as [->|]; lia.
Qed.
Lemma measure_with_lt l s f k d : In s l -> (weight (f (syms k s)) + d <= weight (syms k s))%nat ->
  (list_sum (map (fun t => weight (syms (with_sym s f k) t)) l) + d <= list_sum (map (fun t => weight (syms k t)) l))%nat.
Proof.
  intros Hin Hw. induction l as [|t l IH]; [done|]. cbn [map list_sum foldr].
  fold (list_sum (map (fun t => weight (syms k t)) l)). fold (list_sum (map (fun t => weight (syms (with_sym s f k) t)) l)).
  rewrite (syms_with s f k t). pose proof (measure_with_le l s f k ltac:(lia)).
  destruct (decide (t = s)) as [->|]; [lia|]. destruct Hin as [->|Hin]; [done|]. specialize (IH Hin). lia.
Qed.

(** An update that does not add to the measure. *)
Lemma inv_with s f k : inv k -> (weight (f (syms k s)) <= weight (syms k s))%nat ->
  (f_need (f (syms k s)) = true -> f_need (syms k s) = true) -> typed_state s (f (syms k s)) -> inv (with_sym s f k).
Proof.
  intros [Hc Hn Ht] Hw Hnd Hty. constructor; intros t; rewrite syms_with; destruct (decide (t = s)) as [->|]; auto.
  intros Hin. specialize (Hc s Hin). lia.
Qed.
Lemma safe_upd n s f : (forall k, typed_state s k -> (f_need k = true -> choice_values info s <> None) ->
    (weight (f k) <= weight k)%nat /\ (f_need (f k) = true -> f_need k = true) /\ typed_state s (f k)) ->
  safe n always (upd_sym s f).
Proof.
  intros Hf k Hk Hm. destruct (Hf (syms k s)) as (Hw & Hn & Ht); [by apply Hk|by apply Hk|].
  exists tt, (with_sym s f k). split_and!; [done|by apply inv_with|by apply measure_with_le|done].
Qed.
(** The common case: neither flag and not the value. *)
Lemma safe_upd_other n s f : (forall k, f_valid (f k) = f_valid k /\ f_need (f k) = f_need k /\ curr (f k) = curr k) ->
  safe n always (upd_sym s f).
Proof.
  intros Hf. apply safe_upd. intros k Ht Hn. destruct (Hf k) as (E1 & E2 & E3). unfold weight, typed_state in *.
  by rewrite E1, E2, E3.
Qed.
Lemma safe_for_each {A} n (l : list A) f : (forall x, In x l -> safe n always (f x)) -> safe n always (for_each l f).
Proof.
  induction l as [|x l IH]; intros Hf; cbn [for_each]; [by apply safe_ret|].
  apply safe_seq; [apply Hf; by left|]. apply IH. intros y Hy. apply Hf. by right.
Qed.

(** Steps through a body. *)
Create HintDb ksafe.
Hint Resolve safe_get_modules safe_set_modules : ksafe.
Ltac kstep :=
  match goal with
  | |- safe _ _ (bind (get_sym _) _) => eapply ksafe_bind; [apply safe_get_sym|intros ? [? ?]]
  | |- safe _ _ (bind (upd_sym _ _) _) => apply safe_seq; [apply safe_upd_other; by intros []|]
  | |- safe _ _ (bind (bind _ _) _) => eapply (ksafe_bind _ always); [|intros ? _]
  | |- safe _ _ (bind (ret _) _) => eapply (ksafe_bind _ always); [by apply safe_ret|intros ? _]
  | |- safe _ _ (bind (if _ then _ else _) _) => eapply (ksafe_bind _ always); [|intros ? _]
  | |- safe _ _ (bind (match _ with _ => _ end) _) => eapply (ksafe_bind _ always); [|intros ? _]
  | |- safe _ _ (bind _ _) => eapply ksafe_bind; [solve [eauto 2 with ksafe]|intros ? ?]
  | |- safe _ _ (upd_sym _ _) => apply safe_upd_other; by intros []
  | |- safe _ _ (ret _) => apply safe_ret; try exact I
  | |- safe _ _ (for_each _ _) => apply safe_for_each; intros ? ?
  | |- safe _ _ (if ?b then _ else _) => destruct b eqn:?
  | |- safe _ _ (match ?x with _ => _ end) => destruct x eqn:?
  | |- safe _ _ (let _ := _ in _) => cbv zeta
  | |- safe _ _ _ => solve [eauto 2 with ksafe]
  end.

Lemma safe_changed n s : safe n always (sym_set_changed s).
Proof. unfold sym_set_changed. kstep. Qed.
Lemma safe_all_changed n : safe n always (sym_set_all_changed all_symbols).
Proof. apply safe_for_each. intros s _. apply safe_changed. Qed.
Lemma safe_get_type n s : safe n (fun t => i_type (info s) = S_BOOLEAN -> t = S_BOOLEAN) (sym_get_type info s).
Proof. unfold sym_get_type. repeat kstep. intros ->. by destruct (_ && _). Qed.
Hint Resolve safe_changed safe_all_changed safe_get_type : ksafe.

Lemma safe_change n s field set x :
  (forall y k, f_valid (set y k) = f_valid k /\ f_need (set y k) = f_need k /\ curr (set y k) = curr k) ->
  safe n always (change s field set x).
Proof.
  intros Hs. unfold change. do 2 kstep; [kstep|]. apply safe_seq; [by apply safe_upd_other|apply safe_changed].
Qed.

(** The first calculation of a choice: the flag goes, and the mark with it. *)
Definition same_flags (k k' : kstate) : Prop := forall t, f_valid (syms k' t) = f_valid (syms k t) /\
  f_need (syms k' t) = f_need (syms k t) /\ curr (syms k' t) = curr (syms k t).

Lemma same_flags_refl k : same_flags k k.
Proof. by intros t. Qed.
Lemma same_flags_trans k1 k2 k3 : same_flags k1 k2 -> same_flags k2 k3 -> same_flags k1 k3.
Proof. intros H1 H2 t. destruct (H1 t) as (E1 & E2 & E3), (H2 t) as (F1 & F2 & F3). by rewrite F1, F2, F3. Qed.
Lemma same_flags_with s f k : (forall x, f_valid (f x) = f_valid x /\ f_need (f x) = f_need x /\ curr (f x) = curr x) ->
  same_flags k (with_sym s f k).
Proof. intros Hf t. rewrite syms_with. by destruct (decide (t = s)) as [->|]. Qed.
Lemma same_flags_inv k k' : same_flags k k' -> inv k -> inv k' /\ measure k' = measure k.
Proof.
  intros Hs [Hc Hn Ht]. assert (Hw : forall t, weight (syms k' t) = weight (syms k t)).
  { intros t. unfold weight. by destruct (Hs t) as (-> & -> & _). }
  split; [constructor|].
  - intros s Hin. rewrite Hw. auto.
  - intros s. destruct (Hs s) as (_ & -> & _). auto.
  - intros s. unfold typed_state in *. destruct (Hs s) as (_ & _ & ->). auto.
  - unfold measure. f_equal. by apply map_ext.
Qed.

Lemma set_defs_run l : forall k, exists k',
  for_each l (fun s => x <- get_sym s ;;
    if f_def_user x then ret tt else upd_sym s (set_def (SymbolValue (val (def_user x)) no))) k = Some (tt, k') /\
  same_flags k k'.
Proof.
  induction l as [|s l IH]; intros k; [exists k; split; [done|apply same_flags_refl]|].
  cbn [for_each]. unfold get_sym, upd_sym in *. unfold bind at 1 2. destruct (f_def_user (syms k s)).
  - unfold ret at 1. apply IH.
  - destruct (IH (with_sym s (set_def (SymbolValue (val (def_user (syms k s))) no)) k)) as (k' & -> & Hs).
    exists k'. split; [done|]. eapply same_flags_trans; [|exact Hs]. by apply same_flags_with.
Qed.

Lemma safe_reset n s : safe n always (x <- get_sym s ;; if f_need x then set_all_choice_values info s else ret tt).
Proof.
  intros k Hk Hm. erewrite bind_some by reflexivity. destruct (f_need (syms k s)) eqn:Hn; [|by exists tt, k].
  pose proof (inv_need k Hk s Hn) as Hch. unfold set_all_choice_values.
  destruct (choice_values info s) as [l|] eqn:El; [|done].
  destruct (set_defs_run l k) as (k1 & E1 & Hs). erewrite bind_some by exact E1.
  destruct (same_flags_inv _ _ Hs Hk) as [Hk1 Hm1]. erewrite bind_some by reflexivity.
  set (k2 := with_sym s (set_def_user true) k1).
  assert (Hs2 : same_flags k1 k2) by (by apply same_flags_with).
  destruct (same_flags_inv _ _ Hs2 Hk1) as [Hk2 Hm2].
  assert (Hn2 : f_need (syms k2 s) = true) by (destruct (Hs2 s) as (_ & -> & _); destruct (Hs s) as (_ & -> & _); exact Hn).
  set (f := fun x => set_need false (set_valid false x)).
  assert (Hw : (weight (f (syms k2 s)) <= weight (syms k2 s))%nat).
  { unfold weight. rewrite Hn2. cbn. destruct (f_valid (syms k2 s)); lia. }
  exists tt, (with_sym s f k2). split_and!; [done| | |done].
  - apply inv_with; [done|done|intros _; exact Hn2|]. exact (inv_typed k2 Hk2 s).
  - unfold measure in *. pose proof (measure_with_le all_symbols s f k2 Hw). lia.
Qed.

Section Calc.
Context (n : nat) (calc : symbol_ref -> MK unit) (Hcalc : forall s, safe n always (calc s)).
Hint Resolve Hcalc : ksafe.

Lemma safe_string_value s : safe n always (sym_get_string_value info modules_sym calc s).
Proof. unfold sym_get_string_value. repeat kstep. Qed.
Hint Resolve safe_string_value : ksafe.
Lemma safe_expr e : safe n always (expr_calc info modules_sym calc e).
Proof. induction e; cbn [expr_calc]; repeat kstep. Qed.
Hint Resolve safe_expr : ksafe.
Lemma safe_expr_opt e : safe n always (expr_calc_opt info modules_sym calc e).
Proof. unfold expr_calc_opt. repeat kstep. Qed.
Hint Resolve safe_expr_opt : ksafe.

Lemma safe_first_visible ty l :
  safe n (fun r => match r with Some (p, _) => In p l /\ p_type p = ty | None => True end)
    (first_visible info modules_sym calc ty l).
Proof.
  induction l as [|p l IH]; cbn [first_visible]; [by apply safe_ret|].
  assert (IH' : safe n (fun r => match r with Some (q, _) => In q (p :: l) /\ p_type q = ty | None => True end)
    (first_visible info modules_sym calc ty l)).
  { eapply ksafe_mono; [exact IH|]. intros [[q v]|]; [|done]. intros [Hq E]. split; [by right|done]. }
  destruct (bool_decide (p_type p = ty)) eqn:E; [|exact IH'].
  eapply ksafe_bind; [apply safe_expr_opt|]. intros v _. destruct (bool_decide (v = no)); [exact IH'|].
  apply safe_ret. apply bool_decide_eq_true in E. split; [by left|done].
Qed.
Lemma safe_default_prop s : safe n always (sym_get_default_prop info modules_sym calc s).
Proof. eapply ksafe_mono; [apply safe_first_visible|done]. Qed.
Hint Resolve safe_default_prop : ksafe.

Lemma safe_range_val s base : safe n always (sym_get_range_val info calc s base).
Proof. unfold sym_get_range_val. repeat kstep. Qed.
Hint Resolve safe_range_val : ksafe.

Lemma safe_range_prop s :
  safe n (fun r => match r with Some (p, _) => range_syms p <> None | None => True end) (sym_get_range_prop info modules_sym calc s).
Proof.
  eapply ksafe_mono; [apply safe_first_visible|]. intros [[p v]|]; [|done]. intros [Hp E]. by apply (cfg_range Hcfg s).
Qed.

Lemma safe_set_string s x : safe n always (set_string s x).
Proof. apply safe_upd. intros k Ht Hn. unfold typed_state, weight in *. cbn. split_and!; [lia|done|done]. Qed.
Hint Resolve safe_set_string : ksafe.

Lemma safe_validate s : safe n always (sym_validate_range info modules_sym calc s).
Proof.
  unfold sym_validate_range. destruct (i_type (info s)); try by apply safe_ret.
  all: eapply ksafe_bind; [apply safe_range_prop|]; intros [[p v]|] Hp; [|by apply safe_ret].
  all: destruct (range_syms p) as [[lo hi]|]; [|done]; repeat kstep.
Qed.
Hint Resolve safe_validate : ksafe.

Lemma safe_prompts l : forall acc, safe n always (prompts_visible info modules_sym calc l acc).
Proof. induction l as [|p l IH]; intros acc; cbn [prompts_visible]; repeat kstep; apply IH. Qed.
Hint Resolve safe_prompts : ksafe.

Lemma safe_visibility s : safe n always (sym_calc_visibility info modules_sym calc s).
Proof.
  assert (H1 : forall x, safe n always (change s visible set_visible x)) by (intros x; apply safe_change; intros y k; destruct k; repeat split).
  assert (H2 : forall x, safe n always (change s dir_tri set_dir x)) by (intros x; apply safe_change; intros y k; destruct k; repeat split).
  assert (H3 : forall x, safe n always (change s rev_tri set_rev x)) by (intros x; apply safe_change; intros y k; destruct k; repeat split).
  unfold sym_calc_visibility. repeat kstep.
Qed.
Hint Resolve safe_visibility : ksafe.

Lemma safe_choice_default s : i_choice (info s) = true -> safe n always (sym_choice_default info modules_sym calc s).
Proof.
  intros Hc. unfold sym_choice_default. eapply (ksafe_bind _ always).
  - assert (Hd : forall p, In p (i_props (info s)) -> p_type p = P_DEFAULT -> prop_get_symbol p <> None)
      by (intros p; by apply (cfg_default Hcfg)).
    induction (i_props (info s)) as [|p l IH]; cbn [first_default]; [by apply safe_ret|].
    assert (IH' := IH (fun q Hq => Hd q (or_intror Hq))). clear IH.
    destruct (bool_decide (p_type p = P_DEFAULT)) eqn:E; [|exact IH'].
    apply bool_decide_eq_true in E. pose proof (Hd p (or_introl eq_refl) E) as Hp.
    eapply ksafe_bind; [apply safe_expr_opt|]. intros v _. destruct (bool_decide (v = no)); [exact IH'|].
    destruct (prop_get_symbol p); [|done]. repeat kstep.
  - intros [d|] _; [by apply safe_ret|]. pose proof (cfg_choice Hcfg s Hc). destruct (choice_values info s) as [l|]; [|done].
    induction l as [|t l IH]; cbn [first_seen]; [by apply safe_ret|]. repeat kstep.
Qed.

Lemma safe_choice s : i_choice (info s) = true -> safe n always (sym_calc_choice info modules_sym calc s).
Proof.
  intros Hc. unfold sym_calc_choice. kstep. pose proof (cfg_choice Hcfg s Hc).
  destruct (choice_values info s) as [l|]; [|done]. eapply (ksafe_bind _ always).
  { generalize (f_def_user x). induction l as [|t l IH]; intros user; cbn [choice_visibility]; [by apply safe_ret|].
    do 2 kstep. by apply IH. }
  intros user _. kstep. kstep. cbv zeta.
  match goal with |- context [bind (sym_choice_default _ _ _ _) ?f] => set (default_ := bind _ f) end.
  assert (Hd : safe n always default_).
  { subst default_. eapply ksafe_bind; [by apply safe_choice_default|]. intros [d|] _; [by apply safe_ret|].
    eapply (ksafe_bind _ always); [|intros _ _; by apply safe_ret]. apply safe_upd. intros k Ht Hn. unfold typed_state, weight in *.
    cbn. split_and!; [lia|done|done]. }
  clearbody default_. repeat kstep; exact Hd.
Qed.
Hint Resolve safe_choice : ksafe.

Lemma safe_expr_and e v : safe n always (expr_and info modules_sym calc e v).
Proof. unfold expr_and. repeat kstep. Qed.
Hint Resolve safe_expr_and : ksafe.
Lemma safe_default_tri s x : safe n always (default_tri info modules_sym calc s x).
Proof. unfold default_tri. repeat kstep. Qed.
Hint Resolve safe_default_tri : ksafe.

Lemma safe_logical s : safe n (fun x => i_type (info s) = S_BOOLEAN -> x <> mod_) (logical_value info modules_sym calc s).
Proof.
  unfold logical_value. kstep. eapply (ksafe_bind _ always).
  - destruct (i_choiceval (info s)) eqn:Hcv; cbn [andb]; repeat kstep; exfalso.
    all: destruct (cfg_choiceval Hcfg s Hcv) as (q & c & E1 & E2 & _); congruence.
  - intros y _. eapply ksafe_bind; [apply safe_get_type|]. intros ty Hty. apply safe_ret. intros E.
    rewrite (Hty E). rewrite bool_decide_eq_true_2 by done. by destruct y.
Qed.

Lemma safe_string s : safe n always (string_value info modules_sym calc s).
Proof. unfold string_value. repeat kstep. Qed.
Hint Resolve safe_string : ksafe.

Lemma safe_spread s oldval : safe n always (spread info all_symbols modules_sym s oldval).
Proof.
  unfold spread. kstep. apply safe_seq; [repeat kstep|]. apply safe_seq.
  { destruct (i_choice (info s)) eqn:Hc; [|by apply safe_ret]. pose proof (cfg_choice Hcfg s Hc).
    destruct (choice_values info s); [|done]. repeat kstep. }
  apply safe_seq; [repeat kstep|]. apply safe_reset.
Qed.

(** After the mark is set. *)
Definition calc_marked (s : symbol_ref) : MK unit :=
  let i := info s in
  k <- get_sym s ;;
  let oldval := curr k in
  match i_type i with
  | S_UNKNOWN | S_OTHER =>
    upd_sym s (set_curr (SymbolValue (match i_name i with Some n => VStr n | None => VNull end) no))
  | t =>
    do (if i_choiceval i then ret tt else upd_sym s (set_write false)) ;;
    do sym_calc_visibility info modules_sym calc s ;;
    let newval := if is_logical t then no_value else empty_value in
    do upd_sym s (set_curr newval) ;;
    newval <- (if is_logical t then x <- logical_value info modules_sym calc s ;; ret (SymbolValue (val newval) x)
               else x <- string_value info modules_sym calc s ;; ret (SymbolValue x (tri newval))) ;;
    do upd_sym s (set_curr newval) ;;
    do (if i_choice i && bool_decide (tri newval = yes) then
          v <- sym_calc_choice info modules_sym calc s ;; upd_sym s (fun k => set_curr (SymbolValue v (tri (curr k))) k)
        else ret tt) ;;
    do sym_validate_range info modules_sym calc s ;;
    spread info all_symbols modules_sym s oldval
  end.

Lemma safe_set_curr s x : (i_type (info s) = S_BOOLEAN -> tri x <> mod_) -> safe n always (upd_sym s (set_curr x)).
Proof. intros Hx. apply safe_upd. intros k Ht Hn. unfold typed_state, weight in *. cbn. split_and!; [lia|done|done]. Qed.

Lemma safe_marked s : safe n always (calc_marked s).
Proof.
  unfold calc_marked. kstep. cbv zeta.
  destruct (i_type (info s)) eqn:Et; try (apply safe_set_curr; by rewrite Et).
  all: apply safe_seq; [repeat kstep|]; apply safe_seq; [apply safe_visibility|]; cbn [is_logical].
  all: apply safe_seq; [by apply safe_set_curr|].
  all: eapply (ksafe_bind _ (fun v => i_type (info s) = S_BOOLEAN -> tri v <> mod_));
    [(eapply ksafe_bind; [apply safe_logical|intros v Hv; by apply safe_ret]) ||
     (eapply ksafe_bind; [apply safe_string|intros v _; by apply safe_ret])|intros v Hv].
  all: apply safe_seq; [by apply safe_set_curr|].
  all: apply safe_seq; [|apply safe_seq; [apply safe_validate|apply safe_spread]].
  all: destruct (i_choice (info s)) eqn:Hc; cbn [andb]; [|by apply safe_ret]; destruct (bool_decide _); [|by apply safe_ret].
  all: eapply ksafe_bind; [by apply safe_choice|]; intros y _; apply safe_upd; intros k' Ht' Hn'; unfold typed_state, weight in *;
    cbn; split_and!; [lia|done|done].
Qed.

Lemma not_valid_in s k : inv k -> f_valid (syms k s) = false -> In s all_symbols.
Proof.
  intros Hk Hv. destruct (in_dec (fun x y => decide (x = y)) s all_symbols) as [|Hn]; [done|].
  pose proof (inv_const k Hk s Hn) as Hw. unfold weight in Hw. rewrite Hv in Hw. lia.
Qed.

Lemma weight_mark x : f_valid x = false -> (weight (set_valid true x) + 1 <= weight x)%nat.
Proof. intros Hv. unfold weight. rewrite Hv. cbn. destruct (f_need x); lia. Qed.
Lemma weight_need x : f_need x = true -> (weight (set_need false x) + 2 <= weight x)%nat.
Proof. intros Hn. unfold weight. rewrite Hn. cbn. destruct (f_valid x); lia. Qed.

Lemma mark_inv s k : inv k -> let k' := with_sym s (set_valid true) k in
  inv k' /\ (measure k' <= measure k)%nat /\ (f_valid (syms k s) = false -> measure k' < measure k)%nat.
Proof.
  intros Hk k'. assert (Hw : (weight (set_valid true (syms k s)) <= weight (syms k s))%nat).
  { unfold weight. cbn. destruct (f_valid _); lia. }
  split_and!; [apply inv_with; [done..| |]; [done|exact (inv_typed k Hk s)]|by apply measure_with_le|].
  intros Hv. pose proof (measure_with_lt all_symbols s (set_valid true) k 1 (not_valid_in s k Hk Hv) (weight_mark _ Hv)) as Hlt.
  unfold measure, k'. lia.
Qed.

Lemma safe_body s : safe (S n) always (calc_body info all_symbols modules_sym calc s).
Proof.
  intros k Hk Hm. unfold calc_body. erewrite bind_some by reflexivity. destruct (f_valid (syms k s)) eqn:Hv; [by exists tt, k|].
  set (first := if i_choiceval (info s) && f_need (syms k s) then _ else _).
  assert (H1 : exists k1, first k = Some (tt, k1) /\ inv k1 /\ (measure k1 <= measure k)%nat /\
    (measure k1 < n \/ f_valid (syms k1 s) = false)%nat).
  { subst first. destruct (i_choiceval (info s)) eqn:Hcv; cbn [andb]; [|by exists k; auto].
    destruct (f_need (syms k s)) eqn:Hnd; [|by exists k; auto]. erewrite bind_some by reflexivity.
    destruct (cfg_choiceval Hcfg s Hcv) as (p & c & -> & -> & _).
    set (k0 := with_sym s (set_need false) k).
    assert (Hk0 : inv k0).
    { apply inv_with; [done| |done|exact (inv_typed k Hk s)]. unfold weight. cbn. lia. }
    assert (Hm0 : (measure k0 < measure k)%nat).
    { pose proof (measure_with_lt all_symbols s (set_need false) k 2 (not_valid_in s k Hk Hv) (weight_need _ Hnd)) as Hlt.
      unfold measure, k0. lia. }
    destruct (Hcalc c k0 Hk0 ltac:(lia)) as ([] & k1 & E & Hk1 & Hm1 & _).
    exists k1. split_and!; [done|done|lia|left; lia]. }
  destruct H1 as (k1 & E1 & Hk1 & Hm1 & Hor). erewrite bind_some by exact E1. erewrite bind_some by reflexivity.
  destruct (mark_inv s k1 Hk1) as (Hk2 & Hm2 & Hlt). set (k2 := with_sym s (set_valid true) k1) in *.
  assert (Hmn : (measure k2 < n)%nat) by (destruct Hor as [|Hf]; [lia|specialize (Hlt Hf); lia]).
  destruct (safe_marked s k2 Hk2 Hmn) as (x & k3 & E3 & Hk3 & Hm3 & _).
  exists x, k3. split_and!; [|done|lia|done]. rewrite <- E3. reflexivity.
Qed.
End Calc.

Lemma safe_calc_value n : forall s, safe n always (sym_calc_value info all_symbols modules_sym n s).
Proof. induction n as [|n IH]; intros s; [intros k Hk Hm; lia|]. cbn [sym_calc_value]. by apply safe_body. Qed.

(** ** The user's operations *)

(** Enough for any state: a symbol weighs at most three. *)
Definition calc_fuel : nat := S (3 * List.length all_symbols).

Lemma measure_bound k : (measure k < calc_fuel)%nat.
Proof.
  unfold measure, calc_fuel. induction all_symbols as [|s l IH]; [simpl; lia|]. cbn [map list_sum foldr List.length].
  fold (list_sum (map (fun s => weight (syms k s)) l)). unfold weight at 1.
  destruct (f_valid (syms k s)), (f_need (syms k s)); lia.
Qed.

(** [c] ends, and keeps the invariant. *)
Definition total {A} (Q : A -> Prop) (c : MK A) : Prop :=
  forall k, inv k -> exists x k', c k = Some (x, k') /\ inv k' /\ Q x.

Lemma total_safe {A} (Q : A -> Prop) c : safe calc_fuel Q c -> total Q c.
Proof. intros Hc k Hk. destruct (Hc k Hk (measure_bound k)) as (x & k' & ? & ? & _ & ?). eauto. Qed.
Lemma total_bind {A B} (Q : A -> Prop) (R : B -> Prop) c f :
  total Q c -> (forall x, Q x -> total R (f x)) -> total R (bind c f).
Proof.
  intros Hc Hf k Hk. destruct (Hc k Hk) as (x & k1 & E & Hk1 & HQ). destruct (Hf x HQ k1 Hk1) as (y & k2 & E2 & ?).
  exists y, k2. by rewrite (bind_some _ _ _ _ _ E).
Qed.
Lemma total_ret {A} (Q : A -> Prop) x : Q x -> total Q (ret x).
Proof. intros HQ k Hk. by exists x, k. Qed.

Abbreviation calc := (sym_calc_value info all_symbols modules_sym calc_fuel).

Lemma total_calc s : total always (calc s).
Proof. apply total_safe, safe_calc_value. Qed.

(** An update that may take a mark back. *)
Lemma total_upd s f : In s all_symbols -> (forall x, f_need (f x) = true -> f_need x = true) ->
  (forall x, typed_state s x -> typed_state s (f x)) -> total always (upd_sym s f).
Proof.
  intros Hin Hn Ht k [Hc Hnd Hty]. exists tt, (with_sym s f k). split_and!; [done| |done].
  constructor; intros t; rewrite syms_with; destruct (decide (t = s)) as [->|]; auto. done.
Qed.

Lemma total_clear : total always (sym_clear_all_valid info all_symbols modules_sym calc_fuel).
Proof.
  unfold sym_clear_all_valid. eapply (total_bind always); [|intros _ _; apply total_calc].
  enough (Hall : forall l, incl l all_symbols -> total always (for_each l (fun s => upd_sym s (set_valid false))))
    by (apply Hall; intros x; done).
  induction l as [|s l IH]; intros Hl; cbn [for_each]; [by apply total_ret|].
  eapply (total_bind always); [apply total_upd; [apply Hl; by left|done|done]|]. intros _ _. apply IH.
  intros x Hx. apply Hl. by right.
Qed.

Lemma total_within_range s x : total always (sym_tristate_within_range info s x).
Proof. apply total_safe. unfold sym_tristate_within_range. repeat kstep. Qed.

Lemma total_mark_user s : total always (mark_user s).
Proof. apply total_safe. unfold mark_user. repeat kstep. Qed.

Lemma total_choice_user s : i_choiceval (info s) = true -> total always (set_choice_user info s).
Proof.
  intros Hcv. apply total_safe. unfold set_choice_user. destruct (cfg_choiceval Hcfg s Hcv) as (p & c & -> & -> & Hl).
  apply safe_seq; [apply safe_upd_other; intros []; done|]. destruct (choice_values info c); [|done]. repeat kstep.
Qed.

Lemma total_set_tristate s x :
  total always (sym_set_tristate_value info all_symbols modules_sym calc_fuel s x).
Proof.
  unfold sym_set_tristate_value. eapply total_bind; [apply total_safe, safe_get_sym|]. intros k _.
  eapply (total_bind always); [destruct (bool_decide _); [by apply total_ret|apply total_within_range]|]. intros ok _.
  destruct ok; cbn [negb]; [|by apply total_ret]. eapply total_bind; [apply total_mark_user|]. intros _ _.
  eapply (total_bind always).
  { destruct (i_choiceval (info s)) eqn:Hcv; cbn [andb]; [|by apply total_ret].
    destruct (bool_decide _); [by apply total_choice_user|by apply total_ret]. }
  intros _ _. eapply (total_bind always); [apply total_safe; kstep|]. intros _ _.
  eapply (total_bind always); [destruct (bool_decide _); [by apply total_ret|apply total_clear]|]. intros _ _.
  by apply total_ret.
Qed.

(** Three steps come round to the first value, which can always be set. *)
Lemma set_same_value s k : inv k -> exists k',
  sym_set_tristate_value info all_symbols modules_sym calc_fuel s (tri (curr (syms k s))) k = Some (true, k') /\ inv k'.
Proof.
  intros Hk. destruct (total_set_tristate s (tri (curr (syms k s))) k Hk) as (b & k' & E & Hk' & _).
  exists k'. split; [|done]. rewrite E. do 2 f_equal. unfold sym_set_tristate_value in E.
  erewrite bind_some in E by reflexivity. rewrite bool_decide_eq_true_2 in E by done. erewrite bind_some in E by reflexivity.
  cbn [negb] in E. repeat (apply bind_inv in E as (? & ? & _ & E)). by injection E.
Qed.

Lemma set_refused s x k k' : sym_set_tristate_value info all_symbols modules_sym calc_fuel s x k = Some (false, k') -> k' = k.
Proof.
  unfold sym_set_tristate_value. intros E. erewrite bind_some in E by reflexivity.
  apply bind_inv in E as (ok & k1 & E1 & E). assert (k1 = k) as ->.
  { destruct (bool_decide _); [by injection E1|]. unfold sym_tristate_within_range, sym_get_type in E1.
    repeat (erewrite bind_some in E1 by reflexivity || (apply bind_inv in E1 as (? & ? & E0 & E1); injection E0 as _ <-)).
    by injection E1. }
  destruct ok; cbn [negb] in E; [|by injection E]. repeat (apply bind_inv in E as (? & ? & _ & E)). by injection E.
Qed.

Lemma total_toggle s : total always (sym_toggle_tristate_value info all_symbols modules_sym calc_fuel s).
Proof.
  unfold sym_toggle_tristate_value. intros k Hk. erewrite bind_some by reflexivity.
  assert (Hstep : forall steps x, (1 <= steps)%nat ->
    (Nat.iter steps next_tri x = tri (curr (syms k s))) ->
    exists y k', toggle_loop info all_symbols modules_sym steps calc_fuel s (tri (curr (syms k s))) x k = Some (y, k') /\
    inv k' /\ True).
  { induction steps as [|steps IH]; intros x Hs Hx; [lia|]. cbn [toggle_loop].
    destruct (total_set_tristate s (next_tri x) k Hk) as (ok & k1 & E & Hk1 & _). erewrite bind_some by exact E.
    destruct ok; [by eexists _, k1|]. apply set_refused in E as ->.
    destruct (bool_decide (tri (curr (syms k s)) = next_tri x)) eqn:Ex; [by eexists _, k|].
    destruct steps as [|steps].
    - cbn in Hx. rewrite Hx, bool_decide_eq_true_2 in Ex by done. done.
    - apply IH; [lia|]. rewrite <- Hx. symmetry. apply Nat.iter_succ_r. }
  apply Hstep; [lia|]. by destruct (tri (curr (syms k s))).
Qed.

Lemma total_number_range s str base :
  total always (number_within_range info all_symbols modules_sym calc_fuel s str base).
Proof.
  apply total_safe. unfold number_within_range. destruct (negb _); [by apply safe_ret|].
  eapply ksafe_bind; [apply safe_range_prop; apply safe_calc_value|]. intros [[p v]|] Hp; [|by apply safe_ret].
  destruct (range_syms p) as [[lo hi]|]; [|done]. cbv zeta.
  eapply (ksafe_bind _ always); [apply safe_range_val, safe_calc_value|]. intros x _. destruct (x <=? _); [|by apply safe_ret].
  eapply (ksafe_bind _ always); [apply safe_range_val, safe_calc_value|]. intros y _. by apply safe_ret.
Qed.

Lemma total_string_range s str :
  total always (sym_string_within_range info all_symbols modules_sym calc_fuel s str).
Proof.
  unfold sym_string_within_range. destruct (i_type (info s)); try by apply total_ret.
  all: try (destruct (tristate_of_char str); [apply total_within_range|by apply total_ret]).
  all: apply total_number_range.
Qed.

Lemma total_set_string s str :
  total always (sym_set_string_value info all_symbols modules_sym calc_fuel s str).
Proof.
  unfold sym_set_string_value. destruct (is_logical _).
  { destruct (tristate_of_char str); [apply total_set_tristate|by apply total_ret]. }
  eapply total_bind; [apply total_string_range|]. intros ok _. destruct (negb ok); [by apply total_ret|].
  eapply total_bind; [apply total_mark_user|]. intros _ _. eapply total_bind; [apply total_safe, safe_get_sym|]. intros k _.
  cbv zeta. assert (Hset : forall x, total always
    (do upd_sym s (fun k => set_def (SymbolValue (VStr x) (tri (def_user k))) k) ;;
     do sym_clear_all_valid info all_symbols modules_sym calc_fuel ;; ret true)).
  { intros x. eapply (total_bind always); [apply total_safe; kstep|]. intros _ _.
    eapply total_bind; [apply total_clear|]. intros _ _. by apply total_ret. }
  destruct (_ && _); [apply Hset|]. destruct (bool_decide _); [by apply total_ret|apply Hset].
Qed.

(** What the menus do with a symbol. *)
Inductive user_op :=
| SetTristate (s : symbol_ref) (x : tristate) | SetString (s : symbol_ref) (x : string) | Toggle (s : symbol_ref)
| Ask (s : symbol_ref).

Definition do_op (op : user_op) : MK unit :=
  match op with
  | SetTristate s x => do sym_set_tristate_value info all_symbols modules_sym calc_fuel s x ;; ret tt
  | SetString s x => do sym_set_string_value info all_symbols modules_sym calc_fuel s x ;; ret tt
  | Toggle s => do sym_toggle_tristate_value info all_symbols modules_sym calc_fuel s ;; ret tt
  | Ask s => sym_calc_value info all_symbols modules_sym calc_fuel s
  end.

Lemma total_op op : total always (do_op op).
Proof.
  destruct op as [s x|s x|s|s]; cbn [do_op]; [..|apply total_calc].
  all: eapply (total_bind always); [|intros _ _; by apply total_ret].
  - apply total_set_tristate.
  - apply total_set_string.
  - apply total_toggle.
Qed.

(** C20: the configuration tool never hangs on the values of symbols, and never
    gives a boolean the value m.  For any configuration of the shape the parser
    makes, with choices and with dependencies that go in circles, and any
    sequence of settings, toggles and questions by the user: every one of them
    ends within the depth of recursion [calc_fuel], three calls for each symbol,
    and in the state after it no boolean symbol is m. *)
Theorem user_operations_typed ops k : inv k ->
  exists k', for_each ops do_op k = Some (tt, k') /\
  forall s, i_type (info s) = S_BOOLEAN -> tri (curr (syms k' s)) <> mod_.
Proof.
  intros Hk. enough (H : total always (for_each ops do_op)).
  { destruct (H k Hk) as ([] & k' & E & Hk' & _). exists k'. split; [done|]. apply (inv_typed k' Hk'). }
  clear k Hk. induction ops as [|op ops IH]; cbn [for_each]; [by apply total_ret|].
  eapply total_bind; [apply total_op|]. intros _ _. exact IH.
Qed.
End Inv.

(** ** An example *)

Module SampleK.
Definition A := SymbolAt 1.
Definition B := SymbolAt 2.
Definition C := SymbolAt 3.
Definition V := SymbolAt 4.
Definition plain (n : string) (ty : symbol_type) (ps : list property) : sym_info :=
  SymInfo (Some n) ty false false false false ps None None.
(** A and B depend on each other; C is a choice with the value V. *)
Definition info (s : symbol_ref) : sym_info :=
  match s with
  | SymbolAt 1 => plain "A" S_BOOLEAN [Property P_PROMPT true (Some (E_SYMBOL B)) None; Property P_DEFAULT false None (Some (E_SYMBOL symbol_mod))]
  | SymbolAt 2 => plain "B" S_TRISTATE [Property P_PROMPT true (Some (E_SYMBOL A)) None; Property P_DEFAULT false None (Some (E_SYMBOL A))]
  | SymbolAt 3 => SymInfo None S_BOOLEAN false true false false
      [Property P_CHOICE true None (Some (E_LIST None V))] None None
  | SymbolAt 4 => SymInfo (Some "V"%string) S_BOOLEAN false false true false
      [Property P_PROMPT true (Some (E_SYMBOL C)) None; Property P_CHOICE false None (Some (E_SYMBOL C))] None None
  | _ => plain "?" S_UNKNOWN []
  end.
Definition blank (valid : bool) (v : tristate) : sym_state :=
  SymState (SymbolValue VNull v) (SymbolValue VNull no) no no no valid false false false false.
Definition start : kstate := KState (fun s =>
  match s with
  | symbol_yes => blank true yes | symbol_mod => blank true mod_ | symbol_no => blank true no
  | SymbolAt a => if (1 <=? a) && (a <=? 4) then (if a =? 3 then set_need true (blank false no) else blank false no) else blank true no
  end) no.
Definition all : list symbol_ref := [A; B; C; V].

Ltac address a :=
  destruct (decide (1 <= a <= 4)) as [Ha|Ha];
  [assert (a = 1 \/ a = 2 \/ a = 3 \/ a = 4) as [->|[->|[->| ->]]] by lia|].
Lemma info_other a : ~ (1 <= a <= 4) -> info (SymbolAt a) = plain "?" S_UNKNOWN [].
Proof. intros Ha. destruct a as [|[[[]|[]|]|[[]|[]|]|]|]; try done; lia. Qed.

Lemma config : config_ok info.
Proof.
  split; intros [| | |a]; try (intros; done); address a; rewrite ?(info_other a Ha); try done.
  - intros _. eexists _, C. split_and!; done.
  - intros p _ [<-|[]]. done.
  - cbn. intros p. intuition; by subst.
  - cbn. intros p. intuition; by subst.
  - cbn. intros p. intuition; by subst.
  - cbn. intros p. intuition; by subst.
Qed.

Lemma inv_start : inv info all start.
Proof.
  split; intros [| | |a]; try done.
  - intros Hn. cbn. destruct (Z.leb_spec 1 a), (Z.leb_spec a 4); cbn [andb]; try done. exfalso. apply Hn. unfold all, A, B, C, V.
    assert (a = 1 \/ a = 2 \/ a = 3 \/ a = 4) as [->|[->|[->| ->]]] by lia; cbn; auto.
  - cbn. destruct (Z.leb_spec 1 a), (Z.leb_spec a 4); cbn [andb]; try done. destruct (Z.eqb_spec a 3) as [->|]; done.
  - intros _. cbn. destruct (_ && _); [|done]. by destruct (a =? 3).
Qed.
End SampleK.

Lemma user_operations_typed_witness :
  exists k', for_each [SetTristate SampleK.A mod_; Toggle SampleK.V; SetString SampleK.B "m"; Ask SampleK.A]
    (do_op SampleK.info SampleK.all symbol_no) SampleK.start = Some (tt, k') /\
  forall s, i_type (SampleK.info s) = S_BOOLEAN -> tri (curr (syms k' s)) <> mod_.
Proof.
  apply (user_operations_typed SampleK.info SampleK.all symbol_no SampleK.config _ SampleK.start SampleK.inv_start).
Defined.
