(* ===== verification/KSymCorrect.v ===== *)
(** * The values [KSym] computes on demand are those of the equations

    In a configuration without choices whose dependencies do not go in circles
    the value of a symbol is given by the values of the symbols it mentions
    ([step]), with [KExpr.expr_calc_value] for expressions; [reference] is the
    solution.  [sym_calc_value] computes it, whatever was computed before, and
    what the user may set takes effect.  No modules symbol is declared, as in the
    configuration of SeaBIOS: the parser takes the constant n for it. *)
From Stdlib Require Import String Ascii.
From S2P Require Import Prelude Machine KExpr KSym KSymInv.
Local Open Scope seabios_scope.

Section Spec.
Context (info : symbol_ref -> sym_info) (modules : tristate).
(** The user's setting of a symbol. *)
Context (user : symbol_ref -> option symbol_value).

(** ** The equations *)

Definition view (rho : symbol_ref -> symbol_value) (s : symbol_ref) : symbol :=
  Symbol (i_name (info s)) (i_type (info s)) (string_of (val (rho s))) (tri (rho s)) (i_const (info s)).
Definition ev (rho : symbol_ref -> symbol_value) (e : expr) : tristate := expr_calc_value (view rho) modules e.
Definition ev_opt (rho : symbol_ref -> symbol_value) (e : option expr) : tristate :=
  match e with Some e => ev rho e | None => yes end.

Definition spec_type (s : symbol_ref) : symbol_type :=
  if bool_decide (i_type (info s) = S_TRISTATE) && bool_decide (modules = no) then S_BOOLEAN else i_type (info s).
Definition no_mod (c : bool) (x : tristate) : tristate := if c then mod_to_yes x else x.

(** The best of the prompts. *)
Fixpoint spec_prompts (rho : symbol_ref -> symbol_value) (l : list property) (acc : tristate) : tristate :=
  match l with
  | [] => acc
  | p :: l => spec_prompts rho l (if p_text p then EXPR_OR acc (ev_opt rho (p_visible p)) else acc)
  end.
Definition spec_visible (rho : symbol_ref -> symbol_value) (s : symbol_ref) : tristate :=
  no_mod (negb (bool_decide (i_type (info s) = S_TRISTATE)) || bool_decide (modules = no)) (spec_prompts rho (i_props (info s)) no).
(** What selects the symbol. *)
Definition spec_rev (rho : symbol_ref -> symbol_value) (s : symbol_ref) : tristate :=
  no_mod (bool_decide (spec_type s = S_BOOLEAN)) (match i_rev_dep (info s) with Some e => ev rho e | None => no end).

Fixpoint spec_prop (rho : symbol_ref -> symbol_value) (ty : prop_type) (l : list property) : option (property * tristate) :=
  match l with
  | [] => None
  | p :: l =>
    if bool_decide (p_type p = ty) && negb (bool_decide (ev_opt rho (p_visible p) = no)) then Some (p, ev_opt rho (p_visible p))
    else spec_prop rho ty l
  end.
Definition spec_default (rho : symbol_ref -> symbol_value) (s : symbol_ref) := spec_prop rho P_DEFAULT (i_props (info s)).

(** The user's setting counts when a prompt is visible, and then up to its
    visibility; else the first default that applies; a select is the least. *)
Definition spec_logical (rho : symbol_ref -> symbol_value) (s : symbol_ref) : tristate :=
  let default_ := match spec_default rho s with Some (p, v) => EXPR_AND (ev_opt rho (p_expr p)) v | None => no end in
  let vis := spec_visible rho s in
  let x := if bool_decide (vis = no) then default_
           else match user s with Some u => EXPR_AND (tri u) vis | None => default_ end in
  no_mod (bool_decide (spec_type s = S_BOOLEAN)) (EXPR_OR x (spec_rev rho s)).

Definition spec_string (rho : symbol_ref -> symbol_value) (s : symbol_ref) : cval :=
  let default_ :=
    match spec_default rho s with
    | Some (p, _) => match prop_get_symbol p with Some d => val (rho d) | None => VStr "" end
    | None => VStr ""
    end in
  if bool_decide (spec_visible rho s = no) then default_
  else match user s with Some u => val u | None => default_ end.

(** A number is moved to the range. *)
Definition spec_range (rho : symbol_ref -> symbol_value) (s : symbol_ref) (v : cval) : cval :=
  let ty := i_type (info s) in
  match ty with
  | S_INT | S_HEX =>
    let base := base_of ty 0 in
    match spec_prop rho P_RANGE (i_props (info s)) with
    | None => v
    | Some (p, _) =>
      match range_syms p with
      | None => v
      | Some (lo, hi) =>
        let bound t := strtoll (string_of (val (rho t))) (base_of (i_type (info t)) base) in
        let x := strtoll (string_of v) base in
        let print x := VStr (match ty with S_INT => print_lld x | _ => print_0x x end) in
        if bound lo <=? x then if x <=? bound hi then v else print (bound hi) else print (bound lo)
      end
    end
  | _ => v
  end.

Definition step (rho : symbol_ref -> symbol_value) (s : symbol_ref) : symbol_value :=
  match i_type (info s) with
  | S_UNKNOWN | S_OTHER => SymbolValue (match i_name (info s) with Some n => VStr n | None => VNull end) no
  | S_BOOLEAN | S_TRISTATE => SymbolValue (VStr "n") (spec_logical rho s)
  | _ => SymbolValue (spec_range rho s (spec_string rho s)) no
  end.

(** ** Acyclic configurations *)

Context (all_symbols : list symbol_ref) (rank : symbol_ref -> nat).

Definition below (r : nat) (s : symbol_ref) : Prop := In s all_symbols -> (rank s < r)%nat.
Fixpoint expr_below (r : nat) (e : expr) : Prop :=
  match e with
  | Bin _ a b => expr_below r a /\ expr_below r b
  | E_NOT a => expr_below r a
  | Cmp _ a b | E_RANGE a b => below r a /\ below r b
  | E_SYMBOL s => below r s
  | E_LIST _ _ => True
  end.
Definition opt_below (r : nat) (e : option expr) : Prop := match e with Some e => expr_below r e | None => True end.
Definition prop_below (r : nat) (p : property) : Prop := opt_below r (p_visible p) /\ opt_below r (p_expr p).

(** Every symbol of the table mentions only constants and symbols of less rank;
    there are no choices. *)
Record acyclic : Prop := {
  ac_props : forall s, In s all_symbols -> Forall (prop_below (rank s)) (i_props (info s));
  ac_dir : forall s, In s all_symbols -> opt_below (rank s) (i_dir_dep (info s));
  ac_rev : forall s, In s all_symbols -> opt_below (rank s) (i_rev_dep (info s));
  ac_choice : forall s, i_choice (info s) = false /\ i_choiceval (info s) = false }.

(** The solution: [const] has the values of the symbols outside the table. *)
Context (const : symbol_ref -> symbol_value).
Fixpoint iterate (n : nat) (s : symbol_ref) : symbol_value :=
  match n with
  | O => const s
  | S n => if in_dec (fun x y => decide (x = y)) s all_symbols then step (iterate n) s else const s
  end.
Definition reference (s : symbol_ref) : symbol_value := iterate (S (rank s)) s.

(** The equations of a symbol look only at symbols below it. *)
Definition agree (r : nat) (f g : symbol_ref -> symbol_value) : Prop := forall t, below r t -> f t = g t.

Lemma ev_agree r f g e : agree r f g -> expr_below r e -> ev f e = ev g e.
Proof.
  intros Ha. assert (Hs : forall t, below r t -> KExpr.sym_get_string_value (view f) modules t = KExpr.sym_get_string_value (view g) modules t).
  { intros t Ht. unfold KExpr.sym_get_string_value, sym_get_tristate_value, view. cbn. by rewrite (Ha t Ht). }
  unfold ev. induction e as [c a IHa b IHb|a IHa|c a b|s|l s|a b]; cbn [expr_below expr_calc_value]; try done.
  - intros [H1 H2]. by rewrite IHa, IHb.
  - intros H1. by rewrite IHa.
  - intros [H1 H2]. by rewrite !Hs.
  - intros H1. unfold sym_get_tristate_value, view. cbn. by rewrite (Ha s H1).
Qed.
Lemma ev_opt_agree r f g e : agree r f g -> opt_below r e -> ev_opt f e = ev_opt g e.
Proof. intros Ha. destruct e as [e|]; cbn; [by apply ev_agree|done]. Qed.

Lemma prompts_agree r f g l : agree r f g -> Forall (prop_below r) l -> forall acc, spec_prompts f l acc = spec_prompts g l acc.
Proof.
  intros Ha. induction 1 as [|p l [Hp _] _ IH]; intros acc; cbn [spec_prompts]; [done|].
  by rewrite (ev_opt_agree r f g _ Ha Hp), IH.
Qed.
Lemma prop_agree r f g ty l : agree r f g -> Forall (prop_below r) l -> spec_prop f ty l = spec_prop g ty l.
Proof.
  intros Ha. induction 1 as [|p l [Hp _] _ IH]; cbn [spec_prop]; [done|]. by rewrite (ev_opt_agree r f g _ Ha Hp), IH.
Qed.
Lemma spec_prop_in f ty l p v : spec_prop f ty l = Some (p, v) -> In p l /\ p_type p = ty /\ v = ev_opt f (p_visible p).
Proof.
  induction l as [|q l IH]; cbn [spec_prop]; [done|]. destruct (bool_decide (p_type q = ty)) eqn:E; cbn [andb].
  - destruct (negb _); [|intros H; destruct (IH H) as (? & ? & ?); split_and!; [by right|done|done]].
    intros [= -> <-]. apply bool_decide_eq_true in E. split_and!; [by left|done|done].
  - intros H. destruct (IH H) as (? & ? & ?). split_and!; [by right|done|done].
Qed.

Context (Hac : acyclic).

Lemma visible_agree s f g : In s all_symbols -> agree (rank s) f g -> spec_visible f s = spec_visible g s.
Proof. intros Hs Ha. unfold spec_visible. by rewrite (prompts_agree (rank s) f g _ Ha) by by apply ac_props. Qed.
Lemma rev_agree s f g : In s all_symbols -> agree (rank s) f g -> spec_rev f s = spec_rev g s.
Proof.
  intros Hs Ha. unfold spec_rev. pose proof (ac_rev Hac s Hs) as Hr. destruct (i_rev_dep (info s)); [|done].
  by rewrite (ev_agree (rank s) f g).
Qed.
Lemma default_agree s f g : In s all_symbols -> agree (rank s) f g -> spec_default f s = spec_default g s.
Proof. intros Hs Ha. by apply (prop_agree (rank s)), ac_props. Qed.
Lemma default_below s f p v : In s all_symbols -> spec_default f s = Some (p, v) -> prop_below (rank s) p.
Proof.
  intros Hs Hd. apply spec_prop_in in Hd as (Hp & _). pose proof (ac_props Hac s Hs) as H. rewrite List.Forall_forall in H. auto.
Qed.
Lemma prop_symbol_below r p d : prop_below r p -> prop_get_symbol p = Some d -> below r d.
Proof. intros [_ He]. unfold prop_get_symbol. destruct (p_expr p) as [[]|]; try done. by intros [= ->]. Qed.
Lemma range_below r p lo hi : prop_below r p -> range_syms p = Some (lo, hi) -> below r lo /\ below r hi.
Proof. intros [_ He]. unfold range_syms. destruct (p_expr p) as [[]|]; try done. by intros [= -> ->]. Qed.

Lemma step_agree s f g : In s all_symbols -> agree (rank s) f g -> step f s = step g s.
Proof.
  intros Hs Ha. unfold step. destruct (i_type (info s)) eqn:Et; try done.
  1,2: f_equal; unfold spec_logical; rewrite (visible_agree s f g), (rev_agree s f g), (default_agree s f g) by done;
    destruct (spec_default g s) as [[p v]|] eqn:Ed; [|done];
    by rewrite (ev_opt_agree (rank s) f g) by (done || by eapply default_below).
  all: f_equal.
  all: assert (Hstr : spec_string f s = spec_string g s) by
    (unfold spec_string; rewrite (visible_agree s f g), (default_agree s f g) by done;
     destruct (spec_default g s) as [[p v]|] eqn:Ed; [|done]; destruct (prop_get_symbol p) as [d|] eqn:Ep; [|done];
     by rewrite (Ha d) by (eapply prop_symbol_below; [by eapply default_below|done])).
  all: rewrite Hstr; unfold spec_range; rewrite Et; try done.
  all: rewrite (prop_agree (rank s) f g) by (done || by apply ac_props).
  all: destruct (spec_prop g P_RANGE _) as [[p v]|] eqn:Ep; [|done]; destruct (range_syms p) as [[lo hi]|] eqn:Er; [|done].
  all: apply spec_prop_in in Ep as (Hp & _); pose proof (ac_props Hac s Hs) as H; rewrite List.Forall_forall in H.
  all: destruct (range_below _ _ _ _ (H p Hp) Er) as [H1 H2]; by rewrite (Ha lo H1), (Ha hi H2).
Qed.

Lemma iterate_stable n : forall m s, (rank s < n)%nat -> (rank s < m)%nat -> iterate n s = iterate m s.
Proof.
  induction n as [|n IH]; intros m s Hn Hm; [lia|]. destruct m as [|m]; [lia|]. cbn [iterate].
  destruct (in_dec _ s all_symbols) as [Hs|]; [|done]. apply step_agree; [done|]. intros t Ht.
  destruct (in_dec (fun x y => decide (x = y)) t all_symbols) as [Hin|Hout].
  - specialize (Ht Hin). apply IH; lia.
  - destruct n, m; cbn [iterate]; try done; by repeat (destruct (in_dec _ t all_symbols); [done|]).
Qed.

(** [reference] solves the equations. *)
Lemma reference_step s : In s all_symbols -> reference s = step reference s.
Proof.
  intros Hs. unfold reference at 1. cbn [iterate]. destruct (in_dec _ s all_symbols) as [_|]; [|done].
  apply step_agree; [done|]. intros t Ht. unfold reference.
  destruct (in_dec (fun x y => decide (x = y)) t all_symbols) as [Hin|Hout].
  - specialize (Ht Hin). apply iterate_stable; lia.
  - destruct (rank s); cbn [iterate]; repeat (destruct (in_dec _ t all_symbols); [done|]); done.
Qed.
Lemma reference_const s : ~ In s all_symbols -> reference s = const s.
Proof. intros Hs. unfold reference. cbn [iterate]. by destruct (in_dec _ s all_symbols). Qed.

(** ** Runs *)

Context (modules_sym : symbol_ref) (Hmod : ~ In modules_sym all_symbols) (Hmodval : tri (const modules_sym) = modules).
Abbreviation rho := reference.

Definition user_of (k : sym_state) : option symbol_value := if f_def_user k then Some (def_user k) else None.

Definition has_value_type (s : symbol_ref) : Prop := i_type (info s) <> S_UNKNOWN /\ i_type (info s) <> S_OTHER.
(** What a valid symbol holds. *)
Definition sym_ok (s : symbol_ref) (k : sym_state) : Prop :=
  curr k = rho s /\ (has_value_type s -> visible k = spec_visible rho s /\ rev_tri k = spec_rev rho s).

(** The state while a symbol of rank [r] is calculated. *)
Record cons (r : nat) (k : kstate) : Prop := {
  cn_const : forall s, ~ In s all_symbols -> f_valid (syms k s) = true /\ curr (syms k s) = const s;
  cn_valid : forall s, In s all_symbols -> (rank s < r)%nat -> f_valid (syms k s) = true -> sym_ok s (syms k s);
  cn_user : forall s, user_of (syms k s) = user s;
  cn_need : forall s, f_need (syms k s) = false;
  cn_modules : modules_val k = modules }.

(** What is shown is written. *)
Definition written (k : sym_state) : Prop := visible k <> no -> f_write k = true.
Definition write_ok (s : symbol_ref) (k : sym_state) : Prop := has_value_type s -> i_auto (info s) = false -> written k.

(** Valid symbols stay as they are, but for [o]; what is calculated is marked to
    be written. *)
Definition evolves (o : option symbol_ref) (k k' : kstate) : Prop := forall t,
  (f_valid (syms k t) = true -> f_valid (syms k' t) = true) /\
  (Some t <> o -> if f_valid (syms k t) then syms k' t = syms k t
                  else f_valid (syms k' t) = true -> write_ok t (syms k' t)).
(** Symbols of rank [r] and more are left alone, but for [s]. *)
Definition frame (s : option symbol_ref) (r : nat) (k k' : kstate) : Prop :=
  forall t, In t all_symbols -> (r <= rank t)%nat -> Some t <> s -> syms k' t = syms k t.

Lemma cons_curr r k t : cons r k -> below r t -> f_valid (syms k t) = true -> curr (syms k t) = rho t.
Proof.
  intros Hk Hb Hv. destruct (in_dec (fun x y => decide (x = y)) t all_symbols) as [Hin|Hout].
  - by apply (cn_valid r k Hk t Hin (Hb Hin) Hv).
  - rewrite reference_const by done. by apply (cn_const r k Hk).
Qed.

(** [c] only calculates symbols of rank less than [r], and gives [Q]. *)
Definition calculates {A} (r : nat) (Q : A -> Prop) (c : MK A) : Prop :=
  forall k x k', cons r k -> c k = Some (x, k') -> cons r k' /\ frame None r k k' /\ evolves None k k' /\ Q x.

Lemma evolves_refl o k : evolves o k k.
Proof. intros t. split; [done|]. intros _. by destruct (f_valid (syms k t)). Qed.
Lemma evolves_trans o k1 k2 k3 : evolves o k1 k2 -> evolves o k2 k3 -> evolves o k1 k3.
Proof.
  intros H1 H2 t. destruct (H1 t) as [M1 E1], (H2 t) as [M2 E2]. split; [auto|]. intros Ho.
  specialize (E1 Ho). specialize (E2 Ho). destruct (f_valid (syms k1 t)) eqn:V1.
  - rewrite M1 in E2 by done. congruence.
  - destruct (f_valid (syms k2 t)) eqn:V2; [|done]. intros _. rewrite E2. auto.
Qed.
Lemma evolves_valid o k k' t : evolves o k k' -> f_valid (syms k t) = true -> f_valid (syms k' t) = true.
Proof. intros H. apply (H t). Qed.
Lemma evolves_some s k k' : evolves None k k' -> evolves (Some s) k k'.
Proof. intros H t. destruct (H t) as [H1 H2]. split; [done|]. intros _. by apply H2. Qed.
Lemma calc_ret {A} r (Q : A -> Prop) x : Q x -> calculates r Q (ret x).
Proof. intros HQ k y k' Hk [= <- <-]. split_and!; [done|by intros t|apply evolves_refl|done]. Qed.
Lemma frame_trans s r k1 k2 k3 : frame s r k1 k2 -> frame s r k2 k3 -> frame s r k1 k3.
Proof. intros H1 H2 t Hin Hr Hs. by rewrite H2, H1. Qed.
Lemma calc_bind {A B} r (Q : A -> Prop) (R : B -> Prop) c f :
  calculates r Q c -> (forall x, Q x -> calculates r R (f x)) -> calculates r R (bind c f).
Proof.
  intros Hc Hf k y k2 Hk E. apply bind_inv in E as (x & k1 & E1 & E2).
  destruct (Hc k x k1 Hk E1) as (Hk1 & F1 & M1 & HQ). destruct (Hf x HQ k1 y k2 Hk1 E2) as (Hk2 & F2 & M2 & HR).
  split_and!; [done|by eapply frame_trans|by eapply evolves_trans|done].
Qed.

Section Calc.
Context (r : nat) (calc : symbol_ref -> MK unit).
(** What is known of the calculation of a symbol below. *)
Definition calc_spec : Prop := forall t, below r t -> forall k x k', cons r k -> calc t k = Some (x, k') ->
  cons r k' /\ frame None r k k' /\ evolves None k k' /\ f_valid (syms k' t) = true /\ (f_valid (syms k t) = true -> k' = k).
Context (Hcalc : calc_spec).

Lemma modules_below : below r modules_sym.
Proof. intros H. by destruct Hmod. Qed.

Lemma calc_symbol t : below r t -> calculates r (fun x => x = rho t)
  (do calc t ;; k <- get_sym t ;; ret (curr k)).
Proof.
  intros Hb k x k' Hk E. apply bind_inv in E as (u & k1 & E1 & E2). injection E2 as <- <-.
  destruct (Hcalc t Hb k u k1 Hk E1) as (Hk1 & F1 & M1 & V1 & _). split_and!; try done. by apply (cons_curr r).
Qed.

(** The text of a symbol that is valid. *)
Lemma string_value_run t k x k' : below r t -> cons r k -> f_valid (syms k t) = true ->
  sym_get_string_value info modules_sym calc t k = Some (x, k') ->
  k' = k /\ x = KExpr.sym_get_string_value (view rho) modules t.
Proof.
  intros Hb Hk Hv E. unfold sym_get_string_value in E. erewrite bind_some in E by reflexivity.
  unfold KExpr.sym_get_string_value, sym_get_tristate_value, view. cbn [type curr_tri curr_val].
  rewrite (cons_curr r k t Hk Hb Hv) in E.
  destruct (i_type (info t)); cbn [is_logical] in E; try (injection E as <- <-; done).
  all: destruct (tri (rho t)); try (injection E as <- <-; done).
  all: apply bind_inv in E as (u & k1 & E1 & E2); injection E2 as <- <-.
  all: destruct (cn_const r k Hk modules_sym Hmod) as [Vm Cm].
  all: destruct (Hcalc modules_sym modules_below k u k1 Hk E1) as (_ & _ & _ & _ & Hsame); rewrite (Hsame Vm).
  all: split; [done|]; by rewrite Cm, Hmodval.
Qed.

Lemma calc_expr e : expr_below r e -> calculates r (fun x => x = ev rho e)
  (expr_calc info modules_sym calc e).
Proof.
  unfold ev. induction e as [c a IHa b IHb|a IHa|c a b|s|l s|a b]; cbn [expr_below expr_calc expr_calc_value].
  - intros [H1 H2]. eapply calc_bind; [by apply IHa|]. intros x ->. eapply calc_bind; [by apply IHb|]. intros y ->.
    by apply calc_ret; destruct c.
  - intros H1. eapply calc_bind; [by apply IHa|]. intros x ->. by apply calc_ret.
  - intros [H1 H2] k x k' Hk E. apply bind_inv in E as (u & k1 & E1 & E). apply bind_inv in E as (u' & k2 & E2 & E).
    destruct (Hcalc a H1 k u k1 Hk E1) as (Hk1 & F1 & M1 & V1 & _).
    destruct (Hcalc b H2 k1 u' k2 Hk1 E2) as (Hk2 & F2 & M2 & V2 & _).
    apply bind_inv in E as (xa & k3 & E3 & E). apply string_value_run in E3 as [-> ->]; try done; [|by eapply evolves_valid].
    apply bind_inv in E as (xb & k4 & E4 & E). apply string_value_run in E4 as [-> ->]; try done.
    injection E as <- <-. split_and!; [done|by eapply frame_trans|by eapply evolves_trans|]. by destruct c, (String.eqb _ _).
  - intros H1 k x k' Hk E. apply bind_inv in E as (u & k1 & E1 & E2). injection E2 as <- <-.
    destruct (Hcalc s H1 k u k1 Hk E1) as (Hk1 & F1 & M1 & V1 & _). split_and!; try done.
    unfold sym_get_tristate_value, view. cbn. by rewrite (cons_curr r).
  - intros _. by apply calc_ret.
  - intros _. by apply calc_ret.
Qed.
Lemma calc_expr_opt e : opt_below r e ->
  calculates r (fun x => x = ev_opt rho e) (expr_calc_opt info modules_sym calc e).
Proof. destruct e as [e|]; cbn; [apply calc_expr|intros _; by apply calc_ret]. Qed.

Lemma calc_first ty l : Forall (prop_below r) l ->
  calculates r (fun x => x = spec_prop rho ty l) (first_visible info modules_sym calc ty l).
Proof.
  induction 1 as [|p l [Hp _] _ IH]; cbn [first_visible spec_prop]; [by apply calc_ret|].
  destruct (bool_decide (p_type p = ty)); cbn [andb]; [|exact IH].
  eapply calc_bind; [by apply calc_expr_opt|]. intros v ->. destruct (bool_decide _); cbn [negb]; [exact IH|by apply calc_ret].
Qed.
Lemma calc_prompts l : Forall (prop_below r) l -> forall acc,
  calculates r (fun x => x = spec_prompts rho l acc) (prompts_visible info modules_sym calc l acc).
Proof.
  induction 1 as [|p l [Hp _] _ IH]; intros acc; cbn [prompts_visible spec_prompts]; [by apply calc_ret|].
  destruct (p_text p); [|apply IH]. eapply calc_bind; [by apply calc_expr_opt|]. intros v ->. apply IH.
Qed.
Lemma calc_and e v : opt_below r e ->
  calculates r (fun x => x = EXPR_AND (ev_opt rho e) v) (expr_and info modules_sym calc e v).
Proof.
  intros He. unfold expr_and, EXPR_AND. eapply calc_bind; [by apply calc_expr_opt|]. intros x ->.
  destruct (_ <? _); [by apply calc_expr_opt|by apply calc_ret].
Qed.
Lemma calc_range_val t base : below r t ->
  calculates r (fun x => x = strtoll (string_of (val (rho t))) (base_of (i_type (info t)) base)) (sym_get_range_val info calc t base).
Proof.
  intros Hb k x k' Hk E. apply bind_inv in E as (u & k1 & E1 & E2). injection E2 as <- <-.
  destruct (Hcalc t Hb k u k1 Hk E1) as (Hk1 & F1 & M1 & V1 & _). split_and!; try done. by rewrite (cons_curr r).
Qed.

(** ** The symbol itself *)

Context (s : symbol_ref) (Hs : In s all_symbols) (Hr : rank s = r).

(** [c] in states where the symbol [s] is as [P] says. *)
Definition hoare {A} (P : sym_state -> Prop) (c : MK A) (Q : A -> sym_state -> Prop) : Prop :=
  forall k x k', cons r k -> P (syms k s) -> c k = Some (x, k') ->
  cons r k' /\ frame (Some s) r k k' /\ evolves (Some s) k k' /\ Q x (syms k' s).

Lemma h_ret {A} (Q : A -> sym_state -> Prop) x : hoare (Q x) (ret x) Q.
Proof. intros k y k' Hk HP [= <- <-]. split_and!; [done|by intros t|apply evolves_refl|done]. Qed.
Lemma h_bind {A B} P (Q : A -> sym_state -> Prop) (R : B -> sym_state -> Prop) c f :
  hoare P c Q -> (forall x, hoare (Q x) (f x) R) -> hoare P (bind c f) R.
Proof.
  intros Hc Hf k y k2 Hk HP E. apply bind_inv in E as (x & k1 & E1 & E2).
  destruct (Hc k x k1 Hk HP E1) as (Hk1 & F1 & M1 & HQ). destruct (Hf x k1 y k2 Hk1 HQ E2) as (Hk2 & F2 & M2 & HR).
  split_and!; [done|by eapply frame_trans|by eapply evolves_trans|done].
Qed.
Lemma h_seq {A B} P Q (R : B -> sym_state -> Prop) (c : MK A) d : hoare P c (fun _ => Q) -> hoare Q d R -> hoare P (do c ;; d) R.
Proof. intros Hc Hd. eapply h_bind; [exact Hc|]. intros x. exact Hd. Qed.
Lemma h_post {A} P (Q R : A -> sym_state -> Prop) c : hoare P c Q -> (forall x k, Q x k -> R x k) -> hoare P c R.
Proof. intros Hc HQ k x k' Hk HP E. destruct (Hc k x k' Hk HP E) as (? & ? & ? & ?). auto. Qed.
Lemma h_calc {A} P (Q : A -> Prop) c : calculates r Q c -> hoare P c (fun x k => P k /\ Q x).
Proof.
  intros Hc k x k' Hk HP E. destruct (Hc k x k' Hk E) as (Hk' & F & M & HQ). split_and!; try done.
  - intros t Hin Hrt _. by apply F.
  - by apply evolves_some.
  - rewrite (F s Hs) by (done || lia). exact HP.
Qed.
Lemma h_get P : hoare P (get_sym s) (fun x k => x = k /\ P k /\ user_of k = user s /\ f_need k = false).
Proof.
  intros k x k' Hk HP [= <- <-]. split_and!; [done|by intros t|apply evolves_refl|done|done|by apply (cn_user r)|by apply (cn_need r)].
Qed.
Lemma h_upd P Q f : (forall k, user_of (f k) = user_of k /\ f_need (f k) = f_need k /\ (f_valid k = true -> f_valid (f k) = true)) ->
  (forall k, P k -> Q (f k)) -> hoare P (upd_sym s f) (fun _ => Q).
Proof.
  intros Hf HQ k x k' [Hc Hv Hu Hn Hm] HP [= _ <-]. destruct (Hf (syms k s)) as (F1 & F2 & F3). split_and!.
  - constructor; cbn [syms with_sym modules_val]; [| | | |done].
    + intros t Ht. destruct (decide (t = s)) as [->|]; [done|auto].
    + intros t Ht Hrt. destruct (decide (t = s)) as [->|]; [lia|auto].
    + intros t. destruct (decide (t = s)) as [->|]; [by rewrite F1|auto].
    + intros t. destruct (decide (t = s)) as [->|]; [by rewrite F2|auto].
  - intros t _ _ Ht. rewrite syms_with. destruct (decide (t = s)) as [->|]; [done|done].
  - intros t. rewrite syms_with. destruct (decide (t = s)) as [->|]; (split; [auto|]); [by intros []|]. intros _. by destruct (f_valid (syms k t)).
  - rewrite syms_with. destruct (decide (s = s)); [auto|done].
Qed.
Lemma h_modules P : hoare P get_modules (fun x k => x = modules /\ P k).
Proof. intros k x k' Hk HP [= <- <-]. split_and!; [done|by intros t|apply evolves_refl|by apply (cn_modules r)|done]. Qed.
Lemma h_if {A} P (Q : A -> sym_state -> Prop) (b : bool) c d :
  (b = true -> hoare P c Q) -> (b = false -> hoare P d Q) -> hoare P (if b then c else d) Q.
Proof. destruct b; auto. Qed.
Lemma h_pure {A} P (R : Prop) (Q : A -> sym_state -> Prop) c : (R -> hoare P c Q) -> hoare (fun k => P k /\ R) c Q.
Proof. intros Hc k x k' Hk [HP HR] E. by apply (Hc HR). Qed.
Lemma h_pure_l {A} P (R : Prop) (Q : A -> sym_state -> Prop) c : (R -> hoare P c Q) -> hoare (fun k => R /\ P k) c Q.
Proof. intros Hc k x k' Hk [HR HP] E. by apply (Hc HR). Qed.

Lemma h_change P Q field set x : (forall k y, user_of (set y k) = user_of k /\ f_need (set y k) = f_need k /\ f_valid (set y k) = f_valid k) ->
  (forall k, P k -> field k = x -> Q k) -> (forall k, P k -> Q (set_changed true (set x k))) ->
  hoare P (change s field set x) (fun _ => Q).
Proof.
  intros Hset H1 H2 k u k' Hk HP E. unfold change in E. erewrite bind_some in E by reflexivity.
  destruct (bool_decide (field (syms k s) = x)) eqn:Eb.
  - apply bool_decide_eq_true in Eb. injection E as _ <-. split_and!; [done|by intros t|apply evolves_refl|auto].
  - refine (h_bind P (fun _ k => exists k0, P k0 /\ k = set x k0) (fun _ => Q) _ _ _ _ k u k' Hk HP E); [|intros _].
    + apply h_upd; [|intros y Hy; by exists y]. intros y. destruct (Hset y x) as (E1 & E2 & E3). by rewrite E3.
    + apply h_upd; [done|]. intros y (y0 & Hy & ->). auto.
Qed.

Lemma h_get_type P : hoare P (sym_get_type info s) (fun x k => P k /\ x = spec_type s).
Proof.
  intros k x k' Hk HP E. unfold sym_get_type in E. erewrite bind_some in E by reflexivity.
  erewrite bind_some in E by reflexivity. injection E as <- <-.
  split_and!; [done|by intros t|apply evolves_refl|done|]. rewrite (cn_modules r k Hk).
  destruct (ac_choice Hac s) as [_ ->]. done.
Qed.

Lemma no_mod_if (b : bool) x : (if b then mod_to_yes x else x) = no_mod b x.
Proof. done. Qed.

Definition unchanged (c : symbol_value) (k : sym_state) : Prop := curr k = c /\ f_valid k = true.
Definition seen (c : symbol_value) (k : sym_state) : Prop :=
  unchanged c k /\ visible k = spec_visible rho s /\ rev_tri k = spec_rev rho s.

Lemma h_visibility c : hoare (unchanged c) (sym_calc_visibility info modules_sym calc s) (fun _ => seen c).
Proof.
  unfold sym_calc_visibility. pose proof (ac_props Hac s Hs) as Hp. rewrite Hr in Hp.
  pose proof (ac_dir Hac s Hs) as Hd. pose proof (ac_rev Hac s Hs) as Hv. rewrite Hr in Hd, Hv.
  eapply h_bind; [apply h_calc, (calc_prompts _ Hp)|]. intros v. apply h_pure. intros ->.
  eapply h_bind; [apply h_modules|]. intros m. cbv beta. apply h_pure_l. intros ->. cbv zeta. rewrite no_mod_if.
  change (no_mod _ _) with (spec_visible rho s).
  eapply h_seq; [apply (h_change _ (fun k => unchanged c k /\ visible k = spec_visible rho s));
    [by intros [] ?|by intros k HP|by intros [] HP]|].
  destruct (ac_choice Hac s) as [_ ->]. eapply h_bind; [apply h_calc, (calc_expr_opt _ Hd)|].
  intros v. apply h_pure. intros ->. eapply h_seq.
  { apply (h_change _ (fun k => unchanged c k /\ visible k = spec_visible rho s)); [by intros [] ?|by intros k HP|by intros [] HP]. }
  eapply (h_bind _ (fun v k => (unchanged c k /\ visible k = spec_visible rho s) /\
    v = match i_rev_dep (info s) with Some e => ev rho e | None => no end)).
  { destruct (i_rev_dep (info s)) as [e|].
    - apply h_calc, (calc_expr _ Hv).
    - intros k x k' Hk HP [= <- <-]. split_and!; [done|by intros t|apply evolves_refl|apply HP|apply HP|done]. }
  intros v. cbv beta. apply h_pure. intros ->. eapply h_bind; [apply h_get_type|]. intros ty. cbv beta. apply h_pure.
  intros ->. rewrite no_mod_if. change (no_mod _ _) with (spec_rev rho s).
  apply h_change; [by intros [] ?|by intros k [HP1 HP2] HP3|by intros [] [HP1 HP2]].
Qed.

(** [seen], with the mark of what is shown. *)
Definition seenw (c : symbol_value) (k : sym_state) : Prop := seen c k /\ written k.
Lemma seen_hidden c k : spec_visible rho s = no -> seen c k -> seenw c k.
Proof. intros Hv Hk. split; [done|]. destruct Hk as (_ & Ev & _). intros H. congruence. Qed.

Lemma h_mark P (Q : sym_state -> Prop) : (forall k, P k -> Q (set_write true k)) ->
  hoare P (upd_sym s (set_write true)) (fun _ => Q).
Proof. intros H. apply h_upd; [by intros []|exact H]. Qed.
Lemma seenw_mark c k : seenw c k -> seenw c (set_write true k).
Proof. intros [Hk _]. split; [by destruct k|]. by destruct k. Qed.
Lemma h_mark_seen c : hoare (seen c) (upd_sym s (set_write true)) (fun _ => seenw c).
Proof. apply h_mark. by intros []. Qed.
Lemma h_pre {A} P P' (Q : A -> sym_state -> Prop) c : (forall k, P k -> P' k) -> hoare P' c Q -> hoare P c Q.
Proof. intros HP Hc k x k' Hk H. apply Hc; auto. Qed.

Lemma default_below_r p v : spec_default rho s = Some (p, v) -> prop_below r p.
Proof. rewrite <- Hr. by apply default_below. Qed.

Lemma h_default c x : hoare (seenw c) (default_tri info modules_sym calc s x)
  (fun y k => seenw c k /\ y = match spec_default rho s with Some (p, v) => EXPR_AND (ev_opt rho (p_expr p)) v | None => x end).
Proof.
  unfold default_tri, sym_get_default_prop. pose proof (ac_props Hac s Hs) as Hp. rewrite Hr in Hp.
  eapply h_bind; [apply h_calc, (calc_first _ _ Hp)|]. intros o. cbv beta. apply h_pure. intros ->.
  fold (spec_default rho s). destruct (spec_default rho s) as [[p v]|] eqn:Ed.
  - eapply h_seq; [apply (h_mark _ (seenw c)), seenw_mark|]. apply h_calc, calc_and. exact (proj2 (default_below_r p v Ed)).
  - intros k y k' Hk HP [= <- <-]. split_and!; [done|by intros t|apply evolves_refl|done|done].
Qed.

(** What was read of the symbol. *)
Lemma h_got {A} P k0 c (Q : A -> sym_state -> Prop) : (P k0 -> user_of k0 = user s -> hoare P c Q) ->
  hoare (fun k => k0 = k /\ P k /\ user_of k = user s /\ f_need k = false) c Q.
Proof. intros Hc k x k' Hk (-> & HP & Hu & _) E. by apply (Hc HP Hu k x k'). Qed.
Lemma h_keep {A} P (x : A) : hoare P (ret x) (fun y k => P k /\ y = x).
Proof. intros k y k' Hk HP [= <- <-]. split_and!; [done|by intros t|apply evolves_refl|done|done]. Qed.

Lemma h_logical : hoare (seen no_value) (logical_value info modules_sym calc s)
  (fun x k => seenw no_value k /\ x = spec_logical rho s).
Proof.
  destruct (ac_choice Hac s) as [Hc Hcv]. unfold logical_value. rewrite Hcv, Hc. cbn [andb].
  eapply h_bind; [apply h_get|]. intros k0. apply h_got. intros (_ & Ev & _) Eu. rewrite Ev.
  unfold spec_logical. set (default_ := match spec_default rho s with Some _ => _ | None => no end). cbv zeta.
  set (x := if bool_decide (spec_visible rho s = no) then default_ else _).
  eapply (h_bind _ (fun y k => seenw no_value k /\ y = EXPR_OR x (spec_rev rho s))).
  - eapply (h_bind _ (fun y k => seenw no_value k /\ y = x)).
    + subst x. destruct (bool_decide (spec_visible rho s = no)) eqn:Eb.
      * apply bool_decide_eq_true in Eb. apply (h_pre _ (seenw no_value)); [intros k; by apply seen_hidden|].
        eapply (h_seq _ (seenw no_value)); [|apply h_default].
        apply h_if; intros _; [|apply h_mark, seenw_mark]. eapply h_post; [apply h_keep|]. by intros ? ? [? _].
      * eapply h_seq; [apply h_mark_seen|]. rewrite <- Eu. unfold user_of.
        destruct (f_def_user k0); [apply h_keep|apply h_default].
    + intros y. apply h_pure. intros ->. eapply h_bind; [apply h_get|]. intros k1. apply h_got.
      intros ((_ & _ & Er) & _) _. rewrite Er. apply h_keep.
  - intros y. apply h_pure. intros ->. eapply h_bind; [apply h_get_type|]. intros ty. apply h_pure. intros ->. apply h_keep.
Qed.

Lemma calc_symbol_val d : below r d -> calculates r (fun v => v = val (rho d)) (do calc d ;; k <- get_sym d ;; ret (val (curr k))).
Proof.
  intros Hb k x k' Hk E. apply bind_inv in E as (u & k1 & E1 & E2). injection E2 as <- <-.
  destruct (Hcalc d Hb k u k1 Hk E1) as (Hk1 & F1 & M1 & V1 & _). split_and!; try done. by rewrite (cons_curr r).
Qed.

Lemma h_string : hoare (seen empty_value) (string_value info modules_sym calc s)
  (fun x k => seenw empty_value k /\ x = spec_string rho s).
Proof.
  unfold string_value, spec_string. eapply h_bind; [apply h_get|]. intros k0. apply h_got. intros (_ & Ev & _) Eu. rewrite Ev.
  cbv zeta. set (default_ := match spec_default rho s with Some _ => _ | None => VStr "" end).
  match goal with |- hoare _ (if _ then ?d else _) _ => set (from := d) end.
  assert (Hfrom : hoare (seenw empty_value) from (fun x k => seenw empty_value k /\ x = default_)).
  { subst from default_. pose proof (ac_props Hac s Hs) as Hp. rewrite Hr in Hp. unfold sym_get_default_prop.
    eapply h_bind; [apply h_calc, (calc_first _ _ Hp)|]. intros o. apply h_pure. intros ->. fold (spec_default rho s).
    destruct (spec_default rho s) as [[p v]|] eqn:Ed; [|apply h_keep].
    destruct (prop_get_symbol p) as [d|] eqn:Ep; [|apply h_keep].
    eapply h_seq; [apply (h_mark _ (seenw empty_value)), seenw_mark|]. apply h_calc, calc_symbol_val.
    eapply prop_symbol_below; [by eapply default_below_r|done]. }
  clearbody from default_. destruct (bool_decide (spec_visible rho s = no)) eqn:Eb.
  { apply bool_decide_eq_true in Eb. apply (h_pre _ (seenw empty_value)); [intros k; by apply seen_hidden|exact Hfrom]. }
  eapply h_seq; [apply h_mark_seen|].
  rewrite <- Eu. unfold user_of. destruct (f_def_user k0); [apply h_keep|exact Hfrom].
Qed.

Lemma h_set_string c x : hoare (seenw c) (set_string s x) (fun _ => seenw (SymbolValue (VStr x) (tri c))).
Proof. apply h_upd; [by intros []|]. intros [] [[[E1 E2] E3] E4]. cbn in E1. by rewrite <- E1. Qed.

Lemma h_validate v : hoare (seenw (SymbolValue v no)) (sym_validate_range info modules_sym calc s)
  (fun _ => seenw (SymbolValue (spec_range rho s v) no)).
Proof.
  unfold sym_validate_range, spec_range. pose proof (ac_props Hac s Hs) as Hp. rewrite Hr in Hp.
  assert (Hkeep : hoare (seenw (SymbolValue v no)) (ret tt) (fun _ => seenw (SymbolValue v no))).
  { eapply h_post; [apply h_keep|]. by intros ? ? [? _]. }
  destruct (i_type (info s)) eqn:Et; try exact Hkeep.
  all: unfold sym_get_range_prop; eapply h_bind; [apply h_calc, (calc_first _ _ Hp)|]; intros o; apply h_pure; intros ->.
  all: destruct (spec_prop rho P_RANGE (i_props (info s))) as [[p x]|] eqn:Ed; [|exact Hkeep].
  all: destruct (range_syms p) as [[lo hi]|] eqn:Er; [|intros k y k' _ _ E; done].
  all: apply spec_prop_in in Ed as (Hin & _); rewrite List.Forall_forall in Hp; destruct (range_below _ _ _ _ (Hp p Hin) Er) as [Hlo Hhi].
  all: eapply h_bind; [apply h_get|]; intros k0; apply h_got; intros (([Ec _] & _) & _) _; rewrite Ec; cbn [val]; cbv zeta.
  all: eapply h_bind; [apply h_calc, (calc_range_val lo _ Hlo)|]; intros y; apply h_pure; intros ->.
  all: destruct (_ <=? _); [|apply (h_set_string (SymbolValue v no))].
  all: eapply h_bind; [apply h_calc, (calc_range_val hi _ Hhi)|]; intros y; apply h_pure; intros ->.
  all: destruct (_ <=? _); [exact Hkeep|apply (h_set_string (SymbolValue v no))].
Qed.

Lemma h_spread c oldval : hoare (seenw c) (spread info all_symbols modules_sym s oldval)
  (fun _ k => seen c k /\ write_ok s k).
Proof.
  destruct (ac_choice Hac s) as [Hc Hcv]. unfold spread. rewrite Hc.
  assert (Hkeep : hoare (seenw c) (ret tt) (fun _ => seenw c)) by (eapply h_post; [apply h_keep|]; by intros ? ? [? _]).
  eapply h_bind; [apply h_get|]. intros k0. apply h_got. intros _ _.
  eapply (h_seq _ (seenw c)).
  { destruct (bool_decide (oldval = curr k0)); [exact Hkeep|]. eapply (h_seq _ (seenw c)).
    - apply h_upd; [by intros []|]. by intros [].
    - rewrite bool_decide_eq_false_2; [exact Hkeep|]. intros <-. by destruct Hmod. }
  eapply (h_seq _ (seenw c)); [exact Hkeep|].
  eapply (h_seq _ (fun k => seen c k /\ write_ok s k)).
  { destruct (i_auto (info s)) eqn:Ea.
    - apply h_upd; [by intros []|]. intros [] [? _]. split; [done|]. intros _ Hau. congruence.
    - eapply h_post; [exact Hkeep|]. intros y k [H1 H2]. split; [exact H1|]. intros _ _. exact H2. }
  intros k x k' Hk HP E. erewrite bind_some in E by reflexivity. rewrite (cn_need r k Hk s) in E.
  injection E as <- <-. split; [done|split; [by intros t|split; [apply evolves_refl|exact HP]]].
Qed.

Definition done_with (k : sym_state) : Prop := sym_ok s k /\ f_valid k = true /\ write_ok s k.

Lemma h_marked : hoare (fun k => f_valid k = true) (calc_marked info all_symbols modules_sym calc s) (fun _ => done_with).
Proof.
  destruct (ac_choice Hac s) as [Hc Hcv]. unfold calc_marked. rewrite Hc, Hcv. cbn [andb].
  eapply h_bind; [apply h_get|]. intros k0. apply h_got. intros _ _. cbv zeta.
  assert (Hst : rho s = step rho s) by (by apply reference_step). unfold step in Hst.
  assert (Hset : forall P c, (forall k, P k -> f_valid k = true) -> hoare P (upd_sym s (set_curr c)) (fun _ => unchanged c)).
  { intros P c HP. apply h_upd; [by intros []|]. intros k Hk. split; [done|exact (HP k Hk)]. }
  assert (Hseen : forall c c', hoare (seenw c) (upd_sym s (set_curr c')) (fun _ => seenw c')).
  { intros c c'. apply h_upd; [by intros []|]. intros [] [[[E1 E2] [E3 E4]] E5]. done. }
  assert (Hwr : hoare (fun k => f_valid k = true) (upd_sym s (set_write false)) (fun _ k => f_valid k = true)).
  { apply h_upd; [by intros []|by intros []]. }
  assert (Hvis : hoare (fun k => f_valid k = true) (sym_calc_visibility info modules_sym calc s)
    (fun _ k => seen (curr k) k)).
  { intros k x k' Hk HP E. destruct (h_visibility (curr (syms k s)) k x k' Hk (conj eq_refl HP) E) as (Hk' & F & M & HQ).
    split_and!; [done..|]. pose proof HQ as [[E1 _] _]. by rewrite E1. }
  assert (Hseen0 : forall c, hoare (fun k => seen (curr k) k) (upd_sym s (set_curr c)) (fun _ => seen c)).
  { intros c. apply h_upd; [by intros []|]. intros [] [[E1 E2] [E3 E4]]. done. }
  assert (Hdone : forall c k, rho s = c -> seen c k /\ write_ok s k -> done_with k).
  { intros c k <- [[[E1 E2] [E3 E4]] E5]. split; [split; [done|]|done]. by intros _. }
  destruct (i_type (info s)) eqn:Et.
  1,7: apply h_upd; [by intros []|]; intros k1 Hv; split; [split; [by rewrite Hst; destruct k1|intros [Hn1 Hn2]; by rewrite Et in Hn1, Hn2]|split; [by destruct k1|intros [Hn1 Hn2]; by rewrite Et in Hn1, Hn2]].
  all: eapply h_seq; [exact Hwr|]; eapply h_seq; [exact Hvis|]; eapply h_seq; [apply Hseen0|]; cbn [is_logical].
  1,2: eapply (h_bind _ (fun v k => seenw no_value k /\ v = SymbolValue (VStr "n") (spec_logical rho s)));
    [eapply h_bind; [apply h_logical|]; intros x; apply h_pure; intros ->; apply h_keep|];
    intros v; apply h_pure; intros ->; eapply h_seq; [apply Hseen|];
    eapply h_seq; [eapply h_post; [apply h_keep|]; intros ? ? [HP _]; exact HP|];
    eapply h_seq; [unfold sym_validate_range; rewrite Et; eapply h_post; [apply h_keep|]; intros ? ? [HP _]; exact HP|];
    eapply h_post; [apply h_spread|]; intros u k HP; by apply (Hdone _ k Hst).
  all: eapply (h_bind _ (fun v k => seenw empty_value k /\ v = SymbolValue (spec_string rho s) no));
    [eapply h_bind; [apply h_string|]; intros x; apply h_pure; intros ->; apply h_keep|];
    intros v; apply h_pure; intros ->; eapply h_seq; [apply Hseen|];
    eapply h_seq; [eapply h_post; [apply h_keep|]; intros ? ? [HP _]; exact HP|];
    eapply h_seq; [apply h_validate|]; eapply h_post; [apply h_spread|]; intros u k HP; by apply (Hdone _ k Hst).
Qed.

Lemma h_body k x k' : cons r k -> calc_body info all_symbols modules_sym calc s k = Some (x, k') ->
  f_valid (syms k s) = false -> cons r k' /\ frame (Some s) r k k' /\ evolves (Some s) k k' /\ done_with (syms k' s).
Proof.
  intros Hk E Hv. unfold calc_body in E. erewrite bind_some in E by reflexivity. rewrite Hv in E.
  destruct (ac_choice Hac s) as [_ Hcv]. rewrite Hcv in E. cbn [andb] in E. erewrite bind_some in E by reflexivity.
  refine (h_seq (fun _ => True) (fun k => f_valid k = true) (fun _ => done_with) (upd_sym s (set_valid true))
    (calc_marked info all_symbols modules_sym calc s) _ h_marked k x k' Hk I _).
  - apply h_upd; [by intros []|by intros []].
  - rewrite <- E. unfold calc_marked. rewrite Hcv. reflexivity.
Qed.
End Calc.

Lemma cons_less r r' k : cons r k -> (r' <= r)%nat -> cons r' k.
Proof. intros [Hc Hv Hu Hn Hm] Hle. constructor; try done. intros t Ht Hr. apply Hv; [done|lia]. Qed.

Lemma calc_value_spec n : forall r, calc_spec r (sym_calc_value info all_symbols modules_sym n).
Proof.
  induction n as [|n IH]; intros r t Hb k x k' Hk E; [done|]. cbn [sym_calc_value] in E.
  destruct (f_valid (syms k t)) eqn:Hv.
  { unfold calc_body in E. erewrite bind_some in E by reflexivity. rewrite Hv in E. injection E as _ <-.
    split_and!; [done|by intros u|apply evolves_refl|done|done]. }
  assert (Ht : In t all_symbols).
  { destruct (in_dec (fun x y => decide (x = y)) t all_symbols) as [|Hn]; [done|].
    by rewrite (proj1 (cn_const r k Hk t Hn)) in Hv. }
  specialize (Hb Ht). assert (Hk0 : cons (rank t) k) by (apply (cons_less r); [done|lia]).
  destruct (h_body (rank t) _ (IH (rank t)) t Ht eq_refl k x k' Hk0 E Hv) as (Hk' & F & M & (Hok & Hval & Hw)).
  split_and!; [|intros u Hu Hru _; apply F; [done|lia|intros [= ->]; lia]| |done|congruence].
  2: { intros u. destruct (M u) as [M1 M2]. split; [done|]. intros _. destruct (decide (u = t)) as [->|Hne]; [by rewrite Hv|].
       apply M2. congruence. }
  destruct Hk' as [Hc Hvl Hu Hn Hm]. constructor; try done. intros u Hin Hru Hvu.
  destruct (decide (u = t)) as [->|Hne]; [done|]. destruct (decide (rank u < rank t)%nat); [by apply Hvl|].
  assert (Eu : syms k' u = syms k u) by (apply F; [done|lia|congruence]). rewrite Eu in Hvu |- *.
  by apply (cn_valid r k Hk).
Qed.
End Spec.

(** ** Sessions *)

Section World.
Context (info : symbol_ref -> sym_info) (all_symbols : list symbol_ref) (modules_sym : symbol_ref).
Context (modules : tristate) (const : symbol_ref -> symbol_value) (rank : symbol_ref -> nat).
Context (Hcfg : config_ok info) (Hac : acyclic info all_symbols rank).
Context (Hmod : ~ In modules_sym all_symbols) (Hmodval : tri (const modules_sym) = modules).
Abbreviation calc_value := (sym_calc_value info all_symbols modules_sym (calc_fuel all_symbols)).

Definition users (k : kstate) (s : symbol_ref) : option symbol_value := user_of (syms k s).
(** The solution of the equations for settings of the user. *)
Definition solution (user : symbol_ref -> option symbol_value) : symbol_ref -> symbol_value :=
  reference info modules user all_symbols rank const.

(** The constants are as given, and no choice waits for its values. *)
Record started (k : kstate) : Prop := {
  st_const : forall s, ~ In s all_symbols -> f_valid (syms k s) = true /\ curr (syms k s) = const s;
  st_need : forall s, f_need (syms k s) = false;
  st_modules : modules_val k = modules }.

(** What was calculated is what the equations say. *)
Definition consistent (user : symbol_ref -> option symbol_value) (r : nat) (k : kstate) : Prop :=
  cons info modules user all_symbols rank const r k.

(** No symbol is valid after all were made invalid but the constants. *)
Lemma invalidate_run l : incl l all_symbols -> forall k, exists k',
  for_each l (fun s => upd_sym s (set_valid false)) k = Some (tt, k') /\ modules_val k' = modules_val k /\
  (forall s, users k' s = users k s /\ curr (syms k' s) = curr (syms k s) /\ f_need (syms k' s) = f_need (syms k s)) /\
  (forall s, In s l -> f_valid (syms k' s) = false) /\
  (forall s, ~ In s l -> syms k' s = syms k s).
Proof.
  induction l as [|s l IH]; intros Hl k; [by exists k|]. cbn [for_each]. erewrite bind_some by reflexivity.
  destruct (IH ltac:(intros t Ht; apply Hl; by right) (with_sym s (set_valid false) k)) as (k' & -> & Em & Hsame & Hin & Hout).
  exists k'. split_and!; [done|done| | |].
  - intros t. destruct (Hsame t) as (-> & -> & ->). unfold users. rewrite syms_with. by destruct (decide (t = s)) as [->|].
  - intros t [<-|Ht]; [|auto]. destruct (in_dec (fun x y => decide (x = y)) s l) as [Hs|Hs]; [auto|].
    rewrite (Hout s Hs), syms_with. by rewrite decide_True.
  - intros t Ht. rewrite (Hout t) by (intros ?; apply Ht; by right). rewrite syms_with, decide_False; [done|].
    intros ->. apply Ht. by left.
Qed.

Lemma calc_valid_run n s k : (0 < n)%nat -> f_valid (syms k s) = true ->
  sym_calc_value info all_symbols modules_sym n s k = Some (tt, k).
Proof. intros Hn Hv. destruct n; [lia|]. cbn [sym_calc_value]. unfold calc_body. erewrite bind_some by reflexivity. by rewrite Hv. Qed.

Lemma clear_run k : started k -> exists k',
  sym_clear_all_valid info all_symbols modules_sym (calc_fuel all_symbols) k = Some (tt, k') /\
  (forall r, consistent (users k) r k') /\ forall s, In s all_symbols -> f_valid (syms k' s) = false.
Proof.
  intros [Hc Hn Hm]. destruct (invalidate_run all_symbols ltac:(by intros s) k) as (k' & E & Em & Hsame & Hin & Hout).
  exists k'. unfold sym_clear_all_valid. rewrite (bind_some _ _ _ _ _ E). split_and!.
  - apply calc_valid_run; [unfold calc_fuel; lia|]. rewrite (Hout _ Hmod). by apply Hc.
  - intros r. constructor; [| | | |congruence].
    + intros s Hs. rewrite (Hout s Hs). auto.
    + intros s Hs _ Hv. by rewrite (Hin s Hs) in Hv.
    + intros s. apply Hsame.
    + intros s. destruct (Hsame s) as (_ & _ & ->). auto.
  - done.
Qed.

Lemma ask_run user s k : inv info all_symbols k -> (forall r, consistent user r k) -> exists k',
  calc_value s k = Some (tt, k') /\ inv info all_symbols k' /\ (forall r, consistent user r k') /\ evolves info None k k' /\
  f_valid (syms k' s) = true.
Proof.
  intros Hi Hk. destruct (total_calc info all_symbols modules_sym Hcfg s k Hi) as ([] & k' & E & Hi' & _).
  assert (Hspec : forall r, (rank s < r)%nat ->
    consistent user r k' /\ evolves info None k k' /\ f_valid (syms k' s) = true).
  { intros r Hr. destruct (calc_value_spec info modules user all_symbols rank const Hac modules_sym Hmod Hmodval _ r s
      (fun _ => Hr) k tt k' (Hk r) E) as (? & _ & ? & ? & _). done. }
  destruct (Hspec (S (rank s))) as (_ & M & V); [lia|]. exists k'. split_and!; [done|done| |done|done].
  intros r. eapply cons_less; [apply (Hspec (S (rank s) + r)%nat)|]; lia.
Qed.

Lemma ask_all_run user asks : forall k, inv info all_symbols k -> (forall r, consistent user r k) -> exists k',
  for_each asks calc_value k = Some (tt, k') /\ inv info all_symbols k' /\ (forall r, consistent user r k') /\ evolves info None k k' /\
  forall s, In s asks -> f_valid (syms k' s) = true.
Proof.
  induction asks as [|s asks IH]; intros k Hi Hk; [exists k; split_and!; [done|done|done|apply evolves_refl|done]|].
  destruct (ask_run user s k Hi Hk) as (k1 & E1 & Hi1 & Hk1 & M1 & V1). cbn [for_each]. rewrite (bind_some _ _ _ _ _ E1).
  destruct (IH k1 Hi1 Hk1) as (k2 & E2 & Hi2 & Hk2 & M2 & V2). exists k2. split_and!; [done|done|done|by eapply evolves_trans|].
  intros t [<-|Ht]; [by eapply evolves_valid; [exact M2|]|auto].
Qed.

Lemma consistent_curr user s k : (forall r, consistent user r k) -> f_valid (syms k s) = true ->
  curr (syms k s) = solution user s.
Proof.
  intros Hk Hv. eapply (cons_curr info modules user all_symbols rank const (S (rank s))); [apply Hk|intros _; lia|done].
Qed.

(** C3: the values the configuration tool computes on demand are the solution of
    the configuration's equations.  In a configuration without choices whose
    dependencies do not go in circles, for any settings of the user and any
    symbols asked for, in any order, after the old values were dropped
    ([sym_clear_all_valid]): every call ends, the user's settings stay as they
    are, and every symbol asked for has the value [solution] gives it.  That is
    the one valuation in which each symbol of the table has the value [step] says:
    the user's setting as far as the prompts are visible, else the first default
    that applies, at least what selects it, and a number within its range, with
    expressions by the plain evaluation [KExpr.expr_calc_value]. *)
Theorem calculated_values_correct asks k : inv info all_symbols k -> started k ->
  (exists k', (do sym_clear_all_valid info all_symbols modules_sym (calc_fuel all_symbols) ;; for_each asks calc_value) k
     = Some (tt, k') /\
   (forall s, users k' s = users k s) /\
   forall s, In s asks -> curr (syms k' s) = solution (users k) s) /\
  (forall s, In s all_symbols -> solution (users k) s = step info modules (users k) (solution (users k)) s) /\
  (forall s, ~ In s all_symbols -> solution (users k) s = const s).
Proof.
  intros Hi Hst. split_and!; [|intros s; by apply reference_step|intros s; by apply reference_const].
  destruct (clear_run k Hst) as (k1 & E1 & Hk1 & _). rewrite (bind_some _ _ _ _ _ E1).
  destruct (total_clear info all_symbols modules_sym Hcfg k Hi) as ([] & k1' & E1' & Hi1 & _).
  rewrite E1 in E1'. injection E1' as <-.
  destruct (ask_all_run (users k) asks k1 Hi1 Hk1) as (k2 & E2 & _ & Hk2 & _ & V2). exists k2. split_and!; [done| |].
  - intros s. apply (cn_user _ _ _ _ _ _ _ _ (Hk2 O)).
  - intros s Hs. apply consistent_curr; auto.
Qed.

(** ** What the user sets *)

Lemma step_user user user' f s : user s = user' s -> step info modules user f s = step info modules user' f s.
Proof. intros E. unfold step, spec_logical, spec_string. by rewrite E. Qed.

(** A setting does not reach the symbols below. *)
Lemma iterate_user user user' s : (forall t, t <> s -> user t = user' t) -> forall n t, (rank t < rank s)%nat ->
  iterate info modules user all_symbols const n t = iterate info modules user' all_symbols const n t.
Proof.
  intros Hu. induction n as [|n IH]; intros t Ht; [done|]. cbn [iterate].
  destruct (in_dec _ t all_symbols) as [Hin|]; [|done]. rewrite (step_user user user') by (apply Hu; intros ->; lia).
  eapply step_agree; [done..|]. intros u Hbelow. destruct (in_dec (fun x y => decide (x = y)) u all_symbols) as [Hu'|Hu'].
  - specialize (Hbelow Hu'). apply IH. lia.
  - destruct n; cbn [iterate]; [done|]. by destruct (in_dec _ u all_symbols).
Qed.
Lemma solution_below user user' s : In s all_symbols -> (forall t, t <> s -> user t = user' t) ->
  agree all_symbols rank (rank s) (solution user) (solution user').
Proof.
  intros Hs Hu t Ht. destruct (in_dec (fun x y => decide (x = y)) t all_symbols) as [Hin|Hout].
  - apply (iterate_user user user' s Hu). auto.
  - unfold solution. by rewrite !reference_const.
Qed.

(** A boolean or tristate set between what selects it and its visibility. *)
Lemma spec_logical_set rho user s u : user s = Some u -> is_logical (spec_type info modules s) = true ->
  spec_visible info modules rho s <> no ->
  tri_val (spec_rev info modules rho s) <= tri_val (tri u) <= tri_val (spec_visible info modules rho s) ->
  (spec_type info modules s = S_BOOLEAN -> tri u <> mod_) -> spec_logical info modules user rho s = tri u.
Proof.
  intros Eu Hl Hv Hx Hm. unfold spec_logical. rewrite Eu, (bool_decide_eq_false_2 (spec_visible info modules rho s = no)) by done.
  destruct (bool_decide (spec_type info modules s = S_BOOLEAN)) eqn:Eb;
    [apply bool_decide_eq_true in Eb; specialize (Hm Eb)|clear Hm];
    destruct (tri u), (spec_visible info modules rho s), (spec_rev info modules rho s); cbn in *; done || lia.
Qed.

Lemma within_range_run s x k b k' : modules_val k = modules ->
  sym_tristate_within_range info s x k = Some (b, k') -> k' = k /\
  (b = true -> visible (syms k s) <> no /\ is_logical (spec_type info modules s) = true /\
   (spec_type info modules s = S_BOOLEAN -> x <> mod_) /\
   tri_val (rev_tri (syms k s)) <= tri_val x <= tri_val (visible (syms k s))).
Proof.
  destruct (ac_choice _ _ _ Hac s) as [_ Hcv]. intros Em E. unfold sym_tristate_within_range, sym_get_type in E.
  repeat (erewrite bind_some in E by reflexivity). injection E as <- <-. rewrite Hcv, Em. cbn [andb orb].
  fold (spec_type info modules s). split; [done|]. destruct (bool_decide (visible _ = no)) eqn:Ev; [done|].
  apply bool_decide_eq_false in Ev. destruct (is_logical _); [|done]. cbn [negb].
  destruct (bool_decide (spec_type info modules s = S_BOOLEAN)) eqn:Et, (bool_decide (x = mod_)) eqn:Ex; cbn [andb]; try done.
  all: destruct (_ <=? _); [done|]; intros [Hr Hx]%andb_true_iff; apply Z.leb_le in Hr, Hx; split_and!; try done.
  all: intros Eb; first [by apply bool_decide_eq_false in Ex|by apply bool_decide_eq_false in Et].
Qed.

(** Only the user's setting of [s] differs. *)
Definition touches (s : symbol_ref) (k k' : kstate) : Prop :=
  modules_val k' = modules_val k /\ (forall t, t <> s -> syms k' t = syms k t) /\
  f_need (syms k' s) = f_need (syms k s).
Lemma touches_with s f k : (forall x, f_need (f x) = f_need x) -> touches s k (with_sym s f k).
Proof.
  intros Hf. split_and!; [done|intros t Ht|]; rewrite syms_with; [by rewrite decide_False|by rewrite decide_True, Hf].
Qed.
Lemma touches_trans s k1 k2 k3 : touches s k1 k2 -> touches s k2 k3 -> touches s k1 k3.
Proof.
  intros (M1 & O1 & N1) (M2 & O2 & N2). split_and!; [congruence|intros t Ht; by rewrite O2, O1|congruence].
Qed.
Lemma started_touches s k k' : In s all_symbols -> started k -> touches s k k' -> started k'.
Proof.
  intros Hs [Hc Hn Hm] (M & O & N). constructor; [| |congruence].
  - intros t Ht. rewrite O by (intros ->; done). auto.
  - intros t. destruct (decide (t = s)) as [->|Hne]; [congruence|rewrite O; auto].
Qed.
Lemma consistent_started user r k : consistent user r k -> started k.
Proof. intros [Hc _ _ Hn Hm]. by constructor. Qed.

Lemma mark_user_run s k : exists k', mark_user s k = Some (tt, k') /\ touches s k k' /\ f_def_user (syms k' s) = true.
Proof.
  unfold mark_user. erewrite bind_some by reflexivity. destruct (f_def_user (syms k s)) eqn:Ed.
  - exists k. split_and!; done.
  - erewrite bind_some by reflexivity. eexists. split_and!; [reflexivity| |].
    + eapply touches_trans; by apply touches_with.
    + rewrite !syms_with, !decide_True by done. done.
Qed.

(** An accepted setting of a new value. *)
Lemma set_tristate_run s x k k1 : In s all_symbols -> started k -> tri (curr (syms k s)) <> x ->
  sym_set_tristate_value info all_symbols modules_sym (calc_fuel all_symbols) s x k = Some (true, k1) ->
  sym_tristate_within_range info s x k = Some (true, k) /\
  exists user' v, (forall t, users k1 t = user' t) /\ user' s = Some (SymbolValue v x) /\
    (forall t, t <> s -> user' t = users k t) /\ (forall r, consistent user' r k1).
Proof.
  intros Hs Hst Hne E. unfold sym_set_tristate_value in E. destruct (ac_choice _ _ _ Hac s) as [_ Hcv]. rewrite Hcv in E.
  erewrite bind_some in E by reflexivity. rewrite bool_decide_eq_false_2 in E by done.
  apply bind_inv in E as (ok & k0 & E0 & E).
  destruct (within_range_run s x k ok k0 (st_modules k Hst) E0) as [-> _].
  destruct ok; cbn [negb] in E; [|done]. split; [done|].
  destruct (mark_user_run s k) as (k2 & E2 & T2 & D2). rewrite (bind_some _ _ _ _ _ E2) in E. cbn [andb] in E.
  erewrite bind_some in E by reflexivity. erewrite bind_some in E by reflexivity.
  set (k3 := with_sym s _ k2) in E.
  assert (T3 : touches s k k3) by (eapply touches_trans; [exact T2|by apply touches_with]).
  destruct (clear_run k3 (started_touches s k k3 Hs Hst T3)) as (k4 & E4 & C4 & _).
  rewrite (bind_some _ _ _ _ _ E4) in E. injection E as <-.
  exists (users k3), (val (def_user (syms k2 s))). split_and!; [intros t; apply (cn_user _ _ _ _ _ _ _ _ (C4 O))| | |done].
  - unfold users, k3, user_of. rewrite syms_with, decide_True by done. cbn. by rewrite D2.
  - intros t Ht. unfold users. destruct T3 as (_ & O & _). by rewrite (O t Ht).
Qed.

(** C40: what the user sets takes effect.  In a configuration without choices and
    without circles, when the values at hand are those of the equations and that
    of [s] is known: a new value which [sym_set_tristate_value] accepts becomes
    the setting of [s] and of no other symbol; after that every symbol asked for
    has the value of the equations with this setting, and for [s] that is the
    value the user chose: neither what selects [s] nor its visibility changes
    it. *)
Theorem accepted_value_takes_effect user s x asks k k1 : inv info all_symbols k ->
  (forall r, consistent user r k) -> In s all_symbols -> f_valid (syms k s) = true -> tri (curr (syms k s)) <> x ->
  sym_set_tristate_value info all_symbols modules_sym (calc_fuel all_symbols) s x k = Some (true, k1) ->
  exists user' k2, (forall t, users k1 t = user' t) /\ (forall t, t <> s -> user' t = user t) /\
    for_each (s :: asks) calc_value k1 = Some (tt, k2) /\
    (forall t, In t (s :: asks) -> curr (syms k2 t) = solution user' t) /\ tri (curr (syms k2 s)) = x.
Proof.
  intros Hi Hk Hs Hv Hne E.
  destruct (set_tristate_run s x k k1 Hs (consistent_started _ _ _ (Hk O)) Hne E) as (Er & user' & v & U & Us & Ut & C).
  destruct (total_set_tristate info all_symbols modules_sym Hcfg s x k Hi) as (b & k1' & E' & Hi1 & _).
  rewrite E in E'. injection E' as <- <-.
  destruct (ask_all_run user' (s :: asks) k1 Hi1 C) as (k2 & E2 & _ & C2 & _ & V2). exists user', k2.
  assert (Hcurr : forall t, In t (s :: asks) -> curr (syms k2 t) = solution user' t) by (intros t Ht; apply consistent_curr; auto).
  assert (Ut' : forall t, t <> s -> user' t = user t) by (intros t Hne'; rewrite Ut by done; apply (cn_user _ _ _ _ _ _ _ _ (Hk O))).
  split_and!; try done. rewrite Hcurr by by left. unfold solution. rewrite reference_step by done.
  destruct (within_range_run s x k true k (cn_modules _ _ _ _ _ _ _ _ (Hk O)) Er) as [_ (Hvis & Hl & Hm & Hx)]; [done|].
  destruct (cn_valid _ _ _ _ _ _ _ _ (Hk (S (rank s))) s Hs ltac:(lia) Hv) as [_ Hok].
  assert (Ht : is_logical (i_type (info s)) = true) by (revert Hl; unfold spec_type; destruct (i_type (info s)); done).
  destruct Hok as [Ev Erev]; [by split; intros Et; rewrite Et in Ht|]. rewrite Ev in Hx, Hvis. rewrite Erev in Hx.
  pose proof (solution_below user user' s Hs ltac:(intros t Hne'; by rewrite Ut')) as Ha. unfold solution in Ha.
  rewrite (visible_agree info modules all_symbols rank Hac s _ _ Hs Ha) in Hx, Hvis.
  rewrite (rev_agree info modules all_symbols rank Hac s _ _ Hs Ha) in Hx.
  transitivity (spec_logical info modules user' (reference info modules user' all_symbols rank const) s).
  - unfold step. by destruct (i_type (info s)).
  - by rewrite (spec_logical_set _ user' s _ Us).
Qed.
End World.

(** ** An example *)

Module SampleEq.
Definition A := SymbolAt 1.
Definition B := SymbolAt 2.
Definition H := SymbolAt 3.
Definition lo := SymbolAt 4.
Definition hi := SymbolAt 5.
Definition plain (n : string) (ty : symbol_type) (ps : list property) (rev : option expr) : sym_info :=
  SymInfo (Some n) ty false false false false ps None rev.
(** B is shown when A is set and A selects it; H is a number from 0x10 to 0x20. *)
Definition info (s : symbol_ref) : sym_info :=
  match s with
  | SymbolAt 1 => plain "A" S_BOOLEAN [Property P_PROMPT true None None; Property P_DEFAULT false None (Some (E_SYMBOL symbol_yes))] None
  | SymbolAt 2 => plain "B" S_TRISTATE [Property P_PROMPT true (Some (E_SYMBOL A)) None] (Some (E_SYMBOL A))
  | SymbolAt 3 => plain "H" S_HEX [Property P_PROMPT true (Some (E_NOT (Cmp E_EQUAL B symbol_no))) None;
      Property P_RANGE false None (Some (E_RANGE lo hi))] None
  | SymbolAt 4 => plain "0x10" S_HEX [] None
  | SymbolAt 5 => plain "0x20" S_HEX [] None
  | _ => plain "?" S_UNKNOWN [] None
  end.
Definition const (s : symbol_ref) : symbol_value :=
  match s with
  | symbol_yes => SymbolValue (VStr "y") yes | symbol_mod => SymbolValue (VStr "m") mod_ | symbol_no => SymbolValue (VStr "n") no
  | SymbolAt 4 => SymbolValue (VStr "0x10") no | SymbolAt 5 => SymbolValue (VStr "0x20") no
  | SymbolAt _ => empty_value
  end.
Definition all : list symbol_ref := [A; B; H].
Definition rank (s : symbol_ref) : nat := match s with SymbolAt 2 => 1%nat | SymbolAt 3 => 2%nat | _ => 0%nat end.
(** The user has set H to 0x99. *)
Definition start : kstate := KState (fun s =>
  let user := bool_decide (s = H) in
  SymState (if decide (In s all) then empty_value else const s) (SymbolValue (VStr "0x99") no) no no no
    (bool_decide (~ In s all)) false false user false) no.

Lemma info_cases s : s = A \/ s = B \/ s = H \/ i_props (info s) = [] /\ i_choice (info s) = false /\
  i_choiceval (info s) = false /\ i_type (info s) <> S_BOOLEAN.
Proof.
  destruct s as [| | |a]; try (repeat right; done).
  destruct (decide (1 <= a <= 5)) as [Ha|Ha].
  - assert (a = 1 \/ a = 2 \/ a = 3 \/ a = 4 \/ a = 5) as [->|[->|[->|[->| ->]]]] by lia; auto.
    all: repeat right; done.
  - repeat right. destruct a as [|[[[]|[]|]|[[]|[]|]|]|]; try done; lia.
Qed.
Lemma in_all s : In s all -> s = A \/ s = B \/ s = H.
Proof. cbn. intuition. Qed.

Lemma acyclic_info : acyclic info all rank.
Proof.
  split.
  4: intros s; by destruct (info_cases s) as [->|[->|[->|(_ & ? & ? & _)]]].
  all: intros s Hs; destruct (in_all s Hs) as [->|[->| ->]]; cbn; try done.
  all: repeat constructor; unfold below; cbn; try done; try lia; intros Hin; by destruct (in_all _ Hin) as [|[|]].
Qed.
Lemma config_ok_info : config_ok info.
Proof.
  pose proof (ac_choice _ _ _ acyclic_info) as Hc. split.
  - intros s. by destruct (Hc s) as [_ ->].
  - intros s. by destruct (Hc s) as [-> _].
  - intros s p. by destruct (Hc s) as [-> _].
  - intros s p. destruct (info_cases s) as [->|[->|[->|(-> & _)]]]; cbn; intuition; by subst.
Qed.
Lemma started_start : started all no const start.
Proof.
  split; try done. intros s Hs. unfold start. cbn [syms]. cbn [f_valid curr].
  rewrite bool_decide_eq_true_2 by done. by rewrite decide_False.
Qed.
Lemma inv_of_start : inv info all start.
Proof.
  split.
  - intros s Hs. unfold weight. by rewrite (proj1 (st_const _ _ _ _ started_start s Hs)).
  - done.
  - intros s. unfold typed_state. destruct (info_cases s) as [->|[->|[->|(_ & _ & _ & Hb)]]]; done.
Qed.
End SampleEq.

(** All were asked for. *)
Definition run {A} (c : MK A) (k : kstate) : kstate := match c k with Some (_, k') => k' | None => k end.
Abbreviation clear := (sym_clear_all_valid SampleEq.info SampleEq.all symbol_no (calc_fuel SampleEq.all)).
Abbreviation ask := (sym_calc_value SampleEq.info SampleEq.all symbol_no (calc_fuel SampleEq.all)).
Definition SampleEq_ready : kstate := run (for_each SampleEq.all ask) (run clear SampleEq.start).
Lemma sample_mod : ~ In symbol_no SampleEq.all.
Proof. intros Hin. by destruct (SampleEq.in_all _ Hin) as [|[|]]. Qed.
Lemma sample_ready : inv SampleEq.info SampleEq.all SampleEq_ready /\
  forall r, consistent SampleEq.info SampleEq.all no SampleEq.const SampleEq.rank (users SampleEq.start) r SampleEq_ready.
Proof.
  destruct (clear_run SampleEq.info SampleEq.all symbol_no no SampleEq.const SampleEq.rank sample_mod SampleEq.start SampleEq.started_start)
    as (k1 & E1 & C1 & _).
  destruct (total_clear SampleEq.info SampleEq.all symbol_no SampleEq.config_ok_info SampleEq.start SampleEq.inv_of_start)
    as ([] & k1' & E1' & I1 & _). rewrite E1 in E1'. injection E1' as <-.
  destruct (ask_all_run SampleEq.info SampleEq.all symbol_no no SampleEq.const SampleEq.rank SampleEq.config_ok_info
    SampleEq.acyclic_info sample_mod eq_refl (users SampleEq.start) SampleEq.all k1 I1 C1) as (k2 & E2 & I2 & C2 & _).
  unfold SampleEq_ready, run. by rewrite E1, E2.
Qed.

Abbreviation session := (fun asks => do clear ;; for_each asks ask).

Lemma calculated_values_correct_witness :
  (exists k', session [SampleEq.H; SampleEq.B] SampleEq.start = Some (tt, k') /\
   (forall s, users k' s = users SampleEq.start s) /\
   forall s, In s [SampleEq.H; SampleEq.B] ->
     curr (syms k' s) = solution SampleEq.info SampleEq.all no SampleEq.const SampleEq.rank (users SampleEq.start) s) /\
  map (solution SampleEq.info SampleEq.all no SampleEq.const SampleEq.rank (users SampleEq.start)) [SampleEq.A; SampleEq.B; SampleEq.H]
  = [SymbolValue (VStr "n") yes; SymbolValue (VStr "n") yes; SymbolValue (VStr "0x20") no].
Proof.
  split; [|vm_compute; reflexivity].
  apply (calculated_values_correct SampleEq.info SampleEq.all symbol_no no SampleEq.const SampleEq.rank
    SampleEq.config_ok_info SampleEq.acyclic_info sample_mod eq_refl
    [SampleEq.H; SampleEq.B] SampleEq.start SampleEq.inv_of_start SampleEq.started_start).
Defined.

(** A is set to n: B, which it selected and showed, falls to n. *)
Lemma accepted_value_takes_effect_witness :
  let set_A := sym_set_tristate_value SampleEq.info SampleEq.all symbol_no (calc_fuel SampleEq.all) SampleEq.A no in
  let k1 := run set_A SampleEq_ready in
  (tri (curr (syms SampleEq_ready SampleEq.A)) = yes /\ tri (curr (syms SampleEq_ready SampleEq.B)) = yes) /\
  exists user' k2, (forall t, users k1 t = user' t) /\ (forall t, t <> SampleEq.A -> user' t = users SampleEq.start t) /\
    for_each [SampleEq.A; SampleEq.B] ask k1 = Some (tt, k2) /\
    (forall t, In t [SampleEq.A; SampleEq.B] ->
       curr (syms k2 t) = solution SampleEq.info SampleEq.all no SampleEq.const SampleEq.rank user' t) /\
    tri (curr (syms k2 SampleEq.A)) = no.
Proof.
  intros set_A k1. split; [split; vm_compute; reflexivity|].
  apply (accepted_value_takes_effect SampleEq.info SampleEq.all symbol_no no SampleEq.const SampleEq.rank
    SampleEq.config_ok_info SampleEq.acyclic_info sample_mod eq_refl (users SampleEq.start) SampleEq.A no [SampleEq.B]
    SampleEq_ready k1 (proj1 sample_ready) (proj2 sample_ready)).
  - by left.
  - vm_compute. reflexivity.
  - vm_compute. discriminate.
  - change (set_A SampleEq_ready = Some (true, run set_A SampleEq_ready)). unfold run.
    assert (Hb : match set_A SampleEq_ready with Some (b, _) => b | None => false end = true) by (vm_compute; reflexivity).
    revert Hb. generalize (set_A SampleEq_ready). intros [[b k]|] Hb; [by subst b|done].
Defined.

(** ** A setting that is lost *)

Module SampleStale.
Definition T := SymbolAt 1.
(** A tristate shown up to m whose default is y. *)
Definition info (s : symbol_ref) : sym_info :=
  match s with
  | SymbolAt 1 => SymInfo (Some "T"%string) S_TRISTATE false false false false
      [Property P_PROMPT true (Some (E_SYMBOL symbol_mod)) None; Property P_DEFAULT false None (Some (E_SYMBOL symbol_yes))] None None
  | _ => SymInfo None S_UNKNOWN false false false false [] None None
  end.
Definition start : kstate := KState (fun s =>
  let v x := SymState (SymbolValue VNull x) empty_value no no no true false false false false in
  match s with symbol_yes => v yes | symbol_mod => v mod_ | symbol_no => v no | _ => set_valid false (v no) end) yes.
Definition value_after (c : MK unit) : option tristate :=
  match (do c ;; do sym_calc_value info [T] symbol_yes 4 T ;; k <- get_sym T ;; ret (tri (curr k))) start with
  | Some (x, _) => Some x | None => None end.
Definition set_shown : MK unit :=
  do sym_calc_value info [T] symbol_yes 4 T ;; do sym_set_tristate_value info [T] symbol_yes 4 T yes ;; ret tt.
End SampleStale.

(** Setting the value that is shown is accepted whatever the visibility: y is
    recorded and shown, until the values are calculated again. *)
Lemma same_value_is_not_checked :
  SampleStale.value_after (ret tt) = Some yes /\ SampleStale.value_after SampleStale.set_shown = Some yes /\
  SampleStale.value_after (do SampleStale.set_shown ;;
    sym_clear_all_valid SampleStale.info [SampleStale.T] symbol_yes 4) = Some mod_.
Proof. vm_compute. auto. Qed.
