(* ===== verification/KConf.v ===== *)
(** * Configuration files: scripts/kconfig/confdata.c

    What is written to a configuration file, to the C header and to tristate.conf,
    and how a configuration is read back: files are their texts, without NUL.
    Opening and renaming files, messages and the count of warnings are left out,
    and so is reading auto.conf; only there symbols get the type S_OTHER. *)
From Stdlib Require Import String Ascii.
From S2P Require Import Prelude Machine KExpr KSym.
Local Open Scope seabios_scope.

Definition nl : ascii := "010"%char.
Definition cr : ascii := "013"%char.
Definition quote : ascii := "034"%char.
Definition backslash : ascii := "092"%char.
Definition line_end : string := String nl EmptyString.

(** [strcat] *)
Fixpoint strcat (a b : string) : string := match a with EmptyString => b | String c a => String c (strcat a b) end.
Infix "+++" := strcat (at level 60, right associativity) : seabios_scope.

(** ** Text *)

(** The loop with [strcspn] copies the runs between quotes and backslashes. *)
Fixpoint escape (s : string) : string :=
  match s with
  | EmptyString => EmptyString
  | String c s => if Ascii.eqb c quote || Ascii.eqb c backslash then String backslash (String c (escape s)) else String c (escape s)
  end.
Definition sym_escape_string_value (s : string) : string := String quote (escape s +++ String quote EmptyString).

(** The text of a quoted string after its first quote; [None] without the last
    quote.  A backslash goes, and what follows it stays, whatever it is. *)
Fixpoint unescape (p : string) : option string :=
  match p with
  | EmptyString => None
  | String c s =>
    if Ascii.eqb c quote then Some EmptyString
    else if Ascii.eqb c backslash then
      match s with
      | EmptyString => None
      | String d s => match unescape s with Some x => Some (String d x) | None => None end
      end
    else match unescape s with Some x => Some (String c x) | None => None end
  end.

(** [strchr]: what is before and after the first [c]. *)
Fixpoint split_at (c : ascii) (s : string) : option (string * string) :=
  match s with
  | EmptyString => None
  | String d s =>
    if Ascii.eqb d c then Some (EmptyString, s)
    else match split_at c s with Some (a, b) => Some (String d a, b) | None => None end
  end.
(** [memcmp(s, p, strlen(p)) == 0], and the rest of [s]. *)
Fixpoint strip_prefix (p s : string) : option string :=
  match p, s with
  | EmptyString, _ => Some s
  | String c p, String d s => if Ascii.eqb c d then strip_prefix p s else None
  | _, _ => None
  end.
Definition tail (s : string) : string := match s with String _ s => s | EmptyString => EmptyString end.
Definition head_is (c : ascii) (s : string) : bool := match s with String d _ => Ascii.eqb d c | EmptyString => false end.

(** [compat_getline], until the end of the file: a line has its newline. *)
Fixpoint compat_getlines (text : string) : list string :=
  match text with
  | EmptyString => []
  | String c text =>
    if Ascii.eqb c nl then line_end :: compat_getlines text
    else match compat_getlines text with [] => [String c EmptyString] | l :: ls => String c l :: ls end
  end.

(** Up to the newline, and without a carriage return before it. *)
Fixpoint drop_last_cr (s : string) : string :=
  match s with
  | EmptyString => EmptyString
  | String c EmptyString => if Ascii.eqb c cr then EmptyString else s
  | String c s => String c (drop_last_cr s)
  end.
Definition chomp (p : string) : string := match split_at nl p with Some (a, _) => drop_last_cr a | None => p end.

(** A comment: every line of the text after a hash sign.  The text of the heading
    is at most 255 characters. *)
Fixpoint comment_lines (n : nat) (mark p : string) : string :=
  match n with
  | O => EmptyString
  | S n =>
    let put l := mark +++ (match l with EmptyString => EmptyString | _ => String " " l end) +++ line_end in
    match split_at nl p with
    | Some (l, p) => put l +++ comment_lines n mark p
    | None => put p
    end
  end.
Definition kconfig_print_comment (value : string) : string := comment_lines (S (String.length value)) "#" value.
Definition header_print_comment (value : string) : string :=
  "/*" +++ line_end +++ comment_lines (S (String.length value)) " *" value +++ " */" +++ line_end.

Definition conf_write_heading (print_comment : string -> string) (title : string) : string :=
  print_comment (substring 0 255 (line_end +++ "Automatically generated file; DO NOT EDIT." +++ line_end +++ title +++ line_end)).

(** ** Menus *)

Inductive menu := Menu {
  m_sym : option symbol_ref; m_prompt : option (string * option expr); m_visibility : option expr; m_list : list menu }.

(** The first pointer that is not null: the list of the menu, its next, or the
    next of the nearest parent that has one.  [rest] are the nexts of the parents. *)
Fixpoint next_parent (rest : list (list menu)) : option (menu * list (list menu)) :=
  match rest with
  | [] => None
  | (m :: nexts) :: rest => Some (m, nexts :: rest)
  | [] :: rest => next_parent rest
  end.
Definition next_menu (m : menu) (rest : list (list menu)) : option (menu * list (list menu)) :=
  match m_list m with c :: nexts => Some (c, nexts :: rest) | [] => next_parent rest end.

Section Conf.
Context (info : symbol_ref -> sym_info) (all_symbols : list symbol_ref) (modules_sym : symbol_ref).
Context (CONFIG_ : string).       (* the prefix: CONFIG_, or the environment's *)
Context (optional : symbol_ref -> bool) (allnoconfig_y : symbol_ref -> bool).   (* two more flags *)

(** ** Writing *)

Definition print_name (s : symbol_ref) : MK string :=
  match i_name (info s) with Some n => ret (CONFIG_ +++ n) | None => crash end.

(** [skip_unset]: the argument of the printer. *)
Definition kconfig_print_symbol (skip_unset : bool) (s : symbol_ref) (value : string) : MK string :=
  let set := n <- print_name s ;; ret (n +++ "=" +++ value +++ line_end) in
  if is_logical (i_type (info s)) && head_is "n" value then
    if skip_unset then ret EmptyString else n <- print_name s ;; ret ("# " +++ n +++ " is not set" +++ line_end)
  else set.

Definition header_print_symbol (s : symbol_ref) (value : string) : MK string :=
  let define suffix x := n <- print_name s ;; ret ("#define " +++ n +++ suffix +++ " " +++ x +++ line_end) in
  match i_type (info s) with
  | S_BOOLEAN | S_TRISTATE =>
    if head_is "n" value then define EmptyString "0"%string
    else define (if head_is "m" value then "_MODULE"%string else EmptyString) "1"%string
  | S_HEX => define EmptyString ((match value with EmptyString => "0"%string | _ => if has_0x value then EmptyString else "0x"%string end) +++ value)
  | S_STRING | S_INT => define EmptyString value
  | _ => ret EmptyString
  end.

Definition to_upper (c : ascii) : ascii :=
  let n := nat_of_ascii c in if (97 <=? n)%nat && (n <=? 122)%nat then ascii_of_nat (n - 32) else c.
Definition tristate_print_symbol (s : symbol_ref) (value : string) : MK string :=
  if bool_decide (i_type (info s) = S_TRISTATE) && negb (head_is "n" value) then
    n <- print_name s ;; ret (n +++ "=" +++ (match value with String c _ => String (to_upper c) EmptyString | _ => EmptyString end) +++ line_end)
  else ret EmptyString.

Section Calc.
Context (calc : symbol_ref -> MK unit).

Definition conf_write_symbol (print_symbol : symbol_ref -> string -> MK string) (s : symbol_ref) : MK string :=
  match i_type (info s) with
  | S_OTHER | S_UNKNOWN => ret EmptyString
  | S_STRING => str <- sym_get_string_value info modules_sym calc s ;; print_symbol s (sym_escape_string_value str)
  | _ => str <- sym_get_string_value info modules_sym calc s ;; print_symbol s str
  end.

(** [menu_is_visible], for a menu without a symbol. *)
Definition comment_is_visible (m : menu) : MK bool :=
  match m_prompt m with
  | None => ret false
  | Some (_, visible) =>
    v <- expr_calc_opt info modules_sym calc (m_visibility m) ;;
    if bool_decide (v = no) then ret false
    else v <- expr_calc_opt info modules_sym calc visible ;; ret (negb (bool_decide (v = no)))
  end.
Definition menu_get_prompt (m : menu) : string := match m_prompt m with Some (t, _) => t | None => EmptyString end.

Definition write_menu (m : menu) : MK string :=
  match m_sym m with
  | None =>
    v <- comment_is_visible m ;;
    ret (if v : bool then line_end +++ "#" +++ line_end +++ "# " +++ menu_get_prompt m +++ line_end +++ "#" +++ line_end else EmptyString)
  | Some s =>
    if i_choice (info s) then ret EmptyString
    else
      do calc s ;; k <- get_sym s ;;
      if f_write k then do upd_sym s (set_write false) ;; conf_write_symbol (kconfig_print_symbol false) s
      else ret EmptyString
  end.

(** The same for a minimal configuration: what has its default value is not
    written. *)
Definition is_choice_default (s : symbol_ref) : MK bool :=
  if i_choiceval (info s) then
    match sym_get_choice_prop info s with
    | None => crash
    | Some p =>
      match prop_get_symbol p with
      | None => crash
      | Some c =>
        d <- sym_choice_default info modules_sym calc c ;; k <- get_sym s ;;
        ret (negb (optional c) && bool_decide (d = Some s) && bool_decide (i_type (info s) = S_BOOLEAN) &&
             bool_decide (tri (curr k) = yes))
      end
    end
  else ret false.
Definition write_changed_menu (string_default : symbol_ref -> MK string) (m : menu) : MK string :=
  match m_sym m with
  | None => do comment_is_visible m ;; ret EmptyString
  | Some s =>
    if i_choice (info s) then ret EmptyString
    else
      do calc s ;; k <- get_sym s ;;
      if f_write k then
        do upd_sym s (set_write false) ;; c <- sym_is_changable s ;;
        if negb c then ret EmptyString
        else
          x <- sym_get_string_value info modules_sym calc s ;; d <- string_default s ;;
          if String.eqb x d then ret EmptyString
          else
            skip <- is_choice_default s ;;
            if skip : bool then ret EmptyString else conf_write_symbol (kconfig_print_symbol false) s
      else ret EmptyString
  end.

(** One symbol of auto.conf, tristate.conf and the header. *)
Definition write_autoconf_symbol (s : symbol_ref) : MK (string * string * string) :=
  do calc s ;;
  match i_name (info s) with
  | None => ret (EmptyString, EmptyString, EmptyString)
  | Some _ =>
    k <- get_sym s ;;
    if f_write k then
      a <- conf_write_symbol (kconfig_print_symbol true) s ;;
      t <- conf_write_symbol tristate_print_symbol s ;;
      h <- conf_write_symbol header_print_symbol s ;; ret (a, t, h)
    else h <- conf_write_symbol header_print_symbol s ;; ret (EmptyString, EmptyString, h)
  end.
Fixpoint write_autoconf_symbols (l : list symbol_ref) : MK (string * string * string) :=
  match l with
  | [] => ret (EmptyString, EmptyString, EmptyString)
  | s :: l =>
    x <- write_autoconf_symbol s ;; y <- write_autoconf_symbols l ;;
    let '(a, t, h) := x in let '(a', t', h') := y in ret (a +++ a', t +++ t', h +++ h')
  end.
End Calc.

(** The loop over the menus.  The fuel is the number of menus. *)
Fixpoint write_menus (write : menu -> MK string) (n : nat) (m : menu) (rest : list (list menu)) : MK string :=
  match n with
  | O => crash
  | S n =>
    t <- write m ;;
    match next_menu m rest with
    | None => ret t
    | Some (m, rest) => t' <- write_menus write n m rest ;; ret (t +++ t')
    end
  end.

Fixpoint menu_size (m : menu) : nat := S (list_sum (map menu_size (m_list m))).

(** The file; [changed] is [conf_get_changed].  [n] is the fuel of
    [sym_calc_value]. *)
Definition conf_write (n : nat) (title : string) (menus : list menu) (changed : bool) : MK string :=
  do (if changed then ret tt else sym_clear_all_valid info all_symbols modules_sym n) ;;
  let heading := conf_write_heading kconfig_print_comment title in
  match menus with
  | [] => ret heading
  | m :: nexts =>
    t <- write_menus (write_menu (sym_calc_value info all_symbols modules_sym n)) (list_sum (map menu_size menus)) m [nexts] ;;
    ret (heading +++ t)
  end.

Definition conf_write_defconfig (n : nat) (menus : list menu) : MK string :=
  do sym_clear_all_valid info all_symbols modules_sym n ;;
  match menus with
  | [] => ret EmptyString
  | m :: nexts =>
    write_menus (write_changed_menu (sym_calc_value info all_symbols modules_sym n) (sym_get_string_default info all_symbols modules_sym n))
      (list_sum (map menu_size menus)) m [nexts]
  end.

Definition conf_write_autoconf (n : nat) (title : string) : MK (string * string * string) :=
  do sym_clear_all_valid info all_symbols modules_sym n ;;
  x <- write_autoconf_symbols (sym_calc_value info all_symbols modules_sym n) all_symbols ;;
  let '(a, t, h) := x in
  ret (conf_write_heading kconfig_print_comment title +++ a, conf_write_heading kconfig_print_comment title +++ t,
       conf_write_heading header_print_comment title +++ h).

(** ** Reading *)

(** The symbols of a name are in one bucket of the hash table, in the order of
    [all_symbols]. *)
Definition sym_find (name : string) : option symbol_ref :=
  if String.eqb name "y" then Some symbol_yes
  else if String.eqb name "m" then Some symbol_mod
  else if String.eqb name "n" then Some symbol_no
  else find (fun s => bool_decide (i_name (info s) = Some name) && negb (i_const (info s))) all_symbols.

Definition user_tri (s : symbol_ref) (x : tristate) : MK unit :=
  upd_sym s (fun k => set_def_user true (set_def (SymbolValue (val (def_user k)) x) k)).
Definition user_val (s : symbol_ref) (x : string) : MK unit :=
  upd_sym s (fun k => set_def_user true (set_def (SymbolValue (VStr x) (tri (def_user k))) k)).

(** True when the value is refused. *)
Definition conf_set_sym_val (s : symbol_ref) (p : string) : MK bool :=
  let checked p := if sym_string_valid info s p then do user_val s p ;; ret false else ret true in
  match i_type (info s) with
  | S_BOOLEAN | S_TRISTATE =>
    if bool_decide (i_type (info s) = S_TRISTATE) && head_is "m" p then do user_tri s mod_ ;; ret false
    else if head_is "y" p then do user_tri s yes ;; ret false
    else if head_is "n" p then do user_tri s no ;; ret false
    else ret true
  | S_STRING =>
    if head_is quote p then match unescape (tail p) with Some x => checked x | None => ret true end else ret false
  | S_INT | S_HEX => checked p
  | S_OTHER => crash
  | S_UNKNOWN => ret false
  end.

(** [setsym]: a choice follows the settings of its values. *)
Definition set_choice (s : symbol_ref) : MK unit :=
  if i_choiceval (info s) then
    match sym_get_choice_prop info s with
    | None => crash
    | Some p =>
      match prop_get_symbol p with
      | None => crash
      | Some c =>
        k <- get_sym s ;; kc <- get_sym c ;;
        do match tri (def_user k) with
           | no => ret tt
           | mod_ => if bool_decide (tri (def_user kc) = yes) then upd_sym c (set_def_user false) else ret tt
           | yes => upd_sym c (fun kc => set_def (SymbolValue (VSym s) (tri (def_user kc))) kc)
           end ;;
        upd_sym c (fun kc => set_def (SymbolValue (val (def_user kc)) (EXPR_OR (tri (def_user kc)) (tri (def_user k)))) kc)
      end
    end
  else ret tt.

(** "# CONFIG_X is not set", and other comments.  (Of a last line of one character
    without newline the code looks at what an earlier line left in its buffer.) *)
Definition read_comment (line : string) : MK unit :=
  match strip_prefix CONFIG_ (tail (tail line)) with
  | None => ret tt
  | Some rest =>
    match split_at " " rest with
    | None => ret tt
    | Some (name, p) =>
      match strip_prefix "is not set" p with
      | None => ret tt
      | Some _ =>
        match sym_find name with
        | None => ret tt
        | Some s => do (if is_logical (i_type (info s)) then user_tri s no else ret tt) ;; set_choice s
        end
      end
    end
  end.
Definition read_line (line : string) : MK unit :=
  if head_is "#" line then read_comment line
  else
    match strip_prefix CONFIG_ line with
    | None => ret tt
    | Some rest =>
      match split_at "=" rest with
      | None => ret tt
      | Some (name, p) =>
        match sym_find name with
        | None => ret tt
        | Some s => bad <- conf_set_sym_val s (chomp p) ;; if bad : bool then ret tt else set_choice s
        end
      end
    end.

(** The user's settings go; those of choices count as given. *)
Definition forget (s : symbol_ref) : MK unit :=
  upd_sym s (fun k => set_def (SymbolValue VNull no) (set_def_user (i_choice (info s)) (set_valid false (set_changed true k)))).

Definition conf_read_simple (n : nat) (text : string) : MK unit :=
  do for_each all_symbols forget ;;
  do for_each (compat_getlines text) read_line ;;
  sym_calc_value info all_symbols modules_sym n modules_sym.

(** Whether the symbol has the value that was read. *)
Definition as_saved (s : symbol_ref) (k : sym_state) : bool :=
  if is_logical (i_type (info s)) then bool_decide (tri (def_user k) = tri (curr k))
  else String.eqb (string_of (val (curr k))) (string_of (val (def_user k))).
Fixpoint count_unsaved (n : nat) (l : list symbol_ref) : MK nat :=
  match l with
  | [] => ret O
  | s :: l =>
    do sym_calc_value info all_symbols modules_sym n s ;; k <- get_sym s ;;
    c <- count_unsaved n l ;;
    ret (if i_choice (info s) || i_auto (info s) then c
         else if f_def_user k && f_write k then if as_saved s k then c else S c
         else if negb (f_def_user k) && negb (f_write k) then c else S c)
  end.

(** A hidden symbol appears as new when it is shown, and a number out of its
    range is dropped. *)
Fixpoint drop_settings (n : nat) (l : list symbol_ref) (unsaved : nat) : MK nat :=
  match l with
  | [] => ret unsaved
  | s :: l =>
    k <- get_sym s ;;
    if negb (f_def_user k) || i_choiceval (info s) then drop_settings n l unsaved
    else
      do (if bool_decide (visible k = no) && (unsaved =? 0)%nat then upd_sym s (set_def_user false) else ret tt) ;;
      match i_type (info s) with
      | S_STRING | S_INT | S_HEX =>
        ok <- sym_string_within_range info all_symbols modules_sym n s (string_of (val (def_user k))) ;;
        if ok : bool then drop_settings n l unsaved
        else do upd_sym s (fun k => set_valid false (set_def_user false k)) ;; drop_settings n l (S unsaved)
      | _ => drop_settings n l unsaved
      end
  end.
Definition conf_read (n : nat) (text : string) : MK unit :=
  do conf_read_simple n text ;;
  unsaved <- count_unsaved n all_symbols ;;
  do drop_settings n all_symbols unsaved ;; ret tt.

(** ** New symbols *)

Inductive conf_def_mode := def_default | def_yes | def_mod | def_no.      (* def_random is left out *)

Definition default_user (mode : conf_def_mode) (s : symbol_ref) : option tristate :=
  match mode with
  | def_default => None
  | def_yes => Some yes
  | def_mod => Some mod_
  | def_no => Some (if allnoconfig_y s then yes else no)
  end.
Fixpoint set_new (mode : conf_def_mode) (l : list symbol_ref) : MK bool :=
  match l with
  | [] => ret false
  | s :: l =>
    k <- get_sym s ;;
    if f_def_user k || f_valid k then set_new mode l
    else
      ty <- sym_get_type info s ;;
      if is_logical ty then
        do match default_user mode s with Some x => user_tri s x | None => ret tt end ;;
        do set_new mode l ;; ret true
      else set_new mode l
  end.
Fixpoint set_new_choices (n : nat) (l : list symbol_ref) : MK bool :=
  match l with
  | [] => ret false
  | s :: l =>
    k <- get_sym s ;;
    if f_def_user k || negb (i_choice (info s)) then set_new_choices n l
    else
      do sym_calc_value info all_symbols modules_sym n s ;; do set_all_choice_values info s ;;
      do set_new_choices n l ;; ret true
  end.
Definition conf_set_all_new_symbols (n : nat) (mode : conf_def_mode) : MK bool :=
  a <- set_new mode all_symbols ;;
  do sym_clear_all_valid info all_symbols modules_sym n ;;
  do for_each all_symbols (fun s => k <- get_sym s ;;
       if (i_choice (info s) && negb (f_def_user k)) || i_choiceval (info s) then upd_sym s (set_need true) else ret tt) ;;
  b <- set_new_choices n all_symbols ;; ret (a || b).
End Conf.
