(* ===== verification/KConfText.v ===== *)
(** * The text of configuration files

    What [KConf] writes is split into the same lines, names and values when it is
    read back. *)
From Stdlib Require Import String Ascii.
From S2P Require Import Prelude Machine KExpr KSym KConf.
Local Open Scope seabios_scope.

Lemma app_assoc_s a b c : (a +++ b) +++ c = a +++ b +++ c.
Proof. induction a as [|x a IH]; cbn [strcat]; [done|by rewrite IH]. Qed.
Lemma app_nil_s a : a +++ EmptyString = a.
Proof. induction a as [|x a IH]; cbn [strcat]; [done|by rewrite IH]. Qed.

(** The characters of a string. *)
Fixpoint without (c : ascii) (s : string) : Prop :=
  match s with EmptyString => True | String d s => d <> c /\ without c s end.
Lemma without_app c a b : without c a -> without c b -> without c (a +++ b).
Proof. induction a as [|x a IH]; cbn; [done|]. intros [Hx Ha] Hb. auto. Qed.

Lemma split_at_app c a b : without c a -> split_at c (a +++ String c b) = Some (a, b).
Proof.
  induction a as [|x a IH]; cbn; [by rewrite Ascii.eqb_refl|]. intros [Hx Ha].
  rewrite (proj2 (Ascii.eqb_neq x c) Hx), IH by done. done.
Qed.
Lemma strip_prefix_app p s : strip_prefix p (p +++ s) = Some s.
Proof. induction p as [|c p IH]; cbn; [done|]. by rewrite Ascii.eqb_refl. Qed.

(** ** Quoting *)

Lemma unescape_escape x t : unescape (escape x +++ String quote t) = Some x.
Proof.
  induction x as [|c x IH]; [done|]. cbn [escape]. destruct (Ascii.eqb c quote || Ascii.eqb c backslash) eqn:E.
  - cbn [strcat unescape]. by rewrite IH.
  - apply orb_false_iff in E as [E1 E2]. cbn [strcat unescape]. by rewrite E1, E2, IH.
Qed.
Lemma escape_without c x : c <> backslash -> without c x -> without c (escape x).
Proof.
  intros Hc. induction x as [|d x IH]; [done|]. cbn [without escape]. intros [Hd Hx].
  destruct (_ || _); cbn [without]; auto.
Qed.

(** ** Lines *)

Lemma lines_line l t : without nl l -> compat_getlines (l +++ String nl t) = (l +++ line_end) :: compat_getlines t.
Proof.
  induction l as [|c l IH]; cbn [strcat compat_getlines]; [done|]. intros [Hc Hl].
  rewrite (proj2 (Ascii.eqb_neq c nl) Hc), IH by done. done.
Qed.

(** Texts of whole lines. *)
Inductive complete : string -> Prop :=
| complete_nil : complete EmptyString
| complete_line l t : without nl l -> complete t -> complete (l +++ String nl t).
Lemma complete_app a b : complete a -> complete b -> complete (a +++ b).
Proof.
  induction 1 as [|l t Hl _ IH]; [done|]. intros Hb. rewrite app_assoc_s. cbn [strcat]. by apply complete_line; auto.
Qed.
Lemma complete_one l : without nl l -> complete (l +++ line_end).
Proof. intros Hl. by apply complete_line, complete_nil. Qed.
Lemma lines_app a b : complete a -> compat_getlines (a +++ b) = compat_getlines a ++ compat_getlines b.
Proof.
  induction 1 as [|l t Hl _ IH]; [done|]. rewrite app_assoc_s. cbn [strcat]. by rewrite !lines_line, IH.
Qed.

(** The value of a line, when it does not end in a carriage return. *)
Fixpoint last_char (s : string) : option ascii :=
  match s with EmptyString => None | String c EmptyString => Some c | String _ s => last_char s end.
Lemma chomp_line v : without nl v -> last_char v <> Some cr -> chomp (v +++ line_end) = v.
Proof.
  intros Hv Hl. unfold chomp. unfold line_end. rewrite split_at_app by done.
  clear Hv. induction v as [|c [|d v] IH]; [done| |].
  - cbn in *. destruct (Ascii.eqb_spec c cr); [congruence|done].
  - cbn [drop_last_cr] in *. by rewrite IH.
Qed.
Lemma last_char_app a c : last_char (a +++ String c EmptyString) = Some c.
Proof. induction a as [|x [|y a] IH]; [done|done|exact IH]. Qed.
Lemma last_char_without v c : without c v -> last_char v <> Some c.
Proof. induction v as [|x [|y v] IH]; [done|by intros [H _] [= E]|]. intros [_ H]. exact (IH H). Qed.

Lemma without_digits v : all_chars is_xdigit v = true -> without nl v /\ without cr v.
Proof.
  induction v as [|c v IH]; [done|]. cbn [all_chars without]. intros [Hc Hv]%andb_true_iff. destruct (IH Hv).
  split_and!; try done; intros ->; vm_compute in Hc; done.
Qed.
