(* ===== verification/KConfCorrect.v ===== *)
(** * A saved configuration is restored

    [conf_write] writes a file from which [conf_read_simple] gives every symbol
    its value back, whatever the settings were before. *)
From Stdlib Require Import String Ascii.
From S2P Require Import Prelude Machine KExpr KSym KSymInv KSymCorrect KConf KConfText.
Local Open Scope seabios_scope.

(** What a line gives a symbol. *)
Inductive setting := STri (x : tristate) | SStr (x : string).
Definition apply_setting (p : symbol_ref * setting) : MK unit :=
  match p.2 with STri x => user_tri p.1 x | SStr x => user_val p.1 x end.
Definition setting_of (info : symbol_ref -> sym_info) (s : symbol_ref) (v : symbol_value) : setting :=
  if is_logical (i_type (info s)) then STri (tri v) else SStr (string_of (val v)).

Lemma for_each_app {A} (l1 l2 : list A) f k : for_each (l1 ++ l2) f k = (do for_each l1 f ;; for_each l2 f) k.
Proof.
  revert k. induction l1 as [|x l1 IH]; intros k; [done|]. cbn [for_each app]. unfold bind.
  destruct (f x k) as [[u k1]|]; [|done]. rewrite IH. done.
Qed.

(** ** Reading lines *)

Section Read.
Context (info : symbol_ref -> sym_info) (all_symbols : list symbol_ref) (CONFIG_ : string).
Context (Hprefix : without nl CONFIG_ /\ exists c p, CONFIG_ = String c p /\ c <> "#"%char).
Context (Hchoice : forall s, i_choiceval (info s) = false).
Abbreviation read := (read_line info all_symbols CONFIG_).

(** Reading the text makes these settings. *)
Definition reads (text : string) (l : list (symbol_ref * setting)) : Prop :=
  complete text /\ forall k, for_each (compat_getlines text) read k = for_each l apply_setting k.

Lemma reads_nil : reads EmptyString [].
Proof. by split; [constructor|]. Qed.
Lemma reads_app t1 l1 t2 l2 : reads t1 l1 -> reads t2 l2 -> reads (t1 +++ t2) (l1 ++ l2).
Proof.
  intros [C1 R1] [C2 R2]. split; [by apply complete_app|]. intros k. rewrite lines_app, !for_each_app by done.
  unfold bind. rewrite R1. destruct (for_each l1 _ k) as [[u k1]|]; [apply R2|done].
Qed.
Lemma reads_line l (x : list (symbol_ref * setting)) : without nl l ->
  (forall k, read (l +++ line_end) k = for_each x apply_setting k) -> reads (l +++ line_end) x.
Proof.
  intros Hl Hr. split; [by apply complete_one|]. intros k. unfold line_end at 1. rewrite lines_line by done.
  cbn [for_each compat_getlines]. unfold bind. rewrite Hr. by destruct (for_each x _ k) as [[[] k']|].
Qed.

(** A comment that does not look like a setting. *)
Definition comment_ok (t : string) : bool :=
  match strip_prefix CONFIG_ (t +++ line_end) with None => true | Some _ => false end.
Lemma reads_comment t : without nl t -> comment_ok t = true -> reads ("# " +++ t +++ line_end) [].
Proof.
  intros Ht Hc. change ("# " +++ t +++ line_end) with (("# " +++ t) +++ line_end). apply reads_line; [done|].
  intros k. unfold read_line. cbn [head_is strcat]. rewrite Ascii.eqb_refl. unfold read_comment. cbn [tail].
  unfold comment_ok in Hc. by destruct (strip_prefix CONFIG_ (t +++ line_end)).
Qed.
Lemma reads_hash : reads ("#" +++ line_end) [].
Proof.
  apply reads_line; [done|]. intros k. unfold read_line. cbn [head_is strcat]. rewrite Ascii.eqb_refl. unfold read_comment. cbn [tail].
  by destruct Hprefix as [_ (c & p & -> & _)].
Qed.
Lemma reads_blank : reads line_end [].
Proof.
  apply (reads_line EmptyString); [done|]. intros k.
  destruct Hprefix as [Hn (c & p & E & _)]. rewrite E in Hn. destruct Hn as [Hc _]. unfold read_line. rewrite E.
  cbn [strcat head_is]. cbn [strip_prefix line_end]. by rewrite (proj2 (Ascii.eqb_neq c nl) Hc).
Qed.

Fixpoint quiet (n : nat) (p : string) : bool :=
  match n with
  | O => false
  | S n => match split_at nl p with Some (l, p) => comment_ok l && quiet n p | None => comment_ok p end
  end.
Lemma split_at_without c p l q : split_at c p = Some (l, q) -> without c l.
Proof.
  revert l. induction p as [|d p IH]; intros l; [done|]. cbn [split_at]. destruct (Ascii.eqb_spec d c); [by intros [= <- _]|].
  destruct (split_at c p) as [[a b]|]; [|done]. intros [= <- <-]. split; [done|]. by apply IH.
Qed.
Lemma split_at_none c p : split_at c p = None -> without c p.
Proof.
  induction p as [|d p IH]; [done|]. cbn [split_at]. destruct (Ascii.eqb_spec d c); [done|].
  destruct (split_at c p) as [[a b]|]; [done|]. intros _. split; auto.
Qed.
Lemma reads_mark l : without nl l -> comment_ok l = true ->
  reads ("#" +++ (match l with EmptyString => EmptyString | _ => String " " l end) +++ line_end) [].
Proof. intros Hl Hc. destruct l as [|c l]; [apply reads_hash|]. exact (reads_comment _ Hl Hc). Qed.
Lemma reads_comment_lines n : forall p, quiet n p = true -> reads (comment_lines n "#" p) [].
Proof.
  induction n as [|n IH]; intros p; [done|]. cbn [quiet comment_lines]. destruct (split_at nl p) as [[l q]|] eqn:E.
  - intros [Hl Hq]%andb_true_iff. change [] with ([] ++ [] : list (symbol_ref * setting)).
    apply reads_app; [|by apply IH]. apply reads_mark; [by eapply split_at_without|done].
  - intros Hl. apply reads_mark; [by apply split_at_none|done].
Qed.

(** The name of a symbol, as it stands in the file. *)
Record named (s : symbol_ref) (n : string) : Prop := {
  nm_name : i_name (info s) = Some n;
  nm_find : sym_find info all_symbols n = Some s;
  nm_nl : without nl n;
  nm_eq : without "=" n;
  nm_space : without " " n }.

Lemma read_set s n v x : named s n -> without nl v -> last_char v <> Some cr ->
  (forall k, conf_set_sym_val info s v k = (do for_each x apply_setting ;; ret (match x with [] => true | _ => false end)) k) ->
  reads (CONFIG_ +++ n +++ "=" +++ v +++ line_end) x.
Proof.
  intros [Hn Hf Hnl He _] Hv Hl Hset. destruct Hprefix as [Hp (c & p & Ep & Hc)].
  replace (CONFIG_ +++ n +++ "=" +++ v +++ line_end) with ((CONFIG_ +++ n +++ "=" +++ v) +++ line_end) by by rewrite !app_assoc_s.
  apply reads_line; [repeat apply without_app; try done; by split|].
  intros k. unfold read_line. rewrite !app_assoc_s. replace (head_is "#" _) with false.
  2: { rewrite Ep. cbn [strcat head_is]. by rewrite (proj2 (Ascii.eqb_neq c "#") Hc). }
  rewrite strip_prefix_app. cbn [strcat]. rewrite split_at_app, Hf, chomp_line by done.
  unfold bind. rewrite Hset. unfold bind, set_choice. rewrite Hchoice. destruct x as [|y x]; [done|].
  by destruct (for_each (y :: x) apply_setting k) as [[[] k']|].
Qed.

Lemma read_unset s n : named s n -> is_logical (i_type (info s)) = true ->
  reads ("# " +++ (CONFIG_ +++ n) +++ " is not set" +++ line_end) [(s, STri no)].
Proof.
  intros [Hn Hf Hnl He Hsp] Hl. destruct Hprefix as [Hp _].
  replace ("# " +++ (CONFIG_ +++ n) +++ " is not set" +++ line_end)
    with (("# " +++ CONFIG_ +++ n +++ " is not set") +++ line_end) by by rewrite !app_assoc_s.
  apply reads_line; [split; [done|]; split; [done|]; repeat apply without_app; try done; repeat (split; [done|]); done|].
  intros k. unfold read_line. cbn [strcat head_is]. rewrite Ascii.eqb_refl. unfold read_comment. cbn [tail].
  rewrite !app_assoc_s, strip_prefix_app. change (" is not set" +++ line_end) with (String " " ("is not set" +++ line_end)).
  rewrite split_at_app, strip_prefix_app, Hf, Hl by done. unfold set_choice. rewrite Hchoice.
  cbn [for_each]. unfold bind. done.
Qed.
End Read.

(** ** Writing *)

Section World.
Context (info : symbol_ref -> sym_info) (all_symbols : list symbol_ref) (modules_sym : symbol_ref).
Context (modules : tristate) (const : symbol_ref -> symbol_value) (rank : symbol_ref -> nat).
Context (Hcfg : config_ok info) (Hac : acyclic info all_symbols rank).
Context (Hmod : ~ In modules_sym all_symbols) (Hmodval : tri (const modules_sym) = modules).
Context (CONFIG_ : string) (Hprefix : without nl CONFIG_ /\ exists c p, CONFIG_ = String c p /\ c <> "#"%char).
Abbreviation calc := (sym_calc_value info all_symbols modules_sym (calc_fuel all_symbols)).
Abbreviation sol := (solution info all_symbols modules const rank).
Abbreviation consistent := (consistent info all_symbols modules const rank).
Abbreviation inv := (inv info all_symbols).
Abbreviation reads := (reads info all_symbols CONFIG_).

(** Above every rank. *)
Definition top : nat := S (list_sum (map rank all_symbols)).
Lemma sum_bound {A} (f : A -> nat) l x : In x l -> (f x <= list_sum (map f l))%nat.
Proof.
  induction l as [|y l IH]; [done|]. cbn [map list_sum foldr]. fold (list_sum (map f l)). intros [->|Hx]; [lia|].
  specialize (IH Hx). lia.
Qed.
Lemma below_top s : below all_symbols rank top s.
Proof. intros Hs. unfold top. pose proof (sum_bound rank all_symbols s Hs). lia. Qed.
Lemma expr_top e : expr_below all_symbols rank top e.
Proof. induction e; cbn; auto using below_top. Qed.
Lemma opt_top e : opt_below all_symbols rank top e.
Proof. destruct e; [apply expr_top|done]. Qed.
Lemma consistent_top user k : consistent user top k -> forall r, consistent user r k.
Proof.
  intros [Hc Hv Hu Hn Hm] r. split; [exact Hc| |exact Hu|exact Hn|exact Hm].
  intros s Hs _. apply Hv; [exact Hs|exact (below_top s Hs)].
Qed.

(** What can be said of a value so that it can be written and read: strings are on
    one line. *)
Definition value_ok (s : symbol_ref) (v : symbol_value) : Prop :=
  is_logical (i_type (info s)) = false -> exists x, val v = VStr x /\ without nl x /\
    (i_type (info s) <> S_STRING -> last_char x <> Some cr).

Definition valid_number (s : symbol_ref) (v : symbol_value) : Prop :=
  is_logical (i_type (info s)) = false -> sym_string_valid info s (string_of (val v)) = true.

Lemma choiceval_no s : i_choiceval (info s) = false.
Proof. apply (ac_choice _ _ _ Hac). Qed.

(** The setting a written symbol has, when the reader takes it. *)
Definition read_back (s : symbol_ref) (v : symbol_value) : list (symbol_ref * setting) :=
  if is_logical (i_type (info s)) || sym_string_valid info s (string_of (val v)) then [(s, setting_of info s v)] else [].

(** A boolean is not m, nor is a tristate without modules. *)
Lemma sol_tri user s : In s all_symbols -> is_logical (i_type (info s)) = true ->
  tri (sol user s) = mod_ -> i_type (info s) = S_TRISTATE /\ modules <> no.
Proof.
  intros Hs Hl. unfold solution. rewrite reference_step by done. unfold step.
  intros Ht. assert (Hlog : spec_logical info modules user (reference info modules user all_symbols rank const) s = mod_)
    by (destruct (i_type (info s)); done).
  assert (Hb : spec_type info modules s <> S_BOOLEAN).
  { intros Eb. unfold spec_logical in Hlog. rewrite (bool_decide_eq_true_2 (spec_type info modules s = S_BOOLEAN)) in Hlog by done.
    cbv zeta in Hlog. unfold no_mod at 1 in Hlog. by destruct (EXPR_OR _ _). }
  clear Hlog. unfold spec_type in Hb. destruct (i_type (info s)); try done. split; [done|]. intros Em.
  by rewrite (bool_decide_eq_true_2 _ Em) in Hb.
Qed.

Lemma print_unset s n k : named info all_symbols s n -> is_logical (i_type (info s)) = true ->
  exists t, kconfig_print_symbol info CONFIG_ false s "n" k = Some (t, k) /\ reads t [(s, STri no)].
Proof.
  intros Hn Hl. unfold kconfig_print_symbol, print_name. rewrite Hl, (nm_name _ _ _ _ Hn).
  eexists. split; [reflexivity|]. apply read_unset; try done. apply choiceval_no.
Qed.
Lemma print_set s n v x k : named info all_symbols s n -> is_logical (i_type (info s)) && head_is "n" v = false ->
  without nl v -> last_char v <> Some cr ->
  (forall k, conf_set_sym_val info s v k = (do for_each x apply_setting ;; ret (match x with [] => true | _ => false end)) k) ->
  exists t, kconfig_print_symbol info CONFIG_ false s v k = Some (t, k) /\ reads t x.
Proof.
  intros Hn Hl Hv Hc Hset. unfold kconfig_print_symbol, print_name. rewrite Hl, (nm_name _ _ _ _ Hn).
  eexists. split; [reflexivity|]. rewrite app_assoc_s. by apply (read_set info all_symbols CONFIG_ Hprefix choiceval_no s).
Qed.

(** The line of a symbol whose value is known. *)
Lemma write_symbol_run user s n k : inv k -> consistent user top k -> In s all_symbols -> f_valid (syms k s) = true ->
  has_value_type info s -> named info all_symbols s n -> value_ok s (sol user s) ->
  exists t, conf_write_symbol info modules_sym calc (kconfig_print_symbol info CONFIG_ false) s k = Some (t, k) /\
  reads t (read_back s (sol user s)).
Proof.
  intros Hi Hk Hs Hv Hty Hn Hok.
  destruct (total_safe _ _ _ _ (safe_string_value info all_symbols modules_sym (calc_fuel all_symbols) calc
    (safe_calc_value info all_symbols modules_sym Hcfg _) s) k Hi) as (str & k1 & E & _ & _).
  destruct (string_value_run info modules user all_symbols rank const modules_sym Hmod Hmodval top calc
    (calc_value_spec info modules user all_symbols rank const Hac modules_sym Hmod Hmodval _ top) s k str k1
    (below_top s) Hk Hv E) as [-> Estr].
  unfold KExpr.sym_get_string_value, view, sym_get_tristate_value in Estr. cbn [type curr_tri curr_val] in Estr.
  fold (sol user s) in Estr. unfold conf_write_symbol.
  pose proof (sol_tri user s Hs) as Htri. destruct Hty as [Ht1 Ht2]. unfold read_back, setting_of, value_ok in *.
  destruct (i_type (info s)) eqn:Et; try done; rewrite (bind_some _ _ _ _ _ E); cbn [is_logical orb andb] in *.
  - destruct (tri (sol user s)); [|by destruct (Htri eq_refl eq_refl)|]; subst str.
    + by apply (print_unset s n); rewrite ?Et.
    + apply (print_set s n); rewrite ?Et; try done. intros k2. unfold conf_set_sym_val. by rewrite Et.
  - destruct (tri (sol user s)); subst str.
    + by apply (print_unset s n); rewrite ?Et.
    + rewrite bool_decide_eq_false_2 by by destruct (Htri eq_refl eq_refl).
      apply (print_set s n); rewrite ?Et; try done. intros k2. unfold conf_set_sym_val. by rewrite Et.
    + apply (print_set s n); rewrite ?Et; try done. intros k2. unfold conf_set_sym_val. by rewrite Et.
  - destruct (Hok eq_refl) as (x & Ex & Hx & Hl). rewrite Ex in Estr |- *. cbn [string_of] in *. subst str.
    apply (print_set s n); rewrite ?Et; try done; [by apply Hl|]. intros k2. unfold conf_set_sym_val. rewrite Et.
    by destruct (sym_string_valid info s x).
  - destruct (Hok eq_refl) as (x & Ex & Hx & Hl). rewrite Ex in Estr |- *. cbn [string_of] in *. subst str.
    apply (print_set s n); rewrite ?Et; try done; [by apply Hl|]. intros k2. unfold conf_set_sym_val. rewrite Et.
    by destruct (sym_string_valid info s x).
  - destruct (Hok eq_refl) as (x & Ex & Hx & _). rewrite Ex in Estr |- *. cbn [string_of] in *. subst str.
    unfold sym_string_valid. rewrite Et. unfold sym_escape_string_value. apply (print_set s n); rewrite ?Et; try done.
    + split; [done|]. apply without_app; [by apply escape_without|done].
    + change (String quote (escape x +++ String quote EmptyString)) with ((String quote (escape x)) +++ String quote EmptyString).
      by rewrite last_char_app.
    + intros k2. unfold conf_set_sym_val. rewrite Et. cbn [head_is tail]. rewrite Ascii.eqb_refl, unescape_escape.
      unfold sym_string_valid. by rewrite Et.
Qed.

(** ** The walk over the menus *)

Fixpoint menu_list (m : menu) : list menu := m :: flat_map menu_list (m_list m).
Definition todo (m : menu) (rest : list (list menu)) : list menu := menu_list m ++ flat_map (flat_map menu_list) rest.

Fixpoint menu_list_length (m : menu) : List.length (menu_list m) = menu_size m.
Proof.
  destruct m as [s p v l]. cbn [menu_list menu_size m_list List.length]. f_equal.
  induction l as [|c l IH]; [done|]. cbn [flat_map map list_sum foldr]. fold (list_sum (map menu_size l)).
  by rewrite length_app, menu_list_length, IH.
Qed.
Lemma menus_length l : List.length (flat_map menu_list l) = list_sum (map menu_size l).
Proof.
  induction l as [|m l IH]; [done|]. cbn [flat_map map list_sum foldr]. fold (list_sum (map menu_size l)).
  by rewrite length_app, menu_list_length, IH.
Qed.
Lemma next_parent_todo rest : match next_parent rest with
  | Some (m, rest') => flat_map (flat_map menu_list) rest = todo m rest' | None => flat_map (flat_map menu_list) rest = [] end.
Proof.
  induction rest as [|[|m l] rest IH]; cbn [next_parent flat_map]; [done|exact IH|].
  unfold todo. cbn [flat_map]. by rewrite <- app_assoc.
Qed.
(** The loop goes through the menus in preorder. *)
Lemma next_menu_todo m rest : match next_menu m rest with
  | Some (m', rest') => todo m rest = m :: todo m' rest' | None => todo m rest = [m] end.
Proof.
  destruct m as [s p v [|c l]]; unfold next_menu; cbn [m_list].
  - pose proof (next_parent_todo rest) as H. destruct (next_parent rest) as [[m' rest']|].
    + unfold todo at 1. cbn [menu_list m_list flat_map app]. by rewrite H.
    + unfold todo. cbn [menu_list m_list flat_map app]. by rewrite H.
  - unfold todo. cbn [menu_list m_list flat_map app]. by rewrite <- app_assoc.
Qed.

Lemma typed_or_not s : has_value_type info s \/ ~ has_value_type info s.
Proof.
  unfold has_value_type. destruct (decide (i_type (info s) = S_UNKNOWN)), (decide (i_type (info s) = S_OTHER)); tauto.
Qed.

Section User.
Context (user : symbol_ref -> option symbol_value).

(** What the menus have to be like: texts that are not taken for settings, symbols
    with names that can be found. *)
Record menu_ok (m : menu) : Prop := {
  mo_text : forall t e, m_sym m = None -> m_prompt m = Some (t, e) -> without nl t /\ comment_ok CONFIG_ t = true;
  mo_sym : forall s, m_sym m = Some s -> In s all_symbols;
  mo_name : forall s, m_sym m = Some s -> has_value_type info s -> exists n, named info all_symbols s n;
  mo_value : forall s, m_sym m = Some s -> has_value_type info s -> value_ok s (sol user s) }.

(** Symbols that are saved, and whose value can be read. *)
Record saved (s : symbol_ref) : Prop := {
  sv_type : has_value_type info s;
  sv_auto : i_auto (info s) = false;
  sv_visible : spec_visible info modules (sol user) s <> no;
  sv_valid : valid_number s (sol user s) }.

Definition marked (P : list symbol_ref) (k : kstate) : Prop :=
  forall s, In s all_symbols -> f_valid (syms k s) = true -> ~ In s P -> write_ok info s (syms k s).
(** The settings are those of symbols of the table, with their values. *)
Definition faithful (l : list (symbol_ref * setting)) : Prop :=
  forall p, In p l -> In p.1 all_symbols /\ p.2 = setting_of info p.1 (sol user p.1) /\ value_ok p.1 (sol user p.1).

Lemma marked_evolves P k k' : evolves info None k k' -> marked P k -> marked P k'.
Proof.
  intros He Hm s Hs Hv HP. destruct (He s) as [_ E]. specialize (E ltac:(done)). destruct (f_valid (syms k s)) eqn:Ev; [|auto].
  rewrite E. auto.
Qed.

(** Calculating an expression. *)
Lemma expr_run P e k : inv k -> consistent user top k -> marked P k -> exists x k',
  expr_calc_opt info modules_sym calc e k = Some (x, k') /\ inv k' /\ consistent user top k' /\ marked P k'.
Proof.
  intros Hi Hk Hm. destruct (total_safe _ _ _ _ (safe_expr_opt info all_symbols modules_sym (calc_fuel all_symbols) calc
    (safe_calc_value info all_symbols modules_sym Hcfg _) e) k Hi) as (x & k' & E & Hi' & _).
  destruct (calc_expr_opt info modules user all_symbols rank const modules_sym Hmod Hmodval top calc
    (calc_value_spec info modules user all_symbols rank const Hac modules_sym Hmod Hmodval _ top) e (opt_top e) k x k' Hk E)
    as (Hk' & _ & He & _).
  exists x, k'. split_and!; [done|done|done|by eapply marked_evolves].
Qed.

(** The mark is taken back. *)
Lemma unmark_run P s k : inv k -> consistent user top k -> marked P k ->
  let k' := with_sym s (set_write false) k in inv k' /\ consistent user top k' /\ marked (s :: P) k'.
Proof.
  intros Hi [Hc Hv Hu Hn Hm] HP k'. split_and!.
  - destruct (total_safe info all_symbols (fun _ => True) _ (safe_upd_other info all_symbols _ s (set_write false)
      ltac:(by intros [])) k Hi) as (x & k1 & [= _ <-] & Hi1 & _). exact Hi1.
  - split; cbn [syms with_sym k' modules_val]; [| | | |done]; intros t; destruct (decide (t = s)) as [->|]; auto;
      [exact (Hc s)|exact (Hv s)|exact (Hu s)|exact (Hn s)].
  - intros t Ht. unfold k'. rewrite syms_with. destruct (decide (t = s)) as [->|Hne].
    + intros _ Hn'. destruct Hn'. by left.
    + intros Hvt Hn'. apply HP; [done|done|]. intros H. apply Hn'. by right.
Qed.

Lemma reads_menu t : without nl t -> comment_ok CONFIG_ t = true ->
  reads (line_end +++ "#" +++ line_end +++ "# " +++ t +++ line_end +++ "#" +++ line_end) [].
Proof.
  intros Ht Hc.
  replace (line_end +++ "#" +++ line_end +++ "# " +++ t +++ line_end +++ "#" +++ line_end)
    with (line_end +++ ("#" +++ line_end) +++ ("# " +++ t +++ line_end) +++ ("#" +++ line_end)) by by rewrite !app_assoc_s.
  change [] with ([] ++ [] ++ [] ++ [] : list (symbol_ref * setting)).
  pose proof (reads_blank info all_symbols CONFIG_ Hprefix) as Hb. pose proof (reads_hash info all_symbols CONFIG_ Hprefix) as Hh.
  pose proof (reads_comment info all_symbols CONFIG_ t Ht Hc) as Hr. by repeat (apply reads_app; [done|]).
Qed.

Definition menu_symbol (m : menu) : list symbol_ref := match m_sym m with Some s => [s] | None => [] end.

Lemma menu_run P m k : menu_ok m -> inv k -> consistent user top k -> marked P k ->
  exists t k' l, write_menu info modules_sym CONFIG_ calc m k = Some (t, k') /\ inv k' /\ consistent user top k' /\
  marked (menu_symbol m ++ P) k' /\ reads t l /\ faithful l /\
  (forall s, m_sym m = Some s -> saved s -> ~ In s P -> In s (map fst l)).
Proof.
  intros [Ht Hs Hn Hval] Hi Hk Hm. unfold write_menu, menu_symbol. destruct (m_sym m) as [s|] eqn:Em.
  - specialize (Hs s eq_refl). destruct (ac_choice _ _ _ Hac s) as [Hch _]. rewrite Hch. cbn [app].
    destruct (ask_run info all_symbols modules_sym modules const rank Hcfg Hac Hmod Hmodval user s k Hi (consistent_top user k Hk))
      as (k1 & E1 & Hi1 & Hk1 & He1 & V1). specialize (Hk1 top). pose proof (marked_evolves P _ _ He1 Hm) as Hm1.
    rewrite (bind_some _ _ _ _ _ E1). erewrite bind_some by reflexivity.
    destruct (f_write (syms k1 s)) eqn:Ew.
    + erewrite bind_some by reflexivity. destruct (unmark_run P s k1 Hi1 Hk1 Hm1) as (Hi2 & Hk2 & Hm2).
      set (k2 := with_sym s (set_write false) k1) in *.
      assert (V2 : f_valid (syms k2 s) = true) by (unfold k2; rewrite syms_with, decide_True by done; exact V1).
      destruct (typed_or_not s) as [Hty|Hty].
      * destruct (Hn s eq_refl Hty) as (n & Hnm).
        destruct (write_symbol_run user s n k2 Hi2 Hk2 Hs V2 Hty Hnm (Hval s eq_refl Hty)) as (t & Et & Hrd).
        exists t, k2, (read_back s (sol user s)). split_and!; try done.
        -- intros p. unfold read_back. destruct (_ || _); [|done]. intros [<-|[]]. split_and!; try done. by apply Hval.
        -- intros s' [= <-] Hsv _. unfold read_back. pose proof (sv_valid _ Hsv) as Hvn. unfold valid_number in Hvn.
           destruct (is_logical (i_type (info s))); cbn [orb]; [by left|]. rewrite Hvn by done. by left.
      * exists EmptyString, k2, []. split_and!; try done; [|apply reads_nil|].
        -- unfold conf_write_symbol, has_value_type in *. destruct (i_type (info s)); done || (exfalso; by apply Hty).
        -- intros s' [= <-] Hsv. destruct Hty. apply (sv_type _ Hsv).
    + exists EmptyString, k1, []. split_and!; try done; [|apply reads_nil|].
      * intros t Hin Hvt Hn'. apply Hm1; [done|done|]. intros HP. apply Hn'. by right.
      * intros s' [= <-] Hsv HP. pose proof (Hm1 s Hs V1 HP (sv_type _ Hsv) (sv_auto _ Hsv)) as Hw.
        destruct (cn_valid _ _ _ _ _ _ _ _ Hk1 s Hs (below_top s Hs) V1) as [_ Hok].
        destruct (Hok (sv_type _ Hsv)) as [Hvis _]. unfold written in Hw. rewrite Hvis in Hw. specialize (Hw (sv_visible _ Hsv)).
        congruence.
  - unfold comment_is_visible, menu_get_prompt. destruct (m_prompt m) as [[t e]|] eqn:Ep.
    2: { exists EmptyString, k, []. split_and!; try done. apply reads_nil. }
    destruct (Ht t e eq_refl eq_refl) as [Hnl Hc].
    destruct (expr_run P (m_visibility m) k Hi Hk Hm) as (x & k1 & E1 & Hi1 & Hk1 & Hm1).
    destruct (bool_decide (x = no)) eqn:Ex.
    { exists EmptyString, k1, []. split_and!; try done; [|apply reads_nil].
      rewrite (bind_some _ _ k false k1); [done|]. by rewrite (bind_some _ _ _ _ _ E1), Ex. }
    destruct (expr_run P e k1 Hi1 Hk1 Hm1) as (y & k2 & E2 & Hi2 & Hk2 & Hm2).
    assert (E : forall b, bool_decide (y = no) = negb b -> (v <- expr_calc_opt info modules_sym calc (m_visibility m) ;;
      if bool_decide (v = no) then ret false else v <- expr_calc_opt info modules_sym calc e ;; ret (negb (bool_decide (v = no)))) k
      = Some (b, k2)).
    { intros b Hb. rewrite (bind_some _ _ _ _ _ E1), Ex, (bind_some _ _ _ _ _ E2), Hb. by destruct b. }
    destruct (bool_decide (y = no)).
    + exists EmptyString, k2, []. rewrite (bind_some _ _ _ _ _ (E false eq_refl)). split_and!; try done. apply reads_nil.
    + eexists _, k2, []. rewrite (bind_some _ _ _ _ _ (E true eq_refl)). split_and!; try done. by apply reads_menu.
Qed.

Lemma faithful_app l1 l2 : faithful l1 -> faithful l2 -> faithful (l1 ++ l2).
Proof. intros H1 H2 p [Hp|Hp]%in_app_iff; auto. Qed.

Lemma walk_run n : forall m rest P k, (List.length (todo m rest) <= n)%nat -> List.Forall menu_ok (todo m rest) ->
  inv k -> consistent user top k -> marked P k ->
  exists t k' l, write_menus (write_menu info modules_sym CONFIG_ calc) n m rest k = Some (t, k') /\ inv k' /\
  consistent user top k' /\ reads t l /\ faithful l /\
  (forall s, In s (flat_map menu_symbol (todo m rest)) -> saved s -> ~ In s P -> In s (map fst l)).
Proof.
  induction n as [|n IH]; intros m rest P k Hlen Hok Hi Hk Hm.
  { unfold todo in Hlen. destruct m. cbn in Hlen. lia. }
  pose proof (next_menu_todo m rest) as Hnext. cbn [write_menus].
  assert (Hm0 : menu_ok m) by (destruct (next_menu m rest) as [[m' rest']|]; rewrite Hnext in Hok; by inversion Hok).
  destruct (menu_run P m k Hm0 Hi Hk Hm) as (t & k1 & l & E & Hi1 & Hk1 & Hm1 & Hr & Hf & Hs).
  rewrite (bind_some _ _ _ _ _ E).
  assert (Hown : forall s, In s (menu_symbol m) -> saved s -> ~ In s P -> In s (map fst l)).
  { unfold menu_symbol. intros s. destruct (m_sym m) as [s'|]; [|done]. intros [->|[]]. by apply Hs. }
  destruct (next_menu m rest) as [[m' rest']|]; rewrite Hnext in *; cbn [flat_map].
  - inversion Hok as [|? ? _ Hok']; subst. cbn [List.length] in Hlen.
    destruct (IH m' rest' _ k1 ltac:(lia) Hok' Hi1 Hk1 Hm1) as (t2 & k2 & l2 & E2 & Hi2 & Hk2 & Hr2 & Hf2 & Hs2).
    exists (t +++ t2), k2, (l ++ l2). rewrite (bind_some _ _ _ _ _ E2).
    split_and!; [done|done|done|by apply reads_app|by apply faithful_app|].
    intros s Hin Hsv HP. rewrite map_app. apply in_app_iff.
    destruct (in_dec (fun x y => decide (x = y)) s (menu_symbol m)) as [Ho|Ho]; [left; auto|right].
    apply in_app_iff in Hin as [Hin|Hin]; [done|]. apply Hs2; [done|done|]. intros [?|?]%in_app_iff; done.
  - exists t, k1, l. split_and!; try done. intros s Hin Hsv HP. rewrite app_nil_r in Hin. auto.
Qed.

(** The whole file, from a state where the values at hand are right. *)
Definition all_menus (menus : list menu) : list menu := flat_map menu_list menus.
Definition heading_ok (title : string) : bool :=
  let text := substring 0 255 (line_end +++ "Automatically generated file; DO NOT EDIT." +++ line_end +++ title +++ line_end) in
  quiet CONFIG_ (S (String.length text)) text.

Lemma write_run title menus k : heading_ok title = true -> List.Forall menu_ok (all_menus menus) -> inv k ->
  consistent user top k -> marked [] k ->
  exists t k' l, conf_write info all_symbols modules_sym CONFIG_ (calc_fuel all_symbols) title menus true k = Some (t, k') /\
  inv k' /\ consistent user top k' /\ reads t l /\ faithful l /\
  (forall s, In s (flat_map menu_symbol (all_menus menus)) -> saved s -> In s (map fst l)).
Proof.
  intros Hh Hok Hi Hk Hm. unfold conf_write. erewrite bind_some by reflexivity. cbv zeta.
  assert (Hhead : reads (conf_write_heading kconfig_print_comment title) []).
  { unfold conf_write_heading, kconfig_print_comment. by apply reads_comment_lines. }
  destruct menus as [|m nexts]; [exists (conf_write_heading kconfig_print_comment title), k, []; split_and!; done || by intros ?|].
  assert (Htodo : todo m [nexts] = all_menus (m :: nexts)).
  { unfold todo, all_menus. cbn [flat_map]. by rewrite app_nil_r. }
  destruct (walk_run (list_sum (map menu_size (m :: nexts))) m [nexts] [] k) as (t & k' & l & E & Hi' & Hk' & Hr & Hf & Hs).
  - rewrite Htodo. unfold all_menus. by rewrite menus_length.
  - by rewrite Htodo.
  - done.
  - done.
  - done.
  - rewrite Htodo in Hs. exists (conf_write_heading kconfig_print_comment title +++ t), k', l.
    rewrite (bind_some _ _ _ _ _ E). split_and!; [done|done|done| |done|intros s H1 H2; apply Hs; [exact H1|exact H2|intros []]].
    exact (reads_app info all_symbols CONFIG_ _ [] _ _ Hhead Hr).
Qed.

(** ** Reading the settings *)

(** The user's setting of [s] is what [setting_of] says. *)
Definition has_setting (s : symbol_ref) (k : sym_state) : Prop :=
  exists u, user_of k = Some u /\
  if is_logical (i_type (info s)) then tri u = tri (sol user s) else val u = val (sol user s).

Definition same_but_user (k k' : kstate) : Prop := modules_val k' = modules_val k /\ forall s,
  f_valid (syms k' s) = f_valid (syms k s) /\ f_need (syms k' s) = f_need (syms k s) /\ curr (syms k' s) = curr (syms k s).

Lemma apply_one p k : faithful [p] -> exists k', apply_setting p k = Some (tt, k') /\ same_but_user k k' /\
  has_setting p.1 (syms k' p.1) /\ (forall s, s <> p.1 -> syms k' s = syms k s).
Proof.
  intros Hf. destruct (Hf p ltac:(by left)) as (_ & Ep & Hv). unfold apply_setting. rewrite Ep. unfold setting_of, has_setting, value_ok in *.
  destruct (is_logical (i_type (info p.1))); eexists; (split; [reflexivity|]).
  all: split; [split; [done|]; intros s; rewrite syms_with; by destruct (decide (s = p.1)) as [->|]|split].
  all: try (intros s Hs; by rewrite syms_with, decide_False).
  all: rewrite syms_with, decide_True by done; eexists; (split; [reflexivity|]); cbn [tri val].
  - done.
  - by destruct (Hv eq_refl) as (x & -> & _).
Qed.

Lemma same_but_user_trans k1 k2 k3 : same_but_user k1 k2 -> same_but_user k2 k3 -> same_but_user k1 k3.
Proof.
  intros [M1 H1] [M2 H2]. split; [congruence|]. intros s. destruct (H1 s) as (A1 & B1 & C1), (H2 s) as (A2 & B2 & C2). split_and!; congruence.
Qed.

Lemma apply_run l : forall k, faithful l -> exists k', for_each l apply_setting k = Some (tt, k') /\ same_but_user k k' /\
  (forall s, In s (map fst l) -> has_setting s (syms k' s)) /\ (forall s, ~ In s (map fst l) -> syms k' s = syms k s).
Proof.
  induction l as [|p l IH]; intros k Hf; [exists k; by repeat split|]. cbn [for_each map].
  destruct (apply_one p k ltac:(intros q [<-|[]]; apply Hf; by left)) as (k1 & E1 & S1 & Hp & Ho). rewrite (bind_some _ _ _ _ _ E1).
  destruct (IH k1 ltac:(intros q Hq; apply Hf; by right)) as (k2 & E2 & S2 & Hin & Hout). exists k2.
  split_and!; [done|by eapply same_but_user_trans| |].
  - intros s Hs. destruct (in_dec (fun x y => decide (x = y)) s (map fst l)) as [Hl|Hl]; [auto|]. rewrite (Hout s Hl).
    by destruct Hs as [<-|Hs].
  - intros s Hs. rewrite Hout by (intros H; apply Hs; by right). apply Ho. intros ->. apply Hs. by left.
Qed.

Lemma forget_run l : forall k, exists k', for_each l (forget info) k = Some (tt, k') /\ modules_val k' = modules_val k /\
  (forall s, f_need (syms k' s) = f_need (syms k s) /\ curr (syms k' s) = curr (syms k s)) /\
  (forall s, In s l -> f_valid (syms k' s) = false /\ f_def_user (syms k' s) = i_choice (info s)) /\
  (forall s, ~ In s l -> syms k' s = syms k s).
Proof.
  induction l as [|s l IH]; intros k; [exists k; by split_and!|]. cbn [for_each]. erewrite bind_some by reflexivity.
  set (k1 := with_sym s _ k). destruct (IH k1) as (k2 & E & M & H1 & H2 & H3). exists k2. split_and!; [done|done| | |].
  - intros t. destruct (H1 t) as [-> ->]. unfold k1. rewrite syms_with. by destruct (decide (t = s)) as [->|].
  - intros t Ht. destruct (in_dec (fun x y => decide (x = y)) t l) as [Hl|Hl]; [auto|]. rewrite (H3 t Hl).
    destruct Ht as [<-|Ht]; [|done]. unfold k1. by rewrite syms_with, decide_True.
  - intros t Ht. rewrite H3 by (intros H; apply Ht; by right). unfold k1. rewrite syms_with, decide_False; [done|].
    intros ->. apply Ht. by left.
Qed.
End User.

Lemma read_run user l text k : reads text l -> faithful user l -> inv k -> started all_symbols modules const k ->
  exists k', conf_read_simple info all_symbols modules_sym CONFIG_ (calc_fuel all_symbols) text k = Some (tt, k') /\ inv k' /\
  (forall r, consistent (users k') r k') /\ (forall s, In s (map fst l) -> has_setting user s (syms k' s)) /\
  (forall s, In s all_symbols -> ~ In s (map fst l) -> users k' s = None).
Proof.
  intros [_ Hr] Hf [Hi1 Hi2 Hi3] [Hc Hn Hm]. unfold conf_read_simple.
  destruct (forget_run all_symbols k) as (k1 & E1 & M1 & S1 & In1 & Out1). rewrite (bind_some _ _ _ _ _ E1).
  destruct (apply_run user l k1 Hf) as (k2 & E2 & [M2 S2] & In2 & Out2). rewrite <- (Hr k1) in E2. rewrite (bind_some _ _ _ _ _ E2).
  assert (Hin : forall s, ~ In s all_symbols -> syms k2 s = syms k s).
  { intros s Hs. rewrite Out2; [by apply Out1|]. intros (p & <- & Hp)%in_map_iff. by destruct (Hf p Hp). }
  assert (Hcurr : forall s, curr (syms k2 s) = curr (syms k s) /\ f_need (syms k2 s) = f_need (syms k s)).
  { intros s. destruct (S1 s) as [A1 B1], (S2 s) as (_ & A2 & B2). split; congruence. }
  exists k2. split_and!.
  - apply calc_valid_run; [unfold calc_fuel; lia|]. rewrite Hin by done. by apply Hc.
  - split; [intros s Hs; by rewrite Hin, Hi1|intros s; rewrite (proj2 (Hcurr s)); apply Hi2|].
    intros s. unfold typed_state. rewrite (proj1 (Hcurr s)). apply Hi3.
  - intros r. constructor; [intros s Hs; rewrite Hin by done; by apply Hc| |done| |congruence].
    + intros s Hs _ Hv. destruct (S2 s) as (V2 & _ & _), (In1 s Hs) as [V1 _]. congruence.
    + intros s. rewrite (proj2 (Hcurr s)). apply Hn.
  - exact In2.
  - intros s Hs Hl. unfold users, user_of. rewrite Out2 by done. destruct (In1 s Hs) as [_ ->].
    by destruct (ac_choice _ _ _ Hac s) as [-> _].
Qed.

(** The equations have one solution. *)
Lemma solution_unique user rho : (forall s, In s all_symbols -> rho s = step info modules user rho s) ->
  (forall s, ~ In s all_symbols -> rho s = const s) -> forall s, rho s = sol user s.
Proof.
  intros Hin Hout. enough (H : forall n s, (rank s < n)%nat -> rho s = sol user s) by (intros s; apply (H (S (rank s))); lia).
  induction n as [|n IH]; intros s Hs; [lia|].
  destruct (in_dec (fun x y => decide (x = y)) s all_symbols) as [Ha|Ha].
  - rewrite Hin by done. unfold solution. rewrite (reference_step info modules user all_symbols rank const Hac s Ha).
    eapply step_agree; [done..|]. intros t Ht. destruct (in_dec (fun x y => decide (x = y)) t all_symbols) as [Ht'|Ht'].
    + specialize (Ht Ht'). apply IH. lia.
    + rewrite Hout by done. by rewrite reference_const.
  - rewrite Hout by done. unfold solution. by rewrite reference_const.
Qed.

(** Values that the file can hold: a visible symbol is in the menus and not taken
    from the environment; its value is not above what its visibility and its
    selects allow; a number is valid and in its range. *)
Record restorable (user : symbol_ref -> option symbol_value) (menus : list menu) (s : symbol_ref) : Prop := {
  rs_menu : In s (flat_map menu_symbol (all_menus menus));
  rs_auto : i_auto (info s) = false;
  rs_tri : is_logical (i_type (info s)) = true ->
    tri_val (tri (sol user s)) <= Z.max (tri_val (spec_visible info modules (sol user) s)) (tri_val (spec_rev info modules (sol user) s));
  rs_valid : valid_number s (sol user s);
  rs_range : is_logical (i_type (info s)) = false -> spec_range info modules (sol user) s (val (sol user s)) = val (sol user s) }.

(** What selects a symbol is a lower bound. *)
Lemma sol_rev user s : In s all_symbols -> is_logical (i_type (info s)) = true ->
  tri_val (spec_rev info modules (sol user) s) <= tri_val (tri (sol user s)).
Proof.
  intros Hs Hl. unfold solution at 2. rewrite reference_step by done. fold (sol user).
  assert (E : tri (step info modules user (sol user) s) = spec_logical info modules user (sol user) s).
  { unfold step. by destruct (i_type (info s)). }
  rewrite E. unfold spec_logical. cbv zeta. generalize (spec_rev info modules (sol user) s). intros r.
  match goal with |- context[EXPR_OR ?x r] => generalize x end. intros x. generalize (bool_decide (spec_type info modules s = S_BOOLEAN)).
  intros b. destruct b, x, r; cbn; lia.
Qed.
Lemma tri_settled b x vis rev : x = no_mod b x -> tri_val rev <= tri_val x -> tri_val x <= Z.max (tri_val vis) (tri_val rev) ->
  no_mod b (EXPR_OR (EXPR_AND x vis) rev) = x.
Proof. destruct b, x, vis, rev; cbn; done || lia. Qed.

(** Setting a symbol to its own value, when it is shown, changes nothing. *)
Lemma step_settled user user2 menus s : In s all_symbols ->
  (has_value_type info s -> spec_visible info modules (sol user) s <> no -> restorable user menus s /\
    exists u, user2 s = Some u /\ if is_logical (i_type (info s)) then tri u = tri (sol user s) else val u = val (sol user s)) ->
  sol user s = step info modules user2 (sol user) s.
Proof.
  intros Hs Hset. assert (Heq : sol user s = step info modules user (sol user) s) by by apply reference_step.
  destruct (decide (spec_visible info modules (sol user) s = no)) as [Hv|Hv].
  { rewrite Heq at 1. unfold step, spec_logical, spec_string. by rewrite !(bool_decide_eq_true_2 _ Hv). }
  destruct (typed_or_not s) as [Hty|Hty].
  2: { rewrite Heq at 1. unfold step, has_value_type in *. destruct (i_type (info s)); done || (exfalso; by apply Hty). }
  destruct (Hset Hty Hv) as ([_ _ Htri _ Hrange] & u & Eu & Hu).
  assert (Hm : is_logical (i_type (info s)) = true -> tri (sol user s) = no_mod (bool_decide (spec_type info modules s = S_BOOLEAN)) (tri (sol user s))).
  { intros Hl. destruct (bool_decide (spec_type info modules s = S_BOOLEAN)) eqn:Eb; [|done]. apply bool_decide_eq_true in Eb.
    pose proof (sol_tri user s Hs Hl) as Ht. unfold spec_type in Eb. destruct (tri (sol user s)); try done.
    destruct (Ht eq_refl) as [Et Em]. rewrite Et, (bool_decide_eq_false_2 (modules = no)) in Eb by done. done. }
  pose proof (sol_rev user s Hs) as Hrev. destruct Hty as [Ht1 Ht2].
  assert (Hl : is_logical (i_type (info s)) = true -> spec_logical info modules user2 (sol user) s = tri (sol user s)).
  { intros Hl. unfold spec_logical. rewrite Eu, (bool_decide_eq_false_2 (spec_visible info modules (sol user) s = no)) by done.
    rewrite Hl in Hu. rewrite Hu. apply tri_settled; auto. }
  assert (Hst : is_logical (i_type (info s)) = false -> spec_string info modules user2 (sol user) s = val (sol user s)).
  { intros Hl'. unfold spec_string. rewrite Eu, bool_decide_eq_false_2 by done. by rewrite Hl' in Hu. }
  unfold step in *. destruct (i_type (info s)); cbn [is_logical] in *; try done.
  1,2: rewrite Hl by done; rewrite Heq at 1; f_equal; by rewrite Heq.
  all: rewrite Hst, Hrange by done; rewrite Heq at 1; f_equal; by rewrite Heq.
Qed.

(** What a save finds.  After a change (each setting that changes a value clears
    all values, which is what [conf_get_changed] reports) any symbols have been
    looked at again; without one [conf_write] clears the values itself. *)
Definition before_save (changed : bool) (looked : list symbol_ref) : MK unit :=
  if changed then do sym_clear_all_valid info all_symbols modules_sym (calc_fuel all_symbols) ;; for_each looked calc else ret tt.
Lemma before_save_run changed looked k : inv k -> started all_symbols modules const k -> exists k1 k2,
  before_save changed looked k = Some (tt, k1) /\
  (do (if changed then ret tt else sym_clear_all_valid info all_symbols modules_sym (calc_fuel all_symbols)) ;; ret tt) k1 = Some (tt, k2) /\
  inv k2 /\ consistent (users k) top k2 /\ marked [] k2.
Proof.
  intros Hi Hst.
  destruct (clear_run info all_symbols modules_sym modules const rank Hmod k Hst) as (k1 & E1 & Hk1 & Hinv1).
  destruct (total_clear info all_symbols modules_sym Hcfg k Hi) as ([] & k1' & E1' & Hi1 & _). rewrite E1 in E1'. injection E1' as <-.
  assert (Hm1 : marked [] k1) by (intros s Hs Hv; by rewrite Hinv1 in Hv). destruct changed.
  - destruct (ask_all_run info all_symbols modules_sym modules const rank Hcfg Hac Hmod Hmodval (users k) looked k1 Hi1 Hk1)
      as (k2 & E2 & Hi2 & Hk2 & M2 & _).
    exists k2, k2. split_and!; [unfold before_save; by rewrite (bind_some _ _ _ _ _ E1)|done|done|apply Hk2|by eapply marked_evolves].
  - exists k, k1. split_and!; [done|by rewrite (bind_some _ _ _ _ _ E1)|done|apply Hk1|done].
Qed.

(** C4: a configuration that is saved and loaded again gives every symbol the
    value it had.  In a configuration without choices and circles and with no
    symbol for modules, whose menu texts do not look like settings and whose names
    and strings fit on a line: whether settings have been changed since the last
    save and symbols looked at after that ([changed]) or not, [conf_write] ends
    with a file, and whatever the settings are later, reading that file with
    [conf_read_simple] ends too, and after it every symbol asked for has the value
    it had when the file was written.  The values have to be ones a file can hold
    ([restorable]): a default above the visibility of its prompt, or a number out
    of its range, is not given back. *)
Theorem saved_configuration_is_restored title menus asks changed looked k : heading_ok title = true ->
  List.Forall (menu_ok (users k)) (all_menus menus) ->
  (forall s, In s all_symbols -> has_value_type info s -> spec_visible info modules (sol (users k)) s <> no ->
     restorable (users k) menus s) ->
  inv k -> started all_symbols modules const k ->
  exists text k1, (do before_save changed looked ;;
    conf_write info all_symbols modules_sym CONFIG_ (calc_fuel all_symbols) title menus changed) k = Some (text, k1) /\
  forall k0, inv k0 -> started all_symbols modules const k0 ->
  exists k2, (do conf_read_simple info all_symbols modules_sym CONFIG_ (calc_fuel all_symbols) text ;; for_each asks calc) k0
    = Some (tt, k2) /\
  forall s, In s asks -> curr (syms k2 s) = sol (users k) s.
Proof.
  intros Hh Hmenus Hrest Hi Hst.
  destruct (before_save_run changed looked k Hi Hst) as (ka & k1 & Ea & E1 & Hi1 & Hk1 & Hm1).
  destruct (write_run (users k) title menus k1 Hh Hmenus Hi1 Hk1 Hm1) as (text & k2 & l & E2 & _ & _ & Hr & Hf & Hall).
  exists text, k2. split.
  { rewrite (bind_some _ _ _ _ _ Ea). unfold conf_write in *. destruct changed; [by injection E1 as ->|].
    apply bind_inv in E1 as ([] & kb & E1 & [= ->]). rewrite (bind_some _ _ _ _ _ E1). exact E2. }
  intros k0 Hi0 Hst0. destruct (read_run (users k) l text k0 Hr Hf Hi0 Hst0) as (k3 & E3 & Hi3 & Hk3 & Hin & Hout).
  rewrite (bind_some _ _ _ _ _ E3).
  destruct (ask_all_run info all_symbols modules_sym modules const rank Hcfg Hac Hmod Hmodval (users k3) asks k3 Hi3 Hk3)
    as (k4 & E4 & _ & Hk4 & _ & V4).
  exists k4. split; [exact E4|]. intros s Hs. rewrite (consistent_curr info all_symbols modules const rank (users k3)) by auto.
  symmetry. apply solution_unique; [|intros t; by apply reference_const].
  intros t Ht. apply (step_settled _ _ menus); [done|]. intros Hty Hv. specialize (Hrest t Ht Hty Hv). split; [done|].
  destruct (Hin t) as (u & Eu & Hu).
  - apply Hall; [apply (rs_menu _ _ _ Hrest)|]. by destruct Hrest.
  - exists u. by split.
Qed.
End World.

(** ** An example *)

Module SampleFile.
Definition menus : list menu :=
  [Menu None (Some ("Sample"%string, None)) None
     [Menu (Some SampleEq.A) None None []; Menu (Some SampleEq.B) None None [Menu (Some SampleEq.H) None None []]]].
Abbreviation sol := (solution SampleEq.info SampleEq.all no SampleEq.const SampleEq.rank (users SampleEq.start)).
Abbreviation named_in := (named SampleEq.info SampleEq.all).

Lemma names s : In s SampleEq.all -> exists n, named_in s n.
Proof.
  intros Hs. destruct (SampleEq.in_all s Hs) as [->|[->| ->]]; eexists; split; try reflexivity; by cbn.
Qed.
Lemma numbers : val (sol SampleEq.H) = VStr "0x20".
Proof. vm_compute. reflexivity. Qed.

Lemma menus_ok : List.Forall (menu_ok SampleEq.info SampleEq.all no SampleEq.const SampleEq.rank "CONFIG_" (users SampleEq.start)) (all_menus menus).
Proof.
  assert (Hsym : forall s l, In s SampleEq.all -> menu_ok SampleEq.info SampleEq.all no SampleEq.const SampleEq.rank "CONFIG_"
    (users SampleEq.start) (Menu (Some s) None None l)).
  { intros s l Hs. split; cbn; [done|by intros ? [= <-]|intros ? [= <-] _; by apply names|].
    intros ? [= <-] _ Hl. destruct (SampleEq.in_all s Hs) as [->|[->| ->]]; [done..|].
    exists "0x20"%string. split_and!; [exact numbers|done..]. }
  unfold all_menus. cbn [menus flat_map menu_list m_list app].
  repeat apply List.Forall_cons; try apply List.Forall_nil; try (apply Hsym; cbn; tauto).
  split; try done. intros t e _ [= <- <-]. by split.
Qed.
Lemma values_restorable s : In s SampleEq.all ->
  restorable SampleEq.info SampleEq.all no SampleEq.const SampleEq.rank (users SampleEq.start) menus s.
Proof.
  intros Hs. destruct (SampleEq.in_all s Hs) as [->|[->| ->]].
  all: split; [cbn; tauto|done|intros _; vm_compute; done|..]; try done.
  all: intros _; vm_compute; done.
Qed.
End SampleFile.

Abbreviation sample_read := (conf_read_simple SampleEq.info SampleEq.all symbol_no "CONFIG_" (calc_fuel SampleEq.all)).

(** H, set out of its range, is saved as the bound. *)
Lemma saved_configuration_is_restored_witness :
  exists text k1, (do before_save SampleEq.info SampleEq.all symbol_no true [SampleEq.A] ;;
    conf_write SampleEq.info SampleEq.all symbol_no "CONFIG_" (calc_fuel SampleEq.all) "Sample" SampleFile.menus true)
    SampleEq.start = Some (text, k1) /\
  forall k0, inv SampleEq.info SampleEq.all k0 -> started SampleEq.all no SampleEq.const k0 ->
  exists k2, (do sample_read text ;; for_each [SampleEq.H; SampleEq.B] (sym_calc_value SampleEq.info SampleEq.all symbol_no (calc_fuel SampleEq.all))) k0
    = Some (tt, k2) /\
  forall s, In s [SampleEq.H; SampleEq.B] -> curr (syms k2 s) = SampleFile.sol s.
Proof.
  apply (saved_configuration_is_restored SampleEq.info SampleEq.all symbol_no no SampleEq.const SampleEq.rank
    SampleEq.config_ok_info SampleEq.acyclic_info sample_mod eq_refl "CONFIG_"
    ltac:(split; [by cbn|by exists "C"%char, "ONFIG_"%string]) "Sample" SampleFile.menus [SampleEq.H; SampleEq.B]
    true [SampleEq.A] SampleEq.start).
  - vm_compute. reflexivity.
  - exact SampleFile.menus_ok.
  - intros s Hs _ _. by apply SampleFile.values_restorable.
  - exact SampleEq.inv_of_start.
  - exact SampleEq.started_start.
Defined.

(** The file of the example. *)
Example sample_text : match conf_write SampleEq.info SampleEq.all symbol_no "CONFIG_" (calc_fuel SampleEq.all) "Sample" SampleFile.menus false
    SampleEq.start with Some (t, _) => compat_getlines t | None => [] end =
  map (fun l => l +++ line_end) ["#"; "# Automatically generated file; DO NOT EDIT."; "# Sample"; "#"; ""; "#"; "# Sample"; "#";
    "CONFIG_A=y"; "CONFIG_B=y"; "CONFIG_H=0x20"]%string.
Proof. vm_compute. reflexivity. Qed.
